(* ===== verification/_CoqProject ===== *)
-Q . S2P
Prelude.v
GoNumbers.v
ThirdParty.v
Sql.v
Machine.v
Money.v
Deposits.v
Transfer.v
Outbox.v
Messaging.v
Relay.v
RelayProps.v
Leader.v
LedgerEntries.v
Treasury.v
TreasuryFacts.v
TreasuryProps.v
TreasuryConcurrent.v
TreasuryFlush.v
TreasurySync.v
TreasuryFlushProps.v
TreasuryRecovery.v
TreasuryDB.v
TransferStore.v
DepositStore.v
DepositEngine.v
DepositProps.v
DepositBooks.v
BankDepositStore.v
BankDepositEngine.v
BankDepositProps.v
DepositRuns.v
NetSettlement.v
NetSettlementStore.v
NetSettlementProps.v
NetSettlementSchedule.v
NetSettlementRuns.v
Resilience.v
ResilienceProps.v
Engine.v
EngineFacts.v
EngineProps.v
EnginePipeline.v
EngineCreate.v
EngineWitness.v
TreasuryWorker.v
Subscriber.v
TransferWorker.v
RelayRuns.v
ProviderTxs.v
ProviderWorker.v
WebhookInbound.v
ProviderProps.v
BlockchainWorker.v
BlockchainProps.v
Recovery.v
RecoveryProps.v
Compensation.v
CompensationProps.v
Router.v
RouterProps.v
WorkerRuns.v
LedgerSync.v
LedgerBackend.v
LedgerService.v
LedgerProps.v
LedgerBooks.v
LedgerQueue.v
LedgerRuns.v
TreasuryWorkerProps.v
TreasuryCrash.v
Cache.v
PaymentLinks.v
Positions.v
PositionProps.v
ChainMonitor.v
DepositWorkers.v
ChainProps.v
ChainRuns.v
Reconciliation.v
