(* ===== verification/Prelude.v ===== *)
(** * Settla: the settlement core, verified

    Settla is a settlement service for fintechs: a tenant asks for a transfer
    of a fiat amount to a recipient in another currency, and the service takes
    it through an on-ramp (fiat to stablecoin), a blockchain settlement and an
    off-ramp (stablecoin to fiat).  This library models the Go code that
    decides what happens to a transfer and to the money behind it, and proves
    the properties that make that code correct.  Where the code does something
    else than a comment or a caller expects, the behaviour is a theorem too.

    ** The program's parts and how they interact

    - domain (src/domain): the data, namely money and fees, the transfer and its
      state machine, deposit sessions, quotes, tenants, positions, the entries
      of the transactional outbox, journal entries.
    - core (src/core/engine.go): the engine.  A handler reads a transfer,
      decides the next status and writes it with its outbox entries in one
      database transaction guarded by the transfer's version.  It performs no
      side effect itself: an entry that is an intent asks a worker for one.
      src/core/deposit, bankdeposit, paymentlink and position follow the same
      pattern for deposits, payment links, top-ups and withdrawals;
      src/core/settlement nets the day's transfers; recovery, compensation and
      reconciliation look after what got stuck or does not add up.
    - node (src/node): the outbox relay, run by the leader, publishes the
      entries to NATS streams; subscribers hand each message to a worker, which
      performs the side effect of an intent and publishes the outcome, which
      drives the next handler of the engine.  The chain monitor looks for
      deposits on blockchains.
    - treasury (src/treasury): the balances of a tenant per currency and
      location, held in memory as atomic 64-bit counters.  Reserve, Release,
      CommitReservation, ConsumeReservation, CreditBalance and DebitBalance
      move them; a flush goroutine writes them to the database every 100 ms,
      an event writer appends the audit trail, and start-up loads the table and
      replays the open reservations of the write-ahead log.
    - ledger (src/ledger): posts journal entries to TigerBeetle through a
      batcher and copies them to a Postgres read model.
    - rail (src/rail/router): chooses providers and a chain for a transfer.
    - store (src/store/transferdb, src/store/treasurydb, src/store/ledgerdb):
      the Postgres adapters of the stores the components call.
    - resilience, cache (src/resilience, src/cache): circuit breakers, bulkheads,
      retries and load shedding around dependencies; local and Redis caches, the
      rate limiter and the index of active tenants.

    ** Which file models what

    Shared:

    - Prelude: Go's [error] and [(T, error)] results ([error], [result],
      [is_optimistic_lock] for errors.Is), the notations [let?] and [let!] for
      Go's error returns, [int64] wrap-around with its tactic [int64] and the
      hint database [go_int], rule induction for reachable states.  The
      databases [dec_vals] (ThirdParty), [treasury] (TreasuryFacts) and
      [tracking] (TreasurySync) carry the routine steps of their components.
    - GoNumbers: float64 as IEEE 754 at 53 bits, durations and instants, and
      SHA-256 (Module [Sha256]), all executable.
    - ThirdParty: shopspring/decimal and google/uuid as the class
      [ThirdParty] with the documented behaviour the code relies on as
      [ThirdPartyLaws]; [QInstance] is an executable instance.
    - Sql: a database session whose calls fail, succeed, or succeed without the
      caller hearing of it, as a schedule says; ordering, limits, constraints.
    - Machine: state machines whose moves are guarded by a version, and what
      follows for any interleaving of their handlers.

    Domain and engine:

    - Money: money.go, slippage.go, the fee schedule and [CalculateFee] of
      tenant.go, [Sender]/[Recipient] validation of transfer.go.
    - Transfer: transfer.go ([TransferStatus], [ValidTransitions],
      [TransitionTo], [CanTransitionTo]), quote.go, the tenant of tenant.go.
    - Deposits: deposit.go and bank_deposit.go, sessions and state machines.
    - Outbox: outbox.go, with one constructor of [Payload] per payload struct.
    - LedgerEntries: ledger.go, [ValidateEntries] with its two map loops.
    - TransferStore: the port of src/core/store.go with its laws, and Module
      [Adapter]: outbox_store.go and adapter.go, which keep them.  A commit may
      succeed without the caller hearing of it ([db_lost]), and a row gets its
      id from the default of its column, if there is one ([db_ids]; the shipped
      migrations have none, [create_needs_id_default]).
    - Engine: engine.go, every handler.  EngineFacts: a handler is a read, a
      plan and a write.  EngineProps: handlers alone and interleaved, ledger
      lines.  EnginePipeline: [ProcessTransfer].  EngineCreate:
      [CreateTransfer].  EngineWitness: a concrete transfer.

    Treasury:

    - Treasury: manager.go, position_state.go, store.go.  [Manager] is the
      struct; positions live in a heap of [PositionState]s that three maps
      index through pointers, as in Go.  The idempotency cache is its sixteen
      shards.  TreasuryFacts: the atomic meaning of each operation.
      TreasuryProps: client calls ([run]), the abstract treasury and the
      theorems.  TreasuryConcurrent: the same operations as threads, one step
      per atomic access, claim or rollback of a key, log write and flush, with
      an arbitrary scheduler.
    - TreasuryFlush: flush.go, event_writer.go, loader.go.  TreasurySync: the
      laws of [TreasuryStore] and the invariant [tracked].  TreasuryFlushProps
      and TreasuryRecovery: the theorems on flushing and on start-up.
    - TreasuryDB, Module [TreasuryAdapter]: treasury_store.go and its
      statements over tables, an instance of the laws.
    - TreasuryWorker, TreasuryWorkerProps: the worker's handlers and what the
      intents of the engine do to the books.  TreasuryCrash: two crashes and
      the concrete runs of the theorems on flush, start-up and worker.

    Ledger: LedgerSync (Postgres read model and sync consumer), LedgerBackend
    (TigerBeetle backend and batcher), LedgerService (ledger.go and the ledger
    worker); LedgerProps, LedgerBooks and LedgerQueue hold the theorems on what
    is posted, on balances and on the queues, LedgerRuns the runs.

    From the outbox to the workers: Messaging (subjects, partitions, streams),
    Relay and RelayProps (the relay, one and many), Leader (leader election),
    Subscriber (decoding, acknowledgement, redelivery), TransferWorker,
    RelayRuns; ProviderTxs, ProviderWorker (with the manual reviews as Module
    [Reviews]), WebhookInbound and ProviderProps for the ramps;
    BlockchainWorker and BlockchainProps for the sends; Recovery, Compensation
    and Router with their Props; WorkerRuns runs all of these.

    Deposits, links and positions: DepositStore and DepositEngine, DepositProps
    (interleavings) and DepositBooks (amounts); BankDepositStore,
    BankDepositEngine and BankDepositProps; DepositRuns; ChainMonitor,
    DepositWorkers, ChainProps and ChainRuns; PaymentLinks; Positions and
    PositionProps (position transactions and the rebalance worker).

    Around the core: NetSettlement (calculator, netting, scheduler),
    NetSettlementStore, NetSettlementProps, NetSettlementSchedule and
    NetSettlementRuns; Resilience and ResilienceProps; Cache (local cache,
    tenant cache, idempotency and quote caches, rate limiter, tenant index);
    Reconciliation (the eight checks, their queries and the reconciler).

    A store or service is a class with laws.  The theorems on a component are
    proved from the laws; where the adapter is under src/store it is modelled
    too and is an instance, otherwise the instance is a small executable one
    that the runs use.

    ** What the theorems show

    - Treasury, one call after another: the manager refines an abstract
      treasury in exact integers, in which only a used key makes a call succeed
      without effect ([run_refines_spec]); from solvent books with room in
      int64 for the credits every run stays solvent ([exec_solvent]) and
      accounts for every unit ([exec_conservation]); an error rolls back ([run_error_rolls_back]); a
      repeated reference is a no-op ([run_idempotent]); the sharded
      idempotency cache is one map ([tryAcquire_one_map]); conversion to
      micro-units truncates and round-trips.
    - Treasury, goroutines at once: Reserve, Release and CreditBalance are
      linearizable and never over-commit while log writes and flushes succeed
      and balances have room for the credits ([concurrent_linearizable],
      [concurrent_no_overcommit]), and of calls with one key at most one takes
      effect; a Reserve that
      runs alone returns ([reserve_solo_terminates]).  With CommitReservation,
      ConsumeReservation, DebitBalance or a failing log write in the mix this
      is false, and the interleavings are exhibited
      ([reserve_consume_overcommits] and its three neighbours).
    - Flush and restart: a flush persists every position or counts the failure
      and keeps it dirty ([flushOnce_persists]); start-up terminates and
      rebuilds the books from rows and log ([LoadPositions_restores],
      [LoadPositions_tracked]), so a restart after a clean flush is the
      identity on the books, if the log is sound: readable, with one open
      operation per reference and amounts below the synchronous flush
      ([restart_restores_books]).  After a crash a
      credit that was not flushed is lost ([crash_loses_credit]) and a
      reservation that the worker released is back
      ([restart_revives_released]).
    - Engine: a handler changes nothing or moves one transfer along the edge of
      its operation with its entries, and an error means that nothing was
      written unless the answer to the commit was lost ([handle_safe]); under
      any interleaving of handlers a
      transfer's history is a path of the state machine of at most seven
      moves, with exactly the treasury intents of that path
      ([interleaved_history]), so that a consume intent is posted once and only
      on completion ([completed_settles_once], [unfinished_never_consumed]);
      [ProcessTransfer_completes] is the liveness of the synchronous pipeline;
      [CreateTransfer_sound], [CreateTransfer_error] and
      [CreateTransfer_idempotent] cover creation.  Refunds and failures that
      ask for too much are [settlement_refund_releases_twice] and
      [fail_created_releases_unreserved]; [offramp_replay_is_error] is a
      replay that is not skipped.
    - Double entry and fees: [ValidateEntries_spec] is the double-entry rule,
      [completionLines_valid] and [onRampLines_never_valid] apply it to the
      engine's entries; [CalculateFee_bounds] and [CalculateFee_mono].
    - Engine, worker and treasury together: [settled_transfer_debits],
      [redelivery_no_second_effect], [refunded_transfer_releases_twice].
    - Ledger: an entry becomes one exact chain of transfers
      ([transfers_of_entry]) that is posted completely and once or not at all
      ([posted_exactly_once]) and moves the reported balances by its lines
      when nothing else is in its batch and its amounts are whole units
      ([posting_moves_balances]); a reversal undoes it
      ([reversal_undoes_posting]); nothing falls between the queues
      ([batcher_conserves], [sync_conserves], [stop_drains]).
    - Messages: any number of relays deliver an entry exactly once within the
      duplicate window ([relay_exactly_once]); one leader is in force
      ([one_leader_in_force]); an event takes effect at most once
      ([event_applied_at_most_once]) and a created transfer gets funded
      ([created_entry_funds_transfer]).
    - Side effects: at most one delivery calls a provider
      ([provider_call_exclusive]) or gives a transaction to a chain
      ([sent_at_most_once]), a strategy of compensation runs at most once
      ([compensated_at_most_once]); recovery visits what is stuck, a share of
      each tenant, and runs the one step of the engine that the provider's or
      the chain's answer calls for, or escalates ([recovery_is_justified]); the
      route is the best candidate
      ([route_is_best], [candidate_iff]).
    - Deposits: every interleaving asks for one credit of a session
      ([deposit_credited_once]), which is paid once while the treasury keeps
      its key ([credit_paid_once]; twice after a clean-up or a restart,
      [credit_paid_again_after_cleanup]), or, at the bank, credits or
      refunds it ([bank_credited_or_refunded]); what is received is what was
      paid ([received_is_paid]); a poll covers its blocks
      ([log_chunks_cover]), but a deposit it finds never arrives
      ([detected_deposit_never_arrives]).  A link keeps its limit but for the
      redemptions that overlap ([link_redeemed_within_limit],
      [overlapping_payers_exceed_limit]); a position transaction has one intent
      and a late result leaves a decided one as it is
      ([position_tx_one_intent]), but a rebalance can create money
      ([rebalance_creates_money]).
    - Net settlement pays the difference in every currency, less the fees on
      the record in USD ([settlement_pays_difference]), to every tenant
      ([every_tenant_is_settled]).
    - Around: the breaker, bulkhead, shedder and retry keep their bounds
      ([circuit_breaker_safe], [bulkhead_bounds], [shedder_bounds],
      [retry_spec]); the local cache refines a map that may forget
      ([local_cache_refines]), a cached tenant is recent
      ([cached_tenant_is_recent]), a burst gets n(n+1)/2 of a limit of n
      ([rate_limit_is_quadratic]); every tenant is visited
      ([tenants_all_visited]); the reconciler reports every check
      ([reconciler_reports_all]), the comparison of treasury and ledger is
      exact ([treasury_check_passes_iff]), while the fee check fails on every
      settlement with fees and the deposit check on every credited deposit
      ([fee_check_fails_on_fees], [every_deposit_is_a_mismatch]).

    ** Parameters, bounds and fuel

    The parameters are code outside the repository or a choice the
    environment makes: the [ThirdParty] packages; the stores, as classes with
    laws that the adapters discharge; the outcome of each database statement;
    the instants and UUIDs a call draws ([Env], [EEnv]); the order in which Go
    iterates the dirty map ([iter]); encoding/json at the treasury payloads
    ([Json], with its round trip as [JsonLaws]) and the other codecs; NATS
    JetStream and its key-value bucket, TigerBeetle and Redis, as classes with
    their documented laws; providers, chain clients and banking partners, as
    functions that answer anything; the interleaving of goroutines, processes
    and crashes, as a step relation.

    Counters are [int64] with wrap-around; theorems that need exact
    arithmetic say so, by the micro range of [validateMicroRange] or by room
    for a credit.  [LoadPositions] takes fuel for its paging loop: one more
    unit than there are full pages of 1000 rows is enough, and its theorem
    proves that it returns.  The paging offset is an int32, and the theorem
    asks that the rows fit.  A sequential compare-and-swap loop takes one
    iteration, which the concurrent model justifies: a Reserve alone needs at
    most nine steps.  A transfer and a crypto deposit make at most seven moves,
    a bank deposit six, because each edge of the state machine lowers a rank.
    The paging loops over tenants take more fuel than there are tenants, the
    matching of debit and credit lines as much as there are lines, and the loop
    over eth_getLogs [chunkFuel], for ranges that end a chunk before the end of
    int64 (at the end the loop does not terminate, [log_chunks_never_end]);
    each has a theorem that this is enough.  A message is delivered at most as often as its consumer allows.

    ** What is not modelled, and why

    JSON texts: payloads are the Go values they were marshalled from, unless a
    decoding can go wrong in a way that matters.  Logging, metrics and tracing:
    no effect on state.  Encryption of personal data and row-level security in
    the store adapters: the columns carry the plain values.  Timers: a tick
    may come at any time.  The float64 counter of daily volumes in Redis and
    the feature flags.  Outbound webhooks and e-mail, session expiry, address
    provisioning and the dead letter monitor (src/node/worker): HTTP and SMTP
    delivery, and loops over calls that are modelled.  Partition maintenance
    and analytics snapshots: data definition statements and copies of
    aggregates.  Provider and chain clients, simulators and wallets
    (src/rail): services and cryptography.  The gRPC server (src/api), the
    TypeScript gateway and dashboards, generated code (sqlc, protobuf) beyond
    the statements the adapters run, commands and deployment. *)

From Stdlib Require Export ZArith Lia.
From stdpp Require Export base tactics list gmap strings relations pretty.

(** ** Go results

    A Go function that returns [(T, error)] or [error] becomes a function
    into [result].  Errors keep what callers can observe: the code of a
    [domain.DomainError], the sentinel [core.ErrOptimisticLock], and the
    wrapping done by [fmt.Errorf("...: %w", err)]; the formatted text of a
    plain [fmt.Errorf] is kept as a fixed tag without its arguments. *)

(** The error codes of domain/errors.go. *)
Inductive ErrorCode : Set :=
| CodeQuoteExpired | CodeInsufficientFunds | CodeInvalidTransition
| CodeProviderError | CodeChainError | CodeLedgerImbalance
| CodePositionLocked | CodeCorridorDisabled | CodeAmountTooLow
| CodeAmountTooHigh | CodeIdempotencyConflict | CodeOptimisticLock
| CodeTenantSuspended | CodeTenantNotFound | CodeDailyLimitExceeded
| CodeUnauthorized | CodeReservationFailed | CodeReservationLockTimeout
| CodeReservationInsufficientFunds | CodeCurrencyMismatch
| CodeAccountNotFound | CodeTransferNotFound | CodeProviderUnavailable
| CodeNetworkError | CodeBlockchainReorg | CodeCompensationFailed
| CodeRateLimitExceeded | CodeEmailAlreadyExists | CodeInvalidCredentials
| CodeEmailNotVerified | CodeTokenExpired | CodeSlugConflict
| CodeDepositNotFound | CodeDepositExpired | CodeCryptoDisabled
| CodeChainNotSupported | CodeAddressPoolEmpty | CodeBankDepositsDisabled
| CodeCurrencyNotSupported | CodeVirtualAccountPoolEmpty
| CodeBankDepositNotFound | CodePaymentMismatch | CodePaymentLinkNotFound
| CodePaymentLinkExpired | CodePaymentLinkExhausted
| CodePaymentLinkDisabled | CodeShortCodeCollision.

#[global] Instance ErrorCode_eq_dec : EqDecision ErrorCode.
Proof. solve_decision. Defined.

Inductive error : Set :=
| DomainErr (c : ErrorCode)          (* *domain.DomainError *)
| OptimisticLockErr                  (* core.ErrOptimisticLock *)
| MsgErr (tag : string)              (* errors.New / fmt.Errorf without %w *)
| WrapErr (ctx : string) (e : error) (* fmt.Errorf with %w *)
| PanicErr (tag : string)            (* a panic that unwinds the call *).

#[global] Instance error_eq_dec : EqDecision error.
Proof. solve_decision. Defined.

Inductive result (A : Type) : Type :=
| Ok (a : A)
| Err (e : error).
Arguments Ok {A} a.
Arguments Err {A} e.

(** [errors.Is(err, core.ErrOptimisticLock)]: looks through the wrapping. *)
Fixpoint is_optimistic_lock (e : error) : bool :=
  match e with
  | OptimisticLockErr => true
  | WrapErr _ e' => is_optimistic_lock e'
  | DomainErr _ | MsgErr _ | PanicErr _ => false
  end.

(** The code of the [DomainError] an error wraps, as [errors.As] finds it. *)
Fixpoint error_code (e : error) : option ErrorCode :=
  match e with
  | DomainErr c => Some c
  | WrapErr _ e' => error_code e'
  | OptimisticLockErr | MsgErr _ | PanicErr _ => None
  end.

(** Re-wrapping of the error of a call, [fmt.Errorf(ctx + ": %w", err)]. *)
Definition wrap {A} (ctx : string) (r : result A) : result A :=
  match r with
  | Ok a => Ok a
  | Err e => Err (WrapErr ctx e)
  end.

Definition is_ok {A} (r : result A) : bool :=
  match r with Ok _ => true | Err _ => false end.

(** A loop that builds a slice and returns at the first error. *)
Fixpoint traverse {A B} (f : A -> result B) (l : list A) : result (list B) :=
  match l with
  | [] => Ok []
  | a :: l =>
      match f a with
      | Err e => Err e
      | Ok b => match traverse f l with Err e => Err e | Ok bs => Ok (b :: bs) end
      end
  end.

(** ** Notations

    [let? x := r in k] is Go's [x, err := r; if err != nil { return err }];
    [let! x / s := r in k] is the same for a call that also steps the state:
    an error keeps the state the call left behind. *)

Declare Scope go_scope.
Delimit Scope go_scope with go.

Notation "'let?' x := r 'in' k" :=
  (match r with Ok x => k | Err e => Err e end)
  (at level 10, x pattern, r at level 100, k at level 200,
   format "'[v' 'let?'  x  :=  r  'in' '//' k ']'") : go_scope.

Notation "'let!' x / s := r 'in' k" :=
  (match r with
   | (Ok x, s) => k
   | (Err e, s') => (Err e, s')
   end)
  (at level 10, x pattern, s pattern at level 0, r at level 100, k at level 200,
   format "'[v' 'let!'  x  /  s  :=  r  'in' '//' k ']'") : go_scope.

Notation "'require' b 'else' e ; k" :=
  (if b then k else Err e)
  (at level 10, b at level 100, e at level 100, k at level 200,
   format "'[v' 'require'  b  'else'  e ; '//' k ']'") : go_scope.

#[global] Open Scope go_scope.

(** ** Machine integers

    Go's [int64]; [wrap64] is the two's complement value of an integer
    result, as the language defines [+] and [-] on [int64]. *)

Definition int64_min : Z := - 2 ^ 63.
Definition int64_max : Z := 2 ^ 63 - 1.

Definition in_int64 (z : Z) : Prop := (int64_min <= z <= int64_max)%Z.

Definition wrap64 (z : Z) : Z :=
  ((z - int64_min) mod 2 ^ 64 + int64_min)%Z.

Definition add64 (a b : Z) : Z := wrap64 (a + b).
Definition sub64 (a b : Z) : Z := wrap64 (a - b).

(** Go's [uint32] product, used by hash/fnv. *)
Definition wrap32u (z : Z) : Z := (z mod 2 ^ 32)%Z.

#[global] Instance in_int64_dec z : Decision (in_int64 z).
Proof. unfold in_int64. apply _. Defined.

(** Linear arithmetic over the bounds of [int64]. *)
Ltac int64 := unfold in_int64, int64_min, int64_max in *.

Create HintDb go_int.

(** ** Reachability *)

Section Invariants.
Context {S : Type} (step : S -> S -> Prop).

(** Rule induction packaged for invariants: what holds initially and is
    kept by every step holds in every reachable state. *)
Lemma invariant_rtc (I : S -> Prop) :
  (forall s s', I s -> step s s' -> I s') ->
  forall s s', rtc step s s' -> I s -> I s'.
Proof. intros Hstep s s' Hrtc. induction Hrtc; eauto. Qed.
End Invariants.

(** ** Shared lemmas *)

Lemma wrap64_id z : in_int64 z -> wrap64 z = z.
Proof.
  unfold in_int64, wrap64, int64_min, int64_max. intros.
  rewrite Z.mod_small by lia. lia.
Qed.

Lemma wrap64_range z : in_int64 (wrap64 z).
Proof.
  unfold in_int64, wrap64, int64_min, int64_max.
  pose proof (Z.mod_pos_bound (z - - 2 ^ 63) (2 ^ 64) ltac:(lia)). lia.
Qed.

Lemma add64_id a b : in_int64 (a + b) -> add64 a b = (a + b)%Z.
Proof. apply wrap64_id. Qed.

Lemma sub64_id a b : in_int64 (a - b) -> sub64 a b = (a - b)%Z.
Proof. apply wrap64_id. Qed.

Lemma wrap64_add_l a b : wrap64 (wrap64 a + b) = wrap64 (a + b).
Proof.
  unfold wrap64. f_equal.
  replace ((a - int64_min) mod 2 ^ 64 + int64_min + b - int64_min)%Z
    with ((a - int64_min) mod 2 ^ 64 + b)%Z by lia.
  rewrite Zplus_mod_idemp_l. f_equal. lia.
Qed.

Lemma string_app_assoc (a b c : string) : ((a +:+ b) +:+ c = a +:+ (b +:+ c))%string.
Proof. induction a as [|x a IH]; [done|]. exact (f_equal (String x) IH). Qed.

Lemma wrap_ok {A} ctx (r : result A) a : wrap ctx r = Ok a -> r = Ok a.
Proof. by destruct r; intros [= <-]. Qed.

Lemma traverse_ok {A B} (f : A -> result B) l bs :
  traverse f l = Ok bs <-> Forall2 (fun a b => f a = Ok b) l bs.
Proof.
  revert bs. induction l as [|a l IH]; intros bs; simpl.
  - split; [by intros [= <-]|]. by inversion 1.
  - split.
    + destruct (f a) as [b|] eqn:E; [|done]. destruct (traverse f l) as [bs'|]; [|done].
      intros [= <-]. constructor; [done|]. by apply IH.
    + inversion 1 as [|? b ? bs' Hb Hbs]; subst. apply IH in Hbs. by rewrite Hb, Hbs.
Qed.

Lemma traverse_elem {A B} (f : A -> result B) l bs b :
  traverse f l = Ok bs -> b ∈ bs -> exists a, a ∈ l /\ f a = Ok b.
Proof.
  intros H%traverse_ok. induction H as [|a b' l bs Hab _ IH]; [by intros ?%elem_of_nil|].
  intros [->|Hb]%elem_of_cons; [set_solver|]. destruct (IH Hb) as (a' & ? & ?). set_solver.
Qed.

(** A key that no two elements share identifies an element. *)
Lemma NoDup_key {A B} (f : A -> B) l a b :
  NoDup (map f l) -> a ∈ l -> b ∈ l -> f a = f b -> a = b.
Proof.
  induction l as [|x l IH]; simpl; [by intros _ ?%elem_of_nil|].
  intros [Hx Hnd]%NoDup_cons Ha Hb Hab. rewrite list_elem_of_fmap in Hx.
  apply elem_of_cons in Ha as [->|Ha], Hb as [->|Hb]; [done| | |by apply IH].
  - destruct Hx. by exists b.
  - destruct Hx. by exists a.
Qed.

Lemma filter_keeps {A} (P : A -> Prop) `{!forall x, Decision (P x)} (l : list A) :
  (forall x, x ∈ l -> P x) -> filter P l = l.
Proof.
  induction l as [|x l IH]; intros Hl; [done|].
  rewrite filter_cons_True by set_solver. by rewrite IH by set_solver.
Qed.

Lemma filter_none {A} (P : A -> Prop) `{forall x, Decision (P x)} l : (forall x, x ∈ l -> ~ P x) -> filter P l = [].
Proof.
  induction l as [|x l IH]; intros Hn; [done|]. rewrite filter_cons, decide_False by (apply Hn; left). apply IH. intros y Hy. apply Hn. by right.
Qed.

Lemma fmap_view {A B} (f : A -> B) o b : f <$> o = Some b -> exists x, o = Some x /\ f x = b.
Proof. destruct o as [x|]; [|done]. intros [= <-]. by exists x. Qed.

(** A successful call, as the pair it returned. *)
Lemma pair_ok {A} (x : result unit * A) : is_ok x.1 = true -> x = (Ok tt, x.2).
Proof. by destruct x as [[[]|] ?]. Qed.

Lemma pair_fst {A B} (x : A * B) a : x.1 = a -> x = (a, x.2).
Proof. destruct x. by intros <-. Qed.

(** Undoing an addition is exact even when the addition wrapped. *)
Lemma add64_cancel a b : in_int64 a -> add64 (add64 a b) (- b) = a.
Proof.
  intros Ha. unfold add64. rewrite wrap64_add_l.
  replace (a + b + - b)%Z with a by lia. by apply wrap64_id.
Qed.

Lemma add64_cancel' a b : in_int64 a -> add64 (add64 a (- b)) b = a.
Proof.
  intros Ha. rewrite <- (Z.opp_involutive b) at 2. by apply add64_cancel.
Qed.

#[export] Hint Resolve wrap64_range add64_cancel add64_cancel' : go_int.
#[export] Hint Extern 1 (in_int64 (add64 _ _)) => apply wrap64_range : go_int.
#[export] Hint Extern 1 (in_int64 (sub64 _ _)) => apply wrap64_range : go_int.
