(* ===== verification/GoNumbers.v ===== *)
(** * Numbers, times and digests of the Go language

    [float64] as Stdlib's executable model of IEEE 754 at 53 bits
    ([spec_float]), with the conversions from and to [int]; durations and
    instants ([time.Duration], [time.Time]) as nanoseconds; [Sum256] of
    crypto/sha256 as FIPS 180-4 defines it, on 32-bit words in [Z], which the
    ledger derives identifiers from: [schedule] expands a block, [compress]
    runs its 64 rounds, and the constants are computed from their definition,
    the leading fractional bits of roots of the first primes. *)

From Stdlib Require Import SpecFloat Ascii String.
From S2P Require Import Prelude.
Local Open Scope Z_scope.

(** ** float64 *)

Definition f64_of_Z (z : Z) : spec_float := binary_normalize 53 1024 z 0 false.
Definition f64_add : spec_float -> spec_float -> spec_float := SFadd 53 1024.
Definition f64_mul : spec_float -> spec_float -> spec_float := SFmul 53 1024.
Definition f64_div : spec_float -> spec_float -> spec_float := SFdiv 53 1024.

(** Conversion to [int]: the fraction is dropped; what does not fit is the
    smallest integer, as on amd64. *)
Definition int_of_f64 (f : spec_float) : Z :=
  match f with
  | S754_zero _ => 0
  | S754_finite s m e =>
      let z := Z.shiftl (Zpos m) e in
      let z := if s then - z else z in
      if decide (in_int64 z) then z else int64_min
  | S754_infinity _ | S754_nan => int64_min
  end.

Definition hour : Z := 3600 * 1000000000.
Definition day : Z := 24 * hour.

(** [time.Duration.Hours]. *)
Definition Hours (d : Z) : spec_float :=
  f64_add (f64_of_Z (Z.quot d hour)) (f64_div (f64_of_Z (Z.rem d hour)) (f64_of_Z hour)).

(** [time.Time.Truncate (24 * time.Hour)]: the Unix epoch is a midnight. *)
Definition midnight (t : Z) : Z := t - t mod day.

(** [time.Time.Sub] saturates. *)
Definition timeSub (t u : Z) : Z := Z.max int64_min (Z.min int64_max (t - u)).

Definition f64_sub : spec_float -> spec_float -> spec_float := SFsub 53 1024.

(** A decimal literal [n/d]: the quotient of two exact numbers is rounded
    once, as the compiler rounds the literal. *)
Definition f64_ratio (n d : Z) : spec_float := f64_div (f64_of_Z n) (f64_of_Z d).

(** [x <= y] and [x < y], false on NaN. *)
Definition f64_leb (x y : spec_float) : bool :=
  match SFcompare x y with Some (Lt | Eq) => true | _ => false end.
Definition f64_ltb (x y : spec_float) : bool :=
  match SFcompare x y with Some Lt => true | _ => false end.
Definition f64_eqb (x y : spec_float) : bool :=
  match SFcompare x y with Some Eq => true | _ => false end.

(** An integer that a float64 was converted to, if it fits. *)
Definition fitting (z : Z) : Z := if decide (in_int64 z) then z else int64_min.

(** [int64(math.Ceil(f))] and [int64(math.Round(f))], the latter half away
    from zero. *)
Definition int_of_ceil (f : spec_float) : Z :=
  match f with
  | S754_zero _ => 0
  | S754_finite s m e =>
      fitting (if 0 <=? e then (if s then - 1 else 1) * (Zpos m * 2 ^ e)
               else if s then - (Zpos m / 2 ^ (- e)) else - (- Zpos m / 2 ^ (- e)))
  | S754_infinity _ | S754_nan => int64_min
  end.

Definition int_of_round (f : spec_float) : Z :=
  match f with
  | S754_zero _ => 0
  | S754_finite s m e =>
      fitting ((if s then - 1 else 1)
               * (if 0 <=? e then Zpos m * 2 ^ e
                  else (2 * Zpos m + 2 ^ (- e)) / (2 * 2 ^ (- e))))
  | S754_infinity _ | S754_nan => int64_min
  end.

(** ** crypto/sha256 *)

Module Sha256.

(** ** Words of 32 bits *)

Definition mask : Z := Eval vm_compute in Z.ones 32.
Definition word (x : Z) : Z := Z.land x mask.
Definition rotr (n x : Z) : Z := Z.lor (Z.shiftr x n) (word (Z.shiftl x (32 - n))).
Definition xor3 (a b c : Z) : Z := Z.lxor (Z.lxor a b) c.

Definition choose (x y z : Z) : Z := Z.lxor (Z.land x y) (Z.land (Z.lxor x mask) z).
Definition majority (x y z : Z) : Z := xor3 (Z.land x y) (Z.land x z) (Z.land y z).
Definition bigSigma0 (x : Z) : Z := xor3 (rotr 2 x) (rotr 13 x) (rotr 22 x).
Definition bigSigma1 (x : Z) : Z := xor3 (rotr 6 x) (rotr 11 x) (rotr 25 x).
Definition smallSigma0 (x : Z) : Z := xor3 (rotr 7 x) (rotr 18 x) (Z.shiftr x 3).
Definition smallSigma1 (x : Z) : Z := xor3 (rotr 17 x) (rotr 19 x) (Z.shiftr x 10).

(** ** Constants *)

Definition isPrime (n : Z) : bool :=
  forallb (fun d => negb (n mod Z.of_nat d =? 0)) (seq 2 (Z.to_nat (Z.sqrt n) - 1)).

(** The first 64 primes; the last is 311. *)
Definition primes : list Z := filter (fun n => isPrime n = true) (map Z.of_nat (seq 2 310)).

(** The integer cube root, bit by bit from bit [k] down. *)
Fixpoint cbrt (k : nat) (r n : Z) : Z :=
  let r' := r + 2 ^ Z.of_nat k in
  let r := if r' * r' * r' <=? n then r' else r in
  match k with O => r | S k => cbrt k r n end.

Definition roundKeys : list Z :=
  Eval vm_compute in map (fun p => word (cbrt 40 0 (p * 2 ^ 96))) primes.

Definition initial : list Z :=
  Eval vm_compute in map (fun p => word (Z.sqrt (p * 2 ^ 64))) (take 8 primes).

(** ** One block *)

(** The message schedule, newest word first. *)
Fixpoint expand (n : nat) (rev_w : list Z) : list Z :=
  match n with
  | O => rev_w
  | S n =>
      let w i := nth i rev_w 0 in
      expand n (word (smallSigma1 (w 1%nat) + w 6%nat + smallSigma0 (w 14%nat) + w 15%nat) :: rev_w)
  end.

Definition schedule (block : list Z) : list Z := rev (expand 48 (rev block)).

Definition round (st : list Z) (kw : Z * Z) : list Z :=
  match st with
  | [a; b; c; d; e; f; g; h] =>
      let t1 := h + bigSigma1 e + choose e f g + kw.1 + kw.2 in
      let t2 := bigSigma0 a + majority a b c in
      [word (t1 + t2); a; b; c; word (d + t1); e; f; g]
  | _ => st
  end.

Definition compress (st block : list Z) : list Z :=
  zip_with (fun x y => word (x + y)) st
    (fold_left round (zip roundKeys (schedule block)) st).

(** ** Messages *)

(** [n] big-endian bytes of a number. *)
Fixpoint bytesOf (n : nat) (x : Z) : list Z :=
  match n with
  | O => []
  | S n => bytesOf n (Z.shiftr x 8) ++ [Z.land x 255]
  end.

Fixpoint wordsOf (bytes : list Z) : list Z :=
  match bytes with
  | a :: b :: c :: d :: rest => (((a * 256 + b) * 256 + c) * 256 + d) :: wordsOf rest
  | _ => []
  end.

Definition pad (msg : list Z) : list Z :=
  msg ++ [128] ++ replicate (Z.to_nat ((55 - Z.of_nat (length msg)) mod 64)) 0
      ++ bytesOf 8 (8 * Z.of_nat (length msg)).

Fixpoint blocks (fuel : nat) (st words : list Z) : list Z :=
  match fuel, words with
  | S fuel, _ :: _ => blocks fuel (compress st (take 16 words)) (drop 16 words)
  | _, _ => st
  end.

Definition stringBytes (s : string) : list Z :=
  map (fun a => Z.of_nat (nat_of_ascii a)) (list_ascii_of_string s).

(** [sha256.Sum256([]byte(s))], as a list of 32 bytes. *)
Definition Sum256 (s : string) : list Z :=
  let words := wordsOf (pad (stringBytes s)) in
  blocks (length words) initial words ≫= bytesOf 4.

(** ** Known digests *)

Definition hexDigit (d : Z) : ascii :=
  ascii_of_nat (Z.to_nat (if d <? 10 then 48 + d else 87 + d)).

Definition hex (bytes : list Z) : string :=
  string_of_list_ascii (bytes ≫= (fun b => [hexDigit (b / 16); hexDigit (b mod 16)])).

Example sum_empty :
  hex (Sum256 "") = "e3b0c44298fc1c149afbf4c8996fb92427ae41e4649b934ca495991b7852b855"%string.
Proof. vm_compute. reflexivity. Qed.

Example sum_two_blocks :
  hex (Sum256 "abcdbcdecdefdefgefghfghighijhijkijkljklmklmnlmnomnopnopq")
  = "248d6a61d20638b8e5c026930c3e6039a33ce45964ff2167f6ecedd419db06c1"%string.
Proof. vm_compute. reflexivity. Qed.
End Sha256.
