(* ===== verification/ThirdParty.v ===== *)
(** * Third-party packages the Go sources call

    Settla computes with [github.com/shopspring/decimal] and names entities
    with [github.com/google/uuid].  Neither package is part of the
    repository, so the development takes both as one parameter, the class
    [ThirdParty], and states the documented behaviour it relies on as the
    class [ThirdPartyLaws]: a decimal has an exact rational value, [Add],
    [Sub] and [Mul] are exact, [Div] keeps 16 digits, [Round] rounds half
    away from zero, [Truncate] cuts digits off, comparison compares values; a UUID prints injectively to
    36 characters and parses back.  [QInstance] shows the laws can hold: decimals as reduced
    rationals and one-byte UUIDs, both executable.

    Instants ([time.Time]) and durations are [Z] nanoseconds; a function that
    reads the clock takes the instant as an argument. *)

From Stdlib Require Import Ascii QArith Qabs Qround Lqa.
From S2P Require Import Prelude.
Local Open Scope Z_scope.

(** ** Rounding on rationals *)

(** Round to an integer, half away from zero. *)
Definition Qround_int (q : Q) : Z :=
  if Qle_bool 0 q then Qfloor (q + (1 # 2)) else - Qfloor (- q + (1 # 2)).

(** Round to [p] digits after the decimal point, half away from zero. *)
Definition Qround_places (p : nat) (q : Q) : Q :=
  Qround_int (q * inject_Z (10 ^ Z.of_nat p)) # Z.to_pos (10 ^ Z.of_nat p).

(** Integer part, truncated towards zero. *)
Definition Qtrunc (q : Q) : Z := Z.quot (Qnum q) (Zpos (Qden q)).

(** Cut off the digits after the [p]-th place. *)
Definition Qtrunc_places (p : nat) (q : Q) : Q :=
  Qtrunc (q * inject_Z (10 ^ Z.of_nat p)) # Z.to_pos (10 ^ Z.of_nat p).

(** ** The packages *)

Class ThirdParty : Type := {
  Decimal : Type;
  NewFromInt : Z -> Decimal;
  dAdd : Decimal -> Decimal -> Decimal;
  dSub : Decimal -> Decimal -> Decimal;
  dMul : Decimal -> Decimal -> Decimal;
  dDiv : Decimal -> Decimal -> Decimal;
  dAbs : Decimal -> Decimal;
  dRound : nat -> Decimal -> Decimal;
  dTruncate : nat -> Decimal -> Decimal;
  dCmp : Decimal -> Decimal -> comparison;
  IntPart : Decimal -> Z;
  dString : Decimal -> string;
  StringFixed : nat -> Decimal -> string;
  UUID : Type;
  UUID_eq_dec :: EqDecision UUID;
  UUID_countable :: Countable UUID;
  uuid_Nil : UUID;
  uuid_String : UUID -> string;
  uuid_NewSHA1 : UUID -> string -> UUID;
  uuid_Parse : string -> option UUID;
  uuid_Bytes : UUID -> list Z;
}.

Section Comparisons.
Context {L : ThirdParty}.

(** The comparison methods of [decimal.Decimal], all defined there through
    [Cmp]. *)
Definition dZero : Decimal := NewFromInt 0.
Definition LessThan (a b : Decimal) : bool :=
  match dCmp a b with Lt => true | _ => false end.
Definition LessThanOrEqual (a b : Decimal) : bool :=
  match dCmp a b with Gt => false | _ => true end.
Definition GreaterThan (a b : Decimal) : bool := LessThan b a.
Definition GreaterThanOrEqual (a b : Decimal) : bool := LessThanOrEqual b a.
Definition dEqual (a b : Decimal) : bool :=
  match dCmp a b with Eq => true | _ => false end.
Definition IsPositive (a : Decimal) : bool := LessThan dZero a.
Definition IsNegative (a : Decimal) : bool := LessThan a dZero.
Definition IsZero (a : Decimal) : bool := dEqual a dZero.
End Comparisons.

Local Open Scope Q_scope.

Class ThirdPartyLaws (L : ThirdParty) : Type := {
  dVal : Decimal -> Q;
  NewFromInt_val z : dVal (NewFromInt z) == inject_Z z;
  dAdd_val a b : dVal (dAdd a b) == dVal a + dVal b;
  dSub_val a b : dVal (dSub a b) == dVal a - dVal b;
  dMul_val a b : dVal (dMul a b) == dVal a * dVal b;
  dDiv_val a b : ~ dVal b == 0 ->
    dVal (dDiv a b) == Qround_places 16 (dVal a / dVal b);
  dAbs_val a : dVal (dAbs a) == Qabs (dVal a);
  dRound_val p a : dVal (dRound p a) == Qround_places p (dVal a);
  dTruncate_val p a : dVal (dTruncate p a) == Qtrunc_places p (dVal a);
  dCmp_val a b : dCmp a b = (dVal a ?= dVal b);
  IntPart_val a : in_int64 (Qtrunc (dVal a)) -> IntPart a = Qtrunc (dVal a);
  uuid_String_inj : Inj (=) (=) uuid_String;
  uuid_String_length u : String.length (uuid_String u) = 36%nat;
  uuid_Parse_String u : uuid_Parse (uuid_String u) = Some u;
}.

(** ** Facts on rounding *)

Lemma pow10_pos p : (0 < 10 ^ Z.of_nat p)%Z.
Proof. apply Z.pow_pos_nonneg; lia. Qed.

Lemma inject_Z_pos z : (0 < z)%Z -> 0 < inject_Z z.
Proof. intros. change 0 with (inject_Z 0). by rewrite <- Zlt_Qlt. Qed.

#[global] Instance Qround_int_proper : Proper (Qeq ==> eq) Qround_int.
Proof.
  intros q q' Hq. unfold Qround_int.
  assert (Qle_bool 0 q = Qle_bool 0 q') as -> by (by rewrite Hq).
  assert (Qfloor (q + (1 # 2)) = Qfloor (q' + (1 # 2))) as -> by (by rewrite Hq).
  assert (Qfloor (- q + (1 # 2)) = Qfloor (- q' + (1 # 2))) as -> by (by rewrite Hq).
  done.
Qed.

Lemma Qmake_inject n z : (0 < z)%Z -> n # Z.to_pos z == inject_Z n / inject_Z z.
Proof.
  intros Hz. rewrite Qmake_Qdiv. rewrite Z2Pos.id by lia. reflexivity.
Qed.

#[global] Instance Qround_places_proper p : Proper (Qeq ==> Qeq) (Qround_places p).
Proof. intros q q' Hq. unfold Qround_places. rewrite Hq. reflexivity. Qed.

Lemma Qfloor_half z : Qfloor (inject_Z z + (1 # 2)) = z.
Proof.
  unfold Qfloor, Qplus, inject_Z. simpl.
  symmetry. apply Z.div_unique with (r := 1%Z); lia.
Qed.

(** Rounding does not touch what is already an integer. *)
Lemma Qround_int_exact z : Qround_int (inject_Z z) = z.
Proof.
  unfold Qround_int. destruct (Qle_bool 0 (inject_Z z)).
  - apply Qfloor_half.
  - rewrite <- inject_Z_opp, Qfloor_half. lia.
Qed.

Lemma Qround_int_mono q q' : q <= q' -> (Qround_int q <= Qround_int q')%Z.
Proof.
  intros H. unfold Qround_int.
  destruct (Qle_bool 0 q) eqn:E; destruct (Qle_bool 0 q') eqn:E'.
  - apply Qfloor_resp_le. lra.
  - apply Qle_bool_iff in E. exfalso.
    assert (Qle_bool 0 q' = true) by (apply Qle_bool_iff; lra). congruence.
  - assert (0 <= Qfloor (- q + (1 # 2)))%Z.
    { change 0%Z with (Qfloor 0). apply Qfloor_resp_le.
      destruct (Qlt_le_dec q 0) as [?|Hq]; [lra|].
      apply Qle_bool_iff in Hq. congruence. }
    assert (0 <= Qfloor (q' + (1 # 2)))%Z; [|lia].
    change 0%Z with (Qfloor 0). apply Qfloor_resp_le.
    apply Qle_bool_iff in E'. lra.
  - assert (Qfloor (- q' + (1 # 2)) <= Qfloor (- q + (1 # 2)))%Z; [|lia].
    apply Qfloor_resp_le. lra.
Qed.

Lemma Qround_places_mono p q q' :
  q <= q' -> Qround_places p q <= Qround_places p q'.
Proof.
  intros H. unfold Qround_places, Qle. simpl.
  apply Z.mul_le_mono_nonneg_r; [lia|]. apply Qround_int_mono.
  apply Qmult_le_compat_r; [done|]. apply Qlt_le_weak, inject_Z_pos, pow10_pos.
Qed.

Lemma Qfloor_add_Z q z : Qfloor (q + inject_Z z) = (Qfloor q + z)%Z.
Proof.
  unfold Qfloor, Qplus, inject_Z. destruct q as [a b]. simpl.
  rewrite Z.mul_1_r, Pos.mul_1_r, Z.add_comm, Z.add_comm, Z.div_add by lia. done.
Qed.

(** A multiple of [10^-p] is kept by rounding to [p] places. *)
Lemma Qround_places_exact p z q :
  q * inject_Z (10 ^ Z.of_nat p) == inject_Z z -> Qround_places p q == q.
Proof.
  intros H. unfold Qround_places. rewrite H, Qround_int_exact.
  rewrite Qmake_inject by apply pow10_pos. rewrite <- H. field.
  intros Hz. pose proof (inject_Z_pos _ (pow10_pos p)). lra.
Qed.

Lemma Qround_places_0 p : Qround_places p 0 == 0.
Proof. apply (Qround_places_exact p 0). ring. Qed.

Lemma Qround_places_nonneg p q : 0 <= q -> 0 <= Qround_places p q.
Proof. intros. rewrite <- (Qround_places_0 p). by apply Qround_places_mono. Qed.

(** Rounding a sum whose first part has at most [p] digits rounds the second
    part. *)
Lemma Qround_places_grain p z q : (0 <= z)%Z -> 0 <= q ->
  Qround_places p ((z # Z.to_pos (10 ^ Z.of_nat p)) + q)
  == (z # Z.to_pos (10 ^ Z.of_nat p)) + Qround_places p q.
Proof.
  intros Hz Hq. unfold Qround_places. pose proof (pow10_pos p) as Hp.
  set (t := (10 ^ Z.of_nat p)%Z) in *.
  assert (~ inject_Z t == 0) as Ht by (pose proof (inject_Z_pos _ Hp); lra).
  assert (((z # Z.to_pos t) + q) * inject_Z t == q * inject_Z t + inject_Z z) as ->.
  { rewrite (Qmake_inject z t Hp). field. done. }
  assert (0 <= q * inject_Z t) as Hqt.
  { apply Qmult_le_0_compat; [done|]. apply Qlt_le_weak, inject_Z_pos, Hp. }
  assert (Qround_int (q * inject_Z t + inject_Z z) = Qround_int (q * inject_Z t) + z)%Z as ->.
  { assert (0 <= inject_Z z) as Hz' by (change 0 with (inject_Z 0); by rewrite <- Zle_Qle).
    unfold Qround_int. rewrite !(proj2 (Qle_bool_iff _ _)) by lra.
    assert (Qfloor (q * inject_Z t + inject_Z z + (1 # 2))
            = Qfloor (q * inject_Z t + (1 # 2) + inject_Z z)) as -> by (apply Qfloor_comp; ring).
    apply Qfloor_add_Z. }
  unfold Qplus, Qeq. simpl. lia.
Qed.

(** Rounding moves a value by at most half a unit of the last place. *)
Lemma Qround_int_error q : Qabs (inject_Z (Qround_int q) - q) <= 1 # 2.
Proof.
  unfold Qround_int. destruct (Qle_bool 0 q) eqn:E.
  - pose proof (Qfloor_le (q + (1 # 2))). pose proof (Qlt_floor (q + (1 # 2))) as H'.
    rewrite inject_Z_plus in H'. apply Qabs_Qle_condition.
    change (inject_Z 1) with 1 in H'. lra.
  - rewrite inject_Z_opp.
    pose proof (Qfloor_le (- q + (1 # 2))). pose proof (Qlt_floor (- q + (1 # 2))) as H'.
    rewrite inject_Z_plus in H'. apply Qabs_Qle_condition.
    change (inject_Z 1) with 1 in H'. lra.
Qed.

#[global] Instance Qtrunc_proper : Proper (Qeq ==> eq) Qtrunc.
Proof.
  intros [a b] [c d] H. unfold Qtrunc, Qeq in *. simpl in *.
  rewrite <- (Z.quot_mul_cancel_r a (Zpos b) (Zpos d)) by lia.
  rewrite <- (Z.quot_mul_cancel_r c (Zpos d) (Zpos b)) by lia.
  rewrite H. f_equal. lia.
Qed.

Lemma Qtrunc_inject z : Qtrunc (inject_Z z) = z.
Proof. unfold Qtrunc. simpl. apply Z.quot_1_r. Qed.

Lemma Qtrunc_nonneg q : 0 <= q -> (0 <= Qtrunc q)%Z.
Proof.
  intros H. unfold Qtrunc. apply Z.quot_pos; [|lia].
  unfold Qle in H. simpl in H. lia.
Qed.

Lemma Qtrunc_le q z : 0 <= q -> q <= inject_Z z -> (Qtrunc q <= z)%Z.
Proof.
  intros H0 H. unfold Qtrunc, Qle in *. simpl in *.
  rewrite Z.quot_div_nonneg by lia.
  apply Z.div_le_upper_bound; lia.
Qed.

Lemma Qtrunc_spec q : 0 <= q ->
  inject_Z (Qtrunc q) <= q /\ q < inject_Z (Qtrunc q) + 1.
Proof.
  intros H. unfold Qtrunc, Qle, Qlt in *. simpl in *.
  rewrite Z.quot_div_nonneg by lia.
  pose proof (Z.div_mod (Qnum q) (Zpos (Qden q)) ltac:(lia)).
  pose proof (Z.mod_pos_bound (Qnum q) (Zpos (Qden q)) ltac:(lia)). lia.
Qed.

Lemma Qtrunc_abs_le q z :
  inject_Z (- z) <= q -> q <= inject_Z z -> (- z <= Qtrunc q <= z)%Z.
Proof.
  intros Hl Hu. unfold Qtrunc, Qle in *. simpl in *.
  rewrite ?Z.mul_1_r in *.
  pose proof (Z.quot_rem' (Qnum q) (Zpos (Qden q))).
  destruct (Z_le_gt_dec 0 (Qnum q)).
  - pose proof (Z.rem_bound_pos (Qnum q) (Zpos (Qden q)) ltac:(lia) ltac:(lia)). nia.
  - pose proof (Z.rem_bound_pos_neg (Qnum q) (Zpos (Qden q)) ltac:(lia) ltac:(lia)). nia.
Qed.

(** ** Comparisons as statements on values *)

Section Values.
Context {L : ThirdParty} {LL : ThirdPartyLaws L}.

Lemma dZero_val : dVal dZero == 0.
Proof. unfold dZero. by rewrite NewFromInt_val. Qed.

Local Ltac cmp_cases a b :=
  destruct (dVal a ?= dVal b) eqn:E; constructor;
  [ apply Qeq_alt in E | apply Qlt_alt in E | apply Qgt_alt in E ]; lra.

Lemma LessThanP a b : reflect (dVal a < dVal b) (LessThan a b).
Proof.
  unfold LessThan. rewrite dCmp_val.
  cmp_cases a b.
Qed.

Lemma LessThanOrEqualP a b : reflect (dVal a <= dVal b) (LessThanOrEqual a b).
Proof.
  unfold LessThanOrEqual. rewrite dCmp_val.
  cmp_cases a b.
Qed.

Lemma GreaterThanP a b : reflect (dVal b < dVal a) (GreaterThan a b).
Proof. apply LessThanP. Qed.

Lemma GreaterThanOrEqualP a b : reflect (dVal b <= dVal a) (GreaterThanOrEqual a b).
Proof. apply LessThanOrEqualP. Qed.

Lemma dEqualP a b : reflect (dVal a == dVal b) (dEqual a b).
Proof.
  unfold dEqual. rewrite dCmp_val.
  cmp_cases a b.
Qed.

Lemma IsPositiveP a : reflect (0 < dVal a) (IsPositive a).
Proof.
  unfold IsPositive. destruct (LessThanP dZero a) as [H|H];
    rewrite dZero_val in H; by constructor.
Qed.

Lemma IsNegativeP a : reflect (dVal a < 0) (IsNegative a).
Proof.
  unfold IsNegative. destruct (LessThanP a dZero) as [H|H];
    rewrite dZero_val in H; by constructor.
Qed.

Lemma IsZeroP a : reflect (dVal a == 0) (IsZero a).
Proof.
  unfold IsZero. destruct (dEqualP a dZero) as [H|H];
    rewrite dZero_val in H; by constructor.
Qed.

(** Two decimals are the same amount when their values agree; this is what
    [Equal] tests, and it is coarser than equality of representations. *)
Definition dEquiv (a b : Decimal) : Prop := dVal a == dVal b.

#[global] Instance dEquiv_equivalence : Equivalence dEquiv.
Proof.
  split; unfold dEquiv.
  - intros a. reflexivity.
  - intros a b H. by symmetry.
  - intros a b c H1 H2. by rewrite H1.
Qed.

#[global] Instance dVal_proper : Proper (dEquiv ==> Qeq) dVal.
Proof. by intros a b H. Qed.

#[global] Instance dAdd_proper : Proper (dEquiv ==> dEquiv ==> dEquiv) dAdd.
Proof. intros a a' Ha b b' Hb. unfold dEquiv. by rewrite !dAdd_val, Ha, Hb. Qed.

#[global] Instance dSub_proper : Proper (dEquiv ==> dEquiv ==> dEquiv) dSub.
Proof. intros a a' Ha b b' Hb. unfold dEquiv. by rewrite !dSub_val, Ha, Hb. Qed.

#[global] Instance LessThan_proper : Proper (dEquiv ==> dEquiv ==> eq) LessThan.
Proof.
  intros a a' Ha b b' Hb. unfold dEquiv in *.
  destruct (LessThanP a b), (LessThanP a' b'); auto; rewrite Ha, Hb in *; done.
Qed.

Lemma dEqual_equiv a b : dEqual a b = true <-> dEquiv a b.
Proof. unfold dEquiv. destruct (dEqualP a b); naive_solver. Qed.

(** Division by a nonzero number whose quotient has at most 16 digits after
    the point is exact. *)
Lemma dDiv_exact a b z :
  ~ dVal b == 0 -> dVal a / dVal b * inject_Z (10 ^ 16) == inject_Z z ->
  dVal (dDiv a b) == dVal a / dVal b.
Proof. intros Hb Hz. rewrite dDiv_val by done. by apply (Qround_places_exact 16 z). Qed.
End Values.

(** [dec_val] pushes [dVal] through the operations, in the goal and in the
    hypotheses; [dec_case] splits on the comparisons in the goal. *)
Create Rewrite HintDb dec_vals.
#[global] Hint Rewrite @dAdd_val @dSub_val @dMul_val @dAbs_val @NewFromInt_val
  @dZero_val @dRound_val : dec_vals.

Ltac dec_val := autorewrite with dec_vals in *.

Ltac dec_reflect_one H :=
  match type of H with
  | IsPositive ?a = _ => destruct (IsPositiveP a); [|]; try discriminate H
  | IsNegative ?a = _ => destruct (IsNegativeP a); [|]; try discriminate H
  | IsZero ?a = _ => destruct (IsZeroP a); [|]; try discriminate H
  | LessThan ?a ?b = _ => destruct (LessThanP a b); [|]; try discriminate H
  | LessThanOrEqual ?a ?b = _ => destruct (LessThanOrEqualP a b); [|]; try discriminate H
  | GreaterThan ?a ?b = _ => destruct (GreaterThanP a b); [|]; try discriminate H
  | GreaterThanOrEqual ?a ?b = _ => destruct (GreaterThanOrEqualP a b); [|]; try discriminate H
  | dEqual ?a ?b = _ => destruct (dEqualP a b); [|]; try discriminate H
  end; clear H.

(** Turns every comparison known in the context into a fact on values. *)
Ltac dec_reflect :=
  repeat match goal with H : _ = true |- _ => dec_reflect_one H
                       | H : _ = false |- _ => dec_reflect_one H end.

(** ** An instance *)

Module QInstance.

(** Reduced rationals, with the operations the laws describe. *)
Definition pad36 : string := "00000000-0000-0000-0000-0000000000:".

(** Numbers in binary digits. *)
Fixpoint bits (p : positive) (rest : string) : string :=
  match p with
  | xH => String "1"%char rest
  | xO p => bits p (String "0"%char rest)
  | xI p => bits p (String "1"%char rest)
  end.

Definition zbits (z : Z) (rest : string) : string :=
  match z with
  | Z0 => String "0"%char rest
  | Zpos p => bits p rest
  | Zneg p => String "-"%char (bits p rest)
  end.

#[export, program] Instance Qlib : ThirdParty := {|
  Decimal := Q;
  NewFromInt := inject_Z;
  dAdd a b := Qred (a + b);
  dSub a b := Qred (a - b);
  dMul a b := Qred (a * b);
  dDiv a b := Qred (Qround_places 16 (Qred (a / b)));
  dAbs a := Qabs a;
  dRound p a := Qred (Qround_places p a);
  dTruncate p a := Qred (Qtrunc_places p a);
  dCmp a b := Qcompare a b;
  IntPart a := Qtrunc a;
  dString a := zbits (Qnum a) (String "/"%char (bits (Qden a) EmptyString));
  StringFixed p a := zbits (Qnum (Qround_places p a)) EmptyString;
  UUID := Ascii.ascii;
  uuid_Nil := Ascii.Ascii false false false false false false false false;
  uuid_String u := String u pad36;
  uuid_NewSHA1 u s :=
    Ascii.ascii_of_nat (Ascii.nat_of_ascii u + 16 + String.length s mod 100);
  uuid_Parse s := match s with
                  | String u rest => if String.eqb rest pad36 then Some u else None
                  | EmptyString => None end;
  uuid_Bytes u := [Z.of_nat (Ascii.nat_of_ascii u)];
|}.

#[export] Instance Qlib_laws : ThirdPartyLaws Qlib.
Proof.
  unshelve eapply {| dVal := (fun q : Q => q) : @Decimal Qlib -> Q |};
    simpl; intros; rewrite ?Qred_correct; try reflexivity.
  intros x y [= ->]. done.
Defined.
End QInstance.
