(* ===== verification/Sql.v ===== *)
(** * store: the database session of an adapter

    The Postgres adapters of src/store/transferdb run every statement on a
    connection that can fail.  [Sql T] is a database with tables [T] as an
    adapter sees it: each call happens at some instant, is given the ids the
    server assigns, and ends in one of three ways that [Outcome] names.  A
    transaction that fails leaves the tables alone; one whose commit was
    acknowledged by nobody ([Lost]) has happened although its caller sees an
    error. *)

From stdpp Require Import sorting.
From S2P Require Import Prelude ThirdParty.
Local Open Scope string_scope.
Local Open Scope Z_scope.

Inductive Outcome : Set :=
| Done
| CallFailed (e : error)
| CallLost (e : error).

Section Sql.
Context {L : ThirdParty}.

(** What the server contributes to one call: [now()], the outcome, and the
    ids its column defaults assign ([None]: the column has no default). *)
Record Call := { c_now : Z; c_out : Outcome; c_ids : nat -> option UUID }.

Record Sql (T : Type) := { sq_tables : T; sq_calls : nat; sq_world : nat -> Call }.
#[global] Arguments sq_tables {T} _.
#[global] Arguments sq_calls {T} _.
#[global] Arguments sq_world {T} _ _.

Definition sq_set {T} (d : Sql T) (t : T) : Sql T :=
  {| sq_tables := t; sq_calls := Datatypes.S (sq_calls d); sq_world := sq_world d |}.

Definition sq_call {T} (d : Sql T) : Call := sq_world d (sq_calls d).

(** A transaction: BEGIN, the statements of [f], COMMIT; a deferred ROLLBACK
    covers every error return. *)
Definition transact {T A} (f : Call -> T -> result (A * T)) (d : Sql T) : result A * Sql T :=
  match c_out (sq_call d), f (sq_call d) (sq_tables d) with
  | Done, Ok (a, t) => (Ok a, sq_set d t)
  | Done, Err e => (Err e, sq_set d (sq_tables d))
  | CallFailed e, _ => (Err e, sq_set d (sq_tables d))
  | CallLost e, Ok (_, t) => (Err e, sq_set d t)
  | CallLost e, Err _ => (Err e, sq_set d (sq_tables d))
  end.

(** A statement that only reads. *)
Definition query {T A} (f : Call -> T -> result A) (d : Sql T) : result A * Sql T :=
  match c_out (sq_call d) with
  | Done => (f (sq_call d) (sq_tables d), sq_set d (sq_tables d))
  | CallFailed e | CallLost e => (Err e, sq_set d (sq_tables d))
  end.

(** The server answers every call. *)
Definition sq_up {T} (d : Sql T) : Prop := forall n, c_out (sq_world d n) = Done.

(** *** Statements *)

Definition noRows : error := MsgErr "no rows in result set".
Definition duplicateKey : error := MsgErr "duplicate key value violates unique constraint".
Definition notNull : error := MsgErr "null value in column violates not-null constraint".

(** [SELECT ... WHERE p] read with [QueryRow]: the first row. *)
Definition selectFirst {A} (p : A -> bool) (rows : list A) : result A :=
  match filter (fun a => p a = true) rows with
  | a :: _ => Ok a
  | [] => Err noRows
  end.

(** Go's conversion [int32(n)]. *)
Definition int32 (n : Z) : Z := (n + 2 ^ 31) mod 2 ^ 32 - 2 ^ 31.

(** [LIMIT n OFFSET m]; Postgres refuses negative arguments. *)
Definition limitOffset {A} (n m : Z) (rows : list A) : result (list A) :=
  if (n <? 0) || (m <? 0) then Err (MsgErr "LIMIT must not be negative")
  else Ok (take (Z.to_nat n) (drop (Z.to_nat m) rows)).

(** [ORDER BY k ASC] and [ORDER BY k DESC]. *)
Definition keyLe {A} (k : A -> Z) (a b : A) : Prop := k a <= k b.

#[global] Instance keyLe_dec {A} (k : A -> Z) a b : Decision (keyLe k a b).
Proof. unfold keyLe. apply _. Defined.

Definition orderAsc {A} (k : A -> Z) : list A -> list A := merge_sort (keyLe k).
Definition orderDesc {A} (k : A -> Z) : list A -> list A := merge_sort (flip (keyLe k)).

(** [COALESCE(NULLIF(new, ''), old)] on text columns read as strings. *)
Definition coalesceText (new old : string) : string :=
  if String.eqb new "" then old else new.

(** [CASE WHEN b AND col IS NULL THEN now() ELSE col END]. *)
Definition stampIf (b : bool) (now : Z) (col : option Z) : option Z :=
  if b then match col with None => Some now | Some _ => col end else col.

(** NUMERIC(28,8): eight digits are kept, twenty may stand before the point. *)
Definition numeric28_8 (d : Decimal) : result Decimal :=
  let r := dRound 8 d in
  if LessThan (dAbs r) (NewFromInt (10 ^ 20)) then Ok r
  else Err (MsgErr "numeric field overflow").

(** *** Facts *)

Lemma transact_inv {T A} (f : Call -> T -> result (A * T)) d r d' :
  transact f d = (r, d') ->
  (sq_tables d' = sq_tables d /\ is_ok r = false
   /\ (c_out (sq_call d) = Done -> exists e, r = Err e /\ f (sq_call d) (sq_tables d) = Err e))
  \/ exists a, f (sq_call d) (sq_tables d) = Ok (a, sq_tables d') /\ (r = Ok a \/ is_ok r = false).
Proof.
  unfold transact. destruct (c_out _) eqn:Ho, (f _ _) as [[a t]|e'] eqn:Hf; intros [= <- <-]; simpl;
    try (left; split_and!; [done|done|intros [=]; by eexists]); right; eauto.
Qed.

Lemma transact_up {T A} (f : Call -> T -> result (A * T)) d : sq_up d ->
  transact f d = match f (sq_call d) (sq_tables d) with
                 | Ok (a, t) => (Ok a, sq_set d t)
                 | Err e => (Err e, sq_set d (sq_tables d))
                 end.
Proof. intros Hu. unfold transact, sq_call. rewrite Hu. by repeat case_match. Qed.

Lemma transact_keeps_up {T A} (f : Call -> T -> result (A * T)) d : sq_up d ->
  sq_up (transact f d).2.
Proof. intros Hu. unfold transact. by repeat case_match. Qed.

Lemma query_inv {T A} (f : Call -> T -> result A) d r d' :
  query f d = (r, d') ->
  sq_tables d' = sq_tables d /\ forall a, r = Ok a -> f (sq_call d) (sq_tables d) = Ok a.
Proof. unfold query. destruct (c_out _); by intros [= <- <-]. Qed.

Lemma query_up {T A} (f : Call -> T -> result A) d : sq_up d ->
  query f d = (f (sq_call d) (sq_tables d), sq_set d (sq_tables d)).
Proof. intros Hu. unfold query. unfold sq_call at 1. by rewrite Hu. Qed.

Lemma query_keeps_up {T A} (f : Call -> T -> result A) d : sq_up d -> sq_up (query f d).2.
Proof. intros Hu. unfold query. by repeat case_match. Qed.

Lemma selectFirst_ok {A} (p : A -> bool) rows a :
  selectFirst p rows = Ok a -> a ∈ rows /\ p a = true.
Proof.
  unfold selectFirst. destruct (filter _ rows) as [|b l] eqn:E; [done|]. intros [= ->].
  assert (a ∈ filter (fun a => p a = true) rows) as H by (rewrite E; set_solver).
  apply list_elem_of_filter in H. naive_solver.
Qed.

Lemma selectFirst_some {A} (p : A -> bool) rows a :
  a ∈ rows -> p a = true -> is_ok (selectFirst p rows) = true.
Proof.
  intros Ha Hp. unfold selectFirst. destruct (filter _ rows) as [|b l] eqn:E; [|done].
  assert (a ∈ filter (fun a => p a = true) rows) as H by (apply list_elem_of_filter; done).
  rewrite E in H. set_solver.
Qed.
End Sql.
