(* ===== verification/Machine.v ===== *)
(** * Version-guarded state machines

    The engines of Settla share one design: a handler reads a row, decides a
    new status, and asks the store to write it together with outbox entries
    provided that the row's version has not changed.  This file is the theory
    of that design, over any row type: walks along the edges of a state
    machine, a system in which any number of handlers read, think and write at
    different moments ([mstep]), and the theorem that every row follows the
    machine with exactly the effects of its path in the outbox
    ([machine_history]).  The deposit engines instantiate it. *)

From S2P Require Import Prelude.
Local Open Scope Z_scope.

(** ** Walks *)

Section Walks.
Context {Status : Type} (next : Status -> list Status) (rank : Status -> nat).

Fixpoint walk (s : Status) (l : list Status) : Prop :=
  match l with
  | [] => True
  | s' :: l' => s' ∈ next s /\ walk s' l'
  end.

Fixpoint endpoint (s : Status) (l : list Status) : Status :=
  match l with [] => s | s' :: l' => endpoint s' l' end.

Lemma walk_snoc s l s' : walk s l -> s' ∈ next (endpoint s l) ->
  walk s (l ++ [s'])%list /\ endpoint s (l ++ [s'])%list = s'.
Proof.
  revert s. induction l as [|x l IH]; intros s Hw Hs; simpl in *; [done|].
  destruct Hw as [H1 H2]. destruct (IH _ H2 Hs) as [H3 H4]. done.
Qed.

(** All walks of at most [n] edges. *)
Fixpoint walks (n : nat) (s : Status) : list (list Status) :=
  match n with
  | O => [[]]
  | Datatypes.S n' => [] :: (next s ≫= fun s' => map (cons s') (walks n' s'))
  end.

Lemma walk_in_walks n s l : walk s l -> (length l <= n)%nat -> l ∈ walks n s.
Proof.
  revert s l. induction n as [|n IH]; intros s [|s' l] Hw Hl; simpl in *; try lia; [set_solver..|].
  destruct Hw as [Hs Hw]. apply list_elem_of_further, list_elem_of_bind.
  exists s'. split; [|done]. apply list_elem_of_fmap. exists l. split; [done|].
  apply IH; [done|lia].
Qed.

Context (next_rank : forall s s', s' ∈ next s -> (rank s' < rank s)%nat).

Lemma walk_length s l : walk s l -> (length l + rank (endpoint s l) <= rank s)%nat.
Proof.
  revert s. induction l as [|x l IH]; intros s Hw; simpl in *; [lia|].
  destruct Hw as [H1 H2]. specialize (IH _ H2). apply next_rank in H1. lia.
Qed.

(** Every edge lowers the rank, so walks are short, and a property of walks
    can be checked by going through them. *)
Lemma walk_check (P : list Status -> Prop) s l :
  Forall P (walks (rank s) s) -> walk s l -> P l.
Proof.
  intros HP Hw. rewrite Forall_forall in HP. apply HP, walk_in_walks; [done|].
  pose proof (walk_length _ _ Hw). lia.
Qed.
End Walks.

(** The effects of a path: those of the statuses it enters. *)
Definition emissions {Status Kind} (emitted : Status -> list Kind) (l : list Status) : list Kind := l ≫= emitted.

Lemma emissions_snoc {Status Kind} (emitted : Status -> list Kind) l s :
  emissions emitted (l ++ [s])%list = (emissions emitted l ++ emitted s)%list.
Proof. unfold emissions. rewrite bind_app. simpl. by rewrite app_nil_r. Qed.

(** ** Optimistic locking *)

(** How rows, writes and entries of one engine look to the theory. *)
Record Machine (K Row Entry Status Kind : Type) := {
  mc_id : Row -> K;
  mc_version : Row -> Z;
  mc_status : Row -> Status;
  mc_init : Status;
  mc_first : Z;  (* the version of a new row *)
  mc_next : Status -> list Status;
  mc_rank : Status -> nat;
  mc_emitted : Status -> list Kind;
  mc_kinds : K -> list Entry -> list Kind;
  (** a handler that read the first row may ask to write the second *)
  mc_plan : Row -> Row -> list Entry -> Prop;
  (** the row after the write, from the row before and the row asked for *)
  mc_stamped : Row -> Row -> Row -> Prop;
  (** a change of the row outside the version guard *)
  mc_touched : Row -> Row -> Prop;
  (** a new row with the entries written beside it *)
  mc_fresh : Row -> list Entry -> Prop;
}.
Arguments mc_id {_ _ _ _ _}.
Arguments mc_version {_ _ _ _ _}.
Arguments mc_status {_ _ _ _ _}.
Arguments mc_init {_ _ _ _ _}.
Arguments mc_first {_ _ _ _ _}.
Arguments mc_next {_ _ _ _ _}.
Arguments mc_rank {_ _ _ _ _}.
Arguments mc_emitted {_ _ _ _ _}.
Arguments mc_kinds {_ _ _ _ _}.
Arguments mc_plan {_ _ _ _ _}.
Arguments mc_stamped {_ _ _ _ _}.
Arguments mc_touched {_ _ _ _ _}.
Arguments mc_fresh {_ _ _ _ _}.

Class MachineLaws {K Row Entry Status Kind} (M : Machine K Row Entry Status Kind) : Prop := {
  mc_next_rank s s' : s' ∈ mc_next M s -> (mc_rank M s' < mc_rank M s)%nat;
  mc_rank_init : (mc_rank M (mc_init M) <= 1000)%nat;
  mc_first_small : 0 <= mc_first M <= 1000;
  mc_kinds_app k l l' : mc_kinds M k (l ++ l')%list = (mc_kinds M k l ++ mc_kinds M k l')%list;
  mc_plan_ok r r' es : mc_plan M r r' es ->
    mc_id M r' = mc_id M r /\ mc_version M r' = add64 (mc_version M r) 1
    /\ mc_status M r' ∈ mc_next M (mc_status M r)
    /\ mc_kinds M (mc_id M r) es = mc_emitted M (mc_status M r')
    /\ forall k, k <> mc_id M r -> mc_kinds M k es = [];
  mc_stamped_ok r w r' : mc_stamped M r w r' ->
    mc_id M r' = mc_id M r /\ mc_version M r' = mc_version M w /\ mc_status M r' = mc_status M w;
  mc_touched_ok r r' : mc_touched M r r' ->
    mc_id M r' = mc_id M r /\ mc_version M r' = mc_version M r /\ mc_status M r' = mc_status M r;
  mc_fresh_ok r es : mc_fresh M r es ->
    mc_status M r = mc_init M /\ mc_version M r = mc_first M /\ forall k, mc_kinds M k es = [];
}.

Section System.
Context {K Row Entry Status Kind : Type} `{Countable K}
  (M : Machine K Row Entry Status Kind) {ML : MachineLaws M}.

Record MState := {
  ms_rows : gmap K Row;
  ms_log : list Entry;
  ms_flight : list Row;  (* the rows that calls under way know *)
}.

Inductive mstep : MState -> MState -> Prop :=
| MRead rows log fl k r : rows !! k = Some r -> mc_id M r = k ->
    mstep {| ms_rows := rows; ms_log := log; ms_flight := fl |}
          {| ms_rows := rows; ms_log := log; ms_flight := r :: fl |}
| MWrite rows log fl fl' base w es cur new : base ∈ fl -> mc_plan M base w es ->
    rows !! mc_id M w = Some cur -> mc_version M cur = sub64 (mc_version M w) 1 ->
    mc_stamped M cur w new -> fl' ⊆ w :: fl ->
    mstep {| ms_rows := rows; ms_log := log; ms_flight := fl |}
          {| ms_rows := <[mc_id M w := new]> rows; ms_log := (log ++ es)%list; ms_flight := fl' |}
| MTouch rows log fl k cur new : rows !! k = Some cur -> mc_touched M cur new ->
    mstep {| ms_rows := rows; ms_log := log; ms_flight := fl |}
          {| ms_rows := <[k := new]> rows; ms_log := log; ms_flight := fl |}
| MCreate rows log fl k new es : rows !! k = None -> mc_id M new = k -> mc_fresh M new es ->
    mstep {| ms_rows := rows; ms_log := log; ms_flight := fl |}
          {| ms_rows := <[k := new]> rows; ms_log := (log ++ es)%list; ms_flight := fl |}.

(** The life of a row: it followed a path of the machine from the initial
    status, its version counts the moves, and its effects in the log are those
    of the path. *)
Definition life (log : list Entry) (k : K) (r : Row) : Prop :=
  mc_id M r = k /\ exists l, walk (mc_next M) (mc_init M) l
    /\ mc_status M r = endpoint (mc_init M) l
    /\ mc_version M r = mc_first M + Z.of_nat (length l)
    /\ mc_kinds M k log = emissions (mc_emitted M) l.

(** A snapshot is a past state of its row; while the version stands, so does
    the status. *)
Definition msnapshot_ok (rows : gmap K Row) (r : Row) : Prop :=
  exists cur, rows !! mc_id M r = Some cur /\ 0 <= mc_version M r <= mc_version M cur
    /\ (mc_version M r = mc_version M cur -> mc_status M r = mc_status M cur).

Definition minv (s : MState) : Prop :=
  map_Forall (life (ms_log s)) (ms_rows s)
  /\ (forall k, ms_rows s !! k = None -> mc_kinds M k (ms_log s) = [])
  /\ Forall (msnapshot_ok (ms_rows s)) (ms_flight s).

(** Versions stay far away from the end of [int64]: each move lowers the
    rank of the status. *)
Lemma life_version log k r : life log k r -> 0 <= mc_version M r <= 2000.
Proof.
  intros (_ & l & Hw & _ & -> & _). pose proof (walk_length _ _ mc_next_rank _ _ Hw).
  pose proof mc_rank_init. pose proof mc_first_small. lia.
Qed.

(** What a write does: the snapshot it was planned on is the present row. *)
Lemma write_current rows log base w es cur :
  life log (mc_id M w) cur -> msnapshot_ok rows base -> mc_plan M base w es ->
  rows !! mc_id M w = Some cur -> mc_version M cur = sub64 (mc_version M w) 1 ->
  mc_id M base = mc_id M w /\ mc_version M w = mc_version M cur + 1
  /\ mc_status M w ∈ mc_next M (mc_status M cur)
  /\ mc_kinds M (mc_id M w) es = mc_emitted M (mc_status M w).
Proof.
  intros Hlife (c & Hc & Hle & Heq) Hp Hcur Hv.
  destruct (mc_plan_ok _ _ _ Hp) as (Hid & Hvw & Hnext & Hk & _).
  rewrite <- Hid, Hcur in Hc. simplify_eq. apply life_version in Hlife.
  rewrite add64_id in Hvw by (int64; lia). rewrite Hvw, sub64_id in Hv by (int64; lia).
  assert (mc_status M base = mc_status M c) as <- by (apply Heq; lia).
  split_and!; try done; [lia|congruence].
Qed.

Lemma life_move log es k cur new :
  life log k cur -> mc_id M new = mc_id M cur -> mc_version M new = mc_version M cur + 1 ->
  mc_status M new ∈ mc_next M (mc_status M cur) ->
  mc_kinds M k es = mc_emitted M (mc_status M new) -> life (log ++ es)%list k new.
Proof.
  intros (Hk & l & Hw & He & Hver & Hkinds) Hid Hv Hs Hes. rewrite He in Hs.
  destruct (walk_snoc _ _ _ _ Hw Hs) as [Hw' He']. split; [congruence|].
  exists (l ++ [mc_status M new])%list. rewrite mc_kinds_app, Hkinds, Hes, emissions_snoc.
  split_and!; try done. rewrite length_app. simpl. lia.
Qed.

Lemma life_other log es k r : life log k r -> mc_kinds M k es = [] -> life (log ++ es)%list k r.
Proof.
  intros (Hk & l & Hw & He & Hver & Hkinds) Hes. split; [done|]. exists l.
  by rewrite mc_kinds_app, Hes, app_nil_r.
Qed.

Lemma msnapshot_insert rows k cur new r :
  rows !! k = Some cur -> mc_version M cur <= mc_version M new ->
  (mc_version M cur = mc_version M new -> mc_status M cur = mc_status M new) ->
  msnapshot_ok rows r -> msnapshot_ok (<[k := new]> rows) r.
Proof.
  intros Hcur Hle Heq (c & Hc & Hlec & Heqc). unfold msnapshot_ok.
  destruct (decide (mc_id M r = k)) as [<-|Hne].
  - rewrite lookup_insert_eq. rewrite Hcur in Hc. simplify_eq. exists new.
    split_and!; [done|lia|lia|]. intros Hv. rewrite Heqc by lia. apply Heq. lia.
  - rewrite lookup_insert_ne by done. by exists c.
Qed.

Lemma msnapshot_fresh rows k new r :
  rows !! k = None -> msnapshot_ok rows r -> msnapshot_ok (<[k := new]> rows) r.
Proof.
  intros Hk (c & Hc & H'). exists c. split; [|done].
  rewrite lookup_insert_ne; [done|]. intros ->. by rewrite Hk in Hc.
Qed.

Lemma minv_write rows log fl fl' base w es cur new :
  minv {| ms_rows := rows; ms_log := log; ms_flight := fl |} ->
  base ∈ fl -> mc_plan M base w es -> rows !! mc_id M w = Some cur ->
  mc_version M cur = sub64 (mc_version M w) 1 -> mc_stamped M cur w new -> fl' ⊆ w :: fl ->
  minv {| ms_rows := <[mc_id M w := new]> rows; ms_log := (log ++ es)%list; ms_flight := fl' |}.
Proof.
  intros (Hrows & Hnone & Hf) Hin Hp Hcur Hv Hst Hsub. simpl in *. rewrite Forall_forall in Hf.
  destruct (write_current rows log base w es cur) as (Hb & Hv' & Hnext & Hk); auto.
  destruct (mc_plan_ok _ _ _ Hp) as (_ & _ & _ & _ & Hother). rewrite Hb in Hother.
  destruct (mc_stamped_ok _ _ _ Hst) as (Hnid & Hnv & Hns). split_and!; simpl.
  - intros k r. destruct (decide (k = mc_id M w)) as [->|Hne].
    + rewrite lookup_insert_eq. intros [= <-].
      eapply life_move; [by apply Hrows| | | |]; rewrite ?Hns, ?Hnv; try done; congruence.
    + rewrite lookup_insert_ne by done. intros Hr. apply life_other; auto.
  - intros k Hk'. destruct (decide (k = mc_id M w)) as [->|Hne]; [by rewrite lookup_insert_eq in Hk'|].
    rewrite lookup_insert_ne in Hk' by done. by rewrite mc_kinds_app, Hnone, Hother.
  - rewrite Forall_forall. intros r [->|Hr]%Hsub%elem_of_cons.
    + exists new. rewrite lookup_insert_eq, Hnv, Hns.
      pose proof (life_version _ _ _ (Hrows _ _ Hcur)). split_and!; try done; lia.
    + apply (msnapshot_insert rows _ cur); [done|lia|lia|by apply Hf].
Qed.

Lemma minv_touch rows log fl k cur new :
  minv {| ms_rows := rows; ms_log := log; ms_flight := fl |} ->
  rows !! k = Some cur -> mc_touched M cur new ->
  minv {| ms_rows := <[k := new]> rows; ms_log := log; ms_flight := fl |}.
Proof.
  intros (Hrows & Hnone & Hf) Hk (Hnid & Hnv & Hns)%mc_touched_ok. split_and!; simpl in *.
  - apply map_Forall_insert_2; [|done]. destruct (Hrows _ _ Hk) as (? & l & ?).
    split; [congruence|]. exists l. by rewrite Hnv, Hns.
  - intros k' Hk'. apply Hnone. apply lookup_insert_None in Hk' as [? _]. done.
  - eapply Forall_impl; [exact Hf|]. intros r.
    apply (msnapshot_insert rows _ cur); [done|lia|done].
Qed.

Lemma minv_step s s' : minv s -> mstep s s' -> minv s'.
Proof.
  intros Hi Hs. destruct Hs as
    [rows log fl k r Hk Hid|rows log fl fl' base w es cur new Hin Hp Hcur Hv Hst Hsub
    |rows log fl k cur new Hk Ht|rows log fl k new es Hk Hid Hn].
  - destruct Hi as (Hrows & Hnone & Hf). split_and!; [done|done|]. constructor; [|done].
    exists r. rewrite Hid. pose proof (life_version _ _ _ (Hrows _ _ Hk)). split_and!; try done; lia.
  - by eapply minv_write.
  - by eapply minv_touch.
  - destruct Hi as (Hrows & Hnone & Hf). destruct (mc_fresh_ok _ _ Hn) as (Hs & Hv & Hes).
    split_and!; simpl in *.
    + apply map_Forall_insert_2.
      * split; [done|]. exists []. simpl. rewrite Hv, mc_kinds_app, Hes, Hnone by done.
        split_and!; try done. lia.
      * intros k' r Hr. apply life_other; auto.
    + intros k' Hk'. apply lookup_insert_None in Hk' as [? _].
      by rewrite mc_kinds_app, Hes, Hnone.
    + eapply Forall_impl; [exact Hf|]. intros r Hr. by apply msnapshot_fresh.
Qed.

(** Rule induction over the system: from an empty table, under any
    interleaving, every row lives by the machine. *)
Theorem machine_history s0 s :
  ms_rows s0 = ∅ -> ms_flight s0 = [] -> (forall k, mc_kinds M k (ms_log s0) = []) ->
  rtc mstep s0 s -> map_Forall (life (ms_log s)) (ms_rows s).
Proof.
  intros Hr Hf Hk Hrtc.
  assert (minv s0) as H0.
  { split_and!; [rewrite Hr; apply map_Forall_empty|done|by rewrite Hf]. }
  apply (invariant_rtc mstep minv minv_step _ _ Hrtc H0).
Qed.
End System.
