(* ===== verification/Money.v ===== *)
(** * domain: currencies, money, parties, fees

    Models src/domain/money.go, the validation methods and [FeeBreakdown] of
    src/domain/transfer.go, [FeeSchedule] and [CalculateFee] of
    src/domain/tenant.go and src/domain/slippage.go.  Go's string types
    ([Currency], [CryptoChain]) stay strings, because the code accepts
    arbitrary ones and validates them at run time. *)

From Stdlib Require Import Ascii QArith Qabs Lqa.
From S2P Require Import Prelude ThirdParty.
Local Open Scope string_scope.
Local Open Scope Z_scope.

(** ** Strings *)

(** [strings.ToLower] on the ASCII letters. *)
Definition lower_ascii (a : Ascii.ascii) : Ascii.ascii :=
  let n := Ascii.nat_of_ascii a in
  if (65 <=? n)%nat && (n <=? 90)%nat then Ascii.ascii_of_nat (n + 32) else a.

Fixpoint ToLower (s : string) : string :=
  match s with
  | EmptyString => EmptyString
  | String a s' => String (lower_ascii a) (ToLower s')
  end.

(** [strings.Contains], as the loops over the substrings write it out. *)
Fixpoint containsStr (s sub : string) : bool :=
  String.prefix sub s || match s with EmptyString => false | String _ s' => containsStr s' sub end.

(** [strings.ToUpper] on the ASCII letters. *)
Definition upper_ascii (a : Ascii.ascii) : Ascii.ascii :=
  let n := Ascii.nat_of_ascii a in
  if (97 <=? n)%nat && (n <=? 122)%nat then Ascii.ascii_of_nat (n - 32) else a.

Fixpoint ToUpper (s : string) : string :=
  match s with
  | EmptyString => EmptyString
  | String a s' => String (upper_ascii a) (ToUpper s')
  end.

Definition CurrencyUSD : string := "USD".

Fixpoint string_forallb (f : Ascii.ascii -> bool) (s : string) : bool :=
  match s with
  | EmptyString => true
  | String a s' => f a && string_forallb f s'
  end.

(** [strings.Contains(s, "@")]. *)
Definition contains_at (s : string) : bool :=
  negb (string_forallb (fun a => negb (Ascii.eqb a "@"%char)) s).

Definition account_char (a : Ascii.ascii) : bool :=
  let n := Ascii.nat_of_ascii a in
  ((48 <=? n) && (n <=? 57) || (97 <=? n) && (n <=? 122)
   || (65 <=? n) && (n <=? 90))%nat
  || Ascii.eqb a "-"%char.

(** ** Currencies and chains *)

Abbreviation Currency := string (only parsing).
Abbreviation CryptoChain := string (only parsing).

Definition SupportedCurrencies : list Currency :=
  ["NGN"; "USD"; "GBP"; "EUR"; "GHS"; "KES"; "USDT"; "USDC"].

Definition StablecoinCurrencies : list Currency := ["USDT"; "USDC"].

Definition IsStablecoin (c : Currency) : bool := bool_decide (c ∈ StablecoinCurrencies).

Definition ValidateCurrency (c : Currency) : result unit :=
  if bool_decide (c ∈ SupportedCurrencies) then Ok tt
  else Err (MsgErr "unsupported currency").

Definition SupportedChains : list CryptoChain :=
  ["ethereum"; "tron"; "solana"; "polygon"; "base"; "arbitrum"].

Definition ValidateChain (c : CryptoChain) : result unit :=
  if bool_decide (c ∈ SupportedChains) then Ok tt
  else Err (MsgErr "unsupported blockchain chain").

(** ** Parties *)

Section Parties.
Context {L : ThirdParty}.

Record Sender := { snd_ID : UUID; snd_Name : string; snd_Email : string; snd_Country : string }.

Record Recipient := {
  rcp_Name : string;
  rcp_AccountNumber : string;
  rcp_SortCode : string;
  rcp_BankName : string;
  rcp_Country : string;
  rcp_IBAN : string;
}.

Definition Sender_Validate (s : Sender) : result unit :=
  if String.eqb (snd_Name s) "" then Err (MsgErr "sender name is required")
  else if negb (String.eqb (snd_Email s) "") && negb (contains_at (snd_Email s))
  then Err (MsgErr "sender email is not a valid email address")
  else Ok tt.

Definition Recipient_Validate (r : Recipient) : result unit :=
  if String.eqb (rcp_Name r) "" then Err (MsgErr "recipient name is required")
  else if String.eqb (rcp_Country r) "" then Err (MsgErr "recipient country is required")
  else if (128 <? String.length (rcp_BankName r))%nat
  then Err (MsgErr "recipient bank_name must be at most 128 characters")
  else if negb (String.eqb (rcp_AccountNumber r) "") then
    if (String.length (rcp_AccountNumber r) <? 4)%nat
       || (34 <? String.length (rcp_AccountNumber r))%nat
    then Err (MsgErr "recipient account_number must be 4-34 characters")
    else if negb (string_forallb account_char (rcp_AccountNumber r))
    then Err (MsgErr "recipient account_number contains invalid character")
    else if String.eqb (rcp_BankName r) ""
    then Err (MsgErr "recipient bank_name is required when account_number is provided")
    else Ok tt
  else Ok tt.

(** ** Money *)

Record Money := { m_Amount : Decimal; m_Currency : Currency }.

Definition IsSameCurrencyAs (m other : Money) : bool :=
  String.eqb (m_Currency m) (m_Currency other).

Definition Money_Add (m other : Money) : result Money :=
  if negb (IsSameCurrencyAs m other)
  then Err (WrapErr "cannot add" (DomainErr CodeCurrencyMismatch))
  else Ok {| m_Amount := dAdd (m_Amount m) (m_Amount other); m_Currency := m_Currency m |}.

Definition Money_Sub (m other : Money) : result Money :=
  if negb (IsSameCurrencyAs m other)
  then Err (WrapErr "cannot subtract" (DomainErr CodeCurrencyMismatch))
  else Ok {| m_Amount := dSub (m_Amount m) (m_Amount other); m_Currency := m_Currency m |}.

Definition Money_Mul (m : Money) (factor : Decimal) : Money :=
  {| m_Amount := dMul (m_Amount m) factor; m_Currency := m_Currency m |}.

(** ** Fees *)

Record FeeSchedule := {
  OnRampBPS : Z;
  OffRampBPS : Z;
  MinFeeUSD : Decimal;
  MaxFeeUSD : Decimal;
  CryptoCollectionBPS : Z;
  CryptoCollectionMaxFeeUSD : Decimal;
  BankCollectionBPS : Z;
  BankCollectionMinFeeUSD : Decimal;
  BankCollectionMaxFeeUSD : Decimal;
  FeeScheduleVersion : Z;
  FeeScheduleUpdatedAt : Z;
}.

(** The loop over the four basis-point fields stops at the first bad one. *)
Definition FeeSchedule_Validate (f : FeeSchedule) : result unit :=
  if existsb (fun v => (v <? 0) || (10000 <? v))
       [OnRampBPS f; OffRampBPS f; CryptoCollectionBPS f; BankCollectionBPS f]
  then Err (MsgErr "BPS must be between 0 and 10000")
  else if negb (IsZero (MinFeeUSD f)) && negb (IsZero (MaxFeeUSD f))
          && GreaterThan (MinFeeUSD f) (MaxFeeUSD f)
  then Err (MsgErr "MinFeeUSD must not exceed MaxFeeUSD")
  else if negb (IsZero (BankCollectionMinFeeUSD f))
          && negb (IsZero (BankCollectionMaxFeeUSD f))
          && GreaterThan (BankCollectionMinFeeUSD f) (BankCollectionMaxFeeUSD f)
  then Err (MsgErr "BankCollectionMinFeeUSD must not exceed BankCollectionMaxFeeUSD")
  else Ok tt.

Definition bpsDivisor : Decimal := NewFromInt 10000.

(** The [switch feeType] at the head of [CalculateFee]. *)
Definition feeTypeParams (f : FeeSchedule) (feeType : string) : option (Z * Decimal) :=
  if String.eqb feeType "onramp" then Some (OnRampBPS f, MaxFeeUSD f)
  else if String.eqb feeType "offramp" then Some (OffRampBPS f, MaxFeeUSD f)
  else if String.eqb feeType "crypto_collection"
  then Some (CryptoCollectionBPS f, CryptoCollectionMaxFeeUSD f)
  else if String.eqb feeType "bank_collection"
  then Some (BankCollectionBPS f, BankCollectionMaxFeeUSD f)
  else None.

Definition feeMin (f : FeeSchedule) (feeType : string) : Decimal :=
  if String.eqb feeType "bank_collection" && negb (IsZero (BankCollectionMinFeeUSD f))
  then BankCollectionMinFeeUSD f else MinFeeUSD f.

Definition CalculateFee (f : FeeSchedule) (amount : Decimal) (feeType : string)
  : result Decimal :=
  match feeTypeParams f feeType with
  | None => Err (MsgErr "unknown fee type")
  | Some (bps, maxFee) =>
      if bps <? 0 then Err (MsgErr "basis points must be non-negative")
      else
        let fee := dDiv (dMul amount (NewFromInt bps)) bpsDivisor in
        let fee := dRound 8 fee in
        let minFee := feeMin f feeType in
        let fee := if negb (IsZero minFee) && LessThan fee minFee
                   then dRound 8 minFee else fee in
        let fee := if negb (IsZero maxFee) && GreaterThan fee maxFee
                   then dRound 8 maxFee else fee in
        Ok fee
  end.

Record FeeBreakdown := {
  OnRampFee : Decimal;
  NetworkFee : Decimal;
  OffRampFee : Decimal;
  TotalFeeUSD : Decimal;
}.

Definition FeeBreakdown_Validate (f : FeeBreakdown) : result unit :=
  if IsNegative (OnRampFee f) then Err (MsgErr "OnRampFee must be non-negative")
  else if IsNegative (NetworkFee f) then Err (MsgErr "NetworkFee must be non-negative")
  else if IsNegative (OffRampFee f) then Err (MsgErr "OffRampFee must be non-negative")
  else
    let expectedTotal := dAdd (dAdd (OnRampFee f) (NetworkFee f)) (OffRampFee f) in
    if negb (dEqual (TotalFeeUSD f) expectedTotal)
    then Err (MsgErr "TotalFeeUSD does not equal sum of components")
    else Ok tt.

Definition ValidateWithSchedule (f : FeeBreakdown) (schedule : FeeSchedule) : result unit :=
  let? _ := FeeBreakdown_Validate f in
  if negb (IsZero (MinFeeUSD schedule)) && LessThan (TotalFeeUSD f) (MinFeeUSD schedule)
  then Err (MsgErr "TotalFeeUSD is below schedule minimum")
  else if negb (IsZero (MaxFeeUSD schedule))
          && GreaterThan (TotalFeeUSD f) (MaxFeeUSD schedule)
  then Err (MsgErr "TotalFeeUSD exceeds schedule maximum")
  else Ok tt.

(** ** Slippage *)

Definition SlippagePolicy_Check (maxSlippage quotedRate liveRate : Decimal) : result unit :=
  if negb (IsPositive quotedRate) then Ok tt
  else
    let slippage := dDiv (dAbs (dSub liveRate quotedRate)) quotedRate in
    if GreaterThan slippage maxSlippage
    then Err (MsgErr "FX rate moved beyond slippage limit")
    else Ok tt.
End Parties.

(** ** Facts *)

Section MoneyFacts.
Context {L : ThirdParty} {LL : ThirdPartyLaws L}.
Local Open Scope Q_scope.

Lemma Money_Add_Sub (m1 m2 m3 m4 : Money) :
  Money_Add m1 m2 = Ok m3 -> Money_Sub m3 m2 = Ok m4 ->
  m_Currency m4 = m_Currency m1 /\ dEquiv (m_Amount m4) (m_Amount m1).
Proof.
  unfold Money_Add, Money_Sub, IsSameCurrencyAs, dEquiv.
  intros H1 H2. repeat case_match; simplify_eq/=. split; [done|]. dec_val. lra.
Qed.

(** The fee before clamping. *)
Lemma raw_fee_val (amount : Decimal) bps :
  dVal (dDiv (dMul amount (NewFromInt bps)) bpsDivisor)
  == Qround_places 16 (dVal amount * inject_Z bps / inject_Z 10000).
Proof.
  unfold bpsDivisor. rewrite dDiv_val, dMul_val, !NewFromInt_val; [done|].
  rewrite NewFromInt_val. discriminate.
Qed.

Lemma raw_fee_nonneg (amount : Decimal) bps :
  0 <= dVal amount -> (0 <= bps)%Z ->
  0 <= dVal (dRound 8 (dDiv (dMul amount (NewFromInt bps)) bpsDivisor)).
Proof.
  intros Ha Hb. rewrite dRound_val, raw_fee_val.
  apply Qround_places_nonneg, Qround_places_nonneg.
  apply Qle_shift_div_l; [reflexivity|]. rewrite Qmult_0_l.
  apply Qmult_le_0_compat; [done|]. change 0 with (inject_Z 0). by rewrite <- Zle_Qle.
Qed.

(** The two clamping steps of [CalculateFee]. *)
Definition clampMin (minFee fee : Decimal) : Decimal :=
  if negb (IsZero minFee) && LessThan fee minFee then dRound 8 minFee else fee.

Definition clampMax (maxFee fee : Decimal) : Decimal :=
  if negb (IsZero maxFee) && GreaterThan fee maxFee then dRound 8 maxFee else fee.

(** An amount with at most eight digits after the point. *)
Definition eight_places (d : Decimal) : Prop := Qround_places 8 (dVal d) == dVal d.

Lemma Qround_places_idem p q : Qround_places p (Qround_places p q) == Qround_places p q.
Proof.
  apply (Qround_places_exact p (Qround_int (q * inject_Z (10 ^ Z.of_nat p)))).
  unfold Qround_places. rewrite Qmake_inject by apply pow10_pos. field.
  intros Hz. pose proof (inject_Z_pos _ (pow10_pos p)). lra.
Qed.

Lemma dRound_eight_places d : eight_places (dRound 8 d).
Proof. unfold eight_places. rewrite dRound_val. apply Qround_places_idem. Qed.

Lemma eight_places_le d q : eight_places d -> dVal d <= q -> dVal d <= Qround_places 8 q.
Proof. unfold eight_places. intros Hd H. rewrite <- Hd. by apply Qround_places_mono. Qed.

Lemma eight_places_ge d q : eight_places d -> q <= dVal d -> Qround_places 8 q <= dVal d.
Proof. unfold eight_places. intros Hd H. rewrite <- Hd. by apply Qround_places_mono. Qed.

Lemma clampMin_eight m d : eight_places d -> eight_places (clampMin m d).
Proof. unfold clampMin. case_match; auto using dRound_eight_places. Qed.

Lemma clampMax_eight m d : eight_places d -> eight_places (clampMax m d).
Proof. unfold clampMax. case_match; auto using dRound_eight_places. Qed.

Lemma clampMin_ge m d : eight_places d -> ~ dVal m == 0 ->
  Qround_places 8 (dVal m) <= dVal (clampMin m d).
Proof.
  intros Hd Hm. unfold clampMin. destruct (IsZeroP m); [done|]. simpl.
  destruct (LessThanP d m).
  - rewrite dRound_val. lra.
  - apply eight_places_ge; [done|lra].
Qed.

Lemma clampMax_le m d : eight_places d -> ~ dVal m == 0 ->
  dVal (clampMax m d) <= Qround_places 8 (dVal m).
Proof.
  intros Hd Hm. unfold clampMax. destruct (IsZeroP m); [done|]. simpl.
  destruct (GreaterThanP d m).
  - rewrite dRound_val. lra.
  - apply eight_places_le; [done|lra].
Qed.

Lemma clampMax_ge m d q : (dVal m == 0 \/ q <= dVal m) ->
  Qround_places 8 q <= dVal d -> Qround_places 8 q <= dVal (clampMax m d).
Proof.
  intros Hm Hq. unfold clampMax. destruct (IsZeroP m); simpl; [done|].
  destruct (GreaterThanP d m); [|done].
  rewrite dRound_val. apply Qround_places_mono. naive_solver.
Qed.

Lemma clampMin_mono m d d' : eight_places d' ->
  dVal d <= dVal d' -> dVal (clampMin m d) <= dVal (clampMin m d').
Proof.
  intros Hd' H. unfold clampMin. destruct (IsZeroP m); simpl; [done|].
  destruct (LessThanP d m), (LessThanP d' m); try done; [lra| |lra].
  rewrite dRound_val. apply eight_places_ge; [done|lra].
Qed.

Lemma clampMax_mono m d d' : eight_places d ->
  dVal d <= dVal d' -> dVal (clampMax m d) <= dVal (clampMax m d').
Proof.
  intros Hd H. unfold clampMax. destruct (IsZeroP m); simpl; [done|].
  destruct (GreaterThanP d m), (GreaterThanP d' m); try done; [lra|lra|].
  rewrite dRound_val. apply eight_places_le; [done|lra].
Qed.

(** [CalculateFee] as raw fee followed by the two clamps. *)
Lemma CalculateFee_ok f amount feeType fee :
  CalculateFee f amount feeType = Ok fee <->
  exists bps maxFee,
    feeTypeParams f feeType = Some (bps, maxFee) /\ (0 <= bps)%Z /\
    fee = clampMax maxFee (clampMin (feeMin f feeType)
            (dRound 8 (dDiv (dMul amount (NewFromInt bps)) bpsDivisor))).
Proof.
  unfold CalculateFee. destruct (feeTypeParams f feeType) as [[bps maxFee]|]; [|naive_solver].
  destruct (Z.ltb_spec bps 0).
  - split; [done|]. intros (? & ? & [= <- <-] & ? & _). lia.
  - split.
    + intros [= <-]. eauto.
    + intros (? & ? & [= <- <-] & _ & ->). done.
Qed.
End MoneyFacts.

(** ** Properties of fees *)

Section FeeProperties.
Context {L : ThirdParty} {LL : ThirdPartyLaws L}.
Local Open Scope Q_scope.

(** A computed fee never exceeds the applicable maximum (rounded to
    eight places) when one is set, and is never below the applicable minimum
    (rounded to eight places) when one is set and does not exceed the
    maximum; the fee itself has at most eight decimal places. *)
Theorem CalculateFee_bounds f amount feeType fee bps maxFee :
  CalculateFee f amount feeType = Ok fee ->
  feeTypeParams f feeType = Some (bps, maxFee) ->
  eight_places fee
  /\ (~ dVal maxFee == 0 -> dVal fee <= Qround_places 8 (dVal maxFee))
  /\ (~ dVal (feeMin f feeType) == 0 ->
      (dVal maxFee == 0 \/ dVal (feeMin f feeType) <= dVal maxFee) ->
      Qround_places 8 (dVal (feeMin f feeType)) <= dVal fee).
Proof.
  intros (b & m & Hp & _ & ->)%CalculateFee_ok Hp'. rewrite Hp' in Hp. simplify_eq.
  pose proof (dRound_eight_places
    (dDiv (dMul amount (NewFromInt b)) bpsDivisor)) as Hraw.
  split_and!.
  - by apply clampMax_eight, clampMin_eight.
  - intros. by apply clampMax_le; [apply clampMin_eight|].
  - intros. apply clampMax_ge; [done|]. by apply clampMin_ge.
Qed.

(** Fees are monotone: a larger amount is never charged a smaller fee
    of the same type under the same schedule. *)
Theorem CalculateFee_mono f amount amount' feeType fee fee' :
  dVal amount <= dVal amount' ->
  CalculateFee f amount feeType = Ok fee ->
  CalculateFee f amount' feeType = Ok fee' ->
  dVal fee <= dVal fee'.
Proof.
  intros Ha (b & m & Hp & Hb & ->)%CalculateFee_ok (b' & m' & Hp' & _ & ->)%CalculateFee_ok.
  rewrite Hp in Hp'. simplify_eq.
  apply clampMax_mono; [apply clampMin_eight, dRound_eight_places|].
  apply clampMin_mono; [apply dRound_eight_places|].
  rewrite !dRound_val, !raw_fee_val. do 2 apply Qround_places_mono.
  apply Qmult_le_compat_r; [|done]. apply Qmult_le_compat_r; [done|].
  change 0 with (inject_Z 0). by rewrite <- Zle_Qle.
Qed.
End FeeProperties.

(** ** Witnesses *)

Module FeeWitness.
Import QInstance.
Local Open Scope Q_scope.

(** Lemfi's schedule of the README: 40/35 bps, fees between 0.50 and 500. *)
Definition lemfi : FeeSchedule :=
  {| OnRampBPS := 40; OffRampBPS := 35; MinFeeUSD := 1 # 2; MaxFeeUSD := 500 # 1;
     CryptoCollectionBPS := 30; CryptoCollectionMaxFeeUSD := 250 # 1;
     BankCollectionBPS := 25; BankCollectionMinFeeUSD := 1 # 2;
     BankCollectionMaxFeeUSD := 250 # 1; FeeScheduleVersion := 1;
     FeeScheduleUpdatedAt := 0 |}.

Lemma CalculateFee_bounds_witness :
  CalculateFee lemfi (1000 # 1) "onramp" = Ok (4 # 1)
  /\ (4 # 1) <= Qround_places 8 (500 # 1).
Proof.
  split; [reflexivity|].
  destruct (CalculateFee_bounds lemfi (1000 # 1) "onramp" (4 # 1) 40 (500 # 1))
    as (_ & H & _); [reflexivity|reflexivity|]. apply H. discriminate.
Defined.

Lemma CalculateFee_mono_witness : (1 # 2) <= (500 # 1).
Proof.
  apply (CalculateFee_mono (LL := Qlib_laws) lemfi (10 # 1) (1000000 # 1) "onramp" (1 # 2) (500 # 1));
    [|reflexivity|reflexivity]. vm_compute. discriminate.
Defined.
End FeeWitness.
