(* ===== verification/Deposits.v ===== *)
(** * domain: deposit sessions

    Models src/domain/deposit.go and src/domain/bank_deposit.go: the two
    session aggregates with their state machines, the transactions that pay
    them, the address and virtual account pools, and the tenant's deposit
    configuration.  Statuses have the constants of the Go string types, which
    are the values of the database enums; the preference and policy strings
    stay strings, because the engines give the empty one a meaning. *)

From S2P Require Import Prelude ThirdParty Money.
Local Open Scope string_scope.
Local Open Scope Z_scope.

(** ** The state machines *)

Inductive DepositSessionStatus : Set :=
| DSPendingPayment | DSDetected | DSConfirmed | DSCrediting | DSCredited
| DSSettling | DSSettled | DSHeld | DSExpired | DSFailed | DSCancelled.

#[global] Instance DepositSessionStatus_eq_dec : EqDecision DepositSessionStatus.
Proof. solve_decision. Defined.

Definition ValidDepositTransitions (s : DepositSessionStatus) : list DepositSessionStatus :=
  match s with
  | DSPendingPayment => [DSDetected; DSExpired; DSCancelled]
  | DSDetected => [DSConfirmed; DSPendingPayment; DSFailed]
  | DSConfirmed => [DSCrediting; DSFailed]
  | DSCrediting => [DSCredited; DSFailed]
  | DSCredited => [DSSettling; DSHeld]
  | DSSettling => [DSSettled; DSFailed]
  | DSExpired => [DSDetected]
  | DSCancelled => [DSDetected]
  | DSFailed | DSSettled | DSHeld => []
  end.

Inductive BankDepositSessionStatus : Set :=
| BSPendingPayment | BSPaymentReceived | BSCrediting | BSCredited | BSSettling | BSSettled
| BSHeld | BSExpired | BSFailed | BSCancelled | BSUnderpaid | BSOverpaid.

#[global] Instance BankDepositSessionStatus_eq_dec : EqDecision BankDepositSessionStatus.
Proof. solve_decision. Defined.

Definition ValidBankDepositTransitions (s : BankDepositSessionStatus)
  : list BankDepositSessionStatus :=
  match s with
  | BSPendingPayment => [BSPaymentReceived; BSExpired; BSCancelled]
  | BSPaymentReceived => [BSCrediting; BSUnderpaid; BSOverpaid; BSFailed]
  | BSCrediting => [BSCredited; BSFailed]
  | BSCredited => [BSSettling; BSHeld]
  | BSSettling => [BSSettled; BSFailed]
  | BSUnderpaid => [BSFailed]
  | BSOverpaid => [BSFailed]
  | BSExpired => [BSPaymentReceived]
  | BSCancelled => [BSPaymentReceived]
  | BSFailed | BSSettled | BSHeld => []
  end.

(** ** Preferences and policies *)

Abbreviation SettlementPreference := string (only parsing).
Definition SettlementPreferenceAutoConvert : SettlementPreference := "AUTO_CONVERT".
Definition SettlementPreferenceHold : SettlementPreference := "HOLD".
Definition SettlementPreferenceThreshold : SettlementPreference := "THRESHOLD".

Abbreviation VirtualAccountType := string (only parsing).
Definition VirtualAccountTypePermanent : VirtualAccountType := "PERMANENT".
Definition VirtualAccountTypeTemporary : VirtualAccountType := "TEMPORARY".

Abbreviation PaymentMismatchPolicy := string (only parsing).
Definition PaymentMismatchPolicyAccept : PaymentMismatchPolicy := "ACCEPT".
Definition PaymentMismatchPolicyReject : PaymentMismatchPolicy := "REJECT".

Definition ChainTron : CryptoChain := "tron".
Definition ChainEthereum : CryptoChain := "ethereum".
Definition ChainBase : CryptoChain := "base".
Definition ChainPolygon : CryptoChain := "polygon".
Definition ChainSolana : CryptoChain := "solana".

Section Sessions.
Context {L : ThirdParty}.

(** ** Crypto deposits *)

Record DepositSession := {
  ds_ID : UUID;
  ds_TenantID : UUID;
  ds_IdempotencyKey : string;
  ds_Status : DepositSessionStatus;
  ds_Version : Z;
  ds_Chain : CryptoChain;
  ds_Token : string;
  ds_DepositAddress : string;
  ds_ExpectedAmount : Decimal;
  ds_ReceivedAmount : Decimal;
  ds_Currency : Currency;
  ds_CollectionFeeBPS : Z;
  ds_FeeAmount : Decimal;
  ds_NetAmount : Decimal;
  ds_SettlementPref : SettlementPreference;
  ds_SettlementTransferID : option UUID;
  ds_DerivationIndex : Z;
  ds_ExpiresAt : Z;
  ds_CreatedAt : Z;
  ds_UpdatedAt : Z;
  ds_DetectedAt : option Z;
  ds_ConfirmedAt : option Z;
  ds_CreditedAt : option Z;
  ds_SettledAt : option Z;
  ds_ExpiredAt : option Z;
  ds_FailedAt : option Z;
  ds_FailureReason : string;
  ds_FailureCode : string;
  ds_Metadata : gmap string string;
}.

Definition DepositSession_CanTransitionTo (s : DepositSession) (target : DepositSessionStatus)
  : bool :=
  existsb (fun a => bool_decide (a = target)) (ValidDepositTransitions (ds_Status s)).

(** Assignments to groups of fields. *)
Definition set_ds_status (s : DepositSession) (status : DepositSessionStatus) (version : Z) (now : Z) : DepositSession :=
  {| ds_ID := ds_ID s; ds_TenantID := ds_TenantID s; ds_IdempotencyKey := ds_IdempotencyKey s;
     ds_Status := status; ds_Version := version; ds_Chain := ds_Chain s; ds_Token := ds_Token s;
     ds_DepositAddress := ds_DepositAddress s; ds_ExpectedAmount := ds_ExpectedAmount s;
     ds_ReceivedAmount := ds_ReceivedAmount s; ds_Currency := ds_Currency s;
     ds_CollectionFeeBPS := ds_CollectionFeeBPS s; ds_FeeAmount := ds_FeeAmount s;
     ds_NetAmount := ds_NetAmount s; ds_SettlementPref := ds_SettlementPref s;
     ds_SettlementTransferID := ds_SettlementTransferID s;
     ds_DerivationIndex := ds_DerivationIndex s; ds_ExpiresAt := ds_ExpiresAt s;
     ds_CreatedAt := ds_CreatedAt s; ds_UpdatedAt := now; ds_DetectedAt := ds_DetectedAt s;
     ds_ConfirmedAt := ds_ConfirmedAt s; ds_CreditedAt := ds_CreditedAt s;
     ds_SettledAt := ds_SettledAt s; ds_ExpiredAt := ds_ExpiredAt s;
     ds_FailedAt := ds_FailedAt s; ds_FailureReason := ds_FailureReason s;
     ds_FailureCode := ds_FailureCode s; ds_Metadata := ds_Metadata s |}.

Definition set_ds_amounts (s : DepositSession) (received : Decimal) (fee : Decimal) (net : Decimal) : DepositSession :=
  {| ds_ID := ds_ID s; ds_TenantID := ds_TenantID s; ds_IdempotencyKey := ds_IdempotencyKey s;
     ds_Status := ds_Status s; ds_Version := ds_Version s; ds_Chain := ds_Chain s;
     ds_Token := ds_Token s; ds_DepositAddress := ds_DepositAddress s;
     ds_ExpectedAmount := ds_ExpectedAmount s; ds_ReceivedAmount := received;
     ds_Currency := ds_Currency s; ds_CollectionFeeBPS := ds_CollectionFeeBPS s;
     ds_FeeAmount := fee; ds_NetAmount := net; ds_SettlementPref := ds_SettlementPref s;
     ds_SettlementTransferID := ds_SettlementTransferID s;
     ds_DerivationIndex := ds_DerivationIndex s; ds_ExpiresAt := ds_ExpiresAt s;
     ds_CreatedAt := ds_CreatedAt s; ds_UpdatedAt := ds_UpdatedAt s;
     ds_DetectedAt := ds_DetectedAt s; ds_ConfirmedAt := ds_ConfirmedAt s;
     ds_CreditedAt := ds_CreditedAt s; ds_SettledAt := ds_SettledAt s;
     ds_ExpiredAt := ds_ExpiredAt s; ds_FailedAt := ds_FailedAt s;
     ds_FailureReason := ds_FailureReason s; ds_FailureCode := ds_FailureCode s;
     ds_Metadata := ds_Metadata s |}.

Definition set_ds_times (s : DepositSession) (detected : option Z) (confirmed : option Z) (credited : option Z) (settled : option Z) (expired : option Z) (failed : option Z) : DepositSession :=
  {| ds_ID := ds_ID s; ds_TenantID := ds_TenantID s; ds_IdempotencyKey := ds_IdempotencyKey s;
     ds_Status := ds_Status s; ds_Version := ds_Version s; ds_Chain := ds_Chain s;
     ds_Token := ds_Token s; ds_DepositAddress := ds_DepositAddress s;
     ds_ExpectedAmount := ds_ExpectedAmount s; ds_ReceivedAmount := ds_ReceivedAmount s;
     ds_Currency := ds_Currency s; ds_CollectionFeeBPS := ds_CollectionFeeBPS s;
     ds_FeeAmount := ds_FeeAmount s; ds_NetAmount := ds_NetAmount s;
     ds_SettlementPref := ds_SettlementPref s;
     ds_SettlementTransferID := ds_SettlementTransferID s;
     ds_DerivationIndex := ds_DerivationIndex s; ds_ExpiresAt := ds_ExpiresAt s;
     ds_CreatedAt := ds_CreatedAt s; ds_UpdatedAt := ds_UpdatedAt s; ds_DetectedAt := detected;
     ds_ConfirmedAt := confirmed; ds_CreditedAt := credited; ds_SettledAt := settled;
     ds_ExpiredAt := expired; ds_FailedAt := failed; ds_FailureReason := ds_FailureReason s;
     ds_FailureCode := ds_FailureCode s; ds_Metadata := ds_Metadata s |}.

Definition set_ds_failure (s : DepositSession) (reason : string) (code : string) : DepositSession :=
  {| ds_ID := ds_ID s; ds_TenantID := ds_TenantID s; ds_IdempotencyKey := ds_IdempotencyKey s;
     ds_Status := ds_Status s; ds_Version := ds_Version s; ds_Chain := ds_Chain s;
     ds_Token := ds_Token s; ds_DepositAddress := ds_DepositAddress s;
     ds_ExpectedAmount := ds_ExpectedAmount s; ds_ReceivedAmount := ds_ReceivedAmount s;
     ds_Currency := ds_Currency s; ds_CollectionFeeBPS := ds_CollectionFeeBPS s;
     ds_FeeAmount := ds_FeeAmount s; ds_NetAmount := ds_NetAmount s;
     ds_SettlementPref := ds_SettlementPref s;
     ds_SettlementTransferID := ds_SettlementTransferID s;
     ds_DerivationIndex := ds_DerivationIndex s; ds_ExpiresAt := ds_ExpiresAt s;
     ds_CreatedAt := ds_CreatedAt s; ds_UpdatedAt := ds_UpdatedAt s;
     ds_DetectedAt := ds_DetectedAt s; ds_ConfirmedAt := ds_ConfirmedAt s;
     ds_CreditedAt := ds_CreditedAt s; ds_SettledAt := ds_SettledAt s;
     ds_ExpiredAt := ds_ExpiredAt s; ds_FailedAt := ds_FailedAt s; ds_FailureReason := reason;
     ds_FailureCode := code; ds_Metadata := ds_Metadata s |}.

Definition set_ds_settlement (s : DepositSession) (id : option UUID) : DepositSession :=
  {| ds_ID := ds_ID s; ds_TenantID := ds_TenantID s; ds_IdempotencyKey := ds_IdempotencyKey s;
     ds_Status := ds_Status s; ds_Version := ds_Version s; ds_Chain := ds_Chain s;
     ds_Token := ds_Token s; ds_DepositAddress := ds_DepositAddress s;
     ds_ExpectedAmount := ds_ExpectedAmount s; ds_ReceivedAmount := ds_ReceivedAmount s;
     ds_Currency := ds_Currency s; ds_CollectionFeeBPS := ds_CollectionFeeBPS s;
     ds_FeeAmount := ds_FeeAmount s; ds_NetAmount := ds_NetAmount s;
     ds_SettlementPref := ds_SettlementPref s; ds_SettlementTransferID := id;
     ds_DerivationIndex := ds_DerivationIndex s; ds_ExpiresAt := ds_ExpiresAt s;
     ds_CreatedAt := ds_CreatedAt s; ds_UpdatedAt := ds_UpdatedAt s;
     ds_DetectedAt := ds_DetectedAt s; ds_ConfirmedAt := ds_ConfirmedAt s;
     ds_CreditedAt := ds_CreditedAt s; ds_SettledAt := ds_SettledAt s;
     ds_ExpiredAt := ds_ExpiredAt s; ds_FailedAt := ds_FailedAt s;
     ds_FailureReason := ds_FailureReason s; ds_FailureCode := ds_FailureCode s;
     ds_Metadata := ds_Metadata s |}.

Definition set_ds_identity (s : DepositSession) (id : UUID) (created : Z) (updated : Z) : DepositSession :=
  {| ds_ID := id; ds_TenantID := ds_TenantID s; ds_IdempotencyKey := ds_IdempotencyKey s;
     ds_Status := ds_Status s; ds_Version := ds_Version s; ds_Chain := ds_Chain s;
     ds_Token := ds_Token s; ds_DepositAddress := ds_DepositAddress s;
     ds_ExpectedAmount := ds_ExpectedAmount s; ds_ReceivedAmount := ds_ReceivedAmount s;
     ds_Currency := ds_Currency s; ds_CollectionFeeBPS := ds_CollectionFeeBPS s;
     ds_FeeAmount := ds_FeeAmount s; ds_NetAmount := ds_NetAmount s;
     ds_SettlementPref := ds_SettlementPref s;
     ds_SettlementTransferID := ds_SettlementTransferID s;
     ds_DerivationIndex := ds_DerivationIndex s; ds_ExpiresAt := ds_ExpiresAt s;
     ds_CreatedAt := created; ds_UpdatedAt := updated; ds_DetectedAt := ds_DetectedAt s;
     ds_ConfirmedAt := ds_ConfirmedAt s; ds_CreditedAt := ds_CreditedAt s;
     ds_SettledAt := ds_SettledAt s; ds_ExpiredAt := ds_ExpiredAt s;
     ds_FailedAt := ds_FailedAt s; ds_FailureReason := ds_FailureReason s;
     ds_FailureCode := ds_FailureCode s; ds_Metadata := ds_Metadata s |}.

(** [TransitionTo] with the instant it reads. *)
Definition DepositSession_TransitionTo (s : DepositSession) (target : DepositSessionStatus)
    (now : Z) : result DepositSession :=
  if negb (DepositSession_CanTransitionTo s target)
  then Err (DomainErr CodeInvalidTransition)
  else Ok (set_ds_status s target (add64 (ds_Version s) 1) now).

Definition DepositSession_IsTerminal (s : DepositSession) : bool :=
  match ds_Status s with
  | DSSettled | DSHeld | DSFailed | DSCancelled => true
  | _ => false
  end.

Record DepositTransaction := {
  dt_ID : UUID;
  dt_SessionID : UUID;
  dt_TenantID : UUID;
  dt_Chain : CryptoChain;
  dt_TxHash : string;
  dt_FromAddress : string;
  dt_ToAddress : string;
  dt_TokenContract : string;
  dt_Amount : Decimal;
  dt_BlockNumber : Z;
  dt_BlockHash : string;
  dt_Confirmations : Z;
  dt_RequiredConfirm : Z;
  dt_Confirmed : bool;
  dt_DetectedAt : Z;
  dt_ConfirmedAt : option Z;
  dt_CreatedAt : Z;
}.

Record IncomingTransaction := {
  it_Chain : CryptoChain;
  it_TxHash : string;
  it_FromAddress : string;
  it_ToAddress : string;
  it_TokenContract : string;
  it_Amount : Decimal;
  it_BlockNumber : Z;
  it_BlockHash : string;
  it_Timestamp : Z;
}.

Record CryptoAddressPool := {
  ca_ID : UUID;
  ca_TenantID : UUID;
  ca_Chain : CryptoChain;
  ca_Address : string;
  ca_DerivationIndex : Z;
  ca_Dispensed : bool;
  ca_DispensedAt : option Z;
  ca_SessionID : option UUID;
  ca_CreatedAt : Z;
}.

Record TenantCryptoConfig := {
  cc_CryptoEnabled : bool;
  cc_DefaultSettlementPref : SettlementPreference;
  cc_SupportedChains : list CryptoChain;
  cc_MinConfirmationsTron : Z;
  cc_MinConfirmationsEth : Z;
  cc_MinConfirmationsBase : Z;
  cc_PaymentToleranceBPS : Z;
  cc_DefaultSessionTTLSecs : Z;
}.

(** ** Bank deposits *)

Record BankDepositSession := {
  bs_ID : UUID;
  bs_TenantID : UUID;
  bs_IdempotencyKey : string;
  bs_Status : BankDepositSessionStatus;
  bs_Version : Z;
  bs_BankingPartnerID : string;
  bs_AccountNumber : string;
  bs_AccountName : string;
  bs_SortCode : string;
  bs_IBAN : string;
  bs_AccountType : VirtualAccountType;
  bs_Currency : Currency;
  bs_ExpectedAmount : Decimal;
  bs_MinAmount : Decimal;
  bs_MaxAmount : Decimal;
  bs_ReceivedAmount : Decimal;
  bs_FeeAmount : Decimal;
  bs_NetAmount : Decimal;
  bs_MismatchPolicy : PaymentMismatchPolicy;
  bs_CollectionFeeBPS : Z;
  bs_SettlementPref : SettlementPreference;
  bs_SettlementTransferID : option UUID;
  bs_PayerName : string;
  bs_PayerReference : string;
  bs_BankReference : string;
  bs_ExpiresAt : Z;
  bs_CreatedAt : Z;
  bs_UpdatedAt : Z;
  bs_PaymentReceivedAt : option Z;
  bs_CreditedAt : option Z;
  bs_SettledAt : option Z;
  bs_ExpiredAt : option Z;
  bs_FailedAt : option Z;
  bs_FailureReason : string;
  bs_FailureCode : string;
  bs_Metadata : gmap string string;
}.

Definition BankDepositSession_CanTransitionTo (s : BankDepositSession)
    (target : BankDepositSessionStatus) : bool :=
  existsb (fun a => bool_decide (a = target)) (ValidBankDepositTransitions (bs_Status s)).

Definition set_bs_status (s : BankDepositSession) (status : BankDepositSessionStatus) (version : Z) (now : Z) : BankDepositSession :=
  {| bs_ID := bs_ID s; bs_TenantID := bs_TenantID s; bs_IdempotencyKey := bs_IdempotencyKey s;
     bs_Status := status; bs_Version := version; bs_BankingPartnerID := bs_BankingPartnerID s;
     bs_AccountNumber := bs_AccountNumber s; bs_AccountName := bs_AccountName s;
     bs_SortCode := bs_SortCode s; bs_IBAN := bs_IBAN s; bs_AccountType := bs_AccountType s;
     bs_Currency := bs_Currency s; bs_ExpectedAmount := bs_ExpectedAmount s;
     bs_MinAmount := bs_MinAmount s; bs_MaxAmount := bs_MaxAmount s;
     bs_ReceivedAmount := bs_ReceivedAmount s; bs_FeeAmount := bs_FeeAmount s;
     bs_NetAmount := bs_NetAmount s; bs_MismatchPolicy := bs_MismatchPolicy s;
     bs_CollectionFeeBPS := bs_CollectionFeeBPS s; bs_SettlementPref := bs_SettlementPref s;
     bs_SettlementTransferID := bs_SettlementTransferID s; bs_PayerName := bs_PayerName s;
     bs_PayerReference := bs_PayerReference s; bs_BankReference := bs_BankReference s;
     bs_ExpiresAt := bs_ExpiresAt s; bs_CreatedAt := bs_CreatedAt s; bs_UpdatedAt := now;
     bs_PaymentReceivedAt := bs_PaymentReceivedAt s; bs_CreditedAt := bs_CreditedAt s;
     bs_SettledAt := bs_SettledAt s; bs_ExpiredAt := bs_ExpiredAt s;
     bs_FailedAt := bs_FailedAt s; bs_FailureReason := bs_FailureReason s;
     bs_FailureCode := bs_FailureCode s; bs_Metadata := bs_Metadata s |}.

Definition set_bs_amounts (s : BankDepositSession) (received : Decimal) (fee : Decimal) (net : Decimal) : BankDepositSession :=
  {| bs_ID := bs_ID s; bs_TenantID := bs_TenantID s; bs_IdempotencyKey := bs_IdempotencyKey s;
     bs_Status := bs_Status s; bs_Version := bs_Version s;
     bs_BankingPartnerID := bs_BankingPartnerID s; bs_AccountNumber := bs_AccountNumber s;
     bs_AccountName := bs_AccountName s; bs_SortCode := bs_SortCode s; bs_IBAN := bs_IBAN s;
     bs_AccountType := bs_AccountType s; bs_Currency := bs_Currency s;
     bs_ExpectedAmount := bs_ExpectedAmount s; bs_MinAmount := bs_MinAmount s;
     bs_MaxAmount := bs_MaxAmount s; bs_ReceivedAmount := received; bs_FeeAmount := fee;
     bs_NetAmount := net; bs_MismatchPolicy := bs_MismatchPolicy s;
     bs_CollectionFeeBPS := bs_CollectionFeeBPS s; bs_SettlementPref := bs_SettlementPref s;
     bs_SettlementTransferID := bs_SettlementTransferID s; bs_PayerName := bs_PayerName s;
     bs_PayerReference := bs_PayerReference s; bs_BankReference := bs_BankReference s;
     bs_ExpiresAt := bs_ExpiresAt s; bs_CreatedAt := bs_CreatedAt s;
     bs_UpdatedAt := bs_UpdatedAt s; bs_PaymentReceivedAt := bs_PaymentReceivedAt s;
     bs_CreditedAt := bs_CreditedAt s; bs_SettledAt := bs_SettledAt s;
     bs_ExpiredAt := bs_ExpiredAt s; bs_FailedAt := bs_FailedAt s;
     bs_FailureReason := bs_FailureReason s; bs_FailureCode := bs_FailureCode s;
     bs_Metadata := bs_Metadata s |}.

Definition set_bs_payer (s : BankDepositSession) (name : string) (payerRef : string) (bankRef : string) : BankDepositSession :=
  {| bs_ID := bs_ID s; bs_TenantID := bs_TenantID s; bs_IdempotencyKey := bs_IdempotencyKey s;
     bs_Status := bs_Status s; bs_Version := bs_Version s;
     bs_BankingPartnerID := bs_BankingPartnerID s; bs_AccountNumber := bs_AccountNumber s;
     bs_AccountName := bs_AccountName s; bs_SortCode := bs_SortCode s; bs_IBAN := bs_IBAN s;
     bs_AccountType := bs_AccountType s; bs_Currency := bs_Currency s;
     bs_ExpectedAmount := bs_ExpectedAmount s; bs_MinAmount := bs_MinAmount s;
     bs_MaxAmount := bs_MaxAmount s; bs_ReceivedAmount := bs_ReceivedAmount s;
     bs_FeeAmount := bs_FeeAmount s; bs_NetAmount := bs_NetAmount s;
     bs_MismatchPolicy := bs_MismatchPolicy s; bs_CollectionFeeBPS := bs_CollectionFeeBPS s;
     bs_SettlementPref := bs_SettlementPref s;
     bs_SettlementTransferID := bs_SettlementTransferID s; bs_PayerName := name;
     bs_PayerReference := payerRef; bs_BankReference := bankRef; bs_ExpiresAt := bs_ExpiresAt s;
     bs_CreatedAt := bs_CreatedAt s; bs_UpdatedAt := bs_UpdatedAt s;
     bs_PaymentReceivedAt := bs_PaymentReceivedAt s; bs_CreditedAt := bs_CreditedAt s;
     bs_SettledAt := bs_SettledAt s; bs_ExpiredAt := bs_ExpiredAt s;
     bs_FailedAt := bs_FailedAt s; bs_FailureReason := bs_FailureReason s;
     bs_FailureCode := bs_FailureCode s; bs_Metadata := bs_Metadata s |}.

Definition set_bs_times (s : BankDepositSession) (received : option Z) (credited : option Z) (settled : option Z) (expired : option Z) (failed : option Z) : BankDepositSession :=
  {| bs_ID := bs_ID s; bs_TenantID := bs_TenantID s; bs_IdempotencyKey := bs_IdempotencyKey s;
     bs_Status := bs_Status s; bs_Version := bs_Version s;
     bs_BankingPartnerID := bs_BankingPartnerID s; bs_AccountNumber := bs_AccountNumber s;
     bs_AccountName := bs_AccountName s; bs_SortCode := bs_SortCode s; bs_IBAN := bs_IBAN s;
     bs_AccountType := bs_AccountType s; bs_Currency := bs_Currency s;
     bs_ExpectedAmount := bs_ExpectedAmount s; bs_MinAmount := bs_MinAmount s;
     bs_MaxAmount := bs_MaxAmount s; bs_ReceivedAmount := bs_ReceivedAmount s;
     bs_FeeAmount := bs_FeeAmount s; bs_NetAmount := bs_NetAmount s;
     bs_MismatchPolicy := bs_MismatchPolicy s; bs_CollectionFeeBPS := bs_CollectionFeeBPS s;
     bs_SettlementPref := bs_SettlementPref s;
     bs_SettlementTransferID := bs_SettlementTransferID s; bs_PayerName := bs_PayerName s;
     bs_PayerReference := bs_PayerReference s; bs_BankReference := bs_BankReference s;
     bs_ExpiresAt := bs_ExpiresAt s; bs_CreatedAt := bs_CreatedAt s;
     bs_UpdatedAt := bs_UpdatedAt s; bs_PaymentReceivedAt := received; bs_CreditedAt := credited;
     bs_SettledAt := settled; bs_ExpiredAt := expired; bs_FailedAt := failed;
     bs_FailureReason := bs_FailureReason s; bs_FailureCode := bs_FailureCode s;
     bs_Metadata := bs_Metadata s |}.

Definition set_bs_failure (s : BankDepositSession) (reason : string) (code : string) : BankDepositSession :=
  {| bs_ID := bs_ID s; bs_TenantID := bs_TenantID s; bs_IdempotencyKey := bs_IdempotencyKey s;
     bs_Status := bs_Status s; bs_Version := bs_Version s;
     bs_BankingPartnerID := bs_BankingPartnerID s; bs_AccountNumber := bs_AccountNumber s;
     bs_AccountName := bs_AccountName s; bs_SortCode := bs_SortCode s; bs_IBAN := bs_IBAN s;
     bs_AccountType := bs_AccountType s; bs_Currency := bs_Currency s;
     bs_ExpectedAmount := bs_ExpectedAmount s; bs_MinAmount := bs_MinAmount s;
     bs_MaxAmount := bs_MaxAmount s; bs_ReceivedAmount := bs_ReceivedAmount s;
     bs_FeeAmount := bs_FeeAmount s; bs_NetAmount := bs_NetAmount s;
     bs_MismatchPolicy := bs_MismatchPolicy s; bs_CollectionFeeBPS := bs_CollectionFeeBPS s;
     bs_SettlementPref := bs_SettlementPref s;
     bs_SettlementTransferID := bs_SettlementTransferID s; bs_PayerName := bs_PayerName s;
     bs_PayerReference := bs_PayerReference s; bs_BankReference := bs_BankReference s;
     bs_ExpiresAt := bs_ExpiresAt s; bs_CreatedAt := bs_CreatedAt s;
     bs_UpdatedAt := bs_UpdatedAt s; bs_PaymentReceivedAt := bs_PaymentReceivedAt s;
     bs_CreditedAt := bs_CreditedAt s; bs_SettledAt := bs_SettledAt s;
     bs_ExpiredAt := bs_ExpiredAt s; bs_FailedAt := bs_FailedAt s; bs_FailureReason := reason;
     bs_FailureCode := code; bs_Metadata := bs_Metadata s |}.

Definition set_bs_settlement (s : BankDepositSession) (id : option UUID) : BankDepositSession :=
  {| bs_ID := bs_ID s; bs_TenantID := bs_TenantID s; bs_IdempotencyKey := bs_IdempotencyKey s;
     bs_Status := bs_Status s; bs_Version := bs_Version s;
     bs_BankingPartnerID := bs_BankingPartnerID s; bs_AccountNumber := bs_AccountNumber s;
     bs_AccountName := bs_AccountName s; bs_SortCode := bs_SortCode s; bs_IBAN := bs_IBAN s;
     bs_AccountType := bs_AccountType s; bs_Currency := bs_Currency s;
     bs_ExpectedAmount := bs_ExpectedAmount s; bs_MinAmount := bs_MinAmount s;
     bs_MaxAmount := bs_MaxAmount s; bs_ReceivedAmount := bs_ReceivedAmount s;
     bs_FeeAmount := bs_FeeAmount s; bs_NetAmount := bs_NetAmount s;
     bs_MismatchPolicy := bs_MismatchPolicy s; bs_CollectionFeeBPS := bs_CollectionFeeBPS s;
     bs_SettlementPref := bs_SettlementPref s; bs_SettlementTransferID := id;
     bs_PayerName := bs_PayerName s; bs_PayerReference := bs_PayerReference s;
     bs_BankReference := bs_BankReference s; bs_ExpiresAt := bs_ExpiresAt s;
     bs_CreatedAt := bs_CreatedAt s; bs_UpdatedAt := bs_UpdatedAt s;
     bs_PaymentReceivedAt := bs_PaymentReceivedAt s; bs_CreditedAt := bs_CreditedAt s;
     bs_SettledAt := bs_SettledAt s; bs_ExpiredAt := bs_ExpiredAt s;
     bs_FailedAt := bs_FailedAt s; bs_FailureReason := bs_FailureReason s;
     bs_FailureCode := bs_FailureCode s; bs_Metadata := bs_Metadata s |}.

Definition set_bs_identity (s : BankDepositSession) (id : UUID) (created : Z) (updated : Z) : BankDepositSession :=
  {| bs_ID := id; bs_TenantID := bs_TenantID s; bs_IdempotencyKey := bs_IdempotencyKey s;
     bs_Status := bs_Status s; bs_Version := bs_Version s;
     bs_BankingPartnerID := bs_BankingPartnerID s; bs_AccountNumber := bs_AccountNumber s;
     bs_AccountName := bs_AccountName s; bs_SortCode := bs_SortCode s; bs_IBAN := bs_IBAN s;
     bs_AccountType := bs_AccountType s; bs_Currency := bs_Currency s;
     bs_ExpectedAmount := bs_ExpectedAmount s; bs_MinAmount := bs_MinAmount s;
     bs_MaxAmount := bs_MaxAmount s; bs_ReceivedAmount := bs_ReceivedAmount s;
     bs_FeeAmount := bs_FeeAmount s; bs_NetAmount := bs_NetAmount s;
     bs_MismatchPolicy := bs_MismatchPolicy s; bs_CollectionFeeBPS := bs_CollectionFeeBPS s;
     bs_SettlementPref := bs_SettlementPref s;
     bs_SettlementTransferID := bs_SettlementTransferID s; bs_PayerName := bs_PayerName s;
     bs_PayerReference := bs_PayerReference s; bs_BankReference := bs_BankReference s;
     bs_ExpiresAt := bs_ExpiresAt s; bs_CreatedAt := created; bs_UpdatedAt := updated;
     bs_PaymentReceivedAt := bs_PaymentReceivedAt s; bs_CreditedAt := bs_CreditedAt s;
     bs_SettledAt := bs_SettledAt s; bs_ExpiredAt := bs_ExpiredAt s;
     bs_FailedAt := bs_FailedAt s; bs_FailureReason := bs_FailureReason s;
     bs_FailureCode := bs_FailureCode s; bs_Metadata := bs_Metadata s |}.

Definition BankDepositSession_TransitionTo (s : BankDepositSession)
    (target : BankDepositSessionStatus) (now : Z) : result BankDepositSession :=
  if negb (BankDepositSession_CanTransitionTo s target)
  then Err (DomainErr CodeInvalidTransition)
  else Ok (set_bs_status s target (add64 (bs_Version s) 1) now).

Definition BankDepositSession_IsTerminal (s : BankDepositSession) : bool :=
  match bs_Status s with
  | BSSettled | BSHeld | BSFailed | BSCancelled => true
  | _ => false
  end.

Record BankDepositTransaction := {
  bt_ID : UUID;
  bt_SessionID : UUID;
  bt_TenantID : UUID;
  bt_BankReference : string;
  bt_PayerName : string;
  bt_PayerAccountNumber : string;
  bt_Amount : Decimal;
  bt_Currency : Currency;
  bt_ReceivedAt : Z;
  bt_CreatedAt : Z;
}.

Record IncomingBankCredit := {
  bc_AccountNumber : string;
  bc_Amount : Decimal;
  bc_Currency : Currency;
  bc_PayerName : string;
  bc_PayerAccountNumber : string;
  bc_PayerReference : string;
  bc_BankReference : string;
  bc_ReceivedAt : Z;
}.

Record VirtualAccountPool := {
  va_ID : UUID;
  va_TenantID : UUID;
  va_BankingPartnerID : string;
  va_AccountNumber : string;
  va_AccountName : string;
  va_SortCode : string;
  va_IBAN : string;
  va_Currency : Currency;
  va_AccountType : VirtualAccountType;
  va_Available : bool;
  va_SessionID : option UUID;
  va_CreatedAt : Z;
  va_UpdatedAt : Z;
}.

Record TenantBankConfig := {
  bk_BankDepositsEnabled : bool;
  bk_DefaultBankingPartner : string;
  bk_BankSupportedCurrencies : list Currency;
  bk_DefaultMismatchPolicy : PaymentMismatchPolicy;
  bk_DefaultSessionTTLSecs : Z;
}.
End Sessions.

(** ** Facts on the state machines *)

Lemma deposit_transition_ok {L : ThirdParty} s target now s' :
  DepositSession_TransitionTo s target now = Ok s' ->
  target ∈ ValidDepositTransitions (ds_Status s)
  /\ s' = set_ds_status s target (add64 (ds_Version s) 1) now.
Proof.
  unfold DepositSession_TransitionTo, DepositSession_CanTransitionTo.
  destruct (existsb _ _) eqn:E; simpl; [|done]. intros [= <-]. split; [|done].
  apply existsb_exists in E as (a & Ha & E%bool_decide_eq_true). subst.
  by apply list_elem_of_In.
Qed.

Lemma bank_transition_ok {L : ThirdParty} s target now s' :
  BankDepositSession_TransitionTo s target now = Ok s' ->
  target ∈ ValidBankDepositTransitions (bs_Status s)
  /\ s' = set_bs_status s target (add64 (bs_Version s) 1) now.
Proof.
  unfold BankDepositSession_TransitionTo, BankDepositSession_CanTransitionTo.
  destruct (existsb _ _) eqn:E; simpl; [|done]. intros [= <-]. split; [|done].
  apply existsb_exists in E as (a & Ha & E%bool_decide_eq_true). subst.
  by apply list_elem_of_In.
Qed.
