(* ===== verification/Transfer.v ===== *)
(** * domain: the transfer aggregate, quotes and tenants

    Models the state machine and aggregate of src/domain/transfer.go, the
    quote of src/domain/quote.go and the tenant of src/domain/tenant.go.
    [TransferStatus] has the nine constants of the Go string type, which are
    also the values of the database enum. *)

From S2P Require Import Prelude ThirdParty Money Deposits.
Local Open Scope string_scope.
Local Open Scope Z_scope.

(** ** The state machine *)

Inductive TransferStatus : Set :=
| Created | Funded | OnRamping | Settling | OffRamping
| Completed | Failed | Refunding | Refunded.

#[global] Instance TransferStatus_eq_dec : EqDecision TransferStatus.
Proof. solve_decision. Defined.

Definition ValidTransitions (s : TransferStatus) : list TransferStatus :=
  match s with
  | Created => [Funded; Failed]
  | Funded => [OnRamping; Refunding]
  | OnRamping => [Settling; Refunding; Failed]
  | Settling => [OffRamping; Failed]
  | OffRamping => [Completed; Failed]
  | Failed => [Refunding]
  | Refunding => [Refunded]
  | Completed | Refunded => []
  end.

(** The loop of [CanTransitionTo], on the status alone. *)
Definition CanTransition (s target : TransferStatus) : bool :=
  existsb (fun a => bool_decide (a = target)) (ValidTransitions s).

Section Aggregates.
Context {L : ThirdParty}.

Record BlockchainTx := {
  btx_Chain : CryptoChain;
  btx_Type : string;
  btx_TxHash : string;
  btx_ExplorerURL : string;
  btx_Status : string;
}.

Record Transfer := {
  tr_ID : UUID;
  tr_TenantID : UUID;
  tr_ExternalRef : string;
  tr_IdempotencyKey : string;
  tr_Status : TransferStatus;
  tr_Version : Z;
  tr_SourceCurrency : Currency;
  tr_SourceAmount : Decimal;
  tr_DestCurrency : Currency;
  tr_DestAmount : Decimal;
  tr_StableCoin : Currency;
  tr_StableAmount : Decimal;
  tr_Chain : CryptoChain;
  tr_FXRate : Decimal;
  tr_Fees : FeeBreakdown;
  tr_FeeScheduleSnapshot : option FeeSchedule;
  tr_OnRampProviderID : string;
  tr_OffRampProviderID : string;
  tr_Sender : Sender;
  tr_Recipient : Recipient;
  tr_QuoteID : option UUID;
  tr_BlockchainTxs : list BlockchainTx;
  tr_CreatedAt : Z;
  tr_UpdatedAt : Z;
  tr_FundedAt : option Z;
  tr_CompletedAt : option Z;
  tr_FailedAt : option Z;
  tr_FailureReason : string;
  tr_FailureCode : string;
}.

Definition CanTransitionTo (t : Transfer) (target : TransferStatus) : bool :=
  CanTransition (tr_Status t) target.

(** Assignment of status, version and timestamps, leaving the rest. *)
Definition set_status (t : Transfer) (st : TransferStatus) (v now : Z)
    (funded completed failed : option Z) : Transfer :=
  {| tr_ID := tr_ID t; tr_TenantID := tr_TenantID t; tr_ExternalRef := tr_ExternalRef t;
     tr_IdempotencyKey := tr_IdempotencyKey t; tr_Status := st; tr_Version := v;
     tr_SourceCurrency := tr_SourceCurrency t; tr_SourceAmount := tr_SourceAmount t;
     tr_DestCurrency := tr_DestCurrency t; tr_DestAmount := tr_DestAmount t;
     tr_StableCoin := tr_StableCoin t; tr_StableAmount := tr_StableAmount t;
     tr_Chain := tr_Chain t; tr_FXRate := tr_FXRate t; tr_Fees := tr_Fees t;
     tr_FeeScheduleSnapshot := tr_FeeScheduleSnapshot t;
     tr_OnRampProviderID := tr_OnRampProviderID t;
     tr_OffRampProviderID := tr_OffRampProviderID t; tr_Sender := tr_Sender t;
     tr_Recipient := tr_Recipient t; tr_QuoteID := tr_QuoteID t;
     tr_BlockchainTxs := tr_BlockchainTxs t; tr_CreatedAt := tr_CreatedAt t;
     tr_UpdatedAt := now; tr_FundedAt := funded; tr_CompletedAt := completed;
     tr_FailedAt := failed; tr_FailureReason := tr_FailureReason t;
     tr_FailureCode := tr_FailureCode t |}.

Record TransferEvent := {
  te_ID : UUID;
  te_TransferID : UUID;
  te_TenantID : UUID;
  te_FromStatus : TransferStatus;
  te_ToStatus : TransferStatus;
  te_OccurredAt : Z;
}.

(** [TransitionTo] with the instant it reads and the event id it draws. *)
Definition TransitionTo (t : Transfer) (target : TransferStatus) (now : Z) (eventID : UUID)
  : result TransferEvent * Transfer :=
  if negb (CanTransitionTo t target) then (Err (DomainErr CodeInvalidTransition), t)
  else
    let t' := set_status t target (add64 (tr_Version t) 1) now
                (tr_FundedAt t) (tr_CompletedAt t) (tr_FailedAt t) in
    (Ok {| te_ID := eventID; te_TransferID := tr_ID t; te_TenantID := tr_TenantID t;
           te_FromStatus := tr_Status t; te_ToStatus := target; te_OccurredAt := now |},
     t').

(** ** Quotes *)

Record ScoreBreakdown := {
  sb_Cost : Decimal; sb_Speed : Decimal; sb_Liquidity : Decimal; sb_Reliability : Decimal }.

Record RouteAlternative := {
  alt_OnRampProvider : string;
  alt_OffRampProvider : string;
  alt_Chain : CryptoChain;
  alt_StableCoin : Currency;
  alt_Fee : Money;
  alt_Rate : Decimal;
  alt_StableAmount : Decimal;
  alt_Score : Decimal;
  alt_ScoreBreakdown : ScoreBreakdown;
}.

Record RouteInfo := {
  ri_Chain : CryptoChain;
  ri_StableCoin : Currency;
  ri_EstimatedTimeMin : Z;
  ri_OnRampProvider : string;
  ri_OffRampProvider : string;
  ri_ExplorerURL : string;
  ri_AlternativeRoutes : list RouteAlternative;
}.

Record Quote := {
  q_ID : UUID;
  q_TenantID : UUID;
  q_SourceCurrency : Currency;
  q_SourceAmount : Decimal;
  q_DestCurrency : Currency;
  q_DestAmount : Decimal;
  q_StableAmount : Decimal;
  q_FXRate : Decimal;
  q_Fees : FeeBreakdown;
  q_Route : RouteInfo;
  q_ExpiresAt : Z;
  q_CreatedAt : Z;
}.

Definition IsExpired (q : Quote) (now : Z) : bool := q_ExpiresAt q <? now.

Definition Quote_Validate (q : Quote) : result unit :=
  if negb (IsPositive (q_DestAmount q))
  then Err (MsgErr "quote dest amount must be positive")
  else if negb (IsPositive (q_StableAmount q))
  then Err (MsgErr "quote stable amount must be positive")
  else if String.eqb (ri_OnRampProvider (q_Route q)) ""
  then Err (MsgErr "quote route on_ramp_provider is required")
  else if String.eqb (ri_OffRampProvider (q_Route q)) ""
  then Err (MsgErr "quote route off_ramp_provider is required")
  else if String.eqb (ri_Chain (q_Route q)) ""
  then Err (MsgErr "quote route chain is required")
  else if String.eqb (ri_StableCoin (q_Route q)) ""
  then Err (MsgErr "quote route stablecoin is required")
  else Ok tt.

(** ** Tenants *)

Inductive TenantStatus : Set := TenantActive | TenantSuspended | TenantOnboarding.
Inductive KYBStatus : Set := KYBPending | KYBInReview | KYBVerified | KYBRejected.
Inductive SettlementModel : Set := Prefunded | NetSettlementModel.

(** The fields of [domain.Tenant] the modelled operations read. *)
Record Tenant := {
  tn_ID : UUID;
  tn_Name : string;
  tn_Slug : string;
  tn_Status : TenantStatus;
  tn_FeeSchedule : FeeSchedule;
  tn_SettlementModel : SettlementModel;
  tn_DailyLimitUSD : Decimal;
  tn_PerTransferLimit : Decimal;
  tn_MaxPendingTransfers : Z;
  tn_KYBStatus : KYBStatus;
  tn_CryptoConfig : TenantCryptoConfig;
  tn_BankConfig : TenantBankConfig;
}.

Definition Tenant_IsActive (t : Tenant) : bool :=
  match tn_Status t, tn_KYBStatus t with
  | TenantActive, KYBVerified => true
  | _, _ => false
  end.

Definition ChainSupported (t : Tenant) (chain : CryptoChain) : bool :=
  existsb (String.eqb chain) (cc_SupportedChains (tn_CryptoConfig t)).

Record QuoteRequest := {
  qr_SourceCurrency : Currency;
  qr_SourceAmount : Decimal;
  qr_DestCurrency : Currency;
  qr_DestCountry : string;
}.
End Aggregates.

(** ** Facts on the state machine *)

(** A status step allowed by the table. *)
Definition status_step (s s' : TransferStatus) : Prop := CanTransition s s' = true.

#[global] Instance status_step_dec s s' : Decision (status_step s s').
Proof. unfold status_step. apply _. Defined.

(** Statuses from which no step leaves. *)
Definition terminal (s : TransferStatus) : bool :=
  match ValidTransitions s with [] => true | _ => false end.

(** How far a status is from the end of every path. *)
Definition status_rank (s : TransferStatus) : nat :=
  match s with
  | Created => 7 | Funded => 6 | OnRamping => 5 | Settling => 4 | OffRamping => 3
  | Failed => 2 | Refunding => 1 | Completed | Refunded => 0
  end%nat.

Lemma CanTransition_spec s s' : CanTransition s s' = true <-> s' ∈ ValidTransitions s.
Proof. destruct s, s'; split; intros H; first [reflexivity | discriminate | set_solver | idtac]. Qed.

Lemma status_step_rank s s' : status_step s s' -> (status_rank s' < status_rank s)%nat.
Proof. destruct s, s'; intros H; first [discriminate H | simpl; lia]. Qed.

Lemma TransitionTo_ok {L : ThirdParty} t target now id ev t' :
  TransitionTo t target now id = (Ok ev, t') ->
  status_step (tr_Status t) target
  /\ tr_Status t' = target /\ tr_Version t' = add64 (tr_Version t) 1
  /\ te_FromStatus ev = tr_Status t /\ te_ToStatus ev = target
  /\ te_TransferID ev = tr_ID t.
Proof.
  unfold TransitionTo, status_step, CanTransitionTo.
  destruct (CanTransition (tr_Status t) target) eqn:E; simpl; [|done].
  intros [= <- <-]. by split_and!.
Qed.

Lemma TransitionTo_err {L : ThirdParty} t target now id e t' :
  TransitionTo t target now id = (Err e, t') ->
  ~ status_step (tr_Status t) target /\ e = DomainErr CodeInvalidTransition /\ t' = t.
Proof.
  unfold TransitionTo, status_step, CanTransitionTo.
  destruct (CanTransition (tr_Status t) target) eqn:E; simpl; [done|].
  intros [= <- <-]. by split_and!.
Qed.
