(* ===== verification/Outbox.v ===== *)
(** * domain: the transactional outbox

    Models src/domain/outbox.go, deposit_outbox.go and
    bank_deposit_outbox.go.  The JSON payload of an entry is kept as the
    Go value it was marshalled from ([Payload]), one constructor per payload
    struct; [encoding/json] round-trips these structs. *)

From S2P Require Import Prelude ThirdParty Money Deposits Transfer.
Local Open Scope string_scope.
Local Open Scope Z_scope.

(** ** Event types *)

Definition IntentTreasuryReserve := "treasury.reserve".
Definition IntentTreasuryRelease := "treasury.release".
Definition IntentProviderOnRamp := "provider.onramp.execute".
Definition IntentProviderOffRamp := "provider.offramp.execute".
Definition IntentProviderReverseOnRamp := "provider.reverse_onramp".
Definition IntentLedgerPost := "ledger.post".
Definition IntentLedgerReverse := "ledger.reverse".
Definition IntentBlockchainSend := "blockchain.send".
Definition IntentWebhookDeliver := "webhook.deliver".
Definition IntentPositionCredit := "position.credit".
Definition IntentPositionDebit := "position.debit".
Definition IntentTreasuryConsume := "treasury.consume".
Definition IntentEmailNotify := "email.notify".

Definition EventProviderOnRampFailed := "provider.onramp.failed".
Definition EventProviderOffRampFailed := "provider.offramp.failed".
Definition EventBlockchainFailed := "blockchain.failed".
Definition EventTreasuryReserved := "treasury.reserved".
Definition EventTreasuryReleased := "treasury.released".
Definition EventTreasuryFailed := "treasury.failed".
Definition EventTreasuryConsumed := "treasury.consumed".
Definition EventPositionCredited := "position.credited".
Definition EventPositionDebited := "position.debited".

Definition EventTransferCreated := "transfer.created".
Definition EventTransferFunded := "transfer.funded".
Definition EventOnRampCompleted := "onramp.completed".
Definition EventSettlementCompleted := "settlement.completed".
Definition EventTransferCompleted := "transfer.completed".
Definition EventTransferFailed := "transfer.failed".
Definition EventRefundInitiated := "refund.initiated".
Definition EventRefundCompleted := "refund.completed".

Definition IntentMonitorAddress := "deposit.monitor.address".
Definition IntentCreditDeposit := "deposit.credit".
Definition IntentSettleDeposit := "deposit.settle".
Definition EventDepositSessionCreated := "deposit.session.created".
Definition EventDepositTxDetected := "deposit.tx.detected".
Definition EventDepositTxConfirmed := "deposit.tx.confirmed".
Definition EventDepositSessionCrediting := "deposit.session.crediting".
Definition EventDepositSessionCredited := "deposit.session.credited".
Definition EventDepositSessionSettling := "deposit.session.settling".
Definition EventDepositSessionSettled := "deposit.session.settled".
Definition EventDepositSessionHeld := "deposit.session.held".
Definition EventDepositSessionExpired := "deposit.session.expired".
Definition EventDepositSessionFailed := "deposit.session.failed".
Definition EventDepositSessionCancelled := "deposit.session.cancelled".
Definition EventDepositLatePayment := "deposit.late_payment".
Definition IntentBankDepositCredit := "bank_deposit.credit".
Definition IntentBankDepositSettle := "bank_deposit.settle".
Definition IntentBankDepositRefund := "bank_deposit.refund".
Definition IntentRecycleVirtualAccount := "bank_deposit.recycle_account".
Definition EventBankDepositSessionCreated := "bank_deposit.session.created".
Definition EventBankDepositPaymentReceived := "bank_deposit.payment.received".
Definition EventBankDepositSessionCrediting := "bank_deposit.session.crediting".
Definition EventBankDepositSessionCredited := "bank_deposit.session.credited".
Definition EventBankDepositSessionSettling := "bank_deposit.session.settling".
Definition EventBankDepositSessionSettled := "bank_deposit.session.settled".
Definition EventBankDepositSessionHeld := "bank_deposit.session.held".
Definition EventBankDepositSessionExpired := "bank_deposit.session.expired".
Definition EventBankDepositSessionFailed := "bank_deposit.session.failed".
Definition EventBankDepositSessionCancelled := "bank_deposit.session.cancelled".
Definition EventBankDepositUnderpaid := "bank_deposit.underpaid".
Definition EventBankDepositOverpaid := "bank_deposit.overpaid".
Definition EventBankDepositLatePayment := "bank_deposit.late_payment".

Definition knownEventTypes : list string :=
  [IntentTreasuryReserve; IntentTreasuryRelease; IntentProviderOnRamp;
   IntentProviderOffRamp; IntentLedgerPost; IntentLedgerReverse;
   IntentBlockchainSend; IntentWebhookDeliver; IntentEmailNotify;
   IntentProviderReverseOnRamp; IntentPositionCredit; IntentPositionDebit;
   IntentTreasuryConsume;
   "treasury.reserved"; "treasury.released"; "treasury.failed";
   "provider.onramp.completed"; EventProviderOnRampFailed;
   "provider.offramp.completed"; EventProviderOffRampFailed;
   "ledger.posted"; "ledger.reversed"; "blockchain.confirmed"; EventBlockchainFailed;
   "position.credited"; "position.debited"; "treasury.consumed";
   "provider.inbound.onramp.webhook"; "provider.inbound.offramp.webhook";
   IntentMonitorAddress; IntentCreditDeposit; IntentSettleDeposit;
   EventDepositSessionCreated; EventDepositTxDetected; EventDepositTxConfirmed;
   EventDepositSessionCrediting; EventDepositSessionCredited;
   EventDepositSessionSettling; EventDepositSessionSettled; EventDepositSessionHeld;
   EventDepositSessionExpired; EventDepositSessionFailed; EventDepositSessionCancelled;
   EventDepositLatePayment;
   IntentBankDepositCredit; IntentBankDepositSettle; IntentBankDepositRefund;
   IntentRecycleVirtualAccount; EventBankDepositSessionCreated;
   EventBankDepositPaymentReceived; EventBankDepositSessionCrediting;
   EventBankDepositSessionCredited; EventBankDepositSessionSettling;
   EventBankDepositSessionSettled; EventBankDepositSessionHeld;
   EventBankDepositSessionExpired; EventBankDepositSessionFailed;
   EventBankDepositSessionCancelled; EventBankDepositUnderpaid;
   EventBankDepositOverpaid; EventBankDepositLatePayment;
   EventTransferCreated; EventTransferFunded; "onramp.initiated"; EventOnRampCompleted;
   "settlement.started"; EventSettlementCompleted; "offramp.initiated";
   "offramp.completed"; EventTransferCompleted; EventTransferFailed;
   EventRefundInitiated; EventRefundCompleted; "position.updated"; "liquidity.alert"].

Definition ValidateEventType (eventType : string) : result unit :=
  if existsb (String.eqb eventType) knownEventTypes then Ok tt
  else Err (MsgErr "unknown outbox event type").

Section Outbox.
Context {L : ThirdParty}.

(** ** Payloads *)

Record TreasuryReservePayload := {
  trp_TransferID : UUID; trp_TenantID : UUID; trp_Currency : Currency;
  trp_Amount : Decimal; trp_Location : string }.

Record TreasuryReleasePayload := {
  tlp_TransferID : UUID; tlp_TenantID : UUID; tlp_Currency : Currency;
  tlp_Amount : Decimal; tlp_Location : string; tlp_Reason : string }.

Record TreasuryConsumePayload := {
  tcp_TransferID : UUID; tcp_TenantID : UUID; tcp_Currency : Currency;
  tcp_Amount : Decimal; tcp_Location : string }.

Record PositionCreditPayload := {
  pcp_TenantID : UUID; pcp_Currency : Currency; pcp_Amount : Decimal;
  pcp_Location : string; pcp_Reference : UUID; pcp_RefType : string }.

Record PositionDebitPayload := {
  pdp_TenantID : UUID; pdp_Currency : Currency; pdp_Amount : Decimal;
  pdp_Location : string; pdp_Reference : UUID; pdp_RefType : string;
  pdp_Destination : string }.

Record OnRampFallback := {
  onf_ProviderID : string; onf_OffRampProvider : string; onf_Chain : CryptoChain;
  onf_StableCoin : Currency; onf_Fee : Money; onf_Rate : Decimal;
  onf_StableAmount : Decimal }.

Record ProviderOnRampPayload := {
  onp_TransferID : UUID; onp_TenantID : UUID; onp_ProviderID : string;
  onp_Amount : Decimal; onp_FromCurrency : Currency; onp_ToCurrency : Currency;
  onp_Reference : string; onp_Alternatives : list OnRampFallback;
  onp_QuotedRate : Decimal }.

Record OffRampFallback := { off_ProviderID : string; off_Fee : Money; off_Rate : Decimal }.

Record ProviderOffRampPayload := {
  ofp_TransferID : UUID; ofp_TenantID : UUID; ofp_ProviderID : string;
  ofp_Amount : Decimal; ofp_FromCurrency : Currency; ofp_ToCurrency : Currency;
  ofp_Recipient : Recipient; ofp_Reference : string;
  ofp_Alternatives : list OffRampFallback; ofp_QuotedRate : Decimal;
  ofp_SourceTxHash : string }.

Record LedgerLineEntry := {
  lle_AccountCode : string; lle_EntryType : string; lle_Amount : Decimal;
  lle_Currency : string; lle_Description : string }.

Record LedgerPostPayload := {
  lpp_TransferID : UUID; lpp_TenantID : UUID; lpp_IdempotencyKey : string;
  lpp_Description : string; lpp_ReferenceType : string;
  lpp_Lines : list LedgerLineEntry }.

Record BlockchainSendPayload := {
  bsp_TransferID : UUID; bsp_TenantID : UUID; bsp_Chain : CryptoChain;
  bsp_From : string; bsp_To : string; bsp_Token : string; bsp_Amount : Decimal;
  bsp_Memo : string }.

(** Payloads of the deposit engines. *)
Record MonitorAddressPayload := {
  map_SessionID : UUID; map_TenantID : UUID; map_Chain : CryptoChain;
  map_Address : string; map_Token : string }.

Record CreditDepositPayload := {
  cdp_SessionID : UUID; cdp_TenantID : UUID; cdp_Chain : CryptoChain; cdp_Token : string;
  cdp_GrossAmount : Decimal; cdp_FeeAmount : Decimal; cdp_NetAmount : Decimal;
  cdp_TxHash : string; cdp_IdempotencyKey : string }.

Record SettleDepositPayload := {
  sdp_SessionID : UUID; sdp_TenantID : UUID; sdp_Chain : CryptoChain; sdp_Token : string;
  sdp_Amount : Decimal; sdp_TargetFiat : Currency }.

Record DepositTxDetectedPayload := {
  dtd_SessionID : UUID; dtd_TenantID : UUID; dtd_TxHash : string; dtd_Chain : CryptoChain;
  dtd_Token : string; dtd_Amount : Decimal; dtd_BlockNumber : Z }.

Record DepositTxConfirmedPayload := {
  dtc_SessionID : UUID; dtc_TenantID : UUID; dtc_TxHash : string; dtc_Chain : CryptoChain;
  dtc_Token : string; dtc_Amount : Decimal; dtc_Confirmations : Z }.

Record DepositSessionEventPayload := {
  dse_SessionID : UUID; dse_TenantID : UUID; dse_Status : DepositSessionStatus;
  dse_Chain : CryptoChain; dse_Token : string; dse_Amount : Decimal; dse_Reason : string }.

Record CreditBankDepositPayload := {
  cbp_SessionID : UUID; cbp_TenantID : UUID; cbp_Currency : Currency;
  cbp_GrossAmount : Decimal; cbp_FeeAmount : Decimal; cbp_NetAmount : Decimal;
  cbp_BankReference : string; cbp_IdempotencyKey : string }.

Record SettleBankDepositPayload := {
  sbp_SessionID : UUID; sbp_TenantID : UUID; sbp_Currency : Currency;
  sbp_Amount : Decimal; sbp_TargetFiat : Currency }.

Record RefundBankDepositPayload := {
  rbp_SessionID : UUID; rbp_TenantID : UUID; rbp_AccountNumber : string;
  rbp_Amount : Decimal; rbp_Currency : Currency; rbp_Reason : string }.

Record RecycleVirtualAccountPayload := {
  rvp_AccountID : UUID; rvp_AccountNumber : string; rvp_BankingPartnerID : string }.

Record BankDepositSessionEventPayload := {
  bse_SessionID : UUID; bse_TenantID : UUID; bse_Status : BankDepositSessionStatus;
  bse_Currency : string; bse_Amount : Decimal; bse_Reason : string }.

(** The data of a notification: the arguments of a text built with Sprintf,
    or the payload of the event it notifies of. *)
Inductive NotifyData :=
| NText (args : list string)
| NSession (p : DepositSessionEventPayload)
| NTxDetected (p : DepositTxDetectedPayload)
| NTxConfirmed (p : DepositTxConfirmedPayload)
| NBankSession (p : BankDepositSessionEventPayload).

Record WebhookDeliverPayload := {
  wdp_TransferID : UUID; wdp_SessionID : UUID; wdp_TenantID : UUID;
  wdp_EventType : string; wdp_Data : NotifyData }.

Record EmailNotifyPayload := {
  enp_TenantID : UUID; enp_SessionID : UUID; enp_TransferID : UUID;
  enp_EventType : string; enp_Subject : string; enp_Data : NotifyData }.

Inductive Payload :=
| PTransfer (t : Transfer)
| PTransferEvent (transferID tenantID : UUID)
| PTreasuryReserve (p : TreasuryReservePayload)
| PTreasuryRelease (p : TreasuryReleasePayload)
| PTreasuryConsume (p : TreasuryConsumePayload)
| PPositionCredit (p : PositionCreditPayload)
| PPositionDebit (p : PositionDebitPayload)
| PProviderOnRamp (p : ProviderOnRampPayload)
| PProviderOffRamp (p : ProviderOffRampPayload)
| PLedgerPost (p : LedgerPostPayload)
| PBlockchainSend (p : BlockchainSendPayload)
| PWebhookDeliver (p : WebhookDeliverPayload)
| PEmailNotify (p : EmailNotifyPayload)
| PMonitorAddress (p : MonitorAddressPayload)
| PCreditDeposit (p : CreditDepositPayload)
| PSettleDeposit (p : SettleDepositPayload)
| PCreditBankDeposit (p : CreditBankDepositPayload)
| PSettleBankDeposit (p : SettleBankDepositPayload)
| PRefundBankDeposit (p : RefundBankDepositPayload)
| PRecycleVirtualAccount (p : RecycleVirtualAccountPayload)
| PNotice (d : NotifyData)
| PNone.

(** ** Entries *)

Record OutboxEntry := {
  oe_ID : UUID;
  oe_AggregateType : string;
  oe_AggregateID : UUID;
  oe_TenantID : UUID;
  oe_CorrelationID : UUID;
  oe_EventType : string;
  oe_Payload : Payload;
  oe_IsIntent : bool;
  oe_Published : bool;
  oe_PublishedAt : option Z;
  oe_RetryCount : Z;
  oe_MaxRetries : Z;
  oe_CreatedAt : Z;
}.

Definition NewOutboxEvent (id : UUID) (now : Z) (aggregateType : string)
    (aggregateID tenantID : UUID) (eventType : string) (payload : Payload)
  : result OutboxEntry :=
  let? _ := ValidateEventType eventType in
  Ok {| oe_ID := id; oe_AggregateType := aggregateType; oe_AggregateID := aggregateID;
        oe_TenantID := tenantID; oe_CorrelationID := uuid_Nil; oe_EventType := eventType;
        oe_Payload := payload; oe_IsIntent := false; oe_Published := false;
        oe_PublishedAt := None; oe_RetryCount := 0; oe_MaxRetries := 5;
        oe_CreatedAt := now |}.

Definition NewOutboxIntent (id : UUID) (now : Z) (aggregateType : string)
    (aggregateID tenantID : UUID) (eventType : string) (payload : Payload)
  : result OutboxEntry :=
  let? _ := ValidateEventType eventType in
  Ok {| oe_ID := id; oe_AggregateType := aggregateType; oe_AggregateID := aggregateID;
        oe_TenantID := tenantID; oe_CorrelationID := uuid_Nil; oe_EventType := eventType;
        oe_Payload := payload; oe_IsIntent := true; oe_Published := false;
        oe_PublishedAt := None; oe_RetryCount := 0; oe_MaxRetries := 5;
        oe_CreatedAt := now |}.

(** [OutboxEntry{}], what the Must variants return for an unknown type. *)
Definition zeroEntry : OutboxEntry :=
  {| oe_ID := uuid_Nil; oe_AggregateType := ""; oe_AggregateID := uuid_Nil;
     oe_TenantID := uuid_Nil; oe_CorrelationID := uuid_Nil; oe_EventType := "";
     oe_Payload := PNone; oe_IsIntent := false; oe_Published := false;
     oe_PublishedAt := None; oe_RetryCount := 0; oe_MaxRetries := 0; oe_CreatedAt := 0 |}.

Definition MustNewOutboxEvent (id : UUID) (now : Z) (aggregateType : string)
    (aggregateID tenantID : UUID) (eventType : string) (payload : Payload) : OutboxEntry :=
  match NewOutboxEvent id now aggregateType aggregateID tenantID eventType payload with
  | Ok e => e
  | Err _ => zeroEntry
  end.

Definition MustNewOutboxIntent (id : UUID) (now : Z) (aggregateType : string)
    (aggregateID tenantID : UUID) (eventType : string) (payload : Payload) : OutboxEntry :=
  match NewOutboxIntent id now aggregateType aggregateID tenantID eventType payload with
  | Ok e => e
  | Err _ => zeroEntry
  end.

Definition WithCorrelationID (e : OutboxEntry) (id : UUID) : OutboxEntry :=
  {| oe_ID := oe_ID e; oe_AggregateType := oe_AggregateType e;
     oe_AggregateID := oe_AggregateID e; oe_TenantID := oe_TenantID e;
     oe_CorrelationID := id; oe_EventType := oe_EventType e;
     oe_Payload := oe_Payload e; oe_IsIntent := oe_IsIntent e;
     oe_Published := oe_Published e; oe_PublishedAt := oe_PublishedAt e;
     oe_RetryCount := oe_RetryCount e; oe_MaxRetries := oe_MaxRetries e;
     oe_CreatedAt := oe_CreatedAt e |}.

(** The outcome a worker reports back to the engine. *)
Record IntentResult := {
  ir_Success : bool; ir_ProviderRef : string; ir_TxHash : string;
  ir_Error : string; ir_ErrorCode : string; ir_Metadata : gmap string string }.
End Outbox.
