(* ===== verification/Messaging.v ===== *)
(** * node/messaging: subjects, partitions and streams

    Models src/node/messaging/subjects.go, streams.go and the partition
    functions of nats.go: how an event type and a tenant become a NATS
    subject, and which JetStream stream owns it.  [natsMatch] is the
    documented meaning of the wildcards of NATS; every event goes to
    exactly one stream ([routed_to_one_stream]), but the results of the
    treasury worker do not go to the stream of the transfer worker
    ([results_miss_transfer_worker]). *)

From Stdlib Require Import Ascii.
From S2P Require Import Prelude ThirdParty Outbox.
Local Open Scope string_scope.
Local Open Scope Z_scope.

Module Messaging.

(** ** Strings *)

Fixpoint beforeDot (s : string) : option string :=
  match s with
  | EmptyString => None
  | String c s => if Ascii.eqb c "." then Some EmptyString else String c <$> beforeDot s
  end.

(** [strings.IndexByte(eventType, '.') > 0]. *)
Definition eventPrefix (eventType : string) : string :=
  match beforeDot eventType with
  | Some (String _ _ as p) => p
  | _ => eventType
  end.

(** The rest after a prefix; [strings.HasPrefix] and [strings.TrimPrefix]. *)
Fixpoint TrimPrefix (s prefix : string) {struct prefix} : option string :=
  match prefix, s with
  | EmptyString, _ => Some s
  | String c p, String d s => if Ascii.eqb c d then TrimPrefix s p else None
  | String _ _, EmptyString => None
  end.

Definition matchPrefix (s p : string) : bool :=
  match TrimPrefix s p with Some _ => true | None => false end.

(** ** Partitions *)

(** hash/fnv: 32-bit FNV-1a. *)
Definition fnv32a (bytes : list Z) : Z :=
  fold_left (fun h b => Z.lxor h b * 16777619 mod 2 ^ 32) bytes 2166136261.

Section Routing.
Context {L : ThirdParty}.

(** The remainder by [uint32(numPartitions)] panics at zero. *)
Definition TenantPartition (tenantID : UUID) (numPartitions : Z) : result Z :=
  let n := wrap32u numPartitions in
  if n =? 0 then Err (PanicErr "integer divide by zero")
  else Ok (fnv32a (uuid_Bytes tenantID) mod n).

(** ** Subjects *)

Definition SubjectPrefixTransfer := "settla.transfer".
Definition SubjectPrefixProvider := "settla.provider.command".
Definition SubjectPrefixLedger := "settla.ledger".
Definition SubjectPrefixTreasury := "settla.treasury".
Definition SubjectPrefixBlockchain := "settla.blockchain".
Definition SubjectPrefixWebhook := "settla.webhook".
Definition SubjectPrefixProviderInbound := "settla.provider.inbound".
Definition SubjectPrefixDeposit := "settla.deposit".
Definition SubjectPrefixEmail := "settla.email".
Definition SubjectPrefixBankDeposit := "settla.bank_deposit".

(** The format of all subject builders. *)
Definition partitionSubject (prefix : string) (partition : Z) (eventType : string) : string :=
  prefix +:+ ".partition." +:+ pretty partition +:+ "." +:+ eventType.

Definition PartitionSubject : Z -> string -> string := partitionSubject SubjectPrefixTransfer.
Definition PartitionFilter (partition : Z) : string := partitionSubject SubjectPrefixTransfer partition ">".
Definition StreamPartitionFilter (subjectPrefix : string) (partition : Z) : string :=
  partitionSubject subjectPrefix partition ">".
Definition ConsumerName (partition : Z) : string := "settla-transfer-worker-" +:+ pretty partition.
Definition StreamConsumerName (baseName : string) (partition : Z) : string :=
  baseName +:+ "-" +:+ pretty partition.

(** [TransferSubject], [ProviderSubject] and so on. *)
Definition tenantSubject (prefix : string) (tenantID : UUID) (numPartitions : Z) (eventType : string)
  : result string :=
  let? partition := TenantPartition tenantID numPartitions in
  Ok (partitionSubject prefix partition eventType).

(** The prefix of the subject, and what follows the partition. *)
Definition routeOf (eventType : string) : string * string :=
  let prefix := eventPrefix eventType in
  if String.eqb prefix "deposit" then (SubjectPrefixDeposit, eventType)
  else if existsb (String.eqb prefix) ["transfer"; "settlement"; "onramp"; "offramp"; "refund"]
  then (SubjectPrefixTransfer, eventType)
  else if String.eqb prefix "provider" then
    match TrimPrefix eventType "provider.inbound." with
    | Some rest => (SubjectPrefixProviderInbound, rest)
    | None => (SubjectPrefixProvider, eventType)
    end
  else if String.eqb prefix "ledger" then (SubjectPrefixLedger, eventType)
  else if existsb (String.eqb prefix) ["treasury"; "position"; "liquidity"]
  then (SubjectPrefixTreasury, eventType)
  else if String.eqb prefix "blockchain" then (SubjectPrefixBlockchain, eventType)
  else if String.eqb prefix "webhook" then (SubjectPrefixWebhook, eventType)
  else if String.eqb prefix "email" then (SubjectPrefixEmail, eventType)
  else if String.eqb prefix "bank_deposit" then (SubjectPrefixBankDeposit, eventType)
  else (SubjectPrefixTransfer, eventType).

Definition SubjectForEventType (eventType : string) (tenantID : UUID) (numPartitions : Z) : result string :=
  let '(prefix, rest) := routeOf eventType in tenantSubject prefix tenantID numPartitions rest.

(** ** Streams *)

Record StreamDefinition := { sd_Name : string; sd_Subjects : list string }.

Definition StreamTransfers := "SETTLA_TRANSFERS".
Definition StreamProviders := "SETTLA_PROVIDERS".
Definition StreamLedger := "SETTLA_LEDGER".
Definition StreamTreasury := "SETTLA_TREASURY".
Definition StreamBlockchain := "SETTLA_BLOCKCHAIN".
Definition StreamWebhooks := "SETTLA_WEBHOOKS".
Definition StreamProviderWebhooks := "SETTLA_PROVIDER_WEBHOOKS".
Definition StreamCryptoDeposits := "SETTLA_CRYPTO_DEPOSITS".
Definition StreamEmails := "SETTLA_EMAILS".
Definition StreamBankDeposits := "SETTLA_BANK_DEPOSITS".
Definition StreamPositionEvents := "SETTLA_POSITION_EVENTS".
Definition StreamNameDLQ := "SETTLA_DLQ".

Definition AllStreams : list StreamDefinition :=
  [ {| sd_Name := StreamTransfers; sd_Subjects := ["settla.transfer.partition.*.>"] |};
    {| sd_Name := StreamProviders; sd_Subjects := ["settla.provider.command.partition.*.>"] |};
    {| sd_Name := StreamLedger; sd_Subjects := ["settla.ledger.partition.*.>"] |};
    {| sd_Name := StreamTreasury; sd_Subjects := ["settla.treasury.partition.*.>"] |};
    {| sd_Name := StreamBlockchain; sd_Subjects := ["settla.blockchain.partition.*.>"] |};
    {| sd_Name := StreamWebhooks; sd_Subjects := ["settla.webhook.partition.*.>"] |};
    {| sd_Name := StreamProviderWebhooks;
       sd_Subjects := ["settla.provider.inbound.partition.*.>"; "settla.provider.inbound.raw"] |};
    {| sd_Name := StreamCryptoDeposits; sd_Subjects := ["settla.deposit.partition.*.>"] |};
    {| sd_Name := StreamEmails; sd_Subjects := ["settla.email.partition.*.>"] |};
    {| sd_Name := StreamBankDeposits;
       sd_Subjects := ["settla.bank_deposit.partition.*.>"; "settla.inbound.bank.>"] |};
    {| sd_Name := StreamPositionEvents; sd_Subjects := ["settla.position.event.>"] |};
    {| sd_Name := StreamNameDLQ; sd_Subjects := ["settla.dlq.>"] |} ].

(** The cases of the switch, in order. *)
Definition streamPrefixes : list (string * string) :=
  [ ("settla.transfer.partition.", StreamTransfers);
    ("settla.provider.inbound.partition.", StreamProviderWebhooks);
    ("settla.provider.command.partition.", StreamProviders);
    ("settla.ledger.partition.", StreamLedger);
    ("settla.treasury.partition.", StreamTreasury);
    ("settla.blockchain.partition.", StreamBlockchain);
    ("settla.webhook.partition.", StreamWebhooks);
    ("settla.deposit.partition.", StreamCryptoDeposits);
    ("settla.email.partition.", StreamEmails);
    ("settla.bank_deposit.partition.", StreamBankDeposits);
    ("settla.inbound.bank.", StreamBankDeposits);
    ("settla.position.event.", StreamPositionEvents);
    ("settla.dlq.", StreamNameDLQ) ].

Definition StreamForSubject (subject : string) : string :=
  match filter (fun p => matchPrefix subject p.1 = true) streamPrefixes with
  | (_, name) :: _ => name
  | [] => ""
  end.

Definition DLQSubject (streamName eventType : string) : string :=
  "settla.dlq." +:+ streamName +:+ "." +:+ eventType.

(** ** Wildcards *)

Fixpoint tokens (s : string) : list string :=
  match s with
  | EmptyString => [EmptyString]
  | String c s =>
      if Ascii.eqb c "." then EmptyString :: tokens s
      else match tokens s with
           | t :: ts => String c t :: ts
           | [] => [String c EmptyString]
           end
  end.

(** A star stands for one token, a final > for one or more. *)
Fixpoint tokensMatch (pattern subject : list string) : bool :=
  match pattern, subject with
  | [">"], _ :: _ => true
  | p :: ps, s :: ss => (String.eqb p "*" || String.eqb p s) && tokensMatch ps ss
  | [], [] => true
  | _, _ => false
  end.

Definition natsMatch (pattern subject : string) : bool := tokensMatch (tokens pattern) (tokens subject).

Definition owns (def : StreamDefinition) (subject : string) : bool :=
  existsb (fun pattern => natsMatch pattern subject) (sd_Subjects def).
End Routing.

(** ** Facts *)

Fixpoint noDot (s : string) : bool :=
  match s with
  | EmptyString => true
  | String c s => negb (Ascii.eqb c ".") && noDot s
  end.

Lemma tokens_nonempty s : tokens s <> [].
Proof. destruct s as [|c s]; simpl; [done|]. destruct (Ascii.eqb c "."); [done|]. by destruct (tokens s). Qed.

Lemma tokens_dot a b : noDot a = true -> tokens (a +:+ "." +:+ b) = a :: tokens b.
Proof.
  induction a as [|c a IH]; [done|]. simpl. intros [Hc Ha]%andb_true_iff. apply negb_true_iff in Hc.
  rewrite Hc. simpl in IH. by rewrite IH.
Qed.

Lemma pretty_noDot_go x s : noDot s = true -> noDot (pretty_N_go x s) = true.
Proof.
  revert s. induction (N.lt_wf_0 x) as [x _ IH]; intros s Hs.
  assert (x = 0 \/ 0 < x)%N as [->|Hx] by lia; [by rewrite pretty_N_go_0|].
  rewrite pretty_N_go_step by done. apply IH; [by apply N.div_lt|]. simpl. rewrite Hs.
  unfold pretty_N_char. by repeat case_match.
Qed.

Lemma pretty_noDot (z : Z) : noDot (pretty z) = true.
Proof.
  unfold pretty, pretty_Z. destruct z as [|p|p]; [done| |].
  - unfold pretty, pretty_positive, pretty, pretty_N. case_decide; [done|]. by apply pretty_noDot_go.
  - simpl. unfold pretty, pretty_positive, pretty, pretty_N. case_decide; [done|]. by apply pretty_noDot_go.
Qed.

Lemma tokens_partition p (k : Z) e :
  tokens (p +:+ ".partition." +:+ pretty k +:+ "." +:+ e)
  = (tokens p ++ "partition" :: pretty k :: tokens e)%list.
Proof.
  assert (forall q, tokens (p +:+ String "." q) = (tokens p ++ tokens q)%list) as Hp.
  { intros q. induction p as [|c p IH]; [done|]. simpl. rewrite IH. destruct (Ascii.eqb c "."); [done|].
    destruct (tokens p) as [|t ts] eqn:E; [by apply tokens_nonempty in E|done]. }
  change (".partition." +:+ pretty k +:+ "." +:+ e)
    with (String "." ("partition" +:+ "." +:+ (pretty k +:+ "." +:+ e))).
  rewrite Hp, (tokens_dot "partition") by done. by rewrite tokens_dot by apply pretty_noDot.
Qed.

(** The prefixes of the subject builders with the streams they belong to. *)
Definition prefixStream : list (string * string) :=
  [ (SubjectPrefixTransfer, StreamTransfers); (SubjectPrefixProvider, StreamProviders);
    (SubjectPrefixLedger, StreamLedger); (SubjectPrefixTreasury, StreamTreasury);
    (SubjectPrefixBlockchain, StreamBlockchain); (SubjectPrefixWebhook, StreamWebhooks);
    (SubjectPrefixProviderInbound, StreamProviderWebhooks); (SubjectPrefixDeposit, StreamCryptoDeposits);
    (SubjectPrefixEmail, StreamEmails); (SubjectPrefixBankDeposit, StreamBankDeposits) ].

Lemma prefix_owned p name k e : (p, name) ∈ prefixStream ->
  StreamForSubject (partitionSubject p k e) = name
  /\ forall def, def ∈ AllStreams -> owns def (partitionSubject p k e) = bool_decide (sd_Name def = name).
Proof.
  intros Hin. unfold prefixStream in Hin.
  assert (forall def, owns def (partitionSubject p k e)
    = existsb (fun q => tokensMatch (tokens q) (tokens p ++ "partition" :: pretty k :: tokens e)%list) (sd_Subjects def)) as Ho.
  { intros def. unfold owns, natsMatch, partitionSubject. by rewrite tokens_partition. }
  setoid_rewrite Ho. unfold partitionSubject. generalize (pretty k) as q.
  destruct (tokens e) as [|t ts] eqn:Et; [by apply tokens_nonempty in Et|]. intros q.
  repeat (apply elem_of_cons in Hin as [[= -> ->]|Hin];
    [split; [reflexivity|intros def Hd; unfold AllStreams in Hd; repeat (apply elem_of_cons in Hd as [->|Hd]; [reflexivity|]);
      by apply elem_of_nil in Hd]|]).
  by apply elem_of_nil in Hin.
Qed.

Lemma routeOf_known eventType : exists name, ((routeOf eventType).1, name) ∈ prefixStream.
Proof.
  unfold routeOf, prefixStream. repeat case_match; simpl; eexists; repeat (apply elem_of_cons; first [by left|right]).
Qed.

Section RoutingProps.
Context {L : ThirdParty}.

Lemma TenantPartition_range tenant n : 0 < n < 2 ^ 32 ->
  exists k, TenantPartition tenant n = Ok k /\ 0 <= k < n.
Proof.
  intros Hn. unfold TenantPartition, wrap32u. rewrite Z.mod_small by lia.
  destruct (Z.eqb_spec n 0); [lia|]. eexists. split; [done|]. apply Z.mod_pos_bound. lia.
Qed.

(** Whatever the event type and the tenant, the subject lies in the
    tenant's partition and belongs to exactly one of the streams, the one
    StreamForSubject names. *)
Theorem routed_to_one_stream eventType tenant n : 0 < n < 2 ^ 32 ->
  exists k subject name,
    TenantPartition tenant n = Ok k /\ 0 <= k < n
    /\ subject = partitionSubject (routeOf eventType).1 k (routeOf eventType).2
    /\ SubjectForEventType eventType tenant n = Ok subject
    /\ StreamForSubject subject = name
    /\ forall def, def ∈ AllStreams -> owns def subject = bool_decide (sd_Name def = name).
Proof.
  intros Hn. destruct (TenantPartition_range tenant n Hn) as (k & Hk & Hr).
  destruct (routeOf_known eventType) as [name Hin]. unfold SubjectForEventType, tenantSubject.
  destruct (routeOf eventType) as [p rest]. simpl in *. rewrite Hk.
  destruct (prefix_owned p name k rest Hin) as [H1 H2]. exists k, (partitionSubject p k rest), name. auto 7.
Qed.

(** The result events of the treasury, provider, blockchain and ledger workers. *)
Definition resultEvents : list string :=
  [EventTreasuryReserved; EventTreasuryReleased; EventTreasuryFailed; EventTreasuryConsumed;
   "provider.onramp.completed"; EventProviderOnRampFailed; "provider.offramp.completed";
   EventProviderOffRampFailed; "blockchain.confirmed"; EventBlockchainFailed; "ledger.posted";
   "ledger.reversed"].

(** No result event of a worker reaches a transfer worker: its subject
    matches the filter of no transfer partition. *)
Theorem results_miss_transfer_worker eventType tenant n subject k : eventType ∈ resultEvents ->
  SubjectForEventType eventType tenant n = Ok subject -> natsMatch (PartitionFilter k) subject = false.
Proof.
  intros Hin Hs. unfold resultEvents in Hin. unfold SubjectForEventType, tenantSubject in Hs.
  destruct (TenantPartition tenant n) as [j|] eqn:Ej; [|by destruct (routeOf eventType)].
  unfold natsMatch, PartitionFilter, partitionSubject in *. rewrite tokens_partition.
  repeat (apply elem_of_cons in Hin as [->|Hin];
    [simpl in Hs; injection Hs as <-; reflexivity|]).
  by apply elem_of_nil in Hin.
Qed.
End RoutingProps.
End Messaging.
