(* ===== verification/Relay.v ===== *)
(** * node/outbox: the relay

    Models src/node/outbox/relay.go over the adapter
    src/store/transferdb/outbox_relay_adapter.go and its statements: a poll
    fetches unpublished entries, publishes them to JetStream, each tenant's in
    order and the tenants at the same time, and marks what was published;
    and src/node/outbox/leader.go and cleanup.go.

    JetStream is a service: [JetStream] is the publish call and
    [JetStreamLaws] what its documentation promises, an acknowledged message
    is stored, and a message id that is seen again within the duplicate
    window is acknowledged and not stored again.  [sstep] interleaves any number
    of relays with the transactions that fill the outbox. *)

From S2P Require Import Prelude ThirdParty Sql Outbox Messaging.
Local Open Scope string_scope.
Local Open Scope Z_scope.

Module Relay.
Import Messaging.

(** ** Messages *)

(** A message as a stream keeps it; [J] are JSON texts. *)
Record StoredMsg (J : Type) := {
  sm_Stream : string; sm_Subject : string; sm_ID : string; sm_Data : J; sm_Time : Z }.
#[global] Arguments sm_Stream {J} _.
#[global] Arguments sm_Subject {J} _.
#[global] Arguments sm_ID {J} _.
#[global] Arguments sm_Data {J} _.
#[global] Arguments sm_Time {J} _.

Definition StreamDuplicateWindow : Z := 24 * 3600 * 1000000000.

(** The server's side of [js.PublishMsg], at an instant, with subject, message
    id and data. *)
Class JetStream (J B : Type) := {
  js_publish : Z -> string -> string -> J -> B -> result (unit * B);
}.

Definition inStream (name subject : string) : Prop :=
  exists def, def ∈ AllStreams /\ sd_Name def = name /\ owns def subject = true.

Class JetStreamLaws {J B} (JS : JetStream J B) := {
  (** The messages stored so far, in order, those already consumed included. *)
  js_history : B -> list (StoredMsg J);
  js_accepted now subject id data b b' : js_publish now subject id data b = Ok (tt, b') ->
    (exists name, inStream name subject
       /\ js_history b' = (js_history b ++ [{| sm_Stream := name; sm_Subject := subject; sm_ID := id;
                                               sm_Data := data; sm_Time := now |}])%list)
    \/ (js_history b' = js_history b
        /\ exists m, m ∈ js_history b /\ sm_ID m = id /\ inStream (sm_Stream m) subject);
  js_dedup now subject id data b b' m : js_publish now subject id data b = Ok (tt, b') ->
    m ∈ js_history b -> sm_ID m = id -> inStream (sm_Stream m) subject ->
    0 <= now - sm_Time m < StreamDuplicateWindow -> js_history b' = js_history b;
  js_live now subject id data b name : inStream name subject ->
    is_ok (js_publish now subject id data b) = true;
}.

Section Relay.
Context {L : ThirdParty} {J B : Type} `{JS : !JetStream J B}.

(** ** The outbox table *)

Record OutboxRow := {
  or_ID : UUID; or_AggregateType : string; or_AggregateID : UUID; or_TenantID : UUID;
  or_EventType : string; or_Payload : J; or_IsIntent : bool; or_Published : bool;
  or_PublishedAt : option Z; or_RetryCount : Z; or_MaxRetries : Z; or_CreatedAt : Z;
}.

Definition set_state (r : OutboxRow) (published : bool) (at_ : option Z) (retries : Z) : OutboxRow :=
  {| or_ID := or_ID r; or_AggregateType := or_AggregateType r; or_AggregateID := or_AggregateID r;
     or_TenantID := or_TenantID r; or_EventType := or_EventType r; or_Payload := or_Payload r;
     or_IsIntent := or_IsIntent r; or_Published := published; or_PublishedAt := at_;
     or_RetryCount := retries; or_MaxRetries := or_MaxRetries r; or_CreatedAt := or_CreatedAt r |}.

Abbreviation DB := (Sql (list OutboxRow)).

Definition unpublished (r : OutboxRow) : bool :=
  negb (or_Published r) && (or_RetryCount r <? or_MaxRetries r).

Definition GetUnpublishedEntries (limit : Z) : DB -> result (list OutboxRow) * DB :=
  query (fun _ t => limitOffset limit 0
    (orderAsc or_CreatedAt (filter (fun r => unpublished r = true) t))).

(** [WHERE id = $1 AND created_at = $2], the primary key. *)
Definition atKey (id : UUID) (createdAt : Z) (r : OutboxRow) : bool :=
  bool_decide (or_ID r = id) && (or_CreatedAt r =? createdAt).

Definition MarkPublished (id : UUID) (createdAt : Z) : DB -> result unit * DB :=
  transact (fun c t => Ok (tt, map (fun r =>
    if atKey id createdAt r && negb (or_Published r)
    then set_state r true (Some (c_now c)) (or_RetryCount r) else r) t)).

(** The counter is an int4. *)
Definition MarkFailed (id : UUID) (createdAt : Z) : DB -> result unit * DB :=
  transact (fun c t =>
    if existsb (fun r => atKey id createdAt r && (or_RetryCount r =? 2 ^ 31 - 1)) t
    then Err (MsgErr "integer out of range")
    else Ok (tt, map (fun r =>
      if atKey id createdAt r
      then set_state r (or_Published r) (or_PublishedAt r) (or_RetryCount r + 1) else r) t)).

(** ** Publishing an entry *)

Record outboxMessage := {
  om_ID : UUID; om_AggregateType : string; om_AggregateID : UUID; om_TenantID : UUID;
  om_EventType : string; om_Payload : J; om_IsIntent : bool; om_CreatedAt : Z;
}.

Definition messageOf (e : OutboxRow) : outboxMessage :=
  {| om_ID := or_ID e; om_AggregateType := or_AggregateType e; om_AggregateID := or_AggregateID e;
     om_TenantID := or_TenantID e; om_EventType := or_EventType e; om_Payload := or_Payload e;
     om_IsIntent := or_IsIntent e; om_CreatedAt := or_CreatedAt e |}.

(** [json.Marshal] at an [outboxMessage]. *)
Variable json_MarshalMessage : outboxMessage -> result J.
Variable numPartitions : Z.

Definition SubjectForEntry (e : OutboxRow) : result string :=
  SubjectForEventType (or_EventType e) (or_TenantID e) numPartitions.

(** The subject and the data. *)
Definition encode (e : OutboxRow) : result (string * J) :=
  let? subject := SubjectForEntry e in
  let? data := wrap "marshalling entry" (json_MarshalMessage (messageOf e)) in
  Ok (subject, data).

Definition Publish (subject id : string) (data : J) : Sql B -> result unit * Sql B :=
  transact (fun c b => js_publish (c_now c) subject id data b).

(** What follows a publish; errors of the marks are only logged. *)
Definition mark (e : OutboxRow) (r : result unit) (d : DB) : DB :=
  match r with
  | Err _ => (MarkFailed (or_ID e) (or_CreatedAt e) d).2
  | Ok _ => (MarkPublished (or_ID e) (or_CreatedAt e) d).2
  end.

Record Relays := { rl_store : DB; rl_bus : Sql B }.

Definition publishEntry (e : OutboxRow) (s : Relays) : result unit * Relays :=
  match encode e with
  | Err err => (Err err, s)
  | Ok (subject, data) =>
      let '(r, bus) := Publish subject (uuid_String (or_ID e)) data (rl_bus s) in
      (wrap "publishing entry" r, {| rl_store := mark e r (rl_store s); rl_bus := bus |})
  end.

(** ** A batch *)

(** The tenants in the order of their first entries. *)
Fixpoint tenantOrder (seen : list UUID) (entries : list OutboxRow) : list UUID :=
  match entries with
  | [] => []
  | e :: rest =>
      if bool_decide (or_TenantID e ∈ seen) then tenantOrder seen rest
      else or_TenantID e :: tenantOrder (or_TenantID e :: seen) rest
  end.

(** The goroutines: the entries of each tenant, in order; entries with a zero
    id are skipped. *)
Definition groups (entries : list OutboxRow) : list (list OutboxRow) :=
  let valid := filter (fun e => or_ID e <> uuid_Nil) entries in
  map (fun t => filter (fun e => or_TenantID e = t) valid) (tenantOrder [] valid).

(** An order in which the entries of concurrent goroutines can be taken. *)
Inductive merges {A} : list (list A) -> list A -> Prop :=
| merges_done gs : Forall (fun g => g = []) gs -> merges gs []
| merges_take gs i x g l : gs !! i = Some (x :: g) -> merges (<[i := g]> gs) l -> merges gs (x :: l).

Fixpoint publishAll (order : list OutboxRow) (s : Relays) : Relays :=
  match order with
  | [] => s
  | e :: rest => publishAll rest (publishEntry e s).2
  end.

(** One poll; [schedule] picks the order of the concurrent publishes. *)
Definition poll (batchSize : Z) (schedule : list (list OutboxRow) -> list OutboxRow) (s : Relays)
  : result unit * Relays :=
  let '(r, d) := GetUnpublishedEntries batchSize (rl_store s) in
  let s := {| rl_store := d; rl_bus := rl_bus s |} in
  match r with
  | Err e => (Err (WrapErr "fetching unpublished entries" e), s)
  | Ok [] => (Ok tt, s)
  | Ok entries => (Ok tt, publishAll (schedule (groups entries)) s)
  end.

(** ** The loop *)

Definition maxBackoff : Z := 5 * 1000000000.

(** One round of [Run]: the failures in a row and the delay of the timer. *)
Definition runRound (pollInterval : Z) (isLeader : bool) (batchSize : Z)
    (schedule : list (list OutboxRow) -> list OutboxRow) (failures : Z) (s : Relays)
  : Z * Z * Relays :=
  if negb isLeader then (failures, pollInterval, s)
  else
    let '(r, s) := poll batchSize schedule s in
    match r with
    | Err _ =>
        let failures := add64 failures 1 in
        let backoff := wrap64 (pollInterval * Z.shiftl 1 (Z.min failures 6)) in
        (failures, if maxBackoff <? backoff then maxBackoff else backoff, s)
    | Ok _ => (0, pollInterval, s)
    end.

(** ** Any number of relays *)

(** A goroutine of some relay: the entries it still has to publish, and the
    outcome it has to mark. *)
Record Job := { jb_todo : list OutboxRow; jb_mark : option (OutboxRow * result unit) }.

(** [sy_clock] is the server's time at its last publish. *)
Record System := { sy_rows : list OutboxRow; sy_bus : B; sy_clock : Z; sy_jobs : list Job }.

Definition sy_start (t0 : Z) (b : B) : System :=
  {| sy_rows := []; sy_bus := b; sy_clock := t0; sy_jobs := [] |}.

(** The server's clock does not go back and stays within [window] of [t0]. *)
Inductive sstep (t0 window : Z) : System -> System -> Prop :=
| SInsert rows st : NoDup (map or_ID (sy_rows st ++ rows)) ->
    Forall (fun r => or_Published r = false) rows ->
    sstep t0 window st {| sy_rows := sy_rows st ++ rows; sy_bus := sy_bus st; sy_clock := sy_clock st; sy_jobs := sy_jobs st |}
| SFetch d limit entries d' st : sq_tables d = sy_rows st ->
    GetUnpublishedEntries limit d = (Ok entries, d') ->
    sstep t0 window st
      {| sy_rows := sy_rows st; sy_bus := sy_bus st; sy_clock := sy_clock st;
         sy_jobs := sy_jobs st ++ map (fun g => {| jb_todo := g; jb_mark := None |}) (groups entries) |}
| SPublish i e todo subject data bus r bus' st :
    sy_jobs st !! i = Some {| jb_todo := e :: todo; jb_mark := None |} ->
    encode e = Ok (subject, data) -> sq_tables bus = sy_bus st -> sy_clock st <= c_now (sq_call bus) < t0 + window ->
    Publish subject (uuid_String (or_ID e)) data bus = (r, bus') ->
    sstep t0 window st
      {| sy_rows := sy_rows st; sy_bus := sq_tables bus'; sy_clock := c_now (sq_call bus);
         sy_jobs := <[i := {| jb_todo := todo; jb_mark := Some (e, r) |}]> (sy_jobs st) |}
| SSkip i e todo err st :
    sy_jobs st !! i = Some {| jb_todo := e :: todo; jb_mark := None |} -> encode e = Err err ->
    sstep t0 window st
      {| sy_rows := sy_rows st; sy_bus := sy_bus st; sy_clock := sy_clock st;
         sy_jobs := <[i := {| jb_todo := todo; jb_mark := None |}]> (sy_jobs st) |}
| SMark i e r todo d st :
    sy_jobs st !! i = Some {| jb_todo := todo; jb_mark := Some (e, r) |} -> sq_tables d = sy_rows st ->
    sstep t0 window st
      {| sy_rows := sq_tables (mark e r d); sy_bus := sy_bus st; sy_clock := sy_clock st;
         sy_jobs := <[i := {| jb_todo := todo; jb_mark := None |}]> (sy_jobs st) |}
| SCrash i st :
    sstep t0 window st
      {| sy_rows := sy_rows st; sy_bus := sy_bus st; sy_clock := sy_clock st; sy_jobs := delete i (sy_jobs st) |}.
End Relay.
End Relay.
