(* ===== verification/RelayProps.v ===== *)
(** * node/outbox: what the relay guarantees

    [relay_exactly_once]: whatever the interleaving of relays, crashes and lost
    replies, JetStream holds every published entry once.  [poll_publishes]:
    with its servers up, a poll publishes and marks the whole batch, each
    tenant's entries in the order of their creation. *)

From stdpp Require Import sorting.
From S2P Require Import Prelude ThirdParty Sql Outbox Messaging Relay.
Local Open Scope string_scope.
Local Open Scope Z_scope.

Module RelayProps.
Import Messaging Relay.

Section RelayProps.
Context {L : ThirdParty} {JM : ThirdPartyLaws L} {J B : Type} `{JS : !JetStream J B} `{JL : !JetStreamLaws JS}.
Variable json_MarshalMessage : @outboxMessage L J -> result J.
Variable numPartitions : Z.

Abbreviation encode := (encode json_MarshalMessage numPartitions).
Abbreviation sstep := (sstep json_MarshalMessage numPartitions).
Abbreviation history st := (js_history (sy_bus st)).

(** ** Entries and messages *)

(** The columns no statement of the relay writes. *)
Definition core (r : @OutboxRow L J) : OutboxRow := set_state r false None 0.

(** The message of a row. *)
Definition carries (m : StoredMsg J) (r : OutboxRow) : Prop :=
  sm_ID m = uuid_String (or_ID r) /\ encode r = Ok (sm_Subject m, sm_Data m)
  /\ inStream (sm_Stream m) (sm_Subject m).

Lemma encode_core r : encode (core r) = encode r.
Proof. done. Qed.

Lemma core_eq r r' : core r = core r' -> or_ID r = or_ID r' /\ encode r = encode r'.
Proof.
  intros H. split; [exact (f_equal or_ID H)|]. by rewrite <- (encode_core r), <- (encode_core r'), H.
Qed.

Lemma carries_core m r r' : core r = core r' -> carries m r -> carries m r'.
Proof. intros [H1 H2]%core_eq. unfold carries. by rewrite H1, H2. Qed.

(** A relay's copy of a row that still exists. *)
Definition rowOf (rows : list OutboxRow) (e : OutboxRow) : Prop :=
  exists r, r ∈ rows /\ core r = core e.

Definition delivered (h : list (StoredMsg J)) (e : OutboxRow) : Prop := exists m, m ∈ h /\ carries m e.

Lemma delivered_core h r r' : core r = core r' -> delivered h r -> delivered h r'.
Proof. intros H (m & Hm & Hc). exists m. eauto using carries_core. Qed.

Definition job_ok (rows : list OutboxRow) (h : list (StoredMsg J)) (j : Job) : Prop :=
  Forall (rowOf rows) (jb_todo j)
  /\ match jb_mark j with
     | None => True
     | Some (e, r) => rowOf rows e /\ (is_ok r = true -> delivered h e)
     end.

Record Inv (t0 window : Z) (st : System) : Prop := {
  inv_ids : NoDup (map or_ID (sy_rows st));
  inv_clock : t0 <= sy_clock st;
  inv_times m : m ∈ history st -> t0 <= sm_Time m <= sy_clock st;
  inv_rows m : m ∈ history st -> exists r, r ∈ sy_rows st /\ carries m r;
  inv_once : NoDup (map sm_ID (history st));
  inv_published r : r ∈ sy_rows st -> or_Published r = true -> delivered (history st) r;
  inv_jobs : Forall (job_ok (sy_rows st) (history st)) (sy_jobs st);
}.

(** *** Monotonicity *)

(** Each row of the first table is kept by the second up to its state. *)
Definition keeps (rows rows' : list OutboxRow) : Prop := forall r, r ∈ rows -> rowOf rows' r.

Lemma rowOf_keeps rows rows' e : keeps rows rows' -> rowOf rows e -> rowOf rows' e.
Proof. intros Hk (r & Hr & Hc). destruct (Hk r Hr) as (r' & Hr' & Hc'). exists r'. split; [done|congruence]. Qed.

Lemma carried_keeps rows rows' m : keeps rows rows' ->
  (exists r, r ∈ rows /\ carries m r) -> exists r, r ∈ rows' /\ carries m r.
Proof.
  intros Hk (r & Hr & Hc). destruct (Hk r Hr) as (r' & Hr' & Hc'). exists r'. split; [done|].
  by apply carries_core with r.
Qed.

Lemma job_ok_mono rows rows' h h' j : keeps rows rows' -> h ⊆ h' -> job_ok rows h j -> job_ok rows' h' j.
Proof.
  intros Hk Hh [Ht Hm]. split; [eapply Forall_impl; [exact Ht|]; eauto using rowOf_keeps|].
  destruct (jb_mark j) as [[e r]|]; [|done]. destruct Hm as [He Hd].
  split; [eauto using rowOf_keeps|]. intros Hr. destruct (Hd Hr) as (m & Hm & Hc). exists m. split; [by apply Hh|done].
Qed.

(** *** Marks *)

(** A mark rewrites the state of the rows of one key, and publishes only
    those, only when told to. *)
Lemma mark_rows e r (d : Sql (list OutboxRow)) : exists f,
  sq_tables (mark e r d) = map f (sq_tables d)
  /\ forall x, core (f x) = core x /\ or_ID (f x) = or_ID x
     /\ (or_Published (f x) = true -> or_Published x = true \/ (is_ok r = true /\ or_ID x = or_ID e)).
Proof.
  assert (exists f, sq_tables d = map f (sq_tables d) /\ forall x, core (f x) = core x /\ or_ID (f x) = or_ID x
     /\ (or_Published (f x) = true -> or_Published x = true \/ (is_ok r = true /\ or_ID x = or_ID e))) as Hid.
  { exists (fun x => x). split; [by rewrite map_id|auto]. }
  unfold mark. destruct r as [[]|err].
  - destruct (MarkPublished _ _ d) as [q d'] eqn:E. simpl.
    apply transact_inv in E as [(-> & _)|([] & [= <-] & _)]; [done|]. eexists. split; [done|].
    intros x. simpl. case_match eqn:Ek; [|auto]. apply andb_true_iff in Ek as [[Hx _]%andb_true_iff _].
    apply bool_decide_eq_true in Hx. auto.
  - destruct (MarkFailed _ _ d) as [q d'] eqn:E. simpl.
    apply transact_inv in E as [(-> & _)|([] & E & _)]; [done|].
    case_match; [done|]. injection E as <-. eexists. split; [done|]. intros x. simpl. case_match; auto.
Qed.

Lemma keeps_map rows f : (forall x, core (f x) = core x) -> keeps rows (map f rows).
Proof. intros Hf r Hr. exists (f r). split; [by apply list_elem_of_fmap_2|done]. Qed.

Lemma groups_elem (entries : list (@OutboxRow L J)) g e : g ∈ groups entries -> e ∈ g -> e ∈ entries.
Proof.
  unfold groups. intros Hg He. apply list_elem_of_fmap in Hg as (t & -> & _).
  apply list_elem_of_filter in He as [_ He]. by apply list_elem_of_filter in He as [_ He].
Qed.

Lemma fetched_elem limit (d : Sql (list (@OutboxRow L J))) entries d' e :
  GetUnpublishedEntries limit d = (Ok entries, d') -> e ∈ entries -> e ∈ sq_tables d.
Proof.
  unfold GetUnpublishedEntries. intros H He. apply query_inv in H as [_ H]. specialize (H _ eq_refl).
  unfold limitOffset in H. destruct (_ || _); [done|]. injection H as <-.
  apply elem_of_take in He as (i & He & _). apply list_elem_of_lookup_2 in He.
  rewrite drop_0 in He. unfold orderAsc in He. rewrite merge_sort_Permutation in He.
  by apply list_elem_of_filter in He as [_ He].
Qed.

(** ** The invariant *)

Lemma row_unique (rows : list (@OutboxRow L J)) r r' : NoDup (map or_ID rows) -> r ∈ rows -> r' ∈ rows -> or_ID r = or_ID r' -> r = r'.
Proof. intros Hn Hr Hr' He. by apply (NoDup_key or_ID rows). Qed.

(** An acknowledged publish leaves its message in the history, once. *)
Lemma accept_once t0 window st e subject data now b' :
  window <= StreamDuplicateWindow -> Inv t0 window st -> rowOf (sy_rows st) e ->
  encode e = Ok (subject, data) -> sy_clock st <= now < t0 + window ->
  js_publish now subject (uuid_String (or_ID e)) data (sy_bus st) = Ok (tt, b') ->
  history st ⊆ js_history b' /\ delivered (js_history b') e /\ NoDup (map sm_ID (js_history b'))
  /\ forall m, m ∈ js_history b' -> m ∈ history st \/ (carries m e /\ sm_Time m = now).
Proof.
  intros Hw HI (r & Hr & Hc) He Hnow Hp.
  assert (forall m, m ∈ history st -> sm_ID m = uuid_String (or_ID e) ->
    carries m e /\ js_history b' = history st) as Hold.
  { intros m Hm Hid. destruct (inv_rows _ _ _ HI m Hm) as (r' & Hr' & Hid' & Henc & Hin).
    assert (r' = r) as ->.
    { apply (row_unique (sy_rows st)); [apply HI|done|done|]. apply core_eq in Hc as [-> _].
      apply uuid_String_inj. congruence. }
    assert (carries m e) as Hce by (apply carries_core with r; done). split; [done|].
    destruct Hce as (_ & He' & _). rewrite He in He'. injection He' as -> ->.
    apply (js_dedup _ _ _ _ _ _ _ Hp Hm Hid Hin). pose proof (inv_times _ _ _ HI m Hm). lia. }
  destruct (js_accepted _ _ _ _ _ _ Hp) as [(name & Hin & Hh)|(Hh & m & Hm & Hid & _)].
  - destruct (decide (uuid_String (or_ID e) ∈ map sm_ID (history st))) as [Hd|Hd].
    { apply list_elem_of_fmap in Hd as (m & Hid & Hm). destruct (Hold m Hm (eq_sym Hid)) as [_ Hh'].
      rewrite Hh' in Hh. apply (f_equal length) in Hh. rewrite length_app in Hh. simpl in Hh. lia. }
    rewrite Hh. split_and!; [set_solver| | |].
    + eexists. split; [apply elem_of_app; right; by apply list_elem_of_singleton|]. done.
    + rewrite map_app. apply NoDup_app. split_and!; [apply HI| |apply NoDup_singleton].
      intros x Hx ->%list_elem_of_singleton. by apply Hd.
    + intros m [Hm| ->%list_elem_of_singleton]%elem_of_app; [by left|right; done].
  - destruct (Hold m Hm Hid) as [Hce _]. rewrite Hh. split_and!; [done|by exists m|apply HI|by left].
Qed.

Lemma inv_insert t0 window st rows : Inv t0 window st -> NoDup (map or_ID (sy_rows st ++ rows)) ->
  Forall (fun r => or_Published r = false) rows ->
  Inv t0 window {| sy_rows := sy_rows st ++ rows; sy_bus := sy_bus st; sy_clock := sy_clock st;
                   sy_jobs := sy_jobs st |}.
Proof.
  intros HI Hn Hu. assert (keeps (sy_rows st) (sy_rows st ++ rows)) as Hk.
  { intros r Hr. exists r. set_solver. }
  split; simpl; try apply HI; [done| | |].
  - intros m Hm. eapply carried_keeps; [exact Hk|]. by apply HI.
  - intros r [Hr|Hr]%elem_of_app Hp; [by apply HI|]. rewrite Forall_forall in Hu. by rewrite Hu in Hp.
  - eapply Forall_impl; [apply HI|]. intros j. by apply job_ok_mono.
Qed.

Lemma inv_jobs_change t0 window st jobs : Inv t0 window st ->
  Forall (job_ok (sy_rows st) (history st)) jobs ->
  Inv t0 window {| sy_rows := sy_rows st; sy_bus := sy_bus st; sy_clock := sy_clock st; sy_jobs := jobs |}.
Proof. intros HI Hj. split; simpl; by try apply HI. Qed.

Lemma inv_mark t0 window st e r d jobs : Inv t0 window st -> sq_tables d = sy_rows st ->
  rowOf (sy_rows st) e -> (is_ok r = true -> delivered (history st) e) ->
  Forall (job_ok (sy_rows st) (history st)) jobs ->
  Inv t0 window {| sy_rows := sq_tables (mark e r d); sy_bus := sy_bus st; sy_clock := sy_clock st;
                   sy_jobs := jobs |}.
Proof.
  intros HI Hd (x & Hx & Hxc) Hdel Hj. destruct (mark_rows e r d) as (f & -> & Hf). rewrite Hd.
  assert (keeps (sy_rows st) (map f (sy_rows st))) as Hk by (apply keeps_map; apply Hf).
  split; simpl; try apply HI.
  - rewrite map_map. erewrite map_ext by apply Hf. apply HI.
  - intros m Hm. eapply carried_keeps; [exact Hk|]. by apply HI.
  - intros y (z & -> & Hz)%list_elem_of_fmap Hp. destruct (Hf z) as (Hc & _ & Hor).
    apply delivered_core with z; [done|]. destruct (Hor Hp) as [Hp'|[Hok Hid]]; [by apply HI|].
    apply delivered_core with e; [|by apply Hdel]. rewrite <- Hxc. f_equal.
    apply (row_unique (sy_rows st)); [apply HI|done|done|]. rewrite Hid. by apply core_eq.
  - eapply Forall_impl; [exact Hj|]. intros j. by apply job_ok_mono.
Qed.

Lemma job_at t0 window st i j : Inv t0 window st -> sy_jobs st !! i = Some j -> job_ok (sy_rows st) (history st) j.
Proof. intros HI Hi. eapply Forall_lookup_1; [apply HI|exact Hi]. Qed.

Lemma inv_publish t0 window st i e todo subject data bus r bus' :
  window <= StreamDuplicateWindow -> Inv t0 window st ->
  sy_jobs st !! i = Some {| jb_todo := e :: todo; jb_mark := None |} ->
  encode e = Ok (subject, data) -> sq_tables bus = sy_bus st -> sy_clock st <= c_now (sq_call bus) < t0 + window ->
  Publish subject (uuid_String (or_ID e)) data bus = (r, bus') ->
  Inv t0 window {| sy_rows := sy_rows st; sy_bus := sq_tables bus'; sy_clock := c_now (sq_call bus);
                   sy_jobs := <[i := {| jb_todo := todo; jb_mark := Some (e, r) |}]> (sy_jobs st) |}.
Proof.
  intros Hw HI Hi He Hb Hnow Hp. destruct (job_at _ _ _ _ _ HI Hi) as [[Her Ht]%Forall_cons _].
  assert (Forall (fun m => t0 <= sm_Time m <= c_now (sq_call bus)) (history st)) as Htimes.
  { apply Forall_forall. intros m Hm. pose proof (inv_times _ _ _ HI m Hm). lia. }
  assert (t0 <= sy_clock st) as Hc0 by apply HI. unfold Publish in Hp.
  assert (history st ⊆ js_history (sq_tables bus') /\ (is_ok r = true -> delivered (js_history (sq_tables bus')) e)
    /\ NoDup (map sm_ID (js_history (sq_tables bus')))
    /\ forall m, m ∈ js_history (sq_tables bus') ->
         m ∈ history st \/ (carries m e /\ sm_Time m = c_now (sq_call bus))) as (Hsub & Hd & Hn & Hall).
  { apply transact_inv in Hp as [(Hk & Hr & _)|([] & Hp & Hr)].
    - rewrite Hk, Hb. rewrite Hr. split_and!; [done|done|apply HI|by left].
    - rewrite Hb in Hp. destruct (accept_once _ _ _ _ _ _ _ _ Hw HI Her He Hnow Hp) as (H1 & H2 & H3 & H4). auto. }
  split; simpl; [apply HI|lia| | |done| |].
  - intros m Hm. destruct (Hall m Hm) as [Hm'|[_ ->]]; [|lia].
    rewrite Forall_forall in Htimes. by apply Htimes.
  - intros m Hm. destruct (Hall m Hm) as [Hm'|[Hc _]]; [by apply HI|].
    destruct Her as (x & Hx & Hxc). exists x. split; [done|]. by apply carries_core with e.
  - intros x Hx Hpub. destruct (inv_published _ _ _ HI x Hx Hpub) as (m & Hm & Hc). exists m. auto.
  - apply Forall_insert; [|done]. eapply Forall_impl; [apply HI|]. intros j. apply job_ok_mono; [|done].
    intros y Hy. by exists y.
Qed.

Lemma inv_step t0 window st st' : window <= StreamDuplicateWindow ->
  Inv t0 window st -> sstep t0 window st st' -> Inv t0 window st'.
Proof.
  intros Hw HI Hs. destruct Hs.
  - by apply inv_insert.
  - apply inv_jobs_change; [done|]. apply Forall_app. split; [apply HI|]. apply Forall_forall.
    intros j (g & -> & Hg)%list_elem_of_fmap. split; [|done]. simpl.
    apply Forall_forall. intros e He. exists e. split; [|done].
    rewrite <- H. eapply fetched_elem; [done|]. eapply groups_elem; done.
  - by eapply inv_publish.
  - apply inv_jobs_change; [done|]. destruct (job_at _ _ _ _ _ HI H) as [[_ Ht]%Forall_cons _].
    apply Forall_insert; [apply HI|]. done.
  - destruct (job_at _ _ _ _ _ HI H) as [Ht [He Hd]]. apply inv_mark; [done|done|done|done|].
    apply Forall_insert; [apply HI|]. done.
  - apply inv_jobs_change; [done|]. by apply Forall_delete, HI.
Qed.

(** C5: Exactly once.  Run any number of relays over the outbox, with any
    interleaving of their polls, publishes and marks, with publishes whose
    acknowledgement is lost, marks that fail and relays that crash, for no
    longer than the streams' duplicate window: an entry marked published has
    its message, with its subject and data, in a stream that owns the
    subject; every message stored is that of an entry; and no message id is
    stored twice. *)
Theorem relay_exactly_once t0 window b st : window <= StreamDuplicateWindow -> js_history b = [] ->
  rtc (sstep t0 window) (sy_start t0 b) st ->
  (forall r, r ∈ sy_rows st -> or_Published r = true -> exists m, m ∈ history st /\ carries m r)
  /\ (forall m, m ∈ history st -> exists r, r ∈ sy_rows st /\ carries m r)
  /\ NoDup (map sm_ID (history st)).
Proof.
  intros Hw Hb Hs. assert (Inv t0 window st) as HI.
  { eapply (invariant_rtc (sstep t0 window)); [|exact Hs|].
    - intros st1 st2 H1 H2. by eapply inv_step.
    - split; simpl; rewrite ?Hb; try apply NoDup_nil_2; set_solver || done. }
  split_and!; apply HI.
Qed.

(** ** A poll with its servers up *)

(** *** Schedules of the goroutines *)

Lemma merges_Permutation {A} (gs : list (list A)) l : merges gs l -> l ≡ₚ concat gs.
Proof.
  induction 1 as [gs H|gs i x g l Hi _ IH].
  - induction H as [|g gs -> _ IH]; [done|]. exact IH.
  - rewrite IH. rewrite <- (take_drop_middle gs i (x :: g)) by done.
    rewrite insert_app_r_alt by (rewrite length_take; lia).
    assert (i < length gs)%nat as Hl by (by eapply lookup_lt_Some).
    rewrite length_take, Nat.min_l, Nat.sub_diag by lia. simpl. rewrite !concat_app. simpl. solve_Permutation.
Qed.

(** What a schedule does to the entries of one goroutine: nothing. *)
Lemma merges_filter {A} (P : A -> Prop) `{!forall x, Decision (P x)} gs l : merges gs l ->
  forall i g, gs !! i = Some g -> (forall j g', j <> i -> gs !! j = Some g' -> Forall (fun x => ~ P x) g') ->
  filter P l = filter P g.
Proof.
  induction 1 as [gs He|gs k x g0 l Hk _ IH]; intros i g Hi Ho.
  - rewrite Forall_lookup in He. by rewrite (He _ _ Hi).
  - destruct (decide (k = i)) as [->|Hne].
    + rewrite Hk in Hi. injection Hi as <-. rewrite !filter_cons.
      rewrite (IH i g0); [done|by rewrite list_lookup_insert_eq by (by eapply lookup_lt_Some)|].
      intros j g' Hj. rewrite list_lookup_insert_ne by done. by apply Ho.
    + pose proof (Ho k _ Hne Hk) as [Hx Hg0]%Forall_cons.
      rewrite filter_cons_False by done. apply (IH i); [by rewrite list_lookup_insert_ne|].
      intros j g' Hj Hg'. destruct (decide (j = k)) as [->|Hjk].
      * rewrite list_lookup_insert_eq in Hg' by (by eapply lookup_lt_Some). by injection Hg' as <-.
      * rewrite list_lookup_insert_ne in Hg' by done. by eapply Ho.
Qed.

Lemma tenantOrder_spec (entries : list (@OutboxRow L J)) seen :
  NoDup (tenantOrder seen entries)
  /\ forall t, (t ∈ tenantOrder seen entries) <-> (t ∉ seen) /\ t ∈ map or_TenantID entries.
Proof.
  revert seen. induction entries as [|e rest IH]; intros seen; simpl; [split; [apply NoDup_nil_2|set_solver]|].
  case_bool_decide as He.
  - destruct (IH seen) as [Hn Ht]. split; [done|]. intros t. rewrite Ht. set_solver.
  - destruct (IH (or_TenantID e :: seen)) as [Hn Ht]. split.
    + apply NoDup_cons. split; [|done]. rewrite Ht. set_solver.
    + intros t. rewrite elem_of_cons, Ht. destruct (decide (t = or_TenantID e)); set_solver.
Qed.

Lemma concat_filters {A K} `{!EqDecision K} (k : A -> K) (ts : list K) l : NoDup ts ->
  concat (map (fun t => filter (fun a => k a = t) l) ts) ≡ₚ filter (fun a => k a ∈ ts) l.
Proof.
  induction ts as [|t ts IH]; intros Hn.
  - simpl. induction l as [|a l IHl]; [done|]. rewrite filter_cons_False by set_solver. exact IHl.
  - apply NoDup_cons in Hn as [Ht Hn]. simpl. rewrite (IH Hn). clear IH.
    induction l as [|a l IHl]; [done|]. rewrite !filter_cons.
    destruct (decide (k a = t)) as [Ha|Ha], (decide (k a ∈ ts)) as [Hb|Hb], (decide (k a ∈ t :: ts)) as [Hc|Hc];
      try set_solver; rewrite <- IHl; solve_Permutation.
Qed.

(** The entries a poll takes to the bus. *)
Definition valid (entries : list (@OutboxRow L J)) : list OutboxRow := filter (fun e => or_ID e <> uuid_Nil) entries.

Lemma schedule_order entries order : merges (groups entries) order ->
  order ≡ₚ valid entries
  /\ forall t, filter (fun e => or_TenantID e = t) order = filter (fun e => or_TenantID e = t) (valid entries).
Proof.
  intros Hm. unfold groups in Hm. fold (valid entries) in Hm.
  destruct (tenantOrder_spec (valid entries) []) as [Hn Ht].
  assert (forall e, e ∈ valid entries -> or_TenantID e ∈ tenantOrder [] (valid entries)) as Hin.
  { intros e He. apply Ht. split; [set_solver|]. by apply list_elem_of_fmap_2. }
  split.
  - rewrite (merges_Permutation _ _ Hm), (concat_filters or_TenantID) by done.
    by rewrite filter_keeps.
  - intros t. destruct (decide (t ∈ tenantOrder [] (valid entries))) as [Hi|Hi].
    + apply list_elem_of_lookup in Hi as [i Hi]. rewrite (merges_filter _ _ _ Hm i (filter (fun e => or_TenantID e = t) (valid entries))).
      * rewrite filter_keeps; [done|]. intros x Hx. by apply list_elem_of_filter in Hx as [? _].
      * by rewrite list_lookup_fmap, Hi.
      * intros j g Hj. rewrite list_lookup_fmap. destruct (_ !! j) as [t'|] eqn:Ej; [|done]. intros [= <-].
        apply Forall_forall. intros x [Hx _]%list_elem_of_filter Hxt. apply Hj. rewrite NoDup_alt in Hn.
        apply (Hn j i t); congruence.
    + assert (forall l : list (@OutboxRow L J), (forall e, e ∈ l -> (e ∈ valid entries)) ->
        filter (fun e => or_TenantID e = t) l = []) as Hnone.
      { intros l Hl. destruct (filter _ l) as [|x xs] eqn:E; [done|].
        assert (x ∈ filter (fun e => or_TenantID e = t) l) as Hx by (rewrite E; set_solver).
        apply list_elem_of_filter in Hx as [<- Hx]. destruct Hi. by apply Hin, Hl. }
      rewrite !Hnone; [done|auto|]. intros e He. rewrite (merges_Permutation _ _ Hm) in He.
      rewrite (concat_filters or_TenantID) in He by done. by apply list_elem_of_filter in He as [_ He].
Qed.

(** *** Publishing a batch *)

Lemma prefix_stream p name k e : (p, name) ∈ prefixStream -> inStream name (partitionSubject p k e).
Proof.
  intros Hin. destruct (prefix_owned p name k e Hin) as [_ Ho].
  assert (exists def, def ∈ AllStreams /\ sd_Name def = name) as (def & Hd & Hn).
  { assert (existsb (fun d => String.eqb (sd_Name d) name) AllStreams = true) as He.
    { unfold prefixStream in Hin. repeat (apply elem_of_cons in Hin as [[= -> ->]|Hin]; [reflexivity|]).
      by apply elem_of_nil in Hin. }
    apply existsb_exists in He as (d & Hd%list_elem_of_In & Hn%String.eqb_eq). eauto. }
  exists def. split_and!; [done|done|]. rewrite Ho by done. by apply bool_decide_eq_true.
Qed.

Lemma subject_ok (e : @OutboxRow L J) : 0 < numPartitions < 2 ^ 32 ->
  exists subject name, SubjectForEntry numPartitions e = Ok subject /\ inStream name subject.
Proof.
  intros Hn. destruct (TenantPartition_range (or_TenantID e) numPartitions Hn) as (k & Hk & _).
  destruct (routeOf_known (or_EventType e)) as [name Hin]. unfold SubjectForEntry, SubjectForEventType, tenantSubject.
  destruct (routeOf (or_EventType e)) as [p rest]. rewrite Hk. eauto using prefix_stream.
Qed.

(** The row a mark leaves. *)
Definition marked (now : Z) (r : @OutboxRow L J) : OutboxRow :=
  if or_Published r then r else set_state r true (Some now) (or_RetryCount r).

Section Healthy.
Hypothesis partitions : 0 < numPartitions < 2 ^ 32.
Hypothesis marshals : forall m, is_ok (json_MarshalMessage m) = true.

Lemma encode_ok e : exists subject data name, encode e = Ok (subject, data) /\ inStream name subject.
Proof.
  destruct (subject_ok e partitions) as (subject & name & Hs & Hin). unfold Relay.encode. rewrite Hs.
  specialize (marshals (messageOf e)). destruct (json_MarshalMessage (messageOf e)) as [data|]; [|done].
  exists subject, data, name. done.
Qed.

Lemma publishEntry_up e (s : Relays) : sq_up (rl_store s) -> sq_up (rl_bus s) ->
  uuid_String (or_ID e) ∉ map sm_ID (js_history (sq_tables (rl_bus s))) ->
  exists m s', publishEntry json_MarshalMessage numPartitions e s = (Ok tt, s')
    /\ sq_up (rl_store s') /\ sq_up (rl_bus s') /\ carries m e
    /\ js_history (sq_tables (rl_bus s')) = (js_history (sq_tables (rl_bus s)) ++ [m])%list
    /\ exists now, sq_tables (rl_store s')
         = map (fun r => if atKey (or_ID e) (or_CreatedAt e) r then marked now r else r) (sq_tables (rl_store s)).
Proof.
  intros Hu Hb Hnew. destruct (encode_ok e) as (subject & data & name & He & Hin).
  unfold publishEntry. rewrite He. unfold Publish. rewrite transact_up by done.
  pose proof (js_live (c_now (sq_call (rl_bus s))) subject (uuid_String (or_ID e)) data (sq_tables (rl_bus s)) name Hin) as Hl.
  destruct (js_publish _ _ _ _ _) as [[[] b']|] eqn:Ep; [|done].
  destruct (js_accepted _ _ _ _ _ _ Ep) as [(name' & Hin' & Hh)|(_ & m & Hm & Hid & _)].
  - eexists _, _. split; [done|]. simpl. unfold MarkPublished. rewrite transact_up by done. simpl.
    split_and!; [done|done| |exact Hh|].
    + split_and!; [done|done|done].
    + exists (c_now (sq_call (rl_store s))). apply map_ext. intros r. unfold marked.
      destruct (atKey _ _ r), (or_Published r); done.
  - destruct Hnew. rewrite <- Hid. by apply list_elem_of_fmap_2.
Qed.

(** Each row of the outbox is kept; those of [order] are published. *)
Definition publishes (order rows rows' : list (@OutboxRow L J)) : Prop :=
  Forall2 (fun r r' => core r' = core r
    /\ or_Published r' = or_Published r || bool_decide (or_ID r ∈ map or_ID order)) rows rows'.

Lemma at_row (rows : list (@OutboxRow L J)) e r now : NoDup (map or_ID rows) -> rowOf rows e -> r ∈ rows ->
  or_Published (if atKey (or_ID e) (or_CreatedAt e) r then marked now r else r)
  = or_Published r || bool_decide (or_ID r = or_ID e).
Proof.
  intros Hn (x & Hx & Hc) Hr. unfold atKey. case_bool_decide as Hid; simpl.
  - assert (r = x) as ->.
    { apply (row_unique rows); [done|done|done|]. rewrite Hid. symmetry. exact (f_equal or_ID Hc). }
    rewrite (f_equal or_CreatedAt Hc : or_CreatedAt x = or_CreatedAt e), Z.eqb_refl. unfold marked.
    by destruct (or_Published x) eqn:E; rewrite ?E.
  - by rewrite orb_false_r.
Qed.

Lemma orb_decide_cons {K} `{!EqDecision K} (k x : K) l :
  bool_decide (k = x) || bool_decide (k ∈ l) = bool_decide (k ∈ x :: l).
Proof. repeat case_bool_decide; simpl; set_solver. Qed.

Lemma publishAll_up order : forall (s : Relays), sq_up (rl_store s) -> sq_up (rl_bus s) ->
  NoDup (map or_ID order) -> NoDup (map or_ID (sq_tables (rl_store s))) ->
  Forall (rowOf (sq_tables (rl_store s))) order ->
  Forall (fun e => uuid_String (or_ID e) ∉ map sm_ID (js_history (sq_tables (rl_bus s)))) order ->
  exists new, js_history (sq_tables (rl_bus (publishAll json_MarshalMessage numPartitions order s)))
      = (js_history (sq_tables (rl_bus s)) ++ new)%list
    /\ Forall2 carries new order
    /\ publishes order (sq_tables (rl_store s))
         (sq_tables (rl_store (publishAll json_MarshalMessage numPartitions order s))).
Proof.
  induction order as [|e rest IH]; intros s Hu Hb Hn Hids Hrow Hnew.
  - exists []. rewrite app_nil_r. split_and!; [done|constructor|]. simpl. apply Forall2_same_length_lookup.
    split; [done|]. intros i r r' -> [= <-]. split; [done|]. by rewrite orb_false_r.
  - apply NoDup_cons in Hn as [Hnot Hn]. apply Forall_cons in Hrow as [Hre Hrow]. apply Forall_cons in Hnew as [Hne Hnew].
    destruct (publishEntry_up e s Hu Hb Hne) as (m & s' & Hp & Hu' & Hb' & Hm & Hh & now & Ht). simpl. rewrite Hp. simpl.
    set (f := fun r => if atKey (or_ID e) (or_CreatedAt e) r then marked now r else r) in *.
    assert (forall r, core (f r) = core r) as Hf by (intros r; unfold f, marked; by repeat case_match).
    destruct (IH s' Hu' Hb') as (new & Hh' & Hc & Hpub).
    + done.
    + rewrite Ht, map_map. erewrite map_ext; [exact Hids|]. intros r. by destruct (core_eq (f r) r (Hf r)) as [-> _].
    + rewrite Ht. eapply Forall_impl; [exact Hrow|]. intros x. apply rowOf_keeps. by apply keeps_map.
    + apply Forall_forall. intros x Hx. rewrite Hh, map_app, not_elem_of_app. split; [by eapply Forall_forall in Hnew|].
      simpl. intros Hxm%list_elem_of_singleton. destruct Hm as (Hid & _). rewrite Hid in Hxm.
      apply uuid_String_inj in Hxm. apply Hnot. rewrite <- Hxm. by apply list_elem_of_fmap_2.
    + exists (m :: new). rewrite Hh', Hh, <- app_assoc. split_and!; [done|by constructor|].
      unfold publishes in *. rewrite Ht in Hpub. apply Forall2_fmap_l in Hpub.
      apply Forall2_same_length_lookup in Hpub as [Hlen Hpub]. apply Forall2_same_length_lookup. split; [done|].
      intros i r r' Hr Hr'. destruct (Hpub i r r' Hr Hr') as [H1 H2]. rewrite Hf in H1. split; [done|]. rewrite H2.
      destruct (core_eq (f r) r (Hf r)) as [-> _]. apply list_elem_of_lookup_2 in Hr.
      unfold f. rewrite (at_row (sq_tables (rl_store s)) e r now Hids Hre Hr). simpl.
      destruct (or_Published r); [done|]. simpl. apply orb_decide_cons.
Qed.

(** The batch of a poll. *)
Definition batch (batchSize : Z) (rows : list (@OutboxRow L J)) : list OutboxRow :=
  take (Z.to_nat batchSize) (orderAsc or_CreatedAt (filter (fun r => unpublished r = true) rows)).

Lemma fetch_up batchSize (d : Sql (list (@OutboxRow L J))) : sq_up d -> 0 <= batchSize ->
  GetUnpublishedEntries batchSize d = (Ok (batch batchSize (sq_tables d)), sq_set d (sq_tables d)).
Proof.
  intros Hu Hb. unfold GetUnpublishedEntries. rewrite query_up by done. unfold limitOffset.
  destruct (Z.ltb_spec batchSize 0); [lia|]. by rewrite drop_0.
Qed.

Lemma batch_sublist batchSize (rows : list (@OutboxRow L J)) :
  exists rest, (batch batchSize rows ++ rest)%list ≡ₚ filter (fun r => unpublished r = true) rows.
Proof.
  exists (drop (Z.to_nat batchSize) (orderAsc or_CreatedAt (filter (fun r => unpublished r = true) rows))).
  unfold batch. rewrite take_drop. apply merge_sort_Permutation.
Qed.

Lemma batch_elem batchSize (rows : list (@OutboxRow L J)) e :
  e ∈ batch batchSize rows -> e ∈ rows /\ unpublished e = true.
Proof.
  intros He. destruct (batch_sublist batchSize rows) as [rest Hp].
  assert (e ∈ filter (fun r => unpublished r = true) rows) as [? ?]%list_elem_of_filter by (rewrite <- Hp; set_solver).
  done.
Qed.

Lemma valid_NoDup batchSize (rows : list (@OutboxRow L J)) : NoDup (map or_ID rows) ->
  NoDup (map or_ID (valid (batch batchSize rows))).
Proof.
  intros Hn. destruct (batch_sublist batchSize rows) as [rest Hp].
  eapply sublist_NoDup; [|apply fmap_sublist, sublist_filter].
  assert (NoDup (map or_ID (batch batchSize rows ++ rest))) as Hn'.
  { rewrite Hp. eapply sublist_NoDup; [exact Hn|]. apply fmap_sublist, sublist_filter. }
  rewrite map_app in Hn'. by apply NoDup_app in Hn' as [? _].
Qed.

(** With the database and JetStream up, a poll over entries JetStream has
    not seen publishes and marks the whole batch, the [batchSize] oldest entries
    that are unpublished and have tries left, whatever the interleaving of
    its goroutines: one message per entry, a tenant's messages in the order of
    creation; the other rows stay as they are.  Entries with a zero id alone
    are left out. *)
Theorem poll_publishes batchSize schedule (s : Relays) : sq_up (rl_store s) -> sq_up (rl_bus s) -> 0 <= batchSize ->
  (forall gs, merges gs (schedule gs)) -> NoDup (map or_ID (sq_tables (rl_store s))) ->
  Forall (fun r => uuid_String (or_ID r) ∉ map sm_ID (js_history (sq_tables (rl_bus s))))
    (filter (fun r => unpublished r = true) (sq_tables (rl_store s))) ->
  exists order new s',
    poll json_MarshalMessage numPartitions batchSize schedule s = (Ok tt, s')
    /\ order ≡ₚ valid (batch batchSize (sq_tables (rl_store s)))
    /\ (forall t, filter (fun e => or_TenantID e = t) order
         = filter (fun e => or_TenantID e = t) (valid (batch batchSize (sq_tables (rl_store s)))))
    /\ js_history (sq_tables (rl_bus s')) = (js_history (sq_tables (rl_bus s)) ++ new)%list
    /\ Forall2 carries new order
    /\ publishes order (sq_tables (rl_store s)) (sq_tables (rl_store s')).
Proof.
  intros Hu Hb Hbs Hsch Hn Hnew. unfold poll. rewrite fetch_up by done.
  set (entries := batch batchSize (sq_tables (rl_store s))).
  destruct (schedule_order entries (schedule (groups entries)) (Hsch _)) as [Hperm Hord].
  assert (forall e, e ∈ schedule (groups entries) -> e ∈ sq_tables (rl_store s) /\ unpublished e = true) as Hin.
  { intros e He. rewrite Hperm in He. apply list_elem_of_filter in He as [_ He]. by eapply batch_elem. }
  set (s0 := {| rl_store := sq_set (rl_store s) (sq_tables (rl_store s)); rl_bus := rl_bus s |}).
  destruct (publishAll_up (schedule (groups entries)) s0) as (new & Hh & Hc & Hp); [done|done| |done| | |].
  - rewrite Hperm. by apply valid_NoDup.
  - apply Forall_forall. intros e He. exists e. split; [by apply Hin|done].
  - apply Forall_forall. intros e He. rewrite Forall_forall in Hnew. apply Hnew. apply list_elem_of_filter.
    destruct (Hin e He). done.
  - exists (schedule (groups entries)), new, (publishAll json_MarshalMessage numPartitions (schedule (groups entries)) s0).
    split_and!; try done. destruct entries as [|e es] eqn:E; [|done].
    by rewrite (proj1 (Permutation_nil_r _) Hperm).
Qed.

(** ** An outage of the bus *)

Definition sq_down {T} (d : Sql T) : Prop := forall n, exists e, c_out (sq_world d n) = CallFailed e.

(** The row a failed publish leaves. *)
Definition retried (r : @OutboxRow L J) : OutboxRow :=
  set_state r (or_Published r) (or_PublishedAt r) (or_RetryCount r + 1).

Definition tryable (r : @OutboxRow L J) : bool := unpublished r && negb (bool_decide (or_ID r = uuid_Nil)).

Lemma publishEntry_down e (s : Relays) : sq_up (rl_store s) -> sq_down (rl_bus s) ->
  (forall r, r ∈ sq_tables (rl_store s) -> or_ID r = or_ID e -> or_RetryCount r < 2 ^ 31 - 1) ->
  exists err s', publishEntry json_MarshalMessage numPartitions e s = (Err err, s')
    /\ sq_up (rl_store s') /\ sq_down (rl_bus s') /\ sq_tables (rl_bus s') = sq_tables (rl_bus s)
    /\ sq_tables (rl_store s')
       = map (fun r => if atKey (or_ID e) (or_CreatedAt e) r then retried r else r) (sq_tables (rl_store s)).
Proof.
  intros Hu Hb Hr. destruct (encode_ok e) as (subject & data & name & He & _). unfold publishEntry. rewrite He.
  destruct (Hb (sq_calls (rl_bus s))) as [err Herr]. unfold Publish, transact at 1. unfold sq_call at 1. rewrite Herr.
  eexists _, _. split; [done|]. simpl. unfold MarkFailed. rewrite transact_up by done.
  assert (existsb (fun r => atKey (or_ID e) (or_CreatedAt e) r && (or_RetryCount r =? 2 ^ 31 - 1))
    (sq_tables (rl_store s)) = false) as ->.
  { apply not_true_iff_false. intros (r & Hin%list_elem_of_In & [Hat Hk%Z.eqb_eq]%andb_true_iff)%existsb_exists.
    apply andb_true_iff in Hat as [Hat%bool_decide_eq_true _]. specialize (Hr r Hin Hat). lia. }
  done.
Qed.

Lemma publishAll_down order : forall (s : Relays), sq_up (rl_store s) -> sq_down (rl_bus s) ->
  NoDup (map or_ID order) -> NoDup (map or_ID (sq_tables (rl_store s))) ->
  Forall (rowOf (sq_tables (rl_store s))) order ->
  (forall r, r ∈ sq_tables (rl_store s) -> or_ID r ∈ map or_ID order -> or_RetryCount r < 2 ^ 31 - 1) ->
  let s' := publishAll json_MarshalMessage numPartitions order s in
  sq_up (rl_store s') /\ sq_down (rl_bus s') /\ sq_tables (rl_bus s') = sq_tables (rl_bus s)
  /\ sq_tables (rl_store s')
     = map (fun r => if bool_decide (or_ID r ∈ map or_ID order) then retried r else r) (sq_tables (rl_store s)).
Proof.
  induction order as [|e rest IH]; intros s Hu Hb Hn Hids Hrow Hr; simpl.
  - split_and!; [done|done|done|]. symmetry. apply map_id.
  - apply NoDup_cons in Hn as [Hnot Hn]. apply Forall_cons in Hrow as [Hre Hrow].
    destruct (publishEntry_down e s Hu Hb) as (err & s' & Hp & Hu' & Hb' & Hbus & Ht).
    { intros r Hin Hid. apply Hr; [done|]. rewrite Hid. by left. }
    rewrite Hp. simpl. set (f := fun r => if atKey (or_ID e) (or_CreatedAt e) r then retried r else r) in *.
    assert (forall r, core (f r) = core r) as Hf by (intros r; unfold f; by case_match).
    assert (forall r, or_ID (f r) = or_ID r) as Hfid by (intros r; by apply core_eq).
    destruct (IH s' Hu' Hb') as (H1 & H2 & H3 & H4); [done| | | |].
    + rewrite Ht, map_map. erewrite map_ext by exact Hfid. done.
    + rewrite Ht. eapply Forall_impl; [exact Hrow|]. intros x. apply rowOf_keeps. by apply keeps_map.
    + rewrite Ht. intros r (x & -> & Hx)%list_elem_of_fmap Hin. rewrite Hfid in Hin. unfold f, atKey.
      rewrite bool_decide_false by (intros E; rewrite E in Hin; done). simpl. apply Hr; [done|]. by right.
    + split_and!; [done|done|congruence|]. rewrite H4, Ht, map_map. apply map_ext_in. intros r Hin%list_elem_of_In.
      rewrite Hfid, <- orb_decide_cons. destruct (decide (or_ID r = or_ID e)) as [Heq|Hne].
      * rewrite (bool_decide_true (or_ID r = or_ID e)) by done. simpl. rewrite bool_decide_false by (by rewrite Heq).
        unfold f, atKey. rewrite bool_decide_true by done. destruct Hre as (x & Hx & Hc).
        rewrite (row_unique _ r x Hids Hin Hx) by (rewrite Heq; symmetry; exact (f_equal or_ID Hc)).
        by rewrite (f_equal or_CreatedAt Hc : or_CreatedAt x = or_CreatedAt e), Z.eqb_refl.
      * rewrite (bool_decide_false (or_ID r = or_ID e)) by done. simpl. unfold f, atKey.
        by rewrite (bool_decide_false (or_ID r = or_ID e)).
Qed.

Lemma batch_all batchSize (rows : list (@OutboxRow L J)) : Z.of_nat (length rows) <= batchSize ->
  batch batchSize rows ≡ₚ filter (fun r => unpublished r = true) rows.
Proof.
  intros Hl. unfold batch. rewrite take_ge; [apply merge_sort_Permutation|].
  unfold orderAsc. rewrite merge_sort_Permutation. pose proof (length_filter (fun r : OutboxRow => unpublished r = true) rows). lia.
Qed.

Definition bump (r : @OutboxRow L J) : OutboxRow := if tryable r then retried r else r.

Section Outage.
Variables (batchSize : Z) (schedule : list (list (@OutboxRow L J)) -> list (@OutboxRow L J)).
Hypothesis fair : forall gs, merges gs (schedule gs).

Abbreviation poll := (poll json_MarshalMessage numPartitions batchSize schedule).

(** What a series of polls during an outage starts from and keeps. *)
Record Outage (s : @Relays L J B) : Prop := {
  og_store : sq_up (rl_store s);
  og_bus : sq_down (rl_bus s);
  og_ids : NoDup (map or_ID (sq_tables (rl_store s)));
  og_room : Z.of_nat (length (sq_tables (rl_store s))) <= batchSize;
  og_max : Forall (fun r => or_MaxRetries r < 2 ^ 31) (sq_tables (rl_store s));
}.

Lemma poll_down s : Outage s ->
  exists s', poll s = (Ok tt, s') /\ Outage s' /\ sq_tables (rl_bus s') = sq_tables (rl_bus s)
    /\ sq_tables (rl_store s') = map bump (sq_tables (rl_store s)).
Proof.
  intros [Hu Hb Hn Hl Hm]. unfold Relay.poll. rewrite fetch_up by (done || lia).
  set (entries := batch batchSize (sq_tables (rl_store s))).
  destruct (schedule_order entries (schedule (groups entries)) (fair _)) as [Hperm _].
  set (s0 := {| rl_store := sq_set (rl_store s) (sq_tables (rl_store s)); rl_bus := rl_bus s |}).
  assert (forall r, r ∈ sq_tables (rl_store s) ->
    or_ID r ∈ map or_ID (schedule (groups entries)) <-> tryable r = true) as Htry.
  { intros r Hr. rewrite Hperm. unfold valid, entries. rewrite (batch_all _ _ Hl). unfold tryable. rewrite andb_true_iff.
    split.
    - intros (x & Hid & [Hnil [Hun Hx]%list_elem_of_filter]%list_elem_of_filter)%list_elem_of_fmap.
      rewrite (row_unique _ r x Hn Hr Hx Hid). split; [done|]. by rewrite bool_decide_false.
    - intros [Hun Hnil]. apply list_elem_of_fmap_2, list_elem_of_filter. split.
      + intros E. by rewrite bool_decide_true in Hnil.
      + by apply list_elem_of_filter. }
  destruct (publishAll_down (schedule (groups entries)) s0) as (H1 & H2 & H3 & H4); [done|done| |done| | |].
  - rewrite Hperm. by apply valid_NoDup.
  - apply Forall_forall. intros e He. rewrite Hperm in He. apply list_elem_of_filter in He as [_ He].
    apply batch_elem in He as [He _]. by exists e.
  - simpl. intros r Hr Hin. apply Htry in Hin; [|done]. apply andb_true_iff in Hin as [Hun _].
    apply andb_true_iff in Hun as [_ Hlt%Z.ltb_lt]. rewrite Forall_forall in Hm. specialize (Hm r Hr). lia.
  - assert (sq_tables (rl_store (publishAll json_MarshalMessage numPartitions (schedule (groups entries)) s0))
      = map bump (sq_tables (rl_store s))) as Hrows.
    { rewrite H4. simpl. apply map_ext_in. intros r Hr%list_elem_of_In. unfold bump. case_bool_decide as Hd.
      - by rewrite (proj1 (Htry r Hr) Hd).
      - destruct (tryable r) eqn:E; [|done]. by apply Htry in E. }
    exists (publishAll json_MarshalMessage numPartitions (schedule (groups entries)) s0).
    split_and!; [|split|done|done].
    + destruct entries as [|e es] eqn:E; [|done]. by rewrite (proj1 (Permutation_nil_r _) Hperm).
    + done.
    + done.
    + rewrite Hrows, map_map. erewrite map_ext; [exact Hn|]. intros r. unfold bump. by case_match.
    + rewrite Hrows, length_map. done.
    + rewrite Hrows. apply Forall_map. eapply Forall_impl; [exact Hm|]. intros r. unfold bump. by case_match.
Qed.

(** The state after [k] polls. *)
Definition polls (k : nat) (s : Relays) : Relays := Nat.iter k (fun s => (poll s).2) s.

Lemma bump_tries r : core (bump r) = core r /\ or_Published (bump r) = or_Published r
  /\ or_MaxRetries (bump r) - or_RetryCount (bump r) = (or_MaxRetries r - or_RetryCount r) - (if tryable r then 1 else 0).
Proof. unfold bump. case_match; simpl; split_and!; [done|done|lia|done|done|lia]. Qed.

Lemma polls_down k s : Outage s ->
  Outage (polls k s) /\ sq_tables (rl_bus (polls k s)) = sq_tables (rl_bus s)
  /\ sq_tables (rl_store (polls k s)) = map (Nat.iter k bump) (sq_tables (rl_store s)).
Proof.
  intros Ho. induction k as [|k (IH1 & IH2 & IH3)]; [simpl; by rewrite map_id|].
  change (polls (Datatypes.S k) s) with (poll (polls k s)).2.
  destruct (poll_down _ IH1) as (s' & -> & H1 & H2 & H3). simpl.
  split_and!; [done|congruence|]. by rewrite H3, IH3, map_map.
Qed.

(** After as many failures as it has tries left, an entry is not tried. *)
Lemma bumps_exhaust k r : or_ID r <> uuid_Nil -> or_MaxRetries r - or_RetryCount r <= Z.of_nat k ->
  unpublished (Nat.iter k bump r) = false /\ or_Published (Nat.iter k bump r) = or_Published r.
Proof.
  intros Hid Hk. assert (or_Published (Nat.iter k bump r) = or_Published r
    /\ (unpublished (Nat.iter k bump r) = true ->
        or_MaxRetries (Nat.iter k bump r) - or_RetryCount (Nat.iter k bump r) <= (or_MaxRetries r - or_RetryCount r) - Z.of_nat k)
    /\ or_ID (Nat.iter k bump r) = or_ID r) as (Hp & Hu & _).
  { clear Hk. induction k as [|k (IH1 & IH2 & IH3)]; [simpl; split_and!; lia || done|].
    rewrite Nat.iter_succ. set (x := Nat.iter k bump r) in *. destruct (bump_tries x) as (Hc & -> & Ht).
    split_and!; [done| |rewrite <- IH3; exact (f_equal or_ID Hc)].
    intros Hun. destruct (tryable x) eqn:E.
    - apply andb_true_iff in E as [E _]. specialize (IH2 E). lia.
    - unfold bump in Hun. rewrite E in Hun. unfold tryable in E. rewrite Hun in E. simpl in E.
      rewrite bool_decide_false in E by congruence. done. }
  split; [|done]. destruct (unpublished (Nat.iter k bump r)) eqn:E; [|done]. specialize (Hu eq_refl).
  apply andb_true_iff in E as [_ E%Z.ltb_lt]. lia.
Qed.

(** An outage of JetStream abandons the entries it meets.  A poll whose
    publishes fail returns no error, so the loop does not back off, and each
    one uses up a try of every entry; after as many polls as the entries
    have tries left (five, twenty milliseconds apart) no entry was published, and
    no batch of any later poll holds one of them. *)
Theorem outage_abandons_entries k s : Outage s ->
  Forall (fun r => or_ID r <> uuid_Nil /\ or_MaxRetries r - or_RetryCount r <= Z.of_nat k) (sq_tables (rl_store s)) ->
  (poll s).1 = Ok tt
  /\ sq_tables (rl_bus (polls k s)) = sq_tables (rl_bus s)
  /\ map or_ID (sq_tables (rl_store (polls k s))) = map or_ID (sq_tables (rl_store s))
  /\ map or_Published (sq_tables (rl_store (polls k s))) = map or_Published (sq_tables (rl_store s))
  /\ forall limit, batch limit (sq_tables (rl_store (polls k s))) = [].
Proof.
  intros Ho Hr. destruct (poll_down s Ho) as (s' & -> & _). destruct (polls_down k s Ho) as (_ & Hb & Ht).
  rewrite Forall_forall in Hr. split_and!; [done|done| | |].
  - rewrite Ht, map_map. apply map_ext. intros r. clear. induction k as [|k IH]; [done|]. rewrite Nat.iter_succ, <- IH.
    exact (f_equal or_ID (proj1 (bump_tries _))).
  - rewrite Ht, map_map. apply map_ext_in. intros r Hin%list_elem_of_In. destruct (Hr r Hin). by apply bumps_exhaust.
  - intros limit. destruct (batch limit _) as [|e es] eqn:E; [done|].
    assert (e ∈ batch limit (sq_tables (rl_store (polls k s)))) as He by (rewrite E; by left).
    apply batch_elem in He as [He Hun]. rewrite Ht in He. apply list_elem_of_fmap in He as (r & -> & Hin).
    destruct (Hr r Hin) as [Hid Hk]. destruct (bumps_exhaust k r Hid Hk). congruence.
Qed.
End Outage.
End Healthy.
End RelayProps.
End RelayProps.
