(* ===== verification/Leader.v ===== *)
(** * node/outbox: leader election

    Models src/node/outbox/leader.go.  The electors of the relay's instances
    share one key of a NATS key-value bucket whose entries live for [leaderTTL].
    The bucket is a service: [KeyValue] are the calls and [KeyValueLaws] what
    their documentation promises.  An elector's loop is a sequence of steps
    that interleave with the others' ([estep]); the two calls of [renew] are
    two steps. *)

From S2P Require Import Prelude.
Local Open Scope string_scope.
Local Open Scope Z_scope.

Module Leader.

Definition second : Z := 1000000000.
Definition leaderTTL : Z := 10 * second.

(** The calls on the leader key, at an instant of the server. *)
Class KeyValue (K : Type) := {
  kv_Create : Z -> string -> K -> result K;
  kv_Get : Z -> K -> result (string * Z);
  kv_Update : Z -> string -> Z -> K -> result K;
}.

Class KeyValueLaws {K} (KV : KeyValue K) := {
  (** The entry at an instant, if it is there and not expired, with its
      revision; and the last revision handed out. *)
  kv_entry : Z -> K -> option (string * Z);
  kv_seq : K -> Z;
  kv_get now k : kv_Get now k = match kv_entry now k with
                                | Some e => Ok e
                                | None => Err (MsgErr "nats: key not found")
                                end;
  kv_old t v rev k : kv_entry t k = Some (v, rev) -> rev <= kv_seq k;
  kv_expires t t' e k : kv_entry t k = Some e -> t <= t' -> kv_entry t' k = Some e \/ kv_entry t' k = None;
  kv_create now id k k' : kv_Create now id k = Ok k' ->
    kv_entry now k = None /\ kv_seq k < kv_seq k'
    /\ forall t, now <= t -> kv_entry t k' = if t <? now + leaderTTL then Some (id, kv_seq k') else None;
  kv_create_ok now id k : kv_entry now k = None -> is_ok (kv_Create now id k) = true;
  kv_update now id rev k k' : kv_Update now id rev k = Ok k' ->
    (exists v, kv_entry now k = Some (v, rev)) /\ kv_seq k < kv_seq k'
    /\ forall t, now <= t -> kv_entry t k' = if t <? now + leaderTTL then Some (id, kv_seq k') else None;
  kv_update_ok now id rev v k : kv_entry now k = Some (v, rev) -> is_ok (kv_Update now id rev k) = true;
}.

Section Electors.
Context {K : Type} `{KV : !KeyValue K}.

(** Where the loop of an elector is; [Renewing] holds the revision [Get]
    returned. *)
Inductive Phase : Set := Looping | Renewing (rev : Z).

(** [le_isLeader] is the flag the relay reads; [le_lease] is the time of the
    last acquire or renew that succeeded, which the program does not keep. *)
Record LeaderElector := { le_identity : string; le_isLeader : bool; le_phase : Phase; le_lease : Z }.

Definition acquire (now : Z) (le : LeaderElector) (k : K) : result K := kv_Create now (le_identity le) k.

(** The first half of [renew]: [Get] and the check of the identity. *)
Definition renewGet (now : Z) (le : LeaderElector) (k : K) : result Z :=
  match kv_Get now k with
  | Err e => Err (WrapErr "getting leader key" e)
  | Ok (v, rev) =>
      if String.eqb v (le_identity le) then Ok rev else Err (MsgErr ("leadership taken by " +:+ v))
  end.

Definition renewUpdate (now rev : Z) (le : LeaderElector) (k : K) : result K := kv_Update now (le_identity le) rev k.

Definition setLeader (le : LeaderElector) (b : bool) (p : Phase) (lease : Z) : LeaderElector :=
  {| le_identity := le_identity le; le_isLeader := b; le_phase := p; le_lease := lease |}.

(** One turn of the loop of [Run] up to its next call, at [now]; [lost]
    are replies that do not arrive: the call may have happened. *)
Definition turn (now : Z) (lost : bool) (le : LeaderElector) (k : K) : LeaderElector * K :=
  if le_isLeader le then
    match le_phase le with
    | Looping =>
        match (if lost then Err (MsgErr "timeout") else renewGet now le k) with
        | Ok rev => (setLeader le true (Renewing rev) (le_lease le), k)
        | Err _ => (setLeader le false Looping (le_lease le), k)
        end
    | Renewing rev =>
        match renewUpdate now rev le k with
        | Ok k' => (setLeader le (negb lost) Looping now, k')
        | Err _ => (setLeader le false Looping (le_lease le), k)
        end
    end
  else
    match acquire now le k with
    | Ok k' => (setLeader le (negb lost) Looping now, k')
    | Err _ => (le, k)
    end.

Record Election := { el_electors : list LeaderElector; el_kv : K; el_clock : Z }.

(** A turn of one elector, at a time of the server that does not go back; or
    a call that never reached the server, after which its elector is no leader. *)
Inductive estep : Election -> Election -> Prop :=
| ETurn i le le' k' lost now st : el_electors st !! i = Some le -> el_clock st <= now ->
    turn now lost le (el_kv st) = (le', k') ->
    estep st {| el_electors := <[i := le']> (el_electors st); el_kv := k'; el_clock := now |}
| EUnreachable i le st : el_electors st !! i = Some le ->
    estep st {| el_electors := <[i := setLeader le false Looping (le_lease le)]> (el_electors st);
                el_kv := el_kv st; el_clock := el_clock st |}.

(** The leases the server still honours. *)
Definition holds (now : Z) (le : LeaderElector) : Prop := le_isLeader le = true /\ now < le_lease le + leaderTTL.

Section Laws.
Context `{KL : !KeyValueLaws KV}.

(** An elector that is leader owns the key until its last lease runs out. *)
Definition owns (clock : Z) (k : K) (le : LeaderElector) : Prop :=
  le_isLeader le = true -> forall t, clock <= t < le_lease le + leaderTTL ->
  exists rev, kv_entry t k = Some (le_identity le, rev).

(** A revision read in [renew] is that of the elector's own entry, or old. *)
Definition read_ok (clock : Z) (k : K) (le : LeaderElector) : Prop :=
  match le_phase le with
  | Looping => True
  | Renewing rev => rev <= kv_seq k /\ forall t v, clock <= t -> kv_entry t k = Some (v, rev) -> v = le_identity le
  end.

Record Inv (st : Election) : Prop := {
  inv_names : NoDup (map le_identity (el_electors st));
  inv_each : Forall (fun le => owns (el_clock st) (el_kv st) le /\ read_ok (el_clock st) (el_kv st) le) (el_electors st);
}.

Lemma later clock now k le : clock <= now -> owns clock k le /\ read_ok clock k le -> owns now k le /\ read_ok now k le.
Proof.
  intros Hc [Ho Hr]. split.
  - intros Hl t Ht. apply Ho; [done|lia].
  - unfold read_ok in *. destruct (le_phase le); [done|]. destruct Hr as [H1 H2]. split; [done|].
    intros t v Ht. apply H2. lia.
Qed.

(** A write by [le] when nobody else holds a valid lease. *)
Lemma written now id k k' le' :
  (forall t, now <= t -> kv_entry t k' = if t <? now + leaderTTL then Some (id, kv_seq k') else None) ->
  kv_seq k < kv_seq k' -> le_identity le' <> id -> ~ holds now le' ->
  owns now k le' /\ read_ok now k le' -> owns now k' le' /\ read_ok now k' le'.
Proof.
  intros He Hseq Hne Hno [Ho Hr]. split.
  - intros Hl t Ht. destruct Hno. split; [done|lia].
  - unfold read_ok in *. destruct (le_phase le') as [|rev]; [done|]. destruct Hr as [H1 _]. split; [lia|].
    intros t v Ht Hv. rewrite He in Hv by done. destruct (t <? now + leaderTTL); [|done]. injection Hv as _ <-. lia.
Qed.

Lemma written_self now le k' b :
  (forall t, now <= t -> kv_entry t k' = if t <? now + leaderTTL then Some (le_identity le, kv_seq k') else None) ->
  owns now k' (setLeader le b Looping now) /\ read_ok now k' (setLeader le b Looping now).
Proof.
  intros He. split; [|done]. intros _ t Ht. simpl in *. rewrite He by lia. destruct (Z.ltb_spec t (now + leaderTTL)); [|lia]. eauto.
Qed.

(** The key's entry rules out a valid lease of anybody else. *)
Lemma no_other now k le' : owns now k le' ->
  (forall rev, kv_entry now k <> Some (le_identity le', rev)) -> ~ holds now le'.
Proof. intros Ho Hk [Hl Ht]. destruct (Ho Hl now) as [rev Hrev]; [lia|]. by eapply Hk. Qed.

Lemma setLeader_name le b p t : le_identity (setLeader le b p t) = le_identity le.
Proof. done. Qed.

Lemma names_insert els i le le' : els !! i = Some le -> le_identity le' = le_identity le ->
  NoDup (map le_identity els) -> NoDup (map le_identity (<[i := le']> els)).
Proof.
  intros Hi Hn. change (map le_identity) with (fmap (M:=list) le_identity). rewrite list_fmap_insert, Hn, list_insert_id; [done|].
  by rewrite list_lookup_fmap, Hi.
Qed.

Lemma names_differ els i j (le le' : LeaderElector) : NoDup (map le_identity els) ->
  els !! i = Some le -> els !! j = Some le' -> i <> j -> le_identity le' <> le_identity le.
Proof.
  intros Hn Hi Hj Hne He. apply Hne. rewrite NoDup_alt in Hn. apply (Hn i j (le_identity le)).
  - change (map le_identity els) with (le_identity <$> els). by rewrite list_lookup_fmap, Hi.
  - change (map le_identity els) with (le_identity <$> els). rewrite list_lookup_fmap, Hj. simpl. congruence.
Qed.

(** The electors after a turn: the others' claims, and the one's. *)
Lemma inv_update st i le le' k' now : Inv st -> el_electors st !! i = Some le -> le_identity le' = le_identity le ->
  (owns now k' le' /\ read_ok now k' le') ->
  (forall o, o ∈ el_electors st -> le_identity o <> le_identity le ->
     owns (el_clock st) (el_kv st) o /\ read_ok (el_clock st) (el_kv st) o -> owns now k' o /\ read_ok now k' o) ->
  Inv {| el_electors := <[i := le']> (el_electors st); el_kv := k'; el_clock := now |}.
Proof.
  intros [Hn He] Hi Hname Hself Hothers. split; simpl; [by eapply names_insert|].
  apply Forall_lookup. intros j o Hj. destruct (decide (i = j)) as [<-|Hne].
  - rewrite list_lookup_insert_eq in Hj by (by eapply lookup_lt_Some). by injection Hj as <-.
  - rewrite list_lookup_insert_ne in Hj by done. apply Hothers; [by eapply list_elem_of_lookup_2|by eapply names_differ|].
    by eapply Forall_lookup_1 in He.
Qed.

Lemma inv_estep st st' : Inv st -> estep st st' -> Inv st'.
Proof.
  intros HI Hs. destruct Hs as [i le le' k' lost now st Hi Hc Ht|i le st Hi].
  - assert (Hme : owns now (el_kv st) le /\ read_ok now (el_kv st) le).
    { apply later with (el_clock st); [done|]. eapply (Forall_lookup_1 _ _ _ _ (inv_each _ HI) Hi). }
    assert (Hdrop : forall t, owns now (el_kv st) (setLeader le false Looping t)
      /\ read_ok now (el_kv st) (setLeader le false Looping t)) by (intros t; split; [by intros ?|done]).
    unfold turn, acquire, renewGet, renewUpdate in Ht. destruct (le_isLeader le) eqn:El.
    + destruct (le_phase le) as [|rev] eqn:Ep.
      * assert (k' = el_kv st) as -> by (repeat case_match; congruence).
        apply (inv_update st i le); [done|done|by repeat case_match; injection Ht as <-| |intros; by apply later with (el_clock st)].
        destruct lost; [by injection Ht as <-|]. rewrite kv_get in Ht.
        destruct (kv_entry now (el_kv st)) as [[v rev]|] eqn:Ek; [|by injection Ht as <-].
        destruct (String.eqb_spec v (le_identity le)) as [->|]; injection Ht as <-; [|done].
        split; [intros _ t Hlt; by apply Hme|]. split; [by eapply kv_old|].
        intros t v Htt Hv. simpl in *. destruct (kv_expires _ _ _ _ Ek Htt); congruence.
      * destruct (kv_Update _ _ _ _) as [k2|] eqn:Eu; injection Ht as <- <-.
        -- apply kv_update in Eu as ([v Hv] & Hseq & He). apply (inv_update st i le); [done|done|done|by apply written_self|].
           intros o Ho Hne Hoo. apply (later _ now) in Hoo; [|done]. eapply written; [exact He|done|done| |done].
           apply no_other with (el_kv st); [by apply Hoo|]. intros rev' Hr'. rewrite Hv in Hr'. injection Hr' as -> ->.
           destruct Hme as [_ Hr]. unfold read_ok in Hr. rewrite Ep in Hr. destruct Hr as [_ Hr].
           apply Hne. apply (Hr now); [lia|done].
        -- apply (inv_update st i le); [done|done|done|done|intros; by apply later with (el_clock st)].
    + destruct (kv_Create _ _ _) as [k2|] eqn:Ec; injection Ht as <- <-.
      * apply kv_create in Ec as (Hnone & Hseq & He). apply (inv_update st i le); [done|done|done|by apply written_self|].
        intros o Ho Hne Hoo. apply (later _ now) in Hoo; [|done]. eapply written; [exact He|done|done| |done].
        apply no_other with (el_kv st); [by apply Hoo|]. intros rev' Hr'. congruence.
      * apply (inv_update st i le); [done|done|done|done|intros; by apply later with (el_clock st)].
  - apply (inv_update st i le); [done|done|done| |intros; done]. split; [by intros ?|done].
Qed.

(** At most one leader among the leases in force: whatever the
    interleaving of the electors' calls, lost replies included, two electors
    that are leaders and whose last acquire or renew is younger than the TTL
    are the same. *)
Theorem one_leader_in_force electors k0 clock0 st i j le le' :
  NoDup (map le_identity electors) -> Forall (fun le => le_isLeader le = false /\ le_phase le = Looping) electors ->
  rtc estep {| el_electors := electors; el_kv := k0; el_clock := clock0 |} st ->
  el_electors st !! i = Some le -> el_electors st !! j = Some le' ->
  holds (el_clock st) le -> holds (el_clock st) le' -> i = j.
Proof.
  intros Hn H0 Hs Hi Hj [Hl Ht] [Hl' Ht']. assert (Inv st) as HI.
  { eapply (invariant_rtc estep); [exact inv_estep|exact Hs|]. split; [done|]. eapply Forall_impl; [exact H0|].
    intros x [Hx Hp]. split; [|unfold read_ok; by rewrite Hp]. intros Hx'. simpl in Hx'. congruence. }
  destruct (proj1 (Forall_lookup_1 _ _ _ _ (inv_each _ HI) Hi) Hl (el_clock st)) as [r Hr]; [lia|].
  destruct (proj1 (Forall_lookup_1 _ _ _ _ (inv_each _ HI) Hj) Hl' (el_clock st)) as [r' Hr']; [lia|].
  destruct (decide (i = j)) as [|Hne]; [done|]. exfalso. eapply (names_differ _ i j); [apply HI|done|done|done|]. congruence.
Qed.
End Laws.
End Electors.
End Leader.

(** ** A bucket, and runs *)

Module LeaderRuns.
Import Leader.

(** The entry with its revision and the time it was written. *)
Record Bucket := { bk_entry : option (string * Z * Z); bk_seq : Z }.

Definition bk_at (now : Z) (b : Bucket) : option (string * Z) :=
  match bk_entry b with
  | Some (v, rev, t) => if (now <? t + leaderTTL) && (rev <=? bk_seq b) then Some (v, rev) else None
  | None => None
  end.

Definition bk_put (now : Z) (id : string) (b : Bucket) : Bucket :=
  {| bk_entry := Some (id, bk_seq b + 1, now); bk_seq := bk_seq b + 1 |}.

#[global] Instance Bucket_kv : KeyValue Bucket := {
  kv_Create now id b := match bk_at now b with
                        | None => Ok (bk_put now id b)
                        | Some _ => Err (MsgErr "nats: key exists")
                        end;
  kv_Get now b := match bk_at now b with
                  | Some e => Ok e
                  | None => Err (MsgErr "nats: key not found")
                  end;
  kv_Update now id rev b := match bk_at now b with
                            | Some (_, r) => if r =? rev then Ok (bk_put now id b)
                                             else Err (MsgErr "nats: wrong last sequence")
                            | None => Err (MsgErr "nats: wrong last sequence")
                            end;
}.

Lemma bk_put_at now id b t : bk_at t (bk_put now id b) = if t <? now + leaderTTL then Some (id, bk_seq (bk_put now id b)) else None.
Proof. unfold bk_at. simpl. rewrite Z.leb_refl, andb_true_r. done. Qed.

#[global] Instance Bucket_laws : KeyValueLaws Bucket_kv.
Proof.
  refine {| kv_entry := bk_at; kv_seq := bk_seq |}; simpl.
  - done.
  - intros t v rev k. unfold bk_at. destruct (bk_entry k) as [[[v' rev'] t']|]; [|done].
    destruct (Z.leb_spec rev' (bk_seq k)); [|by rewrite andb_false_r].
    destruct (t <? t' + leaderTTL); [|done]. by intros [= <- <-].
  - intros t t' e k. unfold bk_at. destruct (bk_entry k) as [[[v r] u]|]; [|done].
    repeat case_match; naive_solver.
  - intros now id k k'. case_match eqn:E; [done|]. intros [= <-]. split_and!; [done|simpl; lia|].
    intros t _. apply bk_put_at.
  - intros now id k ->. done.
  - intros now id rev k k'. destruct (bk_at now k) as [[v r]|] eqn:E; [|done].
    destruct (Z.eqb_spec r rev) as [->|]; [|done]. intros [= <-]. split_and!; [by eexists|simpl; lia|].
    intros t _. apply bk_put_at.
  - intros now id rev v k ->. by rewrite Z.eqb_refl.
Defined.

Definition idle (name : string) : LeaderElector :=
  {| le_identity := name; le_isLeader := false; le_phase := Looping; le_lease := 0 |}.

Definition electors0 : list LeaderElector := [idle "relay-a"; idle "relay-b"].
Definition start : Election := {| el_electors := electors0; el_kv := {| bk_entry := None; bk_seq := 0 |}; el_clock := 0 |}.

(** The election after a turn of elector [i] at [now]. *)
Definition turnOf (i : nat) (now : Z) (st : Election) : Election :=
  match el_electors st !! i with
  | Some le => let '(le', k') := turn now false le (el_kv st) in
               {| el_electors := <[i := le']> (el_electors st); el_kv := k'; el_clock := now |}
  | None => st
  end.

Lemma turnOf_step i now st : (i < length (el_electors st))%nat -> el_clock st <= now -> estep st (turnOf i now st).
Proof.
  intros [le Hi]%lookup_lt_is_Some Hc. unfold turnOf. rewrite Hi.
  destruct (turn now false le (el_kv st)) as [le' k'] eqn:E. by eapply ETurn.
Qed.

(** The first elector acquires at 1 s and stalls; the second acquires at 12 s. *)
Definition stalled : Election := turnOf 1 (12 * second) (turnOf 0 (1 * second) start).

Lemma stalled_reached : rtc estep start stalled.
Proof.
  eapply rtc_l; [apply (turnOf_step 0 (1 * second) start); simpl; unfold second; lia|].
  eapply rtc_l; [|apply rtc_refl]. apply turnOf_step; vm_compute; [lia|done].
Qed.

(** Both flags are set although one lease alone is in force. *)
Example stale_leader_stays : map le_isLeader (el_electors stalled) = [true; true]
  /\ map (fun le => el_clock stalled <? le_lease le + leaderTTL) (el_electors stalled) = [false; true].
Proof. split; reflexivity. Qed.

Lemma one_leader_in_force_witness : exists le, el_electors stalled !! 1%nat = Some le
  /\ holds (el_clock stalled) le
  /\ forall j le', el_electors stalled !! j = Some le' -> holds (el_clock stalled) le' -> 1%nat = j.
Proof.
  eexists. split; [reflexivity|]. assert (holds (el_clock stalled)
    {| le_identity := "relay-b"; le_isLeader := true; le_phase := Looping; le_lease := 12 * second |}) as Hh.
  { split; [reflexivity|vm_compute; done]. }
  split; [exact Hh|]. intros j le' Hj Hl.
  eapply (one_leader_in_force electors0 _ 0 stalled 1%nat j); [| |exact stalled_reached|reflexivity|exact Hj|exact Hh|exact Hl].
  - vm_compute. repeat constructor; set_solver.
  - repeat constructor.
Defined.
End LeaderRuns.
