(* ===== verification/LedgerEntries.v ===== *)
(** * domain: journal entries

    Models [Posting], [EntryLine], [JournalEntry] and [ValidateEntries] of
    src/domain/ledger.go, and shows that the two map-based loops decide the
    double-entry rule: at least two lines, positive amounts, no repeated line
    id, no repeated account and side, and debits equal to credits in every
    currency. *)

From Stdlib Require Import Ascii QArith Lqa.
From S2P Require Import Prelude ThirdParty Money Deposits Transfer Outbox.
Local Open Scope string_scope.
Local Open Scope Z_scope.

Definition EntryTypeDebit := "DEBIT".
Definition EntryTypeCredit := "CREDIT".

Section Ledger.
Context {L : ThirdParty}.

Record Posting := {
  po_AccountCode : string;
  po_EntryType : string;
  po_Amount : Decimal;
  po_Currency : Currency;
  po_Description : string;
}.

Record EntryLine := { el_ID : UUID; el_AccountID : UUID; el_Posting : Posting }.

Record JournalEntry := {
  je_ID : UUID;
  je_TenantID : option UUID;
  je_IdempotencyKey : string;
  je_PostedAt : Z;
  je_EffectiveDate : Z;
  je_Description : string;
  je_ReferenceType : string;
  je_ReferenceID : option UUID;
  je_ReversedBy : option UUID;
  je_ReversalOf : option UUID;
  je_Lines : list EntryLine;
  je_Metadata : option (list (string * string));
}.

Definition el_Amount (l : EntryLine) : Decimal := po_Amount (el_Posting l).
Definition el_Currency (l : EntryLine) : Currency := po_Currency (el_Posting l).
Definition el_EntryType (l : EntryLine) : string := po_EntryType (el_Posting l).

(** The key [line.AccountCode.String() + ":" + string(line.EntryType)]. *)
Definition aeKey (l : EntryLine) : string :=
  po_AccountCode (el_Posting l) +:+ ":" +:+ el_EntryType l.

(** The first loop: positive amounts, no duplicate id, no duplicate key. *)
Fixpoint checkLines (lines : list EntryLine) (seenIDs : gset UUID)
    (seenAccountEntry : gset string) : result unit :=
  match lines with
  | [] => Ok tt
  | line :: rest =>
      if negb (IsPositive (el_Amount line)) then Err (DomainErr CodeLedgerImbalance)
      else if bool_decide (el_ID line <> uuid_Nil) && bool_decide (el_ID line ∈ seenIDs)
      then Err (DomainErr CodeLedgerImbalance)
      else
        let seenIDs := if bool_decide (el_ID line <> uuid_Nil)
                       then {[ el_ID line ]} ∪ seenIDs else seenIDs in
        if bool_decide (aeKey line ∈ seenAccountEntry)
        then Err (DomainErr CodeLedgerImbalance)
        else checkLines rest seenIDs ({[ aeKey line ]} ∪ seenAccountEntry)
  end.

(** The struct [balance] of the second loop. *)
Record balance := { bal_debits : Decimal; bal_credits : Decimal }.

Definition addLine (b : balance) (line : EntryLine) : balance :=
  if String.eqb (el_EntryType line) EntryTypeDebit
  then {| bal_debits := dAdd (bal_debits b) (el_Amount line); bal_credits := bal_credits b |}
  else if String.eqb (el_EntryType line) EntryTypeCredit
  then {| bal_debits := bal_debits b; bal_credits := dAdd (bal_credits b) (el_Amount line) |}
  else b.

(** The second loop, one line. *)
Definition tallyLine (byCurrency : gmap string balance) (line : EntryLine)
  : gmap string balance :=
  let b := default {| bal_debits := dZero; bal_credits := dZero |}
             (byCurrency !! el_Currency line) in
  <[el_Currency line := addLine b line]> byCurrency.

Definition tallyLines (lines : list EntryLine) : gmap string balance :=
  fold_left tallyLine lines ∅.

Definition ValidateEntries (lines : list EntryLine) : result unit :=
  if (length lines <? 2)%nat then Err (DomainErr CodeLedgerImbalance)
  else
    let? _ := checkLines lines ∅ ∅ in
    if forallb (fun cb => dEqual (bal_debits (snd cb)) (bal_credits (snd cb)))
         (map_to_list (tallyLines lines))
    then Ok tt else Err (DomainErr CodeLedgerImbalance).

(** [core.validateLedgerLines]: the lines of an outbox payload as entry
    lines with fresh ids. *)
Definition toEntryLines (newv7 : nat -> UUID) (lines : list LedgerLineEntry)
  : list EntryLine :=
  imap (fun i l =>
    {| el_ID := newv7 i; el_AccountID := uuid_Nil;
       el_Posting := {| po_AccountCode := lle_AccountCode l; po_EntryType := lle_EntryType l;
                        po_Amount := lle_Amount l; po_Currency := lle_Currency l;
                        po_Description := "" |} |}) lines.

Definition validateLedgerLines (newv7 : nat -> UUID) (lines : list LedgerLineEntry)
  : result unit :=
  ValidateEntries (toEntryLines newv7 lines).
End Ledger.

(** ** The double-entry rule *)

Section DoubleEntry.
Context {L : ThirdParty} {LL : ThirdPartyLaws L}.
Local Open Scope Q_scope.

(** Total of one side in one currency. *)
Definition side_total (c ty : string) (lines : list EntryLine) : Q :=
  fold_right (fun l acc =>
    if bool_decide (el_Currency l = c) && bool_decide (el_EntryType l = ty)
    then dVal (el_Amount l) + acc else acc) 0 lines.

Definition balanced (lines : list EntryLine) : Prop :=
  forall c, side_total c EntryTypeDebit lines == side_total c EntryTypeCredit lines.

(** The specification [ValidateEntries] promises. *)
Record well_formed_entry (lines : list EntryLine) : Prop := {
  wfe_two : (2 <= length lines)%nat;
  wfe_positive : forall l, l ∈ lines -> 0 < dVal (el_Amount l);
  wfe_ids : NoDup (filter (fun u => u <> uuid_Nil) (map el_ID lines));
  wfe_keys : NoDup (map aeKey lines);
  wfe_balanced : balanced lines;
}.

Lemma checkLines_spec lines ids keys :
  checkLines lines ids keys = Ok tt <->
  (forall l, l ∈ lines -> 0 < dVal (el_Amount l))
  /\ NoDup (filter (fun u => u <> uuid_Nil) (map el_ID lines))
  /\ (forall u, u ∈ map el_ID lines -> u <> uuid_Nil -> u ∉ ids)
  /\ NoDup (map aeKey lines)
  /\ (forall k, k ∈ map aeKey lines -> k ∉ keys).
Proof.
  revert ids keys. induction lines as [|l lines IH]; intros ids keys; simpl.
  { split; [intros _; split_and!; try constructor; set_solver | done]. }
  destruct (IsPositiveP (el_Amount l)) as [Hp|Hp]; simpl.
  2:{ split; [done|]. intros (Hall & _). exfalso. apply Hp, Hall. left. }
  rewrite filter_cons. destruct (decide (el_ID l <> uuid_Nil)) as [Hn|Hn].
  - rewrite (bool_decide_eq_true_2 _ Hn). simpl.
    case_bool_decide as Hid.
    { split; [done|]. intros (_ & _ & H & _). exfalso. eapply H; [left|done..]. }
    case_bool_decide as Hk.
    { split; [done|]. intros (_ & _ & _ & _ & H). exfalso. eapply H; [left|done]. }
    rewrite IH, !NoDup_cons, list_elem_of_filter. set_solver.
  - rewrite (bool_decide_eq_false_2 _ Hn). simpl.
    case_bool_decide as Hk.
    { split; [done|]. intros (_ & _ & _ & _ & H). exfalso. eapply H; [left|done]. }
    rewrite IH, !NoDup_cons. set_solver.
Qed.

Lemma tallyLine_lookup m line c :
  tallyLine m line !! c =
  if decide (el_Currency line = c)
  then Some (addLine (default {| bal_debits := dZero; bal_credits := dZero |} (m !! c)) line)
  else m !! c.
Proof.
  unfold tallyLine. rewrite lookup_insert. case_decide as E; [by rewrite E|done].
Qed.

(** What the tally holds for a currency: its two side totals, on top of what
    it held before. *)
Lemma tally_lookup lines m c :
  let z := {| bal_debits := dZero; bal_credits := dZero |} in
  let b := default z (m !! c) in
  let b' := default z (fold_left tallyLine lines m !! c) in
  dVal (bal_debits b') == dVal (bal_debits b) + side_total c EntryTypeDebit lines
  /\ dVal (bal_credits b') == dVal (bal_credits b) + side_total c EntryTypeCredit lines.
Proof.
  revert m. induction lines as [|l lines IH]; intros m; simpl; [split; ring|].
  destruct (IH (tallyLine m l)) as [Hd Hc]. rewrite tallyLine_lookup in Hd, Hc.
  rewrite Hd, Hc. clear Hd Hc IH.
  destruct (decide (el_Currency l = c)) as [E|E].
  2:{ rewrite (bool_decide_eq_false_2 _ E). simpl. split; ring. }
  rewrite (bool_decide_eq_true_2 _ E). simpl. unfold addLine.
  destruct (String.eqb_spec (el_EntryType l) EntryTypeDebit) as [Ed|Ed].
  { rewrite Ed, (bool_decide_eq_true_2 (EntryTypeDebit = EntryTypeDebit)) by done.
    rewrite (bool_decide_eq_false_2 (EntryTypeDebit = EntryTypeCredit)) by done.
    simpl. rewrite dAdd_val. split; ring. }
  rewrite (bool_decide_eq_false_2 _ Ed).
  destruct (String.eqb_spec (el_EntryType l) EntryTypeCredit) as [Ec|Ec].
  { rewrite (bool_decide_eq_true_2 _ Ec). simpl. rewrite dAdd_val. split; ring. }
  rewrite (bool_decide_eq_false_2 _ Ec). split; ring.
Qed.

Lemma tally_balanced lines :
  forallb (fun cb => dEqual (bal_debits (snd cb)) (bal_credits (snd cb)))
    (map_to_list (tallyLines lines)) = true <-> balanced lines.
Proof.
  rewrite forallb_forall. unfold balanced. split.
  - intros H c. destruct (tally_lookup lines ∅ c) as [Hd Hc].
    rewrite lookup_empty in Hd, Hc. simpl in Hd, Hc. rewrite dZero_val in Hd, Hc.
    destruct (fold_left tallyLine lines ∅ !! c) as [b|] eqn:Hb; simpl in Hd, Hc.
    + specialize (H (c, b)). simpl in H.
      destruct (dEqualP (bal_debits b) (bal_credits b)); [lra|].
      discriminate H. rewrite <- list_elem_of_In. by apply elem_of_map_to_list.
    + rewrite dZero_val in Hd, Hc. lra.
  - intros H [c b] Hin. apply list_elem_of_In, elem_of_map_to_list in Hin. simpl.
    destruct (tally_lookup lines ∅ c) as [Hd Hc]. unfold tallyLines in Hin.
    rewrite Hin, lookup_empty in Hd, Hc. simpl in Hd, Hc. rewrite dZero_val in Hd, Hc.
    specialize (H c). destruct (dEqualP (bal_debits b) (bal_credits b)); [done|lra].
Qed.

Lemma ValidateEntries_iff lines :
  ValidateEntries lines = Ok tt <-> well_formed_entry lines.
Proof.
  unfold ValidateEntries. destruct (Nat.ltb_spec (length lines) 2) as [Hlen|Hlen].
  { split; [done|]. intros []. lia. }
  destruct (checkLines lines ∅ ∅) as [[]|] eqn:Hc.
  - apply checkLines_spec in Hc as (Hpos & Hids & _ & Hkeys & _).
    pose proof (tally_balanced lines) as Ht.
    destruct (forallb _ _).
    + split; [|done]. intros _. split; auto. by apply Ht.
    + split; [done|]. intros [_ _ _ _ Hb]. by apply Ht in Hb.
  - split; [done|]. intros [_ Hpos Hids Hkeys _].
    assert (checkLines lines ∅ ∅ = Ok tt); [|congruence].
    apply checkLines_spec. split_and!; auto; set_solver.
Qed.

(** [ValidateEntries] accepts exactly the well-formed double entries: at
    least two lines, every amount positive, no repeated line id, no repeated
    (account, side), and in every currency the debits equal the credits. *)
Theorem ValidateEntries_spec lines :
  ValidateEntries lines = Ok tt <-> well_formed_entry lines.
Proof. apply ValidateEntries_iff. Qed.

Lemma ValidateEntries_err lines e :
  ValidateEntries lines = Err e -> e = DomainErr CodeLedgerImbalance.
Proof.
  assert (Hc : forall ids keys e, checkLines lines ids keys = Err e ->
                           e = DomainErr CodeLedgerImbalance).
  { clear. induction lines as [|l lines IH]; intros ids keys e; simpl; [done|].
    repeat case_match; naive_solver. }
  unfold ValidateEntries. intros H. repeat case_match; simplify_eq; eauto.
Qed.
End DoubleEntry.

(** ** Witness *)

Module LedgerWitness.
Import QInstance.

(** Debit 100, credit 96 and 4. *)
Definition posting (i : ascii) (code ty : string) (a : Q) : EntryLine :=
  {| el_ID := i; el_AccountID := i;
     el_Posting := {| po_AccountCode := code; po_EntryType := ty; po_Amount := a;
                      po_Currency := "GBP"; po_Description := "" |} |}.

Definition entry : list EntryLine :=
  [posting "a"%char "tenant:lemfi:liabilities:customer:pending" EntryTypeDebit (100 # 1)%Q;
   posting "b"%char "tenant:lemfi:liabilities:payable:recipient" EntryTypeCredit (96 # 1)%Q;
   posting "c"%char "tenant:lemfi:revenue:fees:settlement" EntryTypeCredit (4 # 1)%Q].

Lemma ValidateEntries_spec_witness : well_formed_entry (LL := Qlib_laws) entry.
Proof.
  apply (ValidateEntries_spec (LL := Qlib_laws) entry). vm_compute. reflexivity.
Defined.
End LedgerWitness.
