(* ===== verification/Treasury.v ===== *)
(** * treasury: the in-memory position manager

    Models src/treasury/manager.go, src/treasury/position_state.go and
    src/domain/position.go.  A [Manager] keeps positions behind pointers that
    three indexes share ([positions], [tenantIndex], [dirtySet]), so the model
    has a heap of [PositionState]s and the indexes hold pointers into it.
    Counters are [int64] micro-units with Go's wrap-around.  The operations
    here are the sequential ones: a compare-and-swap loop that meets no other
    goroutine takes one iteration.  TreasuryConcurrent.v opens the loops up.

    What a call finds outside the manager is its [Env]: the instant it reads,
    the UUIDs it draws, and whether the flush loop made room in a full
    [pendingOps] channel within the one second the call waits.  The database
    is an instance of [TreasuryStore], the interface of src/treasury/store.go. *)

From Stdlib Require Import Ascii QArith Lqa.
From S2P Require Import Prelude ThirdParty Money.
Local Open Scope string_scope.
Local Open Scope Z_scope.

(** ** Hashing of idempotency keys (hash/fnv, New32a) *)

Fixpoint fnv32a_loop (h : Z) (s : string) : Z :=
  match s with
  | EmptyString => h
  | String a s' =>
      fnv32a_loop (wrap32u (Z.lxor h (Z.of_nat (Ascii.nat_of_ascii a)) * 16777619)) s'
  end.

Definition fnv32a (s : string) : Z := fnv32a_loop 2166136261 s.

Definition idempotencyShardFor (key : string) : nat := Z.to_nat (fnv32a key mod 16).

(** The key [positionKey{TenantID, Currency, Location}]. *)
Abbreviation positionKey := (UUID * string * string)%type.

Section Data.
Context {L : ThirdParty}.

(** ** domain.Position *)

Record Position := {
  pos_ID : UUID;
  pos_TenantID : UUID;
  pos_Currency : Currency;
  pos_Location : string;
  pos_Balance : Decimal;
  pos_Locked : Decimal;
  pos_MinBalance : Decimal;
  pos_TargetBalance : Decimal;
  pos_UpdatedAt : Z;
}.

Definition Position_Available (p : Position) : Decimal :=
  let avail := dSub (pos_Balance p) (pos_Locked p) in
  if IsNegative avail then dZero else avail.

Definition IsAboveMinimum (p : Position) : bool :=
  GreaterThanOrEqual (pos_Balance p) (pos_MinBalance p).

Definition CanLock (p : Position) (amount : Decimal) : bool :=
  GreaterThanOrEqual (Position_Available p) amount.

(** ** treasury.PositionState *)

Record PositionState := {
  ps_ID : UUID;
  ps_TenantID : UUID;
  ps_Currency : Currency;
  ps_Location : string;
  ps_MinBalance : Decimal;
  ps_TargetBalance : Decimal;
  ps_balanceMicro : Z;
  ps_lockedMicro : Z;
  ps_reservedMicro : Z;
  ps_dirty : bool;
}.

Definition set_counters (ps : PositionState) (b l r : Z) : PositionState :=
  {| ps_ID := ps_ID ps; ps_TenantID := ps_TenantID ps; ps_Currency := ps_Currency ps;
     ps_Location := ps_Location ps; ps_MinBalance := ps_MinBalance ps;
     ps_TargetBalance := ps_TargetBalance ps; ps_balanceMicro := b;
     ps_lockedMicro := l; ps_reservedMicro := r; ps_dirty := ps_dirty ps |}.

Definition set_dirty (ps : PositionState) (d : bool) : PositionState :=
  {| ps_ID := ps_ID ps; ps_TenantID := ps_TenantID ps; ps_Currency := ps_Currency ps;
     ps_Location := ps_Location ps; ps_MinBalance := ps_MinBalance ps;
     ps_TargetBalance := ps_TargetBalance ps; ps_balanceMicro := ps_balanceMicro ps;
     ps_lockedMicro := ps_lockedMicro ps; ps_reservedMicro := ps_reservedMicro ps;
     ps_dirty := d |}.

Definition key_of (ps : PositionState) : positionKey :=
  (ps_TenantID ps, ps_Currency ps, ps_Location ps).

(** ** Micro-units *)

Definition microScale : Z := 1000000.
Definition maxMicroValue : Z := 9000000000000000000.

Definition outOfMicroRange (d : Decimal) : bool :=
  let scaled := dMul d (NewFromInt microScale) in
  GreaterThan scaled (NewFromInt maxMicroValue)
  || LessThan scaled (NewFromInt (- maxMicroValue)).

(** [None] is the panic of an amount beyond the range. *)
Definition toMicro (d : Decimal) : option Z :=
  if outOfMicroRange d then None
  else Some (IntPart (dMul d (NewFromInt microScale))).

Definition validateMicroRange (amount : Decimal) : result unit :=
  if outOfMicroRange amount then Err (MsgErr "amount exceeds maximum position size")
  else Ok tt.

Definition fromMicro (v : Z) : Decimal := dDiv (NewFromInt v) (NewFromInt microScale).

Definition PositionState_Available (ps : PositionState) : Decimal :=
  fromMicro (sub64 (sub64 (ps_balanceMicro ps) (ps_lockedMicro ps)) (ps_reservedMicro ps)).

Definition snapshot (now : Z) (ps : PositionState) : Position :=
  {| pos_ID := ps_ID ps; pos_TenantID := ps_TenantID ps; pos_Currency := ps_Currency ps;
     pos_Location := ps_Location ps; pos_Balance := fromMicro (ps_balanceMicro ps);
     pos_Locked := fromMicro (add64 (ps_lockedMicro ps) (ps_reservedMicro ps));
     pos_MinBalance := ps_MinBalance ps; pos_TargetBalance := ps_TargetBalance ps;
     pos_UpdatedAt := now |}.

(** ** The operation log and the audit events *)

Inductive ReserveOpType : Set :=
| OpReserve | OpRelease | OpCommit | OpConsume | OpCredit | OpDebit.

(** The operation names used in idempotency keys. *)
Definition op_name (o : ReserveOpType) : string :=
  match o with
  | OpReserve => "reserve" | OpRelease => "release" | OpCommit => "commit"
  | OpConsume => "consume" | OpCredit => "credit" | OpDebit => "debit"
  end.

Record ReserveOp := {
  ro_ID : UUID;
  ro_TenantID : UUID;
  ro_Currency : Currency;
  ro_Location : string;
  ro_Amount : Decimal;
  ro_Reference : UUID;
  ro_OpType : ReserveOpType;
  ro_CreatedAt : Z;
}.

Inductive PositionEventType : Set :=
| PosEventCredit | PosEventDebit | PosEventReserve | PosEventRelease
| PosEventCommit | PosEventConsume.

Definition event_type_name (t : PositionEventType) : string :=
  match t with
  | PosEventCredit => "CREDIT" | PosEventDebit => "DEBIT"
  | PosEventReserve => "RESERVE" | PosEventRelease => "RELEASE"
  | PosEventCommit => "COMMIT" | PosEventConsume => "CONSUME"
  end.

Record PositionEvent := {
  pe_ID : UUID;
  pe_PositionID : UUID;
  pe_TenantID : UUID;
  pe_EventType : PositionEventType;
  pe_Amount : Decimal;
  pe_BalanceAfter : Decimal;
  pe_LockedAfter : Decimal;
  pe_ReferenceID : UUID;
  pe_ReferenceType : string;
  pe_IdempotencyKey : string;
  pe_RecordedAt : Z;
}.

Record PositionUpdate := {
  pu_ID : UUID; pu_TenantID : UUID; pu_Balance : Decimal; pu_Locked : Decimal }.

(** ** The persistence interface (src/treasury/store.go)

    [BatchStore], [EventStore] and [ReserveOpStore] are optional extensions
    that the manager detects with a type assertion: an option here. *)
Class TreasuryStore (S : Type) : Type := {
  LoadPositionsPaginated : Z -> Z -> S -> result (list Position);
  UpdatePosition : UUID -> Decimal -> Decimal -> S -> result unit * S;
  RecordHistory : UUID -> UUID -> Decimal -> Decimal -> string -> S -> result unit * S;
  BatchUpdatePositions : option (list PositionUpdate -> S -> result unit * S);
  BatchWriteEvents : option (list PositionEvent -> S -> result unit * S);
  LogReserveOp : option (ReserveOp -> S -> result unit * S);
  GetUncommittedOps : S -> result (list ReserveOp);
  CleanupOldOps : Z -> S -> result unit * S;
}.
End Data.

Arguments TreasuryStore {L} S.

(** ** The manager *)

Section ManagerState.
Context {L : ThirdParty} {S : Type}.

Record Manager := {
  mg_heap : gmap nat PositionState;
  mg_next : nat;
  mg_positions : gmap positionKey nat;
  mg_tenantIndex : gmap UUID (list nat);
  mg_dirtySet : gmap positionKey nat;
  mg_idempotencyShards : list (gmap string Z);
  mg_syncThresholds : gmap string Decimal;
  mg_syncThresholdDefault : Decimal;
  mg_hasPublisher : bool;
  mg_pendingOps : list ReserveOp;
  mg_pendingEvents : list PositionEvent;
  mg_replaying : bool;
  mg_consecutiveFlushFailures : Z;
  mg_failedPositionIDs : list UUID;
  mg_alerts : list UUID;
  mg_store : S;
}.

Definition set_heap (m : Manager) (h : gmap nat PositionState) : Manager :=
  {| mg_heap := h; mg_next := mg_next m; mg_positions := mg_positions m;
     mg_tenantIndex := mg_tenantIndex m; mg_dirtySet := mg_dirtySet m;
     mg_idempotencyShards := mg_idempotencyShards m;
     mg_syncThresholds := mg_syncThresholds m;
     mg_syncThresholdDefault := mg_syncThresholdDefault m;
     mg_hasPublisher := mg_hasPublisher m; mg_pendingOps := mg_pendingOps m;
     mg_pendingEvents := mg_pendingEvents m; mg_replaying := mg_replaying m;
     mg_consecutiveFlushFailures := mg_consecutiveFlushFailures m;
     mg_failedPositionIDs := mg_failedPositionIDs m; mg_alerts := mg_alerts m;
     mg_store := mg_store m |}.

Definition set_indexes (m : Manager) (n : nat) (ps : gmap positionKey nat)
    (ti : gmap UUID (list nat)) : Manager :=
  {| mg_heap := mg_heap m; mg_next := n; mg_positions := ps;
     mg_tenantIndex := ti; mg_dirtySet := mg_dirtySet m;
     mg_idempotencyShards := mg_idempotencyShards m;
     mg_syncThresholds := mg_syncThresholds m;
     mg_syncThresholdDefault := mg_syncThresholdDefault m;
     mg_hasPublisher := mg_hasPublisher m; mg_pendingOps := mg_pendingOps m;
     mg_pendingEvents := mg_pendingEvents m; mg_replaying := mg_replaying m;
     mg_consecutiveFlushFailures := mg_consecutiveFlushFailures m;
     mg_failedPositionIDs := mg_failedPositionIDs m; mg_alerts := mg_alerts m;
     mg_store := mg_store m |}.

Definition set_dirtySet (m : Manager) (d : gmap positionKey nat) : Manager :=
  {| mg_heap := mg_heap m; mg_next := mg_next m; mg_positions := mg_positions m;
     mg_tenantIndex := mg_tenantIndex m; mg_dirtySet := d;
     mg_idempotencyShards := mg_idempotencyShards m;
     mg_syncThresholds := mg_syncThresholds m;
     mg_syncThresholdDefault := mg_syncThresholdDefault m;
     mg_hasPublisher := mg_hasPublisher m; mg_pendingOps := mg_pendingOps m;
     mg_pendingEvents := mg_pendingEvents m; mg_replaying := mg_replaying m;
     mg_consecutiveFlushFailures := mg_consecutiveFlushFailures m;
     mg_failedPositionIDs := mg_failedPositionIDs m; mg_alerts := mg_alerts m;
     mg_store := mg_store m |}.

Definition set_shards (m : Manager) (s : list (gmap string Z)) : Manager :=
  {| mg_heap := mg_heap m; mg_next := mg_next m; mg_positions := mg_positions m;
     mg_tenantIndex := mg_tenantIndex m; mg_dirtySet := mg_dirtySet m;
     mg_idempotencyShards := s;
     mg_syncThresholds := mg_syncThresholds m;
     mg_syncThresholdDefault := mg_syncThresholdDefault m;
     mg_hasPublisher := mg_hasPublisher m; mg_pendingOps := mg_pendingOps m;
     mg_pendingEvents := mg_pendingEvents m; mg_replaying := mg_replaying m;
     mg_consecutiveFlushFailures := mg_consecutiveFlushFailures m;
     mg_failedPositionIDs := mg_failedPositionIDs m; mg_alerts := mg_alerts m;
     mg_store := mg_store m |}.

(** Store state and the two channels move together. *)
Definition set_io (m : Manager) (s : S) (ops : list ReserveOp) (evs : list PositionEvent)
    (alerts : list UUID) : Manager :=
  {| mg_heap := mg_heap m; mg_next := mg_next m; mg_positions := mg_positions m;
     mg_tenantIndex := mg_tenantIndex m; mg_dirtySet := mg_dirtySet m;
     mg_idempotencyShards := mg_idempotencyShards m;
     mg_syncThresholds := mg_syncThresholds m;
     mg_syncThresholdDefault := mg_syncThresholdDefault m;
     mg_hasPublisher := mg_hasPublisher m; mg_pendingOps := ops;
     mg_pendingEvents := evs; mg_replaying := mg_replaying m;
     mg_consecutiveFlushFailures := mg_consecutiveFlushFailures m;
     mg_failedPositionIDs := mg_failedPositionIDs m; mg_alerts := alerts;
     mg_store := s |}.

Definition set_flush_status (m : Manager) (replaying : bool) (failures : Z)
    (failed : list UUID) : Manager :=
  {| mg_heap := mg_heap m; mg_next := mg_next m; mg_positions := mg_positions m;
     mg_tenantIndex := mg_tenantIndex m; mg_dirtySet := mg_dirtySet m;
     mg_idempotencyShards := mg_idempotencyShards m;
     mg_syncThresholds := mg_syncThresholds m;
     mg_syncThresholdDefault := mg_syncThresholdDefault m;
     mg_hasPublisher := mg_hasPublisher m; mg_pendingOps := mg_pendingOps m;
     mg_pendingEvents := mg_pendingEvents m; mg_replaying := replaying;
     mg_consecutiveFlushFailures := failures;
     mg_failedPositionIDs := failed; mg_alerts := mg_alerts m;
     mg_store := mg_store m |}.

Record Env := { env_now : Z; env_newv7 : nat -> UUID; env_drained : bool }.
End ManagerState.

Arguments Manager {L} S.

(** ** Operations *)

Section Operations.
Context {L : ThirdParty} {S : Type} `{TS : !TreasuryStore S}.
Implicit Types m : Manager S.

Definition idempotencyKey (reference : UUID) (op : string) : string :=
  uuid_String reference +:+ ":" +:+ op.

Definition maxIdempotencyMapSize : Z := 500000.
Definition shardLimit : Z := maxIdempotencyMapSize / 16.
Definition forcedCleanupMaxAge : Z := 2 * 60 * 1000000000.

(** Deletes the entries older than [cutoff] ([t.Before(cutoff)]). *)
Definition purge (cutoff : Z) (items : gmap string Z) : gmap string Z :=
  filter (fun kt : string * Z => ~ (kt.2 < cutoff)) items.

Definition shard_at (shards : list (gmap string Z)) (i : nat) : gmap string Z :=
  default ∅ (shards !! i).

(** True: the key was already claimed. *)
Definition tryAcquireIdempotency (env : Env) (reference : UUID) (op : string) m
  : bool * Manager S :=
  let key := idempotencyKey reference op in
  let idx := idempotencyShardFor key in
  let items := shard_at (mg_idempotencyShards m) idx in
  if bool_decide (is_Some (items !! key)) then (true, m)
  else
    let items := if shardLimit <=? Z.of_nat (size items)
                 then purge (env_now env - forcedCleanupMaxAge) items else items in
    (false, set_shards m (<[idx := <[key := env_now env]> items]> (mg_idempotencyShards m))).

Definition rollbackIdempotency (reference : UUID) (op : string) m : Manager S :=
  let key := idempotencyKey reference op in
  let idx := idempotencyShardFor key in
  set_shards m (<[idx := delete key (shard_at (mg_idempotencyShards m) idx)]>
                  (mg_idempotencyShards m)).

(** One shard of [cleanupIdempotencyMap]. *)
Definition cleanupShard (now maxAge : Z) (items : gmap string Z) : gmap string Z :=
  let items := purge (now - maxAge) items in
  if shardLimit <? Z.of_nat (size items) then purge (now - forcedCleanupMaxAge) items
  else items.

Definition cleanupIdempotencyMap (now maxAge : Z) m : Manager S :=
  set_shards m (map (cleanupShard now maxAge) (mg_idempotencyShards m)).

Definition syncThresholdFor (currency : Currency) m : Decimal :=
  default (mg_syncThresholdDefault m) (mg_syncThresholds m !! currency).

Definition getPosition (tenantID : UUID) (currency : Currency) (location : string) m
  : result nat :=
  match mg_positions m !! (tenantID, currency, location) with
  | Some p => Ok p
  | None => Err (DomainErr CodeInsufficientFunds)
  end.

(** The counters behind a pointer, and their assignment. *)
Definition deref (p : nat) m : option PositionState := mg_heap m !! p.

Definition store_counters (p : nat) (b l r : Z) m : Manager S :=
  match deref p m with
  | Some ps => set_heap m (<[p := set_counters ps b l r]> (mg_heap m))
  | None => m
  end.

Definition addReserved (p : nat) (d : Z) m : Manager S :=
  match deref p m with
  | Some ps => store_counters p (ps_balanceMicro ps) (ps_lockedMicro ps)
                 (add64 (ps_reservedMicro ps) d) m
  | None => m
  end.

Definition addLocked (p : nat) (d : Z) m : Manager S :=
  match deref p m with
  | Some ps => store_counters p (ps_balanceMicro ps) (add64 (ps_lockedMicro ps) d)
                 (ps_reservedMicro ps) m
  | None => m
  end.

Definition addBalance (p : nat) (d : Z) m : Manager S :=
  match deref p m with
  | Some ps => store_counters p (add64 (ps_balanceMicro ps) d) (ps_lockedMicro ps)
                 (ps_reservedMicro ps) m
  | None => m
  end.

Definition markDirty (p : nat) m : Manager S :=
  match deref p m with
  | Some ps =>
      set_dirtySet (set_heap m (<[p := set_dirty ps true]> (mg_heap m)))
        (<[key_of ps := p]> (mg_dirtySet m))
  | None => m
  end.

Definition pendingOpsCap : Z := 10000.
Definition pendingEventsCap : Z := 100000.

(** [opID] is the index of the UUID drawn for the log record. *)
Definition logOp (env : Env) (opID : nat) (tenantID : UUID) (currency : Currency)
    (location : string) (amount : Decimal) (reference : UUID) (opType : ReserveOpType) m
  : result unit * Manager S :=
  if mg_replaying m then (Ok tt, m)
  else
    let op := {| ro_ID := env_newv7 env opID; ro_TenantID := tenantID;
                 ro_Currency := currency; ro_Location := location; ro_Amount := amount;
                 ro_Reference := reference; ro_OpType := opType;
                 ro_CreatedAt := env_now env |} in
    let enqueue m :=
      if Z.of_nat (length (mg_pendingOps m)) <? pendingOpsCap
      then (Ok tt, set_io m (mg_store m) (mg_pendingOps m ++ [op])
                     (mg_pendingEvents m) (mg_alerts m))
      else if env_drained env
      then (Ok tt, set_io m (mg_store m) [op] (mg_pendingEvents m) (mg_alerts m))
      else (Err (MsgErr "pending ops channel full"), m) in
    match LogReserveOp with
    | Some log =>
        match log op (mg_store m) with
        | (Ok _, s) =>
            enqueue (set_io m s (mg_pendingOps m) (mg_pendingEvents m) (mg_alerts m))
        | (Err e, s) =>
            (Err (WrapErr "WAL write failed" e),
             set_io m s (mg_pendingOps m) (mg_pendingEvents m) (mg_alerts m))
        end
    | None => enqueue m
    end.

Definition syncFlushPosition (p : nat) m : result unit * Manager S :=
  match deref p m with
  | None => (Err (PanicErr "nil position"), m)
  | Some ps =>
      match UpdatePosition (ps_ID ps) (fromMicro (ps_balanceMicro ps))
              (fromMicro (ps_lockedMicro ps)) (mg_store m) with
      | (Err e, s) =>
          (Err (WrapErr "sync flush failed" e),
           set_io m s (mg_pendingOps m) (mg_pendingEvents m) (mg_alerts m))
      | (Ok _, s) =>
          let m := set_io m s (mg_pendingOps m) (mg_pendingEvents m) (mg_alerts m) in
          (Ok tt,
           set_dirtySet (set_heap m (<[p := set_dirty ps false]> (mg_heap m)))
             (delete (key_of ps) (mg_dirtySet m)))
      end
  end.

(** Events are dropped when the channel is full. *)
Definition queueEvent (env : Env) (evID : nat) (p : nat) (eventType : PositionEventType)
    (amount : Decimal) (reference : UUID) (refType : string) m : Manager S :=
  match deref p m with
  | None => m
  | Some ps =>
      let event :=
        {| pe_ID := env_newv7 env evID; pe_PositionID := ps_ID ps;
           pe_TenantID := ps_TenantID ps; pe_EventType := eventType; pe_Amount := amount;
           pe_BalanceAfter := fromMicro (ps_balanceMicro ps);
           pe_LockedAfter := fromMicro (add64 (ps_lockedMicro ps) (ps_reservedMicro ps));
           pe_ReferenceID := reference; pe_ReferenceType := refType;
           pe_IdempotencyKey := idempotencyKey reference (event_type_name eventType);
           pe_RecordedAt := env_now env |} in
      if Z.of_nat (length (mg_pendingEvents m)) <? pendingEventsCap
      then set_io m (mg_store m) (mg_pendingOps m) (mg_pendingEvents m ++ [event])
             (mg_alerts m)
      else m
  end.

Definition publishLiquidityAlert (p : nat) m : Manager S :=
  match deref p m with
  | Some ps =>
      if mg_hasPublisher m
      then set_io m (mg_store m) (mg_pendingOps m) (mg_pendingEvents m)
             (mg_alerts m ++ [ps_ID ps])
      else m
  | None => m
  end.

Definition maxFlushFailuresBeforeReject : Z := 3.

(** Whether the amount reaches the synchronous-flush threshold. *)
Definition needsSyncFlush (currency : Currency) (amount : Decimal) m : bool :=
  let threshold := syncThresholdFor currency m in
  negb (IsZero threshold) && GreaterThanOrEqual amount threshold.

Definition available64 (ps : PositionState) : Z :=
  sub64 (sub64 (ps_balanceMicro ps) (ps_lockedMicro ps)) (ps_reservedMicro ps).

Definition Reserve (env : Env) (tenantID : UUID) (currency : Currency) (location : string)
    (amount : Decimal) (reference : UUID) m : result unit * Manager S :=
  if negb (IsPositive amount) then (Err (DomainErr CodeReservationFailed), m)
  else match validateMicroRange amount with
  | Err e => (Err e, m)
  | Ok _ =>
  if maxFlushFailuresBeforeReject <=? mg_consecutiveFlushFailures m
  then (Err (MsgErr "rejecting reserve: DB flush failing"), m)
  else
  let '(held, m) := tryAcquireIdempotency env reference "reserve" m in
  if held then (Ok tt, m)
  else match getPosition tenantID currency location m with
  | Err e => (Err e, rollbackIdempotency reference "reserve" m)
  | Ok p =>
  match toMicro amount, deref p m with
  | None, _ => (Err (PanicErr "amount overflows int64 micro-units"), m)
  | _, None => (Err (PanicErr "nil position"), m)
  | Some amountMicro, Some ps =>
  if available64 ps <? amountMicro
  then (Err (DomainErr CodeInsufficientFunds), rollbackIdempotency reference "reserve" m)
  else
  let m := store_counters p (ps_balanceMicro ps) (ps_lockedMicro ps)
             (add64 (ps_reservedMicro ps) amountMicro) m in
  let m := markDirty p m in
  match logOp env 0 tenantID currency location amount reference OpReserve m with
  | (Err e, m) =>
      (Err e, rollbackIdempotency reference "reserve" (addReserved p (- amountMicro) m))
  | (Ok _, m) =>
  let finish m :=
    match deref p m with
    | Some ps =>
        let remaining := fromMicro (available64 ps) in
        (Ok tt,
         if LessThan remaining (ps_MinBalance ps) && negb (IsZero (ps_MinBalance ps))
         then publishLiquidityAlert p m else m)
    | None => (Ok tt, m)
    end in
  if needsSyncFlush currency amount m then
    match syncFlushPosition p m with
    | (Err e, m) =>
        (Err (WrapErr "rejecting large reserve: sync flush failed" e),
         rollbackIdempotency reference "reserve" (addReserved p (- amountMicro) m))
    | (Ok _, m) => finish m
    end
  else finish m
  end
  end
  end
  end.

Definition Release (env : Env) (tenantID : UUID) (currency : Currency) (location : string)
    (amount : Decimal) (reference : UUID) m : result unit * Manager S :=
  if negb (IsPositive amount) then (Err (DomainErr CodeReservationFailed), m)
  else match validateMicroRange amount with
  | Err e => (Err e, m)
  | Ok _ =>
  let '(held, m) := tryAcquireIdempotency env reference "release" m in
  if held then (Ok tt, m)
  else match getPosition tenantID currency location m with
  | Err e => (Err e, rollbackIdempotency reference "release" m)
  | Ok p =>
  match toMicro amount, deref p m with
  | None, _ => (Err (PanicErr "amount overflows int64 micro-units"), m)
  | _, None => (Err (PanicErr "nil position"), m)
  | Some amountMicro, Some ps =>
  if ps_reservedMicro ps <? amountMicro
  then (Err (DomainErr CodeReservationFailed), rollbackIdempotency reference "release" m)
  else
  let m := store_counters p (ps_balanceMicro ps) (ps_lockedMicro ps)
             (sub64 (ps_reservedMicro ps) amountMicro) m in
  let m := markDirty p m in
  match logOp env 0 tenantID currency location amount reference OpRelease m with
  | (Err e, m) =>
      (Err e, rollbackIdempotency reference "release" (addReserved p amountMicro m))
  | (Ok _, m) => (Ok tt, m)
  end
  end
  end
  end.

(** Unlike the other operations, [CommitReservation] does not call
    [validateMicroRange]: an amount beyond the range panics in [toMicro]. *)
Definition CommitReservation (env : Env) (tenantID : UUID) (currency : Currency)
    (location : string) (amount : Decimal) (reference : UUID) m : result unit * Manager S :=
  if negb (IsPositive amount) then (Err (DomainErr CodeReservationFailed), m)
  else
  let '(held, m) := tryAcquireIdempotency env reference "commit" m in
  if held then (Ok tt, m)
  else match getPosition tenantID currency location m with
  | Err e => (Err e, rollbackIdempotency reference "commit" m)
  | Ok p =>
  match toMicro amount, deref p m with
  | None, _ => (Err (PanicErr "amount overflows int64 micro-units"), m)
  | _, None => (Err (PanicErr "nil position"), m)
  | Some amountMicro, Some ps =>
  if ps_reservedMicro ps <? amountMicro
  then (Err (MsgErr "insufficient reserved amount"), rollbackIdempotency reference "commit" m)
  else
  let m := store_counters p (ps_balanceMicro ps) (ps_lockedMicro ps)
             (sub64 (ps_reservedMicro ps) amountMicro) m in
  let m := addLocked p amountMicro m in
  let m := markDirty p m in
  match logOp env 0 tenantID currency location amount reference OpCommit m with
  | (Err e, m) =>
      (Err e, rollbackIdempotency reference "commit"
                (addLocked p (- amountMicro) (addReserved p amountMicro m)))
  | (Ok _, m) => (Ok tt, m)
  end
  end
  end.

Definition CreditBalance (env : Env) (tenantID : UUID) (currency : Currency)
    (location : string) (amount : Decimal) (reference : UUID) (refType : string) m
  : result unit * Manager S :=
  if negb (IsPositive amount) then (Err (MsgErr "credit amount must be positive"), m)
  else match validateMicroRange amount with
  | Err e => (Err e, m)
  | Ok _ =>
  if maxFlushFailuresBeforeReject <=? mg_consecutiveFlushFailures m
  then (Err (MsgErr "rejecting credit: DB flush failing"), m)
  else
  let '(held, m) := tryAcquireIdempotency env reference "credit" m in
  if held then (Ok tt, m)
  else match getPosition tenantID currency location m with
  | Err e => (Err e, rollbackIdempotency reference "credit" m)
  | Ok p =>
  match toMicro amount with
  | None => (Err (PanicErr "amount overflows int64 micro-units"), m)
  | Some amountMicro =>
  let m := addBalance p amountMicro m in
  let m := markDirty p m in
  let m := queueEvent env 0 p PosEventCredit amount reference refType m in
  match logOp env 1 tenantID currency location amount reference OpCredit m with
  | (Err e, m) =>
      (Err e, rollbackIdempotency reference "credit" (addBalance p (- amountMicro) m))
  | (Ok _, m) =>
  if needsSyncFlush currency amount m then
    match syncFlushPosition p m with
    | (Err e, m) =>
        (Err (WrapErr "rejecting large credit: sync flush failed" e),
         rollbackIdempotency reference "credit" (addBalance p (- amountMicro) m))
    | (Ok _, m) => (Ok tt, m)
    end
  else (Ok tt, m)
  end
  end
  end
  end.

Definition DebitBalance (env : Env) (tenantID : UUID) (currency : Currency)
    (location : string) (amount : Decimal) (reference : UUID) (refType : string) m
  : result unit * Manager S :=
  if negb (IsPositive amount) then (Err (MsgErr "debit amount must be positive"), m)
  else match validateMicroRange amount with
  | Err e => (Err e, m)
  | Ok _ =>
  if maxFlushFailuresBeforeReject <=? mg_consecutiveFlushFailures m
  then (Err (MsgErr "rejecting debit: DB flush failing"), m)
  else
  let '(held, m) := tryAcquireIdempotency env reference "debit" m in
  if held then (Ok tt, m)
  else match getPosition tenantID currency location m with
  | Err e => (Err e, rollbackIdempotency reference "debit" m)
  | Ok p =>
  match toMicro amount, deref p m with
  | None, _ => (Err (PanicErr "amount overflows int64 micro-units"), m)
  | _, None => (Err (PanicErr "nil position"), m)
  | Some amountMicro, Some ps =>
  if available64 ps <? amountMicro
  then (Err (DomainErr CodeInsufficientFunds), rollbackIdempotency reference "debit" m)
  else
  let m := store_counters p (sub64 (ps_balanceMicro ps) amountMicro) (ps_lockedMicro ps)
             (ps_reservedMicro ps) m in
  let m := markDirty p m in
  let m := queueEvent env 0 p PosEventDebit amount reference refType m in
  match logOp env 1 tenantID currency location amount reference OpDebit m with
  | (Err e, m) =>
      (Err e, rollbackIdempotency reference "debit" (addBalance p amountMicro m))
  | (Ok _, m) =>
  (* a failed sync flush is only logged *)
  if needsSyncFlush currency amount m then (Ok tt, (syncFlushPosition p m).2)
  else (Ok tt, m)
  end
  end
  end
  end.

Definition ConsumeReservation (env : Env) (tenantID : UUID) (currency : Currency)
    (location : string) (amount : Decimal) (reference : UUID) m : result unit * Manager S :=
  if negb (IsPositive amount) then (Err (DomainErr CodeReservationFailed), m)
  else match validateMicroRange amount with
  | Err e => (Err e, m)
  | Ok _ =>
  let '(held, m) := tryAcquireIdempotency env reference "consume" m in
  if held then (Ok tt, m)
  else match getPosition tenantID currency location m with
  | Err e => (Err e, rollbackIdempotency reference "consume" m)
  | Ok p =>
  match toMicro amount, deref p m with
  | None, _ => (Err (PanicErr "amount overflows int64 micro-units"), m)
  | _, None => (Err (PanicErr "nil position"), m)
  | Some amountMicro, Some ps =>
  if ps_reservedMicro ps <? amountMicro
  then (Err (MsgErr "insufficient reserved amount for consume"),
        rollbackIdempotency reference "consume" m)
  else if ps_balanceMicro ps <? amountMicro
  then (Err (MsgErr "insufficient balance for consume"),
        rollbackIdempotency reference "consume" m)
  else
  let m := store_counters p (sub64 (ps_balanceMicro ps) amountMicro) (ps_lockedMicro ps)
             (sub64 (ps_reservedMicro ps) amountMicro) m in
  let m := markDirty p m in
  let m := queueEvent env 0 p PosEventConsume amount reference "transfer" m in
  match logOp env 1 tenantID currency location amount reference OpConsume m with
  | (Err e, m) =>
      (Err e, rollbackIdempotency reference "consume"
                (addBalance p amountMicro (addReserved p amountMicro m)))
  | (Ok _, m) =>
  if needsSyncFlush currency amount m then (Ok tt, (syncFlushPosition p m).2)
  else (Ok tt, m)
  end
  end
  end
  end.

(** The reconciliation escape hatch: sets the balance outright. *)
Definition UpdateBalance (tenantID : UUID) (currency : Currency) (location : string)
    (newBalance : Decimal) m : result unit * Manager S :=
  match validateMicroRange newBalance with
  | Err e => (Err e, m)
  | Ok _ =>
  match getPosition tenantID currency location m with
  | Err e => (Err e, m)
  | Ok p =>
  match toMicro newBalance, deref p m with
  | None, _ => (Err (PanicErr "amount overflows int64 micro-units"), m)
  | _, None => (Err (PanicErr "nil position"), m)
  | Some newBalanceMicro, Some ps =>
  if newBalanceMicro <? add64 (ps_lockedMicro ps) (ps_reservedMicro ps)
  then (Err (MsgErr "cannot set balance below committed amount"), m)
  else (Ok tt, markDirty p (store_counters p newBalanceMicro (ps_lockedMicro ps)
                              (ps_reservedMicro ps) m))
  end
  end
  end.

(** Reads. *)
Definition GetPosition (now : Z) (tenantID : UUID) (currency : Currency) (location : string) m
  : result Position :=
  let? p := getPosition tenantID currency location m in
  match deref p m with
  | Some ps => Ok (snapshot now ps)
  | None => Err (PanicErr "nil position")
  end.

Definition GetPositions (now : Z) (tenantID : UUID) m : list Position :=
  omap (fun p => snapshot now <$> deref p m) (default [] (mg_tenantIndex m !! tenantID)).

Record LiquidityReport := {
  lr_TenantID : UUID;
  lr_Positions : list Position;
  lr_TotalAvailable : gmap string Decimal;
  lr_AlertPositions : list Position;
}.

Definition addAvailable (acc : gmap string Decimal) (p : Position) : gmap string Decimal :=
  <[pos_Currency p := dAdd (default dZero (acc !! pos_Currency p)) (Position_Available p)]> acc.

Definition GetLiquidityReport (now : Z) (tenantID : UUID) m : LiquidityReport :=
  let positions := GetPositions now tenantID m in
  {| lr_TenantID := tenantID; lr_Positions := positions;
     lr_TotalAvailable := fold_left addAvailable positions ∅;
     lr_AlertPositions :=
       filter (fun p => Is_true (negb (IsZero (pos_MinBalance p))
                        && LessThan (pos_Balance p) (pos_MinBalance p))) positions |}.

Definition PositionCount m : nat := size (mg_positions m).

(** [None] when a balance of the row panics in [toMicro]. *)
Definition addPosition (pos : Position) m : option (Manager S) :=
  match toMicro (pos_Balance pos), toMicro (pos_Locked pos) with
  | Some b, Some l =>
      let p := mg_next m in
      let ps := {| ps_ID := pos_ID pos; ps_TenantID := pos_TenantID pos;
                   ps_Currency := pos_Currency pos; ps_Location := pos_Location pos;
                   ps_MinBalance := pos_MinBalance pos;
                   ps_TargetBalance := pos_TargetBalance pos; ps_balanceMicro := b;
                   ps_lockedMicro := l; ps_reservedMicro := 0; ps_dirty := false |} in
      Some (set_indexes (set_heap m (<[p := ps]> (mg_heap m))) (Datatypes.S p)
              (<[key_of ps := p]> (mg_positions m))
              (<[pos_TenantID pos := (default [] (mg_tenantIndex m !! pos_TenantID pos) ++ [p])%list]>
                 (mg_tenantIndex m)))
  | _, _ => None
  end.
End Operations.
