(* ===== verification/TreasuryFacts.v ===== *)
(** * treasury: what each operation does

    The atomic meaning of the manager's operations.  [effect] says that an
    operation either fails and leaves every counter as it was, or meets an
    idempotency key that is already held and changes nothing, or claims the
    key and applies one transformation to the counters of one position.  The
    six operations are shown to be effects ([Reserve_effect], ...), and the
    properties of the treasury are consequences: rollback on every error
    path, idempotency, solvency, conservation. *)

From Stdlib Require Import Ascii QArith Lqa.
From S2P Require Import Prelude ThirdParty Money Treasury.
Local Open Scope string_scope.
Local Open Scope Z_scope.

(** ** Views of the state *)

Section Views.
Context {L : ThirdParty} {S : Type}.
Implicit Types m : Manager S.

(** Balance, locked and reserved of a position. *)
Record counters := Cnt { c_bal : Z; c_lock : Z; c_res : Z }.

Definition counters_of (ps : PositionState) : counters :=
  Cnt (ps_balanceMicro ps) (ps_lockedMicro ps) (ps_reservedMicro ps).

Definition counters_at (p : nat) m : option counters := counters_of <$> mg_heap m !! p.

(** Everything of a position but its counters and dirty flag. *)
Definition meta (ps : PositionState) :=
  (ps_ID ps, ps_TenantID ps, ps_Currency ps, ps_Location ps,
   ps_MinBalance ps, ps_TargetBalance ps).

Definition held (k : string) m : Prop :=
  is_Some (shard_at (mg_idempotencyShards m) (idempotencyShardFor k) !! k).

(** The indexes and the immutable parts of the positions are the same. *)
Record framed m m' : Prop := {
  fr_positions : mg_positions m' = mg_positions m;
  fr_tenantIndex : mg_tenantIndex m' = mg_tenantIndex m;
  fr_next : mg_next m' = mg_next m;
  fr_shards : length (mg_idempotencyShards m') = length (mg_idempotencyShards m);
  fr_failures : mg_consecutiveFlushFailures m' = mg_consecutiveFlushFailures m;
  fr_meta : forall p, meta <$> mg_heap m' !! p = meta <$> mg_heap m !! p;
}.

(** Framed, and no counter moved. *)
Record calm m m' : Prop := {
  ca_framed : framed m m';
  ca_counters : forall p, counters_at p m' = counters_at p m;
}.

(** Calm, and the idempotency shards are the same. *)
Record quiet m m' : Prop := {
  qu_calm : calm m m';
  qu_shards : mg_idempotencyShards m' = mg_idempotencyShards m;
}.

(** Well-formed managers: sixteen shards, indexes that point to the position
    they name, counters that are int64 values. *)
Record wf m : Prop := {
  wf_shards : length (mg_idempotencyShards m) = 16%nat;
  wf_index : forall key p, mg_positions m !! key = Some p ->
    exists ps, mg_heap m !! p = Some ps /\ key_of ps = key;
  wf_range : forall p c, counters_at p m = Some c ->
    in_int64 (c_bal c) /\ in_int64 (c_lock c) /\ in_int64 (c_res c);
  wf_fresh : forall p, is_Some (mg_heap m !! p) -> (p < mg_next m)%nat;
}.

(** What an operation may do: [f] is the transformation of the counters it
    stands for, [None] where its guard rejects. *)
Definition effect (k : string) (key : positionKey) (f : counters -> option counters)
    (m : Manager S) (out : result unit * Manager S) : Prop :=
  let '(r, m') := out in
  (exists e, r = Err e /\ calm m m' /\ ((forall t, e <> PanicErr t) -> held k m' -> held k m))
  \/ (r = Ok tt /\ held k m /\ m' = m)
  \/ (r = Ok tt /\ ~ held k m /\ held k m' /\ framed m m' /\
      exists p c c', mg_positions m !! key = Some p /\ counters_at p m = Some c
        /\ f c = Some c' /\ counters_at p m' = Some c'
        /\ forall q, q <> p -> counters_at q m' = counters_at q m).

(** The micro-units of an amount, zero where [toMicro] panics. *)
Definition micro (amount : Decimal) : Z := default 0 (toMicro amount).
End Views.

(** ** The transformations *)

Definition avail64 (c : counters) : Z := sub64 (sub64 (c_bal c) (c_lock c)) (c_res c).

Definition reserve_f (a : Z) (c : counters) : option counters :=
  if avail64 c <? a then None else Some (Cnt (c_bal c) (c_lock c) (add64 (c_res c) a)).
Definition release_f (a : Z) (c : counters) : option counters :=
  if c_res c <? a then None else Some (Cnt (c_bal c) (c_lock c) (sub64 (c_res c) a)).
Definition commit_f (a : Z) (c : counters) : option counters :=
  if c_res c <? a then None
  else Some (Cnt (c_bal c) (add64 (c_lock c) a) (sub64 (c_res c) a)).
Definition credit_f (a : Z) (c : counters) : option counters :=
  Some (Cnt (add64 (c_bal c) a) (c_lock c) (c_res c)).
Definition debit_f (a : Z) (c : counters) : option counters :=
  if avail64 c <? a then None else Some (Cnt (sub64 (c_bal c) a) (c_lock c) (c_res c)).
Definition consume_f (a : Z) (c : counters) : option counters :=
  if c_res c <? a then None
  else if c_bal c <? a then None
  else Some (Cnt (sub64 (c_bal c) a) (c_lock c) (sub64 (c_res c) a)).

(** ** Helper lemmas *)

Section Helpers.
Context {L : ThirdParty} {S : Type} {TS : TreasuryStore S}.
Implicit Types m : Manager S.

#[global] Instance framed_preorder : PreOrder (framed (S := S)).
Proof.
  split; [by split|].
  intros m1 m2 m3 [] []. split; congruence.
Qed.

#[global] Instance calm_preorder : PreOrder (calm (S := S)).
Proof.
  split; [by split|]. intros m1 m2 m3 [H1 H2] [H1' H2']. split; [by etrans|].
  intros p. by rewrite H2'.
Qed.

#[global] Instance quiet_preorder : PreOrder (quiet (S := S)).
Proof.
  split; [by split|]. intros m1 m2 m3 [H1 H2] [H1' H2']. split; [by etrans|congruence].
Qed.

Lemma held_shards k m m' :
  mg_idempotencyShards m' = mg_idempotencyShards m -> held k m' <-> held k m.
Proof. unfold held. by intros ->. Qed.

Lemma quiet_held k m m' : quiet m m' -> held k m' <-> held k m.
Proof. intros [_ H]. by apply held_shards. Qed.

(** Changing a record under a pointer without touching meta and counters. *)
Lemma heap_update_framed m h :
  (forall p, meta <$> h !! p = meta <$> mg_heap m !! p) -> framed m (set_heap m h).
Proof. by split. Qed.

Lemma set_dirty_quiet p ps d ds m :
  mg_heap m !! p = Some ps ->
  quiet m (set_dirtySet (set_heap m (<[p := set_dirty ps d]> (mg_heap m))) ds).
Proof.
  intros Hp. split; [|done]. split.
  - split; try done. intros q. simpl. rewrite lookup_insert. case_decide; [|done].
    by simplify_eq; rewrite Hp.
  - intros q. unfold counters_at. simpl. rewrite lookup_insert. case_decide; [|done].
    by simplify_eq; rewrite Hp.
Qed.

Lemma markDirty_quiet p m : quiet m (markDirty p m).
Proof.
  unfold markDirty, deref. destruct (mg_heap m !! p) eqn:E; [|done].
  by apply set_dirty_quiet.
Qed.

Lemma set_io_quiet m s ops evs al : quiet m (set_io m s ops evs al).
Proof. by repeat split. Qed.

Lemma queueEvent_quiet env i p ty a ref rt m : quiet m (queueEvent env i p ty a ref rt m).
Proof. unfold queueEvent. repeat case_match; first [reflexivity | apply set_io_quiet]. Qed.

Lemma publishLiquidityAlert_quiet p m : quiet m (publishLiquidityAlert p m).
Proof.
  unfold publishLiquidityAlert. repeat case_match; first [reflexivity | apply set_io_quiet].
Qed.

Lemma logOp_quiet env i t c l a ref o m r m' :
  logOp env i t c l a ref o m = (r, m') -> quiet m m'.
Proof.
  unfold logOp. intros H. repeat case_match; simplify_eq/=;
    first [reflexivity | apply set_io_quiet | by repeat split].
Qed.

Lemma syncFlushPosition_quiet p m r m' :
  syncFlushPosition p m = (r, m') -> quiet m m'.
Proof.
  unfold syncFlushPosition, deref. intros H. repeat case_match; simplify_eq/=.
  - etrans; [apply (set_io_quiet m s (mg_pendingOps m) (mg_pendingEvents m) (mg_alerts m))|].
    by apply (set_dirty_quiet p _ _ _ (set_io m s _ _ _)).
  - apply set_io_quiet.
  - done.
Qed.

Lemma set_shard_calm m i x : calm m (set_shards m (<[i := x]> (mg_idempotencyShards m))).
Proof. by repeat split; simpl; rewrite ?length_insert. Qed.

Lemma rollbackIdempotency_calm ref op m : calm m (rollbackIdempotency ref op m).
Proof. apply set_shard_calm. Qed.

Lemma shard_at_insert (shards : list (gmap string Z)) i x :
  (i < length shards)%nat -> shard_at (<[i := x]> shards) i = x.
Proof. intros. unfold shard_at. by rewrite list_lookup_insert_eq. Qed.

Lemma idempotencyShardFor_lt k : (idempotencyShardFor k < 16)%nat.
Proof.
  unfold idempotencyShardFor. pose proof (Z.mod_pos_bound (fnv32a k) 16 ltac:(lia)). lia.
Qed.

Lemma rollbackIdempotency_held ref op m :
  length (mg_idempotencyShards m) = 16%nat ->
  ~ held (idempotencyKey ref op) (rollbackIdempotency ref op m).
Proof.
  intros Hl. unfold held, rollbackIdempotency. simpl.
  rewrite shard_at_insert by (rewrite Hl; apply idempotencyShardFor_lt).
  rewrite lookup_delete_eq. by intros [? ?].
Qed.

Lemma tryAcquire_spec env ref op m held' m' :
  length (mg_idempotencyShards m) = 16%nat ->
  tryAcquireIdempotency env ref op m = (held', m') ->
  if held' then held (idempotencyKey ref op) m /\ m' = m
  else ~ held (idempotencyKey ref op) m /\ held (idempotencyKey ref op) m' /\ calm m m'
       /\ length (mg_idempotencyShards m') = 16%nat.
Proof.
  intros Hl. unfold tryAcquireIdempotency. case_bool_decide as Hh; intros [= <- <-].
  { by split. }
  split_and!; [done| |apply set_shard_calm|by simpl; rewrite length_insert].
  unfold held. simpl. rewrite shard_at_insert by (rewrite Hl; apply idempotencyShardFor_lt).
  rewrite lookup_insert_eq. by eexists.
Qed.

(** *** Counter assignments *)

Lemma store_counters_framed p b l r m : framed m (store_counters p b l r m).
Proof.
  unfold store_counters, deref. destruct (mg_heap m !! p) eqn:E; [|done].
  apply heap_update_framed. intros q. rewrite lookup_insert. case_decide; [|done].
  by simplify_eq; rewrite E.
Qed.

Lemma store_counters_at p b l r m c q :
  counters_at p m = Some c ->
  counters_at q (store_counters p b l r m) =
  if decide (p = q) then Some (Cnt b l r) else counters_at q m.
Proof.
  unfold store_counters, counters_at, deref.
  destruct (mg_heap m !! p) eqn:E; [|done]. intros _. simpl.
  rewrite lookup_insert. by case_decide.
Qed.

Lemma store_counters_shards p b l r m :
  mg_idempotencyShards (store_counters p b l r m) = mg_idempotencyShards m.
Proof. unfold store_counters. by case_match. Qed.

Lemma deref_counters p m ps :
  deref p m = Some ps -> counters_at p m = Some (counters_of ps).
Proof. unfold deref, counters_at. by intros ->. Qed.

(** The three additions as assignments. *)
Lemma addReserved_store p d m c :
  counters_at p m = Some c ->
  addReserved p d m = store_counters p (c_bal c) (c_lock c) (add64 (c_res c) d) m.
Proof.
  unfold addReserved, counters_at, deref. destruct (mg_heap m !! p); [|done].
  by intros [= <-].
Qed.

Lemma addLocked_store p d m c :
  counters_at p m = Some c ->
  addLocked p d m = store_counters p (c_bal c) (add64 (c_lock c) d) (c_res c) m.
Proof.
  unfold addLocked, counters_at, deref. destruct (mg_heap m !! p); [|done].
  by intros [= <-].
Qed.

Lemma addBalance_store p d m c :
  counters_at p m = Some c ->
  addBalance p d m = store_counters p (add64 (c_bal c) d) (c_lock c) (c_res c) m.
Proof.
  unfold addBalance, counters_at, deref. destruct (mg_heap m !! p); [|done].
  by intros [= <-].
Qed.

(** *** One position moved

    [moved p c m m']: the counters of [p] are [c] in [m'], and nothing else
    that matters differs from [m]. *)

Definition moved (p : nat) (c : counters) m m' : Prop :=
  framed m m' /\ mg_idempotencyShards m' = mg_idempotencyShards m
  /\ forall q, counters_at q m' = if decide (p = q) then Some c else counters_at q m.

Lemma moved_at p c m m' : moved p c m m' -> counters_at p m' = Some c.
Proof. intros (_ & _ & H). by rewrite H, decide_True. Qed.

Lemma moved_store p b l r m c :
  counters_at p m = Some c -> moved p (Cnt b l r) m (store_counters p b l r m).
Proof.
  intros Hc. split_and!; [apply store_counters_framed|apply store_counters_shards|].
  intros q. by eapply store_counters_at.
Qed.

Lemma moved_trans p c1 c2 m1 m2 m3 :
  moved p c1 m1 m2 -> moved p c2 m2 m3 -> moved p c2 m1 m3.
Proof.
  intros (F1 & S1 & C1) (F2 & S2 & C2). split_and!; [by etrans|congruence|].
  intros q. rewrite C2, C1. by case_decide.
Qed.

Lemma moved_quiet p c m1 m2 m3 : moved p c m1 m2 -> quiet m2 m3 -> moved p c m1 m3.
Proof.
  intros (F1 & S1 & C1) [[F2 C2] S2]. split_and!; [by etrans|congruence|].
  intros q. by rewrite C2, C1.
Qed.

Lemma moved_addReserved p c d m1 m2 :
  moved p c m1 m2 ->
  moved p (Cnt (c_bal c) (c_lock c) (add64 (c_res c) d)) m1 (addReserved p d m2).
Proof.
  intros H. pose proof (moved_at _ _ _ _ H). rewrite (addReserved_store _ _ _ c) by done.
  eapply moved_trans; [done|]. by eapply moved_store.
Qed.

Lemma moved_addLocked p c d m1 m2 :
  moved p c m1 m2 ->
  moved p (Cnt (c_bal c) (add64 (c_lock c) d) (c_res c)) m1 (addLocked p d m2).
Proof.
  intros H. pose proof (moved_at _ _ _ _ H). rewrite (addLocked_store _ _ _ c) by done.
  eapply moved_trans; [done|]. by eapply moved_store.
Qed.

Lemma moved_addBalance p c d m1 m2 :
  moved p c m1 m2 ->
  moved p (Cnt (add64 (c_bal c) d) (c_lock c) (c_res c)) m1 (addBalance p d m2).
Proof.
  intros H. pose proof (moved_at _ _ _ _ H). rewrite (addBalance_store _ _ _ c) by done.
  eapply moved_trans; [done|]. by eapply moved_store.
Qed.

Lemma moved_refl p c m : counters_at p m = Some c -> moved p c m m.
Proof. intros H. split_and!; [done|done|]. intros q. case_decide; by subst. Qed.

Lemma moved_back p c c' m m' :
  counters_at p m = Some c -> moved p c' m m' -> c' = c -> calm m m'.
Proof.
  intros Hc (F & _ & C) ->. split; [done|]. intros q. rewrite C. case_decide; by subst.
Qed.

Lemma add64_sub64 a b : in_int64 a -> add64 (sub64 a b) b = a.
Proof. apply add64_cancel'. Qed.

(** *** Ways to end an operation *)

Section Endings.
Context (ref : UUID) (op : string) (key : positionKey) (f : counters -> option counters).
Abbreviation k := (idempotencyKey ref op).

Lemma effect_reject e m : effect k key f m (Err e, m).
Proof. left. exists e. split_and!; [done|reflexivity|tauto]. Qed.

Lemma effect_panic t m m1 : calm m m1 -> effect k key f m (Err (PanicErr t), m1).
Proof.
  intros H. left. exists (PanicErr t). split_and!; [done|done|]. intros Hn. by destruct (Hn t).
Qed.

Lemma effect_rollback e m m1 p c c' m2 :
  length (mg_idempotencyShards m1) = 16%nat ->
  calm m m1 -> counters_at p m1 = Some c -> moved p c' m1 m2 -> c' = c ->
  effect k key f m (Err e, rollbackIdempotency ref op m2).
Proof.
  intros Hl H1 Hc H2 ->. left. exists e. split_and!; [done| |].
  - etrans; [done|]. etrans; [|apply rollbackIdempotency_calm]. by eapply moved_back.
  - intros _ Hh. exfalso. revert Hh. apply rollbackIdempotency_held.
    destruct H2 as (_ & -> & _). done.
Qed.

Lemma effect_rollback0 e m m1 :
  length (mg_idempotencyShards m1) = 16%nat -> calm m m1 ->
  effect k key f m (Err e, rollbackIdempotency ref op m1).
Proof.
  intros Hl H1. left. exists e. split_and!; [done| |].
  - etrans; [done|apply rollbackIdempotency_calm].
  - intros _ Hh. exfalso. by apply (rollbackIdempotency_held ref op m1).
Qed.

Lemma effect_done m m1 m2 p c c' :
  calm m m1 -> ~ held k m -> held k m1 -> mg_positions m1 !! key = Some p ->
  counters_at p m1 = Some c -> f c = Some c' -> moved p c' m1 m2 ->
  effect k key f m (Ok tt, m2).
Proof.
  intros [F C] Hn Hh Hp Hc Hf Hm. pose proof (moved_at _ _ _ _ Hm) as Hat.
  destruct Hm as (F2 & S2 & C2).
  right. right. split_and!; [done|done|by apply (held_shards _ m1)|by etrans|].
  exists p, c, c'. rewrite <- (fr_positions _ _ F), <- C. split_and!; try done.
  intros q Hq. rewrite C2, decide_False by done. apply C.
Qed.

Lemma wf_calm m m1 :
  wf m -> calm m m1 -> length (mg_idempotencyShards m1) = 16%nat -> wf m1.
Proof.
  intros [Hl Hi Hr Hf] [[F1 F2 F3 _ _ F4] C] Hl1. split; [done| | |].
  - intros ky p. rewrite F1. intros (ps & Hp & <-)%Hi. specialize (F4 p). rewrite Hp in F4.
    destruct (mg_heap m1 !! p) as [ps1|] eqn:E; [|done]. exists ps1. split; [done|].
    unfold meta in F4. unfold key_of. simpl in F4. congruence.
  - intros p c. rewrite C. apply Hr.
  - intros p. rewrite F3, <- (fmap_is_Some meta), F4, fmap_is_Some. apply Hf.
Qed.

Lemma effect_op env t cur loc (body : nat -> Manager S -> result unit * Manager S) m :
  key = (t, cur, loc) -> wf m ->
  (forall m1 p ps, wf m1 -> calm m m1 -> ~ held k m -> held k m1 ->
    mg_positions m1 !! key = Some p -> deref p m1 = Some ps ->
    effect k key f m (body p m1)) ->
  effect k key f m
    (let '(h, m1) := tryAcquireIdempotency env ref op m in
     if h then (Ok tt, m1)
     else match getPosition t cur loc m1 with
          | Err e => (Err e, rollbackIdempotency ref op m1)
          | Ok p => body p m1
          end).
Proof.
  intros Hk Hwf Hbody. destruct (tryAcquireIdempotency env ref op m) as [h m1] eqn:E.
  apply tryAcquire_spec in E; [|apply Hwf]. destruct h.
  { destruct E as [Hh ->]. right. left. done. }
  destruct E as (Hn & Hh & Hc & Hl). pose proof (wf_calm _ _ Hwf Hc Hl) as Hwf1.
  unfold getPosition. rewrite <- Hk. destruct (mg_positions m1 !! key) as [p|] eqn:Hp.
  - destruct (wf_index _ Hwf1 _ _ Hp) as (ps & Hps & _). by eapply Hbody.
  - by apply effect_rollback0.
Qed.

(** The log write and the synchronous flush: an error runs [undo]. *)
Lemma effect_logOp env i t cur loc a r o undo rest m m1 m2 p c c' :
  wf m1 -> calm m m1 -> counters_at p m1 = Some c -> moved p c' m1 m2 ->
  (forall m3, moved p c' m1 m3 -> exists c2, moved p c2 m1 (undo m3) /\ c2 = c) ->
  (forall m3, moved p c' m1 m3 -> effect k key f m (rest m3)) ->
  effect k key f m
    (match logOp env i t cur loc a r o m2 with
     | (Err e, m3) => (Err e, rollbackIdempotency ref op (undo m3))
     | (Ok _, m3) => rest m3
     end).
Proof.
  intros Hwf Hcalm Hc Hm Hundo Hrest.
  destruct (logOp env i t cur loc a r o m2) as [res m3] eqn:E. apply logOp_quiet in E.
  pose proof (moved_quiet _ _ _ _ _ Hm E) as Hm3. destruct res; [by apply Hrest|].
  destruct (Hundo _ Hm3) as (c2 & Hu & Hc2). by eapply effect_rollback; [apply Hwf| | | |].
Qed.

Lemma effect_sync ctx undo rest m m1 m2 p c c' :
  wf m1 -> calm m m1 -> counters_at p m1 = Some c -> moved p c' m1 m2 ->
  (forall m3, moved p c' m1 m3 -> exists c2, moved p c2 m1 (undo m3) /\ c2 = c) ->
  (forall m3, moved p c' m1 m3 -> effect k key f m (rest m3)) ->
  effect k key f m
    (match syncFlushPosition p m2 with
     | (Err e, m3) => (Err (WrapErr ctx e), rollbackIdempotency ref op (undo m3))
     | (Ok _, m3) => rest m3
     end).
Proof.
  intros Hwf Hcalm Hc Hm Hundo Hrest.
  destruct (syncFlushPosition p m2) as [res m3] eqn:E. apply syncFlushPosition_quiet in E.
  pose proof (moved_quiet _ _ _ _ _ Hm E) as Hm3. destruct res; [by apply Hrest|].
  destruct (Hundo _ Hm3) as (c2 & Hu & Hc2). by eapply effect_rollback; [apply Hwf| | | |].
Qed.
End Endings.

Lemma toMicro_validated amount : validateMicroRange amount = Ok tt ->
  toMicro amount = Some (micro amount).
Proof. unfold validateMicroRange, micro, toMicro. by destruct (outOfMicroRange amount). Qed.

Lemma wf_int64 m p ps : wf m -> deref p m = Some ps ->
  in_int64 (ps_balanceMicro ps) /\ in_int64 (ps_lockedMicro ps) /\ in_int64 (ps_reservedMicro ps).
Proof. intros Hwf Hd%deref_counters. by apply (wf_range _ Hwf) in Hd. Qed.

Lemma syncFlush_snd_quiet p m : quiet m (syncFlushPosition p m).2.
Proof. destruct (syncFlushPosition p m) eqn:E. by apply syncFlushPosition_quiet in E. Qed.
End Helpers.

Create HintDb treasury.
#[global] Hint Resolve markDirty_quiet queueEvent_quiet publishLiquidityAlert_quiet
  syncFlush_snd_quiet : treasury.

(** [op_begin] runs the guards and the claim of the idempotency key, and
    leaves the body at the position found. *)
Ltac op_begin :=
  let rec guards :=
    first
      [ eapply effect_op; [reflexivity | assumption |]
      | lazymatch goal with
        | |- effect _ _ _ _ (if ?b then (Err _, _) else _) =>
            destruct b; [apply effect_reject|]; guards
        | |- effect _ _ _ _ (match validateMicroRange ?a with _ => _ end) =>
            destruct (validateMicroRange a) as [[]|] eqn:?; [|apply effect_reject]; guards
        end ] in
  intros Hwf; guards;
  intros m1 p ps Hwf1 Hcalm Hn Hh Hp Hd;
  pose proof (deref_counters _ _ _ Hd) as Hc;
  destruct (wf_int64 _ _ _ Hwf1 Hd) as (Hb & Hl & Hr);
  try (rewrite toMicro_validated by assumption); try rewrite Hd.

(** Steps that keep the counters, and the undoing of an addition. *)
Ltac moving :=
  repeat first
    [ eassumption
    | eapply moved_quiet; [|solve [eauto with treasury]]
    | eapply moved_store; eassumption ].

Ltac undoing :=
  let x := fresh "m" in let H := fresh "Hm" in
  intros x H; eexists; split;
  [ repeat first [eapply moved_addReserved | eapply moved_addLocked | eapply moved_addBalance];
    eassumption
  | unfold counters_of; simpl; f_equal; first [by apply add64_cancel | by apply add64_sub64] ].

(** The success: whatever is left to run keeps the counters. *)
Ltac op_end :=
  cbv beta zeta; repeat case_match; simplify_eq; eapply effect_done; try eassumption; moving.

(** ** The operations are effects *)

Section Effects.
Context {L : ThirdParty} {S : Type} `{TS : !TreasuryStore S}.
Implicit Types m : Manager S.

Lemma Reserve_effect env t cur loc amount ref m :
  wf m ->
  effect (idempotencyKey ref "reserve") (t, cur, loc) (reserve_f (micro amount)) m
    (Reserve env t cur loc amount ref m).
Proof.
  unfold Reserve. op_begin.
  destruct (available64 ps <? micro amount) eqn:Hav.
  { apply effect_rollback0; [apply Hwf1|done]. }
  assert (reserve_f (micro amount) (counters_of ps) = Some
    (Cnt (ps_balanceMicro ps) (ps_lockedMicro ps) (add64 (ps_reservedMicro ps) (micro amount))))
    as Hf by (unfold reserve_f, avail64; unfold available64 in Hav; simpl; by rewrite Hav).
  eapply effect_logOp; [done|done|done|moving|undoing|]. intros m3 Hm3. cbv beta zeta.
  case_match.
  - eapply effect_sync; [done|done|done|done|undoing|]. intros m4 Hm4. op_end.
  - op_end.
Qed.

Lemma Release_effect env t cur loc amount ref m :
  wf m ->
  effect (idempotencyKey ref "release") (t, cur, loc) (release_f (micro amount)) m
    (Release env t cur loc amount ref m).
Proof.
  unfold Release. op_begin.
  destruct (ps_reservedMicro ps <? micro amount) eqn:Hav.
  { apply effect_rollback0; [apply Hwf1|done]. }
  assert (release_f (micro amount) (counters_of ps) = Some
    (Cnt (ps_balanceMicro ps) (ps_lockedMicro ps) (sub64 (ps_reservedMicro ps) (micro amount))))
    as Hf by (unfold release_f; simpl; by rewrite Hav).
  eapply effect_logOp; [done|done|done|moving|undoing|]. intros m3 Hm3. op_end.
Qed.

Lemma CommitReservation_effect env t cur loc amount ref m :
  wf m ->
  effect (idempotencyKey ref "commit") (t, cur, loc) (commit_f (micro amount)) m
    (CommitReservation env t cur loc amount ref m).
Proof.
  unfold CommitReservation. op_begin.
  destruct (toMicro amount) as [a|] eqn:Ha; [|by apply effect_panic].
  assert (micro amount = a) as -> by (unfold micro; by rewrite Ha).
  destruct (ps_reservedMicro ps <? a) eqn:Hav.
  { apply effect_rollback0; [apply Hwf1|done]. }
  assert (commit_f a (counters_of ps) = Some
    (Cnt (ps_balanceMicro ps) (add64 (ps_lockedMicro ps) a) (sub64 (ps_reservedMicro ps) a)))
    as Hf by (unfold commit_f; simpl; by rewrite Hav).
  eapply effect_logOp; [done|done|done| | |].
  - eapply moved_quiet; [|apply markDirty_quiet].
    apply (moved_addLocked _ (Cnt (ps_balanceMicro ps) (ps_lockedMicro ps)
             (sub64 (ps_reservedMicro ps) a))). moving.
  - undoing.
  - intros m3 Hm3. op_end.
Qed.

Lemma CreditBalance_effect env t cur loc amount ref rt m :
  wf m ->
  effect (idempotencyKey ref "credit") (t, cur, loc) (credit_f (micro amount)) m
    (CreditBalance env t cur loc amount ref rt m).
Proof.
  unfold CreditBalance. op_begin.
  eapply effect_logOp; [done|done|done| | |].
  - do 2 (eapply moved_quiet; [|solve [eauto with treasury]]).
    apply (moved_addBalance _ (counters_of ps)). by apply moved_refl.
  - undoing.
  - intros m3 Hm3. cbv beta zeta.
    assert (credit_f (micro amount) (counters_of ps) = Some
      (Cnt (add64 (ps_balanceMicro ps) (micro amount)) (ps_lockedMicro ps) (ps_reservedMicro ps)))
      as Hf by done.
    case_match; [|op_end].
    eapply effect_sync; [done|done|done|done|undoing|]. intros m4 Hm4. op_end.
Qed.

Lemma DebitBalance_effect env t cur loc amount ref rt m :
  wf m ->
  effect (idempotencyKey ref "debit") (t, cur, loc) (debit_f (micro amount)) m
    (DebitBalance env t cur loc amount ref rt m).
Proof.
  unfold DebitBalance. op_begin.
  destruct (available64 ps <? micro amount) eqn:Hav.
  { apply effect_rollback0; [apply Hwf1|done]. }
  assert (debit_f (micro amount) (counters_of ps) = Some
    (Cnt (sub64 (ps_balanceMicro ps) (micro amount)) (ps_lockedMicro ps) (ps_reservedMicro ps)))
    as Hf by (unfold debit_f, avail64; unfold available64 in Hav; simpl; by rewrite Hav).
  eapply effect_logOp; [done|done|done|moving|undoing|]. intros m3 Hm3. op_end.
Qed.

Lemma ConsumeReservation_effect env t cur loc amount ref m :
  wf m ->
  effect (idempotencyKey ref "consume") (t, cur, loc) (consume_f (micro amount)) m
    (ConsumeReservation env t cur loc amount ref m).
Proof.
  unfold ConsumeReservation. op_begin.
  destruct (ps_reservedMicro ps <? micro amount) eqn:Hav.
  { apply effect_rollback0; [apply Hwf1|done]. }
  destruct (ps_balanceMicro ps <? micro amount) eqn:Hbal.
  { apply effect_rollback0; [apply Hwf1|done]. }
  assert (consume_f (micro amount) (counters_of ps) = Some
    (Cnt (sub64 (ps_balanceMicro ps) (micro amount)) (ps_lockedMicro ps)
         (sub64 (ps_reservedMicro ps) (micro amount))))
    as Hf by (unfold consume_f; simpl; by rewrite Hav, Hbal).
  eapply effect_logOp; [done|done|done|moving|undoing|]. intros m3 Hm3. op_end.
Qed.
End Effects.

(** ** Keys and writes

    Whatever an operation does, the only key held afterwards that was not
    held before is its own. *)

Section Keys.
Context {L : ThirdParty} {S : Type} `{TS : !TreasuryStore S}.
Implicit Types m : Manager S.

Definition only_key (k : string) m m' : Prop := forall k', held k' m' -> held k' m \/ k' = k.

Lemma only_key_refl k m : only_key k m m.
Proof. intros k' Hk. by left. Qed.

Lemma only_key_quiet k m m1 m2 : only_key k m m1 -> mg_idempotencyShards m2 = mg_idempotencyShards m1 -> only_key k m m2.
Proof. intros H E k' Hk. apply H. by apply (held_shards k' m1 m2). Qed.

Lemma purge_sub c (items : gmap string Z) k : is_Some (purge c items !! k) -> is_Some (items !! k).
Proof. intros [z [H _]%map_lookup_filter_Some]. by exists z. Qed.

Lemma held_insert (m : Manager S) i x k : held k (set_shards m (<[i := x]> (mg_idempotencyShards m))) ->
  (idempotencyShardFor k = i /\ is_Some (x !! k)) \/ held k m.
Proof.
  unfold held, shard_at. simpl. destruct (decide (idempotencyShardFor k = i)) as [->|Hne].
  - destruct (decide (i < length (mg_idempotencyShards m))%nat).
    + rewrite list_lookup_insert_eq by done. by left.
    + rewrite list_insert_ge by lia. by right.
  - rewrite list_lookup_insert_ne by done. by right.
Qed.

Lemma only_key_acquire env ref op m : only_key (idempotencyKey ref op) m (tryAcquireIdempotency env ref op m).2.
Proof.
  intros k. unfold tryAcquireIdempotency. case_bool_decide; [by left|]. simpl.
  intros [[Hi Hk]|?]%held_insert; [|by left]. apply lookup_insert_is_Some in Hk as [->|[_ Hk]]; [by right|]. left.
  unfold held. rewrite Hi. case_match; [by eapply purge_sub|done].
Qed.

Lemma only_key_rollback k ref op m m1 : only_key k m m1 -> only_key k m (rollbackIdempotency ref op m1).
Proof.
  intros H k'. unfold rollbackIdempotency. intros [[Hi Hk]|Hk]%held_insert; [|by apply H].
  apply H. unfold held. rewrite Hi. by apply lookup_delete_is_Some in Hk as [_ Hk].
Qed.

Lemma addReserved_shards p d m : mg_idempotencyShards (addReserved p d m) = mg_idempotencyShards m.
Proof. unfold addReserved. case_match; [apply store_counters_shards|done]. Qed.
Lemma addLocked_shards p d m : mg_idempotencyShards (addLocked p d m) = mg_idempotencyShards m.
Proof. unfold addLocked. case_match; [apply store_counters_shards|done]. Qed.
Lemma addBalance_shards p d m : mg_idempotencyShards (addBalance p d m) = mg_idempotencyShards m.
Proof. unfold addBalance. case_match; [apply store_counters_shards|done]. Qed.
Lemma markDirty_shards p m : mg_idempotencyShards (markDirty p m) = mg_idempotencyShards m.
Proof. apply markDirty_quiet. Qed.
Lemma queueEvent_shards env i p ty a ref rt m : mg_idempotencyShards (queueEvent env i p ty a ref rt m) = mg_idempotencyShards m.
Proof. apply queueEvent_quiet. Qed.
Lemma publishLiquidityAlert_shards p m : mg_idempotencyShards (publishLiquidityAlert p m) = mg_idempotencyShards m.
Proof. apply publishLiquidityAlert_quiet. Qed.

Lemma only_key_log k env i t c l a ref o m0 m r m' : logOp env i t c l a ref o m = (r, m') -> only_key k m0 m -> only_key k m0 m'.
Proof. intros [_ E]%logOp_quiet H. by eapply only_key_quiet. Qed.

Lemma only_key_sync k p m0 m r m' : syncFlushPosition p m = (r, m') -> only_key k m0 m -> only_key k m0 m'.
Proof. intros [_ E]%syncFlushPosition_quiet H. by eapply only_key_quiet. Qed.

Lemma only_key_flushed k p m0 m : only_key k m0 m -> only_key k m0 (syncFlushPosition p m).2.
Proof. intros H. eapply only_key_sync, H. apply surjective_pairing. Qed.

(** *** When keys were claimed *)

(** The time at which a key was claimed, while it is in the map. *)
Definition stamp (k : string) m : option Z := shard_at (mg_idempotencyShards m) (idempotencyShardFor k) !! k.

(** A key claimed at [t0] is safe from the clean-ups that run at [now]: of
    those forced by a full shard for two minutes, and of the others for ten
    while no shard is full. *)
Definition lasting (t0 now : Z) m : Prop :=
  now <= t0 + forcedCleanupMaxAge
  \/ now <= t0 + 10 * 60 * 1000000000 /\ Forall (fun items => Z.of_nat (size items) < shardLimit) (mg_idempotencyShards m).

(** Every key but [k] that was claimed at a time in [P] keeps its time. *)
Definition keeps (k : string) (P : Z -> Prop) m m' : Prop :=
  forall k' t, k' <> k -> P t -> stamp k' m = Some t -> stamp k' m' = Some t.

Lemma keeps_refl k P m : keeps k P m m.
Proof. by intros k' t. Qed.

Lemma keeps_quiet k P m m1 m2 : keeps k P m m1 -> mg_idempotencyShards m2 = mg_idempotencyShards m1 -> keeps k P m m2.
Proof. intros H E k' t H1 H2 H3. unfold stamp. rewrite E. by apply H. Qed.

Lemma stamp_insert (m : Manager S) i x k t : stamp k m = Some t -> (idempotencyShardFor k = i -> x !! k = Some t) ->
  stamp k (set_shards m (<[i := x]> (mg_idempotencyShards m))) = Some t.
Proof.
  unfold stamp, shard_at. simpl. intros Hk Hx. destruct (decide (idempotencyShardFor k = i)) as [<-|Hne].
  - rewrite list_lookup_insert_eq; [by apply Hx|]. apply lookup_lt_is_Some.
    by destruct (mg_idempotencyShards m !! idempotencyShardFor k).
  - by rewrite list_lookup_insert_ne.
Qed.

Lemma purge_keeps c (items : gmap string Z) k t : items !! k = Some t -> c <= t -> purge c items !! k = Some t.
Proof. intros H Hc. apply map_lookup_filter_Some. split; [done|]. simpl. lia. Qed.

Lemma lasting_shard t0 now m i : lasting t0 now m -> (i < length (mg_idempotencyShards m))%nat ->
  now - forcedCleanupMaxAge <= t0 \/ Z.of_nat (size (shard_at (mg_idempotencyShards m) i)) < shardLimit.
Proof.
  intros [H|[_ H]] Hi; [left; lia|right]. apply lookup_lt_is_Some in Hi as [x Hx]. unfold shard_at. rewrite Hx.
  by apply (Forall_lookup_1 _ _ _ _ H Hx).
Qed.

Lemma keeps_acquire env ref op m t0 : lasting t0 (env_now env) m ->
  keeps (idempotencyKey ref op) (fun t => t0 <= t) m (tryAcquireIdempotency env ref op m).2.
Proof.
  intros Hl k t Hk Ht Hs. unfold tryAcquireIdempotency. case_bool_decide; [done|]. simpl. apply stamp_insert; [done|].
  intros Hi. rewrite lookup_insert_ne by done. unfold stamp in Hs. rewrite Hi in Hs.
  destruct (Z.leb_spec shardLimit (Z.of_nat (size (shard_at (mg_idempotencyShards m) (idempotencyShardFor (idempotencyKey ref op)))))) as [Hf|]; [|done].
  apply purge_keeps; [done|]. destruct (lasting_shard t0 (env_now env) m (idempotencyShardFor (idempotencyKey ref op)) Hl); [|lia|lia].
  unfold shard_at in Hs. apply lookup_lt_is_Some. by destruct (mg_idempotencyShards m !! _).
Qed.

Lemma keeps_rollback P ref op m m1 : keeps (idempotencyKey ref op) P m m1 ->
  keeps (idempotencyKey ref op) P m (rollbackIdempotency ref op m1).
Proof.
  intros H k t Hk Ht Hs. unfold rollbackIdempotency. specialize (H k t Hk Ht Hs). apply stamp_insert; [done|].
  intros Hi. rewrite lookup_delete_ne by done. unfold stamp in H. by rewrite <- Hi.
Qed.

Lemma keeps_log k P env i t c l a ref o m0 m r m' : logOp env i t c l a ref o m = (r, m') -> keeps k P m0 m -> keeps k P m0 m'.
Proof. intros [_ E]%logOp_quiet H. by eapply keeps_quiet. Qed.

Lemma keeps_sync k P p m0 m r m' : syncFlushPosition p m = (r, m') -> keeps k P m0 m -> keeps k P m0 m'.
Proof. intros [_ E]%syncFlushPosition_quiet H. by eapply keeps_quiet. Qed.

Lemma keeps_flushed k P p m0 m : keeps k P m0 m -> keeps k P m0 (syncFlushPosition p m).2.
Proof. intros H. eapply keeps_sync, H. apply surjective_pairing. Qed.

(** The claim itself. *)
Lemma stamp_acquired env ref op m : length (mg_idempotencyShards m) = 16%nat ->
  (tryAcquireIdempotency env ref op m).1 = false ->
  stamp (idempotencyKey ref op) (tryAcquireIdempotency env ref op m).2 = Some (env_now env).
Proof.
  intros Hl. unfold tryAcquireIdempotency. case_bool_decide; [done|]. intros _. simpl. unfold stamp, shard_at. simpl.
  rewrite list_lookup_insert_eq by (rewrite Hl; apply idempotencyShardFor_lt). simpl. by rewrite lookup_insert_eq.
Qed.

Lemma stamp_quiet k m m' : mg_idempotencyShards m' = mg_idempotencyShards m -> stamp k m' = stamp k m.
Proof. unfold stamp. by intros ->. Qed.

(** The clean-up of the flush loop. *)
Lemma stamp_cleanup k t0 t now m : lasting t0 now m -> t0 <= t -> stamp k m = Some t ->
  stamp k (cleanupIdempotencyMap now (10 * 60 * 1000000000) m) = Some t.
Proof.
  intros Hl Ht Hs. unfold stamp, shard_at, cleanupIdempotencyMap in *. simpl. rewrite list_lookup_fmap.
  destruct (mg_idempotencyShards m !! idempotencyShardFor k) as [items|] eqn:E; [|done]. simpl in *. unfold cleanupShard.
  assert (purge (now - 10 * 60 * 1000000000) items !! k = Some t) as Hp.
  { apply purge_keeps; [done|]. destruct Hl as [H|[H _]]; unfold forcedCleanupMaxAge in *; lia. }
  destruct (Z.ltb_spec shardLimit (Z.of_nat (size (purge (now - 10 * 60 * 1000000000) items)))) as [Hf|]; [|done].
  apply purge_keeps; [done|]. destruct (lasting_shard t0 now m (idempotencyShardFor k) Hl) as [|Hsz]; [by apply lookup_lt_is_Some|lia|].
  unfold shard_at in Hsz. rewrite E in Hsz. simpl in Hsz.
  assert (size (purge (now - 10 * 60 * 1000000000) items) <= size items)%nat by apply map_size_filter. lia.
Qed.

(** *** Writes that are answered *)

(** The parts of the manager the log write reads. *)
Definition io m : S * list ReserveOp * bool := (mg_store m, mg_pendingOps m, mg_replaying m).

Lemma store_counters_io p b l r m : io (store_counters p b l r m) = io m.
Proof. unfold store_counters. by case_match. Qed.
Lemma addLocked_io p d m : io (addLocked p d m) = io m.
Proof. unfold addLocked. case_match; [apply store_counters_io|done]. Qed.
Lemma addBalance_io p d m : io (addBalance p d m) = io m.
Proof. unfold addBalance. case_match; [apply store_counters_io|done]. Qed.
Lemma markDirty_io p m : io (markDirty p m) = io m.
Proof. unfold markDirty. by case_match. Qed.
Lemma queueEvent_io env i p ty a ref rt m : io (queueEvent env i p ty a ref rt m) = io m.
Proof. unfold queueEvent. by repeat case_match. Qed.

(** The store takes a record of the log and, after it, the position. *)
Definition writes_ok (s : S) : Prop :=
  (forall log op, LogReserveOp = Some log -> exists u, (log op s).1 = Ok u /\ forall id b l, is_ok (UpdatePosition id b l (log op s).2).1 = true)
  /\ forall id b l, is_ok (UpdatePosition id b l s).1 = true.

Lemma logOp_answered env i t c l a ref o m m0 : io m = io m0 -> writes_ok (mg_store m0) ->
  Z.of_nat (length (mg_pendingOps m0)) < pendingOpsCap \/ env_drained env = true ->
  exists u m', logOp env i t c l a ref o m = (Ok u, m') /\ forall id b l, is_ok (UpdatePosition id b l (mg_store m')).1 = true.
Proof.
  intros E [W1 W2] Hr. unfold io in E. injection E as E1 E2 E3. unfold logOp. rewrite <- E1, <- E2 in *.
  destruct (mg_replaying m); [by eexists _, _|].
  set (op := {| ro_ID := _ |}). destruct LogReserveOp as [log|] eqn:El.
  - destruct (W1 log op eq_refl) as (u & Hu & Hup). destruct (log op (mg_store m)) as [r s']. simpl in *. subst r. simpl.
    destruct (Z.ltb_spec (Z.of_nat (length (mg_pendingOps m))) pendingOpsCap); [by eexists _, _|].
    destruct Hr as [?| ->]; [lia|]. by eexists _, _.
  - destruct (Z.ltb_spec (Z.of_nat (length (mg_pendingOps m))) pendingOpsCap); [by eexists _, _|].
    destruct Hr as [?| ->]; [lia|]. by eexists _, _.
Qed.

Lemma syncFlush_answered p m : is_Some (deref p m) -> (forall id b l, is_ok (UpdatePosition id b l (mg_store m)).1 = true) ->
  exists m', syncFlushPosition p m = (Ok tt, m').
Proof.
  intros [ps Hp] W. unfold syncFlushPosition. rewrite Hp. specialize (W (ps_ID ps) (fromMicro (ps_balanceMicro ps)) (fromMicro (ps_lockedMicro ps))).
  destruct (UpdatePosition _ _ _ _) as [[]]; [by eexists|done].
Qed.

Lemma framed_deref m m' p : framed m m' -> is_Some (deref p m) -> is_Some (deref p m').
Proof. unfold deref. intros F. by rewrite <- (fmap_is_Some meta), <- (fr_meta _ _ F), fmap_is_Some. Qed.
End Keys.

#[global] Hint Rewrite @store_counters_shards @addReserved_shards @addLocked_shards @addBalance_shards @markDirty_shards @queueEvent_shards
  @publishLiquidityAlert_shards : treasury_shards.

(** [keys_step] follows an operation to its end. *)
Ltac keys_step :=
  first
    [ assumption
    | apply only_key_refl
    | apply only_key_rollback
    | eapply only_key_log; [eassumption|]
    | eapply only_key_sync; [eassumption|]
    | apply only_key_flushed
    | eapply only_key_quiet; [|progress autorewrite with treasury_shards; reflexivity] ].

(** The same for the times of the keys. *)
Ltac keeps_step :=
  first
    [ assumption
    | apply keeps_refl
    | apply keeps_rollback
    | eapply keeps_log; [eassumption|]
    | eapply keeps_sync; [eassumption|]
    | apply keeps_flushed
    | eapply keeps_quiet; [|progress autorewrite with treasury_shards; reflexivity] ].
