(* ===== verification/TreasuryProps.v ===== *)
(** * treasury: correctness of the position manager

    The calls a client can make on the manager, the abstract treasury they
    implement, and the theorems: a failed call is rolled back, a repeated call
    is a no-op, the manager refines the abstract treasury, which is solvent
    and conserves money. *)

From Stdlib Require Import Ascii QArith Lqa.
From S2P Require Import Prelude ThirdParty Money Treasury TreasuryFacts.
Local Open Scope string_scope.
Local Open Scope Z_scope.

(** ** Calls *)

Section Calls.
Context {L : ThirdParty}.

(** A call of one of the six balance operations: the operation, the position
    it addresses, the amount and the reference that makes it idempotent. *)
Record Call := {
  cl_op : ReserveOpType;
  cl_tenant : UUID;
  cl_currency : Currency;
  cl_location : string;
  cl_amount : Decimal;
  cl_ref : UUID;
  cl_refType : string;
}.

Definition call_key (c : Call) : positionKey := (cl_tenant c, cl_currency c, cl_location c).
Definition call_idem (c : Call) : string := idempotencyKey (cl_ref c) (op_name (cl_op c)).

(** The transformation on [int64] counters. *)
Definition call_f (c : Call) : counters -> option counters :=
  let a := micro (cl_amount c) in
  match cl_op c with
  | OpReserve => reserve_f a | OpRelease => release_f a | OpCommit => commit_f a
  | OpConsume => consume_f a | OpCredit => credit_f a | OpDebit => debit_f a
  end.
End Calls.

Section Run.
Context {L : ThirdParty} {S : Type} `{TS : !TreasuryStore S}.
Implicit Types m : Manager S.

Definition run (env : Env) (c : Call) m : result unit * Manager S :=
  let 'Build_Call op t cur loc a ref rt := c in
  match op with
  | OpReserve => Reserve env t cur loc a ref m
  | OpRelease => Release env t cur loc a ref m
  | OpCommit => CommitReservation env t cur loc a ref m
  | OpConsume => ConsumeReservation env t cur loc a ref m
  | OpCredit => CreditBalance env t cur loc a ref rt m
  | OpDebit => DebitBalance env t cur loc a ref rt m
  end.

(** What a client sees of the counters, by position. *)
Definition abs m : gmap positionKey counters :=
  omap (fun p => counters_at p m) (mg_positions m).

(** What a call needs of its amount and of the services around the manager:
    flushes that do not keep failing, room in the log, writes that are
    answered. *)
Record serves (env : Env) (c : Call) m : Prop := {
  sv_amount : IsPositive (cl_amount c) = true;
  sv_range : validateMicroRange (cl_amount c) = Ok tt;
  sv_flushes : mg_consecutiveFlushFailures m < maxFlushFailuresBeforeReject;
  sv_room : Z.of_nat (length (mg_pendingOps m)) < pendingOpsCap \/ env_drained env = true;
  sv_store : writes_ok (mg_store m);
}.
End Run.

(** ** The abstract treasury

    Balances, locked and reserved amounts are integers without bounds, and the
    keys of the calls made so far are a set.  An operation is one atomic,
    guarded transformation of one position that uses up its key.  A call whose
    key is used is a repetition; a call may also fail.  Then nothing happens to
    the books. *)

Definition solvent (c : counters) : Prop :=
  0 <= c_lock c /\ 0 <= c_res c /\ c_lock c + c_res c <= c_bal c.

Definition available (c : counters) : Z := c_bal c - c_lock c - c_res c.

Definition spec_f (op : ReserveOpType) (a : Z) (c : counters) : option counters :=
  let 'Cnt b l r := c in
  match op with
  | OpReserve => if available c <? a then None else Some (Cnt b l (r + a))
  | OpRelease => if r <? a then None else Some (Cnt b l (r - a))
  | OpCommit => if r <? a then None else Some (Cnt b (l + a) (r - a))
  | OpConsume => if r <? a then None else if b <? a then None else Some (Cnt (b - a) l (r - a))
  | OpCredit => Some (Cnt (b + a) l r)
  | OpDebit => if available c <? a then None else Some (Cnt (b - a) l r)
  end.

Section Spec.
Context {L : ThirdParty}.

Record Books := { bk_counters : gmap positionKey counters; bk_used : string -> Prop }.

(** A panic keeps its key; old keys may be forgotten at any time. *)
Inductive spec_step (c : Call) : result unit -> Books -> Books -> Prop :=
| spec_fail e b b' :
    bk_counters b' = bk_counters b ->
    (forall k, bk_used b' k -> bk_used b k \/ (k = call_idem c /\ exists t, e = PanicErr t)) ->
    spec_step c (Err e) b b'
| spec_repeat b : bk_used b (call_idem c) -> spec_step c (Ok tt) b b
| spec_apply b b' k k' :
    ~ bk_used b (call_idem c) -> bk_used b' (call_idem c) ->
    (forall k0, bk_used b' k0 -> bk_used b k0 \/ k0 = call_idem c) ->
    bk_counters b !! call_key c = Some k -> spec_f (cl_op c) (micro (cl_amount c)) k = Some k' ->
    bk_counters b' = <[call_key c := k']> (bk_counters b) ->
    spec_step c (Ok tt) b b'.
End Spec.

(** Sums of the amounts of the applied calls of one operation. *)
Fixpoint total (op : ReserveOpType) (l : list (ReserveOpType * Z)) : Z :=
  match l with
  | [] => 0
  | (o, a) :: l' =>
      (match op, o with
       | OpReserve, OpReserve | OpRelease, OpRelease | OpCommit, OpCommit
       | OpConsume, OpConsume | OpCredit, OpCredit | OpDebit, OpDebit => a
       | _, _ => 0
       end) + total op l'
  end.

Section History.
Context {L : ThirdParty} {S : Type} `{TS : !TreasuryStore S}.

(** Runs calls in order and records, for one position, the operations that
    took effect: those that returned no error on a key not yet held. *)
Fixpoint exec (key : positionKey) (calls : list (Env * Call)) (m : Manager S)
  : list (ReserveOpType * Z) * Manager S :=
  match calls with
  | [] => ([], m)
  | (env, c) :: rest =>
      let '(r, m') := run env c m in
      let '(log, m'') := exec key rest m' in
      (if is_ok r && bool_decide (call_key c = key)
          && negb (bool_decide (is_Some (shard_at (mg_idempotencyShards m)
                     (idempotencyShardFor (call_idem c)) !! call_idem c)))
       then (cl_op c, micro (cl_amount c)) :: log else log, m'')
  end.
End History.

(** The credits still to come, and that the balances leave room for them. *)
Fixpoint credits {L : ThirdParty} (calls : list (Env * Call)) : Z :=
  match calls with
  | [] => 0
  | (_, c) :: rest =>
      (match cl_op c with OpCredit => Z.max 0 (micro (cl_amount c)) | _ => 0 end) + credits rest
  end.

Definition headroom {L : ThirdParty} {S} (extra : Z) (m : Manager S) : Prop :=
  map_Forall (fun _ k => c_bal k + extra <= int64_max) (abs m).

Definition all_solvent {L : ThirdParty} {S} (m : Manager S) : Prop :=
  map_Forall (fun _ k => solvent k) (abs m).

(** ** Lemmas *)

Section Lemmas.
Context {L : ThirdParty} {S : Type} `{TS : !TreasuryStore S}.
Implicit Types m : Manager S.

Lemma run_effect env c m : wf m -> effect (call_idem c) (call_key c) (call_f c) m (run env c m).
Proof.
  intros Hwf. destruct c as [op t cur loc a ref rt]. destruct op; simpl.
  - by apply Reserve_effect.
  - by apply Release_effect.
  - by apply CommitReservation_effect.
  - by apply ConsumeReservation_effect.
  - by apply CreditBalance_effect.
  - by apply DebitBalance_effect.
Qed.

Lemma run_ok_positive env c m m' : run env c m = (Ok tt, m') -> IsPositive (cl_amount c) = true.
Proof.
  destruct c as [op t cur loc a ref rt]. unfold run. simpl.
  destruct (IsPositive a) eqn:E; [done|]. destruct op;
    unfold Reserve, Release, CommitReservation, ConsumeReservation, CreditBalance, DebitBalance;
    by rewrite E.
Qed.

(** No call claims the key of another. *)
Lemma run_keys env c m : only_key (call_idem c) m (run env c m).2.
Proof.
  destruct c as [op t cur loc a ref rt]. pose proof (only_key_acquire env ref (op_name op) m) as HA. unfold call_idem. simpl.
  destruct op; simpl in *; unfold Reserve, Release, CommitReservation, ConsumeReservation, CreditBalance, DebitBalance;
    destruct (tryAcquireIdempotency env ref _ m) as [h m1]; simpl in HA; cbv zeta;
    repeat (case_match; simplify_eq/=); repeat keys_step.
Qed.

(** A call on a held key never does anything, and if the guards before the
    claim let it through it reports success. *)
Lemma run_held env env' c m m' :
  wf m -> held (call_idem c) m ->
  mg_consecutiveFlushFailures m' = mg_consecutiveFlushFailures m ->
  is_ok (run env' c m').1 = true -> run env c m = (Ok tt, m).
Proof.
  intros Hwf Hh Hf. destruct c as [op t cur loc a ref rt]. unfold call_idem in Hh. simpl in Hh.
  assert (tryAcquireIdempotency env ref (op_name op) m = (true, m)) as HA.
  { unfold tryAcquireIdempotency. by rewrite bool_decide_true. }
  destruct op; simpl in *;
    unfold Reserve, Release, CommitReservation, ConsumeReservation, CreditBalance, DebitBalance;
    rewrite ?Hf; destruct (negb (IsPositive a)); try done; rewrite ?HA; try done;
    destruct (validateMicroRange a); try done; destruct (_ <=? _); done.
Qed.

(** Whatever its outcome. *)
Lemma run_held_same env c m : held (call_idem c) m -> (run env c m).2 = m.
Proof.
  intros Hh. destruct c as [op t cur loc a ref rt]. unfold call_idem in Hh. simpl in Hh.
  assert (tryAcquireIdempotency env ref (op_name op) m = (true, m)) as HA.
  { unfold tryAcquireIdempotency. by rewrite bool_decide_true. }
  destruct op; simpl in *; unfold Reserve, Release, CommitReservation, ConsumeReservation, CreditBalance, DebitBalance;
    rewrite ?HA; repeat case_match; done.
Qed.

(** The times of the other keys survive a call that happens while they last. *)
Lemma run_keeps env c m t0 : lasting t0 (env_now env) m -> keeps (call_idem c) (fun t => t0 <= t) m (run env c m).2.
Proof.
  intros Hl. destruct c as [op t cur loc a ref rt]. pose proof (keeps_acquire env ref (op_name op) m t0 Hl) as HA. unfold call_idem. simpl.
  destruct op; simpl in *; unfold Reserve, Release, CommitReservation, ConsumeReservation, CreditBalance, DebitBalance;
    destruct (tryAcquireIdempotency env ref _ m) as [h m1]; simpl in HA; cbv zeta;
    repeat (case_match; simplify_eq/=); repeat keeps_step.
Qed.

(** A credit that succeeds and is not a repetition has claimed its key. *)
Lemma credit_stamped env c m : wf m -> cl_op c = OpCredit -> ~ held (call_idem c) m -> (run env c m).1 = Ok tt ->
  stamp (call_idem c) (run env c m).2 = Some (env_now env).
Proof.
  intros W Hop Hn. destruct c as [op t cur loc a ref rt]. simpl in Hop. subst op. unfold call_idem in *. simpl in *.
  unfold CreditBalance. destruct (negb _); [done|]. destruct (validateMicroRange a); [|done].
  pose proof (stamp_acquired env ref "credit" m (wf_shards _ W)) as Hs.
  assert ((tryAcquireIdempotency env ref "credit" m).1 = false) as Hf.
  { unfold tryAcquireIdempotency. by rewrite bool_decide_false. }
  specialize (Hs Hf). destruct (tryAcquireIdempotency env ref "credit" m) as [h m1]. simpl in *. subst h.
  repeat (case_match; simplify_eq/=); intros Hr; try discriminate Hr;
    repeat match goal with
    | H : logOp _ _ _ _ _ _ _ _ _ = _ |- _ => apply logOp_quiet, qu_shards in H
    | H : syncFlushPosition _ _ = _ |- _ => apply syncFlushPosition_quiet, qu_shards in H
    end; (rewrite (stamp_quiet _ m1); [done|autorewrite with treasury_shards in *; congruence]).
Qed.

(** A call that is served and whose transformation is enabled succeeds. *)
Lemma run_served env c m k k' : wf m -> serves env c m -> abs m !! call_key c = Some k -> call_f c k = Some k' ->
  (run env c m).1 = Ok tt.
Proof.
  intros Hwf [Hpos Hrange Hfl Hroom Hw] Hk Hf. destruct c as [op t cur loc a ref rt]. unfold call_key in Hk. simpl in *.
  unfold abs in Hk. rewrite lookup_omap in Hk. destruct (mg_positions m !! (t, cur, loc)) as [p|] eqn:Hp; [|done]. simpl in Hk.
  unfold counters_at in Hk. destruct (mg_heap m !! p) as [ps|] eqn:Hps; [|done]. injection Hk as <-. unfold call_f in Hf. simpl in Hf.
  assert (forall o, let out := tryAcquireIdempotency env ref o m in
    out.1 = true \/ out.1 = false /\ io out.2 = io m /\ mg_positions out.2 = mg_positions m /\ mg_heap out.2 = mg_heap m) as HA.
  { intros o. unfold tryAcquireIdempotency. case_bool_decide; [by left|by right]. }
  specialize (HA (op_name op)). assert (forall x y : Manager S, framed x y -> is_Some (deref p x) -> is_Some (deref p y)) as Hfd
    by (intros; by eapply framed_deref).
  destruct op; simpl in *; unfold Reserve, Release, CommitReservation, ConsumeReservation, CreditBalance, DebitBalance;
    rewrite Hpos, ?Hrange; cbn [negb]; try (rewrite (proj2 (Z.leb_gt _ _)) by lia);
    destruct (tryAcquireIdempotency env ref _ m) as [h m1]; simpl in HA; destruct HA as [-> |(-> & Hio & Hpn & Hhp)]; try done;
    unfold getPosition, deref; rewrite Hpn, Hp, (toMicro_validated a Hrange), ?Hhp, ?Hps;
    unfold reserve_f, release_f, commit_f, consume_f, debit_f, avail64, available64 in *; simpl in Hf;
    repeat (case_match; try done);
    lazymatch goal with
    | H : logOp ?e ?i ?t0 ?c0 ?l0 ?a0 ?r0 ?o0 ?mm = _ |- _ =>
        destruct (logOp_answered e i t0 c0 l0 a0 r0 o0 mm m) as (u & mlog & E & Hup);
          [rewrite ?queueEvent_io, ?markDirty_io, ?addLocked_io, ?addBalance_io, ?store_counters_io; exact Hio|done|done|];
          rewrite E in H; simplify_eq/=
    end; try done;
    lazymatch goal with
    | H : syncFlushPosition p ?mm = (Err _, _) |- _ =>
        let x := fresh "mf" in let E2 := fresh "E" in destruct (syncFlush_answered p mm) as [x E2]; [|done|by rewrite E2 in H];
          apply logOp_quiet in E as [[E _] _]; apply (Hfd _ _ E)
    end.
  all: repeat first [apply (Hfd _ _ (ca_framed _ _ (qu_calm _ _ (queueEvent_quiet _ _ _ _ _ _ _ _))))
    | apply (Hfd _ _ (ca_framed _ _ (qu_calm _ _ (markDirty_quiet _ _)))) | apply (Hfd _ _ (store_counters_framed _ _ _ _ _))];
    unfold addBalance, deref; rewrite ?Hhp, ?Hps; try by eexists.
  all: apply (Hfd _ _ (store_counters_framed _ _ _ _ _)); unfold deref; rewrite Hhp, Hps; by eexists.
Qed.

(** *** Amounts *)

Lemma sub64_range a b : in_int64 (sub64 a b).
Proof. auto with go_int. Qed.
Lemma add64_range a b : in_int64 (add64 a b).
Proof. auto with go_int. Qed.

Lemma call_f_range c k k' :
  in_int64 (c_bal k) /\ in_int64 (c_lock k) /\ in_int64 (c_res k) ->
  call_f c k = Some k' ->
  in_int64 (c_bal k') /\ in_int64 (c_lock k') /\ in_int64 (c_res k').
Proof.
  intros Hr. unfold call_f, reserve_f, release_f, commit_f, consume_f, credit_f, debit_f.
  destruct (cl_op c); intros; repeat case_match; simplify_eq/=; naive_solver
    eauto using sub64_range, add64_range.
Qed.

Lemma run_wf env c m r m' : wf m -> run env c m = (r, m') -> wf m'.
Proof.
  intros Hwf Hrun. pose proof (run_effect env c m Hwf) as He. rewrite Hrun in He.
  destruct He as [(e & -> & Hc & _)|[(_ & _ & ->)|(_ & _ & _ & F & p & k & k' & Hp & Hk & Hf & Hk' & Ho)]].
  - eapply wf_calm; [done|done|]. destruct Hc as [[_ _ _ -> _] _]. apply Hwf.
  - done.
  - destruct Hwf as [Hl Hi Hr Hfr]. destruct F as [F1 F2 F3 F4 F5 F6]. split; [congruence| | |].
    + intros ky q. rewrite F1. intros (ps & Hq & <-)%Hi. specialize (F6 q). rewrite Hq in F6.
      destruct (mg_heap m' !! q) as [ps1|] eqn:E; [|done]. exists ps1. split; [done|].
      unfold meta in F6. unfold key_of. simpl in F6. congruence.
    + intros q k2. destruct (decide (q = p)) as [->|Hq].
      * rewrite Hk'. intros [= <-]. by eapply call_f_range, Hf; apply (Hr p).
      * rewrite (Ho q Hq). apply Hr.
    + intros q. rewrite F3, <- (fmap_is_Some meta), F6, fmap_is_Some. apply Hfr.
Qed.

(** *** The abstraction *)

Lemma abs_lookup m key :
  abs m !! key = mg_positions m !! key ≫= (fun p => counters_at p m).
Proof. unfold abs. by rewrite lookup_omap. Qed.

Lemma abs_calm m m' : calm m m' -> abs m' = abs m.
Proof.
  intros [F C]. apply map_eq. intros key. rewrite !abs_lookup, (fr_positions _ _ F).
  destruct (mg_positions m !! key); simpl; [apply C|done].
Qed.

Lemma positions_inj m key key' p :
  wf m -> mg_positions m !! key = Some p -> mg_positions m !! key' = Some p -> key = key'.
Proof.
  intros Hwf (ps & Hp & <-)%(wf_index _ Hwf) (ps' & Hp' & <-)%(wf_index _ Hwf). congruence.
Qed.

Lemma abs_update m m' key p k' :
  wf m -> framed m m' -> mg_positions m !! key = Some p -> counters_at p m' = Some k' ->
  (forall q, q <> p -> counters_at q m' = counters_at q m) ->
  abs m' = <[key := k']> (abs m).
Proof.
  intros Hwf F Hp Hk' Ho. apply map_eq. intros key'. rewrite abs_lookup, (fr_positions _ _ F).
  destruct (decide (key' = key)) as [->|Hne].
  - by rewrite lookup_insert_eq, Hp.
  - rewrite lookup_insert_ne, abs_lookup by done.
    destruct (mg_positions m !! key') as [q|] eqn:Hq; [|done]. simpl. apply Ho.
    intros ->. by apply Hne, (positions_inj m _ _ p).
Qed.

Lemma abs_range m key k : wf m -> abs m !! key = Some k ->
  in_int64 (c_bal k) /\ in_int64 (c_lock k) /\ in_int64 (c_res k).
Proof.
  intros Hwf. rewrite abs_lookup. destruct (mg_positions m !! key); [|done].
  apply (wf_range _ Hwf).
Qed.
End Lemmas.

Section Amounts.
Context {L : ThirdParty} {LL : ThirdPartyLaws L}.

Lemma micro_bounds amount : IsPositive amount = true -> 0 <= micro amount <= maxMicroValue.
Proof.
  intros Hp. unfold micro, toMicro, outOfMicroRange.
  destruct (GreaterThan _ _) eqn:E1; [simpl; unfold maxMicroValue; lia|].
  destruct (LessThan _ _) eqn:E2; [simpl; unfold maxMicroValue; lia|]. cbn [orb default].
  dec_reflect. dec_val. cbn [id].
  set (sc := (dVal amount * inject_Z microScale)%Q) in *.
  assert (0 <= sc)%Q as Hq by (apply Qmult_le_0_compat; [lra|by vm_compute]).
  assert (dVal (dMul amount (NewFromInt microScale)) == sc)%Q as Hqv
    by (unfold sc; by rewrite dMul_val, NewFromInt_val).
  assert (0 <= Qtrunc sc <= maxMicroValue) as Hb.
  { split; [by apply Qtrunc_nonneg|]. apply Qtrunc_le; [done|]. lra. }
  rewrite IntPart_val; rewrite Hqv; [done|].
  int64. unfold maxMicroValue in Hb. lia.
Qed.

(** Without overflow the machine transformations are the abstract ones. *)
Lemma call_f_spec c k k' :
  solvent k -> in_int64 (c_bal k) -> 0 <= micro (cl_amount c) <= maxMicroValue ->
  (cl_op c = OpCredit -> c_bal k + micro (cl_amount c) <= int64_max) ->
  call_f c k = Some k' -> spec_f (cl_op c) (micro (cl_amount c)) k = Some k'.
Proof.
  destruct k as [b l r]. unfold solvent, call_f, maxMicroValue. simpl.
  generalize (micro (cl_amount c)). intros a (H1 & H2 & H3) [H4 H5] H6 H7.
  assert (sub64 (sub64 b l) r = b - l - r) as Hav.
  { rewrite (sub64_id b l); [apply sub64_id|]; int64; lia. }
  unfold reserve_f, release_f, commit_f, consume_f, credit_f, debit_f, avail64, available.
  int64.
  destruct (cl_op c); simpl; rewrite ?Hav; intros; repeat case_match; simplify_eq;
    rewrite ?Z.ltb_lt, ?Z.ltb_ge in *; try specialize (H7 eq_refl);
    do 2 f_equal; symmetry; first [apply add64_id | apply sub64_id]; int64; lia.
Qed.

Lemma call_f_none c k :
  solvent k -> in_int64 (c_bal k) -> 0 <= micro (cl_amount c) <= maxMicroValue ->
  call_f c k = None -> spec_f (cl_op c) (micro (cl_amount c)) k = None.
Proof.
  destruct k as [b l r]. unfold solvent, call_f, maxMicroValue. simpl.
  generalize (micro (cl_amount c)). intros a (H1 & H2 & H3) [H4 H5] H6.
  assert (sub64 (sub64 b l) r = b - l - r) as Hav.
  { rewrite (sub64_id b l); [apply sub64_id|]; int64; lia. }
  unfold reserve_f, release_f, commit_f, consume_f, credit_f, debit_f, avail64, available.
  destruct (cl_op c); simpl; rewrite ?Hav; by repeat case_match.
Qed.

Lemma spec_f_solvent op a k k' :
  0 <= a -> solvent k -> spec_f op a k = Some k' -> solvent k'.
Proof.
  destruct k as [b l r]. unfold solvent, spec_f, available. simpl.
  intros Ha Hs H. destruct op; repeat case_match; simplify_eq/=;
    rewrite ?Z.ltb_lt, ?Z.ltb_ge in *; lia.
Qed.
End Amounts.

Section Simulation.
Context {L : ThirdParty} {LL : ThirdPartyLaws L} {S : Type} `{TS : !TreasuryStore S}.
Implicit Types m : Manager S.

(** One call, seen through [abs]: nothing, or the abstract transformation on
    a key not held before. *)
Lemma run_simulates env c m r m' extra :
  wf m -> all_solvent m -> 0 <= extra ->
  headroom ((match cl_op c with OpCredit => Z.max 0 (micro (cl_amount c)) | _ => 0 end) + extra) m ->
  run env c m = (r, m') ->
  (abs m' = abs m /\ (is_ok r = true -> held (call_idem c) m)) \/
  (r = Ok tt /\ ~ held (call_idem c) m /\ 0 <= micro (cl_amount c) /\
   exists k k', abs m !! call_key c = Some k /\ solvent k
     /\ spec_f (cl_op c) (micro (cl_amount c)) k = Some k'
     /\ abs m' = <[call_key c := k']> (abs m)).
Proof.
  intros Hwf Hs Hx Hh Hrun. pose proof (run_effect env c m Hwf) as He. rewrite Hrun in He.
  destruct He as [(e & -> & Hc & _)|[(-> & Hk & ->)|(-> & Hn & _ & F & p & k & k' & Hp & Hk & Hf & Hk' & Ho)]].
  - left. split; [by apply abs_calm|done].
  - left. done.
  - right. pose proof (micro_bounds _ (run_ok_positive _ _ _ _ Hrun)) as Hm.
    assert (abs m !! call_key c = Some k) as Hak by (rewrite abs_lookup, Hp; done).
    split_and!; [done|done|lia|]. exists k, k'. split_and!; [done|by apply (Hs _ _ Hak)| |].
    + apply call_f_spec; [by apply (Hs _ _ Hak)|by apply (abs_range m (call_key c))|done| |done].
      intros Hop. specialize (Hh _ _ Hak). rewrite Hop in Hh. simpl in Hh. lia.
    + by eapply abs_update.
Qed.
End Simulation.


(** ** Fresh managers are well formed *)

Section Fresh.
Context {L : ThirdParty} {LL : ThirdPartyLaws L} {S : Type}.
Implicit Types m : Manager S.

Lemma toMicro_range d z : toMicro d = Some z -> in_int64 z.
Proof.
  unfold toMicro, outOfMicroRange.
  destruct (GreaterThan _ _) eqn:E1; [done|]. destruct (LessThan _ _) eqn:E2; [done|].
  intros [= <-]. dec_reflect. dec_val.
  assert (in_int64 (Qtrunc (dVal (dMul d (NewFromInt microScale))))) as H.
  { rewrite dMul_val, NewFromInt_val.
    assert (- maxMicroValue <= Qtrunc (dVal d * inject_Z microScale) <= maxMicroValue) as Hb
      by (apply Qtrunc_abs_le; lra).
    int64. unfold maxMicroValue in Hb. lia. }
  by rewrite IntPart_val.
Qed.

Lemma addPosition_wf pos m m' : wf m -> addPosition pos m = Some m' -> wf m'.
Proof.
  intros [Hl Hi Hr Hf]. unfold addPosition.
  destruct (toMicro (pos_Balance pos)) as [b|] eqn:Hb; [|done].
  destruct (toMicro (pos_Locked pos)) as [l|] eqn:Hlk; [|done]. intros [= <-].
  assert (forall p, is_Some (mg_heap m !! p) -> mg_next m <> p) as Hne
    by (intros p Hp%Hf; lia).
  split; simpl.
  - done.
  - intros key p. rewrite lookup_insert_Some. intros [[<- <-]|[_ (ps & Hp & Hk)%Hi]].
    + eexists. by rewrite lookup_insert_eq.
    + exists ps. rewrite lookup_insert_ne; [done|]. by apply Hne.
  - intros p c. unfold counters_at. simpl. rewrite lookup_insert.
    case_decide; [|apply Hr]. intros [= <-]. simpl.
    split_and!; [by eapply toMicro_range..|by vm_compute].
  - intros p. rewrite lookup_insert. case_decide; [subst; lia|]. intros ?%Hf. lia.
Qed.
End Fresh.

(** ** Properties *)

Section Properties.
Context {L : ThirdParty} {LL : ThirdPartyLaws L} {S : Type} `{TS : !TreasuryStore S}.
Implicit Types m : Manager S.

(** C19: A call that returns an error leaves every balance, locked and
    reserved counter and every index as it found them, on every error path
    (invalid amount, failing flushes, unknown position, insufficient funds,
    write-ahead log failure, full channel, failed synchronous flush); unless
    it panicked, it also gives its idempotency key back, so that a
    redelivery can try again. *)
Theorem run_error_rolls_back env c m e m' :
  wf m -> run env c m = (Err e, m') ->
  calm m m' /\ ((forall t, e <> PanicErr t) -> held (call_idem c) m' -> held (call_idem c) m).
Proof.
  intros Hwf Hrun. pose proof (run_effect env c m Hwf) as He. rewrite Hrun in He.
  destruct He as [(e' & [= <-] & Hc & Hh)|[(? & _)|(? & _)]]; by try split.
Qed.

Lemma run_repeat env env' c m m' :
  wf m -> run env c m = (Ok tt, m') -> run env' c m' = (Ok tt, m').
Proof.
  intros Hwf Hrun. pose proof (run_wf _ _ _ _ _ Hwf Hrun) as Hwf'.
  pose proof (run_effect env c m Hwf) as He. rewrite Hrun in He.
  destruct He as [(? & [=] & _)|[(_ & Hh & ->)|(_ & _ & Hh & F & _)]].
  - apply (run_held env' env c m m); [done|done|done|by rewrite Hrun].
  - apply (run_held env' env c m' m); [done|done|by rewrite (fr_failures _ _ F)|by rewrite Hrun].
Qed.

(** Redelivery is harmless: once a call has succeeded, repeating it with
    the same reference, at whatever time, succeeds and changes nothing at
    all. *)
Theorem run_idempotent env env' c m m' :
  wf m -> run env c m = (Ok tt, m') -> run env' c m' = (Ok tt, m').
Proof. apply run_repeat. Qed.

(** The books and keys of a manager, as the abstract treasury sees them. *)
Definition booksOf m : Books := {| bk_counters := abs m; bk_used k := held k m |}.

(** C1: The manager refines the abstract treasury.  While the books are
    solvent and the balances leave room for the credit, each call is a step
    of the abstract treasury: it fails without effect; or its key has been used
    before, and it succeeds without effect; or it applies the guarded
    transformation of its operation, in exact integer arithmetic, to the one
    position it names and uses up its key.  And it does not fail without
    reason: if the amount is in range, the transformation is enabled and the
    services around the manager answer, it succeeds. *)
Theorem run_refines_spec env c m r m' :
  wf m -> all_solvent m ->
  headroom (match cl_op c with OpCredit => Z.max 0 (micro (cl_amount c)) | _ => 0 end) m ->
  run env c m = (r, m') ->
  spec_step c r (booksOf m) (booksOf m')
  /\ (forall k k', serves env c m -> abs m !! call_key c = Some k ->
        spec_f (cl_op c) (micro (cl_amount c)) k = Some k' -> r = Ok tt).
Proof.
  intros Hwf Hs Hh Hrun. split.
  - pose proof (run_effect env c m Hwf) as He. pose proof (run_keys env c m) as Hkeys. rewrite Hrun in He, Hkeys. simpl in Hkeys.
    destruct (run_simulates env c m r m' 0) as [[Ha Hheld]|(-> & Hn & _ & k & k' & Hk & _ & Hf & Ha)]; try done; [by rewrite Z.add_0_r| |].
    + destruct He as [(e & -> & _ & Hroll)|[(-> & Hk & ->)|(-> & Hn & _)]]; [|by constructor|by destruct (Hn (Hheld eq_refl))].
      constructor; [done|]. intros k Hk. destruct (Hkeys k Hk) as [?| ->]; [by left|]. simpl in *. destruct e as [| | | |t]; eauto.
      all: left; apply Hroll; [by intros ? [=]|done].
    + destruct He as [(e & ? & _)|[(_ & Hk' & _)|(_ & _ & Hk' & _)]]; [done|done|]. by econstructor.
  - intros k k' Hsv Hk Hf. destruct (call_f c k) as [k2|] eqn:Ef; [pose proof (run_served env c m k k2 Hwf Hsv Hk Ef) as H; by rewrite Hrun in H|].
    exfalso. pose proof (micro_bounds _ (sv_amount _ _ _ Hsv)) as Hm. specialize (Hh _ _ Hk) as Hh'.
    by rewrite (call_f_none c k (Hs _ _ Hk) (proj1 (abs_range m _ k Hwf Hk)) Hm Ef) in Hf.
Qed.

Lemma credits_nonneg (calls : list (Env * Call)) : 0 <= credits calls.
Proof. induction calls as [|[? c] ? IH]; simpl; [done|]. destruct (cl_op c); lia. Qed.

(** What one applied operation does to the totals. *)
Lemma spec_f_totals op a k k' log :
  spec_f op a k = Some k' ->
  let d o := total o ((op, a) :: log) - total o log in
  c_bal k' = c_bal k + d OpCredit - d OpDebit - d OpConsume
  /\ c_lock k' = c_lock k + d OpCommit
  /\ c_res k' = c_res k + d OpReserve - d OpRelease - d OpCommit - d OpConsume.
Proof.
  destruct k as [b l r]. unfold spec_f, available. intros H.
  destruct op; repeat case_match; simplify_eq/=; lia.
Qed.

Lemma spec_f_headroom op a k k' extra :
  0 <= a -> 0 <= extra ->
  c_bal k + (match op with OpCredit => Z.max 0 a | _ => 0 end + extra) <= int64_max ->
  spec_f op a k = Some k' -> c_bal k' + extra <= int64_max.
Proof.
  destruct k as [b l r]. unfold spec_f, available. intros Ha Hx Hh H.
  destruct op; repeat case_match; simplify_eq/=; lia.
Qed.

Definition accounted (log : list (ReserveOpType * Z)) (k k' : counters) : Prop :=
  c_bal k' = c_bal k + total OpCredit log - total OpDebit log - total OpConsume log
  /\ c_lock k' = c_lock k + total OpCommit log
  /\ c_res k' = c_res k + total OpReserve log - total OpRelease log - total OpCommit log
                 - total OpConsume log.

Lemma exec_inv key calls : forall m log m',
  wf m -> all_solvent m -> headroom (credits calls) m -> exec key calls m = (log, m') ->
  all_solvent m' /\
  forall k, abs m !! key = Some k -> exists k', abs m' !! key = Some k' /\ accounted log k k'.
Proof.
  induction calls as [|[env c] rest IH]; intros m log m' Hwf Hs Hh Hex; simpl in Hex.
  { simplify_eq. split; [done|]. intros k Hk. exists k. unfold accounted. simpl. split; [done|lia]. }
  destruct (run env c m) as [r m1] eqn:Hrun. destruct (exec key rest m1) as [log1 m2] eqn:Hex1.
  pose proof (run_wf _ _ _ _ _ Hwf Hrun) as Hwf1. pose proof (credits_nonneg rest) as Hx.
  destruct (run_simulates env c m r m1 _ Hwf Hs Hx Hh Hrun)
    as [[Habs Hheld]|(-> & Hn & Ha & k & k' & Hk & Hsk & Hf & Habs)].
  - assert (log = log1 /\ m' = m2) as [-> ->].
    { destruct (is_ok r); simpl in Hex; [|by simplify_eq].
      rewrite (bool_decide_true (is_Some _)) in Hex by (by apply Hheld).
      rewrite andb_false_r in Hex. by simplify_eq. }
    rewrite <- Habs. apply (IH m1); [done|unfold all_solvent; by rewrite Habs| |done].
    intros ky k Hk. rewrite Habs in Hk. specialize (Hh _ _ Hk). simpl in Hh.
    destruct (cl_op c); lia.
  - assert (all_solvent m1) as Hs1.
    { unfold all_solvent. rewrite Habs. apply map_Forall_insert_2; [|done].
      by eapply spec_f_solvent. }
    assert (headroom (credits rest) m1) as Hh1.
    { unfold headroom. rewrite Habs. apply map_Forall_insert_2.
      - eapply spec_f_headroom; [done|done|apply (Hh _ _ Hk)|done].
      - intros ky k2 Hk2. specialize (Hh _ _ Hk2). simpl in Hh. destruct (cl_op c); lia. }
    destruct (IH _ _ _ Hwf1 Hs1 Hh1 Hex1) as [Hs2 Hacc].
    rewrite (bool_decide_false (is_Some _)) in Hex by done. rewrite andb_true_r in Hex.
    case_bool_decide as Hkey; simplify_eq/=; (split; [done|]); intros k0 Hk0.
    + destruct (Hacc k') as (k2 & Hk2 & A); [by rewrite Habs, lookup_insert_eq|].
      exists k2. split; [done|]. rewrite Hk in Hk0. simplify_eq.
      pose proof (spec_f_totals _ _ _ _ log1 Hf). unfold accounted in *. simpl in *. lia.
    + apply Hacc. by rewrite Habs, lookup_insert_ne.
Qed.

(** C17: No over-commitment: starting from solvent books whose balances leave
    room in the int64 range for the sum of all the credits called for, no
    sequence of reserve, release, commit, consume, credit and debit calls,
    with any references, repetitions and failures, makes a position's locked
    and reserved amounts negative or larger together than its balance.  (A
    credit is not checked for overflow: without the room it wraps.) *)
Theorem exec_solvent key calls m log m' :
  wf m -> all_solvent m -> headroom (credits calls) m -> exec key calls m = (log, m') ->
  all_solvent m'.
Proof. intros. by eapply exec_inv. Qed.

(** C18: Conservation: after any sequence of calls on solvent books whose
    balances leave room in the int64 range for the sum of all the credits
    called for, a position's balance is its initial balance plus the credits
    minus the debits and consumptions that took effect, locked has grown by
    the commits, and reserved by the reservations less what was released,
    committed and consumed.  A call that failed or repeated a held key
    contributes nothing. *)
Theorem exec_conservation key calls m log m' k :
  wf m -> all_solvent m -> headroom (credits calls) m -> exec key calls m = (log, m') ->
  abs m !! key = Some k ->
  exists k', abs m' !! key = Some k' /\ accounted log k k'.
Proof. intros Hwf Hs Hh Hex. by apply (exec_inv key calls m log m'). Qed.
End Properties.

(** ** Micro-units and keys *)

Section Encoding.
Context {L : ThirdParty} {LL : ThirdPartyLaws L}.

Lemma fromMicro_val v : (dVal (fromMicro v) == inject_Z v / inject_Z microScale)%Q.
Proof.
  unfold fromMicro. rewrite (dDiv_exact _ _ (v * 10 ^ 10)).
  - by rewrite !NewFromInt_val.
  - rewrite NewFromInt_val. by vm_compute.
  - rewrite !NewFromInt_val. unfold microScale.
    change (inject_Z (10 ^ 16)) with (inject_Z (1000000 * 10 ^ 10)).
    rewrite !inject_Z_mult. field.
Qed.

Lemma toMicro_value d v :
  (dVal d == inject_Z v / inject_Z microScale)%Q -> - maxMicroValue <= v <= maxMicroValue ->
  toMicro d = Some v.
Proof.
  intros Hd Hv. unfold toMicro, outOfMicroRange.
  set (sc := dMul d (NewFromInt microScale)).
  assert (dVal sc == inject_Z v)%Q as Hsc.
  { unfold sc. rewrite dMul_val, NewFromInt_val, Hd. field. by vm_compute. }
  destruct (GreaterThanP sc (NewFromInt maxMicroValue)) as [H|_].
  { rewrite Hsc, NewFromInt_val, <- Zlt_Qlt in H. lia. }
  destruct (LessThanP sc (NewFromInt (- maxMicroValue))) as [H|_].
  { rewrite Hsc, NewFromInt_val, <- Zlt_Qlt in H. lia. }
  simpl. f_equal. rewrite IntPart_val; rewrite Hsc, Qtrunc_inject; [done|].
  int64. unfold maxMicroValue in *. lia.
Qed.

(** The counters represent amounts exactly: a counter within the micro
    range read out as a decimal and converted back is the same counter. *)
Lemma toMicro_fromMicro v :
  - maxMicroValue <= v <= maxMicroValue -> toMicro (fromMicro v) = Some v.
Proof. apply toMicro_value, fromMicro_val. Qed.

(** Converting an amount never reserves or credits more than was asked,
    and loses less than one micro-unit. *)
Lemma micro_truncates amount :
  IsPositive amount = true -> validateMicroRange amount = Ok tt ->
  (dVal (fromMicro (micro amount)) <= dVal amount
   /\ dVal amount < dVal (fromMicro (micro amount)) + (1 # 1000000))%Q.
Proof.
  unfold validateMicroRange, micro, toMicro. intros Hp Hv.
  destruct (outOfMicroRange amount) eqn:Ho; [done|]. cbn [default id].
  destruct (IsPositiveP amount) as [Hpos|]; [|done]. unfold outOfMicroRange in Ho.
  apply orb_false_iff in Ho as [H1 H2]. dec_reflect.
  set (sc := dMul amount (NewFromInt microScale)) in *.
  assert (dVal sc == dVal amount * 1000000)%Q as Hsc
    by (unfold sc; by rewrite dMul_val, NewFromInt_val).
  assert (0 <= dVal sc)%Q as H0 by (rewrite Hsc; lra).
  pose proof (Qtrunc_spec _ H0) as [T1 T2]. rewrite NewFromInt_val in n0.
  assert (Qtrunc (dVal sc) <= maxMicroValue) as T3 by (apply Qtrunc_le; lra).
  pose proof (Qtrunc_nonneg _ H0) as T4.
  rewrite fromMicro_val, IntPart_val
    by (int64; unfold maxMicroValue in *; lia).
  assert (inject_Z (Qtrunc (dVal sc)) / inject_Z microScale
          == inject_Z (Qtrunc (dVal sc)) * (1 # 1000000))%Q as -> by reflexivity.
  set (t := inject_Z (Qtrunc (dVal sc))) in *. clearbody t. lra.
Qed.

(** The integer counters stand for the decimal amounts.  A counter within
    the micro range read out as a decimal and converted back is the same
    counter; and converting a positive amount that passes the range check
    never reserves or credits more than was asked and loses less than one
    micro-unit. *)
Theorem micro_units_exact v amount :
  - maxMicroValue <= v <= maxMicroValue ->
  IsPositive amount = true -> validateMicroRange amount = Ok tt ->
  toMicro (fromMicro v) = Some v
  /\ (dVal (fromMicro (micro amount)) <= dVal amount
      /\ dVal amount < dVal (fromMicro (micro amount)) + (1 # 1000000))%Q.
Proof. intros Hv Hp Hr. split; [by apply toMicro_fromMicro|by apply micro_truncates]. Qed.

Lemma string_app_inj (s s' t t' : string) :
  String.length s = String.length s' -> s +:+ t = s' +:+ t' -> s = s' /\ t = t'.
Proof.
  revert s'. induction s as [|a s IH]; intros [|a' s'] Hl H; simplify_eq/=; [done|].
  destruct (IH s') as [-> ->]; [lia|done|done].
Qed.

Lemma idempotencyKey_inj r o r' o' :
  idempotencyKey r o = idempotencyKey r' o' -> r = r' /\ o = o'.
Proof.
  unfold idempotencyKey. intros H.
  apply string_app_inj in H as [Hr Ho]; [|by rewrite !uuid_String_length].
  apply uuid_String_inj in Hr. by simplify_eq/=.
Qed.
End Encoding.

Section Claims.
Context {L : ThirdParty} {LL : ThirdPartyLaws L} {S : Type}.
Implicit Types m : Manager S.

(** The sixteen shards behave as one map keyed by reference and
    operation: claiming a key below the size limit adds exactly that key and
    no other, whichever shard it hashes to, and two calls contend for a key
    only when they carry the same reference and the same operation. *)
Theorem tryAcquire_one_map env ref op m m' ref' op' :
  length (mg_idempotencyShards m) = 16%nat ->
  Z.of_nat (size (shard_at (mg_idempotencyShards m)
    (idempotencyShardFor (idempotencyKey ref op)))) < shardLimit ->
  tryAcquireIdempotency env ref op m = (false, m') ->
  ~ held (idempotencyKey ref op) m /\
  (held (idempotencyKey ref' op') m' <->
   (ref' = ref /\ op' = op) \/ held (idempotencyKey ref' op') m).
Proof.
  intros Hl Hsz. unfold tryAcquireIdempotency. case_bool_decide as Hh; [done|].
  rewrite (proj2 (Z.leb_gt _ _)) by lia. intros [= <-]. split; [done|].
  unfold held. simpl. set (k := idempotencyKey ref op). set (k' := idempotencyKey ref' op').
  assert (k' = k <-> ref' = ref /\ op' = op) as <-.
  { split; [apply idempotencyKey_inj|]. unfold k, k'. by intros [-> ->]. }
  pose proof (idempotencyShardFor_lt k).
  destruct (decide (idempotencyShardFor k' = idempotencyShardFor k)) as [Heq|Hne].
  - rewrite Heq, shard_at_insert by (rewrite Hl; lia). fold k.
    rewrite lookup_insert_is_Some. destruct (decide (k = k')); naive_solver.
  - unfold shard_at. rewrite list_lookup_insert_ne by done.
    split; [by right|]. intros [->|]; done.
Qed.
End Claims.

(** ** Witnesses *)

#[global] Instance solvent_dec c : Decision (solvent c).
Proof. unfold solvent. apply _. Defined.

#[global] Instance in_range_dec (extra : Z) (k : counters) :
  Decision (c_bal k + extra <= int64_max).
Proof. apply _. Defined.

(** A manager with one USD position of 100.00 and a store that accepts every
    write. *)
Module TreasuryWitness.
Import QInstance.

#[export] Instance nullStore : TreasuryStore unit := {|
  LoadPositionsPaginated _ _ _ := Ok [];
  UpdatePosition _ _ _ s := (Ok tt, s);
  RecordHistory _ _ _ _ _ s := (Ok tt, s);
  BatchUpdatePositions := None;
  BatchWriteEvents := None;
  LogReserveOp := None;
  GetUncommittedOps _ := Ok [];
  CleanupOldOps _ s := (Ok tt, s);
|}.

Definition empty : Manager unit :=
  {| mg_heap := ∅; mg_next := 0; mg_positions := ∅; mg_tenantIndex := ∅; mg_dirtySet := ∅;
     mg_idempotencyShards := replicate 16 ∅; mg_syncThresholds := ∅;
     mg_syncThresholdDefault := 0%Q; mg_hasPublisher := false; mg_pendingOps := [];
     mg_pendingEvents := []; mg_replaying := false; mg_consecutiveFlushFailures := 0;
     mg_failedPositionIDs := []; mg_alerts := []; mg_store := tt |}.

Definition usd : Position :=
  {| pos_ID := "p"%char; pos_TenantID := "t"%char; pos_Currency := "USD";
     pos_Location := "bank:chase"; pos_Balance := (100 # 1)%Q; pos_Locked := 0%Q;
     pos_MinBalance := 0%Q; pos_TargetBalance := 0%Q; pos_UpdatedAt := 0 |}.

Definition mgr : Manager unit := default empty (addPosition usd empty).

Definition env0 : Env := {| env_now := 0; env_newv7 := fun _ => "v"%char; env_drained := true |}.

Definition call (op : ReserveOpType) (amount : Q) (ref : ascii) : Call :=
  {| cl_op := op; cl_tenant := "t"%char; cl_currency := "USD"; cl_location := "bank:chase";
     cl_amount := amount; cl_ref := ref; cl_refType := "transfer" |}.

Definition usdKey : positionKey := ("t"%char, "USD", "bank:chase").

Lemma empty_wf : wf empty.
Proof.
  split; [done| | |].
  - intros key p. simpl. by rewrite lookup_empty.
  - intros p c. unfold counters_at. simpl. by rewrite lookup_empty.
  - intros p. simpl. rewrite lookup_empty. by intros [].
Qed.

Lemma mgr_wf : wf mgr.
Proof. by apply (addPosition_wf (LL := Qlib_laws) usd empty mgr empty_wf). Qed.

Lemma mgr_solvent : all_solvent mgr.
Proof. by apply (bool_decide_eq_true_1 (map_Forall _ (abs mgr))); vm_compute. Qed.

Lemma mgr_headroom : headroom 1000000000 mgr.
Proof. by apply (bool_decide_eq_true_1 (map_Forall _ (abs mgr))); vm_compute. Qed.

(** Reserve 60, reserve 60 more (rejected), repeat the first, consume it,
    credit 5. *)
Definition history : list (Env * Call) :=
  [(env0, call OpReserve (60 # 1)%Q "a"); (env0, call OpReserve (60 # 1)%Q "b");
   (env0, call OpReserve (60 # 1)%Q "a"); (env0, call OpConsume (60 # 1)%Q "a");
   (env0, call OpCredit (5 # 1)%Q "c")].

Definition reserve60 : Call := call OpReserve (60 # 1)%Q "a".
Definition reserve101 : Call := call OpReserve (101 # 1)%Q "a".

Lemma run_error_rolls_back_witness :
  run env0 reserve101 mgr
    = (Err (DomainErr CodeInsufficientFunds), (run env0 reserve101 mgr).2)
  /\ calm mgr (run env0 reserve101 mgr).2.
Proof.
  assert (run env0 reserve101 mgr
    = (Err (DomainErr CodeInsufficientFunds), (run env0 reserve101 mgr).2)) as H
    by (apply pair_fst; vm_compute; reflexivity).
  split; [exact H|].
  exact (proj1 (run_error_rolls_back env0 reserve101 mgr _ _ mgr_wf H)).
Defined.

Lemma run_idempotent_witness :
  run env0 reserve60 (run env0 reserve60 mgr).2 = (Ok tt, (run env0 reserve60 mgr).2).
Proof.
  refine (run_idempotent env0 env0 reserve60 mgr _ mgr_wf (pair_ok _ _)).
  vm_compute. reflexivity.
Defined.

Lemma reserve60_served : serves env0 reserve60 mgr.
Proof. split; [reflexivity|reflexivity|vm_compute; reflexivity|by right|]. by split. Qed.

Lemma run_refines_spec_witness :
  spec_step reserve60 (Ok tt) (booksOf mgr) (booksOf (run env0 reserve60 mgr).2) /\ (run env0 reserve60 mgr).1 = Ok tt.
Proof.
  assert (headroom 0 mgr) as Hh by (by apply (bool_decide_eq_true_1 (map_Forall _ (abs mgr))); vm_compute).
  destruct (run_refines_spec (LL := Qlib_laws) env0 reserve60 mgr _ _ mgr_wf mgr_solvent Hh (surjective_pairing _)) as [H1 H2].
  assert ((run env0 reserve60 mgr).1 = Ok tt) as Hr.
  { apply (H2 (Cnt 100000000 0 0) (Cnt 100000000 0 60000000) reserve60_served); vm_compute; reflexivity. }
  split; [|exact Hr]. rewrite Hr in H1. exact H1.
Defined.

Lemma history_headroom : headroom (credits history) mgr.
Proof. by apply (bool_decide_eq_true_1 (map_Forall _ (abs mgr))); vm_compute. Qed.

Lemma exec_solvent_witness : all_solvent (exec usdKey history mgr).2.
Proof.
  exact (exec_solvent (LL := Qlib_laws) usdKey history mgr _ _ mgr_wf mgr_solvent
           history_headroom (surjective_pairing _)).
Defined.

Lemma exec_conservation_witness :
  (exec usdKey history mgr).1
    = [(OpReserve, 60000000); (OpConsume, 60000000); (OpCredit, 5000000)]
  /\ exists k', abs (exec usdKey history mgr).2 !! usdKey = Some k'
    /\ accounted (exec usdKey history mgr).1 (Cnt 100000000 0 0) k'.
Proof.
  split; [vm_compute; reflexivity|].
  refine (exec_conservation (LL := Qlib_laws) usdKey history mgr _ _ (Cnt 100000000 0 0) mgr_wf
            mgr_solvent history_headroom (surjective_pairing _) _).
  vm_compute. reflexivity.
Defined.

Lemma micro_units_exact_witness :
  toMicro (fromMicro 123456789) = Some 123456789
  /\ (fromMicro (micro (10000005 # 10000000)%Q) <= (10000005 # 10000000))%Q.
Proof.
  destruct (micro_units_exact (LL := Qlib_laws) 123456789 (10000005 # 10000000)%Q) as [H1 [H2 _]];
    [unfold maxMicroValue; lia|reflexivity|reflexivity|]. exact (conj H1 H2).
Defined.

Lemma tryAcquire_one_map_witness :
  held (idempotencyKey "a"%char "reserve") (tryAcquireIdempotency env0 "a"%char "reserve" mgr).2.
Proof.
  destruct (tryAcquire_one_map (LL := Qlib_laws) env0 "a"%char "reserve" mgr
    (tryAcquireIdempotency env0 "a"%char "reserve" mgr).2 "a"%char "reserve") as [_ [_ H]];
    [reflexivity|vm_compute; reflexivity|apply pair_fst; vm_compute; reflexivity|].
  apply H. by left.
Defined.
End TreasuryWitness.
