(* ===== verification/TreasuryConcurrent.v ===== *)
(** * treasury: the operations as interleaved goroutines

    src/treasury/manager.go updates a position's counters with atomic loads,
    stores, additions and compare-and-swap loops, and takes the position's
    mutex in [CommitReservation] and [ConsumeReservation] only.  Here each
    atomic access is one step of a thread, and a system interleaves any number
    of threads on one position.  A thread is a call past the guards that read
    its amount and the count of failed flushes only: it claims its idempotency
    key ([tryAcquireIdempotency], one step under the lock of the key's shard),
    runs its loop, writes to the log and, for Reserve and CreditBalance,
    flushes the position when the amount is large; [rollbackIdempotency] is a
    step of its own.  The log write and the flush are steps with either
    outcome.  The keys in the map are the ones claimed and not rolled back:
    the purge of keys after ten minutes (flush.go) is not a step here.

    Proved: under every interleaving of Reserve, Release and CreditBalance
    whose log writes and flushes succeed, each change of a counter is one
    atomic step of the abstract treasury, so positions stay solvent, the
    reserved counter is exactly what succeeded, and of the calls with one key
    at most one has taken effect; a Reserve left to run alone finishes.  And the
    limits of the design: schedules in which Reserve runs against
    ConsumeReservation, DebitBalance, CommitReservation or a release whose
    log write fails, and over-commits a position. *)

From S2P Require Import Prelude ThirdParty Treasury TreasuryFacts TreasuryProps.
Local Open Scope Z_scope.

(** ** Threads *)

(** The shared words of a position, the holder of its mutex, and the keys of
    the idempotency map. *)
Record shared := Sh { sh_cnt : counters; sh_mu : option nat; sh_keys : gset string }.

Definition set_bal (s : shared) (b : Z) : shared :=
  Sh (Cnt b (c_lock (sh_cnt s)) (c_res (sh_cnt s))) (sh_mu s) (sh_keys s).
Definition set_lock (s : shared) (l : Z) : shared :=
  Sh (Cnt (c_bal (sh_cnt s)) l (c_res (sh_cnt s))) (sh_mu s) (sh_keys s).
Definition set_res (s : shared) (r : Z) : shared :=
  Sh (Cnt (c_bal (sh_cnt s)) (c_lock (sh_cnt s)) r) (sh_mu s) (sh_keys s).
Definition set_mu (s : shared) (o : option nat) : shared := Sh (sh_cnt s) o (sh_keys s).
Definition set_keys (s : shared) (k : gset string) : shared := Sh (sh_cnt s) (sh_mu s) k.

Abbreviation bal s := (c_bal (sh_cnt s)).
Abbreviation lck s := (c_lock (sh_cnt s)).
Abbreviation res s := (c_res (sh_cnt s)).

(** Program counters: one constructor per atomic access to come, with the
    local variables read so far.  [Claim] is [tryAcquireIdempotency] and
    [Rollback] is [rollbackIdempotency]; a call that finds its key claimed
    ends as [Repeated], with a nil error. *)
Inductive pc : Set :=
| Claim | Rollback | Repeated
| RsvLoadBal | RsvLoadLock (b : Z) | RsvLoadRes (b l : Z) | RsvCas (b l r : Z) | RsvLog | RsvFlush
| RelLoad | RelCas (r : Z) | RelLog
| CrdAdd | CrdLog | CrdFlush
| DbtLoadBal | DbtLoadLock (b : Z) | DbtLoadRes (b l : Z) | DbtCas (b l r : Z) | DbtLog
| ComMu | ComLoad | ComStore (r : Z) | ComAdd | ComUnlock | ComLog
| ComUndoMu | ComUndoRes | ComUndoLock | ComUndoUnlock
| ConMu | ConLoadRes | ConLoadBal (r : Z) | ConStoreRes (r b : Z) | ConStoreBal (b : Z)
| ConUnlock | ConLog
| ConUndoMu | ConUndoRes | ConUndoBal | ConUndoUnlock
| ConFailUnlock
| Done (ok : bool).

#[export] Instance pc_eq_dec : EqDecision pc.
Proof. solve_decision. Defined.

(** The loop of Reserve, its log write and the flush of a large amount; a
    failure of either takes the amount back by one atomic addition. *)
Definition reserve_step (a : Z) (c : pc) (s : shared) (ok : bool) : option (pc * shared) :=
  match c with
  | RsvLoadBal => Some (RsvLoadLock (bal s), s)
  | RsvLoadLock b => Some (RsvLoadRes b (lck s), s)
  | RsvLoadRes b l =>
      let r := res s in
      if sub64 (sub64 b l) r <? a then Some (Rollback, s) else Some (RsvCas b l r, s)
  | RsvCas b l r =>
      if res s =? r then Some (RsvLog, set_res s (add64 r a)) else Some (RsvLoadBal, s)
  | RsvLog =>
      if ok then Some (RsvFlush, s)
      else Some (Rollback, set_res s (add64 (res s) (- a)))
  | RsvFlush =>
      if ok then Some (Done true, s)
      else Some (Rollback, set_res s (add64 (res s) (- a)))
  | _ => None
  end.

Definition release_step (a : Z) (c : pc) (s : shared) (ok : bool) : option (pc * shared) :=
  match c with
  | RelLoad => if res s <? a then Some (Rollback, s) else Some (RelCas (res s), s)
  | RelCas r =>
      if res s =? r then Some (RelLog, set_res s (sub64 r a)) else Some (RelLoad, s)
  | RelLog =>
      if ok then Some (Done true, s)
      else Some (Rollback, set_res s (add64 (res s) a))
  | _ => None
  end.

Definition credit_step (a : Z) (c : pc) (s : shared) (ok : bool) : option (pc * shared) :=
  match c with
  | CrdAdd => Some (CrdLog, set_bal s (add64 (bal s) a))
  | CrdLog =>
      if ok then Some (CrdFlush, s)
      else Some (Rollback, set_bal s (add64 (bal s) (- a)))
  | CrdFlush =>
      if ok then Some (Done true, s)
      else Some (Rollback, set_bal s (add64 (bal s) (- a)))
  | _ => None
  end.

Definition debit_step (a : Z) (c : pc) (s : shared) (ok : bool) : option (pc * shared) :=
  match c with
  | DbtLoadBal => Some (DbtLoadLock (bal s), s)
  | DbtLoadLock b => Some (DbtLoadRes b (lck s), s)
  | DbtLoadRes b l =>
      let r := res s in
      if sub64 (sub64 b l) r <? a then Some (Rollback, s) else Some (DbtCas b l r, s)
  | DbtCas b l r =>
      if bal s =? b then Some (DbtLog, set_bal s (sub64 b a)) else Some (DbtLoadBal, s)
  | DbtLog =>
      if ok then Some (Done true, s)
      else Some (Rollback, set_bal s (add64 (bal s) a))
  | _ => None
  end.

(** [mu.Lock()] blocks ([None]) while another thread holds the mutex. *)
Definition lock_mu (tid : nat) (next : pc) (s : shared) : option (pc * shared) :=
  match sh_mu s with
  | None => Some (next, set_mu s (Some tid))
  | Some _ => None
  end.

Definition commit_step (tid : nat) (a : Z) (c : pc) (s : shared) (ok : bool)
  : option (pc * shared) :=
  match c with
  | ComMu => lock_mu tid ComLoad s
  | ComLoad => if res s <? a then Some (ConFailUnlock, s) else Some (ComStore (res s), s)
  | ComStore r => Some (ComAdd, set_res s (sub64 r a))
  | ComAdd => Some (ComUnlock, set_lock s (add64 (lck s) a))
  | ComUnlock => Some (ComLog, set_mu s None)
  | ComLog => if ok then Some (Done true, s) else Some (ComUndoMu, s)
  | ComUndoMu => lock_mu tid ComUndoRes s
  | ComUndoRes => Some (ComUndoLock, set_res s (add64 (res s) a))
  | ComUndoLock => Some (ComUndoUnlock, set_lock s (add64 (lck s) (- a)))
  | ComUndoUnlock => Some (Rollback, set_mu s None)
  | ConFailUnlock => Some (Rollback, set_mu s None)
  | _ => None
  end.

Definition consume_step (tid : nat) (a : Z) (c : pc) (s : shared) (ok : bool)
  : option (pc * shared) :=
  match c with
  | ConMu => lock_mu tid ConLoadRes s
  | ConLoadRes => if res s <? a then Some (ConFailUnlock, s) else Some (ConLoadBal (res s), s)
  | ConLoadBal r =>
      if bal s <? a then Some (ConFailUnlock, s) else Some (ConStoreRes r (bal s), s)
  | ConStoreRes r b => Some (ConStoreBal b, set_res s (sub64 r a))
  | ConStoreBal b => Some (ConUnlock, set_bal s (sub64 b a))
  | ConUnlock => Some (ConLog, set_mu s None)
  | ConLog => if ok then Some (Done true, s) else Some (ConUndoMu, s)
  | ConUndoMu => lock_mu tid ConUndoRes s
  | ConUndoRes => Some (ConUndoBal, set_res s (add64 (res s) a))
  | ConUndoBal => Some (ConUndoUnlock, set_bal s (add64 (bal s) a))
  | ConUndoUnlock => Some (Rollback, set_mu s None)
  | ConFailUnlock => Some (Rollback, set_mu s None)
  | _ => None
  end.

(** A call: its operation, its key (the [idempotencyKey] of its reference and
    its operation), its amount in micro-units and where it is. *)
Record thread := Th { th_op : ReserveOpType; th_key : string; th_amount : Z; th_pc : pc }.

Definition start (op : ReserveOpType) : pc :=
  match op with
  | OpReserve => RsvLoadBal | OpRelease => RelLoad | OpCredit => CrdAdd
  | OpDebit => DbtLoadBal | OpCommit => ComMu | OpConsume => ConMu
  end.

Definition spawn (op : ReserveOpType) (key : string) (a : Z) : thread := Th op key a Claim.

Definition thread_step (tid : nat) (t : thread) (s : shared) (ok : bool)
  : option (thread * shared) :=
  let 'Th op key a c := t in
  '(c', s') ← match c with
              | Claim =>
                  if decide (key ∈ sh_keys s) then Some (Repeated, s)
                  else Some (start op, set_keys s ({[key]} ∪ sh_keys s))
              | Rollback => Some (Done false, set_keys s (sh_keys s ∖ {[key]}))
              | _ =>
              match op with
              | OpReserve => reserve_step a c s ok
              | OpRelease => release_step a c s ok
              | OpCredit => credit_step a c s ok
              | OpDebit => debit_step a c s ok
              | OpCommit => commit_step tid a c s ok
              | OpConsume => consume_step tid a c s ok
              end
              end;
  Some (Th op key a c', s').

(** ** Systems of threads *)

Abbreviation system := (list thread * shared)%type.

(** One step of thread [tid]; a thread that cannot move leaves the system as
    it is, so that a schedule is any list of thread numbers and outcomes. *)
Definition sched_step (x : nat * bool) (st : system) : system :=
  let '(ts, s) := st in
  match ts !! x.1 with
  | None => st
  | Some t =>
      match thread_step x.1 t s x.2 with
      | None => st
      | Some (t', s') => (<[x.1 := t']> ts, s')
      end
  end.

Definition schedule (sched : list (nat * bool)) (st : system) : system :=
  fold_left (fun st x => sched_step x st) sched st.

(** The relation: some thread moves. *)
Inductive sys_step (logs : bool -> Prop) : system -> system -> Prop :=
| SysStep ts s tid t t' s' ok :
    logs ok -> ts !! tid = Some t -> thread_step tid t s ok = Some (t', s') ->
    sys_step logs (ts, s) (<[tid := t']> ts, s').

(** Log writes and flushes that succeed. *)
Definition logs_ok (b : bool) : Prop := b = true.

(** What a thread has added to the reserved counter, and the credit it has
    still to add to the balance. *)
Definition th_reserved (t : thread) : Z :=
  match th_op t, th_pc t with
  | OpReserve, RsvLog | OpReserve, RsvFlush | OpReserve, Done true => th_amount t
  | OpRelease, RelLog | OpRelease, Done true => - th_amount t
  | _, _ => 0
  end.

Definition th_pending (t : thread) : Z :=
  match th_op t, th_pc t with OpCredit, Claim | OpCredit, CrdAdd => th_amount t | _, _ => 0 end.

Definition th_credited (t : thread) : Z :=
  match th_op t, th_pc t with
  | OpCredit, CrdLog | OpCredit, CrdFlush | OpCredit, Done true => th_amount t
  | _, _ => 0
  end.

(** The operation of a thread that has taken effect. *)
Definition th_applied (t : thread) : option (ReserveOpType * Z) :=
  match th_op t, th_pc t with
  | OpReserve, RsvLog | OpReserve, RsvFlush | OpRelease, RelLog
  | OpCredit, CrdLog | OpCredit, CrdFlush
  | OpReserve, Done true | OpRelease, Done true | OpCredit, Done true =>
      Some (th_op t, th_amount t)
  | _, _ => None
  end.

(** The abstract treasury run on operations one after the other. *)
Fixpoint seq_spec (l : list (ReserveOpType * Z)) (c : counters) : option counters :=
  match l with
  | [] => Some c
  | (op, a) :: l' => spec_f op a c ≫= seq_spec l'
  end.

Definition sum_threads (f : thread -> Z) (ts : list thread) : Z :=
  foldr (fun t z => f t + z) 0 ts.

(** The threads this part is about. *)
Definition lock_free (t : thread) : bool :=
  match th_op t with OpReserve | OpRelease | OpCredit => true | _ => false end.

(** What a thread knows at its program counter of the words [s]. *)
Definition local_inv (s : shared) (t : thread) : Prop :=
  lock_free t = true /\ 0 <= th_amount t /\
  match th_op t, th_pc t with
  | OpReserve, RsvLoadBal => True
  | OpReserve, RsvLoadLock b => 0 <= b <= bal s
  | OpReserve, RsvLoadRes b l => 0 <= b <= bal s /\ l = lck s
  | OpReserve, RsvCas b l r => 0 <= b <= bal s /\ l = lck s /\ 0 <= r /\ th_amount t <= b - l - r
  | OpReserve, RsvLog | OpReserve, RsvFlush => True
  | OpRelease, RelLoad => True
  | OpRelease, RelCas r => th_amount t <= r
  | OpRelease, RelLog => True
  | OpCredit, CrdAdd => True
  | OpCredit, CrdLog | OpCredit, CrdFlush => True
  | _, Claim | _, Rollback | _, Repeated | _, Done _ => True
  | _, _ => False
  end.

Definition sys_inv (st : system) : Prop :=
  let '(ts, s) := st in
  solvent (sh_cnt s) /\ bal s + sum_threads th_pending ts <= int64_max
  /\ Forall (local_inv s) ts.

(** ** Lemmas *)

Lemma sum_threads_insert f ts i t t' :
  ts !! i = Some t -> sum_threads f (<[i := t']> ts) = sum_threads f ts - f t + f t'.
Proof.
  revert i. induction ts as [|u ts IH]; intros [|i] H; simplify_eq/=; [lia|].
  rewrite (IH i) by done. lia.
Qed.

Lemma sum_threads_nonneg f ts :
  Forall (fun t => 0 <= f t) ts -> 0 <= sum_threads f ts.
Proof. induction 1; simpl; lia. Qed.

Lemma th_pending_nonneg s t : local_inv s t -> 0 <= th_pending t.
Proof. intros (_ & H & _). unfold th_pending. repeat case_match; lia. Qed.

Lemma pending_le s ts i t :
  Forall (local_inv s) ts -> ts !! i = Some t ->
  th_pending t <= sum_threads th_pending ts.
Proof.
  intros H. revert i. induction H as [|u ts Hu Hts IH]; intros [|i] Hi; simplify_eq/=.
  - assert (0 <= sum_threads th_pending ts); [|lia].
    apply sum_threads_nonneg. eapply Forall_impl; [exact Hts|]. apply th_pending_nonneg.
  - specialize (IH i Hi). pose proof (th_pending_nonneg _ _ Hu). lia.
Qed.

(** The words another thread's local facts speak of only move in directions
    that keep them. *)
Lemma local_inv_mono s s' t :
  bal s <= bal s' -> lck s' = lck s -> local_inv s t -> local_inv s' t.
Proof.
  intros Hb Hl (H1 & H2 & H3). split_and!; [done|done|].
  destruct (th_op t), (th_pc t); try done; rewrite ?Hl; lia.
Qed.

(** *** One step of one thread *)

Record step_ok (t t' : thread) (s s' : shared) : Prop := {
  so_local : local_inv s' t';
  so_bal : bal s <= bal s';
  so_lock : lck s' = lck s;
  so_solvent : solvent (sh_cnt s');
  so_res : res s' = res s + th_reserved t' - th_reserved t;
  so_credit : bal s' = bal s + th_credited t' - th_credited t;
  so_pending : bal s' + th_pending t' <= bal s + th_pending t;
  so_same : th_op t' = th_op t /\ th_amount t' = th_amount t;
  so_spec : (sh_cnt s' = sh_cnt s /\ th_applied t' = th_applied t)
            \/ (spec_f (th_op t) (th_amount t) (sh_cnt s) = Some (sh_cnt s')
                /\ th_applied t = None /\ th_applied t' = Some (th_op t, th_amount t));
}.

(** Close a [step_ok] goal by computation and arithmetic. *)
Ltac step_solve :=
  split; unfold local_inv, lock_free, solvent, th_reserved, th_credited, th_pending,
    spec_f, available in *; simpl in *; try (split_and!; done || lia); try lia;
  try (by left); try done.

Lemma reserve_step_ok key a c s s' c' :
  solvent (sh_cnt s) -> bal s <= int64_max -> local_inv s (Th OpReserve key a c) ->
  reserve_step a c s true = Some (c', s') ->
  step_ok (Th OpReserve key a c) (Th OpReserve key a c') s s'.
Proof.
  destruct s as [[b0 l0 r0] mu ks]. intros (S1 & S2 & S3) Hmax (_ & Ha & Hl) Hs.
  unfold solvent in *. simpl in *.
  destruct c; simpl in *; try done; simplify_eq/=.
  - step_solve.
  - step_solve.
  - destruct Hl as [Hb ->]. rewrite (sub64_id b l0), sub64_id in Hs by (int64; lia).
    destruct (Z.ltb_spec (b - l0 - r0) a); simplify_eq/=; step_solve.
  - destruct Hl as (Hb & -> & Hr & Hav). destruct (Z.eqb_spec r0 r); simplify_eq/=.
    + rewrite add64_id by (int64; lia). step_solve. right. split; [|done].
      destruct (Z.ltb_spec (b0 - l0 - r) a); [lia|done].
    + step_solve.
  - step_solve.
  - step_solve.
Qed.

Lemma release_step_ok key a c s s' c' :
  solvent (sh_cnt s) -> bal s <= int64_max -> local_inv s (Th OpRelease key a c) ->
  release_step a c s true = Some (c', s') ->
  step_ok (Th OpRelease key a c) (Th OpRelease key a c') s s'.
Proof.
  destruct s as [[b0 l0 r0] mu ks]. intros (S1 & S2 & S3) Hmax (_ & Ha & Hl) Hs.
  unfold solvent in *. simpl in *.
  destruct c; simpl in *; try done; simplify_eq/=.
  - destruct (Z.ltb_spec r0 a); simplify_eq/=; step_solve.
  - destruct (Z.eqb_spec r0 r); simplify_eq/=; [|step_solve].
    rewrite sub64_id by (int64; lia). step_solve. right. split; [|done].
    destruct (Z.ltb_spec r a); [lia|done].
  - step_solve.
Qed.

Lemma credit_step_ok key a c s s' c' :
  solvent (sh_cnt s) -> bal s + th_pending (Th OpCredit key a c) <= int64_max ->
  local_inv s (Th OpCredit key a c) -> credit_step a c s true = Some (c', s') ->
  step_ok (Th OpCredit key a c) (Th OpCredit key a c') s s'.
Proof.
  destruct s as [[b0 l0 r0] mu ks]. intros (S1 & S2 & S3) Hmax (_ & Ha & Hl) Hs.
  unfold solvent, th_pending in *. simpl in *.
  destruct c; simpl in *; try done; simplify_eq/=; [|step_solve..].
  rewrite add64_id by (int64; lia). step_solve. by right.
Qed.

(** The claim of the key and its rollback leave the counters alone. *)
Lemma claim_step_ok op key a s t' s' :
  solvent (sh_cnt s) -> local_inv s (Th op key a Claim) ->
  thread_step 0 (Th op key a Claim) s true = Some (t', s') ->
  step_ok (Th op key a Claim) t' s s'.
Proof.
  destruct s as [[b0 l0 r0] mu ks]. intros (S1 & S2 & S3) (Hf & Ha & Hl) Hs.
  unfold solvent, thread_step in *. simpl in *.
  case_decide; simplify_eq/=; destruct op; try done; step_solve.
Qed.

Lemma thread_step_ok tid t s t' s' :
  solvent (sh_cnt s) -> bal s + th_pending t <= int64_max -> bal s <= int64_max ->
  local_inv s t -> thread_step tid t s true = Some (t', s') -> step_ok t t' s s'.
Proof.
  intros Hs Hp Hb Hl. destruct t as [op key a c].
  destruct (decide (c = Claim)) as [->|Hc]; [by apply claim_step_ok|].
  destruct (decide (c = Rollback)) as [->|Hr].
  { destruct s as [[b0 l0 r0] mu ks]. intros [= <- <-]. destruct Hs as (S1 & S2 & S3).
    destruct Hl as (Hf & Ha & _). destruct op; try done; step_solve. }
  assert (forall c1 s1 (f : option (pc * shared)), f = Some (c1, s1) ->
    f ≫= (fun '(c', s') => Some (Th op key a c', s')) = Some (t', s') -> t' = Th op key a c1 /\ s' = s1)
    as Hbind by (intros c1 s1 f -> [= <- <-]; done).
  unfold thread_step. destruct op; try by destruct Hl.
  - destruct (reserve_step a c s true) as [[c1 s1]|] eqn:E; [|by destruct c].
    intros [-> ->]%(Hbind c1 s1); [by apply reserve_step_ok|by destruct c].
  - destruct (release_step a c s true) as [[c1 s1]|] eqn:E; [|by destruct c].
    intros [-> ->]%(Hbind c1 s1); [by apply release_step_ok|by destruct c].
  - destruct (credit_step a c s true) as [[c1 s1]|] eqn:E; [|by destruct c].
    intros [-> ->]%(Hbind c1 s1); [by apply credit_step_ok|by destruct c].
Qed.

Lemma sys_inv_step_ok ts s tid t t' s' :
  sys_inv (ts, s) -> ts !! tid = Some t -> thread_step tid t s true = Some (t', s') ->
  step_ok t t' s s'.
Proof.
  intros (Hsol & Hmax & Hloc) Ht Hst.
  pose proof (pending_le _ _ _ _ Hloc Ht) as Hp.
  assert (local_inv s t) as Hl by (by eapply Forall_lookup_1).
  pose proof (th_pending_nonneg _ _ Hl).
  apply (thread_step_ok tid); [done|lia|lia|done|done].
Qed.

Lemma sys_inv_step st st' : sys_inv st -> sys_step logs_ok st st' -> sys_inv st'.
Proof.
  intros Hinv Hstep. destruct Hstep as [ts s tid t t' s' b -> Ht Hst].
  destruct (sys_inv_step_ok _ _ _ _ _ _ Hinv Ht Hst) as [H1 H2 H3 H4 H5 H6 H7 _ _].
  destruct Hinv as (_ & Hmax & Hloc). split_and!; [done| |].
  - rewrite (sum_threads_insert _ _ _ t) by done. lia.
  - apply Forall_insert; [|done]. eapply Forall_impl; [exact Hloc|].
    intros u Hu. by apply (local_inv_mono s).
Qed.

Lemma sys_inv_init ops c keys :
  solvent c -> Forall (fun oa => 0 <= oa.2) ops ->
  Forall (fun oa => match oa.1.1 with OpReserve | OpRelease | OpCredit => True | _ => False end) ops ->
  c_bal c + sum_threads th_pending (map (fun oa => spawn oa.1.1 oa.1.2 oa.2) ops) <= int64_max ->
  sys_inv (map (fun oa => spawn oa.1.1 oa.1.2 oa.2) ops, Sh c None keys).
Proof.
  intros Hs Ha Hop Hmax. split_and!; [done|done|]. apply Forall_map.
  eapply Forall_impl; [apply Forall_and; split; [exact Ha|exact Hop]|].
  intros [[[] k] a] [H1 H2]; simpl in *; try done; by split_and!.
Qed.

Lemma sys_inv_reachable st st' : rtc (sys_step logs_ok) st st' -> sys_inv st -> sys_inv st'.
Proof. apply (invariant_rtc (sys_step logs_ok) sys_inv). apply sys_inv_step. Qed.

Lemma seq_spec_snoc l op a c c1 c2 :
  seq_spec l c = Some c1 -> spec_f op a c1 = Some c2 -> seq_spec (l ++ [(op, a)]) c = Some c2.
Proof.
  revert c. induction l as [|[op' a'] l IH]; intros c H1 H2; simplify_eq/=.
  - by rewrite H2.
  - destruct (spec_f op' a' c) as [c'|]; [|done]. simpl in *. by apply IH.
Qed.

Lemma applied_insert (ts : list thread) (tid : nat) t t' x :
  ts !! tid = Some t -> th_applied t = None -> th_applied t' = Some x ->
  omap th_applied (<[tid := t']> ts) ≡ₚ omap th_applied ts ++ [x].
Proof.
  intros Ht Hn Hx. rewrite insert_take_drop by (by eapply lookup_lt_Some).
  rewrite <- (take_drop_middle ts tid t) at 3 by done.
  rewrite !omap_app. simpl. rewrite Hx, Hn. solve_Permutation.
Qed.

Lemma applied_same (ts : list thread) (tid : nat) t t' :
  ts !! tid = Some t -> th_applied t' = th_applied t ->
  omap th_applied (<[tid := t']> ts) = omap th_applied ts.
Proof.
  intros Ht Hx. rewrite insert_take_drop by (by eapply lookup_lt_Some).
  rewrite <- (take_drop_middle ts tid t) at 3 by done.
  rewrite !omap_app. simpl. by rewrite Hx.
Qed.

(** A linearization of what has taken effect so far. *)
Definition linearized (c : counters) (st : system) : Prop :=
  exists l, l ≡ₚ omap th_applied st.1 /\ seq_spec l c = Some (sh_cnt st.2).

Lemma linearized_step c st st' :
  sys_inv st /\ linearized c st -> sys_step logs_ok st st' ->
  sys_inv st' /\ linearized c st'.
Proof.
  intros [Hinv (l & Hl & Hseq)] Hstep. split; [by eapply sys_inv_step|].
  destruct Hstep as [ts s tid t t' s' b -> Ht Hst]. simpl in *.
  destruct (so_spec _ _ _ _ (sys_inv_step_ok _ _ _ _ _ _ Hinv Ht Hst))
    as [[Hc Ha]|(Hf & Hn & Ha)].
  - exists l. simpl. rewrite (applied_same _ _ t) by done. by rewrite Hc.
  - exists (l ++ [(th_op t, th_amount t)]). simpl. split.
    + by rewrite (applied_insert _ _ t), Hl by done.
    + by eapply seq_spec_snoc.
Qed.

Definition sums_inv (c : counters) (st : system) : Prop :=
  res st.2 = c_res c + sum_threads th_reserved st.1
  /\ bal st.2 = c_bal c + sum_threads th_credited st.1
  /\ lck st.2 = c_lock c.

Lemma sums_step c st st' :
  sys_inv st /\ sums_inv c st -> sys_step logs_ok st st' -> sys_inv st' /\ sums_inv c st'.
Proof.
  intros [Hinv (H1 & H2 & H3)] Hstep. split; [by eapply sys_inv_step|].
  destruct Hstep as [ts s tid t t' s' b -> Ht Hst]. simpl in *.
  destruct (sys_inv_step_ok _ _ _ _ _ _ Hinv Ht Hst). unfold sums_inv. simpl.
  rewrite !(sum_threads_insert _ _ _ t) by done. lia.
Qed.

Lemma sum_threads_spawn f ops :
  (forall op key a, f (spawn op key a) = 0) -> sum_threads f (map (fun oa => spawn oa.1.1 oa.1.2 oa.2) ops) = 0.
Proof. intros H. induction ops as [|[[op key] a] ops IH]; simpl; [done|]. rewrite H. lia. Qed.

Lemma omap_applied_spawn ops : omap th_applied (map (fun oa => spawn oa.1.1 oa.1.2 oa.2) ops) = [].
Proof. by induction ops as [|[[[] key] a] ops IH]. Qed.

(** *** Keys *)

(** A thread holds its key from the claim until it is rolled back. *)
Definition holding (t : thread) : bool :=
  match th_pc t with Claim | Repeated | Done false => false | _ => true end.

Lemma applied_holding t : is_Some (th_applied t) -> holding t = true.
Proof. unfold th_applied, holding. intros [x H]. by repeat case_match. Qed.

Definition keys_inv (st : system) : Prop :=
  (forall i t, st.1 !! i = Some t -> holding t = true -> th_key t ∈ sh_keys st.2)
  /\ (forall i j t u, st.1 !! i = Some t -> st.1 !! j = Some u -> i <> j ->
        holding t = true -> holding u = true -> th_key t <> th_key u).

(** What a step does with the key of its thread. *)
Inductive key_step (t t' : thread) (s s' : shared) : Prop :=
| KeyClaim : holding t = false -> holding t' = true -> th_key t ∉ sh_keys s ->
    sh_keys s' = {[th_key t]} ∪ sh_keys s -> key_step t t' s s'
| KeyBack : holding t = true -> holding t' = false ->
    sh_keys s' = sh_keys s ∖ {[th_key t]} -> key_step t t' s s'
| KeySame : holding t' = holding t -> sh_keys s' = sh_keys s -> key_step t t' s s'.

Lemma thread_step_keys tid t s ok t' s' :
  thread_step tid t s ok = Some (t', s') -> th_key t' = th_key t /\ key_step t t' s s'.
Proof.
  destruct t as [op key a c]. intros H. unfold thread_step in H.
  destruct c; simpl in H;
    [|by simplify_eq/=; split; [done|by apply KeyBack]|by destruct op
     |destruct op; simpl in H; unfold lock_mu in H; repeat case_match; simplify_eq/=;
      (split; [done|by apply KeySame])..].
  case_decide; simplify_eq/=; (split; [done|]); [by apply KeySame|].
  apply KeyClaim; [done|by destruct op|done|done].
Qed.

Lemma keys_step logs st st' : keys_inv st -> sys_step logs st st' -> keys_inv st'.
Proof.
  intros [H1 H2] Hstep. destruct Hstep as [ts s tid t t' s' ok _ Ht Hst]. simpl in *.
  destruct (thread_step_keys _ _ _ _ _ _ Hst) as [Hk Hs].
  assert (forall i u, <[tid:=t']> ts !! i = Some u ->
            (i = tid /\ u = t') \/ (i <> tid /\ ts !! i = Some u)) as Hi.
  { intros i u [(-> & <- & _)|[? ?]]%list_lookup_insert_Some; auto. }
  split; simpl.
  - intros i u [(-> & ->)|(Hne & Hu)]%Hi Hh.
    + rewrite Hk. destruct Hs as [? ? ? ->| ? ? _|Eh ->]; [set_solver|congruence|].
      apply (H1 tid); [done|congruence].
    + pose proof (H1 i u Hu Hh) as Hin.
      destruct Hs as [? ? ? ->|Ho ? ->|? ->]; [set_solver| |done].
      pose proof (H2 i tid u t Hu Ht Hne Hh Ho). set_solver.
  - assert (forall i u, i <> tid -> ts !! i = Some u -> holding u = true -> holding t' = true ->
              th_key u <> th_key t) as Hx.
    { intros i u Hne Hu Hh Ht'. destruct Hs as [_ _ Hn _|_ Hf _|Eh _].
      - intros E. apply Hn. rewrite <- E. by apply (H1 i).
      - congruence.
      - apply (H2 i tid); congruence. }
    intros i j u v [(-> & ->)|(Hn & Hu)]%Hi [(-> & ->)|(Hn' & Hv)]%Hi Hij Hh Hh'; [done| | |].
    + rewrite Hk. apply not_eq_sym. by apply (Hx j).
    + rewrite Hk. by apply (Hx i).
    + by apply (H2 i j).
Qed.

Lemma keys_init ops c keys : keys_inv (map (fun oa => spawn oa.1.1 oa.1.2 oa.2) ops, Sh c None keys).
Proof.
  assert (forall i t, map (fun oa => spawn oa.1.1 oa.1.2 oa.2) ops !! i = Some t -> holding t = false) as H.
  { intros i t Ht. rewrite list_lookup_fmap in Ht. by destruct (ops !! i); simplify_eq/=. }
  split; simpl; intros; by erewrite H in *.
Qed.

(** A schedule is a run of the system. *)
Lemma schedule_rtc sched st :
  Forall (fun x => x.2 = true) sched -> rtc (sys_step logs_ok) st (schedule sched st).
Proof.
  intros H. revert st. induction H as [|[tid b] sched Hb H IH]; intros st; [done|]. simpl in *.
  etrans; [|apply IH]. subst b. unfold sched_step. destruct st as [ts s]. simpl.
  destruct (ts !! tid) as [t|] eqn:Ht; [|done].
  destruct (thread_step tid t s true) as [[t' s']|] eqn:Hst; [|done].
  apply rtc_once. by econstructor.
Qed.

(** *** A thread alone *)

Fixpoint solo (n : nat) (t : thread) (s : shared) : thread * shared :=
  match n with
  | O => (t, s)
  | Datatypes.S n' =>
      match thread_step 0 t s true with
      | Some (t', s') => solo n' t' s'
      | None => (t, s)
      end
  end.

(** ** Properties *)

Section ConcurrentProperties.
Context (ops : list (ReserveOpType * string * Z)) (c : counters) (keys : gset string).
Abbreviation init := (map (fun oa => spawn oa.1.1 oa.1.2 oa.2) ops, Sh c None keys).

(** C3: No interleaving of concurrent Reserve, Release and CreditBalance
    calls over-commits a solvent position, as long as the log writes and the
    flushes of large amounts succeed and the balance with all the credits
    still to come stays in the int64 range: at every reachable moment locked
    and reserved are non-negative and together at most the balance, reserved
    is the initial reserved plus the reservations less the releases that have
    taken effect, the balance is the initial balance plus the credits, so
    that no update is lost, and of calls with the same idempotency key at
    most one has taken effect. *)
Theorem concurrent_no_overcommit ts s :
  solvent c ->
  Forall (fun oa => 0 <= oa.2) ops ->
  Forall (fun oa => match oa.1.1 with OpReserve | OpRelease | OpCredit => True | _ => False end) ops ->
  c_bal c + sum_threads th_pending init.1 <= int64_max ->
  rtc (sys_step logs_ok) init (ts, s) ->
  solvent (sh_cnt s)
  /\ res s = c_res c + sum_threads th_reserved ts
  /\ bal s = c_bal c + sum_threads th_credited ts
  /\ lck s = c_lock c
  /\ forall i j t u, ts !! i = Some t -> ts !! j = Some u -> i <> j ->
       is_Some (th_applied t) -> is_Some (th_applied u) -> th_key t <> th_key u.
Proof.
  intros Hs Ha Hop Hmax Hr.
  destruct (invariant_rtc _ _ (sums_step c) _ _ Hr) as [(Hsol & _) (H1 & H2 & H3)].
  { split; [by apply sys_inv_init|]. unfold sums_inv. simpl.
    rewrite !sum_threads_spawn by (by intros []). lia. }
  destruct (invariant_rtc _ _ (keys_step logs_ok) _ _ Hr (keys_init ops c keys)) as [_ Hk].
  split_and!; [done..|]. intros i j t u Ht Hu Hij At%applied_holding Au%applied_holding.
  by apply (Hk i j).
Qed.

(** C20: The lock-free operations are linearizable, while the log writes and
    the flushes of large amounts succeed, the position is solvent to begin
    with and its balance has room for the credits to come: at every
    reachable moment the counters are those the abstract treasury reaches by
    running, one after the other in some order, exactly the operations that
    have taken effect. *)
Theorem concurrent_linearizable ts s :
  solvent c ->
  Forall (fun oa => 0 <= oa.2) ops ->
  Forall (fun oa => match oa.1.1 with OpReserve | OpRelease | OpCredit => True | _ => False end) ops ->
  c_bal c + sum_threads th_pending init.1 <= int64_max ->
  rtc (sys_step logs_ok) init (ts, s) ->
  exists l, l ≡ₚ omap th_applied ts /\ seq_spec l c = Some (sh_cnt s).
Proof.
  intros Hs Ha Hop Hmax Hr.
  destruct (invariant_rtc _ _ (linearized_step c) _ _ Hr) as [_ Hlin].
  - split; [by apply sys_inv_init|]. exists []. simpl. by rewrite omap_applied_spawn.
  - done.
Qed.
End ConcurrentProperties.

(** The compare-and-swap loop of Reserve is obstruction-free: from any
    point of the loop and any counters, a Reserve that runs alone returns
    within nine steps. *)
Theorem reserve_solo_terminates key a p s :
  match p with
  | RsvLoadBal | RsvLoadLock _ | RsvLoadRes _ _ | RsvCas _ _ _ | RsvLog | RsvFlush => True
  | _ => False
  end ->
  exists ok, th_pc (solo 9 (Th OpReserve key a p) s).1 = Done ok.
Proof.
  destruct s as [[b0 l0 r0] mu ks]. intros Hp. destruct p; try done; simpl;
    repeat (case_match; simplify_eq/=); eauto;
    rewrite ?Z.eqb_neq, ?Z.eqb_eq in *; try lia; eauto.
Qed.

(** ** The limits of the design

    Reserve reads balance, locked and reserved one after the other, and its
    compare-and-swap re-validates reserved only.  An operation that lowers
    the balance or raises locked between the reads goes unnoticed. *)

Definition all_done (ok : bool) (st : system) : Prop :=
  Forall (fun t => th_pc t = Done ok) st.1.

(** Reserve racing ConsumeReservation over-commits.  With 100 of
    balance, all of it reserved, a Reserve of 100 that has read the balance
    before the consumption and reads reserved after it succeeds, and so does
    the consumption: 100 is left reserved against a balance of zero. *)
Lemma reserve_consume_overcommits :
  exists sched, let st := schedule sched
    ([spawn OpReserve "r1" 100; spawn OpConsume "c1" 100], Sh (Cnt 100 0 100) None ∅) in
    all_done true st /\ sh_cnt st.2 = Cnt 0 0 100.
Proof.
  exists (replicate 3 (0%nat, true) ++ replicate 8 (1%nat, true) ++ replicate 4 (0%nat, true)).
  split; [|reflexivity]. repeat constructor.
Qed.

(** Reserve racing DebitBalance over-commits: both see the same 100
    available, and since one compare-and-swaps reserved and the other the
    balance, both succeed. *)
Lemma reserve_debit_overcommits :
  exists sched, let st := schedule sched
    ([spawn OpReserve "r1" 100; spawn OpDebit "d1" 100], Sh (Cnt 100 0 0) None ∅) in
    all_done true st /\ sh_cnt st.2 = Cnt 0 0 100.
Proof.
  exists (replicate 4 (0%nat, true) ++ replicate 6 (1%nat, true) ++ replicate 3 (0%nat, true)).
  split; [|reflexivity]. repeat constructor.
Qed.

(** CommitReservation loses a concurrent reservation: it loads reserved
    and stores the difference, and a Reserve that succeeds between the two,
    which does not take the mutex, is overwritten. *)
Lemma commit_loses_reservation :
  exists sched, let st := schedule sched
    ([spawn OpReserve "r1" 50; spawn OpCommit "m1" 50], Sh (Cnt 100 0 50) None ∅) in
    all_done true st /\ sh_cnt st.2 = Cnt 100 50 0.
Proof.
  exists (replicate 3 (1%nat, true) ++ replicate 7 (0%nat, true) ++ replicate 4 (1%nat, true)).
  split; [|reflexivity]. repeat constructor.
Qed.

(** Rolling a Release back after a failed log write adds the amount to
    reserved without looking at what is available: if a Reserve took the
    funds in between, the position ends over-committed although the Release
    reported failure. *)
Lemma release_rollback_overcommits :
  exists sched, let st := schedule sched
    ([spawn OpReserve "r1" 100; spawn OpRelease "l1" 100], Sh (Cnt 100 0 100) None ∅) in
    th_pc <$> st.1 = [Done true; Done false] /\ sh_cnt st.2 = Cnt 100 0 200.
Proof.
  exists (replicate 3 (1%nat, true) ++ replicate 7 (0%nat, true) ++ replicate 2 (1%nat, false)).
  by split.
Qed.

(** A Reserve is not safe beside the operations that do not
    compare-and-swap reserved.  There are interleavings in which a Reserve
    and a ConsumeReservation, and a Reserve and a DebitBalance, both succeed
    and leave 100 reserved against a balance of zero; one in which a
    CommitReservation overwrites a reservation that was granted; and one in
    which a Release whose log write fails re-adds its amount after the funds
    were reserved again, so that 200 is reserved against 100. *)
Theorem mixed_operations_race :
  (exists sched, let st := schedule sched
     ([spawn OpReserve "r1" 100; spawn OpConsume "c1" 100], Sh (Cnt 100 0 100) None ∅) in
     all_done true st /\ sh_cnt st.2 = Cnt 0 0 100)
  /\ (exists sched, let st := schedule sched
     ([spawn OpReserve "r1" 100; spawn OpDebit "d1" 100], Sh (Cnt 100 0 0) None ∅) in
     all_done true st /\ sh_cnt st.2 = Cnt 0 0 100)
  /\ (exists sched, let st := schedule sched
     ([spawn OpReserve "r1" 50; spawn OpCommit "m1" 50], Sh (Cnt 100 0 50) None ∅) in
     all_done true st /\ sh_cnt st.2 = Cnt 100 50 0)
  /\ (exists sched, let st := schedule sched
     ([spawn OpReserve "r1" 100; spawn OpRelease "l1" 100], Sh (Cnt 100 0 100) None ∅) in
     th_pc <$> st.1 = [Done true; Done false] /\ sh_cnt st.2 = Cnt 100 0 200).
Proof.
  exact (conj reserve_consume_overcommits (conj reserve_debit_overcommits
    (conj commit_loses_reservation release_rollback_overcommits))).
Qed.

(** ** Witnesses *)

Module ConcurrentWitness.
Definition ops : list (ReserveOpType * string * Z) :=
  [(OpReserve, "a:reserve", 60); (OpReserve, "b:reserve", 60); (OpCredit, "c:credit", 10);
   (OpReserve, "a:reserve", 60)].
Definition books : counters := Cnt 100 0 0.
Definition initial : system := (map (fun oa => spawn oa.1.1 oa.1.2 oa.2) ops, Sh books None ∅).

(** The two reservations interleave; the second one is turned down, and the
    repeat of the first one finds its key taken. *)
Definition last : system :=
  schedule (map (fun i => (i, true))
    [0; 1; 3; 0; 1; 0; 1; 0; 1; 2; 2; 0; 1; 1; 1; 1; 1; 0; 0; 2; 2])%nat initial.

Lemma steps_last : rtc (sys_step logs_ok) initial (last.1, last.2).
Proof. rewrite <- surjective_pairing. unfold last. apply schedule_rtc. repeat constructor. Qed.

Lemma books_solvent : solvent books.
Proof. unfold solvent. simpl. lia. Qed.

Lemma concurrent_no_overcommit_witness : solvent (sh_cnt last.2)
  /\ map th_pc last.1 = [Done true; Done false; Done true; Repeated].
Proof.
  split; [|reflexivity]. apply (concurrent_no_overcommit ops books ∅ last.1 last.2).
  - apply books_solvent.
  - repeat constructor; simpl; lia.
  - repeat constructor.
  - vm_compute. discriminate.
  - apply steps_last.
Defined.

Lemma concurrent_linearizable_witness :
  exists l, l ≡ₚ omap th_applied last.1 /\ seq_spec l books = Some (sh_cnt last.2).
Proof.
  apply (concurrent_linearizable ops books ∅ last.1 last.2).
  - apply books_solvent.
  - repeat constructor; simpl; lia.
  - repeat constructor.
  - vm_compute. discriminate.
  - apply steps_last.
Defined.

Lemma reserve_solo_terminates_witness :
  exists ok, th_pc (solo 9 (Th OpReserve "a:reserve" 60 (RsvCas 100 0 7)) (Sh books None ∅)).1 = Done ok.
Proof. apply (reserve_solo_terminates "a:reserve" 60 (RsvCas 100 0 7) (Sh books None ∅)). exact I. Defined.
End ConcurrentWitness.
