(* ===== verification/TreasuryFlush.v ===== *)
(** * treasury: flush loop, event writer, start-up

    Models src/treasury/flush.go, src/treasury/event_writer.go,
    src/treasury/loader.go and [dirtyPositions] of src/treasury/manager.go:
    the background goroutines that write the in-memory positions and the
    audit events to the database, and the loading of the positions at
    start-up with the replay of the write-ahead log.

    Go iterates a map in no particular order; the order in which the dirty
    set is drained is the parameter [iter].  A tick of the flush loop is one
    run of its select statement; the loop itself is a function of the
    instants at which its ticker fires before [Stop] is called. *)

From Stdlib Require Import QArith.
From S2P Require Import Prelude ThirdParty Money Treasury.
Local Open Scope string_scope.
Local Open Scope Z_scope.

(** Go's [int32], the type of the paging offset. *)
Definition wrap32 (z : Z) : Z := (z + 2 ^ 31) mod 2 ^ 32 - 2 ^ 31.

Section Flush.
Context {L : ThirdParty} {S : Type} `{TS : !TreasuryStore S}.
Context (iter : gmap positionKey nat -> list nat).
Implicit Types m : Manager S.

Definition set_store m (s : S) : Manager S :=
  set_io m s (mg_pendingOps m) (mg_pendingEvents m) (mg_alerts m).

(** ** The flush loop *)

Definition idempotencyCleanupInterval : Z := 60.
Definition idempotencyMaxAge : Z := 10 * 60 * 1000000000.
Definition reserveOpsCleanupInterval : Z := 600.
Definition reserveOpsMaxAge : Z := 3600 * 1000000000.

Definition drainPendingOps m : Manager S :=
  set_io m (mg_store m) [] (mg_pendingEvents m) (mg_alerts m).

Definition dirtyPositions m : list nat * Manager S :=
  (iter (mg_dirtySet m), set_dirtySet m ∅).

Definition clearDirty (p : nat) m : Manager S :=
  match deref p m with
  | Some ps => set_heap m (<[p := set_dirty ps false]> (mg_heap m))
  | None => m
  end.

(** Go's three results of a flush. *)
Record FlushResult := {
  fl_flushed : Z;
  fl_hadError : bool;
  fl_failedPositionIDs : list UUID;
}.

Definition positionUpdate (ps : PositionState) : PositionUpdate :=
  {| pu_ID := ps_ID ps; pu_TenantID := ps_TenantID ps;
     pu_Balance := fromMicro (ps_balanceMicro ps);
     pu_Locked := fromMicro (ps_lockedMicro ps) |}.

(** The updates of a batch, beside the pointers they were read from. *)
Definition batchUpdates (dirty : list nat) m : list (nat * PositionUpdate) :=
  omap (fun p => (fun ps => (p, positionUpdate ps)) <$> deref p m) dirty.

Definition markAllDirty (dirty : list nat) m : Manager S :=
  fold_left (fun m p => markDirty p m) dirty m.

(** Clears the flag and writes the history row; its failure is only logged. *)
Definition recordFlushed m (pu : nat * PositionUpdate) : Manager S :=
  let m := clearDirty pu.1 m in
  set_store m (RecordHistory (pu_ID pu.2) (pu_TenantID pu.2) (pu_Balance pu.2)
                 (pu_Locked pu.2) "flush" (mg_store m)).2.

Definition flushBatch (batch : list PositionUpdate -> S -> result unit * S)
    (dirty : list nat) m : FlushResult * Manager S :=
  let updates := batchUpdates dirty m in
  match batch (map snd updates) (mg_store m) with
  | (Err _, s) =>
      ({| fl_flushed := 0; fl_hadError := true;
          fl_failedPositionIDs := map (fun pu => pu_ID pu.2) updates |},
       markAllDirty dirty (set_store m s))
  | (Ok _, s) =>
      ({| fl_flushed := Z.of_nat (length dirty); fl_hadError := false;
          fl_failedPositionIDs := [] |},
       fold_left recordFlushed updates (set_store m s))
  end.

(** One turn of the loop of [flushIndividual]. *)
Definition flushPosition (acc : FlushResult * Manager S) (p : nat) : FlushResult * Manager S :=
  let '(r, m) := acc in
  match deref p m with
  | None => acc
  | Some ps =>
      let balance := fromMicro (ps_balanceMicro ps) in
      let locked := fromMicro (ps_lockedMicro ps) in
      match UpdatePosition (ps_ID ps) balance locked (mg_store m) with
      | (Err _, s) =>
          ({| fl_flushed := fl_flushed r; fl_hadError := true;
              fl_failedPositionIDs := (fl_failedPositionIDs r ++ [ps_ID ps])%list |},
           markDirty p (set_store m s))
      | (Ok _, s) =>
          let s := (RecordHistory (ps_ID ps) (ps_TenantID ps) balance locked "flush" s).2 in
          ({| fl_flushed := fl_flushed r + 1; fl_hadError := fl_hadError r;
              fl_failedPositionIDs := fl_failedPositionIDs r |},
           clearDirty p (set_store m s))
      end
  end.

Definition flushIndividual (dirty : list nat) m : FlushResult * Manager S :=
  fold_left flushPosition dirty
    ({| fl_flushed := 0; fl_hadError := false; fl_failedPositionIDs := [] |}, m).

Definition flushDirtyPositions (dirty : list nat) m : FlushResult * Manager S :=
  match BatchUpdatePositions with
  | Some batch => flushBatch batch dirty m
  | None => flushIndividual dirty m
  end.

Definition flushOnce m : Manager S :=
  let m := drainPendingOps m in
  let '(dirty, m) := dirtyPositions m in
  match dirty with
  | [] => m
  | _ =>
      let '(r, m) := flushDirtyPositions dirty m in
      if fl_hadError r
      then set_flush_status m (mg_replaying m) (add64 (mg_consecutiveFlushFailures m) 1)
             (fl_failedPositionIDs r)
      else set_flush_status m (mg_replaying m) 0 []
  end.

Definition cleanupOldReserveOps (now : Z) m : Manager S :=
  match LogReserveOp with
  | None => m
  | Some _ => set_store m (CleanupOldOps (now - reserveOpsMaxAge) (mg_store m)).2
  end.

(** The branch of the select on the ticker, and the loop until [Stop]. *)
Definition flushTick (now tickCount : Z) m : Manager S :=
  let m := flushOnce m in
  let m := if tickCount mod idempotencyCleanupInterval =? 0
           then cleanupIdempotencyMap now idempotencyMaxAge m else m in
  if tickCount mod reserveOpsCleanupInterval =? 0 then cleanupOldReserveOps now m else m.

Fixpoint flushLoop (ticks : list Z) (tickCount : Z) m : Manager S :=
  match ticks with
  | [] => flushOnce m
  | now :: rest => flushLoop rest (tickCount + 1) (flushTick now (tickCount + 1) m)
  end.

(** ** The event writer *)

Definition eventWriteBatchSize : nat := 1000.

Definition set_events m (evs : list PositionEvent) : Manager S :=
  set_io m (mg_store m) (mg_pendingOps m) evs (mg_alerts m).

Definition drainEventChannel m : list PositionEvent * Manager S :=
  (take eventWriteBatchSize (mg_pendingEvents m),
   set_events m (drop eventWriteBatchSize (mg_pendingEvents m))).

(** Puts events back until the channel is full. *)
Fixpoint requeue (batch : list PositionEvent) m : Manager S :=
  match batch with
  | [] => m
  | evt :: rest =>
      if Z.of_nat (length (mg_pendingEvents m)) <? pendingEventsCap
      then requeue rest (set_events m (mg_pendingEvents m ++ [evt])%list)
      else m
  end.

Definition drainAndWriteEvents m : Manager S :=
  let '(batch, m) := drainEventChannel m in
  match batch with
  | [] => m
  | _ =>
      match BatchWriteEvents with
      | None => m
      | Some write =>
          match write batch (mg_store m) with
          | (Ok _, s) => set_store m s
          | (Err _, s) => requeue batch (set_store m s)
          end
      end
  end.

(** ** Start-up *)

Definition positionBatchSize : Z := 1000.

(** [LoadPositions] first empties every index and every shard. *)
Definition resetIndexes m : Manager S :=
  set_shards (set_dirtySet (set_indexes m (mg_next m) ∅ ∅) ∅) (replicate 16 ∅).

(** [None]: a row panics in [toMicro]. *)
Fixpoint addPositions (rows : list Position) m : option (Manager S) :=
  match rows with
  | [] => Some m
  | pos :: rest => addPosition pos m ≫= addPositions rest
  end.

(** The paging loop; the outer option is [None] when the fuel is spent. *)
Fixpoint loadPages (fuel : nat) (offset : Z) m : option (result unit * Manager S) :=
  match fuel with
  | O => None
  | Datatypes.S fuel =>
      match LoadPositionsPaginated positionBatchSize offset (mg_store m) with
      | Err e => Some (Err (WrapErr "loading positions batch" e), m)
      | Ok rows =>
          match addPositions rows m with
          | None => Some (Err (PanicErr "amount overflows int64 micro-units"), m)
          | Some m =>
              if Z.of_nat (length rows) <? positionBatchSize then Some (Ok tt, m)
              else loadPages fuel (wrap32 (offset + positionBatchSize)) m
          end
      end
  end.

(** The six types are all there are in the log: a CHECK on the column
    op_type rules out the default case, an unknown type. *)
Definition replayOp (env : Env) (op : ReserveOp) m : result unit * Manager S :=
  let t := ro_TenantID op in let c := ro_Currency op in let l := ro_Location op in
  let a := ro_Amount op in let r := ro_Reference op in
  match ro_OpType op with
  | OpReserve => Reserve env t c l a r m
  | OpRelease => Release env t c l a r m
  | OpCommit => CommitReservation env t c l a r m
  | OpConsume => ConsumeReservation env t c l a r m
  | OpCredit => CreditBalance env t c l a r "recovery" m
  | OpDebit => DebitBalance env t c l a r "recovery" m
  end.

(** An operation that cannot be replayed is logged and skipped; a panic
    unwinds the whole start-up. *)
Fixpoint replayOps (env : Env) (ops : list ReserveOp) m : result unit * Manager S :=
  match ops with
  | [] => (Ok tt, m)
  | op :: rest =>
      match replayOp env op m with
      | (Err (PanicErr t), m) => (Err (PanicErr t), m)
      | (_, m) => replayOps env rest m
      end
  end.

Definition set_replaying m (b : bool) : Manager S :=
  set_flush_status m b (mg_consecutiveFlushFailures m) (mg_failedPositionIDs m).

Definition LoadPositions (env : Env) (fuel : nat) m : option (result unit * Manager S) :=
  match loadPages fuel 0 (resetIndexes m) with
  | Some (Ok _, m) =>
      let m := set_replaying m true in
      match LogReserveOp, GetUncommittedOps (mg_store m) with
      | Some _, Ok ops =>
          match replayOps env ops m with
          | (Ok _, m) => Some (Ok tt, set_replaying m false)
          | (Err e, m) => Some (Err e, m)
          end
      | _, _ => Some (Ok tt, set_replaying m false)
      end
  | out => out
  end.
End Flush.
