(* ===== verification/TreasurySync.v ===== *)
(** * treasury: the database tracks the memory

    What the manager needs of its store, as laws over the interface
    [TreasuryStore], and the invariant that ties the positions table to the
    in-memory counters: a position outside the dirty set has a row with its
    balance and locked amount.  Every operation keeps it, and a flush without
    an error leaves nothing dirty. *)

From Stdlib Require Import QArith Lqa.
From S2P Require Import Prelude ThirdParty Money Treasury TreasuryFacts TreasuryProps TreasuryFlush.
Local Open Scope string_scope.
Local Open Scope Z_scope.

(** ** Rows *)

Section Rows.
Context {L : ThirdParty} {LL : ThirdPartyLaws L}.

Definition row_meta (r : Position) :=
  (pos_ID r, pos_TenantID r, pos_Currency r, pos_Location r, pos_MinBalance r, pos_TargetBalance r).

Definition row_key (r : Position) : positionKey :=
  (pos_TenantID r, pos_Currency r, pos_Location r).

(** A decimal as a NUMERIC(28,8) column keeps it. *)
Definition stored_as (d col : Decimal) : Prop := (dVal col == Qround_places 8 (dVal d))%Q.

Definition same_amounts (r r' : Position) : Prop :=
  pos_Balance r' = pos_Balance r /\ pos_Locked r' = pos_Locked r.

Definition holds_amounts (b l : Decimal) (r : Position) : Prop :=
  stored_as b (pos_Balance r) /\ stored_as l (pos_Locked r).

(** What an UPDATE of one id does to a row, and what a batch does: rows it
    does not name are untouched even when it fails half-way. *)
Definition row_set (id : UUID) (b l : Decimal) (r r' : Position) : Prop :=
  row_meta r' = row_meta r
  /\ (pos_ID r = id -> holds_amounts b l r') /\ (pos_ID r <> id -> same_amounts r r').

Definition row_batch (ok : bool) (us : list PositionUpdate) (r r' : Position) : Prop :=
  row_meta r' = row_meta r
  /\ (Forall (fun u => pu_ID u <> pos_ID r) us -> same_amounts r r')
  /\ (ok = true -> NoDup (map pu_ID us) -> forall u, u ∈ us -> pu_ID u = pos_ID r ->
      holds_amounts (pu_Balance u) (pu_Locked u) r').

(** ** The laws of the store *)

Class TreasuryStoreLaws (S : Type) `{TS : !TreasuryStore S} : Type := {
  rows : S -> list Position;
  answers : S -> Prop;
  load_page lim off s page : 0 <= lim -> 0 <= off ->
    LoadPositionsPaginated lim off s = Ok page ->
    page = take (Z.to_nat lim) (drop (Z.to_nat off) (rows s));
  load_answers lim off s : answers s -> is_ok (LoadPositionsPaginated lim off s) = true;
  update_ok id b l s s' : UpdatePosition id b l s = (Ok tt, s') ->
    Forall2 (row_set id b l) (rows s) (rows s');
  update_err id b l s e s' : UpdatePosition id b l s = (Err e, s') -> rows s' = rows s;
  batch_rows batch us s r s' : BatchUpdatePositions = Some batch -> batch us s = (r, s') ->
    Forall2 (row_batch (is_ok r) us) (rows s) (rows s');
  history_rows id t b l tr s : rows (RecordHistory id t b l tr s).2 = rows s;
  log_rows log op s : LogReserveOp = Some log -> rows (log op s).2 = rows s;
  events_rows write es s : BatchWriteEvents = Some write -> rows (write es s).2 = rows s;
  cleanup_rows before s : rows (CleanupOldOps before s).2 = rows s;
  uncommitted_reserves s ops : GetUncommittedOps s = Ok ops ->
    Forall (fun op => ro_OpType op = OpReserve) ops;
}.
End Rows.

(** ** The invariant *)

Section Tracking.
Context {L : ThirdParty} {LL : ThirdPartyLaws L} {S : Type} `{TS : !TreasuryStore S}.
Context {SL : TreasuryStoreLaws S}.
Implicit Types m : Manager S.

Definition represents (ps : PositionState) (row : Position) : Prop :=
  pos_ID row = ps_ID ps /\ row_key row = key_of ps.

Definition agrees (ps : PositionState) (row : Position) : Prop :=
  (dVal (pos_Balance row) == dVal (fromMicro (ps_balanceMicro ps))
   /\ dVal (pos_Locked row) == dVal (fromMicro (ps_lockedMicro ps)))%Q.

(** [X] holds the positions a flush in progress has taken off the dirty set
    and not written yet; it is empty between operations. *)
Record tracked (X : gset nat) m : Prop := {
  tk_dirty : forall key p, mg_dirtySet m !! key = Some p -> mg_positions m !! key = Some p;
  tk_ids : NoDup (map pos_ID (rows (mg_store m)));
  tk_rows : forall key p ps, mg_positions m !! key = Some p -> mg_heap m !! p = Some ps ->
    key_of ps = key /\ exists row, row ∈ rows (mg_store m) /\ represents ps row
      /\ (mg_dirtySet m !! key = None -> p ∉ X -> agrees ps row);
}.

(** Tracked, with the position behind [p] in the dirty set. *)
Definition tracked_dirty (X : gset nat) (p : nat) m : Prop :=
  tracked X m /\ exists key, mg_dirtySet m !! key = Some p.

(** Nothing of the invariant changed. *)
Record still m m' : Prop := {
  st_heap : mg_heap m' = mg_heap m;
  st_positions : mg_positions m' = mg_positions m;
  st_dirtySet : mg_dirtySet m' = mg_dirtySet m;
  st_rows : rows (mg_store m') = rows (mg_store m);
}.

(** Only the counters of one position changed. *)
Record bumped (p : nat) m m' : Prop := {
  bu_heap : forall q, q <> p -> mg_heap m' !! q = mg_heap m !! q;
  bu_meta : meta <$> mg_heap m' !! p = meta <$> mg_heap m !! p;
  bu_positions : mg_positions m' = mg_positions m;
  bu_dirtySet : mg_dirtySet m' = mg_dirtySet m;
  bu_store : mg_store m' = mg_store m;
}.

#[global] Instance still_preorder : PreOrder still.
Proof. split; [by split|]. intros m1 m2 m3 [] []. split; congruence. Qed.

#[global] Instance bumped_preorder p : PreOrder (bumped p).
Proof.
  split; [by split|]. intros m1 m2 m3 [H1 H2 H3 H4 H5] [G1 G2 G3 G4 G5].
  split; try congruence. intros q Hq. by rewrite G1, H1.
Qed.

Lemma tracked_still X m m' : still m m' -> tracked X m -> tracked X m'.
Proof. intros [Hh Hp Hd Hr] [T1 T2 T3]. split; rewrite ?Hh, ?Hp, ?Hd, ?Hr; done. Qed.

Lemma tracked_dirty_still X p m m' :
  still m m' -> tracked_dirty X p m -> tracked_dirty X p m'.
Proof.
  intros Hs [T D]. split; [by eapply tracked_still|]. by rewrite (st_dirtySet _ _ Hs).
Qed.

Lemma meta_key ps ps' : meta ps' = meta ps -> key_of ps' = key_of ps.
Proof. unfold meta, key_of. congruence. Qed.

Lemma meta_represents ps ps' row : meta ps' = meta ps -> represents ps row -> represents ps' row.
Proof.
  intros Hm [H1 H2]. split; [unfold meta in Hm; congruence|]. by rewrite (meta_key ps).
Qed.

(** The row of a position whose counters moved is still there. *)
Lemma bumped_row X p m m' key ps' :
  tracked X m -> bumped p m m' -> mg_positions m !! key = Some p -> mg_heap m' !! p = Some ps' ->
  key_of ps' = key /\ exists row, row ∈ rows (mg_store m') /\ represents ps' row.
Proof.
  intros T B Hp Hps. pose proof (bu_meta _ _ _ B) as Hm. rewrite Hps in Hm.
  destruct (mg_heap m !! p) as [ps|] eqn:E; [|done]. simpl in Hm. apply (inj Some) in Hm.
  destruct (tk_rows _ _ T _ _ _ Hp E) as (Hk & row & Hr & Hrep & _).
  split; [by rewrite (meta_key ps)|]. exists row. rewrite (bu_store _ _ _ B).
  split; [done|]. by eapply meta_represents.
Qed.

Lemma tracked_dirty_bumped X p m m' :
  bumped p m m' -> tracked_dirty X p m -> tracked_dirty X p m'.
Proof.
  intros B [T [kd Hd]]. split; [|exists kd; by rewrite (bu_dirtySet _ _ _ B)]. split.
  - rewrite (bu_dirtySet _ _ _ B), (bu_positions _ _ _ B). apply T.
  - rewrite (bu_store _ _ _ B). apply T.
  - intros key q ps. rewrite (bu_positions _ _ _ B), (bu_dirtySet _ _ _ B). intros Hq Hps.
    destruct (decide (q = p)) as [->|Hne].
    + destruct (bumped_row X p m m' key ps T B Hq Hps) as [Hk (row & Hr & Hrep)].
      split; [done|]. exists row. split_and!; [done|done|]. intros Hnone. exfalso.
      pose proof (tk_dirty _ _ T _ _ Hd) as Hpd.
      destruct (bumped_row X p m m' kd ps T B Hpd Hps) as [Hkd _]. congruence.
    + rewrite (bu_heap _ _ _ B q Hne) in Hps. rewrite (bu_store _ _ _ B).
      by apply (tk_rows _ _ T key q ps).
Qed.

Lemma tracked_markDirty X p key m m' :
  tracked X m -> bumped p m m' -> mg_positions m !! key = Some p -> is_Some (mg_heap m !! p) ->
  tracked_dirty X p (markDirty p m').
Proof.
  intros T B Hp [ps0 Hps0]. unfold markDirty, deref.
  pose proof (bu_meta _ _ _ B) as Hm. rewrite Hps0 in Hm.
  destruct (mg_heap m' !! p) as [ps|] eqn:E; [|done].
  destruct (bumped_row X p m m' key ps T B Hp E) as [Hk (row & Hr & Hrep)].
  split; [|exists (key_of ps); simpl; by rewrite lookup_insert_eq]. split; simpl.
  - intros k q. rewrite (bu_positions _ _ _ B), lookup_insert_Some.
    intros [[<- <-]|[_ H]]; [by rewrite Hk|]. rewrite (bu_dirtySet _ _ _ B) in H.
    by apply (tk_dirty _ _ T).
  - rewrite (bu_store _ _ _ B). apply T.
  - intros k q ps1. rewrite (bu_positions _ _ _ B), lookup_insert. intros Hq.
    case_decide as Hpq; [subst q; intros [= <-]|].
    + destruct (bumped_row X p m m' k ps T B Hq E) as [Hk' _]. split; [done|].
      exists row. split_and!; [done|done|]. rewrite <- Hk', lookup_insert_eq. done.
    + rewrite (bu_heap _ _ _ B q) by congruence. intros H1.
      destruct (tk_rows _ _ T k q ps1 Hq H1) as (Hk1 & row1 & Hr1 & Hrep1 & Ha1).
      split; [done|]. exists row1. rewrite (bu_store _ _ _ B). split_and!; [done|done|].
      rewrite lookup_insert_None, (bu_dirtySet _ _ _ B). intros [H _]. by apply Ha1.
Qed.
End Tracking.

(** ** The primitives *)

Section Primitives.
Context {L : ThirdParty} {LL : ThirdPartyLaws L} {S : Type} `{TS : !TreasuryStore S}.
Context {SL : TreasuryStoreLaws S}.
Implicit Types m : Manager S.

Lemma set_io_still m s ops evs al :
  rows s = rows (mg_store m) -> still m (set_io m s ops evs al).
Proof. by split. Qed.

Lemma tryAcquire_still env ref op m h m' :
  tryAcquireIdempotency env ref op m = (h, m') -> still m m'.
Proof. unfold tryAcquireIdempotency. case_bool_decide; intros [= _ <-]; by split. Qed.

Lemma rollback_still ref op m : still m (rollbackIdempotency ref op m).
Proof. by split. Qed.

Lemma queueEvent_still env i p ty a ref rt m : still m (queueEvent env i p ty a ref rt m).
Proof. unfold queueEvent. repeat case_match; first [reflexivity | by apply set_io_still]. Qed.

Lemma publish_still p m : still m (publishLiquidityAlert p m).
Proof. unfold publishLiquidityAlert. repeat case_match; first [reflexivity | by apply set_io_still]. Qed.

Lemma logOp_still env i t c l a ref o m r m' :
  logOp env i t c l a ref o m = (r, m') -> still m m'.
Proof.
  unfold logOp. intros H. destruct (mg_replaying m); [by simplify_eq|].
  destruct LogReserveOp as [log|] eqn:EL.
  - match type of H with context [log ?op _] => pose proof (log_rows log op (mg_store m) EL) end.
    repeat case_match; simplify_eq/=; by split.
  - repeat case_match; simplify_eq/=; by split.
Qed.

Lemma store_counters_bumped p b l r m : bumped p m (store_counters p b l r m).
Proof.
  unfold store_counters, deref. destruct (mg_heap m !! p) as [ps|] eqn:E; [|done].
  split; simpl; try done.
  - intros q Hq. by rewrite lookup_insert_ne.
  - by rewrite lookup_insert_eq, E.
Qed.

Lemma addReserved_bumped p d m : bumped p m (addReserved p d m).
Proof. unfold addReserved. case_match; [apply store_counters_bumped|done]. Qed.
Lemma addLocked_bumped p d m : bumped p m (addLocked p d m).
Proof. unfold addLocked. case_match; [apply store_counters_bumped|done]. Qed.
Lemma addBalance_bumped p d m : bumped p m (addBalance p d m).
Proof. unfold addBalance. case_match; [apply store_counters_bumped|done]. Qed.

(** Counters need six digits, the columns keep eight. *)
Lemma stored_fromMicro v d : stored_as (fromMicro v) d -> (dVal d == dVal (fromMicro v))%Q.
Proof.
  unfold stored_as. intros ->. apply (Qround_places_exact 8 (v * 100)).
  rewrite fromMicro_val. unfold microScale. change (10 ^ Z.of_nat 8) with (1000000 * 100).
  rewrite !inject_Z_mult. field.
Qed.

Lemma row_set_in id b l rs rs' row :
  Forall2 (row_set id b l) rs rs' -> row ∈ rs ->
  exists row', row' ∈ rs' /\ row_set id b l row row'.
Proof.
  intros HF (i & Hi)%list_elem_of_lookup. destruct (Forall2_lookup_l _ _ _ _ _ HF Hi) as (row' & Hi' & H).
  exists row'. split; [by eapply list_elem_of_lookup_2|done].
Qed.

Lemma Forall2_ids (P : Position -> Position -> Prop) rs rs' :
  (forall r r', P r r' -> row_meta r' = row_meta r) -> Forall2 P rs rs' ->
  map pos_ID rs' = map pos_ID rs.
Proof.
  intros HP. induction 1 as [|r r' rs rs' Hr _ IH]; [done|]. simpl. rewrite IH. f_equal.
  apply HP in Hr. unfold row_meta in Hr. congruence.
Qed.

Lemma row_meta_represents ps r r' : row_meta r' = row_meta r -> represents ps r -> represents ps r'.
Proof.
  unfold row_meta, represents, row_key. intros Hm [H1 H2]. split; congruence.
Qed.
End Primitives.

(** ** Writing rows *)

Section Writing.
Context {L : ThirdParty} {LL : ThirdPartyLaws L} {S : Type} `{TS : !TreasuryStore S}.
Context {SL : TreasuryStoreLaws S}.
Implicit Types m : Manager S.

Definition upto_flag (ps : PositionState) := (meta ps, counters_of ps).

(** Memory unchanged but for dirty flags and the dirty set, rows rewritten
    by [P]. *)
Lemma tracked_rewrite X X' m m' (P : Position -> Position -> Prop) :
  tracked X m -> mg_positions m' = mg_positions m ->
  (forall p, upto_flag <$> mg_heap m' !! p = upto_flag <$> mg_heap m !! p) ->
  (forall key p, mg_dirtySet m' !! key = Some p -> mg_positions m !! key = Some p) ->
  Forall2 P (rows (mg_store m)) (rows (mg_store m')) ->
  (forall r r', P r r' -> row_meta r' = row_meta r) ->
  (forall key p ps row row', mg_positions m !! key = Some p -> mg_heap m !! p = Some ps ->
    represents ps row -> P row row' -> mg_dirtySet m' !! key = None -> p ∉ X' ->
    (mg_dirtySet m !! key = None -> p ∉ X -> agrees ps row) -> agrees ps row') ->
  tracked X' m'.
Proof.
  intros T Hpos Hheap Hd HF Hmeta Hagree. split.
  - rewrite Hpos. apply Hd.
  - rewrite (Forall2_ids P _ _ Hmeta HF). apply T.
  - intros key p ps'. rewrite Hpos. intros Hp Hps'. pose proof (Hheap p) as Hh. rewrite Hps' in Hh.
    destruct (mg_heap m !! p) as [ps|] eqn:Hps; [|done]. apply (inj Some) in Hh.
    assert (meta ps' = meta ps) as Hm by (unfold upto_flag in Hh; congruence).
    assert (ps_balanceMicro ps' = ps_balanceMicro ps /\ ps_lockedMicro ps' = ps_lockedMicro ps)
      as [Hb Hl] by (unfold upto_flag, counters_of in Hh; split; congruence).
    destruct (tk_rows _ _ T _ _ _ Hp Hps) as (Hk & row & Hr & Hrep & Ha).
    split; [by rewrite (meta_key ps)|].
    apply list_elem_of_lookup in Hr as [i Hi].
    destruct (Forall2_lookup_l _ _ _ _ _ HF Hi) as (row' & Hi' & HP).
    exists row'. split_and!; [by eapply list_elem_of_lookup_2| |].
    + eapply meta_represents; [done|]. eapply row_meta_represents; [by apply Hmeta|done].
    + intros Hn HX. unfold agrees. rewrite Hb, Hl. by eapply Hagree.
Qed.

(** Two positions of a tracked manager never share an id. *)
Lemma tracked_ids_inj X m key key' p p' ps ps' :
  tracked X m -> mg_positions m !! key = Some p -> mg_heap m !! p = Some ps ->
  mg_positions m !! key' = Some p' -> mg_heap m !! p' = Some ps' ->
  ps_ID ps = ps_ID ps' -> key = key' /\ p = p'.
Proof.
  intros T Hp Hps Hp' Hps' Hid.
  destruct (tk_rows _ _ T _ _ _ Hp Hps) as (Hk & row & Hr & [Hi Hrk] & _).
  destruct (tk_rows _ _ T _ _ _ Hp' Hps') as (Hk' & row' & Hr' & [Hi' Hrk'] & _).
  assert (row = row') as ->.
  { apply list_elem_of_lookup in Hr as [i Hl], Hr' as [j Hl'].
    assert (i = j) as ->; [|congruence].
    eapply (NoDup_lookup (map pos_ID (rows (mg_store m))) i j (ps_ID ps)); [apply T| |];
      rewrite list_lookup_fmap, ?Hl, ?Hl'; simpl; congruence. }
  assert (key = key') as -> by congruence. split; congruence.
Qed.

Lemma agrees_row_set ps row row' :
  represents ps row ->
  row_set (ps_ID ps) (fromMicro (ps_balanceMicro ps)) (fromMicro (ps_lockedMicro ps)) row row' ->
  agrees ps row'.
Proof.
  intros [Hi _] (_ & H & _). destruct (H Hi) as [H1 H2].
  split; by apply stored_fromMicro.
Qed.

Lemma agrees_same ps row row' : same_amounts row row' -> agrees ps row -> agrees ps row'.
Proof. intros [H1 H2]. unfold agrees. by rewrite H1, H2. Qed.

(** The write of one position, whatever happens to its flag and key. *)
Lemma tracked_update X X' m m' key p ps s :
  tracked X m -> mg_positions m !! key = Some p -> mg_heap m !! p = Some ps ->
  UpdatePosition (ps_ID ps) (fromMicro (ps_balanceMicro ps)) (fromMicro (ps_lockedMicro ps))
    (mg_store m) = (Ok tt, s) ->
  mg_positions m' = mg_positions m ->
  (forall q, upto_flag <$> mg_heap m' !! q = upto_flag <$> mg_heap m !! q) ->
  rows (mg_store m') = rows s -> X ⊆ {[ p ]} ∪ X' ->
  (forall k q, mg_dirtySet m' !! k = Some q -> mg_dirtySet m !! k = Some q) ->
  (forall k, mg_dirtySet m' !! k = None -> mg_dirtySet m !! k = None \/ k = key) ->
  tracked X' m'.
Proof.
  intros T Hp Hps HU Hpos Hheap Hs HX Hd Hd'. apply update_ok in HU.
  eapply (tracked_rewrite X X' m m'); [done|done|done| |rewrite Hs; exact HU| |].
  - intros k q Hk. by apply (tk_dirty _ _ T), Hd.
  - by intros r r' [? _].
  - intros k q ps1 row row' Hq Hps1 Hrep HP Hn HX' Ha.
    destruct (decide (q = p)) as [->|Hne].
    + assert (ps1 = ps) as -> by congruence. by eapply agrees_row_set.
    + assert (pos_ID row <> ps_ID ps) as Hid.
      { destruct Hrep as [-> _]. intros Hid. apply Hne.
        by apply (tracked_ids_inj X m k key q p ps1 ps). }
      destruct HP as (_ & _ & HP). eapply agrees_same; [by apply HP|]. apply Ha; [|set_solver].
      destruct (Hd' k Hn) as [?| ->]; [done|]. congruence.
Qed.

Lemma flag_upto p ps d m :
  mg_heap m !! p = Some ps ->
  forall q, upto_flag <$> <[p := set_dirty ps d]> (mg_heap m) !! q = upto_flag <$> mg_heap m !! q.
Proof. intros Hp q. rewrite lookup_insert. case_decide; [|done]. subst. by rewrite Hp. Qed.

Lemma syncFlush_tracked X p m r m' :
  tracked_dirty X p m -> syncFlushPosition p m = (r, m') ->
  if is_ok r then tracked X m' else tracked_dirty X p m'.
Proof.
  intros [T [key Hd]]. unfold syncFlushPosition, deref.
  pose proof (tk_dirty _ _ T _ _ Hd) as Hp.
  destruct (mg_heap m !! p) as [ps|] eqn:Hps; [|intros [= <- <-]; by split; [|exists key]].
  destruct (tk_rows _ _ T _ _ _ Hp Hps) as (Hk & _).
  destruct (UpdatePosition _ _ _ _) as [[[]|e] s] eqn:HU; intros [= <- <-]; simpl.
  - eapply (tracked_update X X m); [done|exact Hp|done|done|done| |done|set_solver| |]; simpl.
    + by apply flag_upto.
    + intros k q. rewrite lookup_delete_Some. tauto.
    + intros k. rewrite lookup_delete_None, Hk. naive_solver.
  - apply update_err in HU.
    apply (tracked_dirty_still X p m); [by split|]. split; [done|by eexists].
Qed.

(** *** Goal-directed forms, for the operations *)

Lemma td_tracked X p m : tracked_dirty X p m -> tracked X m.
Proof. by intros [? _]. Qed.
Lemma tracked_rollback X ref op m : tracked X m -> tracked X (rollbackIdempotency ref op m).
Proof. apply tracked_still, rollback_still. Qed.
Lemma tracked_publish X p m : tracked X m -> tracked X (publishLiquidityAlert p m).
Proof. apply tracked_still, publish_still. Qed.
Lemma td_queueEvent X q env i p ty a ref rt m :
  tracked_dirty X q m -> tracked_dirty X q (queueEvent env i p ty a ref rt m).
Proof. apply tracked_dirty_still, queueEvent_still. Qed.
Lemma td_addReserved X p d m : tracked_dirty X p m -> tracked_dirty X p (addReserved p d m).
Proof. apply tracked_dirty_bumped, addReserved_bumped. Qed.
Lemma td_addLocked X p d m : tracked_dirty X p m -> tracked_dirty X p (addLocked p d m).
Proof. apply tracked_dirty_bumped, addLocked_bumped. Qed.
Lemma td_addBalance X p d m : tracked_dirty X p m -> tracked_dirty X p (addBalance p d m).
Proof. apply tracked_dirty_bumped, addBalance_bumped. Qed.
Lemma td_sync_snd X p m : tracked_dirty X p m -> tracked X (syncFlushPosition p m).2.
Proof.
  intros T. destruct (syncFlushPosition p m) as [r m'] eqn:E.
  apply (syncFlush_tracked X) in E; [|done]. destruct (is_ok r); [done|by apply td_tracked in E].
Qed.
End Writing.

Create HintDb tracking.
#[global] Hint Resolve tracked_rollback tracked_publish td_queueEvent td_addReserved td_addLocked
  td_addBalance td_sync_snd : tracking.
#[global] Hint Extern 5 (tracked _ _) => (eapply td_tracked) : tracking.

(** ** The operations keep the invariant *)

Section Tracked.
Context {L : ThirdParty} {LL : ThirdPartyLaws L} {S : Type} `{TS : !TreasuryStore S}.
Context {SL : TreasuryStoreLaws S}.
Implicit Types m : Manager S.

Lemma tracked_op X env ref op t cur loc (body : nat -> Manager S -> result unit * Manager S) m :
  wf m -> tracked X m ->
  (forall m1 p ps, tracked X m1 -> mg_positions m1 !! (t, cur, loc) = Some p ->
    deref p m1 = Some ps -> tracked X (body p m1).2) ->
  tracked X
    (let '(h, m1) := tryAcquireIdempotency env ref op m in
     if h then (Ok tt, m1)
     else match getPosition t cur loc m1 with
          | Err e => (Err e, rollbackIdempotency ref op m1)
          | Ok p => body p m1
          end).2.
Proof.
  intros Hwf T Hb. destruct (tryAcquireIdempotency env ref op m) as [h m1] eqn:E.
  pose proof (tryAcquire_still _ _ _ _ _ _ E) as Hs.
  pose proof (tracked_still X _ _ Hs T) as T1. destruct h; [done|].
  unfold getPosition. destruct (mg_positions m1 !! (t, cur, loc)) as [p|] eqn:Hp.
  - rewrite (st_positions _ _ Hs) in Hp.
    destruct (wf_index _ Hwf _ _ Hp) as (ps & Hps & _).
    eapply (Hb m1 p ps); [done|by rewrite (st_positions _ _ Hs)|].
    unfold deref. by rewrite (st_heap _ _ Hs).
  - simpl. by apply tracked_rollback.
Qed.

Lemma tracked_logOp X p env i t c l a ref o undo (rest : Manager S -> result unit * Manager S) m :
  tracked_dirty X p m ->
  (forall m', tracked_dirty X p m' -> tracked X (undo m')) ->
  (forall m', tracked_dirty X p m' -> tracked X (rest m').2) ->
  tracked X (match logOp env i t c l a ref o m with
             | (Err e, m') => (Err e, undo m')
             | (Ok _, m') => rest m'
             end).2.
Proof.
  intros T Hu Hr. destruct (logOp env i t c l a ref o m) as [r m'] eqn:E.
  apply logOp_still in E. pose proof (tracked_dirty_still X p _ _ E T) as T'.
  destruct r; simpl; auto.
Qed.

Lemma tracked_sync X p ctx undo (rest : Manager S -> result unit * Manager S) m :
  tracked_dirty X p m ->
  (forall m', tracked_dirty X p m' -> tracked X (undo m')) ->
  (forall m', tracked X m' -> tracked X (rest m').2) ->
  tracked X (match syncFlushPosition p m with
             | (Err e, m') => (Err (WrapErr ctx e), undo m')
             | (Ok _, m') => rest m'
             end).2.
Proof.
  intros T Hu Hr. destruct (syncFlushPosition p m) as [r m'] eqn:E.
  apply (syncFlush_tracked X) in E; [|done]. destruct r; simpl in *; auto.
Qed.

End Tracked.

(** Runs the guards, then the body at the position found. *)
Ltac track_begin :=
  let rec guards :=
    first
      [ eapply tracked_op; [assumption | assumption |]
      | lazymatch goal with
        | |- tracked _ (if ?b then (Err _, _) else _).2 => destruct b; [assumption|]; guards
        | |- tracked _ (match validateMicroRange ?a with _ => _ end).2 =>
            destruct (validateMicroRange a); [|assumption]; guards
        end ] in
  intros Hwf T; guards; intros m1 p ps T1 Hp Hd;
  try rewrite Hd; try (destruct (toMicro _); [|assumption]);
  repeat match goal with
  | |- tracked _ (if ?b <? ?c then (Err _, _) else _).2 =>
      destruct (b <? c); [solve [eauto with tracking]|]
  end; cbv zeta.

(** The position moved and was marked. *)
Ltac track_mark :=
  repeat apply td_queueEvent;
  eapply tracked_markDirty; [eassumption| |eassumption|by eexists];
  first [ apply store_counters_bumped | apply addBalance_bumped
        | etrans; [apply store_counters_bumped|apply addLocked_bumped] ].

Section TrackedOps.
Context {L : ThirdParty} {LL : ThirdPartyLaws L} {S : Type} `{TS : !TreasuryStore S}.
Context {SL : TreasuryStoreLaws S}.
Implicit Types m : Manager S.

Lemma Reserve_tracked X env t cur loc a ref m :
  wf m -> tracked X m -> tracked X (Reserve env t cur loc a ref m).2.
Proof.
  unfold Reserve. track_begin.
  apply (tracked_logOp X p); [track_mark|eauto with tracking|]. intros m2 T2. cbv beta zeta.
  assert (forall m', tracked X m' -> tracked X (match deref p m' with
    | Some ps => (Ok tt, if LessThan (fromMicro (available64 ps)) (ps_MinBalance ps)
                   && negb (IsZero (ps_MinBalance ps)) then publishLiquidityAlert p m' else m')
    | None => (Ok tt, m') end : result unit * Manager S).2) as Hfin
    by (intros m' T'; repeat case_match; simpl; eauto with tracking).
  case_match; [|eauto with tracking].
  apply (tracked_sync X p); eauto with tracking.
Qed.

Lemma Release_tracked X env t cur loc a ref m :
  wf m -> tracked X m -> tracked X (Release env t cur loc a ref m).2.
Proof.
  unfold Release. track_begin.
  apply (tracked_logOp X p); [track_mark|eauto with tracking..].
Qed.

Lemma CommitReservation_tracked X env t cur loc a ref m :
  wf m -> tracked X m -> tracked X (CommitReservation env t cur loc a ref m).2.
Proof.
  unfold CommitReservation. track_begin.
  apply (tracked_logOp X p); [track_mark|eauto with tracking..].
Qed.

Lemma CreditBalance_tracked X env t cur loc a ref rt m :
  wf m -> tracked X m -> tracked X (CreditBalance env t cur loc a ref rt m).2.
Proof.
  unfold CreditBalance. track_begin.
  apply (tracked_logOp X p); [track_mark|eauto with tracking|]. intros m2 T2. cbv beta.
  case_match; [|simpl; eauto with tracking]. apply (tracked_sync X p); eauto with tracking.
Qed.

Lemma DebitBalance_tracked X env t cur loc a ref rt m :
  wf m -> tracked X m -> tracked X (DebitBalance env t cur loc a ref rt m).2.
Proof.
  unfold DebitBalance. track_begin.
  apply (tracked_logOp X p); [track_mark|eauto with tracking|]. intros m2 T2. cbv beta.
  case_match; simpl; eauto with tracking.
Qed.

Lemma ConsumeReservation_tracked X env t cur loc a ref m :
  wf m -> tracked X m -> tracked X (ConsumeReservation env t cur loc a ref m).2.
Proof.
  unfold ConsumeReservation. track_begin.
  apply (tracked_logOp X p); [track_mark|eauto with tracking|]. intros m2 T2. cbv beta.
  case_match; simpl; eauto with tracking.
Qed.

Lemma run_tracked X env c m : wf m -> tracked X m -> tracked X (run env c m).2.
Proof.
  intros. destruct c as [op t cur loc a ref rt]. destruct op; simpl;
    auto using Reserve_tracked, Release_tracked, CommitReservation_tracked,
      ConsumeReservation_tracked, CreditBalance_tracked, DebitBalance_tracked.
Qed.

Lemma UpdateBalance_tracked X t cur loc b m :
  wf m -> tracked X m -> tracked X (UpdateBalance t cur loc b m).2.
Proof.
  intros Hwf T. unfold UpdateBalance, getPosition.
  destruct (validateMicroRange b); [|done].
  destruct (mg_positions m !! (t, cur, loc)) as [p|] eqn:Hp; [|done].
  destruct (toMicro b); [|done]. destruct (deref p m) as [ps|] eqn:Hd; [|done].
  case_match; [done|]. simpl. eapply td_tracked. track_mark.
Qed.
End TrackedOps.
