(* ===== verification/TreasuryFlushProps.v ===== *)
(** * treasury: correctness of the flush

    A flush keeps the tracking invariant of TreasurySync.v and every counter;
    when no write failed, every position is in the database as it is in
    memory, and when one failed, the failure is counted and the positions are
    dirty again. *)

From Stdlib Require Import QArith Lqa.
From S2P Require Import Prelude ThirdParty Money Treasury TreasuryFacts TreasuryProps TreasuryFlush TreasurySync.
Local Open Scope string_scope.
Local Open Scope Z_scope.

Section FlushFacts.
Context {L : ThirdParty} {LL : ThirdPartyLaws L} {S : Type} `{TS : !TreasuryStore S}.
Context {SL : TreasuryStoreLaws S}.
Implicit Types m : Manager S.

(** Flushing does not touch the map of keys. *)
Lemma fold_shards {A} (f : Manager S -> A -> Manager S) l : (forall m x, mg_idempotencyShards (f m x) = mg_idempotencyShards m) ->
  forall m, mg_idempotencyShards (fold_left f l m) = mg_idempotencyShards m.
Proof. intros H. induction l as [|x l IH]; intros m; [done|]. simpl. by rewrite IH. Qed.

Lemma clearDirty_shards p m : mg_idempotencyShards (clearDirty p m) = mg_idempotencyShards m.
Proof. unfold clearDirty. by case_match. Qed.

Lemma flushBatch_shards batch dirty m : mg_idempotencyShards (flushBatch batch dirty m).2 = mg_idempotencyShards m.
Proof.
  unfold flushBatch. destruct (batch _ _) as [[u|e] s']; simpl.
  - rewrite fold_shards; [done|]. intros m' x. unfold recordFlushed. simpl. apply clearDirty_shards.
  - unfold markAllDirty. rewrite fold_shards; [done|]. intros. apply markDirty_shards.
Qed.

Lemma flushIndividual_shards dirty m : mg_idempotencyShards (flushIndividual dirty m).2 = mg_idempotencyShards m.
Proof.
  unfold flushIndividual. generalize {| fl_flushed := 0; fl_hadError := false; fl_failedPositionIDs := [] |} as r.
  revert m. induction dirty as [|p dirty IH]; intros m r; [done|]. cbn [fold_left].
  assert (forall x, mg_idempotencyShards (flushPosition x p).2 = mg_idempotencyShards x.2) as H.
  { intros [r' m']. unfold flushPosition. case_match; [|done]. destruct (UpdatePosition _ _ _ _) as [[u|e] s'];
      cbn [snd]; [by rewrite clearDirty_shards|by rewrite markDirty_shards]. }
  specialize (H (r, m)). destruct (flushPosition (r, m) p) as [r' m']. by rewrite IH.
Qed.

Lemma flushOnce_shards iter m : mg_idempotencyShards (flushOnce iter m) = mg_idempotencyShards m.
Proof.
  unfold flushOnce. assert (mg_idempotencyShards (dirtyPositions iter (drainPendingOps m)).2 = mg_idempotencyShards m) as H
    by reflexivity. destruct (dirtyPositions iter (drainPendingOps m)) as [[|p dirty] m1]; [done|]. simpl in H.
  assert (mg_idempotencyShards (flushDirtyPositions (p :: dirty) m1).2 = mg_idempotencyShards m1) as H1.
  { unfold flushDirtyPositions. case_match; [apply flushBatch_shards|apply flushIndividual_shards]. }
  destruct (flushDirtyPositions (p :: dirty) m1) as [r m2]. simpl in H1. case_match; simpl; congruence.
Qed.

(** A key that lasts is there after a tick, with its clean-up. *)
Lemma stamp_flushTick iter k t0 t now n m : lasting t0 now m -> t0 <= t -> stamp k m = Some t ->
  stamp k (flushTick iter now n m) = Some t.
Proof.
  intros Hl Ht Hs. unfold flushTick.
  assert (forall m', stamp k (if n mod reserveOpsCleanupInterval =? 0 then cleanupOldReserveOps now m' else m') = stamp k m') as Hc.
  { intros m'. case_match; [|done]. unfold cleanupOldReserveOps. by destruct LogReserveOp. }
  rewrite Hc. clear Hc. case_match; [|by rewrite (stamp_quiet _ _ _ (flushOnce_shards iter m))].
  apply (stamp_cleanup k t0); [|done|by rewrite (stamp_quiet _ _ _ (flushOnce_shards iter m))].
  unfold lasting in *. by rewrite flushOnce_shards.
Qed.

(** Same indexes, same positions up to the dirty flag. *)
Record same_books m m' : Prop := {
  sb_positions : mg_positions m' = mg_positions m;
  sb_next : mg_next m' = mg_next m;
  sb_shards : mg_idempotencyShards m' = mg_idempotencyShards m;
  sb_failures : mg_consecutiveFlushFailures m' = mg_consecutiveFlushFailures m;
  sb_heap : forall p, upto_flag <$> mg_heap m' !! p = upto_flag <$> mg_heap m !! p;
}.

#[global] Instance same_books_preorder : PreOrder same_books.
Proof.
  split; [by split|]. intros m1 m2 m3 [H1 H2 H3 H4 H5] [G1 G2 G3 G4 G5].
  split; congruence.
Qed.

Lemma same_books_counters m m' p : same_books m m' -> counters_at p m' = counters_at p m.
Proof.
  intros H. unfold counters_at. pose proof (sb_heap _ _ H p) as Hp.
  destruct (mg_heap m' !! p), (mg_heap m !! p); try done. unfold upto_flag in Hp.
  simpl in *. congruence.
Qed.

Lemma same_books_abs m m' : same_books m m' -> abs m' = abs m.
Proof.
  intros H. apply map_eq. intros key. rewrite !abs_lookup, (sb_positions _ _ H).
  destruct (mg_positions m !! key); simpl; [|done]. by apply same_books_counters.
Qed.

Lemma upto_is_Some m m' p : same_books m m' -> is_Some (mg_heap m' !! p) <-> is_Some (mg_heap m !! p).
Proof.
  intros H. rewrite <- (fmap_is_Some upto_flag), (sb_heap _ _ H), fmap_is_Some. done.
Qed.

Lemma same_books_wf m m' : same_books m m' -> wf m -> wf m'.
Proof.
  intros H [W1 W2 W3 W4]. split.
  - by rewrite (sb_shards _ _ H).
  - intros key p. rewrite (sb_positions _ _ H). intros (ps & Hp & <-)%W2.
    pose proof (sb_heap _ _ H p) as Hh. rewrite Hp in Hh.
    destruct (mg_heap m' !! p) as [ps'|]; [|done]. exists ps'. split; [done|].
    apply (inj Some) in Hh. apply meta_key. unfold upto_flag in Hh. congruence.
  - intros p c. rewrite (same_books_counters m m' p H). apply W3.
  - intros p. rewrite (sb_next _ _ H), (upto_is_Some m m' p H). apply W4.
Qed.

Lemma set_dirty_books p ps d ds m :
  mg_heap m !! p = Some ps ->
  same_books m (set_dirtySet (set_heap m (<[p := set_dirty ps d]> (mg_heap m))) ds).
Proof. intros Hp. split; try done. by apply flag_upto. Qed.

Lemma markDirty_books p m : same_books m (markDirty p m).
Proof.
  unfold markDirty, deref. destruct (mg_heap m !! p) eqn:E; [|done]. by apply set_dirty_books.
Qed.

Lemma clearDirty_books p m : same_books m (clearDirty p m).
Proof.
  unfold clearDirty, deref. destruct (mg_heap m !! p) eqn:E; [|done].
  split; try done. by apply flag_upto.
Qed.

Lemma clearDirty_frame p m :
  mg_dirtySet (clearDirty p m) = mg_dirtySet m /\ mg_store (clearDirty p m) = mg_store m.
Proof. unfold clearDirty. by case_match. Qed.

(** Rows and dirty set the same. *)
Lemma tracked_flags X m m' :
  same_books m m' -> mg_dirtySet m' = mg_dirtySet m ->
  rows (mg_store m') = rows (mg_store m) -> tracked X m -> tracked X m'.
Proof.
  intros H Hd Hr T. eapply (tracked_rewrite X X m m' eq); [done|apply H|apply H| | | |].
  - intros key p. rewrite Hd. apply T.
  - rewrite Hr. reflexivity.
  - by intros r r' ->.
  - intros key p ps row row' _ _ _ <-. rewrite Hd. auto.
Qed.

(** Once dirty again, a position no longer needs its excuse. *)
Lemma tracked_dirty_excuse X p m : tracked_dirty ({[ p ]} ∪ X) p m -> tracked X m.
Proof.
  intros [T [kd Hd]]. split; [apply T..|].
  intros key q ps Hq Hps. destruct (tk_rows _ _ T _ _ _ Hq Hps) as (Hk & row & Hr & Hrep & Ha).
  split; [done|]. exists row. split_and!; [done|done|]. intros Hn HX. apply Ha; [done|].
  apply not_elem_of_union. split; [|done]. intros ->%elem_of_singleton.
  pose proof (tk_dirty _ _ T _ _ Hd) as Hpd.
  destruct (tk_rows _ _ T _ _ _ Hpd Hps) as (Hkd & _). congruence.
Qed.

(** A failed write changes some rows of positions that are excused. *)
Lemma set_store_still m s : rows s = rows (mg_store m) -> still m (set_store m s).
Proof. by split. Qed.

Lemma remark_tracked X p key m :
  tracked ({[ p ]} ∪ X) m -> mg_positions m !! key = Some p -> is_Some (mg_heap m !! p) ->
  tracked X (markDirty p m).
Proof.
  intros T Hp Hs. apply tracked_dirty_excuse with p.
  by apply (tracked_markDirty _ p key m m).
Qed.

(** Every pointer of the list is that of a position. *)
Definition all_positions (l : list nat) m : Prop :=
  Forall (fun p => exists key, mg_positions m !! key = Some p) l.

Lemma all_positions_books l m m' : same_books m m' -> all_positions l m -> all_positions l m'.
Proof. intros H. unfold all_positions. by rewrite (sb_positions _ _ H). Qed.

Lemma wf_position_heap m key p : wf m -> mg_positions m !! key = Some p -> is_Some (mg_heap m !! p).
Proof. intros W (ps & Hp & _)%(wf_index _ W). by exists ps. Qed.

Lemma markAllDirty_tracked l : forall m,
  wf m -> all_positions l m -> tracked (list_to_set l) m ->
  tracked ∅ (markAllDirty l m) /\ same_books m (markAllDirty l m).
Proof.
  induction l as [|p l IH]; intros m W Hl T; simpl; [done|].
  apply Forall_cons in Hl as [[key Hp] Hl].
  pose proof (markDirty_books p m) as Hb.
  destruct (IH (markDirty p m)) as [T' B']; [by eapply same_books_wf|by eapply all_positions_books| |].
  - eapply remark_tracked; [exact T|done|]. by eapply wf_position_heap.
  - split; [done|]. by etrans.
Qed.

Lemma flushPosition_tracked X p r m r' m' :
  wf m -> (exists key, mg_positions m !! key = Some p) -> tracked ({[ p ]} ∪ X) m ->
  flushPosition (r, m) p = (r', m') ->
  tracked X m' /\ same_books m m'
  /\ (fl_hadError r' = false -> fl_hadError r = false /\ mg_dirtySet m' = mg_dirtySet m).
Proof.
  intros W [key Hp] T. unfold flushPosition.
  destruct (wf_index _ W _ _ Hp) as (ps & Hps & _). unfold deref. rewrite Hps.
  destruct (UpdatePosition _ _ _ _) as [[[]|e] s] eqn:HU; intros [= <- <-].
  - set (s' := (RecordHistory _ _ _ _ _ s).2).
    assert (rows s' = rows s) as Hrs by apply history_rows.
    destruct (clearDirty_frame p (set_store m s')) as [Hd Hst].
    assert (same_books m (clearDirty p (set_store m s'))) as Hb.
    { etrans; [|apply clearDirty_books]. by split. }
    split_and!; [|done|by rewrite Hd].
    eapply (tracked_update ({[ p ]} ∪ X) X m _ key p ps s); [done|done|done|done|apply Hb|apply Hb| | | |].
    + by rewrite Hst.
    + done.
    + intros k q. by rewrite Hd.
    + intros k. rewrite Hd. by left.
  - apply update_err in HU. split_and!; [|etrans; [|apply markDirty_books]; by split|done].
    eapply remark_tracked; [|exact Hp|by exists ps].
    eapply tracked_still; [by apply set_store_still|done].
Qed.

Lemma flushPositions_tracked l : forall r m r' m',
  wf m -> all_positions l m -> tracked (list_to_set l) m ->
  fold_left flushPosition l (r, m) = (r', m') ->
  tracked ∅ m' /\ same_books m m'
  /\ (fl_hadError r' = false -> fl_hadError r = false /\ mg_dirtySet m' = mg_dirtySet m).
Proof.
  induction l as [|p l IH]; intros r m r' m' W Hl T Hf; cbn [fold_left] in Hf.
  { by simplify_eq. }
  apply Forall_cons in Hl as [Hp Hl].
  destruct (flushPosition (r, m) p) as [r1 m1] eqn:E.
  destruct (flushPosition_tracked (list_to_set l) p r m r1 m1 W Hp T E) as (T1 & B1 & D1).
  destruct (IH r1 m1 r' m') as (T2 & B2 & D2); [by eapply same_books_wf|by eapply all_positions_books|done|done|].
  split_and!; [done|by etrans|]. intros Hn. destruct (D2 Hn) as [Hn1 Hd]. destruct (D1 Hn1).
  split; [done|congruence].
Qed.
End FlushFacts.

Section FlushBatch.
Context {L : ThirdParty} {LL : ThirdPartyLaws L} {S : Type} `{TS : !TreasuryStore S}.
Context {SL : TreasuryStoreLaws S}.
Implicit Types m : Manager S.

Lemma elem_of_batchUpdates l m p u :
  (p, u) ∈ batchUpdates l m <-> p ∈ l /\ exists ps, mg_heap m !! p = Some ps /\ u = positionUpdate ps.
Proof.
  unfold batchUpdates, deref. rewrite list_elem_of_omap. split.
  - intros (q & Hq & Hu). destruct (mg_heap m !! q) as [ps|] eqn:E; simplify_eq/=. eauto.
  - intros [Hp (ps & Hps & ->)]. exists p. by rewrite Hps.
Qed.

Lemma batchUpdates_ids X l m :
  tracked X m -> all_positions l m -> NoDup l -> NoDup (map pu_ID (map snd (batchUpdates l m))).
Proof.
  intros T Hl. induction 1 as [|p l Hp _ IH]; simpl; [constructor|].
  apply Forall_cons in Hl as [[key Hk] Hl]. unfold deref at 1.
  destruct (mg_heap m !! p) as [ps|] eqn:Hps; simpl; [|by apply IH].
  constructor; [|by apply IH]. rewrite list_elem_of_fmap.
  intros (u & Hid & ([q v] & -> & [Hq (ps' & Hps' & ->)]%elem_of_batchUpdates)%list_elem_of_fmap). apply Hp.
  unfold all_positions in Hl. rewrite Forall_forall in Hl. destruct (Hl q Hq) as [key' Hk'].
  destruct (tracked_ids_inj X m key key' p q ps ps') as [_ ->]; done.
Qed.

(** The rows after a batch: all of it written, or some of it. *)
Lemma batch_tracked l m batch r s :
  tracked (list_to_set l) m -> all_positions l m -> NoDup l ->
  BatchUpdatePositions = Some batch ->
  batch (map snd (batchUpdates l m)) (mg_store m) = (r, s) ->
  tracked (if is_ok r then ∅ else list_to_set l) (set_store m s).
Proof.
  intros T Hl Hnd HB Hs. pose proof (batchUpdates_ids _ _ _ T Hl Hnd) as Hids.
  pose proof (batch_rows batch _ _ _ _ HB Hs) as HF.
  eapply (tracked_rewrite (list_to_set l) _ m _ _); [done|done|done|apply T|exact HF| |].
  { by intros ? ? [? _]. }
  intros key q ps row row' Hq Hps [Hrid Hrk] (_ & Hsame & Hok) Hd HX' Ha.
  destruct (decide (q ∈ l)) as [Hin|Hni].
  - destruct r; [|exfalso; simpl in HX'; set_solver].
    destruct (Hok eq_refl Hids (positionUpdate ps)) as [H1 H2].
    + rewrite list_elem_of_fmap. exists (q, positionUpdate ps). split; [done|].
      apply elem_of_batchUpdates. eauto.
    + done.
    + split; by apply stored_fromMicro.
  - eapply agrees_same; [apply Hsame|apply Ha; [done|set_solver]].
    apply Forall_forall.
    intros u ([p v] & -> & [Hp (ps' & Hps' & ->)]%elem_of_batchUpdates)%list_elem_of_fmap Hid.
    unfold all_positions in Hl. rewrite Forall_forall in Hl. destruct (Hl p Hp) as [key' Hk'].
    apply Hni. destruct (tracked_ids_inj _ m key key' q p ps ps' T) as [_ ->]; try done.
    simpl in Hid. congruence.
Qed.

Lemma recordFlushed_tracked us : forall m,
  tracked ∅ m ->
  let m' := fold_left recordFlushed us m in
  tracked ∅ m' /\ same_books m m' /\ mg_dirtySet m' = mg_dirtySet m.
Proof.
  induction us as [|[p u] us IH]; intros m T; simpl; [done|].
  set (m1 := recordFlushed m (p, u)).
  assert (same_books m m1) as B1 by (etrans; [apply (clearDirty_books p m)|by split]).
  assert (mg_dirtySet m1 = mg_dirtySet m) as D1 by apply clearDirty_frame.
  destruct (IH m1) as (T2 & B2 & D2).
  - eapply tracked_flags; [exact B1|done| |done]. unfold m1, recordFlushed. simpl.
    rewrite history_rows. by rewrite (proj2 (clearDirty_frame p m)).
  - split_and!; [done|by etrans|congruence].
Qed.

(** Whichever of the two paths is taken. *)
Lemma flushDirty_tracked l m r m' :
  wf m -> all_positions l m -> NoDup l -> tracked (list_to_set l) m ->
  flushDirtyPositions l m = (r, m') ->
  tracked ∅ m' /\ same_books m m'
  /\ (fl_hadError r = false -> mg_dirtySet m' = mg_dirtySet m).
Proof.
  intros W Hl Hnd T. unfold flushDirtyPositions.
  destruct BatchUpdatePositions as [batch|] eqn:HB.
  - unfold flushBatch. destruct (batch _ _) as [[[]|e] s] eqn:Hs; intros [= <- <-];
      pose proof (batch_tracked l m batch _ s T Hl Hnd HB Hs) as T1; simpl in T1.
    + destruct (recordFlushed_tracked (batchUpdates l m) (set_store m s) T1) as (T2 & B2 & D2).
      split_and!; [done|etrans; [|exact B2]; by split|by rewrite D2].
    + destruct (markAllDirty_tracked l (set_store m s)) as [T2 B2]; [|done|done|].
      * eapply same_books_wf; [|exact W]. by split.
      * split_and!; [done|etrans; [|exact B2]; by split|done].
  - unfold flushIndividual. intros Hf.
    destruct (flushPositions_tracked l _ _ _ _ W Hl T Hf) as (T2 & B2 & D2).
    split_and!; [done|done|]. intros Hn. by destruct (D2 Hn).
Qed.
(** Every position has a row with its balance and its locked amount. *)
Definition persisted m : Prop :=
  forall key k, abs m !! key = Some k ->
    exists row, row ∈ rows (mg_store m) /\ row_key row = key
      /\ (dVal (pos_Balance row) == dVal (fromMicro (c_bal k))
          /\ dVal (pos_Locked row) == dVal (fromMicro (c_lock k)))%Q.

Lemma tracked_persisted m : tracked ∅ m -> mg_dirtySet m = ∅ -> persisted m.
Proof.
  intros T Hd key k. rewrite abs_lookup.
  destruct (mg_positions m !! key) as [p|] eqn:Hp; [|done]. simpl. unfold counters_at.
  destruct (mg_heap m !! p) as [ps|] eqn:Hps; [|done]. intros [= <-].
  destruct (tk_rows _ _ T _ _ _ Hp Hps) as (<- & row & Hr & [_ Hk] & Ha).
  exists row. split_and!; [done|done|apply Ha; rewrite ?Hd; set_solver..].
Qed.
End FlushBatch.

Section FlushProperties.
Context {L : ThirdParty} {LL : ThirdPartyLaws L} {S : Type} `{TS : !TreasuryStore S}.
Context {SL : TreasuryStoreLaws S}.
Context (iter : gmap positionKey nat -> list nat).
Context (iter_perm : forall d, iter d ≡ₚ (map_to_list d).*2).
Implicit Types m : Manager S.

Lemma iter_elem d p : p ∈ iter d <-> exists key, d !! key = Some p.
Proof.
  rewrite iter_perm, list_elem_of_fmap. split.
  - intros ([key q] & -> & H%elem_of_map_to_list). eauto.
  - intros [key H]. exists (key, p). by rewrite elem_of_map_to_list.
Qed.

Lemma iter_nodup m : wf m -> tracked ∅ m -> NoDup (iter (mg_dirtySet m)).
Proof.
  intros W T. rewrite iter_perm. apply NoDup_fmap_2_strong; [|apply NoDup_map_to_list].
  intros [k p] [k' p'] H%elem_of_map_to_list H'%elem_of_map_to_list. simpl. intros <-. f_equal.
  by apply (positions_inj m k k' p W); apply T.
Qed.

(** Draining the dirty set excuses what was in it. *)
Lemma drained_tracked m :
  wf m -> tracked ∅ m ->
  tracked (list_to_set (iter (mg_dirtySet m))) (dirtyPositions iter (drainPendingOps m)).2.
Proof.
  intros W T. eapply (tracked_rewrite ∅ _ m _ eq); [done|done|done|done|reflexivity| |].
  - by intros ? ? ->.
  - intros key p ps row row' Hp _ _ <- _ HX Ha. apply Ha; [|set_solver].
    destruct (mg_dirtySet m !! key) as [q|] eqn:Hq; [|done]. exfalso. apply HX.
    apply elem_of_list_to_set, iter_elem. exists key.
    pose proof (tk_dirty _ _ T _ _ Hq). congruence.
Qed.

Lemma flushOnce_books m :
  wf m -> tracked ∅ m ->
  let m' := flushOnce iter m in
  wf m' /\ tracked ∅ m' /\ abs m' = abs m
  /\ (persisted m'
      \/ mg_consecutiveFlushFailures m' = add64 (mg_consecutiveFlushFailures m) 1).
Proof.
  intros W T. pose proof (drained_tracked m W T) as T1. pose proof (iter_nodup m W T) as Hnd.
  unfold flushOnce. simpl in T1 |- *.
  assert (same_books m (set_dirtySet (drainPendingOps m) ∅)) as B1 by by split.
  destruct (iter (mg_dirtySet m)) as [|p0 l0] eqn:Hl.
  { split_and!; [by eapply same_books_wf|done|by apply same_books_abs|].
    left. by apply tracked_persisted. }
  rewrite <- Hl in *. clear Hl.
  destruct (flushDirtyPositions _ _) as [r m2] eqn:Hf.
  apply flushDirty_tracked in Hf as (T2 & B2 & D2); [|by eapply same_books_wf| |done|done].
  - assert (same_books m m2) as B by by etrans.
    assert (forall f ids, let m3 := set_flush_status m2 (mg_replaying m2) f ids in
      wf m3 /\ tracked ∅ m3 /\ abs m3 = abs m) as Hfin.
    { intros f ids. split_and!.
      - destruct (same_books_wf _ _ B W) as [? ? ? ?]. by split.
      - by apply (tracked_still ∅ m2).
      - by rewrite <- (same_books_abs _ _ B). }
    destruct (fl_hadError r) eqn:Hr.
    + split_and!; [apply Hfin..|]. right. simpl. by rewrite (sb_failures _ _ B).
    + split_and!; [apply Hfin..|]. left. apply tracked_persisted; [apply Hfin|]. by apply D2.
  - apply Forall_forall. intros p [key Hk]%iter_elem. exists key. simpl. by apply (tk_dirty _ _ T).
Qed.

(** C16: A flush never touches a counter and keeps the tracking invariant;
    afterwards either every position is in the database with exactly the
    balance and locked amount it has in memory, or a write failed, and the
    failure is counted and everything not written is dirty again. *)
Theorem flushOnce_persists m :
  wf m -> tracked ∅ m ->
  let m' := flushOnce iter m in
  wf m' /\ tracked ∅ m' /\ abs m' = abs m
  /\ (persisted m'
      \/ mg_consecutiveFlushFailures m' = add64 (mg_consecutiveFlushFailures m) 1).
Proof. apply flushOnce_books. Qed.

(** What happens to a manager in service: calls of its interface and flushes. *)
Inductive mstep m : Manager S -> Prop :=
| ms_call env c : mstep m (run env c m).2
| ms_flush : mstep m (flushOnce iter m).

Lemma run_dom env c m : wf m -> dom (abs (run env c m).2) = dom (abs m).
Proof.
  intros W. pose proof (run_effect env c m W) as He. destruct (run env c m) as [r m'] eqn:E.
  destruct He as [(e & _ & Hc & _)|[(_ & _ & ->)|(_ & _ & _ & F & p & k & k' & Hp & Hk & _ & Hk' & Ho)]];
    [by simpl; rewrite (abs_calm _ _ Hc)|done|].
  simpl. rewrite (abs_update m m' (call_key c) p k' W F Hp Hk' Ho), dom_insert_L.
  assert (call_key c ∈ dom (abs m)); [|set_solver]. apply elem_of_dom. by rewrite abs_lookup, Hp; exists k.
Qed.

(** C21: The state of the manager stays well-typed for as long as it serves: after
    any sequence of calls and flushes it has its sixteen shards, every index
    points to the position it names, every counter is an int64, every position
    has its row, which is up to date unless the position is marked dirty, and
    no position has appeared or gone. *)
Theorem manager_stays_well_typed m m' :
  wf m -> tracked ∅ m -> rtc mstep m m' -> wf m' /\ tracked ∅ m' /\ dom (abs m') = dom (abs m).
Proof.
  intros W T Hr. induction Hr as [|m m1 m2 Hs _ IH]; [done|].
  assert (wf m1 /\ tracked ∅ m1 /\ dom (abs m1) = dom (abs m)) as (W1 & T1 & <-); [|by apply IH].
  destruct Hs as [env c|].
  - split_and!; [by eapply run_wf, surjective_pairing|by apply run_tracked|by apply run_dom].
  - destruct (flushOnce_books m W T) as (W1 & T1 & A & _). split_and!; [done|done|by rewrite A].
Qed.
End FlushProperties.
