(* ===== verification/TreasuryRecovery.v ===== *)
(** * treasury: correctness of the start-up

    [LoadPositions] rebuilds the manager from the positions table and the
    open reservations of the write-ahead log: with enough fuel for the pages
    it returns, the balances and locked amounts are those of the rows, and
    reserved is the sum of the open reservations.  So a restart after a clean
    flush restores the books as they were. *)

From Stdlib Require Import QArith Lqa.
From S2P Require Import Prelude ThirdParty Money Treasury TreasuryFacts TreasuryProps TreasuryFlush TreasurySync TreasuryFlushProps.
Local Open Scope string_scope.
Local Open Scope Z_scope.

(** ** Loading the rows *)

Section Loading.
Context {L : ThirdParty} {LL : ThirdPartyLaws L} {S : Type} `{TS : !TreasuryStore S}.
Context {SL : TreasuryStoreLaws S}.
Implicit Types m : Manager S.

(** A row that fits the counters and is not over-committed. *)
Definition row_counters (r : Position) : option counters :=
  match toMicro (pos_Balance r), toMicro (pos_Locked r) with
  | Some b, Some l => Some (Cnt b l 0)
  | _, _ => None
  end.

Definition sound_row (r : Position) : Prop :=
  match row_counters r with Some k => solvent k | None => False end.

#[global] Instance sound_row_dec r : Decision (sound_row r).
Proof. unfold sound_row. destruct (row_counters r); apply _. Defined.

(** Settings and status that loading and replaying leave alone. *)
Definition config m :=
  (mg_syncThresholds m, mg_syncThresholdDefault m, mg_consecutiveFlushFailures m, mg_replaying m).

Lemma addPosition_spec r m :
  wf m -> sound_row r ->
  exists m' k, addPosition r m = Some m' /\ row_counters r = Some k
    /\ wf m' /\ mg_store m' = mg_store m /\ config m' = config m
    /\ mg_idempotencyShards m' = mg_idempotencyShards m
    /\ abs m' = <[row_key r := k]> (abs m).
Proof.
  intros W. unfold sound_row. destruct (row_counters r) as [k|] eqn:Hk; [|done]. intros Hs.
  destruct (addPosition r m) as [m'|] eqn:E.
  - pose proof (addPosition_wf r m m' W E) as W'. exists m', k. revert E Hk.
    unfold addPosition, row_counters. repeat case_match; try done. intros [= <-] [= <-].
    split_and!; try done. apply map_eq. intros key.
    rewrite abs_lookup. simpl. destruct (decide (key = row_key r)) as [->|Hne].
    + unfold row_key, key_of. simpl. rewrite !lookup_insert_eq. simpl. unfold counters_at.
      simpl. by rewrite lookup_insert_eq.
    + rewrite !lookup_insert_ne by (unfold row_key in Hne; done).
      rewrite abs_lookup. destruct (mg_positions m !! key) as [p|] eqn:Hp; [|done]. simpl.
      unfold counters_at. simpl. rewrite lookup_insert_ne; [done|].
      destruct (wf_index _ W _ _ Hp) as (ps & Hps & _). intros <-.
      assert (mg_next m < mg_next m)%nat by (apply (wf_fresh _ W); by exists ps). lia.
  - exfalso. revert E Hk. unfold addPosition, row_counters. repeat case_match; done.
Qed.

Lemma addPositions_app rs rs' m :
  addPositions (rs ++ rs') m = addPositions rs m ≫= addPositions rs'.
Proof.
  revert m. induction rs as [|r rs IH]; intros m; simpl; [done|].
  destruct (addPosition r m); simpl; [apply IH|done].
Qed.

(** The books after loading: one entry per row. *)
Definition book_rows (rs : list Position) : list (positionKey * counters) :=
  omap (fun r => (fun k => (row_key r, k)) <$> row_counters r) rs.

Definition books_of (rs : list Position) : gmap positionKey counters :=
  list_to_map (book_rows rs).

Lemma book_rows_keys rs key : key ∈ (book_rows rs).*1 -> key ∈ map row_key rs.
Proof.
  rewrite list_elem_of_fmap. intros ([key' k'] & -> & Hin).
  apply list_elem_of_omap in Hin as (r & Hr & He). rewrite list_elem_of_fmap. exists r.
  split; [|done]. destruct (row_counters r); [|done]. by injection He as -> ->.
Qed.

Lemma addPositions_spec rs : forall m,
  wf m -> Forall sound_row rs -> NoDup (map row_key rs) ->
  exists m', addPositions rs m = Some m' /\ wf m' /\ mg_store m' = mg_store m
    /\ config m' = config m /\ mg_idempotencyShards m' = mg_idempotencyShards m
    /\ abs m' = books_of rs ∪ abs m.
Proof.
  induction rs as [|r rs IH]; intros m W Hs Hnd; simpl.
  { exists m. unfold books_of. simpl. by rewrite (left_id_L ∅ (∪)). }
  apply Forall_cons in Hs as [Hr Hs].
  change (NoDup (row_key r :: map row_key rs)) in Hnd. apply NoDup_cons in Hnd as [Hn Hnd].
  destruct (addPosition_spec r m W Hr) as (m1 & k & -> & Hk & W1 & S1 & C1 & I1 & A1).
  destruct (IH m1 W1 Hs Hnd) as (m2 & H2 & W2 & S2 & C2 & I2 & A2).
  exists m2. split_and!; [exact H2|done|congruence..|]. rewrite A2, A1.
  unfold books_of. simpl. rewrite Hk. simpl. rewrite <- insert_union_l.
  symmetry. apply insert_union_r. apply not_elem_of_list_to_map.
  by intros Hin%book_rows_keys.
Qed.

Lemma resetIndexes_wf m : wf m -> wf (resetIndexes m) /\ abs (resetIndexes m) = ∅.
Proof.
  intros [W1 W2 W3 W4]. split.
  - split; [done| |done|done]. intros key p. simpl. by rewrite lookup_empty.
  - apply map_eq. intros key. by rewrite abs_lookup.
Qed.

(** *** Paging *)

Definition page : nat := Z.to_nat positionBatchSize.

Lemma wrap32_id z : 0 <= z < 2 ^ 31 -> wrap32 z = z.
Proof. intros. unfold wrap32. rewrite Z.mod_small by lia. lia. Qed.

Lemma load_next s off : answers s -> 0 <= off ->
  LoadPositionsPaginated positionBatchSize off s = Ok (take page (drop (Z.to_nat off) (rows s))).
Proof.
  intros Ha Ho. pose proof (load_answers positionBatchSize off s Ha) as H.
  destruct (LoadPositionsPaginated positionBatchSize off s) as [rs|] eqn:E; [|done].
  by apply load_page in E as ->.
Qed.

Lemma loadPages_spec fuel : forall off m m',
  answers (mg_store m) -> (off <= length (rows (mg_store m)))%nat ->
  Z.of_nat (length (rows (mg_store m))) + positionBatchSize < 2 ^ 31 ->
  (length (rows (mg_store m)) < off + fuel * page)%nat ->
  (forall rs m1 m2, addPositions rs m1 = Some m2 -> mg_store m2 = mg_store m1) ->
  addPositions (drop off (rows (mg_store m))) m = Some m' ->
  loadPages fuel (Z.of_nat off) m = Some (Ok tt, m').
Proof.
  induction fuel as [|fuel IH]; intros off m m' Ha Ho Hlen Hfuel Hst Hadd; [lia|].
  simpl. rewrite load_next by (done || lia). rewrite Nat2Z.id.
  set (rs := rows (mg_store m)) in *.
  rewrite <- (take_drop page (drop off rs)) in Hadd. rewrite addPositions_app in Hadd.
  destruct (addPositions (take page (drop off rs)) m) as [m1|] eqn:E1; [|done]. simpl in Hadd.
  pose proof (Hst _ _ _ E1) as HS. rewrite drop_drop in Hadd.
  rewrite length_take, length_drop. unfold page, positionBatchSize in *.
  destruct (Z.of_nat _ <? 1000) eqn:Hs.
  - apply Z.ltb_lt in Hs. rewrite drop_ge in Hadd by lia. by injection Hadd as ->.
  - apply Z.ltb_ge in Hs. rewrite wrap32_id by lia.
    replace (Z.of_nat off + 1000) with (Z.of_nat (off + Z.to_nat 1000)) by lia.
    apply IH; rewrite ?HS; fold rs; try done; lia.
Qed.
End Loading.

(** ** Replaying the log *)

Section Replay.
Context {L : ThirdParty} {LL : ThirdPartyLaws L} {S : Type} `{TS : !TreasuryStore S}.
Implicit Types m : Manager S.

Definition call_of (op : ReserveOp) : Call :=
  {| cl_op := ro_OpType op; cl_tenant := ro_TenantID op; cl_currency := ro_Currency op;
     cl_location := ro_Location op; cl_amount := ro_Amount op; cl_ref := ro_Reference op;
     cl_refType := "recovery" |}.

Lemma replayOp_run env op m : replayOp env op m = run env (call_of op) m.
Proof. unfold replayOp, call_of, run. by destruct (ro_OpType op). Qed.

Definition op_key (op : ReserveOp) : positionKey :=
  (ro_TenantID op, ro_Currency op, ro_Location op).

(** The amount the operations reserve on one position. *)
Fixpoint open_amount (key : positionKey) (ops : list ReserveOp) : Z :=
  match ops with
  | [] => 0
  | op :: rest =>
      (if bool_decide (op_key op = key) then micro (ro_Amount op) else 0) + open_amount key rest
  end.

Lemma config_markDirty p m : config (markDirty p m) = config m.
Proof. unfold markDirty. by case_match. Qed.
Lemma config_store p b l r m : config (store_counters p b l r m) = config m.
Proof. unfold store_counters. by case_match. Qed.
Lemma config_publish p m : config (publishLiquidityAlert p m) = config m.
Proof. unfold publishLiquidityAlert. by repeat case_match. Qed.

Lemma config_sync cur a m m' : config m' = config m -> needsSyncFlush cur a m' = needsSyncFlush cur a m.
Proof.
  unfold config, needsSyncFlush, syncThresholdFor. intros [= -> -> _ _]. done.
Qed.

(** A claim adds at most its own key. *)
Lemma tryAcquire_held env ref op m m' k :
  length (mg_idempotencyShards m) = 16%nat ->
  tryAcquireIdempotency env ref op m = (false, m') -> held k m' ->
  held k m \/ k = idempotencyKey ref op.
Proof.
  intros Hl. unfold tryAcquireIdempotency. case_bool_decide; [done|]. intros [= <-].
  unfold held. simpl. set (k0 := idempotencyKey ref op).
  destruct (decide (k = k0)) as [->|Hne]; [by right|]. intros Hk. left.
  destruct (decide (idempotencyShardFor k = idempotencyShardFor k0)) as [Heq|Hni].
  - rewrite Heq, shard_at_insert in Hk by (rewrite Hl; apply idempotencyShardFor_lt).
    rewrite lookup_insert_ne in Hk by done. rewrite Heq.
    case_match; [|done]. destruct Hk as [v Hv]. unfold purge in Hv.
    apply map_lookup_filter_Some in Hv as [Hv _]. by exists v.
  - unfold shard_at in *. by rewrite list_lookup_insert_ne in Hk.
Qed.

(** A reservation that fits is replayed: nothing is logged, and only its own
    key is claimed. *)
Lemma Reserve_replays env t cur loc a ref m k :
  wf m -> mg_replaying m = true -> mg_consecutiveFlushFailures m < maxFlushFailuresBeforeReject ->
  IsPositive a = true -> validateMicroRange a = Ok tt -> needsSyncFlush cur a m = false ->
  ~ held (idempotencyKey ref "reserve") m -> abs m !! (t, cur, loc) = Some k ->
  micro a <= avail64 k ->
  exists m', Reserve env t cur loc a ref m = (Ok tt, m') /\ config m' = config m
    /\ mg_store m' = mg_store m
    /\ forall k', held k' m' -> held k' m \/ k' = idempotencyKey ref "reserve".
Proof.
  intros W Hrep Hf Hp Hv Hsync Hn Hk Hav. unfold Reserve. rewrite Hp, Hv. simpl.
  rewrite (proj2 (Z.leb_gt _ _)) by done.
  destruct (tryAcquireIdempotency env ref "reserve" m) as [h m1] eqn:EA.
  pose proof (tryAcquire_spec _ _ _ _ _ _ (wf_shards _ W) EA) as HA.
  destruct h; [by destruct HA|]. destruct HA as (_ & _ & Hc & Hl).
  assert (config m1 = config m /\ mg_store m1 = mg_store m) as [C1 S1].
  { revert EA. unfold tryAcquireIdempotency. case_bool_decide; by intros [= <-]. }
  rewrite <- (abs_calm _ _ Hc), abs_lookup in Hk. unfold getPosition.
  destruct (mg_positions m1 !! (t, cur, loc)) as [p|]; [|done]. simpl in Hk.
  rewrite (toMicro_validated _ Hv). unfold deref. unfold counters_at in Hk.
  destruct (mg_heap m1 !! p) as [ps|] eqn:Hps; [|done]. injection Hk as <-.
  rewrite (proj2 (Z.ltb_ge (available64 ps) (micro a))) by done. cbv zeta.
  set (m2 := markDirty p _).
  assert (config m2 = config m) as C2
    by (unfold m2; by rewrite config_markDirty, config_store).
  assert (mg_store m2 = mg_store m) as S2.
  { unfold m2, markDirty, store_counters. repeat case_match; done. }
  assert (mg_idempotencyShards m2 = mg_idempotencyShards m1) as I2
    by (unfold m2; rewrite (qu_shards _ _ (markDirty_quiet p _)); apply store_counters_shards).
  unfold logOp. replace (mg_replaying m2) with true by (unfold config in C2; congruence).
  rewrite (config_sync cur a m m2 C2), Hsync.
  assert (forall k', held k' m2 -> held k' m \/ k' = idempotencyKey ref "reserve") as Hh.
  { intros k'. rewrite (held_shards k' m1 m2 I2). eapply tryAcquire_held; [apply W|exact EA]. }
  destruct (mg_heap m2 !! p); [|by exists m2].
  case_match; [|by exists m2]. eexists. split; [done|]. split_and!.
  - by rewrite config_publish.
  - rewrite <- S2. unfold publishLiquidityAlert. by repeat case_match.
  - intros k'. rewrite (quiet_held k' m2 _ (publishLiquidityAlert_quiet p m2)). apply Hh.
Qed.

(** What the log may ask for: reservations that were accepted once. *)
Definition replayable m (op : ReserveOp) : Prop :=
  ro_OpType op = OpReserve /\ IsPositive (ro_Amount op) = true
  /\ validateMicroRange (ro_Amount op) = Ok tt
  /\ needsSyncFlush (ro_Currency op) (ro_Amount op) m = false
  /\ is_Some (abs m !! op_key op).

Definition reserve_more (key : positionKey) (ops : list ReserveOp) (k : counters) : counters :=
  Cnt (c_bal k) (c_lock k) (c_res k + open_amount key ops).

Lemma open_amount_nonneg key ops :
  Forall (fun op => IsPositive (ro_Amount op) = true) ops -> 0 <= open_amount key ops.
Proof.
  induction 1 as [|op ops Hp _ IH]; simpl; [done|]. pose proof (micro_bounds _ Hp).
  case_bool_decide; lia.
Qed.

Lemma avail64_solvent m key k : wf m -> abs m !! key = Some k -> solvent k -> avail64 k = available k.
Proof.
  intros W Hk (H1 & H2 & H3). destruct (abs_range m key k W Hk) as ([B1 B2] & _).
  unfold avail64, available. rewrite (sub64_id (c_bal k)); [apply sub64_id|];
    int64; lia.
Qed.

(** One reservation of the log. *)
Lemma replay_one env op ops m :
  wf m -> mg_replaying m = true -> mg_consecutiveFlushFailures m < maxFlushFailuresBeforeReject ->
  replayable m op -> ~ held (idempotencyKey (ro_Reference op) "reserve") m ->
  Forall (fun op => IsPositive (ro_Amount op) = true) ops -> all_solvent m ->
  map_Forall (fun key k => c_res k + open_amount key (op :: ops) <= c_bal k - c_lock k) (abs m) ->
  exists m' k, replayOp env op m = (Ok tt, m') /\ wf m' /\ all_solvent m' /\ config m' = config m
    /\ mg_store m' = mg_store m /\ abs m !! op_key op = Some k
    /\ abs m' = <[op_key op := Cnt (c_bal k) (c_lock k) (c_res k + micro (ro_Amount op))]> (abs m)
    /\ forall k', held k' m' -> held k' m \/ k' = idempotencyKey (ro_Reference op) "reserve".
Proof.
  intros W Hrep Hf (Hop & Hp & Hv & Hsync & [k Hk]) Hn Hpos Hs Hfit.
  pose proof (micro_bounds _ Hp) as Hm. pose proof (open_amount_nonneg (op_key op) ops Hpos) as Ho.
  pose proof (Hfit _ _ Hk) as Hfk. simpl in Hfk. rewrite bool_decide_true in Hfk by done.
  destruct (Reserve_replays env (ro_TenantID op) (ro_Currency op) (ro_Location op) (ro_Amount op)
    (ro_Reference op) m k) as (m' & HR & HC & HS & HH); try done.
  { rewrite (avail64_solvent m _ k W Hk (Hs _ _ Hk)). unfold available. lia. }
  assert (run env (call_of op) m = (Ok tt, m')) as Hrun
    by (rewrite <- replayOp_run; unfold replayOp; by rewrite Hop).
  pose proof (run_wf _ _ _ _ _ W Hrun) as W'.
  destruct (run_simulates env (call_of op) m (Ok tt) m' 0 W Hs) as
    [[_ Hh]|(_ & _ & _ & k1 & k2 & Hk1 & _ & Hspec & Habs)]; [done| |done| |].
  - intros ky kk Hkk. simpl. rewrite Hop.
    destruct (abs_range m ky kk W Hkk) as ([_ ?] & _). lia.
  - exfalso. apply Hn. specialize (Hh eq_refl). unfold call_idem in Hh. simpl in Hh.
    by rewrite Hop in Hh.
  - unfold call_key in Hk1, Habs. simpl in *. fold (op_key op) in *. assert (k1 = k) as -> by congruence.
    assert (k2 = Cnt (c_bal k) (c_lock k) (c_res k + micro (ro_Amount op))) as ->.
    { rewrite Hop in Hspec. destruct k. unfold spec_f in Hspec. case_match; [done|].
      by simplify_eq/=. }
    exists m', k. split_and!; [by rewrite replayOp_run|done| |done|done|done|done|done].
    unfold all_solvent. rewrite Habs. apply map_Forall_insert_2; [|done].
    eapply spec_f_solvent; [|by apply (Hs _ _ Hk)|exact Hspec]. lia.
Qed.

Lemma replayOps_spec env ops : forall m,
  wf m -> mg_replaying m = true -> mg_consecutiveFlushFailures m < maxFlushFailuresBeforeReject ->
  Forall (replayable m) ops -> NoDup (map ro_Reference ops) ->
  Forall (fun op => ~ held (idempotencyKey (ro_Reference op) "reserve") m) ops ->
  all_solvent m ->
  map_Forall (fun key k => c_res k + open_amount key ops <= c_bal k - c_lock k) (abs m) ->
  exists m', replayOps env ops m = (Ok tt, m') /\ wf m' /\ all_solvent m' /\ config m' = config m
    /\ mg_store m' = mg_store m
    /\ forall key, abs m' !! key = reserve_more key ops <$> abs m !! key.
Proof.
  induction ops as [|op ops IH]; intros m W Hrep Hf Hops Hnd Hn Hs Hfit; cbn [replayOps].
  { exists m. split_and!; try done. intros key. destruct (abs m !! key) as [[]|]; [|done].
    unfold reserve_more. simpl. by rewrite Z.add_0_r. }
  change (NoDup (ro_Reference op :: map ro_Reference ops)) in Hnd.
  apply NoDup_cons in Hnd as [Hnew Hnd]. apply Forall_cons in Hops as [Hop Hops], Hn as [Hno Hn].
  destruct (replay_one env op ops m) as (m1 & k & -> & W1 & Hs1 & C1 & S1 & Hk & A1 & Hh); try done.
  { eapply Forall_impl; [exact Hops|]. by intros ? (_ & ? & _). }
  assert (mg_replaying m1 = mg_replaying m /\ mg_consecutiveFlushFailures m1 = mg_consecutiveFlushFailures m)
    as [R1 F1] by (unfold config in C1; split; congruence).
  destruct (IH m1) as (m' & -> & W' & Hs' & C' & S' & A'); try done; try congruence.
  - eapply Forall_impl; [exact Hops|]. intros o (Ho1 & Ho2 & Ho3 & Ho4 & Ho5).
    split_and!; try done; [by rewrite (config_sync _ _ m)|]. rewrite A1.
    apply lookup_insert_is_Some'. by right.
  - rewrite Forall_forall in Hn |- *. intros o Ho Hheld. destruct (Hh _ Hheld) as [H|H].
    + by apply (Hn o).
    + apply idempotencyKey_inj in H as [H _]. apply Hnew. rewrite <- H.
      rewrite list_elem_of_fmap. by exists o.
  - rewrite A1. apply map_Forall_insert_2.
    + specialize (Hfit _ _ Hk). simpl in Hfit |- *. rewrite bool_decide_true in Hfit by done. lia.
    + intros key kk Hkk. specialize (Hfit _ _ Hkk). simpl in Hfit.
      destruct Hop as (_ & Hp & _). pose proof (micro_bounds _ Hp). case_bool_decide; lia.
  - exists m'. split_and!; try done; try congruence. intros key. rewrite A', A1.
    destruct (decide (key = op_key op)) as [->|Hne].
    + rewrite lookup_insert_eq, Hk. unfold reserve_more. simpl. rewrite bool_decide_true by done.
      do 2 f_equal. lia.
    + rewrite lookup_insert_ne by done. destruct (abs m !! key); [|done]. simpl.
      unfold reserve_more. simpl. rewrite bool_decide_false by done. done.
Qed.
End Replay.

(** ** Start-up *)

Section Startup.
Context {L : ThirdParty} {LL : ThirdPartyLaws L} {S : Type} `{TS : !TreasuryStore S}.
Context {SL : TreasuryStoreLaws S}.
Implicit Types m : Manager S.

(** What the tables must hold for a start-up to succeed: readable, sound rows
    with distinct keys, few enough for the paging offset; a log of open
    reservations for known positions, below the synchronous-flush threshold,
    with distinct references, that fit the rows. *)
Record recoverable m (ops : list ReserveOp) : Prop := {
  rc_wf : wf m;
  rc_answers : answers (mg_store m);
  rc_sound : Forall sound_row (rows (mg_store m));
  rc_keys : NoDup (map row_key (rows (mg_store m)));
  rc_length : Z.of_nat (length (rows (mg_store m))) + positionBatchSize < 2 ^ 31;
  rc_failures : mg_consecutiveFlushFailures m < maxFlushFailuresBeforeReject;
  rc_log : is_Some (LogReserveOp (S := S)) /\ GetUncommittedOps (mg_store m) = Ok ops;
  rc_ops : Forall (fun op => IsPositive (ro_Amount op) = true
    /\ validateMicroRange (ro_Amount op) = Ok tt
    /\ needsSyncFlush (ro_Currency op) (ro_Amount op) m = false
    /\ op_key op ∈ map row_key (rows (mg_store m))) ops;
  rc_refs : NoDup (map ro_Reference ops);
  rc_fits : map_Forall (fun key k => open_amount key ops <= c_bal k - c_lock k)
              (books_of (rows (mg_store m)));
}.

Lemma books_of_elem rs key k :
  books_of rs !! key = Some k -> exists r, r ∈ rs /\ row_key r = key /\ row_counters r = Some k.
Proof.
  intros H%elem_of_list_to_map_2. apply list_elem_of_omap in H as (r & Hr & He).
  exists r. destruct (row_counters r); simplify_eq/=. done.
Qed.

Lemma books_of_lookup rs r k :
  NoDup (map row_key rs) -> r ∈ rs -> row_counters r = Some k -> books_of rs !! row_key r = Some k.
Proof.
  intros Hnd Hr Hk. apply elem_of_list_to_map_1.
  - clear Hr Hk. induction rs as [|r0 rs IH]; [constructor|].
    change (NoDup (row_key r0 :: map row_key rs)) in Hnd. apply NoDup_cons in Hnd as [Hn Hnd].
    simpl. destruct (row_counters r0); simpl; [|by apply IH]. constructor; [|by apply IH].
    by intros Hin%book_rows_keys.
  - apply list_elem_of_omap. exists r. by rewrite Hk.
Qed.

Lemma reset_not_held k m : ~ held k (resetIndexes m).
Proof.
  unfold held, shard_at. simpl. pose proof (idempotencyShardFor_lt k).
  change (∅ :: _) with (replicate 16 (∅ : gmap string Z)).
  rewrite lookup_replicate_2 by done. simpl. rewrite lookup_empty. by intros [].
Qed.

Lemma addPositions_store rs : forall m m', addPositions rs m = Some m' -> mg_store m' = mg_store m.
Proof.
  induction rs as [|r rs IH]; intros m m'; simpl; [congruence|].
  destruct (addPosition r m) as [m1|] eqn:E; [|done]. simpl. intros ->%IH. revert E.
  unfold addPosition. repeat case_match; intros; by simplify_eq.
Qed.

(** The table part: the manager before the replay. *)
Lemma recoverable_loaded fuel m ops :
  recoverable m ops -> (length (rows (mg_store m)) < fuel * page)%nat ->
  exists m1, loadPages fuel 0 (resetIndexes m) = Some (Ok tt, m1) /\ wf m1
    /\ mg_store m1 = mg_store m /\ config m1 = config m
    /\ mg_idempotencyShards m1 = mg_idempotencyShards (resetIndexes m)
    /\ abs m1 = books_of (rows (mg_store m)).
Proof.
  intros R Hfuel. destruct (resetIndexes_wf m (rc_wf _ _ R)) as [W0 A0].
  destruct (addPositions_spec (rows (mg_store m)) (resetIndexes m)) as
    (m1 & Hadd & W1 & S1 & C1 & I1 & A1); [done|apply R..|].
  exists m1. split_and!; try done; [|by rewrite A1, A0, (right_id_L ∅ (∪))].
  apply (loadPages_spec fuel 0 (resetIndexes m) m1); simpl; try apply R; try done; [lia|].
  apply addPositions_store.
Qed.

Lemma books_of_solvent rs : Forall sound_row rs -> map_Forall (fun _ k => solvent k) (books_of rs).
Proof.
  intros Hs key k (r & Hr & _ & Hk)%books_of_elem. rewrite Forall_forall in Hs.
  specialize (Hs r Hr). unfold sound_row in Hs. by rewrite Hk in Hs.
Qed.

Lemma LoadPositions_books env fuel m ops :
  recoverable m ops -> (length (rows (mg_store m)) < fuel * page)%nat ->
  exists m', LoadPositions env fuel m = Some (Ok tt, m') /\ wf m' /\ all_solvent m'
    /\ mg_replaying m' = false
    /\ forall key, abs m' !! key = reserve_more key ops <$> books_of (rows (mg_store m)) !! key.
Proof.
  intros R Hfuel. destruct (recoverable_loaded fuel m ops R Hfuel) as (m1 & Hl & W1 & S1 & C1 & I1 & A1).
  destruct (rc_log _ _ R) as [[log Hlog] Hops].
  assert (wf (set_replaying m1 true)) as W1' by (destruct W1; by split).
  assert (abs (set_replaying m1 true) = books_of (rows (mg_store m))) as A1' by done.
  destruct (replayOps_spec env ops (set_replaying m1 true)) as (m2 & HR & W2 & Hs2 & C2 & S2 & A2).
  - done.
  - done.
  - simpl. replace (mg_consecutiveFlushFailures m1) with (mg_consecutiveFlushFailures m)
      by (unfold config in C1; congruence). apply R.
  - pose proof (uncommitted_reserves _ _ Hops) as Hres. rewrite Forall_forall in Hres.
    pose proof (rc_ops _ _ R) as Ho. rewrite Forall_forall in Ho |- *. intros op Hop.
    destruct (Ho op Hop) as (H1 & H2 & H3 & H4). split_and!; try done; [by apply Hres| |].
    + rewrite <- H3. apply (config_sync _ _ m m1 C1).
    + rewrite A1'. apply list_elem_of_fmap in H4 as (r & Hk & Hr). rewrite Hk.
      pose proof (rc_sound _ _ R) as Hs. rewrite Forall_forall in Hs. specialize (Hs r Hr).
      unfold sound_row in Hs. destruct (row_counters r) as [k|] eqn:Hrc; [|done].
      exists k. apply books_of_lookup; [apply R|done|done].
  - apply R.
  - apply Forall_forall. intros op _. rewrite (held_shards _ (resetIndexes m)) by done.
    apply reset_not_held.
  - unfold all_solvent. rewrite A1'. apply books_of_solvent, R.
  - rewrite A1'. intros key k Hk. pose proof (rc_fits _ _ R _ _ Hk) as Hf. simpl in Hf.
    apply books_of_elem in Hk as (r & _ & _ & Hk). unfold row_counters in Hk.
    repeat case_match; simplify_eq/=. lia.
  - exists (set_replaying m2 false). unfold LoadPositions. rewrite Hl. cbv zeta. rewrite Hlog.
    simpl. rewrite S1, Hops, HR. split_and!; [done|destruct W2; by split|done|done|].
    intros key. change (abs (set_replaying m2 false)) with (abs m2). by rewrite A2, A1'.
Qed.
End Startup.

Section StartupProperties.
Context {L : ThirdParty} {LL : ThirdPartyLaws L} {S : Type} `{TS : !TreasuryStore S}.
Context {SL : TreasuryStoreLaws S}.
Implicit Types m : Manager S.

(** Start-up terminates and rebuilds the books from the tables: with
    fuel for the pages, every row becomes a position with its balance and
    locked amount, reserved is exactly the sum of its open reservations in
    the log, no position is over-committed, and nothing else is loaded. *)
Theorem LoadPositions_restores env fuel m ops :
  recoverable m ops -> (length (rows (mg_store m)) < fuel * page)%nat ->
  exists m', LoadPositions env fuel m = Some (Ok tt, m') /\ wf m' /\ all_solvent m'
    /\ mg_replaying m' = false
    /\ (forall key k, abs m' !! key = Some k ->
        exists row, row ∈ rows (mg_store m) /\ row_key row = key
          /\ row_counters row = Some (Cnt (c_bal k) (c_lock k) 0)
          /\ c_res k = open_amount key ops)
    /\ (forall row, row ∈ rows (mg_store m) -> is_Some (abs m' !! row_key row)).
Proof.
  intros R Hfuel. destruct (LoadPositions_books env fuel m ops R Hfuel) as (m' & HL & W & Hs & Hr & HA).
  exists m'. split_and!; try done.
  - intros key k. rewrite HA. destruct (books_of _ !! key) as [k0|] eqn:Hk; [|done].
    intros [= <-]. apply books_of_elem in Hk as (row & Hin & Hkey & Hc). exists row.
    unfold row_counters in *. repeat case_match; simplify_eq/=. done.
  - intros row Hin. rewrite HA, fmap_is_Some. pose proof (rc_sound _ _ R) as Hsd.
    rewrite Forall_forall in Hsd. specialize (Hsd row Hin). unfold sound_row in Hsd.
    destruct (row_counters row) as [k|] eqn:Hrc; [|done]. exists k.
    apply books_of_lookup; [apply R|done|done].
Qed.

(** C15: When a restart loses nothing.  Suppose every position is persisted,
    every row belongs to a position, the counters are in the micro range and
    the open reservations of the log add up to what each position has
    reserved; and that the tables are [recoverable]: the store answers, the
    log can be read, its open operations have references of their own (two
    with one reference would be replayed once), positive amounts in the micro
    range and below the threshold of the synchronous flush, and name loaded
    positions with the funds for them; the rows have keys of their own and
    counters in range, fewer than 2^31 with a page to spare; and fewer flushes
    have failed in a row than make Reserve refuse.  Then loading the database,
    with fuel for its pages, returns without an error and gives back exactly
    the books that were in memory. *)
Theorem restart_restores_books env fuel m ops :
  persisted m -> recoverable m ops -> (length (rows (mg_store m)) < fuel * page)%nat ->
  (forall row, row ∈ rows (mg_store m) -> is_Some (abs m !! row_key row)) ->
  map_Forall (fun key k => 0 <= c_lock k <= c_bal k /\ c_bal k <= maxMicroValue
                /\ c_res k = open_amount key ops) (abs m) ->
  exists m', LoadPositions env fuel m = Some (Ok tt, m') /\ abs m' = abs m.
Proof.
  intros HP R Hfuel Hrows Hm. destruct (LoadPositions_books env fuel m ops R Hfuel) as (m' & HL & _ & _ & _ & HA).
  exists m'. split; [done|]. apply map_eq. intros key. rewrite HA.
  destruct (abs m !! key) as [k|] eqn:Hk.
  - destruct (HP key k Hk) as (row & Hin & <- & Hb & Hl). destruct (Hm _ _ Hk) as (H1 & H2 & H3).
    rewrite (books_of_lookup _ row (Cnt (c_bal k) (c_lock k) 0)); [|apply R|done|].
    + simpl. unfold reserve_more. destruct k as [b l r]. simpl in *. by rewrite H3.
    + rewrite !fromMicro_val in *. unfold row_counters.
      rewrite (toMicro_value _ _ Hb), (toMicro_value _ _ Hl); [done|lia..].
  - destruct (books_of _ !! key) as [k0|] eqn:Hk0; [|done].
    apply books_of_elem in Hk0 as (row & Hin & <- & _). destruct (Hrows row Hin). congruence.
Qed.
End StartupProperties.

(** ** Start-up establishes the tracking invariant *)

Section StartupTracking.
Context {L : ThirdParty} {LL : ThirdPartyLaws L} {S : Type} `{TS : !TreasuryStore S}.
Context {SL : TreasuryStoreLaws S}.
Implicit Types m : Manager S.

(** The amounts of the row are whole micro-units, as every flush writes them. *)
Definition exact_row (r : Position) : Prop :=
  match row_counters r with
  | Some k => (dVal (pos_Balance r) == dVal (fromMicro (c_bal k))
               /\ dVal (pos_Locked r) == dVal (fromMicro (c_lock k)))%Q
  | None => False
  end.

Lemma addPosition_tracked r m m' :
  wf m -> tracked ∅ m -> r ∈ rows (mg_store m) -> exact_row r ->
  mg_positions m !! row_key r = None -> addPosition r m = Some m' -> tracked ∅ m'.
Proof.
  intros W T Hr He Hnew. unfold addPosition.
  destruct (toMicro (pos_Balance r)) as [b|] eqn:Hb; [|done].
  destruct (toMicro (pos_Locked r)) as [l|] eqn:Hl; [|done]. intros [= <-].
  unfold exact_row, row_counters in He. rewrite Hb, Hl in He. simpl in He.
  assert (forall key p, mg_positions m !! key = Some p -> p <> mg_next m) as Hne.
  { intros key p (ps & Hps & _)%(wf_index _ W) ->.
    assert (mg_next m < mg_next m)%nat by (apply (wf_fresh _ W); by exists ps). lia. }
  split; simpl.
  - intros key p H%(tk_dirty _ _ T). rewrite lookup_insert_ne; [done|].
    change (key_of _) with (row_key r). congruence.
  - apply T.
  - intros key p ps. rewrite lookup_insert_Some. intros [[<- <-]|[_ Hp]].
    + rewrite lookup_insert_eq. intros [= <-]. split; [done|]. exists r. by split_and!.
    + rewrite lookup_insert_ne by (intros Heq; by destruct (Hne _ _ Hp)).
      by apply (tk_rows _ _ T key p ps).
Qed.

Lemma addPosition_index r m m' key :
  addPosition r m = Some m' -> key <> row_key r -> mg_positions m' !! key = mg_positions m !! key.
Proof.
  unfold addPosition. repeat case_match; try done. intros [= <-] Hne. simpl.
  by rewrite lookup_insert_ne.
Qed.

Lemma addPositions_tracked rs : forall m m',
  wf m -> tracked ∅ m -> rs ⊆ rows (mg_store m) -> Forall exact_row rs ->
  NoDup (map row_key rs) -> Forall (fun r => mg_positions m !! row_key r = None) rs ->
  addPositions rs m = Some m' -> tracked ∅ m'.
Proof.
  induction rs as [|r rs IH]; intros m m' W T Hsub He Hnd Hnew; simpl; [by intros [= <-]|].
  change (NoDup (row_key r :: map row_key rs)) in Hnd.
  apply NoDup_cons in Hnd as [Hn Hnd]. apply Forall_cons in He as [Hr He], Hnew as [Hrn Hnew].
  destruct (addPosition r m) as [m1|] eqn:E; [|done]. simpl. intros Hadd.
  assert (mg_store m1 = mg_store m) as HS
    by (revert E; unfold addPosition; repeat case_match; intros; by simplify_eq).
  assert (r ∈ rows (mg_store m)) as Hin by set_solver.
  apply (IH m1 m'); [by eapply addPosition_wf|by eapply addPosition_tracked| |done|done| |done].
  - rewrite HS. set_solver.
  - rewrite Forall_forall in Hnew |- *. intros r' Hr'. rewrite (addPosition_index r m m1); [by apply Hnew|done|].
    intros Heq. apply Hn. rewrite <- Heq. rewrite list_elem_of_fmap. by exists r'.
Qed.

Lemma replayOps_tracked env ops : forall m r m',
  wf m -> tracked ∅ m -> replayOps env ops m = (r, m') -> tracked ∅ m'.
Proof.
  induction ops as [|op ops IH]; intros m r m' W T; cbn [replayOps]; [by intros [= _ <-]|].
  rewrite replayOp_run. pose proof (run_tracked ∅ env (call_of op) m W T) as T1.
  destruct (run env (call_of op) m) as [r1 m1] eqn:E. pose proof (run_wf _ _ _ _ _ W E) as W1.
  simpl in T1. destruct r1 as [|[]]; eauto. by intros [= _ <-].
Qed.

Lemma LoadPositions_tracks env fuel m ops m' :
  recoverable m ops -> (length (rows (mg_store m)) < fuel * page)%nat ->
  NoDup (map pos_ID (rows (mg_store m))) -> Forall exact_row (rows (mg_store m)) ->
  LoadPositions env fuel m = Some (Ok tt, m') -> tracked ∅ m'.
Proof.
  intros R Hfuel Hids He. unfold LoadPositions.
  destruct (resetIndexes_wf m (rc_wf _ _ R)) as [W0 _].
  destruct (addPositions_spec (rows (mg_store m)) (resetIndexes m)) as (m1 & Hadd & W1 & S1 & _);
    [done|apply R..|].
  assert (tracked ∅ m1) as T1.
  { eapply (addPositions_tracked (rows (mg_store m)) (resetIndexes m)); [done| |done|done|apply R| |done].
    - split; simpl; [intros ? ?; by rewrite lookup_empty|done|intros ? ? ?; by rewrite lookup_empty].
    - by apply Forall_forall. }
  rewrite (loadPages_spec fuel 0 (resetIndexes m) m1); simpl; try apply R; try done; [|lia|apply addPositions_store].
  assert (wf (set_replaying m1 true)) as W1' by (destruct W1; by split).
  assert (tracked ∅ (set_replaying m1 true)) as T1' by (by apply (tracked_still ∅ m1)).
  destruct (rc_log _ _ R) as [[log ->] Hops]. cbv zeta.
  change (mg_store (set_replaying m1 true)) with (mg_store m1). rewrite S1. simpl in Hops |- *. rewrite Hops.
  destruct (replayOps env ops _) as [[[]|] m2] eqn:E; [|done].
  apply replayOps_tracked in E; [|done|done]. intros [= <-]. by apply (tracked_still ∅ m2).
Qed.

(** start-up establishes the invariant the flush relies on: when ids and
    keys are distinct and the rows hold whole micro-units, every position
    loaded is tracked by its row, also after the replay of the log. *)
Theorem LoadPositions_tracked env fuel m ops m' :
  recoverable m ops -> (length (rows (mg_store m)) < fuel * page)%nat ->
  NoDup (map pos_ID (rows (mg_store m))) -> Forall exact_row (rows (mg_store m)) ->
  LoadPositions env fuel m = Some (Ok tt, m') -> tracked ∅ m'.
Proof. apply LoadPositions_tracks. Qed.
End StartupTracking.
