(* ===== verification/TreasuryDB.v ===== *)
(** * store/treasurydb: the treasury store adapter

    Models src/store/treasurydb/treasury_store.go with the statements it runs
    (src/store/treasurydb/treasury.sql.go, reserve_ops.sql.go and
    position_events.sql.go) over tables as lists, and shows that it keeps the
    laws the manager relies on.

    The positions table is kept in the order its queries sort by, which no
    UPDATE changes.  Amount columns are NUMERIC(28,8).  Each write statement
    takes the next entry of [td_outcomes] to tell whether the database
    executed it; once the list is empty every statement succeeds.  The id of
    a history row is assigned by the database. *)

From Stdlib Require Import Ascii QArith Lqa.
From stdpp Require Import sorting.
From S2P Require Import Prelude ThirdParty Money Treasury TreasuryFacts TreasuryProps TreasuryFlush TreasurySync TreasuryFlushProps TreasuryRecovery.
Local Open Scope string_scope.
Local Open Scope Z_scope.

Module TreasuryAdapter.
Section Tables.
Context {L : ThirdParty}.

Record HistoryRow := {
  hr_PositionID : UUID; hr_TenantID : UUID; hr_Balance : Decimal; hr_Locked : Decimal;
  hr_TriggerType : string }.

Record TDB := {
  td_positions : list Position;
  td_history : list HistoryRow;
  td_ops : list ReserveOp;
  td_events : list PositionEvent;
  td_clock : Z;
  td_outcomes : list bool;
  td_readable : bool;
}.

Definition set_tables (d : TDB) (ps : list Position) (hs : list HistoryRow)
    (ops : list ReserveOp) (evs : list PositionEvent) : TDB :=
  {| td_positions := ps; td_history := hs; td_ops := ops; td_events := evs;
     td_clock := td_clock d; td_outcomes := td_outcomes d; td_readable := td_readable d |}.

Definition set_outcomes (d : TDB) (o : list bool) : TDB :=
  {| td_positions := td_positions d; td_history := td_history d; td_ops := td_ops d;
     td_events := td_events d; td_clock := td_clock d; td_outcomes := o;
     td_readable := td_readable d |}.

Definition dbDown : error := MsgErr "connection refused".

(** One write statement. *)
Definition statement (f : TDB -> TDB) (d : TDB) : result unit * TDB :=
  match td_outcomes d with
  | [] => (Ok tt, f d)
  | true :: o => (Ok tt, f (set_outcomes d o))
  | false :: o => (Err dbDown, set_outcomes d o)
  end.

(** What a NUMERIC(28,8) column keeps of a decimal. *)
Definition numericFromDecimal (d : Decimal) : Decimal := dRound 8 d.

Definition LoadPositionsPaginated (limit offset : Z) (d : TDB) : result (list Position) :=
  if td_readable d then Ok (take (Z.to_nat limit) (drop (Z.to_nat offset) (td_positions d)))
  else Err (WrapErr "loading positions page" dbDown).

(** [UpdatePositionBalances]: no row is no error. *)
Definition setBalances (now : Z) (id : UUID) (balance locked : Decimal) (r : Position) : Position :=
  if bool_decide (pos_ID r = id)
  then {| pos_ID := pos_ID r; pos_TenantID := pos_TenantID r; pos_Currency := pos_Currency r;
          pos_Location := pos_Location r; pos_Balance := numericFromDecimal balance;
          pos_Locked := numericFromDecimal locked; pos_MinBalance := pos_MinBalance r;
          pos_TargetBalance := pos_TargetBalance r; pos_UpdatedAt := now |}
  else r.

Definition UpdatePosition (id : UUID) (balance locked : Decimal) : TDB -> result unit * TDB :=
  statement (fun d => set_tables d (map (setBalances (td_clock d) id balance locked) (td_positions d))
                        (td_history d) (td_ops d) (td_events d)).

Definition RecordHistory (positionID tenantID : UUID) (balance locked : Decimal)
    (triggerType : string) : TDB -> result unit * TDB :=
  statement (fun d => set_tables d (td_positions d)
    (td_history d ++ [{| hr_PositionID := positionID; hr_TenantID := tenantID;
       hr_Balance := numericFromDecimal balance; hr_Locked := numericFromDecimal locked;
       hr_TriggerType := triggerType |}])%list (td_ops d) (td_events d)).

(** One UPDATE per position, outside any transaction: stops at the first
    failure, and what was written stays written. *)
Fixpoint BatchUpdatePositions (updates : list PositionUpdate) (d : TDB) : result unit * TDB :=
  match updates with
  | [] => (Ok tt, d)
  | u :: rest =>
      match UpdatePosition (pu_ID u) (pu_Balance u) (pu_Locked u) d with
      | (Err e, d) => (Err e, d)
      | (Ok _, d) => BatchUpdatePositions rest d
      end
  end.

(** ON CONFLICT (idempotency_key, recorded_at) DO NOTHING. *)
Definition insertEvent (evs : list PositionEvent) (e : PositionEvent) : list PositionEvent :=
  if existsb (fun e' => String.eqb (pe_IdempotencyKey e') (pe_IdempotencyKey e)
                        && (pe_RecordedAt e' =? pe_RecordedAt e)) evs
  then evs else (evs ++ [e])%list.

Definition BatchWriteEvents (events : list PositionEvent) (d : TDB) : result unit * TDB :=
  match events with
  | [] => (Ok tt, d)
  | _ => statement (fun d => set_tables d (td_positions d) (td_history d) (td_ops d)
                               (fold_left insertEvent events (td_events d))) d
  end.

(** ON CONFLICT DO NOTHING on the primary key. *)
Definition LogReserveOp (op : ReserveOp) : TDB -> result unit * TDB :=
  statement (fun d => set_tables d (td_positions d) (td_history d)
    (if existsb (fun o => bool_decide (ro_ID o = ro_ID op)) (td_ops d) then td_ops d
     else td_ops d ++ [{| ro_ID := ro_ID op; ro_TenantID := ro_TenantID op;
            ro_Currency := ro_Currency op; ro_Location := ro_Location op;
            ro_Amount := numericFromDecimal (ro_Amount op); ro_Reference := ro_Reference op;
            ro_OpType := ro_OpType op; ro_CreatedAt := ro_CreatedAt op |}])%list (td_events d)).

Definition closes (o : ReserveOpType) : bool :=
  match o with OpCommit | OpRelease | OpConsume => true | _ => false end.

(** A row of the log with the same reference closes the reservation. *)
Definition matched (ops : list ReserveOp) (r : ReserveOp) : bool :=
  existsb (fun c => bool_decide (ro_Reference c = ro_Reference r) && closes (ro_OpType c)) ops.

Definition openReserve (ops : list ReserveOp) (r : ReserveOp) : Prop :=
  ro_OpType r = OpReserve /\ matched ops r = false.

#[global] Instance ReserveOpType_eq_dec : EqDecision ReserveOpType.
Proof. solve_decision. Defined.

#[global] Instance openReserve_dec ops r : Decision (openReserve ops r).
Proof. unfold openReserve. apply _. Defined.

(** ORDER BY created_at. *)
Definition olderOp (a b : ReserveOp) : Prop := ro_CreatedAt a <= ro_CreatedAt b.

#[global] Instance olderOp_dec a b : Decision (olderOp a b).
Proof. unfold olderOp. apply _. Defined.

Definition GetUncommittedOps (d : TDB) : result (list ReserveOp) :=
  if td_readable d
  then Ok (merge_sort olderOp (filter (openReserve (td_ops d)) (td_ops d)))
  else Err (WrapErr "loading uncommitted ops" dbDown).

Definition CleanupOldOps (before : Z) : TDB -> result unit * TDB :=
  statement (fun d => set_tables d (td_positions d) (td_history d)
    (List.filter (fun r => negb ((ro_CreatedAt r <? before)
                             && (closes (ro_OpType r) || matched (td_ops d) r))) (td_ops d))
    (td_events d)).

#[export] Instance TreasuryStoreAdapter : TreasuryStore TDB := {|
  Treasury.LoadPositionsPaginated := LoadPositionsPaginated;
  Treasury.UpdatePosition := UpdatePosition;
  Treasury.RecordHistory := RecordHistory;
  Treasury.BatchUpdatePositions := Some BatchUpdatePositions;
  Treasury.BatchWriteEvents := Some BatchWriteEvents;
  Treasury.LogReserveOp := Some LogReserveOp;
  Treasury.GetUncommittedOps := GetUncommittedOps;
  Treasury.CleanupOldOps := CleanupOldOps;
|}.
End Tables.

(** ** The adapter keeps the laws *)

Section Laws.
Context {L : ThirdParty} {LL : ThirdPartyLaws L}.

Lemma statement_positions f d :
  (forall d, td_positions (f d) = td_positions d) ->
  td_positions (statement f d).2 = td_positions d.
Proof.
  intros Hf. unfold statement. destruct (td_outcomes d) as [|[] o]; simpl; by rewrite ?Hf.
Qed.

Lemma setBalances_row now id b l r : row_set id b l r (setBalances now id b l r).
Proof.
  unfold setBalances, row_set. case_bool_decide as Hid; [|done].
  split_and!; [done| |done]. intros _. split; simpl; apply dRound_val.
Qed.

Lemma map_row_set now id b l rs : Forall2 (row_set id b l) rs (map (setBalances now id b l) rs).
Proof. induction rs; simpl; constructor; [apply setBalances_row|done]. Qed.

Lemma UpdatePosition_rows id b l d r d' :
  UpdatePosition id b l d = (r, d') ->
  match r with
  | Ok _ => Forall2 (row_set id b l) (td_positions d) (td_positions d')
  | Err _ => td_positions d' = td_positions d
  end.
Proof.
  unfold UpdatePosition, statement. destruct (td_outcomes d) as [|[] o]; intros [= <- <-];
    simpl; first [apply map_row_set | done].
Qed.

Lemma row_batch_refl ok us r : us = [] \/ ok = false -> row_batch ok us r r.
Proof.
  intros H. split_and!; [done|by split|]. intros -> _ u Hu. destruct H as [->|]; [|done].
  by apply elem_of_nil in Hu.
Qed.

(** One more update in front. *)
Lemma row_batch_cons ok u us r r1 r2 :
  row_set (pu_ID u) (pu_Balance u) (pu_Locked u) r r1 -> row_batch ok us r1 r2 ->
  row_batch ok (u :: us) r r2.
Proof.
  intros (M1 & H1 & H1') (M2 & H2 & H2').
  assert (pos_ID r1 = pos_ID r) as Hid by (unfold row_meta in M1; congruence).
  split_and!; [congruence| |].
  - rewrite Forall_cons. intros [Hu Hus]. destruct (H1' (not_eq_sym Hu)).
    destruct H2 as [??]; [by rewrite Hid|]. split; congruence.
  - intros -> Hnd v Hv Hvid. change (NoDup (pu_ID u :: map pu_ID us)) in Hnd.
    apply NoDup_cons in Hnd as [Hn Hnd]. apply elem_of_cons in Hv as [->|Hv].
    + destruct H2 as [Hb Hl].
      * apply Forall_forall. intros w Hw. rewrite Hid, <- Hvid. intros Heq. apply Hn.
        rewrite <- Heq. rewrite list_elem_of_fmap. by exists w.
      * destruct (H1 (eq_sym Hvid)) as [B1 B2]. split; unfold stored_as in *; by rewrite ?Hb, ?Hl.
    + apply H2'; [done|done|done|]. by rewrite Hid.
Qed.

Lemma BatchUpdatePositions_rows us : forall d r d',
  BatchUpdatePositions us d = (r, d') ->
  Forall2 (row_batch (is_ok r) us) (td_positions d) (td_positions d').
Proof.
  induction us as [|u us IH]; intros d r d'; simpl.
  { intros [= <- <-]. apply Forall2_same_length_lookup. split; [done|]. intros i x y Hx Hy.
    assert (x = y) as -> by congruence. apply row_batch_refl. by left. }
  destruct (UpdatePosition _ _ _ _) as [[[]|e] d1] eqn:HU; apply UpdatePosition_rows in HU.
  - intros H%IH. eapply Forall2_trans; [|exact HU|exact H].
    intros. by eapply row_batch_cons.
  - intros [= <- <-]. rewrite HU. apply Forall2_same_length_lookup. split; [done|].
    intros i x y Hx Hy. assert (x = y) as -> by congruence. apply row_batch_refl. by right.
Qed.

#[export, program] Instance TreasuryAdapterLaws : TreasuryStoreLaws TDB := {|
  rows := td_positions;
  answers d := td_readable d = true;
|}.
Next Obligation.
  intros lim off s pg _ _. simpl. unfold LoadPositionsPaginated. case_match; [|done].
  by intros [= <-].
Qed.
Next Obligation. intros lim off s. simpl. unfold LoadPositionsPaginated. by intros ->. Qed.
Next Obligation. intros id b l s s' H. by apply UpdatePosition_rows in H. Qed.
Next Obligation. intros id b l s e s' H. by apply UpdatePosition_rows in H. Qed.
Next Obligation. intros batch us s r s' [= <-] H. by apply BatchUpdatePositions_rows. Qed.
Next Obligation. intros. by apply statement_positions. Qed.
Next Obligation. intros log op s [= <-]. by apply statement_positions. Qed.
Next Obligation.
  intros write es s [= <-]. destruct es; [done|]. by apply statement_positions.
Qed.
Next Obligation. intros. by apply statement_positions. Qed.
Next Obligation.
  intros s ops. simpl. unfold GetUncommittedOps. case_match; [|done]. intros [= <-].
  rewrite merge_sort_Permutation. apply Forall_forall.
  intros op [[Hop _] _]%list_elem_of_filter. done.
Qed.
End Laws.
End TreasuryAdapter.
