(* ===== verification/TransferStore.v ===== *)
(** * core: the transfer store port and its Postgres adapter

    [TransferStore] is the interface of src/core/store.go that the engine
    calls; [TransferStoreLaws] is what the engine relies on: reads return what
    is stored, [TransitionWithOutbox] and [CreateTransferWithOutbox] write the
    transfer and its outbox entries together or not at all, and a transition
    only applies to the expected version.  A caller that gets an error does not
    know whether its transaction was committed: [tx.Commit] can fail after the
    server has committed, when the answer is lost.  [Adapter] models
    src/store/transferdb/outbox_store.go and adapter.go over the tables they
    use and shows that the adapter keeps the contract.

    A pointer argument that the callee writes through ([*domain.Transfer],
    [*domain.Quote]) is returned as a value. *)

From Stdlib Require Import QArith.
From S2P Require Import Prelude ThirdParty Money Deposits Transfer Outbox.
Local Open Scope string_scope.
Local Open Scope Z_scope.

(** ** The port *)

Class TransferStore {L : ThirdParty} (St : Type) : Type := {
  ts_GetTransfer : UUID -> UUID -> St -> result Transfer;
  ts_GetTransferByIdempotencyKey : UUID -> string -> St -> result Transfer;
  ts_GetTransferByExternalRef : UUID -> string -> St -> result Transfer;
  ts_GetDailyVolume : UUID -> Z -> St -> result Decimal;
  ts_CountPendingTransfers : UUID -> St -> result Z;
  ts_CreateQuote : Quote -> St -> result Quote * St;
  ts_GetQuote : UUID -> UUID -> St -> result Quote;
  ts_TransitionWithOutbox : UUID -> TransferStatus -> Z -> list OutboxEntry -> St ->
    result unit * St;
  ts_CreateTransferWithOutbox : Transfer -> list OutboxEntry -> St -> result Transfer * St;
}.

Section Contract.
Context {L : ThirdParty}.

(** A row moved to a new status: version up by one, the timestamp of the
    status set, the rest untouched. *)
Definition transitioned (now : Z) (t : Transfer) (s : TransferStatus) : Transfer :=
  set_status t s (tr_Version t + 1) now
    (if decide (s = Funded) then Some now else tr_FundedAt t)
    (if decide (s = Completed) then Some now else tr_CompletedAt t)
    (if decide (s = Failed) then Some now else tr_FailedAt t).

(** The caller's struct after the insert: id, version and times of the row. *)
Definition assignRow (t : Transfer) (id : UUID) (version now : Z) : Transfer :=
  {| tr_ID := id; tr_TenantID := tr_TenantID t; tr_ExternalRef := tr_ExternalRef t;
     tr_IdempotencyKey := tr_IdempotencyKey t; tr_Status := tr_Status t; tr_Version := version;
     tr_SourceCurrency := tr_SourceCurrency t; tr_SourceAmount := tr_SourceAmount t;
     tr_DestCurrency := tr_DestCurrency t; tr_DestAmount := tr_DestAmount t;
     tr_StableCoin := tr_StableCoin t; tr_StableAmount := tr_StableAmount t;
     tr_Chain := tr_Chain t; tr_FXRate := tr_FXRate t; tr_Fees := tr_Fees t;
     tr_FeeScheduleSnapshot := tr_FeeScheduleSnapshot t;
     tr_OnRampProviderID := tr_OnRampProviderID t;
     tr_OffRampProviderID := tr_OffRampProviderID t; tr_Sender := tr_Sender t;
     tr_Recipient := tr_Recipient t; tr_QuoteID := tr_QuoteID t;
     tr_BlockchainTxs := tr_BlockchainTxs t; tr_CreatedAt := now; tr_UpdatedAt := now;
     tr_FundedAt := tr_FundedAt t; tr_CompletedAt := tr_CompletedAt t;
     tr_FailedAt := tr_FailedAt t; tr_FailureReason := tr_FailureReason t;
     tr_FailureCode := tr_FailureCode t |}.

(** The outbox row of an entry: the columns of the table, which has none for
    the correlation id. *)
Definition outboxEntryToParams (e : OutboxEntry) : OutboxEntry :=
  {| oe_ID := oe_ID e; oe_AggregateType := oe_AggregateType e;
     oe_AggregateID := oe_AggregateID e; oe_TenantID := oe_TenantID e;
     oe_CorrelationID := uuid_Nil; oe_EventType := oe_EventType e;
     oe_Payload := oe_Payload e; oe_IsIntent := oe_IsIntent e; oe_Published := false;
     oe_PublishedAt := None; oe_RetryCount := 0; oe_MaxRetries := oe_MaxRetries e;
     oe_CreatedAt := oe_CreatedAt e |}.

Lemma map_payload_params es :
  map oe_Payload (map outboxEntryToParams es) = map oe_Payload es.
Proof. rewrite map_map. by apply map_ext. Qed.

(** The primary key of the outbox table is (id, created_at). *)
Definition outbox_key (e : OutboxEntry) : UUID * Z := (oe_ID e, oe_CreatedAt e).

(** What the engine relies on.  [store_inv] is the store's own invariant. *)
Class TransferStoreLaws (St : Type) `{TS : !TransferStore St} : Type := {
  transfers : St -> gmap UUID Transfer;
  outbox : St -> list OutboxEntry;
  store_inv : St -> Prop;
  available_store : St -> Prop;
  acknowledged : St -> Prop;
  get_found tn id st t : store_inv st -> ts_GetTransfer tn id st = Ok t ->
    transfers st !! id = Some t /\ tr_ID t = id /\ (tn = uuid_Nil \/ tr_TenantID t = tn);
  get_available tn id st t : available_store st -> transfers st !! id = Some t ->
    tr_TenantID t = tn -> ts_GetTransfer tn id st = Ok t;
  transition_effect id s v es st r st' : ts_TransitionWithOutbox id s v es st = (r, st') ->
    (st' = st /\ is_ok r = false)
    \/ exists t now, transfers st !! id = Some t /\ tr_Version t = v
      /\ transfers st' = <[id := transitioned now t s]> (transfers st)
      /\ outbox st' = (outbox st ++ map outboxEntryToParams es)%list
      /\ (store_inv st -> store_inv st');
  transition_err id s v es st e st' : acknowledged st ->
    ts_TransitionWithOutbox id s v es st = (Err e, st') -> st' = st;
  transition_available id s v es st t : available_store st -> transfers st !! id = Some t ->
    tr_Version t = v -> NoDup (map outbox_key (outbox st ++ es)%list) ->
    exists st', ts_TransitionWithOutbox id s v es st = (Ok tt, st') /\ available_store st';
  create_effect t es st r st' : ts_CreateTransferWithOutbox t es st = (r, st') ->
    (st' = st /\ is_ok r = false)
    \/ exists t' row rows, (forall t1, r = Ok t1 -> t1 = t')
         /\ transfers st !! tr_ID t' = None
         /\ t' = assignRow t (tr_ID t') (tr_Version t') (tr_CreatedAt t')
         /\ (store_inv st -> store_inv st')
         /\ transfers st' = <[tr_ID t' := row]> (transfers st)
         /\ tr_ID row = tr_ID t' /\ tr_TenantID row = tr_TenantID t
         /\ tr_Status row = tr_Status t /\ tr_Version row = tr_Version t'
         /\ tr_IdempotencyKey row = tr_IdempotencyKey t
         /\ outbox st' = (outbox st ++ rows)%list
         /\ map oe_EventType rows = map oe_EventType es;
  create_err t es st e st' : acknowledged st ->
    ts_CreateTransferWithOutbox t es st = (Err e, st') -> st' = st;
  create_quote_frame q st r st' : ts_CreateQuote q st = (r, st') ->
    transfers st' = transfers st /\ outbox st' = outbox st /\ (store_inv st -> store_inv st')
    /\ (acknowledged st -> acknowledged st');
  idem_found tn k st t : store_inv st -> ts_GetTransferByIdempotencyKey tn k st = Ok t ->
    transfers st !! tr_ID t = Some t /\ tr_TenantID t = tn /\ tr_IdempotencyKey t = k;
}.

(** A transition that reports success has been written. *)
Lemma transition_ok {St} `{TS : !TransferStore St} {TSL : TransferStoreLaws St} id s v es (st st' : St) :
  ts_TransitionWithOutbox id s v es st = (Ok tt, st') ->
  exists t now, transfers st !! id = Some t /\ tr_Version t = v
    /\ transfers st' = <[id := transitioned now t s]> (transfers st)
    /\ outbox st' = (outbox st ++ map outboxEntryToParams es)%list
    /\ (store_inv st -> store_inv st').
Proof. by intros [[_ ?]|H]%transition_effect. Qed.

End Contract.

(** ** The adapter *)

Module Adapter.
Section Tables.
Context {L : ThirdParty}.

(** The tables of the transfer database the adapter touches.  [db_up] is
    whether the server answers, [db_clock] what [now()] returns, and
    [db_ids] the ids the default of the id column assigns to inserted rows
    ([None]: the column has no default, and an insert that names no id violates
    its NOT NULL constraint).  [db_lost n] is whether the answer to the [n]-th
    committed transaction is lost: its caller gets an error although the
    transaction has happened. *)
Record DB := {
  db_up : bool;
  db_clock : Z;
  db_ids : nat -> option UUID;
  db_nextid : nat;
  db_lost : nat -> bool;
  db_commits : nat;
  db_transfers : gmap UUID Transfer;
  db_quotes : gmap UUID Quote;
  db_outbox : list OutboxEntry;
}.

Definition db_set (d : DB) (n : nat) (ts : gmap UUID Transfer) (qs : gmap UUID Quote)
    (ob : list OutboxEntry) : DB :=
  {| db_up := db_up d; db_clock := db_clock d; db_ids := db_ids d; db_nextid := n;
     db_lost := db_lost d; db_commits := Datatypes.S (db_commits d);
     db_transfers := ts; db_quotes := qs; db_outbox := ob |}.

Definition down : error := MsgErr "connection refused".
Definition noRows : error := MsgErr "no rows in result set".
Definition nullID : error := MsgErr "null value in column id violates not-null constraint".

(** [tx.Commit]: the tables are written, and the caller is told, unless the
    answer is lost. *)
Definition commitTx {A} (ctx : string) (a : A) (d d' : DB) : result A * DB :=
  (if db_lost d (db_commits d) then Err (WrapErr ctx (MsgErr "connection lost")) else Ok a, d').

(** [TransitionTransferStatus]: the row count is 0 when id or version differ. *)
Definition TransitionTransferStatus (id : UUID) (newStatus : TransferStatus)
    (expectedVersion : Z) (d : DB) : bool * gmap UUID Transfer :=
  match db_transfers d !! id with
  | Some t =>
      if tr_Version t =? expectedVersion
      then (true, <[id := transitioned (db_clock d) t newStatus]> (db_transfers d))
      else (false, db_transfers d)
  | None => (false, db_transfers d)
  end.

(** [InsertOutboxEntries] (COPY): a duplicate key aborts the transaction. *)
Definition InsertOutboxEntries (es : list OutboxEntry) (ob : list OutboxEntry)
  : result (list OutboxEntry) :=
  let rows := map outboxEntryToParams es in
  if bool_decide (NoDup (map outbox_key (ob ++ rows)%list)) then Ok (ob ++ rows)%list
  else Err (MsgErr "duplicate key value violates unique constraint").

Definition TransitionWithOutbox (transferID : UUID) (newStatus : TransferStatus)
    (expectedVersion : Z) (entries : list OutboxEntry) (d : DB) : result unit * DB :=
  if negb (db_up d) then (Err (WrapErr "begin tx" down), d)
  else
    let '(affected, ts) := TransitionTransferStatus transferID newStatus expectedVersion d in
    if negb affected then (Err (WrapErr "transfer" OptimisticLockErr), d)
    else match InsertOutboxEntries entries (db_outbox d) with
         | Err e => (Err (WrapErr "insert outbox entries for transfer" e), d)
         | Ok ob => commitTx "commit tx for transfer" tt d (db_set d (db_nextid d) ts (db_quotes d) ob)
         end.

(** The stored row: numeric columns keep 8 digits (12 for the rate), the
    version starts at 0, and neither the fee schedule snapshot nor the
    blockchain transactions have a column that is written. *)
Definition transferRow (t : Transfer) (id : UUID) (now : Z) : Transfer :=
  {| tr_ID := id; tr_TenantID := tr_TenantID t; tr_ExternalRef := tr_ExternalRef t;
     tr_IdempotencyKey := tr_IdempotencyKey t; tr_Status := tr_Status t; tr_Version := 0;
     tr_SourceCurrency := tr_SourceCurrency t; tr_SourceAmount := dRound 8 (tr_SourceAmount t);
     tr_DestCurrency := tr_DestCurrency t; tr_DestAmount := dRound 8 (tr_DestAmount t);
     tr_StableCoin := tr_StableCoin t; tr_StableAmount := dRound 8 (tr_StableAmount t);
     tr_Chain := tr_Chain t; tr_FXRate := dRound 12 (tr_FXRate t); tr_Fees := tr_Fees t;
     tr_FeeScheduleSnapshot := None; tr_OnRampProviderID := tr_OnRampProviderID t;
     tr_OffRampProviderID := tr_OffRampProviderID t; tr_Sender := tr_Sender t;
     tr_Recipient := tr_Recipient t; tr_QuoteID := tr_QuoteID t; tr_BlockchainTxs := [];
     tr_CreatedAt := now; tr_UpdatedAt := now; tr_FundedAt := None; tr_CompletedAt := None;
     tr_FailedAt := None; tr_FailureReason := ""; tr_FailureCode := "" |}.

(** The loop that refreshes the entries after the insert. *)
Definition refreshEntry (t : Transfer) (e : OutboxEntry) : OutboxEntry :=
  {| oe_ID := oe_ID e; oe_AggregateType := oe_AggregateType e;
     oe_AggregateID := if decide (oe_AggregateID e = uuid_Nil) then tr_ID t else oe_AggregateID e;
     oe_TenantID := oe_TenantID e; oe_CorrelationID := oe_CorrelationID e;
     oe_EventType := oe_EventType e;
     oe_Payload := if String.eqb (oe_AggregateType e) "transfer" && negb (oe_IsIntent e)
                   then PTransfer t else oe_Payload e;
     oe_IsIntent := oe_IsIntent e; oe_Published := oe_Published e;
     oe_PublishedAt := oe_PublishedAt e; oe_RetryCount := oe_RetryCount e;
     oe_MaxRetries := oe_MaxRetries e; oe_CreatedAt := oe_CreatedAt e |}.

Definition CreateTransferWithOutbox (t : Transfer) (entries : list OutboxEntry) (d : DB)
  : result Transfer * DB :=
  if negb (db_up d) then (Err (WrapErr "begin tx" down), d)
  else
    match db_ids d (db_nextid d) with
    | None => (Err (WrapErr "creating transfer" nullID), d)
    | Some id =>
        match db_transfers d !! id with
        | Some _ => (Err (WrapErr "creating transfer" (MsgErr "duplicate key value")), d)
        | None =>
            let row := transferRow t id (db_clock d) in
            let t := assignRow t id (tr_Version row) (db_clock d) in
            match InsertOutboxEntries (map (refreshEntry t) entries) (db_outbox d) with
            | Err e => (Err (WrapErr "insert outbox entries for new transfer" e), d)
            | Ok ob =>
                commitTx "commit tx for new transfer" t d
                  (db_set d (Datatypes.S (db_nextid d)) (<[id := row]> (db_transfers d)) (db_quotes d) ob)
            end
        end
    end.

(** Reads. *)
Definition GetTransfer (tenantID transferID : UUID) (d : DB) : result Transfer :=
  if negb (db_up d) then Err (WrapErr "getting transfer" down)
  else match db_transfers d !! transferID with
       | Some t =>
           if decide (tenantID = uuid_Nil) then Ok t
           else if decide (tr_TenantID t = tenantID) then Ok t
           else Err (WrapErr "getting transfer" noRows)
       | None => Err (WrapErr "getting transfer" noRows)
       end.

Definition hours (n : Z) : Z := n * 3600 * 1000000000.

(** [SELECT ... LIMIT 1] over the rows that satisfy a test. *)
Definition selectOne (P : Transfer -> bool) (d : DB) : result Transfer :=
  match filter (fun t => P t = true) (snd <$> map_to_list (db_transfers d)) with
  | t :: _ => Ok t
  | [] => Err noRows
  end.

Definition GetTransferByIdempotencyKey (tenantID : UUID) (key : string) (d : DB)
  : result Transfer :=
  if negb (db_up d) then Err (WrapErr "getting transfer by idempotency key" down)
  else wrap "getting transfer by idempotency key"
    (selectOne (fun t => bool_decide (tr_TenantID t = tenantID)
                         && negb (String.eqb key "") && String.eqb (tr_IdempotencyKey t) key
                         && (db_clock d - hours 72 <=? tr_CreatedAt t)) d).

Definition GetTransferByExternalRef (tenantID : UUID) (ref : string) (d : DB)
  : result Transfer :=
  if negb (db_up d) then Err (WrapErr "getting transfer by external ref" down)
  else wrap "getting transfer by external ref"
    (selectOne (fun t => bool_decide (tr_TenantID t = tenantID)
                         && negb (String.eqb ref "") && String.eqb (tr_ExternalRef t) ref
                         && (db_clock d - hours (90 * 24) <=? tr_CreatedAt t)) d).

Definition startOfDay (t : Z) : Z := t - t mod hours 24.

(** [SumDailyVolumeByTenant] over [startOfDay, startOfDay + 24h). *)
Definition GetDailyVolume (tenantID : UUID) (date : Z) (d : DB) : result Decimal :=
  if negb (db_up d) then Err (WrapErr "getting daily volume" down)
  else
    let lo := startOfDay date in
    let counted t := bool_decide (tr_TenantID t = tenantID)
      && (lo <=? tr_CreatedAt t) && (tr_CreatedAt t <? lo + hours 24)
      && negb (bool_decide (tr_Status t ∈ [Failed; Refunded])) in
    Ok (dRound 8 (map_fold (fun _ t acc => if counted t then dAdd acc (tr_StableAmount t) else acc)
                    dZero (db_transfers d))).

Definition CountPendingTransfers (tenantID : UUID) (d : DB) : result Z :=
  if negb (db_up d) then Err (WrapErr "counting pending transfers" down)
  else Ok (Z.of_nat (length (filter (fun t => tr_TenantID t = tenantID
             /\ tr_Status t ∉ [Completed; Failed; Refunded])
             (snd <$> map_to_list (db_transfers d))))).

Definition assignQuote (q : Quote) (id : UUID) (now : Z) : Quote :=
  {| q_ID := id; q_TenantID := q_TenantID q; q_SourceCurrency := q_SourceCurrency q;
     q_SourceAmount := q_SourceAmount q; q_DestCurrency := q_DestCurrency q;
     q_DestAmount := q_DestAmount q; q_StableAmount := q_StableAmount q;
     q_FXRate := q_FXRate q; q_Fees := q_Fees q; q_Route := q_Route q;
     q_ExpiresAt := q_ExpiresAt q; q_CreatedAt := now |}.

Definition quoteRow (q : Quote) : Quote :=
  {| q_ID := q_ID q; q_TenantID := q_TenantID q; q_SourceCurrency := q_SourceCurrency q;
     q_SourceAmount := dRound 8 (q_SourceAmount q); q_DestCurrency := q_DestCurrency q;
     q_DestAmount := dRound 8 (q_DestAmount q); q_StableAmount := dRound 8 (q_StableAmount q);
     q_FXRate := dRound 12 (q_FXRate q); q_Fees := q_Fees q; q_Route := q_Route q;
     q_ExpiresAt := q_ExpiresAt q; q_CreatedAt := q_CreatedAt q |}.

Definition CreateQuote (q : Quote) (d : DB) : result Quote * DB :=
  if negb (db_up d) then (Err (WrapErr "creating quote" down), d)
  else
    match db_ids d (db_nextid d) with
    | None => (Err (WrapErr "creating quote" nullID), d)
    | Some id =>
        match db_quotes d !! id with
        | Some _ => (Err (WrapErr "creating quote" (MsgErr "duplicate key value")), d)
        | None =>
            let q := assignQuote q id (db_clock d) in
            commitTx "creating quote" q d
              (db_set d (Datatypes.S (db_nextid d)) (db_transfers d) (<[id := quoteRow q]> (db_quotes d)) (db_outbox d))
        end
    end.

Definition GetQuote (tenantID quoteID : UUID) (d : DB) : result Quote :=
  if negb (db_up d) then Err (WrapErr "getting quote" down)
  else match db_quotes d !! quoteID with
       | Some q => if decide (q_TenantID q = tenantID) then Ok q
                   else Err (WrapErr "getting quote" noRows)
       | None => Err (WrapErr "getting quote" noRows)
       end.

#[export] Instance TransferStoreAdapter : TransferStore DB := {|
  ts_GetTransfer := GetTransfer;
  ts_GetTransferByIdempotencyKey := GetTransferByIdempotencyKey;
  ts_GetTransferByExternalRef := GetTransferByExternalRef;
  ts_GetDailyVolume := GetDailyVolume;
  ts_CountPendingTransfers := CountPendingTransfers;
  ts_CreateQuote := CreateQuote;
  ts_GetQuote := GetQuote;
  ts_TransitionWithOutbox := TransitionWithOutbox;
  ts_CreateTransferWithOutbox := CreateTransferWithOutbox;
|}.

(** Rows are filed under their own id. *)
Definition db_inv (d : DB) : Prop := map_Forall (fun id t => tr_ID t = id) (db_transfers d).

(** *** The adapter keeps the contract *)

Lemma outbox_key_params e : outbox_key (outboxEntryToParams e) = outbox_key e.
Proof. done. Qed.

Lemma InsertOutboxEntries_ok es ob ob' :
  InsertOutboxEntries es ob = Ok ob' -> ob' = (ob ++ map outboxEntryToParams es)%list.
Proof. unfold InsertOutboxEntries. case_bool_decide; by intros [= <-]. Qed.

Lemma InsertOutboxEntries_fresh es ob :
  NoDup (map outbox_key (ob ++ es)%list) ->
  InsertOutboxEntries es ob = Ok (ob ++ map outboxEntryToParams es)%list.
Proof.
  intros H. unfold InsertOutboxEntries. rewrite bool_decide_true; [done|].
  rewrite map_app, map_map in *. by setoid_rewrite outbox_key_params.
Qed.

Lemma selectOne_ok P d t :
  selectOne P d = Ok t -> P t = true /\ exists id, db_transfers d !! id = Some t.
Proof.
  unfold selectOne. destruct (filter _ _) as [|t' l] eqn:E; [done|]. intros [= ->].
  assert (t ∈ filter (fun t => P t = true) (snd <$> map_to_list (db_transfers d))) as H
    by (rewrite E; set_solver).
  apply list_elem_of_filter in H as [HP H]. split; [done|].
  apply list_elem_of_fmap in H as ([id t'] & -> & H). exists id. by apply elem_of_map_to_list.
Qed.

Lemma TransitionWithOutbox_cases id s v es d r d' :
  TransitionWithOutbox id s v es d = (r, d') ->
  (d' = d /\ is_ok r = false)
  \/ exists t, db_transfers d !! id = Some t /\ tr_Version t = v
    /\ is_ok r = negb (db_lost d (db_commits d))
    /\ d' = db_set d (db_nextid d) (<[id := transitioned (db_clock d) t s]> (db_transfers d))
              (db_quotes d) (db_outbox d ++ map outboxEntryToParams es)%list.
Proof.
  unfold TransitionWithOutbox, TransitionTransferStatus.
  destruct (db_up d); simpl; [|intros [= <- <-]; by left].
  destruct (db_transfers d !! id) as [t|] eqn:Ht; [|intros [= <- <-]; by left].
  destruct (Z.eqb_spec (tr_Version t) v); [|intros [= <- <-]; by left]. simpl.
  destruct (InsertOutboxEntries es (db_outbox d)) as [ob|] eqn:Hob; [|intros [= <- <-]; by left].
  apply InsertOutboxEntries_ok in Hob as ->. unfold commitTx. intros [= <- <-]. right. exists t.
  by destruct (db_lost d (db_commits d)).
Qed.

Lemma CreateTransferWithOutbox_cases t es d r d' :
  CreateTransferWithOutbox t es d = (r, d') ->
  (d' = d /\ is_ok r = false)
  \/ exists id, let t' := assignRow t id 0 (db_clock d) in
       db_ids d (db_nextid d) = Some id /\ db_transfers d !! id = None
       /\ is_ok r = negb (db_lost d (db_commits d)) /\ (forall t1, r = Ok t1 -> t1 = t')
       /\ d' = db_set d (Datatypes.S (db_nextid d))
            (<[id := transferRow t id (db_clock d)]> (db_transfers d)) (db_quotes d)
            (db_outbox d ++ map outboxEntryToParams (map (refreshEntry t') es))%list.
Proof.
  unfold CreateTransferWithOutbox. destruct (db_up d); simpl; [|intros [= <- <-]; by left].
  destruct (db_ids d (db_nextid d)) as [id|]; [|intros [= <- <-]; by left].
  destruct (db_transfers d !! id) eqn:Hid; [intros [= <- <-]; by left|].
  destruct (InsertOutboxEntries _ _) as [ob|] eqn:Hob; [|intros [= <- <-]; by left].
  apply InsertOutboxEntries_ok in Hob as ->. unfold commitTx. intros [= <- <-]. right. exists id.
  destruct (db_lost d (db_commits d)); split_and!; try done; by intros t1 [= <-].
Qed.

(** With the id column as the migration declares it, without a default, no
    transfer can be created: the insert names no id. *)
Lemma create_needs_id_default t es d : db_ids d (db_nextid d) = None ->
  is_ok (CreateTransferWithOutbox t es d).1 = false /\ (CreateTransferWithOutbox t es d).2 = d.
Proof. intros H. unfold CreateTransferWithOutbox. rewrite H. by destruct (negb (db_up d)). Qed.

#[export, program] Instance AdapterLaws : TransferStoreLaws DB := {|
  transfers := db_transfers;
  outbox := db_outbox;
  store_inv := db_inv;
  available_store d := db_up d = true /\ forall n, db_lost d n = false;
  acknowledged d := forall n, db_lost d n = false;
|}.
Next Obligation.
  simpl. unfold GetTransfer. intros tn id d t Hinv H. destruct (db_up d); [|done]. simpl in H.
  destruct (db_transfers d !! id) as [t0|] eqn:E; [|done].
  repeat case_decide; simplify_eq; split_and!; eauto; by apply (Hinv _ _ E).
Qed.
Next Obligation.
  simpl. unfold GetTransfer. intros tn id d t [Hup _] Ht <-. rewrite Hup, Ht. simpl.
  rewrite (decide_True (P := tr_TenantID t = tr_TenantID t)) by done. by case_decide.
Qed.
Next Obligation.
  simpl. intros id s v es d r d' [H|(t & Ht & Hv & _ & ->)]%TransitionWithOutbox_cases; [by left|right].
  exists t, (db_clock d). split_and!; try done.
  intros Hinv. apply map_Forall_insert_2; [|done]. by apply (Hinv _ _ Ht).
Qed.
Next Obligation.
  simpl. intros id s v es d e d' Hack [[H _]|(t & _ & _ & H & _)]%TransitionWithOutbox_cases; [done|].
  by rewrite Hack in H.
Qed.
Next Obligation.
  simpl. intros id s v es d t [Hup Hack] Ht <- Hnd.
  unfold TransitionWithOutbox, TransitionTransferStatus. rewrite Hup, Ht. simpl.
  rewrite Z.eqb_refl. simpl. rewrite InsertOutboxEntries_fresh by done. unfold commitTx. rewrite Hack. eauto.
Qed.
Next Obligation.
  simpl. intros t es d r d' [H|(id & Hid & Hn & _ & Hr & ->)]%CreateTransferWithOutbox_cases; [by left|right].
  exists (assignRow t id 0 (db_clock d)). do 2 eexists. split_and!; try done.
  - intros Hinv. by apply map_Forall_insert_2.
  - rewrite !map_map. by apply map_ext.
Qed.
Next Obligation.
  simpl. intros t es d e d' Hack [[H _]|(id & _ & _ & H & _)]%CreateTransferWithOutbox_cases; [done|].
  by rewrite Hack in H.
Qed.
Next Obligation.
  simpl. unfold CreateQuote, commitTx. intros q d r d' H. repeat case_match; by simplify_eq.
Qed.
Next Obligation.
  simpl. unfold GetTransferByIdempotencyKey, wrap. intros tn k d t Hinv H.
  destruct (negb (db_up d)); [done|]. destruct (selectOne _ d) as [t'|] eqn:E; [|done].
  simplify_eq. apply selectOne_ok in E as [HP (id & Hid)].
  rewrite !andb_true_iff, bool_decide_eq_true, String.eqb_eq in HP.
  rewrite (Hinv _ _ Hid). naive_solver.
Qed.
End Tables.
End Adapter.
