(* ===== verification/DepositStore.v ===== *)
(** * core/deposit: the deposit store port and its Postgres adapter

    [DepositStore] is the interface of src/core/deposit/store.go and
    [DepositStoreLaws] what the engine relies on: reads change nothing and
    return stored rows, a transition applies only to the expected version and
    writes the row and its outbox entries together, a recorded transaction
    adds its amount to the session.  A call that reports success has been
    committed; one that reports an error may have been committed too.
    [DepositAdapter] models src/store/transferdb/deposit_store_adapter.go with
    the statements of crypto_deposits.sql.go and crypto_addresses.sql.go over
    the tables of db/migrations/transfer/000006_create_crypto_deposits.sql.

    The row-level-security pool only changes which connection runs a
    statement and is left out. *)

From Stdlib Require Import QArith.
From S2P Require Import Prelude ThirdParty Sql Money Deposits Transfer Outbox TransferStore.
Local Open Scope string_scope.
Local Open Scope Z_scope.

(** ** The port *)

Class DepositStore {L : ThirdParty} (St : Type) : Type := {
  ds_CreateSessionWithOutbox : DepositSession -> list OutboxEntry -> St ->
    result DepositSession * St;
  ds_GetSession : UUID -> UUID -> St -> result DepositSession * St;
  ds_GetSessionByIdempotencyKey : UUID -> string -> St -> result DepositSession * St;
  ds_GetSessionByTxHash : UUID -> string -> string -> St -> result DepositSession * St;
  ds_GetSessionByIDOnly : UUID -> St -> result DepositSession * St;
  ds_ListSessions : UUID -> Z -> Z -> St -> result (list DepositSession) * St;
  ds_ListSessionsCursor : UUID -> Z -> Z -> St -> result (list DepositSession) * St;
  ds_TransitionWithOutbox : DepositSession -> list OutboxEntry -> St -> result unit * St;
  ds_CountPendingSessions : UUID -> St -> result Z * St;
  ds_DispenseAddress : UUID -> string -> UUID -> St -> result (option CryptoAddressPool) * St;
  ds_GetDepositTxByHash : string -> string -> St -> result DepositTransaction * St;
  ds_RecordDepositTx : DepositTransaction -> UUID -> UUID -> Decimal -> St ->
    result DepositTransaction * St;
}.

Section Rows.
Context {L : ThirdParty}.

(** The row [TransitionDepositSession] leaves, from the row before and the
    caller's session. *)
Definition transitionRow (now : Z) (old s : DepositSession) : DepositSession :=
  let at_status x := bool_decide (ds_Status s = x) in
  set_ds_settlement
    (set_ds_failure
      (set_ds_times
        (set_ds_amounts (set_ds_status old (ds_Status s) (ds_Version s) now)
           (dRound 8 (ds_ReceivedAmount s)) (dRound 8 (ds_FeeAmount s))
           (dRound 8 (ds_NetAmount s)))
        (stampIf (at_status DSDetected) now (ds_DetectedAt old))
        (stampIf (at_status DSConfirmed) now (ds_ConfirmedAt old))
        (stampIf (at_status DSCredited) now (ds_CreditedAt old))
        (stampIf (at_status DSSettled) now (ds_SettledAt old))
        (stampIf (at_status DSExpired) now (ds_ExpiredAt old))
        (stampIf (at_status DSFailed) now (ds_FailedAt old)))
      (coalesceText (ds_FailureReason s) (ds_FailureReason old))
      (coalesceText (ds_FailureCode s) (ds_FailureCode old)))
    (ds_SettlementTransferID s).

(** The row [AccumulateReceivedAmount] leaves. *)
Definition accumulatedRow (now : Z) (old : DepositSession) (amount : Decimal) : DepositSession :=
  set_ds_amounts (set_ds_status old (ds_Status old) (ds_Version old) now)
    (dRound 8 (dAdd (ds_ReceivedAmount old) amount)) (ds_FeeAmount old) (ds_NetAmount old).

(** The row [CreateDepositTransaction] inserts. *)
Definition txRow (id : UUID) (now : Z) (tx : DepositTransaction) : DepositTransaction :=
  {| dt_ID := id; dt_SessionID := dt_SessionID tx; dt_TenantID := dt_TenantID tx;
     dt_Chain := dt_Chain tx; dt_TxHash := dt_TxHash tx; dt_FromAddress := dt_FromAddress tx;
     dt_ToAddress := dt_ToAddress tx; dt_TokenContract := dt_TokenContract tx;
     dt_Amount := dRound 8 (dt_Amount tx); dt_BlockNumber := dt_BlockNumber tx;
     dt_BlockHash := dt_BlockHash tx; dt_Confirmations := dt_Confirmations tx;
     dt_RequiredConfirm := dt_RequiredConfirm tx; dt_Confirmed := false; dt_DetectedAt := now;
     dt_ConfirmedAt := None; dt_CreatedAt := now |}.

Definition isTx (chain txHash : string) (t : DepositTransaction) : bool :=
  String.eqb (dt_Chain t) chain && String.eqb (dt_TxHash t) txHash.

(** What the laws talk about: the committed rows. *)
Record DepositView := {
  dv_sessions : gmap UUID DepositSession;
  dv_txs : list DepositTransaction;
  dv_outbox : list OutboxEntry;
}.

Definition transitionedView (now : Z) (old s : DepositSession) (es : list OutboxEntry)
    (v : DepositView) : DepositView :=
  {| dv_sessions := <[ds_ID s := transitionRow now old s]> (dv_sessions v);
     dv_txs := dv_txs v; dv_outbox := (dv_outbox v ++ map outboxEntryToParams es)%list |}.

(** [UPDATE ... WHERE id = sid AND tenant_id = tn]. *)
Definition accumulate (now : Z) (tn sid : UUID) (amount : Decimal)
    (m : gmap UUID DepositSession) : gmap UUID DepositSession :=
  match m !! sid with
  | Some s => if decide (ds_TenantID s = tn)
              then <[sid := accumulatedRow now s amount]> m else m
  | None => m
  end.

Definition recordedView (id : UUID) (now : Z) (tx : DepositTransaction) (tn sid : UUID)
    (amount : Decimal) (v : DepositView) : DepositView :=
  {| dv_sessions := accumulate now tn sid amount (dv_sessions v);
     dv_txs := (dv_txs v ++ [txRow id now tx])%list; dv_outbox := dv_outbox v |}.
End Rows.

(** A call either kept the rows and failed, or committed [P]. *)
Definition committed {A B : Type} (v v' : B) (r : result A) (P : Prop) : Prop :=
  (v' = v /\ is_ok r = false) \/ P.

Class DepositStoreLaws {L : ThirdParty} (St : Type) `{DS : !DepositStore St} : Type := {
  dview : St -> DepositView;
  dinv : St -> Prop;
  dup : St -> Prop;  (* the database answers every call *)
  ds_inv_id st id s : dinv st -> dv_sessions (dview st) !! id = Some s -> ds_ID s = id;
  ds_get tn id st r st' : ds_GetSession tn id st = (r, st') ->
    dview st' = dview st /\ (dinv st -> dinv st') /\ (dup st -> dup st')
    /\ (forall s, dinv st -> r = Ok s ->
          dv_sessions (dview st) !! id = Some s /\ ds_ID s = id /\ ds_TenantID s = tn)
    /\ (forall s, dup st -> dv_sessions (dview st) !! id = Some s -> ds_TenantID s = tn ->
          r = Ok s);
  ds_idem tn k st r st' : ds_GetSessionByIdempotencyKey tn k st = (r, st') ->
    dview st' = dview st /\ (dinv st -> dinv st') /\ (dup st -> dup st')
    /\ (forall s, dinv st -> r = Ok s -> dv_sessions (dview st) !! ds_ID s = Some s
          /\ ds_TenantID s = tn /\ ds_IdempotencyKey s = k)
    /\ (forall id s, dup st -> dv_sessions (dview st) !! id = Some s -> ds_TenantID s = tn ->
          ds_IdempotencyKey s = k -> k <> "" -> is_ok r = true);
  ds_count tn st r st' : ds_CountPendingSessions tn st = (r, st') ->
    dview st' = dview st /\ (dinv st -> dinv st') /\ (dup st -> dup st');
  ds_byhash c h st r st' : ds_GetDepositTxByHash c h st = (r, st') ->
    dview st' = dview st /\ (dinv st -> dinv st') /\ (dup st -> dup st')
    /\ (forall t, r = Ok t -> t ∈ dv_txs (dview st) /\ isTx c h t = true)
    /\ (forall t, dup st -> t ∈ dv_txs (dview st) -> isTx c h t = true -> is_ok r = true);
  ds_dispense tn c sid st r st' : ds_DispenseAddress tn c sid st = (r, st') ->
    dview st' = dview st /\ (dinv st -> dinv st') /\ (dup st -> dup st');
  ds_transition s es st r st' : ds_TransitionWithOutbox s es st = (r, st') ->
    (dinv st -> dinv st') /\ (dup st -> dup st') /\
    committed (dview st) (dview st') r (exists now old,
      dv_sessions (dview st) !! ds_ID s = Some old
      /\ ds_Version old = sub64 (ds_Version s) 1
      /\ dview st' = transitionedView now old s es (dview st));
  ds_transition_stale s es st old r st' : ds_TransitionWithOutbox s es st = (r, st') ->
    dup st -> dv_sessions (dview st) !! ds_ID s = Some old ->
    ds_Version old <> sub64 (ds_Version s) 1 ->
    exists e, r = Err e /\ is_optimistic_lock e = true;
  ds_record tx tn sid amount st r st' : ds_RecordDepositTx tx tn sid amount st = (r, st') ->
    (dinv st -> dinv st') /\ (dup st -> dup st') /\
    committed (dview st) (dview st') r
      (exists id now, dview st' = recordedView id now tx tn sid amount (dview st));
  ds_create s es st r st' : ds_CreateSessionWithOutbox s es st = (r, st') ->
    (dinv st -> dinv st') /\ (dup st -> dup st') /\
    committed (dview st) (dview st') r (exists row s' es',
      dv_sessions (dview st) !! ds_ID row = None
      /\ ds_Status row = ds_Status s /\ ds_Version row = 0 /\ ds_TenantID row = ds_TenantID s
      /\ ds_IdempotencyKey row = ds_IdempotencyKey s
      /\ ds_ReceivedAmount row = NewFromInt 0
      /\ map oe_Payload es' = map oe_Payload es /\ ds_ID s' = ds_ID row
      /\ (r = Ok s' \/ is_ok r = false)
      /\ dv_sessions (dview st') = <[ds_ID row := row]> (dv_sessions (dview st))
      /\ dv_txs (dview st') = dv_txs (dview st)
      /\ dv_outbox (dview st') = (dv_outbox (dview st) ++ es')%list);
}.

(** ** The adapter *)

Module DepositAdapter.
Section Tables.
Context {L : ThirdParty}.

(** crypto_deposit_address_index. *)
Record AddressIndex := {
  ai_ID : UUID; ai_Chain : string; ai_Address : string; ai_TenantID : UUID;
  ai_SessionID : UUID; ai_CreatedAt : Z }.

Record Tables := {
  tb_sessions : gmap UUID DepositSession;
  tb_txs : list DepositTransaction;
  tb_pool : list CryptoAddressPool;
  tb_index : list AddressIndex;
  tb_outbox : list OutboxEntry;
}.

Abbreviation DB := (Sql Tables).

(** *** Statements that write *)

(** The values of settlement_preference_enum. *)
Definition isSettlementPref (p : string) : bool :=
  existsb (String.eqb p)
    [SettlementPreferenceAutoConvert; SettlementPreferenceHold; SettlementPreferenceThreshold].

(** The inserted row: version, amounts and times have column defaults, and
    settlement and failure columns stay NULL. *)
Definition sessionRow (id : UUID) (now : Z) (expected : Decimal) (s : DepositSession)
  : DepositSession :=
  {| ds_ID := id; ds_TenantID := ds_TenantID s; ds_IdempotencyKey := ds_IdempotencyKey s;
     ds_Status := ds_Status s; ds_Version := 0; ds_Chain := ds_Chain s; ds_Token := ds_Token s;
     ds_DepositAddress := ds_DepositAddress s; ds_ExpectedAmount := expected;
     ds_ReceivedAmount := NewFromInt 0; ds_Currency := ds_Currency s;
     ds_CollectionFeeBPS := int32 (ds_CollectionFeeBPS s); ds_FeeAmount := NewFromInt 0;
     ds_NetAmount := NewFromInt 0; ds_SettlementPref := ds_SettlementPref s;
     ds_SettlementTransferID := None; ds_DerivationIndex := ds_DerivationIndex s;
     ds_ExpiresAt := ds_ExpiresAt s; ds_CreatedAt := now; ds_UpdatedAt := now;
     ds_DetectedAt := None; ds_ConfirmedAt := None; ds_CreditedAt := None; ds_SettledAt := None;
     ds_ExpiredAt := None; ds_FailedAt := None; ds_FailureReason := ""; ds_FailureCode := "";
     ds_Metadata := ds_Metadata s |}.

(** The unique index on (tenant_id, idempotency_key, created_at). *)
Definition idempotencyClash (row : DepositSession) (m : gmap UUID DepositSession) : bool :=
  negb (String.eqb (ds_IdempotencyKey row) "")
  && existsb (fun '(_, s) => bool_decide (ds_TenantID s = ds_TenantID row)
                             && String.eqb (ds_IdempotencyKey s) (ds_IdempotencyKey row)
                             && (ds_CreatedAt s =? ds_CreatedAt row)) (map_to_list m).

Definition CreateDepositSession (c : Call) (s : DepositSession) (m : gmap UUID DepositSession)
  : result (DepositSession * gmap UUID DepositSession) :=
  match c_ids c 0 with
  | None => Err notNull
  | Some id =>
      if negb (isSettlementPref (ds_SettlementPref s))
      then Err (MsgErr "invalid input value for enum settlement_preference_enum")
      else
        let? expected := numeric28_8 (ds_ExpectedAmount s) in
        let row := sessionRow id (c_now c) expected s in
        if bool_decide (is_Some (m !! id)) || idempotencyClash row m then Err duplicateKey
        else Ok (row, <[id := row]> m)
  end.

Definition InsertAddressIndex (c : Call) (s : DepositSession) (ix : list AddressIndex)
  : result (list AddressIndex) :=
  match c_ids c 1 with
  | None => Err notNull
  | Some id =>
      if existsb (fun a => bool_decide (ai_ID a = id)
                  || String.eqb (ai_Chain a) (ds_Chain s)
                     && String.eqb (ai_Address a) (ds_DepositAddress s)) ix
      then Err duplicateKey
      else Ok (ix ++ [{| ai_ID := id; ai_Chain := ds_Chain s; ai_Address := ds_DepositAddress s;
                         ai_TenantID := ds_TenantID s; ai_SessionID := ds_ID s;
                         ai_CreatedAt := c_now c |}])%list
  end.

Definition setAggregateID (id : UUID) (e : OutboxEntry) : OutboxEntry :=
  if decide (oe_AggregateID e = uuid_Nil) then
    {| oe_ID := oe_ID e; oe_AggregateType := oe_AggregateType e; oe_AggregateID := id;
       oe_TenantID := oe_TenantID e; oe_CorrelationID := oe_CorrelationID e;
       oe_EventType := oe_EventType e; oe_Payload := oe_Payload e;
       oe_IsIntent := oe_IsIntent e; oe_Published := oe_Published e;
       oe_PublishedAt := oe_PublishedAt e; oe_RetryCount := oe_RetryCount e;
       oe_MaxRetries := oe_MaxRetries e; oe_CreatedAt := oe_CreatedAt e |}
  else e.

Definition CreateSessionWithOutbox (session : DepositSession) (entries : list OutboxEntry)
  : DB -> result DepositSession * DB :=
  transact (fun c t =>
    let? (row, m) := wrap "creating session" (CreateDepositSession c session (tb_sessions t)) in
    let session := set_ds_identity session (ds_ID row) (ds_CreatedAt row) (ds_UpdatedAt row) in
    let? ix := wrap "inserting address index" (InsertAddressIndex c session (tb_index t)) in
    let entries := map (setAggregateID (ds_ID session)) entries in
    let? ob := wrap "insert outbox entries" (Adapter.InsertOutboxEntries entries (tb_outbox t)) in
    Ok (session, {| tb_sessions := m; tb_txs := tb_txs t; tb_pool := tb_pool t;
                    tb_index := ix; tb_outbox := ob |})).

(** [TransitionDepositSession]; the number of rows affected is 0 or 1. *)
Definition TransitionDepositSession (c : Call) (s : DepositSession)
    (m : gmap UUID DepositSession) : result (Z * gmap UUID DepositSession) :=
  match m !! ds_ID s with
  | Some old =>
      if ds_Version old =? sub64 (ds_Version s) 1 then
        let? _ := numeric28_8 (ds_ReceivedAmount s) in
        let? _ := numeric28_8 (ds_FeeAmount s) in
        let? _ := numeric28_8 (ds_NetAmount s) in
        Ok (1, <[ds_ID s := transitionRow (c_now c) old s]> m)
      else Ok (0, m)
  | None => Ok (0, m)
  end.

Definition TransitionWithOutbox (session : DepositSession) (entries : list OutboxEntry)
  : DB -> result unit * DB :=
  transact (fun c t =>
    let? (affected, m) := wrap "update session"
                            (TransitionDepositSession c session (tb_sessions t)) in
    if affected =? 0 then Err (WrapErr "session" OptimisticLockErr)
    else
      let? ob := wrap "insert outbox entries for session"
                   (Adapter.InsertOutboxEntries entries (tb_outbox t)) in
      Ok (tt, {| tb_sessions := m; tb_txs := tb_txs t; tb_pool := tb_pool t;
                 tb_index := tb_index t; tb_outbox := ob |})).

(** [DispensePoolAddress]: the free address with the least derivation index
    is marked; SKIP LOCKED passes over rows other transactions hold, which
    one transaction at a time never sees. *)
Definition isFree (tn : UUID) (chain : string) (a : CryptoAddressPool) : bool :=
  bool_decide (ca_TenantID a = tn) && String.eqb (ca_Chain a) chain && negb (ca_Dispensed a).

Definition dispensed (now : Z) (sid : option UUID) (a : CryptoAddressPool) : CryptoAddressPool :=
  {| ca_ID := ca_ID a; ca_TenantID := ca_TenantID a; ca_Chain := ca_Chain a;
     ca_Address := ca_Address a; ca_DerivationIndex := ca_DerivationIndex a;
     ca_Dispensed := true; ca_DispensedAt := Some now; ca_SessionID := sid;
     ca_CreatedAt := ca_CreatedAt a |}.

Definition DispensePoolAddress (c : Call) (tn : UUID) (chain : string) (sid : option UUID)
    (pool : list CryptoAddressPool) : result (CryptoAddressPool * list CryptoAddressPool) :=
  let? a := selectFirst (isFree tn chain) (orderAsc ca_DerivationIndex pool) in
  Ok (dispensed (c_now c) sid a,
      map (fun b => if decide (ca_ID b = ca_ID a) then dispensed (c_now c) sid b else b) pool).

(** No free address is no error: the caller gets a nil pointer. *)
Definition DispenseAddress (tn : UUID) (chain : string) (sessionID : UUID)
  : DB -> result (option CryptoAddressPool) * DB :=
  transact (fun c t =>
    let sid := if decide (sessionID = uuid_Nil) then None else Some sessionID in
    match DispensePoolAddress c tn chain sid (tb_pool t) with
    | Ok (a, pool) =>
        Ok (Some a, {| tb_sessions := tb_sessions t; tb_txs := tb_txs t; tb_pool := pool;
                       tb_index := tb_index t; tb_outbox := tb_outbox t |})
    | Err e => if decide (e = noRows) then Ok (None, t)
               else Err (WrapErr "dispensing address" e)
    end).

(** The unique index on (chain, tx_hash, created_at). *)
Definition CreateDepositTransaction (c : Call) (tx : DepositTransaction)
    (txs : list DepositTransaction) : result (DepositTransaction * list DepositTransaction) :=
  match c_ids c 0 with
  | None => Err notNull
  | Some id =>
      let? _ := numeric28_8 (dt_Amount tx) in
      let row := txRow id (c_now c) tx in
      if existsb (fun t => (isTx (dt_Chain tx) (dt_TxHash tx) t || bool_decide (dt_ID t = id))
                           && (dt_CreatedAt t =? c_now c)) txs
      then Err duplicateKey
      else Ok (row, (txs ++ [row])%list)
  end.

Definition AccumulateReceivedAmount (c : Call) (tn sid : UUID) (amount : Decimal)
    (m : gmap UUID DepositSession) : result (gmap UUID DepositSession) :=
  match m !! sid with
  | Some s =>
      if decide (ds_TenantID s = tn) then
        let? _ := numeric28_8 (dAdd (ds_ReceivedAmount s) amount) in
        Ok (accumulate (c_now c) tn sid amount m)
      else Ok m
  | None => Ok m
  end.

(** The caller's struct with the id and creation time of its row. *)
Definition assignTx (tx row : DepositTransaction) : DepositTransaction :=
  {| dt_ID := dt_ID row; dt_SessionID := dt_SessionID tx; dt_TenantID := dt_TenantID tx;
     dt_Chain := dt_Chain tx; dt_TxHash := dt_TxHash tx; dt_FromAddress := dt_FromAddress tx;
     dt_ToAddress := dt_ToAddress tx; dt_TokenContract := dt_TokenContract tx;
     dt_Amount := dt_Amount tx; dt_BlockNumber := dt_BlockNumber tx;
     dt_BlockHash := dt_BlockHash tx; dt_Confirmations := dt_Confirmations tx;
     dt_RequiredConfirm := dt_RequiredConfirm tx; dt_Confirmed := dt_Confirmed tx;
     dt_DetectedAt := dt_DetectedAt tx; dt_ConfirmedAt := dt_ConfirmedAt tx;
     dt_CreatedAt := dt_CreatedAt row |}.

Definition CreateDepositTx (tx : DepositTransaction) : DB -> result DepositTransaction * DB :=
  transact (fun c t =>
    let? (row, txs) := wrap "creating deposit tx" (CreateDepositTransaction c tx (tb_txs t)) in
    Ok (assignTx tx row, {| tb_sessions := tb_sessions t; tb_txs := txs; tb_pool := tb_pool t;
                            tb_index := tb_index t; tb_outbox := tb_outbox t |})).

Definition AccumulateReceived (tn sid : UUID) (amount : Decimal) : DB -> result unit * DB :=
  transact (fun c t =>
    let? m := AccumulateReceivedAmount c tn sid amount (tb_sessions t) in
    Ok (tt, {| tb_sessions := m; tb_txs := tb_txs t; tb_pool := tb_pool t;
               tb_index := tb_index t; tb_outbox := tb_outbox t |})).

Definition RecordDepositTx (tx : DepositTransaction) (tn sid : UUID) (amount : Decimal)
  : DB -> result DepositTransaction * DB :=
  transact (fun c t =>
    let? (row, txs) := wrap "record deposit tx: create"
                         (CreateDepositTransaction c tx (tb_txs t)) in
    let? m := wrap "record deposit tx: accumulate"
                (AccumulateReceivedAmount c tn sid amount (tb_sessions t)) in
    Ok (assignTx tx row, {| tb_sessions := m; tb_txs := txs; tb_pool := tb_pool t;
                            tb_index := tb_index t; tb_outbox := tb_outbox t |})).

(** *** Reads *)

Definition rows (t : Tables) : list DepositSession := snd <$> map_to_list (tb_sessions t).

Definition GetSession (tn sid : UUID) : DB -> result DepositSession * DB :=
  query (fun c t => wrap "getting session"
    match tb_sessions t !! sid with
    | Some s => if decide (ds_TenantID s = tn) then Ok s else Err noRows
    | None => Err noRows
    end).

(** The latest session of an address, of any tenant. *)
Definition GetSessionByAddress (address : string) : DB -> result DepositSession * DB :=
  query (fun c t => wrap "getting session by address"
    (selectFirst (fun s => String.eqb (ds_DepositAddress s) address)
       (orderDesc ds_CreatedAt (rows t)))).

Definition GetSessionByIdempotencyKey (tn : UUID) (key : string)
  : DB -> result DepositSession * DB :=
  query (fun c t => wrap "getting session by idempotency key"
    (selectFirst (fun s => bool_decide (ds_TenantID s = tn)
                           && negb (String.eqb (ds_IdempotencyKey s) "")
                           && String.eqb (ds_IdempotencyKey s) key) (rows t))).

(** The offset is not used by the query. *)
Definition ListSessions (tn : UUID) (limit offset : Z) : DB -> result (list DepositSession) * DB :=
  query (fun c t => wrap "listing sessions"
    (limitOffset (int32 limit) 0
       (orderDesc ds_CreatedAt (filter (fun s => ds_TenantID s = tn) (rows t))))).

Definition ListSessionsCursor (tn : UUID) (pageSize cursor : Z)
  : DB -> result (list DepositSession) * DB :=
  query (fun c t => wrap "listing sessions (cursor)"
    (limitOffset (int32 pageSize) 0
       (orderDesc ds_CreatedAt
          (filter (fun s => ds_TenantID s = tn /\ ds_CreatedAt s < cursor) (rows t))))).

Definition GetDepositTxByHash (chain txHash : string) : DB -> result DepositTransaction * DB :=
  query (fun c t => wrap "getting tx" (selectFirst (isTx chain txHash) (tb_txs t))).

(** Two statements, the second on the session of the transaction. *)
Definition GetSessionByTxHash (tn : UUID) (chain txHash : string) (d : DB)
  : result DepositSession * DB :=
  let! tx / d := query (fun c t => wrap "getting tx by hash"
                          (selectFirst (isTx chain txHash) (tb_txs t))) d in
  GetSession tn (dt_SessionID tx) d.

Definition ListSessionTxs (sid : UUID) : DB -> result (list DepositTransaction) * DB :=
  query (fun c t => Ok (orderDesc dt_CreatedAt
                          (filter (fun x => dt_SessionID x = sid) (tb_txs t)))).

Definition GetExpiredPendingSessions (limit : Z) : DB -> result (list DepositSession) * DB :=
  query (fun c t => wrap "getting expired sessions"
    (limitOffset (int32 limit) 0
       (orderAsc ds_ExpiresAt
          (filter (fun s => ds_Status s = DSPendingPayment /\ ds_ExpiresAt s < c_now c)
                  (rows t))))).

(** The fields of the public query; the others keep their zero value. *)
Definition depositSessionPublicFromRow (s : DepositSession) : DepositSession :=
  {| ds_ID := ds_ID s; ds_TenantID := ds_TenantID s; ds_IdempotencyKey := "";
     ds_Status := ds_Status s; ds_Version := 0; ds_Chain := ds_Chain s; ds_Token := ds_Token s;
     ds_DepositAddress := ds_DepositAddress s; ds_ExpectedAmount := ds_ExpectedAmount s;
     ds_ReceivedAmount := ds_ReceivedAmount s; ds_Currency := ds_Currency s;
     ds_CollectionFeeBPS := 0; ds_FeeAmount := dZero; ds_NetAmount := dZero;
     ds_SettlementPref := ""; ds_SettlementTransferID := None; ds_DerivationIndex := 0;
     ds_ExpiresAt := ds_ExpiresAt s; ds_CreatedAt := ds_CreatedAt s;
     ds_UpdatedAt := ds_UpdatedAt s; ds_DetectedAt := None; ds_ConfirmedAt := None;
     ds_CreditedAt := None; ds_SettledAt := None; ds_ExpiredAt := None; ds_FailedAt := None;
     ds_FailureReason := ""; ds_FailureCode := ""; ds_Metadata := ∅ |}.

Definition GetSessionByIDOnly (sid : UUID) : DB -> result DepositSession * DB :=
  query (fun c t => wrap "getting session"
    match tb_sessions t !! sid with
    | Some s => Ok (depositSessionPublicFromRow s)
    | None => Err noRows
    end).

Definition CountPendingSessions (tn : UUID) : DB -> result Z * DB :=
  query (fun c t => Ok (Z.of_nat (length (filter (fun s => ds_TenantID s = tn
    /\ ds_Status s ∉ [DSSettled; DSExpired; DSFailed; DSCancelled]) (rows t))))).

#[export] Instance DepositStoreAdapter : DepositStore DB := {|
  ds_CreateSessionWithOutbox := CreateSessionWithOutbox;
  ds_GetSession := GetSession;
  ds_GetSessionByIdempotencyKey := GetSessionByIdempotencyKey;
  ds_GetSessionByTxHash := GetSessionByTxHash;
  ds_GetSessionByIDOnly := GetSessionByIDOnly;
  ds_ListSessions := ListSessions;
  ds_ListSessionsCursor := ListSessionsCursor;
  ds_TransitionWithOutbox := TransitionWithOutbox;
  ds_CountPendingSessions := CountPendingSessions;
  ds_DispenseAddress := DispenseAddress;
  ds_GetDepositTxByHash := GetDepositTxByHash;
  ds_RecordDepositTx := RecordDepositTx;
|}.

(** *** The adapter keeps the contract *)

Definition view (d : DB) : DepositView :=
  {| dv_sessions := tb_sessions (sq_tables d); dv_txs := tb_txs (sq_tables d);
     dv_outbox := tb_outbox (sq_tables d) |}.

Definition inv (d : DB) : Prop :=
  map_Forall (fun id s => ds_ID s = id) (tb_sessions (sq_tables d)).

Lemma CreateDepositSession_ok c s m row m' :
  CreateDepositSession c s m = Ok (row, m') ->
  exists id expected, row = sessionRow id (c_now c) expected s /\ m !! id = None
    /\ m' = <[id := row]> m.
Proof.
  unfold CreateDepositSession. destruct (c_ids c 0) as [id|]; [|done].
  destruct (isSettlementPref _); [|done]. simpl.
  destruct (numeric28_8 _) as [x|]; [|done].
  destruct (bool_decide_reflect (is_Some (m !! id))) as [|Hn]; [done|]. simpl.
  destruct (idempotencyClash _ m); [done|]. intros [= <- <-].
  exists id, x. split_and!; [done| |done]. by apply eq_None_not_Some.
Qed.

Lemma TransitionDepositSession_ok c s m n m' :
  TransitionDepositSession c s m = Ok (n, m') -> n <> 0 ->
  exists old, m !! ds_ID s = Some old /\ ds_Version old = sub64 (ds_Version s) 1
    /\ m' = <[ds_ID s := transitionRow (c_now c) old s]> m.
Proof.
  unfold TransitionDepositSession. destruct (m !! ds_ID s) as [old|]; [|by intros [= <- _]].
  destruct (Z.eqb_spec (ds_Version old) (sub64 (ds_Version s) 1)); [|by intros [= <- _]].
  do 3 (destruct (numeric28_8 _); [|done]). intros [= _ <-] _. by exists old.
Qed.

Lemma CreateDepositTransaction_ok c tx txs row txs' :
  CreateDepositTransaction c tx txs = Ok (row, txs') ->
  exists id, row = txRow id (c_now c) tx /\ txs' = (txs ++ [row])%list.
Proof.
  unfold CreateDepositTransaction. destruct (c_ids c 0) as [id|]; [|done].
  destruct (numeric28_8 _); [|done]. destruct (existsb _ txs); [done|].
  intros [= <- <-]. by exists id.
Qed.

Lemma AccumulateReceivedAmount_ok c tn sid amount m m' :
  AccumulateReceivedAmount c tn sid amount m = Ok m' -> m' = accumulate (c_now c) tn sid amount m.
Proof.
  unfold AccumulateReceivedAmount, accumulate.
  destruct (m !! sid) as [s|]; [|by intros [= <-]].
  destruct (decide (ds_TenantID s = tn)); [|by intros [= <-]].
  destruct (numeric28_8 _); [|done]. by intros [= <-].
Qed.

Lemma accumulate_inv now tn sid amount m :
  map_Forall (fun id s => ds_ID s = id) m ->
  map_Forall (fun id s => ds_ID s = id) (accumulate now tn sid amount m).
Proof.
  intros Hm. unfold accumulate. destruct (m !! sid) as [s|] eqn:E; [|done].
  case_decide; [|done]. apply map_Forall_insert_2; [|done]. by apply (Hm _ _ E).
Qed.

Lemma map_payload_aggregate id es :
  map oe_Payload (map (setAggregateID id) es) = map oe_Payload es.
Proof.
  rewrite map_map. apply map_ext. intros e. unfold setAggregateID. by case_decide.
Qed.

Lemma create_ok c s es t s' t' :
  (let? (row, m) := wrap "creating session" (CreateDepositSession c s (tb_sessions t)) in
   let session := set_ds_identity s (ds_ID row) (ds_CreatedAt row) (ds_UpdatedAt row) in
   let? ix := wrap "inserting address index" (InsertAddressIndex c session (tb_index t)) in
   let entries := map (setAggregateID (ds_ID session)) es in
   let? ob := wrap "insert outbox entries" (Adapter.InsertOutboxEntries entries (tb_outbox t)) in
   Ok (session, {| tb_sessions := m; tb_txs := tb_txs t; tb_pool := tb_pool t;
                   tb_index := ix; tb_outbox := ob |})) = Ok (s', t') ->
  exists id expected, tb_sessions t !! id = None /\ ds_ID s' = id
    /\ tb_sessions t' = <[id := sessionRow id (c_now c) expected s]> (tb_sessions t)
    /\ tb_txs t' = tb_txs t
    /\ tb_outbox t' = (tb_outbox t ++ map outboxEntryToParams (map (setAggregateID id) es))%list.
Proof.
  destruct (wrap _ (CreateDepositSession c s (tb_sessions t))) as [[row m]|] eqn:E; [|done].
  apply wrap_ok, CreateDepositSession_ok in E as (id & x & -> & Hn & ->). simpl.
  destruct (wrap _ (InsertAddressIndex _ _ _)) as [ix|]; [|done].
  destruct (wrap _ (Adapter.InsertOutboxEntries _ _)) as [ob|] eqn:Eo; [|done].
  apply wrap_ok, Adapter.InsertOutboxEntries_ok in Eo as ->. intros [= <- <-]. eauto 10.
Qed.

(** Reads leave the rows alone. *)
Lemma query_view {A} (f : Call -> Tables -> result A) d r d' : query f d = (r, d') ->
  view d' = view d /\ (inv d -> inv d') /\ (sq_up d -> sq_up d').
Proof.
  intros Hq. destruct (query_inv _ _ _ _ Hq) as [Ht _].
  unfold view, inv. rewrite Ht. split_and!; [done|done|].
  intros Hu. pose proof (query_keeps_up f d Hu) as Hk. by rewrite Hq in Hk.
Qed.

Lemma transact_view {A} (f : Call -> Tables -> result (A * Tables)) d r d' :
  transact f d = (r, d') -> (sq_up d -> sq_up d').
Proof.
  intros Hq Hu. pose proof (transact_keeps_up f d Hu) as Hk. by rewrite Hq in Hk.
Qed.

#[export, program] Instance AdapterLaws : DepositStoreLaws DB := {|
  dview := view; dinv := inv; dup := sq_up
|}.
Next Obligation. simpl. intros d id s Hi Hs. by apply (Hi _ _ Hs). Qed.
Next Obligation.
  simpl. intros tn id d r d' Hq.
  destruct (query_view _ _ _ _ Hq) as (Hv & Hi & Hu). destruct (query_inv _ _ _ _ Hq) as [_ Ha].
  split_and!; try done.
  - intros s Hinv Hr. apply Ha, wrap_ok in Hr.
    destruct (tb_sessions (sq_tables d) !! id) as [s0|] eqn:E; [|done].
    case_decide; simplify_eq. split_and!; try done. by apply (Hinv _ _ E).
  - intros s Hup Hs Htn. unfold GetSession in Hq. rewrite query_up in Hq by done.
    simpl in Hs. rewrite Hs in Hq. rewrite decide_True in Hq by done. by simplify_eq.
Qed.
Next Obligation.
  simpl. intros tn k d r d' Hq.
  destruct (query_view _ _ _ _ Hq) as (Hv & Hi & Hu). destruct (query_inv _ _ _ _ Hq) as [_ Ha].
  split_and!; try done.
  - intros s Hinv Hr. apply Ha, wrap_ok, selectFirst_ok in Hr as [Hin Hp].
    rewrite !andb_true_iff, bool_decide_eq_true, String.eqb_eq in Hp.
    apply list_elem_of_fmap in Hin as ([id s'] & -> & Hin).
    apply elem_of_map_to_list in Hin. simpl. rewrite (Hinv _ _ Hin). naive_solver.
  - intros id s Hup Hs Htn Hk Hne. unfold GetSessionByIdempotencyKey in Hq.
    rewrite query_up in Hq by done. simplify_eq. unfold wrap.
    assert (is_ok (selectFirst (fun s' => bool_decide (ds_TenantID s' = ds_TenantID s)
      && negb (String.eqb (ds_IdempotencyKey s') "")
      && String.eqb (ds_IdempotencyKey s') (ds_IdempotencyKey s)) (rows (sq_tables d))) = true)
      as Hok.
    { apply (selectFirst_some _ _ s).
      - unfold rows. apply list_elem_of_fmap. exists (id, s). split; [done|].
        by apply elem_of_map_to_list.
      - rewrite bool_decide_true by done. rewrite String.eqb_refl.
        apply String.eqb_neq in Hne. by rewrite Hne. }
    destruct (selectFirst _ _); done.
Qed.
Next Obligation. simpl. intros tn d r d' Hq. by apply (query_view _ _ _ _ Hq). Qed.
Next Obligation.
  simpl. intros c h d r d' Hq.
  destruct (query_view _ _ _ _ Hq) as (Hv & Hi & Hu). destruct (query_inv _ _ _ _ Hq) as [_ Ha].
  split_and!; try done.
  - intros t Hr. by apply Ha, wrap_ok, selectFirst_ok in Hr.
  - intros t Hup Ht Hx. unfold GetDepositTxByHash in Hq. rewrite query_up in Hq by done.
    simplify_eq. pose proof (selectFirst_some _ _ _ Ht Hx) as Hok. unfold wrap.
    simpl in Hok. by destruct (selectFirst _ _).
Qed.
Next Obligation.
  simpl. intros tn c sid d r d' Hq. pose proof (transact_view _ _ _ _ Hq) as Hup.
  unfold view, inv.
  destruct (transact_inv _ _ _ _ Hq) as [(Ht & _ & _)|(a & Hf & _)]; [by rewrite Ht|].
  cbv zeta in Hf. destruct (DispensePoolAddress _ _ _ _ _) as [[x pool]|e].
  - injection Hf as <- Ht. by rewrite <- Ht.
  - case_decide; [|done]. injection Hf as <- Ht. by rewrite <- Ht.
Qed.
Next Obligation.
  simpl. intros s es d r d' Hq. pose proof (transact_view _ _ _ _ Hq) as Hup.
  destruct (transact_inv _ _ _ _ Hq) as [(Ht & Hr & _)|(a & Hf & _)].
  { unfold view, inv, committed. rewrite Ht. auto. }
  destruct (wrap _ (TransitionDepositSession _ _ _)) as [[n m]|] eqn:E; [|done].
  apply wrap_ok in E. destruct (Z.eqb_spec n 0) as [|Hn]; [done|].
  apply TransitionDepositSession_ok in E as (old & Hold & Hver & ->); [|done].
  destruct (wrap _ (Adapter.InsertOutboxEntries _ _)) as [ob|] eqn:Eo; [|done].
  apply wrap_ok, Adapter.InsertOutboxEntries_ok in Eo as ->. injection Hf as _ Ht.
  unfold view, inv, committed. rewrite <- Ht. simpl. split_and!; [|done|].
  - intros Hi. apply map_Forall_insert_2; [|done]. simpl. by apply (Hi _ _ Hold).
  - right. by exists (c_now (sq_call d)), old.
Qed.
Next Obligation.
  simpl. intros s es d old r d' Hq Hup Hold Hver. unfold TransitionWithOutbox in Hq.
  rewrite transact_up in Hq by done. unfold TransitionDepositSession in Hq. simpl in Hold.
  rewrite Hold in Hq. apply Z.eqb_neq in Hver. rewrite Hver in Hq. simpl in Hq. simplify_eq.
  by eexists.
Qed.
Next Obligation.
  simpl. intros tx tn sid amount d r d' Hq. pose proof (transact_view _ _ _ _ Hq) as Hup.
  destruct (transact_inv _ _ _ _ Hq) as [(Ht & Hr & _)|(a & Hf & _)].
  { unfold view, inv, committed. rewrite Ht. auto. }
  destruct (wrap _ (CreateDepositTransaction _ _ _)) as [[row txs]|] eqn:E; [|done].
  apply wrap_ok, CreateDepositTransaction_ok in E as (id & -> & ->).
  destruct (wrap _ (AccumulateReceivedAmount _ _ _ _ _)) as [m|] eqn:Em; [|done].
  apply wrap_ok, AccumulateReceivedAmount_ok in Em as ->. injection Hf as _ Ht.
  unfold view, inv, committed. rewrite <- Ht. simpl. split_and!; [apply accumulate_inv|done|].
  right. by exists id, (c_now (sq_call d)).
Qed.
Next Obligation.
  simpl. intros s es d r d' Hq. pose proof (transact_view _ _ _ _ Hq) as Hup.
  destruct (transact_inv _ _ _ _ Hq) as [(Ht & Hr & _)|(a & Hf & Hres)].
  { unfold view, inv, committed. rewrite Ht. auto. }
  apply create_ok in Hf as (id & x & Hn & Hid & Hs & Htx & Hob).
  unfold view, inv, committed. rewrite Hs, Htx, Hob. split_and!; [|done|].
  - intros Hi. by apply map_Forall_insert_2.
  - right. exists (sessionRow id (c_now (sq_call d)) x s), a,
      (map outboxEntryToParams (map (setAggregateID id) es)).
    split_and!; try done. by rewrite map_payload_params, map_payload_aggregate.
Qed.
End Tables.
End DepositAdapter.
