(* ===== verification/DepositEngine.v ===== *)
(** * core/deposit: the crypto deposit engine

    Models src/core/deposit/engine.go and fee.go.  A deposit session moves
    from PENDING_PAYMENT over DETECTED and CONFIRMED (the chain monitor
    reports) to CREDITING (an intent asks the deposit worker to credit ledger
    and treasury), CREDITED, and then HELD or SETTLING and SETTLED.  A handler
    is cut where it talks to the store: [X_plan] is the pure part between a
    read and the transition it asks for, [X] is the handler.

    [DEnv] holds what one call draws: instants, UUIDs, and the tenants the
    tenant store returns, numbered in the order of the draws, because a tenant
    may change between two reads of one call.  [later] passes to the draws of
    the next stage.  Marshalling cannot fail and is left out, as are log
    lines. *)

From S2P Require Import Prelude ThirdParty Sql Money Deposits Transfer Outbox TransferStore DepositStore.
Local Open Scope string_scope.
Local Open Scope Z_scope.

Section Env.
Context {L : ThirdParty}.

Record DEnv := {
  de_now : nat -> Z;
  de_newv7 : nat -> UUID;
  de_GetTenant : nat -> UUID -> result Tenant;
}.

Definition later (k : nat) (env : DEnv) : DEnv :=
  {| de_now n := de_now env (k + n)%nat; de_newv7 n := de_newv7 env (k + n)%nat;
     de_GetTenant n := de_GetTenant env (k + n)%nat |}.

Record CreateSessionRequest := {
  csr_IdempotencyKey : string;
  csr_Chain : CryptoChain;
  csr_Token : string;
  csr_ExpectedAmount : Decimal;
  csr_SettlementPref : SettlementPreference;
  csr_TTLSeconds : Z;
  csr_Metadata : gmap string string;
}.

Definition CalculateCollectionFee (amount : Decimal) (schedule : FeeSchedule) : Decimal :=
  match CalculateFee schedule amount "crypto_collection" with
  | Ok fee => fee
  | Err _ => dZero
  end.

Definition requiredConfirmations (s : DepositSession) : Z :=
  if String.eqb (ds_Chain s) ChainTron then 19
  else if String.eqb (ds_Chain s) ChainEthereum then 12
  else if String.eqb (ds_Chain s) ChainBase then 12
  else if String.eqb (ds_Chain s) ChainPolygon then 12
  else if String.eqb (ds_Chain s) ChainSolana then 12
  else 20.

(** ** Entries *)

Definition depositEvent (env : DEnv) (i : nat) (sid tn : UUID) (ty : string) (p : Payload)
  : OutboxEntry :=
  MustNewOutboxEvent (de_newv7 env i) (de_now env i) "deposit" sid tn ty p.

Definition depositIntent (env : DEnv) (i : nat) (sid tn : UUID) (ty : string) (p : Payload)
  : OutboxEntry :=
  MustNewOutboxIntent (de_newv7 env i) (de_now env i) "deposit" sid tn ty p.

Definition depositWebhookEntry (env : DEnv) (i : nat) (sid tn : UUID) (eventType : string)
    (data : NotifyData) : OutboxEntry :=
  depositIntent env i sid tn IntentWebhookDeliver
    (PWebhookDeliver {| wdp_TransferID := uuid_Nil; wdp_SessionID := sid; wdp_TenantID := tn;
                        wdp_EventType := eventType; wdp_Data := data |}).

Definition depositEmailEntry (env : DEnv) (i : nat) (sid tn : UUID)
    (eventType subject : string) (data : NotifyData) : OutboxEntry :=
  depositIntent env i sid tn IntentEmailNotify
    (PEmailNotify {| enp_TenantID := tn; enp_SessionID := sid; enp_TransferID := uuid_Nil;
                     enp_EventType := eventType; enp_Subject := subject; enp_Data := data |}).

Definition depositNotificationEntries (env : DEnv) (i : nat) (sid tn : UUID)
    (eventType emailSubject : string) (data : NotifyData) : list OutboxEntry :=
  [depositWebhookEntry env i sid tn eventType data;
   depositEmailEntry env (Datatypes.S i) sid tn eventType emailSubject data].

Definition sessionEvent (sid tn : UUID) (status : DepositSessionStatus) (chain token : string)
    (amount : Decimal) (reason : string) : DepositSessionEventPayload :=
  {| dse_SessionID := sid; dse_TenantID := tn; dse_Status := status; dse_Chain := chain;
     dse_Token := token; dse_Amount := amount; dse_Reason := reason |}.

Definition depositWrapTransitionError (e : error) (step : string) : error :=
  if is_optimistic_lock e then WrapErr (step +:+ ": concurrent modification") OptimisticLockErr
  else WrapErr step e.

(** What a handler asks the store for. *)
Definition DepositPlan : Type := DepositSession * list OutboxEntry.

Definition wrongStatus (step : string) : error := WrapErr step (DomainErr CodeInvalidTransition).

(** [session.TransitionTo(target)] with the handler's wrapping. *)
Definition moveTo (step : string) (now : Z) (target : DepositSessionStatus) (s : DepositSession)
  : result DepositSession := wrap step (DepositSession_TransitionTo s target now).

(** ** Plans *)

Definition failSession_plan (env : DEnv) (reason code : string) (s : DepositSession)
  : result DepositPlan :=
  let s := set_ds_times s (ds_DetectedAt s) (ds_ConfirmedAt s) (ds_CreditedAt s)
             (ds_SettledAt s) (ds_ExpiredAt s) (Some (de_now env 0)) in
  let s := set_ds_failure s reason code in
  let? s := moveTo "fail session" (de_now env 1) DSFailed s in
  let ev := sessionEvent (ds_ID s) (ds_TenantID s) DSFailed "" "" dZero reason in
  Ok (s, depositEvent env 2 (ds_ID s) (ds_TenantID s) EventDepositSessionFailed
           (PNotice (NSession ev))
         :: depositNotificationEntries env 3 (ds_ID s) (ds_TenantID s)
              EventDepositSessionFailed ("Deposit failed — " +:+ reason) (NSession ev)).

Definition isLate (s : DepositSession) : bool :=
  bool_decide (ds_Status s = DSExpired) || bool_decide (ds_Status s = DSCancelled).

(** The part of [HandleTransactionDetected] after the transaction has been
    recorded; [None] when the session is past DETECTED. *)
Definition HandleTransactionDetected_plan (env : DEnv) (tn sid : UUID) (tx : IncomingTransaction)
    (s : DepositSession) : result (option DepositPlan) :=
  let late := isLate s in
  if negb (DepositSession_CanTransitionTo s DSDetected) then Ok None
  else
    let s := set_ds_amounts s (dAdd (ds_ReceivedAmount s) (it_Amount tx))
               (ds_FeeAmount s) (ds_NetAmount s) in
    let s := set_ds_times s (Some (de_now env 0)) (ds_ConfirmedAt s) (ds_CreditedAt s)
               (ds_SettledAt s) (ds_ExpiredAt s) (ds_FailedAt s) in
    let? s := moveTo "handle tx detected" (de_now env 1) DSDetected s in
    let p := {| dtd_SessionID := sid; dtd_TenantID := tn; dtd_TxHash := it_TxHash tx;
                dtd_Chain := it_Chain tx; dtd_Token := ds_Token s; dtd_Amount := it_Amount tx;
                dtd_BlockNumber := it_BlockNumber tx |} in
    let entries :=
      depositEvent env 2 sid tn EventDepositTxDetected (PNotice (NTxDetected p))
      :: depositNotificationEntries env 3 sid tn EventDepositTxDetected
           ("Payment detected — " +:+ dString (it_Amount tx) +:+ " " +:+ ds_Token s
            +:+ " on " +:+ it_Chain tx) (NTxDetected p) in
    let entries :=
      if late then
        (entries ++ [depositEvent env 5 sid tn EventDepositLatePayment
           (PNotice (NSession (sessionEvent sid tn DSDetected (it_Chain tx) (ds_Token s)
                                 (it_Amount tx) "late_payment")))])%list
      else entries in
    Ok (Some (s, entries)).

Definition HandleTransactionConfirmed_plan (env : DEnv) (tn sid : UUID) (txHash : string)
    (confirmations : Z) (s : DepositSession) : result DepositPlan :=
  if negb (bool_decide (ds_Status s = DSDetected)) then Err (wrongStatus "handle tx confirmed")
  else
    let s := set_ds_times s (ds_DetectedAt s) (Some (de_now env 0)) (ds_CreditedAt s)
               (ds_SettledAt s) (ds_ExpiredAt s) (ds_FailedAt s) in
    let? s := moveTo "handle tx confirmed" (de_now env 1) DSConfirmed s in
    let p := {| dtc_SessionID := sid; dtc_TenantID := tn; dtc_TxHash := txHash;
                dtc_Chain := ds_Chain s; dtc_Token := ds_Token s;
                dtc_Amount := ds_ReceivedAmount s; dtc_Confirmations := confirmations |} in
    Ok (s, depositEvent env 2 sid tn EventDepositTxConfirmed (PNotice (NTxConfirmed p))
           :: depositNotificationEntries env 3 sid tn EventDepositTxConfirmed
                ("Payment confirmed — " +:+ dString (ds_ReceivedAmount s) +:+ " "
                 +:+ ds_Token s +:+ " (" +:+ pretty confirmations +:+ " confirmations)")
                (NTxConfirmed p)).

(** The intent is posted with the fee of the moment; the session row keeps
    its old fee and net amounts. *)
Definition initiateCredit_plan (env : DEnv) (tn sid : UUID) (txHash : string)
    (s : DepositSession) : result DepositPlan :=
  if negb (bool_decide (ds_Status s = DSConfirmed)) then Err (wrongStatus "initiate credit")
  else
    let? tenant := wrap "initiate credit: loading tenant" (de_GetTenant env 0 tn) in
    let feeAmount := CalculateCollectionFee (ds_ReceivedAmount s) (tn_FeeSchedule tenant) in
    let netAmount := dSub (ds_ReceivedAmount s) feeAmount in
    let? s := moveTo "initiate credit" (de_now env 0) DSCrediting s in
    let p := {| cdp_SessionID := sid; cdp_TenantID := tn; cdp_Chain := ds_Chain s;
                cdp_Token := ds_Token s; cdp_GrossAmount := ds_ReceivedAmount s;
                cdp_FeeAmount := feeAmount; cdp_NetAmount := netAmount; cdp_TxHash := txHash;
                cdp_IdempotencyKey := "deposit-credit:" +:+ uuid_String sid |} in
    let ev := sessionEvent sid tn DSCrediting (ds_Chain s) (ds_Token s) netAmount "" in
    Ok (s, [depositIntent env 1 sid tn IntentCreditDeposit (PCreditDeposit p);
            depositEvent env 2 sid tn EventDepositSessionCrediting (PNotice (NSession ev))]).

Definition HandleCreditResult_plan (env : DEnv) (tn sid : UUID) (r : IntentResult)
    (s : DepositSession) : result DepositPlan :=
  let? tenant := wrap "handle credit result: loading tenant" (de_GetTenant env 0 tn) in
  let feeAmount := CalculateCollectionFee (ds_ReceivedAmount s) (tn_FeeSchedule tenant) in
  let netAmount := dSub (ds_ReceivedAmount s) feeAmount in
  let s := set_ds_amounts s (ds_ReceivedAmount s) feeAmount netAmount in
  let s := set_ds_times s (ds_DetectedAt s) (ds_ConfirmedAt s) (Some (de_now env 0))
             (ds_SettledAt s) (ds_ExpiredAt s) (ds_FailedAt s) in
  let? s := moveTo "handle credit result" (de_now env 1) DSCredited s in
  let ev := sessionEvent sid tn DSCredited (ds_Chain s) (ds_Token s) netAmount "" in
  Ok (s, depositEvent env 2 sid tn EventDepositSessionCredited (PNotice (NSession ev))
         :: depositNotificationEntries env 3 sid tn EventDepositSessionCredited
              ("Deposit credited — " +:+ dString netAmount +:+ " " +:+ ds_Token s +:+ " (net)")
              (NSession ev)).

Definition initiateSettlement_plan (env : DEnv) (s : DepositSession) : result DepositPlan :=
  if negb (bool_decide (ds_Status s = DSCredited)) then Err (wrongStatus "initiate settlement")
  else
    let? s := moveTo "initiate settlement" (de_now env 0) DSSettling s in
    let p := {| sdp_SessionID := ds_ID s; sdp_TenantID := ds_TenantID s; sdp_Chain := ds_Chain s;
                sdp_Token := ds_Token s; sdp_Amount := ds_NetAmount s;
                sdp_TargetFiat := CurrencyUSD |} in
    let ev := sessionEvent (ds_ID s) (ds_TenantID s) DSSettling (ds_Chain s) (ds_Token s)
                (ds_NetAmount s) "" in
    Ok (s, [depositIntent env 1 (ds_ID s) (ds_TenantID s) IntentSettleDeposit (PSettleDeposit p);
            depositEvent env 2 (ds_ID s) (ds_TenantID s) EventDepositSessionSettling
              (PNotice (NSession ev))]).

Definition holdSession_plan (env : DEnv) (s : DepositSession) : result DepositPlan :=
  if negb (bool_decide (ds_Status s = DSCredited)) then Err (wrongStatus "hold session")
  else
    let? s := moveTo "hold session" (de_now env 0) DSHeld s in
    let ev := sessionEvent (ds_ID s) (ds_TenantID s) DSHeld (ds_Chain s) (ds_Token s)
                (ds_NetAmount s) "" in
    Ok (s, depositEvent env 1 (ds_ID s) (ds_TenantID s) EventDepositSessionHeld
             (PNotice (NSession ev))
           :: depositNotificationEntries env 2 (ds_ID s) (ds_TenantID s) EventDepositSessionHeld
                ("Deposit held — " +:+ dString (ds_NetAmount s) +:+ " " +:+ ds_Token s
                 +:+ " awaiting settlement preference") (NSession ev)).

(** The switch of [routeAfterCredit]; its default case holds. *)
Definition routeAfterCredit_plan (env : DEnv) (s : DepositSession) : result DepositPlan :=
  if String.eqb (ds_SettlementPref s) SettlementPreferenceAutoConvert
  then initiateSettlement_plan env s else holdSession_plan env s.

(** The transfer id of the result, when it is there and parses. *)
Definition linkedTransfer (r : IntentResult) (old : option UUID) : option UUID :=
  match ir_Metadata r !! "transfer_id" with
  | Some str => match uuid_Parse str with Some tid => Some tid | None => old end
  | None => old
  end.

Definition HandleSettlementResult_plan (env : DEnv) (tn sid : UUID) (r : IntentResult)
    (s : DepositSession) : result DepositPlan :=
  let s := set_ds_times s (ds_DetectedAt s) (ds_ConfirmedAt s) (ds_CreditedAt s)
             (Some (de_now env 0)) (ds_ExpiredAt s) (ds_FailedAt s) in
  let s := set_ds_settlement s (linkedTransfer r (ds_SettlementTransferID s)) in
  let? s := moveTo "handle settlement result" (de_now env 1) DSSettled s in
  let ev := sessionEvent sid tn DSSettled (ds_Chain s) (ds_Token s) (ds_NetAmount s) "" in
  Ok (s, depositEvent env 2 sid tn EventDepositSessionSettled (PNotice (NSession ev))
         :: depositNotificationEntries env 3 sid tn EventDepositSessionSettled
              ("Deposit settled — " +:+ dString (ds_NetAmount s) +:+ " " +:+ ds_Token s
               +:+ " converted to fiat") (NSession ev)).

(** [None] when the session is past PENDING_PAYMENT, which is no error. *)
Definition ExpireSession_plan (env : DEnv) (tn sid : UUID) (s : DepositSession)
  : result (option DepositPlan) :=
  if negb (bool_decide (ds_Status s = DSPendingPayment)) then Ok None
  else
    let s := set_ds_times s (ds_DetectedAt s) (ds_ConfirmedAt s) (ds_CreditedAt s)
               (ds_SettledAt s) (Some (de_now env 0)) (ds_FailedAt s) in
    let? s := moveTo "expire session" (de_now env 1) DSExpired s in
    let ev := sessionEvent sid tn DSExpired "" "" dZero "ttl_exceeded" in
    Ok (Some (s, depositEvent env 2 sid tn EventDepositSessionExpired (PNotice (NSession ev))
         :: depositNotificationEntries env 3 sid tn EventDepositSessionExpired
              "Deposit session expired — no payment received within TTL" (NSession ev))).

Definition CancelSession_plan (env : DEnv) (tn sid : UUID) (s : DepositSession)
  : result DepositPlan :=
  if negb (bool_decide (ds_Status s = DSPendingPayment)) then Err (wrongStatus "cancel session")
  else
    let? s := moveTo "cancel session" (de_now env 0) DSCancelled s in
    let ev := sessionEvent sid tn DSCancelled "" "" dZero "user_cancelled" in
    Ok (s, depositEvent env 1 sid tn EventDepositSessionCancelled (PNotice (NSession ev))
           :: depositNotificationEntries env 2 sid tn EventDepositSessionCancelled
                "Deposit session cancelled" (NSession ev)).
End Env.

(** ** Handlers *)

Section Handlers.
Context {L : ThirdParty} {St : Type} `{DS : !DepositStore St}.

Definition loadSession (step : string) (tn sid : UUID) (st : St) : result DepositSession * St :=
  let '(r, st) := ds_GetSession tn sid st in (wrap step r, st).

(** The transition a plan asks for. *)
Definition commitPlan (step : string) (p : DepositPlan) (st : St) : result unit * St :=
  match ds_TransitionWithOutbox p.1 p.2 st with
  | (Ok _, st) => (Ok tt, st)
  | (Err e, st) => (Err (depositWrapTransitionError e step), st)
  end.

Definition commitResult (step : string) (p : result DepositPlan) (st : St) : result unit * St :=
  match p with
  | Ok p => commitPlan step p st
  | Err e => (Err e, st)
  end.

(** The session [CreateSession] builds. *)
Definition newSession (env : DEnv) (tenant : Tenant) (tn : UUID) (req : CreateSessionRequest)
    (addr : CryptoAddressPool) : DepositSession :=
  let settlementPref := if String.eqb (csr_SettlementPref req) ""
                        then cc_DefaultSettlementPref (tn_CryptoConfig tenant)
                        else csr_SettlementPref req in
  let ttl := csr_TTLSeconds req in
  let ttl := if ttl <=? 0 then cc_DefaultSessionTTLSecs (tn_CryptoConfig tenant) else ttl in
  let ttl := if ttl <=? 0 then 3600 else ttl in
  let now := de_now env 0 in
  {| ds_ID := de_newv7 env 0; ds_TenantID := tn; ds_IdempotencyKey := csr_IdempotencyKey req;
     ds_Status := DSPendingPayment; ds_Version := 1; ds_Chain := csr_Chain req;
     ds_Token := csr_Token req; ds_DepositAddress := ca_Address addr;
     ds_ExpectedAmount := csr_ExpectedAmount req; ds_ReceivedAmount := dZero;
     ds_Currency := ToUpper (csr_Token req);
     ds_CollectionFeeBPS := CryptoCollectionBPS (tn_FeeSchedule tenant);
     ds_FeeAmount := dZero; ds_NetAmount := dZero; ds_SettlementPref := settlementPref;
     ds_SettlementTransferID := None; ds_DerivationIndex := ca_DerivationIndex addr;
     ds_ExpiresAt := now + ttl * 1000000000; ds_CreatedAt := now; ds_UpdatedAt := now;
     ds_DetectedAt := None; ds_ConfirmedAt := None; ds_CreditedAt := None; ds_SettledAt := None;
     ds_ExpiredAt := None; ds_FailedAt := None; ds_FailureReason := ""; ds_FailureCode := "";
     ds_Metadata := csr_Metadata req |}.

Definition newSessionEntries (env : DEnv) (tn : UUID) (req : CreateSessionRequest)
    (addr : CryptoAddressPool) (s : DepositSession) : list OutboxEntry :=
  let monitor := {| map_SessionID := ds_ID s; map_TenantID := tn; map_Chain := csr_Chain req;
                    map_Address := ca_Address addr; map_Token := csr_Token req |} in
  let ev := sessionEvent (ds_ID s) tn DSPendingPayment (csr_Chain req) (csr_Token req)
              (csr_ExpectedAmount req) "" in
  depositIntent env 1 (ds_ID s) tn IntentMonitorAddress (PMonitorAddress monitor)
  :: depositEvent env 2 (ds_ID s) tn EventDepositSessionCreated (PNotice (NSession ev))
  :: depositNotificationEntries env 3 (ds_ID s) tn EventDepositSessionCreated
       ("Deposit session created — awaiting " +:+ dString (csr_ExpectedAmount req) +:+ " "
        +:+ csr_Token req) (NSession ev).

(** The checks on tenant and request. *)
Definition checkRequest (tenant : Tenant) (req : CreateSessionRequest) : result unit :=
  if negb (Tenant_IsActive tenant) then Err (DomainErr CodeTenantSuspended)
  else if negb (cc_CryptoEnabled (tn_CryptoConfig tenant)) then Err (DomainErr CodeCryptoDisabled)
  else if negb (ChainSupported tenant (csr_Chain req)) then Err (DomainErr CodeChainNotSupported)
  else if negb (IsPositive (csr_ExpectedAmount req)) then Err (DomainErr CodeAmountTooLow)
  else Ok tt.

Definition checkPendingLimit (tenant : Tenant) (tn : UUID) (st : St) : result unit * St :=
  if 0 <? tn_MaxPendingTransfers tenant then
    match ds_CountPendingSessions tn st with
    | (Ok count, st) =>
        if tn_MaxPendingTransfers tenant <=? count
        then (Err (MsgErr "create session: tenant exceeded max pending sessions"), st)
        else (Ok tt, st)
    | (Err e, st) => (Err (WrapErr "create session: counting pending sessions" e), st)
    end
  else (Ok tt, st).

(** Dispensing and persisting, once no earlier session was found. *)
Definition createFresh (env : DEnv) (tenant : Tenant) (tn : UUID) (req : CreateSessionRequest)
    (st : St) : result DepositSession * St :=
  match ds_DispenseAddress tn (csr_Chain req) uuid_Nil st with
  | (Err e, st) => (Err (WrapErr "create session: dispensing address" e), st)
  | (Ok None, st) => (Err (DomainErr CodeAddressPoolEmpty), st)
  | (Ok (Some addr), st) =>
      let s := newSession env tenant tn req addr in
      let '(r, st) := ds_CreateSessionWithOutbox s (newSessionEntries env tn req addr s) st in
      (wrap "create session: persisting" r, st)
  end.

Definition CreateSession (env : DEnv) (tn : UUID) (req : CreateSessionRequest) (st : St)
  : result DepositSession * St :=
  match wrap "create session: loading tenant" (de_GetTenant env 0 tn) with
  | Err e => (Err e, st)
  | Ok tenant =>
      match checkRequest tenant req with
      | Err e => (Err e, st)
      | Ok _ =>
          let! _ / st := checkPendingLimit tenant tn st in
          if String.eqb (csr_IdempotencyKey req) "" then createFresh env tenant tn req st
          else match ds_GetSessionByIdempotencyKey tn (csr_IdempotencyKey req) st with
               | (Ok existing, st) => (Ok existing, st)
               | (Err _, st) => createFresh env tenant tn req st
               end
      end
  end.

(** The transaction row [HandleTransactionDetected] records. *)
Definition depositTx (env : DEnv) (tn sid : UUID) (tx : IncomingTransaction) (s : DepositSession)
  : DepositTransaction :=
  {| dt_ID := de_newv7 env 0; dt_SessionID := sid; dt_TenantID := tn; dt_Chain := it_Chain tx;
     dt_TxHash := it_TxHash tx; dt_FromAddress := it_FromAddress tx;
     dt_ToAddress := it_ToAddress tx; dt_TokenContract := it_TokenContract tx;
     dt_Amount := it_Amount tx; dt_BlockNumber := it_BlockNumber tx;
     dt_BlockHash := it_BlockHash tx; dt_Confirmations := 0;
     dt_RequiredConfirm := requiredConfirmations s; dt_Confirmed := false;
     dt_DetectedAt := de_now env 0; dt_ConfirmedAt := None; dt_CreatedAt := 0 |}.

(** Whether the transaction is new and has been recorded now.  Only a lookup
    that succeeds makes it a duplicate. *)
Definition recordDetected (env : DEnv) (tn sid : UUID) (tx : IncomingTransaction)
    (s : DepositSession) (st : St) : result bool * St :=
  match ds_GetDepositTxByHash (it_Chain tx) (it_TxHash tx) st with
  | (Ok _, st) => (Ok false, st)
  | (Err _, st) =>
      match ds_RecordDepositTx (depositTx env tn sid tx s) tn sid (it_Amount tx) st with
      | (Err e, st) => (Err (WrapErr "handle tx detected: recording tx and accumulating" e), st)
      | (Ok _, st) => (Ok true, st)
      end
  end.

(** The move to DETECTED, on the session read before the recording. *)
Definition moveDetected (env : DEnv) (tn sid : UUID) (tx : IncomingTransaction)
    (s : DepositSession) (st : St) : result unit * St :=
  match HandleTransactionDetected_plan (later 1 env) tn sid tx s with
  | Err e => (Err e, st)
  | Ok None => (Ok tt, st)
  | Ok (Some p) => commitPlan "handle tx detected" p st
  end.

Definition HandleTransactionDetected (env : DEnv) (tn sid : UUID) (tx : IncomingTransaction)
    (st : St) : result unit * St :=
  let! s / st := loadSession "handle tx detected: loading session" tn sid st in
  let! fresh / st := recordDetected env tn sid tx s st in
  if fresh then moveDetected env tn sid tx s st else (Ok tt, st).

Definition initiateCredit (env : DEnv) (tn sid : UUID) (txHash : string) (st : St)
  : result unit * St :=
  let! s / st := loadSession "initiate credit: loading session" tn sid st in
  commitResult "initiate credit" (initiateCredit_plan env tn sid txHash s) st.

Definition HandleTransactionConfirmed (env : DEnv) (tn sid : UUID) (txHash : string)
    (confirmations : Z) (st : St) : result unit * St :=
  let! s / st := loadSession "handle tx confirmed: loading session" tn sid st in
  let! _ / st := commitResult "handle tx confirmed"
                   (HandleTransactionConfirmed_plan env tn sid txHash confirmations s) st in
  initiateCredit (later 5 env) tn sid txHash st.

Definition failSession (env : DEnv) (reason code : string) (s : DepositSession) (st : St)
  : result unit * St :=
  commitResult "fail session" (failSession_plan env reason code s) st.

(** [initiateSettlement] or [holdSession], on the session just read. *)
Definition routeAfterCredit (env : DEnv) (tn sid : UUID) (st : St) : result unit * St :=
  let! s / st := loadSession "route after credit: loading session" tn sid st in
  commitResult (if String.eqb (ds_SettlementPref s) SettlementPreferenceAutoConvert
                then "initiate settlement" else "hold session")
    (routeAfterCredit_plan env s) st.

Definition HandleCreditResult (env : DEnv) (tn sid : UUID) (r : IntentResult) (st : St)
  : result unit * St :=
  let! s / st := loadSession "handle credit result: loading session" tn sid st in
  if negb (bool_decide (ds_Status s = DSCrediting)) then (Err (wrongStatus "handle credit result"), st)
  else if negb (ir_Success r) then failSession env (ir_Error r) (ir_ErrorCode r) s st
  else
    let! _ / st := commitResult "handle credit result" (HandleCreditResult_plan env tn sid r s) st in
    routeAfterCredit (later 5 env) tn sid st.

Definition HandleSettlementResult (env : DEnv) (tn sid : UUID) (r : IntentResult) (st : St)
  : result unit * St :=
  let! s / st := loadSession "handle settlement result: loading session" tn sid st in
  if negb (bool_decide (ds_Status s = DSSettling))
  then (Err (wrongStatus "handle settlement result"), st)
  else if negb (ir_Success r) then failSession env (ir_Error r) (ir_ErrorCode r) s st
  else commitResult "handle settlement result" (HandleSettlementResult_plan env tn sid r s) st.

Definition ExpireSession (env : DEnv) (tn sid : UUID) (st : St) : result unit * St :=
  let! s / st := loadSession "expire session: loading session" tn sid st in
  match ExpireSession_plan env tn sid s with
  | Err e => (Err e, st)
  | Ok None => (Ok tt, st)
  | Ok (Some p) => commitPlan "expire session" p st
  end.

Definition CancelSession (env : DEnv) (tn sid : UUID) (st : St) : result unit * St :=
  let! s / st := loadSession "cancel session: loading session" tn sid st in
  commitResult "cancel session" (CancelSession_plan env tn sid s) st.

(** Reads. *)
Definition GetSession (tn sid : UUID) (st : St) : result DepositSession * St :=
  let '(r, st) := ds_GetSession tn sid st in (wrap "get session" r, st).

Definition GetSessionByTxHash (tn : UUID) (chain txHash : string) (st : St)
  : result DepositSession * St :=
  let '(r, st) := ds_GetSessionByTxHash tn chain txHash st in
  (wrap "get session by tx hash" r, st).

Definition GetSessionPublicStatus (sid : UUID) (st : St) : result DepositSession * St :=
  let '(r, st) := ds_GetSessionByIDOnly sid st in (wrap "get public status" r, st).

Definition ListSessions (tn : UUID) (limit offset : Z) (st : St)
  : result (list DepositSession) * St :=
  let '(r, st) := ds_ListSessions tn limit offset st in (wrap "list sessions" r, st).

Definition ListSessionsCursor (tn : UUID) (pageSize cursor : Z) (st : St)
  : result (list DepositSession) * St :=
  let '(r, st) := ds_ListSessionsCursor tn pageSize cursor st in
  (wrap "list sessions (cursor)" r, st).
End Handlers.
