(* ===== verification/DepositProps.v ===== *)
(** * core/deposit: correctness of the crypto deposit engine

    Chain monitors, workers, the expiry job and the API run the handlers of
    the engine at the same time, each a sequence of reads and version-guarded
    writes.  [dsys_step] is that system, [call_rtc] shows that a handler is a
    run of it, and the theory of Machine.v makes every session follow the
    state machine with one credit intent and at most one settlement intent.
    Then the amounts, the replay of a detected transaction, and the ways in
    which a session gets stuck or a payment is lost. *)

From Stdlib Require Import QArith Lqa.
From S2P Require Import Prelude ThirdParty Sql Machine Money Deposits Transfer Outbox TransferStore DepositStore DepositEngine.
Local Open Scope string_scope.
Local Open Scope Z_scope.

(** ** Stages *)

Section Stages.
Context {L : ThirdParty}.

(** The points at which a handler has read a session and decides a write. *)
Inductive DStage :=
| StDetected (tx : IncomingTransaction)
| StConfirmed (txHash : string) (confirmations : Z)
| StCredit (txHash : string)
| StCreditResult (r : IntentResult)
| StRoute
| StSettlementResult (r : IntentResult)
| StExpire
| StCancel.

Definition one {A} (r : result A) : result (option A) := let? a := r in Ok (Some a).

Definition stagePlan (env : DEnv) (tn sid : UUID) (st : DStage) (s : DepositSession)
  : result (option DepositPlan) :=
  match st with
  | StDetected tx => HandleTransactionDetected_plan env tn sid tx s
  | StConfirmed h n => one (HandleTransactionConfirmed_plan env tn sid h n s)
  | StCredit h => one (initiateCredit_plan env tn sid h s)
  | StCreditResult r =>
      if negb (bool_decide (ds_Status s = DSCrediting)) then Err (wrongStatus "handle credit result")
      else one (if negb (ir_Success r) then failSession_plan env (ir_Error r) (ir_ErrorCode r) s
                else HandleCreditResult_plan env tn sid r s)
  | StRoute => one (routeAfterCredit_plan env s)
  | StSettlementResult r =>
      if negb (bool_decide (ds_Status s = DSSettling))
      then Err (wrongStatus "handle settlement result")
      else one (if negb (ir_Success r) then failSession_plan env (ir_Error r) (ir_ErrorCode r) s
                else HandleSettlementResult_plan env tn sid r s)
  | StExpire => ExpireSession_plan env tn sid s
  | StCancel => one (CancelSession_plan env tn sid s)
  end.

(** The edges of [ValidDepositTransitions] the engine takes. *)
Definition depositEdges (s : DepositSessionStatus) : list DepositSessionStatus :=
  match s with
  | DSPendingPayment => [DSDetected; DSExpired; DSCancelled]
  | DSExpired | DSCancelled => [DSDetected]
  | DSDetected => [DSConfirmed]
  | DSConfirmed => [DSCrediting]
  | DSCrediting => [DSCredited; DSFailed]
  | DSCredited => [DSSettling; DSHeld]
  | DSSettling => [DSSettled; DSFailed]
  | DSSettled | DSHeld | DSFailed => []
  end.

Definition depositRank (s : DepositSessionStatus) : nat :=
  match s with
  | DSPendingPayment => 7 | DSExpired | DSCancelled => 6 | DSDetected => 5 | DSConfirmed => 4
  | DSCrediting => 3 | DSCredited => 2 | DSSettling => 1 | DSSettled | DSHeld | DSFailed => 0
  end%nat.

(** The intents that move money, and the statuses they come with. *)
Inductive MoneyKind : Set := MCredit | MSettle | MRefund.

#[global] Instance MoneyKind_eq_dec : EqDecision MoneyKind.
Proof. solve_decision. Defined.

Definition depositEmitted (s : DepositSessionStatus) : list MoneyKind :=
  match s with DSCrediting => [MCredit] | DSSettling => [MSettle] | _ => [] end.

Definition moneyOf (k : UUID) (e : OutboxEntry) : option MoneyKind :=
  match oe_Payload e with
  | PCreditDeposit p => if decide (cdp_SessionID p = k) then Some MCredit else None
  | PSettleDeposit p => if decide (sdp_SessionID p = k) then Some MSettle else None
  | _ => None
  end.

Definition depositMoney (k : UUID) (es : list OutboxEntry) : list MoneyKind := omap (moneyOf k) es.

Lemma depositMoney_app k es es' :
  depositMoney k (es ++ es')%list = (depositMoney k es ++ depositMoney k es')%list.
Proof. apply omap_app. Qed.

Lemma depositMoney_params k es : depositMoney k (map outboxEntryToParams es) = depositMoney k es.
Proof. unfold depositMoney. induction es as [|e es IH]; [done|]. cbn. by rewrite IH. Qed.

Lemma depositMoney_payload k es es' :
  map oe_Payload es = map oe_Payload es' -> depositMoney k es = depositMoney k es'.
Proof.
  revert es'. induction es as [|e es IH]; intros [|e' es'] H; try done. injection H as He Hl.
  unfold depositMoney in *. cbn [omap list_omap]. rewrite (IH _ Hl).
  assert (moneyOf k e = moneyOf k e') as -> by (unfold moneyOf; by rewrite He). done.
Qed.

(** [Must...] never falls back: every type the engine uses is known. *)
Lemma payload_event env i sid tn ty p : existsb (String.eqb ty) knownEventTypes = true ->
  oe_Payload (depositEvent env i sid tn ty p) = p.
Proof.
  intros H. unfold depositEvent, MustNewOutboxEvent, NewOutboxEvent, ValidateEventType. by rewrite H.
Qed.

Lemma payload_intent env i sid tn ty p : existsb (String.eqb ty) knownEventTypes = true ->
  oe_Payload (depositIntent env i sid tn ty p) = p.
Proof.
  intros H. unfold depositIntent, MustNewOutboxIntent, NewOutboxIntent, ValidateEventType. by rewrite H.
Qed.

Lemma moveTo_ok step now target s s' : moveTo step now target s = Ok s' ->
  s' = set_ds_status s target (add64 (ds_Version s) 1) now.
Proof.
  unfold moveTo, wrap. destruct (DepositSession_TransitionTo s target now) eqn:E; [|done].
  intros [= <-]. by apply deposit_transition_ok in E as [_ ->].
Qed.

(** What a stage may ask for: one edge of the machine, for the session it
    read, with the money intents of the status it enters. *)
Record plan_good (s : DepositSession) (p : DepositPlan) : Prop := {
  pg_id : ds_ID p.1 = ds_ID s;
  pg_version : ds_Version p.1 = add64 (ds_Version s) 1;
  pg_edge : ds_Status p.1 ∈ depositEdges (ds_Status s);
  pg_money : depositMoney (ds_ID s) p.2 = depositEmitted (ds_Status p.1);
  pg_others k : k <> ds_ID s -> depositMoney k p.2 = [];
}.

Ltac entries :=
  unfold depositMoney, depositNotificationEntries, depositWebhookEntry, depositEmailEntry;
  cbn [omap list_omap app]; unfold moneyOf;
  rewrite ?payload_event, ?payload_intent by (vm_compute; reflexivity); cbn -[decide].

Ltac plan_step :=
  match goal with
  | |- context [wrap ?c (de_GetTenant ?e ?i ?t)] =>
      destruct (wrap c (de_GetTenant e i t)); [|discriminate]
  | |- context [match moveTo ?a ?b ?c ?d with _ => _ end] =>
      let E := fresh "E" in destruct (moveTo a b c d) eqn:E; [apply moveTo_ok in E; subst|discriminate]
  | |- context [negb (bool_decide (ds_Status ?s = ?x))] =>
      let H := fresh "Hst" in destruct (bool_decide_reflect (ds_Status s = x)) as [H|H];
      cbn [negb]; [|try discriminate]
  end.

Ltac plan_done s :=
  intros [= <- <-]; split; cbn -[depositMoney] in *;
  [reflexivity | reflexivity
  | repeat match goal with H : ds_Status s = _ |- _ => rewrite H end; set_solver
  | entries; rewrite ?decide_True by done; reflexivity
  | intros k Hk; entries; rewrite ?decide_False by congruence; reflexivity ].

Lemma failSession_good env reason code s w es :
  ds_Status s = DSCrediting \/ ds_Status s = DSSettling ->
  failSession_plan env reason code s = Ok (w, es) -> plan_good s (w, es).
Proof. intros Hs. unfold failSession_plan. cbv zeta. plan_step. destruct Hs as [Hs|Hs]; plan_done s. Qed.

Lemma one_some {A} (r : result A) a : one r = Ok (Some a) -> r = Ok a.
Proof. unfold one. by destruct r; intros [= <-]. Qed.

Lemma detected_good env tx s w es :
  HandleTransactionDetected_plan env (ds_TenantID s) (ds_ID s) tx s = Ok (Some (w, es)) ->
  plan_good s (w, es).
Proof.
  unfold HandleTransactionDetected_plan. cbv zeta.
  destruct (DepositSession_CanTransitionTo s DSDetected) eqn:Hc; [|done]. cbn [negb].
  assert (DSDetected ∈ depositEdges (ds_Status s)).
  { unfold DepositSession_CanTransitionTo in Hc. destruct (ds_Status s); try done; set_solver. }
  plan_step. destruct (isLate s); plan_done s; done.
Qed.

Lemma stagePlan_good env st s w es :
  stagePlan env (ds_TenantID s) (ds_ID s) st s = Ok (Some (w, es)) -> plan_good s (w, es).
Proof.
  destruct st as [tx|h n|h|r| |r| |]; cbn [stagePlan].
  - apply detected_good.
  - intros H%one_some. revert H. unfold HandleTransactionConfirmed_plan. cbv zeta.
    do 2 plan_step. plan_done s.
  - intros H%one_some. revert H. unfold initiateCredit_plan. cbv zeta. do 3 plan_step. plan_done s.
  - plan_step. intros H%one_some. revert H. destruct (ir_Success r); cbn [negb].
    + unfold HandleCreditResult_plan. cbv zeta. do 2 plan_step. plan_done s.
    + apply failSession_good. auto.
  - intros H%one_some. revert H. unfold routeAfterCredit_plan. destruct (String.eqb _ _).
    + unfold initiateSettlement_plan. cbv zeta. do 2 plan_step. plan_done s.
    + unfold holdSession_plan. cbv zeta. do 2 plan_step. plan_done s.
  - plan_step. intros H%one_some. revert H. destruct (ir_Success r); cbn [negb].
    + unfold HandleSettlementResult_plan. cbv zeta. plan_step. plan_done s.
    + apply failSession_good. auto.
  - unfold ExpireSession_plan. cbv zeta. do 2 plan_step. plan_done s.
  - intros H%one_some. revert H. unfold CancelSession_plan. cbv zeta. do 2 plan_step. plan_done s.
Qed.
End Stages.

(** ** The system *)

Section DepositSystem.
Context {L : ThirdParty}.

Definition depositMachine : Machine UUID DepositSession OutboxEntry DepositSessionStatus MoneyKind :=
  {| mc_id := ds_ID; mc_version := ds_Version; mc_status := ds_Status;
     mc_init := DSPendingPayment; mc_first := 0; mc_next := depositEdges; mc_rank := depositRank;
     mc_emitted := depositEmitted; mc_kinds := depositMoney;
     mc_plan s w es := exists env st es0, es = map outboxEntryToParams es0
       /\ stagePlan env (ds_TenantID s) (ds_ID s) st s = Ok (Some (w, es0));
     mc_stamped old w new := ds_ID old = ds_ID w /\ exists now, new = transitionRow now old w;
     mc_touched old new := exists now amount, new = accumulatedRow now old amount;
     mc_fresh row es := ds_Status row = DSPendingPayment /\ ds_Version row = 0
       /\ forall k, depositMoney k es = [] |}.

#[export] Instance depositMachine_laws : MachineLaws depositMachine.
Proof.
  split; simpl.
  - intros [] s' Hs; simpl in Hs; set_unfold in Hs; naive_solver lia.
  - lia.
  - lia.
  - apply depositMoney_app.
  - intros s w es (env & st & es0 & -> & [? ? ? Hm Ho]%stagePlan_good).
    rewrite depositMoney_params. split_and!; try done. intros k. rewrite depositMoney_params. apply Ho.
  - by intros old w new (Hid & now & ->).
  - by intros old new (now & amount & ->).
  - done.
Qed.

Context {St : Type} `{DS : !DepositStore St} {DSL : DepositStoreLaws St}.

(** The calls of all handlers that run at the same time, in any order: a
    session is read; a stage of a handler that read a session writes; a
    transaction is recorded; a session is created; everything else leaves
    sessions, transactions and outbox as they are.  A write may succeed, fail,
    or succeed unnoticed. *)
Inductive dsys_step : St * list DepositSession -> St * list DepositSession -> Prop :=
| DSysRead st fl tn sid s st' :
    ds_GetSession tn sid st = (Ok s, st') -> dsys_step (st, fl) (st', s :: fl)
| DSysWrite st fl s env stage w es r st' :
    s ∈ fl -> stagePlan env (ds_TenantID s) (ds_ID s) stage s = Ok (Some (w, es)) ->
    ds_TransitionWithOutbox w es st = (r, st') -> dsys_step (st, fl) (st', fl)
| DSysRecord st fl tx tn sid amount r st' :
    ds_RecordDepositTx tx tn sid amount st = (r, st') -> dsys_step (st, fl) (st', fl)
| DSysCreate st fl env tenant tn req addr r st' :
    ds_CreateSessionWithOutbox (newSession env tenant tn req addr)
      (newSessionEntries env tn req addr (newSession env tenant tn req addr)) st = (r, st') ->
    dsys_step (st, fl) (st', fl)
| DSysOther st fl st' :
    dview st' = dview st -> (dinv st -> dinv st') -> dsys_step (st, fl) (st', fl).

Definition mview (c : St * list DepositSession) : MState :=
  {| ms_rows := dv_sessions (dview c.1); ms_log := dv_outbox (dview c.1); ms_flight := c.2 |}.

Lemma newSessionEntries_money env tn req addr s es' k :
  map oe_Payload es' = map oe_Payload (newSessionEntries env tn req addr s) ->
  depositMoney k es' = [].
Proof.
  intros ->%(depositMoney_payload k). unfold depositMoney, newSessionEntries,
    depositNotificationEntries, depositWebhookEntry, depositEmailEntry.
  cbn [omap list_omap]. unfold moneyOf.
  by rewrite ?payload_event, ?payload_intent by (vm_compute; reflexivity).
Qed.

(** One step of the system is a step of the machine, or none. *)
Lemma dsys_machine c c' : dinv c.1 -> dsys_step c c' ->
  dinv c'.1 /\ rtc (mstep depositMachine) (mview c) (mview c').
Proof.
  intros Hinv Hs. destruct Hs as
    [st fl tn sid s st' Hg|st fl s env stage w es r st' Hin Hp Ht
    |st fl tx tn sid amount r st' Hr|st fl env tenant tn req addr r st' Hc
    |st fl st' Hv Hi]; unfold mview; simpl in *.
  - destruct (ds_get _ _ _ _ _ Hg) as (Hv & Hi & _ & Hrow & _). split; [auto|].
    destruct (Hrow s Hinv eq_refl) as (Hs & Hid & _). rewrite Hv. apply rtc_once.
    by apply (MRead depositMachine _ _ _ sid s).
  - destruct (ds_transition _ _ _ _ _ Ht) as (Hi & _ & [[-> _]|(now & old & Hold & Hver & ->)]);
      (split; [auto|]); [done|]. apply rtc_once. cbn.
    apply (MWrite depositMachine _ _ _ _ s w _ old); simpl; try done; [| |set_solver].
    + by exists env, stage, es.
    + split; [|by exists now]. by rewrite (ds_inv_id _ _ _ Hinv Hold).
  - destruct (ds_record _ _ _ _ _ _ _ Hr) as (Hi & _ & [[-> _]|(id & now & ->)]);
      (split; [auto|]); [done|]. cbn. unfold accumulate.
    destruct (dv_sessions (dview st) !! sid) as [s|] eqn:E; [|done]. case_decide; [|done].
    apply rtc_once, (MTouch depositMachine _ _ _ sid s); simpl; eauto.
  - destruct (ds_create _ _ _ _ _ Hc) as (Hi & _ & [[-> _]|(row & s' & es' & Hn & Hst & Hver & _ & _ & _ & Hpay & _ & _ & Hss & _ & Hob)]);
      (split; [auto|]); [done|]. rewrite Hss, Hob. apply rtc_once.
    apply (MCreate depositMachine _ _ _ (ds_ID row) row es'); simpl; try done.
    split_and!; try done. intros k. by eapply newSessionEntries_money.
  - rewrite Hv. split; [auto|done].
Qed.

Lemma dsys_rtc c c' : dinv c.1 -> rtc dsys_step c c' ->
  dinv c'.1 /\ rtc (mstep depositMachine) (mview c) (mview c').
Proof.
  intros Hinv Hr. induction Hr as [c|c c1 c2 Hs Hr IH]; [done|].
  destruct (dsys_machine _ _ Hinv Hs) as [Hinv1 H1]. destruct (IH Hinv1) as [Hinv2 H2].
  split; [done|]. by etrans.
Qed.

(** The money intents a session can have when it stands at a status. *)
Definition moneyAt (s : DepositSessionStatus) : list (list MoneyKind) :=
  match s with
  | DSPendingPayment | DSDetected | DSConfirmed | DSExpired | DSCancelled => [[]]
  | DSCrediting | DSCredited | DSHeld => [[MCredit]]
  | DSSettling | DSSettled => [[MCredit; MSettle]]
  | DSFailed => [[MCredit]; [MCredit; MSettle]]
  end.

Lemma deposit_walk_money l : walk depositEdges DSPendingPayment l ->
  (length l <= 7)%nat /\ emissions depositEmitted l ∈ moneyAt (endpoint DSPendingPayment l).
Proof.
  apply (walk_check depositEdges depositRank (mc_next_rank (M := depositMachine))
    (fun l => (length l <= 7)%nat
              /\ emissions depositEmitted l ∈ moneyAt (endpoint DSPendingPayment l))).
  apply (bool_decide_eq_true_1 (Forall _ _)). vm_compute. reflexivity.
Qed.

(** C7: Take any number of chain monitors, workers, expiry jobs and API
    calls that run the handlers of the deposit engine on one store at the same
    time, with reads, transactions and failed, successful or unnoticed writes
    in any order.  From an empty database every session only ever follows
    edges of the state machine, its version counts its at most seven moves,
    and its money intents in the outbox are exactly those of its path: none
    before CREDITING, one credit from then on, and one settlement, after the
    credit, from SETTLING on.  No interleaving credits or settles a deposit
    twice. *)
Theorem deposit_credited_once st0 st fl id s :
  dinv st0 -> dv_sessions (dview st0) = ∅ -> dv_outbox (dview st0) = [] ->
  rtc dsys_step (st0, []) (st, fl) -> dv_sessions (dview st) !! id = Some s ->
  depositMoney id (dv_outbox (dview st)) ∈ moneyAt (ds_Status s)
  /\ exists l, walk depositEdges DSPendingPayment l
     /\ ds_Status s = endpoint DSPendingPayment l
     /\ ds_Version s = Z.of_nat (length l) /\ (length l <= 7)%nat.
Proof.
  intros Hinv Hempty Hob Hr Hs. destruct (dsys_rtc (st0, []) (st, fl) Hinv Hr) as [_ Hm].
  assert (map_Forall (life depositMachine (dv_outbox (dview st))) (dv_sessions (dview st))) as Hl.
  { apply (machine_history depositMachine (mview (st0, [])) (mview (st, fl))); simpl; try done.
    intros k. by rewrite Hob. }
  destruct (Hl _ _ Hs) as (_ & l & Hw & He & Hv & Hk). simpl in *.
  destruct (deposit_walk_money l Hw) as [Hlen Hmoney]. rewrite Hk, He.
  split; [done|]. by exists l.
Qed.
End DepositSystem.

(** ** Whole handlers *)

Section Calls.
Context {L : ThirdParty} {St : Type} `{DS : !DepositStore St} {DSL : DepositStoreLaws St}.

Inductive DCall :=
| CCreate (tn : UUID) (req : CreateSessionRequest)
| CDetected (tn sid : UUID) (tx : IncomingTransaction)
| CConfirmed (tn sid : UUID) (txHash : string) (confirmations : Z)
| CCreditResult (tn sid : UUID) (r : IntentResult)
| CSettlementResult (tn sid : UUID) (r : IntentResult)
| CExpire (tn sid : UUID)
| CCancel (tn sid : UUID).

Definition call (env : DEnv) (c : DCall) (st : St) : result unit * St :=
  match c with
  | CCreate tn req => let '(r, st) := CreateSession env tn req st in
                      (let? _ := r in Ok tt, st)
  | CDetected tn sid tx => HandleTransactionDetected env tn sid tx st
  | CConfirmed tn sid h n => HandleTransactionConfirmed env tn sid h n st
  | CCreditResult tn sid r => HandleCreditResult env tn sid r st
  | CSettlementResult tn sid r => HandleSettlementResult env tn sid r st
  | CExpire tn sid => ExpireSession env tn sid st
  | CCancel tn sid => CancelSession env tn sid st
  end.

Lemma loadSession_inv step tn sid st r st' : loadSession step tn sid st = (r, st') ->
  dview st' = dview st /\ (dinv st -> dinv st') /\ (dup st -> dup st')
  /\ forall s, r = Ok s -> ds_GetSession tn sid st = (Ok s, st').
Proof.
  unfold loadSession. destruct (ds_GetSession tn sid st) as [r0 st0] eqn:E. intros [= <- <-].
  destruct (ds_get _ _ _ _ _ E) as (? & ? & ? & _). split_and!; try done.
  intros s Hr. destruct r0; [|done]. by injection Hr as ->.
Qed.

(** A read, then the stage decided on what was read. *)
Definition stageRun (step : string) (step' : DepositSession -> string) (env : DEnv) (tn sid : UUID) (stage : DStage) (st : St)
  : result unit * St :=
  let! s / st := loadSession step tn sid st in
  match stagePlan env tn sid stage s with
  | Err e => (Err e, st)
  | Ok None => (Ok tt, st)
  | Ok (Some p) => commitPlan (step' s) p st
  end.

(** The handlers in terms of stages. *)
Lemma initiateCredit_stage env tn sid h st :
  initiateCredit env tn sid h st
  = stageRun "initiate credit: loading session" (fun _ => "initiate credit") env tn sid
      (StCredit h) st.
Proof.
  unfold initiateCredit, stageRun, commitResult. cbn [stagePlan]; unfold one.
  by destruct (loadSession _ tn sid st) as [[s|] ?]; [destruct (initiateCredit_plan _ _ _ _ _)|].
Qed.

Lemma HandleTransactionConfirmed_stages env tn sid h n st :
  HandleTransactionConfirmed env tn sid h n st
  = let! _ / st := stageRun "handle tx confirmed: loading session" (fun _ => "handle tx confirmed")
                     env tn sid (StConfirmed h n) st in
    stageRun "initiate credit: loading session" (fun _ => "initiate credit") (later 5 env) tn sid
      (StCredit h) st.
Proof.
  unfold HandleTransactionConfirmed. unfold stageRun at 1. cbn [stagePlan]; unfold one.
  destruct (loadSession _ tn sid st) as [[s|] st1]; [|done]. unfold commitResult.
  destruct (HandleTransactionConfirmed_plan _ _ _ _ _ _) as [p|]; [|done].
  destruct (commitPlan _ p st1) as [[[]|] st2]; [|done]. apply initiateCredit_stage.
Qed.

Lemma routeAfterCredit_stage env tn sid st :
  routeAfterCredit env tn sid st
  = stageRun "route after credit: loading session"
      (fun s => if String.eqb (ds_SettlementPref s) SettlementPreferenceAutoConvert
                then "initiate settlement" else "hold session") env tn sid StRoute st.
Proof.
  unfold routeAfterCredit, stageRun, commitResult. cbn [stagePlan]; unfold one.
  by destruct (loadSession _ tn sid st) as [[s|] ?]; [destruct (routeAfterCredit_plan _ _)|].
Qed.

Lemma HandleCreditResult_stages env tn sid r st :
  HandleCreditResult env tn sid r st
  = let! _ / st := stageRun "handle credit result: loading session"
                     (fun _ => if ir_Success r then "handle credit result" else "fail session")
                     env tn sid (StCreditResult r) st in
    if ir_Success r then routeAfterCredit (later 5 env) tn sid st else (Ok tt, st).
Proof.
  unfold HandleCreditResult, stageRun, failSession, commitResult. cbn [stagePlan]; unfold one.
  destruct (loadSession _ tn sid st) as [[s|] st1]; [|done].
  destruct (bool_decide (ds_Status s = DSCrediting)); [|done]. simpl.
  destruct (ir_Success r); simpl.
  - by destruct (HandleCreditResult_plan _ _ _ _ _).
  - destruct (failSession_plan _ _ _ _) as [p|]; [|done]. by destruct (commitPlan _ p st1) as [[[]|] ?].
Qed.

Lemma HandleSettlementResult_stage env tn sid r st :
  HandleSettlementResult env tn sid r st
  = stageRun "handle settlement result: loading session"
      (fun _ => if ir_Success r then "handle settlement result" else "fail session")
      env tn sid (StSettlementResult r) st.
Proof.
  unfold HandleSettlementResult, stageRun, failSession, commitResult. cbn [stagePlan]; unfold one.
  destruct (loadSession _ tn sid st) as [[s|] st1]; [|done].
  destruct (bool_decide (ds_Status s = DSSettling)); [|done]. simpl.
  destruct (ir_Success r); simpl.
  - by destruct (HandleSettlementResult_plan _ _ _ _ _).
  - by destruct (failSession_plan _ _ _ _).
Qed.

Lemma CancelSession_stage env tn sid st :
  CancelSession env tn sid st
  = stageRun "cancel session: loading session" (fun _ => "cancel session") env tn sid StCancel st.
Proof.
  unfold CancelSession, stageRun, commitResult. cbn [stagePlan]; unfold one.
  by destruct (loadSession _ tn sid st) as [[s|] ?]; [destruct (CancelSession_plan _ _ _ _)|].
Qed.

Lemma ExpireSession_stage env tn sid st :
  ExpireSession env tn sid st
  = stageRun "expire session: loading session" (fun _ => "expire session") env tn sid StExpire st.
Proof. done. Qed.

(** What a whole call may do to the store: nothing that shows, one stage
    after another, a recorded transaction followed by its stage, or a new
    session. *)
Definition staged (c : DCall) : Prop :=
  match c with CCreate _ _ | CDetected _ _ _ => False | _ => True end.

Inductive effect (c : DCall) : DepositView -> DepositView -> Prop :=
| EffNone v : effect c v v
| EffStage v env sid stage s now w es : dv_sessions v !! sid = Some s -> ds_ID s = sid ->
    stagePlan env (ds_TenantID s) sid stage s = Ok (Some (w, es)) ->
    (forall tx, stage <> StDetected tx) -> staged c -> effect c v (transitionedView now s w es v)
| EffRecord v env sid tx s id now :
    dv_sessions v !! sid = Some s -> ds_ID s = sid -> c = CDetected (ds_TenantID s) sid tx ->
    effect c v (recordedView id now (depositTx env (ds_TenantID s) sid tx s) (ds_TenantID s) sid
                (it_Amount tx) v)
| EffDetected v env sid tx s id now now' w es :
    dv_sessions v !! sid = Some s -> ds_ID s = sid -> c = CDetected (ds_TenantID s) sid tx ->
    stagePlan (later 1 env) (ds_TenantID s) sid (StDetected tx) s = Ok (Some (w, es)) ->
    effect c v (transitionedView now' (accumulatedRow now s (it_Amount tx)) w es
               (recordedView id now (depositTx env (ds_TenantID s) sid tx s) (ds_TenantID s) sid
                (it_Amount tx) v))
| EffCreate v v' env tenant tn req addr row es :
    dv_sessions v !! ds_ID row = None -> ds_Status row = DSPendingPayment ->
    ds_Version row = 0 -> ds_ReceivedAmount row = NewFromInt 0 ->
    dv_sessions v' = <[ds_ID row := row]> (dv_sessions v) -> dv_txs v' = dv_txs v ->
    map oe_Payload es = map oe_Payload (newSessionEntries env tn req addr
                                          (newSession env tenant tn req addr)) ->
    dv_outbox v' = (dv_outbox v ++ es)%list -> effect c v v'.

(** A stage changes nothing that shows, or makes its move on the row it
    read; it reports success only if it had no objection to the row. *)
Lemma stageRun_cases step step' env tn sid stage st r st' :
  dinv st -> stageRun step step' env tn sid stage st = (r, st') ->
  dinv st'
  /\ (r = Ok tt -> exists s o, dv_sessions (dview st) !! sid = Some s
        /\ stagePlan env tn sid stage s = Ok o)
  /\ (dview st' = dview st \/ exists s now w es,
        dv_sessions (dview st) !! sid = Some s /\ ds_ID s = sid /\ ds_TenantID s = tn
        /\ ds_ID w = sid /\ stagePlan env tn sid stage s = Ok (Some (w, es))
        /\ dview st' = transitionedView now s w es (dview st)).
Proof.
  intros Hinv Hrun. unfold stageRun in Hrun.
  destruct (loadSession step tn sid st) as [[s|e] st1] eqn:E;
    apply loadSession_inv in E as (Hv & Hi & _ & Hg);
    [|injection Hrun as <- <-; rewrite Hv; split_and!; auto; done].
  specialize (Hg s eq_refl). destruct (ds_get _ _ _ _ _ Hg) as (_ & _ & _ & Hrow & _).
  destruct (Hrow s Hinv eq_refl) as (Hs & Hid & Htn).
  destruct (stagePlan env tn sid stage s) as [o|e] eqn:Hp;
    [|injection Hrun as <- <-; rewrite Hv; split_and!; auto; done].
  assert (forall r1 : result unit, r1 = Ok tt ->
    exists s o, dv_sessions (dview st) !! sid = Some s /\ stagePlan env tn sid stage s = Ok o)
    as Hok by eauto.
  destruct o as [[w es]|]; [|injection Hrun as <- <-; rewrite Hv; split_and!; auto; eauto].
  unfold commitPlan in Hrun. simpl in Hrun.
  destruct (ds_TransitionWithOutbox w es st1) as [r1 st2] eqn:Ht.
  assert (st2 = st') as -> by (by destruct r1; injection Hrun as _ <-).
  destruct (ds_transition _ _ _ _ _ Ht) as (Hi' & _ & Hc). split_and!; [auto|eauto|].
  destruct Hc as [[-> _]|(now & old & Hold & Hver & ->)]; rewrite Hv in *; [auto|]. right.
  subst tn. rewrite <- Hid in Hp. destruct (stagePlan_good _ _ _ _ _ Hp) as [Hwid _ _ _ _].
  simpl in Hwid. rewrite Hid in *. rewrite Hwid, Hs in Hold. simplify_eq. eauto 10.
Qed.

Lemma stageRun_effect c step step' env tn sid stage st r st' :
  staged c -> (forall tx, stage <> StDetected tx) ->
  dinv st -> stageRun step step' env tn sid stage st = (r, st') ->
  dinv st' /\ effect c (dview st) (dview st').
Proof.
  intros Hst Hnd Hinv Hrun.
  destruct (stageRun_cases _ _ _ _ _ _ _ _ _ Hinv Hrun)
    as (Hi & _ & [->|(s & now & w & es & Hs & Hid & <- & Hw & Hp & ->)]);
    (split; [done|]); [apply EffNone|by eapply EffStage].
Qed.

Lemma sequel_effects c (x : result unit * St) (k : St -> result unit * St) v r st' :
  dinv x.2 -> rtc (effect c) v (dview x.2) ->
  (forall st r st', dinv st -> k st = (r, st') -> dinv st' /\ rtc (effect c) (dview st) (dview st')) ->
  (let! _ / st := x in k st) = (r, st') -> dinv st' /\ rtc (effect c) v (dview st').
Proof.
  destruct x as [[[]|e] st]; simpl; intros Hi He Hk Hx; [|by injection Hx as <- <-].
  destruct (Hk st r st' Hi Hx) as [Hi' He']. split; [done|]. by etrans.
Qed.

Lemma stageRun_effects c step step' env tn sid stage st r st' :
  staged c -> (forall tx, stage <> StDetected tx) ->
  dinv st -> stageRun step step' env tn sid stage st = (r, st') ->
  dinv st' /\ rtc (effect c) (dview st) (dview st').
Proof.
  intros Hst Hnd Hi Hr. destruct (stageRun_effect c _ _ _ _ _ _ _ _ _ Hst Hnd Hi Hr).
  split; [done|]. by apply rtc_once.
Qed.

Lemma detected_effect env tn sid tx st r st' :
  dinv st -> HandleTransactionDetected env tn sid tx st = (r, st') ->
  dinv st' /\ effect (CDetected tn sid tx) (dview st) (dview st').
Proof.
  intros Hinv. unfold HandleTransactionDetected, recordDetected, moveDetected.
  destruct (loadSession _ tn sid st) as [[s|e] st1] eqn:E;
    apply loadSession_inv in E as (Hv & Hi & _ & Hg);
    [|intros [= <- <-]; rewrite Hv; auto using EffNone].
  specialize (Hg s eq_refl). destruct (ds_get _ _ _ _ _ Hg) as (_ & _ & _ & Hrow & _).
  destruct (Hrow s Hinv eq_refl) as (Hs & Hid & <-).
  destruct (ds_GetDepositTxByHash _ _ st1) as [r2 st2] eqn:E2.
  destruct (ds_byhash _ _ _ _ _ E2) as (Hv2 & Hi2 & _).
  destruct r2 as [t|]; [intros [= <- <-]; rewrite Hv2, Hv; auto using EffNone|].
  destruct (ds_RecordDepositTx _ _ _ _ st2) as [r3 st3] eqn:E3.
  destruct (ds_record _ _ _ _ _ _ _ E3) as (Hi3 & _ & Hc). rewrite Hv2, Hv in Hc.
  destruct Hc as [[Hv3 Hr3]|(id & now & Hv3)].
  { destruct r3; [done|]. intros [= <- <-]. rewrite Hv3. auto using EffNone. }
  destruct r3 as [t|]; [|intros [= <- <-]; rewrite Hv3; split; [auto|by eapply EffRecord]].
  destruct (HandleTransactionDetected_plan _ _ _ _ _) as [[[w es]|]|] eqn:Hp;
    [|intros [= <- <-]; rewrite Hv3; split; [auto|by eapply EffRecord]..].
  unfold commitPlan. simpl. destruct (ds_TransitionWithOutbox w es st3) as [r4 st4] eqn:E4.
  intros Hr. assert (st4 = st') as -> by (by destruct r4; injection Hr as _ <-).
  destruct (ds_transition _ _ _ _ _ E4) as (Hi4 & _ & Hc). split; [auto|].
  destruct Hc as [[-> _]|(now' & old & Hold & Hver & ->)]; rewrite Hv3 in *;
    [by eapply EffRecord|].
  destruct (detected_good (later 1 env) tx s w es) as [Hwid _ _ _ _]; [by rewrite Hid|].
  simpl in Hwid. rewrite Hwid, Hid in Hold. unfold recordedView, accumulate in Hold. simpl in Hold.
  rewrite Hs, decide_True, lookup_insert_eq in Hold by done. simplify_eq.
  by eapply EffDetected.
Qed.

Lemma create_effect c env tn req st r st' :
  dinv st -> CreateSession env tn req st = (r, st') -> dinv st' /\ effect c (dview st) (dview st').
Proof.
  intros Hinv. unfold CreateSession.
  destruct (wrap _ (de_GetTenant env 0 tn)) as [tenant|]; [|intros [= <- <-]; auto using EffNone].
  destruct (checkRequest tenant req); [|intros [= <- <-]; auto using EffNone].
  destruct (checkPendingLimit tenant tn st) as [r1 st1] eqn:E1.
  assert (dview st1 = dview st /\ dinv st1) as [Hv1 Hi1].
  { unfold checkPendingLimit in E1. destruct (0 <? _); [|by injection E1 as <- <-].
    destruct (ds_CountPendingSessions tn st) as [[n|] st0] eqn:E;
      destruct (ds_count _ _ _ _ E) as (? & ? & _).
    - destruct (_ <=? n); injection E1 as <- <-; auto.
    - injection E1 as <- <-; auto. }
  destruct r1 as [[]|]; [|intros [= <- <-]; rewrite Hv1; auto using EffNone].
  assert (forall st2, dview st2 = dview st -> dinv st2 -> createFresh env tenant tn req st2 = (r, st') ->
    dinv st' /\ effect c (dview st) (dview st')) as Hfresh.
  { intros st2 Hv2 Hi2. unfold createFresh.
    destruct (ds_DispenseAddress _ _ _ st2) as [[[addr|]|] st3] eqn:E3;
      destruct (ds_dispense _ _ _ _ _ _ E3) as (Hv3 & Hi3 & _);
      [|intros [= <- <-]; rewrite Hv3, Hv2; auto using EffNone..].
    destruct (ds_CreateSessionWithOutbox _ _ st3) as [r4 st4] eqn:E4. intros [= _ <-].
    destruct (ds_create _ _ _ _ _ E4) as (Hi4 & _ & Hc). split; [auto|].
    rewrite Hv3, Hv2 in Hc.
    destruct Hc as [[-> _]|(row & s' & es' & Hn & Hst & Hver & Htn & _ & Hrec & Hpay & _ & _ & Hss & Htx & Hob)];
      [apply EffNone|]. by eapply EffCreate. }
  destruct (String.eqb _ ""); [by apply Hfresh|].
  destruct (ds_GetSessionByIdempotencyKey _ _ st1) as [[s|] st2] eqn:E2;
    destruct (ds_idem _ _ _ _ _ E2) as (Hv2 & Hi2 & _); rewrite Hv1 in Hv2.
  - intros [= <- <-]. rewrite Hv2. auto using EffNone.
  - apply Hfresh; auto.
Qed.

Lemma call_effects env c st r st' :
  dinv st -> call env c st = (r, st') -> dinv st' /\ rtc (effect c) (dview st) (dview st').
Proof.
  intros Hi. destruct c as [tn req|tn sid tx|tn sid h n|tn sid x|tn sid x|tn sid|tn sid]; cbn [call].
  - destruct (CreateSession env tn req st) as [r0 st0] eqn:E. intros [= _ <-].
    destruct (create_effect (CCreate tn req) _ _ _ _ _ _ Hi E). split; [done|]. by apply rtc_once.
  - intros E. destruct (detected_effect _ _ _ _ _ _ _ Hi E). split; [done|]. by apply rtc_once.
  - rewrite HandleTransactionConfirmed_stages.
    destruct (stageRun _ _ env tn sid (StConfirmed h n) st) as [r1 st1] eqn:E.
    destruct (fun H => stageRun_effects (CConfirmed tn sid h n) _ _ _ _ _ _ _ _ _ I H Hi E) as [Hi1 He1]; [done|].
    apply (sequel_effects _ (r1, st1)); [done..|]. intros st2 r2 st2'. by apply stageRun_effects.
  - rewrite HandleCreditResult_stages.
    destruct (stageRun _ _ env tn sid (StCreditResult x) st) as [r1 st1] eqn:E.
    destruct (fun H => stageRun_effects (CCreditResult tn sid x) _ _ _ _ _ _ _ _ _ I H Hi E) as [Hi1 He1]; [done|].
    apply (sequel_effects _ (r1, st1) (fun st => if ir_Success x
      then routeAfterCredit (later 5 env) tn sid st else (Ok tt, st))); [done..|].
    intros st2 r2 st2' Hi2. destruct (ir_Success x); [|intros [= <- <-]; auto using rtc_refl].
    rewrite routeAfterCredit_stage. by apply stageRun_effects.
  - rewrite HandleSettlementResult_stage. by apply stageRun_effects.
  - rewrite ExpireSession_stage. by apply stageRun_effects.
  - rewrite CancelSession_stage. by apply stageRun_effects.
Qed.

(** *** A handler is a run of the system *)

Definition runs (st st' : St) : Prop :=
  dinv st' /\ forall fl, exists fl', rtc dsys_step (st, fl) (st', fl').

Lemma runs_refl st : dinv st -> runs st st.
Proof. intros Hi. split; [done|]. intros fl. exists fl. apply rtc_refl. Qed.

Lemma runs_trans st1 st2 st3 : runs st1 st2 -> (dinv st2 -> runs st2 st3) -> runs st1 st3.
Proof.
  intros [Hi2 H12] H23. destruct (H23 Hi2) as [Hi3 H23']. split; [done|]. intros fl.
  destruct (H12 fl) as [fl2 Hr2]. destruct (H23' fl2) as [fl3 Hr3]. exists fl3. by etrans.
Qed.

Lemma runs_other st st' : dinv st -> dview st' = dview st -> (dinv st -> dinv st') -> runs st st'.
Proof.
  intros Hi Hv Hi'. split; [auto|]. intros fl. exists fl. apply rtc_once. by apply DSysOther.
Qed.

(** Reading a session and acting on it. *)
Lemma runs_read step tn sid st r st1 : dinv st -> loadSession step tn sid st = (r, st1) ->
  dinv st1 /\ match r with
  | Err _ => runs st st1
  | Ok s => ds_ID s = sid /\ ds_TenantID s = tn /\ runs st st1
            /\ forall st2 fl fl', rtc dsys_step (st1, s :: fl) (st2, fl') ->
               rtc dsys_step (st, fl) (st2, fl')
  end.
Proof.
  intros Hinv E. apply loadSession_inv in E as (Hv & Hi & _ & Hg). split; [auto|].
  destruct r as [s|e]; [|by apply runs_other]. specialize (Hg s eq_refl).
  destruct (ds_get _ _ _ _ _ Hg) as (_ & _ & _ & Hrow & _).
  destruct (Hrow s Hinv eq_refl) as (Hs & Hid & Htn). split_and!; try done; [by apply runs_other|].
  intros st2 fl fl' Hr. eapply rtc_l; [|done]. by eapply DSysRead.
Qed.

Lemma commit_runs env stage s step w es st st1 r fl :
  stagePlan env (ds_TenantID s) (ds_ID s) stage s = Ok (Some (w, es)) -> dinv st ->
  commitPlan step (w, es) st = (r, st1) -> dinv st1 /\ dsys_step (st, s :: fl) (st1, s :: fl).
Proof.
  intros Hp Hi. unfold commitPlan. simpl.
  destruct (ds_TransitionWithOutbox w es st) as [r0 st0] eqn:E. intros Hr.
  assert (st0 = st1) as -> by (by destruct r0; injection Hr as _ <-).
  destruct (ds_transition _ _ _ _ _ E) as (Hi' & _). split; [auto|].
  eapply DSysWrite; [|done..]. set_solver.
Qed.

Lemma stageRun_runs step step' env tn sid stage st r st' :
  dinv st -> stageRun step step' env tn sid stage st = (r, st') -> runs st st'.
Proof.
  intros Hi. unfold stageRun. destruct (loadSession step tn sid st) as [[s|e] st1] eqn:E;
    destruct (runs_read _ _ _ _ _ _ Hi E) as [Hi1 H1]; [|by intros [= <- <-]].
  destruct H1 as (<- & <- & H1 & Hread).
  destruct (stagePlan _ _ _ stage s) as [[[w es]|]|] eqn:Hp; [|by intros [= <- <-]..].
  intros Hc. split; [by apply (commit_runs env stage s _ w es st1 st' r [] Hp Hi1 Hc)|].
  intros fl. exists (s :: fl). apply Hread, rtc_once.
  by apply (commit_runs env stage s _ w es st1 st' r fl Hp Hi1 Hc).
Qed.

Lemma detected_runs env tn sid tx st r st' :
  dinv st -> HandleTransactionDetected env tn sid tx st = (r, st') -> runs st st'.
Proof.
  intros Hi. unfold HandleTransactionDetected, recordDetected, moveDetected.
  destruct (loadSession _ tn sid st) as [[s|e] st1] eqn:E;
    destruct (runs_read _ _ _ _ _ _ Hi E) as [Hi1 H1]; [|by intros [= <- <-]].
  destruct H1 as (<- & <- & H1 & Hread).
  destruct (ds_GetDepositTxByHash _ _ st1) as [r2 st2] eqn:E2.
  destruct (ds_byhash _ _ _ _ _ E2) as (Hv2 & Hi2 & _).
  destruct r2 as [t|].
  { intros [= <- <-]. apply (runs_trans _ st1); [done|]. intros _. by apply runs_other. }
  destruct (ds_RecordDepositTx _ _ _ _ st2) as [r3 st3] eqn:E3.
  destruct (ds_record _ _ _ _ _ _ _ E3) as (Hi3 & _ & _).
  assert (forall fl, rtc dsys_step (st, fl) (st3, s :: fl)) as H3.
  { intros fl. apply Hread. eapply rtc_l; [by apply (DSysOther st1 _ st2)|].
    apply rtc_once. by eapply DSysRecord. }
  assert (runs st st3) by (split; [auto|eauto]).
  destruct r3 as [t|]; [|by intros [= <- <-]].
  destruct (HandleTransactionDetected_plan _ _ _ _ _) as [[[w es]|]|] eqn:Hp; [|by intros [= <- <-]..].
  intros Hc. assert (forall fl, dinv st' /\ dsys_step (st3, s :: fl) (st', s :: fl)) as H4.
  { intros fl. apply (commit_runs (later 1 env) (StDetected tx) s "handle tx detected" w es st3 st' r); auto. }
  split; [apply (H4 [])|]. intros fl. exists (s :: fl). eapply rtc_r; [apply H3|apply H4].
Qed.

Lemma create_runs env tn req st r st' :
  dinv st -> CreateSession env tn req st = (r, st') -> runs st st'.
Proof.
  intros Hi. unfold CreateSession.
  destruct (wrap _ (de_GetTenant env 0 tn)) as [tenant|]; [|intros [= <- <-]; by apply runs_refl].
  destruct (checkRequest tenant req); [|intros [= <- <-]; by apply runs_refl].
  destruct (checkPendingLimit tenant tn st) as [r1 st1] eqn:E1.
  assert (runs st st1) as H1.
  { unfold checkPendingLimit in E1. destruct (0 <? _); [|injection E1 as <- <-; by apply runs_refl].
    destruct (ds_CountPendingSessions tn st) as [[n|] st0] eqn:E;
      destruct (ds_count _ _ _ _ E) as (? & ? & _).
    - destruct (_ <=? n); injection E1 as <- <-; by apply runs_other.
    - injection E1 as <- <-; by apply runs_other. }
  destruct r1 as [[]|]; [|by intros [= <- <-]].
  assert (forall st2, dinv st2 -> createFresh env tenant tn req st2 = (r, st') -> runs st2 st')
    as Hfresh.
  { intros st2 Hi2. unfold createFresh.
    destruct (ds_DispenseAddress _ _ _ st2) as [r3 st3] eqn:E3.
    destruct (ds_dispense _ _ _ _ _ _ E3) as (Hv3 & Hi3 & _).
    assert (runs st2 st3) as H3 by (by apply runs_other).
    destruct r3 as [[addr|]|]; [|by intros [= <- <-]..].
    destruct (ds_CreateSessionWithOutbox _ _ st3) as [r4 st4] eqn:E4. intros [= _ <-].
    destruct (ds_create _ _ _ _ _ E4) as (Hi4 & _ & _). apply (runs_trans _ st3); [done|].
    intros Hi3'. split; [auto|]. intros fl. exists fl. apply rtc_once. by eapply DSysCreate. }
  destruct (String.eqb _ "").
  { intros Hf. apply (runs_trans _ st1); [done|]. intros. by apply Hfresh. }
  destruct (ds_GetSessionByIdempotencyKey _ _ st1) as [[s|] st2] eqn:E2;
    destruct (ds_idem _ _ _ _ _ E2) as (Hv2 & Hi2 & _); intros Hr;
    (apply (runs_trans _ st1); [done|]; intros Hi1).
  - injection Hr as <- <-. by apply runs_other.
  - apply (runs_trans _ st2); [by apply runs_other|]. intros. by apply Hfresh.
Qed.

(** Handlers called one after another are runs of the system of
    [dsys_step]. *)
Lemma call_runs env c st r st' : dinv st -> call env c st = (r, st') -> runs st st'.
Proof.
  intros Hi. destruct c as [tn req|tn sid tx|tn sid h n|tn sid x|tn sid x|tn sid|tn sid]; simpl.
  - destruct (CreateSession env tn req st) as [r0 st0] eqn:E. intros [= _ <-]. by eapply create_runs.
  - by apply detected_runs.
  - rewrite HandleTransactionConfirmed_stages.
    destruct (stageRun _ _ env tn sid (StConfirmed h n) st) as [[[]|] st1] eqn:E;
      apply stageRun_runs in E; try done; intros Hr; [|by injection Hr as <- <-].
    apply (runs_trans _ st1); [done|]. intros. by eapply stageRun_runs.
  - rewrite HandleCreditResult_stages.
    destruct (stageRun _ _ env tn sid (StCreditResult x) st) as [[[]|] st1] eqn:E;
      apply stageRun_runs in E; try done; intros Hr; [|by injection Hr as <- <-].
    apply (runs_trans _ st1); [done|]. intros Hi1.
    destruct (ir_Success x); [|injection Hr as <- <-; by apply runs_refl].
    rewrite routeAfterCredit_stage in Hr. by eapply stageRun_runs.
  - rewrite HandleSettlementResult_stage. by apply stageRun_runs.
  - rewrite ExpireSession_stage. by apply stageRun_runs.
  - rewrite CancelSession_stage. by apply stageRun_runs.
Qed.
End Calls.
