(* ===== verification/DepositBooks.v ===== *)
(** * core/deposit: amounts, replays and stuck sessions

    Handlers that run one after another keep the received amount of every
    session equal to the sum of its recorded transactions, whatever the
    database does to their calls.  A detected transaction is processed at most
    once, CONFIRMED and CREDITED are dead ends for the public handlers, and
    three runs show what an interleaving, a failed lookup and an early second
    payment do to the amounts. *)

From Stdlib Require Import QArith Lqa.
From S2P Require Import Prelude ThirdParty Sql Machine Money Deposits Transfer Outbox TransferStore DepositStore DepositEngine DepositProps.
Local Open Scope string_scope.
Local Open Scope Z_scope.

Section Books.
Context {L : ThirdParty} {LL : ThirdPartyLaws L}.

(** The sum of the transactions recorded for a session. *)
Definition paid (id : UUID) (txs : list DepositTransaction) : Q :=
  foldr (fun t acc => if decide (dt_SessionID t = id) then dVal (dt_Amount t) + acc else acc)%Q
    0%Q txs.

(** A non-negative amount of at most eight digits. *)
Definition grain (q : Q) : Prop := exists z, 0 <= z /\ (q == z # Z.to_pos (10 ^ 8))%Q.

Definition books_ok (v : DepositView) : Prop :=
  (forall id s, dv_sessions v !! id = Some s ->
     grain (dVal (ds_ReceivedAmount s)) /\ (dVal (ds_ReceivedAmount s) == paid id (dv_txs v))%Q)
  /\ forall t, t ∈ dv_txs v -> is_Some (dv_sessions v !! dt_SessionID t).

Lemma paid_app id txs t :
  (paid id (txs ++ [t])
   == paid id txs + if decide (dt_SessionID t = id) then dVal (dt_Amount t) else 0)%Q.
Proof.
  induction txs as [|x txs IH]; simpl; [case_decide; ring|].
  destruct (decide (dt_SessionID x = id)); [|exact IH]. setoid_rewrite IH. ring.
Qed.

Lemma paid_none id txs : (forall t, t ∈ txs -> dt_SessionID t <> id) -> (paid id txs == 0)%Q.
Proof.
  induction txs as [|x txs IH]; intros Hx; simpl; [reflexivity|].
  rewrite decide_False by (apply Hx; set_solver). apply IH. set_solver.
Qed.

Lemma grain_0 : grain (dVal (NewFromInt 0)).
Proof. exists 0. split; [lia|]. rewrite NewFromInt_val. reflexivity. Qed.

Lemma grain_round a : grain (dVal a) -> (dVal (dRound 8 a) == dVal a)%Q.
Proof.
  intros (z & Hz & Hq). rewrite dRound_val. apply (Qround_places_exact 8 z).
  rewrite Hq. change (Z.of_nat 8) with 8. rewrite (Qmake_inject z (10 ^ 8)) by lia. field.
  intros H. pose proof (inject_Z_pos (10 ^ 8) ltac:(lia)). lra.
Qed.

(** NUMERIC(28,8) of a sum whose first part is a column already. *)
Lemma grain_add a b : grain (dVal a) -> (0 <= dVal b)%Q ->
  grain (dVal (dRound 8 (dAdd a b)))
  /\ (dVal (dRound 8 (dAdd a b)) == dVal a + dVal (dRound 8 b))%Q.
Proof.
  intros (z & Hz & Hq) Hb.
  assert (dVal (dRound 8 (dAdd a b)) == dVal a + dVal (dRound 8 b))%Q as Hsum.
  { rewrite !dRound_val, dAdd_val, Hq. by apply (Qround_places_grain 8 z). }
  split; [|done].
  assert (0 <= Qround_int (dVal b * inject_Z (10 ^ 8))) as Hr.
  { change 0 with (Qround_int (inject_Z 0)). apply Qround_int_mono.
    apply Qmult_le_0_compat; [done|]. apply Qlt_le_weak, inject_Z_pos. lia. }
  exists (z + Qround_int (dVal b * inject_Z (10 ^ 8))). split; [lia|].
  rewrite Hsum, Hq, dRound_val. unfold Qround_places. change (Z.of_nat 8) with 8.
  unfold Qeq, Qplus. simpl. lia.
Qed.

(** What the stages do to the received amount. *)
Lemma stagePlan_received env stage s w es :
  (forall tx, stage <> StDetected tx) ->
  stagePlan env (ds_TenantID s) (ds_ID s) stage s = Ok (Some (w, es)) ->
  ds_ReceivedAmount w = ds_ReceivedAmount s.
Proof.
  intros Hnd. destruct stage as [tx|h n|h|r| |r| |]; cbn [stagePlan];
    try (by destruct (Hnd tx)); unfold one, routeAfterCredit_plan, HandleTransactionConfirmed_plan,
    initiateCredit_plan, failSession_plan, HandleCreditResult_plan, initiateSettlement_plan,
    holdSession_plan, HandleSettlementResult_plan, ExpireSession_plan, CancelSession_plan;
    cbv zeta; repeat case_match; intros; simplify_eq;
    repeat match goal with H : moveTo _ _ _ _ = Ok _ |- _ => apply moveTo_ok in H; subst end;
    simplify_eq; done.
Qed.

Lemma detected_received env tn sid tx s w es :
  HandleTransactionDetected_plan env tn sid tx s = Ok (Some (w, es)) ->
  ds_ReceivedAmount w = dAdd (ds_ReceivedAmount s) (it_Amount tx) /\ ds_ID w = ds_ID s.
Proof.
  unfold HandleTransactionDetected_plan. cbv zeta. repeat case_match; intros; simplify_eq;
    repeat match goal with H : moveTo _ _ _ _ = Ok _ |- _ => apply moveTo_ok in H; subst end; done.
Qed.

Lemma books_transition v now old w es :
  books_ok v -> dv_sessions v !! ds_ID w = Some old ->
  (dVal (dRound 8 (ds_ReceivedAmount w)) == dVal (ds_ReceivedAmount old))%Q ->
  books_ok (transitionedView now old w es v).
Proof.
  intros [Hs Ht] Hold Hr. split; simpl.
  - intros id s. destruct (decide (id = ds_ID w)) as [->|Hne].
    + rewrite lookup_insert_eq. intros [= <-]. simpl.
      destruct (Hs _ _ Hold) as [(z & Hz & Hq) Hp]. split; [exists z; by rewrite Hr|by rewrite Hr].
    + rewrite lookup_insert_ne by done. apply Hs.
  - intros t Hin. destruct (decide (dt_SessionID t = ds_ID w)) as [->|Hne];
      [rewrite lookup_insert_eq|rewrite lookup_insert_ne by done; apply Ht]; done.
Qed.

Lemma books_record v id now tx sid s amount :
  books_ok v -> dv_sessions v !! sid = Some s -> dt_SessionID tx = sid -> dt_Amount tx = amount ->
  (0 <= dVal amount)%Q -> books_ok (recordedView id now tx (ds_TenantID s) sid amount v).
Proof.
  intros [Hs Ht] Hrow Hsid <- Hpos. unfold recordedView, accumulate.
  rewrite Hrow, decide_True by done. split; simpl.
  - intros k s'. rewrite paid_app. simpl. rewrite Hsid.
    destruct (decide (k = sid)) as [->|Hne].
    + rewrite lookup_insert_eq, decide_True by done. intros [= <-]. simpl.
      destruct (Hs _ _ Hrow) as [Hg Hp]. destruct (grain_add _ _ Hg Hpos) as [Hg' Hv].
      split; [done|]. by rewrite Hv, Hp.
    + rewrite lookup_insert_ne, decide_False by done. intros Hs'. rewrite Qplus_0_r. by apply Hs.
  - intros t [Hin|Hin%list_elem_of_singleton]%elem_of_app; simpl.
    + destruct (decide (dt_SessionID t = sid)) as [->|Hne];
        [rewrite lookup_insert_eq|rewrite lookup_insert_ne by done; apply Ht]; done.
    + subst t. simpl. by rewrite Hsid, lookup_insert_eq.
Qed.

(** The payments of a call are not negative. *)
Definition pays_forward (c : DCall) : Prop :=
  match c with CDetected _ _ tx => (0 <= dVal (it_Amount tx))%Q | _ => True end.

Lemma books_effect c v v' : pays_forward c -> books_ok v -> effect c v v' -> books_ok v'.
Proof.
  intros Hpay Hb He. destruct He as
    [v|v env sid stage s now w es Hs Hid Hp Hnd _|v env sid tx s id now Hs Hid ->
    |v env sid tx s id now now' w es Hs Hid -> Hp
    |v v' env tenant tn req addr row es Hn _ _ Hr Hss Htx _ _].
  - done.
  - subst sid. destruct (stagePlan_good _ _ _ _ _ Hp) as [Hw _ _ _ _]. simpl in Hw.
    apply books_transition; [done|by rewrite Hw|].
    rewrite (stagePlan_received _ _ _ _ _ Hnd Hp). apply grain_round. by apply Hb in Hs as [? _].
  - by apply books_record.
  - destruct (detected_received _ _ _ _ _ _ _ Hp) as [Hr Hw].
    apply books_transition; [by apply books_record| |].
    + unfold recordedView, accumulate. simpl.
      by rewrite Hs, decide_True, Hw, Hid, lookup_insert_eq by done.
    + by rewrite Hr.
  - destruct Hb as [Hs Ht]. split.
    + intros id s. rewrite Hss, Htx. destruct (decide (id = ds_ID row)) as [->|Hne].
      * rewrite lookup_insert_eq. intros [= <-]. rewrite Hr. split; [apply grain_0|].
        rewrite paid_none, NewFromInt_val; [reflexivity|]. intros t Hin Hx.
        apply Ht in Hin as [s Hs']. rewrite Hx, Hn in Hs'. done.
      * rewrite lookup_insert_ne by done. apply Hs.
    + intros t. rewrite Hss, Htx. intros [s Hs']%Ht. rewrite lookup_insert_ne; [by exists s|].
      intros Hx. by rewrite <- Hx, Hn in Hs'.
Qed.

Context {St : Type} `{DS : !DepositStore St} {DSL : DepositStoreLaws St}.

(** Calls one after another. *)
Fixpoint runCalls (l : list (DEnv * DCall)) (st : St) : St :=
  match l with
  | [] => st
  | (env, c) :: l => runCalls l (call env c st).2
  end.

Lemma runCalls_books l st : dinv st -> books_ok (dview st) -> Forall (fun x => pays_forward x.2) l ->
  books_ok (dview (runCalls l st)).
Proof.
  revert st. induction l as [|[env c] l IH]; intros st Hi Hb Hl; [done|].
  apply Forall_cons in Hl as [Hc Hl]. simpl. destruct (call env c st) as [r st'] eqn:E.
  destruct (call_effects _ _ _ _ _ Hi E) as [Hi' He]. apply IH; [done| |done]. simpl.
  revert Hb. apply (invariant_rtc (effect c) books_ok); [|done].
  intros v v' Hv. by apply books_effect.
Qed.

(** C27: Handlers that run one after another keep the books of every
    session: from an empty database, and for any sequence of calls with
    non-negative payments, the received amount of a session is exactly the sum
    of the transactions recorded for it, also when the database fails calls or
    loses their answers, and with the rounding of the columns taken into
    account. *)
Theorem received_is_paid l st id s :
  dinv st -> dv_sessions (dview st) = ∅ -> dv_txs (dview st) = [] ->
  Forall (fun x => pays_forward x.2) l ->
  dv_sessions (dview (runCalls l st)) !! id = Some s ->
  (dVal (ds_ReceivedAmount s) == paid id (dv_txs (dview (runCalls l st))))%Q.
Proof.
  intros Hi Hs Ht Hl Hrow. assert (books_ok (dview st)) as Hb.
  { split; [intros k s0; by rewrite Hs|]. rewrite Ht. set_solver. }
  by apply (runCalls_books l st Hi Hb Hl).
Qed.

(** ** Replays *)

(** A transaction that is on record is never processed again: while the
    database answers, [HandleTransactionDetected] for the same chain and hash
    returns nil and leaves sessions, transactions and outbox as they are.  The
    handler relies on it for deduplication; it also means that a call that
    recorded the transaction and then failed to move the session to DETECTED
    is not made good by its retry. *)
Theorem recorded_tx_is_skipped env tn sid tx st t s r st' :
  dinv st -> dup st -> t ∈ dv_txs (dview st) -> isTx (it_Chain tx) (it_TxHash tx) t = true ->
  dv_sessions (dview st) !! sid = Some s -> ds_TenantID s = tn ->
  HandleTransactionDetected env tn sid tx st = (r, st') ->
  r = Ok tt /\ dview st' = dview st.
Proof.
  intros Hi Hu Ht Hx Hs Htn. unfold HandleTransactionDetected, loadSession, recordDetected.
  destruct (ds_GetSession tn sid st) as [r1 st1] eqn:E1.
  destruct (ds_get _ _ _ _ _ E1) as (Hv1 & _ & Hu1 & _ & Hfound).
  rewrite (Hfound s Hu Hs Htn). simpl.
  destruct (ds_GetDepositTxByHash (it_Chain tx) (it_TxHash tx) st1) as [r2 st2] eqn:E2.
  destruct (ds_byhash _ _ _ _ _ E2) as (Hv2 & _ & _ & _ & Hdup). rewrite Hv1 in *.
  specialize (Hdup t (Hu1 Hu) Ht Hx). destruct r2; [|done]. intros [= <- <-].
  by rewrite Hv2.
Qed.

(** ** Dead ends *)

Definition standsAt (id : UUID) (x : DepositSessionStatus) (v : DepositView) : Prop :=
  exists s, dv_sessions v !! id = Some s /\ ds_Status s = x.

(** Statuses whose next move belongs to a second stage of a handler. *)
Definition midway (x : DepositSessionStatus) : Prop := x = DSConfirmed \/ x = DSCredited.

Lemma transitioned_other now old w es v id : id <> ds_ID w ->
  dv_sessions (transitionedView now old w es v) !! id = dv_sessions v !! id.
Proof. intros Hne. simpl. by rewrite lookup_insert_ne. Qed.

(** The entry stages refuse a session that is midway. *)
Lemma stage_refuses env tn sid stage s : midway (ds_Status s) ->
  match stage with StCredit _ | StRoute => False | _ => True end ->
  stagePlan env tn sid stage s = Ok None \/ exists e, stagePlan env tn sid stage s = Err e.
Proof.
  intros Hm Hst. destruct stage; try done; cbn [stagePlan]; unfold one,
    HandleTransactionDetected_plan, DepositSession_CanTransitionTo,
    HandleTransactionConfirmed_plan, ExpireSession_plan, CancelSession_plan;
    destruct Hm as [-> | ->]; simpl; eauto.
Qed.

Lemma stageRun_keeps id x step step' env tn sid stage st r st' :
  midway x -> match stage with StCredit _ | StRoute => False | _ => True end ->
  dinv st -> standsAt id x (dview st) -> stageRun step step' env tn sid stage st = (r, st') ->
  dinv st' /\ standsAt id x (dview st')
  /\ (sid = id -> r = Ok tt -> exists s, dv_sessions (dview st) !! id = Some s
        /\ stagePlan env tn sid stage s = Ok None).
Proof.
  intros Hm Hst Hi (s & Hs & Hx) Hr.
  destruct (stageRun_cases _ _ _ _ _ _ _ _ _ Hi Hr) as (Hi' & Hok & Hc). split_and!; [done| |].
  - destruct Hc as [->|(s' & now & w & es & Hs' & _ & _ & Hw & Hp & ->)]; [by exists s|].
    destruct (decide (id = sid)) as [->|Hne].
    + rewrite Hs in Hs'. simplify_eq. destruct (stage_refuses env tn (ds_ID w) stage s') as [H|[e H]];
        [done|done|by rewrite H in Hp..].
    + exists s. rewrite transitioned_other by congruence. done.
  - intros -> Ho. destruct (Hok Ho) as (s' & o & Hs' & Hp). rewrite Hs in Hs'. simplify_eq.
    exists s'. split; [done|]. destruct (stage_refuses env tn id stage s') as [H|[e H]]; [done..| |].
    + done.
    + by rewrite H in Hp.
Qed.

(** A second stage on another session. *)
Lemma stageRun_elsewhere id x step step' env tn sid stage st r st' :
  sid <> id -> dinv st -> standsAt id x (dview st) ->
  stageRun step step' env tn sid stage st = (r, st') -> standsAt id x (dview st').
Proof.
  intros Hne Hi (s & Hs & Hx) Hr.
  destruct (stageRun_cases _ _ _ _ _ _ _ _ _ Hi Hr) as (_ & _ & [->|(s' & now & w & es & _ & _ & _ & Hw & _ & ->)]);
    [by exists s|]. exists s. rewrite transitioned_other by congruence. done.
Qed.

Lemma one_none {A} (r : result A) : one r <> Ok None.
Proof. unfold one. by destruct r. Qed.

(** Recording a payment and creating a session do not move a session. *)
Lemma effect_keeps id x c v v' :
  midway x -> ~ staged c -> effect c v v' -> standsAt id x v -> standsAt id x v'.
Proof.
  intros Hm Hns He (s & Hs & Hx). destruct He as
    [v|v env sid stage s' now w es Hs' Hid Hp Hnd Hst|v env sid tx s' n now Hs' Hid ->
    |v env sid tx s' n now now' w es Hs' Hid -> Hp
    |v v' env tenant tn req addr row es Hn _ _ Hr Hss Htx _ _].
  - by exists s.
  - done.
  - unfold standsAt, recordedView, accumulate. simpl. rewrite Hs', decide_True by done.
    destruct (decide (id = sid)) as [->|Hne].
    + rewrite lookup_insert_eq. rewrite Hs in Hs'. simplify_eq. by eexists.
    + rewrite lookup_insert_ne by done. by exists s.
  - destruct (detected_received _ _ _ _ _ _ _ Hp) as [_ Hw].
    destruct (decide (id = sid)) as [->|Hne].
    + rewrite Hs in Hs'. simplify_eq.
      destruct (stage_refuses (later 1 env) (ds_TenantID s') (ds_ID s') (StDetected tx) s') as [H|[e H]];
        [done|done| |]; simpl in *; by rewrite H in Hp.
    + exists s. rewrite transitioned_other by congruence. unfold recordedView, accumulate. simpl.
      by rewrite Hs', decide_True, lookup_insert_ne by done.
  - exists s. rewrite Hss, lookup_insert_ne; [done|]. intros Heq. by rewrite Heq, Hs in Hn.
Qed.

Lemma call_keeps id x env c st :
  midway x -> dinv st -> standsAt id x (dview st) ->
  dinv (call env c st).2 /\ standsAt id x (dview (call env c st).2).
Proof.
  intros Hm Hi Hx. destruct (call env c st) as [r st'] eqn:E. simpl.
  destruct (call_effects _ _ _ _ _ Hi E) as [Hi' He]. split; [done|].
  destruct c as [tn req|tn sid tx|tn sid h n|tn sid y|tn sid y|tn sid|tn sid].
  1,2: refine (invariant_rtc _ (standsAt id x) _ _ _ He Hx);
       intros v v' Hv Hstep; eapply effect_keeps; try done; by intros [].
  all: cbn [call] in E.
  - rewrite HandleTransactionConfirmed_stages in E.
    destruct (stageRun _ _ env tn sid (StConfirmed h n) st) as [r1 st1] eqn:E1.
    destruct (stageRun_keeps id x _ _ _ _ _ (StConfirmed h n) _ _ _ Hm I Hi Hx E1) as (Hi1 & Hx1 & Hno).
    destruct r1 as [[]|]; [|by injection E as <- <-].
    destruct (decide (sid = id)) as [Heq|Hne]; [|by eapply stageRun_elsewhere].
    destruct (Hno Heq eq_refl) as (s & _ & Hp). by apply one_none in Hp.
  - rewrite HandleCreditResult_stages in E.
    destruct (stageRun _ _ env tn sid (StCreditResult y) st) as [r1 st1] eqn:E1.
    destruct (stageRun_keeps id x _ _ _ _ _ (StCreditResult y) _ _ _ Hm I Hi Hx E1) as (Hi1 & Hx1 & Hno).
    destruct r1 as [[]|]; [|by injection E as <- <-].
    destruct (ir_Success y); [|by injection E as <- <-]. rewrite routeAfterCredit_stage in E.
    destruct (decide (sid = id)) as [Heq|Hne]; [|by eapply stageRun_elsewhere].
    destruct (Hno Heq eq_refl) as (s & _ & Hp). cbn [stagePlan] in Hp.
    case_match; [done|]. by apply one_none in Hp.
  - rewrite HandleSettlementResult_stage in E. by eapply stageRun_keeps in E as (_ & ? & _).
  - rewrite ExpireSession_stage in E. by eapply stageRun_keeps in E as (_ & ? & _).
  - rewrite CancelSession_stage in E. by eapply stageRun_keeps in E as (_ & ? & _).
Qed.

(** CONFIRMED and CREDITED are dead ends for everything that comes
    later: the moves out of them belong to the second half of the call that
    entered them, so once that half has failed (a lost connection, a tenant
    that could not be read) no sequence of calls of the engine's public
    handlers ever moves the session again.  The deposit has been paid, and it
    is never credited or never settled. *)
Theorem midway_session_is_stuck id x l st :
  midway x -> dinv st -> standsAt id x (dview st) -> standsAt id x (dview (runCalls l st)).
Proof.
  intros Hm. revert st. induction l as [|[env c] l IH]; intros st Hi Hx; [done|]. simpl.
  destruct (call_keeps id x env c st Hm Hi Hx) as [Hi' Hx']. by apply IH.
Qed.
End Books.
