(* ===== verification/BankDepositStore.v ===== *)
(** * core/bankdeposit: the bank deposit store port and its Postgres adapter

    [BankDepositStore] is the interface of src/core/bankdeposit/store.go,
    [BankDepositStoreLaws] what the engine relies on.  [BankDepositAdapter]
    models src/store/transferdb/bank_deposit_store_adapter.go with the
    statements of bank_deposit_sessions.sql.go,
    bank_deposit_transactions.sql.go and virtual_accounts.sql.go.  Amounts are
    NUMERIC without scale, so nothing is rounded.  A session is inserted under
    the id and the version the engine chose. *)

From stdpp Require Import sorting.
From S2P Require Import Prelude ThirdParty Sql Money Deposits Transfer Outbox TransferStore.
Local Open Scope string_scope.
Local Open Scope Z_scope.

Section Params.
Context {L : ThirdParty}.

Record VirtualAccountListParams := {
  vlp_TenantID : UUID; vlp_Currency : string; vlp_AccountType : string;
  vlp_Limit : Z; vlp_Offset : Z }.

Record VirtualAccountCursorParams := {
  vcp_TenantID : UUID; vcp_Currency : string; vcp_AccountType : string;
  vcp_PageSize : Z; vcp_Cursor : Z }.

Record VirtualAccountIndex := {
  vi_AccountNumber : string; vi_TenantID : UUID; vi_SessionID : option UUID;
  vi_AccountType : VirtualAccountType }.
End Params.

(** ** The port *)

Class BankDepositStore {L : ThirdParty} (St : Type) : Type := {
  bd_CreateSessionWithOutbox : BankDepositSession -> list OutboxEntry -> St ->
    result BankDepositSession * St;
  bd_GetSession : UUID -> UUID -> St -> result BankDepositSession * St;
  bd_GetSessionByIdempotencyKey : UUID -> string -> St -> result BankDepositSession * St;
  bd_ListSessions : UUID -> Z -> Z -> St -> result (list BankDepositSession) * St;
  bd_ListSessionsCursor : UUID -> Z -> Z -> St -> result (list BankDepositSession) * St;
  bd_TransitionWithOutbox : BankDepositSession -> list OutboxEntry -> St -> result unit * St;
  bd_DispenseVirtualAccount : UUID -> string -> St -> result (option VirtualAccountPool) * St;
  bd_GetBankDepositTxByRef : string -> St -> result BankDepositTransaction * St;
  bd_RecordBankDepositTx : BankDepositTransaction -> UUID -> UUID -> Decimal -> St ->
    result BankDepositTransaction * St;
  bd_ListVirtualAccountsPaginated : VirtualAccountListParams -> St ->
    result (list VirtualAccountPool * Z) * St;
  bd_ListVirtualAccountsCursor : VirtualAccountCursorParams -> St ->
    result (list VirtualAccountPool) * St;
}.

Section BankRows.
Context {L : ThirdParty}.

(** The row [TransitionBankDepositSession] leaves. *)
Definition bankTransitionRow (now : Z) (old s : BankDepositSession) : BankDepositSession :=
  let at_status x := bool_decide (bs_Status s = x) in
  set_bs_settlement
    (set_bs_failure
      (set_bs_times
        (set_bs_payer
          (set_bs_amounts (set_bs_status old (bs_Status s) (bs_Version s) now)
             (bs_ReceivedAmount s) (bs_FeeAmount s) (bs_NetAmount s))
          (coalesceText (bs_PayerName s) (bs_PayerName old))
          (coalesceText (bs_PayerReference s) (bs_PayerReference old))
          (coalesceText (bs_BankReference s) (bs_BankReference old)))
        (stampIf (at_status BSPaymentReceived) now (bs_PaymentReceivedAt old))
        (stampIf (at_status BSCredited) now (bs_CreditedAt old))
        (stampIf (at_status BSSettled) now (bs_SettledAt old))
        (stampIf (at_status BSExpired) now (bs_ExpiredAt old))
        (stampIf (at_status BSFailed) now (bs_FailedAt old)))
      (coalesceText (bs_FailureReason s) (bs_FailureReason old))
      (coalesceText (bs_FailureCode s) (bs_FailureCode old)))
    (bs_SettlementTransferID s).

(** The row [AccumulateBankReceivedAmount] leaves. *)
Definition bankAccumulatedRow (now : Z) (old : BankDepositSession) (amount : Decimal)
  : BankDepositSession :=
  set_bs_amounts (set_bs_status old (bs_Status old) (bs_Version old) now)
    (dAdd (bs_ReceivedAmount old) amount) (bs_FeeAmount old) (bs_NetAmount old).

Definition bankTxRow (id : UUID) (now : Z) (tx : BankDepositTransaction) : BankDepositTransaction :=
  {| bt_ID := id; bt_SessionID := bt_SessionID tx; bt_TenantID := bt_TenantID tx;
     bt_BankReference := bt_BankReference tx; bt_PayerName := bt_PayerName tx;
     bt_PayerAccountNumber := bt_PayerAccountNumber tx; bt_Amount := bt_Amount tx;
     bt_Currency := bt_Currency tx; bt_ReceivedAt := bt_ReceivedAt tx; bt_CreatedAt := now |}.

Record BankView := {
  bv_sessions : gmap UUID BankDepositSession;
  bv_txs : list BankDepositTransaction;
  bv_outbox : list OutboxEntry;
}.

Definition bankTransitioned (now : Z) (old s : BankDepositSession) (es : list OutboxEntry)
    (v : BankView) : BankView :=
  {| bv_sessions := <[bs_ID s := bankTransitionRow now old s]> (bv_sessions v);
     bv_txs := bv_txs v; bv_outbox := (bv_outbox v ++ map outboxEntryToParams es)%list |}.

Definition bankAccumulate (now : Z) (tn sid : UUID) (amount : Decimal)
    (m : gmap UUID BankDepositSession) : gmap UUID BankDepositSession :=
  match m !! sid with
  | Some s => if decide (bs_TenantID s = tn)
              then <[sid := bankAccumulatedRow now s amount]> m else m
  | None => m
  end.

Definition bankRecorded (id : UUID) (now : Z) (tx : BankDepositTransaction) (tn sid : UUID)
    (amount : Decimal) (v : BankView) : BankView :=
  {| bv_sessions := bankAccumulate now tn sid amount (bv_sessions v);
     bv_txs := (bv_txs v ++ [bankTxRow id now tx])%list; bv_outbox := bv_outbox v |}.

Definition bankCreated (row : BankDepositSession) (es : list OutboxEntry) (v : BankView)
  : BankView :=
  {| bv_sessions := <[bs_ID row := row]> (bv_sessions v); bv_txs := bv_txs v;
     bv_outbox := (bv_outbox v ++ es)%list |}.
End BankRows.

(** A call that kept the rows and failed, or committed [P]; success means
    committed. *)
Class BankDepositStoreLaws {L : ThirdParty} (St : Type) `{BD : !BankDepositStore St} : Type := {
  bview : St -> BankView;
  binv : St -> Prop;
  bup : St -> Prop;
  bd_inv_id st id s : binv st -> bv_sessions (bview st) !! id = Some s -> bs_ID s = id;
  bd_get tn id st r st' : bd_GetSession tn id st = (r, st') ->
    bview st' = bview st /\ (binv st -> binv st') /\ (bup st -> bup st')
    /\ (forall s, binv st -> r = Ok s ->
          bv_sessions (bview st) !! id = Some s /\ bs_ID s = id /\ bs_TenantID s = tn)
    /\ (forall s, bup st -> bv_sessions (bview st) !! id = Some s -> bs_TenantID s = tn ->
          r = Ok s);
  bd_idem tn k st r st' : bd_GetSessionByIdempotencyKey tn k st = (r, st') ->
    bview st' = bview st /\ (binv st -> binv st') /\ (bup st -> bup st')
    /\ (forall s, binv st -> r = Ok s -> bv_sessions (bview st) !! bs_ID s = Some s
          /\ bs_TenantID s = tn /\ bs_IdempotencyKey s = k);
  bd_byref ref st r st' : bd_GetBankDepositTxByRef ref st = (r, st') ->
    bview st' = bview st /\ (binv st -> binv st') /\ (bup st -> bup st')
    /\ (forall t, r = Ok t -> t ∈ bv_txs (bview st) /\ bt_BankReference t = ref)
    /\ (forall t, bup st -> t ∈ bv_txs (bview st) -> bt_BankReference t = ref -> is_ok r = true);
  bd_dispense tn c st r st' : bd_DispenseVirtualAccount tn c st = (r, st') ->
    bview st' = bview st /\ (binv st -> binv st') /\ (bup st -> bup st');
  bd_transition s es st r st' : bd_TransitionWithOutbox s es st = (r, st') ->
    (binv st -> binv st') /\ (bup st -> bup st') /\
    ((bview st' = bview st /\ is_ok r = false) \/ exists now old,
      bv_sessions (bview st) !! bs_ID s = Some old
      /\ bs_Version old = sub64 (bs_Version s) 1
      /\ bview st' = bankTransitioned now old s es (bview st));
  bd_record tx tn sid amount st r st' : bd_RecordBankDepositTx tx tn sid amount st = (r, st') ->
    (binv st -> binv st') /\ (bup st -> bup st') /\
    ((bview st' = bview st /\ is_ok r = false) \/
      exists id now, bview st' = bankRecorded id now tx tn sid amount (bview st));
  bd_create s es st r st' : bd_CreateSessionWithOutbox s es st = (r, st') ->
    (binv st -> binv st') /\ (bup st -> bup st') /\
    ((bview st' = bview st /\ is_ok r = false) \/ exists row es',
      bv_sessions (bview st) !! bs_ID s = None /\ bs_ID row = bs_ID s
      /\ bs_Status row = bs_Status s /\ bs_Version row = bs_Version s
      /\ bs_TenantID row = bs_TenantID s /\ bs_ReceivedAmount row = bs_ReceivedAmount s
      /\ map oe_Payload es' = map oe_Payload es
      /\ bview st' = bankCreated row es' (bview st));
}.

(** ** The adapter *)

Module BankDepositAdapter.
Section Tables.
Context {L : ThirdParty}.

Record BankTables := {
  bb_sessions : gmap UUID BankDepositSession;
  bb_txs : list BankDepositTransaction;
  bb_pool : list VirtualAccountPool;
  bb_index : list VirtualAccountIndex;
  bb_outbox : list OutboxEntry;
}.

Abbreviation DB := (Sql BankTables).

Definition set_sessions (t : BankTables) (m : gmap UUID BankDepositSession) : BankTables :=
  {| bb_sessions := m; bb_txs := bb_txs t; bb_pool := bb_pool t; bb_index := bb_index t;
     bb_outbox := bb_outbox t |}.

Definition set_pool (t : BankTables) (pool : list VirtualAccountPool) : BankTables :=
  {| bb_sessions := bb_sessions t; bb_txs := bb_txs t; bb_pool := pool; bb_index := bb_index t;
     bb_outbox := bb_outbox t |}.

(** *** Statements that write *)

(** The values of the enum columns. *)
Definition isEnum (values : list string) (x : string) : bool := existsb (String.eqb x) values.

Definition enumsOk (s : BankDepositSession) : bool :=
  isEnum [VirtualAccountTypePermanent; VirtualAccountTypeTemporary] (bs_AccountType s)
  && isEnum [PaymentMismatchPolicyAccept; PaymentMismatchPolicyReject] (bs_MismatchPolicy s)
  && isEnum [SettlementPreferenceAutoConvert; SettlementPreferenceHold;
             SettlementPreferenceThreshold] (bs_SettlementPref s).

Definition bankSessionRow (now : Z) (s : BankDepositSession) : BankDepositSession :=
  {| bs_ID := bs_ID s; bs_TenantID := bs_TenantID s; bs_IdempotencyKey := bs_IdempotencyKey s;
     bs_Status := bs_Status s; bs_Version := bs_Version s;
     bs_BankingPartnerID := bs_BankingPartnerID s; bs_AccountNumber := bs_AccountNumber s;
     bs_AccountName := bs_AccountName s; bs_SortCode := bs_SortCode s; bs_IBAN := bs_IBAN s;
     bs_AccountType := bs_AccountType s; bs_Currency := bs_Currency s;
     bs_ExpectedAmount := bs_ExpectedAmount s; bs_MinAmount := bs_MinAmount s;
     bs_MaxAmount := bs_MaxAmount s; bs_ReceivedAmount := bs_ReceivedAmount s;
     bs_FeeAmount := bs_FeeAmount s; bs_NetAmount := bs_NetAmount s;
     bs_MismatchPolicy := bs_MismatchPolicy s;
     bs_CollectionFeeBPS := int32 (bs_CollectionFeeBPS s);
     bs_SettlementPref := bs_SettlementPref s; bs_SettlementTransferID := None;
     bs_PayerName := ""; bs_PayerReference := ""; bs_BankReference := "";
     bs_ExpiresAt := bs_ExpiresAt s; bs_CreatedAt := now; bs_UpdatedAt := now;
     bs_PaymentReceivedAt := None; bs_CreditedAt := None; bs_SettledAt := None;
     bs_ExpiredAt := None; bs_FailedAt := None; bs_FailureReason := ""; bs_FailureCode := "";
     bs_Metadata := bs_Metadata s |}.

Definition bankIdempotencyClash (row : BankDepositSession) (m : gmap UUID BankDepositSession)
  : bool :=
  negb (String.eqb (bs_IdempotencyKey row) "")
  && existsb (fun '(_, s) => bool_decide (bs_TenantID s = bs_TenantID row)
                             && String.eqb (bs_IdempotencyKey s) (bs_IdempotencyKey row)
                             && (bs_CreatedAt s =? bs_CreatedAt row)) (map_to_list m).

Definition CreateBankDepositSessionFull (c : Call) (s : BankDepositSession)
    (m : gmap UUID BankDepositSession)
  : result (BankDepositSession * gmap UUID BankDepositSession) :=
  if negb (enumsOk s) then Err (MsgErr "invalid input value for enum")
  else
    let row := bankSessionRow (c_now c) s in
    if bool_decide (is_Some (m !! bs_ID s)) || bankIdempotencyClash row m then Err duplicateKey
    else Ok (row, <[bs_ID s := row]> m).

(** The id of a new index row has to come from a column default. *)
Definition UpsertVirtualAccountIndex (c : Call) (s : BankDepositSession)
    (ix : list VirtualAccountIndex) : result (list VirtualAccountIndex) :=
  match c_ids c 0 with
  | None => Err notNull
  | Some _ =>
      let hit a := String.eqb (vi_AccountNumber a) (bs_AccountNumber s) in
      if existsb hit ix then
        Ok (map (fun a => if hit a then
              {| vi_AccountNumber := vi_AccountNumber a; vi_TenantID := vi_TenantID a;
                 vi_SessionID := Some (bs_ID s); vi_AccountType := bs_AccountType s |} else a) ix)
      else
        Ok (ix ++ [{| vi_AccountNumber := bs_AccountNumber s; vi_TenantID := bs_TenantID s;
                      vi_SessionID := Some (bs_ID s); vi_AccountType := bs_AccountType s |}])%list
  end.

Definition setBankAggregateID (id : UUID) (e : OutboxEntry) : OutboxEntry :=
  if decide (oe_AggregateID e = uuid_Nil) then
    {| oe_ID := oe_ID e; oe_AggregateType := oe_AggregateType e; oe_AggregateID := id;
       oe_TenantID := oe_TenantID e; oe_CorrelationID := oe_CorrelationID e;
       oe_EventType := oe_EventType e; oe_Payload := oe_Payload e;
       oe_IsIntent := oe_IsIntent e; oe_Published := oe_Published e;
       oe_PublishedAt := oe_PublishedAt e; oe_RetryCount := oe_RetryCount e;
       oe_MaxRetries := oe_MaxRetries e; oe_CreatedAt := oe_CreatedAt e |}
  else e.

Definition CreateSessionWithOutbox (session : BankDepositSession) (entries : list OutboxEntry)
  : DB -> result BankDepositSession * DB :=
  transact (fun c t =>
    let? (row, m) := wrap "creating session"
                       (CreateBankDepositSessionFull c session (bb_sessions t)) in
    let session := set_bs_identity session (bs_ID session) (bs_CreatedAt row) (bs_UpdatedAt row) in
    let? ix := wrap "inserting virtual account index"
                 (UpsertVirtualAccountIndex c session (bb_index t)) in
    let entries := map (setBankAggregateID (bs_ID session)) entries in
    let? ob := wrap "insert outbox entries" (Adapter.InsertOutboxEntries entries (bb_outbox t)) in
    Ok (session, {| bb_sessions := m; bb_txs := bb_txs t; bb_pool := bb_pool t;
                    bb_index := ix; bb_outbox := ob |})).

Definition TransitionBankDepositSession (c : Call) (s : BankDepositSession)
    (m : gmap UUID BankDepositSession) : Z * gmap UUID BankDepositSession :=
  match m !! bs_ID s with
  | Some old =>
      if bs_Version old =? sub64 (bs_Version s) 1
      then (1, <[bs_ID s := bankTransitionRow (c_now c) old s]> m) else (0, m)
  | None => (0, m)
  end.

Definition TransitionWithOutbox (session : BankDepositSession) (entries : list OutboxEntry)
  : DB -> result unit * DB :=
  transact (fun c t =>
    let '(affected, m) := TransitionBankDepositSession c session (bb_sessions t) in
    if affected =? 0 then Err (WrapErr "session" OptimisticLockErr)
    else
      let? ob := wrap "insert outbox entries for session"
                   (Adapter.InsertOutboxEntries entries (bb_outbox t)) in
      Ok (tt, {| bb_sessions := m; bb_txs := bb_txs t; bb_pool := bb_pool t;
                 bb_index := bb_index t; bb_outbox := ob |})).

Definition setAvailable (avail : bool) (now : Z) (a : VirtualAccountPool) : VirtualAccountPool :=
  {| va_ID := va_ID a; va_TenantID := va_TenantID a; va_BankingPartnerID := va_BankingPartnerID a;
     va_AccountNumber := va_AccountNumber a; va_AccountName := va_AccountName a;
     va_SortCode := va_SortCode a; va_IBAN := va_IBAN a; va_Currency := va_Currency a;
     va_AccountType := va_AccountType a; va_Available := avail; va_SessionID := None;
     va_CreatedAt := va_CreatedAt a; va_UpdatedAt := now |}.

(** The oldest available temporary account; no account is no error. *)
Definition isOpenAccount (tn : UUID) (currency : string) (a : VirtualAccountPool) : bool :=
  bool_decide (va_TenantID a = tn) && String.eqb (va_Currency a) currency && va_Available a
  && String.eqb (va_AccountType a) VirtualAccountTypeTemporary.

Definition DispenseVirtualAccount (tn : UUID) (currency : string)
  : DB -> result (option VirtualAccountPool) * DB :=
  transact (fun c t =>
    match selectFirst (isOpenAccount tn currency) (orderAsc va_CreatedAt (bb_pool t)) with
    | Ok a =>
        let now := c_now c in
        Ok (Some (setAvailable false now a),
            set_pool t (map (fun b => if decide (va_ID b = va_ID a)
                                      then setAvailable false now b else b) (bb_pool t)))
    | Err e => if decide (e = noRows) then Ok (None, t)
               else Err (WrapErr "dispensing virtual account" e)
    end).

Definition RecycleVirtualAccount (accountNumber : string) : DB -> result unit * DB :=
  transact (fun c t =>
    Ok (tt, set_pool t (map (fun b => if String.eqb (va_AccountNumber b) accountNumber
                                      then setAvailable true (c_now c) b else b) (bb_pool t)))).

(** The unique index is on (bank_reference, created_at). *)
Definition CreateBankDepositTransaction (c : Call) (tx : BankDepositTransaction)
    (txs : list BankDepositTransaction)
  : result (BankDepositTransaction * list BankDepositTransaction) :=
  match c_ids c 0 with
  | None => Err notNull
  | Some id =>
      let row := bankTxRow id (c_now c) tx in
      if existsb (fun t => (String.eqb (bt_BankReference t) (bt_BankReference tx)
                            || bool_decide (bt_ID t = id)) && (bt_CreatedAt t =? c_now c)) txs
      then Err duplicateKey
      else Ok (row, (txs ++ [row])%list)
  end.

Definition assignBankTx (tx row : BankDepositTransaction) : BankDepositTransaction :=
  {| bt_ID := bt_ID row; bt_SessionID := bt_SessionID tx; bt_TenantID := bt_TenantID tx;
     bt_BankReference := bt_BankReference tx; bt_PayerName := bt_PayerName tx;
     bt_PayerAccountNumber := bt_PayerAccountNumber tx; bt_Amount := bt_Amount tx;
     bt_Currency := bt_Currency tx; bt_ReceivedAt := bt_ReceivedAt tx;
     bt_CreatedAt := bt_CreatedAt row |}.

Definition CreateBankDepositTx (tx : BankDepositTransaction)
  : DB -> result BankDepositTransaction * DB :=
  transact (fun c t =>
    let? (row, txs) := wrap "creating bank deposit tx"
                         (CreateBankDepositTransaction c tx (bb_txs t)) in
    Ok (assignBankTx tx row,
        {| bb_sessions := bb_sessions t; bb_txs := txs; bb_pool := bb_pool t;
           bb_index := bb_index t; bb_outbox := bb_outbox t |})).

Definition AccumulateReceived (tn sid : UUID) (amount : Decimal) : DB -> result unit * DB :=
  transact (fun c t =>
    Ok (tt, set_sessions t (bankAccumulate (c_now c) tn sid amount (bb_sessions t)))).

Definition RecordBankDepositTx (tx : BankDepositTransaction) (tn sid : UUID) (amount : Decimal)
  : DB -> result BankDepositTransaction * DB :=
  transact (fun c t =>
    let? (row, txs) := wrap "record bank deposit tx: create"
                         (CreateBankDepositTransaction c tx (bb_txs t)) in
    Ok (assignBankTx tx row,
        {| bb_sessions := bankAccumulate (c_now c) tn sid amount (bb_sessions t); bb_txs := txs;
           bb_pool := bb_pool t; bb_index := bb_index t; bb_outbox := bb_outbox t |})).

(** *** Reads *)

Definition bankRows (t : BankTables) : list BankDepositSession := snd <$> map_to_list (bb_sessions t).

Definition GetSession (tn sid : UUID) : DB -> result BankDepositSession * DB :=
  query (fun c t => wrap "getting session"
    match bb_sessions t !! sid with
    | Some s => if decide (bs_TenantID s = tn) then Ok s else Err noRows
    | None => Err noRows
    end).

Definition GetSessionByIdempotencyKey (tn : UUID) (key : string)
  : DB -> result BankDepositSession * DB :=
  query (fun c t => wrap "getting session by idempotency key"
    (selectFirst (fun s => bool_decide (bs_TenantID s = tn) && negb (String.eqb key "")
                           && String.eqb (bs_IdempotencyKey s) key) (bankRows t))).

(** The latest pending session of an account, of any tenant. *)
Definition GetSessionByAccountNumber (accountNumber : string)
  : DB -> result BankDepositSession * DB :=
  query (fun c t => wrap "getting session by account number"
    (selectFirst (fun s => String.eqb (bs_AccountNumber s) accountNumber
                           && bool_decide (bs_Status s = BSPendingPayment))
       (orderDesc bs_CreatedAt (bankRows t)))).

(** The offset is not used by the query. *)
Definition ListSessions (tn : UUID) (limit offset : Z)
  : DB -> result (list BankDepositSession) * DB :=
  query (fun c t => wrap "listing sessions"
    (limitOffset (int32 limit) 0
       (orderDesc bs_CreatedAt (filter (fun s => bs_TenantID s = tn) (bankRows t))))).

Definition ListSessionsCursor (tn : UUID) (pageSize cursor : Z)
  : DB -> result (list BankDepositSession) * DB :=
  query (fun c t => wrap "listing sessions cursor"
    (limitOffset (int32 pageSize) 0
       (orderDesc bs_CreatedAt
          (filter (fun s => bs_TenantID s = tn /\ bs_CreatedAt s < cursor) (bankRows t))))).

(** The latest transaction of a bank reference, of any tenant and partner. *)
Definition GetBankDepositTxByRef (ref : string) : DB -> result BankDepositTransaction * DB :=
  query (fun c t => wrap "getting tx by ref"
    (selectFirst (fun x => String.eqb (bt_BankReference x) ref)
       (orderDesc bt_CreatedAt (bb_txs t)))).

Definition ListSessionTxs (sid : UUID) : DB -> result (list BankDepositTransaction) * DB :=
  query (fun c t => Ok (orderAsc bt_CreatedAt
                          (filter (fun x => bt_SessionID x = sid) (bb_txs t)))).

Definition GetExpiredPendingSessions (limit : Z) : DB -> result (list BankDepositSession) * DB :=
  query (fun c t => wrap "getting expired sessions"
    (limitOffset (int32 limit) 0
       (orderAsc bs_ExpiresAt
          (filter (fun s => bs_Status s = BSPendingPayment /\ bs_ExpiresAt s < c_now c)
                  (bankRows t))))).

Definition ListVirtualAccountsByTenant (tn : UUID) : DB -> result (list VirtualAccountPool) * DB :=
  query (fun c t => Ok (orderAsc va_CreatedAt
                          (filter (fun a => va_TenantID a = tn) (bb_pool t)))).

(** The optional filters: the empty string filters nothing, and a type that
    is no value of the enum is an error. *)
Definition accountFilter (tn : UUID) (currency accountType : string)
    (pool : list VirtualAccountPool) : result (list VirtualAccountPool) :=
  if negb (String.eqb accountType "")
     && negb (isEnum [VirtualAccountTypePermanent; VirtualAccountTypeTemporary] accountType)
  then Err (MsgErr "invalid input value for enum virtual_account_type_enum")
  else Ok (filter (fun a => va_TenantID a = tn /\ (currency = "" \/ va_Currency a = currency)
                            /\ (accountType = "" \/ va_AccountType a = accountType)) pool).

(** Two statements: the page and the total. *)
Definition ListVirtualAccountsPaginated (p : VirtualAccountListParams) (d : DB)
  : result (list VirtualAccountPool * Z) * DB :=
  let! page / d := query (fun c t => wrap "listing virtual accounts paginated"
      (let? l := accountFilter (vlp_TenantID p) (vlp_Currency p) (vlp_AccountType p) (bb_pool t) in
       limitOffset (vlp_Limit p) (vlp_Offset p) (orderAsc va_CreatedAt l))) d in
  let! total / d := query (fun c t => wrap "counting virtual accounts"
      (let? l := accountFilter (vlp_TenantID p) (vlp_Currency p) (vlp_AccountType p) (bb_pool t) in
       Ok (Z.of_nat (length l)))) d in
  (Ok (page, total), d).

Definition ListVirtualAccountsCursor (p : VirtualAccountCursorParams)
  : DB -> result (list VirtualAccountPool) * DB :=
  query (fun c t => wrap "list virtual accounts cursor"
    (let? l := accountFilter (vcp_TenantID p) (vcp_Currency p) (vcp_AccountType p) (bb_pool t) in
     limitOffset (vcp_PageSize p) 0
       (orderAsc va_CreatedAt (filter (fun a => vcp_Cursor p < va_CreatedAt a) l)))).

(** GROUP BY currency. *)
Definition CountAvailableVirtualAccountsByCurrency (tn : UUID)
  : DB -> result (gmap string Z) * DB :=
  query (fun c t =>
    Ok (foldr (fun a m => <[va_Currency a := default 0 (m !! va_Currency a) + 1]> m) ∅
          (filter (fun a => va_TenantID a = tn /\ va_Available a = true) (bb_pool t)))).

Definition GetVirtualAccountIndexByNumber (accountNumber : string)
  : DB -> result VirtualAccountIndex * DB :=
  query (fun c t => wrap "getting account index"
    (selectFirst (fun a => String.eqb (vi_AccountNumber a) accountNumber) (bb_index t))).

#[export] Instance BankDepositStoreAdapter : BankDepositStore DB := {|
  bd_CreateSessionWithOutbox := CreateSessionWithOutbox;
  bd_GetSession := GetSession;
  bd_GetSessionByIdempotencyKey := GetSessionByIdempotencyKey;
  bd_ListSessions := ListSessions;
  bd_ListSessionsCursor := ListSessionsCursor;
  bd_TransitionWithOutbox := TransitionWithOutbox;
  bd_DispenseVirtualAccount := DispenseVirtualAccount;
  bd_GetBankDepositTxByRef := GetBankDepositTxByRef;
  bd_RecordBankDepositTx := RecordBankDepositTx;
  bd_ListVirtualAccountsPaginated := ListVirtualAccountsPaginated;
  bd_ListVirtualAccountsCursor := ListVirtualAccountsCursor;
|}.

(** *** The adapter keeps the contract *)

Definition bank_view (d : DB) : BankView :=
  {| bv_sessions := bb_sessions (sq_tables d); bv_txs := bb_txs (sq_tables d);
     bv_outbox := bb_outbox (sq_tables d) |}.

Definition bank_inv (d : DB) : Prop :=
  map_Forall (fun id s => bs_ID s = id) (bb_sessions (sq_tables d)).

Lemma bankAccumulate_inv now tn sid amount m :
  map_Forall (fun id s => bs_ID s = id) m ->
  map_Forall (fun id s => bs_ID s = id) (bankAccumulate now tn sid amount m).
Proof.
  intros Hm. unfold bankAccumulate. destruct (m !! sid) as [s|] eqn:E; [|done].
  case_decide; [|done]. apply map_Forall_insert_2; [|done]. by apply (Hm _ _ E).
Qed.

Lemma map_payload_bank_aggregate id es :
  map oe_Payload (map (setBankAggregateID id) es) = map oe_Payload es.
Proof.
  rewrite map_map. apply map_ext. intros e. unfold setBankAggregateID. by case_decide.
Qed.

Lemma bank_query_view {A} (f : Call -> BankTables -> result A) d r d' : query f d = (r, d') ->
  bank_view d' = bank_view d /\ (bank_inv d -> bank_inv d') /\ (sq_up d -> sq_up d').
Proof.
  intros Hq. destruct (query_inv _ _ _ _ Hq) as [Ht _].
  unfold bank_view, bank_inv. rewrite Ht. split_and!; [done|done|].
  intros Hu. pose proof (query_keeps_up f d Hu) as Hk. by rewrite Hq in Hk.
Qed.

Lemma bank_transact_up {A} (f : Call -> BankTables -> result (A * BankTables)) d r d' :
  transact f d = (r, d') -> (sq_up d -> sq_up d').
Proof.
  intros Hq Hu. pose proof (transact_keeps_up f d Hu) as Hk. by rewrite Hq in Hk.
Qed.

#[export, program] Instance BankAdapterLaws : BankDepositStoreLaws DB := {|
  bview := bank_view; binv := bank_inv; bup := sq_up
|}.
Next Obligation. simpl. intros d id s Hi Hs. by apply (Hi _ _ Hs). Qed.
Next Obligation.
  simpl. intros tn id d r d' Hq. destruct (bank_query_view _ _ _ _ Hq) as (Hv & Hi & Hu).
  destruct (query_inv _ _ _ _ Hq) as [_ Ha]. split_and!; try done.
  - intros s Hinv Hr. apply Ha, wrap_ok in Hr.
    destruct (bb_sessions (sq_tables d) !! id) as [s0|] eqn:E; [|done].
    case_decide; simplify_eq. split_and!; try done. by apply (Hinv _ _ E).
  - intros s Hup Hs Htn. unfold GetSession in Hq. rewrite query_up in Hq by done.
    simpl in Hs. rewrite Hs in Hq. rewrite decide_True in Hq by done. by simplify_eq.
Qed.
Next Obligation.
  simpl. intros tn k d r d' Hq. destruct (bank_query_view _ _ _ _ Hq) as (Hv & Hi & Hu).
  destruct (query_inv _ _ _ _ Hq) as [_ Ha]. split_and!; try done.
  intros s Hinv Hr. apply Ha, wrap_ok, selectFirst_ok in Hr as [Hin Hp].
  rewrite !andb_true_iff, bool_decide_eq_true, String.eqb_eq in Hp.
  apply list_elem_of_fmap in Hin as ([id s'] & -> & Hin).
  apply elem_of_map_to_list in Hin. simpl. rewrite (Hinv _ _ Hin). naive_solver.
Qed.
Next Obligation.
  simpl. intros ref d r d' Hq. destruct (bank_query_view _ _ _ _ Hq) as (Hv & Hi & Hu).
  destruct (query_inv _ _ _ _ Hq) as [_ Ha]. split_and!; try done.
  - intros t Hr. apply Ha, wrap_ok, selectFirst_ok in Hr as [Hin Hx%String.eqb_eq].
    split; [|done]. simpl. by rewrite <- (merge_sort_Permutation (flip (keyLe bt_CreatedAt))).
  - intros t Hup Ht Hx. unfold GetBankDepositTxByRef in Hq. rewrite query_up in Hq by done.
    simplify_eq. assert (is_ok (selectFirst
      (fun x => String.eqb (bt_BankReference x) (bt_BankReference t))
      (orderDesc bt_CreatedAt (bb_txs (sq_tables d)))) = true) as Hok.
    { apply (selectFirst_some _ _ t); [|apply String.eqb_refl].
      unfold orderDesc. by rewrite (merge_sort_Permutation (flip (keyLe bt_CreatedAt))). }
    unfold wrap. by destruct (selectFirst _ _).
Qed.
Next Obligation.
  simpl. intros tn c d r d' Hq. pose proof (bank_transact_up _ _ _ _ Hq) as Hup.
  unfold bank_view, bank_inv.
  destruct (transact_inv _ _ _ _ Hq) as [(Ht & _ & _)|(a & Hf & _)]; [by rewrite Ht|].
  cbv zeta in Hf. destruct (selectFirst _ _) as [x|e]; [|case_decide; [|done]];
    injection Hf as <- Ht; by rewrite <- Ht.
Qed.
Next Obligation.
  simpl. intros s es d r d' Hq. pose proof (bank_transact_up _ _ _ _ Hq) as Hup.
  destruct (transact_inv _ _ _ _ Hq) as [(Ht & Hr & _)|(a & Hf & _)].
  { unfold bank_view, bank_inv. rewrite Ht. auto. }
  unfold TransitionBankDepositSession in Hf.
  destruct (bb_sessions (sq_tables d) !! bs_ID s) as [old|] eqn:Hold; [|done].
  destruct (Z.eqb_spec (bs_Version old) (sub64 (bs_Version s) 1)) as [Hver|]; [|done]. simpl in Hf.
  destruct (wrap _ (Adapter.InsertOutboxEntries _ _)) as [ob|] eqn:Eo; [|done].
  apply wrap_ok, Adapter.InsertOutboxEntries_ok in Eo as ->. injection Hf as _ Ht.
  unfold bank_view, bank_inv. rewrite <- Ht. simpl. split_and!; [|done|].
  - intros Hi. apply map_Forall_insert_2; [|done]. simpl. by apply (Hi _ _ Hold).
  - right. by exists (c_now (sq_call d)), old.
Qed.
Next Obligation.
  simpl. intros tx tn sid amount d r d' Hq. pose proof (bank_transact_up _ _ _ _ Hq) as Hup.
  destruct (transact_inv _ _ _ _ Hq) as [(Ht & Hr & _)|(a & Hf & _)].
  { unfold bank_view, bank_inv. rewrite Ht. auto. }
  destruct (wrap _ (CreateBankDepositTransaction _ _ _)) as [[row txs]|] eqn:E; [|done].
  apply wrap_ok in E. unfold CreateBankDepositTransaction in E.
  destruct (c_ids _ 0) as [id|]; [|done]. destruct (existsb _ _); [done|]. injection E as <- <-.
  injection Hf as _ Ht. unfold bank_view, bank_inv. rewrite <- Ht. simpl.
  split_and!; [apply bankAccumulate_inv|done|]. right. by exists id, (c_now (sq_call d)).
Qed.
Next Obligation.
  simpl. intros s es d r d' Hq. pose proof (bank_transact_up _ _ _ _ Hq) as Hup.
  destruct (transact_inv _ _ _ _ Hq) as [(Ht & Hr & _)|(a & Hf & Hres)].
  { unfold bank_view, bank_inv. rewrite Ht. auto. }
  destruct (wrap _ (CreateBankDepositSessionFull _ _ _)) as [[row m]|] eqn:E; [|done].
  apply wrap_ok in E. unfold CreateBankDepositSessionFull in E.
  destruct (enumsOk s); [|done]. simpl in E.
  destruct (bool_decide_reflect (is_Some (bb_sessions (sq_tables d) !! bs_ID s))) as [|Hn]; [done|].
  simpl in E. destruct (bankIdempotencyClash _ _); [done|]. injection E as <- <-. simpl in Hf.
  destruct (wrap _ (UpsertVirtualAccountIndex _ _ _)) as [ix|]; [|done].
  destruct (wrap _ (Adapter.InsertOutboxEntries _ _)) as [ob|] eqn:Eo; [|done].
  apply wrap_ok, Adapter.InsertOutboxEntries_ok in Eo as ->. injection Hf as _ Ht.
  unfold bank_view, bank_inv. rewrite <- Ht. simpl. split_and!; [|done|].
  - intros Hi. by apply map_Forall_insert_2.
  - right. exists (bankSessionRow (c_now (sq_call d)) s),
      (map outboxEntryToParams (map (setBankAggregateID (bs_ID s)) es)).
    split_and!; try done; [by apply eq_None_not_Some|].
    by rewrite map_payload_params, map_payload_bank_aggregate.
Qed.
End Tables.
End BankDepositAdapter.
