(* ===== verification/BankDepositEngine.v ===== *)
(** * core/bankdeposit: the bank deposit engine

    Models src/core/bankdeposit/engine.go and fee.go in Module [Bank].  A
    session waits for a credit on its virtual account; the received amount is
    checked against the session's bounds and mismatch policy, and either
    credited (PAYMENT_RECEIVED, CREDITING, CREDITED, HELD or SETTLING and
    SETTLED) or refunded (UNDERPAID or OVERPAID, FAILED).  The layout is that
    of DepositEngine.v: [X_plan] is the pure part of [X] between a read and
    the transition it asks for, [DEnv] what one call draws. *)

From S2P Require Import Prelude ThirdParty Sql Money Deposits Transfer Outbox TransferStore DepositStore DepositEngine BankDepositStore.
Local Open Scope string_scope.
Local Open Scope Z_scope.

Module Bank.
Section Plans.
Context {L : ThirdParty}.

Record CreateSessionRequest := {
  bsr_IdempotencyKey : string;
  bsr_Currency : Currency;
  bsr_BankingPartnerID : string;
  bsr_AccountType : VirtualAccountType;
  bsr_ExpectedAmount : Decimal;
  bsr_MinAmount : Decimal;
  bsr_MaxAmount : Decimal;
  bsr_MismatchPolicy : PaymentMismatchPolicy;
  bsr_SettlementPref : SettlementPreference;
  bsr_TTLSeconds : Z;
  bsr_Metadata : gmap string string;
}.

Definition CalculateBankCollectionFee (amount : Decimal) (schedule : FeeSchedule) : Decimal :=
  match CalculateFee schedule amount "bank_collection" with
  | Ok fee => fee
  | Err _ => dZero
  end.

(** domain.NewIdempotencyKey. *)
Definition NewIdempotencyKey (key : string) : result string :=
  if String.eqb key "" then Err (MsgErr "idempotency key must not be empty")
  else if 256 <? Z.of_nat (String.length key)
  then Err (MsgErr "idempotency key exceeds 256 characters")
  else Ok key.

(** ** Entries *)

Definition bankEvent (env : DEnv) (i : nat) (sid tn : UUID) (ty : string) (p : Payload)
  : OutboxEntry :=
  MustNewOutboxEvent (de_newv7 env i) (de_now env i) "bank_deposit" sid tn ty p.

Definition bankIntent (env : DEnv) (i : nat) (sid tn : UUID) (ty : string) (p : Payload)
  : OutboxEntry :=
  MustNewOutboxIntent (de_newv7 env i) (de_now env i) "bank_deposit" sid tn ty p.

Definition bankDepositWebhookEntry (env : DEnv) (i : nat) (sid tn : UUID) (eventType : string)
    (data : NotifyData) : OutboxEntry :=
  bankIntent env i sid tn IntentWebhookDeliver
    (PWebhookDeliver {| wdp_TransferID := uuid_Nil; wdp_SessionID := sid; wdp_TenantID := tn;
                        wdp_EventType := eventType; wdp_Data := data |}).

Definition bankDepositEmailEntry (env : DEnv) (i : nat) (sid tn : UUID)
    (eventType subject : string) (data : NotifyData) : OutboxEntry :=
  bankIntent env i sid tn IntentEmailNotify
    (PEmailNotify {| enp_TenantID := tn; enp_SessionID := sid; enp_TransferID := uuid_Nil;
                     enp_EventType := eventType; enp_Subject := subject; enp_Data := data |}).

Definition bankDepositNotificationEntries (env : DEnv) (i : nat) (sid tn : UUID)
    (eventType emailSubject : string) (data : NotifyData) : list OutboxEntry :=
  [bankDepositWebhookEntry env i sid tn eventType data;
   bankDepositEmailEntry env (Datatypes.S i) sid tn eventType emailSubject data].

Definition bankSessionEvent (sid tn : UUID) (status : BankDepositSessionStatus)
    (currency : string) (amount : Decimal) (reason : string) : BankDepositSessionEventPayload :=
  {| bse_SessionID := sid; bse_TenantID := tn; bse_Status := status; bse_Currency := currency;
     bse_Amount := amount; bse_Reason := reason |}.

Definition BankPlan : Type := BankDepositSession * list OutboxEntry.

Definition moveTo (step : string) (now : Z) (target : BankDepositSessionStatus)
    (s : BankDepositSession) : result BankDepositSession :=
  wrap step (BankDepositSession_TransitionTo s target now).

(** ** Plans *)

Definition failSession_plan (env : DEnv) (reason code : string) (s : BankDepositSession)
  : result BankPlan :=
  let s := set_bs_times s (bs_PaymentReceivedAt s) (bs_CreditedAt s) (bs_SettledAt s)
             (bs_ExpiredAt s) (Some (de_now env 0)) in
  let s := set_bs_failure s reason code in
  let? s := moveTo "fail session" (de_now env 1) BSFailed s in
  let ev := NBankSession (bankSessionEvent (bs_ID s) (bs_TenantID s) BSFailed "" dZero reason) in
  Ok (s, bankEvent env 2 (bs_ID s) (bs_TenantID s) EventBankDepositSessionFailed (PNotice ev)
         :: bankDepositNotificationEntries env 3 (bs_ID s) (bs_TenantID s)
              EventBankDepositSessionFailed ("Bank deposit failed — " +:+ reason) ev).

Definition isLate (s : BankDepositSession) : bool :=
  bool_decide (bs_Status s = BSExpired) || bool_decide (bs_Status s = BSCancelled).

(** The part of [HandleBankCreditReceived] after the credit has been
    recorded; [None] when the session is past PAYMENT_RECEIVED. *)
Definition HandleBankCreditReceived_plan (env : DEnv) (tn sid : UUID)
    (credit : IncomingBankCredit) (s : BankDepositSession) : result (option BankPlan) :=
  let late := isLate s in
  if negb (BankDepositSession_CanTransitionTo s BSPaymentReceived) then Ok None
  else
    let s := set_bs_amounts s (dAdd (bs_ReceivedAmount s) (bc_Amount credit))
               (bs_FeeAmount s) (bs_NetAmount s) in
    let s := set_bs_payer s (bc_PayerName credit) (bc_PayerReference credit)
               (bc_BankReference credit) in
    let s := set_bs_times s (Some (de_now env 0)) (bs_CreditedAt s) (bs_SettledAt s)
               (bs_ExpiredAt s) (bs_FailedAt s) in
    let? s := moveTo "handle bank credit" (de_now env 1) BSPaymentReceived s in
    let ev := NBankSession (bankSessionEvent sid tn BSPaymentReceived (bs_Currency s)
                              (bc_Amount credit) "") in
    let entries :=
      bankEvent env 2 sid tn EventBankDepositPaymentReceived (PNotice ev)
      :: bankDepositNotificationEntries env 3 sid tn EventBankDepositPaymentReceived
           ("Bank payment received — " +:+ dString (bc_Amount credit) +:+ " " +:+ bs_Currency s)
           ev in
    let entries :=
      if late then
        (entries ++ [bankEvent env 5 sid tn EventBankDepositLatePayment
           (PNotice (NBankSession (bankSessionEvent sid tn BSPaymentReceived (bs_Currency s)
                                     (bc_Amount credit) "late_payment")))])%list
      else entries in
    Ok (Some (s, entries)).

(** What [validateAndRoutePayment] makes of the received amount. *)
Definition mismatch (s : BankDepositSession)
  : option (BankDepositSessionStatus * string) :=
  let rejects := String.eqb (bs_MismatchPolicy s) PaymentMismatchPolicyReject in
  if LessThan (bs_ReceivedAmount s) (bs_MinAmount s) && rejects
  then Some (BSUnderpaid, "underpaid")
  else if GreaterThan (bs_ReceivedAmount s) (bs_MaxAmount s) && rejects
  then Some (BSOverpaid, "overpaid")
  else None.

(** The first half of [handleMismatch]: the mismatch and the refund intent. *)
Definition handleMismatch_plan (env : DEnv) (mismatchStatus : BankDepositSessionStatus)
    (reason : string) (s : BankDepositSession) : result BankPlan :=
  let? s := moveTo "handle mismatch" (de_now env 0) mismatchStatus s in
  let eventType := if decide (mismatchStatus = BSUnderpaid)
                   then EventBankDepositUnderpaid else EventBankDepositOverpaid in
  let ev := NBankSession (bankSessionEvent (bs_ID s) (bs_TenantID s) mismatchStatus
                            (bs_Currency s) (bs_ReceivedAmount s) reason) in
  let refund := {| rbp_SessionID := bs_ID s; rbp_TenantID := bs_TenantID s;
                   rbp_AccountNumber := bs_AccountNumber s; rbp_Amount := bs_ReceivedAmount s;
                   rbp_Currency := bs_Currency s; rbp_Reason := reason |} in
  Ok (s, (bankEvent env 1 (bs_ID s) (bs_TenantID s) eventType (PNotice ev)
          :: bankDepositNotificationEntries env 2 (bs_ID s) (bs_TenantID s) eventType
               ("Bank deposit " +:+ reason +:+ " — received " +:+ dString (bs_ReceivedAmount s)
                +:+ ", expected " +:+ dString (bs_ExpectedAmount s) +:+ " " +:+ bs_Currency s) ev
          ++ [bankIntent env 4 (bs_ID s) (bs_TenantID s) IntentBankDepositRefund
                (PRefundBankDeposit refund)])%list).

Definition mismatchReason (reason : string) (s : BankDepositSession) : string :=
  "payment " +:+ reason +:+ " — received " +:+ dString (bs_ReceivedAmount s) +:+ ", expected "
  +:+ dString (bs_ExpectedAmount s).

Definition initiateCredit_plan (env : DEnv) (tn sid : UUID) (s : BankDepositSession)
  : result BankPlan :=
  if negb (bool_decide (bs_Status s = BSPaymentReceived)) then Err (wrongStatus "initiate credit")
  else
    let? tenant := wrap "initiate credit: loading tenant" (de_GetTenant env 0 tn) in
    let feeAmount := CalculateBankCollectionFee (bs_ReceivedAmount s) (tn_FeeSchedule tenant) in
    let netAmount := dSub (bs_ReceivedAmount s) feeAmount in
    let? s := moveTo "initiate credit" (de_now env 0) BSCrediting s in
    let p := {| cbp_SessionID := sid; cbp_TenantID := tn; cbp_Currency := bs_Currency s;
                cbp_GrossAmount := bs_ReceivedAmount s; cbp_FeeAmount := feeAmount;
                cbp_NetAmount := netAmount; cbp_BankReference := bs_BankReference s;
                cbp_IdempotencyKey := "bank-deposit-credit:" +:+ uuid_String sid |} in
    let ev := NBankSession (bankSessionEvent sid tn BSCrediting (bs_Currency s) netAmount "") in
    Ok (s, [bankIntent env 1 sid tn IntentBankDepositCredit (PCreditBankDeposit p);
            bankEvent env 2 sid tn EventBankDepositSessionCrediting (PNotice ev)]).

Definition HandleCreditResult_plan (env : DEnv) (tn sid : UUID) (s : BankDepositSession)
  : result BankPlan :=
  let? tenant := wrap "handle credit result: loading tenant" (de_GetTenant env 0 tn) in
  let feeAmount := CalculateBankCollectionFee (bs_ReceivedAmount s) (tn_FeeSchedule tenant) in
  let netAmount := dSub (bs_ReceivedAmount s) feeAmount in
  let s := set_bs_amounts s (bs_ReceivedAmount s) feeAmount netAmount in
  let s := set_bs_times s (bs_PaymentReceivedAt s) (Some (de_now env 0)) (bs_SettledAt s)
             (bs_ExpiredAt s) (bs_FailedAt s) in
  let? s := moveTo "handle credit result" (de_now env 1) BSCredited s in
  let ev := NBankSession (bankSessionEvent sid tn BSCredited (bs_Currency s) netAmount "") in
  Ok (s, bankEvent env 2 sid tn EventBankDepositSessionCredited (PNotice ev)
         :: bankDepositNotificationEntries env 3 sid tn EventBankDepositSessionCredited
              ("Bank deposit credited — " +:+ dString netAmount +:+ " " +:+ bs_Currency s
               +:+ " (net)") ev).

Definition initiateSettlement_plan (env : DEnv) (s : BankDepositSession) : result BankPlan :=
  if negb (bool_decide (bs_Status s = BSCredited)) then Err (wrongStatus "initiate settlement")
  else
    let? s := moveTo "initiate settlement" (de_now env 0) BSSettling s in
    let p := {| sbp_SessionID := bs_ID s; sbp_TenantID := bs_TenantID s;
                sbp_Currency := bs_Currency s; sbp_Amount := bs_NetAmount s;
                sbp_TargetFiat := CurrencyUSD |} in
    let ev := NBankSession (bankSessionEvent (bs_ID s) (bs_TenantID s) BSSettling
                              (bs_Currency s) (bs_NetAmount s) "") in
    Ok (s, [bankIntent env 1 (bs_ID s) (bs_TenantID s) IntentBankDepositSettle
              (PSettleBankDeposit p);
            bankEvent env 2 (bs_ID s) (bs_TenantID s) EventBankDepositSessionSettling
              (PNotice ev)]).

Definition holdSession_plan (env : DEnv) (s : BankDepositSession) : result BankPlan :=
  if negb (bool_decide (bs_Status s = BSCredited)) then Err (wrongStatus "hold session")
  else
    let? s := moveTo "hold session" (de_now env 0) BSHeld s in
    let ev := NBankSession (bankSessionEvent (bs_ID s) (bs_TenantID s) BSHeld (bs_Currency s)
                              (bs_NetAmount s) "") in
    Ok (s, bankEvent env 1 (bs_ID s) (bs_TenantID s) EventBankDepositSessionHeld (PNotice ev)
           :: bankDepositNotificationEntries env 2 (bs_ID s) (bs_TenantID s)
                EventBankDepositSessionHeld
                ("Bank deposit held — " +:+ dString (bs_NetAmount s) +:+ " " +:+ bs_Currency s
                 +:+ " awaiting settlement preference") ev).

Definition routeAfterCredit_plan (env : DEnv) (s : BankDepositSession) : result BankPlan :=
  if String.eqb (bs_SettlementPref s) SettlementPreferenceAutoConvert
  then initiateSettlement_plan env s else holdSession_plan env s.

Definition HandleSettlementResult_plan (env : DEnv) (tn sid : UUID) (r : IntentResult)
    (s : BankDepositSession) : result BankPlan :=
  let s := set_bs_times s (bs_PaymentReceivedAt s) (bs_CreditedAt s) (Some (de_now env 0))
             (bs_ExpiredAt s) (bs_FailedAt s) in
  let s := set_bs_settlement s (linkedTransfer r (bs_SettlementTransferID s)) in
  let? s := moveTo "handle settlement result" (de_now env 1) BSSettled s in
  let ev := NBankSession (bankSessionEvent sid tn BSSettled (bs_Currency s) (bs_NetAmount s) "") in
  Ok (s, bankEvent env 2 sid tn EventBankDepositSessionSettled (PNotice ev)
         :: bankDepositNotificationEntries env 3 sid tn EventBankDepositSessionSettled
              ("Bank deposit settled — " +:+ dString (bs_NetAmount s) +:+ " " +:+ bs_Currency s
               +:+ " converted") ev).

(** The intent that returns a temporary account to the pool. *)
Definition recycleEntries (env : DEnv) (i : nat) (tn sid : UUID) (s : BankDepositSession)
  : list OutboxEntry :=
  if String.eqb (bs_AccountType s) VirtualAccountTypeTemporary then
    [bankIntent env i sid tn IntentRecycleVirtualAccount
       (PRecycleVirtualAccount {| rvp_AccountID := uuid_Nil;
          rvp_AccountNumber := bs_AccountNumber s;
          rvp_BankingPartnerID := bs_BankingPartnerID s |})]
  else [].

Definition ExpireSession_plan (env : DEnv) (tn sid : UUID) (s : BankDepositSession)
  : result (option BankPlan) :=
  if negb (bool_decide (bs_Status s = BSPendingPayment)) then Ok None
  else
    let s := set_bs_times s (bs_PaymentReceivedAt s) (bs_CreditedAt s) (bs_SettledAt s)
               (Some (de_now env 0)) (bs_FailedAt s) in
    let? s := moveTo "expire session" (de_now env 1) BSExpired s in
    let ev := NBankSession (bankSessionEvent sid tn BSExpired "" dZero "ttl_exceeded") in
    Ok (Some (s, (bankEvent env 2 sid tn EventBankDepositSessionExpired (PNotice ev)
        :: recycleEntries env 3 tn sid s
        ++ bankDepositNotificationEntries env 4 sid tn EventBankDepositSessionExpired
             "Bank deposit session expired — no payment received within TTL" ev)%list)).

Definition CancelSession_plan (env : DEnv) (tn sid : UUID) (s : BankDepositSession)
  : result BankPlan :=
  if negb (bool_decide (bs_Status s = BSPendingPayment)) then Err (wrongStatus "cancel session")
  else
    let? s := moveTo "cancel session" (de_now env 0) BSCancelled s in
    let ev := NBankSession (bankSessionEvent sid tn BSCancelled "" dZero "user_cancelled") in
    Ok (s, (bankEvent env 1 sid tn EventBankDepositSessionCancelled (PNotice ev)
        :: recycleEntries env 2 tn sid s
        ++ bankDepositNotificationEntries env 3 sid tn EventBankDepositSessionCancelled
             "Bank deposit session cancelled" ev)%list).
End Plans.

(** ** Handlers *)

Section Handlers.
Context {L : ThirdParty} {St : Type} `{BD : !BankDepositStore St}.

Definition loadSession (step : string) (tn sid : UUID) (st : St)
  : result BankDepositSession * St :=
  let '(r, st) := bd_GetSession tn sid st in (wrap step r, st).

Definition commitPlan (step : string) (p : BankPlan) (st : St) : result unit * St :=
  match bd_TransitionWithOutbox p.1 p.2 st with
  | (Ok _, st) => (Ok tt, st)
  | (Err e, st) => (Err (depositWrapTransitionError e step), st)
  end.

Definition commitResult (step : string) (p : result BankPlan) (st : St) : result unit * St :=
  match p with
  | Ok p => commitPlan step p st
  | Err e => (Err e, st)
  end.

(** *** Creation *)

Definition checkTenant (tenant : Tenant) : result unit :=
  if negb (Tenant_IsActive tenant) then Err (DomainErr CodeTenantSuspended)
  else if negb (bk_BankDepositsEnabled (tn_BankConfig tenant))
  then Err (DomainErr CodeBankDepositsDisabled)
  else Ok tt.

Definition checkRequest (tenant : Tenant) (req : CreateSessionRequest) : result unit :=
  let? _ := checkTenant tenant in
  if negb (existsb (fun c => String.eqb c (bsr_Currency req))
             (bk_BankSupportedCurrencies (tn_BankConfig tenant)))
  then Err (DomainErr CodeCurrencyNotSupported)
  else if negb (IsPositive (bsr_ExpectedAmount req)) then Err (DomainErr CodeAmountTooLow)
  else Ok tt.

Definition orDefault (x default : string) : string := if String.eqb x "" then default else x.

Definition ttlOf (requested configured : Z) : Z :=
  let ttl := if requested <=? 0 then configured else requested in
  if ttl <=? 0 then 3600 else ttl.

Definition newSession (env : DEnv) (tenant : Tenant) (tn : UUID) (req : CreateSessionRequest)
    (acc : VirtualAccountPool) : BankDepositSession :=
  let now := de_now env 0 in
  {| bs_ID := de_newv7 env 0; bs_TenantID := tn; bs_IdempotencyKey := bsr_IdempotencyKey req;
     bs_Status := BSPendingPayment; bs_Version := 1;
     bs_BankingPartnerID := va_BankingPartnerID acc; bs_AccountNumber := va_AccountNumber acc;
     bs_AccountName := va_AccountName acc; bs_SortCode := va_SortCode acc; bs_IBAN := va_IBAN acc;
     bs_AccountType := VirtualAccountTypeTemporary; bs_Currency := bsr_Currency req;
     bs_ExpectedAmount := bsr_ExpectedAmount req;
     bs_MinAmount := if IsZero (bsr_MinAmount req) then bsr_ExpectedAmount req else bsr_MinAmount req;
     bs_MaxAmount := if IsZero (bsr_MaxAmount req) then bsr_ExpectedAmount req else bsr_MaxAmount req;
     bs_ReceivedAmount := dZero; bs_FeeAmount := dZero; bs_NetAmount := dZero;
     bs_MismatchPolicy := orDefault
       (orDefault (bsr_MismatchPolicy req) (bk_DefaultMismatchPolicy (tn_BankConfig tenant)))
       PaymentMismatchPolicyAccept;
     bs_CollectionFeeBPS := BankCollectionBPS (tn_FeeSchedule tenant);
     bs_SettlementPref := orDefault (bsr_SettlementPref req) SettlementPreferenceHold;
     bs_SettlementTransferID := None; bs_PayerName := ""; bs_PayerReference := "";
     bs_BankReference := "";
     bs_ExpiresAt := now + ttlOf (bsr_TTLSeconds req)
                             (bk_DefaultSessionTTLSecs (tn_BankConfig tenant)) * 1000000000;
     bs_CreatedAt := now; bs_UpdatedAt := now; bs_PaymentReceivedAt := None;
     bs_CreditedAt := None; bs_SettledAt := None; bs_ExpiredAt := None; bs_FailedAt := None;
     bs_FailureReason := ""; bs_FailureCode := ""; bs_Metadata := bsr_Metadata req |}.

Definition newSessionEntries (env : DEnv) (tn : UUID) (req : CreateSessionRequest)
    (s : BankDepositSession) : list OutboxEntry :=
  let ev := NBankSession (bankSessionEvent (bs_ID s) tn BSPendingPayment (bsr_Currency req)
                            (bsr_ExpectedAmount req) "") in
  bankEvent env 1 (bs_ID s) tn EventBankDepositSessionCreated (PNotice ev)
  :: bankDepositNotificationEntries env 2 (bs_ID s) tn EventBankDepositSessionCreated
       ("Bank deposit session created — awaiting " +:+ dString (bsr_ExpectedAmount req) +:+ " "
        +:+ bsr_Currency req) ev.

Definition createFresh (env : DEnv) (tenant : Tenant) (tn : UUID) (req : CreateSessionRequest)
    (st : St) : result BankDepositSession * St :=
  match bd_DispenseVirtualAccount tn (bsr_Currency req) st with
  | (Err e, st) => (Err (WrapErr "create session: dispensing virtual account" e), st)
  | (Ok None, st) => (Err (DomainErr CodeVirtualAccountPoolEmpty), st)
  | (Ok (Some acc), st) =>
      let s := newSession env tenant tn req acc in
      let '(r, st) := bd_CreateSessionWithOutbox s (newSessionEntries env tn req s) st in
      (wrap "create session: persisting" r, st)
  end.

Definition CreateSession (env : DEnv) (tn : UUID) (req : CreateSessionRequest) (st : St)
  : result BankDepositSession * St :=
  match wrap "create session: loading tenant" (de_GetTenant env 0 tn) with
  | Err e => (Err e, st)
  | Ok tenant =>
      match checkRequest tenant req with
      | Err e => (Err e, st)
      | Ok _ =>
          if String.eqb (bsr_IdempotencyKey req) "" then createFresh env tenant tn req st
          else match bd_GetSessionByIdempotencyKey tn (bsr_IdempotencyKey req) st with
               | (Ok existing, st) => (Ok existing, st)
               | (Err _, st) => createFresh env tenant tn req st
               end
      end
  end.

Definition permanentSession (env : DEnv) (tenant : Tenant) (tn : UUID) (key : string)
    (accountNumber bankingPartnerID : string) (credit : IncomingBankCredit)
  : BankDepositSession :=
  let now := de_now env 0 in
  {| bs_ID := de_newv7 env 0; bs_TenantID := tn; bs_IdempotencyKey := key;
     bs_Status := BSPendingPayment; bs_Version := 1; bs_BankingPartnerID := bankingPartnerID;
     bs_AccountNumber := accountNumber; bs_AccountName := ""; bs_SortCode := ""; bs_IBAN := "";
     bs_AccountType := VirtualAccountTypePermanent; bs_Currency := bc_Currency credit;
     bs_ExpectedAmount := bc_Amount credit; bs_MinAmount := bc_Amount credit;
     bs_MaxAmount := bc_Amount credit; bs_ReceivedAmount := dZero; bs_FeeAmount := dZero;
     bs_NetAmount := dZero;
     bs_MismatchPolicy := orDefault (bk_DefaultMismatchPolicy (tn_BankConfig tenant))
                            PaymentMismatchPolicyAccept;
     bs_CollectionFeeBPS := BankCollectionBPS (tn_FeeSchedule tenant);
     bs_SettlementPref := SettlementPreferenceAutoConvert; bs_SettlementTransferID := None;
     bs_PayerName := ""; bs_PayerReference := ""; bs_BankReference := "";
     bs_ExpiresAt := now + (let ttl := bk_DefaultSessionTTLSecs (tn_BankConfig tenant) in
                            if ttl <=? 0 then 3600 else ttl) * 1000000000;
     bs_CreatedAt := now; bs_UpdatedAt := now; bs_PaymentReceivedAt := None;
     bs_CreditedAt := None; bs_SettledAt := None; bs_ExpiredAt := None; bs_FailedAt := None;
     bs_FailureReason := ""; bs_FailureCode := ""; bs_Metadata := ∅ |}.

Definition permanentEntries (env : DEnv) (tn : UUID) (credit : IncomingBankCredit)
    (s : BankDepositSession) : list OutboxEntry :=
  [bankEvent env 1 (bs_ID s) tn EventBankDepositSessionCreated
     (PNotice (NBankSession (bankSessionEvent (bs_ID s) tn BSPendingPayment (bc_Currency credit)
                               (bc_Amount credit) "")))].

Definition CreateSessionForPermanentAccount (env : DEnv) (tn : UUID)
    (accountNumber bankingPartnerID : string) (credit : IncomingBankCredit) (st : St)
  : result BankDepositSession * St :=
  match (let? tenant := wrap "create permanent session: loading tenant" (de_GetTenant env 0 tn) in
         let? _ := checkTenant tenant in
         let? key := wrap "create permanent session: generating idempotency key"
                       (NewIdempotencyKey ("permanent:" +:+ accountNumber +:+ ":"
                                           +:+ bc_BankReference credit)) in
         Ok (tenant, key)) with
  | Err e => (Err e, st)
  | Ok (tenant, key) =>
      match bd_GetSessionByIdempotencyKey tn key st with
      | (Ok existing, st) => (Ok existing, st)
      | (Err _, st) =>
          let s := permanentSession env tenant tn key accountNumber bankingPartnerID credit in
          let '(r, st) := bd_CreateSessionWithOutbox s (permanentEntries env tn credit s) st in
          (wrap "create permanent session: persisting" r, st)
      end
  end.

(** *** Payments *)

Definition depositTx (env : DEnv) (tn sid : UUID) (credit : IncomingBankCredit)
  : BankDepositTransaction :=
  {| bt_ID := de_newv7 env 0; bt_SessionID := sid; bt_TenantID := tn;
     bt_BankReference := bc_BankReference credit; bt_PayerName := bc_PayerName credit;
     bt_PayerAccountNumber := bc_PayerAccountNumber credit; bt_Amount := bc_Amount credit;
     bt_Currency := bc_Currency credit; bt_ReceivedAt := bc_ReceivedAt credit;
     bt_CreatedAt := de_now env 0 |}.

(** Whether the credit is new and has been recorded now. *)
Definition recordCredit (env : DEnv) (tn sid : UUID) (credit : IncomingBankCredit) (st : St)
  : result bool * St :=
  match bd_GetBankDepositTxByRef (bc_BankReference credit) st with
  | (Ok _, st) => (Ok false, st)
  | (Err _, st) =>
      match bd_RecordBankDepositTx (depositTx env tn sid credit) tn sid (bc_Amount credit) st with
      | (Err e, st) => (Err (WrapErr "handle bank credit: recording tx and accumulating" e), st)
      | (Ok _, st) => (Ok true, st)
      end
  end.

(** Reads the session again. *)
Definition initiateCredit (env : DEnv) (tn sid : UUID) (st : St) : result unit * St :=
  let! s / st := loadSession "initiate credit: loading session" tn sid st in
  commitResult "initiate credit" (initiateCredit_plan env tn sid s) st.

Definition failSession (env : DEnv) (reason code : string) (s : BankDepositSession) (st : St)
  : result unit * St :=
  commitResult "fail session" (failSession_plan env reason code s) st.

(** The failure is planned on the session in memory, not on a fresh read. *)
Definition handleMismatch (env : DEnv) (mismatchStatus : BankDepositSessionStatus)
    (reason : string) (s : BankDepositSession) (st : St) : result unit * St :=
  match handleMismatch_plan env mismatchStatus reason s with
  | Err e => (Err e, st)
  | Ok p =>
      let! _ / st := commitPlan "handle mismatch" p st in
      failSession (later 5 env) (mismatchReason reason p.1) "PAYMENT_MISMATCH" p.1 st
  end.

Definition validateAndRoutePayment (env : DEnv) (tn sid : UUID) (st : St) : result unit * St :=
  let! s / st := loadSession "validate payment: loading session" tn sid st in
  if negb (bool_decide (bs_Status s = BSPaymentReceived))
  then (Err (wrongStatus "validate payment"), st)
  else match mismatch s with
       | Some (status, reason) => handleMismatch env status reason s st
       | None => initiateCredit env tn sid st
       end.

Definition HandleBankCreditReceived (env : DEnv) (tn sid : UUID) (credit : IncomingBankCredit)
    (st : St) : result unit * St :=
  let! s / st := loadSession "handle bank credit: loading session" tn sid st in
  let! fresh / st := recordCredit env tn sid credit st in
  if fresh : bool then
    match HandleBankCreditReceived_plan (later 1 env) tn sid credit s with
    | Err e => (Err e, st)
    | Ok None => (Ok tt, st)
    | Ok (Some p) =>
        let! _ / st := commitPlan "handle bank credit" p st in
        validateAndRoutePayment (later 7 env) tn sid st
    end
  else (Ok tt, st).

(** *** Results, expiry, cancellation *)

Definition routeAfterCredit (env : DEnv) (tn sid : UUID) (st : St) : result unit * St :=
  let! s / st := loadSession "route after credit: loading session" tn sid st in
  commitResult (if String.eqb (bs_SettlementPref s) SettlementPreferenceAutoConvert
                then "initiate settlement" else "hold session")
    (routeAfterCredit_plan env s) st.

Definition HandleCreditResult (env : DEnv) (tn sid : UUID) (r : IntentResult) (st : St)
  : result unit * St :=
  let! s / st := loadSession "handle credit result: loading session" tn sid st in
  if negb (bool_decide (bs_Status s = BSCrediting)) then (Err (wrongStatus "handle credit result"), st)
  else if negb (ir_Success r) then failSession env (ir_Error r) (ir_ErrorCode r) s st
  else
    let! _ / st := commitResult "handle credit result" (HandleCreditResult_plan env tn sid s) st in
    routeAfterCredit (later 5 env) tn sid st.

Definition HandleSettlementResult (env : DEnv) (tn sid : UUID) (r : IntentResult) (st : St)
  : result unit * St :=
  let! s / st := loadSession "handle settlement result: loading session" tn sid st in
  if negb (bool_decide (bs_Status s = BSSettling))
  then (Err (wrongStatus "handle settlement result"), st)
  else if negb (ir_Success r) then failSession env (ir_Error r) (ir_ErrorCode r) s st
  else commitResult "handle settlement result" (HandleSettlementResult_plan env tn sid r s) st.

Definition ExpireSession (env : DEnv) (tn sid : UUID) (st : St) : result unit * St :=
  let! s / st := loadSession "expire session: loading session" tn sid st in
  match ExpireSession_plan env tn sid s with
  | Err e => (Err e, st)
  | Ok None => (Ok tt, st)
  | Ok (Some p) => commitPlan "expire session" p st
  end.

Definition CancelSession (env : DEnv) (tn sid : UUID) (st : St) : result unit * St :=
  let! s / st := loadSession "cancel session: loading session" tn sid st in
  commitResult "cancel session" (CancelSession_plan env tn sid s) st.

(** *** Reads *)

Definition GetSession (tn sid : UUID) (st : St) : result BankDepositSession * St :=
  let '(r, st) := bd_GetSession tn sid st in (wrap "get session" r, st).

Definition ListSessions (tn : UUID) (limit offset : Z) (st : St)
  : result (list BankDepositSession) * St :=
  let '(r, st) := bd_ListSessions tn limit offset st in (wrap "list sessions" r, st).

Definition ListSessionsCursor (tn : UUID) (pageSize cursor : Z) (st : St)
  : result (list BankDepositSession) * St :=
  let '(r, st) := bd_ListSessionsCursor tn pageSize cursor st in
  (wrap "list sessions cursor" r, st).

(** Page sizes are clamped to 1..100 with 20 as the default. *)
Definition clampLimit (n : Z) : Z :=
  let n := if n <=? 0 then 20 else n in if 100 <? n then 100 else n.

Definition ListVirtualAccounts (p : VirtualAccountListParams) (st : St)
  : result (list VirtualAccountPool * Z) * St :=
  let p := {| vlp_TenantID := vlp_TenantID p; vlp_Currency := vlp_Currency p;
              vlp_AccountType := vlp_AccountType p; vlp_Limit := clampLimit (vlp_Limit p);
              vlp_Offset := if vlp_Offset p <? 0 then 0 else vlp_Offset p |} in
  let '(r, st) := bd_ListVirtualAccountsPaginated p st in (wrap "list virtual accounts" r, st).

Definition ListVirtualAccountsCursor (p : VirtualAccountCursorParams) (st : St)
  : result (list VirtualAccountPool) * St :=
  let p := {| vcp_TenantID := vcp_TenantID p; vcp_Currency := vcp_Currency p;
              vcp_AccountType := vcp_AccountType p; vcp_PageSize := clampLimit (vcp_PageSize p);
              vcp_Cursor := vcp_Cursor p |} in
  let '(r, st) := bd_ListVirtualAccountsCursor p st in
  (wrap "list virtual accounts cursor" r, st).
End Handlers.
End Bank.
