(* ===== verification/BankDepositProps.v ===== *)
(** * core/bankdeposit: correctness of the bank deposit engine

    The system of concurrently running handlers ([bsys_step]) as an instance
    of Machine.v: whatever the interleaving, a session is credited or refunded
    and never both.  Then one payment on its own: where the received amount
    ends up, branch by branch, and what a bank reference that is already on
    record does. *)

From Stdlib Require Import QArith Lqa.
From S2P Require Import Prelude ThirdParty Sql Machine Money Deposits Transfer Outbox TransferStore DepositStore DepositEngine DepositProps BankDepositStore BankDepositEngine.
Local Open Scope string_scope.
Local Open Scope Z_scope.

Module BankProps.
Import Bank.

(** ** Stages *)

Section Stages.
Context {L : ThirdParty}.

(** The points at which a handler knows a session and decides a write.
    [BFail] is the second half of [handleMismatch]. *)
Inductive BStage :=
| BReceived (credit : IncomingBankCredit)
| BMismatch
| BFail (reason : string)
| BCredit
| BCreditResult (r : IntentResult)
| BRoute
| BSettlementResult (r : IntentResult)
| BExpire
| BCancel.

Definition stagePlan (env : DEnv) (tn sid : UUID) (st : BStage) (s : BankDepositSession)
  : result (option BankPlan) :=
  match st with
  | BReceived c => HandleBankCreditReceived_plan env tn sid c s
  | BMismatch =>
      if negb (bool_decide (bs_Status s = BSPaymentReceived)) then Err (wrongStatus "validate payment")
      else match mismatch s with
           | Some (status, reason) => one (handleMismatch_plan env status reason s)
           | None => Ok None
           end
  | BFail reason =>
      if bool_decide (bs_Status s = BSUnderpaid) || bool_decide (bs_Status s = BSOverpaid)
      then one (failSession_plan env (mismatchReason reason s) "PAYMENT_MISMATCH" s) else Ok None
  | BCredit => one (initiateCredit_plan env tn sid s)
  | BCreditResult r =>
      if negb (bool_decide (bs_Status s = BSCrediting)) then Err (wrongStatus "handle credit result")
      else one (if negb (ir_Success r) then failSession_plan env (ir_Error r) (ir_ErrorCode r) s
                else HandleCreditResult_plan env tn sid s)
  | BRoute => one (routeAfterCredit_plan env s)
  | BSettlementResult r =>
      if negb (bool_decide (bs_Status s = BSSettling))
      then Err (wrongStatus "handle settlement result")
      else one (if negb (ir_Success r) then failSession_plan env (ir_Error r) (ir_ErrorCode r) s
                else HandleSettlementResult_plan env tn sid r s)
  | BExpire => ExpireSession_plan env tn sid s
  | BCancel => one (CancelSession_plan env tn sid s)
  end.

(** The edges of [ValidBankDepositTransitions] the engine takes. *)
Definition bankEdges (s : BankDepositSessionStatus) : list BankDepositSessionStatus :=
  match s with
  | BSPendingPayment => [BSPaymentReceived; BSExpired; BSCancelled]
  | BSExpired | BSCancelled => [BSPaymentReceived]
  | BSPaymentReceived => [BSCrediting; BSUnderpaid; BSOverpaid]
  | BSCrediting => [BSCredited; BSFailed]
  | BSCredited => [BSSettling; BSHeld]
  | BSSettling => [BSSettled; BSFailed]
  | BSUnderpaid | BSOverpaid => [BSFailed]
  | BSSettled | BSHeld | BSFailed => []
  end.

Definition bankRank (s : BankDepositSessionStatus) : nat :=
  match s with
  | BSPendingPayment => 6 | BSExpired | BSCancelled => 5 | BSPaymentReceived => 4
  | BSCrediting => 3 | BSCredited => 2 | BSSettling | BSUnderpaid | BSOverpaid => 1
  | BSSettled | BSHeld | BSFailed => 0
  end%nat.

Definition bankEmitted (s : BankDepositSessionStatus) : list MoneyKind :=
  match s with
  | BSCrediting => [MCredit] | BSSettling => [MSettle]
  | BSUnderpaid | BSOverpaid => [MRefund] | _ => []
  end.

Definition bankMoneyOf (k : UUID) (e : OutboxEntry) : option MoneyKind :=
  match oe_Payload e with
  | PCreditBankDeposit p => if decide (cbp_SessionID p = k) then Some MCredit else None
  | PSettleBankDeposit p => if decide (sbp_SessionID p = k) then Some MSettle else None
  | PRefundBankDeposit p => if decide (rbp_SessionID p = k) then Some MRefund else None
  | _ => None
  end.

Definition bankMoney (k : UUID) (es : list OutboxEntry) : list MoneyKind := omap (bankMoneyOf k) es.

Lemma bankMoney_app k es es' :
  bankMoney k (es ++ es')%list = (bankMoney k es ++ bankMoney k es')%list.
Proof. apply omap_app. Qed.

Lemma bankMoney_payload k es es' :
  map oe_Payload es = map oe_Payload es' -> bankMoney k es = bankMoney k es'.
Proof.
  revert es'. induction es as [|e es IH]; intros [|e' es'] H; try done. injection H as He Hl.
  unfold bankMoney in *. cbn [omap list_omap]. rewrite (IH _ Hl).
  assert (bankMoneyOf k e = bankMoneyOf k e') as -> by (unfold bankMoneyOf; by rewrite He). done.
Qed.

Lemma bankMoney_params k es : bankMoney k (map outboxEntryToParams es) = bankMoney k es.
Proof. apply bankMoney_payload. rewrite map_map. by apply map_ext. Qed.

Lemma bankEvent_payload env i sid tn ty p : existsb (String.eqb ty) knownEventTypes = true ->
  oe_Payload (bankEvent env i sid tn ty p) = p.
Proof.
  intros H. unfold bankEvent, MustNewOutboxEvent, NewOutboxEvent, ValidateEventType. by rewrite H.
Qed.

Lemma bankIntent_payload env i sid tn ty p : existsb (String.eqb ty) knownEventTypes = true ->
  oe_Payload (bankIntent env i sid tn ty p) = p.
Proof.
  intros H. unfold bankIntent, MustNewOutboxIntent, NewOutboxIntent, ValidateEventType. by rewrite H.
Qed.

Lemma bankMoveTo_ok step now target s s' : moveTo step now target s = Ok s' ->
  s' = set_bs_status s target (add64 (bs_Version s) 1) now.
Proof.
  unfold moveTo, wrap. destruct (BankDepositSession_TransitionTo s target now) eqn:E; [|done].
  intros [= <-]. by apply bank_transition_ok in E as [_ ->].
Qed.

Record bplan_good (s : BankDepositSession) (p : BankPlan) : Prop := {
  bpg_id : bs_ID p.1 = bs_ID s;
  bpg_version : bs_Version p.1 = add64 (bs_Version s) 1;
  bpg_edge : bs_Status p.1 ∈ bankEdges (bs_Status s);
  bpg_money : bankMoney (bs_ID s) p.2 = bankEmitted (bs_Status p.1);
  bpg_others k : k <> bs_ID s -> bankMoney k p.2 = [];
}.

Ltac entries :=
  unfold bankMoney, bankDepositNotificationEntries, bankDepositWebhookEntry, bankDepositEmailEntry;
  cbn [omap list_omap app]; unfold bankMoneyOf;
  rewrite ?bankEvent_payload, ?bankIntent_payload by (vm_compute; reflexivity); cbn -[decide].

Ltac plan_step :=
  match goal with
  | |- context [wrap ?c (de_GetTenant ?e ?i ?t)] =>
      destruct (wrap c (de_GetTenant e i t)); [|discriminate]
  | |- context [match moveTo ?a ?b ?c ?d with _ => _ end] =>
      let E := fresh "E" in
      destruct (moveTo a b c d) eqn:E; [apply bankMoveTo_ok in E; subst|discriminate]
  | |- context [negb (bool_decide (bs_Status ?s = ?x))] =>
      let H := fresh "Hst" in destruct (bool_decide_reflect (bs_Status s = x)) as [H|H];
      cbn [negb]; [|try discriminate]
  end.

Ltac plan_done s :=
  intros [= <- <-]; split; cbn -[bankMoney] in *;
  [reflexivity | reflexivity
  | repeat match goal with H : bs_Status s = _ |- _ => rewrite H end; set_solver
  | entries; rewrite ?decide_True by done; reflexivity
  | intros k Hk; entries; rewrite ?decide_False by congruence; reflexivity ].

Lemma failSession_bgood env reason code s w es :
  bs_Status s ∈ [BSCrediting; BSSettling; BSUnderpaid; BSOverpaid] ->
  failSession_plan env reason code s = Ok (w, es) -> bplan_good s (w, es).
Proof.
  intros Hs. unfold failSession_plan. cbv zeta. plan_step. set_unfold in Hs.
  destruct Hs as [Hs|[Hs|[Hs|[Hs|[]]]]]; plan_done s.
Qed.

Lemma received_bgood env credit s w es :
  HandleBankCreditReceived_plan env (bs_TenantID s) (bs_ID s) credit s = Ok (Some (w, es)) ->
  bplan_good s (w, es).
Proof.
  unfold HandleBankCreditReceived_plan. cbv zeta.
  destruct (BankDepositSession_CanTransitionTo s BSPaymentReceived) eqn:Hc; [|done]. cbn [negb].
  assert (BSPaymentReceived ∈ bankEdges (bs_Status s)).
  { unfold BankDepositSession_CanTransitionTo in Hc. destruct (bs_Status s); try done; set_solver. }
  plan_step. destruct (isLate s); plan_done s; done.
Qed.

Lemma mismatch_status s x reason : mismatch s = Some (x, reason) -> x = BSUnderpaid \/ x = BSOverpaid.
Proof. unfold mismatch. repeat case_match; intros [= <- <-]; auto. Qed.

Lemma handleMismatch_bgood env x reason s w es :
  bs_Status s = BSPaymentReceived -> x = BSUnderpaid \/ x = BSOverpaid ->
  handleMismatch_plan env x reason s = Ok (w, es) -> bplan_good s (w, es).
Proof.
  intros Hs Hx. unfold handleMismatch_plan. cbv zeta. plan_step.
  destruct Hx as [-> | ->]; [rewrite decide_True by done|rewrite decide_False by done]; plan_done s.
Qed.

Lemma expire_bgood env s w es :
  ExpireSession_plan env (bs_TenantID s) (bs_ID s) s = Ok (Some (w, es)) -> bplan_good s (w, es).
Proof.
  unfold ExpireSession_plan. cbv zeta. do 2 plan_step. unfold recycleEntries.
  destruct (String.eqb _ _); plan_done s.
Qed.

Lemma cancel_bgood env s w es :
  CancelSession_plan env (bs_TenantID s) (bs_ID s) s = Ok (w, es) -> bplan_good s (w, es).
Proof.
  unfold CancelSession_plan. cbv zeta. do 2 plan_step. unfold recycleEntries.
  destruct (String.eqb _ _); plan_done s.
Qed.

Lemma bstagePlan_good env st s w es :
  stagePlan env (bs_TenantID s) (bs_ID s) st s = Ok (Some (w, es)) -> bplan_good s (w, es).
Proof.
  destruct st as [c| |reason| |r| |r| |]; cbn [stagePlan].
  - apply received_bgood.
  - plan_step. destruct (mismatch s) as [[x reason]|] eqn:Hm; [|done].
    intros H%one_some. apply mismatch_status in Hm. by eapply handleMismatch_bgood.
  - destruct (_ || _) eqn:Hor; [|done]. intros H%one_some. revert H. apply failSession_bgood.
    apply orb_true_iff in Hor as [H%bool_decide_eq_true|H%bool_decide_eq_true]; rewrite H; set_solver.
  - intros H%one_some. revert H. unfold initiateCredit_plan. cbv zeta. do 3 plan_step. plan_done s.
  - plan_step. intros H%one_some. revert H. destruct (ir_Success r); cbn [negb].
    + unfold HandleCreditResult_plan. cbv zeta. do 2 plan_step. plan_done s.
    + apply failSession_bgood. rewrite Hst. set_solver.
  - intros H%one_some. revert H. unfold routeAfterCredit_plan. destruct (String.eqb _ _).
    + unfold initiateSettlement_plan. cbv zeta. do 2 plan_step. plan_done s.
    + unfold holdSession_plan. cbv zeta. do 2 plan_step. plan_done s.
  - plan_step. intros H%one_some. revert H. destruct (ir_Success r); cbn [negb].
    + unfold HandleSettlementResult_plan. cbv zeta. plan_step. plan_done s.
    + apply failSession_bgood. rewrite Hst. set_solver.
  - apply expire_bgood.
  - intros H%one_some. by apply cancel_bgood in H.
Qed.
End Stages.

(** ** The system *)

Section BankSystem.
Context {L : ThirdParty}.

Definition bankMachine
  : Machine UUID BankDepositSession OutboxEntry BankDepositSessionStatus MoneyKind :=
  {| mc_id := bs_ID; mc_version := bs_Version; mc_status := bs_Status;
     mc_init := BSPendingPayment; mc_first := 1; mc_next := bankEdges; mc_rank := bankRank;
     mc_emitted := bankEmitted; mc_kinds := bankMoney;
     mc_plan s w es := exists env st es0, es = map outboxEntryToParams es0
       /\ stagePlan env (bs_TenantID s) (bs_ID s) st s = Ok (Some (w, es0));
     mc_stamped old w new := bs_ID old = bs_ID w /\ exists now, new = bankTransitionRow now old w;
     mc_touched old new := exists now amount, new = bankAccumulatedRow now old amount;
     mc_fresh row es := bs_Status row = BSPendingPayment /\ bs_Version row = 1
       /\ forall k, bankMoney k es = [] |}.

#[export] Instance bankMachine_laws : MachineLaws bankMachine.
Proof.
  split; simpl.
  - intros [] s' Hs; simpl in Hs; set_unfold in Hs; naive_solver lia.
  - lia.
  - lia.
  - apply bankMoney_app.
  - intros s w es (env & st & es0 & -> & [? ? ? Hm Ho]%bstagePlan_good).
    rewrite bankMoney_params. split_and!; try done. intros k. rewrite bankMoney_params. apply Ho.
  - by intros old w new (Hid & now & ->).
  - by intros old new (now & amount & ->).
  - done.
Qed.

Context {St : Type} `{BD : !BankDepositStore St} {BDL : BankDepositStoreLaws St}.

(** The session and the entries of the two ways to create one. *)
Inductive created : BankDepositSession -> list OutboxEntry -> Prop :=
| CreatedTemporary env tenant tn req acc :
    created (newSession env tenant tn req acc)
      (newSessionEntries env tn req (newSession env tenant tn req acc))
| CreatedPermanent env tenant tn key acc partner credit :
    created (permanentSession env tenant tn key acc partner credit)
      (permanentEntries env tn credit (permanentSession env tenant tn key acc partner credit)).

(** The calls of all handlers that run at the same time, in any order.  A
    handler whose write was acknowledged goes on with the session it wrote. *)
Inductive bsys_step : St * list BankDepositSession -> St * list BankDepositSession -> Prop :=
| BSysRead st fl tn sid s st' :
    bd_GetSession tn sid st = (Ok s, st') -> bsys_step (st, fl) (st', s :: fl)
| BSysWrite st fl s env stage w es r st' :
    s ∈ fl -> stagePlan env (bs_TenantID s) (bs_ID s) stage s = Ok (Some (w, es)) ->
    bd_TransitionWithOutbox w es st = (r, st') ->
    bsys_step (st, fl) (st', if is_ok r then w :: fl else fl)
| BSysRecord st fl tx tn sid amount r st' :
    bd_RecordBankDepositTx tx tn sid amount st = (r, st') -> bsys_step (st, fl) (st', fl)
| BSysCreate st fl s es r st' :
    created s es -> bd_CreateSessionWithOutbox s es st = (r, st') -> bsys_step (st, fl) (st', fl)
| BSysOther st fl st' :
    bview st' = bview st -> (binv st -> binv st') -> bsys_step (st, fl) (st', fl).

Definition bmview (c : St * list BankDepositSession) : MState :=
  {| ms_rows := bv_sessions (bview c.1); ms_log := bv_outbox (bview c.1); ms_flight := c.2 |}.

Lemma created_fresh s es : created s es ->
  bs_Status s = BSPendingPayment /\ bs_Version s = 1 /\ forall k, bankMoney k es = [].
Proof.
  intros [env tenant tn req acc|env tenant tn key acc partner credit]; (split_and!; [done..|]);
    intros k; unfold bankMoney, newSessionEntries, permanentEntries,
      bankDepositNotificationEntries, bankDepositWebhookEntry, bankDepositEmailEntry;
    cbn [omap list_omap]; unfold bankMoneyOf;
    by rewrite ?bankEvent_payload, ?bankIntent_payload by (vm_compute; reflexivity).
Qed.

(** One step of the system is a step of the machine, or none. *)
Lemma bsys_machine c c' : binv c.1 -> bsys_step c c' ->
  binv c'.1 /\ rtc (mstep bankMachine) (bmview c) (bmview c').
Proof.
  intros Hinv Hs. destruct Hs as
    [st fl tn sid s st' Hg|st fl s env stage w es r st' Hin Hp Ht
    |st fl tx tn sid amount r st' Hr|st fl s es r st' Hcr Hc
    |st fl st' Hv Hi]; unfold bmview; simpl in *.
  - destruct (bd_get _ _ _ _ _ Hg) as (Hv & Hi & _ & Hrow & _). split; [auto|].
    destruct (Hrow s Hinv eq_refl) as (Hs & Hid & _). rewrite Hv. apply rtc_once.
    by apply (MRead bankMachine _ _ _ sid s).
  - destruct (bd_transition _ _ _ _ _ Ht) as (Hi & _ & [[-> Hr]|(now & old & Hold & Hver & ->)]);
      (split; [auto|]); [by rewrite Hr|]. apply rtc_once. cbn.
    apply (MWrite bankMachine _ _ _ _ s w _ old); simpl; try done; [| |destruct (is_ok r); set_solver].
    + by exists env, stage, es.
    + split; [|by exists now]. by rewrite (bd_inv_id _ _ _ Hinv Hold).
  - destruct (bd_record _ _ _ _ _ _ _ Hr) as (Hi & _ & [[-> _]|(id & now & ->)]);
      (split; [auto|]); [done|]. cbn. unfold bankAccumulate.
    destruct (bv_sessions (bview st) !! sid) as [s|] eqn:E; [|done]. case_decide; [|done].
    apply rtc_once, (MTouch bankMachine _ _ _ sid s); simpl; eauto.
  - destruct (bd_create _ _ _ _ _ Hc) as (Hi & _ &
      [[-> _]|(row & es' & Hn & Hid & Hst & Hver & _ & _ & Hpay & ->)]); (split; [auto|]); [done|].
    apply rtc_once. destruct (created_fresh _ _ Hcr) as (H1 & H2 & H3).
    apply (MCreate bankMachine _ _ _ (bs_ID row) row es'); simpl; [congruence|done|].
    split_and!; [congruence..|]. intros k. by rewrite (bankMoney_payload k _ es).
  - rewrite Hv. split; [auto|done].
Qed.

Lemma bsys_rtc c c' : binv c.1 -> rtc bsys_step c c' ->
  binv c'.1 /\ rtc (mstep bankMachine) (bmview c) (bmview c').
Proof.
  intros Hinv Hr. induction Hr as [c|c c1 c2 Hs Hr IH]; [done|].
  destruct (bsys_machine _ _ Hinv Hs) as [Hinv1 H1]. destruct (IH Hinv1) as [Hinv2 H2].
  split; [done|]. by etrans.
Qed.

(** The money intents a session can have when it stands at a status. *)
Definition bankMoneyAt (s : BankDepositSessionStatus) : list (list MoneyKind) :=
  match s with
  | BSPendingPayment | BSPaymentReceived | BSExpired | BSCancelled => [[]]
  | BSCrediting | BSCredited | BSHeld => [[MCredit]]
  | BSSettling | BSSettled => [[MCredit; MSettle]]
  | BSUnderpaid | BSOverpaid => [[MRefund]]
  | BSFailed => [[MRefund]; [MCredit]; [MCredit; MSettle]]
  end.

Lemma bank_walk_money l : walk bankEdges BSPendingPayment l ->
  (length l <= 6)%nat /\ emissions bankEmitted l ∈ bankMoneyAt (endpoint BSPendingPayment l).
Proof.
  apply (walk_check bankEdges bankRank (mc_next_rank (M := bankMachine))
    (fun l => (length l <= 6)%nat
              /\ emissions bankEmitted l ∈ bankMoneyAt (endpoint BSPendingPayment l))).
  apply (bool_decide_eq_true_1 (Forall _ _)). vm_compute. reflexivity.
Qed.

(** C8: Take any number of webhook handlers, workers, expiry jobs and API
    calls that run the handlers of the bank deposit engine on one store at the
    same time, with reads, recorded credits and failed, successful or
    unnoticed writes in any order, a mismatch failing the session it holds in
    memory.  From an empty database every session follows the edges of the
    state machine, at most six of them, counted by its version from 1, and the
    money intents the outbox holds for it are those of its path: none up to
    PAYMENT_RECEIVED, then either one refund (UNDERPAID or OVERPAID) or one
    credit, and after a credit at most one settlement.  No interleaving
    credits a payment it also refunds, or does either twice. *)
Theorem bank_credited_or_refunded st0 st fl id s :
  binv st0 -> bv_sessions (bview st0) = ∅ -> bv_outbox (bview st0) = [] ->
  rtc bsys_step (st0, []) (st, fl) -> bv_sessions (bview st) !! id = Some s ->
  bankMoney id (bv_outbox (bview st)) ∈ bankMoneyAt (bs_Status s)
  /\ exists l, walk bankEdges BSPendingPayment l
     /\ bs_Status s = endpoint BSPendingPayment l
     /\ bs_Version s = 1 + Z.of_nat (length l) /\ (length l <= 6)%nat.
Proof.
  intros Hinv Hempty Hob Hr Hs. destruct (bsys_rtc (st0, []) (st, fl) Hinv Hr) as [_ Hm].
  assert (map_Forall (life bankMachine (bv_outbox (bview st))) (bv_sessions (bview st))) as Hl.
  { apply (machine_history bankMachine (bmview (st0, [])) (bmview (st, fl))); simpl; try done.
    intros k. by rewrite Hob. }
  destruct (Hl _ _ Hs) as (_ & l & Hw & He & Hv & Hk). simpl in *.
  destruct (bank_walk_money l Hw) as [Hlen Hmoney]. rewrite Hk, He.
  split; [done|]. by exists l.
Qed.
End BankSystem.

(** ** Whole handlers *)

Section Calls.
Context {L : ThirdParty} {St : Type} `{BD : !BankDepositStore St} {BDL : BankDepositStoreLaws St}.

Inductive BCall :=
| BCCreate (tn : UUID) (req : CreateSessionRequest)
| BCPermanent (tn : UUID) (accountNumber partner : string) (credit : IncomingBankCredit)
| BCReceived (tn sid : UUID) (credit : IncomingBankCredit)
| BCCreditResult (tn sid : UUID) (r : IntentResult)
| BCSettlementResult (tn sid : UUID) (r : IntentResult)
| BCExpire (tn sid : UUID)
| BCCancel (tn sid : UUID).

Definition bcall (env : DEnv) (c : BCall) (st : St) : result unit * St :=
  match c with
  | BCCreate tn req => let '(r, st) := CreateSession env tn req st in (let? _ := r in Ok tt, st)
  | BCPermanent tn acc partner credit =>
      let '(r, st) := CreateSessionForPermanentAccount env tn acc partner credit st in
      (let? _ := r in Ok tt, st)
  | BCReceived tn sid credit => HandleBankCreditReceived env tn sid credit st
  | BCCreditResult tn sid r => HandleCreditResult env tn sid r st
  | BCSettlementResult tn sid r => HandleSettlementResult env tn sid r st
  | BCExpire tn sid => ExpireSession env tn sid st
  | BCCancel tn sid => CancelSession env tn sid st
  end.

(** A run of the system from a state with the given sessions in flight. *)
Definition reaches (st : St) (fl : list BankDepositSession) (st' : St) : Prop :=
  binv st' /\ exists fl', rtc bsys_step (st, fl) (st', fl').

Lemma reaches_refl st fl : binv st -> reaches st fl st.
Proof. intros Hi. split; [done|]. by exists fl. Qed.

Lemma reaches_step st fl st1 fl1 st' :
  bsys_step (st, fl) (st1, fl1) -> reaches st1 fl1 st' -> reaches st fl st'.
Proof. intros Hs [Hi [fl' Hr]]. split; [done|]. exists fl'. by eapply rtc_l. Qed.

Lemma reaches_other st fl st1 st' :
  bview st1 = bview st -> (binv st -> binv st1) -> reaches st1 fl st' -> reaches st fl st'.
Proof. intros Hv Hi. apply reaches_step. by apply BSysOther. Qed.

Lemma load_step step tn sid st r st1 fl : binv st -> loadSession step tn sid st = (r, st1) ->
  binv st1 /\ match r with
  | Ok s => bs_ID s = sid /\ bs_TenantID s = tn /\ bsys_step (st, fl) (st1, s :: fl)
  | Err _ => reaches st fl st1
  end.
Proof.
  intros Hi. unfold loadSession. destruct (bd_GetSession tn sid st) as [[s|e] st0] eqn:E;
    intros [= <- <-]; destruct (bd_get _ _ _ _ _ E) as (Hv & Hi' & _ & Hrow & _); simpl;
    (split; [auto|]).
  - destruct (Hrow s Hi eq_refl) as (_ & ? & ?). split_and!; try done. by eapply BSysRead.
  - eapply reaches_other; [done..|]. by apply reaches_refl, Hi'.
Qed.

Lemma commit_step env stage s step w es st r st1 fl :
  binv st -> s ∈ fl -> stagePlan env (bs_TenantID s) (bs_ID s) stage s = Ok (Some (w, es)) ->
  commitPlan step (w, es) st = (r, st1) ->
  binv st1 /\ bsys_step (st, fl) (st1, if is_ok r then w :: fl else fl).
Proof.
  intros Hi Hin Hp. unfold commitPlan. simpl.
  destruct (bd_TransitionWithOutbox w es st) as [r0 st0] eqn:E. intros Hr.
  assert (st0 = st1 /\ is_ok r0 = is_ok r) as [-> <-].
  { by destruct r0; injection Hr as <- <-. }
  destruct (bd_transition _ _ _ _ _ E) as (Hi' & _). split; [auto|]. by eapply BSysWrite.
Qed.

Lemma stage_reaches env stage s step (q : result BankPlan) st r st' fl :
  binv st -> s ∈ fl -> stagePlan env (bs_TenantID s) (bs_ID s) stage s = one q ->
  commitResult step q st = (r, st') -> reaches st fl st'.
Proof.
  intros Hi Hin Hp. unfold commitResult. destruct q as [[w es]|e]; simpl in Hp.
  - intros Hc. destruct (commit_step env stage s step w es st r st' fl) as [Hi' Hs]; [done..|].
    eapply reaches_step; [done|]. by apply reaches_refl.
  - intros [= <- <-]. by apply reaches_refl.
Qed.

(** *** The mismatch and the credit *)

Lemma initiateCredit_reaches env tn sid st r st' fl :
  binv st -> initiateCredit env tn sid st = (r, st') -> reaches st fl st'.
Proof.
  intros Hi. unfold initiateCredit. destruct (loadSession _ tn sid st) as [[s|e] st1] eqn:E;
    destruct (load_step _ _ _ _ _ _ fl Hi E) as [Hi1 H1]; [|by intros [= <- <-]].
  destruct H1 as (<- & <- & H1). intros Hc. eapply reaches_step; [done|].
  by apply (stage_reaches env BCredit s _ _ _ _ _ _ Hi1 (list_elem_of_here _ _) eq_refl Hc).
Qed.

Lemma handleMismatch_reaches env x reason s st r st' fl :
  binv st -> s ∈ fl -> bs_Status s = BSPaymentReceived -> mismatch s = Some (x, reason) ->
  handleMismatch env x reason s st = (r, st') -> reaches st fl st'.
Proof.
  intros Hi Hin Hs Hm. unfold handleMismatch.
  destruct (handleMismatch_plan env x reason s) as [[w es]|e] eqn:Hp;
    [|intros [= <- <-]; by apply reaches_refl].
  destruct (commitPlan _ (w, es) st) as [r1 st1] eqn:Hc. intros Hr.
  assert (stagePlan env (bs_TenantID s) (bs_ID s) BMismatch s = Ok (Some (w, es))) as Hp'.
  { cbn [stagePlan]. by rewrite bool_decide_eq_true_2, Hm, Hp. }
  destruct (commit_step _ _ _ _ _ _ _ _ _ _ Hi Hin Hp' Hc) as [Hi1 Hs1].
  eapply reaches_step; [done|]. destruct r1 as [[]|]; [|injection Hr as <- <-; by apply reaches_refl].
  simpl in Hr. unfold failSession in Hr.
  eapply (stage_reaches (later 5 env) (BFail reason) w); [done|simpl; set_solver| |exact Hr].
  cbn [stagePlan]. assert (bs_Status w = x) as ->.
  { unfold handleMismatch_plan in Hp. cbv zeta in Hp. destruct (moveTo _ _ x s) eqn:Ht; [|done].
    apply bankMoveTo_ok in Ht. injection Hp as <- <-. by rewrite Ht. }
  destruct (mismatch_status _ _ _ Hm) as [-> | ->]; done.
Qed.

Lemma validate_reaches env tn sid st r st' fl :
  binv st -> validateAndRoutePayment env tn sid st = (r, st') -> reaches st fl st'.
Proof.
  intros Hi. unfold validateAndRoutePayment.
  destruct (loadSession _ tn sid st) as [[s|e] st1] eqn:E;
    destruct (load_step _ _ _ _ _ _ fl Hi E) as [Hi1 H1]; [|by intros [= <- <-]].
  destruct H1 as (<- & <- & H1). intros Hr. eapply reaches_step; [done|].
  destruct (bool_decide_reflect (bs_Status s = BSPaymentReceived)) as [Hs|]; simpl in Hr;
    [|injection Hr as <- <-; by apply reaches_refl].
  destruct (mismatch s) as [[x reason]|] eqn:Hm; [|by eapply initiateCredit_reaches].
  eapply handleMismatch_reaches; [done| |done..]. set_solver.
Qed.

Lemma received_reaches env tn sid credit st r st' fl :
  binv st -> HandleBankCreditReceived env tn sid credit st = (r, st') -> reaches st fl st'.
Proof.
  intros Hi. unfold HandleBankCreditReceived, recordCredit.
  destruct (loadSession _ tn sid st) as [[s|e] st1] eqn:E;
    destruct (load_step _ _ _ _ _ _ fl Hi E) as [Hi1 H1]; [|by intros [= <- <-]].
  destruct H1 as (<- & <- & H1). intros Hr. eapply reaches_step; [done|].
  destruct (bd_GetBankDepositTxByRef _ st1) as [r2 st2] eqn:E2.
  destruct (bd_byref _ _ _ _ E2) as (Hv2 & Hi2 & _).
  eapply (reaches_other _ _ st2); [done..|].
  destruct r2 as [t|]; [injection Hr as <- <-; by apply reaches_refl, Hi2|].
  destruct (bd_RecordBankDepositTx _ _ _ _ st2) as [r3 st3] eqn:E3.
  destruct (bd_record _ _ _ _ _ _ _ E3) as (Hi3 & _).
  eapply reaches_step; [by eapply BSysRecord|].
  destruct r3 as [t|]; simpl in Hr; [|injection Hr as <- <-; by apply reaches_refl, Hi3, Hi2].
  destruct (HandleBankCreditReceived_plan _ _ _ credit s) as [[[w es]|]|] eqn:Hp;
    [|injection Hr as <- <-; by apply reaches_refl, Hi3, Hi2..].
  destruct (commitPlan _ (w, es) st3) as [r4 st4] eqn:Hc.
  destruct (commit_step (later 1 env) (BReceived credit) s "handle bank credit" w es st3 r4 st4 (s :: fl)) as [Hi4 H4];
    [by auto|set_solver|done..|].
  eapply reaches_step; [done|]. destruct r4 as [[]|];
    [by eapply validate_reaches|injection Hr as <- <-; by apply reaches_refl].
Qed.

(** *** Results *)

Lemma route_reaches env tn sid st r st' fl :
  binv st -> routeAfterCredit env tn sid st = (r, st') -> reaches st fl st'.
Proof.
  intros Hi. unfold routeAfterCredit. destruct (loadSession _ tn sid st) as [[s|e] st1] eqn:E;
    destruct (load_step _ _ _ _ _ _ fl Hi E) as [Hi1 H1]; [|by intros [= <- <-]].
  destruct H1 as (<- & <- & H1). intros Hc. eapply reaches_step; [done|].
  by apply (stage_reaches env BRoute s _ _ _ _ _ _ Hi1 (list_elem_of_here _ _) eq_refl Hc).
Qed.

Lemma credit_result_reaches env tn sid x st r st' fl :
  binv st -> HandleCreditResult env tn sid x st = (r, st') -> reaches st fl st'.
Proof.
  intros Hi. unfold HandleCreditResult, failSession.
  destruct (loadSession _ tn sid st) as [[s|e] st1] eqn:E;
    destruct (load_step _ _ _ _ _ _ fl Hi E) as [Hi1 H1]; [|by intros [= <- <-]].
  destruct H1 as (<- & <- & H1). intros Hr. eapply reaches_step; [done|].
  destruct (bool_decide_reflect (bs_Status s = BSCrediting)) as [Hs|]; simpl in Hr;
    [|injection Hr as <- <-; by apply reaches_refl].
  assert (forall q, stagePlan env (bs_TenantID s) (bs_ID s) (BCreditResult x) s = one q ->
    forall step r' st2, commitResult step q st1 = (r', st2) -> reaches st1 (s :: fl) st2) as Hstage.
  { intros q Hq step r' st2 Hc.
    by apply (stage_reaches env (BCreditResult x) s _ q _ _ _ _ Hi1 (list_elem_of_here _ _) Hq Hc). }
  cbn [stagePlan] in Hstage. rewrite bool_decide_eq_true_2 in Hstage by done. simpl in Hstage.
  destruct (ir_Success x); simpl in *; [|by eapply Hstage].
  destruct (commitResult _ _ st1) as [r2 st2] eqn:Hc. apply Hstage in Hc; [|done].
  destruct r2 as [[]|]; [|by injection Hr as <- <-].
  destruct Hc as [Hi2 [fl2 H2]]. destruct (route_reaches _ _ _ _ _ _ fl2 Hi2 Hr) as [Hi' [fl' H']].
  split; [done|]. exists fl'. by etrans.
Qed.

Lemma settlement_result_reaches env tn sid x st r st' fl :
  binv st -> HandleSettlementResult env tn sid x st = (r, st') -> reaches st fl st'.
Proof.
  intros Hi. unfold HandleSettlementResult, failSession.
  destruct (loadSession _ tn sid st) as [[s|e] st1] eqn:E;
    destruct (load_step _ _ _ _ _ _ fl Hi E) as [Hi1 H1]; [|by intros [= <- <-]].
  destruct H1 as (<- & <- & H1). intros Hr. eapply reaches_step; [done|].
  destruct (bool_decide_reflect (bs_Status s = BSSettling)) as [Hs|]; simpl in Hr;
    [|injection Hr as <- <-; by apply reaches_refl].
  destruct (ir_Success x) eqn:Hx; simpl in Hr;
    (eapply (stage_reaches env (BSettlementResult x) s); [done|set_solver| |exact Hr]);
    cbn [stagePlan]; rewrite bool_decide_eq_true_2 by done; simpl; by rewrite Hx.
Qed.

(** *** Creation, expiry, cancellation *)

Lemma create_step s es st r st' fl : binv st -> created s es ->
  bd_CreateSessionWithOutbox s es st = (r, st') -> reaches st fl st'.
Proof.
  intros Hi Hc E. destruct (bd_create _ _ _ _ _ E) as (Hi' & _).
  eapply reaches_step; [by eapply BSysCreate|]. by apply reaches_refl, Hi'.
Qed.

Lemma createFresh_reaches env tenant tn req st r st' fl :
  binv st -> createFresh env tenant tn req st = (r, st') -> reaches st fl st'.
Proof.
  intros Hi. unfold createFresh.
  destruct (bd_DispenseVirtualAccount _ _ st) as [r1 st1] eqn:E1.
  destruct (bd_dispense _ _ _ _ _ E1) as (Hv1 & Hi1 & _). intros Hr.
  eapply (reaches_other _ _ st1); [done..|].
  destruct r1 as [[acc|]|]; [|injection Hr as <- <-; by apply reaches_refl, Hi1..].
  destruct (bd_CreateSessionWithOutbox _ _ st1) as [r2 st2] eqn:E2. injection Hr as _ <-.
  eapply create_step; [by auto|apply CreatedTemporary|done].
Qed.

Lemma create_reaches env tn req st r st' fl :
  binv st -> CreateSession env tn req st = (r, st') -> reaches st fl st'.
Proof.
  intros Hi. unfold CreateSession.
  destruct (wrap _ _) as [tenant|]; [|intros [= <- <-]; by apply reaches_refl].
  destruct (checkRequest tenant req); [|intros [= <- <-]; by apply reaches_refl].
  destruct (String.eqb _ _); [by apply createFresh_reaches|].
  destruct (bd_GetSessionByIdempotencyKey _ _ st) as [r1 st1] eqn:E1.
  destruct (bd_idem _ _ _ _ _ E1) as (Hv1 & Hi1 & _). intros Hr.
  eapply (reaches_other _ _ st1); [done..|].
  destruct r1 as [s|]; [injection Hr as <- <-; by apply reaches_refl, Hi1|].
  eapply createFresh_reaches; [by auto|done].
Qed.

Lemma permanent_reaches env tn acc partner credit st r st' fl :
  binv st -> CreateSessionForPermanentAccount env tn acc partner credit st = (r, st') ->
  reaches st fl st'.
Proof.
  intros Hi. unfold CreateSessionForPermanentAccount.
  destruct (match wrap _ (de_GetTenant env 0 tn) with Ok _ => _ | Err _ => _ end) as [[tenant key]|]; [|intros [= <- <-]; by apply reaches_refl].
  destruct (bd_GetSessionByIdempotencyKey _ _ st) as [r1 st1] eqn:E1.
  destruct (bd_idem _ _ _ _ _ E1) as (Hv1 & Hi1 & _). intros Hr.
  eapply (reaches_other _ _ st1); [done..|].
  destruct r1 as [s|]; [injection Hr as <- <-; by apply reaches_refl, Hi1|].
  destruct (bd_CreateSessionWithOutbox _ _ st1) as [r2 st2] eqn:E2. injection Hr as _ <-.
  eapply create_step; [by auto|apply CreatedPermanent|done].
Qed.

Lemma cancel_reaches env tn sid st r st' fl :
  binv st -> CancelSession env tn sid st = (r, st') -> reaches st fl st'.
Proof.
  intros Hi. unfold CancelSession. destruct (loadSession _ tn sid st) as [[s|e] st1] eqn:E;
    destruct (load_step _ _ _ _ _ _ fl Hi E) as [Hi1 H1]; [|by intros [= <- <-]].
  destruct H1 as (<- & <- & H1). intros Hc. eapply reaches_step; [done|].
  by apply (stage_reaches env BCancel s _ _ _ _ _ _ Hi1 (list_elem_of_here _ _) eq_refl Hc).
Qed.

Lemma expire_reaches env tn sid st r st' fl :
  binv st -> ExpireSession env tn sid st = (r, st') -> reaches st fl st'.
Proof.
  intros Hi. unfold ExpireSession. destruct (loadSession _ tn sid st) as [[s|e] st1] eqn:E;
    destruct (load_step _ _ _ _ _ _ fl Hi E) as [Hi1 H1]; [|by intros [= <- <-]].
  destruct H1 as (<- & <- & H1). intros Hr. eapply reaches_step; [done|].
  destruct (ExpireSession_plan _ _ _ s) as [[[w es]|]|] eqn:Hp;
    [|injection Hr as <- <-; by apply reaches_refl..].
  destruct (commit_step env BExpire s "expire session" w es st1 r st' (s :: fl)) as [Hi' Hs'];
    [done|set_solver|done..|]. eapply reaches_step; [done|]. by apply reaches_refl.
Qed.

(** Every handler of the engine is a run of the system of [bsys_step]. *)
Lemma bcall_reaches env c st r st' fl : binv st -> bcall env c st = (r, st') -> reaches st fl st'.
Proof.
  intros Hi. destruct c as [tn req|tn acc partner credit|tn sid credit|tn sid x|tn sid x|tn sid|tn sid];
    cbn [bcall].
  - destruct (CreateSession env tn req st) as [r0 st0] eqn:E. intros [= _ <-]. by eapply create_reaches.
  - destruct (CreateSessionForPermanentAccount _ _ _ _ _ st) as [r0 st0] eqn:E. intros [= _ <-].
    by eapply permanent_reaches.
  - by apply received_reaches.
  - by apply credit_result_reaches.
  - by apply settlement_result_reaches.
  - by apply expire_reaches.
  - by apply cancel_reaches.
Qed.
End Calls.

(** ** One payment *)

Section Payment.
Context {L : ThirdParty} {LL : ThirdPartyLaws L}.
Context {St : Type} `{BD : !BankDepositStore St} {BDL : BankDepositStoreLaws St}.

Lemma loadSession_ok step tn sid st s st' : binv st -> loadSession step tn sid st = (Ok s, st') ->
  binv st' /\ bview st' = bview st /\ bv_sessions (bview st) !! sid = Some s
  /\ bs_ID s = sid /\ bs_TenantID s = tn.
Proof.
  intros Hi. unfold loadSession. destruct (bd_GetSession tn sid st) as [[x|e] st0] eqn:E; [|done].
  intros [= <- <-]. destruct (bd_get _ _ _ _ _ E) as (Hv & Hi' & _ & Hrow & _).
  destruct (Hrow x Hi eq_refl) as (? & ? & ?). auto.
Qed.

Lemma commitPlan_ok step w es st st' : binv st -> commitPlan step (w, es) st = (Ok tt, st') ->
  binv st' /\ exists now old, bv_sessions (bview st) !! bs_ID w = Some old
    /\ bview st' = bankTransitioned now old w es (bview st).
Proof.
  intros Hi. unfold commitPlan. simpl.
  destruct (bd_TransitionWithOutbox w es st) as [[[]|e] st0] eqn:E; [|done]. intros [= <-].
  destruct (bd_transition _ _ _ _ _ E) as (Hi' & _ & [[_ ?]|(now & old & ? & _ & ?)]); [done|].
  split; [auto|]. by exists now, old.
Qed.

(** The payloads that move money of a session, in order. *)
Definition bankPayloads (k : UUID) (es : list OutboxEntry) : list Payload :=
  omap (fun e => _ ← bankMoneyOf k e; Some (oe_Payload e)) es.

Lemma bankPayloads_app k es es' :
  bankPayloads k (es ++ es')%list = (bankPayloads k es ++ bankPayloads k es')%list.
Proof. apply omap_app. Qed.

Lemma bankPayloads_params k es : bankPayloads k (map outboxEntryToParams es) = bankPayloads k es.
Proof. unfold bankPayloads. induction es as [|e es IH]; [done|]. cbn. by rewrite IH. Qed.

Lemma bankPayloads_none k es : bankMoney k es = [] -> bankPayloads k es = [].
Proof.
  unfold bankMoney, bankPayloads. induction es as [|e es IH]; [done|]. cbn.
  destruct (bankMoneyOf k e); [done|apply IH].
Qed.

(** The session's policy refuses the amount. *)
Definition rejects (s : BankDepositSession) (total : Decimal) : Prop :=
  bs_MismatchPolicy s = PaymentMismatchPolicyReject
  /\ ((dVal total < dVal (bs_MinAmount s))%Q \/ (dVal (bs_MaxAmount s) < dVal total)%Q).

Lemma mismatch_rejects s :
  match mismatch s with
  | Some _ => rejects s (bs_ReceivedAmount s)
  | None => ~ rejects s (bs_ReceivedAmount s)
  end.
Proof.
  unfold mismatch, rejects, GreaterThan.
  destruct (String.eqb_spec (bs_MismatchPolicy s) PaymentMismatchPolicyReject) as [Hr|Hr];
    [|by rewrite !andb_false_r; intros [? _]].
  rewrite !andb_true_r.
  destruct (LessThanP (bs_ReceivedAmount s) (bs_MinAmount s)) as [E1|E1]; [split; auto|].
  destruct (LessThanP (bs_MaxAmount s) (bs_ReceivedAmount s)) as [E2|E2]; [split; auto|].
  by intros [_ [H|H]].
Qed.

(** What routing leaves, for a session that stands at PAYMENT_RECEIVED. *)
Definition refunded (s s' : BankDepositSession) (es : list OutboxEntry) : Prop :=
  bs_Status s' = BSFailed /\ exists p, bankPayloads (bs_ID s) es = [PRefundBankDeposit p]
    /\ rbp_TenantID p = bs_TenantID s /\ rbp_AccountNumber p = bs_AccountNumber s
    /\ rbp_Amount p = bs_ReceivedAmount s' /\ rbp_Currency p = bs_Currency s.

Definition credited (env : DEnv) (i : nat) (s s' : BankDepositSession) (es : list OutboxEntry)
  : Prop :=
  bs_Status s' = BSCrediting /\ exists p tenant, bankPayloads (bs_ID s) es = [PCreditBankDeposit p]
    /\ de_GetTenant env i (bs_TenantID s) = Ok tenant
    /\ cbp_TenantID p = bs_TenantID s /\ cbp_Currency p = bs_Currency s
    /\ cbp_GrossAmount p = bs_ReceivedAmount s'
    /\ cbp_FeeAmount p = CalculateBankCollectionFee (bs_ReceivedAmount s') (tn_FeeSchedule tenant)
    /\ cbp_NetAmount p = dSub (cbp_GrossAmount p) (cbp_FeeAmount p).

Ltac payloads :=
  unfold bankPayloads, bankDepositNotificationEntries, bankDepositWebhookEntry, bankDepositEmailEntry;
  cbn [omap list_omap app]; unfold bankMoneyOf;
  rewrite ?bankEvent_payload, ?bankIntent_payload by (vm_compute; reflexivity); cbn -[decide];
  rewrite ?decide_True by done; cbn.

Lemma handleMismatch_planned env x reason s w es :
  handleMismatch_plan env x reason s = Ok (w, es) ->
  w = set_bs_status s x (add64 (bs_Version s) 1) (de_now env 0)
  /\ bankPayloads (bs_ID s) es = [PRefundBankDeposit
       {| rbp_SessionID := bs_ID s; rbp_TenantID := bs_TenantID s;
          rbp_AccountNumber := bs_AccountNumber s; rbp_Amount := bs_ReceivedAmount s;
          rbp_Currency := bs_Currency s; rbp_Reason := reason |}].
Proof.
  unfold handleMismatch_plan. cbv zeta.
  destruct (moveTo _ _ x s) as [s1|] eqn:E1; [|done]. apply bankMoveTo_ok in E1 as ->.
  intros [= <- <-]. split; [done|]. case_decide; by payloads.
Qed.

Lemma failSession_planned env reason code s w es :
  failSession_plan env reason code s = Ok (w, es) ->
  bs_ID w = bs_ID s /\ bs_Status w = BSFailed /\ bs_ReceivedAmount w = bs_ReceivedAmount s
  /\ forall k, bankPayloads k es = [].
Proof.
  unfold failSession_plan. cbv zeta. destruct (moveTo _ _ BSFailed _) as [s1|] eqn:E1; [|done].
  apply bankMoveTo_ok in E1 as ->. intros [= <- <-]. by split_and!.
Qed.

Lemma received_planned env tn sid credit s w es :
  HandleBankCreditReceived_plan env tn sid credit s = Ok (Some (w, es)) ->
  bs_ID w = bs_ID s /\ bs_Status w = BSPaymentReceived
  /\ bs_ReceivedAmount w = dAdd (bs_ReceivedAmount s) (bc_Amount credit)
  /\ forall k, bankPayloads k es = [].
Proof.
  unfold HandleBankCreditReceived_plan. cbv zeta.
  destruct (BankDepositSession_CanTransitionTo s BSPaymentReceived); [|done]. cbn [negb].
  destruct (moveTo _ _ BSPaymentReceived _) as [s1|] eqn:E1; [|done]. apply bankMoveTo_ok in E1 as ->.
  intros [= <- <-]. split_and!; try done. intros k. destruct (isLate s); by payloads.
Qed.

Lemma initiateCredit_planned env s w es :
  initiateCredit_plan env (bs_TenantID s) (bs_ID s) s = Ok (w, es) ->
  bs_ID w = bs_ID s /\ bs_ReceivedAmount w = bs_ReceivedAmount s /\ credited env 0 s w es.
Proof.
  unfold initiateCredit_plan. cbv zeta. destruct (negb _); [done|].
  unfold wrap. destruct (de_GetTenant env 0 _) as [tenant|] eqn:Ht; [|done].
  destruct (moveTo _ _ BSCrediting s) as [s1|] eqn:E1; [|done]. apply bankMoveTo_ok in E1 as ->.
  intros [= <- <-]. split_and!; [done..|]. split; [done|]. payloads. eauto 10.
Qed.

(** A view that a call left: the session's row and what it added. *)
Definition left (sid : UUID) (v v' : BankView) (s' : BankDepositSession) (es : list OutboxEntry) : Prop :=
  bv_sessions v' !! sid = Some s' /\ bv_txs v' = bv_txs v /\ bv_outbox v' = (bv_outbox v ++ es)%list.

Lemma commit_left step w es st st' : binv st -> commitPlan step (w, es) st = (Ok tt, st') ->
  binv st' /\ exists now old, bv_sessions (bview st) !! bs_ID w = Some old
    /\ left (bs_ID w) (bview st) (bview st') (bankTransitionRow now old w) (map outboxEntryToParams es).
Proof.
  intros Hi Hc. destruct (commitPlan_ok _ _ _ _ _ Hi Hc) as (Hi' & now & old & Hold & Hv).
  split; [done|]. exists now, old. split; [done|]. rewrite Hv. split_and!; try done.
  apply lookup_insert_eq.
Qed.

Lemma handleMismatch_ok env x reason s st st' :
  binv st -> handleMismatch env x reason s st = (Ok tt, st') ->
  exists s' es, left (bs_ID s) (bview st) (bview st') s' es
    /\ bs_ReceivedAmount s' = bs_ReceivedAmount s /\ refunded s s' es.
Proof.
  intros Hi. unfold handleMismatch, failSession, commitResult.
  destruct (handleMismatch_plan env x reason s) as [[w es]|] eqn:Hp; [|done].
  destruct (commitPlan _ (w, es) st) as [[[]|] st1] eqn:Hc1; [|done]. cbn [fst].
  destruct (failSession_plan _ _ _ w) as [[w2 es2]|] eqn:Hp2; [|done]. intros Hc2.
  destruct (commit_left _ _ _ _ _ Hi Hc1) as (Hi1 & now & old & _ & Hs1 & Ht1 & Ho1).
  destruct (commit_left _ _ _ _ _ Hi1 Hc2) as (Hi2 & now2 & old2 & _ & Hs2 & Ht2 & Ho2).
  apply handleMismatch_planned in Hp as [-> Hpay].
  apply failSession_planned in Hp2 as (Hid & Hst & Hrec & Hpay2).
  rewrite Hid in Hs2. simpl in Hs2, Hrec. eexists _, _. unfold left.
  rewrite Ho2, Ho1, Ht2, Ht1, <- app_assoc. split_and!; [done..|].
  split; [done|]. rewrite bankPayloads_app, !bankPayloads_params, Hpay, Hpay2. simpl. eauto 10.
Qed.

Lemma initiateCredit_ok env s st st' :
  binv st -> bv_sessions (bview st) !! bs_ID s = Some s ->
  initiateCredit env (bs_TenantID s) (bs_ID s) st = (Ok tt, st') ->
  exists s' es, left (bs_ID s) (bview st) (bview st') s' es
    /\ bs_ReceivedAmount s' = bs_ReceivedAmount s /\ credited env 0 s s' es.
Proof.
  intros Hi Hs. unfold initiateCredit, commitResult.
  destruct (loadSession _ _ _ st) as [[x|] st1] eqn:E; [|done]. simpl.
  destruct (loadSession_ok _ _ _ _ _ _ Hi E) as (Hi1 & Hv1 & Hx & _). simplify_eq.
  destruct (initiateCredit_plan _ _ _ _) as [[w es]|] eqn:Hp; [|done]. intros Hc.
  destruct (commit_left _ _ _ _ _ Hi1 Hc) as (Hi2 & now & old & _ & Hl).
  apply initiateCredit_planned in Hp as (Hid & Hrec & Hst & p & tenant & Hpay & Hp).
  rewrite Hid, Hv1 in Hl. eexists _, _. split_and!; [done|done|]. split; [done|].
  rewrite bankPayloads_params. simpl. rewrite Hrec in *. eauto.
Qed.

Lemma validate_ok env s st st' :
  binv st -> bv_sessions (bview st) !! bs_ID s = Some s ->
  validateAndRoutePayment env (bs_TenantID s) (bs_ID s) st = (Ok tt, st') ->
  exists s' es, left (bs_ID s) (bview st) (bview st') s' es
    /\ bs_ReceivedAmount s' = bs_ReceivedAmount s
    /\ ((rejects s (bs_ReceivedAmount s) /\ refunded s s' es)
        \/ (~ rejects s (bs_ReceivedAmount s) /\ credited env 0 s s' es)).
Proof.
  intros Hi Hs. unfold validateAndRoutePayment.
  destruct (loadSession _ _ _ st) as [[x|] st1] eqn:E; [|done]. simpl.
  destruct (loadSession_ok _ _ _ _ _ _ Hi E) as (Hi1 & Hv1 & Hx & _). simplify_eq.
  destruct (negb _); [done|]. pose proof (mismatch_rejects s) as Hm. rewrite <- Hv1 in *.
  destruct (mismatch s) as [[y reason]|].
  - intros (s' & es & ? & ? & ?)%handleMismatch_ok; eauto 10.
  - intros (s' & es & ? & ? & ?)%initiateCredit_ok; eauto 10.
Qed.

(** A bank credit with a reference that is not on record, for a session
    that can still receive a payment (pending, expired or cancelled).  If
    [HandleBankCreditReceived] succeeds, the credit is on record, the
    session's received amount is what it was plus the credit, and the whole
    of it has been routed one way: when the session's policy is REJECT and the
    total lies outside its bounds the session is FAILED with exactly one
    refund intent, of the total, to the account; otherwise it stands at
    CREDITING with exactly one credit intent, whose gross amount is the total
    and whose net amount is the total less the fee of the tenant's
    schedule. *)
Theorem payment_routed env sid credit s st st' :
  binv st -> bv_sessions (bview st) !! sid = Some s ->
  BankDepositSession_CanTransitionTo s BSPaymentReceived = true ->
  (forall t, t ∈ bv_txs (bview st) -> bt_BankReference t <> bc_BankReference credit) ->
  HandleBankCreditReceived env (bs_TenantID s) sid credit st = (Ok tt, st') ->
  exists s' es t, bv_sessions (bview st') !! sid = Some s'
    /\ bv_txs (bview st') = (bv_txs (bview st) ++ [t])%list
    /\ bt_SessionID t = sid /\ bt_BankReference t = bc_BankReference credit
    /\ bt_Amount t = bc_Amount credit
    /\ bv_outbox (bview st') = (bv_outbox (bview st) ++ es)%list
    /\ bs_ReceivedAmount s' = dAdd (bs_ReceivedAmount s) (bc_Amount credit)
    /\ ((rejects s (bs_ReceivedAmount s') /\ refunded s s' es)
        \/ (~ rejects s (bs_ReceivedAmount s') /\ credited env 7 s s' es)).
Proof.
  intros Hi Hs Hcan Hnew. unfold HandleBankCreditReceived, recordCredit.
  destruct (loadSession _ _ _ st) as [[x|] st1] eqn:E; [|done]. simpl.
  destruct (loadSession_ok _ _ _ _ _ _ Hi E) as (Hi1 & Hv1 & Hx & Hid & _).
  rewrite Hx in Hs. injection Hs as ->. subst sid.
  destruct (bd_GetBankDepositTxByRef _ st1) as [r2 st2] eqn:E2.
  destruct (bd_byref _ _ _ _ E2) as (Hv2 & Hi2 & _ & Hf & _). rewrite Hv1 in *.
  destruct r2 as [t|]; [by destruct (Hf t eq_refl) as [Ht ?]; apply Hnew in Ht|].
  destruct (bd_RecordBankDepositTx _ _ _ _ st2) as [[t|] st3] eqn:E3; [|done]. simpl.
  destruct (bd_record _ _ _ _ _ _ _ E3) as (Hi3 & _ & [[_ ?]|(id & now & Hv3)]); [done|].
  rewrite Hv2 in Hv3.
  destruct (HandleBankCreditReceived_plan _ _ _ _ s) as [[[w es]|]|] eqn:Hp; [| |done].
  2:{ exfalso. revert Hp. unfold HandleBankCreditReceived_plan. rewrite Hcan. cbn [negb].
      cbv zeta. by destruct (moveTo _ _ _ _). }
  destruct (commitPlan _ (w, es) st3) as [[[]|] st4] eqn:Hc; [|done].
  destruct (commit_left _ _ _ _ _ (Hi3 (Hi2 Hi1)) Hc) as (Hi4 & now4 & old & Hold & Hs4 & Ht4 & Ho4).
  apply received_planned in Hp as (Hwid & Hwst & Hwrec & Hwpay).
  rewrite Hwid in *. rewrite Hv3 in Hold. simpl in Hold. unfold bankAccumulate in Hold.
  rewrite Hx, decide_True, lookup_insert_eq in Hold by done. injection Hold as <-.
  set (x := bankTransitionRow now4 (bankAccumulatedRow now s (bc_Amount credit)) w) in *.
  intros (s' & es' & (Hs5 & Ht5 & Ho5) & Hrec & Hor)%(validate_ok (later 7 env) x _ _ Hi4 Hs4).
  change (bs_ReceivedAmount x) with (bs_ReceivedAmount w) in *. rewrite Hwrec in *.
  eexists s', _, _. rewrite Ho5, Ht5, Ho4, Ht4, Hv3. cbn [bankRecorded bv_txs bv_outbox].
  rewrite <- app_assoc, Hrec. split_and!; try done. unfold refunded, credited in *.
  rewrite bankPayloads_app, bankPayloads_params, Hwpay. rewrite Hrec in Hor |- *. exact Hor.
Qed.

(** A credit whose bank reference is on record already, for whatever
    session and tenant, changes nothing that shows and is reported as handled:
    a repeated delivery of a webhook is harmless.  The reference alone
    decides: the credit of another tenant or another bank with an equal
    reference is dropped in the same way. *)
Theorem recorded_reference_is_skipped env sid credit s t st r st' :
  binv st -> bup st -> bv_sessions (bview st) !! sid = Some s ->
  t ∈ bv_txs (bview st) -> bt_BankReference t = bc_BankReference credit ->
  HandleBankCreditReceived env (bs_TenantID s) sid credit st = (r, st') ->
  r = Ok tt /\ bview st' = bview st.
Proof.
  intros Hi Hup Hs Ht Hb. unfold HandleBankCreditReceived, recordCredit, loadSession.
  destruct (bd_GetSession _ _ st) as [r1 st1] eqn:E.
  destruct (bd_get _ _ _ _ _ E) as (Hv1 & _ & Hup1 & _ & Hok). rewrite (Hok s Hup Hs eq_refl).
  simpl. destruct (bd_GetBankDepositTxByRef _ st1) as [r2 st2] eqn:E2.
  destruct (bd_byref _ _ _ _ E2) as (Hv2 & _ & _ & _ & Hf). rewrite Hv1 in *.
  specialize (Hf t (Hup1 Hup) Ht Hb). destruct r2; [|done]. by intros [= <- <-].
Qed.
End Payment.
End BankProps.
