(* ===== verification/DepositRuns.v ===== *)
(** * core/deposit, core/bankdeposit: concrete runs

    The deposit engine over its Postgres adapter, executed.  One session
    taken from creation to SETTLED is the witness of the theorems; the other
    runs show what an interleaving, a failed lookup, a second payment, a small
    payment and the shipped schema do. *)

From Stdlib Require Import Ascii QArith.
From S2P Require Import Prelude ThirdParty Sql Machine Money Deposits Transfer Outbox TransferStore DepositStore DepositEngine DepositProps DepositBooks BankDepositStore BankDepositEngine BankDepositProps.
Import QInstance DepositAdapter.
Local Open Scope string_scope.
Local Open Scope Z_scope.

(** A sequence of calls is a run of the system. *)
Lemma runCalls_runs {L : ThirdParty} {St : Type} {DS : DepositStore St} {DSL : DepositStoreLaws St}
    l (st : St) : dinv st -> runs st (runCalls l st).
Proof.
  revert st. induction l as [|[env c] l IH]; intros st Hi; [by apply runs_refl|]. simpl.
  destruct (call env c st) as [r st'] eqn:E. apply (runs_trans _ st'); [by eapply call_runs|]. apply IH.
Qed.

Module DepositRuns.

Abbreviation DB := (Sql Tables).

Definition tenantID : UUID := "t"%char.

Definition schedule : FeeSchedule :=
  {| OnRampBPS := 40; OffRampBPS := 35; MinFeeUSD := 1 # 2; MaxFeeUSD := 500 # 1;
     CryptoCollectionBPS := 30; CryptoCollectionMaxFeeUSD := 250 # 1;
     BankCollectionBPS := 25; BankCollectionMinFeeUSD := 1 # 2;
     BankCollectionMaxFeeUSD := 250 # 1; FeeScheduleVersion := 1; FeeScheduleUpdatedAt := 0 |}.

Definition tenant : Tenant :=
  {| tn_ID := tenantID; tn_Name := "Lemfi"; tn_Slug := "lemfi"; tn_Status := TenantActive;
     tn_FeeSchedule := schedule; tn_SettlementModel := Prefunded; tn_DailyLimitUSD := 10000 # 1;
     tn_PerTransferLimit := 5000 # 1; tn_MaxPendingTransfers := 10; tn_KYBStatus := KYBVerified;
     tn_CryptoConfig := {| cc_CryptoEnabled := true;
       cc_DefaultSettlementPref := SettlementPreferenceAutoConvert;
       cc_SupportedChains := [ChainTron]; cc_MinConfirmationsTron := 19;
       cc_MinConfirmationsEth := 12; cc_MinConfirmationsBase := 12;
       cc_PaymentToleranceBPS := 0; cc_DefaultSessionTTLSecs := 3600 |};
     tn_BankConfig := {| bk_BankDepositsEnabled := true; bk_DefaultBankingPartner := "bank";
       bk_BankSupportedCurrencies := ["GBP"];
       bk_DefaultMismatchPolicy := PaymentMismatchPolicyReject;
       bk_DefaultSessionTTLSecs := 3600 |} |}.

Definition env (k : nat) : DEnv :=
  {| de_now i := Z.of_nat (100 * k + i); de_newv7 i := ascii_of_nat (100 + 12 * k + i);
     de_GetTenant _ _ := Ok tenant |}.

(** Every call is answered, except those of [bad]. *)
Definition world (bad : list nat) (ids : bool) (n : nat) : Call :=
  {| c_now := Z.of_nat (1000 + n);
     c_out := if bool_decide (n ∈ bad) then CallFailed (MsgErr "connection lost") else Done;
     c_ids i := if ids then Some (ascii_of_nat (2 * n + i)) else None |}.

Definition address : CryptoAddressPool :=
  {| ca_ID := "a"%char; ca_TenantID := tenantID; ca_Chain := ChainTron; ca_Address := "T1";
     ca_DerivationIndex := 0; ca_Dispensed := false; ca_DispensedAt := None;
     ca_SessionID := None; ca_CreatedAt := 0 |}.

Definition db0 (bad : list nat) (ids : bool) : DB :=
  {| sq_tables := {| tb_sessions := ∅; tb_txs := []; tb_pool := [address]; tb_index := [];
                     tb_outbox := [] |};
     sq_calls := 0; sq_world := world bad ids |}.

Lemma db0_inv bad ids : dinv (db0 bad ids).
Proof. apply map_Forall_empty. Qed.

Definition request : CreateSessionRequest :=
  {| csr_IdempotencyKey := "k"; csr_Chain := ChainTron; csr_Token := "usdt";
     csr_ExpectedAmount := 100 # 1; csr_SettlementPref := ""; csr_TTLSeconds := 0;
     csr_Metadata := ∅ |}.

Definition payment (hash : string) (amount : Q) : IncomingTransaction :=
  {| it_Chain := ChainTron; it_TxHash := hash; it_FromAddress := "T0"; it_ToAddress := "T1";
     it_TokenContract := "usdt"; it_Amount := amount; it_BlockNumber := 1; it_BlockHash := "b";
     it_Timestamp := 1 |}.

Definition success : IntentResult :=
  {| ir_Success := true; ir_ProviderRef := ""; ir_TxHash := ""; ir_Error := "";
     ir_ErrorCode := ""; ir_Metadata := ∅ |}.

(** The id the server gives the session: creation is call number 3. *)
Definition sid : UUID := ascii_of_nat 6.

Definition create : list (DEnv * DCall) := [(env 0, CCreate tenantID request)].
Definition detect (k : nat) (h : string) (q : Q) : DEnv * DCall :=
  (env k, CDetected tenantID sid (payment h q)).
Definition confirm (k : nat) : DEnv * DCall := (env k, CConfirmed tenantID sid "h1" 19).
Definition credited (k : nat) : DEnv * DCall := (env k, CCreditResult tenantID sid success).
Definition settled (k : nat) : DEnv * DCall := (env k, CSettlementResult tenantID sid success).

(** What the runs are asked for. *)
Definition statusOf (d : DB) : option DepositSessionStatus :=
  ds_Status <$> dv_sessions (dview d) !! sid.
Definition receivedOf (d : DB) : option Decimal := ds_ReceivedAmount <$> dv_sessions (dview d) !! sid.
Definition creditsOf (d : DB) : list (Decimal * Decimal) :=
  omap (fun e => match oe_Payload e with
                 | PCreditDeposit p => Some (cdp_GrossAmount p, cdp_NetAmount p)
                 | _ => None end) (dv_outbox (dview d)).
Definition settlesOf (d : DB) : list Decimal :=
  omap (fun e => match oe_Payload e with PSettleDeposit p => Some (sdp_Amount p) | _ => None end)
    (dv_outbox (dview d)).

Definition happyPath : list (DEnv * DCall) :=
  (create ++ [detect 1 "h1" (100 # 1); confirm 2; credited 3; settled 4])%list.

(** The happy path: 100 USDT paid, 0.5 fee, 99.5 credited and settled. *)
Example happy_path_settles :
  statusOf (runCalls happyPath (db0 [] true)) = Some DSSettled
  /\ creditsOf (runCalls happyPath (db0 [] true)) = [(100 # 1, 199 # 2)]%Q
  /\ settlesOf (runCalls happyPath (db0 [] true)) = [199 # 2]%Q.
Proof. split_and!; vm_compute; reflexivity. Qed.

(** *** The theorems at this run *)

Lemma stands_statusOf x d : statusOf d = Some x -> standsAt sid x (dview d).
Proof.
  unfold statusOf, standsAt. destruct (_ !! sid) as [s|]; [|done]. intros [= <-]. by exists s.
Qed.

Definition final : DB := runCalls happyPath (db0 [] true).

Lemma deposit_credited_once_witness :
  exists s, dv_sessions (dview final) !! sid = Some s
    /\ depositMoney sid (dv_outbox (dview final)) ∈ moneyAt (ds_Status s).
Proof.
  assert (statusOf final = Some DSSettled) as Hs by (vm_compute; reflexivity).
  destruct (stands_statusOf _ _ Hs) as (s & E & _). exists s. split; [done|].
  destruct (runCalls_runs happyPath (db0 [] true) (db0_inv [] true)) as [_ Hr].
  destruct (Hr []) as [fl Hfl].
  apply (deposit_credited_once (db0 [] true) final fl sid s (db0_inv [] true) eq_refl eq_refl Hfl E).
Defined.

Lemma received_is_paid_witness :
  exists s, dv_sessions (dview final) !! sid = Some s
    /\ (dVal (ds_ReceivedAmount s) == paid sid (dv_txs (dview final)))%Q.
Proof.
  assert (statusOf final = Some DSSettled) as Hs by (vm_compute; reflexivity).
  destruct (stands_statusOf _ _ Hs) as (s & E & _). exists s. split; [done|].
  apply (received_is_paid happyPath (db0 [] true) sid s (db0_inv [] true) eq_refl eq_refl); [|done].
  repeat constructor; simpl; unfold Qle; simpl; lia.
Defined.

(** A transaction whose session did not move: the transition, call 7, fails. *)
Definition halfway : DB := runCalls (create ++ [detect 1 "h1" (100 # 1)]) (db0 [7%nat] true).

Lemma halfway_inv bad ids l : dinv (runCalls l (db0 bad ids)).
Proof. apply (runCalls_runs l _ (db0_inv bad ids)). Qed.

Lemma world_up d : sq_world d = world [] true -> dup d.
Proof. intros H n. by rewrite H. Qed.

(** The same tables on a server that answers again. *)
Definition recovered (d : DB) : DB :=
  {| sq_tables := sq_tables d; sq_calls := sq_calls d; sq_world := world [] true |}.

Lemma recovered_inv d : dinv d -> dinv (recovered d).
Proof. done. Qed.

Lemma recovered_view d : dview (recovered d) = dview d.
Proof. done. Qed.

Lemma recorded_tx_is_skipped_witness :
  statusOf halfway = Some DSPendingPayment
  /\ forall k r d', HandleTransactionDetected (env k) tenantID sid (payment "h1" (100 # 1))
                      (recovered halfway) = (r, d') ->
     r = Ok tt /\ dview d' = dview halfway.
Proof.
  assert (statusOf halfway = Some DSPendingPayment) as Hs by (vm_compute; reflexivity).
  split; [done|]. intros k r d' Hr.
  assert (existsb (isTx ChainTron "h1") (dv_txs (dview halfway)) = true) as Ht
    by (vm_compute; reflexivity).
  apply existsb_exists in Ht as (t & Ht & Hx). apply list_elem_of_In in Ht.
  destruct (stands_statusOf _ _ Hs) as (s & E & _).
  assert (ds_TenantID <$> dv_sessions (dview halfway) !! sid = Some tenantID) as Htn
    by (vm_compute; reflexivity).
  rewrite E in Htn. injection Htn as Htn.
  rewrite <- (recovered_view halfway) in *.
  apply (recorded_tx_is_skipped (env k) tenantID sid (payment "h1" (100 # 1)) (recovered halfway)
           t s r d' (recovered_inv _ (halfway_inv [7%nat] true _)) (world_up (recovered halfway) eq_refl)
           Ht Hx E Htn Hr).
Defined.

(** A confirmation whose second half fails: reading the session for the
    credit is call 10. *)
Definition unlucky : DB :=
  runCalls (create ++ [detect 1 "h1" (100 # 1); confirm 2]) (db0 [10%nat] true).

Lemma midway_session_is_stuck_witness :
  statusOf unlucky = Some DSConfirmed
  /\ forall l, standsAt sid DSConfirmed (dview (runCalls l (recovered unlucky))).
Proof.
  assert (statusOf unlucky = Some DSConfirmed) as Hs by (vm_compute; reflexivity).
  split; [done|]. intros l.
  apply (midway_session_is_stuck sid DSConfirmed l (recovered unlucky));
    [by left|apply recovered_inv, halfway_inv|].
  rewrite recovered_view. by apply stands_statusOf.
Defined.

(** *** What goes wrong *)

(** Two payments detected at the same time: both handlers read the session,
    both record, both try to move it. *)
Definition race (d : DB) : option DB :=
  let tA := payment "hA" (60 # 1) in
  let tB := payment "hB" (40 # 1) in
  match loadSession "" tenantID sid d with
  | (Ok sA, d) =>
      match loadSession "" tenantID sid d with
      | (Ok sB, d) =>
          let d := (recordDetected (env 1) tenantID sid tA sA d).2 in
          let d := (recordDetected (env 2) tenantID sid tB sB d).2 in
          let d := (moveDetected (env 1) tenantID sid tA sA d).2 in
          Some (moveDetected (env 2) tenantID sid tB sB d).2
      | _ => None
      end
  | _ => None
  end.

Definition afterRace : DB := default (db0 [] true) (race (runCalls create (db0 [] true))).

(** The transition of the first handler writes back the amount it computed
    from its stale snapshot, because recording a payment does not bump the
    version: 60 and 40 are on record, 60 is received, and the confirmation
    credits 60.  The other handler's retry finds its transaction on record and
    skips it. *)
Lemma concurrent_payment_is_lost :
  receivedOf afterRace = Some (60 # 1)%Q
  /\ Qeq_bool (paid sid (dv_txs (dview afterRace))) (100 # 1) = true
  /\ statusOf (runCalls [detect 3 "hB" (40 # 1); confirm 4] afterRace) = Some DSCrediting
  /\ map fst (creditsOf (runCalls [detect 3 "hB" (40 # 1); confirm 4] afterRace)) = [60 # 1]%Q.
Proof. split_and!; vm_compute; reflexivity. Qed.

(** A redelivered transaction whose lookup (call 9) fails is recorded again:
    the unique index includes the insertion time. *)
Lemma failed_lookup_records_twice :
  receivedOf (runCalls (create ++ [detect 1 "h1" (100 # 1); detect 2 "h1" (100 # 1)])
                (db0 [9%nat] true)) = Some (200 # 1)%Q.
Proof. vm_compute. reflexivity. Qed.

(** A second payment that arrives while the first is being credited is
    settled without having been credited: the credit result recomputes the net
    amount from the received amount. *)
Lemma second_payment_settles_uncredited :
  let l := (create ++ [detect 1 "h1" (100 # 1); confirm 2; detect 3 "h2" (1000 # 1); credited 4])%list in
  map snd (creditsOf (runCalls l (db0 [] true))) = [199 # 2]%Q
  /\ settlesOf (runCalls l (db0 [] true)) = [10967 # 10]%Q.
Proof. split; vm_compute; reflexivity. Qed.

(** A payment below the minimum fee has a negative net amount, and that is
    what the intents carry. *)
Lemma small_deposit_nets_negative :
  let l := (create ++ [detect 1 "h1" (1 # 10); confirm 2; credited 3])%list in
  creditsOf (runCalls l (db0 [] true)) = [(1 # 10, (-2) # 5)]%Q
  /\ settlesOf (runCalls l (db0 [] true)) = [(-2) # 5]%Q.
Proof. split; vm_compute; reflexivity. Qed.

(** With the shipped migrations, whose id columns have no default, no session
    is ever created, and each attempt uses up an address of the pool. *)
Lemma shipped_schema_creates_nothing :
  statusOf (runCalls create (db0 [] false)) = None
  /\ is_ok (call (env 0) (CCreate tenantID request) (db0 [] false)).1 = false
  /\ map ca_Dispensed (tb_pool (sq_tables (runCalls create (db0 [] false)))) = [true].
Proof. split_and!; vm_compute; reflexivity. Qed.

(** The entries written with a new session carry the id the engine drew,
    while the row gets the id the server assigned: the intent to monitor the
    address names a session that does not exist. *)
Definition monitorsOf (d : DB) : list UUID :=
  omap (fun e => match oe_Payload e with PMonitorAddress p => Some (map_SessionID p) | _ => None end)
    (dv_outbox (dview d)).

Lemma monitor_intent_names_no_session :
  let d := runCalls create (db0 [] true) in
  map (fun id => bool_decide (is_Some (dv_sessions (dview d) !! id))) (monitorsOf d) = [false]
  /\ statusOf d = Some DSPendingPayment.
Proof. split; vm_compute; reflexivity. Qed.
End DepositRuns.

(** ** The bank deposit engine

    Executed over its Postgres adapter: a session with policy REJECT that is
    paid in full and settled, one that is underpaid and refunded, and the runs
    that lose a payment. *)

Import BankDepositAdapter Bank BankProps.

Module BankRuns.
Import DepositRuns (tenantID, tenant, env, world, success).

Abbreviation DB := (Sql BankTables).

Fixpoint runCalls (l : list (DEnv * BCall)) (d : DB) : DB :=
  match l with
  | [] => d
  | (e, c) :: l => runCalls l (bcall e c d).2
  end.

Lemma runCalls_reaches l d fl : binv d -> reaches d fl (runCalls l d).
Proof.
  revert d fl. induction l as [|[e c] l IH]; intros d fl Hi; [by apply reaches_refl|]. simpl.
  destruct (bcall e c d) as [r d'] eqn:E.
  destruct (bcall_reaches _ _ _ _ _ fl Hi E) as [Hi' [fl1 H1]].
  destruct (IH d' fl1 Hi') as [Hi2 [fl2 H2]]. split; [done|]. exists fl2. by etrans.
Qed.

Definition account (id : ascii) (tn : UUID) (number : string) : VirtualAccountPool :=
  {| va_ID := id; va_TenantID := tn; va_BankingPartnerID := "bank"; va_AccountNumber := number;
     va_AccountName := "Lemfi"; va_SortCode := "00"; va_IBAN := ""; va_Currency := "GBP";
     va_AccountType := VirtualAccountTypeTemporary; va_Available := true; va_SessionID := None;
     va_CreatedAt := 0; va_UpdatedAt := 0 |}.

Definition otherTenant : UUID := "u"%char.

Definition db0 (bad : list nat) : DB :=
  {| sq_tables := {| bb_sessions := ∅; bb_txs := [];
                     bb_pool := [account "a" tenantID "1"; account "b" otherTenant "2"];
                     bb_index := []; bb_outbox := [] |};
     sq_calls := 0; sq_world := world bad true |}.

Lemma bank_db0_inv bad : binv (db0 bad).
Proof. apply map_Forall_empty. Qed.

Definition request : CreateSessionRequest :=
  {| bsr_IdempotencyKey := ""; bsr_Currency := "GBP"; bsr_BankingPartnerID := "";
     bsr_AccountType := VirtualAccountTypeTemporary; bsr_ExpectedAmount := 100 # 1;
     bsr_MinAmount := 90 # 1; bsr_MaxAmount := 110 # 1; bsr_MismatchPolicy := "";
     bsr_SettlementPref := SettlementPreferenceAutoConvert; bsr_TTLSeconds := 0;
     bsr_Metadata := ∅ |}.

Definition payment (ref : string) (amount : Q) : IncomingBankCredit :=
  {| bc_AccountNumber := "1"; bc_Amount := amount; bc_Currency := "GBP"; bc_PayerName := "Ada";
     bc_PayerAccountNumber := "9"; bc_PayerReference := ""; bc_BankReference := ref;
     bc_ReceivedAt := 1 |}.

(** The session of the first call, under the id the engine drew. *)
Definition sid : UUID := de_newv7 (env 0) 0.
Definition create : list (DEnv * BCall) := [(env 0, BCCreate tenantID request)].
Definition receive (k : nat) (ref : string) (q : Q) : DEnv * BCall :=
  (env k, BCReceived tenantID sid (payment ref q)).

Definition statusOf (id : UUID) (d : DB) : option BankDepositSessionStatus :=
  bs_Status <$> bv_sessions (bview d) !! id.
Definition receivedOf (d : DB) : option Decimal := bs_ReceivedAmount <$> bv_sessions (bview d) !! sid.
Definition amountsOf (d : DB) : list (MoneyKind * Decimal) :=
  omap (fun e => match oe_Payload e with
                 | PCreditBankDeposit p => Some (MCredit, cbp_NetAmount p)
                 | PSettleBankDeposit p => Some (MSettle, sbp_Amount p)
                 | PRefundBankDeposit p => Some (MRefund, rbp_Amount p)
                 | _ => None end) (bv_outbox (bview d)).

Definition happyPath : list (DEnv * BCall) :=
  (create ++ [receive 1 "r1" (100 # 1); (env 2, BCCreditResult tenantID sid success);
              (env 3, BCSettlementResult tenantID sid success)])%list.

Example happy_bank_path_settles :
  statusOf sid (runCalls happyPath (db0 [])) = Some BSSettled
  /\ amountsOf (runCalls happyPath (db0 [])) = [(MCredit, 199 # 2); (MSettle, 199 # 2)]%Q.
Proof. split; vm_compute; reflexivity. Qed.

Example underpaid_is_refunded :
  let d := runCalls (create ++ [receive 1 "r1" (50 # 1)]) (db0 []) in
  statusOf sid d = Some BSFailed /\ amountsOf d = [(MRefund, 50 # 1)]%Q.
Proof. split; vm_compute; reflexivity. Qed.

(** *** The theorems at these runs *)

Lemma lookup_statusOf id x d : statusOf id d = Some x ->
  exists s, bv_sessions (bview d) !! id = Some s /\ bs_Status s = x.
Proof.
  unfold statusOf. destruct (_ !! id) as [s|]; [|done]. intros [= <-]. by exists s.
Qed.

Definition final : DB := runCalls happyPath (db0 []).

Lemma bank_credited_or_refunded_witness :
  exists s, bv_sessions (bview final) !! sid = Some s
    /\ bankMoney sid (bv_outbox (bview final)) ∈ bankMoneyAt (bs_Status s).
Proof.
  assert (statusOf sid final = Some BSSettled) as Hs by (vm_compute; reflexivity).
  destruct (lookup_statusOf _ _ _ Hs) as (s & E & _). exists s. split; [done|].
  destruct (runCalls_reaches happyPath (db0 []) [] (bank_db0_inv [])) as [_ [fl Hfl]].
  apply (bank_credited_or_refunded (db0 []) final fl sid s (bank_db0_inv []) eq_refl eq_refl Hfl E).
Defined.

Definition open : DB := runCalls create (db0 []).

Lemma open_inv l bad : binv (runCalls l (db0 bad)).
Proof. apply (runCalls_reaches l _ [] (bank_db0_inv bad)). Qed.

Lemma payment_routed_witness :
  exists s, bv_sessions (bview open) !! sid = Some s
    /\ forall d', HandleBankCreditReceived (env 1) (bs_TenantID s) sid (payment "r1" (50 # 1)) open
                  = (Ok tt, d') ->
       exists s' es, bv_sessions (bview d') !! sid = Some s'
         /\ bv_outbox (bview d') = (bv_outbox (bview open) ++ es)%list
         /\ bs_ReceivedAmount s' = dAdd (bs_ReceivedAmount s) (50 # 1).
Proof.
  assert (statusOf sid open = Some BSPendingPayment) as Hs by (vm_compute; reflexivity).
  assert (length (bv_txs (bview open)) = 0%nat) as Ht by (vm_compute; reflexivity).
  destruct (lookup_statusOf _ _ _ Hs) as (s & E & Hst). exists s. split; [done|]. intros d' Hd.
  assert (BankDepositSession_CanTransitionTo s BSPaymentReceived = true) as Hcan
    by (unfold BankDepositSession_CanTransitionTo; by rewrite Hst).
  destruct (payment_routed (env 1) sid (payment "r1" (50 # 1)) s open d' (open_inv create [])
              E Hcan) as (s' & es & t & H1 & _ & _ & _ & _ & H2 & H3 & _); [|exact Hd|].
  - intros t Hin. by rewrite (nil_length_inv _ Ht) in Hin; apply elem_of_nil in Hin.
  - by exists s', es.
Defined.

(** The payment is on record, but reading the session for its validation,
    call 6, failed. *)
Definition halfway : DB := runCalls (create ++ [receive 1 "r1" (100 # 1)]) (db0 [6%nat]).

Definition recovered (d : DB) : DB :=
  {| sq_tables := sq_tables d; sq_calls := sq_calls d; sq_world := world [] true |}.

Lemma bank_recovered_inv d : binv d -> binv (recovered d).
Proof. done. Qed.

Lemma bank_recovered_view d : bview (recovered d) = bview d.
Proof. done. Qed.

Lemma bank_halfway_inv : binv halfway.
Proof. apply open_inv. Qed.

Lemma recovered_up d : bup (recovered d).
Proof. by intros n. Qed.

Lemma recorded_reference_is_skipped_witness :
  statusOf sid halfway = Some BSPaymentReceived
  /\ forall k r d', HandleBankCreditReceived (env k) tenantID sid (payment "r1" (100 # 1))
                      (recovered halfway) = (r, d') ->
     r = Ok tt /\ bview d' = bview halfway.
Proof.
  assert (statusOf sid halfway = Some BSPaymentReceived) as Hs by (vm_compute; reflexivity).
  split; [done|]. intros k r d' Hr.
  assert (existsb (fun t => String.eqb (bt_BankReference t) "r1") (bv_txs (bview halfway)) = true)
    as Ht by (vm_compute; reflexivity).
  apply existsb_exists in Ht as (t & Ht & Hx%String.eqb_eq). apply list_elem_of_In in Ht.
  destruct (lookup_statusOf _ _ _ Hs) as (s & E & _).
  assert (bs_TenantID <$> bv_sessions (bview halfway) !! sid = Some tenantID) as Htn
    by (vm_compute; reflexivity).
  rewrite E in Htn. injection Htn as Htn. rewrite <- Htn in Hr.
  rewrite <- (bank_recovered_view halfway) in *.
  apply (recorded_reference_is_skipped (env k) sid (payment "r1" (100 # 1)) s t
           (recovered halfway) r d' (bank_recovered_inv _ bank_halfway_inv) (recovered_up halfway) E Ht Hx Hr).
Defined.

(** *** What goes wrong *)

(** The session of the other tenant. *)
Definition sid2 : UUID := de_newv7 (env 4) 0.

(** Two tenants are paid 100 each by transfers that carry the same bank
    reference: the second credit is reported as handled and leaves no trace. *)
Lemma foreign_reference_is_dropped :
  let l := [(env 0, BCCreate tenantID request); (env 4, BCCreate otherTenant request);
            receive 1 "r1" (100 # 1)] in
  let x := bcall (env 5) (BCReceived otherTenant sid2 (payment "r1" (100 # 1))) (runCalls l (db0 [])) in
  is_ok x.1 = true /\ statusOf sid2 x.2 = Some BSPendingPayment
  /\ length (bv_txs (bview x.2)) = 1%nat.
Proof. cbv zeta. split_and!; vm_compute; reflexivity. Qed.

(** A session whose payment was recorded but not validated stays where it is:
    the redelivered webhook is taken for a duplicate, and the expiry job skips
    it. *)
Lemma unvalidated_payment_is_stuck :
  statusOf sid (runCalls [receive 5 "r1" (100 # 1); (env 6, BCExpire tenantID sid);
                          (env 7, BCCancel tenantID sid);
                          (env 8, BCCreditResult tenantID sid success)] (recovered halfway))
  = Some BSPaymentReceived
  /\ amountsOf (runCalls [receive 5 "r1" (100 # 1)] (recovered halfway)) = [].
Proof. split; vm_compute; reflexivity. Qed.

(** A second transfer while the first is being credited: it is recorded and
    counted as received, settled with the first, and never credited. *)
Lemma second_transfer_settles_uncredited :
  let d := runCalls (create ++ [receive 1 "r1" (100 # 1); receive 2 "r2" (1000 # 1);
                                (env 3, BCCreditResult tenantID sid success)]) (db0 []) in
  amountsOf d = [(MCredit, 199 # 2); (MSettle, 4389 # 4)]%Q.
Proof. vm_compute. reflexivity. Qed.
End BankRuns.
