(* ===== verification/NetSettlement.v ===== *)
(** * core/settlement: net settlement

    Models src/domain/settlement.go and src/core/settlement: the calculator
    (calculator.go), cross-tenant netting (netting.go) and the scheduler
    (scheduler.go), over the store port [SettlementStore].  A tenant on the
    NET_SETTLEMENT model is settled once a day: the completed transfers of the
    day are grouped by corridor, netted per currency, and turned into
    instructions of who owes whom.

    Orders that Go or SQL leave open (ranging over a map, rows without ORDER
    BY, the unstable sort.Slice, which worker is faster) are the parameter
    [AnyOrder]. *)

From Stdlib Require Import SpecFloat.
From S2P Require Import Prelude GoNumbers ThirdParty Sql Money Deposits Transfer.
Local Open Scope string_scope.
Local Open Scope Z_scope.

(** ** Orders the program does not control *)

Class AnyOrder : Type := {
  any_order : forall {A : Type}, list A -> list A;
  any_order_perm {A} (l : list A) : any_order l ≡ₚ l;
  sort_slice : forall {A : Type}, (A -> A -> bool) -> list A -> list A;
  sort_slice_perm {A} (less : A -> A -> bool) (l : list A) : sort_slice less l ≡ₚ l;
}.

(** ** Data *)

Section Data.
Context {L : ThirdParty}.

Record CorridorAggregate := {
  ag_SourceCurrency : string; ag_DestCurrency : string;
  ag_TotalSource : Decimal; ag_TotalDest : Decimal;
  ag_TransferCount : Z; ag_TotalFeesUSD : Decimal }.

Record TransferSummary := {
  ts_TransferID : UUID; ts_SourceCurrency : string; ts_SourceAmount : Decimal;
  ts_DestCurrency : string; ts_DestAmount : Decimal; ts_Fees : Decimal }.

Record CorridorPosition := {
  cp_SourceCurrency : string; cp_DestCurrency : string;
  cp_TotalSource : Decimal; cp_TotalDest : Decimal; cp_TransferCount : Z }.

Record CurrencyNet := {
  cn_Currency : string; cn_Inflows : Decimal; cn_Outflows : Decimal; cn_Net : Decimal }.

Record SettlementInstruction := {
  si_Direction : string; si_Currency : string; si_Amount : Decimal; si_Description : string }.

Record NetSettlement := {
  ns_ID : UUID; ns_TenantID : UUID; ns_TenantName : string;
  ns_PeriodStart : Z; ns_PeriodEnd : Z;
  ns_Corridors : list CorridorPosition; ns_NetByCurrency : list CurrencyNet;
  ns_TotalFeesUSD : Decimal; ns_Instructions : list SettlementInstruction;
  ns_FeeScheduleSnapshot : option FeeSchedule; ns_Status : string;
  ns_DueDate : option Z; ns_CreatedAt : Z }.

Record NettedInstruction := {
  ni_Currency : string; ni_Direction : string; ni_TenantID : UUID; ni_TenantName : string;
  ni_Amount : Decimal; ni_Description : string }.

Record NettingResult := {
  nr_OriginalInstructions : Z; nr_NettedInstructions : list NettedInstruction;
  nr_TotalOriginalVolume : Decimal; nr_TotalNettedVolume : Decimal;
  nr_SavingsPercent : spec_float }.

Record tenantPosition := { tp_tenantID : UUID; tp_tenantName : string; tp_net : Decimal }.

Record OverdueAction := {
  oa_SettlementID : string; oa_TenantID : string; oa_TenantName : string;
  oa_Action : string; oa_DaysPastDue : Z }.

Definition tenantOwes : string := "tenant_owes_settla".
Definition settlaOwes : string := "settla_owes_tenant".
End Data.

(** ** The store port: TransferStore, TenantStore and SettlementStore *)

Class SettlementStore {L : ThirdParty} (St : Type) : Type := {
  ss_AggregateCompletedTransfersByPeriod : UUID -> Z -> Z -> St ->
    result (list CorridorAggregate) * St;
  ss_GetTenant : UUID -> St -> result Tenant * St;
  ss_ListActiveTenantIDsBySettlementModel : SettlementModel -> Z -> UUID -> St ->
    result (list UUID) * St;
  ss_CountActiveTenantsBySettlementModel : SettlementModel -> St -> result Z * St;
  ss_CreateNetSettlement : NetSettlement -> St -> result unit * St;
  ss_GetNetSettlement : UUID -> St -> result NetSettlement * St;
  ss_ListPendingSettlements : St -> result (list NetSettlement) * St;
  ss_UpdateSettlementStatus : UUID -> string -> St -> result unit * St;
}.

(** ** The calculator *)

Section Calculator.
Context {L : ThirdParty} {AO : AnyOrder}.

Definition DefaultSettlementDays : Z := 3.

Definition corridorsFromAggregates (aggregates : list CorridorAggregate) : list CorridorPosition :=
  map (fun a => {| cp_SourceCurrency := ag_SourceCurrency a; cp_DestCurrency := ag_DestCurrency a;
                   cp_TotalSource := ag_TotalSource a; cp_TotalDest := ag_TotalDest a;
                   cp_TransferCount := ag_TransferCount a |}) aggregates.

(** The entry of a currency in the map of pointers, made when missing. *)
Definition netEntry (nets : gmap string CurrencyNet) (c : string) : CurrencyNet :=
  default {| cn_Currency := c; cn_Inflows := dZero; cn_Outflows := dZero; cn_Net := dZero |}
    (nets !! c).

Definition addOutflow (nets : gmap string CurrencyNet) (c : string) (amount : Decimal)
  : gmap string CurrencyNet :=
  let n := netEntry nets c in
  <[c := {| cn_Currency := cn_Currency n; cn_Inflows := cn_Inflows n;
            cn_Outflows := dAdd (cn_Outflows n) amount; cn_Net := cn_Net n |}]> nets.

Definition addInflow (nets : gmap string CurrencyNet) (c : string) (amount : Decimal)
  : gmap string CurrencyNet :=
  let n := netEntry nets c in
  <[c := {| cn_Currency := cn_Currency n; cn_Inflows := dAdd (cn_Inflows n) amount;
            cn_Outflows := cn_Outflows n; cn_Net := cn_Net n |}]> nets.

(** A corridor between accounts of one currency meets its own entry twice. *)
Definition netStep (nets : gmap string CurrencyNet) (a : CorridorAggregate)
  : gmap string CurrencyNet :=
  addInflow (addOutflow nets (ag_SourceCurrency a) (ag_TotalSource a))
    (ag_DestCurrency a) (ag_TotalDest a).

Definition setNet (n : CurrencyNet) : CurrencyNet :=
  {| cn_Currency := cn_Currency n; cn_Inflows := cn_Inflows n; cn_Outflows := cn_Outflows n;
     cn_Net := dSub (cn_Inflows n) (cn_Outflows n) |}.

Definition netByCurrencyFromAggregates (aggregates : list CorridorAggregate) : list CurrencyNet :=
  map (fun '(_, n) => setNet n) (any_order (map_to_list (foldl netStep ∅ aggregates))).

Definition formatAmount (amount : Decimal) : string :=
  let billion := NewFromInt 1000000000 in
  let million := NewFromInt 1000000 in
  let thousand := NewFromInt 1000 in
  if GreaterThanOrEqual amount billion then StringFixed 2 (dDiv amount billion) +:+ "B"
  else if GreaterThanOrEqual amount million then StringFixed 2 (dDiv amount million) +:+ "M"
  else if GreaterThanOrEqual amount thousand then StringFixed 0 (dDiv amount thousand) +:+ "K"
  else StringFixed 2 amount.

Definition netInstruction (tenantName : string) (net : CurrencyNet)
  : option SettlementInstruction :=
  if IsZero (cn_Net net) then None
  else if IsPositive (cn_Net net) then
    Some {| si_Direction := settlaOwes; si_Currency := cn_Currency net; si_Amount := cn_Net net;
            si_Description := "Settla owes " +:+ tenantName +:+ " " +:+ formatAmount (cn_Net net)
                              +:+ " " +:+ cn_Currency net |}
  else
    Some {| si_Direction := tenantOwes; si_Currency := cn_Currency net;
            si_Amount := dAbs (cn_Net net);
            si_Description := tenantName +:+ " owes Settla " +:+ formatAmount (dAbs (cn_Net net))
                              +:+ " " +:+ cn_Currency net |}.

Definition generateInstructions (tenantName : string) (nets : list CurrencyNet)
    (totalFees : Decimal) : list SettlementInstruction :=
  let instructions := omap (netInstruction tenantName) nets in
  if IsPositive totalFees then
    let roundedFees := dRound 2 totalFees in
    (instructions ++ [{| si_Direction := tenantOwes; si_Currency := "USD";
                         si_Amount := roundedFees;
                         si_Description := "Fees: " +:+ formatAmount roundedFees +:+ " USD" |}])%list
  else instructions.

(** [strings.Contains]. *)
Definition contains (s sub : string) : bool :=
  match String.index 0 sub s with Some _ => true | None => false end.

(** [strings.Contains (err.Error ()) sub], for a [sub] without a colon: the
    text of a wrapped error is the context, a colon and the inner text. *)
Fixpoint errorContains (e : error) (sub : string) : bool :=
  match e with
  | MsgErr t | PanicErr t => contains t sub
  | WrapErr ctx e => contains ctx sub || errorContains e sub
  | DomainErr _ | OptimisticLockErr => false
  end.

Definition isDuplicate (e : error) : bool :=
  errorContains e "uk_net_settlements_tenant_period" || errorContains e "duplicate key".

Definition totalFees (aggregates : list CorridorAggregate) : Decimal :=
  foldl (fun acc a => dAdd acc (ag_TotalFeesUSD a)) dZero aggregates.

(** The record of step 6, before it is stored. *)
Definition newSettlement (id : UUID) (now : Z) (tenant : Tenant) (tenantID : UUID)
    (periodStart periodEnd : Z) (aggregates : list CorridorAggregate) : NetSettlement :=
  let nets := netByCurrencyFromAggregates aggregates in
  {| ns_ID := id; ns_TenantID := tenantID; ns_TenantName := tn_Name tenant;
     ns_PeriodStart := periodStart; ns_PeriodEnd := periodEnd;
     ns_Corridors := corridorsFromAggregates aggregates; ns_NetByCurrency := nets;
     ns_TotalFeesUSD := totalFees aggregates;
     ns_Instructions := generateInstructions (tn_Name tenant) nets (totalFees aggregates);
     ns_FeeScheduleSnapshot := Some (tn_FeeSchedule tenant); ns_Status := "pending";
     ns_DueDate := Some (periodEnd + DefaultSettlementDays * day); ns_CreatedAt := now |}.

Context {St : Type} `{SS : !SettlementStore St}.

Definition CalculateNetSettlement (id : UUID) (now : Z) (tenantID : UUID)
    (periodStart periodEnd : Z) (st : St) : result NetSettlement * St :=
  if negb (periodStart <? periodEnd) then (Err (MsgErr "invalid period range"), st)
  else
    match ss_GetTenant tenantID st with
    | (Err e, st) => (Err (WrapErr "loading tenant" e), st)
    | (Ok tenant, st) =>
        match tn_SettlementModel tenant with
        | Prefunded => (Err (MsgErr "tenant is not on the NET_SETTLEMENT model"), st)
        | NetSettlementModel =>
            match ss_AggregateCompletedTransfersByPeriod tenantID periodStart periodEnd st with
            | (Err e, st) => (Err (WrapErr "aggregating transfers" e), st)
            | (Ok aggregates, st) =>
                let settlement := newSettlement id now tenant tenantID periodStart periodEnd aggregates in
                match ss_CreateNetSettlement settlement st with
                | (Ok _, st) => (Ok settlement, st)
                | (Err e, st) =>
                    if isDuplicate e then (Ok settlement, st)
                    else (Err (WrapErr "persisting net settlement" e), st)
                end
            end
        end
    end.
End Calculator.

(** ** Cross-tenant netting *)

Section Netting.
Context {L : ThirdParty} {AO : AnyOrder}.

(** [decimal.Decimal.InexactFloat64]. *)
Context (InexactFloat64 : Decimal -> spec_float).

(** The positions of all settlements, in order, with their currencies. *)
Definition positionsOf (s : NetSettlement) : list (string * tenantPosition) :=
  map (fun cn => (cn_Currency cn, {| tp_tenantID := ns_TenantID s; tp_tenantName := ns_TenantName s;
                                     tp_net := cn_Net cn |})) (ns_NetByCurrency s).

Definition appendPosition (m : gmap string (list tenantPosition)) (p : string * tenantPosition)
  : gmap string (list tenantPosition) :=
  <[p.1 := (default [] (m !! p.1) ++ [p.2])%list]> m.

Definition nettedInstruction (currency : string) (pos : tenantPosition)
  : option NettedInstruction :=
  if IsZero (tp_net pos) then None
  else
    let owes := IsNegative (tp_net pos) in
    let amount := StringFixed 2 (dAbs (tp_net pos)) +:+ " " +:+ currency in
    Some {| ni_Currency := currency; ni_Direction := if owes then settlaOwes else tenantOwes;
            ni_TenantID := tp_tenantID pos; ni_TenantName := tp_tenantName pos;
            ni_Amount := dAbs (tp_net pos);
            ni_Description := if owes then "Settla owes " +:+ tp_tenantName pos +:+ " " +:+ amount
                              else tp_tenantName pos +:+ " owes Settla " +:+ amount |}.

(** The instructions of one currency. *)
Definition currencyInstructions (x : string * list tenantPosition) : list NettedInstruction :=
  omap (nettedInstruction x.1) (sort_slice (fun a b => GreaterThan (tp_net a) (tp_net b)) x.2).

Definition CalculateCrossTenantNetting (settlements : list NetSettlement) : NettingResult :=
  let positions := settlements ≫= positionsOf in
  let byCurrency := foldl appendPosition ∅ positions in
  let totalOriginal := foldl (fun acc p => dAdd acc (dAbs (tp_net p.2))) dZero positions in
  let netted := any_order (map_to_list byCurrency) ≫= currencyInstructions in
  let totalNetted := foldl (fun acc i => dAdd acc (ni_Amount i)) dZero netted in
  let savings := if IsZero totalOriginal then S754_zero false
                 else f64_mul (InexactFloat64 (dDiv (dSub totalOriginal totalNetted) totalOriginal))
                        (f64_of_Z 100) in
  {| nr_OriginalInstructions := Z.of_nat (length positions); nr_NettedInstructions := netted;
     nr_TotalOriginalVolume := totalOriginal; nr_TotalNettedVolume := totalNetted;
     nr_SavingsPercent := savings |}.

Definition noNetting : NettingResult :=
  {| nr_OriginalInstructions := 0; nr_NettedInstructions := []; nr_TotalOriginalVolume := dZero;
     nr_TotalNettedVolume := dZero; nr_SavingsPercent := S754_zero false |}.

Context {St : Type} `{SS : !SettlementStore St}.

Definition NetSettlementsForPeriod (periodStart periodEnd : Z) (st : St)
  : result NettingResult * St :=
  match ss_ListPendingSettlements st with
  | (Err e, st) => (Err (WrapErr "listing pending for netting" e), st)
  | (Ok pending, st) =>
      let periodSettlements :=
        filter (fun p => ns_PeriodStart p = periodStart /\ ns_PeriodEnd p = periodEnd) pending in
      match periodSettlements with
      | [] => (Ok noNetting, st)
      | _ => (Ok (CalculateCrossTenantNetting periodSettlements), st)
      end
  end.
End Netting.

(** ** The scheduler *)

Section Scheduler.
Context {L : ThirdParty} {AO : AnyOrder} (InexactFloat64 : Decimal -> spec_float).
Context {St : Type} `{SS : !SettlementStore St}.

Definition defaultBatchSize : Z := 500.
Definition OverdueThresholds_Reminder : Z := 3 * day.
Definition OverdueThresholds_Warning : Z := 5 * day.
Definition OverdueThresholds_Suspend : Z := 7 * day.

(** What one tick draws: the clock and the ids of the settlements. *)
Record TickEnv := { tk_now : Z; tk_clock : UUID -> Z; tk_newv7 : UUID -> UUID;
                    tk_cancelled : nat -> bool }.

Definition processOneTenant (env : TickEnv) (periodStart periodEnd : Z) (tenantID : UUID) (st : St)
  : result unit * St :=
  let! _ / st := CalculateNetSettlement (tk_newv7 env tenantID) (tk_clock env tenantID) tenantID
                   periodStart periodEnd st in
  (Ok tt, st).

(** The sends of one page: all of it, or up to the one at which the context
    was found cancelled. *)
Fixpoint feed (cancelled : nat -> bool) (sent : list UUID) (ids : list UUID) : result unit * list UUID :=
  match ids with
  | [] => (Ok tt, sent)
  | id :: ids =>
      if cancelled (length sent) then (Err (MsgErr "context canceled"), sent)
      else feed cancelled (sent ++ [id])%list ids
  end.

(** The producer: pages of tenant ids after a cursor, until a page is short.
    Returns what the workers were given.  [fuel] bounds the number of pages. *)
Fixpoint produce (fuel : nat) (cancelled : nat -> bool) (sent : list UUID) (afterID : UUID) (st : St)
  : result unit * list UUID * St :=
  match fuel with
  | O => (Err (MsgErr "out of fuel"), sent, st)
  | Datatypes.S fuel =>
      match ss_ListActiveTenantIDsBySettlementModel NetSettlementModel defaultBatchSize afterID st with
      | (Err e, st) => (Err (WrapErr "listing tenant batch" e), sent, st)
      | (Ok ids, st) =>
          match feed cancelled sent ids with
          | (Err e, sent) => (Err e, sent, st)
          | (Ok _, sent) =>
              if Z.of_nat (length ids) <? defaultBatchSize then (Ok tt, sent, st)
              else produce fuel cancelled sent (default afterID (last ids)) st
          end
      end
  end.

(** The workers: the tenants they were given, in the order they got to them;
    a failure is counted and does not stop the others.  The calculations of
    two tenants touch no common row, so that their calls may as well follow
    one another. *)
Fixpoint processAll (env : TickEnv) (periodStart periodEnd : Z) (ids : list UUID) (failed : Z) (st : St)
  : Z * St :=
  match ids with
  | [] => (failed, st)
  | id :: ids =>
      match processOneTenant env periodStart periodEnd id st with
      | (Ok _, st) => processAll env periodStart periodEnd ids failed st
      | (Err _, st) => processAll env periodStart periodEnd ids (add64 failed 1) st
      end
  end.

Definition calculateForAllTenants (fuel : nat) (env : TickEnv) (periodStart periodEnd : Z) (st : St)
  : result unit * St :=
  match ss_CountActiveTenantsBySettlementModel NetSettlementModel st with
  | (Err e, st) => (Err (WrapErr "counting tenants" e), st)
  | (Ok totalTenants, st) =>
      if totalTenants =? 0 then (Ok tt, st)
      else
        let '(r, sent, st) := produce fuel (tk_cancelled env) [] uuid_Nil st in
        let '(_, st) := processAll env periodStart periodEnd (any_order sent) 0 st in
        (r, st)
  end.

(** The step of escalation an overdue time calls for. *)
Definition overdueAction (overdue : Z) : option string :=
  if OverdueThresholds_Suspend <=? overdue then Some "suspend"
  else if OverdueThresholds_Warning <=? overdue then Some "warning"
  else if OverdueThresholds_Reminder <=? overdue then Some "reminder"
  else None.

Definition daysPastDue (overdue : Z) : Z := int_of_f64 (f64_div (Hours overdue) (f64_of_Z 24)).

(** The loop of [checkOverdue]; a status update that fails is logged. *)
Fixpoint escalate (now : Z) (pending : list NetSettlement) (st : St) : list OverdueAction * St :=
  match pending with
  | [] => ([], st)
  | s :: pending =>
      match ns_DueDate s with
      | None => escalate now pending st
      | Some due =>
          let overdue := timeSub now due in
          if overdue <=? 0 then escalate now pending st
          else
            match overdueAction overdue with
            | None => escalate now pending st
            | Some action =>
                let st := if String.eqb action "suspend"
                          then (ss_UpdateSettlementStatus (ns_ID s) "overdue" st).2 else st in
                let '(actions, st) := escalate now pending st in
                ({| oa_SettlementID := uuid_String (ns_ID s); oa_TenantID := uuid_String (ns_TenantID s);
                    oa_TenantName := ns_TenantName s; oa_Action := action;
                    oa_DaysPastDue := daysPastDue overdue |} :: actions, st)
            end
      end
  end.

Definition checkOverdue (now : Z) (st : St) : result (list OverdueAction) * St :=
  match ss_ListPendingSettlements st with
  | (Err e, st) => (Err (WrapErr "listing pending settlements" e), st)
  | (Ok pending, st) => let '(actions, st) := escalate now pending st in (Ok actions, st)
  end.

(** One cycle; the netting result and the actions are only logged. *)
Definition tick (fuel : nat) (env : TickEnv) (st : St) : result unit * St :=
  let periodEnd := midnight (tk_now env) in
  let periodStart := periodEnd - day in
  match calculateForAllTenants fuel env periodStart periodEnd st with
  | (Err e, st) => (Err (WrapErr "calculating settlements" e), st)
  | (Ok _, st) =>
      let '(_, st) := NetSettlementsForPeriod InexactFloat64 periodStart periodEnd st in
      match checkOverdue (tk_now env) st with
      | (Err e, st) => (Err (WrapErr "checking overdue" e), st)
      | (Ok _, st) => (Ok tt, st)
      end
  end.

Definition RunOnce : nat -> TickEnv -> St -> result unit * St := tick.

(** The loop: a tick at once, then one per interval until the context ends. *)
Fixpoint Start (fuel : nat) (ticks : list TickEnv) (st : St) : St :=
  match ticks with
  | [] => st
  | env :: ticks => Start fuel ticks (tick fuel env st).2
  end.
End Scheduler.
