(* ===== verification/NetSettlementStore.v ===== *)
(** * store: the net settlement adapter

    Models src/store/transferdb/settlement_adapter.go with the statements of
    settlement.sql.go, over the tables [transfers], [tenants] and
    [net_settlements] as the migrations declare them.  The fees of a transfer
    are a JSON document with the field names of [domain.FeeBreakdown] as
    keys. *)

From stdpp Require Import sorting.
From S2P Require Import Prelude GoNumbers ThirdParty Sql Money Deposits Transfer NetSettlement.
Local Open Scope string_scope.
Local Open Scope Z_scope.

Module SettlementAdapter.
Section Adapter.
Context {L : ThirdParty} {AO : AnyOrder}.

Record SettlementTables := {
  nt_transfers : list Transfer;
  nt_tenants : list Tenant;
  nt_settlements : list NetSettlement;
}.

Abbreviation DB := (Sql SettlementTables).

(** ** Transfers *)

(** [json.Marshal] of the fees: [FeeBreakdown] carries no JSON tags. *)
Definition feesJSON (f : FeeBreakdown) : gmap string Decimal :=
  <["OnRampFee" := OnRampFee f]> (<["NetworkFee" := NetworkFee f]>
  (<["OffRampFee" := OffRampFee f]> (<["TotalFeeUSD" := TotalFeeUSD f]> ∅))).

(** [COALESCE((fees->>'total_usd')::NUMERIC(28,8), 0)]. *)
Definition feesUSD (t : Transfer) : result Decimal :=
  match feesJSON (tr_Fees t) !! "total_usd" with
  | Some d => numeric28_8 d
  | None => Ok dZero
  end.

Definition completedIn (tenantID : UUID) (periodStart periodEnd : Z) (t : Transfer) : bool :=
  bool_decide (tr_TenantID t = tenantID) && bool_decide (tr_Status t = Completed)
  && match tr_CompletedAt t with
     | Some c => (periodStart <=? c) && (c <? periodEnd)
     | None => false
     end.

Definition periodTransfers (tenantID : UUID) (periodStart periodEnd : Z) (rows : list Transfer)
  : list Transfer :=
  filter (fun t => completedIn tenantID periodStart periodEnd t = true) rows.

Definition ListCompletedTransfersByPeriod (tenantID : UUID) (periodStart periodEnd : Z)
  : DB -> result (list TransferSummary) * DB :=
  query (fun c t =>
    traverse (fun x =>
      let? fees := feesUSD x in
      Ok {| ts_TransferID := tr_ID x; ts_SourceCurrency := tr_SourceCurrency x;
            ts_SourceAmount := tr_SourceAmount x; ts_DestCurrency := tr_DestCurrency x;
            ts_DestAmount := tr_DestAmount x; ts_Fees := fees |})
      (any_order (periodTransfers tenantID periodStart periodEnd (nt_transfers t)))).

Definition corridorOf (t : Transfer) : string * string := (tr_SourceCurrency t, tr_DestCurrency t).

Definition sumOf (l : list Decimal) : Decimal := foldl dAdd dZero l.

(** One row of [GROUP BY source_currency, dest_currency]. *)
Definition aggregateRow (rows : list Transfer) (k : string * string) : result CorridorAggregate :=
  let group := filter (fun t => corridorOf t = k) rows in
  let? source := numeric28_8 (sumOf (map tr_SourceAmount group)) in
  let? dest := numeric28_8 (sumOf (map tr_DestAmount group)) in
  let? each := traverse feesUSD group in
  let? fees := numeric28_8 (sumOf each) in
  Ok {| ag_SourceCurrency := k.1; ag_DestCurrency := k.2; ag_TotalSource := source;
        ag_TotalDest := dest; ag_TransferCount := Z.of_nat (length group);
        ag_TotalFeesUSD := fees |}.

Definition aggregateRows (rows : list Transfer) : result (list CorridorAggregate) :=
  traverse (aggregateRow rows) (any_order (remove_dups (map corridorOf rows))).

Definition AggregateCompletedTransfersByPeriod (tenantID : UUID) (periodStart periodEnd : Z)
  : DB -> result (list CorridorAggregate) * DB :=
  query (fun c t =>
    wrap "aggregating completed transfers"
      (aggregateRows (periodTransfers tenantID periodStart periodEnd (nt_transfers t)))).

(** ** Tenants *)

(** The row of a tenant as the domain sees it: [max_pending_transfers] is not
    copied. *)
Definition tenantFromRow (row : Tenant) : Tenant :=
  {| tn_ID := tn_ID row; tn_Name := tn_Name row; tn_Slug := tn_Slug row;
     tn_Status := tn_Status row; tn_FeeSchedule := tn_FeeSchedule row;
     tn_SettlementModel := tn_SettlementModel row; tn_DailyLimitUSD := tn_DailyLimitUSD row;
     tn_PerTransferLimit := tn_PerTransferLimit row; tn_MaxPendingTransfers := 0;
     tn_KYBStatus := tn_KYBStatus row; tn_CryptoConfig := tn_CryptoConfig row;
     tn_BankConfig := tn_BankConfig row |}.

Definition GetTenant (tenantID : UUID) : DB -> result Tenant * DB :=
  query (fun c t =>
    let? row := wrap "getting tenant"
                  (selectFirst (fun x => bool_decide (tn_ID x = tenantID)) (nt_tenants t)) in
    Ok (tenantFromRow row)).

(** Postgres compares uuids byte by byte, which is the order of their
    canonical texts. *)
Definition uuidLt (a b : UUID) : bool := String.ltb (uuid_String a) (uuid_String b).
Definition uuidLe (a b : UUID) : Prop := String.leb (uuid_String a) (uuid_String b) = true.

#[global] Instance uuidLe_dec a b : Decision (uuidLe a b).
Proof. unfold uuidLe. apply _. Defined.

Definition modelEqb (a b : SettlementModel) : bool :=
  match a, b with Prefunded, Prefunded | NetSettlementModel, NetSettlementModel => true | _, _ => false end.

Definition isActiveOn (model : SettlementModel) (x : Tenant) : bool :=
  modelEqb (tn_SettlementModel x) model
  && match tn_Status x with TenantActive => true | _ => false end.

(** The ids of the active tenants on a model, in the order of ids. *)
Definition activeIDs (model : SettlementModel) (tenants : list Tenant) : list UUID :=
  merge_sort uuidLe (map tn_ID (filter (fun x => isActiveOn model x = true) tenants)).

Definition ListActiveTenantIDsBySettlementModel (model : SettlementModel) (limit : Z) (afterID : UUID)
  : DB -> result (list UUID) * DB :=
  query (fun c t =>
    limitOffset limit 0
      (filter (fun id => uuidLt afterID id = true) (activeIDs model (nt_tenants t)))).

Definition CountActiveTenantsBySettlementModel (model : SettlementModel) : DB -> result Z * DB :=
  query (fun c t => Ok (Z.of_nat (length (activeIDs model (nt_tenants t))))).

Definition ListTenantsBySettlementModel (model : SettlementModel) (limit offset : Z)
  : DB -> result (list Tenant) * DB :=
  query (fun c t =>
    let? rows := limitOffset limit offset
      (merge_sort (fun a b => uuidLe (tn_ID a) (tn_ID b))
         (filter (fun x => modelEqb (tn_SettlementModel x) model = true) (nt_tenants t))) in
    Ok (map tenantFromRow rows)).

(** ** Net settlements *)

(** The columns of the table: neither the tenant's name nor the fee schedule
    snapshot is one; the due date is a DATE. *)
Definition settlementRow (now : Z) (fees : Decimal) (s : NetSettlement) : NetSettlement :=
  {| ns_ID := ns_ID s; ns_TenantID := ns_TenantID s; ns_TenantName := "";
     ns_PeriodStart := ns_PeriodStart s; ns_PeriodEnd := ns_PeriodEnd s;
     ns_Corridors := ns_Corridors s; ns_NetByCurrency := ns_NetByCurrency s;
     ns_TotalFeesUSD := fees; ns_Instructions := ns_Instructions s;
     ns_FeeScheduleSnapshot := None; ns_Status := ns_Status s;
     ns_DueDate := midnight <$> ns_DueDate s; ns_CreatedAt := now |}.

Definition set_ns_status (s : NetSettlement) (status : string) : NetSettlement :=
  {| ns_ID := ns_ID s; ns_TenantID := ns_TenantID s; ns_TenantName := ns_TenantName s;
     ns_PeriodStart := ns_PeriodStart s; ns_PeriodEnd := ns_PeriodEnd s;
     ns_Corridors := ns_Corridors s; ns_NetByCurrency := ns_NetByCurrency s;
     ns_TotalFeesUSD := ns_TotalFeesUSD s; ns_Instructions := ns_Instructions s;
     ns_FeeScheduleSnapshot := ns_FeeScheduleSnapshot s; ns_Status := status;
     ns_DueDate := ns_DueDate s; ns_CreatedAt := ns_CreatedAt s |}.

Definition statusOk (status : string) : bool :=
  existsb (String.eqb status) ["pending"; "approved"; "settled"; "overdue"].

(** PRIMARY KEY (id, created_at), UNIQUE (tenant_id, period_start, period_end,
    created_at). *)
Definition settlementClash (row s : NetSettlement) : bool :=
  (ns_CreatedAt s =? ns_CreatedAt row)
  && (bool_decide (ns_ID s = ns_ID row)
      || (bool_decide (ns_TenantID s = ns_TenantID row)
          && (ns_PeriodStart s =? ns_PeriodStart row) && (ns_PeriodEnd s =? ns_PeriodEnd row))).

Definition set_settlements (t : SettlementTables) (l : list NetSettlement) : SettlementTables :=
  {| nt_transfers := nt_transfers t; nt_tenants := nt_tenants t; nt_settlements := l |}.

Definition CreateNetSettlement (s : NetSettlement) : DB -> result unit * DB :=
  transact (fun c t =>
    let? fees := wrap "creating net settlement" (numeric28_8 (ns_TotalFeesUSD s)) in
    let row := settlementRow (c_now c) fees s in
    if negb (existsb (fun x => bool_decide (tn_ID x = ns_TenantID s)) (nt_tenants t))
    then Err (WrapErr "creating net settlement" (MsgErr "violates foreign key constraint"))
    else if negb (statusOk (ns_Status s))
    then Err (WrapErr "creating net settlement" (MsgErr "violates check constraint"))
    else if existsb (settlementClash row) (nt_settlements t)
    then Err (WrapErr "creating net settlement" duplicateKey)
    else Ok (tt, set_settlements t (nt_settlements t ++ [row])%list)).

Definition GetNetSettlement (id : UUID) : DB -> result NetSettlement * DB :=
  query (fun c t =>
    wrap "getting net settlement"
      (selectFirst (fun s => bool_decide (ns_ID s = id)) (nt_settlements t))).

Definition isOpen (s : NetSettlement) : bool :=
  String.eqb (ns_Status s) "pending" || String.eqb (ns_Status s) "overdue".

(** The row joined with its tenant's name. *)
Definition joinTenant (tenants : list Tenant) (s : NetSettlement) : list NetSettlement :=
  map (fun x => {| ns_ID := ns_ID s; ns_TenantID := ns_TenantID s; ns_TenantName := tn_Name x;
         ns_PeriodStart := ns_PeriodStart s; ns_PeriodEnd := ns_PeriodEnd s;
         ns_Corridors := ns_Corridors s; ns_NetByCurrency := ns_NetByCurrency s;
         ns_TotalFeesUSD := ns_TotalFeesUSD s; ns_Instructions := ns_Instructions s;
         ns_FeeScheduleSnapshot := None; ns_Status := ns_Status s; ns_DueDate := ns_DueDate s;
         ns_CreatedAt := ns_CreatedAt s |})
    (filter (fun x => tn_ID x = ns_TenantID s) tenants).

(** [ORDER BY due_date ASC] puts NULLs last; ties are in any order. *)
Definition dueLe (a b : NetSettlement) : Prop :=
  match ns_DueDate a, ns_DueDate b with
  | _, None => True
  | None, Some _ => False
  | Some x, Some y => x <= y
  end.

#[global] Instance dueLe_dec a b : Decision (dueLe a b).
Proof. unfold dueLe. repeat case_match; apply _. Defined.

Definition ListPendingSettlements : DB -> result (list NetSettlement) * DB :=
  query (fun c t =>
    Ok (merge_sort dueLe
          (any_order (filter (fun s => isOpen s = true) (nt_settlements t) ≫= joinTenant (nt_tenants t))))).

Definition UpdateSettlementStatus (id : UUID) (status : string) : DB -> result unit * DB :=
  transact (fun c t =>
    if existsb (fun s => bool_decide (ns_ID s = id)) (nt_settlements t) && negb (statusOk status)
    then Err (WrapErr "updating settlement status" (MsgErr "violates check constraint"))
    else Ok (tt, set_settlements t
      (map (fun s => if decide (ns_ID s = id) then set_ns_status s status else s) (nt_settlements t)))).

#[export] Instance SettlementStoreAdapter : SettlementStore DB := {|
  ss_AggregateCompletedTransfersByPeriod := AggregateCompletedTransfersByPeriod;
  ss_GetTenant := GetTenant;
  ss_ListActiveTenantIDsBySettlementModel := ListActiveTenantIDsBySettlementModel;
  ss_CountActiveTenantsBySettlementModel := CountActiveTenantsBySettlementModel;
  ss_CreateNetSettlement := CreateNetSettlement;
  ss_GetNetSettlement := GetNetSettlement;
  ss_ListPendingSettlements := ListPendingSettlements;
  ss_UpdateSettlementStatus := UpdateSettlementStatus;
|}.
End Adapter.
End SettlementAdapter.
