(* ===== verification/NetSettlementProps.v ===== *)
(** * core/settlement: correctness of net settlement

    What the calculator's nets and instructions amount to, for one tenant and
    a period, against the completed transfers one by one, and what
    cross-tenant netting does to them. *)

From Stdlib Require Import QArith Qabs Lqa SpecFloat.
From stdpp Require Import sorting.
From S2P Require Import Prelude GoNumbers ThirdParty Sql Money Deposits Transfer NetSettlement NetSettlementStore.
Local Open Scope string_scope.
Local Open Scope Z_scope.

(** ** Sums *)

Section Sums.
Local Open Scope Q_scope.

Definition qsum {A} (f : A -> Q) (l : list A) : Q := foldr (fun a acc => f a + acc) 0 l.

Lemma qsum_cons {A} (f : A -> Q) a l : qsum f (a :: l) == f a + qsum f l.
Proof. reflexivity. Qed.

Lemma qsum_app {A} (f : A -> Q) l l' : qsum f (l ++ l')%list == qsum f l + qsum f l'.
Proof. induction l as [|a l IH]; simpl; [lra|]. rewrite IH. lra. Qed.

Lemma qsum_perm {A} (f : A -> Q) l l' : l ≡ₚ l' -> qsum f l == qsum f l'.
Proof. induction 1 as [|a l l' _ IH|a b l|l l' l'' _ IH _ IH']; simpl; lra. Qed.

Lemma qsum_ext {A} (f g : A -> Q) l : (forall a, a ∈ l -> f a == g a) -> qsum f l == qsum g l.
Proof.
  induction l as [|a l IH]; intros H; [done|]. simpl.
  rewrite (H a), IH by (intros; try apply H; set_solver). reflexivity.
Qed.

Lemma qsum_0 {A} (f : A -> Q) l : (forall a, a ∈ l -> f a == 0) -> qsum f l == 0.
Proof.
  intros H. rewrite (qsum_ext f (fun _ => 0)) by done. clear H.
  induction l as [|a l IH]; simpl; lra.
Qed.

Lemma qsum_plus {A} (f g : A -> Q) l : qsum (fun a => f a + g a) l == qsum f l + qsum g l.
Proof. induction l as [|a l IH]; simpl; [lra|]. rewrite IH. lra. Qed.

Lemma qsum_map {A B} (h : A -> B) (f : B -> Q) l : qsum f (map h l) == qsum (fun a => f (h a)) l.
Proof. induction l as [|a l IH]; simpl; [lra|]. rewrite IH. lra. Qed.

Lemma qsum_bind {A B} (h : A -> list B) (f : B -> Q) l :
  qsum f (l ≫= h) == qsum (fun a => qsum f (h a)) l.
Proof. induction l as [|a l IH]; [done|].
  cbn [mbind list_bind]. rewrite qsum_app. fold (l ≫= h). rewrite IH. reflexivity. Qed.

Lemma qsum_omap {A B} (h : A -> option B) (f : B -> Q) l :
  qsum f (omap h l) == qsum (fun a => match h a with Some b => f b | None => 0 end) l.
Proof.
  induction l as [|a l IH]; [done|]. cbn [omap list_omap]. fold (omap h l). rewrite qsum_cons.
  destruct (h a) as [b|]; rewrite ?qsum_cons, IH; lra.
Qed.

(** Summing group by group. *)
Lemma qsum_groups {A K} `{EqDecision K} (key : A -> K) (f : A -> Q) (keys : list K) (l : list A) :
  NoDup keys -> (forall a, a ∈ l -> key a ∈ keys) ->
  qsum (fun k => qsum f (filter (fun a => key a = k) l)) keys == qsum f l.
Proof.
  intros Hnd. induction l as [|a l IH]; intros Hin.
  - apply qsum_0. done.
  - rewrite qsum_cons, <- IH by set_solver.
    rewrite (qsum_ext _ (fun k => (if decide (key a = k) then f a else 0)
                                  + qsum f (filter (fun a => key a = k) l)))
      by (intros k _; rewrite filter_cons; destruct (decide _); simpl; lra).
    rewrite qsum_plus. apply Qplus_comp; [|reflexivity].
    assert (key a ∈ keys) as Hk by (apply Hin; set_solver). clear - Hnd Hk.
    induction keys as [|k keys IH]; [set_solver|]. apply NoDup_cons in Hnd as [Hn Hnd]. simpl.
    destruct (decide (key a = k)) as [<-|Hne].
    + rewrite qsum_0; [lra|]. intros k' Hk'. rewrite decide_False by set_solver. reflexivity.
    + rewrite IH by set_solver. lra.
Qed.

(** A sum over a map with one key that counts. *)
Lemma qsum_lookup {A} (f : string * A -> Q) (c : string) (m : gmap string A) :
  (forall k a, m !! k = Some a -> k <> c -> f (k, a) == 0) ->
  qsum f (map_to_list m) == match m !! c with Some a => f (c, a) | None => 0 end.
Proof.
  intros H. destruct (m !! c) as [a|] eqn:E.
  - rewrite <- (insert_delete_id m c a E) at 1.
    rewrite (qsum_perm _ _ ((c, a) :: map_to_list (delete c m)))
      by (apply map_to_list_insert, lookup_delete_eq).
    rewrite qsum_cons, qsum_0; [lra|]. intros [k b] Hb%elem_of_map_to_list.
    apply lookup_delete_Some in Hb as [Hne Hb]. by apply H.
  - apply qsum_0. intros [k b] Hb%elem_of_map_to_list. apply H; [done|]. intros ->. by rewrite E in Hb.
Qed.
End Sums.

(** ** Nets *)

Section Nets.
Context {L : ThirdParty} {LL : ThirdPartyLaws L} {AO : AnyOrder}.
Local Open Scope Q_scope.

Lemma foldl_dAdd_val {A} (f : A -> Decimal) l acc :
  dVal (foldl (fun acc a => dAdd acc (f a)) acc l) == dVal acc + qsum (fun a => dVal (f a)) l.
Proof.
  revert acc. induction l as [|a l IH]; intros acc; simpl; [lra|]. rewrite IH, dAdd_val. lra.
Qed.

(** [only c k q]: the amount [q] if it is in the currency asked for. *)
Definition only (c k : string) (q : Q) : Q := if decide (k = c) then q else 0.

Definition inflow (ags : list CorridorAggregate) (c : string) : Q :=
  qsum (fun a => only c (ag_DestCurrency a) (dVal (ag_TotalDest a))) ags.
Definition outflow (ags : list CorridorAggregate) (c : string) : Q :=
  qsum (fun a => only c (ag_SourceCurrency a) (dVal (ag_TotalSource a))) ags.

Definition nets_ok (m : gmap string CurrencyNet) : Prop := map_Forall (fun k n => cn_Currency n = k) m.

Lemma netEntry_currency m c : nets_ok m -> cn_Currency (netEntry m c) = c.
Proof. intros Hm. unfold netEntry. destruct (m !! c) eqn:E; [by apply Hm in E|done]. Qed.

Lemma netEntry_insert m c n k :
  netEntry (<[c := n]> m) k = if decide (c = k) then n else netEntry m k.
Proof.
  unfold netEntry. destruct (decide (c = k)) as [->|Hne];
    [by rewrite lookup_insert_eq|by rewrite lookup_insert_ne].
Qed.

Lemma addOutflow_entry m c amount k : nets_ok m ->
  nets_ok (addOutflow m c amount)
  /\ dVal (cn_Outflows (netEntry (addOutflow m c amount) k))
     == dVal (cn_Outflows (netEntry m k)) + only k c (dVal amount)
  /\ dVal (cn_Inflows (netEntry (addOutflow m c amount) k)) == dVal (cn_Inflows (netEntry m k)).
Proof.
  intros Hm. unfold addOutflow. split.
  { apply map_Forall_insert_2; [by apply netEntry_currency|done]. }
  rewrite !netEntry_insert. unfold only. destruct (decide (c = k)) as [->|Hne]; simpl;
    [rewrite dAdd_val; split; reflexivity|]. split; [lra|reflexivity].
Qed.

Lemma addInflow_entry m c amount k : nets_ok m ->
  nets_ok (addInflow m c amount)
  /\ dVal (cn_Inflows (netEntry (addInflow m c amount) k))
     == dVal (cn_Inflows (netEntry m k)) + only k c (dVal amount)
  /\ dVal (cn_Outflows (netEntry (addInflow m c amount) k)) == dVal (cn_Outflows (netEntry m k)).
Proof.
  intros Hm. unfold addInflow. split.
  { apply map_Forall_insert_2; [by apply netEntry_currency|done]. }
  rewrite !netEntry_insert. unfold only. destruct (decide (c = k)) as [->|Hne]; simpl;
    [rewrite dAdd_val; split; reflexivity|]. split; [lra|reflexivity].
Qed.

Lemma foldl_netStep ags m k : nets_ok m ->
  nets_ok (foldl netStep m ags)
  /\ dVal (cn_Inflows (netEntry (foldl netStep m ags) k))
     == dVal (cn_Inflows (netEntry m k)) + inflow ags k
  /\ dVal (cn_Outflows (netEntry (foldl netStep m ags) k))
     == dVal (cn_Outflows (netEntry m k)) + outflow ags k.
Proof.
  unfold inflow, outflow. revert m. induction ags as [|a ags IH]; intros m Hm; simpl.
  - split_and!; [done|lra|lra].
  - destruct (addOutflow_entry m (ag_SourceCurrency a) (ag_TotalSource a) k Hm) as (H1 & H2 & H3).
    destruct (addInflow_entry _ (ag_DestCurrency a) (ag_TotalDest a) k H1) as (H4 & H5 & H6).
    destruct (IH _ H4) as (H7 & H8 & H9). unfold netStep at 1 3 5. rewrite H8, H9, H5, H6, H2, H3.
    split_and!; [done|lra|lra].
Qed.

(** The nets of a list, in one currency. *)
Definition netIn (nets : list CurrencyNet) (c : string) : Q :=
  qsum (fun n => only c (cn_Currency n) (dVal (cn_Net n))) nets.

Lemma netIn_aggregates ags c :
  netIn (netByCurrencyFromAggregates ags) c == inflow ags c - outflow ags c.
Proof.
  unfold netIn, netByCurrencyFromAggregates. rewrite qsum_map.
  rewrite (qsum_perm _ _ _ (any_order_perm _)).
  destruct (foldl_netStep ags ∅ c) as (Hok & Hin & Hout); [apply map_Forall_empty|].
  rewrite (qsum_lookup _ c).
  - unfold netEntry in Hin at 1. unfold netEntry in Hout at 1.
    destruct (foldl netStep ∅ ags !! c) as [n|] eqn:E; simpl in *;
      unfold netEntry in *; rewrite lookup_empty in *; simpl in *; rewrite dZero_val in *.
    + unfold only. rewrite decide_True by (by apply Hok in E). rewrite dSub_val, Hin, Hout. lra.
    + lra.
  - intros k n Hk Hne. unfold only. simpl. rewrite decide_False; [lra|]. by rewrite (Hok _ _ Hk).
Qed.

(** Each currency has one entry. *)
Lemma nets_nodup ags : NoDup (map cn_Currency (netByCurrencyFromAggregates ags)).
Proof.
  unfold netByCurrencyFromAggregates. rewrite map_map.
  destruct (foldl_netStep ags ∅ "") as (Hok & _ & _); [apply map_Forall_empty|].
  assert (map (fun x => cn_Currency (let '(_, n) := x in setNet n))
              (any_order (map_to_list (foldl netStep ∅ ags)))
          = map fst (any_order (map_to_list (foldl netStep ∅ ags)))) as ->.
  { apply map_ext_in. intros [k n] Hk%list_elem_of_In. rewrite any_order_perm in Hk.
    apply elem_of_map_to_list in Hk. by rewrite <- (Hok _ _ Hk). }
  rewrite any_order_perm. apply NoDup_fst_map_to_list.
Qed.

(** What Settla owes the tenant in a currency, by a list of instructions. *)
Definition owed (l : list SettlementInstruction) (c : string) : Q :=
  qsum (fun i => only c (si_Currency i)
          (if String.eqb (si_Direction i) settlaOwes then dVal (si_Amount i)
           else - dVal (si_Amount i))) l.

Lemma netInstruction_owed name n c :
  match netInstruction name n with
  | Some i => only c (si_Currency i)
                (if String.eqb (si_Direction i) settlaOwes then dVal (si_Amount i)
                 else - dVal (si_Amount i))
  | None => 0
  end == only c (cn_Currency n) (dVal (cn_Net n)).
Proof.
  unfold netInstruction. destruct (IsZeroP (cn_Net n)) as [Hz|Hz];
    [unfold only; destruct (decide _); lra|].
  destruct (IsPositiveP (cn_Net n)) as [Hp|Hp]; simpl; [reflexivity|].
  unfold only. destruct (decide _); [|reflexivity]. rewrite dAbs_val, Qabs_neg by lra. lra.
Qed.

(** Carried out, the instructions discharge the nets, less the fees. *)
Lemma owed_instructions name nets fees c :
  owed (generateInstructions name nets fees) c
  == netIn nets c - only c "USD" (if IsPositive fees then Qround_places 2 (dVal fees) else 0).
Proof.
  unfold generateInstructions.
  assert (owed (omap (netInstruction name) nets) c == netIn nets c) as Hn.
  { unfold owed, netIn. rewrite qsum_omap. apply qsum_ext. intros n _. apply netInstruction_owed. }
  destruct (IsPositive fees).
  - unfold owed in *. rewrite qsum_app, Hn, qsum_cons. simpl. unfold only.
    destruct (decide _); rewrite ?dRound_val; lra.
  - rewrite Hn. unfold only. destruct (decide _); lra.
Qed.
End Nets.

(** ** From transfers to instructions *)

Section Settlement.
Context {L : ThirdParty} {LL : ThirdPartyLaws L} {AO : AnyOrder}.
Import SettlementAdapter.
Local Open Scope Q_scope.

(** The values a NUMERIC(28,8) column holds. *)
Definition onGrid (q : Q) : Prop := exists z : Z, q * inject_Z (10 ^ 8) == inject_Z z.

Lemma onGrid_sum {A} (f : A -> Q) l : (forall a, a ∈ l -> onGrid (f a)) -> onGrid (qsum f l).
Proof.
  induction l as [|a l IH]; intros H.
  - exists 0%Z. reflexivity.
  - destruct (H a) as [z Hz]; [set_solver|]. destruct IH as [z' Hz']; [set_solver|].
    exists (z + z')%Z. rewrite qsum_cons, inject_Z_plus, <- Hz, <- Hz'. ring.
Qed.

Lemma numeric28_8_grid d x : numeric28_8 d = Ok x -> onGrid (dVal d) -> dVal x == dVal d.
Proof.
  unfold numeric28_8. destruct (LessThan _ _); [|done]. intros [= <-] [z Hz].
  rewrite dRound_val. by apply (Qround_places_exact 8 z).
Qed.

Lemma sumOf_val l : dVal (sumOf l) == qsum dVal l.
Proof. unfold sumOf. rewrite (foldl_dAdd_val (fun a => a)), dZero_val, Qplus_0_l. reflexivity. Qed.

(** No transfer row has a [total_usd] in its fees. *)
Lemma feesUSD_zero t : feesUSD t = Ok dZero.
Proof. unfold feesUSD, feesJSON. by rewrite !lookup_insert_ne, lookup_empty by done. Qed.

Definition amountsOk (rows : list Transfer) : Prop :=
  forall t, t ∈ rows -> onGrid (dVal (tr_SourceAmount t)) /\ onGrid (dVal (tr_DestAmount t)).

Lemma aggregateRow_ok rows k a : amountsOk rows -> aggregateRow rows k = Ok a ->
  ag_SourceCurrency a = k.1 /\ ag_DestCurrency a = k.2
  /\ dVal (ag_TotalSource a)
     == qsum (fun t => dVal (tr_SourceAmount t)) (filter (fun t => corridorOf t = k) rows)
  /\ dVal (ag_TotalDest a)
     == qsum (fun t => dVal (tr_DestAmount t)) (filter (fun t => corridorOf t = k) rows)
  /\ dVal (ag_TotalFeesUSD a) == 0.
Proof.
  intros Hrows. unfold aggregateRow. set (g := filter _ rows).
  assert (forall t, t ∈ g -> t ∈ rows) as Hg by (intros t [_ ?]%list_elem_of_filter; done).
  destruct (numeric28_8 _) as [source|] eqn:E1; [|done].
  destruct (numeric28_8 (sumOf (map tr_DestAmount g))) as [dest|] eqn:E2; [|done].
  destruct (traverse feesUSD g) as [each|] eqn:E3; [|done].
  destruct (numeric28_8 (sumOf each)) as [fees|] eqn:E4; [|done]. intros [= <-]. simpl.
  assert (dVal (sumOf each) == 0) as Hz.
  { rewrite sumOf_val. apply qsum_0. intros d Hd.
    destruct (traverse_elem _ _ _ _ E3 Hd) as (t & _ & Ht). rewrite feesUSD_zero in Ht.
    injection Ht as <-. apply dZero_val. }
  assert (forall f, (forall t, t ∈ rows -> onGrid (dVal (f t))) ->
    onGrid (dVal (sumOf (map f g))) /\ dVal (sumOf (map f g)) == qsum (fun t => dVal (f t)) g) as Hsum.
  { intros f Hf. assert (dVal (sumOf (map f g)) == qsum (fun t => dVal (f t)) g) as Hs
      by (rewrite sumOf_val, qsum_map; reflexivity). split; [|done].
    destruct (onGrid_sum (fun t => dVal (f t)) g) as [z Hz']; [auto|]. exists z. by rewrite Hs. }
  destruct (Hsum tr_SourceAmount) as [? Hs1]; [intros t Ht; by apply Hrows|].
  destruct (Hsum tr_DestAmount) as [? Hs2]; [intros t Ht; by apply Hrows|].
  split_and!; try done.
  - by rewrite (numeric28_8_grid _ _ E1), Hs1.
  - by rewrite (numeric28_8_grid _ _ E2), Hs2.
  - rewrite (numeric28_8_grid _ _ E4); [done|]. exists 0%Z. rewrite Hz. reflexivity.
Qed.

Lemma qsum_Forall2 {A B} (P : A -> B -> Prop) (f : A -> Q) (g : B -> Q) l l' :
  Forall2 P l l' -> (forall a b, P a b -> f a == g b) -> qsum g l' == qsum f l.
Proof. intros H Hfg. induction H as [|a b l l' H _ IH]; [done|]. simpl. by rewrite IH, (Hfg a b). Qed.

(** Grouping by corridor and then netting is netting transfer by transfer. *)
Lemma corridor_sums rows ags (cur : string * string -> string) (amount : Transfer -> Q)
    (total : CorridorAggregate -> Q) (curA : CorridorAggregate -> string) c :
  aggregateRows rows = Ok ags ->
  (forall k a, aggregateRow rows k = Ok a ->
     curA a = cur k /\ total a == qsum amount (filter (fun t => corridorOf t = k) rows)) ->
  qsum (fun a => only c (curA a) (total a)) ags
  == qsum (fun t => only c (cur (corridorOf t)) (amount t)) rows.
Proof.
  intros Hags Ha. unfold aggregateRows in Hags. apply traverse_ok in Hags.
  rewrite (qsum_Forall2 _ (fun k => qsum (fun t => only c (cur (corridorOf t)) (amount t))
             (filter (fun t => corridorOf t = k) rows)) _ _ _ Hags).
  - rewrite (qsum_perm _ _ _ (any_order_perm _)). apply qsum_groups; [apply NoDup_remove_dups|].
    intros t Ht. apply elem_of_remove_dups, list_elem_of_fmap. by exists t.
  - intros k a Hk. destruct (Ha k a Hk) as [-> Ht]. unfold only. destruct (decide (cur k = c)) as [E|E].
    + rewrite Ht. apply qsum_ext. intros t [<- _]%list_elem_of_filter. rewrite decide_True by done.
      reflexivity.
    + apply qsum_0. intros t [<- _]%list_elem_of_filter. by rewrite decide_False.
Qed.

Definition received (rows : list Transfer) (c : string) : Q :=
  qsum (fun t => only c (tr_DestCurrency t) (dVal (tr_DestAmount t))) rows.
Definition sent (rows : list Transfer) (c : string) : Q :=
  qsum (fun t => only c (tr_SourceCurrency t) (dVal (tr_SourceAmount t))) rows.

Lemma aggregates_sums rows ags c : amountsOk rows -> aggregateRows rows = Ok ags ->
  inflow ags c == received rows c /\ outflow ags c == sent rows c /\ dVal (totalFees ags) == 0.
Proof.
  intros Hrows Hags. split_and!.
  - apply (corridor_sums rows ags snd (fun t => dVal (tr_DestAmount t))
             (fun a => dVal (ag_TotalDest a)) ag_DestCurrency c Hags).
    intros k a Hk. by destruct (aggregateRow_ok rows k a Hrows Hk) as (_ & -> & _ & -> & _).
  - apply (corridor_sums rows ags fst (fun t => dVal (tr_SourceAmount t))
             (fun a => dVal (ag_TotalSource a)) ag_SourceCurrency c Hags).
    intros k a Hk. by destruct (aggregateRow_ok rows k a Hrows Hk) as (-> & _ & -> & _).
  - unfold totalFees. rewrite foldl_dAdd_val, dZero_val. rewrite qsum_0; [lra|].
    intros a Ha. destruct (traverse_elem _ _ _ _ Hags Ha) as (k & _ & Hk).
    by destruct (aggregateRow_ok rows k a Hrows Hk) as (_ & _ & _ & _ & ?).
Qed.

(** What a successful calculation returned. *)
Lemma calculate_ok id now tn lo hi (d : Sql SettlementTables) s d' :
  CalculateNetSettlement id now tn lo hi d = (Ok s, d') ->
  (lo < hi)%Z /\ exists tenant ags,
    aggregateRows (periodTransfers tn lo hi (nt_transfers (sq_tables d))) = Ok ags
    /\ s = newSettlement id now tenant tn lo hi ags.
Proof.
  unfold CalculateNetSettlement. destruct (Z.ltb_spec lo hi); [|done]. simpl.
  destruct (GetTenant tn d) as [[tenant|] d1] eqn:E1; [|done].
  apply query_inv in E1 as [Ht1 _]. destruct (tn_SettlementModel tenant); [done|].
  destruct (AggregateCompletedTransfersByPeriod tn lo hi d1) as [[ags|] d2] eqn:E2; [|done].
  apply query_inv in E2 as [_ E2]. specialize (E2 ags eq_refl). apply wrap_ok in E2.
  rewrite Ht1 in E2. intros Hr. split; [done|]. exists tenant, ags. split; [done|].
  destruct (CreateNetSettlement _ d2) as [[?|?] d3]; [by injection Hr as <- _|].
  destruct (isDuplicate _); [|done]. by injection Hr as <- _.
Qed.

(** C9: The net settlement of a tenant over a period, computed from the
    database's GROUP BY over corridors, a map of running totals per currency
    and generated instructions, in whatever orders maps and rows come.  If
    [CalculateNetSettlement] succeeds, the record has one net per currency, of
    the amounts that the tenant's transfers completed in [start, end) delivered
    minus the amounts they took, transfer by transfer; and in every currency
    what its instructions make Settla pay the tenant, less what they make the
    tenant pay, is that net, less, in USD, the positive total of the fees on
    the record rounded to cents. *)
Theorem settlement_pays_difference id now tn lo hi (d : Sql SettlementTables) s d' c :
  amountsOk (nt_transfers (sq_tables d)) ->
  CalculateNetSettlement id now tn lo hi d = (Ok s, d') ->
  let rows := periodTransfers tn lo hi (nt_transfers (sq_tables d)) in
  NoDup (map cn_Currency (ns_NetByCurrency s))
  /\ netIn (ns_NetByCurrency s) c == received rows c - sent rows c
  /\ owed (ns_Instructions s) c == received rows c - sent rows c
       - only c "USD" (if IsPositive (ns_TotalFeesUSD s) then Qround_places 2 (dVal (ns_TotalFeesUSD s)) else 0).
Proof.
  intros Hrows Hs rows. destruct (calculate_ok _ _ _ _ _ _ _ _ Hs) as (_ & tenant & ags & Hags & ->).
  assert (amountsOk rows) as Hr by (intros t [_ ?]%list_elem_of_filter; by apply Hrows).
  destruct (aggregates_sums rows ags c Hr Hags) as (Hin & Hout & _). simpl.
  assert (netIn (netByCurrencyFromAggregates ags) c == received rows c - sent rows c) as Hn
    by (rewrite netIn_aggregates, Hin, Hout; reflexivity).
  split_and!; [apply nets_nodup|done|]. rewrite owed_instructions, Hn. reflexivity.
Qed.

(** Whatever fees the completed transfers of the period carry, the net
    settlement charges none: the query looks for a key [total_usd] that the
    stored JSON of [FeeBreakdown] never has. *)
Theorem settlement_charges_no_fees id now tn lo hi (d : Sql SettlementTables) s d' :
  amountsOk (nt_transfers (sq_tables d)) ->
  CalculateNetSettlement id now tn lo hi d = (Ok s, d') ->
  dVal (ns_TotalFeesUSD s) == 0
  /\ ns_Instructions s = omap (netInstruction (ns_TenantName s)) (ns_NetByCurrency s).
Proof.
  intros Hrows Hs. destruct (calculate_ok _ _ _ _ _ _ _ _ Hs) as (_ & tenant & ags & Hags & ->).
  assert (amountsOk (periodTransfers tn lo hi (nt_transfers (sq_tables d)))) as Hr
    by (intros t [_ ?]%list_elem_of_filter; by apply Hrows).
  destruct (aggregates_sums _ ags "" Hr Hags) as (_ & _ & Hfees). split; [done|]. simpl.
  unfold generateInstructions. by destruct (IsPositiveP (totalFees ags)) as [H|H]; [lra|].
Qed.
End Settlement.

(** ** Cross-tenant netting *)

Section NettingProps.
Context {L : ThirdParty} {LL : ThirdPartyLaws L} {AO : AnyOrder}.
Context (InexactFloat64 : Decimal -> spec_float).
Local Open Scope Q_scope.

(** The grouped positions, put back in one list. *)
Definition ungroup (m : gmap string (list tenantPosition)) : list (string * tenantPosition) :=
  map_to_list m ≫= fun x => map (pair x.1) x.2.

Lemma ungroup_append m p : ungroup (appendPosition m p) ≡ₚ (ungroup m ++ [p])%list.
Proof.
  destruct p as [c p]. unfold appendPosition, ungroup. simpl.
  destruct (m !! c) as [l|] eqn:E; simpl.
  - rewrite <- (insert_delete_id m c l E) at 2. rewrite <- (insert_delete_eq m c).
    rewrite !map_to_list_insert by apply lookup_delete_eq. cbn. rewrite map_app. simpl.
    rewrite <- !app_assoc. apply Permutation_app_head, Permutation_app_comm.
  - rewrite map_to_list_insert by done. cbn. apply Permutation_cons_append.
Qed.

Lemma ungroup_foldl m l : ungroup (foldl appendPosition m l) ≡ₚ (ungroup m ++ l)%list.
Proof.
  revert m. induction l as [|p l IH]; intros m; simpl; [by rewrite app_nil_r|].
  rewrite IH, ungroup_append. by rewrite <- app_assoc.
Qed.

(** The instruction for a position on its own. *)
Definition direct (p : string * tenantPosition) : option NettedInstruction := nettedInstruction p.1 p.2.

Lemma omap_perm {A B} (f : A -> option B) l l' : l ≡ₚ l' -> omap f l ≡ₚ omap f l'.
Proof.
  induction 1 as [|a l l' _ IH|a b l|l l' l'' _ IH _ IH']; [done| | |by etrans];
    cbn [omap list_omap]; repeat case_match; try done; by constructor.
Qed.

Lemma bind_perm {A B} (f g : A -> list B) l : (forall a, f a ≡ₚ g a) -> l ≫= f ≡ₚ l ≫= g.
Proof. intros H. induction l as [|a l IH]; [done|]. cbn. rewrite H. by apply Permutation_app_head. Qed.

Lemma omap_bind {A B C} (f : A -> list B) (g : B -> option C) l :
  omap g (l ≫= f) = l ≫= fun a => omap g (f a).
Proof. induction l as [|a l IH]; [done|]. cbn. by rewrite omap_app, IH. Qed.

Lemma netted_direct l :
  any_order (map_to_list (foldl appendPosition ∅ l)) ≫= currencyInstructions ≡ₚ omap direct l.
Proof.
  assert (ungroup ∅ = []) as H0 by (unfold ungroup; by rewrite map_to_list_empty).
  pose proof (ungroup_foldl ∅ l) as Hl. rewrite H0 in Hl. etrans; [|apply omap_perm, Hl].
  unfold ungroup. rewrite omap_bind.
  etrans; [apply (bind_perm _ (fun x => omap direct (map (pair x.1) x.2)))|].
  - intros [c ps]. unfold currencyInstructions. simpl.
    rewrite (omap_perm _ _ _ (sort_slice_perm _ ps)). induction ps as [|p ps IH]; [done|].
    cbn. unfold direct at 1. simpl. destruct (nettedInstruction c p); [by constructor|done].
  - by rewrite any_order_perm.
Qed.

(** Cross-tenant netting nets nothing.  For any settlements, and whatever
    the orders of maps and the unstable sort, the "netted" instructions are,
    up to order, one instruction per nonzero net of every single settlement,
    for that tenant, currency and absolute amount; the netted volume equals
    the original volume, and the savings are zero percent.  And each has the
    opposite direction of the instruction the settlement itself carries for
    the same net: where the settlement says that Settla owes the tenant, the
    netting says that the tenant owes Settla. *)
Theorem netting_nets_nothing settlements :
  (forall d, dVal d == 0 -> InexactFloat64 d = S754_zero false) ->
  let r := CalculateCrossTenantNetting InexactFloat64 settlements in
  nr_NettedInstructions r ≡ₚ omap direct (settlements ≫= positionsOf)
  /\ dVal (nr_TotalNettedVolume r) == dVal (nr_TotalOriginalVolume r)
  /\ nr_SavingsPercent r = S754_zero false
  /\ forall s n i, s ∈ settlements -> n ∈ ns_NetByCurrency s ->
       netInstruction (ns_TenantName s) n = Some i ->
       exists j, j ∈ nr_NettedInstructions r /\ ni_TenantID j = ns_TenantID s
         /\ ni_Currency j = si_Currency i /\ dVal (ni_Amount j) == dVal (si_Amount i)
         /\ ni_Direction j = (if String.eqb (si_Direction i) settlaOwes
                              then tenantOwes else settlaOwes).
Proof.
  intros Hf r. pose proof (netted_direct (settlements ≫= positionsOf)) as Hperm.
  change (any_order _ ≫= _) with (nr_NettedInstructions r) in Hperm.
  assert (dVal (nr_TotalNettedVolume r) == dVal (nr_TotalOriginalVolume r)) as Hvol.
  { subst r. unfold CalculateCrossTenantNetting. simpl. rewrite !foldl_dAdd_val, dZero_val.
    rewrite (qsum_perm _ _ _ Hperm), qsum_omap. apply Qplus_comp; [reflexivity|]. apply qsum_ext.
    intros [c p] _. unfold direct, nettedInstruction. simpl.
    destruct (IsZeroP (tp_net p)) as [Hz|Hz]; [rewrite dAbs_val, Hz; reflexivity|reflexivity]. }
  split_and!; [done|done| |].
  - subst r. unfold CalculateCrossTenantNetting in *. simpl in *.
    match goal with |- context [IsZero ?x] => destruct (IsZeroP x) as [Hz|Hz]; [done|] end.
    rewrite Hf; [done|]. rewrite dDiv_val by done. rewrite dSub_val, Hvol.
    match goal with |- Qround_places _ ?q == 0 => assert (q == 0) as -> by (field; done) end.
    apply Qround_places_0.
  - intros s n i Hs Hn Hi. unfold netInstruction in Hi.
    destruct (IsZeroP (cn_Net n)) as [Hz|Hz]; [done|].
    set (p := {| tp_tenantID := ns_TenantID s; tp_tenantName := ns_TenantName s; tp_net := cn_Net n |}).
    assert ((cn_Currency n, p) ∈ settlements ≫= positionsOf) as Hp.
    { apply list_elem_of_bind. exists s. split; [|done]. apply list_elem_of_fmap. by exists n. }
    destruct (direct (cn_Currency n, p)) as [j|] eqn:Hj.
    2:{ unfold direct, nettedInstruction in Hj. simpl in Hj. by destruct (IsZeroP (cn_Net n)). }
    exists j. split; [rewrite Hperm; apply list_elem_of_omap; eauto|].
    unfold direct, nettedInstruction in Hj. simpl in Hj.
    destruct (IsZeroP (cn_Net n)); [done|]. injection Hj as <-. simpl.
    destruct (IsPositiveP (cn_Net n)), (IsNegativeP (cn_Net n)); injection Hi as <-; simpl;
      rewrite ?dAbs_val; try lra; split_and!; try done.
    rewrite Qabs_pos by lra. reflexivity.
Qed.
End NettingProps.
