(* ===== verification/NetSettlementSchedule.v ===== *)
(** * core/settlement: correctness of the scheduler

    A cycle of the scheduler reaches every tenant: the cursor over pages of
    ids neither skips nor repeats.  Then the escalation of overdue
    settlements. *)

From Stdlib Require Import QArith Lqa.
From stdpp Require Import sorting.
From S2P Require Import Prelude GoNumbers ThirdParty Sql Money Deposits Transfer NetSettlement NetSettlementStore NetSettlementProps.
Local Open Scope string_scope.
Local Open Scope Z_scope.

(** ** The order of ids *)

Section StringOrder.

Lemma string_compare_refl s : String.compare s s = Eq.
Proof. induction s as [|a s IH]; [done|]. simpl. unfold Ascii.compare. by rewrite N.compare_refl. Qed.

Lemma string_compare_lt_trans s t u :
  String.compare s t = Lt -> String.compare t u = Lt -> String.compare s u = Lt.
Proof.
  revert t u. induction s as [|a s IH]; intros [|b t] [|c u]; simpl; try done.
  unfold Ascii.compare.
  destruct (N.compare_spec (Ascii.N_of_ascii a) (Ascii.N_of_ascii b)) as [E1|E1|E1]; try done;
    destruct (N.compare_spec (Ascii.N_of_ascii b) (Ascii.N_of_ascii c)) as [E2|E2|E2]; try done;
    destruct (N.compare_spec (Ascii.N_of_ascii a) (Ascii.N_of_ascii c)) as [E3|E3|E3]; try lia; eauto.
Qed.

Lemma string_ltb_lt s t : String.ltb s t = true <-> String.compare s t = Lt.
Proof. unfold String.ltb. destruct (String.compare s t); naive_solver. Qed.

Lemma string_ltb_irrefl s : String.ltb s s = false.
Proof. unfold String.ltb. by rewrite string_compare_refl. Qed.

Lemma string_ltb_trans s t u : String.ltb s t = true -> String.ltb t u = true -> String.ltb s u = true.
Proof. rewrite !string_ltb_lt. apply string_compare_lt_trans. Qed.

Lemma string_leb_ltb s t : String.leb s t = true <-> String.ltb s t = true \/ s = t.
Proof.
  unfold String.leb, String.ltb. destruct (String.compare s t) eqn:E.
  - apply String.compare_eq_iff in E. naive_solver.
  - naive_solver.
  - split; [done|]. intros [|<-]; [done|]. by rewrite string_compare_refl in E.
Qed.

Lemma string_leb_total s t : String.leb s t = true \/ String.leb t s = true.
Proof.
  unfold String.leb. rewrite (String.compare_antisym t s).
  destruct (String.compare s t); simpl; auto.
Qed.
End StringOrder.

(** ** The scheduler reaches everyone *)

Section SchedulerProps.
Context {L : ThirdParty} {LL : ThirdPartyLaws L} {AO : AnyOrder}.
Import SettlementAdapter.

Abbreviation before a := (fun b => uuidLt a b = true).
Abbreviation ascending := (StronglySorted (fun a b => uuidLt a b = true)).

#[local] Instance uuidLe_trans : Transitive uuidLe.
Proof.
  intros a b c. unfold uuidLe. rewrite !string_leb_ltb. intros [H1|H1] [H2|H2];
    [left; by eapply string_ltb_trans|rewrite <- H2; auto|rewrite H1; auto|right; congruence].
Qed.

#[local] Instance uuidLe_total : Total uuidLe.
Proof. intros a b. apply string_leb_total. Qed.

(** Sorted ids without repetition are strictly sorted. *)
Lemma strictly_sorted l : NoDup l -> StronglySorted uuidLe l -> ascending l.
Proof.
  intros Hnd Hs. induction Hs as [|a l Hs IH Ha]; [constructor|].
  apply NoDup_cons in Hnd as [Hn Hnd]. constructor; [auto|].
  apply Forall_forall. intros b Hb. rewrite Forall_forall in Ha. specialize (Ha b Hb).
  apply string_leb_ltb in Ha as [Ha|Ha]; [done|]. apply uuid_String_inj in Ha. by subst.
Qed.

Lemma filter_after_all a (l : list UUID) : Forall (before a) l -> filter (before a) l = l.
Proof.
  induction 1 as [|b l Hb _ IH]; [done|]. by rewrite filter_cons_True, IH.
Qed.

(** What comes after an element of a strictly sorted list. *)
Lemma filter_after l pre x suf : l = (pre ++ x :: suf)%list -> ascending l ->
  filter (before x) l = suf.
Proof.
  intros -> Hs. induction pre as [|a pre IH]; simpl in *.
  - inversion Hs as [|? ? Hs' Hf]; subst. rewrite filter_cons_False.
    + by apply filter_after_all.
    + unfold uuidLt. by rewrite string_ltb_irrefl.
  - inversion Hs as [|? ? Hs' Hf]; subst. rewrite filter_cons_False; [auto|].
    rewrite Forall_forall in Hf. specialize (Hf x ltac:(set_solver)). unfold uuidLt in *. intros Hx.
    pose proof (string_ltb_trans _ _ _ Hf Hx) as Hxx. by rewrite string_ltb_irrefl in Hxx.
Qed.

Lemma sorted_filter (P : UUID -> Prop) `{forall x, Decision (P x)} l :
  ascending l -> ascending (filter P l).
Proof.
  induction 1 as [|a l Hs IH Ha]; [constructor|]. rewrite filter_cons. case_decide; [|done].
  constructor; [done|]. rewrite Forall_forall in *. intros b [_ Hb]%list_elem_of_filter. auto.
Qed.

Lemma filter_after_trans a x (l : list UUID) : uuidLt a x = true ->
  filter (before x) (filter (before a) l) = filter (before x) l.
Proof.
  intros Hax. rewrite list_filter_filter. apply list_filter_iff. intros b. split; [naive_solver|].
  intros Hb. split; [done|]. unfold uuidLt in *. by eapply string_ltb_trans.
Qed.

Lemma feed_all cancelled sent ids : (forall n, cancelled n = false) ->
  feed cancelled sent ids = (Ok tt, (sent ++ ids)%list).
Proof.
  intros Hc. revert sent. induction ids as [|a ids IH]; intros sent; simpl; [by rewrite app_nil_r|].
  by rewrite Hc, IH, <- app_assoc.
Qed.

(** The producer's pages put together are the ids after the cursor. *)
Lemma produce_all cancelled fuel sent after (d : Sql SettlementTables) :
  let ids := activeIDs NetSettlementModel (nt_tenants (sq_tables d)) in
  let rest := filter (before after) ids in
  (forall n, cancelled n = false) ->
  sq_up d -> ascending ids -> Z.of_nat (length rest) < 500 * Z.of_nat fuel ->
  exists d', produce fuel cancelled sent after d = (Ok tt, (sent ++ rest)%list, d')
    /\ sq_tables d' = sq_tables d /\ sq_up d'.
Proof.
  revert sent after d. induction fuel as [|fuel IH]; intros sent after d ids rest Hc Hup Hs Hlen; [lia|].
  cbn [produce ss_ListActiveTenantIDsBySettlementModel SettlementStoreAdapter].
  unfold ListActiveTenantIDsBySettlementModel. rewrite query_up by done. cbn [limitOffset].
  change (filter _ (activeIDs _ _)) with rest. unfold limitOffset. simpl. rewrite drop_0, feed_all by done.
  change (Z.to_nat defaultBatchSize) with 500%nat. unfold defaultBatchSize.
  set (d1 := sq_set d (sq_tables d)).
  destruct (Z.ltb_spec (Z.of_nat (length (take 500 rest))) 500) as [Hlt|Hge].
  - exists d1. rewrite length_take in Hlt. rewrite take_ge by lia. done.
  - rewrite length_take in Hge. assert (length rest >= 500)%nat as Hr by lia.
    destruct (last (take 500 rest)) as [x|] eqn:El.
    2:{ apply last_None in El. rewrite <- length_zero_iff_nil, length_take in El. lia. }
    apply last_Some in El as [pre El]. simpl.
    assert (rest = (pre ++ x :: drop 500 rest)%list) as Hsplit.
    { rewrite <- (take_drop 500 rest) at 1. rewrite El. by rewrite <- app_assoc. }
    assert (uuidLt after x = true) as Hx.
    { assert (x ∈ rest) as Hin by (rewrite Hsplit; set_solver).
      by apply list_elem_of_filter in Hin as [? _]. }
    assert (filter (before x) ids = drop 500 rest) as Hrest.
    { rewrite <- (filter_after_trans after x) by done. apply (filter_after _ pre); [done|].
      by apply sorted_filter. }
    destruct (IH (sent ++ take 500 rest)%list x d1) as (d' & Hp & Ht & Hu'); [done|done|done| |].
    { change (activeIDs _ _) with ids. rewrite Hrest, length_drop. lia. }
    exists d'. rewrite Hp. change (activeIDs _ _) with ids. rewrite Hrest, <- app_assoc, take_drop. done.
Qed.

(** There is a settlement of the tenant for the period. *)
Definition settledFor (t : SettlementTables) (tn : UUID) (lo hi : Z) : Prop :=
  exists s, s ∈ nt_settlements t /\ ns_TenantID s = tn /\ ns_PeriodStart s = lo
            /\ ns_PeriodEnd s = hi.

(** A later state of the tables: settlements are added, under the given ids. *)
Definition extends (ids : list UUID) (t t' : SettlementTables) : Prop :=
  nt_transfers t' = nt_transfers t /\ nt_tenants t' = nt_tenants t
  /\ nt_settlements t ⊆ nt_settlements t'
  /\ forall s, s ∈ nt_settlements t' -> s ∈ nt_settlements t \/ ns_ID s ∈ ids.

Lemma settledFor_extends ids t t' tn lo hi :
  extends ids t t' -> settledFor t tn lo hi -> settledFor t' tn lo hi.
Proof. intros (_ & _ & Hsub & _) (s & Hs & H). exists s. auto. Qed.

Lemma GetTenant_up x (d : Sql SettlementTables) :
  sq_up d -> NoDup (map tn_ID (nt_tenants (sq_tables d))) -> x ∈ nt_tenants (sq_tables d) ->
  GetTenant (tn_ID x) d = (Ok (tenantFromRow x), sq_set d (sq_tables d)).
Proof.
  intros Hup Hnd Hx. unfold GetTenant. rewrite query_up by done.
  pose proof (selectFirst_some (fun y => bool_decide (tn_ID y = tn_ID x)) _ x Hx) as Hs.
  cbv beta in Hs. rewrite bool_decide_eq_true_2 in Hs by done.
  destruct (selectFirst _ (nt_tenants (sq_tables d))) as [y|] eqn:E; [|by specialize (Hs eq_refl)].
  apply selectFirst_ok in E as [Hy E%bool_decide_eq_true]. simpl.
  by rewrite (NoDup_key tn_ID _ _ _ Hnd Hy Hx E).
Qed.

Lemma numeric28_8_zero d : (dVal d == 0)%Q -> exists x, numeric28_8 d = Ok x.
Proof.
  intros Hd. unfold numeric28_8. destruct (LessThanP (dAbs (dRound 8 d)) (NewFromInt (10 ^ 20)))
    as [_|H]; [by eexists|]. exfalso. apply H. rewrite dAbs_val, dRound_val, NewFromInt_val.
  rewrite Hd, Qround_places_0. reflexivity.
Qed.

(** One tenant, on a server that answers. *)
Lemma process_settles env lo hi x (d : Sql SettlementTables) :
  sq_up d -> lo < hi -> NoDup (map tn_ID (nt_tenants (sq_tables d))) ->
  x ∈ nt_tenants (sq_tables d) -> tn_SettlementModel x = NetSettlementModel ->
  amountsOk (nt_transfers (sq_tables d)) ->
  is_ok (aggregateRows (periodTransfers (tn_ID x) lo hi (nt_transfers (sq_tables d)))) = true ->
  (forall s, s ∈ nt_settlements (sq_tables d) -> ns_ID s <> tk_newv7 env (tn_ID x)) ->
  exists d', processOneTenant env lo hi (tn_ID x) d = (Ok tt, d') /\ sq_up d'
    /\ extends [tk_newv7 env (tn_ID x)] (sq_tables d) (sq_tables d')
    /\ settledFor (sq_tables d') (tn_ID x) lo hi.
Proof.
  intros Hup Hlt Hnd Hx Hm Hrows Hags Hfresh. unfold processOneTenant, CalculateNetSettlement.
  rewrite (proj2 (Z.ltb_lt lo hi)) by done. cbn [negb].
  cbn [ss_GetTenant ss_AggregateCompletedTransfersByPeriod ss_CreateNetSettlement SettlementStoreAdapter].
  rewrite (GetTenant_up x) by done. cbn [tn_SettlementModel tenantFromRow]. rewrite Hm.
  unfold AggregateCompletedTransfersByPeriod. rewrite query_up by done. cbn [sq_tables sq_set].
  destruct (aggregateRows _) as [ags|] eqn:Eags; [|done]. cbn [wrap].
  assert (amountsOk (periodTransfers (tn_ID x) lo hi (nt_transfers (sq_tables d)))) as Hr
    by (intros t [_ ?]%list_elem_of_filter; by apply Hrows).
  destruct (aggregates_sums _ ags "" Hr Eags) as (_ & _ & Hfees).
  unfold CreateNetSettlement. rewrite transact_up by done. cbn [newSettlement ns_TotalFeesUSD ns_Status
    ns_TenantID sq_tables sq_set]. destruct (numeric28_8_zero _ Hfees) as [fees ->]. cbn [wrap].
  assert (existsb (fun y => bool_decide (tn_ID y = tn_ID x)) (nt_tenants (sq_tables d)) = true) as ->.
  { apply existsb_exists. exists x. split; [by apply list_elem_of_In|]. by apply bool_decide_eq_true_2. }
  cbn [negb statusOk existsb String.eqb].
  set (s := newSettlement _ _ _ _ _ _ _). set (c := sq_call _).
  destruct (existsb (settlementClash (settlementRow (c_now c) fees s)) _) eqn:Ec.
  - eexists. split; [reflexivity|]. split; [done|]. split.
    { split_and!; try done. intros s' Hs'. by left. }
    apply existsb_exists in Ec as (s' & Hs' & Ec). apply list_elem_of_In in Hs'. exists s'.
    unfold settlementClash in Ec. apply andb_true_iff in Ec as [_ Ec]. simpl in Ec.
    rewrite bool_decide_eq_false_2 in Ec by (by apply Hfresh). simpl in Ec.
    apply andb_true_iff in Ec as [[H1%bool_decide_eq_true H2%Z.eqb_eq]%andb_true_iff H3%Z.eqb_eq]. done.
  - eexists. split; [reflexivity|]. split; [done|]. split.
    + split_and!; try done; simpl; [set_solver|]. intros s' [Hs'|Hs'%list_elem_of_singleton]%elem_of_app;
        [by left|]. right. subst s'. simpl. set_solver.
    + exists (settlementRow (c_now c) fees s). simpl. split_and!; try done. set_solver.
Qed.

Lemma processAll_settles env lo hi (ids : list UUID) failed (d : Sql SettlementTables) :
  let tenants := nt_tenants (sq_tables d) in
  sq_up d -> lo < hi -> NoDup (map tn_ID tenants) -> NoDup ids -> Inj (=) (=) (tk_newv7 env) ->
  amountsOk (nt_transfers (sq_tables d)) ->
  (forall id, id ∈ ids -> (exists x, x ∈ tenants /\ tn_ID x = id /\ tn_SettlementModel x = NetSettlementModel)
     /\ is_ok (aggregateRows (periodTransfers id lo hi (nt_transfers (sq_tables d)))) = true) ->
  (forall s id, s ∈ nt_settlements (sq_tables d) -> id ∈ ids -> ns_ID s <> tk_newv7 env id) ->
  exists d', processAll env lo hi ids failed d = (failed, d')
    /\ extends (map (tk_newv7 env) ids) (sq_tables d) (sq_tables d')
    /\ forall id, id ∈ ids -> settledFor (sq_tables d') id lo hi.
Proof.
  revert d. induction ids as [|id ids IH]; intros d tenants Hup Hlt Hnd Hids Hinj Hrows Hact Hfresh; simpl.
  { exists d. split_and!; try done; [|set_solver]. split_and!; try done. intros s Hs. by left. }
  apply NoDup_cons in Hids as [Hid Hids].
  destruct (Hact id ltac:(set_solver)) as [(x & Hx & <- & Hm) Hags].
  destruct (process_settles env lo hi x d) as (d1 & -> & Hup1 & Hext & Hset); try done.
  { intros s Hs. apply Hfresh; set_solver. }
  pose proof Hext as (Htr & Htn & Hsub & Hnew).
  destruct (IH d1) as (d' & Hp & Hext' & Hall); try done; rewrite ?Htr, ?Htn; try done.
  - intros id' Hid'. apply Hact. set_solver.
  - intros s id' Hs Hid'. destruct (Hnew s Hs) as [Hold|Heq%list_elem_of_singleton];
      [apply Hfresh; set_solver|]. rewrite Heq. intros Hx'%Hinj. set_solver.
  - exists d'. split; [done|]. destruct Hext' as (Htr' & Htn' & Hsub' & Hnew'). split.
    + split_and!; [congruence|congruence|set_solver|]. intros s [Hs|Hs]%Hnew'; [|set_solver].
      destruct (Hnew s Hs); set_solver.
    + intros id' [->|Hid']%elem_of_cons; [|by apply Hall]. eapply settledFor_extends; [|done].
      by split_and!.
Qed.

Lemma activeIDs_spec tenants id :
  id ∈ activeIDs NetSettlementModel tenants <->
  exists x, x ∈ tenants /\ tn_ID x = id /\ isActiveOn NetSettlementModel x = true.
Proof.
  unfold activeIDs. rewrite merge_sort_Permutation, list_elem_of_fmap.
  split; intros (x & H1 & H2); exists x; rewrite ?list_elem_of_filter in *; naive_solver.
Qed.

Lemma activeIDs_sorted tenants : NoDup (map tn_ID tenants) ->
  NoDup (activeIDs NetSettlementModel tenants) /\ ascending (activeIDs NetSettlementModel tenants)
  /\ (length (activeIDs NetSettlementModel tenants) <= length tenants)%nat.
Proof.
  intros Hnd. assert (NoDup (activeIDs NetSettlementModel tenants)) as Hn.
  { unfold activeIDs. rewrite merge_sort_Permutation.
    eapply sublist_NoDup; [exact Hnd|]. apply fmap_sublist, sublist_filter. }
  split_and!; [done| |].
  - apply strictly_sorted; [done|]. apply StronglySorted_merge_sort; apply _.
  - unfold activeIDs. rewrite merge_sort_Permutation, length_fmap. apply length_filter.
Qed.

(** C32: On a database that answers, one scheduler cycle over a period settles
    every active NET_SETTLEMENT tenant (with an id after the nil UUID, where
    the cursor starts).  The producer fetches pages of 500 ids after the last
    id of the page before; [fuel] pages with 500 * fuel beyond the number of
    tenants are enough for it to reach the short page that ends it, no tenant
    is skipped or visited twice, and in whatever order the workers finish,
    each tenant ends up with a stored settlement of the period. *)
Theorem every_tenant_is_settled fuel env lo hi (d : Sql SettlementTables) r d' x :
  sq_up d -> lo < hi -> NoDup (map tn_ID (nt_tenants (sq_tables d))) ->
  Z.of_nat (length (nt_tenants (sq_tables d))) < 500 * Z.of_nat fuel ->
  (forall n, tk_cancelled env n = false) -> Inj (=) (=) (tk_newv7 env) ->
  amountsOk (nt_transfers (sq_tables d)) ->
  (forall y, y ∈ nt_tenants (sq_tables d) -> isActiveOn NetSettlementModel y = true ->
     is_ok (aggregateRows (periodTransfers (tn_ID y) lo hi (nt_transfers (sq_tables d)))) = true) ->
  (forall s id, s ∈ nt_settlements (sq_tables d) -> ns_ID s <> tk_newv7 env id) ->
  calculateForAllTenants fuel env lo hi d = (r, d') ->
  x ∈ nt_tenants (sq_tables d) -> isActiveOn NetSettlementModel x = true ->
  uuidLt uuid_Nil (tn_ID x) = true ->
  r = Ok tt /\ settledFor (sq_tables d') (tn_ID x) lo hi.
Proof.
  intros Hup Hlt Hnd Hfuel Hc Hinj Hrows Hags Hfresh Hcalc Hx Hact Hnil.
  set (tenants := nt_tenants (sq_tables d)) in *.
  destruct (activeIDs_sorted tenants Hnd) as (Hn & Hs & Hlen).
  assert (tn_ID x ∈ filter (before uuid_Nil) (activeIDs NetSettlementModel tenants)) as Hin.
  { apply list_elem_of_filter. split; [done|]. apply activeIDs_spec. by exists x. }
  unfold calculateForAllTenants in Hcalc.
  cbn [ss_CountActiveTenantsBySettlementModel SettlementStoreAdapter] in Hcalc.
  unfold CountActiveTenantsBySettlementModel in Hcalc. rewrite query_up in Hcalc by done.
  fold tenants in Hcalc.
  destruct (Z.eqb_spec (Z.of_nat (length (activeIDs NetSettlementModel tenants))) 0) as [E|_].
  { exfalso. assert (activeIDs NetSettlementModel tenants = []) as E' by (apply length_zero_iff_nil; lia).
    rewrite E' in Hin. set_solver. }
  set (d1 := sq_set d (sq_tables d)) in *.
  destruct (produce_all (tk_cancelled env) fuel [] uuid_Nil d1) as (d2 & Hp & Ht2 & Hup2);
    [done|done|done| |].
  { fold tenants. pose proof (length_filter (before uuid_Nil) (activeIDs NetSettlementModel tenants)).
    change (nt_tenants (sq_tables d1)) with tenants. lia. }
  rewrite Hp in Hcalc. change (nt_tenants (sq_tables d1)) with tenants in *.
  set (ids := filter (before uuid_Nil) (activeIDs NetSettlementModel tenants)) in *. simpl in Hcalc.
  destruct (processAll_settles env lo hi (any_order ids) 0 d2) as (d3 & Hd3 & _ & Hall);
    rewrite ?Ht2; try done.
  - rewrite any_order_perm. by apply NoDup_filter.
  - intros id Hid. rewrite any_order_perm in Hid.
    apply list_elem_of_filter in Hid as [_ (y & Hy & <- & Ha)%activeIDs_spec]. split; [|by apply Hags].
    exists y. split_and!; try done. unfold isActiveOn in Ha. by destruct (tn_SettlementModel y).
  - intros s id Hs' _. by apply Hfresh.
  - rewrite Hd3 in Hcalc. injection Hcalc as <- <-. split; [done|]. apply Hall.
    by rewrite any_order_perm.
Qed.
End SchedulerProps.

(** ** Overdue settlements *)

Section Overdue.
Context {L : ThirdParty} {LL : ThirdPartyLaws L} {AO : AnyOrder}.
Import SettlementAdapter.

Definition pastDue (now : Z) (s : NetSettlement) : option Z := timeSub now <$> ns_DueDate s.

(** The action for a settlement that is late by [overdue]. *)
Definition actionFor (now : Z) (s : NetSettlement) : option OverdueAction :=
  overdue ← pastDue now s;
  action ← (if overdue <=? 0 then None else overdueAction overdue);
  Some {| oa_SettlementID := uuid_String (ns_ID s); oa_TenantID := uuid_String (ns_TenantID s);
          oa_TenantName := ns_TenantName s; oa_Action := action;
          oa_DaysPastDue := daysPastDue overdue |}.

Definition weekLate (now : Z) (s : NetSettlement) : bool :=
  match pastDue now s with Some overdue => 7 * day <=? overdue | None => false end.

(** The row after the settlements of [l] that are a week late were marked. *)
Definition marked (now : Z) (l : list NetSettlement) (s : NetSettlement) : NetSettlement :=
  if existsb (fun p => bool_decide (ns_ID p = ns_ID s) && weekLate now p) l
  then set_ns_status s "overdue" else s.

Lemma marked_id now l s : ns_ID (marked now l s) = ns_ID s.
Proof. unfold marked. by destruct (existsb _ l). Qed.

Lemma marked_cons now p l s :
  marked now l (if bool_decide (ns_ID p = ns_ID s) && weekLate now p
                then set_ns_status s "overdue" else s) = marked now (p :: l) s.
Proof.
  unfold marked. cbn [existsb]. destruct (bool_decide _ && weekLate now p); simpl; [|done].
  by destruct (existsb _ l).
Qed.

Lemma UpdateSettlementStatus_up id (d : Sql SettlementTables) : sq_up d ->
  UpdateSettlementStatus id "overdue" d
  = (Ok tt, sq_set d (set_settlements (sq_tables d)
      (map (fun s => if decide (ns_ID s = id) then set_ns_status s "overdue" else s)
         (nt_settlements (sq_tables d))))).
Proof.
  intros Hup. unfold UpdateSettlementStatus. rewrite transact_up by done.
  by rewrite andb_false_r.
Qed.

Lemma overdueAction_suspend overdue : 
  match overdueAction overdue with
  | Some action => String.eqb action "suspend" = (7 * day <=? overdue) /\ 3 * day <= overdue
  | None => overdue < 3 * day
  end.
Proof.
  unfold overdueAction, OverdueThresholds_Suspend, OverdueThresholds_Warning, OverdueThresholds_Reminder.
  destruct (Z.leb_spec (7 * day) overdue); [|destruct (Z.leb_spec (5 * day) overdue);
    [|destruct (Z.leb_spec (3 * day) overdue)]]; try split; try done; unfold day, hour in *; lia.
Qed.

Lemma weekLate_none now p : actionFor now p = None -> weekLate now p = false.
Proof.
  unfold actionFor, weekLate. destruct (pastDue now p) as [o|]; [|done]. cbn.
  pose proof (overdueAction_suspend o) as H. destruct (Z.leb_spec o 0).
  - intros _. apply Z.leb_gt. unfold day, hour. lia.
  - destruct (overdueAction o); [done|]. intros _. apply Z.leb_gt. unfold day, hour in *. lia.
Qed.

Lemma escalate_up now l (d : Sql SettlementTables) : sq_up d ->
  exists d', escalate now l d = (omap (actionFor now) l, d')
    /\ sq_tables d' = set_settlements (sq_tables d) (map (marked now l) (nt_settlements (sq_tables d))).
Proof.
  revert d. induction l as [|p l IH]; intros d Hup.
  { exists d. split; [done|]. destruct (sq_tables d) as [tr tn ss]. unfold set_settlements. simpl.
    f_equal. unfold marked. simpl. by rewrite map_id. }
  assert (forall d1, sq_up d1 -> sq_tables d1 = set_settlements (sq_tables d)
    (map (fun s => if bool_decide (ns_ID p = ns_ID s) && weekLate now p
                   then set_ns_status s "overdue" else s) (nt_settlements (sq_tables d))) ->
    exists d', escalate now l d1 = (omap (actionFor now) l, d')
      /\ sq_tables d' = set_settlements (sq_tables d)
           (map (marked now (p :: l)) (nt_settlements (sq_tables d)))) as Hgo.
  { intros d1 Hup1 H1. destruct (IH d1 Hup1) as (d' & Hd' & Ht'). exists d'. split; [done|].
    rewrite Ht', H1. unfold set_settlements. simpl. f_equal. rewrite map_map. apply map_ext.
    intros s. apply marked_cons. }
  assert (weekLate now p = false -> exists d', escalate now l d = (omap (actionFor now) l, d')
    /\ sq_tables d' = set_settlements (sq_tables d)
           (map (marked now (p :: l)) (nt_settlements (sq_tables d)))) as Hstay.
  { intros Hw. apply (Hgo d Hup). destruct (sq_tables d) as [tr tn ss]. unfold set_settlements. simpl. f_equal.
    rewrite <- (map_id ss) at 1. apply map_ext. intros s. by rewrite Hw, andb_false_r. }
  cbn [omap list_omap]. destruct (actionFor now p) as [a|] eqn:Ea.
  - unfold actionFor, pastDue in Ea. cbn [escalate].
    destruct (ns_DueDate p) as [due|] eqn:Edue; [|done]. simpl in Ea.
    destruct (timeSub now due <=? 0); [done|].
    pose proof (overdueAction_suspend (timeSub now due)) as Hact.
    destruct (overdueAction (timeSub now due)) as [action|]; [|done]. injection Ea as <-.
    destruct Hact as [Hact _]. rewrite Hact.
    assert (weekLate now p = (7 * day <=? timeSub now due)) as Hw.
    { unfold weekLate, pastDue. by rewrite Edue. }
    destruct (7 * day <=? timeSub now due) eqn:E7.
    + cbn [ss_UpdateSettlementStatus SettlementStoreAdapter].
      rewrite UpdateSettlementStatus_up by done. simpl.
      destruct (Hgo (sq_set d (set_settlements (sq_tables d)
        (map (fun s => if decide (ns_ID s = ns_ID p) then set_ns_status s "overdue" else s)
           (nt_settlements (sq_tables d)))))) as (d' & -> & Ht).
      * done.
      * simpl. unfold set_settlements. f_equal. apply map_ext. intros s. rewrite Hw, andb_true_r.
        destruct (decide (ns_ID s = ns_ID p)) as [->|Hne];
          [by rewrite bool_decide_eq_true_2|by rewrite bool_decide_eq_false_2].
      * by exists d'.
    + destruct (Hstay Hw) as (d' & -> & Ht). by exists d'.
  - pose proof (weekLate_none _ _ Ea) as Hw. destruct (Hstay Hw) as (d' & Hd & Ht). exists d'.
    split; [|done]. rewrite <- Hd. unfold actionFor, pastDue in Ea. cbn [escalate].
    destruct (ns_DueDate p) as [due|]; [|done]. simpl in Ea. destruct (timeSub now due <=? 0); [done|].
    by destruct (overdueAction (timeSub now due)).
Qed.

(** The open settlements of known tenants, as the query lists them. *)
Definition openOf (t : SettlementTables) : list NetSettlement :=
  filter (fun s => isOpen s = true) (nt_settlements t) ≫= joinTenant (nt_tenants t).

Lemma joinTenant_elem tenants p s : p ∈ joinTenant tenants s ->
  ns_ID p = ns_ID s /\ ns_TenantID p = ns_TenantID s /\ ns_DueDate p = ns_DueDate s
  /\ exists x, x ∈ tenants /\ tn_ID x = ns_TenantID s /\ ns_TenantName p = tn_Name x.
Proof.
  unfold joinTenant. intros (x & -> & [Hx Hin]%list_elem_of_filter)%list_elem_of_fmap.
  split_and!; try done. by exists x.
Qed.

Lemma marked_open now l (t : SettlementTables) s :
  l ≡ₚ openOf t -> NoDup (map ns_ID (nt_settlements t)) ->
  (forall s, s ∈ nt_settlements t -> exists x, x ∈ nt_tenants t /\ tn_ID x = ns_TenantID s) ->
  s ∈ nt_settlements t ->
  existsb (fun p => bool_decide (ns_ID p = ns_ID s) && weekLate now p) l = isOpen s && weekLate now s.
Proof.
  intros Hl Hnd Hfk Hs.
  apply eq_bool_prop_intro. rewrite !Is_true_true, existsb_exists, andb_true_iff. split.
  + intros (p & Hp & [Hid%bool_decide_eq_true Hw]%andb_true_iff).
    apply list_elem_of_In in Hp. rewrite Hl in Hp. unfold openOf in Hp.
    apply list_elem_of_bind in Hp as (s' & Hp & [Ho Hs']%list_elem_of_filter).
    destruct (joinTenant_elem _ _ _ Hp) as (Hid' & _ & Hdue & _).
    assert (s' = s) as -> by (apply (NoDup_key ns_ID _ _ _ Hnd Hs' Hs); congruence). split; [done|]. unfold weekLate, pastDue in *. by rewrite <- Hdue.
  + intros [Ho Hw]. destruct (Hfk s Hs) as (x & Hx & Hxs).
    assert (exists p, p ∈ joinTenant (nt_tenants t) s) as [p Hp].
    { eexists. unfold joinTenant. apply list_elem_of_fmap. eexists. split; [reflexivity|].
      apply list_elem_of_filter. by split. }
    exists p. destruct (joinTenant_elem _ _ _ Hp) as (Hid' & _ & Hdue & _). split.
    * apply list_elem_of_In. rewrite Hl. apply list_elem_of_bind. exists s. split; [done|].
      by apply list_elem_of_filter.
    * apply andb_true_iff. split; [by apply bool_decide_eq_true_2|].
      unfold weekLate, pastDue in *. by rewrite Hdue.
Qed.

(** The escalation of overdue settlements by age, on a database that
    answers.  [checkOverdue] proposes one action for each open settlement
    (pending or overdue, of a known tenant) that is at least three days past
    its due date: a reminder below five days, a warning below seven, a
    suspension from seven days on, with the tenant's name.  It marks as
    overdue exactly the open settlements that are seven days late, and
    changes nothing else: in particular no tenant is suspended, whatever
    the action is called. *)
Theorem escalation_by_age now (d : Sql SettlementTables) r d' :
  sq_up d -> NoDup (map ns_ID (nt_settlements (sq_tables d))) ->
  (forall s, s ∈ nt_settlements (sq_tables d) ->
     exists x, x ∈ nt_tenants (sq_tables d) /\ tn_ID x = ns_TenantID s) ->
  checkOverdue now d = (r, d') ->
  (exists actions, r = Ok actions /\ actions ≡ₚ omap (actionFor now) (openOf (sq_tables d))
     /\ forall s o a, pastDue now s = Some o -> actionFor now s = Some a ->
          3 * day <= o /\ oa_Action a = (if 7 * day <=? o then "suspend"
                                         else if 5 * day <=? o then "warning" else "reminder"))
  /\ sq_tables d' = set_settlements (sq_tables d)
       (map (fun s => if isOpen s && weekLate now s then set_ns_status s "overdue" else s)
          (nt_settlements (sq_tables d))).
Proof.
  intros Hup Hnd Hfk. unfold checkOverdue. cbn [ss_ListPendingSettlements SettlementStoreAdapter].
  unfold ListPendingSettlements. rewrite query_up by done. fold (openOf (sq_tables d)).
  set (l := merge_sort dueLe (any_order (openOf (sq_tables d)))).
  assert (l ≡ₚ openOf (sq_tables d)) as Hl
    by (unfold l; by rewrite merge_sort_Permutation, any_order_perm).
  destruct (escalate_up now l (sq_set d (sq_tables d)) Hup) as (d1 & -> & Ht). intros [= <- <-]. split.
  - eexists. split_and!; [done|by apply omap_perm|]. intros s o a Ho. unfold actionFor. rewrite Ho. cbn.
    destruct (Z.leb_spec o 0); [done|]. pose proof (overdueAction_suspend o) as Ha. revert Ha.
    unfold overdueAction, OverdueThresholds_Suspend, OverdueThresholds_Warning,
      OverdueThresholds_Reminder.
    destruct (7 * day <=? o); [|destruct (5 * day <=? o); [|destruct (3 * day <=? o)]];
      intros Ha [= <-]; (split; [apply Ha|done]).
  - rewrite Ht. cbn [sq_set sq_tables]. f_equal. apply map_ext_in. intros s Hs%list_elem_of_In.
    unfold marked. by rewrite (marked_open now l (sq_tables d)).
Qed.
End Overdue.
