(* ===== verification/NetSettlementRuns.v ===== *)
(** * core/settlement: concrete runs

    Two tenants on the NET_SETTLEMENT model with completed transfers, settled
    by a tick of the scheduler; and what a second tick of the same day
    does. *)

From Stdlib Require Import Ascii QArith SpecFloat.
From stdpp Require Import sorting.
From S2P Require Import Prelude GoNumbers ThirdParty Sql Money Deposits Transfer DepositRuns NetSettlement NetSettlementStore NetSettlementProps NetSettlementSchedule.
Import QInstance SettlementAdapter.
Local Open Scope string_scope.
Local Open Scope Z_scope.

Module SettlementRuns.

Definition notAfter {A} (less : A -> A -> bool) (a b : A) : Prop := less b a = false.

#[export] Instance notAfter_dec {A} (less : A -> A -> bool) : RelDecision (notAfter less).
Proof. intros a b. unfold notAfter. apply _. Defined.

(** Maps in the order of their lists, sorting by merging. *)
#[export, program] Instance listOrder : AnyOrder := {|
  any_order _ l := l;
  sort_slice _ less l := merge_sort (notAfter less) l;
|}.
Next Obligation. done. Qed.
Next Obligation. intros A less l. apply merge_sort_Permutation. Qed.

Definition toFloat (q : Q) : spec_float :=
  if Qeq_bool q 0 then S754_zero false else f64_div (f64_of_Z (Qnum q)) (f64_of_Z (Zpos (Qden q))).

Definition netTenant (id : ascii) (name : string) : Tenant :=
  {| tn_ID := id; tn_Name := name; tn_Slug := name; tn_Status := TenantActive;
     tn_FeeSchedule := DepositRuns.schedule; tn_SettlementModel := NetSettlementModel;
     tn_DailyLimitUSD := 10000 # 1; tn_PerTransferLimit := 5000 # 1; tn_MaxPendingTransfers := 10;
     tn_KYBStatus := KYBVerified; tn_CryptoConfig := tn_CryptoConfig DepositRuns.tenant;
     tn_BankConfig := tn_BankConfig DepositRuns.tenant |}.

Definition T1 : UUID := "t"%char.
Definition T2 : UUID := "u"%char.

Definition completed (id tn : ascii) (src : string) (a : Q) (dst : string) (b : Q) (at_ : Z) : Transfer :=
  {| tr_ID := id; tr_TenantID := tn; tr_ExternalRef := ""; tr_IdempotencyKey := "";
     tr_Status := Completed; tr_Version := 5; tr_SourceCurrency := src; tr_SourceAmount := a;
     tr_DestCurrency := dst; tr_DestAmount := b; tr_StableCoin := "USDT"; tr_StableAmount := 1 # 1;
     tr_Chain := "tron"; tr_FXRate := 1 # 1;
     tr_Fees := {| OnRampFee := 1 # 1; NetworkFee := 1 # 1; OffRampFee := 3 # 1; TotalFeeUSD := 5 # 1 |};
     tr_FeeScheduleSnapshot := None; tr_OnRampProviderID := ""; tr_OffRampProviderID := "";
     tr_Sender := {| snd_ID := id; snd_Name := ""; snd_Email := ""; snd_Country := "" |};
     tr_Recipient := {| rcp_Name := ""; rcp_AccountNumber := ""; rcp_SortCode := "";
                        rcp_BankName := ""; rcp_Country := ""; rcp_IBAN := "" |};
     tr_QuoteID := None; tr_BlockchainTxs := []; tr_CreatedAt := 0; tr_UpdatedAt := 0;
     tr_FundedAt := None; tr_CompletedAt := Some at_; tr_FailedAt := None; tr_FailureReason := "";
     tr_FailureCode := "" |}.

(** Yesterday was the first day after the epoch. *)
Definition noon : Z := day + 12 * hour.

Definition rows : list Transfer :=
  [completed "1" T1 "GBP" (100 # 1) "NGN" (200000 # 1) (1 * hour);
   completed "2" T1 "GBP" (50 # 1) "NGN" (100000 # 1) (2 * hour);
   completed "3" T1 "NGN" (40000 # 1) "GBP" (19 # 1) (3 * hour);
   completed "4" T1 "GBP" (7 # 1) "EUR" (8 # 1) (30 * hour);
   completed "5" T2 "NGN" (1000 # 1) "GBP" (1 # 2) (4 * hour)].

Definition db0 : Sql SettlementTables :=
  {| sq_tables := {| nt_transfers := rows; nt_tenants := [netTenant T2 "Fincra"; netTenant T1 "Lemfi"];
                     nt_settlements := [] |};
     sq_calls := 0; sq_world := DepositRuns.world [] true |}.

Lemma db0_up : sq_up db0.
Proof. by intros n. Qed.

Lemma rows_ok : amountsOk rows.
Proof.
  intros t Ht. assert (Forall (fun t => Qden (tr_SourceAmount t) = 1%positive \/ Qden (tr_SourceAmount t) = 2%positive) rows
    /\ Forall (fun t => Qden (tr_DestAmount t) = 1%positive \/ Qden (tr_DestAmount t) = 2%positive) rows)
    as [H1 H2] by (split; repeat constructor).
  rewrite Forall_forall in H1, H2. specialize (H1 t Ht). specialize (H2 t Ht).
  assert (forall q : Q, Qden q = 1%positive \/ Qden q = 2%positive -> onGrid q) as Hg.
  { intros [n p] [Hp|Hp]; simpl in Hp; subst p; [exists (n * 10 ^ 8)|exists (n * (5 * 10 ^ 7))];
      unfold Qeq; simpl; lia. }
  split; by apply Hg.
Qed.

Definition tickEnv (k : nat) (now : Z) : TickEnv :=
  {| tk_now := now; tk_clock _ := now;
     tk_newv7 u := u; tk_cancelled _ := false |}.

Definition calc : result NetSettlement * Sql SettlementTables :=
  CalculateNetSettlement "s"%char 0 T1 0 day db0.

Definition instructionsOf (r : result NetSettlement) : list (string * string * Decimal) :=
  match r with
  | Ok s => map (fun i => (si_Direction i, si_Currency i, si_Amount i)) (ns_Instructions s)
  | Err _ => []
  end.

(** 150 GBP sent and 19 delivered, 40000 NGN sent and 300000 delivered; the
    transfer of the next day is not counted, and of 15 USD in fees none. *)
Example settlement_of_the_day :
  instructionsOf calc.1 = [(tenantOwes, "GBP", 131 # 1); (settlaOwes, "NGN", 260000 # 1)]%Q.
Proof. vm_compute. reflexivity. Qed.

(** *** The theorems at these runs *)

Lemma calc_ok : exists s, calc = (Ok s, calc.2).
Proof.
  assert (is_ok calc.1 = true) as H by (vm_compute; reflexivity).
  destruct calc as [[s|] d]; [by exists s|done].
Qed.

Lemma settlement_pays_difference_witness :
  exists s, calc.1 = Ok s /\ (owed (ns_Instructions s) "NGN" == 260000)%Q.
Proof.
  destruct calc_ok as [s Hs]. exists s. split; [by rewrite Hs|].
  destruct (settlement_pays_difference (L := Qlib) (LL := Qlib_laws) "s"%char 0 T1 0 day db0 s calc.2 "NGN" rows_ok Hs)
    as (_ & _ & H). rewrite H. vm_compute. reflexivity.
Defined.

Lemma settlement_charges_no_fees_witness :
  exists s, calc.1 = Ok s /\ (dVal (ns_TotalFeesUSD s) == 0)%Q.
Proof.
  destruct calc_ok as [s Hs]. exists s. split; [by rewrite Hs|].
  apply (settlement_charges_no_fees (L := Qlib) (LL := Qlib_laws) "s"%char 0 T1 0 day db0 s calc.2 rows_ok Hs).
Defined.

Definition position (c : string) (q : Q) : CurrencyNet :=
  {| cn_Currency := c; cn_Inflows := q; cn_Outflows := 0 # 1; cn_Net := q |}.

Definition pending (id tn : ascii) (nets : list CurrencyNet) (due : Z) : NetSettlement :=
  {| ns_ID := id; ns_TenantID := tn; ns_TenantName := ""; ns_PeriodStart := 0; ns_PeriodEnd := day;
     ns_Corridors := []; ns_NetByCurrency := nets; ns_TotalFeesUSD := 0 # 1; ns_Instructions := [];
     ns_FeeScheduleSnapshot := None; ns_Status := "pending"; ns_DueDate := Some due;
     ns_CreatedAt := 0 |}.

(** One tenant is owed what the other owes. *)
Definition offsetting : list NetSettlement :=
  [pending "1" T1 [position "NGN" (500 # 1)] 0; pending "2" T2 [position "NGN" (-500 # 1)] 0].

Lemma toFloat_zero (q : Q) : (q == 0)%Q -> toFloat q = S754_zero false.
Proof. intros Hq. unfold toFloat. by rewrite (proj2 (Qeq_bool_iff q 0) Hq). Qed.

Lemma netting_nets_nothing_witness :
  nr_SavingsPercent (CalculateCrossTenantNetting toFloat offsetting) = S754_zero false
  /\ length (nr_NettedInstructions (CalculateCrossTenantNetting toFloat offsetting)) = 2%nat.
Proof.
  destruct (netting_nets_nothing (L := Qlib) (LL := Qlib_laws) toFloat offsetting toFloat_zero) as (Hp & _ & Hs & _).
  split; [exact Hs|]. rewrite Hp. vm_compute. reflexivity.
Defined.

Definition cycle : result unit * Sql SettlementTables :=
  calculateForAllTenants 1 (tickEnv 0 noon) 0 day db0.

Lemma every_tenant_is_settled_witness :
  cycle.1 = Ok tt /\ settledFor (sq_tables cycle.2) T1 0 day.
Proof.
  apply (every_tenant_is_settled 1 (tickEnv 0 noon) 0 day db0 cycle.1 cycle.2 (netTenant T1 "Lemfi"));
    try done; try apply db0_up; try apply rows_ok.
  - apply (bool_decide_eq_true_1 (NoDup _)). vm_compute. reflexivity.
  - intros u v Huv. exact Huv.
  - intros y [-> |[-> |Hy%elem_of_nil]%elem_of_cons]%elem_of_cons _; [vm_compute; reflexivity..|done].
  - intros s id Hs. by apply elem_of_nil in Hs.
  - right; left.
Defined.

Definition lateDb : Sql SettlementTables :=
  {| sq_tables := {| nt_transfers := []; nt_tenants := [netTenant T2 "Fincra"; netTenant T1 "Lemfi"];
                     nt_settlements := [pending "1" T1 [] (2 * day); pending "2" T2 [] (6 * day)] |};
     sq_calls := 0; sq_world := DepositRuns.world [] true |}.

Definition overdueRun : result (list OverdueAction) * Sql SettlementTables :=
  checkOverdue (10 * day) lateDb.

Lemma escalation_by_age_witness :
  map ns_Status (nt_settlements (sq_tables overdueRun.2)) = ["overdue"; "pending"]
  /\ map tn_Status (nt_tenants (sq_tables overdueRun.2)) = [TenantActive; TenantActive].
Proof.
  destruct (escalation_by_age (10 * day) lateDb overdueRun.1 overdueRun.2) as [_ ->].
  - by intros n.
  - apply (bool_decide_eq_true_1 (NoDup _)). vm_compute. reflexivity.
  - intros s [-> |[-> |Hs%elem_of_nil]%elem_of_cons]%elem_of_cons; [| |done].
    + exists (netTenant T1 "Lemfi"). split; [right; left|reflexivity].
    + exists (netTenant T2 "Fincra"). split; [left|reflexivity].
  - apply surjective_pairing.
  - split; vm_compute; reflexivity.
Defined.

(** *** What goes wrong *)

Definition periodsOf (d : Sql SettlementTables) : list (UUID * Z * Z * string) :=
  map (fun s => (ns_TenantID s, ns_PeriodStart s, ns_PeriodEnd s, ns_Status s))
    (nt_settlements (sq_tables d)).

(** The scheduler runs a tick when it starts.  Restarted on the same day, it
    settles the day a second time for every tenant: the unique key of the
    table includes the time of insertion. *)
Lemma restart_settles_the_day_again :
  periodsOf (Start toFloat 1 [tickEnv 0 noon; tickEnv 1 (noon + hour)] db0)
  = [(T1, 0, day, "pending"); (T2, 0, day, "pending");
     (T1, 0, day, "pending"); (T2, 0, day, "pending")].
Proof. vm_compute. reflexivity. Qed.

(** The limit on pending transfers is lost between the row and the domain. *)
Lemma tenant_limit_is_dropped :
  tn_MaxPendingTransfers (netTenant T1 "Lemfi") = 10
  /\ match (GetTenant T1 db0).1 with Ok t => tn_MaxPendingTransfers t = 0 | Err _ => False end.
Proof. split; [done|]. vm_compute. reflexivity. Qed.

(** Ten thousand days less a nanosecond are reported as ten thousand days. *)
Example days_are_rounded_up : daysPastDue (10000 * day - 1) = 10000.
Proof. vm_compute. reflexivity. Qed.
End SettlementRuns.
