(* ===== verification/Resilience.v ===== *)
(** * resilience: the protective wrappers around dependencies

    Models src/resilience: the circuit breaker (circuitbreaker.go), the
    bulkhead (bulkhead.go), the adaptive load shedder (loadshed.go), retries
    with backoff (retry.go), timeout budgets (timeout.go), the drainer
    (drain/drainer.go) and the feature flags (featureflag/flags.go).  Metrics
    and log lines are not modelled.  A method that reads the clock or a random
    number takes it as an argument; what runs under a mutex is one function,
    what is atomic on its own is a step of a relation. *)

From Stdlib Require Import SpecFloat.
From S2P Require Import Prelude GoNumbers ThirdParty Money.
Local Open Scope string_scope.
Local Open Scope Z_scope.

(** ** Circuit breaker *)

Module Breaker.

Inductive State : Set := StateClosed | StateOpen | StateHalfOpen.

#[global] Instance State_eq_dec : EqDecision State.
Proof. solve_decision. Defined.

Definition ErrCircuitOpen : error := MsgErr "circuit breaker is open".

(** The mutable part, and the changes the callback was told. *)
Record CircuitBreaker := {
  failureThreshold : Z;
  resetTimeout : Z;
  halfOpenMaxRequests : Z;
  successThreshold : Z;
  state : State;
  consecutiveFailures : Z;
  consecutiveSuccess : Z;
  halfOpenRequests : Z;
  lastFailureTime : Z;
  changes : list (State * State);
}.

Definition set_config (cb : CircuitBreaker) (ft rt hm st : Z) : CircuitBreaker :=
  {| failureThreshold := ft; resetTimeout := rt; halfOpenMaxRequests := hm; successThreshold := st;
     state := state cb; consecutiveFailures := consecutiveFailures cb;
     consecutiveSuccess := consecutiveSuccess cb; halfOpenRequests := halfOpenRequests cb;
     lastFailureTime := lastFailureTime cb; changes := changes cb |}.

Definition set_counters (cb : CircuitBreaker) (cf cs hr last : Z) : CircuitBreaker :=
  {| failureThreshold := failureThreshold cb; resetTimeout := resetTimeout cb;
     halfOpenMaxRequests := halfOpenMaxRequests cb; successThreshold := successThreshold cb;
     state := state cb; consecutiveFailures := cf; consecutiveSuccess := cs; halfOpenRequests := hr;
     lastFailureTime := last; changes := changes cb |}.

(** *** Options *)

Definition CBOption : Type := CircuitBreaker -> CircuitBreaker.

Definition WithFailureThreshold (n : Z) : CBOption := fun cb =>
  if 0 <? n then set_config cb n (resetTimeout cb) (halfOpenMaxRequests cb) (successThreshold cb)
  else cb.

Definition WithResetTimeout (d : Z) : CBOption := fun cb =>
  if 0 <? d then set_config cb (failureThreshold cb) d (halfOpenMaxRequests cb) (successThreshold cb)
  else cb.

Definition WithHalfOpenMax (n : Z) : CBOption := fun cb =>
  if 0 <? n then set_config cb (failureThreshold cb) (resetTimeout cb) n (successThreshold cb)
  else cb.

Definition WithSuccessThreshold (n : Z) : CBOption := fun cb =>
  if 0 <? n then set_config cb (failureThreshold cb) (resetTimeout cb) (halfOpenMaxRequests cb) n
  else cb.

Definition NewCircuitBreaker (opts : list CBOption) : CircuitBreaker :=
  foldl (fun cb opt => opt cb)
    {| failureThreshold := 5; resetTimeout := 10 * 1000000000; halfOpenMaxRequests := 3;
       successThreshold := 2; state := StateClosed; consecutiveFailures := 0;
       consecutiveSuccess := 0; halfOpenRequests := 0; lastFailureTime := 0; changes := [] |} opts.

(** *** Operations under the mutex *)

Definition transitionLocked (to : State) (cb : CircuitBreaker) : CircuitBreaker :=
  if decide (state cb = to) then cb
  else
    {| failureThreshold := failureThreshold cb; resetTimeout := resetTimeout cb;
       halfOpenMaxRequests := halfOpenMaxRequests cb; successThreshold := successThreshold cb;
       state := to; consecutiveFailures := consecutiveFailures cb; consecutiveSuccess := 0;
       halfOpenRequests := 0; lastFailureTime := lastFailureTime cb;
       changes := (changes cb ++ [(state cb, to)])%list |}.

Definition currentStateLocked (now : Z) (cb : CircuitBreaker) : CircuitBreaker :=
  match state cb with
  | StateOpen => if resetTimeout cb <=? timeSub now (lastFailureTime cb)
                 then transitionLocked StateHalfOpen cb else cb
  | _ => cb
  end.

Definition GetState (now : Z) (cb : CircuitBreaker) : State * CircuitBreaker :=
  let cb := currentStateLocked now cb in (state cb, cb).

Definition allowRequest (now : Z) (cb : CircuitBreaker) : bool * CircuitBreaker :=
  let cb := currentStateLocked now cb in
  match state cb with
  | StateClosed => (true, cb)
  | StateOpen => (false, cb)
  | StateHalfOpen =>
      if halfOpenRequests cb <? halfOpenMaxRequests cb
      then (true, set_counters cb (consecutiveFailures cb) (consecutiveSuccess cb)
                    (add64 (halfOpenRequests cb) 1) (lastFailureTime cb))
      else (false, cb)
  end.

Definition recordSuccess (cb : CircuitBreaker) : CircuitBreaker :=
  let cb := set_counters cb 0 (consecutiveSuccess cb) (halfOpenRequests cb) (lastFailureTime cb) in
  match state cb with
  | StateHalfOpen =>
      let cb := set_counters cb (consecutiveFailures cb) (add64 (consecutiveSuccess cb) 1)
                  (halfOpenRequests cb) (lastFailureTime cb) in
      if successThreshold cb <=? consecutiveSuccess cb then transitionLocked StateClosed cb else cb
  | _ => cb
  end.

Definition recordFailure (now : Z) (cb : CircuitBreaker) : CircuitBreaker :=
  let cb := set_counters cb (add64 (consecutiveFailures cb) 1) 0 (halfOpenRequests cb) now in
  match state cb with
  | StateClosed => if failureThreshold cb <=? consecutiveFailures cb
                   then transitionLocked StateOpen cb else cb
  | StateHalfOpen => transitionLocked StateOpen cb
  | StateOpen => cb
  end.

(** *** Execute *)

(** How the protected call ends. *)
Inductive Ending := Returned (e : option error) | Panicked (e : error).

(** One call on its own: the context, the clock before and after the protected
    function, and how the function ends if it is called.  A panic unwinds past
    the recording. *)
Definition Execute (ctxErr : option error) (now : Z) (fn : Ending) (later : Z) (cb : CircuitBreaker)
  : result unit * CircuitBreaker :=
  match ctxErr with
  | Some e => (Err (WrapErr "circuit breaker" e), cb)
  | None =>
      match allowRequest now cb with
      | (false, cb) => (Err ErrCircuitOpen, cb)
      | (true, cb) =>
          match fn with
          | Returned None => (Ok tt, recordSuccess cb)
          | Returned (Some e) => (Err e, recordFailure later cb)
          | Panicked e => (Err e, cb)
          end
      end
  end.
End Breaker.

(** ** Bulkhead *)

Module Bulkhead.

Definition ErrBulkheadFull : error := MsgErr "bulkhead is full".

(** [sem] counts the elements in the channel. *)
Record Bulkhead := { maxConcurrent : Z; sem : Z; inFlight : Z }.

Definition NewBulkhead (maxConcurrent : Z) : Bulkhead :=
  let n := if maxConcurrent <? 1 then 1 else maxConcurrent in
  {| maxConcurrent := n; sem := 0; inFlight := 0 |}.

(** The send into the buffered channel, when there is room. *)
Definition acquire (b : Bulkhead) : option Bulkhead :=
  if sem b <? maxConcurrent b
  then Some {| maxConcurrent := maxConcurrent b; sem := sem b + 1; inFlight := inFlight b |}
  else None.

Definition enter (b : Bulkhead) : Bulkhead :=
  {| maxConcurrent := maxConcurrent b; sem := sem b; inFlight := add64 (inFlight b) 1 |}.

(** The two halves of the deferred function. *)
Definition release (b : Bulkhead) : Bulkhead :=
  {| maxConcurrent := maxConcurrent b; sem := sem b - 1; inFlight := inFlight b |}.
Definition leave (b : Bulkhead) : Bulkhead :=
  {| maxConcurrent := maxConcurrent b; sem := sem b; inFlight := add64 (inFlight b) (-1) |}.

Definition InFlight (b : Bulkhead) : Z := inFlight b.

(** One call on its own. *)
Definition Execute (ctxErr : option error) (fn : result unit) (b : Bulkhead)
  : result unit * Bulkhead :=
  match ctxErr with
  | Some e => (Err (WrapErr "bulkhead" e), b)
  | None =>
      match acquire b with
      | None => (Err ErrBulkheadFull, b)
      | Some b => (fn, leave (release (enter b)))
      end
  end.

(** How the wait of [TryExecute] ends. *)
Inductive Wait := GotSlot | TimedOut | CtxDone (e : error).

Definition TryExecute (ctxErr : option error) (wait : Wait) (fn : result unit) (b : Bulkhead)
  : result unit * Bulkhead :=
  match ctxErr with
  | Some e => (Err (WrapErr "bulkhead" e), b)
  | None =>
      match wait with
      | TimedOut => (Err ErrBulkheadFull, b)
      | CtxDone e => (Err (WrapErr "bulkhead" e), b)
      | GotSlot =>
          match acquire b with
          | None => (Err ErrBulkheadFull, b)
          | Some b => (fn, leave (release (enter b)))
          end
      end
  end.

(** Many calls at the same time: the callers that have a slot and not yet
    counted themselves, that run, and that gave the slot back and not yet
    discounted themselves. *)
Record Callers := { bulkhead : Bulkhead; entering : Z; running : Z; leaving : Z }.

Definition fresh (n : Z) : Callers :=
  {| bulkhead := NewBulkhead n; entering := 0; running := 0; leaving := 0 |}.

Inductive step : Callers -> Callers -> Prop :=
| Acquire c b : acquire (bulkhead c) = Some b ->
    step c {| bulkhead := b; entering := entering c + 1; running := running c; leaving := leaving c |}
| Reject c : acquire (bulkhead c) = None -> step c c
| Enter c : 0 < entering c ->
    step c {| bulkhead := enter (bulkhead c); entering := entering c - 1; running := running c + 1;
              leaving := leaving c |}
| Release c : 0 < running c ->
    step c {| bulkhead := release (bulkhead c); entering := entering c; running := running c - 1;
              leaving := leaving c + 1 |}
| Leave c : 0 < leaving c ->
    step c {| bulkhead := leave (bulkhead c); entering := entering c; running := running c;
              leaving := leaving c - 1 |}.
End Bulkhead.

(** ** Load shedder *)

Module Shedder.

Definition ErrLoadShedded : error := MsgErr "load shedded".

Record LoadShedder := {
  inFlight : Z;
  limit : Z;
  minLimit : Z;
  maxLimit : Z;
  targetLatency : Z;
  ewmaLatNs : spec_float;
  sampleCount : Z;
}.

Definition ewmaAlpha : spec_float := f64_ratio 1 10.

Definition set_inFlight (ls : LoadShedder) (n : Z) : LoadShedder :=
  {| inFlight := n; limit := limit ls; minLimit := minLimit ls; maxLimit := maxLimit ls;
     targetLatency := targetLatency ls; ewmaLatNs := ewmaLatNs ls; sampleCount := sampleCount ls |}.

Definition set_bounds (ls : LoadShedder) (l lo hi target : Z) : LoadShedder :=
  {| inFlight := inFlight ls; limit := l; minLimit := lo; maxLimit := hi; targetLatency := target;
     ewmaLatNs := ewmaLatNs ls; sampleCount := sampleCount ls |}.

Definition LoadShedOption : Type := LoadShedder -> LoadShedder.

Definition WithMinLimit (n : Z) : LoadShedOption := fun ls =>
  if 0 <? n then set_bounds ls (limit ls) n (maxLimit ls) (targetLatency ls) else ls.
Definition WithMaxLimit (n : Z) : LoadShedOption := fun ls =>
  if 0 <? n then set_bounds ls (limit ls) (minLimit ls) n (targetLatency ls) else ls.
Definition WithInitialLimit (n : Z) : LoadShedOption := fun ls =>
  if 0 <? n then set_bounds ls n (minLimit ls) (maxLimit ls) (targetLatency ls) else ls.
Definition WithTargetLatency (d : Z) : LoadShedOption := fun ls =>
  if 0 <? d then set_bounds ls (limit ls) (minLimit ls) (maxLimit ls) d else ls.

Definition NewLoadShedder (opts : list LoadShedOption) : LoadShedder :=
  foldl (fun ls opt => opt ls)
    {| inFlight := 0; limit := 200; minLimit := 10; maxLimit := 5000;
       targetLatency := 50 * 1000000; ewmaLatNs := S754_zero false; sampleCount := 0 |} opts.

(** The limit proposed by a sample, before clamping. *)
Definition proposed (ewma : spec_float) (target : Z) (success : bool) (current : Z) : Z :=
  if f64_leb ewma (f64_of_Z target) && success then add64 current 5
  else int_of_ceil (f64_mul (f64_of_Z current) (f64_ratio 9 10)).

Definition clamp (lo hi n : Z) : Z :=
  let n := if n <? lo then lo else n in if hi <? n then hi else n.

Definition updateAdaptiveLimit (latency : Z) (success : bool) (ls : LoadShedder) : LoadShedder :=
  let count := add64 (sampleCount ls) 1 in
  let latNs := f64_of_Z latency in
  let ewma := if count =? 1 then latNs
              else f64_add (f64_mul ewmaAlpha latNs)
                     (f64_mul (f64_sub (f64_of_Z 1) ewmaAlpha) (ewmaLatNs ls)) in
  let newLimit := if Z.rem count 20 =? 0
                  then clamp (minLimit ls) (maxLimit ls)
                         (proposed ewma (targetLatency ls) success (limit ls))
                  else limit ls in
  {| inFlight := inFlight ls; limit := newLimit; minLimit := minLimit ls; maxLimit := maxLimit ls;
     targetLatency := targetLatency ls; ewmaLatNs := ewma; sampleCount := count |}.

(** [Allow] on its own. *)
Definition Allow (ls : LoadShedder) : result unit * LoadShedder :=
  let current := add64 (inFlight ls) 1 in
  if limit ls <? current
  then (Err ErrLoadShedded, set_inFlight ls (add64 current (-1)))
  else (Ok tt, set_inFlight ls current).

(** The function that [Allow] returns. *)
Definition done (latency : Z) (success : bool) (ls : LoadShedder) : LoadShedder :=
  updateAdaptiveLimit latency success (set_inFlight ls (add64 (inFlight ls) (-1))).

(** Many requests at the same time, one atomic operation after another: those
    that counted themselves and hold the count they saw, those that are turned
    away and have not yet discounted themselves, those that were admitted, and
    those that finished and still have to report their latency.  There are
    never 2^63 at once. *)
Record Requests := {
  shedder : LoadShedder;
  asking : list Z;
  refused : Z;
  admitted : Z;
  reporting : Z;
}.

Inductive step : Requests -> Requests -> Prop :=
| Ask r : let current := add64 (inFlight (shedder r)) 1 in
    inFlight (shedder r) < int64_max ->
    step r {| shedder := set_inFlight (shedder r) current; asking := current :: asking r;
              refused := refused r; admitted := admitted r; reporting := reporting r |}
| Admit r xs current ys : asking r = (xs ++ current :: ys)%list -> current <= limit (shedder r) ->
    step r {| shedder := shedder r; asking := (xs ++ ys)%list; refused := refused r;
              admitted := admitted r + 1; reporting := reporting r |}
| Refuse r xs current ys : asking r = (xs ++ current :: ys)%list -> limit (shedder r) < current ->
    step r {| shedder := shedder r; asking := (xs ++ ys)%list; refused := refused r + 1;
              admitted := admitted r; reporting := reporting r |}
| Discount r : 0 < refused r ->
    step r {| shedder := set_inFlight (shedder r) (add64 (inFlight (shedder r)) (-1));
              asking := asking r; refused := refused r - 1; admitted := admitted r;
              reporting := reporting r |}
| Finish r : 0 < admitted r ->
    step r {| shedder := set_inFlight (shedder r) (add64 (inFlight (shedder r)) (-1));
              asking := asking r; refused := refused r; admitted := admitted r - 1;
              reporting := reporting r + 1 |}
| Report r latency success : 0 < reporting r ->
    step r {| shedder := updateAdaptiveLimit latency success (shedder r); asking := asking r;
              refused := refused r; admitted := admitted r; reporting := reporting r - 1 |}.

Definition idle (ls : LoadShedder) : Requests :=
  {| shedder := ls; asking := []; refused := 0; admitted := 0; reporting := 0 |}.
End Shedder.

(** ** Retry *)

Module Retry.

Record RetryConfig := {
  Operation : string;
  MaxAttempts : Z;
  InitialDelay : Z;
  MaxDelay : Z;
  Multiplier : spec_float;
  JitterFactor : spec_float;
}.

Definition withDefaults (cfg : RetryConfig) : RetryConfig :=
  let zero := f64_of_Z 0 in
  let mult := if f64_leb (Multiplier cfg) zero then f64_of_Z 2 else Multiplier cfg in
  let jitter := if f64_ltb (JitterFactor cfg) zero then f64_ratio 1 10 else JitterFactor cfg in
  {| Operation := if String.eqb (Operation cfg) "" then "unknown" else Operation cfg;
     MaxAttempts := if MaxAttempts cfg <=? 0 then 3 else MaxAttempts cfg;
     InitialDelay := if InitialDelay cfg <=? 0 then 100 * 1000000 else InitialDelay cfg;
     MaxDelay := if MaxDelay cfg <=? 0 then 5 * 1000000000 else MaxDelay cfg;
     Multiplier := mult;
     JitterFactor := if f64_eqb jitter zero && f64_eqb mult (f64_of_Z 2) then f64_ratio 1 10
                     else jitter |}.

(** [random] is the draw of [rand.Float64], in [0, 1). *)
Definition applyJitter (random : spec_float) (d : Z) (factor : spec_float) : Z :=
  if f64_leb factor (f64_of_Z 0) then d
  else
    let jitter := f64_mul (f64_of_Z d) factor in
    let offset := f64_mul (f64_sub (f64_mul random (f64_of_Z 2)) (f64_of_Z 1)) jitter in
    let result := f64_add (f64_of_Z d) offset in
    let result := if f64_ltb result (f64_of_Z 0) then f64_of_Z 0 else result in
    int_of_round result.

Definition nextDelay (cfg : RetryConfig) (delay : Z) : Z :=
  Z.min (int_of_f64 (f64_mul (f64_of_Z delay) (Multiplier cfg))) (MaxDelay cfg).

(** What the attempts meet: the outcome of each, the context after each, the
    end of each sleep, the random numbers. *)
Record World := {
  fn : nat -> option error;
  ctxErr : nat -> option error;
  interrupted : nat -> option error;
  random : nat -> spec_float;
}.

(** The loop, from attempt [i] with [more] more attempts allowed; returns the
    result, the number of attempts made and the sleeps begun.  The predicate
    of the caller may look at more than the error, a context for example, so
    it also depends on the attempt. *)
Fixpoint loop (more : nat) (i : nat) (cfg : RetryConfig) (shouldRetry : nat -> error -> bool) (w : World) (delay : Z) : result unit * nat * list Z :=
  match more with
  | O => (Err (MsgErr "retry exhausted"), i, [])  (* no attempt is allowed *)
  | Datatypes.S more =>
      match fn w i with
      | None => (Ok tt, Datatypes.S i, [])
      | Some e =>
          if negb (shouldRetry i e) then (Err e, Datatypes.S i, [])
          else
            match ctxErr w i with
            | Some c => (Err (WrapErr "retry cancelled" c), Datatypes.S i, [])
            | None =>
                match more with
                | O => (Err (WrapErr "retry exhausted" e), Datatypes.S i, [])
                | Datatypes.S _ =>
                    let jittered := applyJitter (random w i) delay (JitterFactor cfg) in
                    match interrupted w i with
                    | Some c => (Err (WrapErr "retry cancelled during backoff" c), Datatypes.S i, [jittered])
                    | None =>
                        let '(r, n, sleeps) := loop more (Datatypes.S i) cfg shouldRetry w (nextDelay cfg delay) in
                        (r, n, jittered :: sleeps)
                    end
                end
            end
      end
  end.

Definition Retry (cfg : RetryConfig) (shouldRetry : nat -> error -> bool) (w : World) : result unit * nat * list Z :=
  let cfg := withDefaults cfg in
  loop (Z.to_nat (MaxAttempts cfg)) 0 cfg shouldRetry w (InitialDelay cfg).
End Retry.

(** ** Timeout budget *)

Module Budget.

(** [parent] is the deadline of the parent context, if it has one. *)
Record TimeoutBudget := { parent : option Z; start : Z; total : Z }.

Definition NewTimeoutBudget (deadline : option Z) (now total : Z) : TimeoutBudget :=
  {| parent := deadline; start := now; total := total |}.

(** The clock is read twice, by [nowFunc] and by [time.Until]. *)
Definition Remaining (now now' : Z) (tb : TimeoutBudget) : Z :=
  let elapsed := timeSub now (start tb) in
  let remaining := sub64 (total tb) elapsed in
  if remaining <? 0 then 0
  else
    match parent tb with
    | Some deadline =>
        let parentRemaining := timeSub deadline now' in
        if parentRemaining <? remaining then parentRemaining else remaining
    | None => remaining
    end.

Definition Expired (now now' : Z) (tb : TimeoutBudget) : bool := Remaining now now' tb <=? 0.

(** The deadline of the child context; [None] for one that is cancelled
    already.  [context.WithTimeout] reads the clock once more, and a child
    never outlives its parent. *)
Definition Allocate (max now now' now'' : Z) (tb : TimeoutBudget) : option Z :=
  let timeout := Z.min max (Remaining now now' tb) in
  if timeout <=? 0 then None
  else Some (match parent tb with
             | Some deadline => Z.min deadline (now'' + timeout)
             | None => now'' + timeout
             end).
End Budget.

(** ** Drainer *)

Module Drain.

(** Where the call of [Drain] stands: not begun, after the flag was set, after
    the counter was found positive, at the select, returned. *)
Inductive Phase := Idle | FlagSet | Counted | AtSelect | Drained | DrainTimeout (remaining : Z).

(** Requests between [Accept] and [Track], in flight, and the last ones, that
    saw the count fall to zero: before they look at the flag, and before they
    send. *)
Record Drainer := {
  draining : bool;
  inFlight : Z;
  rejected : Z;
  phase : Phase;
  accepted : Z;
  tracked : Z;
  atZero : Z;
  sending : Z;
}.

Definition NewDrainer : Drainer :=
  {| draining := false; inFlight := 0; rejected := 0; phase := Idle; accepted := 0; tracked := 0;
     atZero := 0; sending := 0 |}.

Definition with_requests (d : Drainer) (n a t z s : Z) : Drainer :=
  {| draining := draining d; inFlight := n; rejected := rejected d; phase := phase d;
     accepted := a; tracked := t; atZero := z; sending := s |}.

Definition with_phase (d : Drainer) (p : Phase) : Drainer :=
  {| draining := draining d; inFlight := inFlight d; rejected := rejected d; phase := p;
     accepted := accepted d; tracked := tracked d; atZero := atZero d; sending := sending d |}.

Inductive step : Drainer -> Drainer -> Prop :=
| Accept d : draining d = false ->
    step d (with_requests d (inFlight d) (accepted d + 1) (tracked d) (atZero d) (sending d))
| RejectNew d : draining d = true ->
    step d {| draining := true; inFlight := inFlight d; rejected := add64 (rejected d) 1;
              phase := phase d; accepted := accepted d; tracked := tracked d; atZero := atZero d;
              sending := sending d |}
| Track d : 0 < accepted d ->
    step d (with_requests d (add64 (inFlight d) 1) (accepted d - 1) (tracked d + 1) (atZero d) (sending d))
| Done d : 0 < tracked d -> add64 (inFlight d) (-1) <> 0 ->
    step d (with_requests d (add64 (inFlight d) (-1)) (accepted d) (tracked d - 1) (atZero d) (sending d))
| DoneLast d : 0 < tracked d -> add64 (inFlight d) (-1) = 0 ->
    step d (with_requests d 0 (accepted d) (tracked d - 1) (atZero d + 1) (sending d))
| SeesFlag d : 0 < atZero d -> draining d = true ->
    step d (with_requests d (inFlight d) (accepted d) (tracked d) (atZero d - 1) (sending d + 1))
| SeesNoFlag d : 0 < atZero d -> draining d = false ->
    step d (with_requests d (inFlight d) (accepted d) (tracked d) (atZero d - 1) (sending d))
| Send d : 0 < sending d -> phase d = AtSelect ->
    step d (with_phase (with_requests d (inFlight d) (accepted d) (tracked d) (atZero d) (sending d - 1))
              Drained)
| SendDefault d : 0 < sending d -> phase d <> AtSelect ->
    step d (with_requests d (inFlight d) (accepted d) (tracked d) (atZero d) (sending d - 1))
| DrainBegin d : phase d = Idle ->
    step d {| draining := true; inFlight := inFlight d; rejected := rejected d; phase := FlagSet;
              accepted := accepted d; tracked := tracked d; atZero := atZero d; sending := sending d |}
| DrainEmpty d : phase d = FlagSet -> inFlight d = 0 -> step d (with_phase d Drained)
| DrainCount d : phase d = FlagSet -> inFlight d <> 0 -> step d (with_phase d Counted)
| DrainWait d : phase d = Counted -> step d (with_phase d AtSelect)
| DrainGivesUp d : phase d = AtSelect -> step d (with_phase d (DrainTimeout (inFlight d))).
End Drain.
