(* ===== verification/ResilienceProps.v ===== *)
(** * resilience: correctness of the wrappers

    Each wrapper under any number of concurrent callers, as an invariant of
    its step relation: the circuit breaker trips, fails fast, bounds its
    probes, recovers, and can get stuck; bulkhead and load shedder bound what
    they admit; the drainer loses its wake-up.  Then retries and timeout
    budgets, which belong to one caller. *)

From Stdlib Require Import SpecFloat.
From S2P Require Import Prelude GoNumbers ThirdParty Money Resilience.
Local Open Scope string_scope.
Local Open Scope Z_scope.

(** ** Circuit breaker *)

Module BreakerProps.
Import Breaker.

(** A breaker in use: the requests inside, and what happened: the reported
    results, latest first, the last failure, and the requests admitted since
    the circuit last opened. *)
Record Calls := {
  breaker : CircuitBreaker;
  inside : Z;
  history : list bool;
  failedAt : option Z;
  probes : Z;
}.

Definition opened (before after : CircuitBreaker) : bool :=
  bool_decide (state before <> StateOpen /\ state after = StateOpen).

Inductive step : Calls -> Calls -> Prop :=
| Ask c now ok cb : allowRequest now (breaker c) = (ok, cb) ->
    step c {| breaker := cb; inside := if ok then inside c + 1 else inside c;
              history := history c; failedAt := failedAt c;
              probes := if ok then probes c + 1 else probes c |}
| Succeed c : 0 < inside c ->
    step c {| breaker := recordSuccess (breaker c); inside := inside c - 1;
              history := true :: history c; failedAt := failedAt c; probes := probes c |}
| Fail c now : 0 < inside c ->
    let cb := recordFailure now (breaker c) in
    step c {| breaker := cb; inside := inside c - 1; history := false :: history c;
              failedAt := Some now; probes := if opened (breaker c) cb then 0 else probes c |}
| Panic c : 0 < inside c ->
    step c {| breaker := breaker c; inside := inside c - 1; history := history c;
              failedAt := failedAt c; probes := probes c |}
| Look c now :
    step c {| breaker := (GetState now (breaker c)).2; inside := inside c; history := history c;
              failedAt := failedAt c; probes := probes c |}.

(** The failures since the last success. *)
Fixpoint trailing (h : list bool) : Z :=
  match h with false :: h => trailing h + 1 | _ => 0 end.

Lemma trailing_nonneg h : 0 <= trailing h.
Proof. induction h as [|[] h IH]; simpl; lia. Qed.

Definition configured (cb : CircuitBreaker) : Prop :=
  0 < failureThreshold cb <= int64_max /\ 0 < resetTimeout cb
  /\ 0 < halfOpenMaxRequests cb <= int64_max /\ 0 < successThreshold cb <= int64_max.

(** The options keep the configuration sound. *)
Inductive option_ok : CBOption -> Prop :=
| OkFailures n : n <= int64_max -> option_ok (WithFailureThreshold n)
| OkReset d : option_ok (WithResetTimeout d)
| OkHalfOpen n : n <= int64_max -> option_ok (WithHalfOpenMax n)
| OkSuccess n : n <= int64_max -> option_ok (WithSuccessThreshold n).

Definition quiet (cb : CircuitBreaker) : Prop :=
  state cb = StateClosed /\ consecutiveFailures cb = 0 /\ consecutiveSuccess cb = 0
  /\ halfOpenRequests cb = 0.

Lemma option_keeps opt cb : option_ok opt -> configured cb -> quiet cb ->
  configured (opt cb) /\ quiet (opt cb).
Proof.
  unfold configured, quiet. intros [n Hn|d|n Hn|n Hn] Hc Hq;
    unfold WithFailureThreshold, WithResetTimeout, WithHalfOpenMax, WithSuccessThreshold;
    case_match eqn:E; try done; apply Z.ltb_lt in E; destruct cb; simpl in *; intuition lia.
Qed.

Lemma New_configured opts : Forall option_ok opts ->
  configured (NewCircuitBreaker opts) /\ quiet (NewCircuitBreaker opts).
Proof.
  unfold NewCircuitBreaker. match goal with |- context [foldl _ ?cb0 _] => set (cb := cb0) end.
  assert (configured cb /\ quiet cb) as H by (unfold configured, quiet; subst cb; simpl; int64; intuition lia).
  clearbody cb. intros Ho. revert cb H. induction Ho as [|opt opts Hopt _ IH]; intros cb [H1 H2]; [done|].
  simpl. apply IH. by apply option_keeps.
Qed.

(** The invariant, state by state. *)
Definition state_ok (c : Calls) : Prop :=
  let cb := breaker c in
  match state cb with
  | StateClosed => trailing (history c) < failureThreshold cb /\ halfOpenRequests cb = 0
                   /\ consecutiveSuccess cb = 0
  | StateOpen => probes c = 0 /\ halfOpenRequests cb = 0 /\ consecutiveSuccess cb = 0
                 /\ failedAt c = Some (lastFailureTime cb)
  | StateHalfOpen => probes c = halfOpenRequests cb /\ 0 <= halfOpenRequests cb <= halfOpenMaxRequests cb
                     /\ 0 <= consecutiveSuccess cb < successThreshold cb
  end.

Definition inv (c : Calls) : Prop :=
  configured (breaker c) /\ consecutiveFailures (breaker c) = wrap64 (trailing (history c))
  /\ state_ok c.

Lemma current_inv now c : inv c ->
  inv {| breaker := currentStateLocked now (breaker c); inside := inside c; history := history c;
         failedAt := failedAt c; probes := probes c |}.
Proof.
  intros (Hc & Hf & Hs). unfold inv, state_ok, currentStateLocked in *. cbn [breaker history failedAt probes].
  destruct (state (breaker c)) eqn:E; try (rewrite E; done).
  destruct (resetTimeout (breaker c) <=? _); [|by rewrite E].
  unfold transitionLocked. rewrite decide_False by (by rewrite E). unfold configured in *. simpl.
  destruct Hs as (-> & _). split_and!; try done; lia.
Qed.

Lemma ask_inv now c : inv c ->
  let '(ok, cb) := allowRequest now (breaker c) in
  inv {| breaker := cb; inside := if ok then inside c + 1 else inside c; history := history c;
         failedAt := failedAt c; probes := if ok then probes c + 1 else probes c |}.
Proof.
  intros Hi%(current_inv now). unfold allowRequest. destruct Hi as (Hc & Hf & Hs).
  cbn [breaker history probes failedAt] in *. set (cb := currentStateLocked now (breaker c)) in *.
  unfold inv, state_ok in *. cbn [breaker history probes failedAt] in *.
  destruct (state cb) eqn:E; [| |destruct (Z.ltb_spec (halfOpenRequests cb) (halfOpenMaxRequests cb))];
    cbn [breaker history probes failedAt]; try (rewrite E; done).
  change (state (set_counters _ _ _ _ _)) with (state cb). rewrite E. unfold configured in *. simpl.
  rewrite add64_id by (int64; lia). split_and!; try done; lia.
Qed.

Lemma succeed_inv c : inv c ->
  inv {| breaker := recordSuccess (breaker c); inside := inside c - 1; history := true :: history c;
         failedAt := failedAt c; probes := probes c |}.
Proof.
  intros (Hc & Hf & Hs). unfold inv, state_ok, recordSuccess in *.
  cbn [breaker history probes failedAt trailing]. set (cb := breaker c) in *.
  cbn [set_counters state consecutiveSuccess successThreshold consecutiveFailures].
  destruct (state cb) eqn:E; cbn [state set_counters]; rewrite ?E.
  - unfold configured in *. simpl. split_and!; try done; lia.
  - done.
  - destruct Hs as (Hp & Hh & Hcs). unfold configured in *. rewrite add64_id by (int64; lia).
    destruct (Z.leb_spec (successThreshold cb) (consecutiveSuccess cb + 1)).
    + unfold transitionLocked. cbn [state set_counters]. rewrite decide_False by (by rewrite E). simpl.
      split_and!; try done; lia.
    + cbn [state set_counters]. rewrite E. simpl. split_and!; try done; lia.
Qed.

Lemma fail_inv now c : inv c ->
  let cb := recordFailure now (breaker c) in
  inv {| breaker := cb; inside := inside c - 1; history := false :: history c;
         failedAt := Some now; probes := if opened (breaker c) cb then 0 else probes c |}.
Proof.
  intros (Hc & Hf & Hs) cb'. pose proof (trailing_nonneg (history c)) as Hn.
  assert (add64 (consecutiveFailures (breaker c)) 1 = wrap64 (trailing (history c) + 1)) as Hadd.
  { unfold add64. by rewrite Hf, wrap64_add_l. }
  unfold inv, state_ok in *. cbn [breaker history probes failedAt trailing]. subst cb'.
  unfold recordFailure, opened, transitionLocked in *. set (cb := breaker c) in *.
  cbn [state set_counters consecutiveFailures failureThreshold]. rewrite Hadd.
  destruct (state cb) eqn:E; cbn [state set_counters]; rewrite ?E.
  - destruct Hs as (Ht & Hh & Hcs). unfold configured in *. rewrite wrap64_id by (int64; lia).
    destruct (Z.leb_spec (failureThreshold cb) (trailing (history c) + 1)).
    + rewrite decide_False by done. rewrite bool_decide_eq_true_2 by done. simpl. done.
    + cbn [state set_counters]. rewrite E. simpl. done.
  - rewrite bool_decide_eq_false_2 by naive_solver. simpl. naive_solver.
  - rewrite decide_False by done. rewrite bool_decide_eq_true_2 by done. simpl. done.
Qed.

Lemma breaker_step_inv c c' : inv c -> step c c' -> inv c'.
Proof.
  intros Hi Hs. destruct Hs as [c now ok cb H|c H|c now H|c H|c now].
  - pose proof (ask_inv now c Hi) as Ha. by rewrite H in Ha.
  - by apply succeed_inv.
  - by apply fail_inv.
  - destruct Hi as (? & ? & ?). by split_and!.
  - by apply current_inv.
Qed.

Definition started (opts : list CBOption) : Calls :=
  {| breaker := NewCircuitBreaker opts; inside := 0; history := []; failedAt := None; probes := 0 |}.

Lemma started_inv opts : Forall option_ok opts -> inv (started opts).
Proof.
  intros (Hc & Hs & Hf & Hcs & Hh)%New_configured. split_and!; [done|done|].
  unfold state_ok, started. cbn [breaker]. rewrite Hs. simpl. unfold configured in Hc.
  split_and!; try done; lia.
Qed.

(** C23: The circuit breaker under any number of concurrent callers whose
    requests are asked, answered late, fail, or panic in any order.  While the
    circuit is closed, fewer than [failureThreshold] of the latest results in
    a row are failures.  While it is open, every request is rejected until
    [resetTimeout] has passed since the last reported failure.  And from the
    moment it opened until it closes, at most [halfOpenMaxRequests] requests
    have been let through, none before the timeout. *)
Theorem circuit_breaker_safe opts c :
  Forall option_ok opts -> rtc step (started opts) c ->
  let cb := breaker c in
  (state cb = StateClosed -> trailing (history c) < failureThreshold cb)
  /\ (state cb = StateOpen -> probes c = 0 /\ exists t, failedAt c = Some t
        /\ forall now, timeSub now t < resetTimeout cb -> (allowRequest now cb).1 = false)
  /\ (state cb <> StateClosed -> 0 <= probes c <= halfOpenMaxRequests cb).
Proof.
  intros Ho Hr cb. destruct (invariant_rtc step inv breaker_step_inv _ _ Hr (started_inv opts Ho)) as (Hc & _ & Hs).
  unfold state_ok in Hs. fold cb in Hs, Hc. split_and!.
  - intros E. rewrite E in Hs. apply Hs.
  - intros E. rewrite E in Hs. destruct Hs as (Hp & _ & _ & Ht). split; [done|].
    eexists. split; [done|]. intros now Hnow. unfold allowRequest, currentStateLocked. rewrite E.
    destruct (Z.leb_spec (resetTimeout cb) (timeSub now (lastFailureTime cb))); [lia|]. by rewrite E.
  - intros Hne. unfold configured in Hc. destruct (state cb); [done|lia|lia].
Qed.

(** *** Recovery *)

Definition calm (now : Z) (cb : CircuitBreaker) : result unit * CircuitBreaker :=
  Execute None now (Returned None) now cb.

(** [n] successful calls one after another, the [i]-th at time [ts i]. *)
Fixpoint heal (n : nat) (ts : nat -> Z) (cb : CircuitBreaker) : list (result unit) * CircuitBreaker :=
  match n with
  | O => ([], cb)
  | Datatypes.S n =>
      let '(rs, cb) := heal n ts cb in
      let '(r, cb) := calm (ts n) cb in ((rs ++ [r])%list, cb)
  end.

Definition probing (k : Z) (cb cb' : CircuitBreaker) : Prop :=
  state cb' = StateHalfOpen /\ halfOpenRequests cb' = k /\ consecutiveSuccess cb' = k
  /\ halfOpenMaxRequests cb' = halfOpenMaxRequests cb /\ successThreshold cb' = successThreshold cb.

Lemma calm_probe now k cb cb' : configured cb -> probing k cb cb' ->
  0 <= k < successThreshold cb -> successThreshold cb <= halfOpenMaxRequests cb ->
  exists cb'', calm now cb' = (Ok tt, cb'')
    /\ if k + 1 <? successThreshold cb then probing (k + 1) cb cb'' else state cb'' = StateClosed.
Proof.
  unfold configured, probing, calm, Execute, allowRequest, currentStateLocked.
  intros Hc (E & Hh & Hs & Hm & Ht) Hk Hle. rewrite E. simpl. rewrite E.
  rewrite (proj2 (Z.ltb_lt _ _)) by lia. eexists. split; [reflexivity|].
  unfold recordSuccess. cbn [state set_counters consecutiveSuccess successThreshold]. rewrite E.
  cbn [state set_counters consecutiveSuccess successThreshold].
  rewrite Hs, Hh, Ht, !add64_id by (int64; lia).
  destruct (Z.leb_spec (successThreshold cb) (k + 1)), (Z.ltb_spec (k + 1) (successThreshold cb)); try lia.
  - unfold transitionLocked. cbn [state set_counters]. by rewrite decide_False by (by rewrite E).
  - by split_and!.
Qed.

Lemma calm_first now cb : configured cb -> state cb = StateOpen ->
  halfOpenRequests cb = 0 -> consecutiveSuccess cb = 0 ->
  resetTimeout cb <= timeSub now (lastFailureTime cb) ->
  exists cb', probing 0 cb cb' /\ calm now cb = calm now cb'.
Proof.
  intros Hc E Hh Hs Ht. exists (transitionLocked StateHalfOpen cb).
  assert (state (transitionLocked StateHalfOpen cb) = StateHalfOpen) as E'.
  { unfold transitionLocked. by rewrite decide_False by (by rewrite E). }
  split.
  - unfold probing. split; [done|]. unfold transitionLocked. by rewrite decide_False by (by rewrite E).
  - assert (currentStateLocked now cb = transitionLocked StateHalfOpen cb) as H1.
    { unfold currentStateLocked. by rewrite E, (proj2 (Z.leb_le _ _) Ht). }
    assert (currentStateLocked now (transitionLocked StateHalfOpen cb)
            = transitionLocked StateHalfOpen cb) as H2 by (unfold currentStateLocked; by rewrite E').
    unfold calm, Execute, allowRequest. by rewrite H1, H2.
Qed.

(** An open circuit recovers.  After [resetTimeout] has passed since the
    last failure, the next [successThreshold] calls to a dependency that
    answers, made one after another at whatever times, are all let through,
    and the last of them closes the circuit, provided that the number of
    probes allowed is not smaller than the number of successes required. *)
Theorem circuit_breaker_recovers cb ts :
  configured cb -> state cb = StateOpen -> halfOpenRequests cb = 0 -> consecutiveSuccess cb = 0 ->
  resetTimeout cb <= timeSub (ts 0%nat) (lastFailureTime cb) ->
  successThreshold cb <= halfOpenMaxRequests cb ->
  let '(rs, cb') := heal (Z.to_nat (successThreshold cb)) ts cb in
  Forall (fun r => r = Ok tt) rs /\ state cb' = StateClosed.
Proof.
  intros Hc E Hh Hs Ht Hle.
  assert (forall n : nat, 0 < Z.of_nat n <= successThreshold cb ->
    exists rs cb', heal n ts cb = (rs, cb') /\ Forall (fun r => r = Ok tt) rs
      /\ if Z.of_nat n <? successThreshold cb then probing (Z.of_nat n) cb cb'
         else state cb' = StateClosed) as H.
  { induction n as [|n IH]; [lia|]. intros Hn. destruct (decide (n = 0%nat)) as [->|Hne].
    - destruct (calm_first (ts 0%nat) cb Hc E Hh Hs Ht) as (cb0 & Hp & Hcalm).
      destruct (calm_probe (ts 0%nat) 0 cb cb0 Hc Hp) as (cb1 & H1 & H2); [lia|done|].
      exists [Ok tt], cb1. simpl. rewrite Hcalm, H1. split_and!; try done. by constructor.
    - destruct IH as (rs & cb' & Hheal & Hrs & Hp); [lia|].
      rewrite (proj2 (Z.ltb_lt _ _)) in Hp by lia.
      destruct (calm_probe (ts n) (Z.of_nat n) cb cb' Hc Hp) as (cb1 & H1 & H2); [lia|done|].
      exists (rs ++ [Ok tt])%list, cb1. simpl. rewrite Hheal, H1. split_and!; try done.
      + apply Forall_app. split; [done|by constructor].
      + replace (Z.of_nat (Datatypes.S n)) with (Z.of_nat n + 1) by lia. done. }
  unfold configured in Hc. destruct (H (Z.to_nat (successThreshold cb))) as (rs & cb' & -> & Hrs & Hp); [lia|].
  rewrite Z2Nat.id, Z.ltb_irrefl in Hp by lia. done.
Qed.

(** A half-open circuit whose probes are used up, with no request inside,
    is stuck: whatever calls follow, at whatever times, every one is rejected
    and nothing changes any more.  It gets there when [halfOpenMaxRequests] is
    smaller than [successThreshold], which no constructor prevents, or when
    probes panic: a panic uses up its probe without a result. *)
Theorem exhausted_breaker_is_stuck c c' :
  state (breaker c) = StateHalfOpen -> inside c = 0 ->
  halfOpenMaxRequests (breaker c) <= halfOpenRequests (breaker c) -> rtc step c c' ->
  c' = c /\ forall now, allowRequest now (breaker c) = (false, breaker c).
Proof.
  intros E Hin Hh Hr.
  assert (forall now, allowRequest now (breaker c) = (false, breaker c)) as Ha.
  { intros now. unfold allowRequest, currentStateLocked. rewrite E.
    by rewrite E, (proj2 (Z.ltb_ge _ _)). }
  split; [|done]. refine (invariant_rtc step (fun x => x = c) _ c c' Hr eq_refl). clear c' Hr.
  intros x y -> Hs. destruct c as [cb i h f p]. simpl in *.
  inversion Hs as [? now ok cb' H|? H|? now H|? H|? now]; subst; simpl in *; try lia.
  - rewrite Ha in H. by injection H as <- <-.
  - unfold GetState, currentStateLocked. by rewrite E.
Qed.
End BreakerProps.

(** ** Bulkhead *)

Module BulkheadProps.
Import Bulkhead.

Definition inv (c : Callers) : Prop :=
  1 <= maxConcurrent (bulkhead c) /\ sem (bulkhead c) = entering c + running c
  /\ sem (bulkhead c) <= maxConcurrent (bulkhead c)
  /\ 0 <= entering c /\ 0 <= running c /\ 0 <= leaving c
  /\ inFlight (bulkhead c) = wrap64 (running c + leaving c).

Lemma bulkhead_step_inv c c' : inv c -> step c c' -> inv c'.
Proof.
  intros Hi Hs. unfold inv in *. destruct Hs as [c b Hb|c Hb|c H|c H|c H]; simpl in *; try done.
  - unfold acquire in Hb. destruct (Z.ltb_spec (sem (bulkhead c)) (maxConcurrent (bulkhead c))); [|done].
    injection Hb as <-. simpl. intuition lia.
  - destruct Hi as (? & ? & ? & ? & ? & ? & Hf). split_and!; try lia.
    unfold add64. rewrite Hf, wrap64_add_l. f_equal. lia.
  - destruct Hi as (? & ? & ? & ? & ? & ? & Hf). split_and!; try lia. rewrite Hf. f_equal. lia.
  - destruct Hi as (? & ? & ? & ? & ? & ? & Hf). split_and!; try lia.
    unfold add64. rewrite Hf, wrap64_add_l. f_equal. lia.
Qed.

(** The bulkhead under any number of concurrent [Execute] and
    [TryExecute] calls: at no time do more than [maxConcurrent] calls run (at
    least one is allowed), and a call is turned away only when that many slots
    are taken by calls that run or are about to. *)
Theorem bulkhead_bounds n c : rtc step (fresh n) c ->
  0 <= running c <= Z.max 1 n
  /\ (acquire (bulkhead c) = None -> entering c + running c = Z.max 1 n).
Proof.
  intros Hr.
  assert (maxConcurrent (bulkhead c) = Z.max 1 n) as Hm.
  { refine (invariant_rtc step (fun c => maxConcurrent (bulkhead c) = Z.max 1 n) _ _ _ Hr _).
    - intros x y Hx Hs. destruct Hs as [x b Hb| | | |]; simpl; try done. unfold acquire in Hb.
      destruct (_ <? _); [|done]. by injection Hb as <-.
    - simpl. destruct (Z.ltb_spec n 1); simpl; lia. }
  assert (inv c) as (H1 & H2 & H3 & H4 & H5 & _).
  { refine (invariant_rtc step inv bulkhead_step_inv _ _ Hr _). unfold inv. simpl.
    destruct (Z.ltb_spec n 1); simpl; intuition lia. }
  split; [lia|]. unfold acquire.
  destruct (Z.ltb_spec (sem (bulkhead c)) (maxConcurrent (bulkhead c))); [done|]. lia.
Qed.

(** The counter behind [InFlight] is not the number of running calls: a slot
    is given back before the counter goes down, so that it can exceed the
    limit for a moment. *)
Lemma in_flight_overshoots : exists c, rtc step (fresh 1) c /\ InFlight (bulkhead c) = 2.
Proof.
  eexists. split.
  - eapply rtc_l; [by apply Acquire|]. simpl. eapply rtc_l; [apply Enter; simpl; lia|]. simpl.
    eapply rtc_l; [apply Release; simpl; lia|]. simpl. eapply rtc_l; [by apply Acquire|]. simpl.
    eapply rtc_l; [apply Enter; simpl; lia|]. apply rtc_refl.
  - vm_compute. reflexivity.
Qed.
End BulkheadProps.

(** ** Load shedder *)

Module ShedderProps.
Import Shedder.

Definition bound (ls : LoadShedder) : Z := Z.max 0 (Z.max (limit ls) (maxLimit ls)).

(** The askers that may still be let in. *)
Definition hopeful (M : Z) (l : list Z) : Z := Z.of_nat (length (filter (fun c => c <= M) l)).

Lemma hopeful_app M l l' : hopeful M (l ++ l')%list = hopeful M l + hopeful M l'.
Proof. unfold hopeful. rewrite filter_app, length_app. lia. Qed.

Lemma hopeful_cons M c l : hopeful M (c :: l) = (if decide (c <= M) then 1 else 0) + hopeful M l.
Proof. unfold hopeful. rewrite filter_cons. case_decide; simpl; lia. Qed.

Lemma hopeful_le M l : 0 <= hopeful M l <= Z.of_nat (length l).
Proof. unfold hopeful. pose proof (length_filter (fun c => c <= M) l). lia. Qed.

Definition inv (ls : LoadShedder) (r : Requests) : Prop :=
  maxLimit (shedder r) = maxLimit ls /\ minLimit (shedder r) = minLimit ls
  /\ (limit (shedder r) = limit ls \/
      (limit (shedder r) <= maxLimit ls /\ (minLimit ls <= maxLimit ls -> minLimit ls <= limit (shedder r))))
  /\ 0 <= refused r /\ 0 <= admitted r /\ 0 <= reporting r
  /\ inFlight (shedder r) = Z.of_nat (length (asking r)) + refused r + admitted r
  /\ inFlight (shedder r) <= int64_max
  /\ admitted r + hopeful (bound ls) (asking r) <= bound ls.

Lemma clamp_bounds lo hi n : clamp lo hi n <= hi /\ (lo <= hi -> lo <= clamp lo hi n).
Proof. unfold clamp. destruct (Z.ltb_spec n lo); case_match eqn:E; rewrite ?Z.ltb_lt, ?Z.ltb_ge in E; lia. Qed.

Lemma shedder_step_inv ls r r' : inv ls r -> step r r' -> inv ls r'.
Proof.
  intros Hi Hs. destruct Hs as [r current Hlt|r xs current ys Ha Hle|r xs current ys Ha Hgt|r H|r H|r latency success H];
    destruct Hi as (H1 & H2 & H3 & H4 & H5 & H6 & H7 & H8 & H9); unfold inv; cbn [shedder asking refused admitted reporting set_inFlight
      inFlight limit minLimit maxLimit].
  - subst current. rewrite add64_id by (int64; lia). rewrite hopeful_cons.
    pose proof (hopeful_le (bound ls) (asking r)). split_and!; try done; simpl length; try lia.
    case_decide; lia.
  - rewrite Ha in *. rewrite hopeful_app, hopeful_cons in H9. rewrite hopeful_app.
    rewrite length_app in *. simpl in *. rewrite decide_True in H9 by (unfold bound in *; lia).
    split_and!; try done; lia.
  - rewrite Ha in *. rewrite hopeful_app, hopeful_cons in H9. rewrite hopeful_app.
    rewrite length_app in *. simpl in *. pose proof (hopeful_le (bound ls) xs).
    split_and!; try done; try lia. case_decide; lia.
  - rewrite add64_id by (int64; lia). split_and!; try done; lia.
  - rewrite add64_id by (int64; lia). split_and!; try done; lia.
  - unfold updateAdaptiveLimit. cbn [inFlight limit minLimit maxLimit]. rewrite H1, H2.
    destruct (clamp_bounds (minLimit ls) (maxLimit ls) (proposed
      (if add64 (sampleCount (shedder r)) 1 =? 1 then f64_of_Z latency
       else f64_add (f64_mul ewmaAlpha (f64_of_Z latency))
              (f64_mul (f64_sub (f64_of_Z 1) ewmaAlpha) (ewmaLatNs (shedder r))))
      (targetLatency (shedder r)) success (limit (shedder r)))) as [Hc1 Hc2].
    split_and!; try done; try lia. destruct (Z.rem _ 20 =? 0); [by right|done].
Qed.

(** The load shedder under any number of concurrent requests, each of
    which counts itself, compares, is admitted or discounts itself again, and
    reports its latency when it is done, all in separate atomic steps.  At no
    time are more requests admitted than the larger of the initial limit and
    the maximum, and after the first adjustment the limit stays between its
    minimum and its maximum, whatever the latencies. *)
Theorem shedder_bounds ls r :
  inFlight ls = 0 -> rtc step (idle ls) r ->
  admitted r <= Z.max 0 (Z.max (limit ls) (maxLimit ls))
  /\ (limit (shedder r) = limit ls \/
      (limit (shedder r) <= maxLimit ls
       /\ (minLimit ls <= maxLimit ls -> minLimit ls <= limit (shedder r)))).
Proof.
  intros H0 Hr. assert (inv ls r) as (_ & _ & H3 & _ & _ & _ & _ & _ & H9).
  { refine (invariant_rtc step (inv ls) (shedder_step_inv ls) _ _ Hr _). unfold inv, hopeful, bound. simpl.
    rewrite H0. int64. split_and!; try done; try lia; by left. }
  pose proof (hopeful_le (bound ls) (asking r)). unfold bound in *. split; [lia|done].
Qed.
End ShedderProps.

(** ** Retry *)

Module RetryProps.
Import Retry.

(** The attempt [i] failed in a way that is to be retried, and its sleep was
    not interrupted. *)
Definition goes_on (shouldRetry : nat -> error -> bool) (w : World) (i : nat) : Prop :=
  (exists e, fn w i = Some e /\ shouldRetry i e = true) /\ ctxErr w i = None.

Ltac parts := refine (conj _ (conj _ (conj _ (conj _ _)))).

Lemma loop_spec more i cfg sr w delay : (0 < more)%nat ->
  let '(r, n, sleeps) := loop more i cfg sr w delay in
  (i < n <= i + more)%nat
  /\ (forall j, (i <= j)%nat -> (Datatypes.S j < n)%nat -> goes_on sr w j /\ interrupted w j = None)
  /\ (r = Ok tt <-> fn w (pred n) = None)
  /\ (length sleeps <= n - i)%nat
  /\ (is_ok r = false -> n = (i + more)%nat \/ ~ goes_on sr w (pred n)
      \/ exists c, interrupted w (pred n) = Some c).
Proof.
  revert i delay. induction more as [|more IH]; intros i delay Hm; [lia|]. cbn [loop].
  destruct (fn w i) as [e|] eqn:Ef.
  2:{ simpl. parts; [lia|intros; lia|by rewrite Ef|lia|done]. }
  assert (forall r : result unit, r <> Ok tt -> (r = Ok tt <-> fn w i = None)) as Hiff
    by (intros r Hr; rewrite Ef; naive_solver).
  destruct (sr i e) eqn:Esr; cbn [negb].
  2:{ simpl. parts; [lia|intros; lia|by apply Hiff|lia|]. intros _. right. left.
      intros [(e' & He' & Hs) _]. rewrite Ef in He'. injection He' as <-. congruence. }
  destruct (ctxErr w i) as [c|] eqn:Ec.
  { simpl. parts; [lia|intros; lia|by apply Hiff|lia|]. intros _. right. left.
    intros [_ Hx]. congruence. }
  destruct more as [|more].
  { simpl. parts; [lia|intros; lia|by apply Hiff|lia|]. intros _. left. lia. }
  destruct (interrupted w i) as [c|] eqn:Ei.
  { simpl. parts; [lia|intros; lia|by apply Hiff|lia|]. intros _. right. right. by exists c. }
  specialize (IH (Datatypes.S i) (nextDelay cfg delay) ltac:(lia)).
  destruct (loop (Datatypes.S more) (Datatypes.S i) cfg sr w (nextDelay cfg delay)) as [[r n] sleeps].
  destruct IH as (H1 & H2 & H3 & H4 & H5). parts; [lia| |done|simpl; lia|].
  - intros j Hj Hn. destruct (decide (j = i)) as [->|Hne]; [|by apply H2; lia].
    split; [|done]. split; [|done]. by exists e.
  - intros Hr. destruct (H5 Hr) as [->|H]; [left; lia|by right].
Qed.

Lemma withDefaults_attempts cfg : 0 < MaxAttempts (withDefaults cfg).
Proof. simpl. destruct (Z.leb_spec (MaxAttempts cfg) 0); lia. Qed.

(** [Retry] returns, after at least one and at most [MaxAttempts]
    attempts (three if unset), with at most one sleep per attempt.  Every
    attempt but the last failed with an error to be retried, with the context
    alive and its sleep undisturbed.  It reports success exactly if the last
    attempt succeeded, and it gives up early only for an error that is not to
    be retried, a context that is done, or an interrupted sleep. *)
Theorem retry_spec cfg sr w :
  let '(r, n, sleeps) := Retry cfg sr w in
  (1 <= n)%nat /\ Z.of_nat n <= MaxAttempts (withDefaults cfg) /\ (length sleeps <= n)%nat
  /\ (forall j, (Datatypes.S j < n)%nat -> goes_on sr w j /\ interrupted w j = None)
  /\ (r = Ok tt <-> fn w (pred n) = None)
  /\ (is_ok r = false -> Z.of_nat n = MaxAttempts (withDefaults cfg) \/ ~ goes_on sr w (pred n)
      \/ exists c, interrupted w (pred n) = Some c).
Proof.
  unfold Retry. pose proof (withDefaults_attempts cfg) as Hm.
  pose proof (loop_spec (Z.to_nat (MaxAttempts (withDefaults cfg))) 0 (withDefaults cfg) sr w
                (InitialDelay (withDefaults cfg)) ltac:(lia)) as H.
  destruct (loop _ _ _ _ _ _) as [[r n] sleeps]. destruct H as (H1 & H2 & H3 & H4 & H5).
  split; [lia|]. parts; [lia|lia| |done|].
  - intros j Hj. apply H2; lia.
  - intros Hr. destruct (H5 Hr) as [Hn|Hn]; [left; lia|by right].
Qed.

Definition ms : Z := 1000000.

(** With a maximum of 150 ms the first sleep is still the initial 200 ms: only
    later delays are capped. *)
Example first_sleep_is_not_capped :
  (Retry {| Operation := ""; MaxAttempts := 3; InitialDelay := 200 * ms; MaxDelay := 150 * ms;
            Multiplier := f64_of_Z 3; JitterFactor := f64_of_Z 0 |} (fun _ _ => true)
     {| fn _ := Some (MsgErr "down"); ctxErr _ := None; interrupted _ := None;
        random _ := f64_ratio 1 2 |}).2 = [200 * ms; 150 * ms].
Proof. vm_compute. reflexivity. Qed.
End RetryProps.

(** ** Timeout budget *)

Module BudgetProps.
Import Budget.

(** A context allocated from a timeout budget ends before the budget and
    before the parent's deadline: with the clock read as [now], [now'] and
    [now''] in the course of the call, its deadline is at most the start plus
    the total, put off by no more than the time between the readings; it is at
    most [max] away; and from an expired budget no live context comes. *)
Theorem budget_is_kept parentDeadline begin total max now now' now'' :
  0 <= total <= int64_max -> begin <= now -> now - begin <= int64_max -> now <= now' <= now'' ->
  let tb := NewTimeoutBudget parentDeadline begin total in
  match Allocate max now now' now'' tb with
  | Some deadline => deadline <= begin + total + (now'' - now) /\ deadline <= now'' + max
      /\ (forall p, parentDeadline = Some p -> deadline <= p) /\ Expired now now' tb = false
  | None => max <= 0 \/ Expired now now' tb = true
  end.
Proof.
  intros Ht Hb Hr Hn tb.
  assert (sub64 total (timeSub now begin) = total - (now - begin)) as Hsub.
  { unfold timeSub. int64. rewrite Z.min_r, Z.max_r by lia. rewrite sub64_id; [done|int64; lia]. }
  assert (Remaining now now' tb <= Z.max 0 (total - (now - begin))) as Hrem.
  { unfold Remaining, tb. cbn [NewTimeoutBudget start Budget.total parent]. rewrite Hsub.
    destruct (Z.ltb_spec (total - (now - begin)) 0); [lia|].
    destruct parentDeadline as [p|]; [|lia]. destruct (Z.ltb_spec (timeSub p now') (total - (now - begin))); lia. }
  unfold Allocate, Expired. cbn [tb NewTimeoutBudget parent].
  destruct (Z.leb_spec (Z.min max (Remaining now now' tb)) 0).
  - destruct (Z.leb_spec (Remaining now now' tb) 0); [by right|left; lia].
  - rewrite (proj2 (Z.leb_gt _ _)) by lia. destruct parentDeadline as [p|]; split_and!; try lia; try done.
    intros ? [= <-]. lia.
Qed.
End BudgetProps.

(** ** Drainer *)

Module DrainProps.
Import Drain.

Ltac go c := eapply rtc_l; [apply c; simpl; done || lia|]; simpl.

(** Once the drain has begun it stays begun, and the wait can only end. *)
Definition waiting (d : Drainer) : Prop :=
  draining d = true /\ accepted d = 0 /\ tracked d = 0 /\ atZero d = 0 /\ sending d = 0
  /\ (phase d = AtSelect \/ exists n, phase d = DrainTimeout n).

Lemma waiting_step d d' : waiting d -> step d d' -> waiting d'.
Proof.
  intros (Hd & Ha & Ht & Hz & Hs & Hp) Hstep. unfold waiting.
  destruct Hstep; simpl in *; try congruence; try lia; try (split_and!; done);
    try (destruct Hp as [Hp|[? Hp]]; congruence).
  split_and!; try done. right. by eexists.
Qed.

(** The drainer can miss the end of the last request.  One request is in
    flight when [Drain] reads the counter; it finishes before [Drain] reaches
    its select, finds nobody to receive its signal, and drops it.  From then
    on there is no request in the system and none is accepted, yet whatever
    happens [Drain] never returns success: it waits for its whole timeout and
    then reports a timeout. *)
Theorem drain_misses_last_request :
  exists d, rtc step NewDrainer d /\ inFlight d = 0 /\ phase d = AtSelect
    /\ forall d', rtc step d d' -> phase d' <> Drained.
Proof.
  eexists. split; [|split; [|split]].
  - go Accept. go Track. go DrainBegin.
    eapply rtc_l; [apply DrainCount; simpl; [done|vm_compute; discriminate]|]. simpl.
    eapply rtc_l; [apply DoneLast; simpl; [lia|vm_compute; reflexivity]|]. simpl.
    go SeesFlag. eapply rtc_l; [apply SendDefault; simpl; [lia|done]|]. simpl. go DrainWait.
    apply rtc_refl.
  - done.
  - done.
  - intros d' Hr. assert (waiting d') as (_ & _ & _ & _ & _ & Hp).
    { refine (invariant_rtc step waiting waiting_step _ _ Hr _). unfold waiting. simpl.
      split_and!; try done. by left. }
    intros E. rewrite E in Hp. destruct Hp as [|[n ?]]; done.
Qed.

(** A request that was accepted but not yet counted when [Drain] looked is
    running after [Drain] has returned success. *)
Lemma request_outlives_drain :
  exists d, rtc step NewDrainer d /\ phase d = Drained /\ tracked d = 1.
Proof.
  eexists. split; [|split].
  - go Accept. go DrainBegin. go DrainEmpty. go Track. apply rtc_refl.
  - done.
  - done.
Qed.
End DrainProps.

(** ** Concrete runs *)

Module ResilienceRuns.

Section BreakerRuns.
Import Breaker BreakerProps.

(** One caller after another: a request that ends in failure or success. *)
Definition failing (now : Z) (cb : CircuitBreaker) : CircuitBreaker :=
  (Execute None now (Returned (Some (MsgErr "down"))) now cb).2.

Definition sec : Z := 1000000000.

Definition tripped (opts : list CBOption) : CircuitBreaker :=
  Nat.iter 5 (failing 0) (NewCircuitBreaker opts).

Definition down2 : Calls :=
  {| breaker := failing 0 (failing 0 (NewCircuitBreaker [WithFailureThreshold 2])); inside := 0;
     history := [false; false]; failedAt := Some 0; probes := 0 |}.

Lemma down2_reached : rtc step (started [WithFailureThreshold 2]) down2.
Proof.
  eapply rtc_l; [by apply (Ask _ 0)|]. simpl. eapply rtc_l; [apply (Fail _ 0); simpl; lia|]. simpl.
  eapply rtc_l; [by apply (Ask _ 0)|]. simpl. eapply rtc_l; [apply (Fail _ 0); simpl; lia|].
  apply rtc_refl.
Qed.

Lemma circuit_breaker_safe_witness :
  state (breaker down2) = StateOpen /\ (allowRequest (3 * sec) (breaker down2)).1 = false.
Proof.
  split; [vm_compute; reflexivity|].
  destruct (circuit_breaker_safe [WithFailureThreshold 2] down2) as (_ & H & _).
  - repeat constructor. int64. lia.
  - apply down2_reached.
  - destruct (H eq_refl) as (_ & t & Ht & Hrej). injection Ht as <-. apply Hrej. vm_compute. reflexivity.
Defined.

Lemma circuit_breaker_recovers_witness :
  let '(rs, cb) := heal 2 (fun i => (10 + Z.of_nat i) * sec) (tripped []) in
  Forall (fun r => r = Ok tt) rs /\ state cb = StateClosed.
Proof.
  apply (circuit_breaker_recovers (tripped []) (fun i => (10 + Z.of_nat i) * sec));
    try (vm_compute; reflexivity); try (vm_compute; discriminate).
  unfold configured. int64. split_and!; vm_compute; done.
Defined.

(** A breaker with one probe, as [WithHalfOpenMax 1] makes it, after its probe
    has succeeded. *)
Definition worn : Calls :=
  {| breaker := (Execute None (10 * sec) (Returned None) (10 * sec) (tripped [WithHalfOpenMax 1])).2;
     inside := 0; history := []; failedAt := Some 0; probes := 1 |}.

Lemma exhausted_breaker_is_stuck_witness :
  state (breaker worn) = StateHalfOpen /\ forall c, rtc step worn c -> c = worn.
Proof.
  split; [vm_compute; reflexivity|]. intros c Hr.
  by destruct (exhausted_breaker_is_stuck worn c eq_refl eq_refl ltac:(vm_compute; discriminate) Hr).
Defined.
End BreakerRuns.

Lemma bulkhead_bounds_witness : 0 <= Bulkhead.running (Bulkhead.fresh 3) <= 3.
Proof. apply (BulkheadProps.bulkhead_bounds 3 (Bulkhead.fresh 3)). apply rtc_refl. Defined.

Lemma shedder_bounds_witness :
  exists r, rtc Shedder.step (Shedder.idle (Shedder.NewLoadShedder [])) r /\ Shedder.admitted r = 1
    /\ Shedder.admitted r <= 5000.
Proof.
  eexists. split; [|split]; cycle 2.
  - eapply Z.le_trans; [apply (ShedderProps.shedder_bounds (Shedder.NewLoadShedder [])); [done|]|vm_compute; discriminate].
    eapply rtc_l; [apply Shedder.Ask; vm_compute; reflexivity|].
    eapply rtc_l; [apply (Shedder.Admit _ [] 1 []); [reflexivity|vm_compute; discriminate]|]. apply rtc_refl.
  - eapply rtc_l; [apply Shedder.Ask; vm_compute; reflexivity|].
    eapply rtc_l; [apply (Shedder.Admit _ [] 1 []); [reflexivity|vm_compute; discriminate]|]. apply rtc_refl.
  - reflexivity.
Defined.

Lemma budget_is_kept_witness :
  Budget.Allocate 100 60 60 60 (Budget.NewTimeoutBudget (Some 250) 0 200) = Some 160
  /\ 160 <= 0 + 200 + (60 - 60) /\ 160 <= 60 + 100.
Proof.
  split; [vm_compute; reflexivity|].
  pose proof (BudgetProps.budget_is_kept (Some 250) 0 200 100 60 60 60) as H. cbv zeta in H.
  replace (Budget.Allocate 100 60 60 60 (Budget.NewTimeoutBudget (Some 250) 0 200)) with (Some 160) in H
    by (vm_compute; reflexivity).
  destruct H as (H1 & H2 & _); [int64; lia|lia|int64; lia|lia|]. split; [exact H1|exact H2].
Defined.
End ResilienceRuns.
