(* ===== verification/Engine.v ===== *)
(** * core: the settlement engine

    Models src/core/engine.go.  The engine is a state machine over the
    transfer store: each handler loads a transfer, decides from its status
    what comes next, and hands the store one new status together with the
    outbox entries that carry the side effects.  A handler is split the way
    it runs against the database: [X_plan] is everything between the read and
    the write (a pure function of the transfer it read), [X] is the handler.

    Interfaces the engine is wired to ([TenantStore], [Router],
    [ProviderRegistry], [DailyVolumeCounter]) are the fields of [Deps] and a
    class; the transfer store is an instance of [TransferStore].  [Env] gives
    a call the instants and UUIDs it draws.  The data of a webhook, JSON text
    built with Sprintf, is kept as the list of its arguments.  Marshalling a payload struct with
    encoding/json cannot fail and is not modelled; log lines, metrics and
    trace spans are left out. *)

From Stdlib Require Import Ascii QArith.
From S2P Require Import Prelude ThirdParty Money Deposits Transfer Outbox LedgerEntries TransferStore.
Local Open Scope string_scope.
Local Open Scope Z_scope.

Section Wiring.
Context {L : ThirdParty}.

Record ProviderRegistry := { pr_GetOnRamp : string -> bool; pr_GetOffRamp : string -> bool }.

Record Deps := {
  dp_GetTenant : UUID -> result Tenant;
  dp_GetQuote : UUID -> QuoteRequest -> result Quote;
  dp_registry : option ProviderRegistry;
}.

(** The optional atomic counter. *)
Class DailyVolumeCounter (C : Type) : Type := {
  vc_GetDailyVolume : UUID -> Z -> C -> result Decimal;
  vc_IncrDailyVolume : UUID -> Z -> Decimal -> C -> result Decimal * C;
  vc_SeedDailyVolume : UUID -> Z -> Decimal -> C -> result bool * C;
}.

Record CreateTransferRequest := {
  cr_ExternalRef : string;
  cr_IdempotencyKey : string;
  cr_SourceCurrency : Currency;
  cr_SourceAmount : Decimal;
  cr_DestCurrency : Currency;
  cr_Sender : Sender;
  cr_Recipient : Recipient;
  cr_QuoteID : option UUID;
}.

Record dailyVolumeEntry := { dv_volume : Decimal; dv_expiresAt : Z }.

(** The clock readings and the UUIDs of one call, in order. *)
Record EEnv := { ee_now : nat -> Z; ee_newv7 : nat -> UUID }.
End Wiring.

(** ** Helpers *)

Section Helpers.
Context {L : ThirdParty}.

(** [advancedPastStates] and [isAdvancedPast]. *)
Definition advancedPastStates (expected : TransferStatus) : list TransferStatus :=
  match expected with
  | OnRamping => [Settling; OffRamping]
  | Settling => [OffRamping]
  | _ => []
  end.

Definition isAdvancedPast (current expected : TransferStatus) : bool :=
  bool_decide (current ∈ advancedPastStates expected).

Definition wrapTransitionError (e : error) (step : string) : error :=
  if is_optimistic_lock e then WrapErr (step +:+ ": concurrent modification") OptimisticLockErr
  else WrapErr step e.

Definition transferEventPayload (transferID tenantID : UUID) : Payload :=
  PTransferEvent transferID tenantID.

Fixpoint buildOutboxEntries (results : list (result OutboxEntry)) : result (list OutboxEntry) :=
  match results with
  | [] => Ok []
  | r :: rest =>
      let? e := r in
      let? es := buildOutboxEntries rest in
      Ok (e :: es)
  end.

Definition setCorrelationID (entries : list OutboxEntry) (id : UUID) : list OutboxEntry :=
  map (fun e => WithCorrelationID e id) entries.

(** domain.TenantAccountCode. *)
Definition TenantAccountCode (slug path : string) : string :=
  "tenant:" +:+ slug +:+ ":" +:+ path.

Definition location_of (t : Transfer) : string := "bank:" +:+ ToLower (tr_SourceCurrency t).

Definition crypto_account (t : Transfer) : string :=
  "assets:crypto:" +:+ ToLower (tr_StableCoin t) +:+ ":" +:+ ToLower (tr_Chain t).

Definition clearing_account (slug : string) (t : Transfer) : string :=
  TenantAccountCode slug ("assets:bank:" +:+ ToLower (tr_SourceCurrency t) +:+ ":clearing").

(** The transition a handler asks for. *)
Record Plan := { pl_status : TransferStatus; pl_entries : list OutboxEntry }.

(** The entries of a step: intents (true) and events (false) of one transfer. *)
Definition newEntry (env : EEnv) (t : Transfer) (i : nat) (item : bool * string * Payload)
  : result OutboxEntry :=
  let '(isIntent, ty, p) := item in
  (if isIntent : bool then NewOutboxIntent else NewOutboxEvent)
    (ee_newv7 env i) (ee_now env i) "transfer" (tr_ID t) (tr_TenantID t) ty p.

Definition stepEntries (env : EEnv) (t : Transfer) (items : list (bool * string * Payload))
  : result (list OutboxEntry) :=
  let? es := buildOutboxEntries (imap (newEntry env t) items) in
  Ok (setCorrelationID es (tr_ID t)).

Definition planStep (step : string) (env : EEnv) (t : Transfer) (s : TransferStatus)
    (items : list (bool * string * Payload)) : result Plan :=
  let? es := wrap (step +:+ ": building outbox entries") (stepEntries env t items) in
  Ok {| pl_status := s; pl_entries := es |}.

Definition line (code ty : string) (amount : Decimal) (currency desc : string)
  : LedgerLineEntry :=
  {| lle_AccountCode := code; lle_EntryType := ty; lle_Amount := amount;
     lle_Currency := currency; lle_Description := desc |}.

Definition releasePayload (t : Transfer) (reason : string) : Payload :=
  PTreasuryRelease {| tlp_TransferID := tr_ID t; tlp_TenantID := tr_TenantID t;
    tlp_Currency := tr_SourceCurrency t; tlp_Amount := tr_SourceAmount t;
    tlp_Location := location_of t; tlp_Reason := reason |}.

Definition ledgerPayload (t : Transfer) (keyPrefix desc refType : string)
    (lines : list LedgerLineEntry) : Payload :=
  PLedgerPost {| lpp_TransferID := tr_ID t; lpp_TenantID := tr_TenantID t;
    lpp_IdempotencyKey := keyPrefix +:+ ":" +:+ uuid_String (tr_ID t);
    lpp_Description := desc; lpp_ReferenceType := refType; lpp_Lines := lines |}.

Definition webhookPayload (t : Transfer) (eventType : string) (data : list string) : Payload :=
  PWebhookDeliver {| wdp_TransferID := tr_ID t; wdp_SessionID := uuid_Nil;
    wdp_TenantID := tr_TenantID t; wdp_EventType := eventType;
    wdp_Data := NText data |}.

Definition eventItem (t : Transfer) (ty : string) : bool * string * Payload :=
  (false, ty, transferEventPayload (tr_ID t) (tr_TenantID t)).
End Helpers.

(** ** Plans

    What each handler computes from the transfer it has loaded. *)

Section Plans.
Context {L : ThirdParty}.

Definition FundTransfer_plan (env : EEnv) (t : Transfer) : result Plan :=
  planStep "fund transfer" env t Funded
    [(true, IntentTreasuryReserve,
      PTreasuryReserve {| trp_TransferID := tr_ID t; trp_TenantID := tr_TenantID t;
        trp_Currency := tr_SourceCurrency t; trp_Amount := tr_SourceAmount t;
        trp_Location := location_of t |});
     eventItem t EventTransferFunded].

(** The loop over the alternatives: the first of each provider and chain. *)
Fixpoint onRampAlternatives (seen : gset string) (alts : list RouteAlternative)
  : list OnRampFallback :=
  match alts with
  | [] => []
  | alt :: rest =>
      let dedupKey := alt_OnRampProvider alt +:+ ":" +:+ alt_OffRampProvider alt
                      +:+ ":" +:+ alt_Chain alt in
      if bool_decide (dedupKey ∈ seen) then onRampAlternatives seen rest
      else
        {| onf_ProviderID := alt_OnRampProvider alt; onf_OffRampProvider := alt_OffRampProvider alt;
           onf_Chain := alt_Chain alt; onf_StableCoin := alt_StableCoin alt;
           onf_Fee := alt_Fee alt; onf_Rate := alt_Rate alt;
           onf_StableAmount := alt_StableAmount alt |}
        :: onRampAlternatives ({[dedupKey]} ∪ seen) rest
  end.

(** [quote] is the transfer's quote where it could be read. *)
Definition InitiateOnRamp_plan (env : EEnv) (quote : option Quote) (t : Transfer)
  : result Plan :=
  let alternatives := match quote with
                      | Some q => onRampAlternatives ∅ (ri_AlternativeRoutes (q_Route q))
                      | None => [] end in
  planStep "on-ramp transfer" env t OnRamping
    [(true, IntentProviderOnRamp,
      PProviderOnRamp {| onp_TransferID := tr_ID t; onp_TenantID := tr_TenantID t;
        onp_ProviderID := tr_OnRampProviderID t; onp_Amount := tr_SourceAmount t;
        onp_FromCurrency := tr_SourceCurrency t; onp_ToCurrency := tr_StableCoin t;
        onp_Reference := uuid_String (tr_ID t); onp_Alternatives := alternatives;
        onp_QuotedRate := tr_FXRate t |})].

Definition onRampLines (slug : string) (t : Transfer) : list LedgerLineEntry :=
  [line (crypto_account t) EntryTypeDebit (tr_StableAmount t) (tr_StableCoin t)
     "Debit crypto asset";
   line "expenses:provider:onramp" EntryTypeDebit (OnRampFee (tr_Fees t)) (tr_SourceCurrency t)
     "Debit on-ramp fee";
   line (clearing_account slug t) EntryTypeCredit (tr_SourceAmount t) (tr_SourceCurrency t)
     "Credit clearing account"].

Definition onRampSuccess_plan (env : EEnv) (dp : Deps) (t : Transfer) : result Plan :=
  let? tenant := wrap "handle on-ramp result: loading tenant" (dp_GetTenant dp (tr_TenantID t)) in
  let netAmount := dSub (tr_SourceAmount t) (OnRampFee (tr_Fees t)) in
  require IsPositive netAmount else MsgErr "net amount after fee must be positive";
  planStep "handle on-ramp result" env t Settling
    [(true, IntentLedgerPost,
      ledgerPayload t "onramp" ("On-ramp transfer " +:+ uuid_String (tr_ID t)) "transfer"
         (onRampLines (tn_Slug tenant) t));
     (true, IntentBlockchainSend,
      PBlockchainSend {| bsp_TransferID := tr_ID t; bsp_TenantID := tr_TenantID t;
        bsp_Chain := tr_Chain t; bsp_From := ""; bsp_To := ""; bsp_Token := tr_StableCoin t;
        bsp_Amount := tr_StableAmount t;
        bsp_Memo := "settlement:" +:+ uuid_String (tr_ID t) |});
     eventItem t EventOnRampCompleted].

Definition onRampFailure_plan (env : EEnv) (t : Transfer) : result Plan :=
  planStep "handle on-ramp result" env t Refunding
    [(true, IntentTreasuryRelease, releasePayload t "onramp_failure");
     eventItem t EventProviderOnRampFailed].

(** [None]: the transfer has already advanced, nothing to do. *)
Definition HandleOnRampResult_plan (env : EEnv) (dp : Deps) (r : IntentResult) (t : Transfer)
  : result (option Plan) :=
  if negb (bool_decide (tr_Status t = OnRamping)) then
    if negb (isAdvancedPast (tr_Status t) OnRamping) then Err (DomainErr CodeInvalidTransition)
    else Ok None
  else if ir_Success r
  then let? p := onRampSuccess_plan env dp t in Ok (Some p)
  else let? p := onRampFailure_plan env t in Ok (Some p).

(** Only alternatives on the same chain and stablecoin qualify. *)
Definition offRampAlternatives (t : Transfer) (alts : list RouteAlternative)
  : list OffRampFallback :=
  map (fun alt => {| off_ProviderID := alt_OffRampProvider alt; off_Fee := alt_Fee alt;
                     off_Rate := alt_Rate alt |})
    (List.filter (fun alt => String.eqb (alt_Chain alt) (tr_Chain t)
                        && String.eqb (alt_StableCoin alt) (tr_StableCoin t)) alts).

Definition settlementSuccess_plan (env : EEnv) (quote : option Quote) (r : IntentResult)
    (t : Transfer) : result Plan :=
  let alts := match quote with
              | Some q => offRampAlternatives t (ri_AlternativeRoutes (q_Route q))
              | None => [] end in
  planStep "handle settlement result" env t OffRamping
    [(true, IntentProviderOffRamp,
      PProviderOffRamp {| ofp_TransferID := tr_ID t; ofp_TenantID := tr_TenantID t;
        ofp_ProviderID := tr_OffRampProviderID t; ofp_Amount := tr_StableAmount t;
        ofp_FromCurrency := tr_StableCoin t; ofp_ToCurrency := tr_DestCurrency t;
        ofp_Recipient := tr_Recipient t; ofp_Reference := uuid_String (tr_ID t);
        ofp_Alternatives := alts; ofp_QuotedRate := tr_FXRate t;
        ofp_SourceTxHash := ir_TxHash r |});
     eventItem t EventSettlementCompleted].

(** The on-ramp posting with debits and credits swapped. *)
Definition swappedLines (slug d1 d2 d3 : string) (t : Transfer) : list LedgerLineEntry :=
  [line (crypto_account t) EntryTypeCredit (tr_StableAmount t) (tr_StableCoin t) d1;
   line "expenses:provider:onramp" EntryTypeCredit (OnRampFee (tr_Fees t))
     (tr_SourceCurrency t) d2;
   line (clearing_account slug t) EntryTypeDebit (tr_SourceAmount t) (tr_SourceCurrency t) d3].

Definition reversalLines (slug : string) (t : Transfer) : list LedgerLineEntry :=
  swappedLines slug "Reverse: credit crypto asset" "Reverse: credit on-ramp fee"
    "Reverse: debit clearing account" t.

Definition settlementFailure_plan (env : EEnv) (dp : Deps) (r : IntentResult) (t : Transfer) : result Plan :=
  let? tenant := wrap "handle settlement result: loading tenant for reversal" (dp_GetTenant dp (tr_TenantID t)) in
  planStep "handle settlement result" env t Failed
    [(true, IntentTreasuryRelease, releasePayload t "settlement_failure");
     (true, IntentLedgerReverse,
      ledgerPayload t "reverse-settle"
        ("Reverse settlement for transfer " +:+ uuid_String (tr_ID t) +:+ ": " +:+ ir_Error r)
        "reversal" (reversalLines (tn_Slug tenant) t));
     eventItem t EventBlockchainFailed].

Definition HandleSettlementResult_plan (env : EEnv) (dp : Deps) (quote : option Quote)
    (r : IntentResult) (t : Transfer) : result (option Plan) :=
  if negb (bool_decide (tr_Status t = Settling)) then
    if negb (isAdvancedPast (tr_Status t) Settling) then Err (DomainErr CodeInvalidTransition)
    else Ok None
  else if ir_Success r
  then let? p := settlementSuccess_plan env quote r t in Ok (Some p)
  else let? p := settlementFailure_plan env dp r t in Ok (Some p).

Definition offRampFailure_plan (env : EEnv) (dp : Deps) (r : IntentResult) (t : Transfer) : result Plan :=
  let? tenant := wrap "handle off-ramp result: loading tenant for reversal" (dp_GetTenant dp (tr_TenantID t)) in
  planStep "handle off-ramp result" env t Failed
    [(true, IntentTreasuryRelease, releasePayload t "offramp_failure");
     (true, IntentLedgerReverse,
      ledgerPayload t "reverse-offramp"
        ("Reverse off-ramp for transfer " +:+ uuid_String (tr_ID t) +:+ ": " +:+ ir_Error r)
        "reversal" (reversalLines (tn_Slug tenant) t));
     (true, IntentWebhookDeliver, webhookPayload t EventTransferFailed []);
     eventItem t EventProviderOffRampFailed].

Definition completionLines (slug : string) (t : Transfer) : list LedgerLineEntry :=
  [line (TenantAccountCode slug "liabilities:customer:pending") EntryTypeDebit
     (tr_SourceAmount t) (tr_SourceCurrency t) "Debit customer pending";
   line (TenantAccountCode slug "liabilities:payable:recipient") EntryTypeCredit
     (dSub (tr_SourceAmount t) (TotalFeeUSD (tr_Fees t))) (tr_SourceCurrency t)
     "Credit recipient payable (net of fees)";
   line (TenantAccountCode slug "revenue:fees:settlement") EntryTypeCredit
     (TotalFeeUSD (tr_Fees t)) (tr_SourceCurrency t) "Credit settlement fee revenue"].

Definition CompleteTransfer_plan (env : EEnv) (dp : Deps) (t : Transfer) : result Plan :=
  let? tenant := wrap "complete transfer: loading tenant" (dp_GetTenant dp (tr_TenantID t)) in
  let netAmount := dSub (tr_SourceAmount t) (TotalFeeUSD (tr_Fees t)) in
  require IsPositive netAmount else MsgErr "complete transfer: net amount after fees must be positive";
  let? _ := wrap "complete transfer: ledger entries imbalanced"
              (validateLedgerLines (fun i => ee_newv7 env (100 + i))
                 (completionLines (tn_Slug tenant) t)) in
  planStep "complete transfer" env t Completed
    [(true, IntentTreasuryConsume,
      PTreasuryConsume {| tcp_TransferID := tr_ID t; tcp_TenantID := tr_TenantID t;
        tcp_Currency := tr_SourceCurrency t; tcp_Amount := tr_SourceAmount t;
        tcp_Location := location_of t |});
     (true, IntentLedgerPost,
      ledgerPayload t "complete" ("Complete transfer " +:+ uuid_String (tr_ID t)) "transfer"
        (completionLines (tn_Slug tenant) t));
     (true, IntentWebhookDeliver, webhookPayload t EventTransferCompleted []);
     eventItem t EventTransferCompleted].

Definition FailTransfer_plan (env : EEnv) (reason code : string) (t : Transfer) : result Plan :=
  if negb (CanTransitionTo t Failed)
  then Err (WrapErr "fail transfer" (DomainErr CodeInvalidTransition))
  else planStep "fail transfer" env t Failed
    [(true, IntentTreasuryRelease, releasePayload t "transfer_failed");
     (true, IntentWebhookDeliver, webhookPayload t EventTransferFailed [reason; code]);
     eventItem t EventTransferFailed].

(** Lines only when the transfer failed with a stable amount on record. *)
Definition refundLines (dp : Deps) (t : Transfer) : result (list LedgerLineEntry) :=
  if bool_decide (tr_Status t = Failed) && IsPositive (tr_StableAmount t)
  then let? tenant := wrap "refund transfer: loading tenant for reversal" (dp_GetTenant dp (tr_TenantID t)) in
       Ok (swappedLines (tn_Slug tenant) "Refund: reverse crypto asset"
             "Refund: reverse on-ramp fee" "Refund: debit clearing account" t)
  else Ok [].

Definition InitiateRefund_plan (env : EEnv) (dp : Deps) (t : Transfer) : result Plan :=
  if negb (bool_decide (tr_Status t = Funded)) && negb (bool_decide (tr_Status t = Failed))
  then Err (WrapErr "refund transfer" (DomainErr CodeInvalidTransition))
  else if negb (CanTransitionTo t Refunding)
  then Err (WrapErr "refund transfer" (DomainErr CodeInvalidTransition))
  else
    let? lines := refundLines dp t in
    planStep "refund transfer" env t Refunding
      [(true, IntentLedgerReverse,
        ledgerPayload t "refund" ("Refund for transfer " +:+ uuid_String (tr_ID t)) "reversal" lines);
       (true, IntentTreasuryRelease, releasePayload t "refund");
       eventItem t EventRefundInitiated].

Definition HandleRefundResult_plan (env : EEnv) (r : IntentResult) (t : Transfer)
  : result (option Plan) :=
  if ir_Success r
  then let? p := planStep "handle refund result" env t Refunded
         [(true, IntentWebhookDeliver,
           webhookPayload t EventRefundCompleted ["refund_completed"; uuid_String (tr_ID t)]);
          eventItem t EventRefundCompleted] in Ok (Some p)
  else Ok None.
End Plans.

(** ** Handlers *)

Section Handlers.
Context {L : ThirdParty} {St : Type} `{TS : !TransferStore St}.

Definition loadTransfer (tenantID transferID : UUID) (st : St) : result Transfer :=
  wrap "loading transfer" (ts_GetTransfer tenantID transferID st).

Definition loadTransferForStep (tenantID transferID : UUID) (expected : TransferStatus) (st : St)
  : result Transfer :=
  let? t := loadTransfer tenantID transferID st in
  if bool_decide (tr_Status t = expected) then Ok t else Err (DomainErr CodeInvalidTransition).

(** The write at the end of every handler. *)
Definition commit (step : string) (t : Transfer) (p : Plan) (st : St) : result unit * St :=
  match ts_TransitionWithOutbox (tr_ID t) (pl_status p) (tr_Version t) (pl_entries p) st with
  | (Ok _, st') => (Ok tt, st')
  | (Err e, st') => (Err (wrapTransitionError e step), st')
  end.

(** Run a plan on what was loaded; [None] is a handler with nothing to do. *)
Definition finish (step : string) (t : Transfer) (p : result (option Plan)) (st : St)
  : result unit * St :=
  match p with
  | Err e => (Err e, st)
  | Ok None => (Ok tt, st)
  | Ok (Some p) => commit step t p st
  end.

Definition always (p : result Plan) : result (option Plan) := let? p := p in Ok (Some p).

(** The quote of a transfer, where one is recorded and can be read. *)
Definition loadQuote (t : Transfer) (st : St) : option Quote :=
  match tr_QuoteID t with
  | Some qid => match ts_GetQuote (tr_TenantID t) qid st with
                | Ok q => Some q | Err _ => None end
  | None => None
  end.

Definition FundTransfer (env : EEnv) (tenantID transferID : UUID) (st : St) : result unit * St :=
  match wrap "fund transfer" (loadTransferForStep tenantID transferID Created st) with
  | Err e => (Err e, st)
  | Ok t => finish "fund transfer" t (always (FundTransfer_plan env t)) st
  end.

Definition InitiateOnRamp (env : EEnv) (tenantID transferID : UUID) (st : St)
  : result unit * St :=
  match wrap "on-ramp transfer" (loadTransferForStep tenantID transferID Funded st) with
  | Err e => (Err e, st)
  | Ok t => finish "on-ramp transfer" t (always (InitiateOnRamp_plan env (loadQuote t st) t)) st
  end.

Definition HandleOnRampResult (env : EEnv) (dp : Deps) (tenantID transferID : UUID)
    (r : IntentResult) (st : St) : result unit * St :=
  match wrap "handle on-ramp result" (loadTransfer tenantID transferID st) with
  | Err e => (Err e, st)
  | Ok t => finish "handle on-ramp result" t (HandleOnRampResult_plan env dp r t) st
  end.

Definition HandleSettlementResult (env : EEnv) (dp : Deps) (tenantID transferID : UUID)
    (r : IntentResult) (st : St) : result unit * St :=
  match wrap "handle settlement result" (loadTransfer tenantID transferID st) with
  | Err e => (Err e, st)
  | Ok t => finish "handle settlement result" t
              (HandleSettlementResult_plan env dp (loadQuote t st) r t) st
  end.

Definition CompleteTransfer (env : EEnv) (dp : Deps) (tenantID transferID : UUID) (st : St)
  : result unit * St :=
  match wrap "complete transfer" (loadTransferForStep tenantID transferID OffRamping st) with
  | Err e => (Err e, st)
  | Ok t => finish "complete transfer" t (always (CompleteTransfer_plan env dp t)) st
  end.

Definition HandleOffRampResult (env : EEnv) (dp : Deps) (tenantID transferID : UUID)
    (r : IntentResult) (st : St) : result unit * St :=
  match wrap "handle off-ramp result" (loadTransfer tenantID transferID st) with
  | Err e => (Err e, st)
  | Ok precheck =>
      if negb (bool_decide (tr_Status precheck = OffRamping)) then
        if negb (isAdvancedPast (tr_Status precheck) OffRamping)
        then (Err (DomainErr CodeInvalidTransition), st)
        else (Ok tt, st)
      else if ir_Success r then CompleteTransfer env dp tenantID transferID st
      else match wrap "handle off-ramp result"
                   (loadTransferForStep tenantID transferID OffRamping st) with
           | Err e => (Err e, st)
           | Ok t => finish "handle off-ramp result" t (always (offRampFailure_plan env dp r t)) st
           end
  end.

Definition FailTransfer (env : EEnv) (tenantID transferID : UUID) (reason code : string) (st : St)
  : result unit * St :=
  match wrap "fail transfer" (loadTransfer tenantID transferID st) with
  | Err e => (Err e, st)
  | Ok t => finish "fail transfer" t (always (FailTransfer_plan env reason code t)) st
  end.

Definition InitiateRefund (env : EEnv) (dp : Deps) (tenantID transferID : UUID) (st : St)
  : result unit * St :=
  match wrap "refund transfer" (loadTransfer tenantID transferID st) with
  | Err e => (Err e, st)
  | Ok t => finish "refund transfer" t (always (InitiateRefund_plan env dp t)) st
  end.

Definition HandleRefundResult (env : EEnv) (tenantID transferID : UUID) (r : IntentResult)
    (st : St) : result unit * St :=
  match wrap "handle refund result" (loadTransferForStep tenantID transferID Refunding st) with
  | Err e => (Err e, st)
  | Ok t => finish "handle refund result" t (HandleRefundResult_plan env r t) st
  end.

Definition success (txHash : string) : IntentResult :=
  {| ir_Success := true; ir_ProviderRef := ""; ir_TxHash := txHash; ir_Error := "";
     ir_ErrorCode := ""; ir_Metadata := ∅ |}.

(** One environment per step, since each draws its own ids and times. *)
Definition ProcessTransfer (env : nat -> EEnv) (dp : Deps) (tenantID transferID : UUID) (st : St)
  : result unit * St :=
  let! _ / st := FundTransfer (env 0%nat) tenantID transferID st in
  let! _ / st := InitiateOnRamp (env 1%nat) tenantID transferID st in
  let! _ / st := HandleOnRampResult (env 2%nat) dp tenantID transferID (success "") st in
  let! _ / st := HandleSettlementResult (env 3%nat) dp tenantID transferID (success "0xdemo") st in
  HandleOffRampResult (env 4%nat) dp tenantID transferID (success "") st.
End Handlers.

(** ** Creating transfers *)

(** The parts of the engine that outlive a call: the store, the optional
    atomic counter and the fallback cache, keyed by tenant and day. *)
Record Engine {L : ThirdParty} (St C : Type) := {
  en_store : St;
  en_counter : option C;
  en_volumeCache : gmap (UUID * Z) dailyVolumeEntry;
  en_requireCounter : bool;
}.
Arguments en_store {L St C}.
Arguments en_counter {L St C}.
Arguments en_volumeCache {L St C}.
Arguments en_requireCounter {L St C}.

Section Creation.
Context {L : ThirdParty} {St C : Type} `{TS : !TransferStore St} `{VC : !DailyVolumeCounter C}.
Implicit Types e : Engine St C.

Definition set_store e (st : St) : Engine St C :=
  {| en_store := st; en_counter := en_counter e; en_volumeCache := en_volumeCache e;
     en_requireCounter := en_requireCounter e |}.
Definition set_counter e (c : C) : Engine St C :=
  {| en_store := en_store e; en_counter := Some c; en_volumeCache := en_volumeCache e;
     en_requireCounter := en_requireCounter e |}.
Definition set_cache e (m : gmap (UUID * Z) dailyVolumeEntry) : Engine St C :=
  {| en_store := en_store e; en_counter := en_counter e; en_volumeCache := m;
     en_requireCounter := en_requireCounter e |}.

Definition day : Z := 24 * 3600 * 1000000000.
Definition today (now : Z) : Z := now - now mod day.
Definition dailyVolumeCacheTTL : Z := 5 * 1000000000.

(** [now] is read when the cache entry is tested, [now'] when it is stored. *)
Definition getDailyVolume (now now' : Z) (tenantID : UUID) (date : Z) e
  : result Decimal * Engine St C :=
  match en_counter e with
  | Some c =>
      let fromDB :=
        match ts_GetDailyVolume tenantID date (en_store e) with
        | Err err => (Err err, e)
        | Ok dbVol =>
            let '(_, c') := vc_SeedDailyVolume tenantID date dbVol c in
            (Ok dbVol, set_counter e c')
        end in
      match vc_GetDailyVolume tenantID date c with
      | Ok vol => if negb (IsZero vol) then (Ok vol, e) else fromDB
      | Err _ => fromDB
      end
  | None =>
      if en_requireCounter e
      then (Err (MsgErr "daily volume counter required but not configured"), e)
      else
        let refresh e :=
          match ts_GetDailyVolume tenantID date (en_store e) with
          | Err err => (Err err, e)
          | Ok vol =>
              (Ok vol, set_cache e (<[(tenantID, date) :=
                 {| dv_volume := vol; dv_expiresAt := now' + dailyVolumeCacheTTL |}]>
                 (en_volumeCache e)))
          end in
        match en_volumeCache e !! (tenantID, date) with
        | Some entry =>
            if now <? dv_expiresAt entry then (Ok (dv_volume entry), e)
            else refresh (set_cache e (delete (tenantID, date) (en_volumeCache e)))
        | None => refresh e
        end
  end.

Definition incrDailyVolume (tenantID : UUID) (date : Z) (amount : Decimal) e : Engine St C :=
  match en_counter e with
  | Some c => set_counter e (vc_IncrDailyVolume tenantID date amount c).2
  | None =>
      match en_volumeCache e !! (tenantID, date) with
      | Some entry =>
          set_cache e (<[(tenantID, date) :=
            {| dv_volume := dAdd (dv_volume entry) amount;
               dv_expiresAt := dv_expiresAt entry |}]> (en_volumeCache e))
      | None => e
      end
  end.

(** Steps a and b: the tenant is active and the request well formed. *)
Definition activeTenant (dp : Deps) (tenantID : UUID) : result Tenant :=
  let? tenant := wrap "create transfer: loading tenant" (dp_GetTenant dp tenantID) in
  require Tenant_IsActive tenant else DomainErr CodeTenantSuspended;
  Ok tenant.

Definition validateRecipient (r : Recipient) : result unit :=
  require negb (String.eqb (rcp_Name r) "" || String.eqb (rcp_Country r) "")
    else MsgErr "create transfer: recipient name and country are required";
  require String.eqb (rcp_AccountNumber r) ""
          || ((4 <=? String.length (rcp_AccountNumber r))%nat
              && (String.length (rcp_AccountNumber r) <=? 34)%nat)
    else MsgErr "create transfer: recipient account_number must be 4-34 characters";
  require string_forallb account_char (rcp_AccountNumber r)
    else MsgErr "create transfer: recipient account_number contains invalid character";
  require String.eqb (rcp_AccountNumber r) "" || negb (String.eqb (rcp_BankName r) "")
    else MsgErr "create transfer: recipient bank_name is required";
  Ok tt.

Definition validateRequest (req : CreateTransferRequest) : result unit :=
  require IsPositive (cr_SourceAmount req) else DomainErr CodeAmountTooLow;
  let? _ := wrap "create transfer" (ValidateCurrency (cr_SourceCurrency req)) in
  let? _ := wrap "create transfer" (ValidateCurrency (cr_DestCurrency req)) in
  let? _ := wrap "create transfer" (Sender_Validate (cr_Sender req)) in
  validateRecipient (cr_Recipient req).

(** Step c. *)
Definition findExisting (tenantID : UUID) (req : CreateTransferRequest) (st : St)
  : option Transfer :=
  if String.eqb (cr_IdempotencyKey req) "" then None
  else match ts_GetTransferByIdempotencyKey tenantID (cr_IdempotencyKey req) st with
       | Ok t => Some t
       | Err _ => None
       end.

(** Step c2. *)
Definition checkPending (tenant : Tenant) (tenantID : UUID) (st : St) : result unit :=
  if 0 <? tn_MaxPendingTransfers tenant then
    let? count := wrap "create transfer: counting pending transfers"
                    (ts_CountPendingTransfers tenantID st) in
    require count <? tn_MaxPendingTransfers tenant
      else MsgErr "create transfer: tenant exceeded max pending transfers";
    Ok tt
  else Ok tt.

(** Step d: the quote named by the request, or a fresh one, persisted. *)
Definition resolveQuote (dp : Deps) (now : Z) (tenantID : UUID) (req : CreateTransferRequest)
    (st : St) : result Quote * St :=
  match cr_QuoteID req with
  | Some qid =>
      (let? quote := wrap "create transfer: fetching quote" (ts_GetQuote tenantID qid st) in
       require bool_decide (q_TenantID quote = tenantID)
         else MsgErr "create transfer: quote belongs to different tenant";
       require negb (IsExpired quote now) else DomainErr CodeQuoteExpired;
       Ok quote, st)
  | None =>
      match wrap "create transfer: getting quote"
              (dp_GetQuote dp tenantID
                 {| qr_SourceCurrency := cr_SourceCurrency req;
                    qr_SourceAmount := cr_SourceAmount req;
                    qr_DestCurrency := cr_DestCurrency req;
                    qr_DestCountry := rcp_Country (cr_Recipient req) |}) with
      | Err e => (Err e, st)
      | Ok quote =>
          match ts_CreateQuote quote st with
          | (Err e, st) => (Err (WrapErr "create transfer: persisting inline quote" e), st)
          | (Ok quote, st) => (Ok quote, st)
          end
      end
  end.

(** Steps d2 to d6. *)
Definition validateQuote (dp : Deps) (req : CreateTransferRequest) (quote : Quote)
  : result unit :=
  require String.eqb (q_SourceCurrency quote) (cr_SourceCurrency req)
    else MsgErr "create transfer: quote source currency does not match";
  require String.eqb (q_DestCurrency quote) (cr_DestCurrency req)
    else MsgErr "create transfer: quote dest currency does not match";
  let? _ := wrap "create transfer: quote validation failed" (Quote_Validate quote) in
  require match dp_registry dp with
          | Some reg => pr_GetOnRamp reg (ri_OnRampProvider (q_Route quote))
                        && pr_GetOffRamp reg (ri_OffRampProvider (q_Route quote))
          | None => true
          end else DomainErr CodeProviderUnavailable;
  wrap "create transfer" (ValidateChain (ri_Chain (q_Route quote))).

(** Steps e and f. *)
Definition checkPerTransfer (tenant : Tenant) (quote : Quote) : result unit :=
  require negb (negb (IsZero (tn_PerTransferLimit tenant))
                && GreaterThan (q_StableAmount quote) (tn_PerTransferLimit tenant))
    else DomainErr CodeAmountTooHigh;
  Ok tt.

Definition checkDaily (env : EEnv) (tenant : Tenant) (tenantID : UUID) (quote : Quote) e
  : result unit * Engine St C :=
  if IsZero (tn_DailyLimitUSD tenant) then (Ok tt, e)
  else
    match getDailyVolume (ee_now env 2) (ee_now env 3) tenantID (today (ee_now env 1)) e with
    | (Err err, e) => (Err (WrapErr "create transfer: checking daily volume" err), e)
    | (Ok dailyVolume, e) =>
        (require negb (GreaterThan (dAdd dailyVolume (q_StableAmount quote))
                         (tn_DailyLimitUSD tenant))
           else DomainErr CodeDailyLimitExceeded;
         Ok tt, e)
    end.

(** Step g: the record, with the quote's figures. *)
Definition newTransfer (env : EEnv) (tenant : Tenant) (tenantID : UUID)
    (req : CreateTransferRequest) (quote : Quote) (quoteID : UUID) : Transfer :=
  let now := ee_now env 4 in
  {| tr_ID := ee_newv7 env 0; tr_TenantID := tenantID; tr_ExternalRef := cr_ExternalRef req;
     tr_IdempotencyKey := cr_IdempotencyKey req; tr_Status := Created; tr_Version := 1;
     tr_SourceCurrency := cr_SourceCurrency req; tr_SourceAmount := cr_SourceAmount req;
     tr_DestCurrency := cr_DestCurrency req; tr_DestAmount := q_DestAmount quote;
     tr_StableCoin := ri_StableCoin (q_Route quote); tr_StableAmount := q_StableAmount quote;
     tr_Chain := ri_Chain (q_Route quote); tr_FXRate := q_FXRate quote; tr_Fees := q_Fees quote;
     tr_FeeScheduleSnapshot := Some (tn_FeeSchedule tenant);
     tr_OnRampProviderID := ri_OnRampProvider (q_Route quote);
     tr_OffRampProviderID := ri_OffRampProvider (q_Route quote);
     tr_Sender := cr_Sender req; tr_Recipient := cr_Recipient req; tr_QuoteID := Some quoteID;
     tr_BlockchainTxs := []; tr_CreatedAt := now; tr_UpdatedAt := now; tr_FundedAt := None;
     tr_CompletedAt := None; tr_FailedAt := None; tr_FailureReason := "";
     tr_FailureCode := "" |}.

(** Steps g2 to g4. *)
Definition validateFees (t : Transfer) : result unit :=
  let? _ := wrap "create transfer" (FeeBreakdown_Validate (tr_Fees t)) in
  require negb (GreaterThanOrEqual (TotalFeeUSD (tr_Fees t)) (tr_SourceAmount t))
    else MsgErr "create transfer: total fees must be less than source amount";
  require negb (IsZero (TotalFeeUSD (tr_Fees t)))
    else MsgErr "create transfer: zero fees not permitted";
  Ok tt.

(** Steps h and i. *)
Definition persistNew (env : EEnv) (t : Transfer) (st : St) : result Transfer * St :=
  match buildOutboxEntries
          [NewOutboxEvent (ee_newv7 env 1) (ee_now env 5) "transfer" (tr_ID t) (tr_TenantID t)
             EventTransferCreated (PTransfer t)] with
  | Err e => (Err (WrapErr "create transfer: building outbox entries" e), st)
  | Ok entries =>
      match ts_CreateTransferWithOutbox t (setCorrelationID entries (tr_ID t)) st with
      | (Err e, st) => (Err (WrapErr "create transfer: persisting" e), st)
      | (Ok t, st) => (Ok t, st)
      end
  end.

(** What follows the resolution of the quote. *)
Definition createFromQuote (env : EEnv) (dp : Deps) (tenant : Tenant) (tenantID : UUID)
    (req : CreateTransferRequest) (quote : Quote) e : result Transfer * Engine St C :=
  let quoteID := default (q_ID quote) (cr_QuoteID req) in
  match (let? _ := validateQuote dp req quote in checkPerTransfer tenant quote) with
  | Err err => (Err err, e)
  | Ok _ =>
  let! _ / en := checkDaily env tenant tenantID quote e in
  let t := newTransfer env tenant tenantID req quote quoteID in
  match validateFees t with
  | Err err => (Err err, en)
  | Ok _ =>
  match persistNew env t (en_store en) with
  | (Err err, st) => (Err err, set_store en st)
  | (Ok t, st) =>
      let en := set_store en st in
      (Ok t, if IsZero (tn_DailyLimitUSD tenant) then en
             else incrDailyVolume tenantID (today (ee_now env 6)) (q_StableAmount quote) en)
  end
  end
  end.

Definition CreateTransfer (env : EEnv) (dp : Deps) (tenantID : UUID)
    (req : CreateTransferRequest) e : result Transfer * Engine St C :=
  match activeTenant dp tenantID with
  | Err err => (Err err, e)
  | Ok tenant =>
  match validateRequest req with
  | Err err => (Err err, e)
  | Ok _ =>
  match findExisting tenantID req (en_store e) with
  | Some existing => (Ok existing, e)
  | None =>
  match checkPending tenant tenantID (en_store e) with
  | Err err => (Err err, e)
  | Ok _ =>
  match resolveQuote dp (ee_now env 0) tenantID req (en_store e) with
  | (Err err, st) => (Err err, set_store e st)
  | (Ok quote, st) => createFromQuote env dp tenant tenantID req quote (set_store e st)
  end
  end
  end
  end
  end.

(** The entry points for quotes and reads. *)
Definition GetQuote (dp : Deps) (tenantID : UUID) (req : QuoteRequest) e
  : result Quote * Engine St C :=
  match wrap "get quote: loading tenant" (dp_GetTenant dp tenantID) with
  | Err err => (Err err, e)
  | Ok tenant =>
  if negb (Tenant_IsActive tenant) then (Err (DomainErr CodeTenantSuspended), e)
  else match wrap "get quote" (dp_GetQuote dp tenantID req) with
  | Err err => (Err err, e)
  | Ok quote =>
  match ts_CreateQuote quote (en_store e) with
  | (Err err, st) => (Err (WrapErr "get quote: persisting" err), set_store e st)
  | (Ok quote, st) => (Ok quote, set_store e st)
  end
  end
  end.

Definition GetQuoteByID (now : Z) (tenantID quoteID : UUID) e : result Quote :=
  let? quote := wrap "get quote" (ts_GetQuote tenantID quoteID (en_store e)) in
  require negb (IsExpired quote now) else DomainErr CodeQuoteExpired;
  Ok quote.

Definition GetTransfer (tenantID transferID : UUID) e : result Transfer :=
  wrap "get transfer" (ts_GetTransfer tenantID transferID (en_store e)).

Definition GetTransferByExternalRef (tenantID : UUID) (externalRef : string) e
  : result Transfer :=
  wrap "get transfer by external ref"
    (ts_GetTransferByExternalRef tenantID externalRef (en_store e)).
End Creation.
