(* ===== verification/EngineFacts.v ===== *)
(** * core: lemmas on the engine's handlers

    Every handler is a read, a plan and a write.  [plan_of] collects the
    plans by operation, [handle_inv] reduces each handler to them, and
    [plan_of_ok] says what a plan may ask for: one edge of the state machine,
    a non-empty list of entries of the transfer it was made for, and the
    treasury intents of the status it reaches. *)

From Stdlib Require Import Ascii QArith.
From S2P Require Import Prelude ThirdParty Money Deposits Transfer Outbox LedgerEntries TransferStore Engine.
Local Open Scope string_scope.
Local Open Scope Z_scope.

(** ** Operations on one transfer *)

Section Operations.
Context {L : ThirdParty}.

Inductive Op :=
| OFund | OOnRamp | OOnRampResult (r : IntentResult) | OSettlementResult (r : IntentResult)
| OOffRampResult (r : IntentResult) | OComplete | OFail (reason code : string)
| ORefund | ORefundResult (r : IntentResult).

(** What the operation does with the transfer it has read. *)
Definition plan_of (env : EEnv) (dp : Deps) (quote : option Quote) (op : Op) (t : Transfer)
  : result (option Plan) :=
  let at_status s p :=
    if bool_decide (tr_Status t = s) then p else Err (DomainErr CodeInvalidTransition) in
  match op with
  | OFund => at_status Created (always (FundTransfer_plan env t))
  | OOnRamp => at_status Funded (always (InitiateOnRamp_plan env quote t))
  | OOnRampResult r => HandleOnRampResult_plan env dp r t
  | OSettlementResult r => HandleSettlementResult_plan env dp quote r t
  | OOffRampResult r =>
      at_status OffRamping
        (if ir_Success r then always (CompleteTransfer_plan env dp t)
         else always (offRampFailure_plan env dp r t))
  | OComplete => at_status OffRamping (always (CompleteTransfer_plan env dp t))
  | OFail reason code => always (FailTransfer_plan env reason code t)
  | ORefund => always (InitiateRefund_plan env dp t)
  | ORefundResult r => at_status Refunding (HandleRefundResult_plan env r t)
  end.

Context {St : Type} `{TS : !TransferStore St}.

Definition handle (env : EEnv) (dp : Deps) (op : Op) (tenantID transferID : UUID) (st : St)
  : result unit * St :=
  match op with
  | OFund => FundTransfer env tenantID transferID st
  | OOnRamp => InitiateOnRamp env tenantID transferID st
  | OOnRampResult r => HandleOnRampResult env dp tenantID transferID r st
  | OSettlementResult r => HandleSettlementResult env dp tenantID transferID r st
  | OOffRampResult r => HandleOffRampResult env dp tenantID transferID r st
  | OComplete => CompleteTransfer env dp tenantID transferID st
  | OFail reason code => FailTransfer env tenantID transferID reason code st
  | ORefund => InitiateRefund env dp tenantID transferID st
  | ORefundResult r => HandleRefundResult env tenantID transferID r st
  end.
End Operations.

(** ** Entries *)

Section Entries.
Context {L : ThirdParty}.

(** The entry a step writes for its [i]-th item. *)
Definition mkEntry (env : EEnv) (t : Transfer) (i : nat) (item : bool * string * Payload)
  : OutboxEntry :=
  let '(isIntent, ty, p) := item in
  {| oe_ID := ee_newv7 env i; oe_AggregateType := "transfer"; oe_AggregateID := tr_ID t;
     oe_TenantID := tr_TenantID t; oe_CorrelationID := tr_ID t; oe_EventType := ty;
     oe_Payload := p; oe_IsIntent := isIntent; oe_Published := false; oe_PublishedAt := None;
     oe_RetryCount := 0; oe_MaxRetries := 5; oe_CreatedAt := ee_now env i |}.

Definition knownItem (item : bool * string * Payload) : bool :=
  existsb (String.eqb item.1.2) knownEventTypes.

Lemma buildOutboxEntries_ok (l : list OutboxEntry) : buildOutboxEntries (map Ok l) = Ok l.
Proof. induction l as [|e l IH]; simpl; [done|]. by rewrite IH. Qed.

Lemma newEntry_known env t i item : knownItem item = true ->
  exists e, newEntry env t i item = Ok e /\ WithCorrelationID e (tr_ID t) = mkEntry env t i item.
Proof.
  destruct item as [[b ty] p]. unfold knownItem. cbn [fst snd]. intros H.
  unfold newEntry, NewOutboxIntent, NewOutboxEvent, ValidateEventType.
  destruct b; rewrite H; by eexists.
Qed.

Lemma newEntries_known env t items (g : nat -> nat) :
  forallb knownItem items = true ->
  exists es, buildOutboxEntries (imap (fun i => newEntry env t (g i)) items) = Ok es
    /\ setCorrelationID es (tr_ID t) = imap (fun i => mkEntry env t (g i)) items.
Proof.
  revert g. induction items as [|it items IH]; intros g; [by exists []|].
  cbn [forallb]. intros [Hit Hk]%andb_true_iff. rewrite !imap_cons.
  destruct (newEntry_known env t (g 0%nat) it Hit) as (e & He & Hc).
  destruct (IH (fun i => g (Datatypes.S i)) Hk) as (es & Hes & Hcs).
  exists (e :: es). cbn [buildOutboxEntries]. rewrite He.
  unfold compose. rewrite Hes. split; [done|]. unfold setCorrelationID in *. simpl. by rewrite Hc, Hcs.
Qed.

Lemma stepEntries_known env t items :
  forallb knownItem items = true -> stepEntries env t items = Ok (imap (mkEntry env t) items).
Proof.
  intros Hk. destruct (newEntries_known env t items id Hk) as (es & Hes & Hcs).
  unfold stepEntries. unfold id in *.
  change (imap (newEntry env t) items) with (imap (fun i => newEntry env t i) items).
  by rewrite Hes, Hcs.
Qed.

Lemma planStep_known step env t s items :
  forallb knownItem items = true ->
  planStep step env t s items = Ok {| pl_status := s; pl_entries := imap (mkEntry env t) items |}.
Proof. intros H. unfold planStep. by rewrite stepEntries_known. Qed.

#[local] Opaque planStep.

(** ** What plans ask for *)

(** The treasury operations a payload asks for. *)
Inductive TKind : Set := TReserve | TRelease | TConsume.

Record TIntent := {
  ti_kind : TKind; ti_transfer : UUID; ti_tenant : UUID; ti_currency : Currency;
  ti_amount : Decimal; ti_location : string }.

Definition treasury_payload (p : Payload) : option TIntent :=
  match p with
  | PTreasuryReserve p => Some {| ti_kind := TReserve; ti_transfer := trp_TransferID p;
      ti_tenant := trp_TenantID p; ti_currency := trp_Currency p; ti_amount := trp_Amount p;
      ti_location := trp_Location p |}
  | PTreasuryRelease p => Some {| ti_kind := TRelease; ti_transfer := tlp_TransferID p;
      ti_tenant := tlp_TenantID p; ti_currency := tlp_Currency p; ti_amount := tlp_Amount p;
      ti_location := tlp_Location p |}
  | PTreasuryConsume p => Some {| ti_kind := TConsume; ti_transfer := tcp_TransferID p;
      ti_tenant := tcp_TenantID p; ti_currency := tcp_Currency p; ti_amount := tcp_Amount p;
      ti_location := tcp_Location p |}
  | _ => None
  end.

Definition treasury_intents (es : list OutboxEntry) : list TIntent :=
  omap (fun e => treasury_payload (oe_Payload e)) es.

(** The treasury operation that goes with reaching a status. *)
Definition emitted (s : TransferStatus) : list TKind :=
  match s with
  | Funded => [TReserve]
  | Completed => [TConsume]
  | Failed | Refunding => [TRelease]
  | _ => []
  end.

Definition intent_of (t : Transfer) (k : TKind) : TIntent :=
  {| ti_kind := k; ti_transfer := tr_ID t; ti_tenant := tr_TenantID t;
     ti_currency := tr_SourceCurrency t; ti_amount := tr_SourceAmount t;
     ti_location := location_of t |}.

Definition belongs (t : Transfer) (e : OutboxEntry) : Prop :=
  oe_AggregateType e = "transfer" /\ oe_AggregateID e = tr_ID t
  /\ oe_TenantID e = tr_TenantID t /\ oe_CorrelationID e = tr_ID t /\ oe_Published e = false.

(** The event type says which treasury payload an entry carries. *)
Definition typed (ty : string) (p : Payload) : bool :=
  match p with
  | PTreasuryReserve _ => String.eqb ty IntentTreasuryReserve
  | PTreasuryRelease _ => String.eqb ty IntentTreasuryRelease
  | PTreasuryConsume _ => String.eqb ty IntentTreasuryConsume
  | _ => negb (existsb (String.eqb ty)
           [IntentTreasuryReserve; IntentTreasuryRelease; IntentTreasuryConsume])
  end.

Record plan_ok (env : EEnv) (t : Transfer) (p : Plan) : Prop := {
  po_step : status_step (tr_Status t) (pl_status p);
  po_entries : exists items, items <> [] /\ (length items <= 4)%nat
    /\ pl_entries p = imap (mkEntry env t) items;
  po_treasury : treasury_intents (pl_entries p) = map (intent_of t) (emitted (pl_status p));
  po_typed : Forall (fun e => typed (oe_EventType e) (oe_Payload e) = true) (pl_entries p);
}.

Lemma plan_ok_belongs env t p : plan_ok env t p ->
  pl_entries p <> [] /\ Forall (belongs t) (pl_entries p).
Proof.
  intros [_ (items & Hne & _ & ->) _ _]. split.
  - destruct items; [done|]. by rewrite imap_cons.
  - apply Forall_lookup_2. intros i e. rewrite list_lookup_imap.
    destruct (items !! i) as [[[b ty] pl]|]; [|done]. intros [= <-]. done.
Qed.

Lemma treasury_intents_entries env t items (g : nat -> nat) :
  treasury_intents (imap (fun i => mkEntry env t (g i)) items)
  = omap (fun it => treasury_payload it.2) items.
Proof.
  revert g. induction items as [|[[b ty] p] items IH]; intros g; [done|].
  rewrite imap_cons. unfold treasury_intents in *. simpl.
  specialize (IH (fun i => g (Datatypes.S i))). unfold compose.
  destruct (treasury_payload p); simpl; [f_equal|]; apply IH.
Qed.

Lemma planStep_plan_ok step env t s items p :
  planStep step env t s items = Ok p ->
  forallb knownItem items = true -> items <> [] -> (length items <= 4)%nat ->
  status_step (tr_Status t) s ->
  omap (fun it => treasury_payload it.2) items = map (intent_of t) (emitted s) ->
  forallb (fun it => typed it.1.2 it.2) items = true ->
  plan_ok env t p.
Proof.
  intros Hp Hk Hne Hlen Hs Ht Hty. rewrite planStep_known in Hp by done. simplify_eq.
  split; [done|by exists items| |].
  - simpl. rewrite <- Ht. apply (treasury_intents_entries env t items (fun i => i)).
  - apply Forall_lookup_2. intros i e. simpl. rewrite list_lookup_imap.
    destruct (items !! i) as [[[b ty] pl]|] eqn:Hi; [|done]. intros [= <-]. simpl.
    rewrite forallb_forall in Hty. apply (Hty (b, ty, pl)).
    by apply list_elem_of_In, (list_elem_of_lookup_2 _ i).
Qed.

Lemma always_some (p : result Plan) q : always p = Ok (Some q) -> p = Ok q.
Proof. unfold always. destruct p; by intros [= <-]. Qed.

(** Ends a plan: the hypothesis is the [planStep] it returned. *)
Ltac plan_done Hs :=
  match goal with
  | H : planStep _ _ _ _ _ = Ok _ |- _ =>
      refine (planStep_plan_ok _ _ _ _ _ _ H _ _ _ _ _ _);
      [reflexivity | discriminate | simpl; lia
      | first [assumption | unfold status_step; rewrite Hs; reflexivity] | reflexivity | reflexivity]
  end.

Lemma onRampResult_plan_ok env dp r t p :
  HandleOnRampResult_plan env dp r t = Ok (Some p) -> plan_ok env t p.
Proof.
  unfold HandleOnRampResult_plan, onRampSuccess_plan, onRampFailure_plan.
  case_bool_decide as Hs; simpl; [|case_match; congruence].
  intros H. repeat (case_match; simplify_eq/=); plan_done Hs.
Qed.

Lemma settlementResult_plan_ok env dp q r t p :
  HandleSettlementResult_plan env dp q r t = Ok (Some p) -> plan_ok env t p.
Proof.
  unfold HandleSettlementResult_plan, settlementSuccess_plan, settlementFailure_plan.
  case_bool_decide as Hs; simpl; [|case_match; congruence].
  intros H. destruct (ir_Success r).
  - destruct (planStep _ _ _ _ _) as [p'|] eqn:Hp; simplify_eq/=. plan_done Hs.
  - repeat (case_match; simplify_eq/=); plan_done Hs.
Qed.

Lemma completeTransfer_plan_ok env dp t p :
  tr_Status t = OffRamping -> CompleteTransfer_plan env dp t = Ok p -> plan_ok env t p.
Proof.
  intros Hs. unfold CompleteTransfer_plan. intros H.
  destruct (dp_GetTenant dp (tr_TenantID t)) as [tenant|]; [|done]. simpl in H.
  destruct (IsPositive _); [|done].
  destruct (validateLedgerLines _ _); [|done]. simpl in H. plan_done Hs.
Qed.

Lemma offRampFailure_plan_ok env dp r t p :
  tr_Status t = OffRamping -> offRampFailure_plan env dp r t = Ok p -> plan_ok env t p.
Proof.
  intros Hs. unfold offRampFailure_plan. intros H.
  destruct (dp_GetTenant dp (tr_TenantID t)) as [tenant|]; [|done]. simpl in H. plan_done Hs.
Qed.

Lemma failTransfer_plan_ok env reason code t p :
  FailTransfer_plan env reason code t = Ok p -> plan_ok env t p.
Proof.
  unfold FailTransfer_plan, CanTransitionTo.
  destruct (CanTransition (tr_Status t) Failed) eqn:Hs; simpl; [|done]. intros H. plan_done Hs.
Qed.

Lemma initiateRefund_plan_ok env dp t p :
  InitiateRefund_plan env dp t = Ok p -> plan_ok env t p.
Proof.
  unfold InitiateRefund_plan, CanTransitionTo. destruct (negb _ && negb _); [done|].
  destruct (CanTransition (tr_Status t) Refunding) eqn:Hs; simpl; [|done].
  destruct (refundLines dp t); [|done]. intros H. plan_done Hs.
Qed.

Lemma refundResult_plan_ok env r t p :
  tr_Status t = Refunding -> HandleRefundResult_plan env r t = Ok (Some p) -> plan_ok env t p.
Proof.
  intros Hs. unfold HandleRefundResult_plan. destruct (ir_Success r); [|done].
  destruct (planStep _ _ _ _ _) as [p'|] eqn:Hp; [|done]. intros [= <-]. plan_done Hs.
Qed.

(** Every plan moves along an edge of the state machine and carries the
    treasury intent of the status it reaches. *)
Lemma plan_of_ok env dp quote op t p :
  plan_of env dp quote op t = Ok (Some p) -> plan_ok env t p.
Proof.
  destruct op; simpl; try (case_bool_decide as Hs; [|done]).
  - intros H%always_some. unfold FundTransfer_plan in H. plan_done Hs.
  - intros H%always_some. unfold InitiateOnRamp_plan in H. plan_done Hs.
  - apply onRampResult_plan_ok.
  - apply settlementResult_plan_ok.
  - destruct (ir_Success r); intros H%always_some;
      [by eapply completeTransfer_plan_ok | by eapply offRampFailure_plan_ok].
  - intros H%always_some. by eapply completeTransfer_plan_ok.
  - intros H%always_some. by eapply failTransfer_plan_ok.
  - intros H%always_some. by eapply initiateRefund_plan_ok.
  - by apply refundResult_plan_ok.
Qed.
End Entries.

(** ** Handlers are read, plan, write *)

Section HandlerInversion.
Context {L : ThirdParty} {St : Type} `{TS : !TransferStore St} {TSL : TransferStoreLaws St}.

(** Nothing happened, or the write of the plan for what was read was asked
    for; the caller hears what the store answered. *)
Definition handled (env : EEnv) (dp : Deps) (op : Op) (tn id : UUID) (st : St)
    (out : result unit * St) : Prop :=
  (out.2 = st /\ (is_ok out.1 = true ->
     exists t, ts_GetTransfer tn id st = Ok t /\ plan_of env dp (loadQuote t st) op t = Ok None))
  \/ exists t p r, ts_GetTransfer tn id st = Ok t
       /\ plan_of env dp (loadQuote t st) op t = Ok (Some p)
       /\ ts_TransitionWithOutbox (tr_ID t) (pl_status p) (tr_Version t) (pl_entries p) st = (r, out.2)
       /\ is_ok r = is_ok out.1.

Lemma handled_err env dp op tn id st e : handled env dp op tn id st (Err e, st).
Proof. left. by split. Qed.

Lemma handled_finish env dp op tn id st step t pl :
  ts_GetTransfer tn id st = Ok t -> plan_of env dp (loadQuote t st) op t = pl ->
  handled env dp op tn id st (finish step t pl st).
Proof.
  intros Hg Hp. destruct pl as [[p|]|e]; simpl; [| |apply handled_err].
  - unfold commit.
    right. exists t, p.
    destruct (ts_TransitionWithOutbox (tr_ID t) (pl_status p) (tr_Version t) (pl_entries p) st)
      as [[[]|e] st'] eqn:E; by eexists.
  - left. split; [done|]. intros _. by exists t.
Qed.

(** The two ways handlers load. *)
Lemma handled_load env dp op tn id st step ctx (k : Transfer -> result (option Plan)) :
  (forall t, ts_GetTransfer tn id st = Ok t -> plan_of env dp (loadQuote t st) op t = k t) ->
  handled env dp op tn id st
    (match wrap ctx (loadTransfer tn id st) with
     | Err e => (Err e, st)
     | Ok t => finish step t (k t) st
     end).
Proof.
  intros H. unfold loadTransfer. destruct (ts_GetTransfer tn id st) as [t|e] eqn:E; simpl;
    [|apply handled_err]. apply handled_finish; [done|]. by apply H.
Qed.

Lemma handled_load_step env dp op tn id st step ctx s (k : Transfer -> result (option Plan)) :
  (forall t, ts_GetTransfer tn id st = Ok t -> tr_Status t = s ->
     plan_of env dp (loadQuote t st) op t = k t) ->
  handled env dp op tn id st
    (match wrap ctx (loadTransferForStep tn id s st) with
     | Err e => (Err e, st)
     | Ok t => finish step t (k t) st
     end).
Proof.
  intros H. unfold loadTransferForStep, loadTransfer.
  destruct (ts_GetTransfer tn id st) as [t|e] eqn:E; simpl; [|apply handled_err].
  case_bool_decide as Hs; simpl; [|apply handled_err].
  apply handled_finish; [done|]. by apply H.
Qed.

Lemma handled_offramp env dp tn id r st :
  handled env dp (OOffRampResult r) tn id st (HandleOffRampResult env dp tn id r st).
Proof.
  unfold HandleOffRampResult, loadTransfer.
  destruct (ts_GetTransfer tn id st) as [t|e] eqn:E; simpl; [|apply handled_err].
  case_bool_decide as Hs; simpl; [|apply handled_err].
  destruct (ir_Success r) eqn:Hr.
  - unfold CompleteTransfer. apply handled_load_step. intros t' E' Hs'. simpl.
    by rewrite bool_decide_true, Hr by done.
  - apply handled_load_step. intros t' E' Hs'. simpl. by rewrite bool_decide_true, Hr by done.
Qed.

Lemma is_ok_unit (r : result unit) : is_ok r = true -> r = Ok tt.
Proof. by destruct r as [[]|]. Qed.

Lemma handle_inv env dp op tn id st : handled env dp op tn id st (handle env dp op tn id st).
Proof.
  destruct op; simpl.
  - apply handled_load_step. intros t _ Hs. simpl. by rewrite bool_decide_true by done.
  - apply handled_load_step. intros t _ Hs. simpl. by rewrite bool_decide_true by done.
  - by apply handled_load.
  - by apply handled_load.
  - apply handled_offramp.
  - apply handled_load_step. intros t _ Hs. simpl. by rewrite bool_decide_true by done.
  - by apply handled_load.
  - by apply handled_load.
  - apply handled_load_step. intros t _ Hs. simpl. by rewrite bool_decide_true by done.
Qed.
End HandlerInversion.
