(* ===== verification/EngineProps.v ===== *)
(** * core: correctness of the settlement engine

    One handler at a time: it leaves the store alone or moves one transfer
    along the edge of its operation and appends its entries in the same write,
    and its error means that nothing was written unless the answer to the
    commit was lost.  Any number of engines and workers at once: handlers read,
    plan and write at different moments, and optimistic locking keeps every
    transfer on a path of the state machine, with the treasury intents of that
    path and no others in the outbox.  Then the ledger lines of a completion and
    of an on-ramp, and what failures, refunds and replays ask for. *)

From Stdlib Require Import Ascii QArith Lqa.
From S2P Require Import Prelude ThirdParty Money Deposits Transfer Outbox LedgerEntries TransferStore Machine Engine EngineFacts.
Local Open Scope string_scope.
Local Open Scope Z_scope.

(** ** Paths of the state machine *)

Abbreviation walk := (Machine.walk ValidTransitions).
Abbreviation emissions := (Machine.emissions emitted).

Lemma valid_rank s s' : s' ∈ ValidTransitions s -> (status_rank s' < status_rank s)%nat.
Proof. intros H. by apply status_step_rank, CanTransition_spec. Qed.

(** The only way to complete is the happy path. *)
Lemma walk_completed l : walk Created l -> endpoint Created l = Completed ->
  l = [Funded; OnRamping; Settling; OffRamping; Completed].
Proof.
  intros Hw. revert Hw. apply (walk_check _ _ valid_rank (fun l => endpoint Created l = Completed ->
    l = [Funded; OnRamping; Settling; OffRamping; Completed])).
  apply (bool_decide_eq_true_1 (Forall _ _)). vm_compute. reflexivity.
Qed.

#[global] Instance TKind_eq_dec : EqDecision TKind.
Proof. solve_decision. Defined.

(** ** One handler *)

Section OneHandler.
Context {L : ThirdParty} {St : Type} `{TS : !TransferStore St} {TSL : TransferStoreLaws St}.

(** The edge of each operation. *)
Inductive moves : Op -> TransferStatus -> TransferStatus -> Prop :=
| MvFund : moves OFund Created Funded
| MvOnRamp : moves OOnRamp Funded OnRamping
| MvOnRampResult r : moves (OOnRampResult r) OnRamping (if ir_Success r then Settling else Refunding)
| MvSettlementResult r : moves (OSettlementResult r) Settling (if ir_Success r then OffRamping else Failed)
| MvOffRampResult r : moves (OOffRampResult r) OffRamping (if ir_Success r then Completed else Failed)
| MvComplete : moves OComplete OffRamping Completed
| MvFail reason code s : moves (OFail reason code) s Failed
| MvRefund s : s = Funded \/ s = Failed -> moves ORefund s Refunding
| MvRefundResult r : ir_Success r = true -> moves (ORefundResult r) Refunding Refunded.

(** When a handler has nothing to do: a result that was dealt with before, or
    a refund that failed. *)
Definition idle (op : Op) (s : TransferStatus) : Prop :=
  match op with
  | OOnRampResult _ => s <> OnRamping /\ isAdvancedPast s OnRamping = true
  | OSettlementResult _ => s <> Settling /\ isAdvancedPast s Settling = true
  | ORefundResult r => s = Refunding /\ ir_Success r = false
  | _ => False
  end.

Lemma planStep_status step env t s items p : planStep step env t s items = Ok p -> pl_status p = s.
Proof. unfold planStep. destruct (wrap _ _); [|done]. by intros [= <-]. Qed.

#[local] Opaque planStep.

(** Ends a branch of a plan: what is left is the status of a [planStep]. *)
Ltac status_done :=
  repeat match goal with
  | H : Ok (Some _) = Ok (Some _) |- _ => injection H as ->
  | H : always _ = Ok (Some _) |- _ => apply always_some in H
  | H : planStep _ _ _ _ _ = Ok _ |- _ => apply planStep_status in H; rewrite H
  | H : match ?x with Ok _ => _ | Err _ => _ end = Ok _ |- _ => let E := fresh in destruct x eqn:E; [|discriminate H]
  | H : (if ?x then _ else Err _) = Ok _ |- _ => destruct x; [|discriminate H]
  end.

Lemma plan_moves env dp q op t p :
  plan_of env dp q op t = Ok (Some p) -> moves op (tr_Status t) (pl_status p).
Proof.
  destruct op; cbn [plan_of]; try (case_bool_decide as Hs; [rewrite Hs|done]); intros H.
  - unfold FundTransfer_plan in H. status_done. constructor.
  - unfold InitiateOnRamp_plan in H. status_done. constructor.
  - unfold HandleOnRampResult_plan in H. case_bool_decide as Hs; simpl in H; [rewrite Hs|by destruct (isAdvancedPast _ _)].
    generalize (MvOnRampResult r). revert H. destruct (ir_Success r); intros H Hm; unfold onRampSuccess_plan, onRampFailure_plan in H; status_done; done.
  - unfold HandleSettlementResult_plan in H. case_bool_decide as Hs; simpl in H; [rewrite Hs|by destruct (isAdvancedPast _ _)].
    generalize (MvSettlementResult r). revert H. destruct (ir_Success r); intros H Hm; unfold settlementSuccess_plan, settlementFailure_plan in H; status_done; done.
  - generalize (MvOffRampResult r). revert H. destruct (ir_Success r); intros H Hm; status_done; unfold CompleteTransfer_plan, offRampFailure_plan in H; status_done; done.
  - status_done. unfold CompleteTransfer_plan in H. status_done. constructor.
  - status_done. unfold FailTransfer_plan in H. destruct (negb _); [done|]. status_done. constructor.
  - status_done. unfold InitiateRefund_plan in H. destruct (bool_decide_reflect (tr_Status t = Funded)) as [Hf|];
      [|destruct (bool_decide_reflect (tr_Status t = Failed)) as [Hf|]; [|done]];
      simpl in H; destruct (negb _); try done; status_done; constructor; auto.
  - unfold HandleRefundResult_plan in H. destruct (ir_Success r) eqn:Er; [|done]. status_done. by constructor.
Qed.

Lemma plan_idle env dp q op t : plan_of env dp q op t = Ok None -> idle op (tr_Status t).
Proof.
  assert (forall x, always x <> Ok None) as Hal by (by intros []).
  destruct op; cbn [plan_of idle]; try (case_bool_decide as Hs; [|done]); intros H; try (by apply Hal in H).
  - unfold HandleOnRampResult_plan in H. case_bool_decide; simpl in H.
    + destruct (ir_Success r), (onRampSuccess_plan env dp t), (onRampFailure_plan env t); done.
    + by destruct (isAdvancedPast _ _).
  - unfold HandleSettlementResult_plan in H. case_bool_decide; simpl in H.
    + destruct (ir_Success r), (settlementSuccess_plan env q r t), (settlementFailure_plan env dp r t); done.
    + by destruct (isAdvancedPast _ _).
  - by destruct (ir_Success r); apply Hal in H.
  - unfold HandleRefundResult_plan in H. destruct (ir_Success r); [|done]. by destruct (planStep _ _ _ _ _).
Qed.

(** The handler moved the transfer it names: the one of that id and tenant,
    along the edge of the operation, with the entries in the same write. *)
Definition moved (op : Op) (tn id : UUID) (st st' : St) : Prop :=
  exists t now s es, transfers st !! id = Some t /\ (tn = uuid_Nil \/ tr_TenantID t = tn)
    /\ moves op (tr_Status t) s /\ status_step (tr_Status t) s
    /\ transfers st' = <[id := transitioned now t s]> (transfers st)
    /\ es <> [] /\ Forall (belongs t) es
    /\ outbox st' = (outbox st ++ map outboxEntryToParams es)%list.

Lemma write_moved env dp quote op tn id t p (st st' : St) r : store_inv st ->
  ts_GetTransfer tn id st = Ok t -> plan_of env dp quote op t = Ok (Some p) ->
  ts_TransitionWithOutbox (tr_ID t) (pl_status p) (tr_Version t) (pl_entries p) st = (r, st') ->
  (st' = st /\ is_ok r = false) \/ moved op tn id st st'.
Proof.
  intros Hinv Hg Hp Ht. destruct (get_found _ _ _ _ Hinv Hg) as (Hrow & Hid & Htn).
  destruct (transition_effect _ _ _ _ _ _ _ Ht) as [H|(t1 & now & Hrow1 & _ & Hts & Hob & _)]; [by left|right].
  pose proof (plan_moves _ _ _ _ _ _ Hp). apply plan_of_ok in Hp.
  destruct (plan_ok_belongs _ _ _ Hp) as [Hne Hb]. rewrite Hid in *. rewrite Hrow in Hrow1. simplify_eq.
  exists t1, now, (pl_status p), (pl_entries p). split_and!; try done. apply Hp.
Qed.

(** C6: A handler is atomic and stays on the state machine.  Whatever it
    returns, the store is exactly as before or the one transfer it names, of
    the given tenant, has moved along the edge of the operation, a valid one,
    with its version up by one, and a non-empty list of unpublished entries
    that all name that transfer and tenant was appended in the same write.
    Success without a write means that there was nothing to do (a result dealt
    with before, a refund that failed).  An error means that nothing was
    written, unless the answer to the commit was lost. *)
Theorem handle_safe env dp op tn id st r st' :
  store_inv st -> handle env dp op tn id st = (r, st') ->
  (st' = st \/ moved op tn id st st')
  /\ (is_ok r = true -> moved op tn id st st'
        \/ (st' = st /\ exists t, transfers st !! id = Some t /\ idle op (tr_Status t)))
  /\ (is_ok r = false -> acknowledged st -> st' = st).
Proof.
  intros Hinv Hh. pose proof (handle_inv env dp op tn id st) as H. rewrite Hh in H.
  destruct H as [[Heq Hn]|(t & p & r0 & Hg & Hp & Ht & Hr)]; simpl in *.
  { subst. split_and!; [by left| |done]. intros Hok. right. split; [done|].
    destruct (Hn Hok) as (t & Hg & Hp). apply get_found in Hg as (Hrow & _); [|done].
    exists t. split; [done|]. by eapply plan_idle. }
  pose proof (write_moved _ _ _ _ _ _ _ _ _ _ _ Hinv Hg Hp Ht) as Hm. split_and!.
  - naive_solver.
  - intros Hok. rewrite Hok in Hr. naive_solver congruence.
  - intros He Hack. destruct r0; [by rewrite He in Hr|]. by eapply transition_err.
Qed.
End OneHandler.

(** ** Interleaved handlers *)

Section Interleaved.
Context {L : ThirdParty} {St : Type} `{TS : !TransferStore St} {TSL : TransferStoreLaws St}.

(** Calls that have read a transfer and not yet written. *)
Abbreviation inflight := (list (Op * Transfer)).

(** Engines, workers and the recovery detector run handlers at the same time:
    reads and writes interleave, and between the two a handler may see any
    tenant data and any quote.  The store may refuse the write, and its answer
    may be lost.  Whatever else uses the store (creation of
    transfers and quotes) keeps the rows there are and posts no treasury
    intent. *)
Inductive sys_step : St * inflight -> St * inflight -> Prop :=
| SysRead st fl op tn id t :
    ts_GetTransfer tn id st = Ok t -> sys_step (st, fl) (st, (op, t) :: fl)
| SysWrite st fl1 fl2 op t env dp quote p r st' :
    plan_of env dp quote op t = Ok (Some p) ->
    ts_TransitionWithOutbox (tr_ID t) (pl_status p) (tr_Version t) (pl_entries p) st
      = (r, st') ->
    sys_step (st, (fl1 ++ (op, t) :: fl2)%list) (st', (fl1 ++ fl2)%list)
| SysEnd st fl1 fl2 op t :
    sys_step (st, (fl1 ++ (op, t) :: fl2)%list) (st, (fl1 ++ fl2)%list)
| SysOther st st' fl rows :
    transfers st ⊆ transfers st' -> outbox st' = (outbox st ++ rows)%list ->
    treasury_intents rows = [] -> (store_inv st -> store_inv st') ->
    sys_step (st, fl) (st', fl).

Definition intents_for (id : UUID) (st : St) : list TIntent :=
  filter (fun i => ti_transfer i = id) (treasury_intents (outbox st)).

(** What became of a row since [st0]. *)
Definition history (st0 st : St) : Prop :=
  forall id t0, transfers st0 !! id = Some t0 -> tr_ID t0 = id ->
  exists t l, transfers st !! id = Some t /\ walk (tr_Status t0) l
    /\ tr_Status t = endpoint (tr_Status t0) l
    /\ tr_Version t = tr_Version t0 + Z.of_nat (length l)
    /\ (forall k, intent_of t k = intent_of t0 k)
    /\ intents_for id st = (intents_for id st0 ++ map (intent_of t0) (emissions l))%list.

(** A snapshot is a past state of its row; the version tells whether it is
    the present one. *)
Definition snapshot_ok (st : St) (x : Op * Transfer) : Prop :=
  exists row, transfers st !! tr_ID x.2 = Some row /\ tr_ID row = tr_ID x.2
    /\ tr_Version x.2 <= tr_Version row /\ (tr_Version x.2 = tr_Version row -> x.2 = row).

Definition inter_inv (st0 : St) (c : St * inflight) : Prop :=
  store_inv c.1 /\ history st0 c.1 /\ Forall (snapshot_ok c.1) c.2.

Lemma treasury_intents_app es es' :
  treasury_intents (es ++ es')%list = (treasury_intents es ++ treasury_intents es')%list.
Proof. apply omap_app. Qed.

Lemma treasury_intents_params es :
  treasury_intents (map outboxEntryToParams es) = treasury_intents es.
Proof. unfold treasury_intents. induction es as [|e es IH]; [done|]. cbn. by rewrite IH. Qed.

Lemma intents_for_app id st st' rows :
  outbox st' = (outbox st ++ rows)%list ->
  intents_for id st' = (intents_for id st ++ filter (fun i => ti_transfer i = id)
                          (treasury_intents rows))%list.
Proof. unfold intents_for. intros ->. by rewrite treasury_intents_app, filter_app. Qed.

Lemma filter_intent_of t ks (id : UUID) :
  filter (fun i => ti_transfer i = id) (map (intent_of t) ks)
  = if decide (tr_ID t = id) then map (intent_of t) ks else [].
Proof.
  induction ks as [|k ks IH]; simpl; [by case_decide|]. rewrite filter_cons. simpl.
  rewrite IH. by repeat case_decide.
Qed.

Lemma history_write st0 st st' t p :
  history st0 st -> transfers st !! tr_ID t = Some t ->
  status_step (tr_Status t) (pl_status p) ->
  treasury_intents (pl_entries p) = map (intent_of t) (emitted (pl_status p)) ->
  forall now, transfers st' = <[tr_ID t := transitioned now t (pl_status p)]> (transfers st) ->
  outbox st' = (outbox st ++ map outboxEntryToParams (pl_entries p))%list ->
  history st0 st'.
Proof.
  intros Hh Hrow Hstep Htr now Hts Hob id t0 Ht0 Hid0.
  destruct (Hh id t0 Ht0 Hid0) as (u & l & Hu & Hw & Hend & Hv & Hi & Hint).
  rewrite (intents_for_app id st st' _ Hob), treasury_intents_params, Htr, filter_intent_of.
  rewrite Hts. destruct (decide (tr_ID t = id)) as [<-|Hne].
  - rewrite Hrow in Hu. simplify_eq. rewrite lookup_insert_eq.
    rewrite Hend in Hstep. destruct (walk_snoc _ _ _ _ Hw (proj1 (CanTransition_spec _ _) Hstep)) as [Hw' He'].
    exists (transitioned now u (pl_status p)), (l ++ [pl_status p])%list. split_and!; try done.
    + simpl. rewrite length_app. simpl. lia.
    + rewrite Hint, emissions_snoc, map_app, app_assoc. f_equal. apply map_ext. apply Hi.
  - rewrite lookup_insert_ne, app_nil_r by done. by exists u, l.
Qed.

Lemma snapshot_write st st' t now s x :
  transfers st !! tr_ID t = Some t ->
  transfers st' = <[tr_ID t := transitioned now t s]> (transfers st) ->
  snapshot_ok st x -> snapshot_ok st' x.
Proof.
  intros Hrow Hts (row & Hr & Hid & Hle & Heq). unfold snapshot_ok. rewrite Hts.
  destruct (decide (tr_ID t = tr_ID x.2)) as [He|Hne].
  - rewrite He, lookup_insert_eq. rewrite He, Hr in Hrow. simplify_eq.
    exists (transitioned now t s). simpl. split_and!; [done|done|lia|]. intros. lia.
  - rewrite lookup_insert_ne by done. by exists row.
Qed.

Lemma inter_inv_step st0 c c' : inter_inv st0 c -> sys_step c c' -> inter_inv st0 c'.
Proof.
  intros (Hinv & Hh & Hf) Hs. destruct Hs as
    [st fl op tn id t Hg|st fl1 fl2 op t env dp q p r st' Hp Ht|st fl1 fl2 op t|st st' fl rows Hsub Hob Htr Hi];
    unfold inter_inv; simpl in *.
  - split_and!; [done|done|]. constructor; [|done].
    destruct (get_found _ _ _ _ Hinv Hg) as (Hrow & Hid & _). exists t. simpl. by rewrite Hid.
  - apply Forall_app in Hf as [Hf1 [(row & Hr & Hid & _ & Heq) Hf2]%Forall_cons]. simpl in *.
    destruct (transition_effect _ _ _ _ _ _ _ Ht) as [[-> _]|H]; [split_and!; [done|done|by apply Forall_app]|].
    destruct H as (t1 & now & Hrow & Hv & Hts & Hob & Hinv').
    rewrite Hr in Hrow. simplify_eq. apply plan_of_ok in Hp as [Hstep _ Htr _].
    assert (t = t1) as <- by (by apply Heq). split_and!; [by apply Hinv'| |].
    + by eapply history_write.
    + apply Forall_app; split; (eapply Forall_impl; [eassumption|]); intros;
        by eapply snapshot_write.
  - split_and!; [done|done|]. apply Forall_app in Hf as [Hf1 [_ Hf2]%Forall_cons].
    by apply Forall_app.
  - split_and!; [by apply Hi| |].
    + intros id t0 Ht0 Hid0. destruct (Hh id t0 Ht0 Hid0) as (u & l & Hu & H).
      exists u, l. split; [by eapply lookup_weaken|].
      rewrite (intents_for_app id st st' rows Hob), Htr, filter_nil, app_nil_r. done.
    + eapply Forall_impl; [exact Hf|]. intros x (row & Hr & Hx). exists row.
      split; [by eapply lookup_weaken|done].
Qed.

Lemma history_reachable st0 st fl :
  store_inv st0 -> rtc sys_step (st0, []) (st, fl) -> history st0 st.
Proof.
  intros Hinv Hr. apply (invariant_rtc sys_step (inter_inv st0) (inter_inv_step st0) _ _ Hr).
  split_and!; [done| |constructor]. intros id t0 Ht0 Hid0. exists t0, [].
  simpl. split_and!; try done; [lia|]. by rewrite app_nil_r.
Qed.

(** A handler run on its own is a read followed by a write. *)
Lemma handle_rtc env dp op tn id st r st' :
  handle env dp op tn id st = (r, st') -> rtc sys_step (st, []) (st', []).
Proof.
  intros Hh. pose proof (handle_inv env dp op tn id st) as H. rewrite Hh in H.
  destruct H as [[Heq _]|(t & p & r0 & Hg & Hp & Ht & _)]; simpl in *; [by subst|].
  eapply rtc_l; [by apply (SysRead st [] op tn id t)|]. apply rtc_once.
  by apply (SysWrite st [] [] op t env dp (loadQuote t st) p r0 st').
Qed.

(** C2: Under any interleaving of any number of handlers, every transfer
    only ever moves along edges of the state machine, its version counts the
    moves, there are at most seven of them, and the treasury intents posted
    for it are exactly those of the statuses it went through, for its own
    tenant, currency, amount and location: a stale write never gets in. *)
Theorem interleaved_history st0 st fl id t0 :
  store_inv st0 -> rtc sys_step (st0, []) (st, fl) ->
  transfers st0 !! id = Some t0 -> tr_ID t0 = id ->
  exists t l, transfers st !! id = Some t /\ walk (tr_Status t0) l
    /\ (length l <= 7)%nat
    /\ tr_Status t = endpoint (tr_Status t0) l
    /\ tr_Version t = tr_Version t0 + Z.of_nat (length l)
    /\ intents_for id st = (intents_for id st0 ++ map (intent_of t0) (emissions l))%list.
Proof.
  intros Hinv Hr Ht0 Hid.
  destruct (history_reachable _ _ _ Hinv Hr _ _ Ht0 Hid) as (t & l & Hl & Hw & H).
  exists t, l. pose proof (walk_length _ _ valid_rank _ _ Hw).
  assert (status_rank (tr_Status t0) <= 7)%nat by (destruct (tr_Status t0); simpl; lia).
  naive_solver lia.
Qed.

(** A transfer that completes has asked once for its reservation and once
    for its consumption, and never for a release. *)
Lemma completed_settles_once st0 st fl id t0 t :
  store_inv st0 -> rtc sys_step (st0, []) (st, fl) ->
  transfers st0 !! id = Some t0 -> tr_ID t0 = id -> tr_Status t0 = Created ->
  intents_for id st0 = [] ->
  transfers st !! id = Some t -> tr_Status t = Completed ->
  intents_for id st = [intent_of t0 TReserve; intent_of t0 TConsume].
Proof.
  intros Hinv Hr Ht0 Hid Hc Hi Ht Hs.
  destruct (history_reachable _ _ _ Hinv Hr _ _ Ht0 Hid) as (t' & l & Hl & Hw & He & _ & _ & ->).
  rewrite Ht in Hl. simplify_eq. rewrite Hs in He. rewrite Hc in *.
  rewrite (walk_completed l Hw) by done. by rewrite Hi.
Qed.

(** No consumption is ever asked for a transfer that has not completed. *)
Lemma unfinished_never_consumed st0 st fl id t0 t :
  store_inv st0 -> rtc sys_step (st0, []) (st, fl) ->
  transfers st0 !! id = Some t0 -> tr_ID t0 = id -> tr_Status t0 = Created ->
  intents_for id st0 = [] ->
  transfers st !! id = Some t -> tr_Status t <> Completed ->
  TConsume ∉ map ti_kind (intents_for id st).
Proof.
  intros Hinv Hr Ht0 Hid Hc Hi Ht Hs.
  destruct (history_reachable _ _ _ Hinv Hr _ _ Ht0 Hid) as (t' & l & Hl & Hw & He & _ & _ & ->).
  rewrite Ht in Hl. simplify_eq. rewrite He in Hs. rewrite Hc in *. rewrite Hi. simpl.
  rewrite map_map. simpl. rewrite map_id. revert Hs. revert Hw.
  apply (walk_check _ _ valid_rank (fun l => endpoint Created l <> Completed -> TConsume ∉ emissions l)).
  apply (bool_decide_eq_true_1 (Forall _ _)). vm_compute. reflexivity.
Qed.
End Interleaved.

(** ** Ledger lines *)

Section Lines.
Context {L : ThirdParty} {LL : ThirdPartyLaws L}.

Lemma TenantAccountCode_key slug p p' (ty ty' : string) :
  TenantAccountCode slug p +:+ ":" +:+ ty = TenantAccountCode slug p' +:+ ":" +:+ ty' ->
  p +:+ ":" +:+ ty = p' +:+ ":" +:+ ty'.
Proof.
  unfold TenantAccountCode. intros H.
  rewrite !string_app_assoc in H. by do 3 apply (inj _) in H.
Qed.

Lemma completionLines_ok newv7 slug t :
  NoDup [newv7 0%nat; newv7 1%nat; newv7 2%nat] ->
  IsPositive (TotalFeeUSD (tr_Fees t)) = true ->
  IsPositive (dSub (tr_SourceAmount t) (TotalFeeUSD (tr_Fees t))) = true ->
  validateLedgerLines newv7 (completionLines slug t) = Ok tt.
Proof.
  intros Hids Hf Hn. unfold validateLedgerLines. apply ValidateEntries_iff.
  dec_reflect. dec_val. split.
  - simpl. lia.
  - intros l. rewrite list_elem_of_In. simpl. intros [<-|[<-|[<-|[]]]]; unfold el_Amount; simpl;
      rewrite ?dSub_val; lra.
  - apply NoDup_filter, Hids.
  - simpl. unfold aeKey. simpl. rewrite !NoDup_cons, !not_elem_of_cons.
    split_and!; try apply not_elem_of_nil; try constructor;
      by intros H%TenantAccountCode_key.
  - intros c. unfold side_total. simpl.
    unfold el_Currency, el_EntryType, el_Amount. simpl.
    destruct (decide (tr_SourceCurrency t = c)) as [E|E].
    + rewrite !(bool_decide_eq_true_2 _ E). simpl. rewrite dSub_val. lra.
    + rewrite !(bool_decide_eq_false_2 _ E). simpl. lra.
Qed.

(** The completion entry is always a well-formed double entry: whenever
    fees are positive and below the source amount, [validateLedgerLines]
    accepts it, so a completion is never refused for its ledger lines. *)
Theorem completionLines_valid newv7 slug t :
  NoDup [newv7 0%nat; newv7 1%nat; newv7 2%nat] ->
  IsPositive (TotalFeeUSD (tr_Fees t)) = true ->
  IsPositive (dSub (tr_SourceAmount t) (TotalFeeUSD (tr_Fees t))) = true ->
  validateLedgerLines newv7 (completionLines slug t) = Ok tt.
Proof. apply completionLines_ok. Qed.

(** The on-ramp entry never satisfies the double-entry rule: a stablecoin
    debit has no stablecoin credit against it.  The ledger applies that rule
    to every entry it is handed. *)
Theorem onRampLines_never_valid newv7 slug t :
  tr_StableCoin t <> tr_SourceCurrency t ->
  ValidateEntries (toEntryLines newv7 (onRampLines slug t)) <> Ok tt.
Proof.
  intros Hne [_ Hpos _ _ Hb]%ValidateEntries_iff. specialize (Hb (tr_StableCoin t)).
  assert (0 < dVal (tr_StableAmount t))%Q as H.
  { apply (Hpos {| el_ID := newv7 0%nat; el_AccountID := uuid_Nil;
      el_Posting := {| po_AccountCode := crypto_account t; po_EntryType := EntryTypeDebit;
        po_Amount := tr_StableAmount t; po_Currency := tr_StableCoin t;
        po_Description := "" |} |}). by apply list_elem_of_here. }
  unfold side_total in Hb. simpl in Hb. unfold el_Currency, el_EntryType, el_Amount in Hb.
  simpl in Hb. rewrite !(bool_decide_eq_true_2 (tr_StableCoin t = tr_StableCoin t)) in Hb by done.
  rewrite !(bool_decide_eq_false_2 (tr_SourceCurrency t = tr_StableCoin t)) in Hb by congruence.
  simpl in Hb. lra.
Qed.
End Lines.

#[local] Opaque planStep.

(** ** Consequences for single handlers *)

Section Consequences.
Context {L : ThirdParty} {St : Type} `{TS : !TransferStore St} {TSL : TransferStoreLaws St}.

(** A handler that succeeds and had something to do. *)
Lemma handle_write env dp op tn id st st' t :
  store_inv st -> transfers st !! id = Some t -> handle env dp op tn id st = (Ok tt, st') ->
  plan_of env dp (loadQuote t st) op t <> Ok None ->
  exists p now, plan_of env dp (loadQuote t st) op t = Ok (Some p) /\ store_inv st'
    /\ transfers st' !! id = Some (transitioned now t (pl_status p))
    /\ intents_for id st' = (intents_for id st ++ map (intent_of t) (emitted (pl_status p)))%list.
Proof.
  intros Hinv Hrow Hh Hn. pose proof (handle_inv env dp op tn id st) as H. rewrite Hh in H.
  destruct H as [[_ H]|(u & p & r & Hg & Hp & Ht & Hr)]; simpl in *.
  { destruct H as (u & Hg & Hp); [done|]. apply get_found in Hg as (Hu & _); [|done].
    congruence. }
  destruct (get_found _ _ _ _ Hinv Hg) as (Hu & Hid & _). rewrite Hrow in Hu. simplify_eq.
  apply is_ok_unit in Hr as ->. destruct (transition_ok _ _ _ _ _ _ Ht) as (t1 & now & Hrow1 & _ & Hts & Hob & Hinv').
  rewrite Hrow in Hrow1. simplify_eq.
  exists p, now. split_and!; [done|by apply Hinv'|by rewrite Hts, lookup_insert_eq|].
  rewrite (intents_for_app _ st st' _ Hob), treasury_intents_params.
  apply plan_of_ok in Hp as [_ _ ->]. by rewrite filter_intent_of, decide_True.
Qed.

Lemma settlement_failure_plan env dp q r t p :
  tr_Status t = Settling -> ir_Success r = false ->
  plan_of env dp q (OSettlementResult r) t = Ok (Some p) -> pl_status p = Failed.
Proof.
  intros Hs Hr. simpl. unfold HandleSettlementResult_plan, settlementFailure_plan.
  rewrite bool_decide_true, Hr by done. simpl.
  destruct (wrap _ _) as [tenant|]; [|done]. rewrite planStep_known by reflexivity.
  by intros [= <-].
Qed.

Lemma refund_plan env dp q t p :
  plan_of env dp q ORefund t = Ok (Some p) -> pl_status p = Refunding.
Proof.
  simpl. unfold InitiateRefund_plan. destruct (_ && _); [done|]. destruct (negb _); [done|].
  destruct (refundLines dp t); [|done]. rewrite planStep_known by reflexivity.
  by intros [= <-].
Qed.

(** A settlement that fails and is then refunded asks the treasury to
    release the reservation twice: once on the failure, once on the refund,
    each for the full amount. *)
Theorem settlement_refund_releases_twice env env' dp dp' tn r id st st1 st2 t :
  store_inv st -> transfers st !! id = Some t -> tr_Status t = Settling ->
  ir_Success r = false ->
  handle env dp (OSettlementResult r) tn id st = (Ok tt, st1) ->
  handle env' dp' ORefund tn id st1 = (Ok tt, st2) ->
  intents_for id st2 = (intents_for id st ++ [intent_of t TRelease; intent_of t TRelease])%list.
Proof.
  intros Hinv Hrow Hs Hr H1 H2.
  destruct (handle_write _ _ _ _ _ _ _ _ Hinv Hrow H1) as (p & now & Hp & Hinv1 & Hrow1 & Hi1).
  { simpl. unfold HandleSettlementResult_plan. rewrite bool_decide_true, Hr by done. simpl.
    by destruct (settlementFailure_plan _ _ _ _). }
  destruct (handle_write _ _ _ _ _ _ _ _ Hinv1 Hrow1 H2) as (p' & now' & Hp' & _ & _ & Hi2).
  { simpl. by destruct (InitiateRefund_plan _ _ _). }
  rewrite Hi2, Hi1, (refund_plan _ _ _ _ _ Hp'), (settlement_failure_plan _ _ _ _ _ _ Hs Hr Hp).
  by rewrite <- app_assoc.
Qed.

(** Failing a transfer that was never funded asks the treasury to
    release an amount that was never reserved for it. *)
Theorem fail_created_releases_unreserved env dp tn reason code id st st' t :
  store_inv st -> transfers st !! id = Some t -> tr_Status t = Created ->
  intents_for id st = [] ->
  handle env dp (OFail reason code) tn id st = (Ok tt, st') ->
  intents_for id st' = [intent_of t TRelease].
Proof.
  intros Hinv Hrow Hs Hi H.
  assert (plan_of env dp (loadQuote t st) (OFail reason code) t =
    Ok (Some {| pl_status := Failed; pl_entries := imap (mkEntry env t)
      [(true, IntentTreasuryRelease, releasePayload t "transfer_failed");
       (true, IntentWebhookDeliver, webhookPayload t EventTransferFailed [reason; code]);
       eventItem t EventTransferFailed] |})) as Hplan.
  { simpl. unfold FailTransfer_plan, CanTransitionTo. rewrite Hs. simpl.
    by rewrite planStep_known. }
  destruct (handle_write _ _ _ _ _ _ _ _ Hinv Hrow H) as (p & now & Hp & _ & _ & ->).
  { by rewrite Hplan. }
  rewrite Hplan in Hp. simplify_eq. by rewrite Hi.
Qed.

(** A replayed off-ramp result is not skipped: once the transfer has
    completed, delivering the result again is an error (and writes nothing),
    unlike the on-ramp and settlement results. *)
Theorem offramp_replay_is_error env dp tn id r st t :
  ts_GetTransfer tn id st = Ok t -> tr_Status t = Completed ->
  handle env dp (OOffRampResult r) tn id st = (Err (DomainErr CodeInvalidTransition), st).
Proof.
  intros Hg Hs. simpl. unfold HandleOffRampResult, loadTransfer. rewrite Hg. simpl.
  rewrite Hs. reflexivity.
Qed.
End Consequences.
