(* ===== verification/EnginePipeline.v ===== *)
(** * core: the pipeline from creation to completion

    [ProcessTransfer] reaches the end when nothing goes wrong: with the
    database up, the tenant on record and sound fees, the five steps succeed
    one after the other and the transfer is COMPLETED. *)

From Stdlib Require Import Ascii QArith Lqa.
From S2P Require Import Prelude ThirdParty Money Deposits Transfer Outbox LedgerEntries TransferStore Engine EngineFacts EngineProps.
Local Open Scope string_scope.
Local Open Scope Z_scope.

#[local] Opaque planStep.

Section Progress.
Context {L : ThirdParty} {LL : ThirdPartyLaws L} {St : Type} `{TS : !TransferStore St}
  {TSL : TransferStoreLaws St}.

(** The ids a step may draw for its entries. *)
Definition ids_of (env : EEnv) : list UUID := map (ee_newv7 env) [0; 1; 2; 3]%nat.

Lemma mkEntries_ids env t items : (length items <= 4)%nat ->
  map oe_ID (imap (mkEntry env t) items) = take (length items) (ids_of env).
Proof.
  intros H. destruct items as [|[[? ?] ?] [|[[? ?] ?] [|[[? ?] ?] [|[[? ?] ?] [|? ?]]]]];
    simpl in *; try done. lia.
Qed.

(** The handler writes the plan it made when the write can go through. *)
Lemma handle_commit env dp op tn id st t p :
  ts_GetTransfer tn id st = Ok t -> plan_of env dp (loadQuote t st) op t = Ok (Some p) ->
  exists step, handle env dp op tn id st = commit step t p st.
Proof.
  intros Hg Hp.
  destruct op; simpl in *;
    unfold FundTransfer, InitiateOnRamp, HandleOnRampResult, HandleSettlementResult,
      HandleOffRampResult, CompleteTransfer, FailTransfer, InitiateRefund, HandleRefundResult,
      loadTransferForStep, loadTransfer; rewrite Hg; simpl;
    try (case_bool_decide; [simpl|done]); try (rewrite Hp; simpl; by eexists).
  destruct (ir_Success r); simpl; rewrite Hp; by eexists.
Qed.

Lemma handle_progress env dp op tn id st t p :
  available_store st -> transfers st !! id = Some t -> tr_ID t = id -> tr_TenantID t = tn ->
  plan_of env dp (loadQuote t st) op t = Ok (Some p) ->
  NoDup (map oe_ID (outbox st) ++ ids_of env)%list ->
  exists st' now n, handle env dp op tn id st = (Ok tt, st') /\ available_store st'
    /\ transfers st' !! id = Some (transitioned now t (pl_status p))
    /\ map oe_ID (outbox st') = (map oe_ID (outbox st) ++ take n (ids_of env))%list.
Proof.
  intros Hav Hrow Hid Htn Hp Hnd.
  pose proof (get_available _ _ _ _ Hav Hrow Htn) as Hg.
  destruct (handle_commit _ _ _ _ _ _ _ _ Hg Hp) as [step ->].
  apply plan_of_ok in Hp as [_ (items & _ & Hlen & Hes) _].
  destruct (transition_available id (pl_status p) (tr_Version t) (pl_entries p) st t)
    as (st' & Ht & Hav'); [done|done|done| |].
  { apply (NoDup_fmap_1 fst). rewrite <- list_fmap_compose.
    change (NoDup (map oe_ID (outbox st ++ pl_entries p)%list)). rewrite map_app, Hes, mkEntries_ids by done.
    eapply sublist_NoDup; [exact Hnd|]. apply sublist_app; [done|apply sublist_take]. }
  destruct (transition_ok _ _ _ _ _ _ Ht) as (t1 & now & Hrow1 & _ & Hts & Hob & _).
  rewrite Hrow in Hrow1. simplify_eq. exists st', now, (length items).
  unfold commit. rewrite Ht. split_and!; [done|done|by rewrite Hts, lookup_insert_eq|].
  rewrite Hob, map_app, map_map, <- mkEntries_ids with (t := t1) by done. by rewrite Hes.
Qed.

(** The plans of the happy path exist. *)
Lemma fund_plan env dp q t : tr_Status t = Created ->
  exists p, plan_of env dp q OFund t = Ok (Some p) /\ pl_status p = Funded.
Proof.
  intros Hs. simpl. rewrite bool_decide_true by done. unfold FundTransfer_plan.
  rewrite planStep_known by reflexivity. by eexists.
Qed.

Lemma onramp_plan env dp q t : tr_Status t = Funded ->
  exists p, plan_of env dp q OOnRamp t = Ok (Some p) /\ pl_status p = OnRamping.
Proof.
  intros Hs. simpl. rewrite bool_decide_true by done. unfold InitiateOnRamp_plan.
  rewrite planStep_known by reflexivity. by eexists.
Qed.

Lemma onramp_result_plan env dp q t tenant h : tr_Status t = OnRamping ->
  dp_GetTenant dp (tr_TenantID t) = Ok tenant ->
  IsPositive (dSub (tr_SourceAmount t) (OnRampFee (tr_Fees t))) = true ->
  exists p, plan_of env dp q (OOnRampResult (success h)) t = Ok (Some p)
    /\ pl_status p = Settling.
Proof.
  intros Hs Ht Hn. simpl. unfold HandleOnRampResult_plan, onRampSuccess_plan.
  rewrite bool_decide_true by done. simpl. rewrite Ht. simpl. rewrite Hn.
  rewrite planStep_known by reflexivity. by eexists.
Qed.

Lemma settlement_result_plan env dp q t h : tr_Status t = Settling ->
  exists p, plan_of env dp q (OSettlementResult (success h)) t = Ok (Some p)
    /\ pl_status p = OffRamping.
Proof.
  intros Hs. simpl. unfold HandleSettlementResult_plan, settlementSuccess_plan.
  rewrite bool_decide_true by done. simpl.
  rewrite planStep_known by reflexivity. by eexists.
Qed.

Lemma offramp_result_plan env dp q t tenant h : tr_Status t = OffRamping ->
  dp_GetTenant dp (tr_TenantID t) = Ok tenant ->
  NoDup (map (ee_newv7 env) [100; 101; 102]%nat) ->
  IsPositive (TotalFeeUSD (tr_Fees t)) = true ->
  IsPositive (dSub (tr_SourceAmount t) (TotalFeeUSD (tr_Fees t))) = true ->
  exists p, plan_of env dp q (OOffRampResult (success h)) t = Ok (Some p)
    /\ pl_status p = Completed.
Proof.
  intros Hs Ht Hnd Hf Hn. simpl. rewrite bool_decide_true by done. unfold CompleteTransfer_plan.
  rewrite Ht. simpl. rewrite Hn, completionLines_ok by done. simpl.
  rewrite planStep_known by reflexivity. by eexists.
Qed.

(** Fresh ids for the steps still to come. *)
Definition fresh_ids (envs : list EEnv) (st : St) : Prop :=
  NoDup (map oe_ID (outbox st) ++ (envs ≫= ids_of))%list.

Lemma fresh_ids_next env envs st st' n :
  fresh_ids (env :: envs) st ->
  map oe_ID (outbox st') = (map oe_ID (outbox st) ++ take n (ids_of env))%list ->
  NoDup (map oe_ID (outbox st) ++ ids_of env)%list /\ fresh_ids envs st'.
Proof.
  unfold fresh_ids. rewrite bind_cons. intros Hnd Hob. split.
  - eapply sublist_NoDup; [exact Hnd|]. apply sublist_app; [done|by apply sublist_inserts_r].
  - rewrite Hob, <- app_assoc. eapply sublist_NoDup; [exact Hnd|].
    apply sublist_app; [done|]. apply sublist_app; [apply sublist_take|done].
Qed.

Lemma fresh_ids_now env envs st :
  fresh_ids (env :: envs) st -> NoDup (map oe_ID (outbox st) ++ ids_of env)%list.
Proof. intros H. by apply (fresh_ids_next env envs st st 0 H); rewrite take_0, app_nil_r. Qed.

(** One step of the pipeline. *)
Lemma pipeline_step env envs dp op id tn st t s :
  fresh_ids (env :: envs) st -> available_store st -> transfers st !! id = Some t -> tr_ID t = id -> tr_TenantID t = tn ->
  (exists p, plan_of env dp (loadQuote t st) op t = Ok (Some p) /\ pl_status p = s) ->
  exists st' now, handle env dp op tn id st = (Ok tt, st') /\ available_store st'
    /\ transfers st' !! id = Some (transitioned now t s) /\ fresh_ids envs st'.
Proof.
  intros Hfr Hav Hrow Hid Htn (p & Hp & <-).
  destruct (handle_progress env dp op tn id st t p) as (st' & now & n & Hh & Hav' & Hrow' & Hob);
    [done..|by eapply fresh_ids_now|].
  exists st', now. split_and!; try done. by apply (fresh_ids_next env envs st st' n).
Qed.

(** The pipeline completes: when the database answers, the tenant can
    be loaded, fees are positive and leave a positive net amount, and the ids
    drawn are fresh, [ProcessTransfer] succeeds on a CREATED transfer and
    leaves it COMPLETED, five versions on. *)
Theorem ProcessTransfer_completes env dp id st t tenant :
  available_store st -> transfers st !! id = Some t -> tr_ID t = id ->
  tr_Status t = Created -> dp_GetTenant dp (tr_TenantID t) = Ok tenant ->
  IsPositive (TotalFeeUSD (tr_Fees t)) = true ->
  IsPositive (dSub (tr_SourceAmount t) (TotalFeeUSD (tr_Fees t))) = true ->
  IsPositive (dSub (tr_SourceAmount t) (OnRampFee (tr_Fees t))) = true ->
  NoDup (map (ee_newv7 (env 4%nat)) [100; 101; 102]%nat) ->
  fresh_ids [env 0%nat; env 1%nat; env 2%nat; env 3%nat; env 4%nat] st ->
  exists st' t', ProcessTransfer env dp (tr_TenantID t) id st = (Ok tt, st')
    /\ transfers st' !! id = Some t' /\ tr_Status t' = Completed
    /\ tr_Version t' = tr_Version t + 5.
Proof.
  intros Hav Hrow Hid Hs Hten Hf Hn1 Hn2 Hnd Hfr.
  destruct (pipeline_step _ _ dp OFund id (tr_TenantID t) st t Funded Hfr)
    as (st1 & n1 & H1 & Hav1 & Hr1 & Hf1); [done..|by apply fund_plan|].
  destruct (pipeline_step _ _ dp OOnRamp id (tr_TenantID t) st1 _ OnRamping Hf1 Hav1 Hr1)
    as (st2 & n2 & H2 & Hav2 & Hr2 & Hf2); [done..|by apply onramp_plan|].
  destruct (pipeline_step _ _ dp (OOnRampResult (success "")) id (tr_TenantID t) st2 _
    Settling Hf2 Hav2 Hr2) as (st3 & n3 & H3 & Hav3 & Hr3 & Hf3);
    [done..|by eapply onramp_result_plan|].
  destruct (pipeline_step _ _ dp (OSettlementResult (success "0xdemo")) id
    (tr_TenantID t) st3 _ OffRamping Hf3 Hav3 Hr3) as (st4 & n4 & H4 & Hav4 & Hr4 & Hf4);
    [done..|by apply settlement_result_plan|].
  destruct (pipeline_step _ _ dp (OOffRampResult (success "")) id (tr_TenantID t) st4 _
    Completed Hf4 Hav4 Hr4) as (st5 & n5 & H5 & Hav5 & Hr5 & _);
    [done..|by eapply offramp_result_plan|].
  exists st5. eexists. simpl in H1, H2, H3, H4, H5. unfold ProcessTransfer.
  rewrite H1, H2, H3, H4, H5. split_and!; [done|exact Hr5|done|]. simpl. lia.
Qed.
End Progress.
