(* ===== verification/EngineCreate.v ===== *)
(** * core: what CreateTransfer lets through

    Every transfer that [CreateTransfer] stores has passed all its checks,
    an error stores no transfer and no entry while the database's answers
    arrive, and over the Postgres adapter a
    repeated request with the same idempotency key returns the stored transfer
    and changes nothing. *)

From Stdlib Require Import Ascii QArith Lqa.
From S2P Require Import Prelude ThirdParty Money Deposits Transfer Outbox LedgerEntries TransferStore Engine.
Local Open Scope string_scope.
Local Open Scope Z_scope.

Section Accepted.
Context {L : ThirdParty} {LL : ThirdPartyLaws L}.
Local Open Scope Q_scope.

(** Who may send and receive: an email has an at sign, an account number has
    4 to 34 letters, digits and dashes and comes with its bank. *)
Record parties_ok (sender : Sender) (recipient : Recipient) : Prop := {
  pt_sender : snd_Name sender <> "" /\ (snd_Email sender = "" \/ contains_at (snd_Email sender) = true);
  pt_recipient : rcp_Name recipient <> "" /\ rcp_Country recipient <> "";
  pt_account : rcp_AccountNumber recipient = ""
    \/ ((4 <= String.length (rcp_AccountNumber recipient) <= 34)%nat
        /\ string_forallb account_char (rcp_AccountNumber recipient) = true /\ rcp_BankName recipient <> "");
}.

(** A quote the engine takes for a request: its currencies, positive amounts,
    and a route over a supported chain with providers on record. *)
Record quote_ok (dp : Deps) (req : CreateTransferRequest) (q : Quote) : Prop := {
  qo_currencies : q_SourceCurrency q = cr_SourceCurrency req /\ q_DestCurrency q = cr_DestCurrency req;
  qo_amounts : 0 < dVal (q_DestAmount q) /\ 0 < dVal (q_StableAmount q);
  qo_route : ri_OnRampProvider (q_Route q) <> "" /\ ri_OffRampProvider (q_Route q) <> "" /\ ri_StableCoin (q_Route q) <> "";
  qo_chain : ri_Chain (q_Route q) ∈ SupportedChains;
  qo_registered : match dp_registry dp with
    | Some reg => pr_GetOnRamp reg (ri_OnRampProvider (q_Route q)) = true
                  /\ pr_GetOffRamp reg (ri_OffRampProvider (q_Route q)) = true
    | None => True end;
}.

(** Fees that are not negative, add up, are positive in total and stay below
    the source amount. *)
Record fees_ok (t : Transfer) : Prop := {
  fo_parts : 0 <= dVal (OnRampFee (tr_Fees t)) /\ 0 <= dVal (NetworkFee (tr_Fees t)) /\ 0 <= dVal (OffRampFee (tr_Fees t));
  fo_sum : dVal (TotalFeeUSD (tr_Fees t))
    == dVal (OnRampFee (tr_Fees t)) + dVal (NetworkFee (tr_Fees t)) + dVal (OffRampFee (tr_Fees t));
  fo_range : 0 < dVal (TotalFeeUSD (tr_Fees t)) /\ dVal (TotalFeeUSD (tr_Fees t)) < dVal (tr_SourceAmount t);
}.

Lemma eqb_nonempty (s : string) : String.eqb s "" = false -> s <> "".
Proof. by intros H%String.eqb_neq. Qed.

Lemma validateRecipient_ok r : validateRecipient r = Ok tt ->
  (rcp_Name r <> "" /\ rcp_Country r <> "") /\ (rcp_AccountNumber r = ""
    \/ ((4 <= String.length (rcp_AccountNumber r) <= 34)%nat
        /\ string_forallb account_char (rcp_AccountNumber r) = true /\ rcp_BankName r <> "")).
Proof.
  unfold validateRecipient. destruct (String.eqb_spec (rcp_Name r) ""); [done|].
  destruct (String.eqb_spec (rcp_Country r) ""); [done|]. intros H. cbn [negb orb] in H. split; [done|].
  destruct (String.eqb_spec (rcp_AccountNumber r) ""); [by left|right]. cbn [orb] in H.
  destruct (Nat.leb_spec 4 (String.length (rcp_AccountNumber r))); [|done].
  destruct (Nat.leb_spec (String.length (rcp_AccountNumber r)) 34); [|done]. cbn [andb] in H.
  destruct (string_forallb account_char (rcp_AccountNumber r)); [|done].
  destruct (String.eqb_spec (rcp_BankName r) ""); [done|]. split_and!; done.
Qed.

Lemma validateRequest_ok req : validateRequest req = Ok tt ->
  0 < dVal (cr_SourceAmount req)
  /\ (cr_SourceCurrency req ∈ SupportedCurrencies /\ cr_DestCurrency req ∈ SupportedCurrencies)
  /\ parties_ok (cr_Sender req) (cr_Recipient req).
Proof.
  unfold validateRequest, ValidateCurrency, Sender_Validate. intros H.
  destruct (IsPositiveP (cr_SourceAmount req)); [|done].
  do 2 (case_bool_decide; [|done]). cbn [wrap] in H.
  destruct (String.eqb_spec (snd_Name (cr_Sender req)) ""); [done|].
  destruct (negb (String.eqb (snd_Email (cr_Sender req)) "") && negb (contains_at (snd_Email (cr_Sender req)))) eqn:He; [done|].
  apply validateRecipient_ok in H as [Hr Ha]. split_and!; try done. split; [|done|done]. split; [done|].
  destruct (String.eqb_spec (snd_Email (cr_Sender req)) ""); [by left|right].
  cbn [negb andb] in He. by destruct (contains_at _).
Qed.

Lemma validateQuote_ok dp req q : validateQuote dp req q = Ok tt -> quote_ok dp req q.
Proof.
  unfold validateQuote, Quote_Validate, ValidateChain. intros H.
  destruct (String.eqb_spec (q_SourceCurrency q) (cr_SourceCurrency req)); [|done].
  destruct (String.eqb_spec (q_DestCurrency q) (cr_DestCurrency req)); [|done].
  destruct (IsPositiveP (q_DestAmount q)); [|done].
  destruct (IsPositiveP (q_StableAmount q)); [|done]. cbn [negb] in H.
  do 4 (let E := fresh "E" in destruct (String.eqb _ "") eqn:E; [done|apply eqb_nonempty in E]). cbn [wrap] in H.
  destruct (match dp_registry dp with Some _ => _ | None => _ end) eqn:Er; [|done].
  case_bool_decide; [|done]. split; try done.
  destruct (dp_registry dp); [|done]. by apply andb_true_iff in Er.
Qed.

Lemma checkPerTransfer_ok tenant q : checkPerTransfer tenant q = Ok tt ->
  dVal (tn_PerTransferLimit tenant) == 0
  \/ dVal (q_StableAmount q) <= dVal (tn_PerTransferLimit tenant).
Proof.
  unfold checkPerTransfer. intros H.
  destruct (IsZeroP (tn_PerTransferLimit tenant)); [by left|].
  destruct (GreaterThanP (q_StableAmount q) (tn_PerTransferLimit tenant)); [done|]. right. lra.
Qed.

Lemma validateFees_ok t : validateFees t = Ok tt -> fees_ok t.
Proof.
  unfold validateFees, FeeBreakdown_Validate. intros H.
  destruct (IsNegativeP (OnRampFee (tr_Fees t))) as [|H1]; [done|].
  destruct (IsNegativeP (NetworkFee (tr_Fees t))) as [|H2]; [done|].
  destruct (IsNegativeP (OffRampFee (tr_Fees t))) as [|H3]; [done|].
  destruct (dEqualP (TotalFeeUSD (tr_Fees t)) (dAdd (dAdd (OnRampFee (tr_Fees t))
    (NetworkFee (tr_Fees t))) (OffRampFee (tr_Fees t)))) as [He|]; [|done].
  rewrite !dAdd_val in He. simpl in H.
  destruct (GreaterThanOrEqualP (TotalFeeUSD (tr_Fees t)) (tr_SourceAmount t)); [done|].
  destruct (IsZeroP (TotalFeeUSD (tr_Fees t))) as [|Hz]; [done|].
  apply Qnot_lt_le in H1, H2, H3. split; [done|done|]. split; [|lra].
  destruct (Qlt_le_dec 0 (dVal (TotalFeeUSD (tr_Fees t)))); [done|].
  exfalso. apply Hz. lra.
Qed.
End Accepted.

Section Creation.
Context {L : ThirdParty} {LL : ThirdPartyLaws L} {St C : Type}
  `{TS : !TransferStore St} {TSL : TransferStoreLaws St} `{VC : !DailyVolumeCounter C}.
Implicit Types e : Engine St C.

Lemma getDailyVolume_store now now' tn d e r e' :
  getDailyVolume now now' tn d e = (r, e') -> en_store e' = en_store e.
Proof. unfold getDailyVolume. intros H. repeat case_match; by simplify_eq/=. Qed.

Lemma checkDaily_store env tenant tn q e r e' :
  checkDaily env tenant tn q e = (r, e') -> en_store e' = en_store e.
Proof.
  unfold checkDaily. case_match; [by intros [= <- <-]|].
  destruct (getDailyVolume _ _ _ _ e) as [[v|err] e1] eqn:E; intros [= <- <-];
    by apply getDailyVolume_store in E.
Qed.

Lemma incrDailyVolume_store tn d a e : en_store (incrDailyVolume tn d a e) = en_store e.
Proof. unfold incrDailyVolume. by repeat case_match. Qed.

Lemma resolveQuote_frame dp now tn req st r st' :
  resolveQuote dp now tn req st = (r, st') ->
  transfers st' = transfers st /\ outbox st' = outbox st /\ (store_inv st -> store_inv st')
  /\ (acknowledged st -> acknowledged st').
Proof.
  unfold resolveQuote. destruct (cr_QuoteID req); [by intros [= <- <-]|].
  destruct (wrap _ _); [|by intros [= <- <-]].
  destruct (ts_CreateQuote _ st) as [[q|err] st1] eqn:E; intros [= <- <-];
    by eapply create_quote_frame.
Qed.

(** The quote named by the request, of the tenant and not expired, or the
    router's, on record. *)
Definition quote_resolved (env : EEnv) (dp : Deps) (tn : UUID) (req : CreateTransferRequest) (st st1 : St) (q : Quote) : Prop :=
  match cr_QuoteID req with
  | Some qid => st1 = st /\ ts_GetQuote tn qid st = Ok q /\ q_TenantID q = tn /\ ee_now env 0 <= q_ExpiresAt q
  | None => exists q0, dp_GetQuote dp tn
        {| qr_SourceCurrency := cr_SourceCurrency req; qr_SourceAmount := cr_SourceAmount req;
           qr_DestCurrency := cr_DestCurrency req; qr_DestCountry := rcp_Country (cr_Recipient req) |} = Ok q0
      /\ ts_CreateQuote q0 st = (Ok q, st1)
  end.

Lemma resolveQuote_ok env dp tn req st q st1 :
  resolveQuote dp (ee_now env 0) tn req st = (Ok q, st1) -> quote_resolved env dp tn req st st1 q.
Proof.
  unfold resolveQuote, quote_resolved. destruct (cr_QuoteID req) as [qid|].
  - destruct (ts_GetQuote tn qid st) as [q0|]; [|done]. cbn [wrap]. case_bool_decide; [|done].
    unfold IsExpired. destruct (Z.ltb_spec (q_ExpiresAt q0) (ee_now env 0)); [done|]. by intros [= <- <-].
  - destruct (dp_GetQuote _ _ _) as [q0|]; [|done]. cbn [wrap].
    destruct (ts_CreateQuote q0 st) as [[q1|] st2] eqn:E; [|done]. intros [= <- <-]. by exists q0.
Qed.

(** Fewer transfers pending than the tenant may have. *)
Definition pending_ok (tenant : Tenant) (tn : UUID) (st : St) : Prop :=
  tn_MaxPendingTransfers tenant <= 0
  \/ exists n, ts_CountPendingTransfers tn st = Ok n /\ n < tn_MaxPendingTransfers tenant.

Lemma checkPending_ok tenant tn st : checkPending tenant tn st = Ok tt -> pending_ok tenant tn st.
Proof.
  unfold checkPending, pending_ok. destruct (Z.ltb_spec 0 (tn_MaxPendingTransfers tenant)); [|by left].
  destruct (ts_CountPendingTransfers tn st) as [n|]; [|done]. cbn [wrap].
  destruct (Z.ltb_spec n (tn_MaxPendingTransfers tenant)); [|done]. intros _. right. by exists n.
Qed.

(** The volume of the day, as the engine reads it, has room for the quote. *)
Definition daily_ok (env : EEnv) (tenant : Tenant) (tn : UUID) (q : Quote) e : Prop :=
  (dVal (tn_DailyLimitUSD tenant) == 0)%Q
  \/ exists v, (getDailyVolume (ee_now env 2) (ee_now env 3) tn (today (ee_now env 1)) e).1 = Ok v
       /\ (dVal v + dVal (q_StableAmount q) <= dVal (tn_DailyLimitUSD tenant))%Q.

Lemma checkDaily_ok env tenant tn q e e1 : checkDaily env tenant tn q e = (Ok tt, e1) -> daily_ok env tenant tn q e.
Proof.
  unfold checkDaily, daily_ok. destruct (IsZeroP (tn_DailyLimitUSD tenant)); [by left|].
  destruct (getDailyVolume _ _ _ _ e) as [[v|] e2]; [|done]. intros [= H _]. right. exists v. split; [done|].
  destruct (GreaterThanP (dAdd v (q_StableAmount q)) (tn_DailyLimitUSD tenant)) as [|Hn]; [done|].
  rewrite dAdd_val in Hn. lra.
Qed.

(** What holds of a transfer the engine has accepted for a tenant: the
    request's figures and those of the quote it resolved, and every check of
    the function.  [e1] is the engine when the daily volume is read. *)
Record accepted (env : EEnv) (dp : Deps) (tenant : Tenant) (tn : UUID) (req : CreateTransferRequest) (q : Quote) e e1
    (t : Transfer) : Prop := {
  ac_request : tr_TenantID t = tn /\ tr_Status t = Created /\ tr_SourceCurrency t = cr_SourceCurrency req
    /\ tr_SourceAmount t = cr_SourceAmount req /\ tr_DestCurrency t = cr_DestCurrency req
    /\ tr_IdempotencyKey t = cr_IdempotencyKey req /\ tr_ExternalRef t = cr_ExternalRef req
    /\ tr_Sender t = cr_Sender req /\ tr_Recipient t = cr_Recipient req;
  ac_figures : tr_DestAmount t = q_DestAmount q /\ tr_StableAmount t = q_StableAmount q
    /\ tr_StableCoin t = ri_StableCoin (q_Route q) /\ tr_Chain t = ri_Chain (q_Route q)
    /\ tr_FXRate t = q_FXRate q /\ tr_Fees t = q_Fees q
    /\ tr_OnRampProviderID t = ri_OnRampProvider (q_Route q) /\ tr_OffRampProviderID t = ri_OffRampProvider (q_Route q)
    /\ tr_QuoteID t = Some (default (q_ID q) (cr_QuoteID req));
  ac_tenant : dp_GetTenant dp tn = Ok tenant /\ Tenant_IsActive tenant = true;
  ac_amount : (0 < dVal (tr_SourceAmount t))%Q;
  ac_currencies : tr_SourceCurrency t ∈ SupportedCurrencies /\ tr_DestCurrency t ∈ SupportedCurrencies;
  ac_parties : parties_ok (tr_Sender t) (tr_Recipient t);
  ac_pending : pending_ok tenant tn (en_store e);
  ac_resolved : quote_resolved env dp tn req (en_store e) (en_store e1) q;
  ac_quote : quote_ok dp req q;
  ac_limit : (dVal (tn_PerTransferLimit tenant) == 0 \/ dVal (tr_StableAmount t) <= dVal (tn_PerTransferLimit tenant))%Q;
  ac_daily : daily_ok env tenant tn q e1;
  ac_fees : fees_ok t;
}.

(** What the tail of the function has checked and done. *)
Lemma createFromQuote_ok env dp tenant tn req q e t e' :
  createFromQuote env dp tenant tn req q e = (Ok t, e') ->
  validateQuote dp req q = Ok tt /\ checkPerTransfer tenant q = Ok tt
  /\ (exists e1, checkDaily env tenant tn q e = (Ok tt, e1))
  /\ exists t0 entries st', t0 = newTransfer env tenant tn req q (default (q_ID q) (cr_QuoteID req))
    /\ validateFees t0 = Ok tt
    /\ map oe_EventType entries = [EventTransferCreated]
    /\ ts_CreateTransferWithOutbox t0 entries (en_store e) = (Ok t, st')
    /\ en_store e' = st'.
Proof.
  unfold createFromQuote. intros H.
  destruct (validateQuote dp req q) as [[]|]; [|done].
  destruct (checkPerTransfer tenant q) as [[]|]; [|done].
  destruct (checkDaily env tenant tn q e) as [[[]|] e1] eqn:Hd; [|done].
  pose proof (checkDaily_store _ _ _ _ _ _ _ Hd) as Hst.
  destruct (validateFees _) as [[]|] eqn:Hv; [|done].
  destruct (persistNew _ _ _) as [[t1|] st1] eqn:Hp; [|done].
  assert (en_store e' = st1 /\ t1 = t) as [He ->].
  { case_match; simplify_eq; [done|]. by rewrite incrDailyVolume_store. }
  split_and!; [done|done|by eexists|]. eexists _, _, st1. split_and!; [done|done| | |done].
  2:{ unfold persistNew in Hp. rewrite Hst in Hp. simpl in Hp.
      destruct (ts_CreateTransferWithOutbox _ _ _) as [[t2|] st2] eqn:Hc; [|done].
      simplify_eq. exact Hc. }
  done.
Qed.

Lemma createFromQuote_err env dp tenant tn req q e err e' :
  acknowledged (en_store e) ->
  createFromQuote env dp tenant tn req q e = (Err err, e') -> en_store e' = en_store e.
Proof.
  unfold createFromQuote. intros Hack H.
  destruct (match validateQuote _ _ _ with Ok _ => _ | Err _ => _ end) as [[]|]; [|by simplify_eq].
  destruct (checkDaily env tenant tn q e) as [[[]|] e1] eqn:Hd;
    pose proof (checkDaily_store _ _ _ _ _ _ _ Hd) as Hst; [|by simplify_eq].
  destruct (validateFees _) as [[]|] eqn:Hv; [|by simplify_eq].
  destruct (persistNew _ _ _) as [[t1|err1] st1] eqn:Hp; [done|]. simplify_eq. simpl.
  unfold persistNew in Hp. case_match; [|by simplify_eq].
  destruct (ts_CreateTransferWithOutbox _ _ _) as [[t2|] st2] eqn:Hc; simplify_eq.
  apply create_err in Hc; [congruence|by rewrite Hst].
Qed.

Lemma CreateTransfer_cases env dp tn req e t e' :
  CreateTransfer env dp tn req e = (Ok t, e') ->
  exists tenant, activeTenant dp tn = Ok tenant /\ validateRequest req = Ok tt /\
  ((e' = e /\ findExisting tn req (en_store e) = Some t)
   \/ exists q st1, findExisting tn req (en_store e) = None
        /\ checkPending tenant tn (en_store e) = Ok tt
        /\ resolveQuote dp (ee_now env 0) tn req (en_store e) = (Ok q, st1)
        /\ createFromQuote env dp tenant tn req q (set_store e st1) = (Ok t, e')).
Proof.
  unfold CreateTransfer. intros H. destruct (activeTenant dp tn) as [tenant|]; [|done].
  exists tenant. destruct (validateRequest req) as [[]|]; [|done]. do 2 (split; [done|]).
  destruct (findExisting tn req (en_store e)) as [x|] eqn:Hf; [simplify_eq; by left|].
  destruct (checkPending _ _ _) as [[]|]; [|done].
  destruct (resolveQuote _ _ _ _ _) as [[q|] st1] eqn:Hq; [|done]. right. by exists q, st1.
Qed.

Lemma activeTenant_ok dp tn tenant : activeTenant dp tn = Ok tenant ->
  dp_GetTenant dp tn = Ok tenant /\ Tenant_IsActive tenant = true.
Proof.
  unfold activeTenant. destruct (dp_GetTenant dp tn) as [x|]; [|done]. simpl.
  destruct (Tenant_IsActive x) eqn:E; by intros [= <-].
Qed.


(** A [CreateTransfer] that returns an error has stored no transfer and
    queued no entry, at whatever step it stopped, as long as the answers of
    the database arrive. *)
Theorem CreateTransfer_error env dp tn req e err e' : acknowledged (en_store e) ->
  CreateTransfer env dp tn req e = (Err err, e') ->
  transfers (en_store e') = transfers (en_store e) /\ outbox (en_store e') = outbox (en_store e).
Proof.
  unfold CreateTransfer. intros Hack H. destruct (activeTenant dp tn) as [tenant|]; [|by simplify_eq].
  destruct (validateRequest req) as [[]|]; [|by simplify_eq].
  destruct (findExisting tn req (en_store e)) as [x|] eqn:Hf; [done|].
  destruct (checkPending _ _ _); [|by simplify_eq].
  destruct (resolveQuote _ _ _ _ _) as [[q|] st1] eqn:Hq;
    destruct (resolveQuote_frame _ _ _ _ _ _ _ Hq) as (Hts & Hob & _ & Ha); [|by simplify_eq].
  apply createFromQuote_err in H; [|by apply Ha]. rewrite H. simpl. by rewrite Hts, Hob.
Qed.
End Creation.

(** ** Over the Postgres adapter *)

Section Idempotent.
Context {L : ThirdParty} {LL : ThirdPartyLaws L} {C : Type} `{VC : !DailyVolumeCounter C}.
Import Adapter.
Implicit Types e : Engine DB C.

Definition matches (tn : UUID) (key : string) (d : DB) (t : Transfer) : bool :=
  bool_decide (tr_TenantID t = tn) && negb (String.eqb key "")
  && String.eqb (tr_IdempotencyKey t) key && (db_clock d - hours 72 <=? tr_CreatedAt t).

(** A unique match is the one the query returns. *)
Lemma selectOne_unique P d id t :
  db_transfers d !! id = Some t -> P t = true ->
  (forall id' t', db_transfers d !! id' = Some t' -> P t' = true -> t' = t) ->
  selectOne P d = Ok t.
Proof.
  intros Ht HP Hu. unfold selectOne.
  assert (t ∈ filter (fun t => P t = true) (snd <$> map_to_list (db_transfers d))) as Hin.
  { apply list_elem_of_filter. split; [done|]. apply list_elem_of_fmap. exists (id, t).
    split; [done|]. by apply elem_of_map_to_list. }
  destruct (filter _ _) as [|t' l] eqn:E; [set_solver|].
  f_equal. assert (t' ∈ filter (fun t => P t = true) (snd <$> map_to_list (db_transfers d))) as Hin'
    by (rewrite E; set_solver).
  apply list_elem_of_filter in Hin' as [HP' Hin'].
  apply list_elem_of_fmap in Hin' as ([id' t''] & -> & Hin'). simpl in *.
  by apply (Hu id'), HP'; apply elem_of_map_to_list in Hin'.
Qed.

Lemma selectOne_none P d err :
  selectOne P d = Err err -> forall id t, db_transfers d !! id = Some t -> P t = false.
Proof.
  unfold selectOne. intros H id t Ht. destruct (P t) eqn:HP; [|done]. exfalso.
  assert (t ∈ filter (fun t => P t = true) (snd <$> map_to_list (db_transfers d))) as Hin.
  { apply list_elem_of_filter. split; [done|]. apply list_elem_of_fmap. exists (id, t).
    split; [done|]. by apply elem_of_map_to_list. }
  destruct (filter _ _); [set_solver|done].
Qed.

Lemma resolveQuote_db dp now tn req d r d' :
  resolveQuote dp now tn req d = (r, d') ->
  db_up d' = db_up d /\ db_clock d' = db_clock d /\ db_transfers d' = db_transfers d.
Proof.
  unfold resolveQuote. destruct (cr_QuoteID req); [by intros [= <- <-]|].
  destruct (wrap _ _); [|by intros [= <- <-]]. simpl. unfold CreateQuote, commitTx.
  intros H. repeat case_match; by simplify_eq.
Qed.

Lemma CreateTransfer_existing env dp tn req e tenant x :
  activeTenant dp tn = Ok tenant -> validateRequest req = Ok tt ->
  findExisting tn req (en_store e) = Some x -> CreateTransfer env dp tn req e = (Ok x, e).
Proof. intros H1 H2 H3. unfold CreateTransfer. by rewrite H1, H2, H3. Qed.

Lemma findExisting_none tn req d id t :
  db_up d = true -> cr_IdempotencyKey req <> "" -> findExisting tn req d = None ->
  db_transfers d !! id = Some t -> matches tn (cr_IdempotencyKey req) d t = false.
Proof.
  intros Hup Hk Hf Ht. unfold findExisting in Hf. destruct (String.eqb_spec (cr_IdempotencyKey req) ""); [done|].
  simpl in Hf. unfold GetTransferByIdempotencyKey in Hf. rewrite Hup in Hf. simpl in Hf.
  destruct (selectOne _ d) as [x|err] eqn:E; [done|]. by apply (selectOne_none _ _ _ E) in Ht.
Qed.

(** The row just inserted is the only match. *)
Lemma findExisting_inserted tn req d d1 id row :
  db_up d1 = true -> cr_IdempotencyKey req <> "" ->
  db_clock d1 = db_clock d -> db_transfers d1 = <[id := row]> (db_transfers d) ->
  (forall id' t', db_transfers d !! id' = Some t' ->
     matches tn (cr_IdempotencyKey req) d t' = false) ->
  tr_TenantID row = tn -> tr_IdempotencyKey row = cr_IdempotencyKey req ->
  tr_CreatedAt row = db_clock d ->
  findExisting tn req d1 = Some row.
Proof.
  intros Hup Hk Hclk Hts Hno Htn Hkey Hcr. unfold findExisting.
  destruct (String.eqb_spec (cr_IdempotencyKey req) "") as [|Hk']; [done|].
  simpl. unfold GetTransferByIdempotencyKey. rewrite Hup. simpl.
  rewrite (selectOne_unique _ d1 id row); [done|by rewrite Hts, lookup_insert_eq| |].
  - rewrite bool_decide_true by done. rewrite Hkey, String.eqb_refl, Hclk, Hcr.
    destruct (String.eqb_spec (cr_IdempotencyKey req) ""); [done|]. simpl.
    apply Z.leb_le. unfold hours. lia.
  - intros id' t' Ht' HP. rewrite Hts, lookup_insert in Ht'. case_decide; [by simplify_eq|].
    apply Hno in Ht'. unfold matches in Ht'. rewrite <- Hclk in Ht'. congruence.
Qed.

(** Creation is idempotent: after a request with an idempotency key has
    succeeded, the same request, however often and with whatever ids and
    times, returns the stored transfer and leaves the engine unchanged. *)
Theorem CreateTransfer_idempotent env env' dp tn req e t e' :
  db_up (en_store e) = true -> cr_IdempotencyKey req <> "" ->
  CreateTransfer env dp tn req e = (Ok t, e') ->
  exists row, CreateTransfer env' dp tn req e' = (Ok row, e') /\ tr_ID row = tr_ID t.
Proof.
  intros Hup Hk H. destruct (CreateTransfer_cases _ _ _ _ _ _ _ H)
    as (tenant & Hten & Hreq & [[-> Hf]|(q & st1 & Hf & _ & Hq & Hc)]).
  { exists t. split; [|done]. by eapply CreateTransfer_existing. }
  destruct (resolveQuote_db _ _ _ _ _ _ _ Hq) as (Hup1 & Hclk1 & Hts1).
  destruct (createFromQuote_ok _ _ _ _ _ _ _ _ _ Hc)
    as (_ & _ & _ & t0 & entries & st' & Ht0 & _ & _ & Hcr & Hst). simpl in Hcr.
  apply CreateTransferWithOutbox_cases in Hcr as [[_ ?]|(id & _ & _ & _ & Ht & Hst')]; [done|].
  specialize (Ht t eq_refl). set (row := transferRow t0 id (db_clock st1)) in *.
  exists row. split; [|by rewrite Ht].
  eapply CreateTransfer_existing; [done|done|]. rewrite Hst, Hst'.
  apply (findExisting_inserted tn req (en_store e) _ id).
  - simpl. congruence.
  - done.
  - done.
  - simpl. by rewrite Hts1.
  - intros id' t' Ht'. by eapply findExisting_none.
  - unfold row. by rewrite Ht0.
  - unfold row. by rewrite Ht0.
  - done.
Qed.
End Idempotent.
