(* ===== verification/EngineWitness.v ===== *)
(** * core: the engine's theorems at a concrete store

    A Lemfi transfer of 1000 GBP over the Postgres adapter, taken through the
    pipeline: the hypotheses of the engine's theorems hold there. *)

From Stdlib Require Import Ascii QArith Lqa.
From S2P Require Import Prelude ThirdParty Money Deposits Transfer Outbox LedgerEntries TransferStore Engine EngineFacts EngineProps EnginePipeline EngineCreate.
Import QInstance Adapter.
Local Open Scope string_scope.
Local Open Scope Z_scope.

Module EngineWitness.

Definition fees : FeeBreakdown :=
  {| OnRampFee := 2 # 1; NetworkFee := 1 # 1; OffRampFee := 1 # 1; TotalFeeUSD := 4 # 1 |}.

Definition alice : Sender :=
  {| snd_ID := "s"%char; snd_Name := "Alice"; snd_Email := "alice@example.com";
     snd_Country := "GB" |}.

Definition bob : Recipient :=
  {| rcp_Name := "Bob"; rcp_AccountNumber := "0123456789"; rcp_SortCode := "";
     rcp_BankName := "GTBank"; rcp_Country := "NG"; rcp_IBAN := "" |}.

Definition transfer (s : TransferStatus) : Transfer :=
  {| tr_ID := "i"%char; tr_TenantID := "t"%char; tr_ExternalRef := "ref"; tr_IdempotencyKey := "k";
     tr_Status := s; tr_Version := 0; tr_SourceCurrency := "GBP"; tr_SourceAmount := 1000 # 1;
     tr_DestCurrency := "NGN"; tr_DestAmount := 2000000 # 1; tr_StableCoin := "USDT";
     tr_StableAmount := 1250 # 1; tr_Chain := "tron"; tr_FXRate := 2000 # 1; tr_Fees := fees;
     tr_FeeScheduleSnapshot := None; tr_OnRampProviderID := "on"; tr_OffRampProviderID := "off";
     tr_Sender := alice; tr_Recipient := bob; tr_QuoteID := None; tr_BlockchainTxs := [];
     tr_CreatedAt := 0; tr_UpdatedAt := 0; tr_FundedAt := None; tr_CompletedAt := None;
     tr_FailedAt := None; tr_FailureReason := ""; tr_FailureCode := "" |}.

Definition schedule : FeeSchedule :=
  {| OnRampBPS := 40; OffRampBPS := 35; MinFeeUSD := 1 # 2; MaxFeeUSD := 500 # 1;
     CryptoCollectionBPS := 30; CryptoCollectionMaxFeeUSD := 250 # 1;
     BankCollectionBPS := 25; BankCollectionMinFeeUSD := 1 # 2;
     BankCollectionMaxFeeUSD := 250 # 1; FeeScheduleVersion := 1;
     FeeScheduleUpdatedAt := 0 |}.

Definition lemfi : Tenant :=
  {| tn_ID := "t"%char; tn_Name := "Lemfi"; tn_Slug := "lemfi"; tn_Status := TenantActive;
     tn_FeeSchedule := schedule; tn_SettlementModel := Prefunded; tn_DailyLimitUSD := 10000 # 1;
     tn_PerTransferLimit := 5000 # 1; tn_MaxPendingTransfers := 10; tn_KYBStatus := KYBVerified;
     tn_CryptoConfig := {| cc_CryptoEnabled := true;
       cc_DefaultSettlementPref := SettlementPreferenceAutoConvert;
       cc_SupportedChains := [ChainTron]; cc_MinConfirmationsTron := 19;
       cc_MinConfirmationsEth := 12; cc_MinConfirmationsBase := 12;
       cc_PaymentToleranceBPS := 0; cc_DefaultSessionTTLSecs := 3600 |};
     tn_BankConfig := {| bk_BankDepositsEnabled := true; bk_DefaultBankingPartner := "bank";
       bk_BankSupportedCurrencies := ["GBP"];
       bk_DefaultMismatchPolicy := PaymentMismatchPolicyReject;
       bk_DefaultSessionTTLSecs := 3600 |} |}.

Definition quote : Quote :=
  {| q_ID := "q"%char; q_TenantID := "t"%char; q_SourceCurrency := "GBP"; q_SourceAmount := 1000 # 1;
     q_DestCurrency := "NGN"; q_DestAmount := 2000000 # 1; q_StableAmount := 1250 # 1;
     q_FXRate := 2000 # 1; q_Fees := fees;
     q_Route := {| ri_Chain := "tron"; ri_StableCoin := "USDT"; ri_EstimatedTimeMin := 5;
                   ri_OnRampProvider := "on"; ri_OffRampProvider := "off"; ri_ExplorerURL := "";
                   ri_AlternativeRoutes := [] |};
     q_ExpiresAt := 1000; q_CreatedAt := 0 |}.

Definition deps : Deps :=
  {| dp_GetTenant _ := Ok lemfi; dp_GetQuote _ _ := Ok quote; dp_registry := None |}.

Definition env (k : nat) : EEnv :=
  {| ee_now _ := 7; ee_newv7 i := ascii_of_nat (10 * k + i) |}.

Definition db (s : TransferStatus) : DB :=
  {| db_up := true; db_clock := 7; db_ids n := Some (ascii_of_nat (200 + n)); db_nextid := 0;
     db_lost _ := false; db_commits := 0;
     db_transfers := {[ "i"%char := transfer s ]}; db_quotes := ∅; db_outbox := [] |}.

Lemma db_ok s : store_inv (db s).
Proof. apply map_Forall_singleton. done. Qed.

Lemma db_row s : transfers (db s) !! "i"%char = Some (transfer s).
Proof. apply lookup_singleton_eq. Qed.

Definition failure : IntentResult :=
  {| ir_Success := false; ir_ProviderRef := ""; ir_TxHash := ""; ir_Error := "reverted";
     ir_ErrorCode := ""; ir_Metadata := ∅ |}.

Abbreviation T := "t"%char.
Abbreviation I' := "i"%char.

(** Reaching the end of the pipeline. *)
Definition completed : DB := (ProcessTransfer env deps T I' (db Created)).2.

Lemma lookup_default {A} (m : gmap ascii A) k d :
  bool_decide (is_Some (m !! k)) = true -> m !! k = Some (default d (m !! k)).
Proof. intros [x Hx]%bool_decide_eq_true. by rewrite Hx. Qed.

Lemma ProcessTransfer_rtc e dp tn id st st' :
  ProcessTransfer (TS := TransferStoreAdapter) e dp tn id st = (Ok tt, st') ->
  rtc sys_step (st, []) (st', []).
Proof.
  unfold ProcessTransfer. intros H.
  destruct (FundTransfer _ _ _ st) as [[[]|] st1] eqn:H1; [|done].
  destruct (InitiateOnRamp _ _ _ st1) as [[[]|] st2] eqn:H2; [|done].
  destruct (HandleOnRampResult _ _ _ _ _ st2) as [[[]|] st3] eqn:H3; [|done].
  destruct (HandleSettlementResult _ _ _ _ _ st3) as [[[]|] st4] eqn:H4; [|done].
  etrans; [eapply (handle_rtc _ dp OFund); exact H1|].
  etrans; [eapply (handle_rtc _ dp OOnRamp); exact H2|].
  etrans; [eapply (handle_rtc _ dp (OOnRampResult _)); exact H3|].
  etrans; [eapply (handle_rtc _ dp (OSettlementResult _)); exact H4|].
  eapply (handle_rtc _ dp (OOffRampResult _)); exact H.
Qed.

Lemma completed_reached : rtc sys_step (db Created, []) (completed, []).
Proof.
  apply (ProcessTransfer_rtc env deps T I' (db Created) completed). unfold completed.
  apply (pair_ok (ProcessTransfer env deps T I' (db Created))). vm_compute. reflexivity.
Qed.

Lemma handle_safe_witness :
  (handle (env 0) deps OFund T I' (db Created)).1 = Ok tt
  /\ moved OFund T I' (db Created) (handle (env 0) deps OFund T I' (db Created)).2.
Proof.
  assert (is_ok (handle (env 0) deps OFund T I' (db Created)).1 = true) as Hok
    by (vm_compute; reflexivity).
  split; [vm_compute; reflexivity|].
  destruct (handle_safe (L := Qlib) (env 0) deps OFund T I' (db Created) (Ok tt) _ (db_ok _)
    (pair_ok _ Hok)) as (_ & H & _). destruct (H eq_refl) as [Hm|(_ & t & _ & [])]. exact Hm.
Defined.

(** The answer to the commit is lost: the caller gets an error, and the
    transfer has moved. *)
Definition dbLost : DB :=
  {| db_up := true; db_clock := 7; db_ids := db_ids (db Created); db_nextid := 0; db_lost _ := true; db_commits := 0;
     db_transfers := db_transfers (db Created); db_quotes := ∅; db_outbox := [] |}.

Example lost_commit :
  let out := handle (env 0) deps OFund T I' dbLost in
  is_ok out.1 = false /\ tr_Status <$> transfers out.2 !! I' = Some Funded /\ length (outbox out.2) = 2%nat.
Proof. vm_compute. split; [reflexivity|]. split; reflexivity. Qed.

Lemma interleaved_history_witness :
  exists t l, transfers completed !! I' = Some t /\ walk Created l /\ (length l <= 7)%nat.
Proof.
  destruct (interleaved_history (L := Qlib) (db Created) completed [] I' (transfer Created) (db_ok _)
    completed_reached (db_row _) eq_refl) as (t & l & H1 & H2 & H3 & _).
  exists t, l. exact (conj H1 (conj H2 H3)).
Defined.

Definition afterFailure : DB := (handle (env 0) deps (OSettlementResult failure) T I' (db Settling)).2.
Definition afterRefund : DB := (handle (env 1) deps ORefund T I' afterFailure).2.

Lemma settlement_refund_releases_twice_witness :
  intents_for I' afterRefund
  = [intent_of (transfer Settling) TRelease; intent_of (transfer Settling) TRelease].
Proof.
  apply (settlement_refund_releases_twice (L := Qlib) (env 0) (env 1) deps deps T failure I' (db Settling)
    afterFailure afterRefund (transfer Settling) (db_ok _) (db_row _) eq_refl eq_refl).
  - unfold afterFailure.
    apply (pair_ok (handle (env 0) deps (OSettlementResult failure) T I' (db Settling))).
    vm_compute. reflexivity.
  - unfold afterRefund. apply (pair_ok (handle (env 1) deps ORefund T I' afterFailure)).
    vm_compute. reflexivity.
Defined.

Definition afterFail : DB := (handle (env 0) deps (OFail "cancelled" "USER") T I' (db Created)).2.

Lemma fail_created_releases_unreserved_witness :
  intents_for I' afterFail = [intent_of (transfer Created) TRelease].
Proof.
  apply (fail_created_releases_unreserved (L := Qlib) (env 0) deps T "cancelled" "USER" I' (db Created)
    afterFail (transfer Created) (db_ok _) (db_row _) eq_refl eq_refl).
  unfold afterFail.
  apply (pair_ok (handle (env 0) deps (OFail "cancelled" "USER") T I' (db Created))).
  vm_compute. reflexivity.
Defined.

Lemma offramp_replay_is_error_witness :
  handle (env 0) deps (OOffRampResult (success "")) T I' (db Completed)
  = (Err (DomainErr CodeInvalidTransition), db Completed).
Proof.
  apply (offramp_replay_is_error (L := Qlib) (env 0) deps T I' (success "") (db Completed)
    (transfer Completed)); reflexivity.
Defined.

Lemma ProcessTransfer_completes_witness :
  exists st' t', ProcessTransfer env deps T I' (db Created) = (Ok tt, st')
    /\ transfers st' !! I' = Some t' /\ tr_Status t' = Completed /\ tr_Version t' = 5.
Proof.
  apply (ProcessTransfer_completes (LL := Qlib_laws) (TSL := AdapterLaws) env deps I' (db Created) (transfer Created)
    lemfi (conj eq_refl (fun _ => eq_refl)) (db_row _) eq_refl eq_refl eq_refl eq_refl eq_refl eq_refl).
  - by apply (bool_decide_eq_true_1 (NoDup _)); vm_compute.
  - by apply (bool_decide_eq_true_1 (NoDup _)); vm_compute.
Defined.

Lemma completionLines_valid_witness :
  validateLedgerLines (ee_newv7 (env 1)) (completionLines "lemfi" (transfer Created)) = Ok tt.
Proof.
  apply (completionLines_valid (LL := Qlib_laws)); [|reflexivity|reflexivity].
  by apply (bool_decide_eq_true_1 (NoDup _)); vm_compute.
Defined.

Lemma onRampLines_never_valid_witness :
  ValidateEntries (toEntryLines (ee_newv7 (env 1)) (onRampLines "lemfi" (transfer Created))) <> Ok tt.
Proof. apply (onRampLines_never_valid (LL := Qlib_laws)). discriminate. Defined.

(** *** Creation *)

(** A counter that is always empty, so that the volume comes from the
    database. *)
#[export] Instance noCounter : DailyVolumeCounter unit := {|
  vc_GetDailyVolume _ _ _ := Ok (0 # 1)%Q;
  vc_IncrDailyVolume _ _ a c := (Ok a, c);
  vc_SeedDailyVolume _ _ _ c := (Ok true, c);
|}.

Definition engine : Engine DB unit :=
  {| en_store := db Created; en_counter := Some tt; en_volumeCache := ∅;
     en_requireCounter := true |}.

Definition request (amount : Q) : CreateTransferRequest :=
  {| cr_ExternalRef := "ref2"; cr_IdempotencyKey := "k2"; cr_SourceCurrency := "GBP";
     cr_SourceAmount := amount; cr_DestCurrency := "NGN"; cr_Sender := alice;
     cr_Recipient := bob; cr_QuoteID := None |}.

Definition created : result Transfer * Engine DB unit :=
  CreateTransfer (env 0) deps T (request (1000 # 1)) engine.

Definition newRow : Transfer := match created.1 with Ok t => t | Err _ => transfer Created end.

Lemma created_ok : created = (Ok newRow, created.2).
Proof.
  assert (is_ok created.1 = true) as H by (vm_compute; reflexivity).
  unfold newRow. destruct created as [[t|] e]; [done|done].
Qed.


Lemma CreateTransfer_error_witness :
  outbox (en_store (CreateTransfer (env 0) deps T (request (-1 # 1)) engine).2)
  = outbox (en_store engine).
Proof.
  apply (CreateTransfer_error (L := Qlib) (TSL := AdapterLaws) (env 0) deps T (request (-1 # 1)) engine (DomainErr CodeAmountTooLow) (CreateTransfer (env 0) deps T (request (-1 # 1)) engine).2 (fun _ => eq_refl)).
  apply (pair_fst (CreateTransfer (env 0) deps T (request (-1 # 1)) engine)). vm_compute. reflexivity.
Defined.

Lemma CreateTransfer_idempotent_witness :
  exists row, CreateTransfer (env 3) deps T (request (1000 # 1)) created.2 = (Ok row, created.2)
    /\ tr_ID row = tr_ID newRow.
Proof.
  apply (CreateTransfer_idempotent (env 0) (env 3) deps T (request (1000 # 1)) engine newRow
    created.2); [reflexivity|discriminate|apply created_ok].
Defined.
End EngineWitness.
