(* ===== verification/TreasuryWorker.v ===== *)
(** * node/worker: the treasury worker

    Models src/node/worker/treasury_worker.go: the consumer of treasury
    intents that calls the position manager and publishes the outcome.  A
    handler that returns an error is redelivered by the message bus.  The
    encoding/json functions behind [unmarshalEventData] and the publisher, an
    interface of the worker, are parameters.  None of the five manager calls
    panics, because each checks the range of the amount first. *)

From Stdlib Require Import Ascii QArith Lqa.
From S2P Require Import Prelude ThirdParty Money Deposits Transfer Outbox Treasury TreasuryFacts TreasuryProps.
Local Open Scope string_scope.
Local Open Scope Z_scope.

Section Worker.
Context {L : ThirdParty} {S : Type} `{TS : !TreasuryStore S}.

(** [domain.Event]; [D] is the type of the data. *)
Record Event (D : Type) := {
  ev_ID : UUID; ev_TenantID : UUID; ev_Type : string; ev_Timestamp : Z; ev_Data : D }.

(** What the worker uses of encoding/json, over texts [J] and the dynamic
    values [V] that decoding into [any] gives: [Marshal] at a payload struct
    and at a dynamic value, [Unmarshal] into [any] and into the five structs. *)
Record Json (J V : Type) := {
  json_Marshal : Payload -> result J;
  json_MarshalAny : V -> result J;
  json_UnmarshalAny : J -> result V;
  json_UnmarshalReserve : J -> result TreasuryReservePayload;
  json_UnmarshalRelease : J -> result TreasuryReleasePayload;
  json_UnmarshalConsume : J -> result TreasuryConsumePayload;
  json_UnmarshalCredit : J -> result PositionCreditPayload;
  json_UnmarshalDebit : J -> result PositionDebitPayload;
}.

(** The dynamic types of [Event.Data] that [unmarshalEventData] tells apart;
    a payload struct or a pointer to one is the struct. *)
Inductive EventData (J V : Type) :=
| DataStruct (p : Payload)
| DataBytes (raw : J)
| DataRawMessage (raw : J)
| DataMap (v : V)
| DataOther (v : V).

(** The data of a result event: the transfer and the error text. *)
Record ResultData := { rd_TransferID : UUID; rd_Error : option error }.

(** The worker's surroundings: the manager it calls, and the bus with what it
    accepted so far.  [bus_Publish] is the publisher. *)
Record Worker (B : Type) := {
  wk_treasury : Manager S;
  wk_bus : B;
}.

(** What one delivery finds: the environment of the manager call, the id and
    instant of the result event. *)
Record WEnv := { we_env : Env; we_id : UUID; we_now : Z }.

Context {J V B : Type} (js : Json J V) (bus_Publish : Event ResultData -> B -> result unit * B).
Implicit Types event : Event (EventData J V).

(** [unmarshalEventData[T]]: [cast] is the type test for [T] and [*T],
    [unmarshal] is [json.Unmarshal] into a [T]. *)
Definition unmarshalEventData {T} (cast : Payload -> option T) (unmarshal : J -> result T)
    (event : Event (EventData J V)) : result T :=
  match ev_Data _ event with
  | DataStruct _ _ p =>
      match cast p with
      | Some data => Ok data
      | None =>
          let? raw := wrap "marshalling unknown payload type" (json_Marshal _ _ js p) in
          wrap "unmarshalling from type" (unmarshal raw)
      end
  | DataBytes _ _ raw => wrap "unmarshalling []byte payload" (unmarshal raw)
  | DataRawMessage _ _ raw => wrap "unmarshalling RawMessage payload" (unmarshal raw)
  | DataMap _ _ data =>
      let? raw := wrap "re-marshalling map payload" (json_MarshalAny _ _ js data) in
      wrap "unmarshalling re-marshalled payload" (unmarshal raw)
  | DataOther _ _ data =>
      let? raw := wrap "marshalling unknown payload type" (json_MarshalAny _ _ js data) in
      wrap "unmarshalling from type" (unmarshal raw)
  end.

Definition unmarshalReserve : Event (EventData J V) -> result TreasuryReservePayload :=
  unmarshalEventData (fun p => match p with PTreasuryReserve x => Some x | _ => None end)
    (json_UnmarshalReserve _ _ js).
Definition unmarshalRelease : Event (EventData J V) -> result TreasuryReleasePayload :=
  unmarshalEventData (fun p => match p with PTreasuryRelease x => Some x | _ => None end)
    (json_UnmarshalRelease _ _ js).
Definition unmarshalConsume : Event (EventData J V) -> result TreasuryConsumePayload :=
  unmarshalEventData (fun p => match p with PTreasuryConsume x => Some x | _ => None end)
    (json_UnmarshalConsume _ _ js).
Definition unmarshalCredit : Event (EventData J V) -> result PositionCreditPayload :=
  unmarshalEventData (fun p => match p with PPositionCredit x => Some x | _ => None end)
    (json_UnmarshalCredit _ _ js).
Definition unmarshalDebit : Event (EventData J V) -> result PositionDebitPayload :=
  unmarshalEventData (fun p => match p with PPositionDebit x => Some x | _ => None end)
    (json_UnmarshalDebit _ _ js).

Definition publishResult (we : WEnv) (transferID tenantID : UUID) (eventType : string)
    (errMsg : option error) (w : Worker B) : result unit * Worker B :=
  let event := {| ev_ID := we_id we; ev_TenantID := tenantID; ev_Type := eventType;
                  ev_Timestamp := we_now we;
                  ev_Data := {| rd_TransferID := transferID; rd_Error := errMsg |} |} in
  let '(r, b) := bus_Publish event (wk_bus _ w) in
  (wrap "publishing result" r, {| wk_treasury := wk_treasury _ w; wk_bus := b |}).

Definition set_treasury (w : Worker B) (m : Manager S) : Worker B :=
  {| wk_treasury := m; wk_bus := wk_bus _ w |}.

(** A payload that cannot be decoded is acknowledged: retrying cannot help. *)
Definition handleReserve (we : WEnv) event (w : Worker B) : result unit * Worker B :=
  match unmarshalReserve event with
  | Err _ => (Ok tt, w)
  | Ok p =>
      let '(r, m) := Reserve (we_env we) (trp_TenantID p) (trp_Currency p) (trp_Location p)
                       (trp_Amount p) (trp_TransferID p) (wk_treasury _ w) in
      let w := set_treasury w m in
      match r with
      | Err e => publishResult we (trp_TransferID p) (trp_TenantID p) EventTreasuryFailed (Some e) w
      | Ok _ => publishResult we (trp_TransferID p) (trp_TenantID p) EventTreasuryReserved None w
      end
  end.

(** The reference depends on the reason, so that releases for different
    reasons are different operations. *)
Definition releaseRef (p : TreasuryReleasePayload) : UUID :=
  if String.eqb (tlp_Reason p) "" then tlp_TransferID p
  else uuid_NewSHA1 (tlp_TransferID p) (tlp_Reason p).

(** A failed release is only logged: the result is "released" either way. *)
Definition handleRelease (we : WEnv) event (w : Worker B) : result unit * Worker B :=
  match unmarshalRelease event with
  | Err _ => (Ok tt, w)
  | Ok p =>
      let '(_, m) := Release (we_env we) (tlp_TenantID p) (tlp_Currency p) (tlp_Location p)
                       (tlp_Amount p) (releaseRef p) (wk_treasury _ w) in
      publishResult we (tlp_TransferID p) (tlp_TenantID p) EventTreasuryReleased None
        (set_treasury w m)
  end.

Definition handleConsume (we : WEnv) event (w : Worker B) : result unit * Worker B :=
  match unmarshalConsume event with
  | Err _ => (Ok tt, w)
  | Ok p =>
      let '(r, m) := ConsumeReservation (we_env we) (tcp_TenantID p) (tcp_Currency p)
                       (tcp_Location p) (tcp_Amount p) (tcp_TransferID p) (wk_treasury _ w) in
      let w := set_treasury w m in
      match r with
      | Err e => publishResult we (tcp_TransferID p) (tcp_TenantID p) EventTreasuryFailed (Some e) w
      | Ok _ => publishResult we (tcp_TransferID p) (tcp_TenantID p) EventTreasuryConsumed None w
      end
  end.

Definition handlePositionCredit (we : WEnv) event (w : Worker B)
  : result unit * Worker B :=
  match unmarshalCredit event with
  | Err _ => (Ok tt, w)
  | Ok p =>
      let '(r, m) := CreditBalance (we_env we) (pcp_TenantID p) (pcp_Currency p) (pcp_Location p)
                       (pcp_Amount p) (pcp_Reference p) (pcp_RefType p) (wk_treasury _ w) in
      let w := set_treasury w m in
      match r with
      | Err e => publishResult we (pcp_Reference p) (pcp_TenantID p) EventTreasuryFailed (Some e) w
      | Ok _ => publishResult we (pcp_Reference p) (pcp_TenantID p) EventPositionCredited None w
      end
  end.

Definition handlePositionDebit (we : WEnv) event (w : Worker B)
  : result unit * Worker B :=
  match unmarshalDebit event with
  | Err _ => (Ok tt, w)
  | Ok p =>
      let '(r, m) := DebitBalance (we_env we) (pdp_TenantID p) (pdp_Currency p) (pdp_Location p)
                       (pdp_Amount p) (pdp_Reference p) (pdp_RefType p) (wk_treasury _ w) in
      let w := set_treasury w m in
      match r with
      | Err e => publishResult we (pdp_Reference p) (pdp_TenantID p) EventTreasuryFailed (Some e) w
      | Ok _ => publishResult we (pdp_Reference p) (pdp_TenantID p) EventPositionDebited None w
      end
  end.

Definition handleEvent (we : WEnv) event (w : Worker B) : result unit * Worker B :=
  if String.eqb (ev_Type _ event) IntentTreasuryReserve then handleReserve we event w
  else if String.eqb (ev_Type _ event) IntentTreasuryRelease then handleRelease we event w
  else if String.eqb (ev_Type _ event) IntentTreasuryConsume then handleConsume we event w
  else if String.eqb (ev_Type _ event) IntentPositionCredit then handlePositionCredit we event w
  else if String.eqb (ev_Type _ event) IntentPositionDebit then handlePositionDebit we event w
  else (Ok tt, w).

(** Deliveries in order, whatever each returned. *)
Fixpoint deliveries (evs : list (WEnv * Event (EventData J V))) (w : Worker B) : Worker B :=
  match evs with
  | [] => w
  | (we, e) :: rest => deliveries rest (handleEvent we e w).2
  end.

(** ** What the worker relies on

    The documented behaviour of encoding/json on the payload structs: a struct
    that was marshalled is decoded to itself, and going through [any] loses
    nothing of what a struct decoder reads. *)
Record JsonLaws : Prop := {
  json_reserve p raw : json_Marshal _ _ js (PTreasuryReserve p) = Ok raw ->
    json_UnmarshalReserve _ _ js raw = Ok p;
  json_release p raw : json_Marshal _ _ js (PTreasuryRelease p) = Ok raw ->
    json_UnmarshalRelease _ _ js raw = Ok p;
  json_consume p raw : json_Marshal _ _ js (PTreasuryConsume p) = Ok raw ->
    json_UnmarshalConsume _ _ js raw = Ok p;
  json_any raw v : json_UnmarshalAny _ _ js raw = Ok v ->
    exists raw', json_MarshalAny _ _ js v = Ok raw'
      /\ json_UnmarshalReserve _ _ js raw' = json_UnmarshalReserve _ _ js raw
      /\ json_UnmarshalRelease _ _ js raw' = json_UnmarshalRelease _ _ js raw
      /\ json_UnmarshalConsume _ _ js raw' = json_UnmarshalConsume _ _ js raw;
}.

(** The event an outbox entry becomes on the bus: its type, and its payload
    in one of the forms the worker accepts. *)
Definition represents (d : EventData J V) (p : Payload) : Prop :=
  match d with
  | DataStruct _ _ q => q = p
  | DataBytes _ _ raw | DataRawMessage _ _ raw => json_Marshal _ _ js p = Ok raw
  | DataMap _ _ v | DataOther _ _ v =>
      exists raw, json_Marshal _ _ js p = Ok raw /\ json_UnmarshalAny _ _ js raw = Ok v
  end.

Definition delivered (e : OutboxEntry) event : Prop :=
  ev_Type _ event = oe_EventType e /\ represents (ev_Data _ event) (oe_Payload e).

Lemma unmarshalEventData_ok {T} cast unmarshal event p (x : T) :
  represents (ev_Data _ event) p -> cast p = Some x ->
  (forall raw, json_Marshal _ _ js p = Ok raw -> unmarshal raw = Ok x) ->
  (forall raw v, json_UnmarshalAny _ _ js raw = Ok v ->
    exists raw', json_MarshalAny _ _ js v = Ok raw' /\ unmarshal raw' = unmarshal raw) ->
  unmarshalEventData cast unmarshal event = Ok x.
Proof.
  intros Hr Hc Hu Hany. unfold unmarshalEventData, represents in *.
  destruct (ev_Data _ event) as [q|raw|raw|v|v].
  - by rewrite Hr, Hc.
  - by rewrite (Hu _ Hr).
  - by rewrite (Hu _ Hr).
  - destruct Hr as (raw & Hm & Hv). destruct (Hany _ _ Hv) as (raw' & -> & Hq). simpl.
    by rewrite Hq, (Hu _ Hm).
  - destruct Hr as (raw & Hm & Hv). destruct (Hany _ _ Hv) as (raw' & -> & Hq). simpl.
    by rewrite Hq, (Hu _ Hm).
Qed.

(** ** Each event is at most one call of the manager *)

Definition event_call event : option Call :=
  if String.eqb (ev_Type _ event) IntentTreasuryReserve then
    match unmarshalReserve event with
    | Ok p => Some (Build_Call OpReserve (trp_TenantID p) (trp_Currency p) (trp_Location p)
                      (trp_Amount p) (trp_TransferID p) "")
    | Err _ => None end
  else if String.eqb (ev_Type _ event) IntentTreasuryRelease then
    match unmarshalRelease event with
    | Ok p => Some (Build_Call OpRelease (tlp_TenantID p) (tlp_Currency p) (tlp_Location p)
                      (tlp_Amount p) (releaseRef p) "")
    | Err _ => None end
  else if String.eqb (ev_Type _ event) IntentTreasuryConsume then
    match unmarshalConsume event with
    | Ok p => Some (Build_Call OpConsume (tcp_TenantID p) (tcp_Currency p) (tcp_Location p)
                      (tcp_Amount p) (tcp_TransferID p) "")
    | Err _ => None end
  else if String.eqb (ev_Type _ event) IntentPositionCredit then
    match unmarshalCredit event with
    | Ok p => Some (Build_Call OpCredit (pcp_TenantID p) (pcp_Currency p) (pcp_Location p)
                      (pcp_Amount p) (pcp_Reference p) (pcp_RefType p))
    | Err _ => None end
  else if String.eqb (ev_Type _ event) IntentPositionDebit then
    match unmarshalDebit event with
    | Ok p => Some (Build_Call OpDebit (pdp_TenantID p) (pdp_Currency p) (pdp_Location p)
                      (pdp_Amount p) (pdp_Reference p) (pdp_RefType p))
    | Err _ => None end
  else None.

Lemma publishResult_treasury we id t ty e w :
  wk_treasury _ (publishResult we id t ty e w).2 = wk_treasury _ w.
Proof. unfold publishResult. by destruct (bus_Publish _ _). Qed.

Lemma handleEvent_run we event w :
  wk_treasury _ (handleEvent we event w).2 =
  match event_call event with
  | None => wk_treasury _ w
  | Some c => (run (we_env we) c (wk_treasury _ w)).2
  end.
Proof.
  unfold handleEvent, event_call, handleReserve, handleRelease, handleConsume,
    handlePositionCredit, handlePositionDebit, run.
  repeat (case_match; [|]); try done; repeat case_match; simplify_eq/=; try done;
    rewrite ?publishResult_treasury; try done.
Qed.
End Worker.
