(* ===== verification/Subscriber.v ===== *)
(** * node/messaging: the subscriber

    Models src/node/messaging/subscriber.go and the retry policy of nats.go: a
    delivery is decoded, handed to the handler, and acknowledged, returned for
    redelivery or sent to the dead letter queue.  [consume] is the life of
    one message under JetStream's redelivery: a message that is not
    acknowledged is delivered again until the consumer's [MaxDeliver]
    deliveries are used up.

    The handler and the dead letter queue act on a world [W]; encoding/json is
    the parameter [WireJson]. *)

From S2P Require Import Prelude ThirdParty Outbox Transfer Messaging Relay TreasuryWorker.
Local Open Scope string_scope.
Local Open Scope Z_scope.

Module Subscriber.
Import Messaging Relay.

Definition MaxRetries : Z := 6.
Definition AckWait : Z := 30 * 1000000000.

(** The delays between deliveries, before jitter. *)
Definition backoffBases : list Z := map (fun s => s * 1000000000) [1; 5; 30; 120; 600].

(** Go's zero [time.Time], 1 January of the year 1. *)
Definition zeroTime : Z := -62135596800 * 1000000000.

Section Subscriber.
Context {L : ThirdParty}.

(** The dynamic values the handlers look into: what decoding into [any]
    gives, and what the direct publisher of tests passes along. *)
Inductive Any :=
| ANil
| AString (s : string)
| AUUID (u : UUID)
| AMap (m : list (string * Any))
| AMapString (m : list (string * string))
| ATransfer (t : Transfer)
| AOther.

(** ** Decoding *)

Record wireEvent (J : Type) := {
  we_ID : UUID; we_TenantID : UUID; we_EventType : string; we_Payload : option J; we_CreatedAt : Z }.
#[global] Arguments we_ID {J} _.
#[global] Arguments we_TenantID {J} _.
#[global] Arguments we_EventType {J} _.
#[global] Arguments we_Payload {J} _.
#[global] Arguments we_CreatedAt {J} _.

(** [json.Unmarshal] into a [wireEvent], into the two fields of the fallback
    (its error is ignored, the fields it did not reach are zero), into [any],
    and into the [data] field. A raw message of length zero is [None]. *)
Record WireJson (J : Type) := {
  jw_Wire : J -> result (wireEvent J);
  jw_Fallback : J -> string * Z;
  jw_Any : J -> result Any;
  jw_Data : J -> result (option J);
}.
#[global] Arguments jw_Wire {J} _ _.
#[global] Arguments jw_Fallback {J} _ _.
#[global] Arguments jw_Any {J} _ _.
#[global] Arguments jw_Data {J} _ _.

Context {J W : Type} (jw : WireJson J).

Definition unmarshalEvent (data : J) : result (Event Any) :=
  let? w := wrap "unmarshal wire event" (jw_Wire jw data) in
  let '(eventType, createdAt) :=
    if String.eqb (we_EventType w) "" then
      let '(ty, ts) := jw_Fallback jw data in
      (ty, if ts =? zeroTime then we_CreatedAt w else ts)
    else (we_EventType w, we_CreatedAt w) in
  let? payload :=
    match we_Payload w with
    | Some raw => wrap "unmarshal event payload" (jw_Any jw raw)
    | None =>
        match jw_Data jw data with
        | Ok (Some raw) => match jw_Any jw raw with Ok v => Ok v | Err _ => Ok ANil end
        | _ => Ok ANil
        end
    end in
  Ok {| ev_ID := we_ID w; ev_TenantID := we_TenantID w; ev_Type := eventType; ev_Timestamp := createdAt;
        ev_Data := payload |}.

(** ** One delivery *)

Inductive Verdict : Set := VAck | VNak | VNakWithDelay (count : Z).

Variable handler : Event Any -> W -> result unit * W.
Variable publishDLQ : string -> string -> J -> W -> result unit * W.
Variable streamName : string.

(** [deliveryCount] is the server's [NumDelivered], one when the metadata cannot be
    read; [preParsed] is set on the pooled path. *)
Definition processMessage (data : J) (deliveryCount : Z) (preParsed : option (Event Any)) (w : W) : Verdict * W :=
  match (match preParsed with Some event => Ok event | None => unmarshalEvent data end) with
  | Err _ => (VAck, (publishDLQ streamName "unmarshal_error" data w).2)
  | Ok event =>
      if MaxRetries <=? deliveryCount then
        let '(r, w) := publishDLQ streamName (ev_Type _ event) data w in
        match r with
        | Err _ => (VNak, w)
        | Ok _ => (VAck, w)
        end
      else
        let '(r, w) := handler event w in
        match r with
        | Err _ => (VNakWithDelay deliveryCount, w)
        | Ok _ => (VAck, w)
        end
  end.

(** The serial path, while the subscriber drains and before. *)
Definition handleMessage (draining : bool) (data : J) (deliveryCount : Z) (w : W) : Verdict * W :=
  if draining then (VNak, w) else processMessage data deliveryCount None w.

(** The body of the goroutine of the pooled path, once it has its tenant's lock. *)
Definition dispatchPooled (draining : bool) (data : J) (deliveryCount : Z) (w : W) : Verdict * W :=
  if draining then (VNak, w)
  else match unmarshalEvent data with
       | Err _ => processMessage data deliveryCount None w
       | Ok event => processMessage data deliveryCount (Some event) w
       end.

(** The delay a NAK asks for; [schedule] is the jittered [BackoffSchedule] and
    [jittered] the jitter of this call. *)
Definition nakBase (schedule : list Z) (deliveryCount : Z) : Z :=
  if Z.of_nat (length schedule) <? deliveryCount then List.last schedule 0
  else if deliveryCount <? 1 then nth 0 schedule 0
  else nth (Z.to_nat (deliveryCount - 1)) schedule 0.

(** ** A message under redelivery *)

(** How the life of a message ends. *)
Inductive Fate : Set := Acked | Exhausted.

(** The deliveries from number [count] on, with [tries] of them to go.  What
    happens to a delivery before the server hears of it is [heard]: a crash or a
    late acknowledgement makes the server deliver the message again. *)
Fixpoint consume (pooled : bool) (heard : Z -> bool) (data : J) (tries : nat) (count : Z) (w : W) : Fate * W :=
  match tries with
  | O => (Exhausted, w)
  | Datatypes.S tries =>
      let '(v, w) := (if pooled then dispatchPooled false data count w else handleMessage false data count w) in
      match v with
      | VAck => if heard count then (Acked, w) else consume pooled heard data tries (count + 1) w
      | _ => consume pooled heard data tries (count + 1) w
      end
  end.

(** [MaxDeliver: MaxRetries]. *)
Definition consumeAll (pooled : bool) (heard : Z -> bool) (data : J) (w : W) : Fate * W :=
  consume pooled heard data (Z.to_nat MaxRetries) 1 w.

(** ** What a handler can rely on *)

(** The policy: call the handler until it succeeds, [n] times at most. *)
Fixpoint tryHandler (n : nat) (event : Event Any) (w : W) : bool * W :=
  match n with
  | O => (false, w)
  | Datatypes.S n => let '(r, w) := handler event w in
           match r with Ok _ => (true, w) | Err _ => tryHandler n event w end
  end.

Lemma processMessage_pooled data count event w : unmarshalEvent data = Ok event ->
  processMessage data count (Some event) w = processMessage data count None w.
Proof. intros He. unfold processMessage. by rewrite He. Qed.

Lemma dispatch_serial data count w : dispatchPooled false data count w = handleMessage false data count w.
Proof.
  unfold dispatchPooled, handleMessage. destruct (unmarshalEvent data) eqn:He; [|done]. by apply processMessage_pooled.
Qed.

Lemma consume_serial pooled heard data tries : forall count w,
  consume pooled heard data tries count w = consume false heard data tries count w.
Proof.
  induction tries as [|tries IH]; intros count w; [done|]. cbn [consume]. rewrite dispatch_serial.
  replace (if pooled then handleMessage false data count w else handleMessage false data count w)
    with (handleMessage false data count w) by (by destruct pooled).
  destruct (handleMessage false data count w) as [[] w']; try apply IH. destruct (heard count); [done|apply IH].
Qed.

Lemma consume_tries data event tries : unmarshalEvent data = Ok event -> forall count w,
  count + Z.of_nat tries = MaxRetries ->
  consume false (fun _ => true) data (Datatypes.S tries) count w
  = let '(ok, w) := tryHandler tries event w in
    if ok then (Acked, w)
    else let '(r, w) := publishDLQ streamName (ev_Type _ event) data w in
         (if is_ok r then Acked else Exhausted, w).
Proof.
  intros He. induction tries as [|tries IH]; intros count w Hc.
  - simpl. unfold processMessage. rewrite He. destruct (Z.leb_spec MaxRetries count); [|lia].
    by destruct (publishDLQ _ _ _ _) as [[] w'].
  - cbn [consume tryHandler]. unfold handleMessage at 1, processMessage at 1. rewrite He.
    destruct (Z.leb_spec MaxRetries count); [lia|]. destruct (handler event w) as [[[]|e] w']; [done|].
    apply IH. lia.
Qed.

(** The delivery policy.  On either path, and when every answer reaches
    the server, the deliveries of a message amount to calling the handler
    until it succeeds, five times at most, and then publishing the message to
    the dead letter queue; what is lost is a message whose publication there
    fails, at the last delivery the consumer allows.  A message that cannot be
    decoded is published there at once and is gone even if that fails. *)
Theorem delivery_policy pooled data w :
  consumeAll pooled (fun _ => true) data w
  = match unmarshalEvent data with
    | Err _ => (Acked, (publishDLQ streamName "unmarshal_error" data w).2)
    | Ok event =>
        let '(ok, w) := tryHandler 5 event w in
        if ok then (Acked, w)
        else let '(r, w) := publishDLQ streamName (ev_Type _ event) data w in
             (if is_ok r then Acked else Exhausted, w)
    end.
Proof.
  unfold consumeAll. rewrite consume_serial. destruct (unmarshalEvent data) as [event|e] eqn:He.
  - by apply consume_tries.
  - change (Z.to_nat MaxRetries) with 6%nat. cbn [consume]. unfold handleMessage, processMessage. by rewrite He.
Qed.

(** What every delivery keeps, all deliveries keep. *)
Lemma consume_keeps (P : W -> Prop) pooled heard data :
  (forall event w, unmarshalEvent data = Ok event -> P w -> P (handler event w).2) ->
  (forall ty w, P w -> P (publishDLQ streamName ty data w).2) ->
  forall tries count w, P w -> P (consume pooled heard data tries count w).2.
Proof.
  intros Hh Hd. induction tries as [|tries IH]; intros count w Hw; rewrite consume_serial; [done|]. cbn [consume].
  assert (P (handleMessage false data count w).2) as Hw'.
  { unfold handleMessage, processMessage. destruct (unmarshalEvent data) as [event|] eqn:He; [|by apply Hd].
    destruct (MaxRetries <=? count).
    - specialize (Hd (ev_Type _ event) w Hw). by destruct (publishDLQ _ _ _ _) as [[] ?].
    - specialize (Hh event w eq_refl Hw). by destruct (handler event w) as [[] ?]. }
  assert (forall w1, P w1 -> P (consume false heard data tries (count + 1) w1).2) as IH'.
  { intros w1 Hw1. rewrite <- (consume_serial pooled). by apply IH. }
  destruct (handleMessage false data count w) as [[] w']; try by apply IH'.
  destruct (heard count); [done|]. by apply IH'.
Qed.

(** ** From the outbox to the handler *)

(** encoding/json reads back what it wrote: the message of the relay, and the
    event of the direct publisher. *)
Class WireLaws (json_MarshalMessage : @outboxMessage L J -> result J) := {
  wire_message m data : json_MarshalMessage m = Ok data ->
    jw_Wire jw data = Ok {| we_ID := om_ID m; we_TenantID := om_TenantID m; we_EventType := om_EventType m;
                            we_Payload := Some (om_Payload m); we_CreatedAt := om_CreatedAt m |};
}.

Lemma encode_decodes json_MarshalMessage `{!WireLaws json_MarshalMessage} n (r : @OutboxRow L J) subject data v :
  encode json_MarshalMessage n r = Ok (subject, data) -> or_EventType r <> "" -> jw_Any jw (or_Payload r) = Ok v ->
  unmarshalEvent data = Ok {| ev_ID := or_ID r; ev_TenantID := or_TenantID r; ev_Type := or_EventType r;
                              ev_Timestamp := or_CreatedAt r; ev_Data := v |}.
Proof.
  intros He Hty Hv. unfold encode in He. destruct (SubjectForEntry n r); [|done].
  destruct (json_MarshalMessage (messageOf r)) as [d|] eqn:Ej; [|done]. injection He as _ ->.
  unfold unmarshalEvent. rewrite (wire_message _ _ Ej). simpl.
  apply String.eqb_neq in Hty. rewrite Hty. by rewrite Hv.
Qed.
End Subscriber.
End Subscriber.
