(* ===== verification/TransferWorker.v ===== *)
(** * node/worker: the transfer worker

    Models src/node/worker/transfer_worker.go: the consumer of the transfer
    partitions, which turns events into calls of the settlement engine; and its
    composition with the subscriber's redelivery and the outbox relay. *)

From S2P Require Import Prelude ThirdParty Money Deposits Transfer Outbox Messaging Relay TransferStore Engine EngineFacts EngineProps EnginePipeline TreasuryWorker Subscriber.
Local Open Scope string_scope.
Local Open Scope Z_scope.

Module TransferWorker.
Import Subscriber.

Definition EventOffRampCompleted := "offramp.completed".
Definition EventProviderOnRampDone := "provider.onramp.completed".
Definition EventProviderOffRampDone := "provider.offramp.completed".
Definition EventBlockchainConfirmed := "blockchain.confirmed".

Section Worker.
Context {L : ThirdParty} {St : Type} `{TS : !TransferStore St}.

(** A Go map lookup. *)
Definition mapGet {A} (key : string) (m : list (string * A)) : option A :=
  match List.find (fun kv => String.eqb kv.1 key) m with
  | Some kv => Some kv.2
  | None => None
  end.

(** ** The fields of the event data *)

(** The id under [key], if it is there as a UUID or a string. *)
Definition idAt (key : string) (m : list (string * Any)) : option (result UUID) :=
  match mapGet key m with
  | Some (AUUID v) => Some (Ok v)
  | Some (AString s) =>
      Some (match uuid_Parse s with Some v => Ok v | None => Err (MsgErr "invalid UUID") end)
  | _ => None
  end.

Definition extractTransferID (event : Event Any) : result UUID :=
  let none := Err (MsgErr "no transfer_id in event data") in
  match ev_Data _ event with
  | ATransfer t => Ok (tr_ID t)
  | AMap m =>
      match idAt "transfer_id" m with
      | Some r => r
      | None => match idAt "ID" m with Some r => r | None => none end
      end
  | AMapString m =>
      match mapGet "transfer_id" m with
      | Some s => match uuid_Parse s with Some v => Ok v | None => Err (MsgErr "invalid UUID") end
      | None => none
      end
  | _ => none
  end.

Definition stringAt (key default : string) (event : Event Any) : string :=
  match ev_Data _ event with
  | AMap m => match mapGet key m with Some (AString s) => s | _ => default end
  | _ => default
  end.

Definition extractErrorFromEvent (event : Event Any) : string := stringAt "error" "unknown error" event.
Definition extractTxHashFromEvent (event : Event Any) : string := stringAt "tx_hash" "" event.

(** The names encoding/json gives to the fields of [domain.Transfer]: those of
    the struct, but for one tag. *)
Definition transferFields : list string :=
  ["ID"; "TenantID"; "ExternalRef"; "IdempotencyKey"; "Status"; "Version"; "SourceCurrency"; "SourceAmount";
   "DestCurrency"; "DestAmount"; "StableCoin"; "StableAmount"; "Chain"; "FXRate"; "Fees"; "fee_schedule_snapshot";
   "OnRampProviderID"; "OffRampProviderID"; "Sender"; "Recipient"; "QuoteID"; "BlockchainTxs"; "CreatedAt";
   "UpdatedAt"; "FundedAt"; "CompletedAt"; "FailedAt"; "FailureReason"; "FailureCode"].

(** ** Routing *)

Definition failure (errMsg code : string) : IntentResult :=
  {| ir_Success := false; ir_ProviderRef := ""; ir_TxHash := ""; ir_Error := errMsg; ir_ErrorCode := code;
     ir_Metadata := ∅ |}.

(** An invalid transition is acknowledged: the transfer has moved on. *)
Definition callEngine (out : result unit * St) : result unit * St :=
  match out with
  | (Ok _, st) => (Ok tt, st)
  | (Err e, st) =>
      if bool_decide (error_code e = Some CodeInvalidTransition) then (Ok tt, st) else (Err e, st)
  end.

(** The switch of [handleEvent]; [None] are the events without a call. *)
Definition route (event : Event Any) : option Op :=
  let type_is ty := String.eqb (ev_Type _ event) ty in
  let errMsg := extractErrorFromEvent event in
  if type_is EventTransferCreated then Some OFund
  else if type_is EventTransferFunded then Some OOnRamp
  else if type_is EventTreasuryReserved then Some OOnRamp
  else if type_is EventTreasuryFailed then Some (OFail errMsg "TREASURY_FAILED")
  else if type_is EventProviderOnRampDone then Some (OOnRampResult (success ""))
  else if type_is EventProviderOnRampFailed then Some (OOnRampResult (failure errMsg "ONRAMP_FAILED"))
  else if type_is EventBlockchainConfirmed then Some (OSettlementResult (success (extractTxHashFromEvent event)))
  else if type_is EventBlockchainFailed then Some (OSettlementResult (failure errMsg "BLOCKCHAIN_FAILED"))
  else if type_is EventProviderOffRampDone then Some (OOffRampResult (success ""))
  else if type_is EventProviderOffRampFailed then Some (OOffRampResult (failure errMsg "OFFRAMP_FAILED"))
  else if type_is EventOnRampCompleted then Some (OOnRampResult (success ""))
  else if type_is EventSettlementCompleted then Some (OSettlementResult (success ""))
  else if type_is EventOffRampCompleted then Some (OOffRampResult (success ""))
  else None.

(** An event without a transfer id is acknowledged. *)
Definition handleEvent (env : EEnv) (dp : Deps) (event : Event Any) (st : St) : result unit * St :=
  match extractTransferID event with
  | Err _ => (Ok tt, st)
  | Ok transferID =>
      match route event with
      | None => (Ok tt, st)
      | Some op => callEngine (handle env dp op (ev_TenantID _ event) transferID st)
      end
  end.

(** ** Redelivery *)

Section Redelivery.
Context {TSL : TransferStoreLaws St}.

(** What the handlers of the worker do when their step is behind them. *)
Definition behind (pl : result (option Plan)) : Prop :=
  pl = Ok None \/ exists e, pl = Err e /\ error_code e = Some CodeInvalidTransition.

Definition routed (op : Op) : Prop :=
  match op with OComplete | ORefund | ORefundResult _ => False | _ => True end.

Lemma route_routed event op : route event = Some op -> routed op.
Proof. unfold route. repeat case_match; intros [= <-]; done. Qed.

Lemma step_moves (s s' : TransferStatus) : status_step s s' -> s' <> s.
Proof. unfold status_step. intros H ->. by destruct s. Qed.

(** Once its plan has been carried out, an operation of the worker has nothing
    left to do. *)
Lemma replay_behind env env' dp q q' op t t' p : routed op ->
  plan_of env dp q op t = Ok (Some p) -> tr_Status t' = pl_status p ->
  behind (plan_of env' dp q' op t').
Proof.
  intros Hr Hp Hs. pose proof (plan_of_ok _ _ _ _ _ _ Hp) as [He _ _ _]. apply step_moves in He.
  assert (forall s, tr_Status t = s -> tr_Status t' <> s) as Hne by (intros s <-; congruence).
  assert (forall s (q : result (option Plan)), tr_Status t = s ->
    behind (if bool_decide (tr_Status t' = s) then q else Err (DomainErr CodeInvalidTransition))) as Hat.
  { intros s q0 E. rewrite bool_decide_false by (by apply Hne). right. by eexists. }
  destruct op; simpl in *; try done.
  - case_bool_decide; [by apply Hat|done].
  - case_bool_decide; [by apply Hat|done].
  - unfold HandleOnRampResult_plan in Hp |- *. destruct (bool_decide_reflect (tr_Status t = OnRamping)); simpl in Hp.
    + rewrite bool_decide_false by (by apply Hne). simpl. destruct (isAdvancedPast _ _); [by left|right; by eexists].
    + by destruct (isAdvancedPast _ _).
  - unfold HandleSettlementResult_plan in Hp |- *. destruct (bool_decide_reflect (tr_Status t = Settling)); simpl in Hp.
    + rewrite bool_decide_false by (by apply Hne). simpl. destruct (isAdvancedPast _ _); [by left|right; by eexists].
    + by destruct (isAdvancedPast _ _).
  - case_bool_decide; [by apply Hat|done].
  - apply always_some in Hp. unfold FailTransfer_plan, CanTransitionTo in Hp |- *.
    destruct (CanTransition (tr_Status t) Failed) eqn:Ec; [|done]. simpl in Hp.
    assert (pl_status p = Failed) as Hf.
    { unfold planStep in Hp. destruct (wrap _ _); [|done]. by injection Hp as <-. }
    rewrite Hs, Hf. simpl. right. by eexists.
Qed.

(** A handler that is behind: acknowledged, and nothing written. *)
Lemma finish_behind step t pl st : behind pl -> callEngine (finish step t pl st) = (Ok tt, st).
Proof. intros [->|(e & -> & He)]; [done|]. simpl. by rewrite bool_decide_true. Qed.

Lemma handle_behind env dp op tn id st t : routed op -> ts_GetTransfer tn id st = Ok t ->
  behind (plan_of env dp (loadQuote t st) op t) -> callEngine (handle env dp op tn id st) = (Ok tt, st).
Proof.
  intros Hr Hg Hb. destruct op as [| |r|r|r| |r c| |r]; try done;
    unfold handle, FundTransfer, InitiateOnRamp, HandleOnRampResult, HandleSettlementResult, HandleOffRampResult,
      FailTransfer, loadTransferForStep, loadTransfer in *; rewrite Hg; cbn [wrap plan_of] in *;
    try (case_bool_decide as Hs; cbn [wrap negb]; [|done]); try by apply finish_behind.
  destruct (ir_Success r).
  - unfold CompleteTransfer, loadTransferForStep, loadTransfer. rewrite Hg. cbn [wrap].
    rewrite bool_decide_true by done. by apply finish_behind.
  - by apply finish_behind.
Qed.

(** A call leaves the store alone or carries out its plan. *)
Lemma handle_plan env dp op tn id st : store_inv st ->
  (handle env dp op tn id st).2 = st
  \/ exists r st' t p, handle env dp op tn id st = (r, st') /\ plan_of env dp (loadQuote t st) op t = Ok (Some p)
       /\ forall t', ts_GetTransfer tn id st' = Ok t' -> tr_Status t' = pl_status p.
Proof.
  intros Hinv. destruct (handle_inv env dp op tn id st) as [[H _]|(t & p & r0 & Hg & Hp & Ht & Hok)]; [by left|].
  destruct (handle env dp op tn id st) as [r st'] eqn:Eh. simpl in *.
  destruct (transition_effect _ _ _ _ _ _ _ Ht) as [[H _]|(t1 & now & Hrow & _ & Hts & _ & Hkeep)]; [by left|right].
  exists r, st', t, p. split_and!; [done|done|]. intros t' Hg'.
  destruct (get_found _ _ _ _ (Hkeep Hinv) Hg') as (Hrow' & _ & _). destruct (get_found _ _ _ _ Hinv Hg) as (_ & Hid & _).
  rewrite Hts, Hid, lookup_insert_eq in Hrow'. injection Hrow' as <-. done.
Qed.

(** Nothing was written, or further deliveries write nothing. *)
Lemma handleEvent_once env dp event st : store_inv st ->
  (handleEvent env dp event st).2 = st
  \/ (forall env', let st' := (handleEvent env dp event st).2 in
        (handleEvent env' dp event st').2 = st'
        /\ (forall id t, extractTransferID event = Ok id -> ts_GetTransfer (ev_TenantID _ event) id st' = Ok t ->
             handleEvent env' dp event st' = (Ok tt, st'))).
Proof.
  intros Hinv. unfold handleEvent. destruct (extractTransferID event) as [id|]; [|by left].
  destruct (route event) as [op|] eqn:Ero; [|by left]. pose proof (route_routed _ _ Ero) as Hr.
  destruct (handle_plan env dp op (ev_TenantID _ event) id st Hinv) as [Heq|(r & st' & t & p & Heq & Hp & Hst)].
  { left. destruct (handle _ _ _ _ _ _) as [[]]; simpl in *; [done|]. by case_bool_decide. }
  right. rewrite Heq. assert ((callEngine (r, st')).2 = st') as -> by (destruct r; simpl; [done|by case_bool_decide]).
  intros env'. cbn zeta.
  assert (forall t', ts_GetTransfer (ev_TenantID _ event) id st' = Ok t' ->
    callEngine (handle env' dp op (ev_TenantID _ event) id st') = (Ok tt, st')) as Hagain.
  { intros t' Hg. apply (handle_behind _ _ _ _ _ _ t'); [done|done|]. eapply replay_behind; [done|exact Hp|]. by apply Hst. }
  split; [|intros id' t' [= <-]; apply Hagain].
  destruct (ts_GetTransfer (ev_TenantID _ event) id st') as [t'|e] eqn:Eg; [by rewrite (Hagain t')|].
  destruct op; try done; unfold handle, FundTransfer, InitiateOnRamp, HandleOnRampResult, HandleSettlementResult,
    HandleOffRampResult, FailTransfer, loadTransferForStep, loadTransfer; rewrite Eg; simpl; by case_match.
Qed.

(** Redelivery is harmless.  Once an event has changed the store, even if the
    worker was told of an error because the answer to the commit was lost,
    every further delivery of it leaves the store as it is; it is acknowledged
    too, unless the transfer cannot be
    read, when the error asks for another delivery. *)
Theorem redelivered_event_changes_nothing env env' dp event st st' r : store_inv st ->
  handleEvent env dp event st = (r, st') -> st' <> st ->
  (handleEvent env' dp event st').2 = st'
  /\ (forall id t, extractTransferID event = Ok id -> ts_GetTransfer (ev_TenantID _ event) id st' = Ok t ->
       handleEvent env' dp event st' = (Ok tt, st')).
Proof.
  intros Hinv Hh Hne. pose proof (handleEvent_once env dp event st Hinv) as H. rewrite Hh in H. simpl in H.
  destruct H as [H|H]; [done|]. apply H.
Qed.
End Redelivery.

(** ** The worker behind its subscriber *)

(** The store, the number of handler calls so far, and the dead letter queue. *)
Record World (D : Type) := { ww_store : St; ww_calls : nat; ww_dlq : D }.
#[global] Arguments ww_store {D} _.
#[global] Arguments ww_calls {D} _.
#[global] Arguments ww_dlq {D} _.

Section Consumer.
Context {D J : Type} (envs : nat -> EEnv) (dp : Deps) (jw : WireJson J).
Variable dlq_Publish : string -> string -> J -> D -> result unit * D.

Definition onEvent (event : Event Any) (w : World D) : result unit * World D :=
  let '(r, st) := handleEvent (envs (ww_calls w)) dp event (ww_store w) in
  (r, {| ww_store := st; ww_calls := Datatypes.S (ww_calls w); ww_dlq := ww_dlq w |}).

Definition onDLQ (stream eventType : string) (data : J) (w : World D) : result unit * World D :=
  let '(r, d) := dlq_Publish stream eventType data (ww_dlq w) in
  (r, {| ww_store := ww_store w; ww_calls := ww_calls w; ww_dlq := d |}).

(** [Start]: the deliveries of one message of the worker's partition. *)
Definition deliveries (pooled : bool) (heard : Z -> bool) (data : J) (w : World D) : Fate * World D :=
  consumeAll jw onEvent onDLQ Messaging.StreamTransfers pooled heard data w.

Context {TSL : TransferStoreLaws St}.

Definition applied (event : Event Any) (st st' : St) : Prop :=
  exists k, st' = (handleEvent (envs k) dp event st).2
    /\ forall env, (handleEvent env dp event st').2 = st'.

Lemma onEvent_keeps event st w : store_inv st -> ww_store w = st \/ applied event st (ww_store w) ->
  ww_store (onEvent event w).2 = st \/ applied event st (ww_store (onEvent event w).2).
Proof.
  intros Hinv Hw. unfold onEvent. destruct (handleEvent (envs (ww_calls w)) dp event (ww_store w)) as [r st'] eqn:E.
  simpl. destruct Hw as [Hw|Ha].
  - rewrite Hw in E. destruct (handleEvent_once (envs (ww_calls w)) dp event st Hinv) as [H|H]; rewrite E in H; simpl in H.
    + by left.
    + right. exists (ww_calls w). rewrite E. split; [done|]. intros env. by apply H.
  - right. destruct Ha as (k & Hk & Hfix). specialize (Hfix (envs (ww_calls w))) as Hst. rewrite E in Hst. simpl in Hst.
    rewrite Hst. by exists k.
Qed.

(** C22: An event is applied at most once, however often it is delivered:
    whatever deliveries fail, crash or are acknowledged too late, after all
    of them, with no other writer in between, the store is as before the
    first or as one call of the handler leaves it. *)
Theorem event_applied_at_most_once pooled heard data event w : store_inv (ww_store w) ->
  unmarshalEvent jw data = Ok event ->
  let st' := ww_store (deliveries pooled heard data w).2 in
  st' = ww_store w \/ exists k, st' = (handleEvent (envs k) dp event (ww_store w)).2.
Proof.
  intros Hinv He. assert (ww_store (deliveries pooled heard data w).2 = ww_store w
    \/ applied event (ww_store w) (ww_store (deliveries pooled heard data w).2)) as [H|(k & H & _)]; [|by left|right; by exists k].
  unfold deliveries, consumeAll.
  apply (consume_keeps jw onEvent onDLQ Messaging.StreamTransfers
    (fun v => ww_store v = ww_store w \/ applied event (ww_store w) (ww_store v))); [| |by left].
  - intros event' v He'. rewrite He in He'. injection He' as <-. by apply onEvent_keeps.
  - intros ty v Hv. unfold onDLQ. by destruct (dlq_Publish _ _ _ _).
Qed.

(** ** From the outbox to the engine *)

Context {LL : ThirdPartyLaws L}.
Variable json_MarshalMessage : @Relay.outboxMessage L J -> result J.
Context `{WL : !WireLaws jw json_MarshalMessage}.
Variable numPartitions : Z.

(** The payload of a transfer.created entry is the transfer itself as
    encoding/json writes it ([json_Transfer]): an object under the names of
    the struct's fields, with the id as a string. *)
Variable json_Transfer : Transfer -> J.

Class TransferJson : Prop := {
  transfer_json t : exists m, jw_Any jw (json_Transfer t) = Ok (AMap m)
    /\ Forall (fun key => key ∈ transferFields) m.*1 /\ mapGet "ID" m = Some (AString (uuid_String (tr_ID t)));
}.
Context {TJ : TransferJson}.

(** The row of a transfer.created entry. *)
Record CreatedRow (id : UUID) (r : @Relay.OutboxRow L J) : Prop := {
  cw_payload : exists u, Relay.or_Payload r = json_Transfer u /\ tr_ID u = id;
  cw_type : Relay.or_EventType r = EventTransferCreated;
}.

(** The object has no transfer_id: the worker finds the id under ID. *)
Lemma mapGet_absent {A} key (m : list (string * A)) : key ∉ m.*1 -> mapGet key m = None.
Proof.
  unfold mapGet. intros H. destruct (List.find _ m) as [kv|] eqn:E; [|done].
  apply find_some in E as [Hin Hk%String.eqb_eq]. exfalso. apply H. rewrite <- Hk.
  by apply list_elem_of_fmap_2, list_elem_of_In.
Qed.

Lemma row_event id r subject data : CreatedRow id r ->
  Relay.encode json_MarshalMessage numPartitions r = Ok (subject, data) ->
  exists event, unmarshalEvent jw data = Ok event /\ ev_Type _ event = Relay.or_EventType r
    /\ ev_TenantID _ event = Relay.or_TenantID r /\ extractTransferID event = Ok id.
Proof.
  intros [(u & Hu & Hid) Hty] He. destruct (transfer_json u) as (m & Hm & Hkeys & Hmid). rewrite <- Hu in Hm.
  exists {| ev_ID := Relay.or_ID r; ev_TenantID := Relay.or_TenantID r; ev_Type := Relay.or_EventType r;
            ev_Timestamp := Relay.or_CreatedAt r; ev_Data := AMap m |}.
  split_and!; [eapply encode_decodes; [done|done|by rewrite Hty|done]|done|done|].
  unfold extractTransferID, idAt. cbn [ev_Data]. rewrite (mapGet_absent "transfer_id"), Hmid, uuid_Parse_String; [by rewrite Hid|].
  intros Hin. rewrite Forall_forall in Hkeys. apply Hkeys, list_elem_of_In in Hin. vm_compute in Hin. naive_solver.
Qed.

Lemma tokensMatch_cons p p' ps q qs :
  Messaging.tokensMatch (p :: p' :: ps) (q :: qs) = (String.eqb p "*" || String.eqb p q) && Messaging.tokensMatch (p' :: ps) qs.
Proof. destruct p as [|c p]; [done|]. destruct c as [[] [] [] [] [] [] [] []], p; reflexivity. Qed.

Lemma filter_matches tenant subject : Messaging.SubjectForEventType EventTransferCreated tenant numPartitions = Ok subject ->
  exists k, Messaging.TenantPartition tenant numPartitions = Ok k
    /\ Messaging.natsMatch (Messaging.PartitionFilter k) subject = true.
Proof.
  unfold Messaging.SubjectForEventType, Messaging.tenantSubject. simpl.
  destruct (Messaging.TenantPartition tenant numPartitions) as [k|]; [|done]. intros [= <-]. exists k. split; [done|].
  unfold Messaging.natsMatch, Messaging.PartitionFilter, Messaging.partitionSubject. rewrite !Messaging.tokens_partition.
  generalize (pretty k) as q. intros q. change (Messaging.tokens Messaging.SubjectPrefixTransfer) with ["settla"; "transfer"].
  change (Messaging.tokens ">") with [">"]. cbn [app]. rewrite !tokensMatch_cons. by rewrite !String.eqb_refl, !orb_true_r.
Qed.

(** C10: From the outbox to the engine.  The message the relay makes of a
    transfer.created entry, whose payload is the transfer as JSON, matches the
    filter of the tenant's partition, and its deliveries there fund the
    transfer: the worker finds the id under the name of the struct's field,
    and whichever answers of the worker the server hears, as long as the
    database answers, the ids drawn for the entries are fresh and nobody else
    writes in between, the CREATED transfer is FUNDED at the end, by one
    step. *)
Theorem created_entry_funds_transfer pooled heard r subject data id t w :
  CreatedRow id r ->
  Relay.encode json_MarshalMessage numPartitions r = Ok (subject, data) ->
  store_inv (ww_store w) -> available_store (ww_store w) -> transfers (ww_store w) !! id = Some t ->
  tr_ID t = id -> tr_TenantID t = Relay.or_TenantID r -> tr_Status t = Created ->
  NoDup (map oe_ID (outbox (ww_store w)) ++ ids_of (envs (ww_calls w)))%list ->
  (exists k, Messaging.TenantPartition (Relay.or_TenantID r) numPartitions = Ok k
     /\ Messaging.natsMatch (Messaging.PartitionFilter k) subject = true)
  /\ exists now, transfers (ww_store (deliveries pooled heard data w).2) !! id = Some (transitioned now t Funded).
Proof.
  intros Hrow He Hinv Hav Ht Hid Htn Hst Hfr. pose proof (cw_type _ _ Hrow) as Hty. split.
  { apply filter_matches. rewrite <- Hty. unfold Relay.encode, Relay.SubjectForEntry in He.
    destruct (Messaging.SubjectForEventType _ _ _); [|done]. destruct (json_MarshalMessage _); [|done]. by injection He as -> _. }
  destruct (row_event id r subject data Hrow He) as (event & Hev & Hety & Hetn & Hex).
  destruct (fund_plan (envs (ww_calls w)) dp (loadQuote t (ww_store w)) t Hst) as (p & Hp & Hps).
  destruct (handle_progress (envs (ww_calls w)) dp OFund (Relay.or_TenantID r) id (ww_store w) t p)
    as (st' & now & n & Hh & Hav' & Hrow' & _); [done..|].
  exists now. rewrite <- Hps, <- Hrow'. f_equal. f_equal.
  assert (handleEvent (envs (ww_calls w)) dp event (ww_store w) = (Ok tt, st')) as Hdone.
  { unfold handleEvent. rewrite Hex. assert (route event = Some OFund) as -> by (unfold route; by rewrite Hety, Hty).
    by rewrite Hetn, Hh. }
  assert (forall env, (handleEvent env dp event st').2 = st') as Hfix.
  { destruct (handleEvent_once (envs (ww_calls w)) dp event (ww_store w) Hinv) as [Hsame|Hsame].
    - rewrite Hdone in Hsame. simpl in Hsame. exfalso. rewrite Hsame, Ht, Hps in Hrow'.
      injection Hrow' as Hrow'. apply (f_equal tr_Status) in Hrow'. simpl in Hrow'. congruence.
    - intros env. rewrite Hdone in Hsame. apply Hsame. }
  unfold deliveries, consumeAll. rewrite consume_serial. change (Z.to_nat MaxRetries) with (Datatypes.S 5).
  generalize 5%nat as tries. intros tries. cbn [consume].
  unfold handleMessage at 1, processMessage at 1. rewrite Hev. unfold onEvent at 1. rewrite Hdone. simpl.
  destruct (heard 1); [done|].
  apply (consume_keeps jw onEvent onDLQ Messaging.StreamTransfers (fun v => ww_store v = st') false heard data); [| |done].
  - intros event' v He' Hv. rewrite Hev in He'. injection He' as <-. unfold onEvent.
    specialize (Hfix (envs (ww_calls v))). rewrite Hv.
    by destruct (handleEvent (envs (ww_calls v)) dp event st') as [r1 st1].
  - intros ty v Hv. unfold onDLQ. by destruct (dlq_Publish _ _ _ _).
Qed.
End Consumer.
End Worker.
End TransferWorker.
