(* ===== verification/RelayRuns.v ===== *)
(** * node: the outbox's way to the engine at concrete inputs

    A JetStream server that keeps its promises ([Server_js]), a run of two
    relays with a lost acknowledgement, an outage, and the deliveries of a
    transfer's events to the transfer worker. *)

From Stdlib Require Import Ascii QArith.
From S2P Require Import Prelude ThirdParty Sql Money Deposits Transfer Outbox Messaging Relay RelayProps TransferStore Engine EngineFacts EngineProps EnginePipeline EngineWitness TreasuryWorker Subscriber TransferWorker.
Import QInstance.
Local Open Scope string_scope.
Local Open Scope Z_scope.

Module RelayRuns.
Import Messaging Relay RelayProps Subscriber TransferWorker.

(** ** Texts *)

(** A JSON text, as the value it is the text of. *)
Inductive Text :=
| TAny (v : @Any Qlib)
| TMsg (id : ascii) (aggregate : string) (aggregateID tenant : ascii) (ty : string) (payload : Text)
    (isIntent : bool) (createdAt : Z).

Definition marshal (m : @outboxMessage Qlib Text) : result Text :=
  Ok (TMsg (om_ID m) (om_AggregateType m) (om_AggregateID m) (om_TenantID m) (om_EventType m) (om_Payload m)
        (om_IsIntent m) (om_CreatedAt m)).

Definition json : @WireJson Qlib Text :=
  {| jw_Wire t := match t with
                  | TMsg id _ _ tenant ty p _ at_ =>
                      Ok {| we_ID := id; we_TenantID := tenant; we_EventType := ty; we_Payload := Some p;
                            we_CreatedAt := at_ |}
                  | TAny _ => Err (MsgErr "cannot unmarshal")
                  end;
     jw_Fallback _ := ("", zeroTime);
     jw_Any t := match t with TAny v => Ok v | TMsg _ _ _ _ _ _ _ _ => Ok AOther end;
     jw_Data _ := Err (MsgErr "cannot unmarshal") |}.

#[global] Instance json_laws : WireLaws json marshal.
Proof. split. by intros m data [= <-]. Qed.

(** ** The server *)

Definition inStreamb (name subject : string) : bool :=
  existsb (fun def => String.eqb (sd_Name def) name && owns def subject) AllStreams.

Lemma inStreamb_spec name subject : inStreamb name subject = true <-> inStream name subject.
Proof.
  unfold inStreamb, inStream. rewrite existsb_exists. split.
  - intros (def & Hin & [Hn%String.eqb_eq Ho]%andb_true_iff). exists def. by rewrite list_elem_of_In.
  - intros (def & Hin & Hn & Ho). exists def. rewrite <- list_elem_of_In, Hn, String.eqb_refl. done.
Qed.

Definition seen (now : Z) (subject id : string) (m : StoredMsg Text) : bool :=
  String.eqb (sm_ID m) id && inStreamb (sm_Stream m) subject
  && (0 <=? now - sm_Time m) && (now - sm_Time m <? StreamDuplicateWindow).

#[global] Instance Server_js : JetStream Text (list (StoredMsg Text)) := {
  js_publish now subject id data b :=
    match List.find (fun def => owns def subject) AllStreams with
    | None => Err (MsgErr "nats: no stream matches subject")
    | Some def =>
        if existsb (seen now subject id) b then Ok (tt, b)
        else Ok (tt, (b ++ [{| sm_Stream := sd_Name def; sm_Subject := subject; sm_ID := id; sm_Data := data;
                               sm_Time := now |}])%list)
    end }.

#[global] Instance Server_laws : JetStreamLaws Server_js.
Proof.
  refine {| js_history := fun b => b |}; cbn [js_publish Server_js].
  - intros now subject id data b b'. destruct (List.find (fun def => owns def subject) AllStreams) as [def|] eqn:Ef; [|done].
    apply find_some in Ef as [Hin Ho]. destruct (existsb _ b) eqn:Es; intros [= <-].
    + right. split; [done|]. apply existsb_exists in Es as (m & Hm & Hs). exists m.
      apply andb_true_iff in Hs as [[[Hid%String.eqb_eq Hst%inStreamb_spec]%andb_true_iff _]%andb_true_iff _].
      by rewrite list_elem_of_In.
    + left. exists (sd_Name def). split; [|done]. exists def. by rewrite list_elem_of_In.
  - intros now subject id data b b' m. destruct (List.find (fun def => owns def subject) AllStreams) as [def|] eqn:Ef; [|done].
    intros Hp Hm Hid Hst Ht. assert (existsb (seen now subject id) b = true) as Es.
    { apply existsb_exists. exists m. rewrite <- list_elem_of_In. split; [done|].
      unfold seen. apply inStreamb_spec in Hst. rewrite Hid, String.eqb_refl, Hst.
      destruct (Z.leb_spec 0 (now - sm_Time m)), (Z.ltb_spec (now - sm_Time m) StreamDuplicateWindow); lia || done. }
    rewrite Es in Hp. by injection Hp as <-.
  - intros now subject id data b name (def & Hin & _ & Ho).
    destruct (List.find (fun def => owns def subject) AllStreams) eqn:Ef; [by destruct (existsb _ b)|].
    eapply find_none in Ef; [|by apply list_elem_of_In]. simpl in Ef. congruence.
Defined.

(** ** Rows *)

Abbreviation Row := (@OutboxRow Qlib Text).

(** The JSON of a transfer, of which only the id is read. *)
Definition transferJson (id : ascii) : Text :=
  TAny (AMap (map (fun f => (f, if String.eqb f "ID" then AString (@uuid_String Qlib id) else AOther)) TransferWorker.transferFields)).

Definition row (id tenant : ascii) (ty : string) (created : Z) : Row :=
  {| or_ID := id; or_AggregateType := "transfer"; or_AggregateID := "i"%char; or_TenantID := tenant;
     or_EventType := ty; or_Payload := if String.eqb ty EventTransferCreated then transferJson "i"%char
                   else TAny (AMap [("transfer_id", AString (@uuid_String Qlib "i"%char))]);
     or_IsIntent := false; or_Published := false; or_PublishedAt := None; or_RetryCount := 0; or_MaxRetries := 5;
     or_CreatedAt := created |}.

Definition row1 : Row := row "a"%char "t"%char EventTransferCreated 1.
Definition row2 : Row := row "b"%char "t"%char IntentTreasuryReserve 2.
Definition row3 : Row := row "c"%char "u"%char EventTransferCreated 3.

(** ** Two relays and a lost acknowledgement *)

Abbreviation Sys := (@System Qlib Text (list (StoredMsg Text))).

(** A server that answers call 0 at [now] in the way [out]. *)
Definition server {T} (t : T) (now : Z) (out : Outcome) : Sql T :=
  {| sq_tables := t; sq_calls := 0; sq_world _ := {| c_now := now; c_out := out; c_ids _ := None |} |}.

Definition doInsert (rows : list Row) (st : Sys) : Sys :=
  {| sy_rows := sy_rows st ++ rows; sy_bus := sy_bus st; sy_clock := sy_clock st; sy_jobs := sy_jobs st |}.

Definition doFetch (st : Sys) : Sys :=
  {| sy_rows := sy_rows st; sy_bus := sy_bus st; sy_clock := sy_clock st;
     sy_jobs := sy_jobs st ++ map (fun g => {| jb_todo := g; jb_mark := None |}) (groups (batch 500 (sy_rows st))) |}.

Definition doPublish (i : nat) (now : Z) (out : Outcome) (st : Sys) : Sys :=
  match sy_jobs st !! i with
  | Some {| jb_todo := e :: todo; jb_mark := None |} =>
      match encode marshal 8 e with
      | Ok (subject, data) =>
          let '(r, bus) := Publish subject (uuid_String (or_ID e)) data (server (sy_bus st) now out) in
          {| sy_rows := sy_rows st; sy_bus := sq_tables bus; sy_clock := now;
             sy_jobs := <[i := {| jb_todo := todo; jb_mark := Some (e, r) |}]> (sy_jobs st) |}
      | Err _ => st
      end
  | _ => st
  end.

Definition doMark (i : nat) (out : Outcome) (st : Sys) : Sys :=
  match sy_jobs st !! i with
  | Some {| jb_todo := todo; jb_mark := Some (e, r) |} =>
      {| sy_rows := sq_tables (mark e r (server (sy_rows st) 0 out)); sy_bus := sy_bus st; sy_clock := sy_clock st;
         sy_jobs := <[i := {| jb_todo := todo; jb_mark := None |}]> (sy_jobs st) |}
  | _ => st
  end.

Abbreviation rstep := (sstep marshal 8 0 StreamDuplicateWindow).

Lemma doInsert_step rows st : bool_decide (NoDup (map or_ID (sy_rows st ++ rows))) = true ->
  forallb (fun r => negb (or_Published r)) rows = true -> rtc rstep st (doInsert rows st).
Proof.
  intros Hn%bool_decide_eq_true Hu. apply rtc_once, SInsert; [done|]. apply Forall_forall. intros r Hr.
  rewrite forallb_forall in Hu. apply negb_true_iff, Hu. by apply list_elem_of_In.
Qed.

Lemma doFetch_step st : rtc rstep st (doFetch st).
Proof.
  apply rtc_once. apply (SFetch marshal 8 0 StreamDuplicateWindow (server (sy_rows st) 0 Done) 500
    (batch 500 (sy_rows st)) (sq_set (server (sy_rows st) 0 Done) (sy_rows st))); [done|].
  by apply fetch_up.
Qed.

Lemma doPublish_step i now out st : sy_clock st <= now < StreamDuplicateWindow -> rtc rstep st (doPublish i now out st).
Proof.
  intros Hnow. unfold doPublish. destruct (sy_jobs st !! i) as [[todo mk]|] eqn:Ej; [|apply rtc_refl].
  destruct todo as [|e todo]; [apply rtc_refl|]. destruct mk; [apply rtc_refl|].
  destruct (encode marshal 8 e) as [[subject data]|] eqn:Ee; [|apply rtc_refl].
  destruct (Publish _ _ _ _) as [r bus] eqn:Ep. apply rtc_once.
  by apply (SPublish marshal 8 0 StreamDuplicateWindow i e todo subject data (server (sy_bus st) now out)).
Qed.

Lemma doMark_step i out st : rtc rstep st (doMark i out st).
Proof.
  unfold doMark. destruct (sy_jobs st !! i) as [[todo mk]|] eqn:Ej; [|apply rtc_refl].
  destruct mk as [[e r]|]; [|apply rtc_refl]. apply rtc_once. by apply (SMark marshal 8 0 StreamDuplicateWindow i e r todo).
Qed.

Definition lost : Outcome := CallLost (MsgErr "timeout").
Definition down : Outcome := CallFailed (MsgErr "connection refused").

(** Two relays fetch the same rows.  The first publishes row a, and its
    acknowledgement is lost; the second publishes it again and cannot mark it; a
    third poll publishes it once more and marks it. *)
Definition begun : Sys := doFetch (doFetch (doInsert [row1; row2; row3] (sy_start 0 []))).
Definition twice : Sys := doMark 2 down (doPublish 2 20 Done (doMark 0 Done (doPublish 0 10 lost begun))).
Definition thrice : Sys := doMark 4 Done (doPublish 4 30 Done (doFetch twice)).

Lemma thrice_reached : rtc rstep (sy_start 0 []) thrice.
Proof.
  unfold thrice, twice, begun.
  etrans; [|apply doMark_step]. etrans; [|apply doPublish_step; vm_compute; split; [discriminate|reflexivity]].
  etrans; [|apply doFetch_step]. etrans; [|apply doMark_step].
  etrans; [|apply doPublish_step; vm_compute; split; [discriminate|reflexivity]]. etrans; [|apply doMark_step].
  etrans; [|apply doPublish_step; vm_compute; split; [discriminate|reflexivity]].
  etrans; [|apply doFetch_step]. etrans; [|apply doFetch_step]. by apply doInsert_step.
Qed.

Lemma relay_exactly_once_witness :
  map (fun r => (or_ID r, or_Published r, or_RetryCount r)) (sy_rows thrice)
    = [("a"%char, true, 1); ("b"%char, false, 0); ("c"%char, false, 0)]
  /\ map sm_ID (sy_bus thrice) = [@uuid_String Qlib "a"%char]
  /\ NoDup (map sm_ID (js_history (sy_bus thrice))).
Proof.
  split; [vm_compute; reflexivity|]. split; [vm_compute; reflexivity|].
  exact (proj2 (proj2 (relay_exactly_once (L := Qlib) marshal 8 0 StreamDuplicateWindow [] thrice (Z.le_refl _) eq_refl
    thrice_reached))).
Defined.

(** ** A poll, and an outage *)

Lemma merges_skip {A} (gs : list (list A)) l : merges gs l -> merges ([] :: gs) l.
Proof.
  induction 1 as [gs Hg|gs i x g l Hi _ IH]; [apply merges_done; by constructor|].
  by apply (merges_take ([] :: gs) (Datatypes.S i) x g).
Qed.

(** One goroutine after the other. *)
Lemma merges_concat {A} (gs : list (list A)) : merges gs (concat gs).
Proof.
  induction gs as [|g gs IH]; [by apply merges_done|]. simpl.
  induction g as [|x g IHg]; [by apply merges_skip|]. by apply (merges_take ((x :: g) :: gs) 0%nat x g).
Qed.

Definition upStore (rows : list Row) : Sql (list Row) := server rows 5 Done.
Definition polled : @Relays Qlib Text (list (StoredMsg Text)) := {| rl_store := upStore [row3; row2; row1]; rl_bus := server [] 5 Done |}.

Lemma in_range8 : 0 < 8 < 2 ^ 32.
Proof. lia. Qed.

Lemma marshal_ok m : is_ok (marshal m) = true.
Proof. done. Qed.

Lemma poll_publishes_witness :
  map sm_ID (sq_tables (rl_bus (poll marshal 8 500 (@concat Row) polled).2))
    = map (@uuid_String Qlib) ["a"%char; "b"%char; "c"%char]
  /\ exists order new s', poll marshal 8 500 (@concat Row) polled = (Ok tt, s')
     /\ js_history (sq_tables (rl_bus s')) = (js_history (sq_tables (rl_bus polled)) ++ new)%list
     /\ Forall2 (carries marshal 8) new order.
Proof.
  split; [vm_compute; reflexivity|].
  destruct (poll_publishes (L := Qlib) marshal 8 in_range8 marshal_ok 500 (@concat Row) polled (fun _ => eq_refl)
    (fun _ => eq_refl) ltac:(lia) merges_concat) as (order & new & s' & H1 & _ & _ & H4 & H5 & _).
  - vm_compute. repeat constructor; set_solver.
  - apply Forall_forall. intros r _. apply not_elem_of_nil.
  - exists order, new, s'. exact (conj H1 (conj H4 H5)).
Defined.

(** JetStream is unreachable for a tenth of a second. *)
Definition cutOff : @Relays Qlib Text (list (StoredMsg Text)) := {| rl_store := upStore [row1; row2; row3]; rl_bus := server [] 5 down |}.

Lemma cutOff_outage : Outage 500 cutOff.
Proof.
  split; [done|by intros n; eexists| | |]; [vm_compute; repeat constructor; set_solver|simpl; lia|].
  repeat constructor.
Qed.

Lemma outage_abandons_entries_witness :
  map or_RetryCount (sq_tables (rl_store (polls marshal 8 500 (@concat Row) 5 cutOff))) = [5; 5; 5]
  /\ forall limit, batch limit (sq_tables (rl_store (polls marshal 8 500 (@concat Row) 5 cutOff))) = [].
Proof.
  split; [vm_compute; reflexivity|].
  apply (outage_abandons_entries (L := Qlib) marshal 8 in_range8 marshal_ok 500 (@concat Row) merges_concat 5 cutOff cutOff_outage).
  repeat (constructor; [split; [discriminate|vm_compute; discriminate]|]). constructor.
Defined.

(** ** Subjects *)

Lemma routed_to_one_stream_witness : exists k subject name,
  SubjectForEventType (L := Qlib) "provider.onramp.execute" "t"%char 8 = Ok subject
  /\ TenantPartition (L := Qlib) "t"%char 8 = Ok k /\ StreamForSubject subject = name.
Proof.
  destruct (routed_to_one_stream (L := Qlib) "provider.onramp.execute" "t"%char 8 in_range8)
    as (k & subject & name & H1 & _ & _ & H4 & H5 & _).
  exists k, subject, name. exact (conj H4 (conj H1 H5)).
Defined.

Lemma results_miss_transfer_worker_witness : exists subject,
  SubjectForEventType (L := Qlib) EventTreasuryFailed "t"%char 8 = Ok subject
  /\ forall k, natsMatch (PartitionFilter k) subject = false.
Proof.
  eexists. split; [vm_compute; reflexivity|]. intros k.
  apply (results_miss_transfer_worker (L := Qlib) EventTreasuryFailed "t"%char 8 _ k).
  - apply list_elem_of_In. vm_compute. tauto.
  - vm_compute. reflexivity.
Defined.

(** ** The transfer worker *)

Section Worker.
Import Adapter EngineWitness.

Definition dataOf (r : Row) : Text := match marshal (messageOf r) with Ok t => t | Err _ => TAny ANil end.

Definition createdEvent : @Event Qlib Any :=
  {| ev_ID := "a"%char; ev_TenantID := "t"%char; ev_Type := EventTransferCreated; ev_Timestamp := 1;
     ev_Data := match transferJson "i"%char with TAny v => v | _ => ANil end |}.

Lemma created_decodes : unmarshalEvent json (dataOf row1) = Ok createdEvent.
Proof. reflexivity. Qed.

Definition afterCreated : DB := (handleEvent (env 0) deps createdEvent (db Created)).2.

Lemma afterCreated_ok : handleEvent (env 0) deps createdEvent (db Created) = (Ok tt, afterCreated).
Proof.
  apply (pair_ok (handleEvent (env 0) deps createdEvent (db Created))). vm_compute. reflexivity.
Qed.

Lemma redelivered_event_changes_nothing_witness :
  (handleEvent (env 1) deps createdEvent afterCreated).2 = afterCreated.
Proof.
  apply (redelivered_event_changes_nothing (L := Qlib) (env 0) (env 1) deps createdEvent (db Created) afterCreated (Ok tt)
    (db_ok _) afterCreated_ok).
  intros H. apply (f_equal (fun d => length (db_outbox d))) in H. vm_compute in H. discriminate.
Defined.

Definition dlq (stream eventType : string) (data : Text) (n : nat) : result unit * nat := (Ok tt, Datatypes.S n).

Definition world0 : World nat :=
  {| ww_store := db Created; ww_calls := 0; ww_dlq := 0%nat |}.

(** Three deliveries, the first two of which the server does not hear of. *)
Definition crashes (n : Z) : bool := 3 <=? n.

Lemma event_applied_at_most_once_witness :
  let st' := ww_store (deliveries env deps json dlq true crashes (dataOf row1) world0).2 in
  st' = db Created \/ exists k, st' = (handleEvent (env k) deps createdEvent (db Created)).2.
Proof.
  exact (event_applied_at_most_once (L := Qlib) env deps json dlq true crashes (dataOf row1) createdEvent world0 (db_ok _)
    created_decodes).
Defined.

#[global] Instance transferJson_laws : TransferJson json (fun t => transferJson (tr_ID t)).
Proof. split. intros t. eexists. split; [reflexivity|]. split; [|reflexivity]. by apply (bool_decide_eq_true_1 (Forall _ _)). Qed.

Lemma created_entry_funds_transfer_witness :
  ww_calls (deliveries env deps json dlq true crashes (dataOf row1) world0).2 = 3%nat
  /\ exists now, transfers (ww_store (deliveries env deps json dlq true crashes (dataOf row1) world0).2)
      !! "i"%char = Some (transitioned now (transfer Created) Funded).
Proof.
  split; [vm_compute; reflexivity|].
  apply (created_entry_funds_transfer (L := Qlib) env deps json dlq marshal 8 (fun t => transferJson (tr_ID t)) true crashes row1
    (partitionSubject SubjectPrefixTransfer (match TenantPartition (L := Qlib) "t"%char 8 with Ok k => k | Err _ => 0 end)
       EventTransferCreated) (dataOf row1) "i"%char (transfer Created) world0).
  - split; [|reflexivity]. exists (transfer Created). split; reflexivity.
  - vm_compute. reflexivity.
  - apply db_ok.
  - exact (conj eq_refl (fun _ => eq_refl)).
  - apply db_row.
  - reflexivity.
  - reflexivity.
  - reflexivity.
  - vm_compute. repeat constructor; set_solver.
Defined.

(** A handler that always fails is called five times, not six, and a message
    whose dead letter cannot be published is gone. *)
Example five_calls_then_lost :
  consumeAll json (fun _ n => (Err (MsgErr "down"), Datatypes.S n)) (fun _ _ _ n => (Err (MsgErr "down"), n))
    StreamTransfers false (fun _ => true) (dataOf row1) 0%nat = (Exhausted, 5%nat).
Proof. vm_compute. reflexivity. Qed.
End Worker.
End RelayRuns.
