(* ===== verification/ProviderTxs.v ===== *)
(** * store: provider transactions

    Models src/store/transferdb/provider_tx_adapter.go: the claims that keep a
    provider call from being made twice, over the table provider_transactions
    and the route columns of transfers.  Statements run on a session that can
    fail or lose its answer ([Sql]). *)

From S2P Require Import Prelude ThirdParty Sql Money Deposits Transfer Outbox TransferStore.
Local Open Scope string_scope.
Local Open Scope Z_scope.

Module ProviderTxs.
Section ProviderTxs.
Context {L : ThirdParty}.

(** [domain.ProviderTx]. *)
Record ProviderTx := {
  ptx_ID : string; ptx_ExternalID : string; ptx_Status : string; ptx_Amount : Decimal;
  ptx_Currency : Currency; ptx_TxHash : string; ptx_Metadata : gmap string string }.

Definition ProviderTxTypeOnRamp := "onramp".
Definition ProviderTxTypeOffRamp := "offramp".
Definition ProviderTxStatusPending := "pending".
Definition ProviderTxStatusCompleted := "completed".
Definition ProviderTxStatusConfirmed := "confirmed".
Definition ProviderTxStatusFailed := "failed".

(** [ProviderTxStatus.IsTerminal]. *)
Definition IsTerminal (s : string) : bool :=
  String.eqb s ProviderTxStatusCompleted || String.eqb s ProviderTxStatusConfirmed
  || String.eqb s ProviderTxStatusFailed.

(** A row; the columns no statement here reads back are left out. *)
Record TxRow := {
  px_ID : UUID; px_TenantID : UUID; px_Provider : string; px_TxType : string;
  px_ExternalID : option string; px_TransferID : UUID; px_Status : string; px_Amount : Decimal;
  px_Currency : string; px_TxHash : option string; px_Metadata : gmap string string }.

(** The tables of the transfer database: the transactions and those of the
    transfer store.  [pt_stablecoin] is whether transfers has the column that
    [UpdateTransferRoute] names: the migration calls it stable_coin, so on the
    shipped schema it has not. *)
Record PTables := { pt_txs : list TxRow; pt_db : Adapter.DB; pt_stablecoin : bool }.

Abbreviation PDB := (Sql PTables).

Definition set_txs (t : PTables) (txs : list TxRow) : PTables := 
  {| pt_txs := txs; pt_db := pt_db t; pt_stablecoin := pt_stablecoin t |}.
Definition set_db (t : PTables) (db : Adapter.DB) : PTables := 
  {| pt_txs := pt_txs t; pt_db := db; pt_stablecoin := pt_stablecoin t |}.

Definition txTypeToDB (workerType : string) : string :=
  if String.eqb workerType "onramp" then "ON_RAMP"
  else if String.eqb workerType "offramp" then "OFF_RAMP"
  else if String.eqb workerType "blockchain" then "BLOCKCHAIN"
  else workerType.

(** The values of provider_tx_type_enum. *)
Definition isTxType (s : string) : bool := existsb (String.eqb s) ["ON_RAMP"; "OFF_RAMP"; "BLOCKCHAIN"].
Definition badEnum : error := MsgErr "invalid input value for enum".

Definition nullText (s : string) : option string := if String.eqb s "" then None else Some s.

(** [WHERE transfer_id = $1 AND tx_type = $2]. *)
Definition isTx (transferID : UUID) (dbType : string) (r : TxRow) : bool :=
  bool_decide (px_TransferID r = transferID) && String.eqb (px_TxType r) dbType.

(** The unique index on tenant, transfer and type. *)
Definition isClaim (tenantID transferID : UUID) (dbType : string) (r : TxRow) : bool :=
  bool_decide (px_TenantID r = tenantID) && isTx transferID dbType r.

Definition claimRow (id tenantID : UUID) (provider dbType : string) (transferID : UUID) : TxRow :=
  {| px_ID := id; px_TenantID := tenantID; px_Provider := provider; px_TxType := dbType;
     px_ExternalID := None; px_TransferID := transferID; px_Status := "claiming"; px_Amount := NewFromInt 0;
     px_Currency := ""; px_TxHash := None; px_Metadata := ∅ |}.

(** The id of the new row is the server's; [None] is a claim taken already. *)
Definition ClaimProviderTransaction (tenantID transferID : UUID) (txType provider : string)
  : PDB -> result (option UUID) * PDB := fun d =>
  let dbType := txTypeToDB txType in
  let '(r, d) := transact (fun c t =>
    if negb (isTxType dbType) then Err badEnum
    else match c_ids c 0%nat with
         | None => Err notNull
         | Some id =>
             if existsb (isClaim tenantID transferID dbType) (pt_txs t) then Ok (None, t)
             else Ok (Some id, set_txs t (pt_txs t ++ [claimRow id tenantID provider dbType transferID]))
         end) d in
  (wrap "claim" r, d).

(** The row as a [ProviderTx]. *)
Definition txOf (r : TxRow) : ProviderTx :=
  {| ptx_ID := uuid_String (px_ID r); ptx_ExternalID := default "" (px_ExternalID r); ptx_Status := px_Status r;
     ptx_Amount := px_Amount r; ptx_Currency := px_Currency r; ptx_TxHash := default "" (px_TxHash r);
     ptx_Metadata := px_Metadata r |}.

Definition GetProviderTransaction (tenantID transferID : UUID) (txType : string)
  : PDB -> result (option ProviderTx) * PDB := fun d =>
  let dbType := txTypeToDB txType in
  let '(r, d) := query (fun _ t =>
    if negb (isTxType dbType) then Err badEnum
    else Ok (txOf <$> head (filter (fun r => isClaim tenantID transferID dbType r = true) (pt_txs t)))) d in
  (wrap "get" r, d).

Definition updatedRow (tx : ProviderTx) (r : TxRow) : TxRow :=
  {| px_ID := px_ID r; px_TenantID := px_TenantID r; px_Provider := px_Provider r; px_TxType := px_TxType r;
     px_ExternalID := nullText (ptx_ExternalID tx); px_TransferID := px_TransferID r; px_Status := ptx_Status tx;
     px_Amount := px_Amount r; px_Currency := px_Currency r; px_TxHash := nullText (ptx_TxHash tx);
     px_Metadata := ptx_Metadata tx |}.

(** The rows the UPDATE touches. *)
Definition isOpen (transferID : UUID) (dbType : string) (r : TxRow) : bool :=
  isTx transferID dbType r
  && negb (String.eqb (px_Status r) "completed") && negb (String.eqb (px_Status r) "confirmed").

(** The unique index on provider and external id. *)
Definition externalKeys (txs : list TxRow) : list (string * string) :=
  omap (fun r => match px_ExternalID r with
                 | Some x => if String.eqb x "" then None else Some (px_Provider r, x)
                 | None => None
                 end) txs.

Definition UpdateProviderTransaction (transferID : UUID) (txType : string) (tx : ProviderTx)
  : PDB -> result unit * PDB := fun d =>
  let dbType := txTypeToDB txType in
  let '(r, d) := transact (fun _ t =>
    if negb (isTxType dbType) then Err badEnum
    else
      let txs := map (fun r => if isOpen transferID dbType r then updatedRow tx r else r) (pt_txs t) in
      if bool_decide (NoDup (externalKeys txs))
      then Ok (Z.of_nat (length (filter (fun r => isOpen transferID dbType r = true) (pt_txs t))), set_txs t txs)
      else Err duplicateKey) d in
  match r with
  | Err e => (Err (WrapErr "update" e), d)
  | Ok n => (if n =? 0 then Err (DomainErr CodeOptimisticLock) else Ok tt, d)
  end.

(** [COALESCE(NULLIF($2, ''), on_ramp_provider_id)] and so on. *)
Definition routed (onRamp offRamp chain coin : string) (now : Z) (t : Transfer) : Transfer :=
  {| tr_ID := tr_ID t; tr_TenantID := tr_TenantID t; tr_ExternalRef := tr_ExternalRef t;
     tr_IdempotencyKey := tr_IdempotencyKey t; tr_Status := tr_Status t; tr_Version := tr_Version t;
     tr_SourceCurrency := tr_SourceCurrency t; tr_SourceAmount := tr_SourceAmount t;
     tr_DestCurrency := tr_DestCurrency t; tr_DestAmount := tr_DestAmount t;
     tr_StableCoin := coalesceText coin (tr_StableCoin t);
     tr_StableAmount := tr_StableAmount t; tr_Chain := coalesceText chain (tr_Chain t); tr_FXRate := tr_FXRate t;
     tr_Fees := tr_Fees t; tr_FeeScheduleSnapshot := tr_FeeScheduleSnapshot t;
     tr_OnRampProviderID := coalesceText onRamp (tr_OnRampProviderID t);
     tr_OffRampProviderID := coalesceText offRamp (tr_OffRampProviderID t); tr_Sender := tr_Sender t;
     tr_Recipient := tr_Recipient t; tr_QuoteID := tr_QuoteID t; tr_BlockchainTxs := tr_BlockchainTxs t;
     tr_CreatedAt := tr_CreatedAt t; tr_UpdatedAt := now; tr_FundedAt := tr_FundedAt t;
     tr_CompletedAt := tr_CompletedAt t; tr_FailedAt := tr_FailedAt t; tr_FailureReason := tr_FailureReason t;
     tr_FailureCode := tr_FailureCode t |}.

Definition UpdateTransferRoute (transferID : UUID) (onRamp offRamp chain coin : string) (now : Z) (t : PTables) : result PTables :=
  if negb (pt_stablecoin t) then Err (WrapErr "update transfer route" (MsgErr "column stablecoin of relation transfers does not exist"))
  else Ok (set_db t (Adapter.db_set (pt_db t) (Adapter.db_nextid (pt_db t))
    (alter (routed onRamp offRamp chain coin now) transferID (Adapter.db_transfers (pt_db t)))
    (Adapter.db_quotes (pt_db t)) (Adapter.db_outbox (pt_db t)))).

Definition DeleteProviderTransaction (transferID : UUID) (dbType : string) (t : PTables) : result PTables :=
  if negb (isTxType dbType) then Err (WrapErr "delete" badEnum)
  else Ok (set_txs t (filter (fun r => isTx transferID dbType r = false) (pt_txs t))).

(** One transaction: the delete and the new route. *)
Definition SwitchRoute (transferID : UUID) (txType onRamp offRamp chain coin : string)
  : PDB -> result unit * PDB :=
  transact (fun c t =>
    let? t := wrap "switch-route delete" (DeleteProviderTransaction transferID (txTypeToDB txType) t) in
    let? t := wrap "switch-route update" (UpdateTransferRoute transferID onRamp offRamp chain coin (c_now c) t) in
    Ok (tt, t)).

(** ** Facts *)

Definition claimed (tenantID transferID : UUID) (txType : string) (t : PTables) : bool :=
  existsb (isClaim tenantID transferID (txTypeToDB txType)) (pt_txs t).

(** The statements of a switch of routes that go through. *)
Lemma switch_statements id ty a b c e now t x :
  (let? t := wrap "switch-route delete" (DeleteProviderTransaction id (txTypeToDB ty) t) in
   let? t := wrap "switch-route update" (UpdateTransferRoute id a b c e now t) in Ok (tt, t)) = Ok x ->
  pt_txs x.2 = filter (fun r => isTx id (txTypeToDB ty) r = false) (pt_txs t)
  /\ pt_stablecoin t = true /\ pt_stablecoin x.2 = true.
Proof.
  unfold DeleteProviderTransaction, UpdateTransferRoute. destruct (isTxType _); [|done]. simpl.
  destruct (pt_stablecoin t) eqn:E; [|done]. simpl. by intros [= <-].
Qed.

(** On the shipped schema a switch of routes never goes through: the route of
    the transfer and the claim of the provider that failed stay. *)
Lemma switch_needs_column id ty a b c e d : pt_stablecoin (sq_tables d) = false ->
  is_ok (SwitchRoute id ty a b c e d).1 = false /\ sq_tables (SwitchRoute id ty a b c e d).2 = sq_tables d.
Proof.
  intros H. destruct (SwitchRoute id ty a b c e d) as [r d'] eqn:E. unfold SwitchRoute in E. cbn [fst snd].
  apply transact_inv in E as [(-> & Hr & _)|(x & Hf & _)]; [done|].
  apply switch_statements in Hf as (_ & Hc & _). congruence.
Qed.

(** What a claim can do, failures and lost answers included. *)
Lemma claim_inv tn id ty prov d r d' : ClaimProviderTransaction tn id ty prov d = (r, d') ->
  (sq_tables d' = sq_tables d /\ (r = Ok None /\ claimed tn id ty (sq_tables d) = true \/ is_ok r = false))
  \/ (claimed tn id ty (sq_tables d) = false /\ claimed tn id ty (sq_tables d') = true
      /\ pt_db (sq_tables d') = pt_db (sq_tables d)
      /\ ((exists i, r = Ok (Some i)) \/ is_ok r = false)).
Proof.
  unfold ClaimProviderTransaction. destruct (transact _ d) as [r0 d0] eqn:E. intros [= <- <-].
  apply transact_inv in E as [(Hd & Hr & _)|(a & Hf & Hr)].
  { left. split; [done|]. right. by destruct r0. }
  destruct (isTxType _); [|done]. simpl in Hf. destruct (c_ids _ _) as [i|]; [|done].
  destruct (existsb _ (pt_txs (sq_tables d))) eqn:Ex; injection Hf as <- Hd.
  - left. split; [done|]. destruct Hr as [->|Hr]; [left; done|right; by destruct r0].
  - right. rewrite <- Hd. unfold claimed. simpl. rewrite Ex, existsb_app. simpl.
    split_and!; [done| |done|destruct Hr as [->|Hr]; [left; by exists i|right; by destruct r0]].
    unfold isClaim, isTx. simpl. rewrite !bool_decide_true, String.eqb_refl by done. by rewrite orb_true_r.
Qed.

(** Updates keep the claims. *)
Lemma update_inv id ty tx d r d' : UpdateProviderTransaction id ty tx d = (r, d') ->
  pt_db (sq_tables d') = pt_db (sq_tables d)
  /\ forall tn i k, existsb (isClaim tn i k) (pt_txs (sq_tables d')) = existsb (isClaim tn i k) (pt_txs (sq_tables d)).
Proof.
  unfold UpdateProviderTransaction. destruct (transact _ d) as [r0 d0] eqn:E. intros H.
  assert (d' = d0) as -> by (destruct r0; congruence). clear H.
  apply transact_inv in E as [(Hd & _)|(n & Hf & _)]; [by rewrite Hd|].
  destruct (isTxType _); [|done]. simpl in Hf. case_bool_decide as Hk; [|done]. injection Hf as <- <-. split; [done|]. clear Hk.
  intros tn i k. simpl. induction (pt_txs (sq_tables d)) as [|x l IH]; [done|]. simpl. rewrite IH.
  by destruct (isOpen id (txTypeToDB ty) x).
Qed.
End ProviderTxs.
End ProviderTxs.
