(* ===== verification/ProviderWorker.v ===== *)
(** * node/worker: the provider worker

    Models src/node/worker/provider_worker.go: an intent to convert money is
    claimed, given to the provider behind a bulkhead, a circuit breaker and
    retries, moved to a fallback provider when that fails, and its outcome
    recorded and reported to the engine; and the processing of the providers'
    answers by webhook, src/node/worker/webhook_inbound.go.

    The two handlers of the source differ in the request, the route they
    switch and the engine call; [rampLoop] is their common loop, [handleOnRamp]
    and [handleOffRamp] fill it in.  The providers are services: a function on
    a state [Pr] that is called with a provider id and a request.  The
    breakers and bulkheads are shared with other messages, so an attempt finds
    them in any state ([Attempt]). *)

From S2P Require Import Prelude ThirdParty GoNumbers Sql Money Deposits Transfer Outbox TransferStore Resilience Engine EngineFacts TreasuryWorker ProviderTxs.
Local Open Scope string_scope.
Local Open Scope Z_scope.

Module ProviderWorker.
Import ProviderTxs.

(** [errors.Is(err, sentinel)] for a plain sentinel. *)
Fixpoint errorsIs (target e : error) : bool :=
  bool_decide (e = target) || match e with WrapErr _ e' => errorsIs target e' | _ => false end.

Definition ctxCanceled : error := MsgErr "context canceled".
Definition ctxDeadlineExceeded : error := MsgErr "context deadline exceeded".

(** The text of an error. *)
Fixpoint errorText (e : error) : string :=
  match e with
  | DomainErr _ => "domain error"
  | OptimisticLockErr => "optimistic lock"
  | MsgErr tag | PanicErr tag => tag
  | WrapErr ctx e => ctx +:+ ": " +:+ errorText e
  end.

Definition shouldRetryProviderError (e : error) : bool :=
  if errorsIs Breaker.ErrCircuitOpen e then false
  else negb (errorsIs ctxCanceled e || errorsIs ctxDeadlineExceeded e).

Section Worker.
Context {L : ThirdParty} {Pr : Type}.

Record OnRampRequest := {
  onr_Amount : Decimal; onr_FromCurrency : Currency; onr_ToCurrency : Currency; onr_Reference : string;
  onr_IdempotencyKey : string; onr_QuotedRate : Decimal }.

Record OffRampRequest := {
  ofr_Amount : Decimal; ofr_FromCurrency : Currency; ofr_ToCurrency : Currency; ofr_Recipient : Recipient;
  ofr_Reference : string; ofr_IdempotencyKey : string; ofr_QuotedRate : Decimal; ofr_SourceTxHash : string }.

(** ** The protected call *)

(** What one attempt finds: the context, the clock, the bulkhead and the
    breaker of the provider, where it has them. *)
Record Attempt := {
  at_ctx : option error; at_now : Z; at_bulkhead : option Bulkhead.Bulkhead;
  at_breaker : option Breaker.CircuitBreaker }.

(** One [handleOnRamp] finds, for its [k]-th provider: the attempts, the
    context after each, and how the sleeps between them end. *)
Record CallEnv := {
  ce_attempt : nat -> Attempt; ce_ctxErr : nat -> option error; ce_interrupted : nat -> option error;
  ce_random : nat -> SpecFloat.spec_float }.

(** Whether an attempt reaches the provider, or the error it ends with.  This is
    [executeOnRampWithCB] and [executeOffRampWithCB] up to the call. *)
Definition reaches (a : Attempt) : result unit :=
  let cbCall :=
    match at_breaker a with
    | None => Ok tt
    | Some cb => (Breaker.Execute (at_ctx a) (at_now a) (Breaker.Returned None) (at_now a) cb).1
    end in
  match at_bulkhead a with
  | None => cbCall
  | Some b => (Bulkhead.Execute (at_ctx a) cbCall b).1
  end.

Section Execute.
Context {R X : Type} (Execute : R -> Pr -> result X * Pr) (req : R).

Definition executeWithCB (a : Attempt) (p : Pr) : result X * Pr :=
  match reaches a with
  | Err e => (Err e, p)
  | Ok _ => Execute req p
  end.

(** The provider after [n] attempts, and the outcome of attempt [i]. *)
Fixpoint after (env : CallEnv) (n : nat) (p : Pr) : Pr :=
  match n with
  | O => p
  | Datatypes.S n => (executeWithCB (ce_attempt env n) (after env n p)).2
  end.

Definition attemptResult (env : CallEnv) (p : Pr) (i : nat) : result X :=
  (executeWithCB (ce_attempt env i) (after env i p)).1.

Definition providerRetryConfig : Retry.RetryConfig :=
  {| Retry.Operation := "provider"; Retry.MaxAttempts := 3; Retry.InitialDelay := 200 * 1000000;
     Retry.MaxDelay := 0; Retry.Multiplier := f64_of_Z 2; Retry.JitterFactor := f64_ratio 1 5 |}.

(** [executeOnRamp] and [executeOffRamp]: the transaction is that of the last
    attempt. *)
Definition executeRetried (env : CallEnv) (p : Pr) : result X * Pr :=
  let '(r, n, _) := Retry.Retry providerRetryConfig (fun _ => shouldRetryProviderError)
    {| Retry.fn i := match attemptResult env p i with Ok _ => None | Err e => Some e end;
       Retry.ctxErr := ce_ctxErr env; Retry.interrupted := ce_interrupted env; Retry.random := ce_random env |} in
  (match r with
   | Err e => Err e
   | Ok _ => attemptResult env p (Nat.pred n)
   end, after env n p).
End Execute.

(** ** The loop *)

Record World := { pw_db : Sql PTables; pw_prov : Pr }.

Definition set_pdb (w : World) (d : Sql PTables) : World := {| pw_db := d; pw_prov := pw_prov w |}.

Definition onDB {A} (f : Sql PTables -> result A * Sql PTables) (w : World) : result A * World :=
  let '(r, d) := f (pw_db w) in (r, set_pdb w d).

(** A call of the engine: its reads and its one transaction. *)
Definition engineCall (f : Adapter.DB -> result unit * Adapter.DB) : Sql PTables -> result unit * Sql PTables :=
  transact (fun _ t => let '(r, db) := f (pt_db t) in let? _ := r in Ok (tt, set_db t db)).

Definition failedTx : ProviderTx :=
  {| ptx_ID := ""; ptx_ExternalID := ""; ptx_Status := "failed"; ptx_Amount := dZero; ptx_Currency := "";
     ptx_TxHash := ""; ptx_Metadata := ∅ |}.

Definition failure (text code : string) : IntentResult :=
  {| ir_Success := false; ir_ProviderRef := ""; ir_TxHash := ""; ir_Error := text; ir_ErrorCode := code;
     ir_Metadata := ∅ |}.

(** What the two directions differ in; [rm_next] is the provider and the target
    currency of a fallback, [S] what the loop changes in its payload. *)
Record Ramp (A S : Type) := {
  rm_kind : string;
  rm_txType : string;
  rm_tenant : UUID;
  rm_transfer : UUID;
  rm_known : string -> bool;
  rm_execute : nat -> string -> S -> Pr -> result ProviderTx * Pr;
  rm_switch : A -> Sql PTables -> result unit * Sql PTables;
  rm_next : A -> S -> string * S;
  rm_report : IntentResult -> Sql PTables -> result unit * Sql PTables;
  rm_notFound : string;
  rm_failed : string;
  rm_success : ProviderTx -> IntentResult;
}.
#[global] Arguments rm_kind {A S} _.
#[global] Arguments rm_txType {A S} _.
#[global] Arguments rm_tenant {A S} _.
#[global] Arguments rm_transfer {A S} _.
#[global] Arguments rm_known {A S} _ _.
#[global] Arguments rm_execute {A S} _ _ _ _ _.
#[global] Arguments rm_switch {A S} _ _ _.
#[global] Arguments rm_next {A S} _ _ _.
#[global] Arguments rm_report {A S} _ _ _.
#[global] Arguments rm_notFound {A S} _.
#[global] Arguments rm_failed {A S} _.
#[global] Arguments rm_success {A S} _ _.

Definition claim {A S} (m : Ramp A S) (providerID : string) : Sql PTables -> result (option UUID) * Sql PTables :=
  ClaimProviderTransaction (rm_tenant m) (rm_transfer m) (rm_txType m) providerID.

Definition record {A S} (m : Ramp A S) (tx : ProviderTx) : Sql PTables -> result unit * Sql PTables :=
  UpdateProviderTransaction (rm_transfer m) (rm_txType m) tx.

(** Give up: the transaction is marked failed, if possible, and the engine told. *)
Definition giveUp {A S} (m : Ramp A S) (text code : string) (w : World) : result unit * World :=
  let w := (onDB (record m failedTx) w).2 in
  onDB (rm_report m (failure text code)) w.

(** The transaction of the provider is recorded, an error there is logged;
    unless it is pending the engine is told. *)
Definition settle {A S} (m : Ramp A S) (tx : ProviderTx) (w : World) : result unit * World :=
  let w := (onDB (record m tx) w).2 in
  if String.eqb (ptx_Status tx) ProviderTxStatusPending then (Ok tt, w)
  else onDB (rm_report m (rm_success m tx)) w.

Fixpoint rampLoop {A S} (m : Ramp A S) (k : nat) (alternatives : list A) (providerID : string) (s : S) (w : World)
  : result unit * World :=
  let '(c, w) := onDB (claim m providerID) w in
  match c with
  | Err e => (Err (WrapErr ("claim " +:+ rm_txType m) e), w)
  | Ok None => (Ok tt, w)
  | Ok (Some _) =>
      if negb (rm_known m providerID)
      then giveUp m ("unknown " +:+ rm_kind m +:+ " provider: " +:+ providerID) (rm_notFound m) w
      else
        let '(x, p) := rm_execute m k providerID s (pw_prov w) in
        let w := {| pw_db := pw_db w; pw_prov := p |} in
        match x with
        | Ok tx => settle m tx w
        | Err e =>
            if errorsIs Breaker.ErrCircuitOpen e then (Err e, w)
            else match alternatives with
                 | [] => giveUp m (errorText e) (rm_failed m) w
                 | alt :: remaining =>
                     let '(r, w) := onDB (rm_switch m alt) w in
                     match r with
                     | Err _ => giveUp m (errorText e) (rm_failed m) w
                     | Ok _ => let '(p, s) := rm_next m alt s in rampLoop m (Datatypes.S k) remaining p s w
                     end
                 end
        end
  end.

(** ** The handlers *)

(** The worker's providers and the engine it reports to. *)
Record Config := {
  cf_onRamp : string -> option (OnRampRequest -> Pr -> result ProviderTx * Pr);
  cf_offRamp : string -> option (OffRampRequest -> Pr -> result ProviderTx * Pr);
  cf_deps : Deps;
}.

(** What one delivery finds. *)
Record DeliveryEnv := { de_calls : nat -> CallEnv; de_engine : EEnv }.

Definition present {A} (o : option A) : bool := match o with Some _ => true | None => false end.

Definition noProvider : error := PanicErr "nil provider".

Definition onRamp (cf : Config) (env : DeliveryEnv) (p : ProviderOnRampPayload) : Ramp OnRampFallback Currency :=
  {| rm_kind := "on-ramp"; rm_txType := ProviderTxTypeOnRamp; rm_tenant := onp_TenantID p; rm_transfer := onp_TransferID p;
     rm_known id := present (cf_onRamp cf id);
     rm_execute k id toCurrency st :=
       match cf_onRamp cf id with
       | None => (Err noProvider, st)
       | Some Execute => executeRetried Execute
           {| onr_Amount := onp_Amount p; onr_FromCurrency := onp_FromCurrency p; onr_ToCurrency := toCurrency;
              onr_Reference := onp_Reference p; onr_IdempotencyKey := ""; onr_QuotedRate := onp_QuotedRate p |}
           (de_calls env k) st
       end;
     rm_switch alt := SwitchRoute (onp_TransferID p) ProviderTxTypeOnRamp (onf_ProviderID alt) (onf_OffRampProvider alt)
                        (onf_Chain alt) (onf_StableCoin alt);
     rm_next alt _ := (onf_ProviderID alt, onf_StableCoin alt);
     rm_report r := engineCall (HandleOnRampResult (TS := Adapter.TransferStoreAdapter) (de_engine env) (cf_deps cf) (onp_TenantID p) (onp_TransferID p) r);
     rm_notFound := "PROVIDER_NOT_FOUND"; rm_failed := "ONRAMP_EXECUTION_FAILED";
     rm_success tx := {| ir_Success := true; ir_ProviderRef := ptx_ExternalID tx; ir_TxHash := ptx_TxHash tx;
                         ir_Error := ""; ir_ErrorCode := ""; ir_Metadata := ∅ |} |}.

Definition offRamp (cf : Config) (env : DeliveryEnv) (p : ProviderOffRampPayload) : Ramp OffRampFallback unit :=
  {| rm_kind := "off-ramp"; rm_txType := ProviderTxTypeOffRamp; rm_tenant := ofp_TenantID p; rm_transfer := ofp_TransferID p;
     rm_known id := present (cf_offRamp cf id);
     rm_execute k id _ st :=
       match cf_offRamp cf id with
       | None => (Err noProvider, st)
       | Some Execute => executeRetried Execute
           {| ofr_Amount := ofp_Amount p; ofr_FromCurrency := ofp_FromCurrency p; ofr_ToCurrency := ofp_ToCurrency p;
              ofr_Recipient := ofp_Recipient p; ofr_Reference := ofp_Reference p; ofr_IdempotencyKey := "";
              ofr_QuotedRate := ofp_QuotedRate p; ofr_SourceTxHash := ofp_SourceTxHash p |}
           (de_calls env k) st
       end;
     rm_switch alt := SwitchRoute (ofp_TransferID p) ProviderTxTypeOffRamp "" (off_ProviderID alt) "" "";
     rm_next alt s := (off_ProviderID alt, s);
     rm_report r := engineCall (HandleOffRampResult (TS := Adapter.TransferStoreAdapter) (de_engine env) (cf_deps cf) (ofp_TenantID p) (ofp_TransferID p) r);
     rm_notFound := "PROVIDER_NOT_FOUND"; rm_failed := "OFFRAMP_EXECUTION_FAILED";
     rm_success tx := {| ir_Success := true; ir_ProviderRef := ptx_ExternalID tx; ir_TxHash := "";
                         ir_Error := ""; ir_ErrorCode := ""; ir_Metadata := ∅ |} |}.

Context {J V : Type} (js : Json J V).
Variable json_UnmarshalOnRamp : J -> result ProviderOnRampPayload.
Variable json_UnmarshalOffRamp : J -> result ProviderOffRampPayload.

(** A payload that cannot be decoded is acknowledged. *)
Definition handleOnRamp (cf : Config) (env : DeliveryEnv) (event : Event (EventData J V)) (w : World) : result unit * World :=
  match unmarshalEventData js (fun p => match p with PProviderOnRamp x => Some x | _ => None end) json_UnmarshalOnRamp event with
  | Err _ => (Ok tt, w)
  | Ok p => rampLoop (onRamp cf env p) 0 (onp_Alternatives p) (onp_ProviderID p) (onp_ToCurrency p) w
  end.

Definition handleOffRamp (cf : Config) (env : DeliveryEnv) (event : Event (EventData J V)) (w : World) : result unit * World :=
  match unmarshalEventData js (fun p => match p with PProviderOffRamp x => Some x | _ => None end) json_UnmarshalOffRamp event with
  | Err _ => (Ok tt, w)
  | Ok p => rampLoop (offRamp cf env p) 0 (ofp_Alternatives p) (ofp_ProviderID p) tt w
  end.

Definition handleEvent (cf : Config) (env : DeliveryEnv) (event : Event (EventData J V)) (w : World) : result unit * World :=
  if String.eqb (ev_Type _ event) IntentProviderOnRamp then handleOnRamp cf env event w
  else if String.eqb (ev_Type _ event) IntentProviderOffRamp then handleOffRamp cf env event w
  else (Ok tt, w).
End Worker.
End ProviderWorker.

(** ** Manual reviews

    Models src/store/transferdb/review_adapter.go: the reviews that stuck
    transfers are escalated to, over the table manual_reviews, whose
    transfer_id is unique and whose id the insert leaves to the server. *)

Module Reviews.
Import ProviderWorker.
Section Reviews.
Context {L : ThirdParty}.

Record ReviewRow := {
  rv_ID : UUID; rv_TransferID : UUID; rv_TenantID : UUID; rv_Status : string; rv_TransferStatus : string;
  rv_StuckSince : Z; rv_CreatedAt : Z }.

Abbreviation ReviewDB := (Sql (list ReviewRow)).

Definition isDuplicateKeyError (e : error) : bool :=
  containsStr (errorText e) "duplicate key" || containsStr (errorText e) "unique constraint".

(** The query: the unique index on transfer_id refuses a second review. *)
Definition insertReview (transferID tenantID : UUID) (transferStatus : string) (stuckSince : Z)
  : ReviewDB -> result unit * ReviewDB :=
  transact (fun c t =>
    match c_ids c 0%nat with
    | None => Err notNull
    | Some id =>
        if existsb (fun r => bool_decide (rv_TransferID r = transferID)) t then Err duplicateKey
        else Ok (tt, (t ++ [{| rv_ID := id; rv_TransferID := transferID; rv_TenantID := tenantID; rv_Status := "pending";
                               rv_TransferStatus := transferStatus; rv_StuckSince := stuckSince; rv_CreatedAt := c_now c |}])%list)
    end).

Definition CreateManualReview (transferID tenantID : UUID) (transferStatus : string) (stuckSince : Z) (d : ReviewDB)
  : result unit * ReviewDB :=
  let '(r, d) := insertReview transferID tenantID transferStatus stuckSince d in
  (match r with
   | Err e => if isDuplicateKeyError e then Ok tt else Err e
   | Ok _ => Ok tt
   end, d).

Definition isActive (transferID : UUID) (r : ReviewRow) : bool :=
  bool_decide (rv_TransferID r = transferID)
  && (String.eqb (rv_Status r) "pending" || String.eqb (rv_Status r) "investigating").

Definition HasActiveReview (transferID : UUID) : ReviewDB -> result bool * ReviewDB :=
  query (fun _ t => Ok (existsb (isActive transferID) t)).

(** At most one review per transfer. *)
Definition reviews_ok (t : list ReviewRow) : Prop := NoDup (map rv_TransferID t).

Lemma CreateManualReview_inv transferID tenantID status since d r d' :
  CreateManualReview transferID tenantID status since d = (r, d') ->
  sq_tables d' = sq_tables d
  \/ exists row, sq_tables d' = (sq_tables d ++ [row])%list /\ rv_TransferID row = transferID
       /\ isActive transferID row = true /\ transferID ∉ map rv_TransferID (sq_tables d).
Proof.
  unfold CreateManualReview, insertReview. destruct (transact _ d) as [r0 d0] eqn:E. intros [= <- <-].
  apply transact_inv in E as [(Hd & _)|([] & Hf & _)]; [by left|].
  destruct (c_ids _ _) as [id|]; [|done]. destruct (existsb _ _) eqn:Ex; [done|]. injection Hf as Hf.
  right. eexists. split; [symmetry; exact Hf|]. split; [done|]. unfold isActive. cbn. rewrite bool_decide_true by done.
  split; [done|]. intros (row & Hid & Hr)%list_elem_of_fmap. apply not_true_iff_false in Ex. apply Ex, existsb_exists.
  exists row. rewrite <- list_elem_of_In. split; [done|]. by apply bool_decide_eq_true.
Qed.

(** While the server answers, the call succeeds and leaves some review of the
    transfer, not always an active one. *)
Lemma CreateManualReview_up transferID tenantID status since d id : c_out (sq_call d) = Done -> c_ids (sq_call d) 0%nat = Some id ->
  exists d', CreateManualReview transferID tenantID status since d = (Ok tt, d') /\ transferID ∈ map rv_TransferID (sq_tables d').
Proof.
  intros Ho Hid. unfold CreateManualReview, insertReview, transact. rewrite Ho, Hid.
  destruct (existsb _ (sq_tables d)) eqn:Ex; eexists; (split; [reflexivity|]); simpl.
  - apply existsb_exists in Ex as (row & Hr & Hb%bool_decide_eq_true). rewrite <- list_elem_of_In in Hr.
    rewrite <- Hb. by apply list_elem_of_fmap_2.
  - rewrite map_app. set_solver.
Qed.

Lemma reviews_kept transferID tenantID status since d : reviews_ok (sq_tables d) ->
  reviews_ok (sq_tables (CreateManualReview transferID tenantID status since d).2).
Proof.
  intros Hok. destruct (CreateManualReview _ _ _ _ d) as [r d'] eqn:E.
  destruct (CreateManualReview_inv _ _ _ _ _ _ _ E) as [Hd|(row & Hd & Hid & _ & Hno)]; cbn [snd]; rewrite Hd; [done|].
  unfold reviews_ok. rewrite map_app. apply NoDup_app. split_and!; [done| |apply NoDup_singleton].
  intros x Hx Hy. apply list_elem_of_singleton in Hy as ->. simpl in Hx. by rewrite Hid in Hx.
Qed.
End Reviews.
End Reviews.
