(* ===== verification/WebhookInbound.v ===== *)
(** * node/worker: webhooks of the providers

    Models src/node/worker/webhook_inbound.go: a provider's answer arrives as
    raw bytes or normalized, is logged and deduplicated, changes the provider
    transaction, and is reported to the engine; with the log adapter
    src/store/transferdb/provider_webhook_log_adapter.go.  The normalizers
    are code of the providers. *)

From S2P Require Import Prelude ThirdParty Sql Money Deposits Transfer Outbox TransferStore Engine EngineFacts TreasuryWorker ProviderTxs ProviderWorker.
Local Open Scope string_scope.
Local Open Scope Z_scope.

Module WebhookInbound.
Import ProviderTxs ProviderWorker.

Definition EventProviderRawWebhook := "provider.inbound.raw".
Definition EventProviderOnRampWebhook := "provider.inbound.onramp.webhook".
Definition EventProviderOffRampWebhook := "provider.inbound.offramp.webhook".

Section Worker.
Context {L : ThirdParty}.

Record RawWebhookPayload := {
  rw_ProviderSlug : string; rw_RawBody : list Z; rw_IdempotencyKey : string; rw_SourceIP : string }.

Record ProviderWebhookPayload := {
  wp_TransferID : UUID; wp_TenantID : UUID; wp_ProviderID : string; wp_ProviderRef : string; wp_Status : string;
  wp_TxHash : string; wp_Error : string; wp_ErrorCode : string; wp_TxType : string }.

(** ** The log *)

Record LogRow := {
  lg_ID : UUID; lg_ProviderSlug : string; lg_IdempotencyKey : string; lg_TransferID : option UUID;
  lg_TenantID : option UUID; lg_RawBody : list Z; lg_Normalized : option ProviderWebhookPayload; lg_Status : string;
  lg_ErrorMessage : option string; lg_CreatedAt : Z }.

Definition WebhookLogReceived := "received".
Definition WebhookLogProcessed := "processed".
Definition WebhookLogSkipped := "skipped".
Definition WebhookLogFailed := "failed".
Definition WebhookLogDuplicate := "duplicate".

Abbreviation LogDB := (Sql (list LogRow)).

Definition sameKey (slug key : string) (r : LogRow) : bool :=
  String.eqb (lg_ProviderSlug r) slug && String.eqb (lg_IdempotencyKey r) key.

(** The conflict target of the insert includes created_at. *)
Definition InsertRaw (raw : RawWebhookPayload) : LogDB -> result (UUID * Z * bool) * LogDB := fun d =>
  let '(r, d) := transact (fun c t =>
    match c_ids c 0%nat with
    | None => Err notNull
    | Some id =>
        if existsb (fun r => sameKey (rw_ProviderSlug raw) (rw_IdempotencyKey raw) r && (lg_CreatedAt r =? c_now c)) t
        then Ok ((uuid_Nil, 0, true), t)
        else Ok ((id, c_now c, false),
          (t ++ [{| lg_ID := id; lg_ProviderSlug := rw_ProviderSlug raw; lg_IdempotencyKey := rw_IdempotencyKey raw;
                    lg_TransferID := None; lg_TenantID := None; lg_RawBody := rw_RawBody raw; lg_Normalized := None;
                    lg_Status := WebhookLogReceived; lg_ErrorMessage := None; lg_CreatedAt := c_now c |}])%list)
    end) d in
  (wrap "inserting webhook log" r, d).

Definition CheckDuplicate (slug key : string) : LogDB -> result bool * LogDB := fun d =>
  let '(r, d) := query (fun _ t =>
    Ok (existsb (fun r => sameKey slug key r && String.eqb (lg_Status r) WebhookLogProcessed) t)) d in
  (wrap "checking webhook duplicate" r, d).

Definition MarkProcessed (id : UUID) (createdAt : Z) (normalized : option ProviderWebhookPayload) (status errMsg : string)
  : LogDB -> result unit * LogDB :=
  transact (fun _ t => Ok (tt, map (fun r =>
    if bool_decide (lg_ID r = id) && (lg_CreatedAt r =? createdAt) then
      {| lg_ID := lg_ID r; lg_ProviderSlug := lg_ProviderSlug r; lg_IdempotencyKey := lg_IdempotencyKey r;
         lg_TransferID := wp_TransferID <$> normalized; lg_TenantID := wp_TenantID <$> normalized;
         lg_RawBody := lg_RawBody r; lg_Normalized := normalized; lg_Status := status;
         lg_ErrorMessage := nullText errMsg; lg_CreatedAt := lg_CreatedAt r |}
    else r) t)).

(** ** Normalized webhooks *)

(** The engine call of one direction. *)
Definition Report : Type := UUID -> UUID -> IntentResult -> Sql PTables -> result unit * Sql PTables.

Definition changed (payload : ProviderWebhookPayload) (tx : ProviderTx) : ProviderTx :=
  {| ptx_ID := ptx_ID tx;
     ptx_ExternalID := if String.eqb (wp_ProviderRef payload) "" then ptx_ExternalID tx else wp_ProviderRef payload;
     ptx_Status := wp_Status payload; ptx_Amount := ptx_Amount tx; ptx_Currency := ptx_Currency tx;
     ptx_TxHash := if String.eqb (wp_TxHash payload) "" then ptx_TxHash tx else wp_TxHash payload;
     ptx_Metadata := ptx_Metadata tx |}.

(** [isOptimisticLock] finds the domain error; the code of the update. *)
Definition isOptimisticLock (e : error) : bool := bool_decide (error_code e = Some CodeOptimisticLock).

(** [processNormalizedOnRamp] and [processNormalizedOffRamp]. *)
Definition processNormalized (txType : string) (report : Report) (payload : ProviderWebhookPayload) (d : Sql PTables)
  : result unit * Sql PTables :=
  let '(r, d) := GetProviderTransaction (wp_TenantID payload) (wp_TransferID payload) txType d in
  match r with
  | Err e => (Err (WrapErr "looking up provider tx" e), d)
  | Ok None => (Ok tt, d)
  | Ok (Some existing) =>
      if IsTerminal (ptx_Status existing) then (Ok tt, d)
      else
        let '(u, d) := UpdateProviderTransaction (wp_TransferID payload) txType (changed payload existing) d in
        if match u with Err e => isOptimisticLock e | Ok _ => false end then (Ok tt, d)
        else if String.eqb (wp_Status payload) ProviderTxStatusCompleted
             || String.eqb (wp_Status payload) ProviderTxStatusConfirmed then
          report (wp_TenantID payload) (wp_TransferID payload)
            {| ir_Success := true; ir_ProviderRef := wp_ProviderRef payload; ir_TxHash := wp_TxHash payload;
               ir_Error := ""; ir_ErrorCode := ""; ir_Metadata := ∅ |} d
        else if String.eqb (wp_Status payload) ProviderTxStatusFailed then
          report (wp_TenantID payload) (wp_TransferID payload) (failure (wp_Error payload) (wp_ErrorCode payload)) d
        else (Ok tt, d)
  end.

Definition reportOnRamp (env : EEnv) (dp : Deps) : Report := fun tn id r =>
  engineCall (HandleOnRampResult (TS := Adapter.TransferStoreAdapter) env dp tn id r).
Definition reportOffRamp (env : EEnv) (dp : Deps) : Report := fun tn id r =>
  engineCall (HandleOffRampResult (TS := Adapter.TransferStoreAdapter) env dp tn id r).

Definition processNormalizedOnRamp (env : EEnv) (dp : Deps) : ProviderWebhookPayload -> Sql PTables -> result unit * Sql PTables :=
  processNormalized ProviderTxTypeOnRamp (reportOnRamp env dp).
Definition processNormalizedOffRamp (env : EEnv) (dp : Deps) : ProviderWebhookPayload -> Sql PTables -> result unit * Sql PTables :=
  processNormalized ProviderTxTypeOffRamp (reportOffRamp env dp).

(** ** Raw webhooks *)

Record Inbound := { iw_db : Sql PTables; iw_logs : LogDB }.

(** [normalizers slug] is [None] where no normalizer is registered; its function
    returns [None] for an answer that is not final. *)
Variable normalizers : string -> option (list Z -> result (option ProviderWebhookPayload)).

Definition dispatch (env : EEnv) (dp : Deps) (p : ProviderWebhookPayload) (w : Inbound) : result unit * Inbound :=
  let run f := let '(r, d) := f p (iw_db w) in (r, {| iw_db := d; iw_logs := iw_logs w |}) in
  if String.eqb (wp_TxType p) ProviderTxTypeOnRamp then run (processNormalizedOnRamp env dp)
  else if String.eqb (wp_TxType p) ProviderTxTypeOffRamp then run (processNormalizedOffRamp env dp)
  else (Ok tt, w).

(** The decoded payload of [handleRawWebhook]; the text of a normalizer's
    error is left out. *)
Definition processRaw (env : EEnv) (dp : Deps) (raw : RawWebhookPayload) (w : Inbound) : result unit * Inbound :=
  let '(r, logs) := InsertRaw raw (iw_logs w) in
  let w := {| iw_db := iw_db w; iw_logs := logs |} in
  match r with
  | Err e => (Err (WrapErr "storing raw webhook" e), w)
  | Ok (_, _, true) => (Ok tt, w)
  | Ok (id, createdAt, false) =>
      let '(dup, logs) := CheckDuplicate (rw_ProviderSlug raw) (rw_IdempotencyKey raw) (iw_logs w) in
      let mark p status errMsg := {| iw_db := iw_db w; iw_logs := (MarkProcessed id createdAt p status errMsg logs).2 |} in
      if match dup with Ok b => b | Err _ => false end then (Ok tt, mark None WebhookLogDuplicate "")
      else match normalizers (rw_ProviderSlug raw) with
           | None => (Ok tt, mark None WebhookLogFailed "no WebhookNormalizer registered")
           | Some normalize =>
               match normalize (rw_RawBody raw) with
               | Err _ => (Ok tt, mark None WebhookLogFailed "normalization failed")
               | Ok None => (Ok tt, mark None WebhookLogSkipped "non-terminal status")
               | Ok (Some p) => dispatch env dp p (mark (Some p) WebhookLogProcessed "")
               end
           end
  end.

Context {J V : Type} (js : Json J V).
Variable json_UnmarshalRaw : J -> result RawWebhookPayload.
Variable json_UnmarshalWebhook : J -> result ProviderWebhookPayload.

(** No payload struct of an outbox entry is a webhook. *)
Definition unmarshalWebhook : Event (EventData J V) -> result ProviderWebhookPayload :=
  unmarshalEventData js (fun _ => None) json_UnmarshalWebhook.

Definition handleEvent (env : EEnv) (dp : Deps) (event : Event (EventData J V)) (w : Inbound) : result unit * Inbound :=
  let normalized f :=
    match unmarshalWebhook event with
    | Err _ => (Ok tt, w)
    | Ok p => let '(r, d) := f p (iw_db w) in (r, {| iw_db := d; iw_logs := iw_logs w |})
    end in
  if String.eqb (ev_Type _ event) EventProviderRawWebhook then
    match unmarshalEventData js (fun _ => None) json_UnmarshalRaw event with
    | Err _ => (Ok tt, w)
    | Ok raw => processRaw env dp raw w
    end
  else if String.eqb (ev_Type _ event) EventProviderOnRampWebhook then normalized (processNormalizedOnRamp env dp)
  else if String.eqb (ev_Type _ event) EventProviderOffRampWebhook then normalized (processNormalizedOffRamp env dp)
  else (Ok tt, w).
End Worker.
End WebhookInbound.
