(* ===== verification/ProviderProps.v ===== *)
(** * node/worker: what the provider worker guarantees

    [provider_call_exclusive]: deliveries of one intent, however they
    interleave, never call a provider at the same time.  [ack_means_reported]:
    an intent is acknowledged only after its outcome is recorded or reported.
    [circuit_open_strands]: an open circuit found after the claim asks for a
    redelivery that does nothing. *)

From S2P Require Import Prelude ThirdParty Sql Money Deposits Transfer Outbox TransferStore Resilience Engine EngineFacts ProviderTxs ProviderWorker WebhookInbound.
Local Open Scope string_scope.
Local Open Scope Z_scope.

Module ProviderProps.
Import ProviderTxs ProviderWorker.

Section Props.
Context {L : ThirdParty} {Pr : Type}.

(** ** Interleaved deliveries *)

(** A delivery before its claim, with the claim, and after its last call. *)
Inductive Phase : Set := Fresh | Holding | Over.

(** The tables, the providers, and the deliveries. *)
Record PSys := { ps_tables : PTables; ps_prov : Pr; ps_threads : list Phase }.

Section Interleaving.
Variables (tn id : UUID) (ty : string).

(** Steps of the deliveries of one intent, and of whoever else updates the
    transaction or the transfer; [PCall] alone reaches a provider. *)
Inductive pstep : PSys -> PSys -> Prop :=
| PDeliver st : pstep st {| ps_tables := ps_tables st; ps_prov := ps_prov st; ps_threads := ps_threads st ++ [Fresh] |}
| PClaim i prov d r d' st : ps_threads st !! i = Some Fresh -> sq_tables d = ps_tables st ->
    ClaimProviderTransaction tn id ty prov d = (r, d') ->
    pstep st {| ps_tables := sq_tables d'; ps_prov := ps_prov st;
                ps_threads := <[i := match r with Ok (Some _) => Holding | _ => Over end]> (ps_threads st) |}
| PCall i p st : ps_threads st !! i = Some Holding ->
    pstep st {| ps_tables := ps_tables st; ps_prov := p; ps_threads := ps_threads st |}
| PSwitch i a b c e d r d' st : ps_threads st !! i = Some Holding -> sq_tables d = ps_tables st ->
    SwitchRoute id ty a b c e d = (r, d') ->
    pstep st {| ps_tables := sq_tables d'; ps_prov := ps_prov st;
                ps_threads := <[i := match r with Ok _ => Fresh | Err _ => Over end]> (ps_threads st) |}
| PStop i p st : ps_threads st !! i = Some p ->
    pstep st {| ps_tables := ps_tables st; ps_prov := ps_prov st; ps_threads := <[i := Over]> (ps_threads st) |}
| PUpdate tx d r d' st : sq_tables d = ps_tables st -> UpdateProviderTransaction id ty tx d = (r, d') ->
    pstep st {| ps_tables := sq_tables d'; ps_prov := ps_prov st; ps_threads := ps_threads st |}
| PEngine f d r d' st : sq_tables d = ps_tables st -> engineCall f d = (r, d') ->
    pstep st {| ps_tables := sq_tables d'; ps_prov := ps_prov st; ps_threads := ps_threads st |}.

Record PInv (st : PSys) : Prop := {
  pi_one i j : ps_threads st !! i = Some Holding -> ps_threads st !! j = Some Holding -> i = j;
  pi_claim i : ps_threads st !! i = Some Holding -> claimed tn id ty (ps_tables st) = true;
}.

Lemma lookup_insert_phase (ts : list Phase) i j p q : <[i := p]> ts !! j = Some q ->
  (i = j /\ q = p) \/ (i <> j /\ ts !! j = Some q).
Proof.
  destruct (decide (i = j)) as [<-|Hne]; [|rewrite list_lookup_insert_ne by done; auto].
  intros H. left. split; [done|]. pose proof (lookup_lt_Some _ _ _ H) as Hl. rewrite length_insert in Hl.
  rewrite list_lookup_insert_eq in H by done. congruence.
Qed.

(** A thread that does not hold the claim afterwards, over tables that keep it. *)
Lemma inv_leave st i p t pr : PInv st -> p <> Holding ->
  (claimed tn id ty (ps_tables st) = true -> claimed tn id ty t = true \/ ps_threads st !! i = Some Holding) ->
  PInv {| ps_tables := t; ps_prov := pr; ps_threads := <[i := p]> (ps_threads st) |}.
Proof.
  intros [Hone Hcl] Hp Ht. split; simpl.
  - intros j k [[_ ?]|[_ Hj]]%lookup_insert_phase [[_ ?]|[_ Hk]]%lookup_insert_phase; try congruence. by apply Hone.
  - intros j [[_ ?]|[Hne Hj]]%lookup_insert_phase; [congruence|].
    destruct (Ht (Hcl j Hj)) as [|Hi]; [done|]. destruct Hne. by apply Hone.
Qed.

Lemma engine_txs f d r d' : engineCall f d = (r, d') -> pt_txs (sq_tables d') = pt_txs (sq_tables d).
Proof.
  intros H. apply transact_inv in H as [(-> & _)|([] & Hf & _)]; [done|].
  destruct (f (pt_db (sq_tables d))) as [[] db]; [|done]. by injection Hf as <-.
Qed.

Lemma pinv_step st st' : PInv st -> pstep st st' -> PInv st'.
Proof.
  intros HI Hs. destruct Hs as [st|i prov d r d' st Hi Hd Hc|i p st Hi|i a b c e d r d' st Hi Hd Hsw|i p st Hi|tx d r d' st Hd Hu|f d r d' st Hd He].
  - destruct HI as [Hone Hcl]. assert (forall i, (ps_threads st ++ [Fresh])%list !! i = Some Holding -> ps_threads st !! i = Some Holding) as Hold.
    { intros i [H|[_ H]]%lookup_app_Some; [done|]. by destruct (i - length (ps_threads st))%nat as [|[]]. }
    split; simpl; [intros i j Hi Hj; apply Hone; auto|intros i Hi; by apply (Hcl i), Hold].
  - apply claim_inv in Hc as [(Ht & Hr)|(Hno & Hyes & _ & Hr)].
    + apply inv_leave; [done|by destruct Hr as [[-> _]|Hr]; [|destruct r as [[]|]]|]. rewrite Ht, Hd. auto.
    + rewrite Hd in Hno. split; simpl; [|intros j _; exact Hyes].
      intros j k Hj Hk. apply lookup_insert_phase in Hj as [[<- _]|[_ Hj]], Hk as [[<- _]|[_ Hk]]; try done;
        [apply HI in Hk|apply HI in Hj|apply HI in Hj]; congruence.
  - split; simpl; apply HI.
  - apply inv_leave; [done|by destruct r|auto].
  - apply inv_leave; [done|done|auto].
  - destruct (update_inv _ _ _ _ _ _ Hu) as [_ Hk]. split; simpl; [apply HI|]. intros i Hi. unfold claimed. rewrite Hk, Hd.
    by apply HI in Hi.
  - apply engine_txs in He. split; simpl; [apply HI|]. intros i Hi. unfold claimed. rewrite He, Hd. by apply HI in Hi.
Qed.

(** C12: Exclusion.  However the deliveries of one intent interleave, with
    claims, switches and updates that fail or lose their answer, with
    deliveries that stop anywhere and with updates and engine calls of others in
    between, at most one of them holds the claim, so that no provider is ever
    called by two of them at the same time. *)
Theorem provider_call_exclusive t p st i j :
  rtc pstep {| ps_tables := t; ps_prov := p; ps_threads := [] |} st ->
  ps_threads st !! i = Some Holding -> ps_threads st !! j = Some Holding -> i = j.
Proof.
  intros Hs. assert (PInv st) as HI; [|apply HI].
  eapply (invariant_rtc pstep); [exact pinv_step|exact Hs|]. by split.
Qed.

(** *** A delivery is such a run *)

Definition keyed {A S} (m : Ramp (Pr := Pr) A S) : Prop :=
  rm_tenant m = tn /\ rm_transfer m = id /\ rm_txType m = ty
  /\ (forall alt, exists a b c e, rm_switch m alt = SwitchRoute id ty a b c e)
  /\ (forall r, exists f, rm_report m r = engineCall f).

(** The state with the tables and providers of [w] and delivery [i] at [p]. *)
Definition at_ (w : World (Pr := Pr)) (ts : list Phase) (i : nat) (p : Phase) : PSys :=
  {| ps_tables := sq_tables (pw_db w); ps_prov := pw_prov w; ps_threads := <[i := p]> ts |}.

Lemma at_stop w ts i p : (i < length ts)%nat -> rtc pstep (at_ w ts i p) (at_ w ts i Over).
Proof.
  intros Hi. apply rtc_once. unfold at_. rewrite <- (list_insert_insert_eq ts i Over p). eapply PStop. simpl.
  by apply list_lookup_insert_eq.
Qed.

Lemma at_update w ts i p tx : rtc pstep (at_ w ts i p) (at_ (onDB (UpdateProviderTransaction id ty tx) w).2 ts i p).
Proof.
  apply rtc_once. unfold onDB. destruct (UpdateProviderTransaction id ty tx (pw_db w)) as [r d] eqn:E.
  by apply (PUpdate tx (pw_db w) r d (at_ w ts i p)).
Qed.

Lemma at_engine w ts i p f : rtc pstep (at_ w ts i p) (at_ (onDB (engineCall f) w).2 ts i p).
Proof.
  apply rtc_once. unfold onDB. destruct (engineCall f (pw_db w)) as [r d] eqn:E.
  by apply (PEngine f (pw_db w) r d (at_ w ts i p)).
Qed.

Lemma giveUp_steps {A S} (m : Ramp (Pr := Pr) A S) text code w ts i p : keyed m -> (i < length ts)%nat ->
  rtc pstep (at_ w ts i p) (at_ (giveUp m text code w).2 ts i Over).
Proof.
  intros (_ & Hid & Hty & _ & Hrep) Hi. unfold giveUp, record. rewrite Hid, Hty.
  etrans; [apply (at_update w ts i p failedTx)|]. destruct (Hrep (failure text code)) as [f ->].
  etrans; [apply at_engine|]. by apply at_stop.
Qed.

Lemma settle_steps {A S} (m : Ramp (Pr := Pr) A S) tx w ts i : keyed m -> (i < length ts)%nat ->
  rtc pstep (at_ w ts i Holding) (at_ (settle m tx w).2 ts i Over).
Proof.
  intros (_ & Hid & Hty & _ & Hrep) Hi. unfold settle, record. rewrite Hid, Hty.
  etrans; [apply (at_update w ts i Holding tx)|]. destruct (String.eqb _ _); [by apply at_stop|].
  destruct (Hrep (rm_success m tx)) as [f ->]. etrans; [apply at_engine|]. by apply at_stop.
Qed.

Lemma at_claim w ts i prov c d : (i < length ts)%nat -> ClaimProviderTransaction tn id ty prov (pw_db w) = (c, d) ->
  rtc pstep (at_ w ts i Fresh) (at_ (set_pdb w d) ts i (match c with Ok (Some _) => Holding | _ => Over end)).
Proof.
  intros Hi Ec. apply rtc_once. unfold at_ at 2. rewrite <- (list_insert_insert_eq ts i _ Fresh).
  eapply (PClaim i prov (pw_db w) c d (at_ w ts i Fresh)); [by apply list_lookup_insert_eq|done|exact Ec].
Qed.

Lemma at_call w ts i p : (i < length ts)%nat ->
  rtc pstep (at_ w ts i Holding) (at_ {| pw_db := pw_db w; pw_prov := p |} ts i Holding).
Proof. intros Hi. apply rtc_once. apply (PCall i p (at_ w ts i Holding)). by apply list_lookup_insert_eq. Qed.

Lemma at_switch w ts i a b c e r d : (i < length ts)%nat -> SwitchRoute id ty a b c e (pw_db w) = (r, d) ->
  rtc pstep (at_ w ts i Holding) (at_ (set_pdb w d) ts i (match r with Ok _ => Fresh | Err _ => Over end)).
Proof.
  intros Hi Es. apply rtc_once. unfold at_ at 2. rewrite <- (list_insert_insert_eq ts i _ Holding).
  eapply (PSwitch i a b c e (pw_db w) r d (at_ w ts i Holding)); [by apply list_lookup_insert_eq|done|exact Es].
Qed.

(** Every delivery runs by these steps: providers are called between its claim
    and its end or the next switch. *)
Lemma rampLoop_steps {A S} (m : Ramp (Pr := Pr) A S) alts : keyed m -> forall k prov s w ts i, (i < length ts)%nat ->
  rtc pstep (at_ w ts i Fresh) (at_ (rampLoop m k alts prov s w).2 ts i Over).
Proof.
  intros Hk. pose proof Hk as (Htn & Hid & Hty & Hsw & _). induction alts as [|alt alts IH]; intros k prov s w ts i Hi;
    cbn [rampLoop]; unfold onDB at 1, claim; rewrite Htn, Hid, Hty;
    destruct (ClaimProviderTransaction tn id ty prov (pw_db w)) as [c d] eqn:Ec;
    (etrans; [by apply (at_claim w ts i prov c d)|]); (destruct c as [[cid|]|e]; [|apply rtc_refl|apply rtc_refl]);
    (destruct (negb (rm_known m prov)); [by apply giveUp_steps|]);
    destruct (rm_execute m k prov s (pw_prov (set_pdb w d))) as [x p];
    (etrans; [by apply (at_call (set_pdb w d) ts i p)|]);
    (destruct x as [tx|e]; [by apply settle_steps|]);
    (destruct (errorsIs Breaker.ErrCircuitOpen e); [by apply at_stop|]); [by apply giveUp_steps|].
  destruct (Hsw alt) as (a & b & c & e' & Heq). unfold onDB at 1. rewrite Heq. cbn [pw_db set_pdb].
  destruct (SwitchRoute id ty a b c e' d) as [r d'] eqn:Es.
  etrans; [by apply (at_switch {| pw_db := d; pw_prov := p |} ts i a b c e' r d')|].
  destruct r as [[]|e'']; [|by apply giveUp_steps]. destruct (rm_next m alt s) as [p' s']. by apply IH.
Qed.
End Interleaving.

(** ** The outcome of a delivery *)

Section Outcome.
Context {A S : Type} (m : Ramp (Pr := Pr) A S).

(** A claimed intent is left alone, and acknowledged where the claim is answered. *)
Lemma claimed_intent_is_skipped k alts prov s w :
  claimed (rm_tenant m) (rm_transfer m) (rm_txType m) (sq_tables (pw_db w)) = true ->
  sq_tables (pw_db (rampLoop m k alts prov s w).2) = sq_tables (pw_db w)
  /\ pw_prov (rampLoop m k alts prov s w).2 = pw_prov w
  /\ (is_ok (claim m prov (pw_db w)).1 = true -> (rampLoop m k alts prov s w).1 = Ok tt).
Proof.
  intros Hc. destruct (claim m prov (pw_db w)) as [c d] eqn:Ec. pose proof Ec as Hi.
  apply claim_inv in Hi as [[Hd Hr]|[Hno _]]; [|congruence].
  destruct alts as [|alt alts]; cbn [rampLoop]; unfold onDB; rewrite Ec; (destruct Hr as [[-> _]|Hr]; [by rewrite <- Hd|]);
    destruct c; [done| |done|]; by split_and!.
Qed.

(** The acknowledgement of an intent: [w] is the end of a report the engine
    accepted, or of the record of a transaction the provider keeps pending. *)
Definition reported (w : World (Pr := Pr)) : Prop := exists w0,
  (exists r, onDB (rm_report m r) w0 = (Ok tt, w))
  \/ exists k prov s p tx, rm_execute m k prov s p = (Ok tx, pw_prov w0)
       /\ ptx_Status tx = ProviderTxStatusPending /\ w = (onDB (record m tx) w0).2.

(** A switch leaves nothing claimed. *)
Definition frees : Prop := forall alt d d', rm_switch m alt d = (Ok tt, d') ->
  claimed (rm_tenant m) (rm_transfer m) (rm_txType m) (sq_tables d') = false.

Lemma giveUp_reported text code w w' : giveUp m text code w = (Ok tt, w') -> reported w'.
Proof. intros H. eexists. left. eexists. exact H. Qed.

Lemma settle_reported k prov s p tx w w' : rm_execute m k prov s p = (Ok tx, pw_prov w) ->
  settle m tx w = (Ok tt, w') -> reported w'.
Proof.
  intros Hx. unfold settle. destruct (String.eqb _ _) eqn:Es; intros H.
  - apply String.eqb_eq in Es. injection H as <-. exists w. right. by exists k, prov, s, p, tx.
  - eexists. left. eexists. exact H.
Qed.

(** An intent nobody claimed is acknowledged only after its outcome: the
    last thing the worker did was a report the engine accepted, of success or of
    failure, or a provider accepted the conversion and keeps it pending, whose
    outcome its webhook will bring.  This holds through every fallback
    provider. *)
Theorem ack_means_reported k alts prov s w w' : frees ->
  claimed (rm_tenant m) (rm_transfer m) (rm_txType m) (sq_tables (pw_db w)) = false ->
  rampLoop m k alts prov s w = (Ok tt, w') -> reported w'.
Proof.
  intros Hf. revert k prov s w. induction alts as [|alt alts IH]; intros k prov s w Hc; cbn [rampLoop];
    unfold onDB at 1; destruct (claim m prov (pw_db w)) as [c d] eqn:Ec; apply claim_inv in Ec as Hi;
    (destruct c as [[i|]|e]; [|destruct Hi as [[_ [[_ ?]|?]]|(_ & _ & _ & [[? ?]|?])]; by try congruence|done]); clear Hi;
    (destruct (negb _); [apply giveUp_reported|]);
    destruct (rm_execute m k prov s _) as [x p] eqn:Ex;
    (destruct x as [tx|e]; [exact (settle_reported k prov s _ tx {| pw_db := d; pw_prov := p |} w' Ex)|]);
    (destruct (errorsIs _ e); [done|]); [apply giveUp_reported|].
  unfold onDB at 1. destruct (rm_switch m alt _) as [[[]|e'] d'] eqn:Esw; [|apply giveUp_reported].
  destruct (rm_next m alt s) as [p' s']. apply IH. simpl. by apply (Hf _ _ _ Esw).
Qed.

End Outcome.

Section Strand.
Context {A S : Type} (m : Ramp (Pr := Pr) A S).

(** A delivery that claimed its intent and found the provider's circuit open
    asks for a redelivery, but the claim stays: no redelivery, of whatever worker
    and however long after, changes a table or calls a provider while the claim
    is there, and it is acknowledged as soon as the claim is answered.  The
    transfer stays where it was. *)
Theorem circuit_open_strands {B T} (m' : Ramp (Pr := Pr) B T) k alts prov s w i d p e k' alts' prov' s' w' :
  claim m prov (pw_db w) = (Ok (Some i), d) -> rm_known m prov = true ->
  rm_execute m k prov s (pw_prov w) = (Err e, p) -> errorsIs Breaker.ErrCircuitOpen e = true ->
  rm_tenant m' = rm_tenant m -> rm_transfer m' = rm_transfer m -> rm_txType m' = rm_txType m ->
  sq_tables (pw_db w') = sq_tables d ->
  rampLoop m k alts prov s w = (Err e, {| pw_db := d; pw_prov := p |})
  /\ sq_tables (pw_db (rampLoop m' k' alts' prov' s' w').2) = sq_tables d
  /\ pw_prov (rampLoop m' k' alts' prov' s' w').2 = pw_prov w'
  /\ (is_ok (claim m' prov' (pw_db w')).1 = true -> (rampLoop m' k' alts' prov' s' w').1 = Ok tt).
Proof.
  intros Hc Hk Hx He Htn Hid Hty Hw. split.
  - destruct alts as [|alt alts]; cbn [rampLoop]; unfold onDB; rewrite Hc, Hk; cbn [negb pw_prov pw_db set_pdb]; by rewrite Hx, He.
  - apply claim_inv in Hc as [[_ [[? _]|?]]|(_ & Hyes & _)]; [done|done|].
    rewrite <- Htn, <- Hid, <- Hty, <- Hw in Hyes. rewrite <- Hw. by apply claimed_intent_is_skipped.
Qed.
End Strand.

(** Both ramps switch routes by [SwitchRoute], which frees the claim. *)
Lemma switch_frees tn id ty a b c e d d' : SwitchRoute id ty a b c e d = (Ok tt, d') ->
  claimed tn id ty (sq_tables d') = false.
Proof.
  intros H. apply transact_inv in H as [(_ & ? & _)|([] & Hf & _)]; [done|].
  apply switch_statements in Hf as [Hf _]. cbn [snd] in Hf.
  unfold claimed. rewrite Hf. apply not_true_iff_false. rewrite existsb_exists. intros (r & [Hr _]%list_elem_of_In%list_elem_of_filter & Hq).
  unfold isClaim in Hq. apply andb_true_iff in Hq as [_ Hq]. congruence.
Qed.

Lemma onRamp_frees cf env p : frees (onRamp (Pr := Pr) cf env p).
Proof. intros alt d d'. apply switch_frees. Qed.

Lemma offRamp_frees cf env p : frees (offRamp (Pr := Pr) cf env p).
Proof. intros alt d d'. apply switch_frees. Qed.

(** ** Webhooks *)

Import WebhookInbound.

(** The first row of a claim, as [GetProviderTransaction] reads it. *)
Definition txAt (tn id : UUID) (ty : string) (t : PTables) : option TxRow :=
  head (filter (fun r => isClaim tn id (txTypeToDB ty) r = true) (pt_txs t)).

Lemma get_inv tn id ty d r d' : GetProviderTransaction tn id ty d = (r, d') ->
  sq_tables d' = sq_tables d /\ forall x, r = Ok x -> x = txOf <$> txAt tn id ty (sq_tables d).
Proof.
  unfold GetProviderTransaction. destruct (query _ d) as [r0 d0] eqn:E. intros [= <- <-].
  apply query_inv in E as [Hd Hr]. split; [done|]. intros x Hx. destruct r0 as [y|]; [|done]. injection Hx as ->.
  specialize (Hr _ eq_refl). by destruct (isTxType _); [injection Hr as <-|].
Qed.

(** A transaction in a terminal status is never changed or reported again. *)
Lemma terminal_is_final ty (report : Report) p d row :
  txAt (wp_TenantID p) (wp_TransferID p) ty (sq_tables d) = Some row -> IsTerminal (px_Status row) = true ->
  sq_tables (processNormalized ty report p d).2 = sq_tables d
  /\ (is_ok (GetProviderTransaction (wp_TenantID p) (wp_TransferID p) ty d).1 = true ->
      (processNormalized ty report p d).1 = Ok tt).
Proof.
  intros Hrow Ht. unfold processNormalized. destruct (GetProviderTransaction _ _ _ d) as [r d1] eqn:E.
  apply get_inv in E as [Hd Hr]. destruct r as [x|e]; [|by split]. rewrite (Hr x eq_refl), Hrow. simpl. by rewrite Ht.
Qed.

(** A committed update of an open transaction leaves its status there. *)
Lemma update_sets tn id ty tx d d' row : UpdateProviderTransaction id ty tx d = (Ok tt, d') ->
  txAt tn id ty (sq_tables d) = Some row -> isOpen id (txTypeToDB ty) row = true ->
  txAt tn id ty (sq_tables d') = Some (updatedRow tx row).
Proof.
  unfold UpdateProviderTransaction. destruct (transact _ d) as [r0 d0] eqn:E. intros H.
  destruct r0 as [n|]; [|done]. destruct (n =? 0); [done|]. injection H as <-.
  apply transact_inv in E as [(_ & ? & _)|(a & Hf & _)]; [done|].
  destruct (isTxType _); [|done]. simpl in Hf. case_bool_decide as Hnd; [|done]. injection Hf as _ <-. clear Hnd.
  unfold txAt. simpl. induction (pt_txs (sq_tables d)) as [|x l IH]; [done|]. simpl.
  rewrite !filter_cons. intros Hh Hop. assert (isClaim tn id (txTypeToDB ty) (updatedRow tx x) = isClaim tn id (txTypeToDB ty) x) as Hsame by done.
  destruct (decide (isClaim tn id (txTypeToDB ty) x = true)) as [Hc|Hc].
  - injection Hh as ->. rewrite Hop. by rewrite decide_True by congruence.
  - destruct (isOpen _ _ x); rewrite decide_False by congruence; by apply IH.
Qed.

Lemma txAt_claim tn id ty t row : txAt tn id ty t = Some row -> isClaim tn id (txTypeToDB ty) row = true.
Proof.
  unfold txAt. intros H%head_Some_elem_of. by apply list_elem_of_filter in H as [? _].
Qed.

Lemma open_of tn id ty row : isClaim tn id ty row = true -> IsTerminal (px_Status row) = false -> isOpen id ty row = true.
Proof.
  unfold isClaim, isOpen, IsTerminal, ProviderTxStatusCompleted, ProviderTxStatusConfirmed.
  intros [_ ->]%andb_true_iff [[-> ->]%orb_false_iff _]%orb_false_iff. done.
Qed.

(** A provider's final answer counts once, even when it should count again.
    Where the transaction was updated but the engine refused or failed the report,
    the worker asks for a redelivery; the transaction is terminal by then, so that
    no later webhook of that conversion, a redelivery of this one included,
    changes a table or reaches the engine, and each is acknowledged as soon as
    the transaction is read. *)
Theorem webhook_report_not_retried ty (report : Report) p d e d' existing d1 d2 p' report' d3 :
  IsTerminal (wp_Status p) = true ->
  (forall tn id r d r' d', report tn id r d = (r', d') -> pt_txs (sq_tables d') = pt_txs (sq_tables d)) ->
  GetProviderTransaction (wp_TenantID p) (wp_TransferID p) ty d = (Ok (Some existing), d1) ->
  IsTerminal (ptx_Status existing) = false ->
  UpdateProviderTransaction (wp_TransferID p) ty (changed p existing) d1 = (Ok tt, d2) ->
  processNormalized ty report p d = (Err e, d') ->
  wp_TenantID p' = wp_TenantID p -> wp_TransferID p' = wp_TransferID p -> sq_tables d3 = sq_tables d' ->
  sq_tables (processNormalized ty report' p' d3).2 = sq_tables d3
  /\ (is_ok (GetProviderTransaction (wp_TenantID p') (wp_TransferID p') ty d3).1 = true ->
      (processNormalized ty report' p' d3).1 = Ok tt).
Proof.
  intros Ht Hrep Hg He Hu Hp Htn Hid H3.
  assert (pt_txs (sq_tables d') = pt_txs (sq_tables d2)) as Htx.
  { unfold processNormalized in Hp. rewrite Hg, He, Hu in Hp.
    destruct (_ || _); [by eapply Hrep|]. destruct (String.eqb _ _); [by eapply Hrep|done]. }
  apply get_inv in Hg as [Hd1 Hrow]. specialize (Hrow _ eq_refl).
  destruct (txAt (wp_TenantID p) (wp_TransferID p) ty (sq_tables d)) as [row|] eqn:Hat; [|done]. injection Hrow as ->.
  rewrite <- Hd1 in Hat. pose proof (txAt_claim _ _ _ _ _ Hat) as Hc.
  eapply terminal_is_final; [|instantiate (1 := updatedRow (changed p (txOf row)) row); exact Ht].
  rewrite Htn, Hid, H3. pose proof (update_sets _ _ _ _ _ _ _ Hu Hat (open_of _ _ _ _ Hc He)) as Hnew.
  unfold txAt in *. by rewrite Htx.
Qed.
End Props.
End ProviderProps.
