(* ===== verification/BlockchainWorker.v ===== *)
(** * node/worker: the blockchain worker

    Models src/node/worker/blockchain_worker.go: an intent to send stablecoins
    is claimed, sent behind a bulkhead and a circuit breaker, and its outcome
    recorded and reported to the engine; a transaction the chain has not
    decided is kept in a map that a poller walks, until it is decided or old
    enough for a manual review.

    The chain clients are services on a state [Ch].  [bw_count] is the
    worker's own counter of the map, [bw_gauge] the Prometheus gauge. *)

From S2P Require Import Prelude ThirdParty GoNumbers Sql Money Deposits Transfer Outbox TransferStore Resilience Engine EngineFacts TreasuryWorker ProviderTxs ProviderWorker.
Local Open Scope string_scope.
Local Open Scope Z_scope.

Module BlockchainWorker.
Import ProviderTxs ProviderWorker Reviews.

Section Worker.
Context {L : ThirdParty} {Ch : Type}.

Record TxRequest := { tq_From : string; tq_To : string; tq_Token : string; tq_Amount : Decimal; tq_Memo : string }.

(** [domain.ChainTx], without the fields the worker only logs. *)
Record ChainTx := { ct_Hash : string; ct_Status : string }.

Record Client := {
  cl_SendTransaction : TxRequest -> Ch -> result ChainTx * Ch;
  cl_GetTransaction : string -> Ch -> result ChainTx * Ch }.

Record pendingEntry := { pe_payload : BlockchainSendPayload; pe_txHash : string; pe_tenantID : UUID; pe_addedAt : Z }.

Definition pendingTxEscalationTimeout : Z := 3600 * 1000000000.
Definition maxPendingTxMapSize : Z := 50000.
Definition maxPendingChecksPerPoll : Z := 100.
Definition TxTypeBlockchain := "blockchain".

Record BWorld := {
  bw_db : Sql PTables; bw_chain : Ch; bw_pending : gmap UUID pendingEntry; bw_count : Z; bw_gauge : Z;
  bw_reviews : Sql (list ReviewRow) }.

Definition set_bdb (w : BWorld) (d : Sql PTables) : BWorld :=
  {| bw_db := d; bw_chain := bw_chain w; bw_pending := bw_pending w; bw_count := bw_count w; bw_gauge := bw_gauge w;
     bw_reviews := bw_reviews w |}.
Definition set_chain (w : BWorld) (c : Ch) : BWorld :=
  {| bw_db := bw_db w; bw_chain := c; bw_pending := bw_pending w; bw_count := bw_count w; bw_gauge := bw_gauge w;
     bw_reviews := bw_reviews w |}.
Definition set_pending (w : BWorld) (m : gmap UUID pendingEntry) (n g : Z) : BWorld :=
  {| bw_db := bw_db w; bw_chain := bw_chain w; bw_pending := m; bw_count := n; bw_gauge := g; bw_reviews := bw_reviews w |}.
Definition set_reviews (w : BWorld) (g : Z) (d : Sql (list ReviewRow)) : BWorld :=
  {| bw_db := bw_db w; bw_chain := bw_chain w; bw_pending := bw_pending w; bw_count := bw_count w; bw_gauge := g;
     bw_reviews := d |}.

Definition onBDB {A} (f : Sql PTables -> result A * Sql PTables) (w : BWorld) : result A * BWorld :=
  let '(r, d) := f (bw_db w) in (r, set_bdb w d).

(** ** The map of pending transactions, under its mutex *)

Definition trackPending (payload : BlockchainSendPayload) (txHash : string) (now : Z) (w : BWorld) : BWorld :=
  if maxPendingTxMapSize <=? bw_count w then w
  else match bw_pending w !! bsp_TransferID payload with
       | Some _ => w
       | None => set_pending w
           (<[bsp_TransferID payload := {| pe_payload := payload; pe_txHash := txHash; pe_tenantID := bsp_TenantID payload;
                                          pe_addedAt := now |}]> (bw_pending w)) (bw_count w + 1) (bw_gauge w + 1)
       end.

Definition forget (transferID : UUID) (w : BWorld) : BWorld :=
  match bw_pending w !! transferID with
  | Some _ => set_pending w (delete transferID (bw_pending w)) (bw_count w - 1) (bw_gauge w)
  | None => w
  end.

(** ** Handlers *)

Record BConfig := {
  bc_clients : string -> option Client;
  bc_deps : Deps;
  bc_reviews : bool;
  bc_escalationTimeout : Z;
}.

(** What one delivery or one check of the poller finds. *)
Record BEnv := { be_attempt : Attempt; be_engine : EEnv; be_now : Z }.

Section Handlers.
Variable cf : BConfig.

Definition report (env : BEnv) (payload : BlockchainSendPayload) (r : IntentResult) : BWorld -> result unit * BWorld :=
  onBDB (engineCall (HandleSettlementResult (TS := Adapter.TransferStoreAdapter) (be_engine env) (bc_deps cf)
    (bsp_TenantID payload) (bsp_TransferID payload) r)).

Definition recordTx (payload : BlockchainSendPayload) (tx : ProviderTx) (w : BWorld) : BWorld :=
  (onBDB (UpdateProviderTransaction (bsp_TransferID payload) TxTypeBlockchain tx) w).2.

Definition sent (hash : string) : IntentResult :=
  {| ir_Success := true; ir_ProviderRef := ""; ir_TxHash := hash; ir_Error := ""; ir_ErrorCode := ""; ir_Metadata := ∅ |}.
Definition reverted (hash text : string) : IntentResult :=
  {| ir_Success := false; ir_ProviderRef := ""; ir_TxHash := hash; ir_Error := text; ir_ErrorCode := "BLOCKCHAIN_TX_FAILED";
     ir_Metadata := ∅ |}.

Definition withStatus (status : string) (tx : ProviderTx) : ProviderTx :=
  {| ptx_ID := ptx_ID tx; ptx_ExternalID := ptx_ExternalID tx; ptx_Status := status; ptx_Amount := ptx_Amount tx;
     ptx_Currency := ptx_Currency tx; ptx_TxHash := ptx_TxHash tx; ptx_Metadata := ptx_Metadata tx |}.

(** [strings.EqualFold] against a lower-case ASCII word. *)
Definition EqualFold (s word : string) : bool := String.eqb (ToLower s) word.

Definition checkPendingTx (env : BEnv) (payload : BlockchainSendPayload) (existing : ProviderTx) (w : BWorld)
  : result unit * BWorld :=
  match bc_clients cf (bsp_Chain payload) with
  | None => (Err (MsgErr "unknown chain for pending tx check"), w)
  | Some client =>
      let '(r, c) := cl_GetTransaction client (ptx_TxHash existing) (bw_chain w) in
      let w := set_chain w c in
      match r with
      | Err _ => (Ok tt, w)
      | Ok chainTx =>
          if EqualFold (ct_Status chainTx) "confirmed" then
            report env payload (sent (ct_Hash chainTx))
              (forget (bsp_TransferID payload) (recordTx payload (withStatus "confirmed" existing) w))
          else if EqualFold (ct_Status chainTx) "failed" then
            report env payload (reverted (ct_Hash chainTx) "blockchain transaction failed")
              (forget (bsp_TransferID payload) (recordTx payload (withStatus "failed" existing) w))
          else (Ok tt, trackPending payload (ptx_TxHash existing) (be_now env) w)
      end
  end.

(** The transaction is marked failed, if possible, and the engine told. *)
Definition giveUpSend (env : BEnv) (payload : BlockchainSendPayload) (text code : string) (w : BWorld) : result unit * BWorld :=
  report env payload (failure text code) (recordTx payload failedTx w).

Definition chainProviderTx (tx : ChainTx) : ProviderTx :=
  {| ptx_ID := ct_Hash tx; ptx_ExternalID := ""; ptx_Status := ct_Status tx; ptx_Amount := dZero; ptx_Currency := "";
     ptx_TxHash := ct_Hash tx; ptx_Metadata := ∅ |}.

(** What follows an answered send. *)
Definition recordSent (env : BEnv) (payload : BlockchainSendPayload) (chainTx : ChainTx) (w : BWorld) : result unit * BWorld :=
  let w := recordTx payload (chainProviderTx chainTx) w in
  let chainStatus := ToLower (ct_Status chainTx) in
  if String.eqb chainStatus "pending" then (Ok tt, trackPending payload (ct_Hash chainTx) (be_now env) w)
  else if String.eqb chainStatus "confirmed" then report env payload (sent (ct_Hash chainTx)) w
  else report env payload (reverted (ct_Hash chainTx) ("blockchain tx status: " +:+ ct_Status chainTx)) w.

(** [executeBlockchain], one attempt. *)
Definition executeBlockchain (client : Client) (env : BEnv) (payload : BlockchainSendPayload) (w : BWorld)
  : result ChainTx * BWorld :=
  let '(r, c) := executeWithCB (cl_SendTransaction client)
    {| tq_From := bsp_From payload; tq_To := bsp_To payload; tq_Token := bsp_Token payload; tq_Amount := bsp_Amount payload;
       tq_Memo := bsp_Memo payload |} (be_attempt env) (bw_chain w) in
  (r, set_chain w c).

(** The rest of [handleSend] once the claim is this delivery's. *)
Definition sendClaimed (env : BEnv) (payload : BlockchainSendPayload) (w : BWorld) : result unit * BWorld :=
  match bc_clients cf (bsp_Chain payload) with
  | None => giveUpSend env payload ("unknown blockchain chain: " +:+ bsp_Chain payload) "CHAIN_NOT_FOUND" w
  | Some client =>
      let '(r, w) := executeBlockchain client env payload w in
      match r with
      | Ok chainTx => recordSent env payload chainTx w
      | Err e =>
          if errorsIs Breaker.ErrCircuitOpen e then (Err e, w)
          else giveUpSend env payload (errorText e) "BLOCKCHAIN_SEND_FAILED" w
      end
  end.

(** The rest of [handleSend] when the claim is taken. *)
Definition checkClaimed (env : BEnv) (payload : BlockchainSendPayload) (w : BWorld) : result unit * BWorld :=
  let '(r, w) := onBDB (GetProviderTransaction (bsp_TenantID payload) (bsp_TransferID payload) TxTypeBlockchain) w in
  match r with
  | Err e => (Err (WrapErr "checking tx" e), w)
  | Ok (Some existing) =>
      if String.eqb (ToLower (ptx_Status existing)) "pending" then checkPendingTx env payload existing w else (Ok tt, w)
  | Ok None => (Ok tt, w)
  end.

Definition sendPayload (env : BEnv) (payload : BlockchainSendPayload) (w : BWorld) : result unit * BWorld :=
  let '(c, w) := onBDB (ClaimProviderTransaction (bsp_TenantID payload) (bsp_TransferID payload) TxTypeBlockchain (bsp_Chain payload)) w in
  match c with
  | Err e => (Err (WrapErr "claim blockchain" e), w)
  | Ok None => checkClaimed env payload w
  | Ok (Some _) => sendClaimed env payload w
  end.

(** ** The poller *)

Definition escalatePendingTx (transferID : UUID) (entry : pendingEntry) (w : BWorld) : BWorld :=
  if negb (bc_reviews cf) then w
  else
    let '(has, d) := HasActiveReview transferID (bw_reviews w) in
    let w := set_reviews w (bw_gauge w) d in
    match has with
    | Err _ | Ok true => w
    | Ok false =>
        let '(r, d) := CreateManualReview transferID (pe_tenantID entry) "BLOCKCHAIN_PENDING" (pe_addedAt entry) (bw_reviews w) in
        match r with
        | Err _ => set_reviews w (bw_gauge w) d
        | Ok _ => set_reviews w (bw_gauge w - 1) d
        end
    end.

Definition polledTx (hash : string) : ProviderTx :=
  {| ptx_ID := ""; ptx_ExternalID := ""; ptx_Status := "pending"; ptx_Amount := dZero; ptx_Currency := ""; ptx_TxHash := hash;
     ptx_Metadata := ∅ |}.

Definition expired (now : Z) (entry : pendingEntry) : bool := bc_escalationTimeout cf <? timeSub now (pe_addedAt entry).

(** The loop over the snapshot; its [k]-th iteration finds [envs k]. *)
Fixpoint pollLoop (envs : nat -> BEnv) (k : nat) (entries : list (UUID * pendingEntry)) (checked : Z) (w : BWorld) : BWorld :=
  match entries with
  | [] => w
  | (transferID, entry) :: entries =>
      if expired (be_now (envs k)) entry then
        pollLoop envs (Datatypes.S k) entries checked
          (match bw_pending w !! transferID with
           | Some _ => escalatePendingTx transferID entry (forget transferID w)
           | None => w
           end)
      else if maxPendingChecksPerPoll <=? checked then w
      else pollLoop envs (Datatypes.S k) entries (checked + 1) (checkPendingTx (envs k) (pe_payload entry) (polledTx (pe_txHash entry)) w).2
  end.

(** [order] is the order in which Go's map iteration yields the entries. *)
Definition pollPendingTransactions (envs : nat -> BEnv) (order : list (UUID * pendingEntry)) (w : BWorld) : BWorld :=
  pollLoop envs 0 order 0 w.
End Handlers.

Context {J V : Type} (js : Json J V).
Variable json_UnmarshalSend : J -> result BlockchainSendPayload.

Definition handleSend (cf : BConfig) (env : BEnv) (event : Event (EventData J V)) (w : BWorld) : result unit * BWorld :=
  match unmarshalEventData js (fun p => match p with PBlockchainSend x => Some x | _ => None end) json_UnmarshalSend event with
  | Err _ => (Ok tt, w)
  | Ok payload => sendPayload cf env payload w
  end.

Definition handleEvent (cf : BConfig) (env : BEnv) (event : Event (EventData J V)) (w : BWorld) : result unit * BWorld :=
  if String.eqb (ev_Type _ event) IntentBlockchainSend then handleSend cf env event w else (Ok tt, w).
End Worker.
End BlockchainWorker.
