(* ===== verification/BlockchainProps.v ===== *)
(** * node/worker: what the blockchain worker guarantees

    [sent_at_most_once]: however the deliveries of an intent interleave, its
    transaction is given to the chain at most once.  [pending_map_bounded]: the
    counter of the pending map is its size and never exceeds the cap.
    [poll_keeps_undecided]: what a poll leaves in the map. *)

From S2P Require Import Prelude ThirdParty GoNumbers Sql Money Deposits Transfer Outbox TransferStore Resilience Engine EngineFacts ProviderTxs ProviderWorker ProviderProps BlockchainWorker.
Local Open Scope string_scope.
Local Open Scope Z_scope.

Module BlockchainProps.
Import ProviderTxs ProviderWorker ProviderProps Reviews BlockchainWorker.

Section Props.
Context {L : ThirdParty} {Ch : Type}.

(** ** One send per intent *)

(** The tables, the chain, how often the intent's transaction was sent, and
    its deliveries. *)
Record SSys := { ss_tables : PTables; ss_chain : Ch; ss_sends : nat; ss_threads : list Phase }.

Section Interleaving.
Variables (cf : BConfig (Ch := Ch)) (tn id : UUID).

Abbreviation isClaimed := (claimed tn id TxTypeBlockchain).

(** Steps of the deliveries of one intent and of everyone else on the same
    tables: other claims, updates, switched routes and engine calls. *)
Inductive bstep : SSys -> SSys -> Prop :=
| SDeliver st : bstep st {| ss_tables := ss_tables st; ss_chain := ss_chain st; ss_sends := ss_sends st; ss_threads := ss_threads st ++ [Fresh] |}
| SClaim i prov d r d' st : ss_threads st !! i = Some Fresh -> sq_tables d = ss_tables st ->
    ClaimProviderTransaction tn id TxTypeBlockchain prov d = (r, d') ->
    bstep st {| ss_tables := sq_tables d'; ss_chain := ss_chain st; ss_sends := ss_sends st;
                ss_threads := <[i := match r with Ok (Some _) => Holding | _ => Over end]> (ss_threads st) |}
| SSend i chain client req st : ss_threads st !! i = Some Holding -> bc_clients cf chain = Some client ->
    bstep st {| ss_tables := ss_tables st; ss_chain := (cl_SendTransaction client req (ss_chain st)).2; ss_sends := Datatypes.S (ss_sends st);
                ss_threads := <[i := Over]> (ss_threads st) |}
| SGet chain client hash st : bc_clients cf chain = Some client ->
    bstep st {| ss_tables := ss_tables st; ss_chain := (cl_GetTransaction client hash (ss_chain st)).2; ss_sends := ss_sends st;
                ss_threads := ss_threads st |}
| SStop i p st : ss_threads st !! i = Some p ->
    bstep st {| ss_tables := ss_tables st; ss_chain := ss_chain st; ss_sends := ss_sends st; ss_threads := <[i := Over]> (ss_threads st) |}
| SClaimOther tn' id' ty prov d r d' st : sq_tables d = ss_tables st -> (tn', id', ty) <> (tn, id, TxTypeBlockchain) ->
    ClaimProviderTransaction tn' id' ty prov d = (r, d') ->
    bstep st {| ss_tables := sq_tables d'; ss_chain := ss_chain st; ss_sends := ss_sends st; ss_threads := ss_threads st |}
| SUpdate id' ty tx d r d' st : sq_tables d = ss_tables st -> UpdateProviderTransaction id' ty tx d = (r, d') ->
    bstep st {| ss_tables := sq_tables d'; ss_chain := ss_chain st; ss_sends := ss_sends st; ss_threads := ss_threads st |}
| SSwitch id' ty a b c e d r d' st : sq_tables d = ss_tables st -> ty = ProviderTxTypeOnRamp \/ ty = ProviderTxTypeOffRamp ->
    SwitchRoute id' ty a b c e d = (r, d') ->
    bstep st {| ss_tables := sq_tables d'; ss_chain := ss_chain st; ss_sends := ss_sends st; ss_threads := ss_threads st |}
| SEngine f d r d' st : sq_tables d = ss_tables st -> engineCall f d = (r, d') ->
    bstep st {| ss_tables := sq_tables d'; ss_chain := ss_chain st; ss_sends := ss_sends st; ss_threads := ss_threads st |}.

Record SInv (st : SSys) : Prop := {
  si_one i j : ss_threads st !! i = Some Holding -> ss_threads st !! j = Some Holding -> i = j;
  si_claim i : ss_threads st !! i = Some Holding -> isClaimed (ss_tables st) = true /\ ss_sends st = 0%nat;
  si_sent : (ss_sends st <= 1)%nat /\ (ss_sends st = 1%nat -> isClaimed (ss_tables st) = true);
}.

(** A claim is never taken away by a claim, or by the switch of a ramp. *)
Lemma claim_keeps tn' id' ty prov d r d' : ClaimProviderTransaction tn' id' ty prov d = (r, d') ->
  isClaimed (sq_tables d) = true -> isClaimed (sq_tables d') = true.
Proof.
  unfold ClaimProviderTransaction. destruct (transact _ d) as [r0 d0] eqn:E. intros [= <- <-].
  apply transact_inv in E as [(-> & _)|(a & Hf & _)]; [done|].
  destruct (isTxType _); [|done]. simpl in Hf. destruct (c_ids _ _); [|done].
  destruct (existsb _ (pt_txs _)); injection Hf as _ <-; [done|]. unfold claimed. simpl. rewrite existsb_app. by intros ->.
Qed.

Lemma switch_keeps id' ty a b c e d r d' : ty = ProviderTxTypeOnRamp \/ ty = ProviderTxTypeOffRamp ->
  SwitchRoute id' ty a b c e d = (r, d') -> isClaimed (sq_tables d) = true -> isClaimed (sq_tables d') = true.
Proof.
  intros Hty H. apply transact_inv in H as [(-> & _)|([] & Hf & _)]; [done|].
  apply switch_statements in Hf as [Hf _]. cbn [snd] in Hf.
  unfold claimed. rewrite Hf, !existsb_exists. intros (row & Hr & Hc). exists row. split; [|done].
  rewrite <- list_elem_of_In in *. apply list_elem_of_filter. split; [|done].
  apply not_true_iff_false. unfold isClaim, isTx in *. intros [_ H1%String.eqb_eq]%andb_true_iff.
  apply andb_true_iff in Hc as [_ [_ H2%String.eqb_eq]%andb_true_iff]. rewrite H1 in H2. by destruct Hty as [-> | ->].
Qed.

Lemma keeps_inv st t : SInv st -> (isClaimed (ss_tables st) = true -> isClaimed t = true) ->
  SInv {| ss_tables := t; ss_chain := ss_chain st; ss_sends := ss_sends st; ss_threads := ss_threads st |}.
Proof.
  intros [Hone Hcl [Hle Hs]] Ht. split; simpl; [done| |auto]. intros i Hi. destruct (Hcl i Hi). auto.
Qed.

Lemma leaves_inv st i : SInv st ->
  SInv {| ss_tables := ss_tables st; ss_chain := ss_chain st; ss_sends := ss_sends st; ss_threads := <[i := Over]> (ss_threads st) |}.
Proof.
  intros [Hone Hcl Hs]. split; simpl; [|intros j Hj|done].
  - intros j k [[_ ?]|[_ Hj]]%lookup_insert_phase [[_ ?]|[_ Hk]]%lookup_insert_phase; try congruence. by apply Hone.
  - apply lookup_insert_phase in Hj as [[_ ?]|[_ Hj]]; [congruence|]. by apply (Hcl j).
Qed.

Lemma claims_inv st i prov d r d' : SInv st -> sq_tables d = ss_tables st ->
  ClaimProviderTransaction tn id TxTypeBlockchain prov d = (r, d') ->
  SInv {| ss_tables := sq_tables d'; ss_chain := ss_chain st; ss_sends := ss_sends st;
          ss_threads := <[i := match r with Ok (Some _) => Holding | _ => Over end]> (ss_threads st) |}.
Proof.
  intros HI Hd Hc. pose proof (claim_keeps _ _ _ _ _ _ _ Hc) as Hkeep. rewrite Hd in Hkeep.
  apply claim_inv in Hc as [(Ht & Hr)|(Hno & Hyes & _ & Hr)].
  - destruct r as [[x|]|e]; [destruct Hr as [[? _]|?]; done| |]; apply leaves_inv with (i := i) in HI;
      by apply (keeps_inv _ (sq_tables d')) in HI.
  - rewrite Hd in Hno. assert (ss_sends st = 0%nat) as H0.
    { destruct HI as [_ _ [Hle Hs]]. destruct (ss_sends st) as [|[|n]]; [done| |lia]. by rewrite Hs in Hno. }
    assert (forall j, ss_threads st !! j = Some Holding -> False) as Hnone.
    { intros j Hj. destruct (si_claim _ HI j Hj) as [? _]. congruence. }
    split; simpl; [|intros j _; auto|rewrite H0; split; [lia|done]].
    intros j k [[<- _]|[_ Hj]]%lookup_insert_phase [[<- _]|[_ Hk]]%lookup_insert_phase; try done; exfalso; eauto.
Qed.

Lemma sinv_step st st' : SInv st -> bstep st st' -> SInv st'.
Proof.
  intros HI Hs. destruct Hs as [st|i prov d r d' st Hi Hd Hc|i chain client req st Hi Hcl|chain client hash st Hcl|i p st Hi|
    tn' id' ty prov d r d' st Hd Hne Hc|id' ty tx d r d' st Hd Hu|id' ty a b c e d r d' st Hd Hty Hsw|f d r d' st Hd He].
  - destruct HI as [Hone Hcl Hs]. assert (forall i, (ss_threads st ++ [Fresh])%list !! i = Some Holding -> ss_threads st !! i = Some Holding) as Hold.
    { intros i [H|[_ H]]%lookup_app_Some; [done|]. by destruct (i - length (ss_threads st))%nat as [|[]]. }
    split; simpl; [intros i j Hi Hj; apply Hone; auto|intros i Hi; by apply (Hcl i), Hold|done].
  - by apply (claims_inv st i prov d).
  - destruct (si_claim _ HI i Hi) as [Hc H0]. split; simpl; [|intros j Hj|rewrite H0; split; [lia|done]].
    + apply (si_one _ (leaves_inv _ i HI)).
    + exfalso. apply lookup_insert_phase in Hj as [[_ ?]|[Hne Hj]]; [congruence|]. by apply Hne, (si_one _ HI).
  - split; simpl; apply HI.
  - by apply leaves_inv.
  - apply keeps_inv; [done|]. rewrite <- Hd. by apply (claim_keeps tn' id' ty prov d r).
  - apply keeps_inv; [done|]. rewrite <- Hd. destruct (update_inv _ _ _ _ _ _ Hu) as [_ Hk]. unfold claimed. by rewrite Hk.
  - apply keeps_inv; [done|]. rewrite <- Hd. by apply (switch_keeps id' ty a b c e d r).
  - apply keeps_inv; [done|]. rewrite <- Hd. unfold claimed. by rewrite (engine_txs _ _ _ _ He).
Qed.

(** C11: However the deliveries of a send intent interleave, with lost answers,
    crashes between the steps, pollers, switched ramp routes, and claims and
    updates of other transfers, the transaction of the transfer is given to a
    chain at most once. *)
Theorem sent_at_most_once t c st :
  rtc bstep {| ss_tables := t; ss_chain := c; ss_sends := 0; ss_threads := [] |} st -> (ss_sends st <= 1)%nat.
Proof.
  intros Hs. assert (SInv st) as HI; [|apply HI].
  eapply (invariant_rtc bstep); [exact sinv_step|exact Hs|]. split; simpl; [done|done|split; [lia|done]].
Qed.
(** *** A delivery is such a run *)

(** The tables and chain of [w], [n] sends so far, delivery [i] at [p]. *)
Definition atB (w : BWorld (Ch := Ch)) (n : nat) (ts : list Phase) (i : nat) (p : Phase) : SSys :=
  {| ss_tables := sq_tables (bw_db w); ss_chain := bw_chain w; ss_sends := n; ss_threads := <[i := p]> ts |}.

Lemma atB_stop w n ts i p : (i < length ts)%nat -> rtc bstep (atB w n ts i p) (atB w n ts i Over).
Proof.
  intros Hi. apply rtc_once. unfold atB. rewrite <- (list_insert_insert_eq ts i Over p). eapply SStop. simpl.
  by apply list_lookup_insert_eq.
Qed.

Lemma atB_record payload w n ts i p tx : rtc bstep (atB w n ts i p) (atB (recordTx payload tx w) n ts i p).
Proof.
  apply rtc_once. unfold recordTx, onBDB. destruct (UpdateProviderTransaction _ _ tx (bw_db w)) as [r d] eqn:E.
  by apply (SUpdate _ _ _ (bw_db w) r d (atB w n ts i p)) in E.
Qed.

Lemma atB_report env payload r w n ts i p : rtc bstep (atB w n ts i p) (atB (report cf env payload r w).2 n ts i p).
Proof.
  apply rtc_once. unfold report, onBDB. destruct (engineCall _ (bw_db w)) as [r' d] eqn:E.
  by apply (SEngine _ (bw_db w) r' d (atB w n ts i p)) in E.
Qed.

Lemma atB_pending w m c g n ts i p : atB (set_pending w m c g) n ts i p = atB w n ts i p.
Proof. done. Qed.

Lemma atB_track payload hash now w n ts i p : atB (trackPending payload hash now w) n ts i p = atB w n ts i p.
Proof. unfold trackPending. by repeat case_match. Qed.

Lemma atB_forget id' w n ts i p : atB (forget id' w) n ts i p = atB w n ts i p.
Proof. unfold forget. by case_match. Qed.

Lemma giveUpSend_steps env payload text code w n ts i p : (i < length ts)%nat ->
  rtc bstep (atB w n ts i p) (atB (giveUpSend cf env payload text code w).2 n ts i Over).
Proof. intros Hi. unfold giveUpSend. etrans; [apply (atB_record payload)|]. etrans; [apply atB_report|]. by apply atB_stop. Qed.

Lemma checkPendingTx_steps env payload tx w n ts i p : (i < length ts)%nat ->
  rtc bstep (atB w n ts i p) (atB (checkPendingTx cf env payload tx w).2 n ts i Over).
Proof.
  intros Hi. unfold checkPendingTx. destruct (bc_clients cf _) as [client|] eqn:Hc; [|by apply atB_stop].
  destruct (cl_GetTransaction client _ _) as [r c] eqn:Eg.
  assert (rtc bstep (atB w n ts i p) (atB (set_chain w c) n ts i p)) as Hg.
  { apply rtc_once. pose proof (SGet _ client (ptx_TxHash tx) (atB w n ts i p) Hc) as Hg. simpl in Hg. by rewrite Eg in Hg. }
  etrans; [exact Hg|]. clear Hg.
  destruct r as [chainTx|e]; [|by apply atB_stop].
  destruct (EqualFold _ _); [|destruct (EqualFold _ _)].
  1,2: etrans; [apply (atB_record payload)|]; erewrite <- atB_forget; etrans; [apply atB_report|]; by apply atB_stop.
  cbn [snd]; rewrite atB_track. by apply atB_stop.
Qed.

Lemma recordSent_steps env payload tx w n ts i p : (i < length ts)%nat ->
  rtc bstep (atB w n ts i p) (atB (recordSent cf env payload tx w).2 n ts i Over).
Proof.
  intros Hi. unfold recordSent. etrans; [apply (atB_record payload w n ts i p (chainProviderTx tx))|].
  destruct (String.eqb _ _); [cbn [snd]; rewrite atB_track; by apply atB_stop|].
  destruct (String.eqb _ _); (etrans; [apply atB_report|]); by apply atB_stop.
Qed.

(** A delivery that holds the claim sends once or not at all. *)
Lemma sendClaimed_steps env payload w n ts i : (i < length ts)%nat ->
  exists n', (n <= n' <= Datatypes.S n)%nat /\ rtc bstep (atB w n ts i Holding) (atB (sendClaimed cf env payload w).2 n' ts i Over).
Proof.
  intros Hi. unfold sendClaimed. destruct (bc_clients cf _) as [client|] eqn:Hc;
    [|exists n; split; [lia|]; by apply giveUpSend_steps].
  unfold executeBlockchain, executeWithCB. destruct (reaches _) as [[]|e].
  - destruct (cl_SendTransaction client _ _) as [r c] eqn:Es. exists (Datatypes.S n). split; [lia|].
    match type of Es with cl_SendTransaction _ ?q _ = _ => set (req := q) in Es end.
    assert (rtc bstep (atB w n ts i Holding) (atB (set_chain w c) (Datatypes.S n) ts i Over)) as Hs.
    { apply rtc_once. pose proof (SSend i _ client req (atB w n ts i Holding) (list_lookup_insert_eq ts i Holding Hi) Hc) as Hs.
      simpl in Hs. by rewrite Es, list_insert_insert_eq in Hs. }
    etrans; [exact Hs|]. clear Hs.
    destruct r as [tx|e]; [by apply recordSent_steps|]. destruct (errorsIs _ e); [apply rtc_refl|by apply giveUpSend_steps].
  - exists n. split; [lia|]. change (atB w n ts i Holding) with (atB (set_chain w (bw_chain w)) n ts i Holding).
    destruct (errorsIs Breaker.ErrCircuitOpen e) eqn:He; cbn [negb]; [|by apply giveUpSend_steps]. by apply atB_stop.
Qed.

Lemma checkClaimed_steps env payload w n ts i p : (i < length ts)%nat ->
  rtc bstep (atB w n ts i p) (atB (checkClaimed cf env payload w).2 n ts i Over).
Proof.
  intros Hi. unfold checkClaimed, onBDB. destruct (GetProviderTransaction _ _ _ (bw_db w)) as [r d] eqn:E.
  apply get_inv in E as [Hd _]. assert (atB w n ts i p = atB (set_bdb w d) n ts i p) as -> by (unfold atB; simpl; by rewrite Hd).
  destruct r as [[tx|]|e]; [|by apply atB_stop|by apply atB_stop].
  destruct (String.eqb _ _); [by apply checkPendingTx_steps|by apply atB_stop].
Qed.

(** Every delivery of the intent runs by these steps, sending at most once. *)
Lemma sendPayload_steps env payload w n ts i : (i < length ts)%nat -> bsp_TenantID payload = tn -> bsp_TransferID payload = id ->
  exists n', (n <= n' <= Datatypes.S n)%nat /\ rtc bstep (atB w n ts i Fresh) (atB (sendPayload cf env payload w).2 n' ts i Over).
Proof.
  intros Hi Htn Hid. unfold sendPayload, onBDB. rewrite Htn, Hid. destruct (ClaimProviderTransaction _ _ _ _ (bw_db w)) as [c d] eqn:Ec.
  assert (rtc bstep (atB w n ts i Fresh) (atB (set_bdb w d) n ts i (match c with Ok (Some _) => Holding | _ => Over end))) as Hc.
  { apply rtc_once. unfold atB at 2. rewrite <- (list_insert_insert_eq ts i _ Fresh).
    eapply (SClaim i _ (bw_db w) c d (atB w n ts i Fresh)); [by apply list_lookup_insert_eq|done|exact Ec]. }
  destruct c as [[x|]|e].
  - destruct (sendClaimed_steps env payload (set_bdb w d) n ts i Hi) as (n' & Hn & Hs). exists n'. split; [done|]. by etrans.
  - exists n. split; [lia|]. etrans; [exact Hc|]. by apply checkClaimed_steps.
  - exists n. split; [lia|]. exact Hc.
Qed.
End Interleaving.

(** ** The pending map *)

(** The counter is the size of the map, and the map keeps its cap. *)
Definition MInv (w : BWorld (Ch := Ch)) : Prop :=
  bw_count w = Z.of_nat (size (bw_pending w)) /\ bw_count w <= maxPendingTxMapSize
  /\ map_Forall (fun id e => bsp_TransferID (pe_payload e) = id) (bw_pending w).

(** What deliveries and pollers do to it, each under the mutex. *)
Inductive mstep : BWorld (Ch := Ch) -> BWorld -> Prop :=
| MTrack payload hash now w : mstep w (trackPending payload hash now w)
| MForget id w : mstep w (forget id w)
| MElse w w' : bw_pending w' = bw_pending w -> bw_count w' = bw_count w -> mstep w w'.

Lemma pending_step w w' : MInv w -> mstep w w' -> MInv w'.
Proof.
  intros (Hc & Hb & Hk) Hs. destruct Hs as [payload hash now w|id w|w w' Hp Hn].
  - unfold trackPending. destruct (Z.leb_spec maxPendingTxMapSize (bw_count w)); [done|].
    destruct (bw_pending w !! _) eqn:E; [done|]. split_and!; simpl.
    + rewrite map_size_insert_None by done. lia.
    + lia.
    + by apply map_Forall_insert_2.
  - unfold forget. destruct (bw_pending w !! id) eqn:E; [|done]. split_and!; simpl.
    + assert (is_Some (bw_pending w !! id)) as Hi by eauto. rewrite map_size_delete_Some by done.
      assert (size (bw_pending w) <> 0%nat) by (rewrite map_size_ne_0_lookup; eauto). lia.
    + lia.
    + by apply map_Forall_delete.
  - unfold MInv. by rewrite Hp, Hn.
Qed.

(** C38: Through any interleaving of deliveries and pollers the counter of the
    pending map is the number of its entries, and never exceeds
    maxPendingTxMapSize, so that the map is bounded. *)
Theorem pending_map_bounded w0 w : bw_pending w0 = ∅ -> bw_count w0 = 0 -> rtc mstep w0 w ->
  bw_count w = Z.of_nat (size (bw_pending w)) /\ 0 <= bw_count w <= maxPendingTxMapSize.
Proof.
  intros Hp Hn Hs. assert (MInv w) as (Hc & Hb & _).
  { eapply (invariant_rtc mstep); [exact pending_step|exact Hs|]. unfold MInv. rewrite Hp, Hn, map_size_empty.
    split_and!; [done|done|apply map_Forall_empty]. }
  split; [done|lia].
Qed.

Section Poll.
Variable cf : BConfig (Ch := Ch).

Lemma report_pending env payload r (w : BWorld (Ch := Ch)) : bw_pending (report cf env payload r w).2 = bw_pending w
  /\ bw_count (report cf env payload r w).2 = bw_count w /\ bw_chain (report cf env payload r w).2 = bw_chain w.
Proof. unfold report, onBDB. by destruct (engineCall _ _). Qed.

Lemma record_pending payload tx (w : BWorld (Ch := Ch)) : bw_pending (recordTx payload tx w) = bw_pending w
  /\ bw_count (recordTx payload tx w) = bw_count w /\ bw_chain (recordTx payload tx w) = bw_chain w.
Proof. unfold recordTx, onBDB. by destruct (UpdateProviderTransaction _ _ _ _). Qed.

Lemma escalate_pending id e (w : BWorld (Ch := Ch)) : bw_pending (escalatePendingTx cf id e w) = bw_pending w
  /\ bw_count (escalatePendingTx cf id e w) = bw_count w /\ bw_chain (escalatePendingTx cf id e w) = bw_chain w.
Proof. unfold escalatePendingTx. by repeat case_match. Qed.

Lemma forget_pending id (w : BWorld (Ch := Ch)) : bw_pending (forget id w) = delete id (bw_pending w)
  /\ bw_chain (forget id w) = bw_chain w.
Proof. unfold forget. destruct (bw_pending w !! id) eqn:E; [done|]. by rewrite delete_id. Qed.

(** Chains that answer the same way throughout a poll. *)
Variables (look : string -> string -> result ChainTx) (now : Z).

Definition readOnly : Prop := forall chain client hash c, bc_clients cf chain = Some client ->
  cl_GetTransaction client hash c = (look chain hash, c).

(** The chain has decided the transaction. *)
Definition decided (e : pendingEntry) : bool :=
  match bc_clients cf (bsp_Chain (pe_payload e)), look (bsp_Chain (pe_payload e)) (pe_txHash e) with
  | Some _, Ok tx => EqualFold (ct_Status tx) "confirmed" || EqualFold (ct_Status tx) "failed"
  | _, _ => false
  end.

(** What stays in the map. *)
Definition stays (e : pendingEntry) : bool := negb (expired cf now e) && negb (decided e).

Lemma check_pending env e (w : BWorld (Ch := Ch)) : readOnly -> bw_pending w !! bsp_TransferID (pe_payload e) = Some e ->
  bw_pending (checkPendingTx cf env (pe_payload e) (polledTx (pe_txHash e)) w).2
  = (if decided e then delete (bsp_TransferID (pe_payload e)) (bw_pending w) else bw_pending w).
Proof.
  intros Hro Hin. unfold checkPendingTx, decided. destruct (bc_clients cf _) as [client|] eqn:Hc; [|done].
  rewrite (Hro _ _ _ _ Hc). cbn [ptx_TxHash polledTx]. destruct (look _ _) as [tx|err]; [|done].
  destruct (EqualFold _ "confirmed"); cbn [orb]; [|destruct (EqualFold _ "failed")].
  1,2: rewrite (proj1 (report_pending _ _ _ _)), (proj1 (forget_pending _ _)), (proj1 (record_pending _ _ _)); done.
  unfold trackPending. cbn [snd bw_pending set_chain]. destruct (_ <=? _); [done|]. by rewrite Hin.
Qed.
(** One iteration removes its entry exactly if it does not stay. *)
Definition removed (id : UUID) (e : pendingEntry) (m : gmap UUID pendingEntry) : gmap UUID pendingEntry :=
  if stays e then m else delete id m.

Lemma pollLoop_pending envs entries : readOnly -> (forall k, be_now (envs k) = now) -> forall k checked (w : BWorld (Ch := Ch)),
  NoDup entries.*1 ->
  Forall (fun '(id, e) => bsp_TransferID (pe_payload e) = id /\ bw_pending w !! id = Some e) entries ->
  checked + Z.of_nat (length (filter (fun x => expired cf now x.2 = false) entries)) <= maxPendingChecksPerPoll ->
  bw_pending (pollLoop cf envs k entries checked w) = foldl (fun m '(id, e) => removed id e m) (bw_pending w) entries.
Proof.
  intros Hro Hnow. induction entries as [|[id e] entries IH]; [done|]. intros k checked w Hnd Hall Hle.
  apply NoDup_cons in Hnd as [Hid Hnd]. apply Forall_cons in Hall as [[Hkey Hin] Hall].
  rewrite filter_cons in Hle. cbn [pollLoop foldl]. rewrite Hnow. unfold removed at 2, stays. cbn [snd] in Hle.
  assert (forall w' : BWorld (Ch := Ch), (bw_pending w' = bw_pending w \/ bw_pending w' = delete id (bw_pending w)) ->
    Forall (fun '(id, e) => bsp_TransferID (pe_payload e) = id /\ bw_pending w' !! id = Some e) entries) as Hrest.
  { intros w' Hw'. rewrite Forall_forall in Hall |- *. intros [id' e'] Hx. destruct (Hall _ Hx) as [H1 H2]. split; [done|].
    destruct Hw' as [-> | ->]; [done|]. rewrite lookup_delete_ne; [done|]. intros ->. apply Hid.
    by apply (list_elem_of_fmap_2 fst) in Hx. }
  destruct (expired cf now e) eqn:Hex; cbn [negb andb].
  - rewrite decide_False in Hle by done. rewrite Hin.
    pose proof (proj1 (escalate_pending id e (forget id w))) as Hp. rewrite (proj1 (forget_pending id w)) in Hp.
    rewrite IH by (try done; apply Hrest; by right). by rewrite Hp.
  - rewrite decide_True in Hle by done. cbn [length] in Hle.
    rewrite (proj2 (Z.leb_gt _ _)) by lia.
    pose proof (check_pending (envs k) e w Hro) as Hp. rewrite Hkey in Hp. specialize (Hp Hin).
    rewrite IH; [|done| |lia].
    + rewrite Hp. by destruct (decided e).
    + apply Hrest. rewrite Hp. destruct (decided e); auto.
Qed.

Lemma foldl_removed entries : forall m : gmap UUID pendingEntry, NoDup entries.*1 -> Forall (fun '(id, e) => m !! id = Some e) entries ->
  forall id, foldl (fun m '(id, e) => removed id e m) m entries !! id
  = match m !! id with
    | Some e => if bool_decide (id ∈ entries.*1) && negb (stays e) then None else Some e
    | None => None
    end.
Proof.
  induction entries as [|[id0 e0] entries IH]; intros m Hnd Hall id.
  - simpl. by destruct (m !! id).
  - apply NoDup_cons in Hnd as [Hid0 Hnd]. apply Forall_cons in Hall as [Hin Hall]. cbn [foldl].
    rewrite IH; [|done|].
    + unfold removed. destruct (decide (id = id0)) as [->|Hne].
      * rewrite Hin. rewrite (bool_decide_true (id0 ∈ ((id0, e0) :: entries).*1)) by (rewrite fmap_cons; left). destruct (stays e0) eqn:Hs; cbn [negb andb].
        -- rewrite Hin, Hs. by rewrite andb_false_r.
        -- by rewrite lookup_delete_eq.
      * assert (bool_decide (id ∈ entries.*1) = bool_decide (id ∈ ((id0, e0) :: entries).*1)) as <- by (apply bool_decide_ext; rewrite fmap_cons, elem_of_cons; naive_solver).
        destruct (stays e0); [done|]. by rewrite lookup_delete_ne.
    + rewrite Forall_forall in Hall |- *. intros [id' e'] Hx. pose proof (Hall _ Hx) as H'. unfold removed.
      destruct (stays e0); [done|]. rewrite lookup_delete_ne; [done|]. intros ->. apply Hid0.
      by apply (list_elem_of_fmap_2 fst) in Hx.
Qed.

(** A poll over chains that answer, with no more young entries than it may
    check, leaves in the map exactly the entries that are neither older than the
    escalation timeout nor decided by their chain, in whatever order Go walks the
    map and whatever the database and the engine answer. *)
Theorem poll_keeps_undecided envs order (w : BWorld (Ch := Ch)) : readOnly -> (forall k, be_now (envs k) = now) -> MInv w ->
  order ≡ₚ map_to_list (bw_pending w) ->
  Z.of_nat (length (filter (fun x => expired cf now x.2 = false) order)) <= maxPendingChecksPerPoll ->
  bw_pending (pollPendingTransactions cf envs order w) = filter (fun x => stays x.2 = true) (bw_pending w).
Proof.
  intros Hro Hnow (_ & _ & Hkey) Hord Hle. unfold pollPendingTransactions.
  assert (NoDup order.*1) as Hnd by (rewrite Hord; apply NoDup_fst_map_to_list).
  assert (forall id e, (id, e) ∈ order -> bw_pending w !! id = Some e) as Hin.
  { intros id e. rewrite Hord. apply elem_of_map_to_list. }
  rewrite pollLoop_pending; [|done|done|done| |lia].
  - apply map_eq. intros id. rewrite foldl_removed; [|done|apply Forall_forall; intros [i e]; apply Hin].
    destruct (bw_pending w !! id) as [e|] eqn:E.
    + assert (id ∈ order.*1) as Ho. { apply (list_elem_of_fmap_2 fst order (id, e)). rewrite Hord. by apply elem_of_map_to_list. }
      rewrite bool_decide_true by done. destruct (stays e) eqn:Hs; cbn [negb andb].
      * symmetry. by apply map_lookup_filter_Some_2.
      * symmetry. apply map_lookup_filter_None_2. right. intros e' He'. simpl. congruence.
    + symmetry. apply map_lookup_filter_None_2. by left.
  - apply Forall_forall. intros [i e] Hx. apply Hin in Hx. split; [by apply (Hkey i e)|done].
Qed.
End Poll.
End Props.
End BlockchainProps.
