(* ===== verification/Recovery.v ===== *)
(** * core: the recovery detector

    Models src/core/recovery/detector.go and escalation.go: transfers that
    have stayed too long in a status are looked up with their provider or
    chain and moved on by the engine, or escalated to a manual review; and
    src/store/transferdb/recovery_query_adapter.go, the query that finds them.

    The services that are asked ([Checker]) and the order in which Go walks
    the map of thresholds are arguments.  The engine is that of [Engine], over
    any transfer store. *)

From stdpp Require Import sorting.
From S2P Require Import Prelude ThirdParty GoNumbers Sql Money Deposits Transfer Outbox LedgerEntries TransferStore Engine EngineFacts EngineProps EnginePipeline ProviderWorker.
Local Open Scope string_scope.
Local Open Scope Z_scope.

Module Recovery.
Import ProviderWorker Reviews.

Section Detector.
Context {L : ThirdParty} {St : Type} `{TS : !TransferStore St}.

Record ProviderStatus := { ps_Status : string; ps_Reference : string; ps_Error : string }.
Record ChainStatus := { cs_Confirmed : bool; cs_TxHash : string; cs_Error : string }.

(** [ProviderStatusChecker]: what the services answer. *)
Record Checker := {
  ck_OnRamp : string -> UUID -> result ProviderStatus;
  ck_OffRamp : string -> UUID -> result ProviderStatus;
  ck_Blockchain : string -> string -> result ChainStatus }.

Record Thresholds := { th_Warn : Z; th_Recover : Z; th_Escalate : Z }.

Definition minutes (n : Z) : Z := n * 60 * 1000000000.

(** In the order of the source; a cycle walks the map in any order. *)
Definition DefaultThresholds : list (TransferStatus * Thresholds) :=
  [(Funded, {| th_Warn := minutes 5; th_Recover := minutes 10; th_Escalate := minutes 30 |});
   (OnRamping, {| th_Warn := minutes 10; th_Recover := minutes 15; th_Escalate := minutes 60 |});
   (Settling, {| th_Warn := minutes 5; th_Recover := minutes 10; th_Escalate := minutes 30 |});
   (OffRamping, {| th_Warn := minutes 10; th_Recover := minutes 15; th_Escalate := minutes 60 |});
   (Refunding, {| th_Warn := minutes 10; th_Recover := minutes 15; th_Escalate := minutes 60 |})].

(** What one recovery finds. *)
Record RecEnv := { re_engine : EEnv; re_deps : Deps; re_check : Checker }.

(** The store, the reviews, and the transfers under recovery. *)
Record RWorld := { rc_store : St; rc_reviews : Sql (list ReviewRow); rc_progress : gset UUID }.

Definition set_store (w : RWorld) (st : St) : RWorld :=
  {| rc_store := st; rc_reviews := rc_reviews w; rc_progress := rc_progress w |}.

(** ** Recovery by status *)

(** The errors that mean the transfer has moved on already. *)
Definition alreadyAdvanced (e : error) : bool :=
  is_optimistic_lock e || bool_decide (error_code e = Some CodeInvalidTransition)
  || containsStr (errorText e) "concurrent modification".

(** A call of the engine that must succeed. *)
Definition must (ctx : string) (out : result unit * St) : result bool * St :=
  let '(r, st) := out in (let? _ := wrap ctx r in Ok true, st).

(** A call after which the transfer may have moved on already. *)
Definition orAdvanced (ctx : string) (out : result unit * St) : result bool * St :=
  let '(r, st) := out in
  (match r with
   | Ok _ => Ok true
   | Err e => if alreadyAdvanced e then Ok true else Err (WrapErr ctx e)
   end, st).

Definition recoverFunded (env : RecEnv) (transfer : Transfer) (st : St) : result bool * St :=
  orAdvanced "initiating on-ramp for stuck FUNDED transfer" (InitiateOnRamp (re_engine env) (tr_TenantID transfer) (tr_ID transfer) st).

Definition completedResult (reference : string) : IntentResult :=
  {| ir_Success := true; ir_ProviderRef := reference; ir_TxHash := ""; ir_Error := ""; ir_ErrorCode := ""; ir_Metadata := ∅ |}.

Definition recoverOnRamping (env : RecEnv) (transfer : Transfer) (st : St) : result bool * St :=
  match ck_OnRamp (re_check env) (tr_OnRampProviderID transfer) (tr_ID transfer) with
  | Err e => (Err (WrapErr "checking on-ramp status" e), st)
  | Ok status =>
      let handle := HandleOnRampResult (re_engine env) (re_deps env) (tr_TenantID transfer) (tr_ID transfer) in
      if String.eqb (ps_Status status) "completed" then
        must "handling on-ramp completion" (handle (completedResult (ps_Reference status)) st)
      else if String.eqb (ps_Status status) "failed" then
        must "handling on-ramp failure" (handle (failure (ps_Error status) "provider_onramp_failed") st)
      else (Ok false, st)
  end.

(** The hash of the first transaction of type settlement. *)
Definition settlementHash (transfer : Transfer) : string :=
  match List.find (fun tx => String.eqb (btx_Type tx) "settlement") (tr_BlockchainTxs transfer) with
  | Some tx => btx_TxHash tx
  | None => ""
  end.

Definition recoverSettling (env : RecEnv) (transfer : Transfer) (st : St) : result bool * St :=
  let txHash := settlementHash transfer in
  if String.eqb txHash "" then (Ok false, st)
  else
    match ck_Blockchain (re_check env) (tr_Chain transfer) txHash with
    | Err e => (Err (WrapErr "checking blockchain status" e), st)
    | Ok status =>
        let handle := HandleSettlementResult (re_engine env) (re_deps env) (tr_TenantID transfer) (tr_ID transfer) in
        if cs_Confirmed status then
          must "handling settlement confirmation"
            (handle {| ir_Success := true; ir_ProviderRef := ""; ir_TxHash := cs_TxHash status; ir_Error := ""; ir_ErrorCode := "";
                       ir_Metadata := ∅ |} st)
        else if negb (String.eqb (cs_Error status) "") then
          must "handling settlement failure" (handle (failure (cs_Error status) "blockchain_settlement_failed") st)
        else (Ok false, st)
    end.

Definition recoverOffRamping (env : RecEnv) (transfer : Transfer) (st : St) : result bool * St :=
  match ck_OffRamp (re_check env) (tr_OffRampProviderID transfer) (tr_ID transfer) with
  | Err e => (Err (WrapErr "checking off-ramp status" e), st)
  | Ok status =>
      let handle := HandleOffRampResult (re_engine env) (re_deps env) (tr_TenantID transfer) (tr_ID transfer) in
      if String.eqb (ps_Status status) "completed" then
        must "handling off-ramp completion" (handle (completedResult (ps_Reference status)) st)
      else if String.eqb (ps_Status status) "failed" then
        must "handling off-ramp failure" (handle (failure (ps_Error status) "provider_offramp_failed") st)
      else (Ok false, st)
  end.

Definition recoverRefunding (env : RecEnv) (transfer : Transfer) (st : St) : result bool * St :=
  orAdvanced "handling refund result for stuck REFUNDING transfer"
    (HandleRefundResult (re_engine env) (tr_TenantID transfer) (tr_ID transfer) (completedResult "") st).

Definition recoverByStatus (env : RecEnv) (transfer : Transfer) (st : St) : result bool * St :=
  match tr_Status transfer with
  | Funded => recoverFunded env transfer st
  | OnRamping => recoverOnRamping env transfer st
  | Settling => recoverSettling env transfer st
  | OffRamping => recoverOffRamping env transfer st
  | Refunding => recoverRefunding env transfer st
  | _ => (Ok false, st)
  end.

(** [LoadOrStore] and the deferred [Delete] around it. *)
Definition recoverTransfer (env : RecEnv) (transfer : Transfer) (w : RWorld) : result bool * RWorld :=
  if bool_decide (tr_ID transfer ∈ rc_progress w) then (Ok false, w)
  else
    let '(r, st) := recoverByStatus env transfer (rc_store w) in
    (r, {| rc_store := st; rc_reviews := rc_reviews w; rc_progress := ({[ tr_ID transfer ]} ∪ rc_progress w) ∖ {[ tr_ID transfer ]} |}).

(** ** Escalation *)

(** The string of a status. *)
Definition statusName (s : TransferStatus) : string :=
  match s with
  | Created => "CREATED" | Funded => "FUNDED" | OnRamping => "ON_RAMPING" | Settling => "SETTLING"
  | OffRamping => "OFF_RAMPING" | Completed => "COMPLETED" | Failed => "FAILED" | Refunding => "REFUNDING"
  | Refunded => "REFUNDED"
  end.

Definition escalate (transfer : Transfer) (stuckSince : Z) (d : Sql (list ReviewRow)) : result unit * Sql (list ReviewRow) :=
  let '(has, d) := HasActiveReview (tr_ID transfer) d in
  match has with
  | Err e => (Err e, d)
  | Ok true => (Ok tt, d)
  | Ok false => CreateManualReview (tr_ID transfer) (tr_TenantID transfer) (statusName (tr_Status transfer)) stuckSince d
  end.

(** ** The cycle *)

Definition maxPerTenantPerCycle : Z := 50.

Record Tally := { ta_recovered : Z; ta_escalated : Z; ta_skipped : Z }.

Definition tally (r e s : Z) (t : Tally) : Tally :=
  {| ta_recovered := ta_recovered t + r; ta_escalated := ta_escalated t + e; ta_skipped := ta_skipped t + s |}.

(** One transfer that is not skipped for fairness. *)
Definition attempt (env : RecEnv) (now : Z) (th : Thresholds) (transfer : Transfer) (x : Tally * RWorld) : Tally * RWorld :=
  let '(t, w) := x in
  let '(r, w) := recoverTransfer env transfer w in
  match r with
  | Err _ => (t, w)
  | Ok true => (tally 1 0 0 t, w)
  | Ok false =>
      if th_Escalate th <=? timeSub now (tr_UpdatedAt transfer) then
        let '(e, d) := escalate transfer (tr_UpdatedAt transfer) (rc_reviews w) in
        let w := {| rc_store := rc_store w; rc_reviews := d; rc_progress := rc_progress w |} in
        (tally 0 (if is_ok e then 1 else 0) 1 t, w)
      else (tally 0 0 1 t, w)
  end.

(** The transfers of one status; the [k]-th finds [envs k]. *)
Fixpoint recoverAll (envs : nat -> RecEnv) (now : Z) (th : Thresholds) (k : nat) (counts : gmap UUID Z) (transfers : list Transfer)
    (x : Tally * RWorld) : Tally * RWorld :=
  match transfers with
  | [] => x
  | transfer :: transfers =>
      let n := default 0 (counts !! tr_TenantID transfer) in
      if maxPerTenantPerCycle <=? n then recoverAll envs now th (Datatypes.S k) counts transfers (tally 0 0 1 x.1, x.2)
      else recoverAll envs now th (Datatypes.S k) (<[tr_TenantID transfer := n + 1]> counts) transfers
             (attempt (envs k) now th transfer x)
  end.

Definition Lister : Type := TransferStatus -> Z -> St -> result (list Transfer).

(** The statuses in the order of the iteration; a failed query skips its status. *)
Fixpoint cycle (stuck : Lister) (envs : TransferStatus -> nat -> RecEnv) (now : Z) (order : list (TransferStatus * Thresholds))
    (x : Tally * RWorld) : Tally * RWorld :=
  match order with
  | [] => x
  | (status, th) :: order =>
      cycle stuck envs now order
        (match stuck status (now - th_Recover th) (rc_store x.2) with
         | Err _ => x
         | Ok transfers => recoverAll (envs status) now th 0 ∅ transfers x
         end)
  end.

Definition runCycle (stuck : Lister) (envs : TransferStatus -> nat -> RecEnv) (now : Z) (order : list (TransferStatus * Thresholds))
    (w : RWorld) : Tally * RWorld :=
  cycle stuck envs now order ({| ta_recovered := 0; ta_escalated := 0; ta_skipped := 0 |}, w).
End Detector.

(** ** The query *)

Section Adapter.
Context {L : ThirdParty}.

(** The fields the query selects; the others keep Go's zero value. *)
Definition stuckRow (t : Transfer) : Transfer :=
  {| tr_ID := tr_ID t; tr_TenantID := tr_TenantID t; tr_ExternalRef := ""; tr_IdempotencyKey := ""; tr_Status := tr_Status t;
     tr_Version := 0; tr_SourceCurrency := ""; tr_SourceAmount := dZero; tr_DestCurrency := ""; tr_DestAmount := dZero;
     tr_StableCoin := ""; tr_StableAmount := dZero; tr_Chain := ""; tr_FXRate := dZero;
     tr_Fees := {| OnRampFee := dZero; NetworkFee := dZero; OffRampFee := dZero; TotalFeeUSD := dZero |};
     tr_FeeScheduleSnapshot := None; tr_OnRampProviderID := ""; tr_OffRampProviderID := "";
     tr_Sender := {| snd_ID := uuid_Nil; snd_Name := ""; snd_Email := ""; snd_Country := "" |};
     tr_Recipient := {| rcp_Name := ""; rcp_AccountNumber := ""; rcp_SortCode := ""; rcp_BankName := ""; rcp_Country := ""; rcp_IBAN := "" |};
     tr_QuoteID := None; tr_BlockchainTxs := []; tr_CreatedAt := tr_CreatedAt t; tr_UpdatedAt := tr_UpdatedAt t;
     tr_FundedAt := None; tr_CompletedAt := None; tr_FailedAt := None; tr_FailureReason := ""; tr_FailureCode := "" |}.

Definition NewRecoveryQueryAdapter (maxResults : Z) : Z := if maxResults <=? 0 then 5000 else int32 maxResults.

Definition isStuck (status : TransferStatus) (olderThan : Z) (t : Transfer) : bool :=
  bool_decide (tr_Status t = status) && (tr_UpdatedAt t <? olderThan).

Definition ListStuckTransfers (maxResults : Z) : Lister (St := Adapter.DB) := fun status olderThan d =>
  if negb (Adapter.db_up d) then Err Adapter.down
  else
    let? rows := limitOffset maxResults 0
      (orderAsc tr_UpdatedAt (filter (fun t => isStuck status olderThan t = true) (map snd (map_to_list (Adapter.db_transfers d))))) in
    Ok (map stuckRow rows).
End Adapter.
End Recovery.
