(* ===== verification/RecoveryProps.v ===== *)
(** * core: what the recovery detector guarantees

    [recovery_is_justified]: a cycle visits, for each status, the first
    transfers of every tenant that the query lists as stuck, and does to each
    of them the one operation of the engine that the answer of the provider or
    the chain calls for.  [recovery_refines_engine]: so transfers move only by
    steps of the engine.  [recovery_is_fair]: which transfers are attempted.
    [stuck_funded_moves_on]: a stuck FUNDED transfer that is attempted is moved
    on.  [settling_never_recovered]: with the shipped query no SETTLING transfer
    is. *)

From stdpp Require Import sorting.
From S2P Require Import Prelude ThirdParty GoNumbers Sql Money Deposits Transfer Outbox LedgerEntries TransferStore Engine EngineFacts EngineProps EnginePipeline ProviderWorker Recovery.
Local Open Scope string_scope.
Local Open Scope Z_scope.

Module RecoveryProps.
Import ProviderWorker Reviews Recovery.

Section Refinement.
Context {L : ThirdParty} {St : Type} `{TS : !TransferStore St} {TSL : TransferStoreLaws St}.

Lemma handle_any_rtc env dp op tn id (st : St) : rtc sys_step (st, []) ((handle env dp op tn id st).2, []).
Proof. destruct (handle env dp op tn id st) as [r st'] eqn:E. by eapply handle_rtc. Qed.

(** ** What a visit does *)

(** The operation of the engine that a stuck transfer calls for, given what
    the provider or the chain answers about it. *)
Inductive justified (env : RecEnv) (t : Transfer) : Op -> Prop :=
| JFunded : tr_Status t = Funded -> justified env t OOnRamp
| JOnRampCompleted s : tr_Status t = OnRamping ->
    ck_OnRamp (re_check env) (tr_OnRampProviderID t) (tr_ID t) = Ok s -> ps_Status s = "completed" ->
    justified env t (OOnRampResult (completedResult (ps_Reference s)))
| JOnRampFailed s : tr_Status t = OnRamping ->
    ck_OnRamp (re_check env) (tr_OnRampProviderID t) (tr_ID t) = Ok s -> ps_Status s = "failed" ->
    justified env t (OOnRampResult (failure (ps_Error s) "provider_onramp_failed"))
| JConfirmed s : tr_Status t = Settling -> settlementHash t <> "" ->
    ck_Blockchain (re_check env) (tr_Chain t) (settlementHash t) = Ok s -> cs_Confirmed s = true ->
    justified env t (OSettlementResult (Engine.success (cs_TxHash s)))
| JReverted s : tr_Status t = Settling -> settlementHash t <> "" ->
    ck_Blockchain (re_check env) (tr_Chain t) (settlementHash t) = Ok s -> cs_Confirmed s = false -> cs_Error s <> "" ->
    justified env t (OSettlementResult (failure (cs_Error s) "blockchain_settlement_failed"))
| JOffRampCompleted s : tr_Status t = OffRamping ->
    ck_OffRamp (re_check env) (tr_OffRampProviderID t) (tr_ID t) = Ok s -> ps_Status s = "completed" ->
    justified env t (OOffRampResult (completedResult (ps_Reference s)))
| JOffRampFailed s : tr_Status t = OffRamping ->
    ck_OffRamp (re_check env) (tr_OffRampProviderID t) (tr_ID t) = Ok s -> ps_Status s = "failed" ->
    justified env t (OOffRampResult (failure (ps_Error s) "provider_offramp_failed"))
| JRefunding : tr_Status t = Refunding -> justified env t (ORefundResult (completedResult "")).

(** The provider or the chain could not be asked. *)
Definition unanswered (env : RecEnv) (t : Transfer) : bool :=
  match tr_Status t with
  | OnRamping => negb (is_ok (ck_OnRamp (re_check env) (tr_OnRampProviderID t) (tr_ID t)))
  | Settling => negb (String.eqb (settlementHash t) "")
                && negb (is_ok (ck_Blockchain (re_check env) (tr_Chain t) (settlementHash t)))
  | OffRamping => negb (is_ok (ck_OffRamp (re_check env) (tr_OffRampProviderID t) (tr_ID t)))
  | _ => false
  end.

(** The operation a transfer calls for is the one that is run, and its outcome
    is that of the engine; without one nothing is written. *)
Inductive recovered (env : RecEnv) (t : Transfer) (st : St) : result bool * St -> Prop :=
| RDone op r : justified env t op -> r <> Ok false ->
    recovered env t st (r, (handle (re_engine env) (re_deps env) op (tr_TenantID t) (tr_ID t) st).2)
| RNothing r : (forall op, ~ justified env t op) -> (r = Ok false <-> unanswered env t = false) -> r <> Ok true ->
    recovered env t st (r, st).

Lemma must_done env t st op ctx out : justified env t op ->
  out = handle (re_engine env) (re_deps env) op (tr_TenantID t) (tr_ID t) st -> recovered env t st (must ctx out).
Proof.
  intros Hj ->. pose proof (RDone env t st op (must ctx (handle (re_engine env) (re_deps env) op (tr_TenantID t) (tr_ID t) st)).1 Hj) as H.
  destruct (handle _ _ _ _ _ _) as [[[]|e] st']; by apply H.
Qed.

Lemma orAdvanced_done env t st op ctx out : justified env t op ->
  out = handle (re_engine env) (re_deps env) op (tr_TenantID t) (tr_ID t) st -> recovered env t st (orAdvanced ctx out).
Proof.
  intros Hj ->. pose proof (RDone env t st op (orAdvanced ctx (handle (re_engine env) (re_deps env) op (tr_TenantID t) (tr_ID t) st)).1 Hj) as H.
  destruct (handle _ _ _ _ _ _) as [[[]|e] st']; [by apply H|]. apply H. simpl. by case_match.
Qed.

(** Ends a visit without an operation: no constructor of [justified] fits. *)
Ltac nothing_done := apply RNothing; [intros op Hj; inversion Hj; congruence | | done].

Lemma recoverByStatus_ok env t st : recovered env t st (recoverByStatus env t st).
Proof.
  unfold recoverByStatus. destruct (tr_Status t) eqn:Hs; try by (nothing_done; unfold unanswered; rewrite Hs).
  - eapply orAdvanced_done; [by apply JFunded|done].
  - unfold recoverOnRamping. destruct (ck_OnRamp _ _ _) as [s|e] eqn:Hc; [|by nothing_done; unfold unanswered; rewrite Hs, Hc].
    destruct (String.eqb_spec (ps_Status s) "completed"); [by eapply must_done; [eapply JOnRampCompleted|]|].
    destruct (String.eqb_spec (ps_Status s) "failed"); [by eapply must_done; [eapply JOnRampFailed|]|].
    nothing_done. unfold unanswered. by rewrite Hs, Hc.
  - unfold recoverSettling. destruct (String.eqb_spec (settlementHash t) "") as [Hh|Hh].
    { nothing_done. unfold unanswered. by rewrite Hs, Hh. }
    destruct (ck_Blockchain _ _ _) as [s|e] eqn:Hc.
    2:{ nothing_done. unfold unanswered. rewrite Hs, Hc. apply String.eqb_neq in Hh. by rewrite Hh. }
    destruct (cs_Confirmed s) eqn:Hcf; [by eapply must_done; [eapply JConfirmed|]|].
    destruct (String.eqb_spec (cs_Error s) ""); simpl; [|by eapply must_done; [eapply JReverted|]].
    nothing_done. unfold unanswered. rewrite Hs, Hc. by rewrite andb_false_r.
  - unfold recoverOffRamping. destruct (ck_OffRamp _ _ _) as [s|e] eqn:Hc; [|by nothing_done; unfold unanswered; rewrite Hs, Hc].
    destruct (String.eqb_spec (ps_Status s) "completed"); [by eapply must_done; [eapply JOffRampCompleted|]|].
    destruct (String.eqb_spec (ps_Status s) "failed"); [by eapply must_done; [eapply JOffRampFailed|]|].
    nothing_done. unfold unanswered. by rewrite Hs, Hc.
  - eapply orAdvanced_done; [by apply JRefunding|done].
Qed.

Lemma recoverTransfer_rtc env transfer (w : RWorld (St := St)) :
  rtc sys_step (rc_store w, []) (rc_store (recoverTransfer env transfer w).2, []).
Proof.
  unfold recoverTransfer. case_bool_decide; [done|].
  destruct (recoverByStatus_ok env transfer (rc_store w)) as [op r _ _|r _ _ _]; [apply handle_any_rtc|done].
Qed.

Lemma attempt_store env now th transfer x :
  rc_store (attempt (St := St) env now th transfer x).2 = rc_store (recoverTransfer env transfer x.2).2.
Proof.
  destruct x as [t w]. unfold attempt. simpl. destruct (recoverTransfer env transfer w) as [r w'].
  destruct r as [[]|]; [done| |done]. case_match; [|done]. by destruct (escalate _ _ _).
Qed.

Lemma recoverAll_rtc envs now th ts : forall k counts x,
  rtc sys_step (rc_store x.2, []) (rc_store (recoverAll (St := St) envs now th k counts ts x).2, []).
Proof.
  induction ts as [|t ts IH]; intros k counts x; [done|]. cbn [recoverAll]. case_match; [apply (IH _ _ (_, x.2))|].
  etrans; [|apply IH]. rewrite attempt_store. apply recoverTransfer_rtc.
Qed.

(** Whatever the detector finds, and whatever its services answer, a cycle
    moves transfers only by operations of the engine: the store evolves by
    engine steps, so every invariant of those (the state machine, the treasury
    intents of each transfer) holds through recovery too. *)
Lemma recovery_refines_engine stuck envs now order w :
  rtc sys_step (rc_store w, []) (rc_store (runCycle (St := St) stuck envs now order w).2, []).
Proof.
  unfold runCycle. set (t0 := {| ta_recovered := 0; ta_escalated := 0; ta_skipped := 0 |}).
  change (rc_store w) with (rc_store (t0, w).2). generalize (t0, w). clear t0 w.
  induction order as [|[status th] order IH]; intros x; [done|]. cbn [cycle].
  etrans; [|apply IH]. destruct (stuck _ _ _) as [ts|]; [|done]. apply recoverAll_rtc.
Qed.

(** ** Which transfers are attempted *)

(** The transfers attempted, with their positions. *)
Fixpoint visits (k : nat) (counts : gmap UUID Z) (ts : list Transfer) : list (nat * Transfer) :=
  match ts with
  | [] => []
  | t :: ts =>
      let n := default 0 (counts !! tr_TenantID t) in
      if maxPerTenantPerCycle <=? n then visits (Datatypes.S k) counts ts
      else (k, t) :: visits (Datatypes.S k) (<[tr_TenantID t := n + 1]> counts) ts
  end.

(** The world is threaded through the attempts; the tally is not read. *)
Definition attempts (envs : nat -> RecEnv) (now : Z) (th : Thresholds) (l : list (nat * Transfer)) (w : RWorld (St := St)) : RWorld :=
  foldl (fun w '(k, t) => (attempt (envs k) now th t ({| ta_recovered := 0; ta_escalated := 0; ta_skipped := 0 |}, w)).2) w l.

Lemma attempt_tally env now th t x y w : (attempt (St := St) env now th t (x, w)).2 = (attempt env now th t (y, w)).2.
Proof.
  unfold attempt. destruct (recoverTransfer env t w) as [[[]|] w']; [done| |done].
  case_match; [|done]. by destruct (escalate _ _ _).
Qed.

Lemma recoverAll_attempts envs now th ts : forall k counts x,
  (recoverAll (St := St) envs now th k counts ts x).2 = attempts envs now th (visits k counts ts) x.2.
Proof.
  induction ts as [|t ts IH]; intros k counts x; [done|]. cbn [recoverAll visits]. case_match; [by rewrite IH|].
  rewrite IH. unfold attempts. cbn [foldl]. f_equal. destruct x as [y w]. apply attempt_tally.
Qed.

Lemma visits_tenant tn ts : forall k counts, default 0 (counts !! tn) <= maxPerTenantPerCycle ->
  filter (fun t => tr_TenantID t = tn) (visits k counts ts).*2
  = take (Z.to_nat (maxPerTenantPerCycle - default 0 (counts !! tn))) (filter (fun t => tr_TenantID t = tn) ts).
Proof.
  induction ts as [|t ts IH]; intros k counts Hle; [cbn; by rewrite take_nil|]. cbn [visits].
  rewrite (filter_cons _ t ts). destruct (Z.leb_spec maxPerTenantPerCycle (default 0 (counts !! tr_TenantID t))).
  - rewrite IH by done. case_decide as Ht; [|done]. subst tn.
    replace (Z.to_nat (maxPerTenantPerCycle - default 0 (counts !! tr_TenantID t))) with 0%nat by lia. by rewrite !take_0.
  - rewrite fmap_cons, filter_cons. cbn [snd]. case_decide as Ht.
    + subst tn. rewrite IH; rewrite lookup_insert_eq; simpl; [|lia].
      replace (Z.to_nat (maxPerTenantPerCycle - default 0 (counts !! tr_TenantID t)))
        with (Datatypes.S (Z.to_nat (maxPerTenantPerCycle - (default 0 (counts !! tr_TenantID t) + 1)))) by lia. done.
    + by rewrite IH; rewrite lookup_insert_ne.
Qed.

(** Of the stuck transfers of one status a cycle attempts, in the order of
    the query, the first maxPerTenantPerCycle of every tenant and no others,
    however many of another tenant come before them. *)
Theorem recovery_is_fair envs now th ts x tn :
  (recoverAll (St := St) envs now th 0 ∅ ts x).2 = attempts envs now th (visits 0 ∅ ts) x.2
  /\ filter (fun t => tr_TenantID t = tn) (visits 0 ∅ ts).*2 = take 50 (filter (fun t => tr_TenantID t = tn) ts).
Proof.
  split; [apply recoverAll_attempts|]. rewrite (visits_tenant tn ts 0 ∅).
  - by rewrite lookup_empty.
  - rewrite lookup_empty. unfold maxPerTenantPerCycle. simpl. lia.
Qed.

(** ** A cycle *)

(** One visit: the operation that is called for and no review, or no
    operation and, when the provider or the chain has answered and the
    transfer has been stuck for long enough, an escalation. *)
Inductive visit (env : RecEnv) (now : Z) (th : Thresholds) (t : Transfer) (w w' : RWorld (St := St)) : Prop :=
| VRecovered op : justified env t op ->
    rc_store w' = (handle (re_engine env) (re_deps env) op (tr_TenantID t) (tr_ID t) (rc_store w)).2 ->
    rc_reviews w' = rc_reviews w -> visit env now th t w w'
| VLeft : (forall op, ~ justified env t op) -> rc_store w' = rc_store w ->
    rc_reviews w' = (if negb (unanswered env t) && (th_Escalate th <=? timeSub now (tr_UpdatedAt t))
                     then (escalate t (tr_UpdatedAt t) (rc_reviews w)).2 else rc_reviews w) ->
    visit env now th t w w'.

Fixpoint visitAll (envs : nat -> RecEnv) (now : Z) (th : Thresholds) (l : list (nat * Transfer)) (w w' : RWorld (St := St)) : Prop :=
  match l with
  | [] => w' = w
  | (k, t) :: l => exists w1, visit (envs k) now th t w w1 /\ visitAll envs now th l w1 w'
  end.

(** What a cycle may do with the statuses of [order]: a query that fails skips
    its status; otherwise the transfers it lists as unchanged since the
    status's threshold are visited in order, of every tenant the first 50 and
    no others. *)
Inductive cycled (stuck : Lister) (envs : TransferStatus -> nat -> RecEnv) (now : Z)
  : list (TransferStatus * Thresholds) -> RWorld (St := St) -> RWorld -> Prop :=
| CyEnd w : cycled stuck envs now [] w w
| CySkip status th order e w w' : stuck status (now - th_Recover th) (rc_store w) = Err e ->
    cycled stuck envs now order w w' -> cycled stuck envs now ((status, th) :: order) w w'
| CyVisit status th order ts l w w1 w' : stuck status (now - th_Recover th) (rc_store w) = Ok ts ->
    l.*2 `sublist_of` ts ->
    (forall tn, filter (fun t => tr_TenantID t = tn) l.*2 = take 50 (filter (fun t => tr_TenantID t = tn) ts)) ->
    visitAll (envs status) now th l w w1 -> cycled stuck envs now order w1 w' ->
    cycled stuck envs now ((status, th) :: order) w w'.

Lemma visits_sublist ts : forall k counts, (visits k counts ts).*2 `sublist_of` ts.
Proof.
  induction ts as [|t ts IH]; intros k counts; [constructor|]. cbn [visits]. case_match; [by apply sublist_cons|].
  by apply sublist_skip.
Qed.

Lemma attempt_visit env now th t x : rc_progress x.2 = ∅ ->
  visit env now th t x.2 (attempt (St := St) env now th t x).2 /\ rc_progress (attempt (St := St) env now th t x).2 = ∅.
Proof.
  destruct x as [y w]. cbn [snd]. intros Hp. unfold attempt, recoverTransfer. rewrite bool_decide_false by (rewrite Hp; set_solver).
  assert (({[ tr_ID t ]} ∪ rc_progress w) ∖ {[ tr_ID t ]} = (∅ : gset UUID)) as Hd by (rewrite Hp; set_solver). rewrite Hd.
  destruct (recoverByStatus_ok env t (rc_store w)) as [op r Hj Hr|r Hj Hu Hr].
  - destruct r as [[]|e]; [|done|]; (split; [|done]); by eapply VRecovered.
  - destruct r as [[]|e]; [done| |].
    + destruct (th_Escalate th <=? timeSub now (tr_UpdatedAt t)) eqn:Et.
      * destruct (escalate t (tr_UpdatedAt t) _) as [r' d] eqn:Ee. split; [|done]. apply VLeft; [done|done|].
        rewrite (proj1 Hu eq_refl), Et. simpl. simpl in Ee. by rewrite Ee.
      * split; [|done]. apply VLeft; [done|done|]. by rewrite Et, andb_false_r.
    + split; [|done]. apply VLeft; [done|done|]. destruct (unanswered env t) eqn:Eu; [done|]. discriminate (proj2 Hu eq_refl).
Qed.

Lemma attempts_visit envs now th l : forall w : RWorld (St := St), rc_progress w = ∅ ->
  visitAll envs now th l w (attempts envs now th l w) /\ rc_progress (attempts envs now th l w) = ∅.
Proof.
  induction l as [|[k t] l IH]; intros w Hp; [done|]. unfold attempts. cbn [visitAll foldl].
  destruct (attempt_visit (envs k) now th t ({| ta_recovered := 0; ta_escalated := 0; ta_skipped := 0 |}, w) Hp) as [Hv Hp'].
  destruct (IH _ Hp') as [Hl Hpl]. split; [|exact Hpl]. eexists. split; [exact Hv|exact Hl].
Qed.


(** ** Reviews *)

Lemma escalate_keeps transfer since d : reviews_ok (sq_tables d) -> reviews_ok (sq_tables (escalate transfer since d).2).
Proof.
  intros Hok. unfold escalate. destruct (HasActiveReview _ d) as [has d1] eqn:E. apply query_inv in E as [Hd _].
  rewrite <- Hd in Hok. destruct has as [[]|]; [done| |done]. by apply reviews_kept.
Qed.

Lemma attempt_reviews env now th t x : reviews_ok (sq_tables (rc_reviews x.2)) ->
  reviews_ok (sq_tables (rc_reviews (attempt (St := St) env now th t x).2)).
Proof.
  destruct x as [y w]. unfold attempt. simpl. intros Hok. destruct (recoverTransfer env t w) as [r w'] eqn:E.
  assert (rc_reviews w' = rc_reviews w) as Hr.
  { unfold recoverTransfer in E. case_bool_decide; [by injection E as _ <-|].
    destruct (recoverByStatus _ _ _). by injection E as _ <-. }
  rewrite <- Hr in Hok. destruct r as [[]|]; [done| |done]. case_match; [|done].
  pose proof (escalate_keeps t (tr_UpdatedAt t) _ Hok). by destruct (escalate _ _ _).
Qed.

(** Through any number of recoveries and escalations, at whatever rate the
    database fails, a transfer has at most one manual review. *)
Theorem one_review_per_transfer stuck envs now order w : reviews_ok (sq_tables (rc_reviews w)) ->
  reviews_ok (sq_tables (rc_reviews (runCycle (St := St) stuck envs now order w).2)).
Proof.
  unfold runCycle. set (t0 := {| ta_recovered := 0; ta_escalated := 0; ta_skipped := 0 |}).
  change (rc_reviews w) with (rc_reviews (t0, w).2). generalize (t0, w). clear t0 w.
  induction order as [|[status th] order IH]; intros x Hok; [done|]. cbn [cycle]. apply IH.
  destruct (stuck _ _ _) as [ts|]; [|done]. rewrite recoverAll_attempts. revert Hok. generalize x.2. clear x.
  generalize (visits 0 ∅ ts). intros l. induction l as [|[k t] l IHl]; intros w Hok; [done|].
  unfold attempts. cbn [foldl]. apply IHl. by apply (attempt_reviews _ _ _ _ (_, w)).
Qed.

(** ** Progress *)

(** A handler changes no other row. *)
Lemma handle_others env dp op tn id (st : St) j : store_inv st -> j <> id ->
  transfers (handle env dp op tn id st).2 !! j = transfers st !! j /\ store_inv (handle env dp op tn id st).2.
Proof.
  intros Hinv Hj. destruct (handle_inv env dp op tn id st) as [[-> _]|(t & p & r0 & Hg & _ & Ht & _)]; [done|].
  destruct (get_found _ _ _ _ Hinv Hg) as (_ & Hid & _). rewrite Hid in Ht.
  apply transition_effect in Ht as [[-> _]|(t1 & now & _ & _ & -> & _ & Hinv')]; [done|]. split; [|by apply Hinv'].
  by rewrite lookup_insert_ne.
Qed.

(** A row that can be moved on, as the query lists it. *)
Definition listed (st : St) (t : Transfer) : Prop := tr_Status t = Funded
  /\ exists row, transfers st !! tr_ID t = Some row /\ tr_ID row = tr_ID t /\ tr_TenantID row = tr_TenantID t /\ tr_Status row = Funded.

Definition movedOn (st : St) (t : Transfer) : Prop :=
  exists row, transfers st !! tr_ID t = Some row /\ tr_Status row = OnRamping.

(** One attempt on a listed row. *)
Lemma attempt_moves (env : RecEnv) envs now th t x : available_store (rc_store x.2) -> store_inv (rc_store x.2) ->
  rc_progress x.2 = ∅ -> listed (rc_store x.2) t -> fresh_ids (re_engine env :: envs) (rc_store x.2) ->
  let w := (attempt (St := St) env now th t x).2 in
  available_store (rc_store w) /\ store_inv (rc_store w) /\ rc_progress w = ∅ /\ fresh_ids envs (rc_store w)
  /\ movedOn (rc_store w) t /\ forall j, j <> tr_ID t -> transfers (rc_store w) !! j = transfers (rc_store x.2) !! j.
Proof.
  destruct x as [y w0]. cbn [snd]. intros Hav Hinv Hp (Hs & row & Hrow & Hid & Htn & Hst) Hfr. set (w := (attempt env now th t (y, w0)).2).
  destruct (pipeline_step (re_engine env) envs (re_deps env) OOnRamp (tr_ID t) (tr_TenantID t) (rc_store w0) row OnRamping)
    as (st' & nw & Hh & Hav' & Hrow' & Hfr'); [done..|by apply onramp_plan|].
  assert (w = {| rc_store := st'; rc_reviews := rc_reviews w0; rc_progress := ({[ tr_ID t ]} ∪ rc_progress w0) ∖ {[ tr_ID t ]} |}) as ->.
  { unfold w, attempt, recoverTransfer, recoverByStatus, recoverFunded. rewrite Hp, bool_decide_false by set_solver.
    rewrite Hs. cbn [handle] in Hh. by rewrite Hh. }
  pose proof (fun j => handle_others (re_engine env) (re_deps env) OOnRamp (tr_TenantID t) (tr_ID t) (rc_store w0) j Hinv) as Ho.
  rewrite Hh in Ho. cbn [rc_store rc_progress snd] in *. split_and!; try done.
  - pose proof (handle_inv (re_engine env) (re_deps env) OOnRamp (tr_TenantID t) (tr_ID t) (rc_store w0)) as Hi. rewrite Hh in Hi.
    destruct Hi as [[Heq _]|(t1 & p & r0 & _ & _ & Ht & _)]; simpl in *; [by subst|].
    by apply transition_effect in Ht as [[-> _]|(? & ? & _ & _ & _ & _ & H')]; [|apply H'].
  - rewrite Hp. set_solver.
  - exists (transitioned nw row OnRamping). done.
  - intros j Hj. by apply Ho.
Qed.

Lemma attempts_move (envs : nat -> RecEnv) now th l : forall w : RWorld (St := St),
  available_store (rc_store w) -> store_inv (rc_store w) -> rc_progress w = ∅ ->
  Forall (listed (rc_store w)) l.*2 -> NoDup (map tr_ID l.*2) ->
  fresh_ids (map (fun x => re_engine (envs x.1)) l) (rc_store w) ->
  Forall (movedOn (rc_store (attempts envs now th l w))) l.*2
  /\ forall j, j ∉ map tr_ID l.*2 -> transfers (rc_store (attempts envs now th l w)) !! j = transfers (rc_store w) !! j.
Proof.
  induction l as [|[k t] l IH]; intros w Hav Hinv Hp Hall Hnd Hfr; [split; [constructor|done]|].
  rewrite fmap_cons in Hall, Hnd |- *. apply Forall_cons in Hall as [Ht Hall]. cbn [map snd] in Hnd |- *.
  apply NoDup_cons in Hnd as [Hid Hnd]. cbn [map fst] in Hfr.
  set (x := ({| ta_recovered := 0; ta_escalated := 0; ta_skipped := 0 |}, w)).
  destruct (attempt_moves (envs k) (map (fun x => re_engine (envs x.1)) l) now th t x) as (Hav' & Hinv' & Hp' & Hfr' & Hm & Ho); [done..|].
  change (attempts envs now th ((k, t) :: l) w) with (attempts envs now th l (attempt (envs k) now th t x).2).
  destruct (IH (attempt (envs k) now th t x).2) as [Hdone Hrest]; [done|done|done| |done|done|].
  { rewrite Forall_forall in Hall |- *. intros t' Ht'. destruct (Hall t' Ht') as (Hs & row & Hrow & H'). split; [done|].
    exists row. rewrite Ho; [done|]. intros Heq. apply Hid. rewrite <- Heq. by apply list_elem_of_fmap_2. }
  split.
  - constructor; [|done]. destruct Hm as (row & Hrow & Hst). exists row. by rewrite Hrest.
  - intros j [Hj1 Hj2]%not_elem_of_cons. by rewrite Hrest, Ho.
Qed.

(** While the database answers, every FUNDED transfer a cycle attempts is
    ON_RAMPING after the FUNDED pass of the cycle: the query's rows, of which
    each tenant has its share, are moved on one by one. *)
Theorem stuck_funded_moves_on (envs : nat -> RecEnv) now th ts x :
  available_store (rc_store x.2) -> store_inv (rc_store x.2) -> rc_progress x.2 = ∅ ->
  Forall (listed (rc_store x.2)) (visits 0 ∅ ts).*2 -> NoDup (map tr_ID (visits 0 ∅ ts).*2) ->
  fresh_ids (map (fun y => re_engine (envs y.1)) (visits 0 ∅ ts)) (rc_store x.2) ->
  Forall (movedOn (rc_store (recoverAll (St := St) envs now th 0 ∅ ts x).2)) (visits 0 ∅ ts).*2.
Proof. intros. rewrite recoverAll_attempts. by apply attempts_move. Qed.
End Refinement.

(** The rows of the query carry no transaction: a SETTLING transfer is never
    recovered, it can only be escalated. *)
Lemma settling_never_recovered {L : ThirdParty} maxResults cutoff (d : Adapter.DB) ts t env w :
  ListStuckTransfers maxResults Settling cutoff d = Ok ts -> t ∈ ts ->
  (recoverTransfer (TS := Adapter.TransferStoreAdapter) env t w).1 = Ok false
  /\ rc_store (recoverTransfer (TS := Adapter.TransferStoreAdapter) env t w).2 = rc_store w.
Proof.
  unfold ListStuckTransfers. destruct (Adapter.db_up d); [|done]. cbn [negb].
  destruct (limitOffset _ _ _) as [rows|] eqn:E; [|done]. intros [= <-] (r & -> & Hr)%list_elem_of_fmap.
  assert (tr_Status r = Settling) as Hs.
  { unfold limitOffset in E. destruct (_ || _); [done|]. injection E as <-.
    assert (r ∈ orderAsc tr_UpdatedAt (filter (fun t => isStuck Settling cutoff t = true) (map snd (map_to_list (Adapter.db_transfers d))))) as Hin.
    { eapply elem_of_submseteq; [exact Hr|]. etrans; [apply sublist_submseteq, sublist_take|].
      apply sublist_submseteq, sublist_drop. }
    unfold orderAsc in Hin. rewrite merge_sort_Permutation in Hin. apply list_elem_of_filter in Hin as [Hi _].
    unfold isStuck in Hi. apply andb_true_iff in Hi as [Hi _]. by apply bool_decide_eq_true in Hi. }
  unfold recoverTransfer. case_bool_decide; [done|]. unfold recoverByStatus. cbn [tr_Status stuckRow]. rewrite Hs. done.
Qed.
End RecoveryProps.
