(* ===== verification/Compensation.v ===== *)
(** * core: compensation of failed transfers

    Models src/core/compensation: strategy.go (which compensation a transfer
    gets), fx_loss.go (what a reversal costs) and executor.go (the execution of
    a plan, recorded in compensation_records), with
    src/store/transferdb/compensation_adapter.go.

    The payloads of the steps are kept as values; the column steps_completed
    and steps_failed hold lists of names.  [metadata] is the field Metadata of
    the tenant, which the record of [Transfer] leaves out. *)

From S2P Require Import Prelude ThirdParty GoNumbers Sql Money Deposits Transfer Outbox LedgerEntries TransferStore Engine.
Local Open Scope string_scope.
Local Open Scope Z_scope.

Module Compensation.

(** ** Strategy *)

Section Strategy.
Context {L : ThirdParty}.

Inductive Strategy : Set := SimpleRefund | ReverseOnRamp | CreditStablecoin | ManualReview.

#[global] Instance Strategy_eq_dec : EqDecision Strategy.
Proof. solve_decision. Defined.

Record ProviderReverseOnRampPayload := {
  rop_TransferID : UUID; rop_TenantID : UUID; rop_ProviderID : string; rop_StableAmount : Decimal;
  rop_StableCoin : Currency; rop_SourceCurrency : Currency; rop_OriginalRate : Decimal }.

(** compensation.PositionCreditPayload, not that of the domain. *)
Record CreditPayload := { crp_TransferID : UUID; crp_TenantID : UUID; crp_Currency : Currency; crp_Amount : Decimal }.

Inductive StepPayload :=
| SIntent (p : Payload)
| SReverseOnRamp (p : ProviderReverseOnRampPayload)
| SCredit (p : CreditPayload).

Record CompensationStep := { st_Type : string; st_Payload : StepPayload }.

Record CompensationPlan := {
  cp_Strategy : Strategy; cp_TransferID : UUID; cp_TenantID : UUID; cp_RefundAmount : Decimal;
  cp_RefundCurrency : Currency; cp_FXLoss : Decimal; cp_Steps : list CompensationStep; cp_TransferStatus : TransferStatus }.

Definition StepOnRampCompleted := "onramp_completed".

Definition autoRefundCurrency (metadata : gmap string string) : string :=
  default "source" (metadata !! "auto_refund_currency").

Record ExternalStatus := {
  ex_OnRampStatus : string; ex_BlockchainConfirmed : option bool; ex_BlockchainError : string; ex_CurrentRate : Decimal }.

Definition EstimateFXLoss (stableAmount originalRate currentRate : Decimal) : Decimal :=
  if IsZero currentRate || IsZero originalRate then dZero
  else dRound 8 (dSub (dDiv stableAmount currentRate) (dDiv stableAmount originalRate)).

Definition containsStep (steps : list string) (step : string) : bool := existsb (fun s => String.eqb s step) steps.

(** The blockchain status of a SETTLING transfer is read, but whatever it is
    the state counts as known. *)
Definition isAmbiguousState (transfer : Transfer) (completedSteps : list string) (ext : ExternalStatus) : bool :=
  match tr_Status transfer with
  | OnRamping => negb (String.eqb (ex_OnRampStatus ext) "completed" || String.eqb (ex_OnRampStatus ext) "failed")
  | Settling =>
      if negb (containsStep completedSteps StepOnRampCompleted) then true
      else if bool_decide (is_Some (ex_BlockchainConfirmed ext)) then false
      else if negb (String.eqb (ex_BlockchainError ext) "") then false
      else false
  | _ => false
  end.

Definition releaseStep (transfer : Transfer) (reason : string) : CompensationStep :=
  {| st_Type := IntentTreasuryRelease; st_Payload := SIntent (releasePayload transfer reason) |}.

(** The lines that undo an on-ramp posting, if the transfer has a stable
    amount, which it has from its quote on. *)
Definition compensationLines (slug d1 d2 d3 : string) (transfer : Transfer) : list LedgerLineEntry :=
  if IsPositive (tr_StableAmount transfer) then swappedLines slug d1 d2 d3 transfer else [].

Definition reverseStep (key desc : string) (lines : list LedgerLineEntry) (transfer : Transfer) : CompensationStep :=
  {| st_Type := IntentLedgerReverse;
     st_Payload := SIntent (ledgerPayload transfer key (desc +:+ uuid_String (tr_ID transfer)) "reversal" lines) |}.

Definition buildSimpleRefundSteps (transfer : Transfer) (slug : string) : list CompensationStep :=
  [releaseStep transfer "compensation_simple_refund";
   reverseStep "compensation-reverse" "Compensation reversal for transfer "
     (compensationLines slug "Compensation: reverse crypto asset" "Compensation: reverse on-ramp fee"
        "Compensation: debit clearing account" transfer) transfer].

Definition buildReverseOnRampSteps (transfer : Transfer) (slug : string) : list CompensationStep :=
  [{| st_Type := IntentProviderReverseOnRamp;
      st_Payload := SReverseOnRamp {| rop_TransferID := tr_ID transfer; rop_TenantID := tr_TenantID transfer;
        rop_ProviderID := tr_OnRampProviderID transfer; rop_StableAmount := tr_StableAmount transfer;
        rop_StableCoin := tr_StableCoin transfer; rop_SourceCurrency := tr_SourceCurrency transfer;
        rop_OriginalRate := tr_FXRate transfer |} |};
   releaseStep transfer "compensation_reverse_onramp";
   reverseStep "compensation-reverse-onramp" "Reverse on-ramp compensation for transfer "
     (compensationLines slug "Reverse on-ramp: credit crypto asset" "Reverse on-ramp: credit on-ramp fee"
        "Reverse on-ramp: debit clearing account" transfer) transfer].

Definition buildCreditStablecoinSteps (transfer : Transfer) : list CompensationStep :=
  [{| st_Type := "position.credit";
      st_Payload := SCredit {| crp_TransferID := tr_ID transfer; crp_TenantID := tr_TenantID transfer;
        crp_Currency := tr_StableCoin transfer; crp_Amount := tr_StableAmount transfer |} |};
   releaseStep transfer "compensation_credit_stablecoin"].

Definition planFor (transfer : Transfer) (s : Strategy) (amount : Decimal) (currency : Currency) (loss : Decimal)
    (steps : list CompensationStep) : CompensationPlan :=
  {| cp_Strategy := s; cp_TransferID := tr_ID transfer; cp_TenantID := tr_TenantID transfer; cp_RefundAmount := amount;
     cp_RefundCurrency := currency; cp_FXLoss := loss; cp_Steps := steps; cp_TransferStatus := tr_Status transfer |}.

Definition DetermineCompensation (transfer : Transfer) (tenant : Tenant) (metadata : gmap string string)
    (completedSteps : list string) (extStatus : ExternalStatus) : CompensationPlan :=
  let simple := planFor transfer SimpleRefund (tr_SourceAmount transfer) (tr_SourceCurrency transfer) dZero
                  (buildSimpleRefundSteps transfer (tn_Slug tenant)) in
  let hasOnRamp := containsStep completedSteps StepOnRampCompleted in
  if isAmbiguousState transfer completedSteps extStatus
  then planFor transfer ManualReview dZero (tr_SourceCurrency transfer) dZero []
  else
    let onRamping := bool_decide (tr_Status transfer = OnRamping) in
    let hasOnRamp := hasOnRamp || (onRamping && String.eqb (ex_OnRampStatus extStatus) "completed") in
    if onRamping && String.eqb (ex_OnRampStatus extStatus) "failed" then simple
    else if negb hasOnRamp then simple
    else if String.eqb (autoRefundCurrency metadata) "stablecoin"
    then planFor transfer CreditStablecoin (tr_StableAmount transfer) (tr_StableCoin transfer) dZero
           (buildCreditStablecoinSteps transfer)
    else planFor transfer ReverseOnRamp (tr_SourceAmount transfer) (tr_SourceCurrency transfer)
           (if IsPositive (ex_CurrentRate extStatus)
            then EstimateFXLoss (tr_StableAmount transfer) (tr_FXRate transfer) (ex_CurrentRate extStatus) else dZero)
           (buildReverseOnRampSteps transfer (tn_Slug tenant)).

(** ** The loss of a reversal *)

Record FXLossResult := {
  fx_OriginalAmount : Decimal; fx_ReversedAmount : Decimal; fx_FXLoss : Decimal; fx_LossPercent : Decimal;
  fx_OriginalRate : Decimal; fx_ReversalRate : Decimal }.

Definition CalculateFXLoss (originalAmount originalRate reversalRate : Decimal) : FXLossResult :=
  let res reversed loss percent :=
    {| fx_OriginalAmount := originalAmount; fx_ReversedAmount := reversed; fx_FXLoss := loss; fx_LossPercent := percent;
       fx_OriginalRate := originalRate; fx_ReversalRate := reversalRate |} in
  if IsZero originalRate || IsZero reversalRate then res originalAmount dZero dZero
  else
    let stableAmount := dMul originalAmount originalRate in
    let reversed := dDiv stableAmount reversalRate in
    let loss := dSub originalAmount reversed in
    let '(loss, reversed) := if IsNegative loss then (dZero, originalAmount) else (loss, reversed) in
    res reversed loss
      (if IsPositive originalAmount then dDiv (dMul loss (NewFromInt 100)) originalAmount else dZero).
End Strategy.

(** ** Records *)

Section Records.
Context {L : ThirdParty}.

Record CompRow := {
  cr_ID : UUID; cr_TransferID : UUID; cr_TenantID : UUID; cr_Strategy : Strategy; cr_StepsCompleted : list string;
  cr_StepsFailed : list string; cr_RefundAmount : Decimal; cr_RefundCurrency : Currency; cr_FxLoss : option Decimal;
  cr_Status : string; cr_CreatedAt : Z; cr_CompletedAt : option Z }.

Abbreviation CompDB := (Sql (list CompRow)).

(** transfer_id is unique; the id is the server's to assign, and the status
    that of the column default. *)
Definition CreateCompensationRecord (plan : CompensationPlan) : CompDB -> result UUID * CompDB :=
  transact (fun c t =>
    match c_ids c 0%nat with
    | None => Err notNull
    | Some id =>
        let? amount := numeric28_8 (cp_RefundAmount plan) in
        if existsb (fun r => bool_decide (cr_TransferID r = cp_TransferID plan)) t then Err duplicateKey
        else Ok (id, (t ++ [{| cr_ID := id; cr_TransferID := cp_TransferID plan; cr_TenantID := cp_TenantID plan;
                               cr_Strategy := cp_Strategy plan; cr_StepsCompleted := []; cr_StepsFailed := [];
                               cr_RefundAmount := amount; cr_RefundCurrency := cp_RefundCurrency plan; cr_FxLoss := None;
                               cr_Status := "pending"; cr_CreatedAt := c_now c; cr_CompletedAt := None |}])%list)
    end).

Definition compensationStatuses := ["pending"; "in_progress"; "completed"; "failed"].

Definition updatedRow (now : Z) (stepsCompleted stepsFailed : list string) (fxLoss : Decimal) (status : string) (r : CompRow) : CompRow :=
  {| cr_ID := cr_ID r; cr_TransferID := cr_TransferID r; cr_TenantID := cr_TenantID r; cr_Strategy := cr_Strategy r;
     cr_StepsCompleted := stepsCompleted; cr_StepsFailed := stepsFailed; cr_RefundAmount := cr_RefundAmount r;
     cr_RefundCurrency := cr_RefundCurrency r; cr_FxLoss := Some fxLoss; cr_Status := status; cr_CreatedAt := cr_CreatedAt r;
     cr_CompletedAt := if String.eqb status "completed" then Some now else cr_CompletedAt r |}.

(** The CHECK of the column refuses a status not in its list. *)
Definition UpdateCompensationRecord (id : UUID) (stepsCompleted stepsFailed : list string) (fxLoss : Decimal) (status : string)
  : CompDB -> result unit * CompDB :=
  transact (fun c t =>
    let? loss := numeric28_8 fxLoss in
    let is_row r := bool_decide (cr_ID r = id) in
    if existsb is_row t && negb (existsb (String.eqb status) compensationStatuses)
    then Err (MsgErr "new row violates check constraint")
    else Ok (tt, map (fun r => if is_row r then updatedRow (c_now c) stepsCompleted stepsFailed loss status r else r) t)).
End Records.

(** ** Execution *)

Section Executor.
Context {L : ThirdParty} {St : Type} `{TS : !TransferStore St}.

(** What the calls of one execution draw: the two calls of the engine are at
    different instants. *)
Record CEnv := { ce_fail : EEnv; ce_refund : EEnv; ce_deps : Deps }.

Record CWorld := { cw_store : St; cw_records : Sql (list CompRow) }.

Definition executeSimpleRefund (env : CEnv) (plan : CompensationPlan) (st : St) : result unit * St :=
  let refund := InitiateRefund (ce_refund env) (ce_deps env) (cp_TenantID plan) (cp_TransferID plan) in
  if negb (bool_decide (cp_TransferStatus plan = Failed)) then
    match FailTransfer (ce_fail env) (cp_TenantID plan) (cp_TransferID plan)
            "provider confirmed failure during compensation" "COMPENSATION_SIMPLE_REFUND" st with
    | (Err e, st) => (Err (WrapErr "settla-compensation: failing transfer before refund" e), st)
    | (Ok _, st) => refund st
    end
  else refund st.

Definition executeReverseOnRamp (env : CEnv) (plan : CompensationPlan) : St -> result unit * St :=
  FailTransfer (ce_fail env) (cp_TenantID plan) (cp_TransferID plan)
    "off-ramp failed, reversing on-ramp" "COMPENSATION_REVERSE_ONRAMP".

Definition executeCreditStablecoin (env : CEnv) (plan : CompensationPlan) : St -> result unit * St :=
  FailTransfer (ce_fail env) (cp_TenantID plan) (cp_TransferID plan)
    "off-ramp failed, crediting stablecoin position" "COMPENSATION_CREDIT_STABLECOIN".

(** The switch of Execute: the engine's answer, and the steps recorded as
    completed or failed. *)
Definition runStrategy (env : CEnv) (plan : CompensationPlan) (st : St) : result unit * (list string * list string) * St :=
  let track completed failed (out : result unit * St) :=
    (out.1, if is_ok out.1 then (completed, []) else ([], [failed]), out.2) in
  match cp_Strategy plan with
  | SimpleRefund => track ["treasury.release"; "ledger.reverse"] "initiate_refund" (executeSimpleRefund env plan st)
  | ReverseOnRamp => track ["provider.reverse_onramp"; "treasury.release"; "ledger.reverse"] "reverse_onramp"
                       (executeReverseOnRamp env plan st)
  | CreditStablecoin => track ["position.credit"; "treasury.release"] "credit_stablecoin" (executeCreditStablecoin env plan st)
  | ManualReview => (Ok tt, ([], []), st)
  end.

Definition finalStatus (s : Strategy) (err : result unit) : string :=
  if bool_decide (s = ManualReview) then "pending_review" else if is_ok err then "completed" else "failed".

Definition Execute (env : CEnv) (plan : CompensationPlan) (w : CWorld) : result unit * CWorld :=
  match CreateCompensationRecord plan (cw_records w) with
  | (Err e, d) => (Err (WrapErr "settla-compensation: creating compensation record" e), {| cw_store := cw_store w; cw_records := d |})
  | (Ok recordID, d) =>
      let '(err, (completed, failed), st) := runStrategy env plan (cw_store w) in
      let '(updateErr, d) := UpdateCompensationRecord recordID completed failed (cp_FXLoss plan) (finalStatus (cp_Strategy plan) err) d in
      (match err, updateErr with
       | Err e, _ => Err (WrapErr "settla-compensation: executing" e)
       | Ok _, Err e => Err (WrapErr "settla-compensation: updating compensation record" e)
       | Ok _, Ok _ => Ok tt
       end, {| cw_store := st; cw_records := d |})
  end.
End Executor.
End Compensation.
