(* ===== verification/CompensationProps.v ===== *)
(** * core: what compensation guarantees

    [plan_matches_progress]: the strategy is a function of what is known about
    the on-ramp.  [fx_loss_bounds]: what a reversal may cost.
    [execute_refines_engine] and [compensated_at_most_once]: an execution moves
    a transfer by engine steps only, and only once.
    [simple_refund_releases_twice], [manual_review_never_recorded],
    [estimate_has_the_wrong_sign] and [reversal_is_never_asked] are what the
    code does instead of what it documents. *)

From Stdlib Require Import QArith Lqa.
From S2P Require Import Prelude ThirdParty GoNumbers Sql Money Deposits Transfer Outbox LedgerEntries TransferStore Engine EngineFacts EngineProps EnginePipeline Recovery RecoveryProps Compensation.
Local Open Scope string_scope.
Local Open Scope Z_scope.

Module CompensationProps.
Import Compensation RecoveryProps.

(** ** The strategy *)

Section Strategy.
Context {L : ThirdParty}.

(** Whether the on-ramp has taken the money, as far as can be told. *)
Definition onRampDone (t : Transfer) (steps : list string) (ext : ExternalStatus) : option bool :=
  let listed := bool_decide (StepOnRampCompleted ∈ steps) in
  match tr_Status t with
  | OnRamping => if decide (ex_OnRampStatus ext = "completed") then Some true
                 else if decide (ex_OnRampStatus ext = "failed") then Some false else None
  | Settling => if listed then Some true else None
  | _ => Some listed
  end.

(** What a tenant is owed then. *)
Definition owed (t : Transfer) (wantsStable : bool) (done : option bool) : Strategy * Decimal * Currency :=
  match done with
  | None => (ManualReview, dZero, tr_SourceCurrency t)
  | Some false => (SimpleRefund, tr_SourceAmount t, tr_SourceCurrency t)
  | Some true => if wantsStable then (CreditStablecoin, tr_StableAmount t, tr_StableCoin t)
                 else (ReverseOnRamp, tr_SourceAmount t, tr_SourceCurrency t)
  end.

Definition isRelease (t : Transfer) (s : CompensationStep) : Prop := exists reason, s = releaseStep t reason.

Lemma containsStep_spec steps s : containsStep steps s = bool_decide (s ∈ steps).
Proof.
  unfold containsStep. apply eq_true_iff_eq. rewrite existsb_exists, bool_decide_eq_true, list_elem_of_In. split.
  - intros (x & Hx & ->%String.eqb_eq). done.
  - intros Hs. exists s. by rewrite String.eqb_refl.
Qed.

Lemma eqb_decide (a b : string) : String.eqb a b = bool_decide (a = b).
Proof. by destruct (String.eqb_spec a b); case_bool_decide. Qed.

(** The compensation of a transfer depends on what is known of its on-ramp
    alone: a review if nothing is, the whole source amount if it did not take
    the money, the stable amount or the source amount, as the tenant prefers,
    if it did; and the steps of every automatic plan release the reservation
    exactly once. *)
Theorem plan_matches_progress t tenant metadata steps ext :
  let p := DetermineCompensation t tenant metadata steps ext in
  (cp_Strategy p, cp_RefundAmount p, cp_RefundCurrency p)
  = owed t (bool_decide (metadata !! "auto_refund_currency" = Some "stablecoin")) (onRampDone t steps ext)
  /\ (cp_TransferID p, cp_TenantID p, cp_TransferStatus p) = (tr_ID t, tr_TenantID t, tr_Status t)
  /\ match cp_Strategy p with
     | ManualReview => cp_Steps p = []
     | _ => exists before after reason, cp_Steps p = (before ++ releaseStep t reason :: after)%list
              /\ Forall (fun s => st_Type s <> IntentTreasuryRelease) (before ++ after)
     end.
Proof.
  intros p.
  assert (String.eqb (autoRefundCurrency metadata) "stablecoin"
          = bool_decide (metadata !! "auto_refund_currency" = Some "stablecoin")) as Hpref.
  { unfold autoRefundCurrency. destruct (metadata !! _) as [v|]; cbn; [|done]. rewrite eqb_decide.
    apply bool_decide_ext. split; [by intros ->|by intros [= ->]]. }
  assert (exists before after reason, buildSimpleRefundSteps t (tn_Slug tenant) = (before ++ releaseStep t reason :: after)%list
            /\ Forall (fun s => st_Type s <> IntentTreasuryRelease) (before ++ after)) as Hs.
  { eexists [], _, _. split; [reflexivity|]. by repeat constructor. }
  assert (exists before after reason, buildReverseOnRampSteps t (tn_Slug tenant) = (before ++ releaseStep t reason :: after)%list
            /\ Forall (fun s => st_Type s <> IntentTreasuryRelease) (before ++ after)) as Hr.
  { eexists [_], _, _. split; [reflexivity|]. by repeat constructor. }
  assert (exists before after reason, buildCreditStablecoinSteps t = (before ++ releaseStep t reason :: after)%list
            /\ Forall (fun s => st_Type s <> IntentTreasuryRelease) (before ++ after)) as Hc.
  { eexists [_], [], _. split; [reflexivity|]. by repeat constructor. }
  unfold p, DetermineCompensation, isAmbiguousState, onRampDone. rewrite Hpref, containsStep_spec, !eqb_decide.
  destruct (tr_Status t) eqn:Hst; repeat case_bool_decide; repeat case_decide; try congruence; by rewrite <- ?Hst.
Qed.
End Strategy.

(** ** Losses *)

Section Losses.
Context {L : ThirdParty} {LL : ThirdPartyLaws L}.
Local Open Scope Q_scope.

Lemma Qdiv_mono_rate a b b' : 0 <= a -> 0 < b -> b <= b' -> a / b' <= a / b.
Proof.
  intros Ha Hb Hle. apply Qle_shift_div_l; [done|]. apply Qle_trans with (a / b' * b'); [|rewrite Qmult_comm, Qmult_div_r; lra].
  rewrite !(Qmult_comm (a / b')). apply Qmult_le_compat_r; [done|]. apply Qle_shift_div_l; lra.
Qed.

Lemma dDiv_mono_rate a b b' : 0 <= dVal a -> 0 < dVal b -> dVal b <= dVal b' -> dVal (dDiv a b') <= dVal (dDiv a b).
Proof. intros Ha Hb Hle. rewrite !dDiv_val by lra. by apply Qround_places_mono, Qdiv_mono_rate. Qed.

Lemma dDiv_nonneg a b : 0 <= dVal a -> 0 < dVal b -> 0 <= dVal (dDiv a b).
Proof. intros. rewrite dDiv_val by lra. apply Qround_places_nonneg. apply Qle_shift_div_l; lra. Qed.

(** Reversing at positive rates costs between nothing and the whole amount:
    what comes back and the loss add up to what was paid, the percentage is
    between 0 and 100, and a higher price of the stablecoin never costs less. *)
Theorem fx_loss_bounds amount rate reversal reversal' :
  0 <= dVal amount -> 0 < dVal rate -> 0 < dVal reversal -> dVal reversal <= dVal reversal' ->
  let r := CalculateFXLoss amount rate reversal in
  dVal (fx_ReversedAmount r) + dVal (fx_FXLoss r) == dVal amount
  /\ 0 <= dVal (fx_FXLoss r) <= dVal amount /\ 0 <= dVal (fx_LossPercent r) <= 100
  /\ dVal (fx_FXLoss r) <= dVal (fx_FXLoss (CalculateFXLoss amount rate reversal')).
Proof.
  intros Ha Hr Hv Hle r.
  assert (0 <= dVal (dMul amount rate)) as Hs by (rewrite dMul_val; apply Qmult_le_0_compat; lra).
  assert (forall v, 0 < dVal v -> fx_FXLoss (CalculateFXLoss amount rate v)
            = if IsNegative (dSub amount (dDiv (dMul amount rate) v)) then dZero else dSub amount (dDiv (dMul amount rate) v)) as Hloss.
  { intros v H. unfold CalculateFXLoss. destruct (IsZeroP rate), (IsZeroP v); try lra. cbn. by destruct (IsNegative _). }
  assert (0 <= dVal (fx_FXLoss r) <= dVal amount) as Hl.
  { unfold r. rewrite Hloss by done. pose proof (dDiv_nonneg _ _ Hs Hv).
    destruct (IsNegativeP (dSub amount (dDiv (dMul amount rate) reversal))) as [H'|H'];
      rewrite ?dZero_val, ?dSub_val in *; lra. }
  split_and!; try tauto; try lra.
  - unfold r, CalculateFXLoss. destruct (IsZeroP rate), (IsZeroP reversal); try lra. cbn.
    destruct (IsNegative _); cbn; rewrite ?dZero_val, ?dSub_val; lra.
  - unfold r, CalculateFXLoss. destruct (IsZeroP rate), (IsZeroP reversal); try lra. cbn.
    destruct (IsNegativeP (dSub amount (dDiv (dMul amount rate) reversal))) as [H'|H']; cbn;
      (destruct (IsPositiveP amount); [|rewrite dZero_val; lra]); apply dDiv_nonneg; try done; rewrite dMul_val, NewFromInt_val;
      change (inject_Z 100) with 100; rewrite ?dZero_val, ?dSub_val in *; nra.
  - assert (fx_LossPercent r = if IsPositive amount then dDiv (dMul (fx_FXLoss r) (NewFromInt 100)) amount else dZero) as ->.
    { unfold r, CalculateFXLoss. destruct (IsZeroP rate), (IsZeroP reversal); try lra. cbn. by destruct (IsNegative _). }
    destruct (IsPositiveP amount); [|rewrite dZero_val; lra]. rewrite dDiv_val by lra.
    apply Qle_trans with (Qround_places 16 100);
      [|by rewrite (Qround_places_exact 16 (100 * 10 ^ 16) 100); [|rewrite inject_Z_mult]].
    apply Qround_places_mono, Qle_shift_div_r; [done|]. rewrite dMul_val, NewFromInt_val. change (inject_Z 100) with 100. lra.
  - unfold r. rewrite !Hloss by lra. pose proof (dDiv_mono_rate _ _ _ Hs Hv Hle).
    destruct (IsNegativeP (dSub amount (dDiv (dMul amount rate) reversal))) as [H'|H'],
      (IsNegativeP (dSub amount (dDiv (dMul amount rate) reversal'))) as [H''|H'']; rewrite ?dZero_val, ?dSub_val in *; lra.
Qed.

(** The estimate of a plan has the opposite sign: documented as positive when
    the tenant receives less than was sent, it is never positive then. *)
Theorem estimate_has_the_wrong_sign stable originalRate currentRate :
  0 <= dVal stable -> 0 < dVal originalRate -> dVal originalRate <= dVal currentRate ->
  dVal stable / dVal currentRate <= dVal stable / dVal originalRate
  /\ dVal (EstimateFXLoss stable originalRate currentRate) <= 0.
Proof.
  intros Hs Ho Hle. split; [by apply Qdiv_mono_rate|].
  unfold EstimateFXLoss. destruct (_ || _); [rewrite dZero_val; lra|]. rewrite dRound_val, <- (Qround_places_0 8).
  apply Qround_places_mono. rewrite dSub_val. pose proof (dDiv_mono_rate _ _ _ Hs Ho Hle). lra.
Qed.
End Losses.

(** ** Execution *)

Section Execution.
Context {L : ThirdParty} {St : Type} `{TS : !TransferStore St} {TSL : TransferStoreLaws St}.
Implicit Types (w : CWorld (St := St)).

(** The transfer has a compensation record. *)
Definition recorded (id : UUID) (rows : list CompRow) : Prop := id ∈ map cr_TransferID rows.

Lemma simpleRefund_rtc env plan (st : St) : rtc sys_step (st, []) ((executeSimpleRefund env plan st).2, []).
Proof.
  unfold executeSimpleRefund. destruct (negb _).
  - pose proof (handle_any_rtc (ce_fail env) (ce_deps env) (OFail "provider confirmed failure during compensation"
      "COMPENSATION_SIMPLE_REFUND") (cp_TenantID plan) (cp_TransferID plan) st) as H. simpl in H.
    destruct (FailTransfer _ _ _ _ _ st) as [[[]|e] st1]; [|exact H]. etrans; [exact H|].
    apply (handle_any_rtc (ce_refund env) (ce_deps env) ORefund).
  - apply (handle_any_rtc (ce_refund env) (ce_deps env) ORefund).
Qed.

Lemma runStrategy_rtc env plan (st : St) : rtc sys_step (st, []) ((runStrategy env plan st).2, []).
Proof.
  unfold runStrategy. destruct (cp_Strategy plan); [apply simpleRefund_rtc| | |done];
    apply (handle_any_rtc (ce_fail env) (ce_deps env) (OFail _ _)).
Qed.

(** Whatever an execution meets, it moves transfers by operations of the
    engine only. *)
Theorem execute_refines_engine env plan w : rtc sys_step (cw_store w, []) (cw_store (Execute env plan w).2, []).
Proof.
  unfold Execute. destruct (CreateCompensationRecord _ _) as [[id|e] d]; [|done].
  pose proof (runStrategy_rtc env plan (cw_store w)) as H.
  destruct (runStrategy env plan (cw_store w)) as [[err [completed failed]] st]. by destruct (UpdateCompensationRecord _ _ _ _ _ d).
Qed.

(** *** Executions that overlap *)

Inductive Job :=
| JRun (plan : CompensationPlan) (id : UUID)
| JUpdate (id : UUID) (completed failed : list string) (loss : Decimal) (status : string).

(** The executions under way, and the transfers whose strategy was run. *)
Record XState := { x_world : CWorld (St := St); x_jobs : list Job; x_log : list UUID }.

Definition setX (st : St) (d : Sql (list CompRow)) (jobs : list Job) (log : list UUID) : XState :=
  {| x_world := {| cw_store := st; cw_records := d |}; x_jobs := jobs; x_log := log |}.

(** The statements of any number of executions, of other users of the engine
    and of crashes, in any order. *)
Inductive xstep : XState -> XState -> Prop :=
| x_create plan st d r d' jobs log : CreateCompensationRecord plan d = (r, d') ->
    xstep (setX st d jobs log) (setX st d' (match r with Ok id => JRun plan id :: jobs | Err _ => jobs end) log)
| x_run env plan id st d jobs1 jobs2 log err completed failed st' :
    runStrategy env plan st = (err, (completed, failed), st') ->
    xstep (setX st d (jobs1 ++ JRun plan id :: jobs2)%list log)
      (setX st' d (jobs1 ++ JUpdate id completed failed (cp_FXLoss plan) (finalStatus (cp_Strategy plan) err) :: jobs2)%list
         (cp_TransferID plan :: log))
| x_update id completed failed loss status st d r d' jobs1 jobs2 log :
    UpdateCompensationRecord id completed failed loss status d = (r, d') ->
    xstep (setX st d (jobs1 ++ JUpdate id completed failed loss status :: jobs2)%list log) (setX st d' (jobs1 ++ jobs2)%list log)
| x_other st st' d jobs log : rtc sys_step (st, []) (st', []) -> xstep (setX st d jobs log) (setX st' d jobs log)
| x_crash st d jobs1 job jobs2 log : xstep (setX st d (jobs1 ++ job :: jobs2)%list log) (setX st d (jobs1 ++ jobs2)%list log).

(** Execute is a run of its own statements. *)
Lemma Execute_is_run env plan w log : exists log',
  rtc xstep {| x_world := w; x_jobs := []; x_log := log |} {| x_world := (Execute env plan w).2; x_jobs := []; x_log := log' |}.
Proof.
  destruct w as [st d]. unfold Execute. cbn [cw_store cw_records].
  destruct (CreateCompensationRecord plan d) as [[id|e] d1] eqn:Ec; pose proof (x_create plan st d _ _ [] log Ec) as H1;
    [|exists log; by apply rtc_once].
  destruct (runStrategy env plan st) as [[err [completed failed]] st'] eqn:Er.
  destruct (UpdateCompensationRecord id completed failed (cp_FXLoss plan) (finalStatus (cp_Strategy plan) err) d1) as [ur d2] eqn:Eu.
  eexists. eapply rtc_l; [exact H1|]. eapply rtc_l; [by apply (x_run env plan id _ _ [] [])|].
  eapply rtc_l; [exact (x_update _ _ _ _ _ _ _ _ _ [] [] _ Eu)|]. apply rtc_refl.
Qed.

Definition runOf (j : Job) : option UUID :=
  match j with JRun plan _ => Some (cp_TransferID plan) | JUpdate _ _ _ _ _ => None end.
Definition running (jobs : list Job) : list UUID := omap runOf jobs.

(** A transfer whose strategy was or will be run is on record, and only one
    execution runs it. *)
Definition x_inv (s : XState) : Prop :=
  NoDup (running (x_jobs s) ++ x_log s)%list
  /\ forall id, id ∈ (running (x_jobs s) ++ x_log s)%list -> recorded id (sq_tables (cw_records (x_world s))).

(** A call that inserts a row, answered or not, was the first for its transfer. *)
Lemma create_inv plan d r d' : CreateCompensationRecord plan d = (r, d') ->
  (sq_tables d' = sq_tables d /\ is_ok r = false)
  \/ exists row, sq_tables d' = (sq_tables d ++ [row])%list /\ cr_TransferID row = cp_TransferID plan
       /\ ~ recorded (cp_TransferID plan) (sq_tables d) /\ forall id, r = Ok id -> cr_ID row = id.
Proof.
  intros E. apply transact_inv in E as [(-> & Hok & _)|(id & Hf & Hr)]; [by left|]. right.
  destruct (c_ids _ _) as [i|]; [|done]. destruct (numeric28_8 _) as [a|]; [|done]. cbn in Hf.
  destruct (existsb _ _) eqn:Ex; [done|]. injection Hf as Hi Hf. eexists. split; [symmetry; exact Hf|]. split_and!; [done| |].
  - intros (row & Hid & Hin)%list_elem_of_fmap. apply not_true_iff_false in Ex. apply Ex, existsb_exists.
    exists row. rewrite <- list_elem_of_In. split; [done|]. by apply bool_decide_eq_true.
  - intros j ->. destruct Hr as [[= ->]|?]; done.
Qed.

Lemma create_cases plan d r d' : CreateCompensationRecord plan d = (r, d') ->
  (forall id, recorded id (sq_tables d) -> recorded id (sq_tables d'))
  /\ (is_ok r = true -> ~ recorded (cp_TransferID plan) (sq_tables d) /\ recorded (cp_TransferID plan) (sq_tables d')).
Proof.
  intros [[-> ->]|(row & -> & Hid & Hno & _)]%create_inv; [done|]. unfold recorded in *. rewrite map_app. cbn. rewrite Hid.
  set_solver.
Qed.

Lemma update_keeps id completed failed loss status d r d' tid : UpdateCompensationRecord id completed failed loss status d = (r, d') ->
  recorded tid (sq_tables d) -> recorded tid (sq_tables d').
Proof.
  intros E Hd. apply transact_inv in E as [(Hd' & _)|([] & Hu & _)]; [by rewrite Hd'|].
  destruct (numeric28_8 _); [|done]. cbn in Hu. destruct (_ && _); [done|]. injection Hu as Hu. unfold recorded in *.
  rewrite <- Hu, map_map. erewrite map_ext; [exact Hd|]. intros row. by destruct (bool_decide _).
Qed.

Lemma x_inv_step s s' : xstep s s' -> x_inv s -> x_inv s'.
Proof.
  intros Hs [Hnd Hrec]. destruct Hs as [plan st d r d' jobs log E|env plan id st d j1 j2 log err c f st' E
    |id c f loss status st d r d' j1 j2 log E|st st' d jobs log E|st d j1 job j2 log]; unfold x_inv in *; cbn in *;
    unfold running in *; rewrite ?omap_app in *; cbn in *.
  - destruct (create_cases _ _ _ _ E) as [Hkeep Hnew]. destruct r as [id|e]; [|by eauto]. destruct (Hnew eq_refl) as [Hno Hyes].
    cbn. split; [constructor; [|done]; eauto|]. set_solver.
  - rewrite <- !app_assoc in *. cbn in *.
    assert (omap runOf j1 ++ cp_TransferID plan :: omap runOf j2 ++ log
            ≡ₚ omap runOf j1 ++ omap runOf j2 ++ cp_TransferID plan :: log)%list as Hp by (apply Permutation_app_head, Permutation_middle).
    split; [by rewrite <- Hp|]. intros id'. rewrite <- Hp. apply Hrec.
  - split; [done|]. intros id' Hid. eapply update_keeps; [exact E|]. by apply Hrec.
  - done.
  - rewrite <- app_assoc in *. destruct job; cbn in *; [|done]. split; [|set_solver].
    rewrite <- Permutation_middle in Hnd. by apply NoDup_cons in Hnd as [_ Hnd].
Qed.

Lemma x_inv_rtc s s' : rtc xstep s s' -> x_inv s -> x_inv s'.
Proof. induction 1; eauto using x_inv_step. Qed.

(** C36: However executions overlap, fail, lose answers and crash, the strategy of
    a transfer is run at most once, and only with a record of it. *)
Theorem compensated_at_most_once w s :
  rtc xstep {| x_world := w; x_jobs := []; x_log := [] |} s ->
  NoDup (x_log s) /\ Forall (fun id => recorded id (sq_tables (cw_records (x_world s)))) (x_log s).
Proof.
  intros Hr. assert (x_inv s) as [Hnd Hrec].
  { eapply x_inv_rtc; [exact Hr|]. split; cbn; [constructor|]. by intros id Hid%not_elem_of_nil. }
  split; [by apply NoDup_app in Hnd as (_ & _ & Hnd)|]. apply Forall_forall. intros id Hid. apply Hrec, elem_of_app. by right.
Qed.

(** *** What is recorded and what is done *)

Lemma fail_plan env dp q reason code t p : plan_of env dp q (OFail reason code) t = Ok (Some p) ->
  pl_status p = Failed /\ map oe_EventType (pl_entries p) = [IntentTreasuryRelease; IntentWebhookDeliver; EventTransferFailed].
Proof.
  simpl. unfold FailTransfer_plan. destruct (negb _); [done|]. rewrite planStep_known by reflexivity. by intros [= <-].
Qed.

Lemma plan_not_none (p : result Plan) : always p <> Ok None.
Proof. by destruct p. Qed.

Lemma Execute_ok env plan w w' : Execute env plan w = (Ok tt, w') -> exists id d completed failed row,
  CreateCompensationRecord plan (cw_records w) = (Ok id, d)
  /\ runStrategy env plan (cw_store w) = (Ok tt, (completed, failed), cw_store w')
  /\ row ∈ sq_tables (cw_records w') /\ cr_TransferID row = cp_TransferID plan /\ cr_StepsCompleted row = completed
  /\ cr_Status row = finalStatus (cp_Strategy plan) (Ok tt).
Proof.
  unfold Execute. destruct (CreateCompensationRecord plan (cw_records w)) as [[id|e] d] eqn:Ec; [|done].
  destruct (runStrategy env plan (cw_store w)) as [[[[]|e] [completed failed]] st];
    destruct (UpdateCompensationRecord _ _ _ _ _ d) as [ur d'] eqn:Eu; [|by intros [=]].
  destruct ur as [[]|e]; [|by intros [=]]. intros [= <-]. exists id, d, completed, failed.
  apply create_inv in Ec as [[_ Hok]|(row & Hf & Htid & _ & Hrid)]; [done|]. specialize (Hrid _ eq_refl).
  apply transact_inv in Eu as [(_ & Hok & _)|([] & Hu & _)]; [done|].
  destruct (numeric28_8 (cp_FXLoss plan)) as [loss|]; [|done]. cbn in Hu. destruct (_ && _); [done|]. injection Hu as Hu.
  eexists. split_and!; [reflexivity|reflexivity| | | |].
  - cbn [cw_records]. rewrite <- Hu, Hf, map_app. cbn. rewrite bool_decide_true by done. apply elem_of_app. right. by left.
  - done.
  - done.
  - done.
Qed.

(** A plan for manual review is never executed to the end: the status
    pending_review is not one the table accepts, so the call fails, whatever
    the database, and no transfer is moved. *)
Theorem manual_review_never_recorded env plan w : cp_Strategy plan = ManualReview ->
  is_ok (Execute env plan w).1 = false /\ cw_store (Execute env plan w).2 = cw_store w.
Proof.
  intros Hs. unfold Execute, runStrategy. rewrite Hs.
  destruct (CreateCompensationRecord plan (cw_records w)) as [[id|e] d] eqn:Ec; [|done].
  destruct (UpdateCompensationRecord _ _ _ _ _ d) as [[[]|e] d'] eqn:Eu; [|done]. exfalso.
  apply create_inv in Ec as [[_ Hok]|(row & Hf & Htid & _ & Hrid)]; [done|]. specialize (Hrid _ eq_refl).
  apply transact_inv in Eu as [(_ & Hok & _)|([] & Hu & _)]; [done|].
  destruct (numeric28_8 (cp_FXLoss plan)) as [loss|]; [|done]. cbn in Hu.
  rewrite Hf, existsb_app in Hu. cbn in Hu. rewrite bool_decide_true, orb_true_r in Hu by done. discriminate Hu.
Qed.

(** The simple refund of a transfer that is not FAILED fails it first, which
    releases the reservation, and then refunds it, which releases it again. *)
Theorem simple_refund_releases_twice env plan w w' t :
  cp_Strategy plan = SimpleRefund -> cp_TransferStatus plan = tr_Status t -> tr_Status t <> Failed ->
  store_inv (cw_store w) -> transfers (cw_store w) !! cp_TransferID plan = Some t -> Execute env plan w = (Ok tt, w') ->
  intents_for (cp_TransferID plan) (cw_store w')
  = (intents_for (cp_TransferID plan) (cw_store w) ++ [intent_of t TRelease; intent_of t TRelease])%list.
Proof.
  intros Hs Hst Hnf Hinv Hrow (id & d & completed & failed & row & _ & Hrun & _)%Execute_ok.
  unfold runStrategy, executeSimpleRefund in Hrun. rewrite Hs, Hst, bool_decide_false in Hrun by done. cbn [negb] in Hrun.
  destruct (FailTransfer _ _ _ _ _ (cw_store w)) as [[[]|e] st1] eqn:E1; [|by destruct w'].
  destruct (InitiateRefund _ _ _ _ st1) as [[[]|e] st2] eqn:E2; [|by destruct w']. cbn in Hrun. injection Hrun as _ _ Hst2.
  destruct (handle_write (ce_fail env) (ce_deps env) (OFail _ _) _ _ _ _ _ Hinv Hrow E1 (plan_not_none _))
    as (p & now & Hp & Hinv1 & Hrow1 & Hi1).
  destruct (handle_write (ce_refund env) (ce_deps env) ORefund _ _ _ _ _ Hinv1 Hrow1 E2 (plan_not_none _)) as (p' & now' & Hp' & _ & _ & Hi2).
  rewrite <- Hst2, Hi2, Hi1, (refund_plan _ _ _ _ _ Hp'), (proj1 (fail_plan _ _ _ _ _ _ _ Hp)).
  by rewrite <- app_assoc.
Qed.

(** A reversal of the on-ramp that reports success is recorded as completed
    with the step provider.reverse_onramp, but no worker is asked for it: the
    outbox gets the messages of a failed transfer and nothing else. *)
Theorem reversal_is_never_asked env plan w w' :
  cp_Strategy plan = ReverseOnRamp -> Execute env plan w = (Ok tt, w') ->
  (exists rows, outbox (cw_store w') = (outbox (cw_store w) ++ rows)%list
     /\ map oe_EventType rows = [IntentTreasuryRelease; IntentWebhookDeliver; EventTransferFailed])
  /\ exists row, row ∈ sq_tables (cw_records w') /\ cr_TransferID row = cp_TransferID plan /\ cr_Status row = "completed"
       /\ IntentProviderReverseOnRamp ∈ cr_StepsCompleted row.
Proof.
  intros Hs (id & d & completed & failed & row & _ & Hrun & Hin & Hid & Hc & Hstat)%Execute_ok.
  rewrite Hs in Hstat. unfold runStrategy in Hrun. rewrite Hs in Hrun.
  pose proof (handle_inv (ce_fail env) (ce_deps env) (OFail "off-ramp failed, reversing on-ramp" "COMPENSATION_REVERSE_ONRAMP")
    (cp_TenantID plan) (cp_TransferID plan) (cw_store w)) as H. cbn [handle] in H.
  unfold executeReverseOnRamp in Hrun. destruct (FailTransfer _ _ _ _ _ (cw_store w)) as [[[]|e] st1]; cbn in Hrun; [|by destruct w'].
  injection Hrun as Hcomp _ Hst. split.
  - destruct H as [[_ H]|(t & p & r0 & Hg & Hp & Ht & Hr)]; simpl in *.
    { destruct H as (t & _ & Hp); [done|]. by apply plan_not_none in Hp. }
    apply is_ok_unit in Hr as ->. destruct (transition_ok _ _ _ _ _ _ Ht) as (t1 & now & _ & _ & _ & Hob & _). rewrite <- Hst, Hob. eexists. split; [reflexivity|].
    rewrite map_map, <- (proj2 (fail_plan (ce_fail env) (ce_deps env) None _ _ t p Hp)). by apply map_ext.
  - exists row. split_and!; [done|done|done|]. rewrite Hc, <- Hcomp. by left.
Qed.
End Execution.
End CompensationProps.
