(* ===== verification/Router.v ===== *)
(** * rail: the router

    Models src/rail/router/router.go and the registry it reads,
    src/rail/provider/registry.go: every on-ramp, chain and off-ramp that can
    serve a request is quoted, scored, and the best combination becomes the
    route, with up to two fallbacks; [GetQuote] adds the fees of the tenant.

    Providers and chains are services: what they answer during one routing is
    part of the registry here.  The orders that Go leaves open are arguments
    ([Orders]): the iteration of its maps, the arrival of concurrent quotes
    and the unstable sort. *)

From stdpp Require Import sorting.
From S2P Require Import Prelude ThirdParty GoNumbers Money Deposits Transfer.
Local Open Scope string_scope.
Local Open Scope Z_scope.

Module Router.
Section Router.
Context {L : ThirdParty}.

(** ** Providers *)

Record CurrencyPair := { cp_From : Currency; cp_To : Currency }.

Record ProviderQuote := { pq_Rate : Decimal; pq_Fee : Decimal; pq_EstimatedSeconds : Z }.

(** A ramp in one direction or the other. *)
Record Provider := {
  pv_ID : string;
  pv_SupportedPairs : list CurrencyPair;
  pv_GetQuote : QuoteRequest -> result ProviderQuote }.

Record TxRequest := { txr_Token : string; txr_Amount : Decimal }.

Record Registry := {
  rg_onRamps : gmap string Provider;
  rg_offRamps : gmap string Provider;
  rg_blockchains : gmap CryptoChain (TxRequest -> result Decimal) }.

Definition NewRegistry : Registry := {| rg_onRamps := ∅; rg_offRamps := ∅; rg_blockchains := ∅ |}.

Definition RegisterOnRamp (p : Provider) (r : Registry) : Registry :=
  {| rg_onRamps := <[pv_ID p := p]> (rg_onRamps r); rg_offRamps := rg_offRamps r; rg_blockchains := rg_blockchains r |}.
Definition RegisterOffRamp (p : Provider) (r : Registry) : Registry :=
  {| rg_onRamps := rg_onRamps r; rg_offRamps := <[pv_ID p := p]> (rg_offRamps r); rg_blockchains := rg_blockchains r |}.
Definition RegisterBlockchainClient (chain : CryptoChain) (gas : TxRequest -> result Decimal) (r : Registry) : Registry :=
  {| rg_onRamps := rg_onRamps r; rg_offRamps := rg_offRamps r; rg_blockchains := <[chain := gas]> (rg_blockchains r) |}.

Definition GetOnRamp (id : string) (r : Registry) : result Provider :=
  match rg_onRamps r !! id with Some p => Ok p | None => Err (MsgErr "on-ramp provider not found") end.
Definition GetOffRamp (id : string) (r : Registry) : result Provider :=
  match rg_offRamps r !! id with Some p => Ok p | None => Err (MsgErr "off-ramp provider not found") end.
Definition GetBlockchain (chain : CryptoChain) (r : Registry) : result (TxRequest -> result Decimal) :=
  match rg_blockchains r !! chain with Some c => Ok c | None => Err (MsgErr "blockchain client not found") end.

(** The set [seen] of [StablecoinsFromProviders]. *)
Definition StablecoinsFromProviders (r : Registry) : gset Currency :=
  let coins (f : CurrencyPair -> Currency) (m : gmap string Provider) :=
    filter (fun c => IsStablecoin c = true) (map_to_list m ≫= fun x => map f (pv_SupportedPairs x.2)) in
  list_to_set (coins cp_To (rg_onRamps r) ++ coins cp_From (rg_offRamps r)).

(** ** Routes *)

Record Route := {
  ro_OnRamp : Provider; ro_OffRamp : Provider; ro_Chain : CryptoChain; ro_Stable : Currency; ro_Score : Decimal;
  ro_ScoreBreakdown : ScoreBreakdown; ro_OnQuote : ProviderQuote; ro_OffQuote : ProviderQuote; ro_GasFee : Decimal }.

(** The comparison [Route] hands to sort.Slice: the higher score comes first. *)
Definition scoreGreater (a b : Route) : bool := GreaterThan (ro_Score a) (ro_Score b).

Record onRampQuote := { oq_onRamp : Provider; oq_stable : Currency; oq_quote : ProviderQuote }.

Record quotedPair := {
  qp_onRamp : Provider; qp_offRamp : Provider; qp_stable : Currency; qp_onQuote : ProviderQuote; qp_offQuote : ProviderQuote }.

Record RouteRequest := { rr_SourceCurrency : Currency; rr_TargetCurrency : Currency; rr_Amount : Decimal }.

(** The iteration orders and the other choices of the runtime. *)
Record Orders := {
  od_onRamps : list string; od_offRamps : list string; od_chains : list CryptoChain; od_stables : list Currency;
  od_onQuotes : list onRampQuote -> list onRampQuote; od_pairs : list quotedPair -> list quotedPair;
  od_sort : list Route -> list Route }.

Record RateLimitConfig := { rl_PerSec : Z; rl_Burst : Z }.

Record RouterConfig := {
  rt_registry : Registry;
  rt_liquidityScorer : option (string -> Currency -> Decimal -> Decimal);
  rt_reliabilityScorer : option (string -> Decimal);
  rt_explorerUrl : option (CryptoChain -> string);
  rt_providerRateLimits : gmap string RateLimitConfig }.

(** The rate and burst of a new limiter. *)
Definition limiterConfig (limits : gmap string RateLimitConfig) (providerID : string) : Z * Z :=
  match limits !! providerID with
  | Some cfg => (if 0 <? rl_PerSec cfg then rl_PerSec cfg else 100, if 0 <? rl_Burst cfg then rl_Burst cfg else 200)
  | None => (100, 200)
  end.

(** ** Scores *)

Definition tenths (n : Z) : Decimal := dDiv (NewFromInt n) (NewFromInt 10).
Definition weightCost := tenths 4.
Definition weightSpeed := tenths 3.
Definition weightLiquidity := tenths 2.
Definition weightReliability := tenths 1.

Definition dOne : Decimal := NewFromInt 1.

Definition floorZero (d : Decimal) : Decimal := if IsNegative d then dZero else d.

Definition clampUnit (d : Decimal) : Decimal :=
  if IsNegative d then dZero else if GreaterThan d dOne then dOne else d.

Definition scoreRoute (rt : RouterConfig) (route : Route) (amount : Decimal) : Decimal * ScoreBreakdown :=
  let totalFee := dAdd (dAdd (pq_Fee (ro_OnQuote route)) (ro_GasFee route)) (pq_Fee (ro_OffQuote route)) in
  let costScore := if IsPositive amount then floorZero (dSub dOne (dDiv totalFee amount)) else dOne in
  let totalSeconds := add64 (pq_EstimatedSeconds (ro_OnQuote route)) (pq_EstimatedSeconds (ro_OffQuote route)) in
  let speedScore := floorZero (dSub dOne (dDiv (NewFromInt totalSeconds) (NewFromInt 3600))) in
  let liquidityScore :=
    match rt_liquidityScorer rt with
    | None => dOne
    | Some s => clampUnit (s (pv_ID (ro_OnRamp route)) (ro_Stable route) amount)
    end in
  let reliabilityScore :=
    match rt_reliabilityScorer rt with
    | None => dOne
    | Some s => clampUnit (s (pv_ID (ro_OnRamp route)))
    end in
  (dAdd (dAdd (dAdd (dMul costScore weightCost) (dMul speedScore weightSpeed)) (dMul liquidityScore weightLiquidity))
     (dMul reliabilityScore weightReliability),
   {| sb_Cost := costScore; sb_Speed := speedScore; sb_Liquidity := liquidityScore; sb_Reliability := reliabilityScore |}).

(** ** Candidates *)

Definition addTo (k : Currency) (p : Provider) (m : gmap Currency (list Provider)) : gmap Currency (list Provider) :=
  <[k := (default [] (m !! k) ++ [p])%list]> m.

(** One provider's pairs that start from the source, by the coin they end in;
    a provider without budget is skipped. *)
Definition addOnRamp (allow : string -> bool) (rt : RouterConfig) (source : Currency) (m : gmap Currency (list Provider)) (id : string)
  : gmap Currency (list Provider) :=
  match GetOnRamp id (rt_registry rt) with
  | Err _ => m
  | Ok p => if negb (allow id) then m
            else foldl (fun m pair => if String.eqb (cp_From pair) source then addTo (cp_To pair) p m else m) m (pv_SupportedPairs p)
  end.

Definition addOffRamp (allow : string -> bool) (rt : RouterConfig) (target : Currency) (m : gmap Currency (list Provider)) (id : string)
  : gmap Currency (list Provider) :=
  match GetOffRamp id (rt_registry rt) with
  | Err _ => m
  | Ok p => if negb (allow id) then m
            else foldl (fun m pair => if String.eqb (cp_To pair) target then addTo (cp_From pair) p m else m) m (pv_SupportedPairs p)
  end.

Definition gasOf (rt : RouterConfig) (req : RouteRequest) (chain : CryptoChain) (stable : Currency) : option Decimal :=
  match GetBlockchain chain (rt_registry rt) with
  | Err _ => None
  | Ok gas => match gas {| txr_Token := stable; txr_Amount := rr_Amount req |} with Ok fee => Some fee | Err _ => None end
  end.

Definition gasCache (rt : RouterConfig) (req : RouteRequest) (chains : list CryptoChain) (stables : list Currency)
  : gmap (CryptoChain * Currency) Decimal :=
  foldl (fun m chain => foldl (fun m stable => match gasOf rt req chain stable with
                                               | Some fee => <[(chain, stable) := fee]> m
                                               | None => m
                                               end) m stables) ∅ chains.

(** The quotes as the goroutines are started; [od_onQuotes] is their arrival. *)
Definition fetchOnRampQuotes (req : RouteRequest) (stables : list Currency) (byStable : gmap Currency (list Provider)) : list onRampQuote :=
  stables ≫= fun stable =>
    omap (fun p => match pv_GetQuote p {| qr_SourceCurrency := rr_SourceCurrency req; qr_SourceAmount := rr_Amount req; qr_DestCurrency := stable; qr_DestCountry := "" |} with
                   | Ok quote => Some {| oq_onRamp := p; oq_stable := stable; oq_quote := quote |}
                   | Err _ => None
                   end) (default [] (byStable !! stable)).

Definition stableBeforeOff (req : RouteRequest) (q : ProviderQuote) : Decimal := dSub (dMul (rr_Amount req) (pq_Rate q)) (pq_Fee q).

Definition fetchOffRampQuotes (req : RouteRequest) (onQuotes : list onRampQuote) (byStable : gmap Currency (list Provider)) : list quotedPair :=
  onQuotes ≫= fun oq =>
    omap (fun p => match pv_GetQuote p {| qr_SourceCurrency := oq_stable oq; qr_SourceAmount := stableBeforeOff req (oq_quote oq); qr_DestCurrency := rr_TargetCurrency req; qr_DestCountry := "" |} with
                   | Ok quote => Some {| qp_onRamp := oq_onRamp oq; qp_offRamp := p; qp_stable := oq_stable oq; qp_onQuote := oq_quote oq; qp_offQuote := quote |}
                   | Err _ => None
                   end) (default [] (byStable !! oq_stable oq)).

Definition candidate (rt : RouterConfig) (req : RouteRequest) (p : quotedPair) (chain : CryptoChain) (gasFee : Decimal) : Route :=
  let route score := {| ro_OnRamp := qp_onRamp p; ro_OffRamp := qp_offRamp p; ro_Chain := chain; ro_Stable := qp_stable p;
    ro_Score := fst score; ro_ScoreBreakdown := snd score; ro_OnQuote := qp_onQuote p; ro_OffQuote := qp_offQuote p; ro_GasFee := gasFee |} in
  route (scoreRoute rt (route (dZero, {| sb_Cost := dZero; sb_Speed := dZero; sb_Liquidity := dZero; sb_Reliability := dZero |})) (rr_Amount req)).

(** What the limiters answer: once for every listed id, on-ramps first. *)
Record Limits := { lm_on : string -> bool; lm_off : string -> bool }.

Definition buildCandidates (od : Orders) (lm : Limits) (rt : RouterConfig) (req : RouteRequest) : result (list Route) :=
  if bool_decide (od_stables od = []) then Err (MsgErr "no stablecoins available from registered providers")
  else
    let onRampsByStable := foldl (addOnRamp (lm_on lm) rt (rr_SourceCurrency req)) ∅ (od_onRamps od) in
    let offRampsByStable := foldl (addOffRamp (lm_off lm) rt (rr_TargetCurrency req)) ∅ (od_offRamps od) in
    let gas := gasCache rt req (od_chains od) (od_stables od) in
    let onQuotes := od_onQuotes od (fetchOnRampQuotes req (od_stables od) onRampsByStable) in
    let pairs := od_pairs od (fetchOffRampQuotes req onQuotes offRampsByStable) in
    Ok (pairs ≫= fun p => omap (fun chain => candidate rt req p chain <$> gas !! (chain, qp_stable p)) (od_chains od)).

(** ** The route *)

Record RouteResult := {
  rs_ProviderID : string; rs_OffRampProvider : string; rs_BlockchainChain : CryptoChain; rs_Corridor : string; rs_Fee : Money;
  rs_Rate : Decimal; rs_StableAmount : Decimal; rs_ExplorerURL : string; rs_EstimatedSeconds : Z; rs_Score : Decimal;
  rs_ScoreBreakdown : ScoreBreakdown; rs_Alternatives : list RouteAlternative }.

Definition corridorString (source stable dest : Currency) : string := source +:+ "→" +:+ stable +:+ "→" +:+ dest.

Definition totalFeeOf (r : Route) : Decimal := dAdd (dAdd (pq_Fee (ro_OnQuote r)) (ro_GasFee r)) (pq_Fee (ro_OffQuote r)).

Definition stableAmountOf (req : RouteRequest) (r : Route) : Decimal := dRound 8 (stableBeforeOff req (ro_OnQuote r)).

Definition alternativeOf (req : RouteRequest) (alt : Route) : RouteAlternative :=
  {| alt_OnRampProvider := pv_ID (ro_OnRamp alt); alt_OffRampProvider := pv_ID (ro_OffRamp alt); alt_Chain := ro_Chain alt;
     alt_StableCoin := ro_Stable alt; alt_Fee := {| m_Amount := totalFeeOf alt; m_Currency := CurrencyUSD |};
     alt_Rate := dMul (pq_Rate (ro_OnQuote alt)) (pq_Rate (ro_OffQuote alt)); alt_StableAmount := stableAmountOf req alt;
     alt_Score := ro_Score alt; alt_ScoreBreakdown := ro_ScoreBreakdown alt |}.

(** The loop that collects at most [n] more fallbacks. *)
Fixpoint collect (n : nat) (req : RouteRequest) (rest : list Route) : list RouteAlternative :=
  match n, rest with
  | O, _ | _, [] => []
  | Datatypes.S n', alt :: rest =>
      if IsPositive (stableAmountOf req alt) then alternativeOf req alt :: collect n' req rest else collect n req rest
  end.

Definition select (rt : RouterConfig) (req : RouteRequest) (sorted : list Route) : result RouteResult :=
  match sorted with
  | [] => Err (MsgErr "no routes available")
  | best :: rest =>
      let stableAmount := stableAmountOf req best in
      if negb (IsPositive stableAmount) then Err (MsgErr "amount too small")
      else Ok {| rs_ProviderID := pv_ID (ro_OnRamp best); rs_OffRampProvider := pv_ID (ro_OffRamp best); rs_BlockchainChain := ro_Chain best;
                 rs_Corridor := corridorString (rr_SourceCurrency req) (ro_Stable best) (rr_TargetCurrency req);
                 rs_Fee := {| m_Amount := totalFeeOf best; m_Currency := CurrencyUSD |};
                 rs_Rate := dMul (pq_Rate (ro_OnQuote best)) (pq_Rate (ro_OffQuote best)); rs_StableAmount := stableAmount;
                 rs_ExplorerURL := match rt_explorerUrl rt with Some f => f (ro_Chain best) | None => "" end;
                 rs_EstimatedSeconds := add64 (pq_EstimatedSeconds (ro_OnQuote best)) (pq_EstimatedSeconds (ro_OffQuote best));
                 rs_Score := ro_Score best; rs_ScoreBreakdown := ro_ScoreBreakdown best; rs_Alternatives := collect 2 req rest |}
  end.

(** The method [Route]. *)
Definition RouteFor (od : Orders) (lm : Limits) (rt : RouterConfig) (req : RouteRequest) : result RouteResult :=
  match buildCandidates od lm rt req with
  | Err e => Err (WrapErr "building route candidates" e)
  | Ok candidates => select rt req (od_sort od candidates)
  end.

(** ** Quotes *)

Definition seconds : Z := 1000000000.

(** [time.Duration(estimatedSeconds*2) * time.Second], at the width of an int64. *)
Definition quoteExpiry (estimatedSeconds : Z) : Z :=
  if estimatedSeconds <=? 0 then 300 * seconds
  else
    let d := wrap64 (wrap64 (estimatedSeconds * 2) * seconds) in
    if d <? 120 * seconds then 120 * seconds else if 1800 * seconds <? d then 1800 * seconds else d.

(** The coin named in the corridor, USDT where none is. *)
Definition stableOf (corridor : string) : Currency :=
  if negb (String.eqb corridor "") && negb (containsStr corridor "USDT") && containsStr corridor "USDC" then "USDC" else "USDT".

(** What the call draws: the id and the two readings of the clock. *)
Record QEnv := { qe_id : UUID; qe_now1 : Z; qe_now2 : Z }.

Definition GetQuote (env : QEnv) (od : Orders) (lm : Limits) (rt : RouterConfig) (GetTenant : UUID -> result Tenant) (tenantID : UUID)
    (req : QuoteRequest) : result Quote :=
  let? tenant := wrap "loading tenant for quote" (GetTenant tenantID) in
  let? result := wrap "routing for quote" (RouteFor od lm rt
    {| rr_SourceCurrency := qr_SourceCurrency req; rr_TargetCurrency := qr_DestCurrency req; rr_Amount := qr_SourceAmount req |}) in
  let? onRampFee := wrap "fee calculation for quote" (CalculateFee (tn_FeeSchedule tenant) (qr_SourceAmount req) "onramp") in
  let? offRampFee := wrap "fee calculation for quote" (CalculateFee (tn_FeeSchedule tenant) (rs_StableAmount result) "offramp") in
  let networkFee := m_Amount (rs_Fee result) in
  let totalFee := dAdd (dAdd onRampFee offRampFee) networkFee in
  let destAmount := dMul (dSub (rs_StableAmount result) offRampFee) (rs_Rate result) in
  let destAmount := if negb (IsPositive destAmount) then dMul (dSub (qr_SourceAmount req) totalFee) (rs_Rate result) else destAmount in
  if negb (IsPositive destAmount) then Err (MsgErr "amount too small")
  else Ok {| q_ID := qe_id env; q_TenantID := tenantID; q_SourceCurrency := qr_SourceCurrency req; q_SourceAmount := qr_SourceAmount req;
             q_DestCurrency := qr_DestCurrency req; q_DestAmount := destAmount; q_StableAmount := rs_StableAmount result;
             q_FXRate := rs_Rate result;
             q_Fees := {| OnRampFee := onRampFee; NetworkFee := networkFee; OffRampFee := offRampFee; TotalFeeUSD := totalFee |};
             q_Route := {| ri_Chain := rs_BlockchainChain result; ri_StableCoin := stableOf (rs_Corridor result); ri_EstimatedTimeMin := 0;
                           ri_OnRampProvider := rs_ProviderID result; ri_OffRampProvider := rs_OffRampProvider result;
                           ri_ExplorerURL := rs_ExplorerURL result; ri_AlternativeRoutes := rs_Alternatives result |};
             q_ExpiresAt := qe_now1 env + quoteExpiry (rs_EstimatedSeconds result); q_CreatedAt := qe_now2 env |}.

Definition GetRoutingOptions (od : Orders) (lm : Limits) (rt : RouterConfig) (req : QuoteRequest) : result RouteResult :=
  wrap "routing options" (RouteFor od lm rt
    {| rr_SourceCurrency := qr_SourceCurrency req; rr_TargetCurrency := qr_DestCurrency req; rr_Amount := qr_SourceAmount req |}).
End Router.
End Router.
