(* ===== verification/RouterProps.v ===== *)
(** * rail: what the router guarantees

    [candidate_iff]: the routes considered are exactly the combinations of
    registered providers and chains that serve the request.
    [route_is_best]: the route returned has the best score, the fallbacks
    follow in order.  [score_bounds], [quoteExpiry_bounds]: ranges.
    [quote_amounts]: what a quote promises. *)

From Stdlib Require Import QArith Lqa.
From stdpp Require Import sorting.
From S2P Require Import Prelude ThirdParty GoNumbers Money Deposits Transfer Router.
Local Open Scope string_scope.
Local Open Scope Z_scope.

Module RouterProps.
Import Router.

(** Membership in literal lists. *)
Ltac elems := repeat setoid_rewrite elem_of_cons; repeat setoid_rewrite elem_of_nil; naive_solver.

Section Candidates.
Context {L : ThirdParty}.

(** What Go promises of the orders it leaves open. *)
Record orders_ok (od : Orders) (r : Registry) : Prop := {
  oo_on : od_onRamps od ≡ₚ (map_to_list (rg_onRamps r)).*1;
  oo_off : od_offRamps od ≡ₚ (map_to_list (rg_offRamps r)).*1;
  oo_chains : od_chains od ≡ₚ (map_to_list (rg_blockchains r)).*1;
  oo_stables : od_stables od ≡ₚ elements (StablecoinsFromProviders r);
  oo_onQuotes l : od_onQuotes od l ≡ₚ l;
  oo_pairs l : od_pairs od l ≡ₚ l;
  oo_perm l : od_sort od l ≡ₚ l;
  oo_sorted l : StronglySorted (fun a b => scoreGreater b a = false) (od_sort od l);
}.

(** Providers filed under a coin. *)
Definition filed (m : gmap Currency (list Provider)) (k : Currency) (p : Provider) : Prop := p ∈ default [] (m !! k).

Lemma filed_addTo k p m k' q : filed (addTo k p m) k' q <-> filed m k' q \/ (k' = k /\ q = p).
Proof.
  unfold filed, addTo. destruct (decide (k = k')) as [->|Hne].
  - rewrite lookup_insert_eq. simpl. rewrite elem_of_app, list_elem_of_singleton. naive_solver.
  - rewrite lookup_insert_ne by done. naive_solver.
Qed.

(** Peeling the head off a search through a list. *)
Lemma or_exists_cons {A} (P : A -> Prop) (Q : Prop) x l :
  (Q \/ exists y, y ∈ x :: l /\ P y) <-> ((Q \/ P x) \/ exists y, y ∈ l /\ P y).
Proof.
  setoid_rewrite elem_of_cons. split.
  - intros [?|(y & [->|?] & ?)]; [by left; left|by left; right|right; by exists y].
  - intros [[?|?]|(y & ? & ?)]; [by left|right; exists x; auto|right; exists y; auto].
Qed.

Lemma or_exists_nil {A} (P : A -> Prop) (Q : Prop) : (Q \/ exists y, y ∈ [] /\ P y) <-> Q.
Proof. split; [|by left]. intros [?|(y & Hy & _)]; [done|]. by apply elem_of_nil in Hy. Qed.

Lemma filed_pairs sel key p pairs : forall m k q,
  filed (foldl (fun m pair => if (sel pair : bool) then addTo (key pair) p m else m) m pairs) k q
  <-> filed m k q \/ exists pair : CurrencyPair, pair ∈ pairs /\ (sel pair = true /\ key pair = k /\ q = p).
Proof.
  induction pairs as [|x pairs IH]; intros m k q; cbn [foldl]; [by rewrite or_exists_nil|].
  rewrite IH, or_exists_cons. destruct (sel x) eqn:E; [rewrite filed_addTo|]; split;
    (intros [H|H]; [left|by right]); naive_solver.
Qed.

(** A provider that serves a pair, as one of a registry's map. *)
Definition serves (m : gmap string Provider) (allow : string -> bool) (from to : Currency) (p : Provider) (id : string) : Prop :=
  m !! id = Some p /\ allow id = true /\ {| cp_From := from; cp_To := to |} ∈ pv_SupportedPairs p.

Lemma pair_eq (pair : CurrencyPair) a b : cp_From pair = a -> cp_To pair = b -> pair = {| cp_From := a; cp_To := b |}.
Proof. destruct pair. simpl. by intros -> ->. Qed.

Lemma filed_onRamp allow rt source m id k q : filed (addOnRamp allow rt source m id) k q
  <-> filed m k q \/ serves (rg_onRamps (rt_registry rt)) allow source k q id.
Proof.
  unfold addOnRamp, GetOnRamp, serves. destruct (rg_onRamps (rt_registry rt) !! id) as [p|] eqn:Ep; [|naive_solver].
  destruct (allow id) eqn:Ea; [|naive_solver]. cbn [negb].
  rewrite (filed_pairs (fun pair => String.eqb (cp_From pair) source) cp_To). split; (intros [H|H]; [by left|right]).
  - destruct H as (pair & Hp & Hs%String.eqb_eq & Hk & ->). by rewrite <- (pair_eq pair source k).
  - destruct H as ([= ->] & _ & Hp). eexists. split; [exact Hp|]. simpl. by rewrite String.eqb_refl.
Qed.

Lemma filed_offRamp allow rt target m id k q : filed (addOffRamp allow rt target m id) k q
  <-> filed m k q \/ serves (rg_offRamps (rt_registry rt)) allow k target q id.
Proof.
  unfold addOffRamp, GetOffRamp, serves. destruct (rg_offRamps (rt_registry rt) !! id) as [p|] eqn:Ep; [|naive_solver].
  destruct (allow id) eqn:Ea; [|naive_solver]. cbn [negb].
  rewrite (filed_pairs (fun pair => String.eqb (cp_To pair) target) cp_From). split; (intros [H|H]; [by left|right]).
  - destruct H as (pair & Hp & Hs%String.eqb_eq & Hk & ->). by rewrite <- (pair_eq pair k target).
  - destruct H as ([= ->] & _ & Hp). eexists. split; [exact Hp|]. simpl. by rewrite String.eqb_refl.
Qed.

Lemma filed_on allow rt source ids : forall m k q, filed (foldl (addOnRamp allow rt source) m ids) k q
  <-> filed m k q \/ exists id, id ∈ ids /\ serves (rg_onRamps (rt_registry rt)) allow source k q id.
Proof.
  induction ids as [|id ids IH]; intros m k q; cbn [foldl]; [by rewrite or_exists_nil|].
  by rewrite IH, filed_onRamp, or_exists_cons.
Qed.

Lemma filed_off allow rt target ids : forall m k q, filed (foldl (addOffRamp allow rt target) m ids) k q
  <-> filed m k q \/ exists id, id ∈ ids /\ serves (rg_offRamps (rt_registry rt)) allow k target q id.
Proof.
  induction ids as [|id ids IH]; intros m k q; cbn [foldl]; [by rewrite or_exists_nil|].
  by rewrite IH, filed_offRamp, or_exists_cons.
Qed.

(** The cache holds the estimates that were answered. *)
Lemma gasCache_lookup rt req chains stables chain stable :
  gasCache rt req chains stables !! (chain, stable)
  = (if bool_decide (chain ∈ chains /\ stable ∈ stables) then gasOf rt req chain stable else None).
Proof.
  assert (forall stables (m : gmap (CryptoChain * Currency) Decimal) c,
    foldl (fun m stable => match gasOf rt req c stable with Some fee => <[(c, stable) := fee]> m | None => m end) m stables !! (chain, stable)
    = match (if bool_decide (chain = c /\ stable ∈ stables) then gasOf rt req chain stable else None) with Some fee => Some fee | None => m !! (chain, stable) end) as Hin.
  { clear. intros stables. induction stables as [|x l IH]; intros m c; cbn [foldl].
    - rewrite bool_decide_false by elems. done.
    - rewrite IH. destruct (decide (chain = c /\ stable = x)) as [[-> ->]|Hne].
      + rewrite (bool_decide_true (c = c /\ x ∈ x :: l)) by elems.
        destruct (gasOf rt req c x) as [fee|] eqn:E; [rewrite lookup_insert_eq|]; by case_bool_decide.
      + assert (bool_decide (chain = c /\ stable ∈ x :: l) = bool_decide (chain = c /\ stable ∈ l)) as ->
          by (apply bool_decide_ext; elems).
        destruct (gasOf rt req c x); [|done]. rewrite lookup_insert_ne by (intros [=]; naive_solver). done. }
  unfold gasCache. assert (forall m : gmap (CryptoChain * Currency) Decimal,
    foldl (fun m chain => foldl (fun m stable => match gasOf rt req chain stable with Some fee => <[(chain, stable) := fee]> m | None => m end) m stables) m chains
      !! (chain, stable)
    = match (if bool_decide (chain ∈ chains /\ stable ∈ stables) then gasOf rt req chain stable else None) with
      | Some fee => Some fee | None => m !! (chain, stable) end) as H.
  { induction chains as [|c chains IH]; intros m; cbn [foldl].
    - rewrite bool_decide_false by elems. done.
    - rewrite IH, Hin. destruct (decide (chain = c)) as [->|Hne].
      + destruct (decide (stable ∈ stables)).
        * rewrite (bool_decide_true (c = c /\ _)), (bool_decide_true (c ∈ c :: chains /\ _)) by elems.
          destruct (gasOf rt req c stable); by case_bool_decide.
        * rewrite !bool_decide_false by elems. done.
      + rewrite (bool_decide_false (chain = c /\ _)) by naive_solver.
        assert (bool_decide (chain ∈ c :: chains /\ stable ∈ stables) = bool_decide (chain ∈ chains /\ stable ∈ stables)) as ->
          by (apply bool_decide_ext; elems). done. }
  rewrite H, lookup_empty. by destruct (if bool_decide _ then _ else _).
Qed.
(** ** Which routes are considered *)

(** A combination that serves the request: a registered on-ramp from the source
    to a coin, a registered off-ramp from that coin to the target, both within
    their rate limits and with a quote, and a registered chain with a gas
    estimate for the coin. *)
Definition viable (lm : Limits) (rt : RouterConfig) (req : RouteRequest) (p : quotedPair) (chain : CryptoChain) (gas : Decimal) : Prop :=
  qp_stable p ∈ StablecoinsFromProviders (rt_registry rt)
  /\ (exists id, serves (rg_onRamps (rt_registry rt)) (lm_on lm) (rr_SourceCurrency req) (qp_stable p) (qp_onRamp p) id)
  /\ (exists id, serves (rg_offRamps (rt_registry rt)) (lm_off lm) (qp_stable p) (rr_TargetCurrency req) (qp_offRamp p) id)
  /\ pv_GetQuote (qp_onRamp p) {| qr_SourceCurrency := rr_SourceCurrency req; qr_SourceAmount := rr_Amount req;
                                  qr_DestCurrency := qp_stable p; qr_DestCountry := "" |} = Ok (qp_onQuote p)
  /\ pv_GetQuote (qp_offRamp p) {| qr_SourceCurrency := qp_stable p; qr_SourceAmount := stableBeforeOff req (qp_onQuote p);
                                   qr_DestCurrency := rr_TargetCurrency req; qr_DestCountry := "" |} = Ok (qp_offQuote p)
  /\ gasOf rt req chain (qp_stable p) = Some gas.

Lemma filed_empty k p : filed ∅ k p <-> False.
Proof. unfold filed. rewrite lookup_empty. simpl. split; [by intros ?%elem_of_nil|done]. Qed.

Lemma onQuotes_elem od lm rt req q : orders_ok od (rt_registry rt) ->
  q ∈ fetchOnRampQuotes req (od_stables od) (foldl (addOnRamp (lm_on lm) rt (rr_SourceCurrency req)) ∅ (od_onRamps od))
  <-> oq_stable q ∈ StablecoinsFromProviders (rt_registry rt)
      /\ (exists id, serves (rg_onRamps (rt_registry rt)) (lm_on lm) (rr_SourceCurrency req) (oq_stable q) (oq_onRamp q) id)
      /\ pv_GetQuote (oq_onRamp q) {| qr_SourceCurrency := rr_SourceCurrency req; qr_SourceAmount := rr_Amount req;
                                      qr_DestCurrency := oq_stable q; qr_DestCountry := "" |} = Ok (oq_quote q).
Proof.
  intros Ho. unfold fetchOnRampQuotes. rewrite list_elem_of_bind.
  assert (forall k p, filed (foldl (addOnRamp (lm_on lm) rt (rr_SourceCurrency req)) ∅ (od_onRamps od)) k p
    <-> exists id, serves (rg_onRamps (rt_registry rt)) (lm_on lm) (rr_SourceCurrency req) k p id) as Hf.
  { intros k p. rewrite filed_on, filed_empty. split.
    - intros [[]|(id & _ & Hs)]. by exists id.
    - intros (id & Hs). right. exists id. split; [|done]. rewrite (oo_on _ _ Ho). apply (list_elem_of_fmap_2 fst _ (id, p)).
      apply elem_of_map_to_list. apply Hs. }
  assert (forall c, c ∈ od_stables od <-> c ∈ StablecoinsFromProviders (rt_registry rt)) as Hst.
  { intros c. rewrite (oo_stables _ _ Ho). apply elem_of_elements. }
  split.
  - intros (c & Hq & Hc%Hst). apply list_elem_of_omap in Hq as (p & Hp & Hq).
    destruct (pv_GetQuote p _) as [quote|] eqn:Eq; [|done]. injection Hq as <-. simpl. split; [done|]. split; [by apply Hf|done].
  - intros (Hc & Hs & Hq). exists (oq_stable q). split; [|by apply Hst]. apply list_elem_of_omap. exists (oq_onRamp q).
    split; [by apply Hf|]. rewrite Hq. by destruct q.
Qed.

Lemma pairs_elem od lm rt req onQuotes p : orders_ok od (rt_registry rt) ->
  p ∈ fetchOffRampQuotes req onQuotes (foldl (addOffRamp (lm_off lm) rt (rr_TargetCurrency req)) ∅ (od_offRamps od))
  <-> {| oq_onRamp := qp_onRamp p; oq_stable := qp_stable p; oq_quote := qp_onQuote p |} ∈ onQuotes
      /\ (exists id, serves (rg_offRamps (rt_registry rt)) (lm_off lm) (qp_stable p) (rr_TargetCurrency req) (qp_offRamp p) id)
      /\ pv_GetQuote (qp_offRamp p) {| qr_SourceCurrency := qp_stable p; qr_SourceAmount := stableBeforeOff req (qp_onQuote p);
                                       qr_DestCurrency := rr_TargetCurrency req; qr_DestCountry := "" |} = Ok (qp_offQuote p).
Proof.
  intros Ho. unfold fetchOffRampQuotes. rewrite list_elem_of_bind.
  assert (forall k p, filed (foldl (addOffRamp (lm_off lm) rt (rr_TargetCurrency req)) ∅ (od_offRamps od)) k p
    <-> exists id, serves (rg_offRamps (rt_registry rt)) (lm_off lm) k (rr_TargetCurrency req) p id) as Hf.
  { intros k q. rewrite filed_off, filed_empty. split.
    - intros [[]|(id & _ & Hs)]. by exists id.
    - intros (id & Hs). right. exists id. split; [|done]. rewrite (oo_off _ _ Ho). apply (list_elem_of_fmap_2 fst _ (id, q)).
      apply elem_of_map_to_list. apply Hs. }
  split.
  - intros (q & Hp & Hq). apply list_elem_of_omap in Hp as (f & Hf1 & Hp).
    destruct (pv_GetQuote f _) as [quote|] eqn:Eq; [|done]. injection Hp as <-. simpl. split; [by destruct q|]. split; [by apply Hf|done].
  - intros (Hq & Hs & Hg). exists {| oq_onRamp := qp_onRamp p; oq_stable := qp_stable p; oq_quote := qp_onQuote p |}.
    split; [|done]. apply list_elem_of_omap. exists (qp_offRamp p). split; [by apply Hf|]. simpl. rewrite Hg. by destruct p.
Qed.

(** C35: The candidates are exactly the viable combinations, each with the score
    of its quotes: no registered provider or chain that can serve the request is
    left out, and nothing else gets in, whatever the order of Go's maps and of
    the concurrent quotes. *)
Theorem candidate_iff od lm rt req cs r : orders_ok od (rt_registry rt) -> buildCandidates od lm rt req = Ok cs ->
  r ∈ cs <-> exists p chain gas, viable lm rt req p chain gas /\ r = candidate rt req p chain gas.
Proof.
  intros Ho. unfold buildCandidates. case_bool_decide; [done|]. intros [= <-]. rewrite list_elem_of_bind. split.
  - intros (p & Hr & Hp). rewrite (oo_pairs _ _ Ho), (pairs_elem _ lm rt), (oo_onQuotes _ _ Ho), (onQuotes_elem _ lm rt) in Hp by done.
    simpl in Hp. destruct Hp as ((Hst & Hon & Hq) & Hoff & Hf).
    apply list_elem_of_omap in Hr as (chain & Hc & Hr). rewrite gasCache_lookup in Hr.
    case_bool_decide; [|done]. destruct (gasOf rt req chain (qp_stable p)) as [gas|] eqn:Eg; [|done]. injection Hr as <-.
    exists p, chain, gas. by split_and!.
  - intros (p & chain & gas & (Hst & Hon & Hoff & Hq & Hf & Hg) & ->). exists p. split.
    + apply list_elem_of_omap. exists chain. assert (chain ∈ od_chains od) as Hc.
      { unfold gasOf, GetBlockchain in Hg. destruct (rg_blockchains (rt_registry rt) !! chain) as [g|] eqn:Eg; [|done].
        rewrite (oo_chains _ _ Ho). apply (list_elem_of_fmap_2 fst _ (chain, g)). by apply elem_of_map_to_list. }
      split; [done|]. rewrite gasCache_lookup, bool_decide_true, Hg; [done|]. split; [done|].
      rewrite (oo_stables _ _ Ho). by apply elem_of_elements.
    + rewrite (oo_pairs _ _ Ho), (pairs_elem _ lm rt), (oo_onQuotes _ _ Ho), (onQuotes_elem _ lm rt) by done. simpl. by split_and!.
Qed.

(** ** The best route *)

Lemma sublist_keeps_Forall {A} (P : A -> Prop) l1 l2 : Forall P l2 -> l1 `sublist_of` l2 -> Forall P l1.
Proof.
  rewrite !Forall_forall. intros Hf Hs x Hx. apply Hf. eapply elem_of_submseteq; [exact Hx|by apply sublist_submseteq].
Qed.

Lemma collect_spec n req rest : exists kept, kept `sublist_of` rest /\ (length kept <= n)%nat
  /\ collect n req rest = map (alternativeOf req) kept /\ Forall (fun r => IsPositive (stableAmountOf req r) = true) kept.
Proof.
  revert n. induction rest as [|r rest IH]; intros [|n]; cbn [collect]; try (exists []; split_and!; [apply sublist_nil_l|simpl; lia|done|constructor]).
  destruct (IsPositive _) eqn:E.
  - destruct (IH n) as (kept & Hs & Hl & -> & Hf). exists (r :: kept). split_and!; [by constructor|simpl; lia|done|by constructor].
  - destruct (IH (Datatypes.S n)) as (kept & Hs & Hl & -> & Hf). exists kept. split_and!; [by constructor|done|done|done].
Qed.
End Candidates.

Section Best.
Context {L : ThirdParty} {LL : ThirdPartyLaws L}.
Local Open Scope Q_scope.

(** Never a better one later. *)
Definition byScore (a b : Route) : Prop := dVal (ro_Score b) <= dVal (ro_Score a).

Lemma sorted_byScore l : StronglySorted (fun a b => scoreGreater b a = false) l -> StronglySorted byScore l.
Proof.
  induction 1 as [|a l Hs IH Hf]; constructor; [done|]. eapply Forall_impl; [exact Hf|]. simpl. intros b Hb.
  unfold byScore. unfold scoreGreater in Hb. destruct (GreaterThanP (ro_Score b) (ro_Score a)); [done|]. lra.
Qed.

(** C13: The route returned is a candidate that no candidate beats; what moves on
    chain is the source amount at the on-ramp's rate less its fee, and is
    positive; the fallbacks, at most two, are other candidates with a positive
    amount, each no better than the one before. *)
Theorem route_is_best od lm rt req cs res : orders_ok od (rt_registry rt) -> buildCandidates od lm rt req = Ok cs ->
  RouteFor od lm rt req = Ok res ->
  exists best kept, best ∈ cs /\ (forall r, r ∈ cs -> byScore best r)
    /\ rs_ProviderID res = pv_ID (ro_OnRamp best) /\ rs_OffRampProvider res = pv_ID (ro_OffRamp best)
    /\ rs_BlockchainChain res = ro_Chain best /\ rs_Score res = ro_Score best
    /\ rs_StableAmount res = stableAmountOf req best /\ 0 < dVal (rs_StableAmount res)
    /\ rs_Alternatives res = map (alternativeOf req) kept /\ (length kept <= 2)%nat /\ (best :: kept) ⊆+ cs
    /\ StronglySorted byScore (best :: kept) /\ Forall (fun r => 0 < dVal (stableAmountOf req r)) kept.
Proof.
  intros Ho Hb. unfold RouteFor. rewrite Hb. pose proof (oo_perm _ _ Ho cs) as Hperm.
  pose proof (sorted_byScore _ (oo_sorted _ _ Ho cs)) as Hsort. unfold select.
  destruct (od_sort od cs) as [|best rest]; [done|]. destruct (IsPositiveP (stableAmountOf req best)) as [Hpos|]; [|done].
  intros [= <-]. simpl. destruct (collect_spec 2 req rest) as (kept & Hsub & Hlen & Hc & Hf). exists best, kept.
  apply StronglySorted_inv in Hsort as [Hsort Hall].
  split_and!; try done.
  - rewrite <- Hperm. left.
  - intros r Hr. rewrite <- Hperm in Hr. apply elem_of_cons in Hr as [->|Hr]; [unfold byScore; lra|].
    rewrite Forall_forall in Hall. by apply Hall.
  - rewrite <- Hperm. by apply submseteq_skip, sublist_submseteq.
  - constructor.
    + clear -Hsort Hsub. induction Hsub as [|x l1 l2 Hs IH|x l1 l2 Hs IH]; [done| |].
      * apply StronglySorted_inv in Hsort as [H1 H2]. constructor; [by apply IH|]. by eapply sublist_keeps_Forall.
      * apply StronglySorted_inv in Hsort as [H1 _]. by apply IH.
    + by eapply sublist_keeps_Forall.
  - eapply Forall_impl; [exact Hf|]. simpl. intros r Hr. by destruct (IsPositiveP (stableAmountOf req r)).
Qed.

(** ** Ranges *)

Lemma tenths_val n : dVal (tenths n) == n # 10.
Proof.
  assert (inject_Z n / 10 == n # 10) as <- by (unfold Qeq; simpl; lia).
  unfold tenths. rewrite (dDiv_exact _ _ (n * 10 ^ 15)%Z).
  - rewrite !NewFromInt_val. reflexivity.
  - rewrite NewFromInt_val. discriminate.
  - rewrite !NewFromInt_val. rewrite inject_Z_mult. change (10 ^ 16)%Z with (10 * 10 ^ 15)%Z. rewrite (inject_Z_mult 10). field.
Qed.

Lemma clampUnit_unit d : 0 <= dVal (clampUnit d) <= 1.
Proof.
  unfold clampUnit, dOne. destruct (IsNegativeP d) as [H|H]; [rewrite dZero_val; lra|].
  destruct (GreaterThanP d (NewFromInt 1)) as [H'|H']; rewrite NewFromInt_val in *; simpl in *; change (inject_Z 1) with 1 in *; lra.
Qed.

(** One less a rounded ratio of nonnegative numbers. *)
Lemma floorZero_unit a b : 0 <= dVal a -> 0 < dVal b -> 0 <= dVal (floorZero (dSub dOne (dDiv a b))) <= 1.
Proof.
  intros Ha Hb. unfold floorZero, dOne. destruct (IsNegativeP (dSub (NewFromInt 1) (dDiv a b))) as [H|H]; [rewrite dZero_val; lra|].
  rewrite dSub_val, NewFromInt_val in *. change (inject_Z 1) with 1 in *. split; [lra|].
  assert (0 <= dVal (dDiv a b)); [|lra]. rewrite dDiv_val by lra. apply Qround_places_nonneg.
  apply Qle_shift_div_l; [done|]. lra.
Qed.

(** With quotes that charge nothing negative and take no negative time, the
    parts of a score and the score itself lie between zero and one, whatever the
    scorers answer. *)
Theorem score_bounds rt route amount :
  0 <= dVal (pq_Fee (ro_OnQuote route)) -> 0 <= dVal (ro_GasFee route) -> 0 <= dVal (pq_Fee (ro_OffQuote route)) ->
  (0 <= add64 (pq_EstimatedSeconds (ro_OnQuote route)) (pq_EstimatedSeconds (ro_OffQuote route)))%Z ->
  let '(score, sb) := scoreRoute rt route amount in
  0 <= dVal (sb_Cost sb) <= 1 /\ 0 <= dVal (sb_Speed sb) <= 1 /\ 0 <= dVal (sb_Liquidity sb) <= 1
  /\ 0 <= dVal (sb_Reliability sb) <= 1 /\ 0 <= dVal score <= 1.
Proof.
  intros H1 H2 H3 H4. unfold scoreRoute.
  set (cost := if IsPositive amount then _ else dOne). set (speed := floorZero _).
  set (liq := match rt_liquidityScorer rt with None => dOne | Some s => _ end).
  set (rel := match rt_reliabilityScorer rt with None => dOne | Some s => _ end).
  assert (dVal dOne == 1) as Hone by (unfold dOne; by rewrite NewFromInt_val).
  assert (0 <= dVal cost <= 1) as Hcost.
  { unfold cost. destruct (IsPositiveP amount); [|lra]. apply floorZero_unit; [|done]. rewrite !dAdd_val. lra. }
  assert (0 <= dVal speed <= 1) as Hspeed.
  { apply floorZero_unit; rewrite NewFromInt_val; [|done]. change 0 with (inject_Z 0). by rewrite <- Zle_Qle. }
  assert (0 <= dVal liq <= 1) as Hliq by (unfold liq; destruct (rt_liquidityScorer rt); [apply clampUnit_unit|lra]).
  assert (0 <= dVal rel <= 1) as Hrel by (unfold rel; destruct (rt_reliabilityScorer rt); [apply clampUnit_unit|lra]).
  cbn [sb_Cost sb_Speed sb_Liquidity sb_Reliability]. split_and!; try tauto; try lra.
  all: rewrite !dAdd_val, !dMul_val; unfold weightCost, weightSpeed, weightLiquidity, weightReliability;
    rewrite !tenths_val; lra.
Qed.
(** A quote lives between two minutes and half an hour, whatever the
    estimate, zero, negative or so large that doubling it overflows. *)
Theorem quoteExpiry_bounds n : (120 * seconds <= quoteExpiry n <= 1800 * seconds)%Z.
Proof.
  unfold quoteExpiry, seconds. destruct (Z.leb_spec n 0); [lia|]. cbv zeta.
  destruct (Z.ltb_spec (wrap64 (wrap64 (n * 2) * 1000000000)) (120 * 1000000000)); [lia|].
  destruct (Z.ltb_spec (1800 * 1000000000) (wrap64 (wrap64 (n * 2) * 1000000000))); lia.
Qed.

(** What a quote promises: positive amounts, fees that add up, and a
    destination amount of the coin moved, less the tenant's off-ramp fee, at
    the product of both rates.  The coin moved is the source amount at the
    on-ramp's rate already, so that this rate is applied twice.  Where that
    product is not positive the amount is the source amount less all fees at
    the product of the rates. *)
Theorem quote_amounts env od lm rt GetTenant tn req q : orders_ok od (rt_registry rt) ->
  GetQuote env od lm rt GetTenant tn req = Ok q ->
  exists res, RouteFor od lm rt {| rr_SourceCurrency := qr_SourceCurrency req; rr_TargetCurrency := qr_DestCurrency req;
                                  rr_Amount := qr_SourceAmount req |} = Ok res
    /\ q_StableAmount q = rs_StableAmount res /\ 0 < dVal (q_StableAmount q) /\ 0 < dVal (q_DestAmount q)
    /\ dVal (TotalFeeUSD (q_Fees q)) == dVal (OnRampFee (q_Fees q)) + dVal (NetworkFee (q_Fees q)) + dVal (OffRampFee (q_Fees q))
    /\ (let dest := (dVal (q_StableAmount q) - dVal (OffRampFee (q_Fees q))) * dVal (rs_Rate res) in
        (0 < dest -> dVal (q_DestAmount q) == dest)
        /\ (dest <= 0 -> dVal (q_DestAmount q) == (dVal (q_SourceAmount q) - dVal (TotalFeeUSD (q_Fees q))) * dVal (rs_Rate res)))
    /\ exists best : Route, rs_Rate res = dMul (pq_Rate (ro_OnQuote best)) (pq_Rate (ro_OffQuote best))
         /\ dVal (q_StableAmount q)
            == Qround_places 8 (dVal (qr_SourceAmount req) * dVal (pq_Rate (ro_OnQuote best)) - dVal (pq_Fee (ro_OnQuote best))).
Proof.
  intros Ho. unfold GetQuote. destruct (GetTenant tn) as [tenant|]; [|done]. cbn [wrap].
  destruct (RouteFor od lm rt _) as [res|] eqn:Er; [|done]. cbn [wrap].
  destruct (CalculateFee _ _ "onramp") as [onFee|]; [|done]. cbn [wrap].
  destruct (CalculateFee _ _ "offramp") as [offFee|]; [|done]. cbn [wrap].
  set (d1 := dMul (dSub (rs_StableAmount res) offFee) (rs_Rate res)).
  set (d2 := dMul _ (rs_Rate res)).
  destruct (IsPositiveP (if negb (IsPositive d1) then d2 else d1)) as [Hpos|]; [|done]. cbn [negb]. intros [= <-]. exists res.
  assert (exists best : Route, rs_Rate res = dMul (pq_Rate (ro_OnQuote best)) (pq_Rate (ro_OffQuote best))
    /\ rs_StableAmount res = stableAmountOf {| rr_SourceCurrency := qr_SourceCurrency req; rr_TargetCurrency := qr_DestCurrency req;
         rr_Amount := qr_SourceAmount req |} best /\ 0 < dVal (rs_StableAmount res)) as (best & Hrate & Hst & Hsp).
  { unfold RouteFor in Er. destruct (buildCandidates od lm rt _); [|done]. unfold select in Er. destruct (od_sort od _) as [|best rest]; [done|].
    match type of Er with context [IsPositive ?x] => destruct (IsPositiveP x); [|done] end. injection Er as <-. by exists best. }
  assert (dVal d1 == (dVal (rs_StableAmount res) - dVal offFee) * dVal (rs_Rate res)) as Hd1 by (unfold d1; by rewrite dMul_val, dSub_val).
  assert (dVal d2 == (dVal (qr_SourceAmount req) - dVal (dAdd (dAdd onFee offFee) (m_Amount (rs_Fee res)))) * dVal (rs_Rate res)) as Hd2
    by (unfold d2; by rewrite dMul_val, dSub_val).
  cbn [q_StableAmount q_DestAmount q_Fees TotalFeeUSD OnRampFee NetworkFee OffRampFee q_SourceAmount]. split_and!; try done.
  - rewrite !dAdd_val. lra.
  - intros H'. destruct (IsPositiveP d1) as [H1|H1]; [exact Hd1|exfalso; lra].
  - intros H'. destruct (IsPositiveP d1) as [H1|H1]; [exfalso; lra|exact Hd2].
  - exists best. split; [done|]. rewrite Hst. unfold stableAmountOf, stableBeforeOff. by rewrite dRound_val, dSub_val, dMul_val.
Qed.
End Best.
End RouterProps.
