(* ===== verification/WorkerRuns.v ===== *)
(** * Workers, recovery, compensation and routing: concrete runs

    The services around the engine, executed on the Lemfi transfer of
    [EngineWitness], with the witnesses of their theorems: conversions
    ([ProviderRuns]), sends ([BlockchainRuns]), recovery cycles
    ([RecoveryRuns]), compensations ([CompensationRuns]) and a routing
    ([RouterRuns]). *)

From Stdlib Require Import Ascii QArith Lqa.
From stdpp Require Import sorting.
From S2P Require Import Prelude GoNumbers ThirdParty Sql Money Deposits Transfer Outbox LedgerEntries TransferStore Resilience Engine EngineFacts EngineProps EnginePipeline EngineWitness ProviderTxs ProviderWorker WebhookInbound ProviderProps BlockchainWorker BlockchainProps Recovery RecoveryProps Compensation CompensationProps Router RouterProps.
Import QInstance.
Local Open Scope string_scope.
Local Open Scope Z_scope.

(** ** node/worker: conversions at concrete inputs

    An on-ramp of the Lemfi transfer: a healthy provider, an open circuit, two
    deliveries at once, and a webhook whose report fails. *)

Module ProviderRuns.
Import ProviderTxs ProviderWorker ProviderProps WebhookInbound EngineWitness.

(** A provider that remembers what it was asked. *)
Abbreviation Calls := (list OnRampRequest).

Definition tx (status : string) : ProviderTx :=
  {| ptx_ID := "p"; ptx_ExternalID := "ext-1"; ptx_Status := status; ptx_Amount := 1000 # 1; ptx_Currency := "GBP";
     ptx_TxHash := "0xabc"; ptx_Metadata := ∅ |}.

(** "good" converts at once, "slow" keeps the conversion pending, "bad" refuses. *)
Definition onRamps (id : string) : option (OnRampRequest -> Calls -> result ProviderTx * Calls) :=
  if String.eqb id "good" then Some (fun req p => (Ok (tx "completed"), (p ++ [req])%list))
  else if String.eqb id "slow" then Some (fun req p => (Ok (tx "pending"), (p ++ [req])%list))
  else if String.eqb id "bad" then Some (fun req p => (Err (MsgErr "refused"), (p ++ [req])%list))
  else None.

Definition config : Config := {| cf_onRamp := onRamps; cf_offRamp _ := None; cf_deps := deps |}.

Definition calls (cb : Breaker.CircuitBreaker) : CallEnv :=
  {| ce_attempt _ := {| at_ctx := None; at_now := 10; at_bulkhead := None; at_breaker := Some cb |};
     ce_ctxErr _ := None; ce_interrupted _ := None; ce_random _ := f64_of_Z 0 |}.

Definition closed : Breaker.CircuitBreaker := Breaker.NewCircuitBreaker [].
Definition open_ : Breaker.CircuitBreaker := Breaker.transitionLocked Breaker.StateOpen closed.

Definition fallback (id : string) : OnRampFallback :=
  {| onf_ProviderID := id; onf_OffRampProvider := "off2"; onf_Chain := "ethereum"; onf_StableCoin := "USDC";
     onf_Fee := {| m_Amount := 1 # 1; m_Currency := "GBP" |}; onf_Rate := 5 # 4; onf_StableAmount := 1250 # 1 |}.

Definition payload (provider : string) (alternatives : list OnRampFallback) : ProviderOnRampPayload :=
  {| onp_TransferID := "i"%char; onp_TenantID := "t"%char; onp_ProviderID := provider; onp_Amount := 1000 # 1;
     onp_FromCurrency := "GBP"; onp_ToCurrency := "USDT"; onp_Reference := "i"; onp_Alternatives := alternatives;
     onp_QuotedRate := 5 # 4 |}.

Definition ramp (cb : Breaker.CircuitBreaker) (p : ProviderOnRampPayload) : Ramp (Pr := Calls) OnRampFallback Currency :=
  onRamp config {| de_calls _ := calls cb; de_engine := env 0 |} p.

Definition session (t : PTables) : Sql PTables :=
  {| sq_tables := t; sq_calls := 0;
     sq_world n := {| c_now := 9; c_out := Done; c_ids k := Some (ascii_of_nat (100 + k)) |} |}.

Definition tables0 : PTables := {| pt_txs := []; pt_db := db OnRamping; pt_stablecoin := true |}.
Definition world0 : World (Pr := Calls) := {| pw_db := session tables0; pw_prov := [] |}.

Definition run (cb : Breaker.CircuitBreaker) (p : ProviderOnRampPayload) (w : World (Pr := Calls)) : result unit * World :=
  rampLoop (ramp cb p) 0 (onp_Alternatives p) (onp_ProviderID p) (onp_ToCurrency p) w.

(** What a run leaves: the transfer's status, the transactions, the calls made. *)
Definition view (w : World (Pr := Calls)) :=
  (tr_Status <$> Adapter.db_transfers (pt_db (sq_tables (pw_db w))) !! "i"%char,
   map (fun r => (px_Provider r, px_Status r)) (pt_txs (sq_tables (pw_db w))),
   map onr_ToCurrency (pw_prov w)).

(** A provider that converts at once. *)
Example healthy_onramp : (run closed (payload "good" []) world0).1 = Ok tt
  /\ view (run closed (payload "good" []) world0).2 = (Some Settling, [("good", "completed")], ["USDT"]).
Proof. vm_compute. split; reflexivity. Qed.

(** A provider that keeps refusing: three calls, then the fallback converts to
    the fallback's coin. *)
Example fallback_onramp : (run closed (payload "bad" [fallback "good"]) world0).1 = Ok tt
  /\ view (run closed (payload "bad" [fallback "good"]) world0).2
     = (Some Settling, [("good", "completed")], ["USDT"; "USDT"; "USDT"; "USDC"]).
Proof. vm_compute. split; reflexivity. Qed.

(** No provider converts: the transaction fails, and with it the on-ramp. *)
Example refused_onramp : (run closed (payload "bad" []) world0).1 = Ok tt
  /\ view (run closed (payload "bad" []) world0).2 = (Some Refunding, [("bad", "failed")], ["USDT"; "USDT"; "USDT"]).
Proof. vm_compute. split; reflexivity. Qed.

Lemma ack_means_reported_witness : reported (ramp closed (payload "bad" [fallback "slow"])) (run closed (payload "bad" [fallback "slow"]) world0).2.
Proof.
  apply (ack_means_reported (ramp closed (payload "bad" [fallback "slow"])) 0 [fallback "slow"] "bad" "USDT" world0).
  - apply onRamp_frees.
  - reflexivity.
  - apply (pair_fst (run closed (payload "bad" [fallback "slow"]) world0)). vm_compute. reflexivity.
Defined.

(** The open circuit of "good": the second delivery finds it closed and still
    does nothing. *)
Definition stranded : World (Pr := Calls) := (run open_ (payload "good" []) world0).2.

Lemma circuit_open_strands_witness :
  run open_ (payload "good" []) world0 = (Err Breaker.ErrCircuitOpen, stranded)
  /\ (run closed (payload "good" []) stranded).1 = Ok tt
  /\ view (run closed (payload "good" []) stranded).2 = (Some OnRamping, [("good", "claiming")], []).
Proof.
  destruct (circuit_open_strands (ramp open_ (payload "good" [])) (ramp closed (payload "good" [])) 0 [] "good" "USDT"
    world0 "d"%char (pw_db stranded) [] Breaker.ErrCircuitOpen 0 [] "good" "USDT" stranded) as (H1 & H2 & H3 & H4);
    try reflexivity.
  assert ({| pw_db := pw_db stranded; pw_prov := [] |} = stranded) as Hs by reflexivity.
  split; [unfold run; cbn [onp_Alternatives payload onp_ProviderID onp_ToCurrency]; by rewrite H1, Hs|]. split.
  - apply H4. vm_compute. reflexivity.
  - unfold view, run. cbn [onp_Alternatives payload onp_ProviderID onp_ToCurrency]. rewrite H2, H3. vm_compute. reflexivity.
Defined.

(** ** Two deliveries *)

Definition sys (ts : list Phase) (t : PTables) : PSys (Pr := Calls) := {| ps_tables := t; ps_prov := []; ps_threads := ts |}.
Definition claimedTables : PTables := sq_tables (ClaimProviderTransaction "t"%char "i"%char "onramp" "good" (session tables0)).2.

Lemma two_claims : rtc (pstep "t"%char "i"%char "onramp") (sys [] tables0) (sys [Holding; Over] claimedTables).
Proof.
  eapply rtc_l; [apply (PDeliver _ _ _ (sys [] tables0))|].
  eapply rtc_l; [apply (PDeliver _ _ _ (sys [Fresh] tables0))|].
  eapply rtc_l; [eapply (PClaim _ _ _ 0 "good" (session tables0) _ _ (sys [Fresh; Fresh] tables0)); reflexivity|].
  apply rtc_once.
  eapply (PClaim _ _ _ 1 "good" (session claimedTables) (Ok None) (sq_set (session claimedTables) claimedTables) (sys [Holding; Fresh] claimedTables)).
  all: reflexivity.
Qed.

Lemma provider_call_exclusive_witness :
  ps_threads (sys [Holding; Over] claimedTables) !! 0%nat = Some Holding /\ 0%nat = 0%nat.
Proof.
  split; [reflexivity|].
  exact (provider_call_exclusive (L := Qlib) "t"%char "i"%char "onramp" tables0 [] _ 0 0 two_claims eq_refl eq_refl).
Defined.

(** ** A webhook whose report fails *)

Definition webhook : ProviderWebhookPayload :=
  {| wp_TransferID := "i"%char; wp_TenantID := "t"%char; wp_ProviderID := "slow"; wp_ProviderRef := "ext-1";
     wp_Status := "completed"; wp_TxHash := "0xdef"; wp_Error := ""; wp_ErrorCode := ""; wp_TxType := "onramp" |}.

(** The conversion is pending; call 2 of the next session, the engine's, fails. *)
Definition pendingTables : PTables := sq_tables (pw_db (run closed (payload "slow" []) world0).2).

Definition flaky (t : PTables) : Sql PTables :=
  {| sq_tables := t; sq_calls := 0;
     sq_world n := {| c_now := 9; c_out := if (n =? 2)%nat then CallFailed (MsgErr "connection reset") else Done;
                      c_ids k := Some (ascii_of_nat (100 + k)) |} |}.

Definition afterReport : Sql PTables := (processNormalizedOnRamp (env 0) deps webhook (flaky pendingTables)).2.
Definition redelivered : result unit * Sql PTables :=
  processNormalizedOnRamp (env 0) deps webhook (session (sq_tables afterReport)).

Lemma report_keeps_txs tn id r d r' d' : reportOnRamp (env 0) deps tn id r d = (r', d') -> pt_txs (sq_tables d') = pt_txs (sq_tables d).
Proof. apply engine_txs. Qed.

Definition found : result (option ProviderTx) * Sql PTables :=
  GetProviderTransaction "t"%char "i"%char "onramp" (flaky pendingTables).
Definition existing : ProviderTx := match found.1 with Ok (Some x) => x | _ => tx "" end.

Lemma found_existing : found.1 = Ok (Some existing).
Proof. vm_compute. reflexivity. Qed.

Definition updated : result unit * Sql PTables :=
  UpdateProviderTransaction "i"%char "onramp" (changed webhook existing) found.2.

Lemma webhook_report_not_retried_witness :
  (processNormalizedOnRamp (env 0) deps webhook (flaky pendingTables)).1 = Err (MsgErr "connection reset")
  /\ redelivered.1 = Ok tt
  /\ (tr_Status <$> Adapter.db_transfers (pt_db (sq_tables redelivered.2)) !! "i"%char) = Some OnRamping.
Proof.
  split; [vm_compute; reflexivity|].
  destruct (webhook_report_not_retried "onramp" (reportOnRamp (env 0) deps) webhook (flaky pendingTables)
    (MsgErr "connection reset") afterReport existing found.2 updated.2
    webhook (reportOnRamp (env 0) deps) (session (sq_tables afterReport))) as [H1 H2].
  - reflexivity.
  - exact report_keeps_txs.
  - apply (pair_fst found). exact found_existing.
  - vm_compute. reflexivity.
  - apply (pair_fst updated). vm_compute. reflexivity.
  - apply (pair_fst (processNormalizedOnRamp (env 0) deps webhook (flaky pendingTables))). vm_compute. reflexivity.
  - reflexivity.
  - reflexivity.
  - reflexivity.
  - split; [apply H2; vm_compute; reflexivity|].
    unfold redelivered, processNormalizedOnRamp, ProviderTxTypeOnRamp. rewrite H1. vm_compute. reflexivity.
Defined.
End ProviderRuns.

(** ** node/worker: sends at concrete inputs

    A send of the Lemfi transfer: confirmed at once, pending and then decided
    by a poll, and a decided transaction whose report the database refuses. *)

Module BlockchainRuns.
Import ProviderTxs ProviderWorker ProviderProps Reviews BlockchainWorker BlockchainProps EngineWitness.

(** A chain: the status each transaction has, and how many were sent. *)
Definition client (fresh : string) (look : string -> result ChainTx) : Client (Ch := nat) :=
  {| cl_SendTransaction _ n := (Ok {| ct_Hash := "0x1"; ct_Status := fresh |}, Datatypes.S n);
     cl_GetTransaction hash n := (look hash, n) |}.

Definition lookAll (status : string) (hash : string) : result ChainTx := Ok {| ct_Hash := hash; ct_Status := status |}.

Definition config (fresh later : string) : BConfig (Ch := nat) :=
  {| bc_clients chain := if String.eqb chain "tron" then Some (client fresh (lookAll later)) else None; bc_deps := deps; bc_reviews := true;
     bc_escalationTimeout := pendingTxEscalationTimeout |}.

Definition benv : BEnv :=
  {| be_attempt := {| at_ctx := None; at_now := 10; at_bulkhead := None; at_breaker := None |}; be_engine := env 0; be_now := 20 |}.

Definition send : BlockchainSendPayload :=
  {| bsp_TransferID := "i"%char; bsp_TenantID := "t"%char; bsp_Chain := "tron"; bsp_From := "T1"; bsp_To := "T2"; bsp_Token := "USDT";
     bsp_Amount := 1250 # 1; bsp_Memo := "i" |}.

Definition start (d : Sql PTables) : BWorld (Ch := nat) :=
  {| bw_db := d; bw_chain := 0%nat; bw_pending := ∅; bw_count := 0; bw_gauge := 0;
     bw_reviews := {| sq_tables := []; sq_calls := 0; sq_world n := {| c_now := 9; c_out := Done; c_ids k := Some (ascii_of_nat (120 + k)) |} |} |}.

Definition settlingTables : PTables := {| pt_txs := []; pt_db := db Settling; pt_stablecoin := true |}.

Definition view (w : BWorld (Ch := nat)) :=
  (tr_Status <$> Adapter.db_transfers (pt_db (sq_tables (bw_db w))) !! "i"%char,
   map px_Status (pt_txs (sq_tables (bw_db w))), bw_chain w, bw_count w, bw_gauge w).

Definition sendNow (fresh : string) : result unit * BWorld := sendPayload (config fresh "pending") benv send (start (ProviderRuns.session settlingTables)).

(** Confirmed at once. *)
Example confirmed_send : (sendNow "CONFIRMED").1 = Ok tt
  /\ view (sendNow "CONFIRMED").2 = (Some OffRamping, ["CONFIRMED"], 1%nat, 0, 0).
Proof. vm_compute. split; reflexivity. Qed.

(** Pending: a redelivery sends nothing, a later poll finds it confirmed.  The
    gauge still counts it. *)
Definition pendingWorld : BWorld := (sendNow "pending").2.
Definition snapshot : list (ascii * @pendingEntry Qlib) :=
  [("i"%char, {| pe_payload := send; pe_txHash := "0x1"; pe_tenantID := "t"%char; pe_addedAt := 20 |})].

Example pending_send : view pendingWorld = (Some Settling, ["pending"], 1%nat, 1, 1).
Proof. vm_compute. reflexivity. Qed.

Example redelivered_send : view (sendPayload (config "pending" "pending") benv send pendingWorld).2 = view pendingWorld.
Proof. vm_compute. reflexivity. Qed.

Example polled_send : view (pollPendingTransactions (config "pending" "Confirmed") (fun _ => benv) snapshot pendingWorld)
  = (Some OffRamping, ["confirmed"], 1%nat, 0, 1).
Proof. vm_compute. reflexivity. Qed.

(** The engine's transaction fails (call 1 of the poll's session): the entry is
    gone from the map and the transaction is confirmed, but the transfer is
    still SETTLING; a redelivery of the intent does nothing about it. *)
Definition brokenEngine (t : PTables) : Sql PTables :=
  {| sq_tables := t; sq_calls := 0;
     sq_world n := {| c_now := 9; c_out := if (n =? 1)%nat then CallFailed (MsgErr "connection reset") else Done;
                      c_ids k := Some (ascii_of_nat (100 + k)) |} |}.

Definition lostReport : BWorld :=
  pollPendingTransactions (config "pending" "confirmed") (fun _ => benv) snapshot (set_bdb pendingWorld (brokenEngine (sq_tables (bw_db pendingWorld)))).

Lemma report_is_lost : view lostReport = (Some Settling, ["confirmed"], 1%nat, 0, 1)
  /\ (sendPayload (config "pending" "confirmed") benv send lostReport).1 = Ok tt
  /\ view (sendPayload (config "pending" "confirmed") benv send lostReport).2 = view lostReport.
Proof. vm_compute. split_and!; reflexivity. Qed.

(** ** Witnesses *)

Lemma pending_map_bounded_witness : bw_count pendingWorld = 1 /\ 0 <= bw_count pendingWorld <= maxPendingTxMapSize.
Proof.
  destruct (pending_map_bounded (L := Qlib) (start (ProviderRuns.session settlingTables))
    (trackPending send "0x1" 20 (start (ProviderRuns.session settlingTables)))) as [H1 H2].
  - reflexivity.
  - reflexivity.
  - apply rtc_once, MTrack.
  - exact (conj (eq_refl : bw_count pendingWorld = 1) H2).
Defined.

Definition begin_ : SSys (Ch := nat) := {| ss_tables := settlingTables; ss_chain := 0%nat; ss_sends := 0; ss_threads := [] |}.
Definition delivered : SSys (Ch := nat) := {| ss_tables := settlingTables; ss_chain := 0%nat; ss_sends := 0; ss_threads := [Fresh] |}.

(** The run of one delivery. *)
Lemma one_delivery : exists st, rtc (bstep (config "pending" "pending") "t"%char "i"%char) begin_ st /\ ss_threads st = [Over]
  /\ ss_chain st = 1%nat.
Proof.
  destruct (sendPayload_steps (config "pending" "pending") "t"%char "i"%char benv send (start (ProviderRuns.session settlingTables)) 0 [Fresh] 0
    ltac:(simpl; lia) eq_refl eq_refl) as (n & _ & Hs).
  eexists. split.
  - eapply rtc_l; [apply (SDeliver _ _ _ begin_)|]. exact Hs.
  - split; vm_compute; reflexivity.
Qed.

Lemma sent_at_most_once_witness : exists st, rtc (bstep (config "pending" "pending") "t"%char "i"%char) begin_ st
  /\ ss_chain st = 1%nat /\ (ss_sends st <= 1)%nat.
Proof.
  destruct one_delivery as (st & Hs & _ & Hc). exists st. split; [exact Hs|]. split; [exact Hc|].
  exact (sent_at_most_once (L := Qlib) (config "pending" "pending") "t"%char "i"%char settlingTables 0%nat st Hs).
Defined.

(** A worker that has tracked the send. *)
Definition tracked : BWorld := trackPending send "0x1" 20 (start (ProviderRuns.session settlingTables)).

Lemma tracked_inv : MInv tracked.
Proof.
  apply (pending_step (start (ProviderRuns.session settlingTables))); [|apply MTrack].
  split_and!; [reflexivity|unfold maxPendingTxMapSize; simpl; lia|apply map_Forall_empty].
Qed.

Lemma tracked_entry : bw_pending tracked
  = {[ "i"%char := {| pe_payload := send; pe_txHash := "0x1"; pe_tenantID := "t"%char; pe_addedAt := 20 |} ]}.
Proof. done. Qed.

Lemma poll_keeps_undecided_witness :
  bw_pending (pollPendingTransactions (config "pending" "failed") (fun _ => benv) snapshot tracked) = ∅.
Proof.
  rewrite (poll_keeps_undecided (L := Qlib) (config "pending" "failed") (fun _ => lookAll "failed") 20 (fun _ => benv) snapshot tracked).
  - rewrite tracked_entry. apply map_filter_singleton_False. vm_compute. discriminate.
  - intros chain c hash n. cbn [bc_clients config]. destruct (String.eqb chain "tron"); [|done]. by intros [= <-].
  - done.
  - exact tracked_inv.
  - rewrite tracked_entry, map_to_list_singleton. done.
  - vm_compute. discriminate.
Defined.
End BlockchainRuns.

(** ** core: recovery cycles at concrete inputs

    Cycles over the Lemfi transfer stuck in one status or another. *)

Module RecoveryRuns.
Import ProviderWorker Reviews Recovery RecoveryProps EngineWitness Adapter.

Definition checker (status : result ProviderStatus) : Checker :=
  {| ck_OnRamp _ _ := status; ck_OffRamp _ _ := status;
     ck_Blockchain _ _ := Ok {| cs_Confirmed := true; cs_TxHash := "0x1"; cs_Error := "" |} |}.

Definition says (s : string) : result ProviderStatus := Ok {| ps_Status := s; ps_Reference := "r"; ps_Error := "declined" |}.

Definition renv (status : result ProviderStatus) (k : nat) : RecEnv :=
  {| re_engine := env k; re_deps := deps; re_check := checker status |}.

Definition reviews (rows : list ReviewRow) : Sql (list ReviewRow) :=
  {| sq_tables := rows; sq_calls := 0;
     sq_world n := {| c_now := 9; c_out := Done; c_ids k := Some (ascii_of_nat (120 + k)) |} |}.

(** The database of [EngineWitness] ninety minutes later. *)
Definition later (s : TransferStatus) : DB :=
  {| db_up := true; db_clock := minutes 90; db_ids n := Some (ascii_of_nat (200 + n)); db_nextid := 0;
     db_lost _ := false; db_commits := 0;
     db_transfers := {[ "i"%char := transfer s ]}; db_quotes := ∅; db_outbox := [] |}.

Definition world (s : TransferStatus) (rows : list ReviewRow) : RWorld (St := DB) :=
  {| rc_store := later s; rc_reviews := reviews rows; rc_progress := ∅ |}.

Definition run (status : result ProviderStatus) (s : TransferStatus) (rows : list ReviewRow) : Tally * RWorld (St := DB) :=
  runCycle (ListStuckTransfers 5000) (fun _ => renv status) (minutes 90) DefaultThresholds (world s rows).

Definition view (x : Tally * RWorld (St := DB)) :=
  (tr_Status <$> db_transfers (rc_store x.2) !! "i"%char, map (fun r => (rv_TransferStatus r, rv_Status r)) (sq_tables (rc_reviews x.2)),
   ta_escalated x.1).

Example funded_cycle : view (run (says "unknown") Funded []) = (Some OnRamping, [], 0).
Proof. vm_compute. reflexivity. Qed.

Example completed_onramp_cycle : view (run (says "completed") OnRamping []) = (Some Settling, [], 0).
Proof. vm_compute. reflexivity. Qed.

(** A provider that says unknown: escalated, once. *)
Example unknown_cycle : view (run (says "unknown") OnRamping []) = (Some OnRamping, [("ON_RAMPING", "pending")], 1).
Proof. vm_compute. reflexivity. Qed.

(** The chain has confirmed the settlement; the detector cannot know. *)
Example settling_cycle : view (run (says "completed") Settling []) = (Some Settling, [("SETTLING", "pending")], 1).
Proof. vm_compute. reflexivity. Qed.

(** A provider that cannot be asked: neither recovered nor escalated. *)
Lemma failed_check_is_not_escalated : view (run (Err (MsgErr "timeout")) OnRamping []) = (Some OnRamping, [], 0).
Proof. vm_compute. reflexivity. Qed.

(** A transfer whose review was resolved is counted as escalated again, without
    a review anyone would see. *)
Definition resolved : ReviewRow :=
  {| rv_ID := "r"%char; rv_TransferID := "i"%char; rv_TenantID := "t"%char; rv_Status := "resolved"; rv_TransferStatus := "FUNDED";
     rv_StuckSince := 0; rv_CreatedAt := 1 |}.

Lemma second_review_is_dropped : view (run (says "unknown") OnRamping [resolved]) = (Some OnRamping, [("FUNDED", "resolved")], 1).
Proof. vm_compute. reflexivity. Qed.

Lemma one_review_per_transfer_witness : reviews_ok (sq_tables (rc_reviews (run (says "unknown") OnRamping []).2)).
Proof.
  apply (one_review_per_transfer (ListStuckTransfers 5000) (fun _ => renv (says "unknown")) (minutes 90) DefaultThresholds (world OnRamping [])).
  apply NoDup_nil_2.
Defined.


Lemma stuck_funded_moves_on_witness :
  Forall (movedOn (rc_store (recoverAll (renv (says "unknown")) (minutes 90) {| th_Warn := 0; th_Recover := 0; th_Escalate := 0 |} 0 ∅
    [stuckRow (transfer Funded)] ({| ta_recovered := 0; ta_escalated := 0; ta_skipped := 0 |}, world Funded [])).2)) [stuckRow (transfer Funded)].
Proof.
  apply (stuck_funded_moves_on (renv (says "unknown")) (minutes 90) {| th_Warn := 0; th_Recover := 0; th_Escalate := 0 |}
    [stuckRow (transfer Funded)] ({| ta_recovered := 0; ta_escalated := 0; ta_skipped := 0 |}, world Funded [])).
  - exact (conj eq_refl (fun _ => eq_refl)).
  - apply (db_ok Funded).
  - reflexivity.
  - constructor; [|constructor]. split; [reflexivity|]. exists (transfer Funded).
    split; [apply (db_row Funded)|]. split; [reflexivity|]. split; reflexivity.
  - by apply (bool_decide_eq_true_1 (NoDup _)); vm_compute.
  - by apply (bool_decide_eq_true_1 (NoDup _)); vm_compute.
Defined.
End RecoveryRuns.

(** ** core: compensations at concrete inputs

    The Lemfi transfer of [EngineWitness], compensated from one status or
    another. *)

Module CompensationRuns.
Import Compensation CompensationProps EngineWitness Adapter.

Definition says (onramp : string) (rate : Q) : ExternalStatus :=
  {| ex_OnRampStatus := onramp; ex_BlockchainConfirmed := None; ex_BlockchainError := ""; ex_CurrentRate := rate |}.

Definition planOf (s : TransferStatus) (metadata : gmap string string) (steps : list string) (ext : ExternalStatus) : CompensationPlan :=
  DetermineCompensation (transfer s) lemfi metadata steps ext.

Definition cenv : CEnv := {| ce_fail := env 0; ce_refund := env 1; ce_deps := deps |}.

Definition records : Sql (list CompRow) :=
  {| sq_tables := []; sq_calls := 0;
     sq_world n := {| c_now := 9; c_out := Done; c_ids k := Some (ascii_of_nat (120 + n + k)) |} |}.

Definition world (s : TransferStatus) : CWorld (St := DB) := {| cw_store := db s; cw_records := records |}.

Definition view (x : result unit * CWorld (St := DB)) :=
  (is_ok x.1, tr_Status <$> db_transfers (cw_store x.2) !! I', map oe_EventType (db_outbox (cw_store x.2)),
   map (fun r => (cr_Status r, cr_StepsCompleted r)) (sq_tables (cw_records x.2))).

Definition refused := planOf OnRamping ∅ [] (says "failed" 0).
Definition reversal := planOf OffRamping ∅ ["funded"; StepOnRampCompleted] (says "" 2).
Definition unclear := planOf OnRamping ∅ [] (says "pending" 0).

Example refused_run : view (Execute cenv refused (world OnRamping))
  = (true, Some Refunding,
     [IntentTreasuryRelease; IntentWebhookDeliver; EventTransferFailed; IntentLedgerReverse; IntentTreasuryRelease; EventRefundInitiated],
     [("completed", ["treasury.release"; "ledger.reverse"])]).
Proof. vm_compute. reflexivity. Qed.

(** The second attempt finds the record. *)
Example again_run : is_ok (Execute cenv refused (Execute cenv refused (world OnRamping)).2).1 = false.
Proof. vm_compute. reflexivity. Qed.

Example unclear_run : view (Execute cenv unclear (world OnRamping)) = (false, Some OnRamping, [], [("pending", [])]).
Proof. vm_compute. reflexivity. Qed.

(** A SETTLING transfer of which nothing is known from the chain is not
    ambiguous. *)
Lemma unconfirmed_settling_is_reversed : cp_Strategy (planOf Settling ∅ [StepOnRampCompleted] (says "" 0)) = ReverseOnRamp.
Proof. reflexivity. Qed.

Lemma compensated_at_most_once_witness : exists log,
  rtc xstep {| x_world := world OnRamping; x_jobs := []; x_log := [] |}
    {| x_world := (Execute cenv refused (world OnRamping)).2; x_jobs := []; x_log := log |} /\ NoDup log.
Proof.
  destruct (Execute_is_run cenv refused (world OnRamping) []) as [log H]. exists log. split; [exact H|].
  exact (proj1 (compensated_at_most_once _ _ H)).
Defined.

Lemma manual_review_never_recorded_witness : is_ok (Execute cenv unclear (world OnRamping)).1 = false.
Proof. exact (proj1 (manual_review_never_recorded cenv unclear (world OnRamping) eq_refl)). Defined.

Lemma simple_refund_releases_twice_witness :
  intents_for I' (cw_store (Execute cenv refused (world OnRamping)).2)
  = [intent_of (transfer OnRamping) TRelease; intent_of (transfer OnRamping) TRelease].
Proof.
  apply (simple_refund_releases_twice (L := Qlib) cenv refused (world OnRamping) _ (transfer OnRamping) eq_refl eq_refl
    ltac:(discriminate) (db_ok _) (db_row _)).
  apply pair_ok. vm_compute. reflexivity.
Defined.

Lemma reversal_is_never_asked_witness : exists row,
  row ∈ sq_tables (cw_records (Execute cenv reversal (world OffRamping)).2) /\ IntentProviderReverseOnRamp ∈ cr_StepsCompleted row.
Proof.
  destruct (reversal_is_never_asked (L := Qlib) cenv reversal (world OffRamping) (Execute cenv reversal (world OffRamping)).2 eq_refl)
    as [_ (row & H1 & _ & _ & H2)].
  - apply pair_ok. vm_compute. reflexivity.
  - exists row. exact (conj H1 H2).
Defined.

Local Open Scope Q_scope.

Lemma fx_loss_bounds_witness : 0 <= fx_FXLoss (CalculateFXLoss (L := Qlib) 2847 (12581 # 10000) (12656 # 10000)) <= 2847.
Proof.
  apply (fx_loss_bounds (LL := Qlib_laws) 2847 (12581 # 10000) (12656 # 10000) (12656 # 10000)); simpl; lra.
Defined.

Lemma estimate_has_the_wrong_sign_witness : EstimateFXLoss (L := Qlib) 1000 (12 # 10) (13 # 10) <= 0.
Proof.
  apply (estimate_has_the_wrong_sign (LL := Qlib_laws) 1000 (12 # 10) (13 # 10)); simpl; lra.
Defined.
End CompensationRuns.

(** ** rail: a routing at concrete inputs

    Two on-ramps, two off-ramps and two chains for GBP to NGN, with orders
    that any run of Go could take ([someOrders]). *)

Module RouterRuns.
Import Router RouterProps.

(** ** Orders exist *)

Section Orders.
Context {L : ThirdParty} {LL : ThirdPartyLaws L}.

Definition noBetter (a b : Route) : Prop := GreaterThan (ro_Score b) (ro_Score a) = false.

#[global] Instance noBetter_dec a b : Decision (noBetter a b).
Proof. unfold noBetter. apply _. Defined.

#[global] Instance noBetter_total : Total noBetter.
Proof.
  intros a b. unfold noBetter. destruct (GreaterThanP (ro_Score b) (ro_Score a)) as [H|H]; [right|by left].
  destruct (GreaterThanP (ro_Score a) (ro_Score b)); [lra|done].
Qed.

#[global] Instance noBetter_trans : Transitive noBetter.
Proof.
  intros a b c. unfold noBetter. destruct (GreaterThanP (ro_Score b) (ro_Score a)), (GreaterThanP (ro_Score c) (ro_Score b)); try done.
  intros _ _. destruct (GreaterThanP (ro_Score c) (ro_Score a)); [lra|done].
Qed.

Definition someOrders (r : Registry) : Orders :=
  {| od_onRamps := (map_to_list (rg_onRamps r)).*1; od_offRamps := (map_to_list (rg_offRamps r)).*1;
     od_chains := (map_to_list (rg_blockchains r)).*1; od_stables := elements (StablecoinsFromProviders r);
     od_onQuotes l := l; od_pairs l := l; od_sort := merge_sort noBetter |}.

Lemma someOrders_ok r : orders_ok (someOrders r) r.
Proof.
  split; try done; intros l; [apply merge_sort_Permutation|apply (StronglySorted_merge_sort noBetter)].
Qed.
End Orders.

Lemma ok_match {A} (r : result A) d : is_ok r = true -> r = Ok (match r with Ok a => a | Err _ => d end).
Proof. by destruct r. Qed.

(** ** A registry *)

Definition ramp (id : string) (pairs : list (string * string)) (rate fee : Q) (secs : Z) : Provider :=
  {| pv_ID := id; pv_SupportedPairs := map (fun x => {| cp_From := x.1; cp_To := x.2 |}) pairs;
     pv_GetQuote _ := Ok {| pq_Rate := rate; pq_Fee := fee; pq_EstimatedSeconds := secs |} |}.

Definition registry : Registry :=
  RegisterOnRamp (ramp "on1" [("GBP", "USDT")] (5 # 4) (2 # 1) 60)
  (RegisterOnRamp (ramp "on2" [("GBP", "USDC"); ("EUR", "USDC")] (5 # 4) (20 # 1) 60)
  (RegisterOffRamp (ramp "off1" [("USDT", "NGN"); ("USDC", "NGN")] (1600 # 1) (1 # 1) 300)
  (RegisterBlockchainClient "tron" (fun _ => Ok (1 # 1)%Q)
  (RegisterBlockchainClient "ethereum" (fun r => if String.eqb (txr_Token r) "USDC" then Ok (9 # 1)%Q else Err (MsgErr "no route"))
   NewRegistry)))).

Definition config : RouterConfig :=
  {| rt_registry := registry; rt_liquidityScorer := None; rt_reliabilityScorer := Some (fun _ => 2 # 1); rt_explorerUrl := None;
     rt_providerRateLimits := ∅ |}.

Definition limits : Limits := {| lm_on _ := true; lm_off _ := true |}.
Definition orders : Orders := someOrders registry.

Lemma orders_fine : orders_ok orders (rt_registry config).
Proof. exact (someOrders_ok (LL := Qlib_laws) registry). Qed.

Definition request : RouteRequest := {| rr_SourceCurrency := "GBP"; rr_TargetCurrency := "NGN"; rr_Amount := 1000 # 1 |}.

Definition candidates : list Route := match buildCandidates orders limits config request with Ok l => l | Err _ => [] end.

Lemma candidates_ok : buildCandidates orders limits config request = Ok candidates.
Proof.
  assert (is_ok (buildCandidates orders limits config request) = true) as H by (vm_compute; reflexivity).
  unfold candidates. exact (ok_match (buildCandidates orders limits config request) [] H).
Qed.

Definition noRoute : RouteResult :=
  {| rs_ProviderID := ""; rs_OffRampProvider := ""; rs_BlockchainChain := ""; rs_Corridor := ""; rs_Fee := {| m_Amount := 0%Q; m_Currency := "" |};
     rs_Rate := 0%Q; rs_StableAmount := 0%Q; rs_ExplorerURL := ""; rs_EstimatedSeconds := 0; rs_Score := 0%Q;
     rs_ScoreBreakdown := {| sb_Cost := 0%Q; sb_Speed := 0%Q; sb_Liquidity := 0%Q; sb_Reliability := 0%Q |}; rs_Alternatives := [] |}.

Definition routed : RouteResult := match RouteFor orders limits config request with Ok r => r | Err _ => noRoute end.

Lemma routed_ok : RouteFor orders limits config request = Ok routed.
Proof.
  assert (is_ok (RouteFor orders limits config request) = true) as H by (vm_compute; reflexivity).
  unfold routed. exact (ok_match (RouteFor orders limits config request) noRoute H).
Qed.

(** The cheap on-ramp over tron, with the other coin on both chains behind it. *)
Example routed_best : (rs_ProviderID routed, rs_BlockchainChain routed, rs_Corridor routed, rs_StableAmount routed,
    map (fun a => (alt_OnRampProvider a, alt_Chain a)) (rs_Alternatives routed))
  = ("on1", "tron", "GBP→USDT→NGN", (1248 # 1)%Q, [("on2", "tron"); ("on2", "ethereum")]).
Proof. vm_compute. reflexivity. Qed.

Definition tronPair : quotedPair :=
  {| qp_onRamp := ramp "on1" [("GBP", "USDT")] (5 # 4) (2 # 1) 60; qp_offRamp := ramp "off1" [("USDT", "NGN"); ("USDC", "NGN")] (1600 # 1) (1 # 1) 300;
     qp_stable := "USDT"; qp_onQuote := {| pq_Rate := 5 # 4; pq_Fee := 2 # 1; pq_EstimatedSeconds := 60 |};
     qp_offQuote := {| pq_Rate := 1600 # 1; pq_Fee := 1 # 1; pq_EstimatedSeconds := 300 |} |}.

Lemma candidate_iff_witness : exists p gas, viable limits config request p "tron" gas /\ candidate config request p "tron" gas ∈ candidates.
Proof.
  exists tronPair, (1 # 1)%Q.
  match goal with |- ?V /\ _ => assert V as Hv end.
  { split; [by apply (bool_decide_eq_true_1 (_ ∈ _)); vm_compute|]. split; [|split].
    - exists "on1". split; [reflexivity|]. split; [reflexivity|]. left.
    - exists "off1". split; [reflexivity|]. split; [reflexivity|]. left.
    - split; [reflexivity|]. split; reflexivity. }
  split; [exact Hv|].
  apply (candidate_iff orders limits config request candidates _ orders_fine candidates_ok).
  eexists _, "tron", (1 # 1)%Q. split; [exact Hv|reflexivity].
Defined.

Lemma route_is_best_witness : exists best kept, best ∈ candidates /\ (forall r, r ∈ candidates -> byScore best r)
  /\ rs_Alternatives routed = map (alternativeOf request) kept /\ (length kept <= 2)%nat.
Proof.
  destruct (route_is_best orders limits config request candidates routed orders_fine candidates_ok routed_ok)
    as (best & kept & H1 & H2 & _ & _ & _ & _ & _ & _ & H3 & H4 & _).
  exists best, kept. exact (conj H1 (conj H2 (conj H3 H4))).
Defined.

Definition aRoute : Route :=
  {| ro_OnRamp := ramp "on1" [] 1 1 1; ro_OffRamp := ramp "off1" [] 1 1 1; ro_Chain := "tron"; ro_Stable := "USDT"; ro_Score := 0%Q;
     ro_ScoreBreakdown := {| sb_Cost := 0%Q; sb_Speed := 0%Q; sb_Liquidity := 0%Q; sb_Reliability := 0%Q |};
     ro_OnQuote := {| pq_Rate := 5 # 4; pq_Fee := 2 # 1; pq_EstimatedSeconds := 60 |};
     ro_OffQuote := {| pq_Rate := 1600 # 1; pq_Fee := 1 # 1; pq_EstimatedSeconds := 300 |}; ro_GasFee := 1 # 1 |}.

Lemma score_bounds_witness : (0 <= dVal (scoreRoute config aRoute (1000 # 1)).1 <= 1)%Q.
Proof.
  pose proof (score_bounds (LL := Qlib_laws) config aRoute (1000 # 1)%Q ltac:(vm_compute; discriminate) ltac:(vm_compute; discriminate)
    ltac:(vm_compute; discriminate) ltac:(vm_compute; discriminate)) as H.
  destruct (scoreRoute config aRoute (1000 # 1)) as [score sb]. destruct H as (_ & _ & _ & _ & H). exact H.
Defined.

Definition quoteRequest : QuoteRequest :=
  {| qr_SourceCurrency := "GBP"; qr_SourceAmount := 1000 # 1; qr_DestCurrency := "NGN"; qr_DestCountry := "NG" |}.

Definition qenv : QEnv := {| qe_id := "q"%char; qe_now1 := 10; qe_now2 := 11 |}.

Definition quoted : result Quote :=
  GetQuote qenv orders limits config (fun _ => Ok EngineWitness.lemfi) "t"%char quoteRequest.

(** 1000 pounds are 1250 dollars less fees, at 1600 naira each; the quote
    promises a quarter more. *)
Example quoted_amounts : match quoted with
  | Ok q => (q_StableAmount q == 1248 # 1)%Q /\ (q_FXRate q == 2000 # 1)%Q /\ (OffRampFee (q_Fees q) == 4368 # 1000)%Q
            /\ (q_DestAmount q == 2487264 # 1)%Q /\ q_ExpiresAt q = 10 + 720 * seconds
  | Err _ => False
  end.
Proof. vm_compute. repeat split; reflexivity. Qed.

Lemma Ok_same {A} (a b : A) : Ok a = Ok b -> a = b.
Proof. by intros [= ->]. Qed.

Lemma quote_amounts_witness : exists q res, quoted = Ok q /\ RouteFor orders limits config request = Ok res
  /\ (dVal (q_DestAmount q) == (dVal (q_StableAmount q) - dVal (OffRampFee (q_Fees q))) * dVal (rs_Rate res))%Q.
Proof.
  assert (is_ok quoted = true) as Hok by (vm_compute; reflexivity).
  destruct quoted as [q|e] eqn:E; [clear Hok|discriminate Hok].
  unfold quoted in E.
  destruct (quote_amounts (LL := Qlib_laws) qenv orders limits config
    (fun _ => Ok EngineWitness.lemfi) "t"%char quoteRequest q orders_fine E)
    as (res & Hr & _ & _ & _ & _ & [Hd _] & _).
  exists q, res. split; [reflexivity|]. split; [exact Hr|]. apply Hd.
  assert (match quoted with Ok q => ((dVal (q_StableAmount q) - dVal (OffRampFee (q_Fees q))) * (2000 # 1) == 2487264 # 1)%Q | Err _ => False end) as Hv
    by (vm_compute; reflexivity).
  unfold quoted in Hv. rewrite E in Hv. change (RouteFor orders limits config request = Ok res) in Hr. rewrite routed_ok in Hr. apply Ok_same in Hr as <-.
  assert (rs_Rate routed == 2000 # 1)%Q as Hrate by (vm_compute; reflexivity).
  change (0 < (dVal (q_StableAmount q) - dVal (OffRampFee (q_Fees q))) * rs_Rate routed)%Q. rewrite Hrate, Hv. reflexivity.
Defined.

(** The coin of a quote is looked for anywhere in the corridor. *)
Example coin_of_corridor : stableOf (corridorString "GBP" "USDC" "NGN") = "USDC" /\ stableOf (corridorString "USDT" "USDC" "NGN") = "USDT".
Proof. split; reflexivity. Qed.
End RouterRuns.

