(* ===== verification/LedgerSync.v ===== *)
(** * ledger: the Postgres read model and its sync consumer

    Models src/ledger/postgres.go (Module [PG]: the read path and
    [SyncJournalEntry]) over the statements of
    src/store/ledgerdb/ledger.sql.go, and src/ledger/sync.go (Module [Sync]:
    the bounded queue, the batches and the retries of the background
    goroutine).  [SyncJournalEntry] runs its statements one by one, each a
    call of its own on a connection that can fail. *)

From S2P Require Import Prelude ThirdParty Sql Money Deposits Transfer Outbox LedgerEntries.
Local Open Scope string_scope.
Local Open Scope Z_scope.

(** [time.Time{}]: the first of January of the year 1, in nanoseconds. *)
Definition zeroTime : Z := - 62135596800 * 1000000000.

Module PG.
Section PG.
Context {L : ThirdParty}.

(** ** Tables *)

Record Account := { ac_ID : UUID; ac_Code : string; ac_Currency : string }.

Record JournalRow := {
  jr_ID : UUID; jr_TenantID : option UUID; jr_IdempotencyKey : option string; jr_PostedAt : Z;
  jr_EffectiveDate : Z; jr_Description : string; jr_ReferenceType : option string;
  jr_ReferenceID : option UUID; jr_ReversalOf : option UUID;
  jr_Metadata : list (string * string);
}.

Record LineRow := {
  lr_ID : UUID; lr_JournalEntryID : UUID; lr_AccountID : UUID; lr_EntryType : string;
  lr_Amount : Decimal; lr_Currency : string; lr_Description : option string; lr_CreatedAt : Z;
}.

Record Snapshot := {
  bs_AccountID : UUID; bs_Balance : Decimal; bs_LastEntryID : option UUID; bs_SnapVersion : Z }.

Record LedgerTables := {
  lt_accounts : list Account;
  lt_journal : list JournalRow;
  lt_lines : list LineRow;
  lt_snapshots : gmap UUID Snapshot;
}.

Definition set_journal (t : LedgerTables) x : LedgerTables :=
  {| lt_accounts := lt_accounts t; lt_journal := x; lt_lines := lt_lines t;
     lt_snapshots := lt_snapshots t |}.
Definition set_lines (t : LedgerTables) x : LedgerTables :=
  {| lt_accounts := lt_accounts t; lt_journal := lt_journal t; lt_lines := x;
     lt_snapshots := lt_snapshots t |}.
Definition set_snapshots (t : LedgerTables) x : LedgerTables :=
  {| lt_accounts := lt_accounts t; lt_journal := lt_journal t; lt_lines := lt_lines t;
     lt_snapshots := x |}.

(** ** Statements *)

(** [textToPgtype]: the empty string is NULL. *)
Definition textToPgtype (s : string) : option string :=
  if String.eqb s "" then None else Some s.

(** [dateToPgtype]: the zero time is NULL. *)
Definition dateToPgtype (t : Z) : option Z := if t =? zeroTime then None else Some t.

Definition checkViolation : error := MsgErr "new row violates check constraint".

Definition GetAccountByCode (code : string) : Sql LedgerTables -> result Account * Sql LedgerTables :=
  query (fun _ t => selectFirst (fun a => String.eqb (ac_Code a) code) (lt_accounts t)).

(** The unique indexes on (tenant_id, idempotency_key, posted_at), the one for
    system entries included, and the primary key (id, posted_at). *)
Definition journalClash (r r' : JournalRow) : bool :=
  (jr_PostedAt r =? jr_PostedAt r')
  && (bool_decide (jr_ID r = jr_ID r')
      || bool_decide (jr_TenantID r = jr_TenantID r')
         && bool_decide (jr_IdempotencyKey r = jr_IdempotencyKey r')
         && bool_decide (is_Some (jr_IdempotencyKey r))).

(** id, effective_date and metadata are NOT NULL; only the defaults of the
    columns that the statement leaves out apply, and it leaves out the id. *)
Definition CreateJournalEntry (entry : JournalEntry)
  : Sql LedgerTables -> result JournalRow * Sql LedgerTables :=
  transact (fun c t =>
    match c_ids c 0, dateToPgtype (je_EffectiveDate entry), je_Metadata entry with
    | Some id, Some date, Some metadata =>
        let row := {| jr_ID := id; jr_TenantID := je_TenantID entry;
                      jr_IdempotencyKey := textToPgtype (je_IdempotencyKey entry);
                      jr_PostedAt := c_now c; jr_EffectiveDate := date;
                      jr_Description := je_Description entry;
                      jr_ReferenceType := textToPgtype (je_ReferenceType entry);
                      jr_ReferenceID := je_ReferenceID entry;
                      jr_ReversalOf := je_ReversalOf entry; jr_Metadata := metadata |} in
        if existsb (journalClash row) (lt_journal t) then Err duplicateKey
        else Ok (row, set_journal t (lt_journal t ++ [row])%list)
    | _, _, _ => Err notNull
    end).

Definition CreateEntryLine (entryID accountID : UUID) (line : EntryLine)
  : Sql LedgerTables -> result LineRow * Sql LedgerTables :=
  transact (fun c t =>
    match c_ids c 0 with
    | None => Err notNull
    | Some id =>
        let? amount := numeric28_8 (el_Amount line) in
        let row := {| lr_ID := id; lr_JournalEntryID := entryID; lr_AccountID := accountID;
                      lr_EntryType := el_EntryType line; lr_Amount := amount;
                      lr_Currency := el_Currency line;
                      lr_Description := textToPgtype (po_Description (el_Posting line));
                      lr_CreatedAt := c_now c |} in
        if negb (String.eqb (el_EntryType line) EntryTypeDebit
                 || String.eqb (el_EntryType line) EntryTypeCredit)
           || negb (IsPositive amount)
        then Err checkViolation
        else if existsb (fun r => bool_decide (lr_ID r = id) && (lr_CreatedAt r =? c_now c)) (lt_lines t)
        then Err duplicateKey
        else Ok (row, set_lines t (lt_lines t ++ [row])%list)
    end).

Definition UpsertBalanceSnapshot (s : Snapshot) : Sql LedgerTables -> result unit * Sql LedgerTables :=
  transact (fun _ t =>
    let? balance := numeric28_8 (bs_Balance s) in
    if existsb (fun a => bool_decide (ac_ID a = bs_AccountID s)) (lt_accounts t)
    then Ok (tt, set_snapshots t
                   (<[bs_AccountID s := {| bs_AccountID := bs_AccountID s; bs_Balance := balance;
                                           bs_LastEntryID := bs_LastEntryID s;
                                           bs_SnapVersion := bs_SnapVersion s |}]> (lt_snapshots t)))
    else Err (MsgErr "violates foreign key constraint")).

(** ** The backend *)

Definition lineOf (code : string) (r : LineRow) (description : string) : EntryLine :=
  {| el_ID := lr_ID r; el_AccountID := lr_AccountID r;
     el_Posting := {| po_AccountCode := code; po_EntryType := lr_EntryType r;
                      po_Amount := lr_Amount r; po_Currency := lr_Currency r;
                      po_Description := description |} |}.

Definition GetEntries (accountCode : string) (from to limit offset : Z) (d : Sql LedgerTables)
  : result (list EntryLine) * Sql LedgerTables :=
  match GetAccountByCode accountCode d with
  | (Err e, d) => (Err (WrapErr "resolving account" e), d)
  | (Ok account, d) =>
      let '(rows, d) := query (fun _ t =>
        limitOffset (int32 limit) (int32 offset)
          (orderDesc lr_CreatedAt
             (filter (fun r => lr_AccountID r = ac_ID account
                               /\ from <= lr_CreatedAt r < to) (lt_lines t)))) d in
      (wrap "querying entry lines"
         (let? rows := rows in
          Ok (map (fun r => lineOf accountCode r (default "" (lr_Description r))) rows)), d)
  end.

(** The inner join with accounts drops lines of unknown accounts. *)
Definition linesWithAccount (entryID : UUID) (t : LedgerTables) : list EntryLine :=
  omap (fun r =>
    match filter (fun a => ac_ID a = lr_AccountID r) (lt_accounts t) with
    | a :: _ => Some (lineOf (ac_Code a) r "")
    | [] => None
    end)
    (orderAsc lr_CreatedAt (filter (fun r => lr_JournalEntryID r = entryID) (lt_lines t))).

Definition GetJournalEntryWithLines (entryID : UUID) (d : Sql LedgerTables)
  : result JournalEntry * Sql LedgerTables :=
  match query (fun _ t => Ok (linesWithAccount entryID t)) d with
  | (Err e, d) => (Err (WrapErr "loading entry lines" e), d)
  | (Ok [], d) => (Err (WrapErr "entry not found" (DomainErr CodeAccountNotFound)), d)
  | (Ok lines, d) =>
      (Ok {| je_ID := entryID; je_TenantID := None; je_IdempotencyKey := "";
             je_PostedAt := zeroTime; je_EffectiveDate := zeroTime; je_Description := "";
             je_ReferenceType := ""; je_ReferenceID := None; je_ReversedBy := None;
             je_ReversalOf := None; je_Lines := lines; je_Metadata := None |}, d)
  end.

(** The loop over the lines: an unknown account skips its line. *)
Fixpoint syncLines (entryID : UUID) (lines : list EntryLine) (d : Sql LedgerTables)
  : result unit * Sql LedgerTables :=
  match lines with
  | [] => (Ok tt, d)
  | line :: rest =>
      let write accountID d :=
        match CreateEntryLine entryID accountID line d with
        | (Err e, d) => (Err (WrapErr "syncing entry line" e), d)
        | (Ok _, d) => syncLines entryID rest d
        end in
      if bool_decide (el_AccountID line = uuid_Nil)
         && negb (String.eqb (po_AccountCode (el_Posting line)) "")
      then
        match GetAccountByCode (po_AccountCode (el_Posting line)) d with
        | (Err _, d) => syncLines entryID rest d
        | (Ok account, d) => write (ac_ID account) d
        end
      else write (el_AccountID line) d
  end.

Definition SyncJournalEntry (entry : JournalEntry) (d : Sql LedgerTables)
  : result unit * Sql LedgerTables :=
  match CreateJournalEntry entry d with
  | (Err e, d) => (Err (WrapErr "syncing journal entry" e), d)
  | (Ok _, d) => syncLines (je_ID entry) (je_Lines entry) d
  end.

Definition SyncBalanceSnapshot (accountCode : string) (balance : Decimal)
    (lastEntryID : option UUID) (version : Z) (d : Sql LedgerTables)
  : result unit * Sql LedgerTables :=
  match GetAccountByCode accountCode d with
  | (Err e, d) => (Err (WrapErr "resolving account" e), d)
  | (Ok account, d) =>
      let '(r, d) := UpsertBalanceSnapshot
        {| bs_AccountID := ac_ID account; bs_Balance := balance; bs_LastEntryID := lastEntryID;
           bs_SnapVersion := version |} d in
      (wrap "upserting balance snapshot" r, d)
  end.
End PG.
End PG.

(** ** The sync consumer *)

Module Sync.
Section Sync.
Context {L : ThirdParty} {D : Type} (SyncJournalEntry : JournalEntry -> D -> result unit * D).

(** [sc_queue] is the buffered channel of capacity [sc_cap]; [sc_batch] is the
    local variable of [run]; [sc_running] is false once [run] has returned. *)
Record SyncConsumer := {
  sc_batchSize : Z; sc_cap : Z; sc_queue : list JournalEntry; sc_batch : list JournalEntry;
  sc_dropped : Z; sc_syncFailed : Z; sc_running : bool;
}.

Definition newSyncConsumer (batchSize queueSize : Z) : SyncConsumer :=
  {| sc_batchSize := batchSize; sc_cap := if queueSize <=? 0 then 50000 else queueSize;
     sc_queue := []; sc_batch := []; sc_dropped := 0; sc_syncFailed := 0; sc_running := true |}.

Definition set_queue (sc : SyncConsumer) q dropped : SyncConsumer :=
  {| sc_batchSize := sc_batchSize sc; sc_cap := sc_cap sc; sc_queue := q; sc_batch := sc_batch sc;
     sc_dropped := dropped; sc_syncFailed := sc_syncFailed sc; sc_running := sc_running sc |}.
Definition set_batch (sc : SyncConsumer) q b : SyncConsumer :=
  {| sc_batchSize := sc_batchSize sc; sc_cap := sc_cap sc; sc_queue := q; sc_batch := b;
     sc_dropped := sc_dropped sc; sc_syncFailed := sc_syncFailed sc; sc_running := sc_running sc |}.
Definition add_failed (sc : SyncConsumer) n : SyncConsumer :=
  {| sc_batchSize := sc_batchSize sc; sc_cap := sc_cap sc; sc_queue := sc_queue sc;
     sc_batch := sc_batch sc; sc_dropped := sc_dropped sc;
     sc_syncFailed := add64 (sc_syncFailed sc) n; sc_running := sc_running sc |}.
Definition stopped (sc : SyncConsumer) : SyncConsumer :=
  {| sc_batchSize := sc_batchSize sc; sc_cap := sc_cap sc; sc_queue := sc_queue sc; sc_batch := [];
     sc_dropped := sc_dropped sc; sc_syncFailed := sc_syncFailed sc; sc_running := false |}.

(** The non-blocking send: a full channel drops the entry. *)
Definition Enqueue (entry : JournalEntry) (sc : SyncConsumer) : SyncConsumer :=
  if Z.of_nat (length (sc_queue sc)) <? sc_cap sc
  then set_queue sc (sc_queue sc ++ [entry])%list (sc_dropped sc)
  else set_queue sc (sc_queue sc) (add64 (sc_dropped sc) 1).

Definition Pending (sc : SyncConsumer) : Z := Z.of_nat (length (sc_queue sc)).
Definition Dropped (sc : SyncConsumer) : Z := sc_dropped sc.

(** One pass over entries: those that were written, those that failed. *)
Fixpoint pass (entries : list JournalEntry) (d : D)
  : (list JournalEntry * list JournalEntry) * D :=
  match entries with
  | [] => (([], []), d)
  | entry :: rest =>
      let '(r, d) := SyncJournalEntry entry d in
      let '((synced, failed), d) := pass rest d in
      ((if is_ok r then (entry :: synced, failed) else (synced, entry :: failed)), d)
  end.

(** [n] more passes over what failed. *)
Fixpoint retryPasses (n : nat) (failed : list JournalEntry) (d : D)
  : (list JournalEntry * list JournalEntry) * D :=
  match n, failed with
  | O, _ | _, [] => (([], failed), d)
  | S n, _ =>
      let '((synced, failed), d) := pass failed d in
      let '((more, failed), d) := retryPasses n failed d in
      (((synced ++ more)%list, failed), d)
  end.

(** [flush]: what was written, the consumer, the database. *)
Definition flush (batch : list JournalEntry) (sc : SyncConsumer) (d : D)
  : list JournalEntry * SyncConsumer * D :=
  let '((synced, failed), d) := pass batch d in
  let '((more, failed), d) := retryPasses 2 failed d in
  let sc := match failed with
            | [] => sc
            | _ => fold_left (fun sc entry => Enqueue entry sc) failed
                     (add_failed sc (Z.of_nat (length failed)))
            end in
  ((synced ++ more)%list, sc, d).

(** What can happen to the consumer: an [Enqueue] of the service, and the
    three cases of the select in [run]. *)
Inductive SyncEvent := SEnqueue (entry : JournalEntry) | SReceive | STick | SDone.

Definition run (ev : SyncEvent) (sc : SyncConsumer) (d : D)
  : list JournalEntry * SyncConsumer * D :=
  match ev with
  | SEnqueue entry => ([], Enqueue entry sc, d)
  | SReceive =>
      match sc_running sc, sc_queue sc with
      | true, entry :: q =>
          let batch := (sc_batch sc ++ [entry])%list in
          if sc_batchSize sc <=? Z.of_nat (length batch)
          then flush batch (set_batch sc q []) d
          else ([], set_batch sc q batch, d)
      | _, _ => ([], sc, d)
      end
  | STick =>
      match sc_running sc, sc_batch sc with
      | true, _ :: _ => flush (sc_batch sc) (set_batch sc (sc_queue sc) []) d
      | _, _ => ([], sc, d)
      end
  | SDone =>
      if sc_running sc then
        match (sc_batch sc ++ sc_queue sc)%list with
        | [] => ([], stopped sc, d)
        | batch => flush batch (stopped (set_batch sc [] [])) d
        end
      else ([], sc, d)
  end.

(** A run of the consumer; collects what was written. *)
Fixpoint runs (evs : list SyncEvent) (sc : SyncConsumer) (d : D)
  : list JournalEntry * SyncConsumer * D :=
  match evs with
  | [] => ([], sc, d)
  | ev :: evs =>
      let '(synced, sc, d) := run ev sc d in
      let '(more, sc, d) := runs evs sc d in
      ((synced ++ more)%list, sc, d)
  end.
End Sync.
End Sync.
