(* ===== verification/LedgerBackend.v ===== *)
(** * ledger: the TigerBeetle backend and the batcher

    Models src/ledger/tigerbeetle.go (Module [TB]: amounts and identifiers,
    the greedy decomposition [buildTransfers] of a journal entry into
    transfers, the three calls of the backend) and src/ledger/batch.go (Module
    [Batch]: the write-ahead batches and the distribution of their results).

    TigerBeetle is a service: the class [TigerBeetle] is its client API, and
    [TigerBeetleLaws] states what its documentation promises: transfers
    connected by the linked flag are created together or not at all, a
    transfer that is already there is reported as such and not applied again,
    results name only failures, and the posted totals of an account are the
    sums of the transfers on record.  A call goes over a connection
    that can fail before or after the server has acted ([Sql]). *)

From Stdlib Require Import Ascii QArith.
From S2P Require Import Prelude ThirdParty GoNumbers Sql Money Deposits Transfer Outbox LedgerEntries.
Local Open Scope string_scope.
Local Open Scope Z_scope.

Module TB.

(** ** Identifiers and amounts *)

Definition ID128 : Type := list Z.

Definition AccountIDFromCode (code : string) : ID128 := take 16 (Sha256.Sum256 code).

Definition AmountScale : Z := 100000000.

Record TBAccount := {
  ta_ID : ID128; ta_UserData128 : ID128; ta_UserData64 : Z; ta_UserData32 : Z; ta_Ledger : Z;
  ta_Code : Z; ta_Flags : Z; ta_DebitsPending : Z; ta_DebitsPosted : Z; ta_CreditsPending : Z;
  ta_CreditsPosted : Z;
}.

Record TBTransfer := {
  tt_ID : ID128; tt_DebitAccountID : ID128; tt_CreditAccountID : ID128; tt_UserData128 : ID128;
  tt_UserData64 : Z; tt_UserData32 : Z; tt_Amount : Z; tt_Ledger : Z; tt_Code : Z; tt_Flags : Z;
}.

#[global] Instance TBTransfer_eq_dec : EqDecision TBTransfer.
Proof. solve_decision. Defined.

Record TBCreateResult := { cr_Index : Z; cr_Result : Z }.

Definition TBResultOK : Z := 0.
Definition TBResultExists : Z := 1.
Definition TBFlagLinked : Z := 1.

(** The zero value of [ID128]. *)
Definition zeroID : ID128 := replicate 16 0.

(** ** The service *)

(** The server's side of the three calls of [TBClient]. *)
Class TigerBeetle (T : Type) := {
  tb_createAccounts : list TBAccount -> T -> list TBCreateResult * T;
  tb_createTransfers : list TBTransfer -> T -> list TBCreateResult * T;
  tb_lookupAccounts : list ID128 -> T -> list TBAccount;
}.

Definition linked (t : TBTransfer) : bool := Z.testbit (tt_Flags t) 0.

(** A chain: every transfer but the last is linked to the next. *)
Fixpoint chain (c : list TBTransfer) : bool :=
  match c with
  | [] => false
  | [t] => negb (linked t)
  | t :: c => linked t && chain c
  end.

Definition failed (r : TBCreateResult) : bool :=
  negb (cr_Result r =? TBResultOK) && negb (cr_Result r =? TBResultExists).

Definition shift (n : nat) (r : TBCreateResult) : TBCreateResult :=
  {| cr_Index := Z.of_nat n + cr_Index r; cr_Result := cr_Result r |}.

(** What transfers post to one side of an account. *)
Definition debited (a : ID128) (ts : list TBTransfer) : Z :=
  foldr (fun t n => if bool_decide (tt_DebitAccountID t = a) then tt_Amount t + n else n) 0 ts.
Definition credited (a : ID128) (ts : list TBTransfer) : Z :=
  foldr (fun t n => if bool_decide (tt_CreditAccountID t = a) then tt_Amount t + n else n) 0 ts.

Class TigerBeetleLaws {T} (TBS : TigerBeetle T) := {
  (** The transfers on record, in the order of their creation, and the
      accounts with their ledgers. *)
  tb_transfers : T -> list TBTransfer;
  tb_accounts : T -> gmap ID128 Z;

  create_none t : tb_createTransfers [] t = ([], t);
  (** Chains are processed one after another. *)
  create_chains c rest t : chain c = true ->
    tb_createTransfers (c ++ rest) t =
    (let '(r1, t1) := tb_createTransfers c t in
     let '(r2, t2) := tb_createTransfers rest t1 in
     ((r1 ++ map (shift (length c)) r2)%list, t2));
  create_index c t r t' : tb_createTransfers c t = (r, t') ->
    Forall (fun x => 0 <= cr_Index x < Z.of_nat (length c)) r;
  (** Nothing on record ever goes away, and nothing else is added. *)
  create_grows c t : exists added, tb_transfers (tb_createTransfers c t).2 = (tb_transfers t ++ added)%list
    /\ forall x, x ∈ added -> x ∈ c;
  create_keeps_accounts c t : tb_accounts (tb_createTransfers c t).2 = tb_accounts t;
  (** A chain of new transfers with ids of their own is created as a whole, or
      refused as a whole with a reason. *)
  create_new c t r t' : chain c = true -> NoDup (map tt_ID c) ->
    (forall x y, x ∈ c -> y ∈ tb_transfers t -> tt_ID x <> tt_ID y) ->
    tb_createTransfers c t = (r, t') ->
    (r = [] /\ tb_transfers t' = (tb_transfers t ++ c)%list)
    \/ (existsb failed r = true /\ tb_transfers t' = tb_transfers t);
  (** It is created when its ids are distinct, its amounts positive, its
      accounts known, different and of the ledger, its only flag the link, and no
      total exceeds 128 bits. *)
  create_admissible c t : chain c = true ->
    (forall x y, x ∈ c -> y ∈ tb_transfers t -> tt_ID x <> tt_ID y) ->
    NoDup (map tt_ID c) ->
    (forall x, x ∈ c -> 0 < tt_Amount x < 2 ^ 64 /\ tt_DebitAccountID x <> tt_CreditAccountID x
       /\ 0 < tt_Ledger x /\ tb_accounts t !! tt_DebitAccountID x = Some (tt_Ledger x)
       /\ tb_accounts t !! tt_CreditAccountID x = Some (tt_Ledger x)
       /\ tt_Code x = 1 /\ (tt_Flags x = 0 \/ tt_Flags x = TBFlagLinked)) ->
    foldr (fun x n => tt_Amount x + n) 0 (tb_transfers t ++ c)%list < 2 ^ 128 ->
    (tb_createTransfers c t).1 = [];
  (** A chain that is on record already is reported and not applied again. *)
  create_again c t r t' : chain c = true -> (forall x, x ∈ c -> x ∈ tb_transfers t) ->
    tb_createTransfers c t = (r, t') ->
    existsb failed r = false /\ tb_transfers t' = tb_transfers t;
  accounts_created accs t r t' : tb_createAccounts accs t = (r, t') ->
    (forall a, a ∈ accs -> 0 < ta_Ledger a /\ ta_Code a = 1 /\ ta_Flags a = 0
       /\ (tb_accounts t !! ta_ID a = None \/ tb_accounts t !! ta_ID a = Some (ta_Ledger a))) ->
    (forall a b, a ∈ accs -> b ∈ accs -> ta_ID a = ta_ID b -> a = b) ->
    existsb failed r = false
    /\ forall a, a ∈ accs -> tb_accounts t' !! ta_ID a = Some (ta_Ledger a);
  accounts_keep accs t : tb_transfers (tb_createAccounts accs t).2 = tb_transfers t;
  accounts_grow accs t a l : tb_accounts t !! a = Some l ->
    tb_accounts (tb_createAccounts accs t).2 !! a = Some l;
  (** The client reads the low 64 bits of the posted totals. *)
  lookup_known a t l : tb_accounts t !! a = Some l ->
    exists acc, tb_lookupAccounts [a] t = [acc]
      /\ ta_DebitsPosted acc = debited a (tb_transfers t) mod 2 ^ 64
      /\ ta_CreditsPosted acc = credited a (tb_transfers t) mod 2 ^ 64;
  lookup_unknown a t : tb_accounts t !! a = None -> tb_lookupAccounts [a] t = [];
}.

Section Backend.
Context {L : ThirdParty} {T : Type} `{TBS : !TigerBeetle T}.

Definition generateTransferID (entryID : UUID) (index : Z) : ID128 :=
  take 16 (Sha256.Sum256 (uuid_String entryID +:+ ":" +:+ pretty index)).

(** [uint64(scaled.IntPart())]. *)
Definition DecimalToTBAmount (d : Decimal) : result Z :=
  let truncated := dTruncate 8 d in
  let scaled := dMul truncated (NewFromInt AmountScale) in
  if IsNegative scaled then Err (MsgErr "negative amount") else Ok (IntPart scaled mod 2 ^ 64).

Definition TBAmountToDecimal (amount : Z) : Decimal :=
  dDiv (NewFromInt (wrap64 amount)) (NewFromInt AmountScale).

(** ** The calls *)

Definition CreateAccounts (accounts : list TBAccount) : Sql T -> result (list TBCreateResult) * Sql T :=
  transact (fun _ t => Ok (tb_createAccounts accounts t)).
Definition CreateTransfers (transfers : list TBTransfer) : Sql T -> result (list TBCreateResult) * Sql T :=
  transact (fun _ t => Ok (tb_createTransfers transfers t)).
Definition LookupAccounts (ids : list ID128) : Sql T -> result (list TBAccount) * Sql T :=
  query (fun _ t => Ok (tb_lookupAccounts ids t)).

Definition newAccount (ledger : Z) (code : string) : TBAccount :=
  {| ta_ID := AccountIDFromCode code; ta_UserData128 := zeroID; ta_UserData64 := 0;
     ta_UserData32 := 0; ta_Ledger := ledger; ta_Code := 1; ta_Flags := 0; ta_DebitsPending := 0;
     ta_DebitsPosted := 0; ta_CreditsPending := 0; ta_CreditsPosted := 0 |}.

(** The loop over results: the first that is neither OK nor Exists. *)
Definition checkResults (tag : string) (rs : list TBCreateResult) : result unit :=
  if existsb failed rs then Err (MsgErr tag) else Ok tt.

Definition EnsureAccounts (ledger : Z) (codes : list string) (d : Sql T) : result unit * Sql T :=
  match codes with
  | [] => (Ok tt, d)
  | _ =>
      match CreateAccounts (map (newAccount ledger) codes) d with
      | (Err e, d) => (Err (WrapErr "creating TB accounts" e), d)
      | (Ok rs, d) => (checkResults "creating TB account" rs, d)
      end
  end.

(** ** Decomposition of an entry *)

Definition debitLines (lines : list EntryLine) : list EntryLine :=
  filter (fun l => el_EntryType l = EntryTypeDebit) lines.
Definition creditLines (lines : list EntryLine) : list EntryLine :=
  filter (fun l => el_EntryType l = EntryTypeCredit) lines.

Definition newTransfer (ledger : Z) (entry : JournalEntry) (idx : Z) (debit credit : EntryLine)
    (amount : Z) : TBTransfer :=
  {| tt_ID := generateTransferID (je_ID entry) idx;
     tt_DebitAccountID := AccountIDFromCode (po_AccountCode (el_Posting debit));
     tt_CreditAccountID := AccountIDFromCode (po_AccountCode (el_Posting credit));
     tt_UserData128 := AccountIDFromCode (je_IdempotencyKey entry);
     tt_UserData64 := 0; tt_UserData32 := 0; tt_Amount := amount; tt_Ledger := ledger;
     tt_Code := 1; tt_Flags := 0 |}.

(** The remainder after a match: the rest of the current line, or the amount
    of the next one (the old remainder when there is none). *)
Definition advance (lines : list EntryLine) (rem : Decimal) : list EntryLine * Decimal :=
  if IsZero rem
  then match tail lines with
       | l :: _ => (tail lines, el_Amount l)
       | [] => ([], rem)
       end
  else (lines, rem).

(** The loop; [debits] and [credits] are the lines from [di] and [ci] on.  Each
    round finishes a line, so fuel for all lines is enough. *)
Fixpoint matchLines (fuel : nat) (ledger : Z) (entry : JournalEntry) (idx : Z)
    (debits credits : list EntryLine) (dRem cRem : Decimal) : result (list TBTransfer) :=
  match debits, credits with
  | debit :: _, credit :: _ =>
      match fuel with
      | O => Err (MsgErr "out of fuel")
      | S fuel =>
          let amount := if LessThan cRem dRem then cRem else dRem in
          let? tbAmount := wrap "converting amount for pair" (DecimalToTBAmount amount) in
          let '(debits, dRem) := advance debits (dSub dRem amount) in
          let '(credits, cRem) := advance credits (dSub cRem amount) in
          let? rest := matchLines fuel ledger entry (idx + 1) debits credits dRem cRem in
          Ok (newTransfer ledger entry idx debit credit tbAmount :: rest)
      end
  | _, _ => Ok []
  end.

Definition link (t : TBTransfer) : TBTransfer :=
  {| tt_ID := tt_ID t; tt_DebitAccountID := tt_DebitAccountID t;
     tt_CreditAccountID := tt_CreditAccountID t; tt_UserData128 := tt_UserData128 t;
     tt_UserData64 := tt_UserData64 t; tt_UserData32 := tt_UserData32 t;
     tt_Amount := tt_Amount t; tt_Ledger := tt_Ledger t; tt_Code := tt_Code t;
     tt_Flags := Z.lor (tt_Flags t) TBFlagLinked |}.

(** Link all but the last. *)
Fixpoint linkAll (ts : list TBTransfer) : list TBTransfer :=
  match ts with
  | [] => []
  | [t] => [t]
  | t :: ts => link t :: linkAll ts
  end.

Definition firstAmount (lines : list EntryLine) : Decimal :=
  match lines with l :: _ => el_Amount l | [] => dZero end.

Definition buildTransfers (ledger : Z) (entry : JournalEntry) (debits credits : list EntryLine)
  : result (list TBTransfer) :=
  let? ts := matchLines (length debits + length credits) ledger entry 0 debits credits
               (firstAmount debits) (firstAmount credits) in
  Ok (linkAll ts).

Definition transfersOf (ledger : Z) (entry : JournalEntry) : result (list TBTransfer) :=
  buildTransfers ledger entry (debitLines (je_Lines entry)) (creditLines (je_Lines entry)).

Definition PostEntries (ledger : Z) (entry : JournalEntry) (d : Sql T)
  : result (list ID128) * Sql T :=
  match transfersOf ledger entry with
  | Err e => (Err e, d)
  | Ok [] => (Err (MsgErr "no transfers to create from entry"), d)
  | Ok transfers =>
      match CreateTransfers transfers d with
      | (Err e, d) => (Err (WrapErr "posting to TigerBeetle" e), d)
      | (Ok rs, d) =>
          (let? _ := checkResults "TB transfer failed" rs in Ok (map tt_ID transfers), d)
      end
  end.

Definition GetBalance (accountCode : string) (d : Sql T) : result Decimal * Sql T :=
  match LookupAccounts [AccountIDFromCode accountCode] d with
  | (Err e, d) => (Err (WrapErr "looking up TB account" e), d)
  | (Ok [], d) => (Err (WrapErr "account" (DomainErr CodeAccountNotFound)), d)
  | (Ok (acc :: _), d) =>
      (Ok (dSub (TBAmountToDecimal (ta_CreditsPosted acc)) (TBAmountToDecimal (ta_DebitsPosted acc))), d)
  end.
End Backend.
End TB.

(** ** The batcher *)

Module Batch.
Import TB.
Section Batch.
Context {L : ThirdParty} {T : Type} `{TBS : !TigerBeetle T}.

(** The slice of each entry in the batch: start and count. *)
Fixpoint entryMap (start : nat) (builds : list (result (list TBTransfer))) : list (nat * nat) :=
  match builds with
  | [] => []
  | Err _ :: rest => (O, O) :: entryMap start rest
  | Ok ts :: rest => (start, length ts) :: entryMap (start + length ts) rest
  end.

Definition allTransfers (builds : list (result (list TBTransfer))) : list TBTransfer :=
  builds ≫= (fun b => match b with Ok ts => ts | Err _ => [] end).

(** [failedIdx], filled in order, so that the last result of an index counts. *)
Definition failedIdx (rs : list TBCreateResult) : gmap Z Z :=
  fold_left (fun m r => if failed r then <[cr_Index r := cr_Result r]> m else m) rs ∅.

Definition entryErr (m : gmap Z Z) (et : nat * nat) : result unit :=
  if existsb (fun j => bool_decide (is_Some (m !! wrap32u (Z.of_nat j)))) (seq et.1 et.2)
  then Err (MsgErr "TB transfer failed") else Ok tt.

(** What arrives on the result channel of each entry.  The channel has room
    for one message, so an error of the build stage is the one that stays. *)
Definition flushBatch (ledger : Z) (items : list JournalEntry) (d : Sql T)
  : list (option (result unit)) * Sql T :=
  let builds := map (transfersOf ledger) items in
  let early (b : result (list TBTransfer)) (k : list TBTransfer -> option (result unit)) :=
    match b with Err e => Some (Err (WrapErr "building transfers" e)) | Ok ts => k ts end in
  match allTransfers builds with
  | [] => (map (fun b => early b (fun _ => None)) builds, d)
  | transfers =>
      match CreateTransfers transfers d with
      | (Err e, d) =>
          (map (fun b => early b (fun _ => Some (Err (WrapErr "batch TB write failed" e)))) builds, d)
      | (Ok rs, d) =>
          (zip_with (fun b et => early b (fun _ =>
             if (et.2 =? 0)%nat then None else Some (entryErr (failedIdx rs) et)))
             builds (entryMap 0 builds), d)
      end
  end.

(** What a call of [Submit] meets: the batcher may be stopped; its entry is
    flushed between other entries; and the context may end first. *)
Record SubmitEnv := {
  se_stopped : bool; se_before : list JournalEntry; se_after : list JournalEntry;
  se_cancelled : option error;
}.

Definition Submit (env : SubmitEnv) (ledger : Z) (entry : JournalEntry) (d : Sql T)
  : result unit * Sql T :=
  if se_stopped env then (Err (MsgErr "batcher stopped"), d)
  else
    let '(msgs, d) := flushBatch ledger (se_before env ++ entry :: se_after env) d in
    match se_cancelled env, msgs !! length (se_before env) with
    | Some e, _ => (Err (WrapErr "batch submit cancelled" e), d)
    | None, Some (Some r) => (r, d)
    | None, _ => (Err (MsgErr "blocked"), d)  (* no message: the caller waits for its context *)
    end.

(** ** Forming batches

    The mutable part of [Batcher] under its mutex.  A timer callback that has
    begun when its timer is stopped still runs, so callbacks are counted:
    [bt_timer] is whether the field holds a timer, [bt_armed] how many
    callbacks may still come. *)
Record Batcher := {
  bt_maxSize : Z; bt_pending : list JournalEntry; bt_timer : bool; bt_armed : nat;
  bt_done : bool; bt_flushed : list (list JournalEntry);
}.

Definition newBatcher (maxSize : Z) : Batcher :=
  {| bt_maxSize := maxSize; bt_pending := []; bt_timer := false; bt_armed := 0; bt_done := false;
     bt_flushed := [] |}.

(** The first half of [Submit], up to the wait. *)
Definition enqueue (entry : JournalEntry) (stopTimer : bool) (b : Batcher) : option Batcher :=
  if bt_done b then None
  else
    let pending := (bt_pending b ++ [entry])%list in
    if bt_maxSize b <=? Z.of_nat (length pending)
    then Some {| bt_maxSize := bt_maxSize b; bt_pending := []; bt_timer := false;
                 bt_armed := if bt_timer b && stopTimer then pred (bt_armed b) else bt_armed b;
                 bt_done := false; bt_flushed := (bt_flushed b ++ [pending])%list |}
    else Some {| bt_maxSize := bt_maxSize b; bt_pending := pending; bt_timer := true;
                 bt_armed := if bt_timer b then bt_armed b else S (bt_armed b);
                 bt_done := false; bt_flushed := bt_flushed b |}.

Definition flushPending (b : Batcher) (timer : bool) (armed : nat) (isDone : bool) : Batcher :=
  {| bt_maxSize := bt_maxSize b; bt_pending := []; bt_timer := timer; bt_armed := armed;
     bt_done := isDone;
     bt_flushed := match bt_pending b with
                   | [] => bt_flushed b
                   | _ => (bt_flushed b ++ [bt_pending b])%list
                   end |}.

Inductive bstep : Batcher -> list JournalEntry -> Batcher -> Prop :=
| StepSubmit entry stopTimer b b' :
    enqueue entry stopTimer b = Some b' -> bstep b [entry] b'
| StepFire b : (0 < bt_armed b)%nat ->
    bstep b [] (flushPending b false (pred (bt_armed b)) (bt_done b))
| StepStop stopTimer b : bt_done b = false ->
    bstep b [] (flushPending b (bt_timer b)
                  (if bt_timer b && stopTimer then pred (bt_armed b) else bt_armed b) true).

(** Runs, with the entries submitted. *)
Inductive bsteps : Batcher -> list JournalEntry -> Batcher -> Prop :=
| bsteps_refl b : bsteps b [] b
| bsteps_step b es b' es' b'' :
    bsteps b es b' -> bstep b' es' b'' -> bsteps b (es ++ es')%list b''.
End Batch.
End Batch.
