(* ===== verification/LedgerService.v ===== *)
(** * ledger: the service, and the worker that feeds it

    Models src/ledger/ledger.go (Module [Service]): [PostEntries] validates an
    entry, creates its accounts, writes it to TigerBeetle through batcher,
    bulkhead and retries, queues it for Postgres and announces it;
    [ReverseEntry] posts the mirrored entry; and
    src/node/worker/ledger_worker.go (Module [Worker]), which turns the
    ledger intents of the outbox into such calls. *)

From S2P Require Import Prelude ThirdParty Sql Money Deposits Transfer Outbox LedgerEntries LedgerSync LedgerBackend Resilience TreasuryWorker.
Local Open Scope string_scope.
Local Open Scope Z_scope.

Module Service.
Import TB Batch Sync.
Section Service.
Context {L : ThirdParty} {T : Type} `{TBS : !TigerBeetle T} {B : Type}.

(** The fields of [Service]; the clients that may be nil are options, and the
    publisher is a function on the bus [B]. *)
Record Service := {
  sv_tb : option (Sql T);
  sv_ledgerID : Z;
  sv_batching : bool;
  sv_bulkhead : bool;
  sv_pg : option (Sql PG.LedgerTables);
  sv_sync : option SyncConsumer;
  sv_publisher : option (Event UUID -> B -> result unit * B);
  sv_bus : B;
  sv_metrics : bool;
}.

Definition set_tb (s : Service) (d : Sql T) : Service :=
  {| sv_tb := Some d; sv_ledgerID := sv_ledgerID s; sv_batching := sv_batching s;
     sv_bulkhead := sv_bulkhead s; sv_pg := sv_pg s; sv_sync := sv_sync s;
     sv_publisher := sv_publisher s; sv_bus := sv_bus s; sv_metrics := sv_metrics s |}.
Definition set_pg (s : Service) (d : Sql PG.LedgerTables) : Service :=
  {| sv_tb := sv_tb s; sv_ledgerID := sv_ledgerID s; sv_batching := sv_batching s;
     sv_bulkhead := sv_bulkhead s; sv_pg := Some d; sv_sync := sv_sync s;
     sv_publisher := sv_publisher s; sv_bus := sv_bus s; sv_metrics := sv_metrics s |}.
Definition set_sync (s : Service) (sc : SyncConsumer) : Service :=
  {| sv_tb := sv_tb s; sv_ledgerID := sv_ledgerID s; sv_batching := sv_batching s;
     sv_bulkhead := sv_bulkhead s; sv_pg := sv_pg s; sv_sync := Some sc;
     sv_publisher := sv_publisher s; sv_bus := sv_bus s; sv_metrics := sv_metrics s |}.
Definition set_bus (s : Service) (b : B) : Service :=
  {| sv_tb := sv_tb s; sv_ledgerID := sv_ledgerID s; sv_batching := sv_batching s;
     sv_bulkhead := sv_bulkhead s; sv_pg := sv_pg s; sv_sync := sv_sync s;
     sv_publisher := sv_publisher s; sv_bus := b; sv_metrics := sv_metrics s |}.

(** What one call finds: the ids it draws, the clock, the context of each
    attempt and of each sleep, the random numbers, the state of the bulkhead
    that other calls share, and the company of the entry in its batch. *)
Record PostEnv := {
  pe_id : nat -> UUID;
  pe_now : Z;
  pe_ctxErr : nat -> option error;
  pe_interrupted : nat -> option error;
  pe_random : nat -> SpecFloat.spec_float;
  pe_ctxAtWrite : nat -> option error;
  pe_bulkhead : nat -> Bulkhead.Bulkhead;
  pe_submit : nat -> SubmitEnv;
}.

Definition orNew (new old : UUID) : UUID := if decide (old = uuid_Nil) then new else old.
Definition orTime (new old : Z) : Z := if old =? zeroTime then new else old.

Definition withLineID (env : PostEnv) (i : nat) (l : EntryLine) : EntryLine :=
  {| el_ID := orNew (pe_id env (1 + i)) (el_ID l); el_AccountID := el_AccountID l;
     el_Posting := el_Posting l |}.

(** Ids and times that are not set are assigned. *)
Definition assign (env : PostEnv) (e : JournalEntry) : JournalEntry :=
  let postedAt := orTime (pe_now env) (je_PostedAt e) in
  {| je_ID := orNew (pe_id env 0) (je_ID e); je_TenantID := je_TenantID e;
     je_IdempotencyKey := je_IdempotencyKey e; je_PostedAt := postedAt;
     je_EffectiveDate := orTime postedAt (je_EffectiveDate e);
     je_Description := je_Description e; je_ReferenceType := je_ReferenceType e;
     je_ReferenceID := je_ReferenceID e; je_ReversedBy := je_ReversedBy e;
     je_ReversalOf := je_ReversalOf e; je_Lines := imap (withLineID env) (je_Lines e);
     je_Metadata := je_Metadata e |}.

(** [tbWrite]. *)
Definition tbWrite (s : Service) (env : PostEnv) (entry : JournalEntry) (i : nat) (d : Sql T)
  : result unit * Sql T :=
  if sv_batching s then Submit (pe_submit env i) (sv_ledgerID s) entry d
  else
    let '(r, d) := TB.PostEntries (sv_ledgerID s) entry d in
    (let? _ := r in Ok tt, d).

(** One attempt, inside the bulkhead if there is one: [Bulkhead.Execute] runs
    the write only when it has a slot. *)
Definition attempt (s : Service) (env : PostEnv) (entry : JournalEntry) (i : nat) (d : Sql T)
  : result unit * Sql T :=
  if sv_bulkhead s then
    match pe_ctxAtWrite env i, Bulkhead.acquire (pe_bulkhead env i) with
    | None, Some _ => tbWrite s env entry i d
    | _, _ => ((Bulkhead.Execute (pe_ctxAtWrite env i) (Ok tt) (pe_bulkhead env i)).1, d)
    end
  else tbWrite s env entry i d.

(** The connection after [n] attempts, and the outcome of attempt [i]. *)
Fixpoint attempts (s : Service) (env : PostEnv) (entry : JournalEntry) (n : nat) (d : Sql T) : Sql T :=
  match n with
  | O => d
  | Datatypes.S n => (attempt s env entry n (attempts s env entry n d)).2
  end.

Definition outcome (s : Service) (env : PostEnv) (entry : JournalEntry) (d : Sql T) (i : nat)
  : option error :=
  match (attempt s env entry i (attempts s env entry i d)).1 with
  | Ok _ => None
  | Err e => Some e
  end.

Definition tbRetryConfig : Retry.RetryConfig :=
  {| Retry.Operation := "tigerbeetle-write"; Retry.MaxAttempts := 3;
     Retry.InitialDelay := 50 * 1000000; Retry.MaxDelay := 500 * 1000000;
     Retry.Multiplier := GoNumbers.f64_of_Z 0; Retry.JitterFactor := GoNumbers.f64_of_Z 0 |}.

(** The write with its retries: any error is retried while the context
    lives. *)
Definition writeTB (s : Service) (env : PostEnv) (entry : JournalEntry) (d : Sql T)
  : result unit * Sql T :=
  let '(r, n, _) := Retry.Retry tbRetryConfig
    (fun i _ => bool_decide (pe_ctxErr env i = None))
    {| Retry.fn := outcome s env entry d; Retry.ctxErr := pe_ctxErr env;
       Retry.interrupted := pe_interrupted env; Retry.random := pe_random env |} in
  (wrap (if sv_bulkhead s then "TB write (bulkhead)" else "TB write") r, attempts s env entry n d).

(** Queueing for Postgres; the gauge is set without a test for nil. *)
Definition enqueueSync (entry : JournalEntry) (s : Service) : result unit * Service :=
  match sv_sync s with
  | None => (Ok tt, s)
  | Some sc =>
      let s := set_sync s (Enqueue entry sc) in
      if sv_metrics s then (Ok tt, s) else (Err (PanicErr "nil pointer dereference"), s)
  end.

(** The event; a failure is only logged. *)
Definition announce (env : PostEnv) (entry : JournalEntry) (s : Service) : Service :=
  match sv_publisher s with
  | None => s
  | Some publish =>
      set_bus s (publish {| ev_ID := pe_id env (1 + length (je_Lines entry));
                            ev_TenantID := default uuid_Nil (je_TenantID entry);
                            ev_Type := "ledger.entry.posted"; ev_Timestamp := pe_now env;
                            ev_Data := je_ID entry |} (sv_bus s)).2
  end.

Definition PostEntries (env : PostEnv) (entry : JournalEntry) (s : Service)
  : result JournalEntry * Service :=
  match ValidateEntries (je_Lines entry) with
  | Err e => (Err (WrapErr "validating entries" e), s)
  | Ok _ =>
      let entry := assign env entry in
      match sv_tb s with
      | None => (Ok entry, s)
      | Some d =>
          let codes := map (fun l => po_AccountCode (el_Posting l)) (je_Lines entry) in
          match EnsureAccounts (sv_ledgerID s) codes d with
          | (Err e, d) => (Err (WrapErr "ensuring accounts" e), set_tb s d)
          | (Ok _, d) =>
              match writeTB s env entry d with
              | (Err e, d) => (Err e, set_tb s d)
              | (Ok _, d) =>
                  let! _ / s := enqueueSync entry (set_tb s d) in
                  (Ok entry, announce env entry s)
              end
          end
      end
  end.

Definition GetBalance (accountCode : string) (s : Service) : result Decimal * Service :=
  match sv_tb s with
  | None => (Ok dZero, s)
  | Some d => let '(r, d) := TB.GetBalance accountCode d in (wrap "getting balance" r, set_tb s d)
  end.

Definition GetEntries (accountCode : string) (from to limit offset : Z) (s : Service)
  : result (list EntryLine) * Service :=
  match sv_pg s with
  | None => (Ok [], s)
  | Some d =>
      let '(r, d) := PG.GetEntries accountCode from to limit offset d in
      (wrap "querying entries" r, set_pg s d)
  end.

Definition swapType (ty : string) : string :=
  if String.eqb ty EntryTypeDebit then EntryTypeCredit else EntryTypeDebit.

Definition reverseLine (newID : UUID) (description : string) (l : EntryLine) : EntryLine :=
  {| el_ID := newID; el_AccountID := el_AccountID l;
     el_Posting := {| po_AccountCode := po_AccountCode (el_Posting l);
                      po_EntryType := swapType (el_EntryType l); po_Amount := el_Amount l;
                      po_Currency := el_Currency l; po_Description := description |} |}.

(** [rid] are the ids [ReverseEntry] draws itself, for the entry and its
    lines. *)
Definition reversalOf (env : PostEnv) (rid : nat -> UUID) (entryID : UUID) (reason : string)
    (original : JournalEntry) : JournalEntry :=
  {| je_ID := rid 0%nat; je_TenantID := je_TenantID original;
     je_IdempotencyKey := "reversal:" +:+ uuid_String entryID; je_PostedAt := pe_now env;
     je_EffectiveDate := pe_now env;
     je_Description := "Reversal of " +:+ uuid_String entryID +:+ ": " +:+ reason;
     je_ReferenceType := "reversal"; je_ReferenceID := Some entryID; je_ReversedBy := None;
     je_ReversalOf := Some entryID;
     je_Lines := imap (fun i => reverseLine (rid (1 + i)%nat) ("Reversal: " +:+ reason))
                   (je_Lines original);
     je_Metadata := Some [("reason", reason)] |}.

Definition ReverseEntry (env : PostEnv) (rid : nat -> UUID) (entryID : UUID) (reason : string)
    (s : Service) : result JournalEntry * Service :=
  match sv_pg s with
  | None => (Err (MsgErr "postgres backend not available for reversal lookup"), s)
  | Some d =>
      match PG.GetJournalEntryWithLines entryID d with
      | (Err e, d) => (Err (WrapErr "loading entry for reversal" e), set_pg s d)
      | (Ok original, d) =>
          let '(r, s) := PostEntries env (reversalOf env rid entryID reason original) (set_pg s d) in
          (wrap "posting reversal" r, s)
      end
  end.

(** ** Construction *)

Record Config := {
  cf_tbLedgerID : Z; cf_batchWindow : Z; cf_batchMaxSize : Z; cf_syncBatchSize : Z;
  cf_syncQueueSize : Z; cf_bulkheadMax : Z;
}.

Definition defaultConfig : Config :=
  {| cf_tbLedgerID := 1; cf_batchWindow := 10 * 1000000; cf_batchMaxSize := 500;
     cf_syncBatchSize := 1000; cf_syncQueueSize := 50000; cf_bulkheadMax := 100 |}.

Definition NewService (cfg : Config) (tb : option (Sql T)) (pg : option (Sql PG.LedgerTables))
    (publisher : option (Event UUID -> B -> result unit * B)) (bus : B) (metrics : bool) : Service :=
  {| sv_tb := tb; sv_ledgerID := cf_tbLedgerID cfg;
     sv_batching := bool_decide (is_Some tb) && (0 <? cf_batchWindow cfg);
     sv_bulkhead := bool_decide (is_Some tb) && (0 <? cf_bulkheadMax cfg);
     sv_pg := pg;
     sv_sync := match pg with
                | Some _ => Some (newSyncConsumer (cf_syncBatchSize cfg) (cf_syncQueueSize cfg))
                | None => None
                end;
     sv_publisher := publisher; sv_bus := bus; sv_metrics := metrics |}.
End Service.
End Service.

(** ** The ledger worker *)

Module LedgerWorker.
Section LedgerWorker.
Context {L : ThirdParty} {J V : Type} (js : Json J V) (unmarshalPost : J -> result LedgerPostPayload).
Context {S : Type} (PostEntries : JournalEntry -> S -> result JournalEntry * S).

Definition castPost (p : Payload) : option LedgerPostPayload :=
  match p with PLedgerPost x => Some x | _ => None end.

(** [newv7] are the ids drawn for the entry and its lines, [now] the clock. *)
Definition lineOf (id : UUID) (ty description : string) (l : LedgerLineEntry) : EntryLine :=
  {| el_ID := id; el_AccountID := uuid_Nil;
     el_Posting := {| po_AccountCode := lle_AccountCode l; po_EntryType := ty;
                      po_Amount := lle_Amount l; po_Currency := lle_Currency l;
                      po_Description := description |} |}.

Definition postEntry (newv7 : nat -> UUID) (now : Z) (p : LedgerPostPayload) : JournalEntry :=
  {| je_ID := newv7 0%nat; je_TenantID := Some (lpp_TenantID p);
     je_IdempotencyKey := lpp_IdempotencyKey p; je_PostedAt := now; je_EffectiveDate := now;
     je_Description := lpp_Description p; je_ReferenceType := lpp_ReferenceType p;
     je_ReferenceID := Some (lpp_TransferID p); je_ReversedBy := None; je_ReversalOf := None;
     je_Lines := imap (fun i l => lineOf (newv7 (1 + i)%nat) (lle_EntryType l) (lle_Description l) l)
                   (lpp_Lines p);
     je_Metadata := None |}.

Definition reverseEntry (newv7 : nat -> UUID) (now : Z) (p : LedgerPostPayload) : JournalEntry :=
  {| je_ID := newv7 0%nat; je_TenantID := Some (lpp_TenantID p);
     je_IdempotencyKey := "reverse:" +:+ uuid_String (lpp_TransferID p); je_PostedAt := now;
     je_EffectiveDate := now; je_Description := "Reversal: " +:+ lpp_Description p;
     je_ReferenceType := "reversal"; je_ReferenceID := Some (lpp_TransferID p);
     je_ReversedBy := None; je_ReversalOf := Some (lpp_TransferID p);
     je_Lines := imap (fun i l => lineOf (newv7 (1 + i)%nat) (Service.swapType (lle_EntryType l))
                                    ("Reversal: " +:+ lle_Description l) l) (lpp_Lines p);
     je_Metadata := None |}.

(** A payload that cannot be decoded is acknowledged and forgotten. *)
Definition handleWith (build : LedgerPostPayload -> JournalEntry)
    (event : Event (EventData J V)) (s : S) : result unit * S :=
  match unmarshalEventData js castPost unmarshalPost event with
  | Err _ => (Ok tt, s)
  | Ok p =>
      match PostEntries (build p) s with
      | (Err e, s) => (Err (WrapErr "posting entry" e), s)
      | (Ok _, s) => (Ok tt, s)
      end
  end.

Definition handlePost (newv7 : nat -> UUID) (now : Z) := handleWith (postEntry newv7 now).
Definition handleReverse (newv7 : nat -> UUID) (now : Z) := handleWith (reverseEntry newv7 now).

Definition handleEvent (newv7 : nat -> UUID) (now : Z) (event : Event (EventData J V)) (s : S)
  : result unit * S :=
  if String.eqb (ev_Type _ event) IntentLedgerPost then handlePost newv7 now event s
  else if String.eqb (ev_Type _ event) IntentLedgerReverse then handleReverse newv7 now event s
  else (Ok tt, s).
End LedgerWorker.
End LedgerWorker.
