(* ===== verification/LedgerProps.v ===== *)
(** * ledger: what is posted

    The decomposition of a balanced entry into transfers is exact
    ([transfers_of_entry]); a post is applied once or not at all, whatever
    the retries and the batches it travels in ([posted_exactly_once]). *)

From Stdlib Require Import Ascii QArith Lqa.
From S2P Require Import Prelude ThirdParty GoNumbers Sql Money Deposits Transfer Outbox LedgerEntries LedgerSync LedgerBackend Resilience ResilienceProps TreasuryWorker LedgerService.
Local Open Scope string_scope.
Local Open Scope Z_scope.

Module LedgerProps.
Import TB Batch.

(** ** Amounts in units of the ledger *)

Section Units.
Context {L : ThirdParty} {LL : ThirdPartyLaws L}.

(** [d] is [z] units of 10^-8. *)
Definition units (d : Decimal) (z : Z) : Prop := (dVal d * inject_Z AmountScale == inject_Z z)%Q.

Definition unitsOf (d : Decimal) : Z := Qtrunc (dVal d * inject_Z AmountScale).

Lemma units_unitsOf d z : units d z -> unitsOf d = z.
Proof. unfold units, unitsOf. intros ->. apply Qtrunc_inject. Qed.

Lemma units_sub a b x y : units a x -> units b y -> units (dSub a b) (x - y).
Proof.
  unfold units. intros Ha Hb. rewrite dSub_val.
  assert ((dVal a - dVal b) * inject_Z AmountScale
          == dVal a * inject_Z AmountScale - dVal b * inject_Z AmountScale)%Q as -> by ring.
  rewrite Ha, Hb. unfold Qminus. by rewrite <- inject_Z_opp, <- inject_Z_plus.
Qed.

Lemma units_lt a b x y : units a x -> units b y -> LessThan a b = (x <? y).
Proof.
  unfold units. intros Ha Hb. unfold LessThan. rewrite dCmp_val.
  assert ((dVal a < dVal b)%Q <-> x < y) as Hlt.
  { rewrite (Zlt_Qlt x y), <- Ha, <- Hb. symmetry. apply Qmult_lt_r. done. }
  destruct (Qcompare_spec (dVal a) (dVal b)) as [H|H|H]; symmetry.
  - apply Z.ltb_ge, Z.le_ngt. intros Hx%Hlt. rewrite H in Hx. by apply Qlt_irrefl in Hx.
  - apply Z.ltb_lt. by apply Hlt.
  - apply Z.ltb_ge, Z.le_ngt. intros Hx%Hlt. lra.
Qed.

Lemma units_zero : units dZero 0.
Proof. unfold units, dZero. rewrite NewFromInt_val. ring. Qed.

Lemma units_isZero a x : units a x -> IsZero a = (x =? 0).
Proof.
  unfold units. intros Ha. unfold IsZero, dEqual. rewrite dCmp_val.
  assert ((dVal a == dVal dZero)%Q <-> x = 0) as He.
  { pose proof units_zero as H0. unfold units in H0. split; intros H.
    - rewrite <- inject_Z_injective, <- Ha, <- H0, H. ring.
    - apply (Qmult_inj_r _ _ (inject_Z AmountScale)); [done|]. by rewrite Ha, H0, H. }
  destruct (Qcompare_spec (dVal a) (dVal dZero)) as [H|H|H]; symmetry.
  - apply Z.eqb_eq. by apply He.
  - apply Z.eqb_neq. intros Hx. apply He in Hx. rewrite Hx in H. by apply Qlt_irrefl in H.
  - apply Z.eqb_neq. intros Hx. apply He in Hx. rewrite Hx in H. by apply Qlt_irrefl in H.
Qed.

(** In range the conversion is exact. *)
Lemma units_amount a z : units a z -> 0 <= z <= int64_max -> DecimalToTBAmount a = Ok z.
Proof.
  intros Ha Hz. unfold DecimalToTBAmount.
  assert (units (dTruncate 8 a) z) as Ht.
  { unfold units. rewrite dTruncate_val. unfold Qtrunc_places. unfold units in Ha.
    change (10 ^ Z.of_nat 8) with AmountScale. rewrite Ha, Qtrunc_inject.
    rewrite Qmake_inject by done. field. done. }
  assert (dVal (dMul (dTruncate 8 a) (NewFromInt AmountScale)) == inject_Z z)%Q as Hv
    by (by rewrite dMul_val, NewFromInt_val).
  assert (IsNegative (dMul (dTruncate 8 a) (NewFromInt AmountScale)) = false) as ->.
  { unfold IsNegative, LessThan. rewrite dCmp_val, Hv. unfold dZero. rewrite NewFromInt_val.
    destruct (Qcompare_spec (inject_Z z) (inject_Z 0)) as [?|H|?]; [done| |done].
    rewrite <- Zlt_Qlt in H. lia. }
  rewrite IntPart_val; rewrite Hv, Qtrunc_inject.
  - rewrite Z.mod_small; [done|]. int64. lia.
  - int64. lia.
Qed.

(** ** Postable entries *)

Definition accountOf (l : EntryLine) : ID128 := AccountIDFromCode (po_AccountCode (el_Posting l)).
Definition lineUnits (l : EntryLine) : Z := unitsOf (el_Amount l).

(** An amount of whole units that fits the conversion. *)
Definition good (l : EntryLine) : Prop :=
  units (el_Amount l) (lineUnits l) /\ 0 < lineUnits l <= int64_max.

Definition post (a : ID128) (ls : list EntryLine) : Z :=
  foldr (fun l n => if bool_decide (accountOf l = a) then lineUnits l + n else n) 0 ls.
Definition total (ls : list EntryLine) : Z := foldr (fun l n => lineUnits l + n) 0 ls.

(** The same with a remainder for the first line. *)
Definition postRem (a : ID128) (ls : list EntryLine) (z : Z) : Z :=
  match ls with
  | [] => 0
  | l :: ls => (if bool_decide (accountOf l = a) then z else 0) + post a ls
  end.
Definition totalRem (ls : list EntryLine) (z : Z) : Z :=
  match ls with [] => 0 | l :: ls => z + total ls end.

Lemma total_pos ls : Forall good ls -> 0 <= total ls /\ (ls <> [] -> 0 < total ls).
Proof.
  induction 1 as [|l ls [_ Hl] _ [IH _]]; simpl; [split; [lia|done]|]. split; [lia|]. intros _. lia.
Qed.

Lemma advance_spec l ls rem z :
  good l -> Forall good ls -> units rem z -> 0 <= z <= int64_max ->
  exists ls' rem' z', advance (l :: ls) rem = (ls', rem') /\ units rem' z' /\ Forall good ls'
    /\ (ls' <> [] -> 0 < z' <= int64_max)
    /\ (forall a, postRem a ls' z' = postRem a (l :: ls) z)
    /\ totalRem ls' z' = totalRem (l :: ls) z
    /\ (length ls' <= S (length ls))%nat /\ (z = 0 -> (length ls' <= length ls)%nat)
    /\ (forall x, x ∈ ls' -> x ∈ l :: ls).
Proof.
  intros Hl Hls Hu Hz. unfold advance. rewrite (units_isZero _ _ Hu).
  destruct (Z.eqb_spec z 0) as [->|Hne]; simpl.
  - destruct ls as [|l' ls]; simpl.
    + exists [], rem, 0. split_and!; try done; try lia; [intros a; simpl; case_bool_decide; lia|simpl; lia|set_solver].
    + apply Forall_cons in Hls as [[Hu' Hz'] Hls]. exists (l' :: ls), (el_Amount l'), (lineUnits l').
      split_and!; try done; simpl; try lia; try set_solver.
      * by constructor.
      * intros a. repeat case_bool_decide; lia.
  - exists (l :: ls), rem, z. split_and!; try done; simpl; try lia; by constructor.
Qed.

(** Both sides run out together. *)
Lemma totalRem_empty ls z : Forall good ls -> (ls <> [] -> 0 < z) -> totalRem ls z = 0 -> ls = [].
Proof.
  intros Hg Hz. destruct ls as [|l ls]; [done|]. simpl. apply Forall_cons in Hg as [_ Hg].
  pose proof (total_pos _ Hg). specialize (Hz ltac:(done)). lia.
Qed.

(** What the loop makes of the lines that are left. *)
Lemma matchLines_spec fuel ledger entry idx ds cs dRem cRem dz cz :
  Forall good ds -> Forall good cs -> units dRem dz -> units cRem cz ->
  (ds <> [] -> 0 < dz <= int64_max) -> (cs <> [] -> 0 < cz <= int64_max) ->
  totalRem ds dz = totalRem cs cz -> (length ds + length cs <= fuel)%nat ->
  exists ts, matchLines fuel ledger entry idx ds cs dRem cRem = Ok ts
    /\ (forall a, debited a ts = postRem a ds dz) /\ (forall a, credited a ts = postRem a cs cz)
    /\ map tt_ID ts = map (fun i => generateTransferID (je_ID entry) (idx + Z.of_nat i)) (seq 0 (length ts))
    /\ (length ts <= pred (length ds + length cs))%nat /\ (ds <> [] -> ts <> [])
    /\ (forall t, t ∈ ts -> tt_Flags t = 0 /\ 0 < tt_Amount t <= int64_max /\ tt_Ledger t = ledger
          /\ tt_Code t = 1 /\ exists d c, d ∈ ds /\ c ∈ cs /\ tt_DebitAccountID t = accountOf d
                              /\ tt_CreditAccountID t = accountOf c).
Proof.
  revert idx ds cs dRem cRem dz cz. induction fuel as [|fuel IH]; intros idx ds cs dRem cRem dz cz Hds Hcs Hd Hc Pd Pc Ht Hf.
  all: destruct ds as [|d ds];
    [assert (cs = []) as -> by (apply (totalRem_empty cs cz); naive_solver);
     exists []; split_and!; first [done|set_solver]|].
  all: destruct cs as [|c cs];
    [assert (d :: ds = []) by (apply (totalRem_empty (d :: ds) dz); naive_solver); done|].
  { simpl in Hf. lia. }
  specialize (Pd ltac:(done)). specialize (Pc ltac:(done)).
  apply Forall_cons in Hds as [Gd Hds], Hcs as [Gc Hcs]. cbn [matchLines].
  rewrite (units_lt _ _ _ _ Hc Hd).
  set (az := Z.min dz cz).
  assert (units (if cz <? dz then cRem else dRem) az) as Ha.
  { unfold az. destruct (Z.ltb_spec cz dz); [by rewrite Z.min_r by lia|by rewrite Z.min_l by lia]. }
  rewrite (units_amount _ _ Ha) by (unfold az; lia). cbn [wrap].
  destruct (advance_spec d ds _ (dz - az) Gd Hds (units_sub _ _ _ _ Hd Ha) ltac:(unfold az; lia))
    as (ds' & dr' & dz' & -> & Hd' & Gd' & Pd' & Sd & Td & Ld & Zd & Id).
  destruct (advance_spec c cs _ (cz - az) Gc Hcs (units_sub _ _ _ _ Hc Ha) ltac:(unfold az; lia))
    as (cs' & cr' & cz' & -> & Hc' & Gc' & Pc' & Sc & Tc & Lc & Zc & Ic).
  assert (dz - az = 0 \/ cz - az = 0) as Hz by (unfold az; lia).
  destruct (IH (idx + 1) ds' cs' dr' cr' dz' cz') as (ts & -> & Db & Cr & Ids & Len & _ & All); try done.
  { rewrite Td, Tc. simpl in *. lia. }
  { simpl in Hf. destruct Hz as [Hz|Hz]; [specialize (Zd Hz)|specialize (Zc Hz)]; lia. }
  eexists. split; [reflexivity|]. simpl. split_and!.
  - intros a. rewrite Db, Sd. simpl. unfold accountOf. repeat case_bool_decide; lia.
  - intros a. rewrite Cr, Sc. simpl. unfold accountOf. repeat case_bool_decide; lia.
  - f_equal; [f_equal; lia|]. rewrite Ids, <- fmap_S_seq, map_map. apply map_ext. intros i.
    f_equal. lia.
  - destruct Hz as [Hz|Hz]; [specialize (Zd Hz)|specialize (Zc Hz)]; lia.
  - done.
  - intros t [->|Hin]%elem_of_cons.
    + simpl. refine (conj eq_refl (conj _ (conj eq_refl (conj eq_refl _)))); [unfold az; lia|].
      exists d, c. set_solver.
    + destruct (All t Hin) as (H1 & H2 & H3 & H4 & d' & c' & ? & ? & ? & ?).
      refine (conj H1 (conj H2 (conj H3 (conj H4 _)))). exists d', c'. auto.
Qed.

(** ** Balanced entries *)

(** A line the ledger can post: a side, and an amount of whole units in
    range. *)
Definition sized (l : EntryLine) : Prop :=
  (el_EntryType l = EntryTypeDebit \/ el_EntryType l = EntryTypeCredit)
  /\ units (el_Amount l) (lineUnits l) /\ lineUnits l <= int64_max.

Definition sideUnits (c ty : string) (ls : list EntryLine) : Z :=
  foldr (fun l n => if bool_decide (el_Currency l = c) && bool_decide (el_EntryType l = ty)
                    then lineUnits l + n else n) 0 ls.

Definition sumOver (cs : list string) (f : string -> Z) : Z := foldr (fun c n => f c + n) 0 cs.

Lemma side_total_units c ty ls : Forall sized ls ->
  (side_total c ty ls * inject_Z AmountScale == inject_Z (sideUnits c ty ls))%Q.
Proof.
  induction 1 as [|l ls (_ & Hu & _) _ IH]; simpl; [ring|].
  destruct (_ && _); [|done]. unfold units in Hu. rewrite inject_Z_plus, <- IH, <- Hu. ring.
Qed.

Lemma balanced_units c ls : Forall sized ls -> balanced ls ->
  sideUnits c EntryTypeDebit ls = sideUnits c EntryTypeCredit ls.
Proof.
  intros Hs Hb. apply inject_Z_injective.
  by rewrite <- !side_total_units, (Hb c).
Qed.

Lemma sumOver_ext cs f g : (forall c, c ∈ cs -> f c = g c) -> sumOver cs f = sumOver cs g.
Proof.
  induction cs as [|c cs IH]; simpl; intros H; [done|]. rewrite IH by set_solver.
  by rewrite (H c) by set_solver.
Qed.

Lemma sumOver_bump cs c x f : NoDup cs -> c ∈ cs ->
  sumOver cs (fun c' => if bool_decide (c = c') then x + f c' else f c') = x + sumOver cs f.
Proof.
  induction 1 as [|c' cs Hn _ IH]; [by intros ?%elem_of_nil|]. intros [->|Hc]%elem_of_cons; simpl.
  - rewrite bool_decide_eq_true_2 by done.
    rewrite (sumOver_ext cs _ f); [lia|]. intros c Hc. rewrite bool_decide_eq_false_2; [done|]. by intros ->.
  - rewrite bool_decide_eq_false_2 by (by intros ->). rewrite IH by done. lia.
Qed.

Lemma total_by_currency cs ty ls : NoDup cs -> (forall l, l ∈ ls -> el_Currency l ∈ cs) ->
  total (filter (fun l => el_EntryType l = ty) ls) = sumOver cs (fun c => sideUnits c ty ls).
Proof.
  intros Hcs. induction ls as [|l ls IH]; intros Hl.
  - simpl. clear. induction cs as [|c cs IH]; simpl; lia.
  - rewrite filter_cons. specialize (IH ltac:(set_solver)). destruct (decide (el_EntryType l = ty)) as [Ht|Ht].
    + simpl. rewrite IH, <- (sumOver_bump cs (el_Currency l)) by set_solver.
      apply sumOver_ext. intros c _. rewrite (bool_decide_eq_true_2 (el_EntryType l = ty)) by done.
      by rewrite andb_true_r.
    + rewrite IH. apply sumOver_ext. intros c _. simpl.
      rewrite (bool_decide_eq_false_2 (el_EntryType l = ty)) by done. by rewrite andb_false_r.
Qed.

Lemma sides_equal ls : Forall sized ls -> balanced ls ->
  total (debitLines ls) = total (creditLines ls).
Proof.
  intros Hs Hb. set (cs := remove_dups (map el_Currency ls)).
  assert (forall l, l ∈ ls -> el_Currency l ∈ cs) as Hin.
  { intros l Hl. apply elem_of_remove_dups, list_elem_of_fmap. eauto. }
  unfold debitLines, creditLines. rewrite !(total_by_currency cs) by (done || apply NoDup_remove_dups).
  apply sumOver_ext. intros c _. by apply balanced_units.
Qed.

Lemma sides_length ls : Forall sized ls ->
  (length (debitLines ls) + length (creditLines ls) = length ls)%nat.
Proof.
  induction 1 as [|l ls [Ht _] _ IH]; [done|]. unfold debitLines, creditLines in *. rewrite !filter_cons.
  destruct Ht as [Ht|Ht]; rewrite Ht; simpl; lia.
Qed.

Lemma sized_good ls : (forall l, l ∈ ls -> (0 < dVal (el_Amount l))%Q) -> Forall sized ls -> Forall good ls.
Proof.
  intros Hp Hs. rewrite Forall_forall in *. intros l Hl. destruct (Hs l Hl) as (_ & Hu & Hm).
  split; [done|]. split; [|done]. unfold units in Hu. rewrite Zlt_Qlt, <- Hu. specialize (Hp l Hl).
  apply Qmult_lt_0_compat; [done|]. unfold AmountScale. by apply inject_Z_pos.
Qed.

Lemma good_filter ty ls : Forall good ls -> Forall good (filter (fun l => el_EntryType l = ty) ls).
Proof. rewrite !Forall_forall. intros H l [_ Hl]%list_elem_of_filter. auto. Qed.

(** ** Linking *)

Lemma linkAll_cons t t' ts : linkAll (t :: t' :: ts) = link t :: linkAll (t' :: ts).
Proof. done. Qed.

Lemma linkAll_sums ts a :
  debited a (linkAll ts) = debited a ts /\ credited a (linkAll ts) = credited a ts.
Proof.
  induction ts as [|t [|t' ts] IH]; [done|done|]. rewrite linkAll_cons. simpl in *.
  destruct IH as [-> ->]. done.
Qed.

Lemma linkAll_ids ts : map tt_ID (linkAll ts) = map tt_ID ts.
Proof. induction ts as [|t [|t' ts] IH]; [done|done|]. rewrite linkAll_cons. simpl in *. by rewrite IH. Qed.

Lemma linkAll_chain ts : ts <> [] -> (forall t, t ∈ ts -> tt_Flags t = 0) -> chain (linkAll ts) = true.
Proof.
  induction ts as [|t [|t' ts] IH]; intros Hn Hf; [done| |].
  - simpl. unfold linked. by rewrite Hf by set_solver.
  - specialize (IH ltac:(done) ltac:(set_solver)). rewrite linkAll_cons.
    assert (linked (link t) = true) as Hl by (unfold linked, link; simpl; by rewrite Hf by set_solver).
    destruct (linkAll (t' :: ts)) as [|u us]; [done|].
    change (linked (link t) && chain (u :: us) = true). by rewrite Hl, IH.
Qed.

Lemma linkAll_elem ts t : t ∈ linkAll ts -> exists t0, t0 ∈ ts /\ (t = t0 \/ t = link t0).
Proof.
  induction ts as [|t0 [|t' ts] IH]; intros Ht; [set_solver|set_solver|].
  rewrite linkAll_cons in Ht. apply elem_of_cons in Ht as [->|Ht]; [exists t0; set_solver|].
  destruct (IH Ht) as (t1 & ? & ?). exists t1. set_solver.
Qed.

(** What the transfers of an entry are: a chain of fewer transfers than lines
    that debits and credits every account with exactly its lines. *)
Record decomposition (ledger : Z) (entry : JournalEntry) (ts : list TBTransfer) : Prop := {
  dc_chain : chain ts = true;
  dc_length : (length ts < length (je_Lines entry))%nat;
  dc_debits : forall a, debited a ts = post a (debitLines (je_Lines entry));
  dc_credits : forall a, credited a ts = post a (creditLines (je_Lines entry));
  dc_ids : map tt_ID ts = map (fun i => generateTransferID (je_ID entry) (Z.of_nat i)) (seq 0 (length ts));
  dc_each : forall t, t ∈ ts -> 0 < tt_Amount t <= int64_max /\ tt_Ledger t = ledger /\ tt_Code t = 1
    /\ (tt_Flags t = 0 \/ tt_Flags t = TBFlagLinked)
    /\ exists d c, d ∈ debitLines (je_Lines entry) /\ c ∈ creditLines (je_Lines entry)
         /\ tt_DebitAccountID t = accountOf d /\ tt_CreditAccountID t = accountOf c;
}.

Lemma firstAmount_rem ls : Forall good ls ->
  exists z, units (firstAmount ls) z /\ (ls <> [] -> 0 < z <= int64_max)
    /\ (forall a, postRem a ls z = post a ls) /\ totalRem ls z = total ls.
Proof.
  destruct ls as [|l ls]; intros Hg; [exists 0; split; [apply units_zero|done]|].
  apply Forall_cons in Hg as [[Hu Hz] _]. exists (lineUnits l). split_and!; try done.
  intros a. simpl. case_bool_decide; lia.
Qed.

(** What the decomposition needs of the lines, whatever their ids. *)
Definition postable (ls : list EntryLine) : Prop :=
  (2 <= length ls)%nat /\ (forall l, l ∈ ls -> (0 < dVal (el_Amount l))%Q) /\ balanced ls
  /\ Forall sized ls.

Lemma valid_postable ls : ValidateEntries ls = Ok tt -> Forall sized ls -> postable ls.
Proof. by intros [H2 Hp _ _ Hb]%ValidateEntries_iff Hs. Qed.

Lemma postable_transfers ledger entry : postable (je_Lines entry) ->
  exists ts, transfersOf ledger entry = Ok ts /\ decomposition ledger entry ts.
Proof.
  intros (H2 & Hp & Hb & Hs). unfold transfersOf, buildTransfers.
  pose proof (sized_good _ Hp Hs) as Hg. pose proof (sides_equal _ Hs Hb) as Ht.
  pose proof (sides_length _ Hs) as Hlen.
  assert (Forall good (debitLines (je_Lines entry))) as Gd by (by apply good_filter).
  assert (Forall good (creditLines (je_Lines entry))) as Gc by (by apply good_filter).
  set (ds := debitLines _) in *. set (cs := creditLines _) in *.
  destruct (firstAmount_rem ds Gd) as (dz & Ud & Pd & Sd & Td).
  destruct (firstAmount_rem cs Gc) as (cz & Uc & Pc & Sc & Tc).
  destruct (matchLines_spec (length ds + length cs) ledger entry 0 ds cs _ _ dz cz Gd Gc Ud Uc Pd Pc)
    as (ts & -> & Db & Cr & Ids & Len & Hne & All); [congruence|lia|].
  assert (ds <> []) as Hds.
  { intros E. rewrite E in *. simpl in *. destruct cs as [|c cs']; [simpl in *; lia|].
    pose proof (total_pos _ Gc) as [_ H]. specialize (H ltac:(done)). simpl in *. lia. }
  eexists. split; [reflexivity|]. constructor.
  - apply linkAll_chain; [by apply Hne|]. intros t Hin. by apply All.
  - rewrite <- (length_map tt_ID), linkAll_ids, length_map. lia.
  - intros a. destruct (linkAll_sums ts a) as [-> _]. by rewrite Db, Sd.
  - intros a. destruct (linkAll_sums ts a) as [_ ->]. by rewrite Cr, Sc.
  - rewrite linkAll_ids, Ids. rewrite <- (length_map tt_ID (linkAll ts)), linkAll_ids, length_map. done.
  - intros t (t0 & Hin & Hcase)%linkAll_elem. destruct (All t0 Hin) as (Hf & Ha & Hl & Hc & Hex).
    destruct Hcase as [->| ->]; simpl.
    + exact (conj Ha (conj Hl (conj Hc (conj (or_introl Hf) Hex)))).
    + refine (conj Ha (conj Hl (conj Hc (conj (or_intror _) Hex)))). by rewrite Hf.
Qed.

(** Whatever the entry, its transfers form a chain. *)
Lemma matchLines_flags fuel ledger entry idx ds cs dr cr ts :
  matchLines fuel ledger entry idx ds cs dr cr = Ok ts -> forall t, t ∈ ts -> tt_Flags t = 0.
Proof.
  revert idx ds cs dr cr ts. induction fuel as [|fuel IH]; intros idx ds cs dr cr ts; simpl;
    destruct ds, cs; try (by intros [= <-] ? ?%elem_of_nil); try done.
  destruct (wrap _ _); [|done]. destruct (advance _ _), (advance _ _).
  destruct (matchLines _ _ _ _ _ _ _ _) eqn:E; [|done]. intros [= <-] t [->|Ht]%elem_of_cons; [done|].
  by eapply IH.
Qed.

Lemma transfersOf_chain ledger entry ts : transfersOf ledger entry = Ok ts -> ts <> [] -> chain ts = true.
Proof.
  unfold transfersOf, buildTransfers. destruct (matchLines _ _ _ _ _ _ _ _) as [us|] eqn:E; [|done].
  intros [= <-] Hn. apply linkAll_chain; [by intros ->|]. by eapply matchLines_flags.
Qed.
End Units.

(** ** What a batch does *)

Section Posting.
Context {L : ThirdParty} {LL : ThirdPartyLaws L} {T : Type} `{TBS : !TigerBeetle T} {TBL : TigerBeetleLaws TBS}.
Implicit Types c : list TBTransfer.

(** The part of the record that carries the ids of [c]. *)
Definition own c (t : T) : list TBTransfer :=
  filter (fun x => tt_ID x ∈ map tt_ID c) (tb_transfers t).

(** Transfers that do not touch the ids of [c]. *)
Definition apart c (m : list TBTransfer) : Prop := forall x, x ∈ m -> tt_ID x ∉ map tt_ID c.

Lemma own_grow c t t' added : tb_transfers t' = (tb_transfers t ++ added)%list -> apart c added ->
  own c t' = own c t.
Proof.
  intros Ht Ha. unfold own. rewrite Ht, filter_app.
  assert (filter (fun x => tt_ID x ∈ map tt_ID c) added = []) as ->; [|by rewrite app_nil_r].
  apply elem_of_nil_inv. intros x [Hx Hin]%list_elem_of_filter. by apply (Ha x).
Qed.

Lemma create_apart c m t : apart c m -> own c (tb_createTransfers m t).2 = own c t.
Proof.
  intros Ha. destruct (create_grows m t) as (added & Ht & Hin). eapply own_grow; [done|].
  intros x Hx. by apply Ha, Hin.
Qed.

(** The chain itself: it ends up on record as it is, or not at all. *)
Lemma create_own c t r t' : chain c = true -> NoDup (map tt_ID c) ->
  own c t = [] \/ own c t = c -> tb_createTransfers c t = (r, t') ->
  (own c t' = [] \/ own c t' = c) /\ (own c t = c -> own c t' = c)
  /\ (existsb failed r = false -> own c t' = c).
Proof.
  intros Hch Hnd Ho E. destruct Ho as [Ho|Ho].
  - assert (forall x y, x ∈ c -> y ∈ tb_transfers t -> tt_ID x <> tt_ID y) as Hnew.
    { intros x y Hx Hy Heq. apply (not_elem_of_nil y). rewrite <- Ho. apply list_elem_of_filter.
      split; [|done]. apply list_elem_of_fmap. eauto. }
    destruct (create_new c t r t' Hch Hnd Hnew E) as [[-> Ht]|[Hf Ht]].
    + assert (own c t' = c) as Hc; [|by rewrite Hc; auto].
      unfold own in *. rewrite Ht, filter_app, Ho. simpl.
      apply filter_keeps. intros x Hx. apply list_elem_of_fmap. eauto.
    + assert (own c t' = own c t) as Hc by (unfold own; by rewrite Ht). rewrite Hc, Ho, Hf. split_and!; [by left|done|done].
  - destruct (create_again c t r t' Hch) as [Hf Ht]; [|done|].
    { intros x Hx. rewrite <- Ho in Hx. unfold own in Hx. by apply list_elem_of_filter in Hx as [_ Hx]. }
    assert (own c t' = own c t) as Hc by (unfold own; by rewrite Ht). rewrite Hc, Ho. auto.
Qed.

Lemma shift_shift n m r : shift n (shift m r) = shift (n + m) r.
Proof. unfold shift. simpl. f_equal. lia. Qed.

Lemma existsb_shift n rs : existsb failed (map (shift n) rs) = existsb failed rs.
Proof. induction rs as [|r rs IH]; simpl; [done|]. by rewrite IH. Qed.

Definition chained (b : result (list TBTransfer)) : Prop :=
  forall ts, b = Ok ts -> ts <> [] -> chain ts = true.

(** Entries in a batch are processed one after another. *)
Lemma create_batch builds rest t : Forall chained builds ->
  tb_createTransfers (allTransfers builds ++ rest) t =
  (let '(r1, t1) := tb_createTransfers (allTransfers builds) t in
   let '(r2, t2) := tb_createTransfers rest t1 in
   ((r1 ++ map (shift (length (allTransfers builds))) r2)%list, t2)).
Proof.
  intros Hch. revert t. induction Hch as [|b builds Hb Hch IH]; intros t.
  { simpl. rewrite create_none. destruct (tb_createTransfers rest t) as [r2 t2]. f_equal.
    unfold shift. rewrite <- (map_id r2) at 1. apply map_ext. by intros []. }
  unfold allTransfers in *. rewrite bind_cons. destruct b as [ts|e]; [|apply IH].
  destruct ts as [|x ts]; [apply IH|]. specialize (Hb _ eq_refl ltac:(done)).
  rewrite <- (assoc_L (++)). rewrite !create_chains by done.
  destruct (tb_createTransfers (x :: ts) t) as [r1 t1]. rewrite IH.
  destruct (tb_createTransfers (builds ≫= _) t1) as [r2 t2].
  destruct (tb_createTransfers rest t2) as [r3 t3].
  rewrite map_app, map_map, <- (assoc_L (++)), length_app. do 3 f_equal.
  apply map_ext. intros r. apply shift_shift.
Qed.

Lemma failedIdx_lookup rs k :
  is_Some (failedIdx rs !! k) <-> exists r, r ∈ rs /\ failed r = true /\ cr_Index r = k.
Proof.
  unfold failedIdx. assert (forall m : gmap Z Z, is_Some (fold_left (fun m r => if failed r then <[cr_Index r := cr_Result r]> m else m) rs m !! k)
    <-> is_Some (m !! k) \/ exists r, r ∈ rs /\ failed r = true /\ cr_Index r = k) as H.
  2:{ rewrite H, lookup_empty. split; [intros [[? [=]]|?]; done|by right]. }
  induction rs as [|r rs IH]; intros m; simpl.
  { split; [by left|]. intros [?|(r & ?%elem_of_nil & _)]; done. }
  rewrite IH. setoid_rewrite elem_of_cons. destruct (failed r) eqn:Ef.
  - rewrite lookup_insert_is_Some'. naive_solver.
  - split; [naive_solver|]. intros [?|(r' & [->|?] & ? & ?)]; [naive_solver|congruence|naive_solver].
Qed.

(** The slice of an entry collects exactly the failures of its own chain. *)
Lemma entryErr_own (A c Z0 : list TBTransfer) t rA tA rc tc rZ tZ :
  tb_createTransfers A t = (rA, tA) -> tb_createTransfers c tA = (rc, tc) ->
  tb_createTransfers Z0 tc = (rZ, tZ) -> Z.of_nat (length A + length c) <= 2 ^ 32 ->
  entryErr (failedIdx (rA ++ map (shift (length A)) (rc ++ map (shift (length c)) rZ)))
    (length A, length c) = checkResults "TB transfer failed" rc.
Proof.
  intros EA Ec EZ Hsz. apply create_index in EA, Ec, EZ. unfold entryErr, checkResults. simpl.
  assert (existsb (fun j => bool_decide (is_Some (failedIdx (rA ++ map (shift (length A)) (rc ++ map (shift (length c)) rZ)) !! wrap32u (Z.of_nat j))))
            (seq (length A) (length c)) = existsb failed rc) as ->; [|done].
  apply eq_true_iff_eq. rewrite !existsb_exists. setoid_rewrite <- list_elem_of_In. split.
  - intros (j & Hj%elem_of_seq & Hk). apply bool_decide_eq_true in Hk.
    apply failedIdx_lookup in Hk as (r & Hr & Hf & Hi). unfold wrap32u in Hi. rewrite Z.mod_small in Hi by lia.
    rewrite Forall_forall in EA, Ec, EZ. rewrite map_app in Hr.
    apply elem_of_app in Hr as [Hr|[Hr|Hr]%elem_of_app].
    + specialize (EA _ Hr). simpl in EA. lia.
    + apply list_elem_of_fmap in Hr as (r' & -> & Hr'). exists r'. by unfold failed in *.
    + rewrite list_elem_of_fmap in Hr. destruct Hr as (r1 & -> & Hr1).
      apply list_elem_of_fmap in Hr1 as (r2 & -> & Hr2). specialize (EZ _ Hr2). simpl in *. lia.
  - intros (r & Hr & Hf). rewrite Forall_forall in Ec. specialize (Ec _ Hr). simpl in Ec.
    exists (length A + Z.to_nat (cr_Index r))%nat. split; [apply elem_of_seq; lia|].
    apply bool_decide_eq_true, failedIdx_lookup. exists (shift (length A) r). split_and!.
    + rewrite map_app. apply elem_of_app. right. apply elem_of_app. left. apply list_elem_of_fmap. eauto.
    + by unfold failed in *.
    + simpl. unfold wrap32u. rewrite Z.mod_small by lia. lia.
Qed.

Lemma entryMap_at n before b after :
  entryMap n (before ++ b :: after) !! length before
  = Some (match b with Ok c => ((n + length (allTransfers before))%nat, length c) | Err _ => (O, O) end).
Proof.
  revert n. induction before as [|b' before IH]; intros n; simpl.
  - destruct b; simpl; [|done]. by rewrite Nat.add_0_r.
  - destruct b' as [ts|e]; simpl.
    + rewrite IH. destruct b; [|done]. rewrite length_app. do 2 f_equal. lia.
    + by rewrite IH.
Qed.

(** The chain is on record completely or not at all, stays when it is there,
    and is there when the write is reported as done. *)
Definition advances c (t t' : T) (done : bool) : Prop :=
  (own c t' = [] \/ own c t' = c) /\ (own c t = c -> own c t' = c) /\ (done = true -> own c t' = c).

Lemma advances_refl c t : own c t = [] \/ own c t = c -> advances c t t false.
Proof. intros Ho. split; [done|]. by split. Qed.

(** The company of an entry in a batch does not use its ids, and the batch
    fits the 32-bit indices of the results. *)
Definition company (ledger : Z) c (before after : list JournalEntry) : Prop :=
  (forall e ts, e ∈ (before ++ after)%list -> transfersOf ledger e = Ok ts -> apart c ts)
  /\ Z.of_nat (length (allTransfers (map (transfersOf ledger) before)) + length c) <= 2 ^ 32.

Lemma allTransfers_apart ledger c es :
  (forall e ts, e ∈ es -> transfersOf ledger e = Ok ts -> apart c ts) ->
  apart c (allTransfers (map (transfersOf ledger) es)).
Proof.
  intros H x Hx. apply list_elem_of_bind in Hx as (b & Hx & Hb).
  apply list_elem_of_fmap in Hb as (e & -> & He). destruct (transfersOf ledger e) as [ts|] eqn:E; [|set_solver].
  by apply (H e ts).
Qed.

Lemma map_chained ledger es : Forall chained (map (transfersOf ledger) es).
Proof.
  apply Forall_forall. intros b (e & -> & _)%list_elem_of_fmap ts. apply transfersOf_chain.
Qed.

(** The server's part of a batch, seen from one of its entries. *)
Lemma batch_own ledger before entry after c t r t' :
  transfersOf ledger entry = Ok c -> c <> [] -> NoDup (map tt_ID c) -> company ledger c before after ->
  own c t = [] \/ own c t = c ->
  tb_createTransfers (allTransfers (map (transfersOf ledger) (before ++ entry :: after)%list)) t = (r, t') ->
  advances c t t' (is_ok (entryErr (failedIdx r)
    (length (allTransfers (map (transfersOf ledger) before)), length c))).
Proof.
  intros Ec Hc Hnd [Hap Hsz] Ho E. pose proof (transfersOf_chain _ _ _ Ec Hc) as Hch.
  set (A := allTransfers (map (transfersOf ledger) before)) in *.
  set (Z0 := allTransfers (map (transfersOf ledger) after)).
  assert (allTransfers (map (transfersOf ledger) (before ++ entry :: after)%list) = (A ++ c ++ Z0)%list) as EA.
  { unfold allTransfers, A, Z0. rewrite map_app, bind_app. simpl. by rewrite Ec. }
  rewrite EA in E. unfold A in E. rewrite create_batch in E by apply map_chained. fold A in E.
  destruct (tb_createTransfers A t) as [rA tA] eqn:E1. rewrite create_chains in E by done.
  destruct (tb_createTransfers c tA) as [rc tc] eqn:E2.
  destruct (tb_createTransfers Z0 tc) as [rZ tZ] eqn:E3. simplify_eq E. intros <- <-.
  rewrite (entryErr_own A c Z0 t rA tA rc tc rZ tZ E1 E2 E3 Hsz).
  assert (own c tA = own c t) as HA.
  { change tA with (rA, tA).2. rewrite <- E1. apply create_apart, allTransfers_apart. set_solver. }
  assert (own c tZ = own c tc) as HZ.
  { change tZ with (rZ, tZ).2. rewrite <- E3. apply create_apart, allTransfers_apart. set_solver. }
  destruct (create_own c tA rc tc Hch Hnd) as (H1 & H2 & H3); [by rewrite HA|done|].
  unfold advances. rewrite HZ. rewrite HA in H2. split_and!; [done|done|].
  unfold checkResults. destruct (existsb failed rc); [done|]. auto.
Qed.

Lemma transact_ok_inv {A} (g : T -> A * T) (d : Sql T) r d' :
  transact (fun _ t => Ok (g t)) d = (r, d') ->
  (sq_tables d' = sq_tables d /\ is_ok r = false)
  \/ (sq_tables d' = (g (sq_tables d)).2 /\ (r = Ok (g (sq_tables d)).1 \/ is_ok r = false)).
Proof.
  intros [(H & Hr & _)|(a & [= Ha] & Hr)]%transact_inv; [by left|]. right.
  rewrite Ha. simpl. done.
Qed.

Lemma flush_own ledger before entry after d msgs d' c :
  transfersOf ledger entry = Ok c -> c <> [] -> NoDup (map tt_ID c) -> company ledger c before after ->
  own c (sq_tables d) = [] \/ own c (sq_tables d) = c ->
  flushBatch ledger (before ++ entry :: after)%list d = (msgs, d') ->
  advances c (sq_tables d) (sq_tables d')
    (match msgs !! length before with Some (Some r) => is_ok r | _ => false end).
Proof.
  intros Ec Hc Hnd Hco Ho. unfold flushBatch. set (builds := map (transfersOf ledger) (before ++ entry :: after)%list).
  assert (builds !! length before = Some (Ok c)) as Hb.
  { unfold builds. rewrite list_lookup_fmap, list_lookup_middle by done. simpl. by rewrite Ec. }
  assert (allTransfers builds <> []) as Hne.
  { intros H. destruct c as [|x c]; [done|]. apply (not_elem_of_nil x). rewrite <- H.
    apply list_elem_of_bind. exists (Ok (x :: c)). split; [set_solver|]. by eapply list_elem_of_lookup_2. }
  destruct (allTransfers builds) as [|x xs] eqn:EB; [done|]. rewrite <- EB in *.
  destruct (CreateTransfers (allTransfers builds) d) as [r d1] eqn:E.
  destruct (tb_createTransfers (allTransfers builds) (sq_tables d)) as [rs t'] eqn:ET.
  pose proof (batch_own ledger before entry after c (sq_tables d) rs t' Ec Hc Hnd Hco Ho ET) as (A1 & A2 & A3).
  apply transact_ok_inv in E as [[Hd Hr]|[Hd Hr]].
  - destruct r; [done|]. intros [= <- <-]. rewrite Hd. rewrite list_lookup_fmap, Hb. simpl.
    by apply advances_refl.
  - rewrite ET in Hd, Hr. simpl in Hd, Hr. destruct Hr as [->|Hr].
    + intros [= <- <-]. rewrite Hd. rewrite lookup_zip_with, Hb. simpl.
      unfold builds. rewrite map_app. simpl. rewrite Ec.
      assert (entryMap 0 (map (transfersOf ledger) before ++ Ok c :: map (transfersOf ledger) after)%list
                !! length before = Some (length (allTransfers (map (transfersOf ledger) before)), length c)) as ->.
      { rewrite <- (length_map (transfersOf ledger) before). by rewrite entryMap_at. }
      simpl. destruct (Nat.eqb_spec (length c) 0) as [H0|_]; [by destruct c|]. by split_and!.
    + destruct r; [done|]. intros [= <- <-]. rewrite Hd, list_lookup_fmap, Hb. simpl. by split_and!.
Qed.

(** ** What a call of the service does *)

Lemma direct_own ledger entry d r d' c :
  transfersOf ledger entry = Ok c -> c <> [] -> NoDup (map tt_ID c) ->
  own c (sq_tables d) = [] \/ own c (sq_tables d) = c ->
  TB.PostEntries ledger entry d = (r, d') -> advances c (sq_tables d) (sq_tables d') (is_ok r).
Proof.
  intros Ec Hc Hnd Ho. unfold TB.PostEntries. rewrite Ec. pose proof (transfersOf_chain _ _ _ Ec Hc) as Hch.
  destruct c as [|x c]; [done|]. destruct (CreateTransfers (x :: c) d) as [q d1] eqn:E.
  destruct (tb_createTransfers (x :: c) (sq_tables d)) as [rs t'] eqn:ET.
  destruct (create_own _ _ _ _ Hch Hnd Ho ET) as (A1 & A2 & A3).
  apply transact_ok_inv in E as [[Hd Hr]|[Hd Hr]].
  - destruct q; [done|]. intros [= <- <-]. rewrite Hd. by apply advances_refl.
  - rewrite ET in Hd, Hr. simpl in Hd, Hr. destruct Hr as [->|Hr].
    + intros [= <- <-]. rewrite Hd. split_and!; [done|done|]. unfold checkResults.
      destruct (existsb failed rs); [done|]. auto.
    + destruct q; [done|]. intros [= <- <-]. rewrite Hd. by split_and!.
Qed.
End Posting.

Section ServiceProps.
Context {L : ThirdParty} {LL : ThirdPartyLaws L} {T : Type} `{TBS : !TigerBeetle T} {TBL : TigerBeetleLaws TBS}.
Context {B : Type}.
Implicit Types (s : Service.Service (T := T) (B := B)) (env : Service.PostEnv).

(** The ids of the entry are its own, in the batches it meets as well. *)
Definition fresh_ids s env (d : Sql T) c : Prop :=
  NoDup (map tt_ID c) /\ own c (sq_tables d) = []
  /\ forall i, company (Service.sv_ledgerID s) c (se_before (Service.pe_submit env i))
                 (se_after (Service.pe_submit env i)).

Section Write.
Variables (s : Service.Service (T := T) (B := B)) (env : Service.PostEnv) (entry : JournalEntry).
Variable c : list TBTransfer.
Hypothesis Ec : transfersOf (Service.sv_ledgerID s) entry = Ok c.
Hypothesis Hc : c <> [].
Hypothesis Hnd : NoDup (map tt_ID c).
Hypothesis Hco : forall i, company (Service.sv_ledgerID s) c (se_before (Service.pe_submit env i))
                         (se_after (Service.pe_submit env i)).

Lemma attempt_own i d r d' : own c (sq_tables d) = [] \/ own c (sq_tables d) = c ->
  Service.attempt s env entry i d = (r, d') -> advances c (sq_tables d) (sq_tables d') (is_ok r).
Proof.
  intros Ho. assert (forall r d', Service.tbWrite s env entry i d = (r, d') ->
    advances c (sq_tables d) (sq_tables d') (is_ok r)) as Hw.
  { intros q e. unfold Service.tbWrite. destruct (Service.sv_batching s).
    - unfold Submit. destruct (se_stopped _); [intros [= <- <-]; by apply advances_refl|].
      destruct (flushBatch _ _ d) as [msgs d1] eqn:E.
      pose proof (flush_own _ _ _ _ _ _ _ _ Ec Hc Hnd (Hco i) Ho E) as (A1 & A2 & A3).
      destruct (se_cancelled _), (msgs !! _) as [[q'|]|]; intros [= <- <-]; by split_and!.
    - destruct (TB.PostEntries _ _ _) as [q' d1] eqn:E.
      pose proof (direct_own _ _ _ _ _ _ Ec Hc Hnd Ho E). destruct q'; by intros [= <- <-]. }
  unfold Service.attempt. destruct (Service.sv_bulkhead s); [|apply Hw].
  unfold Bulkhead.Execute. destruct (Service.pe_ctxAtWrite env i).
  { intros [= <- <-]. by apply advances_refl. }
  destruct (Bulkhead.acquire _); [apply Hw|]. intros [= <- <-]. by apply advances_refl.
Qed.

Lemma attempts_own n d : own c (sq_tables d) = [] \/ own c (sq_tables d) = c ->
  own c (sq_tables (Service.attempts s env entry n d)) = []
  \/ own c (sq_tables (Service.attempts s env entry n d)) = c.
Proof.
  intros Ho. induction n as [|n IH]; [done|]. simpl.
  destruct (Service.attempt s env entry n (Service.attempts s env entry n d)) as [r d'] eqn:E.
  by destruct (attempt_own _ _ _ _ IH E) as [H _].
Qed.

Lemma writeTB_own d r d' : own c (sq_tables d) = [] \/ own c (sq_tables d) = c ->
  Service.writeTB s env entry d = (r, d') ->
  (own c (sq_tables d') = [] \/ own c (sq_tables d') = c) /\ (is_ok r = true -> own c (sq_tables d') = c).
Proof.
  intros Ho. unfold Service.writeTB, Retry.Retry.
  set (w := {| Retry.fn := _ |}). set (cfg := Retry.withDefaults _).
  pose proof (RetryProps.loop_spec 3 0 cfg (fun i _ => bool_decide (Service.pe_ctxErr env i = None)) w
    (Retry.InitialDelay cfg) ltac:(lia)) as H.
  change (Z.to_nat (Retry.MaxAttempts cfg)) with 3%nat.
  destruct (Retry.loop 3 _ _ _ _ _) as [[q n] sleeps]. destruct H as (Hn & _ & Hok & _).
  intros [= <- <-]. split; [by apply attempts_own|]. intros Hq.
  assert (Retry.fn w (pred n) = None) as Hf by (apply Hok; by destruct q as [[]|]).
  destruct n as [|n]; [lia|]. simpl in *. unfold Service.outcome in Hf.
  destruct (Service.attempt s env entry n (Service.attempts s env entry n d)) as [q' d1] eqn:E.
  destruct q' as [[]|]; [|done]. destruct (attempt_own _ _ _ _ (attempts_own n d Ho) E) as (_ & _ & H).
  by apply H.
Qed.
End Write.

Lemma EnsureAccounts_record ledger codes (d : Sql T) r d' :
  EnsureAccounts ledger codes d = (r, d') -> tb_transfers (sq_tables d') = tb_transfers (sq_tables d).
Proof.
  unfold EnsureAccounts. destruct codes as [|x codes]; [by intros [= <- <-]|].
  destruct (CreateAccounts _ d) as [q d1] eqn:E.
  assert (tb_transfers (sq_tables d1) = tb_transfers (sq_tables d)) as Hd.
  { apply transact_ok_inv in E as [[-> _]|[-> _]]; [done|]. apply accounts_keep. }
  destruct q; by intros [= <- <-].
Qed.

(** ** Assigning ids *)

(** Two lists of lines that differ only in their ids. *)
Definition same_postings (ls ls' : list EntryLine) : Prop := map el_Posting ls = map el_Posting ls'.

Lemma assign_postings env entry :
  same_postings (je_Lines (Service.assign env entry)) (je_Lines entry).
Proof.
  unfold same_postings. simpl. change (map el_Posting) with (fmap (M := list) el_Posting).
  rewrite fmap_imap, <- (imap_const el_Posting). by apply imap_ext.
Qed.

Lemma same_balanced ls ls' : same_postings ls ls' -> balanced ls -> balanced ls'.
Proof.
  intros Hs Hb c. assert (forall ty, side_total c ty ls = side_total c ty ls') as H; [|by rewrite <- !H].
  intros ty. revert ls' Hs. clear. induction ls as [|l ls IH]; intros [|l' ls'] Hs; [done..|].
  injection Hs as Hl Hs. simpl. unfold el_Currency, el_EntryType, el_Amount. by rewrite Hl, (IH _ Hs).
Qed.

Lemma same_postings_forall (P : Posting -> Prop) ls ls' : same_postings ls ls' ->
  (forall l, l ∈ ls -> P (el_Posting l)) -> forall l, l ∈ ls' -> P (el_Posting l).
Proof.
  intros Hs H l Hl. assert (el_Posting l ∈ map el_Posting ls) as Hin.
  { rewrite Hs. apply list_elem_of_fmap. eauto. }
  apply list_elem_of_fmap in Hin as (l0 & -> & Hl0). auto.
Qed.

Lemma same_sized ls ls' : same_postings ls ls' -> Forall sized ls -> Forall sized ls'.
Proof.
  intros Hs. rewrite !Forall_forall. exact (same_postings_forall (fun p =>
    (po_EntryType p = EntryTypeDebit \/ po_EntryType p = EntryTypeCredit)
    /\ units (po_Amount p) (unitsOf (po_Amount p)) /\ unitsOf (po_Amount p) <= int64_max) _ _ Hs).
Qed.

Lemma same_postable ls ls' : same_postings ls ls' -> postable ls -> postable ls'.
Proof.
  intros Hs (H2 & Hp & Hb & Hz). split_and!.
  - apply (f_equal length) in Hs. rewrite !length_map in Hs. lia.
  - exact (same_postings_forall (fun p => (0 < dVal (po_Amount p))%Q) _ _ Hs Hp).
  - by eapply same_balanced.
  - by eapply same_sized.
Qed.

(** The entry as it is posted has a decomposition. *)
Lemma assign_transfers ledger env entry :
  ValidateEntries (je_Lines entry) = Ok tt -> Forall sized (je_Lines entry) ->
  exists c, transfersOf ledger (Service.assign env entry) = Ok c
    /\ decomposition ledger (Service.assign env entry) c /\ c <> [].
Proof.
  intros Hv Hs. destruct (postable_transfers ledger (Service.assign env entry)) as (c & Ec & Hd).
  { eapply same_postable; [|by apply valid_postable]. symmetry. apply assign_postings. }
  exists c. split; [done|]. split; [done|]. intros ->. by apply dc_chain in Hd.
Qed.

(** A write that is preceded by the creation of the accounts. *)
Lemma service_write s env entry d r s' :
  ValidateEntries (je_Lines entry) = Ok tt -> Service.sv_tb s = Some d ->
  Service.PostEntries env entry s = (r, s') ->
  exists d1 w d', Service.sv_tb s' = Some d' /\ tb_transfers (sq_tables d1) = tb_transfers (sq_tables d)
    /\ ((d' = d1 /\ is_ok r = false)
        \/ (Service.writeTB s env (Service.assign env entry) d1 = (w, d') /\ (is_ok r = true -> is_ok w = true))).
Proof.
  intros Hv Hd. unfold Service.PostEntries. rewrite Hv, Hd.
  destruct (EnsureAccounts _ _ d) as [[[]|e] d1] eqn:E; pose proof (EnsureAccounts_record _ _ _ _ _ E) as H1.
  2:{ intros [= <- <-]. exists d1, (Err e), d1. split_and!; [done|done|]. by left. }
  destruct (Service.writeTB s env _ d1) as [w d2] eqn:Ew. intros H. exists d1, w, d2. revert H.
  assert (forall x (q : Service.Service (T := T) (B := B)), Service.sv_tb (Service.announce env x q) = Service.sv_tb q) as Ha.
  { intros x q. unfold Service.announce. by destruct (Service.sv_publisher q). }
  destruct w as [[]|e].
  - unfold Service.enqueueSync. simpl. destruct (Service.sv_sync s); simpl; [destruct (Service.sv_metrics s)|];
      intros [= <- <-]; rewrite ?Ha; simpl; auto 7.
  - intros [= <- <-]. simpl. auto 7.
Qed.

Lemma own_record c (t t' : T) : tb_transfers t' = tb_transfers t -> own c t' = own c t.
Proof. unfold own. by intros ->. Qed.
End ServiceProps.

(** ** The properties *)

Section Claims.
Context {L : ThirdParty} {LL : ThirdPartyLaws L} {T : Type} `{TBS : !TigerBeetle T} {TBL : TigerBeetleLaws TBS}.
Context {B : Type}.

(** C14: The greedy matching of debit and credit lines ends within its bound
    and is exact: a valid entry in whole units becomes one linked chain of
    fewer transfers than lines, with positive amounts, between accounts of its
    debit and of its credit lines, and every account is debited and
    credited with exactly the sums of its lines. *)
Theorem transfers_of_entry ledger entry :
  ValidateEntries (je_Lines entry) = Ok tt -> Forall sized (je_Lines entry) ->
  exists ts, transfersOf ledger entry = Ok ts /\ decomposition ledger entry ts.
Proof. intros. by apply postable_transfers, valid_postable. Qed.

(** C4: A call of PostEntries, whatever errors, lost answers, retries and
    batch companions it meets, leaves the transfers of the entry on TigerBeetle's
    record completely and once, or not at all; when it reports success
    they are there. *)
Theorem posted_exactly_once (s : Service.Service (T := T) (B := B)) env entry d r s' :
  ValidateEntries (je_Lines entry) = Ok tt -> Forall sized (je_Lines entry) ->
  Service.sv_tb s = Some d ->
  (forall c, transfersOf (Service.sv_ledgerID s) (Service.assign env entry) = Ok c -> fresh_ids s env d c) ->
  Service.PostEntries env entry s = (r, s') ->
  exists c d', transfersOf (Service.sv_ledgerID s) (Service.assign env entry) = Ok c /\ c <> []
    /\ Service.sv_tb s' = Some d'
    /\ (own c (sq_tables d') = [] \/ own c (sq_tables d') = c)
    /\ (is_ok r = true -> own c (sq_tables d') = c).
Proof.
  intros Hv Hs Hd Hf E. destruct (assign_transfers (Service.sv_ledgerID s) env entry Hv Hs) as (c & Ec & _ & Hc).
  destruct (Hf c Ec) as (Hnd & Ho & Hco).
  destruct (service_write _ _ _ _ _ _ Hv Hd E) as (d1 & w & d' & Hd' & H1 & Hcase).
  exists c, d'. rewrite <- (own_record _ _ _ H1) in Ho. split_and!; try done.
  all: destruct Hcase as [[-> Hr]|[Ew Hr]]; try congruence; auto;
    destruct (writeTB_own s env _ c Ec Hc Hnd Hco d1 w d' (or_introl Ho) Ew) as [H2 H3]; auto.
Qed.
End Claims.
End LedgerProps.
