(* ===== verification/LedgerBooks.v ===== *)
(** * ledger: balances

    When an entry meets no company in its batches, TigerBeetle's record grows
    by exactly its transfers.  So a successful post moves every balance that
    [GetBalance] reports by the lines of the entry ([posting_moves_balances]),
    a reversal moves it back ([reversal_undoes_posting]), and on healthy
    services a post succeeds ([post_succeeds]). *)

From Stdlib Require Import Ascii QArith Lqa.
From S2P Require Import Prelude ThirdParty GoNumbers Sql Money Deposits Transfer Outbox LedgerEntries LedgerSync LedgerBackend Resilience ResilienceProps TreasuryWorker LedgerService LedgerProps.
Local Open Scope string_scope.
Local Open Scope Z_scope.

Module LedgerBooks.
Import TB Batch LedgerProps.

Section Books.
Context {L : ThirdParty} {LL : ThirdPartyLaws L} {T : Type} `{TBS : !TigerBeetle T} {TBL : TigerBeetleLaws TBS}.
Context {B : Type}.
Implicit Types (s : Service.Service (T := T) (B := B)) (env : Service.PostEnv) (c : list TBTransfer).

(** ** The record *)

(** Batches of one. *)
Definition alone s env : Prop :=
  Service.sv_batching s = true ->
  forall i, se_before (Service.pe_submit env i) = [] /\ se_after (Service.pe_submit env i) = [].

(** The record is as before, or has the chain [c] in addition. *)
Definition grown c (t0 t : T) : Prop :=
  tb_transfers t = tb_transfers t0 \/ tb_transfers t = (tb_transfers t0 ++ c)%list.

Lemma own_appended c (t0 t : T) : own c t0 = [] -> tb_transfers t = (tb_transfers t0 ++ c)%list -> own c t = c.
Proof.
  unfold own. intros Ho ->. rewrite filter_app, Ho. simpl.
  apply filter_keeps. intros x Hx. apply list_elem_of_fmap. eauto.
Qed.

Lemma own_in c (t : T) x : own c t = c -> x ∈ c -> x ∈ tb_transfers t.
Proof. intros Ho Hx. rewrite <- Ho in Hx. by apply list_elem_of_filter in Hx as [_ Hx]. Qed.

Lemma own_new c (t : T) : own c t = [] ->
  forall x y, x ∈ c -> y ∈ tb_transfers t -> tt_ID x <> tt_ID y.
Proof.
  intros Ho x y Hx Hy Heq. apply (not_elem_of_nil y). rewrite <- Ho. apply list_elem_of_filter.
  split; [|done]. apply list_elem_of_fmap. eauto.
Qed.

Lemma create_grown c t0 t : chain c = true -> NoDup (map tt_ID c) -> own c t0 = [] ->
  grown c t0 t -> grown c t0 (tb_createTransfers c t).2.
Proof.
  intros Hch Hnd Ho Hg. destruct (tb_createTransfers c t) as [r t'] eqn:E. simpl. unfold grown.
  destruct Hg as [Hg|Hg].
  - assert (own c t = []) as Ho' by (by rewrite (own_record _ _ _ Hg)).
    destruct (create_new c t r t' Hch Hnd (own_new _ _ Ho') E) as [[_ ->]|[_ ->]]; rewrite Hg; [by right|by left].
  - destruct (create_again c t r t' Hch) as [_ Ht]; [|done|right; by rewrite Ht].
    intros x Hx. eapply own_in; [|done]. by eapply own_appended.
Qed.

Lemma CreateTransfers_grown c t0 (d : Sql T) r d' :
  chain c = true -> NoDup (map tt_ID c) -> own c t0 = [] -> grown c t0 (sq_tables d) ->
  CreateTransfers c d = (r, d') -> grown c t0 (sq_tables d').
Proof.
  intros Hch Hnd Ho Hg [[-> _]|[-> _]]%transact_ok_inv; [done|]. by apply create_grown.
Qed.

Lemma flush_alone s entry c (d : Sql T) :
  transfersOf (Service.sv_ledgerID s) entry = Ok c -> c <> [] ->
  flushBatch (Service.sv_ledgerID s) [entry] d =
  (let '(r, d) := CreateTransfers c d in
   ([Some (match r with
           | Ok rs => entryErr (failedIdx rs) (0%nat, length c)
           | Err e => Err (WrapErr "batch TB write failed" e)
           end)], d)).
Proof.
  intros Ec Hc. unfold flushBatch. cbn [map]. rewrite Ec. unfold allTransfers. cbn [mbind list_bind]. rewrite app_nil_r.
  destruct c as [|x c'] eqn:E; [done|]. cbn [entryMap zip_with].
  destruct (CreateTransfers _ d) as [[rs|e] d']; reflexivity.
Qed.

Section Write.
Variables (s : Service.Service (T := T) (B := B)) (env : Service.PostEnv) (entry : JournalEntry).
Variables (c : list TBTransfer) (t0 : T).
Hypothesis Ec : transfersOf (Service.sv_ledgerID s) entry = Ok c.
Hypothesis Hc : c <> [].
Hypothesis Hnd : NoDup (map tt_ID c).
Hypothesis Hal : alone s env.
Hypothesis Ho : own c t0 = [].

Lemma tbWrite_grown i d r d' : grown c t0 (sq_tables d) ->
  Service.tbWrite s env entry i d = (r, d') -> grown c t0 (sq_tables d').
Proof.
  pose proof (transfersOf_chain _ _ _ Ec Hc) as Hch. intros Hg. unfold Service.tbWrite.
  destruct (Service.sv_batching s) eqn:Eb.
  - unfold Submit. destruct (se_stopped _); [by intros [= <- <-]|].
    destruct (Hal Eb i) as [-> ->]. cbn [app]. rewrite (flush_alone s entry c d Ec Hc).
    destruct (CreateTransfers c d) as [q d1] eqn:E. apply (CreateTransfers_grown _ _ _ _ _ Hch Hnd Ho Hg) in E.
    simpl. destruct (se_cancelled _); by intros [= <- <-].
  - unfold TB.PostEntries. rewrite Ec. destruct c as [|x c'] eqn:Ex; [done|]. rewrite <- Ex in *.
    destruct (CreateTransfers c d) as [q d1] eqn:E. apply (CreateTransfers_grown _ _ _ _ _ Hch Hnd Ho Hg) in E.
    destruct q; by intros [= <- <-].
Qed.

Lemma attempts_grown n d : grown c t0 (sq_tables d) ->
  grown c t0 (sq_tables (Service.attempts s env entry n d)).
Proof.
  intros Hg. induction n as [|n IH]; [done|]. simpl.
  destruct (Service.attempt s env entry n _) as [r d'] eqn:E. revert E. simpl. unfold Service.attempt.
  destruct (Service.sv_bulkhead s); [|by apply tbWrite_grown].
  destruct (Service.pe_ctxAtWrite env n); [by intros [= _ <-]|].
  destruct (Bulkhead.acquire _); [by apply tbWrite_grown|by intros [= _ <-]].
Qed.

Lemma writeTB_grown d r d' : grown c t0 (sq_tables d) ->
  Service.writeTB s env entry d = (r, d') -> grown c t0 (sq_tables d').
Proof.
  intros Hg. unfold Service.writeTB. destruct (Retry.Retry _ _ _) as [[q n] sl].
  intros [= _ <-]. by apply attempts_grown.
Qed.
End Write.

Lemma alone_company s env ledger c i : alone s env -> Service.sv_batching s = true ->
  Z.of_nat (length c) <= 2 ^ 32 ->
  company ledger c (se_before (Service.pe_submit env i)) (se_after (Service.pe_submit env i)).
Proof.
  intros Ha Hb Hl. destruct (Ha Hb i) as [-> ->]. split; [by intros e ts ?%elem_of_nil|]. simpl. lia.
Qed.

(** The record after a successful post. *)
Lemma post_record s env entry d c e s' :
  ValidateEntries (je_Lines entry) = Ok tt -> Service.sv_tb s = Some d -> alone s env ->
  transfersOf (Service.sv_ledgerID s) (Service.assign env entry) = Ok c -> c <> [] ->
  fresh_ids s env d c -> Service.PostEntries env entry s = (Ok e, s') ->
  exists d', Service.sv_tb s' = Some d' /\ tb_transfers (sq_tables d') = (tb_transfers (sq_tables d) ++ c)%list.
Proof.
  intros Hv Hd Hal Ec Hc (Hnd & Ho & Hco) E.
  destruct (service_write _ _ _ _ _ _ Hv Hd E) as (d1 & w & d' & Hd' & H1 & [[_ [=]]|[Ew Hr]]).
  exists d'. split; [done|]. specialize (Hr eq_refl).
  assert (own c (sq_tables d1) = []) as Ho1 by (by rewrite (own_record _ _ _ H1)).
  destruct (writeTB_own s env _ c Ec Hc Hnd Hco d1 w d' (or_introl Ho1) Ew) as [_ Hown].
  specialize (Hown Hr).
  destruct (writeTB_grown s env _ c (sq_tables d1) Ec Hc Hnd Hal Ho1 d1 w d' (or_introl eq_refl) Ew)
    as [Hg|Hg]; [|by rewrite Hg, H1].
  rewrite (own_record _ _ _ Hg) in Hown. congruence.
Qed.

(** ** Balances *)

Lemma amount_units z : 0 <= z <= int64_max -> units (TBAmountToDecimal (z mod 2 ^ 64)) z.
Proof.
  intros Hz. unfold units, TBAmountToDecimal.
  rewrite Z.mod_small by (unfold int64_max in Hz; lia).
  rewrite wrap64_id by (unfold in_int64, int64_min; lia).
  assert (~ dVal (NewFromInt AmountScale) == 0)%Q as H0 by (by rewrite NewFromInt_val).
  assert (dVal (NewFromInt z) / dVal (NewFromInt AmountScale) * inject_Z (10 ^ 16)
          == inject_Z (z * AmountScale))%Q as Hq.
  { change (10 ^ 16) with (AmountScale * AmountScale). rewrite !NewFromInt_val, !inject_Z_mult. field. done. }
  pose proof (dDiv_exact _ _ _ H0 Hq) as ->.
  rewrite !NewFromInt_val. field. done.
Qed.

(** The totals of an account fit the conversion of the client. *)
Definition in_range (a : ID128) (ts : list TBTransfer) : Prop :=
  0 <= debited a ts <= int64_max /\ 0 <= credited a ts <= int64_max.

Lemma GetBalance_units code s d b s' : Service.sv_tb s = Some d ->
  in_range (AccountIDFromCode code) (tb_transfers (sq_tables d)) ->
  Service.GetBalance code s = (Ok b, s') ->
  units b (credited (AccountIDFromCode code) (tb_transfers (sq_tables d))
           - debited (AccountIDFromCode code) (tb_transfers (sq_tables d))).
Proof.
  intros Hd [Hdr Hcr]. unfold Service.GetBalance, TB.GetBalance. rewrite Hd.
  destruct (LookupAccounts _ d) as [[[|acc accs]|e] d1] eqn:E; [done| |done].
  apply query_inv in E as [_ E]. specialize (E _ eq_refl). injection E as E.
  destruct (tb_accounts (sq_tables d) !! AccountIDFromCode code) as [l|] eqn:El.
  2:{ by rewrite (lookup_unknown _ _ El) in E. }
  destruct (lookup_known _ _ _ El) as (acc' & E' & Hdb & Hcd). rewrite E in E'. injection E' as -> _.
  intros [= <- _]. rewrite Hdb, Hcd. apply units_sub; by apply amount_units.
Qed.

Lemma debited_app a ts ts' : debited a (ts ++ ts')%list = debited a ts + debited a ts'.
Proof. induction ts as [|t ts IH]; simpl; [done|]. case_bool_decide; lia. Qed.

Lemma credited_app a ts ts' : credited a (ts ++ ts')%list = credited a ts + credited a ts'.
Proof. induction ts as [|t ts IH]; simpl; [done|]. case_bool_decide; lia. Qed.

(** What lines post to an account, in units: credits less debits. *)
Definition moved (a : ID128) (ls : list EntryLine) : Z := post a (creditLines ls) - post a (debitLines ls).

Lemma post_cons a l ls :
  post a (l :: ls) = (if bool_decide (accountOf l = a) then lineUnits l else 0) + post a ls.
Proof. simpl. by case_bool_decide. Qed.

Lemma post_same a ls ls' : same_postings ls ls' ->
  post a (debitLines ls) = post a (debitLines ls') /\ post a (creditLines ls) = post a (creditLines ls').
Proof.
  revert ls'. induction ls as [|l ls IH]; intros [|l' ls'] H; [done..|].
  injection H as Hl H. destruct (IH ls' H) as [H1 H2]. unfold debitLines, creditLines in *.
  assert (el_EntryType l = el_EntryType l') as Ht by (unfold el_EntryType; by rewrite Hl).
  assert (accountOf l = accountOf l') as Ha by (unfold accountOf; by rewrite Hl).
  assert (lineUnits l = lineUnits l') as Hm by (unfold lineUnits, el_Amount; by rewrite Hl).
  rewrite !filter_cons, Ht. split; case_decide; rewrite ?post_cons, ?Ha, ?Hm; congruence.
Qed.

Lemma same_pairs ls ls' : same_postings ls' ls ->
  (forall x y, x ∈ debitLines ls -> y ∈ creditLines ls -> accountOf x <> accountOf y) ->
  forall x y, x ∈ debitLines ls' -> y ∈ creditLines ls' -> accountOf x <> accountOf y.
Proof.
  intros Hs Hp x y [Hx Hxin]%list_elem_of_filter [Hy Hyin]%list_elem_of_filter.
  assert (forall l, l ∈ ls' -> exists l0, l0 ∈ ls /\ el_Posting l0 = el_Posting l) as Hfind.
  { intros l Hl. assert (el_Posting l ∈ map el_Posting ls) as Hin
      by (rewrite <- Hs; apply list_elem_of_fmap; eauto).
    apply list_elem_of_fmap in Hin as (l0 & -> & Hl0). eauto. }
  destruct (Hfind x Hxin) as (x0 & Hx0 & Ex), (Hfind y Hyin) as (y0 & Hy0 & Ey).
  unfold accountOf, el_EntryType in *. rewrite <- Ex, <- Ey in *.
  apply Hp; by apply list_elem_of_filter.
Qed.

(** *** Reversed lines *)

Definition reversed (l l' : EntryLine) : Prop :=
  accountOf l' = accountOf l /\ el_Amount l' = el_Amount l
  /\ el_EntryType l' = Service.swapType (el_EntryType l).

Lemma reversal_lines env rid id reason original :
  Forall2 reversed (je_Lines original) (je_Lines (Service.reversalOf env rid id reason original)).
Proof.
  apply Forall2_same_length_lookup. split; [simpl; by rewrite length_imap|].
  intros i l l' Hl Hl'. simpl in Hl'. rewrite list_lookup_imap, Hl in Hl'. by injection Hl' as <-.
Qed.

Lemma post_reversed a ls ls' : Forall sized ls -> Forall2 reversed ls ls' ->
  post a (debitLines ls') = post a (creditLines ls) /\ post a (creditLines ls') = post a (debitLines ls).
Proof.
  intros Hs H. revert Hs. induction H as [|l l' ls ls' (Ha & Hm & Ht) H IH]; intros Hs; [done|].
  apply Forall_cons in Hs as [[Hty _] Hs]. destruct (IH Hs) as [H1 H2].
  unfold debitLines, creditLines in *. rewrite !filter_cons, Ht.
  assert (lineUnits l' = lineUnits l) as Hu by (unfold lineUnits; by rewrite Hm).
  destruct Hty as [-> | ->].
  - rewrite !decide_False, !decide_True by done. rewrite !post_cons, Ha, Hu. split; congruence.
  - rewrite !decide_True, !decide_False by done. rewrite !post_cons, Ha, Hu. split; congruence.
Qed.

Lemma sized_reversed ls ls' : Forall sized ls -> Forall2 reversed ls ls' -> Forall sized ls'.
Proof.
  intros Hs H. revert Hs. induction H as [|l l' ls ls' (Ha & Hm & Ht) H IH]; intros Hs; [done|].
  apply Forall_cons in Hs as [(Hty & Hu & Hr) Hs]. constructor; [|by apply IH].
  unfold sized, lineUnits in *. rewrite Hm, Ht. split; [|done]. destruct Hty as [-> | ->]; vm_compute; auto.
Qed.

(** What it takes for a post to be measured: a valid entry of the ledger, ids
    of its own, no company, and a range for the totals of account [code]. *)
Record measurable (code : string) s env entry (d : Sql T) : Prop := {
  ms_tb : Service.sv_tb s = Some d;
  ms_sized : Forall sized (je_Lines entry);
  ms_alone : alone s env;
  ms_fresh : forall c, transfersOf (Service.sv_ledgerID s) (Service.assign env entry) = Ok c ->
               fresh_ids s env d c;
  ms_before : in_range (AccountIDFromCode code) (tb_transfers (sq_tables d));
  ms_debits : debited (AccountIDFromCode code) (tb_transfers (sq_tables d))
              + post (AccountIDFromCode code) (debitLines (je_Lines entry)) <= int64_max;
  ms_credits : credited (AccountIDFromCode code) (tb_transfers (sq_tables d))
               + post (AccountIDFromCode code) (creditLines (je_Lines entry)) <= int64_max;
}.

Lemma post_nonneg a ls : Forall good ls -> 0 <= post a ls.
Proof. induction 1 as [|l ls [_ Hl] _ IH]; simpl; [lia|]. case_bool_decide; lia. Qed.

Lemma post_moves code s env entry d e s' b b' s1 s2 :
  measurable code s env entry d -> Service.PostEntries env entry s = (Ok e, s') ->
  Service.GetBalance code s = (Ok b, s1) -> Service.GetBalance code s' = (Ok b', s2) ->
  ((dVal b' - dVal b) * inject_Z AmountScale
   == inject_Z (moved (AccountIDFromCode code) (je_Lines entry)))%Q.
Proof.
  intros [Hd Hs Hal Hf Hr Hrd Hrc] E Hb Hb'.
  assert (ValidateEntries (je_Lines entry) = Ok tt) as Hv.
  { unfold Service.PostEntries in E. by destruct (ValidateEntries _) as [[]|]. }
  destruct (assign_transfers (Service.sv_ledgerID s) env entry Hv Hs) as (c & Ec & Hdc & Hc).
  destruct (post_record s env entry d c e s' Hv Hd Hal Ec Hc (Hf c Ec) E) as (d' & Hd' & Hrec).
  destruct (post_same (AccountIDFromCode code) _ _ (assign_postings env entry)) as [Pd Pc].
  pose proof (dc_debits _ _ _ Hdc (AccountIDFromCode code)) as Dd. rewrite Pd in Dd.
  pose proof (dc_credits _ _ _ Hdc (AccountIDFromCode code)) as Dc. rewrite Pc in Dc.
  destruct (valid_postable _ Hv Hs) as (_ & Hp & _ & _). pose proof (sized_good _ Hp Hs) as Hg.
  pose proof (post_nonneg (AccountIDFromCode code) _ (good_filter EntryTypeDebit _ Hg)).
  pose proof (post_nonneg (AccountIDFromCode code) _ (good_filter EntryTypeCredit _ Hg)).
  apply (GetBalance_units code s d) in Hb; [|done|done].
  apply (GetBalance_units code s' d') in Hb'; [|done|].
  - unfold units in Hb, Hb'.
    assert (((dVal b' - dVal b) * inject_Z AmountScale
             == dVal b' * inject_Z AmountScale - dVal b * inject_Z AmountScale)%Q) as -> by ring.
    rewrite Hb, Hb'. unfold Qminus. rewrite <- inject_Z_opp, <- inject_Z_plus.
    rewrite Hrec, debited_app, credited_app, Dd, Dc. unfold moved. apply inject_Z_injective. lia.
  - unfold in_range in *. rewrite Hrec, debited_app, credited_app, Dd, Dc.
    unfold debitLines, creditLines in *. lia.
Qed.

(** ** When a post succeeds *)

Definition volume (ts : list TBTransfer) : Z := foldr (fun x n => tt_Amount x + n) 0 ts.

(** Everything the call needs is there: connection, slot, running batcher,
    accounts that are new or of the ledger, two different accounts in each
    pair, and room below 128 bits. *)
Record healthy s env entry (d : Sql T) : Prop := {
  hl_tb : Service.sv_tb s = Some d;
  hl_up : sq_up d;
  hl_ledger : 0 < Service.sv_ledgerID s;
  hl_alone : alone s env;
  hl_metrics : Service.sv_sync s = None \/ Service.sv_metrics s = true;
  hl_slot : Service.pe_ctxAtWrite env 0 = None /\ is_Some (Bulkhead.acquire (Service.pe_bulkhead env 0));
  hl_submit : se_stopped (Service.pe_submit env 0) = false /\ se_cancelled (Service.pe_submit env 0) = None;
  hl_accounts : forall l, l ∈ je_Lines entry -> tb_accounts (sq_tables d) !! accountOf l = None
                  \/ tb_accounts (sq_tables d) !! accountOf l = Some (Service.sv_ledgerID s);
  hl_pairs : forall x y, x ∈ debitLines (je_Lines entry) -> y ∈ creditLines (je_Lines entry) ->
               accountOf x <> accountOf y;
  hl_room : volume (tb_transfers (sq_tables d)) + Z.of_nat (length (je_Lines entry)) * 2 ^ 63 < 2 ^ 128;
}.

Lemma volume_app ts ts' : volume (ts ++ ts')%list = volume ts + volume ts'.
Proof. induction ts as [|t ts IH]; simpl; [done|]. unfold volume in *. lia. Qed.

Lemma volume_bound ts : (forall t, t ∈ ts -> tt_Amount t <= int64_max) ->
  volume ts <= Z.of_nat (length ts) * 2 ^ 63.
Proof.
  induction ts as [|t ts IH]; intros H; [done|]. simpl volume. fold (volume ts).
  specialize (IH ltac:(set_solver)). specialize (H t ltac:(set_solver)). unfold int64_max in H. simpl length. lia.
Qed.

(** Accounts that are new or of the ledger can be ensured. *)
Lemma EnsureAccounts_up ledger codes (d : Sql T) : sq_up d -> 0 < ledger ->
  (forall x, x ∈ codes -> tb_accounts (sq_tables d) !! AccountIDFromCode x = None
     \/ tb_accounts (sq_tables d) !! AccountIDFromCode x = Some ledger) ->
  exists d', EnsureAccounts ledger codes d = (Ok tt, d') /\ sq_up d'
    /\ tb_transfers (sq_tables d') = tb_transfers (sq_tables d)
    /\ forall x, x ∈ codes -> tb_accounts (sq_tables d') !! AccountIDFromCode x = Some ledger.
Proof.
  intros Hu Hl Hx. unfold EnsureAccounts. destruct codes as [|y codes].
  { exists d. split_and!; try done. by intros x ?%elem_of_nil. }
  unfold CreateAccounts. rewrite transact_up by done. set (accs := map (newAccount ledger) (y :: codes)).
  destruct (tb_createAccounts accs (sq_tables d)) as [rs t] eqn:E.
  destruct (accounts_created accs _ rs t E) as [Hf Ha].
  { intros a (x & -> & Hin)%list_elem_of_fmap. simpl. split_and!; try done. by apply Hx. }
  { intros a b (x & -> & _)%list_elem_of_fmap (x' & -> & _)%list_elem_of_fmap. simpl.
    unfold newAccount. by intros ->. }
  exists (sq_set d t). unfold checkResults. rewrite Hf. split_and!; try done.
  - simpl. change t with (rs, t).2. rewrite <- E. apply accounts_keep.
  - intros x Hin. apply (Ha (newAccount ledger x)). apply list_elem_of_fmap. eauto.
Qed.

(** The chain of an entry is admissible once its accounts exist. *)
Lemma create_succeeds ledger entry c (t : T) :
  decomposition ledger entry c -> own c t = [] -> NoDup (map tt_ID c) -> 0 < ledger ->
  (forall l, l ∈ je_Lines entry -> tb_accounts t !! accountOf l = Some ledger) ->
  (forall x y, x ∈ debitLines (je_Lines entry) -> y ∈ creditLines (je_Lines entry) -> accountOf x <> accountOf y) ->
  volume (tb_transfers t) + Z.of_nat (length (je_Lines entry)) * 2 ^ 63 < 2 ^ 128 ->
  (tb_createTransfers c t).1 = [].
Proof.
  intros [Hch Hlen _ _ _ Hall] Ho Hnd Hl Hac Hp Hv. apply create_admissible; try done.
  - by apply own_new.
  - intros x Hx. destruct (Hall x Hx) as (Ha & -> & Hcode & Hfl & dl & cl & Hd & Hc & -> & ->).
    split_and!; try done; try lia; [unfold int64_max in Ha; lia|by apply Hp| |].
    + apply Hac. by apply list_elem_of_filter in Hd as [_ Hd].
    + apply Hac. by apply list_elem_of_filter in Hc as [_ Hc].
  - fold (volume (tb_transfers t ++ c)). rewrite volume_app.
    pose proof (volume_bound c (fun x Hx => proj2 (proj1 (Hall x Hx)))). lia.
Qed.

Lemma entryErr_none n : entryErr (failedIdx []) (0%nat, n) = Ok tt.
Proof.
  unfold entryErr, failedIdx. simpl.
  assert (existsb (fun j => bool_decide (is_Some ((∅ : gmap Z Z) !! wrap32u (Z.of_nat j)))) (seq 0 n) = false) as ->; [|done].
  apply not_true_is_false. intros (j & _ & Hj)%existsb_exists. apply bool_decide_eq_true in Hj.
  rewrite lookup_empty in Hj. by destruct Hj.
Qed.

Lemma attempt_up s env entry c (d : Sql T) :
  transfersOf (Service.sv_ledgerID s) entry = Ok c -> c <> [] -> alone s env -> sq_up d ->
  Service.pe_ctxAtWrite env 0 = None -> is_Some (Bulkhead.acquire (Service.pe_bulkhead env 0)) ->
  se_stopped (Service.pe_submit env 0) = false -> se_cancelled (Service.pe_submit env 0) = None ->
  (tb_createTransfers c (sq_tables d)).1 = [] ->
  (Service.attempt s env entry 0 d).1 = Ok tt.
Proof.
  intros Ec Hc Hal Hu Hctx [b Hb] Hst Hca Hr.
  assert ((Service.tbWrite s env entry 0 d).1 = Ok tt) as Hw.
  { destruct (tb_createTransfers c (sq_tables d)) as [rs t] eqn:E. simpl in Hr. subst rs.
    assert (CreateTransfers c d = (Ok [], sq_set d t)) as E'
      by (unfold CreateTransfers; by rewrite transact_up, E by done).
    unfold Service.tbWrite. destruct (Service.sv_batching s) eqn:Eb.
    - unfold Submit. rewrite Hst. destruct (Hal Eb 0%nat) as [-> ->]. cbn [app].
      rewrite (flush_alone s entry c d Ec Hc), E'. simpl. by rewrite Hca, entryErr_none.
    - unfold TB.PostEntries. rewrite Ec. destruct c as [|x c']; [done|]. by rewrite E'. }
  unfold Service.attempt. rewrite Hctx, Hb. by destruct (Service.sv_bulkhead s).
Qed.

Lemma writeTB_up s env entry (d : Sql T) : (Service.attempt s env entry 0 d).1 = Ok tt ->
  Service.writeTB s env entry d = (Ok tt, (Service.attempt s env entry 0 d).2).
Proof.
  intros H. unfold Service.writeTB, Retry.Retry.
  change (Z.to_nat (Retry.MaxAttempts (Retry.withDefaults Service.tbRetryConfig))) with 3%nat.
  cbn [Retry.loop Retry.fn]. unfold Service.outcome at 1. cbn [Service.attempts]. by rewrite H.
Qed.

Lemma post_ok s env entry d d1 d2 :
  ValidateEntries (je_Lines entry) = Ok tt -> Service.sv_tb s = Some d ->
  Service.sv_sync s = None \/ Service.sv_metrics s = true ->
  EnsureAccounts (Service.sv_ledgerID s)
    (map (fun l => po_AccountCode (el_Posting l)) (je_Lines (Service.assign env entry))) d = (Ok tt, d1) ->
  Service.writeTB s env (Service.assign env entry) d1 = (Ok tt, d2) ->
  (Service.PostEntries env entry s).1 = Ok (Service.assign env entry).
Proof.
  intros Hv Hd Hm He Hw. unfold Service.PostEntries. rewrite Hv, Hd, He, Hw.
  unfold Service.enqueueSync. simpl. destruct (Service.sv_sync s); [|done]. simpl.
  destruct Hm as [[=]|Hm]. by rewrite Hm.
Qed.

(** ** The properties *)

(** C29: A post that reports success changes the balance reported for an
    account, however many accounts and lines the entry has, by exactly
    the credits less the debits of its lines on that account, when the entry
    is [measurable]: its amounts are whole numbers of 1e-8 units in the int64
    range (finer ones are truncated), it shares its batch with no other entry
    (theirs would move balances too), its transfers have ids not in use, and
    the totals of the account stay in the int64 range. *)
Theorem posting_moves_balances code s env entry d e s' b b' s1 s2 :
  measurable code s env entry d -> Service.PostEntries env entry s = (Ok e, s') ->
  Service.GetBalance code s = (Ok b, s1) -> Service.GetBalance code s' = (Ok b', s2) ->
  ((dVal b' - dVal b) * inject_Z AmountScale
   == inject_Z (moved (AccountIDFromCode code) (je_Lines entry)))%Q.
Proof. apply post_moves. Qed.

(** A reversal that reports success moves every reported balance by the
    exact opposite of the entry it has read back, so that posting and
    reversing cancel. *)
Theorem reversal_undoes_posting code s env rid id reason d pg pg' original e s' b b' s1 s2 :
  Service.sv_pg s = Some pg -> PG.GetJournalEntryWithLines id pg = (Ok original, pg') ->
  Forall sized (je_Lines original) ->
  measurable code s env (Service.reversalOf env rid id reason original) d ->
  Service.ReverseEntry env rid id reason s = (Ok e, s') ->
  Service.GetBalance code s = (Ok b, s1) -> Service.GetBalance code s' = (Ok b', s2) ->
  ((dVal b' - dVal b) * inject_Z AmountScale
   == inject_Z (- moved (AccountIDFromCode code) (je_Lines original)))%Q.
Proof.
  intros Hpg Hr Hs Hm E Hb Hb'. unfold Service.ReverseEntry in E. rewrite Hpg, Hr in E.
  destruct (Service.PostEntries env _ _) as [[e0|e0] s3] eqn:Ep; [|done]. injection E as -> ->.
  destruct (post_reversed (AccountIDFromCode code) _ _ Hs (reversal_lines env rid id reason original)) as [P1 P2].
  assert (moved (AccountIDFromCode code) (je_Lines (Service.reversalOf env rid id reason original))
          = - moved (AccountIDFromCode code) (je_Lines original)) as <- by (unfold moved; lia).
  assert (exists s4, Service.GetBalance code (Service.set_pg s pg') = (Ok b, s4)) as [s4 H4].
  { revert Hb. unfold Service.GetBalance. simpl. destruct (Service.sv_tb s) as [d0|]; [|intros [= <- _]; eauto].
    destruct (TB.GetBalance code d0) as [q d1]. intros [= -> _]. eauto. }
  eapply post_moves; [|exact Ep|exact H4|exact Hb'].
  destruct Hm as [M1 M2 M3 M4 M5 M6 M7]. by constructor.
Qed.

(** On healthy services a valid entry in whole units is posted: the call
    returns the entry with its ids and times, and TigerBeetle's record has
    grown by the transfers of the entry. *)
Theorem post_succeeds s env entry d :
  ValidateEntries (je_Lines entry) = Ok tt -> Forall sized (je_Lines entry) ->
  healthy s env entry d ->
  (forall c, transfersOf (Service.sv_ledgerID s) (Service.assign env entry) = Ok c -> fresh_ids s env d c) ->
  exists c s' d', Service.PostEntries env entry s = (Ok (Service.assign env entry), s')
    /\ transfersOf (Service.sv_ledgerID s) (Service.assign env entry) = Ok c
    /\ Service.sv_tb s' = Some d'
    /\ tb_transfers (sq_tables d') = (tb_transfers (sq_tables d) ++ c)%list.
Proof.
  intros Hv Hs [Hd Hu Hl Hal Hm [Hctx Hsl] [Hst Hca] Hac Hp Hroom] Hf.
  destruct (assign_transfers (Service.sv_ledgerID s) env entry Hv Hs) as (c & Ec & Hdc & Hc).
  pose proof (Hf c Ec) as (Hnd & Ho & _). pose proof (assign_postings env entry) as Hpost.
  set (entry' := Service.assign env entry) in *.
  destruct (EnsureAccounts_up (Service.sv_ledgerID s)
    (map (fun l => po_AccountCode (el_Posting l)) (je_Lines entry')) d Hu Hl) as (d1 & E1 & Hu1 & Hr1 & Ha1).
  { intros x (l & -> & Hin)%list_elem_of_fmap. symmetry in Hpost.
    exact (same_postings_forall (fun p => tb_accounts (sq_tables d) !! AccountIDFromCode (po_AccountCode p) = None
      \/ tb_accounts (sq_tables d) !! AccountIDFromCode (po_AccountCode p) = Some _) _ _ Hpost Hac l Hin). }
  assert ((tb_createTransfers c (sq_tables d1)).1 = []) as Hr.
  { apply (create_succeeds (Service.sv_ledgerID s) entry'); try done.
    - by rewrite (own_record _ _ _ Hr1).
    - intros l Hin. apply Ha1, list_elem_of_fmap. eauto.
    - by eapply same_pairs.
    - rewrite Hr1. apply (f_equal length) in Hpost. rewrite !length_map in Hpost. by rewrite Hpost. }
  pose proof (writeTB_up s env entry' d1 (attempt_up s env entry' c d1 Ec Hc Hal Hu1 Hctx Hsl Hst Hca Hr)) as Hw.
  pose proof (post_ok s env entry d d1 _ Hv Hd Hm E1 Hw) as Hok.
  destruct (Service.PostEntries env entry s) as [r s'] eqn:E. simpl in Hok. subst r.
  destruct (post_record s env entry d c _ s' Hv Hd Hal Ec Hc (Hf c Ec) E) as (d' & Hd' & Hrec). eauto 8.
Qed.
End Books.
End LedgerBooks.
