(* ===== verification/LedgerQueue.v ===== *)
(** * ledger: nothing falls between the queues

    Every entry submitted to the batcher is in exactly one batch, in order
    ([batcher_conserves]); every entry handed to the sync consumer is
    written, queued or counted as dropped ([sync_conserves]), and with a
    Postgres that answers a stop writes everything ([stop_drains]). *)

From S2P Require Import Prelude ThirdParty GoNumbers Sql Money Deposits Transfer Outbox LedgerEntries LedgerSync LedgerBackend.
Local Open Scope string_scope.
Local Open Scope Z_scope.

Module BatcherProps.
Import Batch.

(** ** The batcher *)

Section Batcher.
Context {L : ThirdParty}.
Variable maxSize : Z.

(** What has been flushed and what is pending are the entries submitted so
    far; batches respect the maximum; entries that wait have a timer whose
    callback is still to come. *)
Record batching (es : list JournalEntry) (b : Batcher) : Prop := {
  bi_max : bt_maxSize b = maxSize;
  bi_all : es = (concat (bt_flushed b) ++ bt_pending b)%list;
  bi_sizes : forall x, x ∈ bt_flushed b -> x <> [] /\ Z.of_nat (length x) <= Z.max 1 maxSize;
  bi_pending : bt_pending b <> [] ->
    bt_done b = false /\ bt_timer b = true /\ Z.of_nat (length (bt_pending b)) < maxSize;
  bi_armed : bt_done b = false -> bt_timer b = true -> (0 < bt_armed b)%nat;
}.

Lemma batching_new : batching [] (newBatcher maxSize).
Proof. constructor; try done. by intros x ?%elem_of_nil. Qed.

Lemma batching_flush es b timer armed fin : batching es b ->
  (fin = false -> timer = true -> (0 < armed)%nat) ->
  batching es (flushPending b timer armed fin).
Proof.
  intros [Hm Ha Hs Hp _] Harm. constructor; simpl; try done.
  - rewrite app_nil_r. rewrite Ha. destruct (bt_pending b); [by rewrite app_nil_r|].
    by rewrite concat_app, concat_cons, concat_nil, app_nil_r.
  - intros x Hx. destruct (bt_pending b) as [|e pending] eqn:E; [by apply Hs|].
    apply elem_of_app in Hx as [Hx|Hx%list_elem_of_singleton]; [by apply Hs|]. subst x. split; [done|].
    destruct Hp as (_ & _ & Hp); [done|]. lia.
Qed.

Lemma batching_enqueue es b entry stopTimer b' : batching es b ->
  enqueue entry stopTimer b = Some b' -> batching (es ++ [entry]) b'.
Proof.
  intros [Hm Ha Hs Hp Harm]. unfold enqueue. destruct (bt_done b) eqn:Ed; [done|].
  rewrite Hm. destruct (Z.leb_spec maxSize (Z.of_nat (length (bt_pending b ++ [entry]))))as [Hle|Hlt];
    intros [= <-]; constructor; simpl; try done.
  - by rewrite concat_app, concat_cons, concat_nil, !app_nil_r, Ha, (assoc_L (++)).
  - intros x [Hx|Hx%list_elem_of_singleton]%elem_of_app; [by apply Hs|]. subst x.
    split; [by destruct (bt_pending b)|]. rewrite length_app. simpl.
    destruct (bt_pending b) as [|e pending] eqn:E; [simpl; lia|]. destruct Hp as (_ & _ & Hp); [done|]. lia.
  - by rewrite Ha, (assoc_L (++)).
  - intros _ _. specialize (Harm eq_refl). destruct (bt_timer b); [by apply Harm|lia].
Qed.

Lemma batching_step es b es' b' : batching es b -> bstep b es' b' -> batching (es ++ es') b'.
Proof.
  intros Hb H. destruct H as [entry stopTimer b b' H|b H|stopTimer b H].
  - by eapply batching_enqueue.
  - rewrite app_nil_r. by apply batching_flush.
  - rewrite app_nil_r. by apply batching_flush.
Qed.

(** For every interleaving of submits, timer callbacks and the stop of the
    batcher, late callbacks of stopped timers included, the batches flushed so
    far and the pending entries are the submitted entries in their order, each
    once; no batch is empty or larger than the maximum; and an entry that
    waits has a callback to come. *)
Theorem batcher_conserves es b : bsteps (newBatcher maxSize) es b -> batching es b.
Proof.
  intros H. remember (newBatcher maxSize) as b0 eqn:E0. induction H as [b|b es b' es' b'' _ IH Hstep].
  - subst. apply batching_new.
  - eapply batching_step; [by apply IH|done].
Qed.
End Batcher.
End BatcherProps.

(** ** The sync consumer *)

Module SyncProps.
Import Sync.
Section SyncProps.
Context {L : ThirdParty} {D : Type} (SyncJournalEntry : JournalEntry -> D -> result unit * D).

Definition enqueued (evs : list SyncEvent) : list JournalEntry :=
  omap (fun ev => match ev with SEnqueue e => Some e | _ => None end) evs.

Lemma enqueued_cons ev evs : enqueued (ev :: evs) = (enqueued [ev] ++ enqueued evs)%list.
Proof. by destruct ev. Qed.

Lemma pass_perm entries d synced failed d' :
  pass SyncJournalEntry entries d = ((synced, failed), d') -> entries ≡ₚ (synced ++ failed)%list.
Proof.
  revert d synced failed d'. induction entries as [|e rest IH]; intros d synced failed d'; simpl.
  { by intros [= <- <- <-]. }
  destruct (SyncJournalEntry e d) as [r d1]. destruct (pass _ rest d1) as [[s f] d2] eqn:E.
  specialize (IH _ _ _ _ E). destruct (is_ok r); intros [= <- <- <-]; simpl.
  - by rewrite IH.
  - rewrite IH. by apply Permutation_middle.
Qed.

Lemma retryPasses_perm n failed d synced left d' :
  retryPasses SyncJournalEntry n failed d = ((synced, left), d') -> failed ≡ₚ (synced ++ left)%list.
Proof.
  revert failed d synced left d'. induction n as [|n IH]; intros failed d synced left d'; simpl.
  { by intros [= <- <- <-]. }
  destruct failed as [|e failed]; [by intros [= <- <- <-]|].
  destruct (pass _ _ d) as [[s1 f1] d1] eqn:E1. destruct (retryPasses _ n f1 d1) as [[s2 f2] d2] eqn:E2.
  intros [= <- <- <-]. apply pass_perm in E1. apply IH in E2. by rewrite E1, E2, (assoc_L (++)).
Qed.

(** The state of the consumer against the entries it still answers for. *)
Record holds (batchSize cap : Z) (es : list JournalEntry) (sc : SyncConsumer) (lost : list JournalEntry) : Prop := {
  ho_sizes : sc_batchSize sc = batchSize /\ sc_cap sc = cap;
  ho_all : es ≡ₚ (sc_queue sc ++ sc_batch sc ++ lost)%list;
  ho_queue : Z.of_nat (length (sc_queue sc)) <= cap;
  ho_batch : sc_batch sc <> [] -> Z.of_nat (length (sc_batch sc)) < batchSize;
  ho_dropped : sc_dropped sc = wrap64 (Z.of_nat (length lost));
}.

Lemma Enqueue_holds bs cap es sc lost e : holds bs cap es sc lost ->
  exists lost', holds bs cap (e :: es) (Enqueue e sc) lost' /\ sc_running (Enqueue e sc) = sc_running sc.
Proof.
  intros [[Hb Hc] Ha Hq Hba Hd]. unfold Enqueue. rewrite Hc.
  destruct (Z.ltb_spec (Z.of_nat (length (sc_queue sc))) cap) as [Hlt|Hge].
  - exists lost. split; [|done]. constructor; simpl; try done; [rewrite Ha; by solve_Permutation|].
    rewrite length_app. simpl. lia.
  - exists (e :: lost). split; [|done]. constructor; simpl; try done; [rewrite Ha; by solve_Permutation|].
    rewrite Hd. unfold add64. rewrite wrap64_add_l. f_equal. lia.
Qed.

Lemma requeue_holds bs cap es sc lost failed : holds bs cap es sc lost ->
  exists lost', holds bs cap (failed ++ es) (fold_left (fun sc e => Enqueue e sc) failed sc) lost'.
Proof.
  revert es sc lost. induction failed as [|e failed IH]; intros es sc lost H; [by exists lost|]. simpl.
  destruct (Enqueue_holds bs cap es sc lost e H) as (lost1 & H1 & _).
  destruct (IH _ _ _ H1) as (lost2 & [? Ha ? ? ?]). exists lost2. constructor; try done.
  rewrite <- Ha. apply Permutation_middle.
Qed.

Lemma flush_holds bs cap es sc lost batch d synced sc' d' : holds bs cap es sc lost ->
  flush SyncJournalEntry batch sc d = (synced, sc', d') ->
  exists rest lost', batch ≡ₚ (synced ++ rest)%list /\ holds bs cap (rest ++ es) sc' lost'.
Proof.
  intros H. unfold flush. destruct (pass _ batch d) as [[s1 f1] d1] eqn:E1.
  destruct (retryPasses _ 2 f1 d1) as [[s2 f2] d2] eqn:E2. intros [= <- <- <-].
  apply pass_perm in E1. apply retryPasses_perm in E2.
  assert (exists lost', holds bs cap (f2 ++ es) (match f2 with
            | [] => sc
            | _ :: _ => fold_left (fun sc e => Enqueue e sc) f2 (add_failed sc (Z.of_nat (length f2)))
            end) lost') as [lost' H'].
  { destruct f2 as [|e f2]; [by exists lost|]. apply (requeue_holds bs cap es _ lost).
    destruct H as [? ? ? ? ?]. by constructor. }
  exists f2, lost'. split; [|done]. by rewrite E1, E2, (assoc_L (++)).
Qed.

Lemma run_holds bs cap es sc lost ev d synced sc' d' : 0 <= cap -> holds bs cap es sc lost ->
  run SyncJournalEntry ev sc d = (synced, sc', d') ->
  exists es' lost', holds bs cap es' sc' lost' /\ (enqueued [ev] ++ es ≡ₚ synced ++ es')%list.
Proof.
  intros Hcap H. assert (holds bs cap es sc lost) as [[Hb Hc] Ha Hq Hba Hd] by done.
  (* a flush of [batch] from a state that has let go of it *)
  assert (forall batch sc1 es1, es ≡ₚ (batch ++ es1)%list -> holds bs cap es1 sc1 lost ->
    flush SyncJournalEntry batch sc1 d = (synced, sc', d') ->
    exists es' lost', holds bs cap es' sc' lost' /\ es ≡ₚ (synced ++ es')%list) as Hflush.
  { intros batch sc1 es1 Hes H1 (rest & lost' & Hp & H2)%(flush_holds _ _ _ _ _ _ _ _ _ _ H1).
    exists (rest ++ es1)%list, lost'. split; [done|]. by rewrite Hes, Hp, (assoc_L (++)). }
  destruct ev as [e| | |]; cbn [run enqueued omap list_omap app].
  - intros [= <- <- <-]. destruct (Enqueue_holds bs cap es sc lost e H) as (lost' & H' & _).
    exists (e :: es), lost'. done.
  - destruct (sc_running sc); [|intros [= <- <- <-]; by exists es, lost].
    destruct (sc_queue sc) as [|e q] eqn:Eq; [intros [= <- <- <-]; by exists es, lost|].
    rewrite Hb. destruct (Z.leb_spec bs (Z.of_nat (length (sc_batch sc ++ [e])))) as [Hle|Hlt].
    + apply (Hflush _ _ (q ++ lost)%list); [rewrite Ha; by solve_Permutation|].
      constructor; simpl; try done. simpl in Hq. lia.
    + intros [= <- <- <-]. exists es, lost. split; [|done]. constructor; simpl; try done.
      * rewrite Ha. by solve_Permutation.
      * simpl in Hq. lia.
  - destruct (sc_running sc); [|intros [= <- <- <-]; by exists es, lost].
    destruct (sc_batch sc) as [|e b] eqn:Eb; [intros [= <- <- <-]; by exists es, lost|].
    apply (Hflush _ _ (sc_queue sc ++ lost)%list); [rewrite Ha; by solve_Permutation|]. by constructor.
  - destruct (sc_running sc); [|intros [= <- <- <-]; by exists es, lost].
    destruct (sc_batch sc ++ sc_queue sc)%list as [|e b] eqn:Eb.
    + apply app_eq_nil in Eb as [Eb Eq]. intros [= <- <- <-]. exists es, lost. split; [|done].
      constructor; simpl; try done. by rewrite Ha, Eb.
    + rewrite <- Eb. apply (Hflush _ _ lost); [rewrite Ha; by solve_Permutation|]. by constructor.
Qed.

Lemma runs_holds bs cap evs es sc lost d synced sc' d' : 0 <= cap -> holds bs cap es sc lost ->
  runs SyncJournalEntry evs sc d = (synced, sc', d') ->
  exists es' lost', holds bs cap es' sc' lost' /\ (enqueued evs ++ es ≡ₚ synced ++ es')%list.
Proof.
  intros Hcap. revert es sc lost d synced. induction evs as [|ev evs IH]; intros es sc lost d synced H; cbn [runs].
  { intros [= <- <- <-]. by exists es, lost. }
  destruct (run _ ev sc d) as [[s1 sc1] d1] eqn:E1. destruct (runs _ evs sc1 d1) as [[s2 sc2] d2] eqn:E2.
  intros [= <- <- <-]. destruct (run_holds _ _ _ _ _ _ _ _ _ _ Hcap H E1) as (es1 & lost1 & H1 & P1).
  destruct (IH _ _ _ _ _ H1 E2) as (es2 & lost2 & H2 & P2). exists es2, lost2. split; [done|].
  rewrite enqueued_cons, <- (assoc_L (++)), (Permutation_app_comm (enqueued evs)), (assoc_L (++)), P1.
  rewrite <- !(assoc_L (++)), <- P2. by solve_Permutation.
Qed.

Lemma new_holds bs qs : holds bs (if qs <=? 0 then 50000 else qs) [] (newSyncConsumer bs qs) []
  /\ 0 <= (if qs <=? 0 then 50000 else qs).
Proof. split; [|destruct (Z.leb_spec qs 0); lia]. constructor; simpl; try done. destruct (Z.leb_spec qs 0); lia. Qed.

(** In every run of the sync consumer, with any outcome of the writes, each
    entry handed to it is accounted for once: written, still queued, in the
    current batch, or lost to a full queue; the losses are exactly what the
    drop counter shows, the queue keeps its capacity, the batch its size. *)
Theorem sync_conserves bs qs evs d synced sc d' :
  runs SyncJournalEntry evs (newSyncConsumer bs qs) d = (synced, sc, d') ->
  exists lost, (enqueued evs ≡ₚ synced ++ sc_queue sc ++ sc_batch sc ++ lost)%list
    /\ Dropped sc = wrap64 (Z.of_nat (length lost)) /\ Pending sc <= sc_cap sc
    /\ (sc_batch sc <> [] -> Z.of_nat (length (sc_batch sc)) < bs).
Proof.
  destruct (new_holds bs qs) as [H0 Hcap]. intros E.
  destruct (runs_holds _ _ _ _ _ _ _ _ _ _ Hcap H0 E) as (es & lost & [[_ Hc] Ha Hq Hb Hd] & Hp).
  exists lost. rewrite app_nil_r in Hp. split_and!; try done; [by rewrite Hp, Ha|]. unfold Pending. by rewrite Hc.
Qed.

(** *** With a Postgres that answers *)

Lemma enqueued_length evs : (length (enqueued evs) <= length evs)%nat.
Proof. induction evs as [|[] evs IH]; simpl in *; lia. Qed.

Section Answers.
Hypothesis answers : forall e d, is_ok (SyncJournalEntry e d).1 = true.

Lemma pass_answers entries d : exists d', pass SyncJournalEntry entries d = ((entries, []), d').
Proof.
  revert d. induction entries as [|e rest IH]; intros d; simpl; [eauto|].
  pose proof (answers e d) as H. destruct (SyncJournalEntry e d) as [r d1]. simpl in H. rewrite H.
  destruct (IH d1) as (d2 & ->). eauto.
Qed.

Lemma flush_answers batch sc d : exists d', flush SyncJournalEntry batch sc d = (batch, sc, d').
Proof.
  unfold flush. destruct (pass_answers batch d) as (d1 & ->). simpl. rewrite app_nil_r. eauto.
Qed.

Lemma stop_answers sc d : sc_running sc = true ->
  exists synced sc' d', run SyncJournalEntry SDone sc d = (synced, sc', d')
    /\ synced = (sc_batch sc ++ sc_queue sc)%list /\ Dropped sc' = Dropped sc
    /\ sc_running sc' = false.
Proof.
  intros Hr. simpl. rewrite Hr. destruct (sc_batch sc ++ sc_queue sc)%list as [|e b]; [eauto 8|].
  destruct (flush_answers (e :: b) (stopped (set_batch sc [] [])) d) as (d' & ->). eauto 8.
Qed.
End Answers.

(** When Postgres answers and the queue has never been full, the stop of
    the service leaves nothing behind: after it every entry that was handed
    over has been written, each once. *)
Theorem stop_drains bs qs evs d synced sc d1 :
  (forall e d, is_ok (SyncJournalEntry e d).1 = true) ->
  runs SyncJournalEntry evs (newSyncConsumer bs qs) d = (synced, sc, d1) ->
  sc_running sc = true -> Dropped sc = 0 -> Z.of_nat (length evs) <= int64_max ->
  exists more sc' d2, run SyncJournalEntry SDone sc d1 = (more, sc', d2)
    /\ (enqueued evs ≡ₚ synced ++ more)%list /\ sc_running sc' = false.
Proof.
  intros Ha E Hr Hdr Hlen. destruct (new_holds bs qs) as [H0 Hcap].
  destruct (runs_holds _ _ _ _ _ _ _ _ _ _ Hcap H0 E) as (es & lost & [_ Hall _ _ Hd] & Hp).
  rewrite app_nil_r in Hp.
  assert (lost = []) as ->.
  { apply Permutation_length in Hp as Hl. rewrite Hall, !length_app in Hl.
    assert (length (enqueued evs) <= length evs)%nat by apply enqueued_length.
    unfold Dropped in Hdr. rewrite Hd, wrap64_id in Hdr by (unfold in_int64, int64_min; lia).
    destruct lost; [done|simpl in Hdr; lia]. }
  destruct (stop_answers Ha sc d1 Hr) as (more & sc' & d2 & Es & -> & _ & Hst).
  exists (sc_batch sc ++ sc_queue sc)%list, sc', d2. split_and!; try done.
  rewrite Hp, Hall. by solve_Permutation.
Qed.

(** Only entries whose write was reported as done count as written. *)
Lemma pass_ok entries d synced failed d' :
  pass SyncJournalEntry entries d = ((synced, failed), d') ->
  forall e, e ∈ synced -> exists d0, is_ok (SyncJournalEntry e d0).1 = true.
Proof.
  revert d synced failed d'. induction entries as [|x rest IH]; intros d synced failed d'; simpl.
  { intros [= <- <- <-] e ?%elem_of_nil. done. }
  destruct (SyncJournalEntry x d) as [r d1] eqn:Ex. destruct (pass _ rest d1) as [[s f] d2] eqn:E.
  specialize (IH _ _ _ _ E). destruct (is_ok r) eqn:Er; intros [= <- <- <-]; [|done].
  intros e [->|He]%elem_of_cons; [|by apply IH]. exists d. by rewrite Ex.
Qed.

Lemma retryPasses_ok n failed d synced left d' :
  retryPasses SyncJournalEntry n failed d = ((synced, left), d') ->
  forall e, e ∈ synced -> exists d0, is_ok (SyncJournalEntry e d0).1 = true.
Proof.
  revert failed d synced left d'. induction n as [|n IH]; intros failed d synced left d'; simpl.
  { intros [= <- <- <-] e ?%elem_of_nil. done. }
  destruct failed as [|x failed]; [intros [= <- <- <-] e ?%elem_of_nil; done|].
  destruct (pass _ _ d) as [[s1 f1] d1] eqn:E1. destruct (retryPasses _ n f1 d1) as [[s2 f2] d2] eqn:E2.
  intros [= <- <- <-] e [He|He]%elem_of_app; [by eapply pass_ok|by eapply IH].
Qed.

Lemma flush_ok batch sc d synced sc' d' : flush SyncJournalEntry batch sc d = (synced, sc', d') ->
  forall e, e ∈ synced -> exists d0, is_ok (SyncJournalEntry e d0).1 = true.
Proof.
  unfold flush. destruct (pass _ batch d) as [[s1 f1] d1] eqn:E1.
  destruct (retryPasses _ 2 f1 d1) as [[s2 f2] d2] eqn:E2.
  intros [= <- <- <-] e [He|He]%elem_of_app; [by eapply pass_ok|by eapply retryPasses_ok].
Qed.

Lemma runs_ok evs sc d synced sc' d' : runs SyncJournalEntry evs sc d = (synced, sc', d') ->
  forall e, e ∈ synced -> exists d0, is_ok (SyncJournalEntry e d0).1 = true.
Proof.
  revert sc d synced. induction evs as [|ev evs IH]; intros sc d synced; simpl.
  { intros [= <- <- <-] e ?%elem_of_nil. done. }
  destruct (run _ ev sc d) as [[s1 sc1] d1] eqn:E1. destruct (runs _ evs sc1 d1) as [[s2 sc2] d2] eqn:E2.
  intros [= <- <- <-] e [He|He]%elem_of_app; [|by eapply IH]. revert E1 He. unfold run.
  repeat case_match; intros E1 He; first [by eapply flush_ok|by injection E1 as <- _ _; apply elem_of_nil in He].
Qed.
End SyncProps.
End SyncProps.

(** ** Entries that Postgres refuses *)

Module ReadModel.
Import PG Sync SyncProps.
Section ReadModel.
Context {L : ThirdParty}.

(** The insert names the metadata column, so its default does not apply, and a
    nil map is NULL; and it leaves out the id, for which the schema has no default. *)
Lemma refused_entry entry d :
  je_Metadata entry = None \/ (forall n, c_ids (sq_world d n) 0 = None) ->
  is_ok (SyncJournalEntry entry d).1 = false /\ sq_tables (SyncJournalEntry entry d).2 = sq_tables d.
Proof.
  intros H. unfold SyncJournalEntry, CreateJournalEntry, transact. unfold sq_call.
  destruct (c_ids (sq_world d (sq_calls d)) 0) eqn:Eid; [|by destruct (c_out _)].
  destruct H as [H|H]; [rewrite H|by rewrite H in Eid].
  by destruct (dateToPgtype _), (c_out _).
Qed.

(** An entry without metadata never reaches the read model: in no run of the
    sync consumer, however often it retries, is it written. *)
Theorem no_metadata_never_synced bs qs evs d synced sc d' :
  (forall e, e ∈ enqueued evs -> je_Metadata e = None) ->
  runs SyncJournalEntry evs (newSyncConsumer bs qs) d = (synced, sc, d') -> synced = [].
Proof.
  intros Hm E. destruct (new_holds bs qs) as [H0 Hcap].
  destruct (runs_holds _ _ _ _ _ _ _ _ _ _ _ Hcap H0 E) as (es & lost & _ & Hp).
  rewrite app_nil_r in Hp. apply elem_of_nil_inv. intros e He.
  destruct (runs_ok _ _ _ _ _ _ _ E e He) as [d0 Hok].
  destruct (refused_entry e d0) as [Hno _]; [|congruence].
  left. apply Hm. rewrite Hp. set_solver.
Qed.
End ReadModel.
End ReadModel.
