(* ===== verification/LedgerRuns.v ===== *)
(** * ledger: concrete runs

    The ledger service over the executable TigerBeetle [Server], run:
    a post whose first answer is lost, a reversal, and the runs in which the
    books and the read model go wrong. *)

From Stdlib Require Import Ascii QArith.
From S2P Require Import Prelude ThirdParty GoNumbers Sql Money Deposits Transfer Outbox LedgerEntries Resilience TreasuryWorker LedgerSync LedgerBackend LedgerService LedgerProps LedgerBooks LedgerQueue.
Import QInstance.
Local Open Scope string_scope.
Local Open Scope Z_scope.

(** ** A TigerBeetle that runs

    An executable server that keeps the promises of [TigerBeetleLaws], for the
    concrete runs of the ledger: transfers are cut into chains at the
    first one without the linked flag, and a chain is on record already, is
    admitted as a whole, or is refused as a whole. *)

Module Server.
Import TB.

Record Store := { st_transfers : list TBTransfer; st_accounts : gmap ID128 Z }.

Definition volumeOf (ts : list TBTransfer) : Z := foldr (fun x n => tt_Amount x + n) 0 ts.

Definition fine (st : Store) (x : TBTransfer) : bool :=
  (0 <? tt_Amount x) && (tt_Amount x <? 2 ^ 64)
  && negb (bool_decide (tt_DebitAccountID x = tt_CreditAccountID x)) && (0 <? tt_Ledger x)
  && bool_decide (st_accounts st !! tt_DebitAccountID x = Some (tt_Ledger x))
  && bool_decide (st_accounts st !! tt_CreditAccountID x = Some (tt_Ledger x))
  && (tt_Code x =? 1) && ((tt_Flags x =? 0) || (tt_Flags x =? TBFlagLinked)).

Definition known (st : Store) (x : TBTransfer) : bool :=
  existsb (fun y => bool_decide (tt_ID x = tt_ID y)) (st_transfers st).

Definition admissible (c : list TBTransfer) (st : Store) : bool :=
  bool_decide (NoDup (map tt_ID c)) && forallb (fun x => negb (known st x) && fine st x) c
  && (volumeOf (st_transfers st ++ c) <? 2 ^ 128).

Definition refusal : list TBCreateResult := [{| cr_Index := 0; cr_Result := 2 |}].

Definition applyChain (c : list TBTransfer) (st : Store) : list TBCreateResult * Store :=
  if forallb (fun x => bool_decide (x ∈ st_transfers st)) c
  then ([{| cr_Index := 0; cr_Result := TBResultExists |}], st)
  else if admissible c st
  then ([], {| st_transfers := st_transfers st ++ c; st_accounts := st_accounts st |})
  else (refusal, st).

(** [cur] is the chain so far, which began at [start]. *)
Fixpoint go (start : nat) (cur ts : list TBTransfer) (st : Store) : list TBCreateResult * Store :=
  match ts with
  | [] => (match cur with [] => [] | _ => map (shift start) refusal end, st)
  | t :: ts =>
      let cur := (cur ++ [t])%list in
      if linked t then go start cur ts st
      else
        let '(r, st) := applyChain cur st in
        let '(r', st) := go (start + length cur) [] ts st in
        ((map (shift start) r ++ r')%list, st)
  end.

(** An account that is there is not created again. *)
Fixpoint addAccounts (i : Z) (accs : list TBAccount) (st : Store) : list TBCreateResult * Store :=
  match accs with
  | [] => ([], st)
  | a :: accs =>
      match st_accounts st !! ta_ID a with
      | Some l =>
          let '(r, st) := addAccounts (i + 1) accs st in
          ({| cr_Index := i; cr_Result := if l =? ta_Ledger a then TBResultExists else 2 |} :: r, st)
      | None =>
          if (0 <? ta_Ledger a) && (ta_Code a =? 1) && (ta_Flags a =? 0)
          then addAccounts (i + 1) accs
                 {| st_transfers := st_transfers st;
                    st_accounts := <[ta_ID a := ta_Ledger a]> (st_accounts st) |}
          else
            let '(r, st) := addAccounts (i + 1) accs st in
            ({| cr_Index := i; cr_Result := 3 |} :: r, st)
      end
  end.

Definition accountAt (st : Store) (a : ID128) (l : Z) : TBAccount :=
  {| ta_ID := a; ta_UserData128 := zeroID; ta_UserData64 := 0; ta_UserData32 := 0; ta_Ledger := l;
     ta_Code := 1; ta_Flags := 0; ta_DebitsPending := 0;
     ta_DebitsPosted := debited a (st_transfers st) mod 2 ^ 64; ta_CreditsPending := 0;
     ta_CreditsPosted := credited a (st_transfers st) mod 2 ^ 64 |}.

#[export] Instance server : TigerBeetle Store := {|
  tb_createAccounts := addAccounts 0;
  tb_createTransfers := go 0 [];
  tb_lookupAccounts ids st := omap (fun a => accountAt st a <$> st_accounts st !! a) ids;
|}.

(** ** The promises *)

Lemma applyChain_grows c st : exists added, st_transfers (applyChain c st).2 = (st_transfers st ++ added)%list
  /\ (forall x, x ∈ added -> x ∈ c) /\ st_accounts (applyChain c st).2 = st_accounts st.
Proof.
  unfold applyChain. destruct (forallb _ c); [exists []; rewrite app_nil_r; set_solver|].
  destruct (admissible c st); [by exists c|]. exists []. rewrite app_nil_r. set_solver.
Qed.

Lemma go_grows n cur ts st : exists added, st_transfers (go n cur ts st).2 = (st_transfers st ++ added)%list
  /\ (forall x, x ∈ added -> x ∈ (cur ++ ts)%list) /\ st_accounts (go n cur ts st).2 = st_accounts st.
Proof.
  revert n cur st. induction ts as [|t ts IH]; intros n cur st; simpl.
  { exists []. rewrite app_nil_r. set_solver. }
  destruct (linked t).
  - destruct (IH n (cur ++ [t])%list st) as (added & ? & H & ?). exists added. split_and!; try done.
    intros x Hx. specialize (H x Hx). by rewrite <- (assoc_L (++)) in H.
  - destruct (applyChain_grows (cur ++ [t])%list st) as (a1 & E1 & H1 & A1).
    destruct (applyChain _ st) as [r st1]. simpl in *.
    destruct (IH (n + length (cur ++ [t]))%nat [] st1) as (a2 & E2 & H2 & A2).
    destruct (go _ [] ts st1) as [r2 st2]. simpl in *. exists (a1 ++ a2)%list.
    rewrite E2, E1, A2, A1, (assoc_L (++)). split_and!; try done. set_solver.
Qed.

Lemma applyChain_index c st : c <> [] ->
  Forall (fun r => 0 <= cr_Index r < Z.of_nat (length c)) (applyChain c st).1.
Proof.
  intros Hc. assert (0 < Z.of_nat (length c)) by (destruct c; [done|simpl; lia]).
  unfold applyChain, refusal. destruct (forallb _ c); [|destruct (admissible c st)]; simpl;
    repeat constructor; simpl; lia.
Qed.

Lemma go_index n cur ts st :
  Forall (fun r => Z.of_nat n <= cr_Index r < Z.of_nat (n + length cur + length ts)) (go n cur ts st).1.
Proof.
  revert n cur st. induction ts as [|t ts IH]; intros n cur st; simpl.
  { destruct cur; [done|]. repeat constructor; simpl; lia. }
  destruct (linked t).
  - eapply Forall_impl; [apply IH|]. simpl. intros r. rewrite length_app. simpl. lia.
  - pose proof (applyChain_index (cur ++ [t])%list st ltac:(by destruct cur)) as H1.
    destruct (applyChain _ st) as [r st1]. specialize (IH (n + length (cur ++ [t]))%nat [] st1).
    destruct (go _ [] ts st1) as [r2 st2]. simpl in *. rewrite length_app in *. simpl in *.
    apply Forall_app. split.
    + apply Forall_map. eapply Forall_impl; [exact H1|]. simpl. lia.
    + eapply Forall_impl; [exact IH|]. simpl. lia.
Qed.

Lemma go_chain n cur c rest st : chain c = true ->
  go n cur (c ++ rest) st =
  (let '(r, st1) := applyChain (cur ++ c) st in
   let '(r2, st2) := go (n + length (cur ++ c)) [] rest st1 in
   ((map (shift n) r ++ r2)%list, st2)).
Proof.
  revert cur. induction c as [|t [|t' c] IH]; intros cur Hc; [done| |].
  - simpl in *. by destruct (linked t).
  - apply andb_true_iff in Hc as [Hl Hc]. cbn [app go]. rewrite Hl.
    specialize (IH (cur ++ [t])%list Hc). rewrite <- (assoc_L (++)) in IH. exact IH.
Qed.

Lemma go_shift n ts st :
  go n [] ts st = (map (shift n) (go 0 [] ts st).1, (go 0 [] ts st).2).
Proof.
  assert (forall m cur, go (n + m) cur ts st
            = (map (shift n) (go m cur ts st).1, (go m cur ts st).2)) as H.
  2:{ specialize (H 0%nat []). by rewrite Nat.add_0_r in H. }
  revert st. induction ts as [|t ts IH]; intros st m cur; simpl.
  { destruct cur; [done|]. simpl. unfold shift. simpl. do 3 f_equal. lia. }
  destruct (linked t); [apply IH|]. destruct (applyChain _ st) as [r st1].
  rewrite <- Nat.add_assoc, IH. destruct (go (m + length (cur ++ [t])) [] ts st1) as [r2 st2]. simpl.
  rewrite map_app, map_map. do 2 f_equal. apply map_ext. intros []. unfold shift. simpl. f_equal. lia.
Qed.

Lemma go_one c st : chain c = true -> go 0 [] c st = applyChain c st.
Proof.
  intros Hc. rewrite <- (app_nil_r c) at 1. rewrite go_chain by done. simpl.
  destruct (applyChain c st) as [r st1]. rewrite app_nil_r. f_equal.
  rewrite <- (map_id r) at 2. apply map_ext. by intros [].
Qed.

Lemma go_chains c rest st : chain c = true ->
  go 0 [] (c ++ rest) st =
  (let '(r1, st1) := go 0 [] c st in
   let '(r2, st2) := go 0 [] rest st1 in
   ((r1 ++ map (shift (length c)) r2)%list, st2)).
Proof.
  intros Hc. rewrite go_chain, go_one by done. simpl. destruct (applyChain c st) as [r st1].
  rewrite go_shift. destruct (go 0 [] rest st1) as [r2 st2]. simpl. do 2 f_equal.
  rewrite <- (map_id r) at 2. apply map_ext. by intros [].
Qed.

Lemma known_true st x : known st x = true <-> exists y, y ∈ st_transfers st /\ tt_ID x = tt_ID y.
Proof.
  unfold known. rewrite existsb_exists. setoid_rewrite <- list_elem_of_In.
  by setoid_rewrite bool_decide_eq_true.
Qed.

Lemma new_not_all c st : chain c = true ->
  (forall x y, x ∈ c -> y ∈ st_transfers st -> tt_ID x <> tt_ID y) ->
  forallb (fun x => bool_decide (x ∈ st_transfers st)) c = false.
Proof.
  intros Hc Hn. apply not_true_is_false. rewrite forallb_forall. intros H. destruct c as [|x c]; [done|].
  specialize (H x ltac:(by left)). apply bool_decide_eq_true in H. by apply (Hn x x ltac:(left) H).
Qed.

Lemma addAccounts_keeps i accs st :
  st_transfers (addAccounts i accs st).2 = st_transfers st
  /\ forall a l, st_accounts st !! a = Some l -> st_accounts (addAccounts i accs st).2 !! a = Some l.
Proof.
  revert i st. induction accs as [|a accs IH]; intros i st; simpl; [done|].
  destruct (st_accounts st !! ta_ID a) as [l|] eqn:E.
  - specialize (IH (i + 1) st). by destruct (addAccounts (i + 1) accs st).
  - destruct (_ && _).
    + destruct (IH (i + 1) {| st_transfers := st_transfers st;
        st_accounts := <[ta_ID a := ta_Ledger a]> (st_accounts st) |}) as [-> H]. split; [done|].
      intros b l Hb. apply H. simpl. rewrite lookup_insert_ne by congruence. done.
    + specialize (IH (i + 1) st). by destruct (addAccounts (i + 1) accs st).
Qed.

Lemma addAccounts_created i accs st :
  (forall a, a ∈ accs -> 0 < ta_Ledger a /\ ta_Code a = 1 /\ ta_Flags a = 0
     /\ (st_accounts st !! ta_ID a = None \/ st_accounts st !! ta_ID a = Some (ta_Ledger a))) ->
  (forall a b, a ∈ accs -> b ∈ accs -> ta_ID a = ta_ID b -> a = b) ->
  existsb failed (addAccounts i accs st).1 = false
  /\ forall a, a ∈ accs -> st_accounts (addAccounts i accs st).2 !! ta_ID a = Some (ta_Ledger a).
Proof.
  revert i st. induction accs as [|a accs IH]; intros i st Hok Huniq; [split; [done|set_solver]|]. simpl.
  destruct (Hok a ltac:(left)) as (Hl & Hcode & Hfl & Ha).
  destruct (st_accounts st !! ta_ID a) as [l|] eqn:E.
  - destruct Ha as [|[= ->]]; [done|]. rewrite Z.eqb_refl.
    destruct (IH (i + 1) st) as [H1 H2]; [set_solver|set_solver|].
    destruct (addAccounts_keeps (i + 1) accs st) as [_ Hk]. specialize (Hk _ _ E).
    destruct (addAccounts (i + 1) accs st) as [r st']. simpl in *. split; [done|].
    intros b [->|Hb]%elem_of_cons; [done|by apply H2].
  - rewrite Hcode, Hfl, (proj2 (Z.ltb_lt _ _) Hl). simpl.
    set (st1 := {| st_transfers := st_transfers st; st_accounts := <[ta_ID a := ta_Ledger a]> (st_accounts st) |}).
    destruct (IH (i + 1) st1) as [H1 H2]; [|set_solver|].
    { intros b Hb. destruct (Hok b ltac:(by right)) as (? & ? & ? & Hb').
      refine (conj _ (conj _ (conj _ _))); try done. simpl.
      destruct (decide (ta_ID a = ta_ID b)) as [Heq|Hne]; [|by rewrite lookup_insert_ne].
      rewrite (Huniq a b ltac:(left) ltac:(by right) Heq), lookup_insert_eq. by right. }
    split; [done|]. intros b [->|Hb]%elem_of_cons; [|by apply H2].
    apply addAccounts_keeps. simpl. by rewrite lookup_insert_eq.
Qed.

Lemma applyChain_new c st : chain c = true ->
  (forall x y, x ∈ c -> y ∈ st_transfers st -> tt_ID x <> tt_ID y) ->
  applyChain c st =
  (if admissible c st
   then ([], {| st_transfers := st_transfers st ++ c; st_accounts := st_accounts st |})
   else (refusal, st)).
Proof. intros Hc Hn. unfold applyChain. by rewrite new_not_all. Qed.

Lemma admissible_true c st :
  (forall x y, x ∈ c -> y ∈ st_transfers st -> tt_ID x <> tt_ID y) -> NoDup (map tt_ID c) ->
  (forall x, x ∈ c -> 0 < tt_Amount x < 2 ^ 64 /\ tt_DebitAccountID x <> tt_CreditAccountID x
     /\ 0 < tt_Ledger x /\ st_accounts st !! tt_DebitAccountID x = Some (tt_Ledger x)
     /\ st_accounts st !! tt_CreditAccountID x = Some (tt_Ledger x)
     /\ tt_Code x = 1 /\ (tt_Flags x = 0 \/ tt_Flags x = TBFlagLinked)) ->
  volumeOf (st_transfers st ++ c) < 2 ^ 128 -> admissible c st = true.
Proof.
  intros Hn Hnd Hall Hv. unfold admissible. rewrite bool_decide_eq_true_2 by done.
  rewrite (proj2 (Z.ltb_lt _ _) Hv), andb_true_r. apply forallb_forall. intros x Hx%list_elem_of_In.
  destruct (Hall x Hx) as ([Ha1 Ha2] & Hd & Hl & H1 & H2 & Hcode & Hfl). apply andb_true_iff. split.
  - apply negb_true_iff, not_true_is_false. rewrite known_true. intros (y & Hy & Heq). by apply (Hn x y).
  - unfold fine. rewrite (proj2 (Z.ltb_lt _ _) Ha1), (proj2 (Z.ltb_lt _ _) Ha2), (proj2 (Z.ltb_lt _ _) Hl).
    rewrite (bool_decide_eq_false_2 _ Hd), !bool_decide_eq_true_2, Hcode by done.
    by destruct Hfl as [-> | ->].
Qed.

#[export] Instance server_laws : TigerBeetleLaws server.
Proof.
  refine {| tb_transfers := st_transfers; tb_accounts := st_accounts |}.
  - done.
  - intros. by apply go_chains.
  - intros c t r t' E. change r with (r, t').1. rewrite <- E.
    eapply Forall_impl; [apply (go_index 0 [])|]. simpl. lia.
  - intros c t. destruct (go_grows 0 [] c t) as (added & H1 & H2 & _). by exists added.
  - intros c t. by destruct (go_grows 0 [] c t) as (_ & _ & _ & H).
  - intros c t r t' Hc _ Hn. simpl. rewrite go_one, applyChain_new by done.
    destruct (admissible c t); intros [= <- <-]; [by left|by right].
  - intros c t Hc Hn Hnd Hall Hv. simpl. rewrite go_one, applyChain_new by done.
    by rewrite admissible_true.
  - intros c t r t' Hc Hin. simpl. rewrite go_one by done. unfold applyChain.
    assert (forallb (fun x => bool_decide (x ∈ st_transfers t)) c = true) as ->; [|by intros [= <- <-]].
    apply forallb_forall. intros x Hx%list_elem_of_In. by apply bool_decide_eq_true_2, Hin.
  - intros accs t r t' E Hok Hu. simpl in E. destruct (addAccounts_created 0 accs t Hok Hu) as [H1 H2].
    by rewrite E in H1, H2.
  - intros accs t. apply addAccounts_keeps.
  - intros accs t a l. apply addAccounts_keeps.
  - intros a t l Ha. simpl. rewrite Ha. simpl. eexists. done.
  - intros a t Ha. simpl. by rewrite Ha.
Defined.
End Server.

(** ** The service *)

Module LedgerRuns.
Import TB Batch Server LedgerProps LedgerBooks.

Abbreviation Svc := (Service.Service (T := Store) (B := nat)).

(** ** The surroundings *)

(** Calls in [lost] are executed but not answered. *)
Definition world (lost : list nat) (n : nat) : Call :=
  {| c_now := 1000 + Z.of_nat n;
     c_out := if existsb (Nat.eqb n) lost then CallLost (MsgErr "connection reset") else Done;
     c_ids := fun i => Some (ascii_of_nat (100 + 10 * n + i)) |}.

Definition tb0 (lost : list nat) : Sql Store :=
  {| sq_tables := {| st_transfers := []; st_accounts := ∅ |}; sq_calls := 0; sq_world := world lost |}.

Definition line (id : ascii) (account ty : string) (amount : Q) : EntryLine :=
  {| el_ID := id; el_AccountID := uuid_Nil;
     el_Posting := {| po_AccountCode := account; po_EntryType := ty; po_Amount := amount;
                      po_Currency := "USD"; po_Description := "" |} |}.

Definition entryOf (lines : list EntryLine) : JournalEntry :=
  {| je_ID := uuid_Nil; je_TenantID := None; je_IdempotencyKey := "k"; je_PostedAt := zeroTime;
     je_EffectiveDate := zeroTime; je_Description := "payout"; je_ReferenceType := "";
     je_ReferenceID := None; je_ReversedBy := None; je_ReversalOf := None; je_Lines := lines;
     je_Metadata := Some [("source", "test")] |}.

(** One debit against a payout and a fee. *)
Definition lines3 : list EntryLine :=
  [line uuid_Nil "bank" EntryTypeDebit (201 # 2); line uuid_Nil "payout" EntryTypeCredit (241 # 4);
   line uuid_Nil "fee" EntryTypeCredit (161 # 4)].
Definition entry3 : JournalEntry := entryOf lines3.

Definition submit0 : SubmitEnv :=
  {| se_stopped := false; se_before := []; se_after := []; se_cancelled := None |}.

Definition env (k : nat) : Service.PostEnv :=
  {| Service.pe_id := fun i => ascii_of_nat (1 + 10 * k + i); Service.pe_now := 5;
     Service.pe_ctxErr := fun _ => None; Service.pe_interrupted := fun _ => None;
     Service.pe_random := fun _ => GoNumbers.f64_of_Z 0; Service.pe_ctxAtWrite := fun _ => None;
     Service.pe_bulkhead := fun _ => Bulkhead.NewBulkhead 100; Service.pe_submit := fun _ => submit0 |}.

Definition pg0 : Sql PG.LedgerTables :=
  {| sq_tables := {| PG.lt_accounts := [{| PG.ac_ID := "B"%char; PG.ac_Code := "bank"; PG.ac_Currency := "USD" |};
                                        {| PG.ac_ID := "P"%char; PG.ac_Code := "payout"; PG.ac_Currency := "USD" |};
                                        {| PG.ac_ID := "F"%char; PG.ac_Code := "fee"; PG.ac_Currency := "USD" |}];
                     PG.lt_journal := []; PG.lt_lines := []; PG.lt_snapshots := ∅ |};
     sq_calls := 0; sq_world := world [] |}.

(** The default configuration: batches, bulkhead, queue for Postgres. *)
Definition svc (lost : list nat) : Svc :=
  Service.NewService Service.defaultConfig (Some (tb0 lost)) (Some pg0)
    (Some (fun _ n => (Ok tt, S n))) 0%nat true.

Definition run2 {A} (p : result A * Svc) : Svc := p.2.
Definition recordOf (s : Svc) : list TBTransfer :=
  match Service.sv_tb s with Some d => st_transfers (sq_tables d) | None => [] end.
Definition balanceOf (code : string) (s : Svc) : result Q := (Service.GetBalance code s).1.

(** The call that creates the transfers loses its answer; the retry finds them on
    record, and the post succeeds once. *)
Definition afterPost : result JournalEntry * Svc := Service.PostEntries (env 0) entry3 (svc [1%nat]).

Example post_survives_lost_answer :
  is_ok afterPost.1 = true
  /\ map tt_Amount (recordOf afterPost.2) = [6025000000; 4025000000]
  /\ map tt_Flags (recordOf afterPost.2) = [1; 0]
  /\ balanceOf "bank" afterPost.2 = Ok (-201 # 2) /\ balanceOf "fee" afterPost.2 = Ok (161 # 4).
Proof. vm_compute. auto. Qed.

(** ** The hypotheses hold there *)

Definition chainOf (k : nat) (entry : JournalEntry) : list TBTransfer :=
  match transfersOf 1 (Service.assign (env k) entry) with Ok c => c | Err _ => [] end.

Lemma chainOf_eq k entry c :
  transfersOf 1 (Service.assign (env k) entry) = Ok c -> c = chainOf k entry.
Proof. unfold chainOf. by intros ->. Qed.

Lemma env_alone (s : Svc) k : alone s (env k).
Proof. intros _ i. done. Qed.

(** Ids can be compared. *)
Lemma fresh_check (s : Svc) k entry d : Service.sv_ledgerID s = 1 ->
  bool_decide (NoDup (map tt_ID (chainOf k entry))) = true ->
  own (chainOf k entry) (sq_tables d) = [] -> Z.of_nat (length (chainOf k entry)) <= 2 ^ 32 ->
  forall c, transfersOf (Service.sv_ledgerID s) (Service.assign (env k) entry) = Ok c ->
  fresh_ids s (env k) d c.
Proof.
  intros Hl Hn Ho Hz c Ec. rewrite Hl in Ec. apply chainOf_eq in Ec as ->.
  apply bool_decide_eq_true in Hn. split_and!; [done|done|]. intros i.
  split; [by intros e ts ?%elem_of_nil|]. simpl. lia.
Qed.

Definition sizedb (l : EntryLine) : bool :=
  (String.eqb (el_EntryType l) EntryTypeDebit || String.eqb (el_EntryType l) EntryTypeCredit)
  && Qeq_bool (el_Amount l * inject_Z AmountScale) (inject_Z (lineUnits l))
  && (lineUnits l <=? int64_max).

Lemma sizedb_sized ls : forallb sizedb ls = true -> Forall sized ls.
Proof.
  rewrite forallb_forall, Forall_forall. intros H l Hl%list_elem_of_In. specialize (H l Hl).
  unfold sizedb in H. rewrite !andb_true_iff, orb_true_iff, !String.eqb_eq, Z.leb_le in H.
  destruct H as [[Ht Hu] Hm]. split; [done|]. split; [|done]. by apply Qeq_bool_eq.
Qed.

Lemma lines3_sized : Forall sized lines3.
Proof. apply sizedb_sized. vm_compute. reflexivity. Qed.

Lemma fresh3 lost : forall c,
  transfersOf (Service.sv_ledgerID (svc lost)) (Service.assign (env 0) entry3) = Ok c ->
  fresh_ids (svc lost) (env 0) (tb0 lost) c.
Proof. apply fresh_check; [done|vm_compute; reflexivity|reflexivity|vm_compute; discriminate]. Qed.

Lemma transfers_of_entry_witness :
  exists ts, transfersOf 1 entry3 = Ok ts /\ decomposition 1 entry3 ts.
Proof. apply (transfers_of_entry 1 entry3); [vm_compute; reflexivity|exact lines3_sized]. Defined.

(** With the lost answer of [afterPost]. *)
Lemma posted_exactly_once_witness :
  exists c d', transfersOf 1 (Service.assign (env 0) entry3) = Ok c /\ c <> []
    /\ Service.sv_tb afterPost.2 = Some d'
    /\ (own c (sq_tables d') = [] \/ own c (sq_tables d') = c)
    /\ (is_ok afterPost.1 = true -> own c (sq_tables d') = c).
Proof.
  apply (posted_exactly_once (svc [1%nat]) (env 0) entry3 (tb0 [1%nat]) afterPost.1 afterPost.2);
    [vm_compute; reflexivity|exact lines3_sized|reflexivity|apply fresh3|apply surjective_pairing].
Defined.

Lemma healthy3 : healthy (svc []) (env 0) entry3 (tb0 []).
Proof.
  constructor; try apply env_alone; try done.
  - by right.
  - intros l _. left. apply lookup_empty.
  - assert (forallb (fun x => forallb (fun y => bool_decide (accountOf x <> accountOf y))
              (creditLines lines3)) (debitLines lines3) = true) as H by (vm_compute; reflexivity).
    rewrite forallb_forall in H. intros x y Hx Hy. specialize (H x ltac:(by apply list_elem_of_In)).
    rewrite forallb_forall in H. specialize (H y ltac:(by apply list_elem_of_In)).
    by apply bool_decide_eq_true in H.
Qed.

Lemma post_succeeds_witness :
  exists c s' d', Service.PostEntries (env 0) entry3 (svc []) = (Ok (Service.assign (env 0) entry3), s')
    /\ transfersOf 1 (Service.assign (env 0) entry3) = Ok c
    /\ Service.sv_tb s' = Some d'
    /\ tb_transfers (sq_tables d') = (tb_transfers (sq_tables (tb0 [])) ++ c)%list.
Proof.
  apply (post_succeeds (svc []) (env 0) entry3 (tb0 []));
    [vm_compute; reflexivity|exact lines3_sized|exact healthy3|apply fresh3].
Defined.

(** ** Balances before and after *)

(** A second post of the same lines, on a service that knows the accounts. *)
Definition s1 : Svc := (Service.PostEntries (env 0) entry3 (svc [])).2.
Definition d1 : Sql Store := default (tb0 []) (Service.sv_tb s1).
Definition afterSecond : result JournalEntry * Svc := Service.PostEntries (env 1) entry3 s1.

Lemma totals_check code ts ls :
  (0 <=? debited (AccountIDFromCode code) ts) && (0 <=? credited (AccountIDFromCode code) ts)
  && (0 <=? post (AccountIDFromCode code) (debitLines ls)) && (0 <=? post (AccountIDFromCode code) (creditLines ls))
  && (debited (AccountIDFromCode code) ts + post (AccountIDFromCode code) (debitLines ls) <=? int64_max)
  && (credited (AccountIDFromCode code) ts + post (AccountIDFromCode code) (creditLines ls) <=? int64_max) = true ->
  in_range (AccountIDFromCode code) ts
  /\ debited (AccountIDFromCode code) ts + post (AccountIDFromCode code) (debitLines ls) <= int64_max
  /\ credited (AccountIDFromCode code) ts + post (AccountIDFromCode code) (creditLines ls) <= int64_max.
Proof. unfold in_range. rewrite !andb_true_iff, !Z.leb_le. lia. Qed.

Lemma measurable_check code (s : Svc) k entry d :
  Service.sv_tb s = Some d -> Service.sv_ledgerID s = 1 -> Forall sized (je_Lines entry) ->
  bool_decide (NoDup (map tt_ID (chainOf k entry))) = true ->
  own (chainOf k entry) (sq_tables d) = [] -> Z.of_nat (length (chainOf k entry)) <= 2 ^ 32 ->
  in_range (AccountIDFromCode code) (tb_transfers (sq_tables d))
  /\ debited (AccountIDFromCode code) (tb_transfers (sq_tables d))
     + post (AccountIDFromCode code) (debitLines (je_Lines entry)) <= int64_max
  /\ credited (AccountIDFromCode code) (tb_transfers (sq_tables d))
     + post (AccountIDFromCode code) (creditLines (je_Lines entry)) <= int64_max ->
  measurable code s (env k) entry d.
Proof. intros Hd Hl Hs Hn Ho Hz (H1 & H2 & H3). constructor; try done. by apply fresh_check. Qed.

Definition orEntry (r : result JournalEntry) : JournalEntry :=
  match r with Ok o => o | Err _ => entry3 end.

Lemma ok_entry r : is_ok r = true -> r = Ok (orEntry r).
Proof. by destruct r. Qed.

(** Only the answer of a call is computed. *)
Lemma answer {A} (p : result A * Svc) r : p.1 = r -> p = (r, p.2).
Proof. by destruct p; intros <-. Qed.

Lemma default_Some {A} (o : option A) x : bool_decide (is_Some o) = true -> o = Some (default x o).
Proof. intros [y ->]%bool_decide_eq_true. done. Qed.

Lemma s1_tb : Service.sv_tb s1 = Some d1.
Proof. apply (default_Some (Service.sv_tb s1) (tb0 [])). vm_compute. reflexivity. Qed.

Lemma second_measurable : measurable "bank" s1 (env 1) entry3 d1.
Proof.
  apply measurable_check; [exact s1_tb|vm_compute; reflexivity|exact lines3_sized|vm_compute; reflexivity
    |vm_compute; reflexivity|vm_compute; discriminate|].
  apply totals_check. vm_compute. reflexivity.
Qed.

Lemma second_answer : afterSecond.1 = Ok (orEntry afterSecond.1).
Proof. apply ok_entry. vm_compute. reflexivity. Qed.

Lemma bank_first : (Service.GetBalance "bank" s1).1 = Ok (-201 # 2).
Proof. vm_compute. reflexivity. Qed.

Lemma bank_second : (Service.GetBalance "bank" afterSecond.2).1 = Ok (-201 # 1).
Proof. vm_compute. reflexivity. Qed.

Lemma posting_moves_balances_witness :
  ((dVal (L := Qlib) (-201 # 1) - dVal (L := Qlib) (-201 # 2)) * inject_Z AmountScale
   == inject_Z (moved (AccountIDFromCode "bank") (je_Lines entry3)))%Q.
Proof.
  apply (posting_moves_balances "bank" s1 (env 1) entry3 d1 (orEntry afterSecond.1) afterSecond.2
    (-201 # 2) (-201 # 1) (Service.GetBalance "bank" s1).2
    (Service.GetBalance "bank" afterSecond.2).2 second_measurable).
  - exact (answer _ _ second_answer).
  - exact (answer _ _ bank_first).
  - exact (answer _ _ bank_second).
Defined.

(** ** A reversal *)

Definition entryID : UUID := je_ID (Service.assign (env 0) entry3).
Definition pg1 : Sql PG.LedgerTables := (PG.SyncJournalEntry (Service.assign (env 0) entry3) pg0).2.
Definition rid (i : nat) : UUID := ascii_of_nat (200 + i).
Definition loaded : result JournalEntry * Sql PG.LedgerTables := PG.GetJournalEntryWithLines entryID pg1.
Definition original : JournalEntry := orEntry loaded.1.
Definition s2 : Svc := Service.set_pg s1 pg1.
Definition afterReverse : result JournalEntry * Svc := Service.ReverseEntry (env 2) rid entryID "error" s2.
Definition reversal : JournalEntry := Service.reversalOf (env 2) rid entryID "error" original.

Lemma loaded_eq : loaded = (Ok original, loaded.2).
Proof.
  assert (loaded.1 = Ok original) as H by (apply ok_entry; vm_compute; reflexivity).
  rewrite <- H. apply surjective_pairing.
Qed.

(** The read model gives the lines back, under ids of its own. *)
Lemma original_sized : Forall sized (je_Lines original).
Proof. apply sizedb_sized. vm_compute. reflexivity. Qed.

Lemma set_pg_tb (s : Svc) pg : Service.sv_tb (Service.set_pg s pg) = Service.sv_tb s.
Proof. done. Qed.

Lemma reversal_measurable : measurable "bank" s2 (env 2) reversal d1.
Proof.
  apply measurable_check; [unfold s2; rewrite set_pg_tb; exact s1_tb|vm_compute; reflexivity| |vm_compute; reflexivity
    |vm_compute; reflexivity|vm_compute; discriminate|].
  - eapply sized_reversed; [exact original_sized|apply reversal_lines].
  - apply totals_check. vm_compute. reflexivity.
Qed.

Lemma reverse_answer : afterReverse.1 = Ok (orEntry afterReverse.1).
Proof. apply ok_entry. vm_compute. reflexivity. Qed.

Lemma bank_kept : (Service.GetBalance "bank" s2).1 = Ok (-201 # 2).
Proof. vm_compute. reflexivity. Qed.

Lemma bank_restored : (Service.GetBalance "bank" afterReverse.2).1 = Ok (0 # 1).
Proof. vm_compute. reflexivity. Qed.

Lemma reversal_undoes_posting_witness :
  ((dVal (L := Qlib) (0 # 1) - dVal (L := Qlib) (-201 # 2)) * inject_Z AmountScale
   == inject_Z (- moved (AccountIDFromCode "bank") (je_Lines original)))%Q.
Proof.
  apply (reversal_undoes_posting "bank" s2 (env 2) rid entryID "error" d1 pg1 loaded.2 original
    (orEntry afterReverse.1) afterReverse.2 (-201 # 2) (0 # 1) (Service.GetBalance "bank" s2).2
    (Service.GetBalance "bank" afterReverse.2).2 eq_refl loaded_eq original_sized reversal_measurable).
  - exact (answer _ _ reverse_answer).
  - exact (answer _ _ bank_kept).
  - exact (answer _ _ bank_restored).
Defined.

(** ** Queues *)

Definition batch2 : Batcher :=
  flushPending
    {| bt_maxSize := 2; bt_pending := [entry3]; bt_timer := true; bt_armed := 1; bt_done := false;
       bt_flushed := [[entry3; entry3]] |} false 0 false.

(** Two entries fill a batch, its stopped timer fires nevertheless, a third entry
    leaves with its own timer. *)
Lemma batch2_run : bsteps (newBatcher 2) [entry3; entry3; entry3] batch2.
Proof.
  change [entry3; entry3; entry3] with ((((([] ++ [entry3]) ++ [entry3]) ++ []) ++ [entry3]) ++ [])%list.
  eapply bsteps_step; [eapply bsteps_step; [eapply bsteps_step; [eapply bsteps_step; [eapply bsteps_step;
    [apply bsteps_refl|]|]|]|]|].
  - apply (StepSubmit entry3 true). reflexivity.
  - apply (StepSubmit entry3 false). reflexivity.
  - apply StepFire. simpl. lia.
  - apply (StepSubmit entry3 true). reflexivity.
  - apply (StepFire {| bt_maxSize := 2; bt_pending := [entry3]; bt_timer := true; bt_armed := 1;
                       bt_done := false; bt_flushed := [[entry3; entry3]] |}). simpl. lia.
Qed.

Lemma batcher_conserves_witness : BatcherProps.batching 2 [entry3; entry3; entry3] batch2.
Proof. apply (BatcherProps.batcher_conserves 2 [entry3; entry3; entry3] batch2). exact batch2_run. Defined.

(** A database that answers, and counts. *)
Definition count (e : JournalEntry) (n : nat) : result unit * nat := (Ok tt, S n).

Definition evs3 : list Sync.SyncEvent :=
  [Sync.SEnqueue entry3; Sync.SEnqueue entry3; Sync.SReceive; Sync.STick; Sync.SEnqueue entry3].

Lemma sync_conserves_witness : exists lost,
  (SyncProps.enqueued evs3 ≡ₚ [entry3] ++ [entry3; entry3] ++ [] ++ lost)%list
  /\ 0 = wrap64 (Z.of_nat (length lost)) /\ 2 <= 50000
  /\ (([] : list JournalEntry) <> [] -> 0 < 1000).
Proof.
  apply (SyncProps.sync_conserves count 1000 0 evs3 0%nat [entry3]
    (Sync.runs count evs3 (Sync.newSyncConsumer 1000 0) 0%nat).1.2 1%nat). reflexivity.
Defined.

Lemma stop_drains_witness : exists more sc' d2,
  Sync.run count Sync.SDone (Sync.runs count evs3 (Sync.newSyncConsumer 1000 0) 0%nat).1.2 1%nat = (more, sc', d2)
  /\ (SyncProps.enqueued evs3 ≡ₚ [entry3] ++ more)%list /\ Sync.sc_running sc' = false.
Proof.
  apply (SyncProps.stop_drains count 1000 0 evs3 0%nat [entry3]
    (Sync.runs count evs3 (Sync.newSyncConsumer 1000 0) 0%nat).1.2 1%nat);
    [done|reflexivity|reflexivity|reflexivity|vm_compute; discriminate].
Defined.

(** ** What goes wrong *)

Definition js : Json unit unit := {|
  json_Marshal := fun _ => Err (MsgErr "json"); json_MarshalAny := fun _ => Err (MsgErr "json");
  json_UnmarshalAny := fun _ => Err (MsgErr "json"); json_UnmarshalReserve := fun _ => Err (MsgErr "json");
  json_UnmarshalRelease := fun _ => Err (MsgErr "json"); json_UnmarshalConsume := fun _ => Err (MsgErr "json");
  json_UnmarshalCredit := fun _ => Err (MsgErr "json"); json_UnmarshalDebit := fun _ => Err (MsgErr "json");
|}.

Definition payload : LedgerPostPayload :=
  {| lpp_TransferID := "t"%char; lpp_TenantID := "n"%char; lpp_IdempotencyKey := "ledger:t";
     lpp_Description := "settlement"; lpp_ReferenceType := "transfer";
     lpp_Lines := [{| lle_AccountCode := "bank"; lle_EntryType := "DEBIT"; lle_Amount := 5 # 1;
                      lle_Currency := "USD"; lle_Description := "" |};
                   {| lle_AccountCode := "payout"; lle_EntryType := "CREDIT"; lle_Amount := 5 # 1;
                      lle_Currency := "USD"; lle_Description := "" |}] |}.

Definition event : Event (EventData unit unit) :=
  {| ev_ID := "e"%char; ev_TenantID := "n"%char; ev_Type := IntentLedgerPost; ev_Timestamp := 0;
     ev_Data := DataStruct _ _ (PLedgerPost payload) |}.

(** Delivery [k] of the event; the worker draws its ids anew. *)
Definition deliver (k : nat) (s : Svc) : result unit * Svc :=
  LedgerWorker.handleEvent js (fun _ => Err (MsgErr "json")) (Service.PostEntries (env k))
    (fun i => ascii_of_nat (50 + 10 * k + i)) 7 event s.

(** Two transfers under one idempotency key. *)
Definition sameKey (ts : list TBTransfer) : bool :=
  match ts with
  | [x; y] => bool_decide (tt_UserData128 x = tt_UserData128 y) && bool_decide (tt_ID x <> tt_ID y)
  | _ => false
  end.

(** The first delivery is done but its acknowledgement is lost: the second
    posts the entry again, with the same idempotency key. *)
Example redelivered_post_posts_twice :
  let s := (deliver 0 (svc [])).2 in
  is_ok (deliver 0 (svc [])).1 = true /\ is_ok (deliver 1 s).1 = true
  /\ balanceOf "bank" s = Ok (-5 # 1) /\ balanceOf "bank" (deliver 1 s).2 = Ok (-10 # 1)
  /\ sameKey (recordOf (deliver 1 s).2) = true.
Proof. vm_compute. auto. Qed.

(** Reversing the same entry again reverses it again. *)
Example reversed_twice :
  is_ok afterReverse.1 = true
  /\ is_ok (Service.ReverseEntry (env 3) (fun i => ascii_of_nat (240 + i)) entryID "error" afterReverse.2).1 = true
  /\ balanceOf "bank" (Service.ReverseEntry (env 3) (fun i => ascii_of_nat (240 + i)) entryID "error"
       afterReverse.2).2 = Ok (201 # 2).
Proof. vm_compute. auto. Qed.

(** Without metrics the post is on record when the gauge panics. *)
Example nil_metrics_panics_after_write :
  let s := Service.NewService Service.defaultConfig (Some (tb0 [])) (Some pg0) None 0%nat false in
  (Service.PostEntries (env 0) entry3 s).1 = Err (PanicErr "nil pointer dereference")
  /\ length (recordOf (Service.PostEntries (env 0) entry3 s).2) = 2%nat.
Proof. vm_compute. auto. Qed.

(** Both hypotheses of [refused_entry] are met by what the worker posts. *)
Example worker_entry_has_no_metadata newv7 now p :
  je_Metadata (LedgerWorker.postEntry newv7 now p) = None
  /\ je_Metadata (LedgerWorker.reverseEntry newv7 now p) = None.
Proof. done. Qed.

Definition workerID (i : nat) : UUID := ascii_of_nat i.
Definition workerEvs : list Sync.SyncEvent :=
  [Sync.SEnqueue (LedgerWorker.postEntry workerID 7 payload); Sync.SReceive; Sync.STick].
Definition workerRun : list JournalEntry * Sync.SyncConsumer * Sql PG.LedgerTables :=
  Sync.runs PG.SyncJournalEntry workerEvs (Sync.newSyncConsumer 1000 0) pg0.

Lemma no_metadata_never_synced_witness : workerRun.1.1 = [].
Proof.
  apply (ReadModel.no_metadata_never_synced 1000 0 workerEvs pg0 workerRun.1.1 workerRun.1.2 workerRun.2).
  - intros e He. apply list_elem_of_singleton in He. by rewrite He.
  - change (workerRun = (workerRun.1.1, workerRun.1.2, workerRun.2)). by destruct workerRun as [[]].
Defined.
End LedgerRuns.
