(* ===== verification/TreasuryWorkerProps.v ===== *)
(** * From intents to books

    What the deliveries of treasury intents do to the positions: a delivery
    that moved the books can be repeated at will, a settled transfer leaves
    the balance lower by its amount and nothing reserved, a transfer that
    fails and is refunded is released twice. *)

From Stdlib Require Import Ascii QArith Lqa.
From S2P Require Import Prelude ThirdParty Money Deposits Transfer Outbox Treasury TreasuryFacts TreasuryProps TreasuryFlush TreasurySync TreasuryFlushProps TreasuryRecovery TreasuryDB TreasuryWorker LedgerEntries TransferStore Engine EngineFacts.
Local Open Scope string_scope.
Local Open Scope Z_scope.

Section WorkerProperties.
Context {L : ThirdParty} {LL : ThirdPartyLaws L} {S : Type} `{TS : !TreasuryStore S}.
Context {J V B : Type} (js : Json J V) (bus_Publish : Event ResultData -> B -> result unit * B).
Implicit Types w : Worker (S := S) B.

Abbreviation deliver := (handleEvent js bus_Publish).

Lemma run_moved_ok env c (m : Manager S) :
  wf m -> abs (run env c m).2 <> abs m -> (run env c m).1 = Ok tt.
Proof.
  intros W Hmv. pose proof (run_effect env c m W) as He. destruct (run env c m) as [r m'].
  destruct He as [(e & -> & Hc & _)|[(-> & _)|(-> & _)]]; [|done..].
  destruct Hmv. by apply abs_calm.
Qed.

(** Redelivery is harmless: once the delivery of an event has moved the
    books, delivering it again, any number of times, because its result could
    not be published or its acknowledgement was lost, leaves the manager
    exactly as it is. *)
Theorem redelivery_no_second_effect we event wes w :
  wf (wk_treasury _ w) ->
  abs (wk_treasury _ (deliver we event w).2) <> abs (wk_treasury _ w) ->
  wk_treasury _ (deliveries js bus_Publish (map (fun we' => (we', event)) wes)
                   (deliver we event w).2)
  = wk_treasury _ (deliver we event w).2.
Proof.
  intros W Hmv. rewrite !handleEvent_run in *.
  destruct (event_call js event) as [c|] eqn:Hc; [|done].
  pose proof (run_moved_ok _ _ _ W Hmv) as Hok. apply pair_fst in Hok.
  set (m1 := (run (we_env we) c (wk_treasury _ w)).2) in *.
  assert (forall w', wk_treasury _ w' = m1 ->
    wk_treasury _ (deliveries js bus_Publish (map (fun we' => (we', event)) wes) w') = m1) as H.
  { induction wes as [|we' wes IH]; intros w' Hw'; simpl; [done|]. apply IH.
    rewrite handleEvent_run, Hc, Hw'. by rewrite (run_repeat _ (we_env we') _ _ _ W Hok). }
  apply H. by rewrite handleEvent_run, Hc.
Qed.

(** The calls that the treasury intents of a transfer turn into. *)
Definition reserve_call (t : Transfer) : Call :=
  Build_Call OpReserve (tr_TenantID t) (tr_SourceCurrency t) (location_of t)
    (tr_SourceAmount t) (tr_ID t) "".
Definition consume_call (t : Transfer) : Call :=
  Build_Call OpConsume (tr_TenantID t) (tr_SourceCurrency t) (location_of t)
    (tr_SourceAmount t) (tr_ID t) "".
Definition release_call (t : Transfer) (reason : string) : Call :=
  Build_Call OpRelease (tr_TenantID t) (tr_SourceCurrency t) (location_of t)
    (tr_SourceAmount t) (releaseRef {| tlp_TransferID := tr_ID t; tlp_TenantID := tr_TenantID t;
      tlp_Currency := tr_SourceCurrency t; tlp_Amount := tr_SourceAmount t;
      tlp_Location := location_of t; tlp_Reason := reason |}) "".

Definition source_key (t : Transfer) : positionKey :=
  (tr_TenantID t, tr_SourceCurrency t, location_of t).

(** A delivery that moved the books applied the abstract operation. *)
Lemma moved_applies env c (m : Manager S) :
  wf m -> all_solvent m -> cl_op c <> OpCredit -> abs (run env c m).2 <> abs m ->
  wf (run env c m).2 /\ all_solvent (run env c m).2 /\
  exists k k', abs m !! call_key c = Some k /\ spec_f (cl_op c) (micro (cl_amount c)) k = Some k'
    /\ abs (run env c m).2 = <[call_key c := k']> (abs m).
Proof.
  intros W Hs Hop Hmv. destruct (run env c m) as [r m'] eqn:Hrun. simpl in *.
  split; [by eapply run_wf|].
  destruct (run_simulates env c m r m' 0 W Hs) as [[HA _]|(_ & _ & Ha & k & k' & Hk & Hsk & Hf & HA)];
    [done| |done|done|].
  - intros key k Hk. destruct (abs_range m key k W Hk) as ([_ ?] & _). destruct (cl_op c); try done; lia.
  - split; [|eauto 6]. unfold all_solvent. rewrite HA. apply map_Forall_insert_2; [|done].
    by eapply spec_f_solvent.
Qed.

(** Two deliveries for the same position that both moved the books. *)
Lemma two_deliveries we we' e1 e2 c1 c2 key w :
  wf (wk_treasury _ w) -> all_solvent (wk_treasury _ w) ->
  event_call js e1 = Some c1 -> event_call js e2 = Some c2 ->
  cl_op c1 <> OpCredit -> cl_op c2 <> OpCredit -> call_key c1 = key -> call_key c2 = key ->
  let w1 := (deliver we e1 w).2 in let w2 := (deliver we' e2 w1).2 in
  abs (wk_treasury _ w1) <> abs (wk_treasury _ w) ->
  abs (wk_treasury _ w2) <> abs (wk_treasury _ w1) ->
  exists k k1 k2, abs (wk_treasury _ w) !! key = Some k
    /\ spec_f (cl_op c1) (micro (cl_amount c1)) k = Some k1
    /\ spec_f (cl_op c2) (micro (cl_amount c2)) k1 = Some k2
    /\ abs (wk_treasury _ w2) = <[key := k2]> (abs (wk_treasury _ w)).
Proof.
  intros W Hs He1 He2 Ho1 Ho2 <- Hk2. cbv zeta. rewrite !handleEvent_run, He1, He2.
  intros H1 H2.
  destruct (moved_applies _ _ _ W Hs Ho1 H1) as (W1 & Hs1 & k & k1 & Hk & Hf1 & HA1).
  destruct (moved_applies _ _ _ W1 Hs1 Ho2 H2) as (_ & _ & k1' & k2 & Hk1 & Hf2 & HA2).
  rewrite Hk2 in Hk1, HA2. rewrite HA1, lookup_insert_eq in Hk1. injection Hk1 as <-.
  exists k, k1, k2. split_and!; try done. by rewrite HA2, HA1, insert_insert_eq.
Qed.

(** *** From the engine's entries to calls *)

Lemma delivered_reserve (JL : JsonLaws js) e event p :
  delivered js e event -> oe_EventType e = IntentTreasuryReserve ->
  oe_Payload e = PTreasuryReserve p ->
  event_call js event = Some (Build_Call OpReserve (trp_TenantID p) (trp_Currency p)
    (trp_Location p) (trp_Amount p) (trp_TransferID p) "").
Proof.
  intros [Hty Hr] He Hp. unfold event_call. rewrite Hty, He. simpl.
  unfold unmarshalReserve. rewrite (unmarshalEventData_ok js _ _ event (PTreasuryReserve p) p); try done.
  - by rewrite <- Hp.
  - apply JL.
  - intros raw v Hv. destruct (json_any _ JL raw v Hv) as (raw' & ? & ? & _). eauto.
Qed.

Lemma delivered_consume (JL : JsonLaws js) e event p :
  delivered js e event -> oe_EventType e = IntentTreasuryConsume ->
  oe_Payload e = PTreasuryConsume p ->
  event_call js event = Some (Build_Call OpConsume (tcp_TenantID p) (tcp_Currency p)
    (tcp_Location p) (tcp_Amount p) (tcp_TransferID p) "").
Proof.
  intros [Hty Hr] He Hp. unfold event_call. rewrite Hty, He. simpl.
  unfold unmarshalConsume. rewrite (unmarshalEventData_ok js _ _ event (PTreasuryConsume p) p); try done.
  - by rewrite <- Hp.
  - apply JL.
  - intros raw v Hv. destruct (json_any _ JL raw v Hv) as (raw' & ? & _ & _ & ?). eauto.
Qed.

Lemma delivered_release (JL : JsonLaws js) e event p :
  delivered js e event -> oe_EventType e = IntentTreasuryRelease ->
  oe_Payload e = PTreasuryRelease p ->
  event_call js event = Some (Build_Call OpRelease (tlp_TenantID p) (tlp_Currency p)
    (tlp_Location p) (tlp_Amount p) (releaseRef p) "").
Proof.
  intros [Hty Hr] He Hp. unfold event_call. rewrite Hty, He. simpl.
  unfold unmarshalRelease. rewrite (unmarshalEventData_ok js _ _ event (PTreasuryRelease p) p); try done.
  - by rewrite <- Hp.
  - apply JL.
  - intros raw v Hv. destruct (json_any _ JL raw v Hv) as (raw' & ? & _ & ? & _). eauto.
Qed.

(** An entry of a plan with a treasury payload asks for its transfer's amount. *)
Lemma plan_intent env dp q op t p e i :
  plan_of env dp q op t = Ok (Some p) -> e ∈ pl_entries p ->
  treasury_payload (oe_Payload e) = Some i -> exists k, i = intent_of t k.
Proof.
  intros Hp He Hi. apply plan_of_ok in Hp as [_ _ Htr _].
  assert (i ∈ treasury_intents (pl_entries p)) as Hin.
  { unfold treasury_intents. apply list_elem_of_omap. eauto. }
  rewrite Htr in Hin. apply list_elem_of_fmap in Hin as (k & -> & _). eauto.
Qed.

(** The type of an entry of a plan decides its payload. *)
Lemma plan_typed env dp q op t p e :
  plan_of env dp q op t = Ok (Some p) -> e ∈ pl_entries p ->
  typed (oe_EventType e) (oe_Payload e) = true.
Proof. intros Hp He. apply plan_of_ok in Hp as [_ _ _ Hty]. by eapply Forall_forall in Hty. Qed.

(** [posts op t e]: the engine, running [op] on [t], writes the entry [e]. *)
Definition posts (op : Op) (t : Transfer) (e : OutboxEntry) : Prop :=
  exists env dp q p, plan_of env dp q op t = Ok (Some p) /\ e ∈ pl_entries p.

Lemma posts_reserve (JL : JsonLaws js) op t e event :
  posts op t e -> oe_EventType e = IntentTreasuryReserve -> delivered js e event ->
  event_call js event = Some (reserve_call t).
Proof.
  intros (env & dp & q & p & Hp & He) Hty Hd.
  pose proof (plan_typed _ _ _ _ _ _ _ Hp He) as Ht. rewrite Hty in Ht.
  destruct (oe_Payload e) eqn:Hpl; try done.
  destruct (plan_intent _ _ _ _ _ _ _ _ Hp He ltac:(by rewrite Hpl)) as [k Hk].
  rewrite (delivered_reserve JL e event _ Hd Hty Hpl). unfold intent_of in Hk.
  unfold reserve_call, consume_call. injection Hk as _ ? ? ? ? ?. congruence.
Qed.

Lemma posts_consume (JL : JsonLaws js) op t e event :
  posts op t e -> oe_EventType e = IntentTreasuryConsume -> delivered js e event ->
  event_call js event = Some (consume_call t).
Proof.
  intros (env & dp & q & p & Hp & He) Hty Hd.
  pose proof (plan_typed _ _ _ _ _ _ _ Hp He) as Ht. rewrite Hty in Ht.
  destruct (oe_Payload e) eqn:Hpl; try done.
  destruct (plan_intent _ _ _ _ _ _ _ _ Hp He ltac:(by rewrite Hpl)) as [k Hk].
  rewrite (delivered_consume JL e event _ Hd Hty Hpl). unfold intent_of in Hk.
  unfold reserve_call, consume_call. injection Hk as _ ? ? ? ? ?. congruence.
Qed.

Lemma posts_release (JL : JsonLaws js) op t e event :
  posts op t e -> oe_EventType e = IntentTreasuryRelease -> delivered js e event ->
  exists reason, event_call js event = Some (release_call t reason).
Proof.
  intros (env & dp & q & p & Hp & He) Hty Hd.
  pose proof (plan_typed _ _ _ _ _ _ _ Hp He) as Ht. rewrite Hty in Ht.
  destruct (oe_Payload e) as [| | |r| | | | | | | | | | | | | | | | | |] eqn:Hpl; try done.
  destruct (plan_intent _ _ _ _ _ _ _ _ Hp He ltac:(by rewrite Hpl)) as [k Hk].
  exists (tlp_Reason r). rewrite (delivered_release JL e event _ Hd Hty Hpl).
  unfold intent_of in Hk. destruct r. by simplify_eq/=.
Qed.

(** The same transfer at two moments: what its intents are made of. *)
Definition same_intents (t t' : Transfer) : Prop := forall k, intent_of t' k = intent_of t k.

Lemma same_intents_calls t t' reason : same_intents t t' ->
  consume_call t' = consume_call t /\ release_call t' reason = release_call t reason.
Proof.
  intros H. pose proof (H TConsume) as Hk.
  pose proof (f_equal ti_transfer Hk) as Hi. pose proof (f_equal ti_tenant Hk) as Ht.
  pose proof (f_equal ti_currency Hk) as Hc. pose proof (f_equal ti_amount Hk) as Ha.
  pose proof (f_equal ti_location Hk) as Hl. cbn [intent_of ti_transfer ti_tenant ti_currency
    ti_amount ti_location] in Hi, Ht, Hc, Ha, Hl.
  unfold consume_call, release_call. by rewrite Hi, Ht, Hc, Ha, Hl.
Qed.

(** A settled transfer takes its source amount out of the source
    position once.  Whatever operation posted them and in whatever form the
    bus delivers them, after the reserve intent and the consume intent of a
    transfer have both taken effect, the balance is lower by the source
    amount, locked and reserved are what they were, and no other position has
    changed. *)
Theorem settled_transfer_debits we we' opr opc er ec evr evc t t' w w1 w2 :
  JsonLaws js -> wf (wk_treasury _ w) -> all_solvent (wk_treasury _ w) ->
  posts opr t er -> oe_EventType er = IntentTreasuryReserve -> delivered js er evr ->
  posts opc t' ec -> oe_EventType ec = IntentTreasuryConsume -> delivered js ec evc ->
  same_intents t t' ->
  w1 = (deliver we evr w).2 -> w2 = (deliver we' evc w1).2 ->
  abs (wk_treasury _ w1) <> abs (wk_treasury _ w) ->
  abs (wk_treasury _ w2) <> abs (wk_treasury _ w1) ->
  exists k, abs (wk_treasury _ w) !! source_key t = Some k /\
    abs (wk_treasury _ w2) = <[source_key t :=
      Cnt (c_bal k - micro (tr_SourceAmount t)) (c_lock k) (c_res k)]> (abs (wk_treasury _ w)).
Proof.
  intros JL W Hs Pr Tr Dr Pc Tc Dc Hsame -> -> H1 H2.
  pose proof (posts_reserve JL _ _ _ _ Pr Tr Dr) as Her.
  pose proof (posts_consume JL _ _ _ _ Pc Tc Dc) as Hec.
  rewrite (proj1 (same_intents_calls t t' "" Hsame)) in Hec.
  destruct (two_deliveries we we' _ _ _ _ (source_key t) w W Hs Her Hec)
    as (k & k1 & k2 & Hk & Hf1 & Hf2 & HA); try done.
  exists k. split; [done|]. rewrite HA. f_equal. destruct k as [b l r]. simpl in *.
  repeat (case_match; simplify_eq/=). f_equal; lia.
Qed.

(** A transfer that fails in settlement and is then refunded is released
    twice: both operations post a release intent, and when both take effect
    reserved drops by twice the amount, the second time at the expense of
    another transfer's reservation. *)
Theorem refunded_transfer_releases_twice we we' r ef er evf evr t t' w w1 w2 :
  JsonLaws js -> wf (wk_treasury _ w) -> all_solvent (wk_treasury _ w) ->
  posts (OSettlementResult r) t ef -> oe_EventType ef = IntentTreasuryRelease ->
  delivered js ef evf ->
  posts ORefund t' er -> oe_EventType er = IntentTreasuryRelease -> delivered js er evr ->
  same_intents t t' ->
  w1 = (deliver we evf w).2 -> w2 = (deliver we' evr w1).2 ->
  abs (wk_treasury _ w1) <> abs (wk_treasury _ w) ->
  abs (wk_treasury _ w2) <> abs (wk_treasury _ w1) ->
  exists k, abs (wk_treasury _ w) !! source_key t = Some k /\
    abs (wk_treasury _ w2) = <[source_key t :=
      Cnt (c_bal k) (c_lock k) (c_res k - 2 * micro (tr_SourceAmount t))]> (abs (wk_treasury _ w)).
Proof.
  intros JL W Hs Pf Tf Df Pr Tr Dr Hsame -> -> H1 H2.
  destruct (posts_release JL _ _ _ _ Pf Tf Df) as [reason Hef].
  destruct (posts_release JL _ _ _ _ Pr Tr Dr) as [reason' Her].
  rewrite (proj2 (same_intents_calls t t' reason' Hsame)) in Her.
  destruct (two_deliveries we we' _ _ _ _ (source_key t) w W Hs Hef Her)
    as (k & k1 & k2 & Hk & Hf1 & Hf2 & HA); try done.
  exists k. split; [done|]. rewrite HA. f_equal. destruct k as [b l r0]. simpl in *.
  repeat (case_match; simplify_eq/=). f_equal; lia.
Qed.
End WorkerProperties.
