(* ===== verification/TreasuryCrash.v ===== *)
(** * treasury: a crash, evaluated

    A database with one GBP position of 5000, a manager started from it, and
    the treasury worker in front of it.  Two crashes are evaluated: a credit
    that was acknowledged and not yet flushed is gone after the restart, and
    a reservation that the worker released is back.  The hypotheses of the
    theorems on flush, start-up and worker hold here. *)

From Stdlib Require Import Ascii QArith Lqa.
From S2P Require Import Prelude ThirdParty Money Deposits Transfer Outbox Treasury TreasuryFacts TreasuryProps TreasuryFlush TreasurySync TreasuryFlushProps TreasuryRecovery TreasuryDB TreasuryWorker LedgerEntries TransferStore Engine EngineFacts TreasuryWorkerProps EngineWitness.
Import QInstance TreasuryAdapter.
Local Open Scope string_scope.
Local Open Scope Z_scope.

Module CrashWitness.

Definition gbpRow : Position :=
  {| pos_ID := "p"%char; pos_TenantID := "t"%char; pos_Currency := "GBP";
     pos_Location := "bank:gbp"; pos_Balance := (5000 # 1)%Q; pos_Locked := 0%Q;
     pos_MinBalance := 0%Q; pos_TargetBalance := 0%Q; pos_UpdatedAt := 0 |}.

Definition gbpKey : positionKey := ("t"%char, "GBP", "bank:gbp").

Definition tables : TDB :=
  {| td_positions := [gbpRow]; td_history := []; td_ops := []; td_events := []; td_clock := 0;
     td_outcomes := []; td_readable := true |}.

(** [NewManager] over the database. *)
Definition boot : Manager TDB :=
  {| mg_heap := ∅; mg_next := 0; mg_positions := ∅; mg_tenantIndex := ∅; mg_dirtySet := ∅;
     mg_idempotencyShards := replicate 16 ∅; mg_syncThresholds := ∅;
     mg_syncThresholdDefault := 0%Q; mg_hasPublisher := false; mg_pendingOps := [];
     mg_pendingEvents := []; mg_replaying := false; mg_consecutiveFlushFailures := 0;
     mg_failedPositionIDs := []; mg_alerts := []; mg_store := tables |}.

Definition env (n : nat) : Env :=
  {| env_now := Z.of_nat n; env_newv7 i := ascii_of_nat (10 * n + i); env_drained := true |}.

(** The manager after a start-up, or the one given when it fails. *)
Definition restarted (m : Manager TDB) : Manager TDB :=
  default m (snd <$> LoadPositions (env 0) 1 m).

Definition started (x : option (result unit * Manager TDB)) : bool :=
  match x with Some (Ok _, _) => true | _ => false end.

Lemma started_eq m :
  started (LoadPositions (env 0) 1 m) = true ->
  LoadPositions (env 0) 1 m = Some (Ok tt, restarted m).
Proof. unfold restarted. by destruct (LoadPositions (env 0) 1 m) as [[[[]|] ?]|]. Qed.

Definition live : Manager TDB := restarted boot.

Definition balance_of (m : Manager TDB) : option counters := abs m !! gbpKey.

(** Credits 500 to the position. *)
Definition credit (m : Manager TDB) : result unit * Manager TDB :=
  CreditBalance (env 1) "t"%char "GBP" "bank:gbp" (500 # 1)%Q "c"%char "deposit" m.

(** The worker over a bus that accepts everything. *)
Definition bus : Type := list (Event ResultData).
Definition publish (e : Event ResultData) (b : bus) : result unit * bus := (Ok tt, (b ++ [e])%list).

(** JSON with the value itself for its text. *)
Definition malformed {A} : result A := Err (MsgErr "unmarshalling payload").

Definition js : Json Payload Payload := {|
  json_Marshal p := Ok p;
  json_MarshalAny p := Ok p;
  json_UnmarshalAny p := Ok p;
  json_UnmarshalReserve p := match p with PTreasuryReserve x => Ok x | _ => malformed end;
  json_UnmarshalRelease p := match p with PTreasuryRelease x => Ok x | _ => malformed end;
  json_UnmarshalConsume p := match p with PTreasuryConsume x => Ok x | _ => malformed end;
  json_UnmarshalCredit p := match p with PPositionCredit x => Ok x | _ => malformed end;
  json_UnmarshalDebit p := match p with PPositionDebit x => Ok x | _ => malformed end;
|}.

(** An entry as the bus delivers it, the payload decoded into a map. *)
Definition event (e : OutboxEntry) : Event (EventData Payload Payload) :=
  {| ev_ID := oe_ID e; ev_TenantID := oe_TenantID e; ev_Type := oe_EventType e;
     ev_Timestamp := oe_CreatedAt e; ev_Data := DataMap _ _ (oe_Payload e) |}.

Definition wenv (n : nat) : WEnv := {| we_env := env n; we_id := "r"%char; we_now := 0 |}.

(** A transfer of 1000 GBP and the entries of its intents. *)
Definition tr : Transfer := EngineWitness.transfer Created.
Definition tr_reserve : Payload := PTreasuryReserve
  {| trp_TransferID := tr_ID tr; trp_TenantID := tr_TenantID tr;
     trp_Currency := tr_SourceCurrency tr; trp_Amount := tr_SourceAmount tr;
     trp_Location := location_of tr |}.
Definition tr_consume : Payload := PTreasuryConsume
  {| tcp_TransferID := tr_ID tr; tcp_TenantID := tr_TenantID tr;
     tcp_Currency := tr_SourceCurrency tr; tcp_Amount := tr_SourceAmount tr;
     tcp_Location := location_of tr |}.

Definition entry (s : TransferStatus) (i : nat) (ty : string) (p : Payload) : OutboxEntry :=
  mkEntry (EngineWitness.env 0) (EngineWitness.transfer s) i (true, ty, p).

Definition reserve_entry : OutboxEntry := entry Created 0 IntentTreasuryReserve tr_reserve.
Definition consume_entry : OutboxEntry := entry OffRamping 0 IntentTreasuryConsume tr_consume.
Definition cancel_entry : OutboxEntry :=
  entry Funded 0 IntentTreasuryRelease (releasePayload tr "transfer_failed").
Definition failure_entry : OutboxEntry :=
  entry Settling 0 IntentTreasuryRelease (releasePayload tr "settlement_failure").
Definition refund_entry : OutboxEntry :=
  entry Failed 1 IntentTreasuryRelease (releasePayload tr "refund").

Definition worker (m : Manager TDB) : Worker bus := {| wk_treasury := m; wk_bus := [] |}.

Definition reserved : Worker bus :=
  deliveries js publish [(wenv 1, event reserve_entry)] (worker live).

Definition released : Worker bus :=
  deliveries js publish [(wenv 2, event cancel_entry)] reserved.

(** A crash loses acknowledged credits.  The credit is in the
    write-ahead log and in memory, but only reserve operations are replayed:
    restarting before the next flush, the balance is the old one. *)
Theorem crash_loses_credit :
  (credit live).1 = Ok tt
  /\ balance_of (credit live).2 = Some (Cnt 5500000000 0 0)
  /\ map ro_OpType (td_ops (mg_store (credit live).2)) = [OpCredit]
  /\ LoadPositions (env 0) 1 (credit live).2 = Some (Ok tt, restarted (credit live).2)
  /\ balance_of (restarted (credit live).2) = Some (Cnt 5000000000 0 0).
Proof.
  split; [vm_compute; reflexivity|]. split; [vm_compute; reflexivity|].
  split; [vm_compute; reflexivity|].
  split; [apply started_eq; vm_compute; reflexivity|vm_compute; reflexivity].
Qed.

(** A restart revives a reservation that was released.  The worker
    releases under a reference derived from the reason, so the log never
    matches the release with its reservation, and the replay reserves the
    funds again. *)
Theorem restart_revives_released :
  balance_of (wk_treasury _ reserved) = Some (Cnt 5000000000 0 1000000000)
  /\ balance_of (wk_treasury _ released) = Some (Cnt 5000000000 0 0)
  /\ LoadPositions (env 0) 1 (wk_treasury _ released)
     = Some (Ok tt, restarted (wk_treasury _ released))
  /\ balance_of (restarted (wk_treasury _ released)) = Some (Cnt 5000000000 0 1000000000).
Proof.
  split; [vm_compute; reflexivity|]. split; [vm_compute; reflexivity|].
  split; [apply started_eq; vm_compute; reflexivity|vm_compute; reflexivity].
Qed.

(** ** The hypotheses of the theorems hold *)

Lemma boot_wf : wf boot.
Proof.
  split; [done| | |].
  - intros key p. simpl. by rewrite lookup_empty.
  - intros p c. unfold counters_at. simpl. by rewrite lookup_empty.
  - intros p. simpl. rewrite lookup_empty. by intros [].
Qed.

#[local] Instance open_fits_dec ops key k : Decision (open_amount key ops <= c_bal k - c_lock k).
Proof. apply _. Defined.

Lemma boot_recoverable : recoverable boot [].
Proof.
  split.
  - apply boot_wf.
  - reflexivity.
  - repeat constructor; vm_compute; congruence.
  - repeat constructor. by intros ?%elem_of_nil.
  - vm_compute. reflexivity.
  - vm_compute. reflexivity.
  - split; [by eexists|vm_compute; reflexivity].
  - constructor.
  - constructor.
  - by apply (bool_decide_eq_true_1 (map_Forall _ (books_of (rows (mg_store boot))))); vm_compute.
Qed.

Lemma live_started : LoadPositions (env 0) 1 boot = Some (Ok tt, live).
Proof. apply started_eq. vm_compute. reflexivity. Qed.

Lemma live_ok : wf live /\ all_solvent live /\ tracked ∅ live.
Proof.
  destruct (LoadPositions_books (env 0) 1 boot [] boot_recoverable) as (m' & HL & W & Hs & _);
    [vm_compute; lia|].
  rewrite live_started in HL. injection HL as <-. split_and!; [done|done|].
  apply (LoadPositions_tracks (env 0) 1 boot [] live boot_recoverable); [vm_compute; lia| | |apply live_started].
  - repeat constructor. by intros ?%elem_of_nil.
  - repeat constructor; vm_compute; reflexivity.
Qed.

(** A reservation of 1000 on the live manager, then a flush. *)
Definition holding : Manager TDB := (run (env 1) (reserve_call tr) live).2.
Definition in_order (d : gmap positionKey nat) : list nat := (map_to_list d).*2.
Definition flushed : Manager TDB := flushOnce in_order holding.

Lemma run_snd_wf e c m : wf m -> wf (run (S := TDB) e c m).2.
Proof. intros W. exact (run_wf e c m _ _ W (surjective_pairing _)). Qed.

Lemma holding_ok : wf holding /\ tracked ∅ holding.
Proof.
  destruct live_ok as (W & _ & T).
  exact (conj (run_snd_wf _ _ _ W) (run_tracked ∅ (env 1) (reserve_call tr) live W T)).
Qed.

Lemma flushOnce_persists_witness : wf flushed /\ abs flushed = abs holding.
Proof.
  destruct holding_ok as [W T].
  destruct (flushOnce_persists (LL := Qlib_laws) (SL := TreasuryAdapterLaws) in_order
              (fun d => reflexivity _) holding W T) as (W' & _ & A & _).
  exact (conj W' A).
Defined.

(** A reservation and a flush. *)
Lemma manager_stays_well_typed_witness : wf flushed /\ tracked ∅ flushed /\ dom (abs flushed) = dom (abs live).
Proof.
  apply (manager_stays_well_typed (LL := Qlib_laws) (SL := TreasuryAdapterLaws) in_order (fun d => reflexivity _) live flushed);
    [apply live_ok|apply live_ok|].
  eapply rtc_l; [apply (ms_call in_order live (env 1) (reserve_call tr))|]. apply rtc_once, (ms_flush in_order holding).
Defined.

Lemma LoadPositions_restores_witness :
  exists m', LoadPositions (env 0) 1 boot = Some (Ok tt, m') /\ wf m'.
Proof.
  destruct (LoadPositions_restores (LL := Qlib_laws) (SL := TreasuryAdapterLaws) (env 0) 1 boot []
              boot_recoverable) as (m' & HL & W & _); [vm_compute; lia|].
  exists m'. exact (conj HL W).
Defined.

Lemma LoadPositions_tracked_witness : tracked (SL := TreasuryAdapterLaws) ∅ live.
Proof.
  apply (LoadPositions_tracked (LL := Qlib_laws) (SL := TreasuryAdapterLaws) (env 0) 1 boot [] live
           boot_recoverable); [vm_compute; lia| | |apply live_started].
  - repeat constructor. by intros ?%elem_of_nil.
  - repeat constructor; vm_compute; reflexivity.
Defined.

(** The one open reservation of the log. *)
Definition open_op : ReserveOp :=
  {| ro_ID := ascii_of_nat 10; ro_TenantID := "t"%char; ro_Currency := "GBP";
     ro_Location := "bank:gbp"; ro_Amount := (1000 # 1)%Q; ro_Reference := "i"%char;
     ro_OpType := OpReserve; ro_CreatedAt := 1 |}.

Lemma flushed_wf_tracked : wf flushed /\ tracked ∅ flushed.
Proof.
  destruct holding_ok as [W T].
  destruct (flushOnce_books (SL := TreasuryAdapterLaws) in_order (fun d => reflexivity _) holding W T)
    as (W' & T' & _). exact (conj W' T').
Qed.

Lemma flushed_recoverable : recoverable flushed [open_op].
Proof.
  split.
  - apply flushed_wf_tracked.
  - vm_compute. reflexivity.
  - apply (bool_decide_eq_true_1 (Forall sound_row (rows (mg_store flushed)))). vm_compute. reflexivity.
  - apply (bool_decide_eq_true_1 (NoDup (map row_key (rows (mg_store flushed))))). vm_compute. reflexivity.
  - vm_compute. reflexivity.
  - vm_compute. reflexivity.
  - split; [by eexists|vm_compute; reflexivity].
  - apply Forall_singleton. split; [vm_compute; reflexivity|]. split; [vm_compute; reflexivity|].
    split; [vm_compute; reflexivity|].
    apply (bool_decide_eq_true_1 (op_key open_op ∈ map row_key (rows (mg_store flushed)))).
    vm_compute. reflexivity.
  - repeat constructor. by intros ?%elem_of_nil.
  - by apply (bool_decide_eq_true_1 (map_Forall _ (books_of (rows (mg_store flushed))))); vm_compute.
Qed.

#[local] Instance restart_dec ops key k : Decision (0 <= c_lock k <= c_bal k
  /\ c_bal k <= maxMicroValue /\ c_res k = open_amount key ops).
Proof. apply _. Defined.

Lemma restart_restores_books_witness :
  exists m', LoadPositions (env 2) 1 flushed = Some (Ok tt, m') /\ abs m' = abs flushed.
Proof.
  apply (restart_restores_books (LL := Qlib_laws) (SL := TreasuryAdapterLaws) (env 2) 1 flushed [open_op]).
  - apply tracked_persisted; [apply flushed_wf_tracked|vm_compute; reflexivity].
  - apply flushed_recoverable.
  - vm_compute. lia.
  - apply Forall_forall.
    apply (bool_decide_eq_true_1 (Forall (fun row => is_Some (abs flushed !! row_key row))
             (rows (mg_store flushed)))). vm_compute. reflexivity.
  - by apply (bool_decide_eq_true_1 (map_Forall _ (abs flushed))); vm_compute.
Defined.

(** *** The worker *)

Lemma moved_by m m' k k' :
  balance_of m = Some k -> balance_of m' = Some k' -> k <> k' -> abs m' <> abs m.
Proof. unfold balance_of. congruence. Qed.

Lemma js_laws : JsonLaws js.
Proof. split; [by intros ?? [= <-]..|]. intros raw v [= <-]. by exists raw. Qed.

(** Every entry is delivered as its event. *)
Lemma event_delivered e : delivered js e (event e).
Proof. split; [done|]. exists (oe_Payload e). done. Qed.

Lemma same_transfer s s' : same_intents (EngineWitness.transfer s) (EngineWitness.transfer s').
Proof. done. Qed.

(** The engine posts the four entries. *)
Definition entry_at (op : Op) (t : Transfer) (k : nat) : option OutboxEntry :=
  match plan_of (EngineWitness.env 0) EngineWitness.deps None op t with
  | Ok (Some p) => pl_entries p !! k
  | _ => None
  end.

Lemma posts_check op t k e : entry_at op t k = Some e -> posts op t e.
Proof.
  unfold entry_at. destruct (plan_of _ _ _ op t) as [[p|]|] eqn:Hp; try done. intros He.
  exists (EngineWitness.env 0), EngineWitness.deps, None, p. split; [done|].
  by eapply list_elem_of_lookup_2.
Qed.

Lemma reserve_posted : posts OFund (EngineWitness.transfer Created) reserve_entry.
Proof. apply (posts_check _ _ 0). vm_cast_no_check (eq_refl (Some reserve_entry)). Qed.
Lemma consume_posted : posts OComplete (EngineWitness.transfer OffRamping) consume_entry.
Proof. apply (posts_check _ _ 0). vm_cast_no_check (eq_refl (Some consume_entry)). Qed.
Lemma failure_posted :
  posts (OSettlementResult EngineWitness.failure) (EngineWitness.transfer Settling) failure_entry.
Proof. apply (posts_check _ _ 0). vm_cast_no_check (eq_refl (Some failure_entry)). Qed.
Lemma refund_posted : posts ORefund (EngineWitness.transfer Failed) refund_entry.
Proof. apply (posts_check _ _ 1). vm_cast_no_check (eq_refl (Some refund_entry)). Qed.

Definition reserve_event : Event (EventData Payload Payload) := event reserve_entry.
Definition consume_event : Event (EventData Payload Payload) := event consume_entry.

Lemma redelivery_no_second_effect_witness :
  wk_treasury _ (deliveries js publish (map (fun we => (we, reserve_event)) [wenv 2; wenv 3])
                   (handleEvent js publish (wenv 1) reserve_event (worker live)).2)
  = wk_treasury _ (handleEvent js publish (wenv 1) reserve_event (worker live)).2.
Proof.
  apply (redelivery_no_second_effect js publish); [apply live_ok|].
  apply (moved_by _ _ (Cnt 5000000000 0 0) (Cnt 5000000000 0 1000000000));
    [vm_compute; reflexivity|vm_compute; reflexivity|discriminate].
Defined.

(** The funds of the transfer are reserved, then consumed. *)
Definition w_reserved : Worker bus :=
  (handleEvent js publish (wenv 1) reserve_event (worker live)).2.
Definition w_settled : Worker bus :=
  (handleEvent js publish (wenv 2) consume_event w_reserved).2.

Lemma settled_transfer_debits_witness :
  exists k, abs (wk_treasury _ (worker live)) !! source_key tr = Some k /\
    abs (wk_treasury _ w_settled)
    = <[source_key tr := Cnt (c_bal k - micro (tr_SourceAmount tr)) (c_lock k) (c_res k)]> (abs (wk_treasury _ (worker live))).
Proof.
  refine (settled_transfer_debits (LL := Qlib_laws) js publish (wenv 1) (wenv 2) OFund OComplete
           reserve_entry consume_entry reserve_event consume_event tr
           (EngineWitness.transfer OffRamping) (worker live) w_reserved w_settled
           js_laws _ _ reserve_posted _ (event_delivered _) consume_posted _ (event_delivered _)
           (same_transfer _ _) _ _ _ _).
  - apply live_ok.
  - apply live_ok.
  - reflexivity.
  - reflexivity.
  - reflexivity.
  - reflexivity.
  - apply (moved_by _ _ (Cnt 5000000000 0 0) (Cnt 5000000000 0 1000000000));
      [vm_compute; reflexivity|vm_compute; reflexivity|discriminate].
  - apply (moved_by _ _ (Cnt 5000000000 0 1000000000) (Cnt 4000000000 0 0));
      [vm_compute; reflexivity|vm_compute; reflexivity|discriminate].
Defined.

(** Two transfers hold 1000 each; the first fails in settlement and is
    refunded, and the second is left without its reservation. *)
Definition both : Manager TDB :=
  (run (env 2) (Build_Call OpReserve "t"%char "GBP" "bank:gbp" (1000 # 1)%Q "j"%char "") holding).2.
Definition failure_event : Event (EventData Payload Payload) := event failure_entry.
Definition refund_event : Event (EventData Payload Payload) := event refund_entry.
Definition w_failed : Worker bus :=
  (handleEvent js publish (wenv 3) failure_event (worker both)).2.
Definition w_refunded : Worker bus :=
  (handleEvent js publish (wenv 4) refund_event w_failed).2.

Lemma both_ok : wf both /\ all_solvent both.
Proof.
  destruct holding_ok as [W _]. split; [by apply run_snd_wf|].
  by apply (bool_decide_eq_true_1 (map_Forall _ (abs both))); vm_compute.
Qed.

Lemma refunded_transfer_releases_twice_witness :
  balance_of (wk_treasury _ w_refunded) = Some (Cnt 5000000000 0 0) /\
  exists k, abs (wk_treasury _ (worker both)) !! source_key tr = Some k /\
    abs (wk_treasury _ w_refunded)
    = <[source_key tr := Cnt (c_bal k) (c_lock k) (c_res k - 2 * micro (tr_SourceAmount tr))]> (abs (wk_treasury _ (worker both))).
Proof.
  split; [vm_compute; reflexivity|].
  refine (refunded_transfer_releases_twice (LL := Qlib_laws) js publish (wenv 3) (wenv 4)
           EngineWitness.failure failure_entry refund_entry failure_event refund_event
           (EngineWitness.transfer Settling) (EngineWitness.transfer Failed) (worker both) w_failed
           w_refunded js_laws _ _ failure_posted _ (event_delivered _) refund_posted _
           (event_delivered _) (same_transfer _ _) _ _ _ _).
  - apply both_ok.
  - apply both_ok.
  - reflexivity.
  - reflexivity.
  - reflexivity.
  - reflexivity.
  - apply (moved_by _ _ (Cnt 5000000000 0 2000000000) (Cnt 5000000000 0 1000000000));
      [vm_compute; reflexivity|vm_compute; reflexivity|discriminate].
  - apply (moved_by _ _ (Cnt 5000000000 0 1000000000) (Cnt 5000000000 0 0));
      [vm_compute; reflexivity|vm_compute; reflexivity|discriminate].
Defined.
End CrashWitness.
