(* ===== verification/Cache.v ===== *)
(** * cache: the local cache, the tenant cache, the rate limiter, the tenant index

    Models src/cache and src/domain/tenant_iter.go.  [LocalCache] is a map
    with expiry and eviction whose operations take their lock more than once;
    [TenantCache] puts it before Redis and the database; [RateLimiter] counts
    locally and in a sorted set of Redis; [TenantIndex] walks a set of Redis
    or pages of Postgres.

    Redis is a service: the class [Redis] has the commands the sources send,
    [RedisLaws] what their documentation promises.  The order in which Go walks
    a map is a parameter.  Values that Redis holds as text go through a codec
    that is a parameter with its round trip. *)

From Stdlib Require Import SpecFloat ZifyBool Ascii QArith.
From S2P Require Import Prelude ThirdParty GoNumbers Sql Machine Money Deposits Transfer Outbox TransferStore DepositStore DepositEngine DepositRuns.
Local Open Scope string_scope.
Local Open Scope Z_scope.

Module Cache.

(** ** cache/local.go *)

Section LocalCache.
Context {V : Type}.

Record localEntry := { le_value : V; le_expiresAt : Z; le_lastAccess : Z }.

Record LocalCache := { lc_entries : gmap string localEntry; lc_maxSize : Z }.

Definition DefaultLocalCacheSize : Z := 10000.

Definition NewLocalCache (maxSize : Z) : LocalCache :=
  {| lc_entries := ∅; lc_maxSize := if maxSize <=? 0 then DefaultLocalCacheSize else maxSize |}.

Definition set_entries (c : LocalCache) (m : gmap string localEntry) : LocalCache :=
  {| lc_entries := m; lc_maxSize := lc_maxSize c |}.

(** The two critical sections in which [Get] writes. *)
Definition lazyDelete (now : Z) (key : string) (c : LocalCache) : LocalCache :=
  match lc_entries c !! key with
  | Some e => if le_expiresAt e <? now then set_entries c (delete key (lc_entries c)) else c
  | None => c
  end.

Definition touch (now : Z) (key : string) (c : LocalCache) : LocalCache :=
  match lc_entries c !! key with
  | Some e => set_entries c (<[key := {| le_value := le_value e; le_expiresAt := le_expiresAt e; le_lastAccess := now |}]> (lc_entries c))
  | None => c
  end.

(** The clock is read once, and again before a lazy delete. *)
Definition LocalGet (now now' : Z) (key : string) (c : LocalCache) : option V * LocalCache :=
  match lc_entries c !! key with
  | None => (None, c)
  | Some e => if le_expiresAt e <? now then (None, lazyDelete now' key c) else (Some (le_value e), touch now key c)
  end.

Definition evictExpired (now : Z) (c : LocalCache) : LocalCache :=
  set_entries c (filter (fun x => now <= le_expiresAt x.2) (lc_entries c)).

Fixpoint oldest (best : option (string * Z)) (l : list (string * localEntry)) : option (string * Z) :=
  match l with
  | [] => best
  | (k, e) :: l =>
      oldest (match best with
              | Some (_, t) => if le_lastAccess e <? t then Some (k, le_lastAccess e) else best
              | None => Some (k, le_lastAccess e)
              end) l
  end.

(** [order] is the order in which the map is walked. *)
Definition evictLRU (order : gmap string localEntry -> list (string * localEntry)) (c : LocalCache) : LocalCache :=
  match oldest None (order (lc_entries c)) with
  | Some (k, _) => set_entries c (delete k (lc_entries c))
  | None => c
  end.

Definition makeRoom (order : gmap string localEntry -> list (string * localEntry)) (now : Z) (key : string) (c : LocalCache) : LocalCache :=
  match lc_entries c !! key with
  | Some _ => c
  | None =>
      if lc_maxSize c <=? Z.of_nat (size (lc_entries c)) then
        let c := evictExpired now c in
        if lc_maxSize c <=? Z.of_nat (size (lc_entries c)) then evictLRU order c else c
      else c
  end.

Definition LocalSet (order : gmap string localEntry -> list (string * localEntry)) (now now' : Z) (key : string) (value : V) (ttl : Z)
    (c : LocalCache) : LocalCache :=
  let c := makeRoom order now' key c in
  set_entries c (<[key := {| le_value := value; le_expiresAt := now + ttl; le_lastAccess := now |}]> (lc_entries c)).

Definition LocalDelete (key : string) (c : LocalCache) : LocalCache := set_entries c (delete key (lc_entries c)).

Definition LocalLen (c : LocalCache) : Z := Z.of_nat (size (lc_entries c)).
End LocalCache.
Arguments localEntry : clear implicits.
Arguments LocalCache : clear implicits.

(** ** Redis *)

(** redis.Nil is [Ok None] of [rd_Get].  Scores are float64. *)
Class Redis (R : Type) := {
  rd_Get : string -> R -> result (option string) * R;
  rd_Set : string -> string -> Z -> R -> result unit * R;
  rd_SetNX : string -> string -> Z -> R -> result bool * R;
  rd_Del : string -> R -> result unit * R;
  rd_ZRemRangeByScore : string -> spec_float -> R -> result unit * R;
  rd_ZAdd : string -> spec_float -> string -> R -> result unit * R;
  rd_ZCard : string -> R -> result Z * R;
  rd_Expire : string -> Z -> R -> result unit * R;
  rd_SAdd : string -> list string -> R -> result unit * R;
  rd_SRem : string -> string -> R -> result unit * R;
  rd_SCard : string -> R -> result Z * R;
  rd_SScan : string -> Z -> Z -> R -> result (list string * Z) * R;
  rd_Rename : string -> string -> R -> result unit * R;
}.

(** Strings with the instant they expire, sorted sets, sets. *)
Record RView := { rv_str : gmap string (string * Z); rv_z : gmap string (gmap string spec_float); rv_s : gmap string (gset string) }.

Definition set_str (v : RView) (m : gmap string (string * Z)) : RView := {| rv_str := m; rv_z := rv_z v; rv_s := rv_s v |}.
Definition set_z (v : RView) (k : string) (z : gmap string spec_float) : RView := {| rv_str := rv_str v; rv_z := <[k := z]> (rv_z v); rv_s := rv_s v |}.
Definition set_s (v : RView) (m : gmap string (gset string)) : RView := {| rv_str := rv_str v; rv_z := rv_z v; rv_s := m |}.
Definition zsetOf (v : RView) (k : string) : gmap string spec_float := default ∅ (rv_z v !! k).
Definition setOf (v : RView) (k : string) : gset string := default ∅ (rv_s v !! k).

(** A command that failed happened or did not. *)
Definition sent {A} (v v' : RView) (a : result A) (w : RView) : Prop := v' = w \/ (v' = v /\ is_ok a = false).

Section Scans.
Context {R : Type} `{RD : !Redis R}.

(** An iteration from [cursor] until Redis returns the cursor 0. *)
Inductive scans (k : string) (count : Z) : Z -> R -> list string -> R -> Prop :=
| scan_last cursor r keys r' : rd_SScan k cursor count r = (Ok (keys, 0), r') -> scans k count cursor r keys r'
| scan_next cursor r keys next r1 keys' r' : rd_SScan k cursor count r = (Ok (keys, next), r1) -> next <> 0 ->
    scans k count next r1 keys' r' -> scans k count cursor r (keys ++ keys') r'.
End Scans.

Class RedisLaws (R : Type) `{RD : !Redis R} : Type := {
  rview : R -> RView;
  rnow : R -> Z;
  rup : R -> Prop;
  rl_get k r a r' : rd_Get k r = (a, r') -> rview r' = rview r
    /\ forall v, a = Ok (Some v) -> exists e, rv_str (rview r) !! k = Some (v, e) /\ rnow r < e;
  rl_set k v ttl r a r' : rd_Set k v ttl r = (a, r') ->
    sent (rview r) (rview r') a (set_str (rview r) (<[k := (v, rnow r + ttl)]> (rv_str (rview r))));
  rl_del k r a r' : rd_Del k r = (a, r') ->
    sent (rview r) (rview r') a {| rv_str := delete k (rv_str (rview r)); rv_z := delete k (rv_z (rview r)); rv_s := delete k (rv_s (rview r)) |};
  rl_zrem k hi r a r' : rd_ZRemRangeByScore k hi r = (a, r') ->
    sent (rview r) (rview r') a (set_z (rview r) k (filter (fun x => f64_leb x.2 hi = false) (zsetOf (rview r) k)));
  rl_zadd k score m r a r' : rd_ZAdd k score m r = (a, r') ->
    sent (rview r) (rview r') a (set_z (rview r) k (<[m := score]> (zsetOf (rview r) k)));
  rl_zcard k r a r' : rd_ZCard k r = (a, r') ->
    rview r' = rview r /\ forall n, a = Ok n -> n = Z.of_nat (size (zsetOf (rview r) k));
  rl_expire k ttl r a r' : rd_Expire k ttl r = (a, r') -> rview r' = rview r;
  rl_sadd k ms r a r' : rd_SAdd k ms r = (a, r') ->
    sent (rview r) (rview r') a (set_s (rview r) (<[k := setOf (rview r) k ∪ list_to_set ms]> (rv_s (rview r))));
  rl_sscan k count r keys r' : scans k count 0 r keys r' ->
    rview r' = rview r /\ forall x, x ∈ keys <-> x ∈ setOf (rview r) k;
  rl_rename a b r u r' : rd_Rename a b r = (u, r') -> rv_s (rview r) !! a = None /\ is_ok u = false /\ rview r' = rview r
    \/ exists x, rv_s (rview r) !! a = Some x /\ sent (rview r) (rview r') u (set_s (rview r) (<[b := x]> (delete a (rv_s (rview r)))));
  rl_up_zrem k hi r a r' : rd_ZRemRangeByScore k hi r = (a, r') -> rup r -> is_ok a = true /\ rup r';
  rl_up_zadd k sc m r a r' : rd_ZAdd k sc m r = (a, r') -> rup r -> is_ok a = true /\ rup r';
  rl_up_zcard k r a r' : rd_ZCard k r = (a, r') -> rup r -> is_ok a = true /\ rup r';
  rl_up_expire k ttl r a r' : rd_Expire k ttl r = (a, r') -> rup r -> is_ok a = true /\ rup r';
}.

(** ** cache/idempotency.go, cache/quote_cache.go *)

Section Keyed.
Context {L : ThirdParty} {R : Type} `{RD : !Redis R}.

Definition DefaultIdempotencyTTL : Z := 24 * hour.

Definition idemKey (tenantID : UUID) (key : string) : string := "settla:idem:" +:+ uuid_String tenantID +:+ ":" +:+ key.

Definition IdemCheck (tenantID : UUID) (key : string) (r : R) : result string * R :=
  match rd_Get (idemKey tenantID key) r with
  | (Ok None, r) => (Ok "", r)
  | (Ok (Some v), r) => (Ok v, r)
  | (Err e, r) => (Err (WrapErr "check idempotency" e), r)
  end.

Definition IdemSet (tenantID : UUID) (key transferID : string) (r : R) : result bool * R :=
  let '(ok, r) := rd_SetNX (idemKey tenantID key) transferID DefaultIdempotencyTTL r in (wrap "set idempotency" ok, r).

(** encoding/gob at quotes. *)
Variable encodeQuote : Quote -> result string.
Variable decodeQuote : string -> result Quote.

Definition DefaultQuoteTTL : Z := 15 * 60 * 1000000000.

Definition quoteKey (tenantID quoteID : UUID) : string := "settla:quote:" +:+ uuid_String tenantID +:+ ":" +:+ uuid_String quoteID.

Definition QuoteGet (tenantID quoteID : UUID) (r : R) : result (option Quote) * R :=
  match rd_Get (quoteKey tenantID quoteID) r with
  | (Ok None, r) => (Ok None, r)
  | (Err e, r) => (Err (WrapErr "get quote" e), r)
  | (Ok (Some s), r) => (let? q := wrap "decode quote" (decodeQuote s) in Ok (Some q), r)
  end.

Definition quoteTTL (now : Z) (q : Quote) : Z := Z.min DefaultQuoteTTL (timeSub (q_ExpiresAt q) now).

Definition QuoteSet (now : Z) (q : Quote) (r : R) : result unit * R :=
  if timeSub (q_ExpiresAt q) now <=? 0 then (Ok tt, r)
  else match encodeQuote q with
       | Err e => (Err (WrapErr "encode quote" e), r)
       | Ok s => rd_Set (quoteKey (q_TenantID q) (q_ID q)) s (quoteTTL now q) r
       end.

Definition QuoteDelete (tenantID quoteID : UUID) (r : R) : result unit * R := rd_Del (quoteKey tenantID quoteID) r.
End Keyed.

(** ** cache/tenant_cache.go *)

Section TenantCache.
Context {L : ThirdParty} {R : Type} `{RD : !Redis R}.
Variable order : gmap string (localEntry Tenant) -> list (string * localEntry Tenant).

(** encoding/json at tenants. *)
Variable encodeTenant : Tenant -> result string.
Variable decodeTenant : string -> result Tenant.

Definition LocalTenantTTL : Z := 30 * 1000000000.
Definition RedisTenantTTL : Z := 5 * 60 * 1000000000.

Definition tenantKey (tenantID : UUID) : string := "settla:tenant:" +:+ uuid_String tenantID.

(** [now i] is the i-th reading of the clock.  What Redis could not write is
    ignored. *)
Definition loadTenant (now : nat -> Z) (loader : UUID -> result Tenant) (tenantID : UUID) (c : LocalCache Tenant) (r : R)
  : result Tenant * (LocalCache Tenant * R) :=
  match loader tenantID with
  | Err e => (Err e, (c, r))
  | Ok t =>
      let r := match encodeTenant t with Ok s => (rd_Set (tenantKey tenantID) s RedisTenantTTL r).2 | Err _ => r end in
      (Ok t, (LocalSet order (now 2%nat) (now 3%nat) (tenantKey tenantID) t LocalTenantTTL c, r))
  end.

Definition TenantGet (now : nat -> Z) (loader : UUID -> result Tenant) (tenantID : UUID) (c : LocalCache Tenant) (r : R)
  : result Tenant * (LocalCache Tenant * R) :=
  match LocalGet (now 0%nat) (now 1%nat) (tenantKey tenantID) c with
  | (Some t, c) => (Ok t, (c, r))
  | (None, c) =>
      match rd_Get (tenantKey tenantID) r with
      | (Ok (Some s), r) =>
          match decodeTenant s with
          | Ok t => (Ok t, (LocalSet order (now 2%nat) (now 3%nat) (tenantKey tenantID) t LocalTenantTTL c, r))
          | Err _ => loadTenant now loader tenantID c r
          end
      | (_, r) => loadTenant now loader tenantID c r
      end
  end.

Definition Invalidate (tenantID : UUID) (c : LocalCache Tenant) (r : R) : result unit * (LocalCache Tenant * R) :=
  let c := LocalDelete (tenantKey tenantID) c in
  let '(u, r) := rd_Del (tenantKey tenantID) r in (u, (c, r)).
End TenantCache.

(** ** cache/rate_limiter.go *)

Section RateLimiter.
Context {L : ThirdParty} {R : Type} `{RD : !Redis R}.

Definition DefaultRateWindow : Z := 60 * 1000000000.
Definition DefaultSyncInterval : Z := 5 * 1000000000.

Record localCounter := { ct_count : Z; ct_limit : Z; ct_syncAt : Z }.

Record RateLimiter := { rl_redis : R; rl_counters : gmap string localCounter }.

Definition rateLimitKey (tenantID : UUID) : string := "settla:rate:" +:+ uuid_String tenantID.

(** A pipeline sends every command and reports the first error. *)
Definition ratePipeline (key : string) (now : Z) (r : R) : result Z * R :=
  let '(a, r) := rd_ZRemRangeByScore key (f64_of_Z (now - DefaultRateWindow)) r in
  let '(b, r) := rd_ZAdd key (f64_of_Z now) (pretty now) r in
  let '(n, r) := rd_ZCard key r in
  let '(d, r) := rd_Expire key (DefaultRateWindow + 1000000000) r in
  (let? _ := a in let? _ := b in let? k := n in let? _ := d in Ok k, r).

Definition isHot (now : Z) (c : localCounter) : bool := (now <? ct_syncAt c + DefaultSyncInterval) && (ct_count c <? ct_limit c).

Definition coldPath (now : Z) (tenantID : UUID) (limit : Z) (rl : RateLimiter) : result (bool * Z) * RateLimiter :=
  match ratePipeline (rateLimitKey tenantID) now (rl_redis rl) with
  | (Err e, r) => (Err (WrapErr "rate limit check" e), {| rl_redis := r; rl_counters := rl_counters rl |})
  | (Ok count, r) =>
      (Ok (count <=? limit, Z.max 0 (limit - count)),
       {| rl_redis := r;
          rl_counters := <[uuid_String tenantID := {| ct_count := count; ct_limit := limit; ct_syncAt := now |}]> (rl_counters rl) |})
  end.

Definition Allow (now : Z) (tenantID : UUID) (limit : Z) (rl : RateLimiter) : result (bool * Z) * RateLimiter :=
  match rl_counters rl !! uuid_String tenantID with
  | Some c =>
      if isHot now c then
        (Ok (true, ct_limit c - (ct_count c + 1)),
         {| rl_redis := rl_redis rl;
            rl_counters := <[uuid_String tenantID := {| ct_count := ct_count c + 1; ct_limit := ct_limit c; ct_syncAt := ct_syncAt c |}]>
                             (rl_counters rl) |})
      else coldPath now tenantID limit rl
  | None => coldPath now tenantID limit rl
  end.

Definition ResetRate (tenantID : UUID) (rl : RateLimiter) : result unit * RateLimiter :=
  let '(u, r) := rd_Del (rateLimitKey tenantID) (rl_redis rl) in
  (u, {| rl_redis := r; rl_counters := delete (uuid_String tenantID) (rl_counters rl) |}).
End RateLimiter.

(** ** domain/tenant_iter.go, cache/tenant_index.go *)

Section TenantIndex.
Context {L : ThirdParty} {R W : Type} `{RD : !Redis R}.

Definition DefaultTenantBatchSize : Z := 500.

(** The callback, which may change the world of its caller. *)
Abbreviation Callback := (list UUID -> W -> result unit * W).

(** [None]: out of fuel.  The offset is an int32. *)
Fixpoint ForEachTenantBatch (fuel : nat) (fetch : Z -> Z -> result (list UUID)) (batchSize : Z) (fn : Callback) (offset : Z) (w : W)
  : option (result unit * W) :=
  match fuel with
  | O => None
  | Datatypes.S fuel =>
      match fetch batchSize offset with
      | Err e => Some (Err e, w)
      | Ok [] => Some (Ok tt, w)
      | Ok ids =>
          match fn ids w with
          | (Err e, w) => Some (Err e, w)
          | (Ok _, w) =>
              if int32 (Z.of_nat (length ids)) <? batchSize then Some (Ok tt, w)
              else ForEachTenantBatch fuel fetch batchSize fn (int32 (offset + batchSize)) w
          end
      end
  end.

Definition tenantIndexKey : string := "settla:active_tenants".

Definition IndexAdd (tenantID : UUID) (r : R) : result unit * R :=
  let '(u, r) := rd_SAdd tenantIndexKey [uuid_String tenantID] r in (wrap "adding tenant" u, r).
Definition IndexRemove (tenantID : UUID) (r : R) : result unit * R :=
  let '(u, r) := rd_SRem tenantIndexKey (uuid_String tenantID) r in (wrap "removing tenant" u, r).
Definition IndexCount (r : R) : result Z * R :=
  let '(n, r) := rd_SCard tenantIndexKey r in (wrap "counting tenants" n, r).

(** What does not parse is skipped, an empty batch is not handed on. *)
Fixpoint forEachRedis (fuel : nat) (batchSize : Z) (fn : Callback) (cursor : Z) (r : R) (w : W) : option (result unit * (R * W)) :=
  match fuel with
  | O => None
  | Datatypes.S fuel =>
      match rd_SScan tenantIndexKey cursor batchSize r with
      | (Err e, r) => Some (Err (WrapErr "scanning tenants" e), (r, w))
      | (Ok (keys, next), r) =>
          let '(u, w) := match omap uuid_Parse keys with [] => (Ok tt, w) | ids => fn ids w end in
          match u with
          | Err e => Some (Err e, (r, w))
          | Ok _ => if next =? 0 then Some (Ok tt, (r, w)) else forEachRedis fuel batchSize fn next r w
          end
      end
  end.

(** Any error, of Redis or of the callback, leads to the fallback. *)
Definition ForEach (fuel : nat) (fallback : option (Z -> Z -> result (list UUID))) (batchSize : Z) (fn : Callback) (r : R) (w : W)
  : option (result unit * (R * W)) :=
  match forEachRedis fuel batchSize fn 0 r w with
  | None => None
  | Some (Ok _, rw) => Some (Ok tt, rw)
  | Some (Err e, (r, w)) =>
      match fallback with
      | None => Some (Err (WrapErr "Redis unavailable and no fallback configured" e), (r, w))
      | Some fetch =>
          match ForEachTenantBatch fuel fetch batchSize fn 0 w with
          | None => None
          | Some (u, w) => Some (u, (r, w))
          end
      end
  end.
End TenantIndex.

Section Rebuild.
Context {L : ThirdParty} {R : Type} `{RD : !Redis R}.

Definition tmpKey : string := tenantIndexKey +:+ ":rebuild".

Definition addBatch (ids : list UUID) (r : R) : result unit * R :=
  let '(u, r) := rd_SAdd tmpKey (map uuid_String ids) r in (wrap "adding batch to temp key" u, r).

Definition Rebuild (fuel : nat) (fallback : option (Z -> Z -> result (list UUID))) (r : R) : option (result unit * R) :=
  match fallback with
  | None => Some (Err (MsgErr "no fallback fetcher configured for rebuild"), r)
  | Some fetch =>
      match rd_Del tmpKey r with
      | (Err e, r) => Some (Err (WrapErr "clearing temp key" e), r)
      | (Ok _, r) =>
          match ForEachTenantBatch fuel fetch DefaultTenantBatchSize addBatch 0 r with
          | None => None
          | Some (Err e, r) => Some (Err (WrapErr "rebuild failed during Postgres iteration" e), (rd_Del tmpKey r).2)
          | Some (Ok _, r) => let '(u, r) := rd_Rename tmpKey tenantIndexKey r in Some (wrap "renaming temp key" u, r)
          end
      end
  end.
End Rebuild.
End Cache.

(** ** What the caches guarantee *)

Module CacheProps.
Import Cache.

(** *** The local cache

    A cache may forget.  [ideal] is the map without bounds and eviction; the
    critical sections of concurrent calls come in any order. *)

Section Local.
Context {V : Type}.
Variable order : gmap string (localEntry V) -> list (string * localEntry V).
Hypothesis order_walks : forall m, order m ≡ₚ map_to_list m.
Implicit Types c : LocalCache V.

Inductive lop :=
| LSet (now now' : Z) (key : string) (v : V) (ttl : Z)
| LTouch (now : Z) (key : string)
| LLazyDelete (now : Z) (key : string)
| LDelete (key : string).

Definition opTime (o : lop) : Z :=
  match o with LSet now now' _ _ _ => Z.max now now' | LTouch now _ | LLazyDelete now _ => now | LDelete _ => 0 end.

Definition lrun1 c (o : lop) : LocalCache V :=
  match o with
  | LSet now now' key v ttl => LocalSet order now now' key v ttl c
  | LTouch now key => touch now key c
  | LLazyDelete now key => lazyDelete now key c
  | LDelete key => LocalDelete key c
  end.

Definition lrun (ops : list lop) c : LocalCache V := foldl lrun1 c ops.

Definition ideal1 (m : gmap string (V * Z)) (o : lop) : gmap string (V * Z) :=
  match o with
  | LSet now _ key v ttl => <[key := (v, now + ttl)]> m
  | LDelete key => delete key m
  | LTouch _ _ | LLazyDelete _ _ => m
  end.

Definition ideal (ops : list lop) : gmap string (V * Z) := foldl ideal1 ∅ ops.

Lemma oldest_min (l : list (string * localEntry V)) best : match oldest best l with
  | None => best = None /\ l = []
  | Some (k, t) => (best = Some (k, t) \/ exists e, (k, e) ∈ l /\ le_lastAccess e = t)
                   /\ (forall kt, best = Some kt -> t <= kt.2) /\ (forall k' e', (k', e') ∈ l -> t <= le_lastAccess e')
  end.
Proof.
  revert best. induction l as [|[k e] l IH]; intros best; cbn; [destruct best as [[k t]|]; [|done]|].
  - split_and!; [by left|intros ? [= <-]; cbn; lia|]. by intros k' e' H%elem_of_nil.
  - set (b := match best with Some _ => _ | None => _ end). specialize (IH b).
    assert (exists kt, b = Some kt /\ kt.2 <= le_lastAccess e /\ (forall kt', best = Some kt' -> kt.2 <= kt'.2)
      /\ (best = Some kt \/ kt = (k, le_lastAccess e))) as (kt & Hb & Hle & Hbest & Hor).
    { subst b. clear IH. destruct best as [[k0 t0]|]; [destruct (le_lastAccess e <? t0) eqn:Hlt|]; eexists; (split; [reflexivity|]); cbn;
        split_and!; try lia; auto; intros kt' [= <-]; cbn; lia. }
    rewrite Hb in IH |- *. destruct (oldest (Some kt) l) as [[k1 t1]|] eqn:E; [|by destruct IH].
    destruct IH as (Hin & Hb' & Hl). specialize (Hb' kt eq_refl). split_and!.
    + destruct Hin as [[= ->]|(e1 & H1 & H2)]; [|right; exists e1; split; [by right|done]].
      destruct Hor as [->|[= -> ->]]; [by left|]. right. exists e. split; [left|done].
    + intros kt' H. specialize (Hbest kt' H). lia.
    + intros k' e' [[= -> ->]|H]%elem_of_cons; [lia|by eapply Hl].
Qed.

(** The oldest entry goes. *)
Lemma evictLRU_spec c : lc_entries c <> ∅ -> exists k e, lc_entries c !! k = Some e /\ evictLRU order c = set_entries c (delete k (lc_entries c))
  /\ forall k' e', lc_entries c !! k' = Some e' -> le_lastAccess e <= le_lastAccess e'.
Proof.
  intros Hne. unfold evictLRU. pose proof (oldest_min (order (lc_entries c)) None) as H. destruct (oldest _ _) as [[k t]|].
  - destruct H as ([?|(e & He & Ht)] & _ & Hall); [done|]. rewrite order_walks, elem_of_map_to_list in He. exists k, e. split_and!; [done..|].
    intros k' e' H'. rewrite Ht. apply (Hall k' e'). by rewrite order_walks, elem_of_map_to_list.
  - destruct H as [_ H]. exfalso. apply Hne. apply map_to_list_empty_iff. apply Permutation_nil. by rewrite <- order_walks, H.
Qed.

Lemma makeRoom_spec now key c : 1 <= lc_maxSize c -> Z.of_nat (size (lc_entries c)) <= lc_maxSize c ->
  lc_maxSize (makeRoom order now key c) = lc_maxSize c /\ lc_entries (makeRoom order now key c) ⊆ lc_entries c
  /\ (lc_entries c !! key = None -> Z.of_nat (size (lc_entries (makeRoom order now key c))) < lc_maxSize c)
  /\ (Z.of_nat (size (lc_entries c)) < lc_maxSize c -> makeRoom order now key c = c).
Proof.
  intros H1 Hs. unfold makeRoom. destruct (lc_entries c !! key) eqn:Ek; [by split_and!|].
  destruct (lc_maxSize c <=? _) eqn:Hfull; [|split_and!; [done..|lia|done]].
  assert (lc_entries (evictExpired now c) ⊆ lc_entries c) as Hsub by apply map_filter_subseteq.
  destruct (lc_maxSize (evictExpired now c) <=? _) eqn:Hfull'; [|cbn in *; split_and!; [done..|lia|lia]].
  destruct (evictLRU_spec (evictExpired now c)) as (k & e & Hk & -> & _).
  { intros E. rewrite E, map_size_empty in Hfull'. change (lc_maxSize (evictExpired now c)) with (lc_maxSize c) in Hfull'. apply Z.leb_le in Hfull'. cbn in Hfull'. lia. }
  cbn in *. split_and!; [done| | |lia].
  - etrans; [apply delete_subseteq|done].
  - intros _. rewrite map_size_delete_Some by done. apply map_subseteq_size in Hsub. cbn in Hsub. assert (0 < size (filter (fun x => (now <= le_expiresAt x.2)%Z) (lc_entries c)))%nat; [|lia].
    apply Nat.neq_0_lt_0. intros E%map_size_empty_inv. rewrite E in Hk. done.
Qed.

Definition agrees c (m : gmap string (V * Z)) : Prop :=
  forall k e, lc_entries c !! k = Some e -> m !! k = Some (le_value e, le_expiresAt e).

Record cacheInv c (m : gmap string (V * Z)) : Prop := {
  ci_max : 1 <= lc_maxSize c;
  ci_size : Z.of_nat (size (lc_entries c)) <= lc_maxSize c;
  ci_agrees : agrees c m;
}.

Lemma agrees_size c m : agrees c m -> (size (lc_entries c) <= size m)%nat.
Proof.
  intros H. rewrite <- (size_dom (D := gset string) (lc_entries c)), <- (size_dom (D := gset string) m). apply subseteq_size. intros k [e He]%elem_of_dom.
  apply elem_of_dom. eexists. by apply H.
Qed.

Lemma agrees_sub c c' m : lc_entries c' ⊆ lc_entries c -> agrees c m -> agrees c' m.
Proof. intros Hs H k e He. apply H. by eapply lookup_weaken. Qed.

Lemma inv_sub c c' m : lc_maxSize c' = lc_maxSize c -> lc_entries c' ⊆ lc_entries c -> cacheInv c m -> cacheInv c' m.
Proof. intros Em Hs [H1 H2 H3]. split; rewrite ?Em; [done| |by eapply agrees_sub]. apply map_subseteq_size in Hs. lia. Qed.

Lemma lrun1_inv c m o : cacheInv c m -> cacheInv (lrun1 c o) (ideal1 m o) /\ lc_maxSize (lrun1 c o) = lc_maxSize c.
Proof.
  intros Hc. destruct (Hc) as [H1 H2 H3]. destruct o as [now now' key v ttl|now key|now key|key]; cbn [lrun1 ideal1].
  - destruct (makeRoom_spec now' key c H1 H2) as (Em & Hs & Hlt & _). destruct (inv_sub _ _ _ Em Hs Hc) as [_ H2' H3']. unfold LocalSet.
    split; [split; cbn|done]; rewrite ?Em; [done| |].
    + destruct (lc_entries c !! key) eqn:Ek.
      * assert (makeRoom order now' key c = c) as -> by (unfold makeRoom; by rewrite Ek). by rewrite map_size_insert_Some by done.
      * specialize (Hlt eq_refl). rewrite map_size_insert. case_match; cbn; lia.
    + intros k e He. cbn in He. apply lookup_insert_Some in He as [[<- <-]|[Hn He]]; [by rewrite lookup_insert_eq|]. rewrite lookup_insert_ne by done. by apply H3'.
  - unfold touch. destruct (lc_entries c !! key) as [e|] eqn:Ek; [|done]. split; [split; cbn; [done| |]|done].
    + by rewrite map_size_insert_Some by done.
    + intros k e' He. cbn in He. apply lookup_insert_Some in He as [[<- <-]|[Hn He]]; [|by apply H3]. cbn. by apply H3.
  - unfold lazyDelete. repeat case_match; [|done..]. split; [|done]. apply (inv_sub c); [done| |exact Hc]. apply delete_subseteq.
  - split; [split; cbn; [done| |]|done].
    + assert (size (delete key (lc_entries c)) <= size (lc_entries c))%nat by apply map_subseteq_size, delete_subseteq. lia.
    + intros k e He. cbn in He. apply lookup_delete_Some in He as [Hn He]. rewrite lookup_delete_ne by done. by apply H3.
Qed.

(** Nothing is evicted while the ideal map fits: what is missing has expired. *)
Definition keepsLive c (m : gmap string (V * Z)) (now : Z) : Prop :=
  forall k v exp, m !! k = Some (v, exp) -> now <= exp -> exists e, lc_entries c !! k = Some e.

Lemma lrun1_keeps c m o now : cacheInv c m -> Z.of_nat (size (ideal1 m o)) <= lc_maxSize c -> opTime o <= now ->
  keepsLive c m now -> keepsLive (lrun1 c o) (ideal1 m o) now.
Proof.
  intros Hc Hs Ht Hk k v exp. destruct (Hc) as [H1 H2 H3]. destruct o as [t t' key v0 ttl|t key|t key|key]; cbn in *.
  - assert (makeRoom order t' key c = c) as E.
    { destruct (lc_entries c !! key) eqn:Ek; [unfold makeRoom; by rewrite Ek|]. apply makeRoom_spec; [done..|].
      assert (Z.of_nat (size (delete key m)) < lc_maxSize c) as Hd.
      { rewrite <- insert_delete_eq in Hs. rewrite map_size_insert_None in Hs by apply lookup_delete_eq. lia. }
      assert (agrees c (delete key m)) as Ha; [|apply agrees_size in Ha; lia]. intros k' e' He'. rewrite lookup_delete_ne by congruence. by apply H3. }
    unfold LocalSet. rewrite E. cbn. destruct (decide (key = k)) as [->|Hn]; [intros _ _; eexists; apply lookup_insert_eq|].
    intros Hm Hx. rewrite lookup_insert_ne in Hm by done. destruct (Hk k v exp Hm Hx) as [e He]. exists e. by rewrite lookup_insert_ne.
  - intros Hm Hexp. destruct (Hk k v exp Hm Hexp) as [e He]. unfold touch. destruct (lc_entries c !! key); [|eauto].
    cbn. destruct (decide (key = k)) as [->|Hn]; [eexists; apply lookup_insert_eq|]. exists e. by rewrite lookup_insert_ne.
  - intros Hm Hexp. destruct (Hk k v exp Hm Hexp) as [e He]. unfold lazyDelete. destruct (lc_entries c !! key) as [e0|] eqn:Ek; [|eauto].
    destruct (le_expiresAt e0 <? t) eqn:Hx; [|eauto]. cbn. destruct (decide (key = k)) as [->|Hn]; [|exists e; by rewrite lookup_delete_ne].
    apply H3 in Ek. rewrite Hm in Ek. injection Ek as _ ->. lia.
  - intros [Hn Hm]%lookup_delete_Some Hexp. rewrite lookup_delete_ne by done. by eapply Hk.
Qed.

Lemma lrun_inv ops maxSize : cacheInv (lrun ops (NewLocalCache maxSize)) (ideal ops)
  /\ lc_maxSize (lrun ops (NewLocalCache maxSize)) = lc_maxSize (NewLocalCache (V := V) maxSize).
Proof.
  induction ops as [|o ops [IH IHm]] using rev_ind.
  - split; [split; cbn|done]; [unfold DefaultLocalCacheSize; case_match; lia|rewrite map_size_empty; unfold DefaultLocalCacheSize; case_match; lia|].
    intros k e He. cbn in He. by rewrite lookup_empty in He.
  - unfold lrun, ideal. rewrite !foldl_app. cbn [foldl]. destruct (lrun1_inv _ _ o IH) as [Hi Hm]. split; [exact Hi|]. etrans; [exact Hm|exact IHm].
Qed.

Lemma lrun_keeps ops maxSize now : (forall n, Z.of_nat (size (ideal (take n ops))) <= lc_maxSize (NewLocalCache (V := V) maxSize)) ->
  Forall (fun o => opTime o <= now) ops -> keepsLive (lrun ops (NewLocalCache maxSize)) (ideal ops) now.
Proof.
  induction ops as [|o ops IH] using rev_ind; intros Hs Ht; [intros k v exp H; cbn in H; by rewrite lookup_empty in H|].
  apply Forall_app in Ht as [Ht Ho]. apply Forall_cons_1 in Ho as [Ho _]. unfold lrun, ideal. rewrite !foldl_app. cbn [foldl].
  destruct (lrun_inv ops maxSize) as [Hi Hm]. refine (lrun1_keeps _ _ o now Hi _ Ho _).
  - specialize (Hs (length (ops ++ [o]))%list). rewrite firstn_all in Hs. unfold ideal in Hs. rewrite foldl_app in Hs. rewrite Hm. exact Hs.
  - apply IH; [|done]. intros n. destruct (decide (n <= length ops)%nat) as [Hn|Hn].
    + specialize (Hs n). by rewrite take_app_le in Hs.
    + rewrite take_ge by lia. specialize (Hs (length ops)). by rewrite take_app_length in Hs.
Qed.

(** C25: In whatever order the critical sections of concurrent calls come, the
    local cache holds at most its capacity; a hit is the value last set under
    the key, not deleted since and not expired; and as long as the keys set
    fit into the capacity, every such value is a hit. *)
Theorem local_cache_refines maxSize ops : let c := lrun ops (NewLocalCache maxSize) in
  LocalLen c <= lc_maxSize (NewLocalCache (V := V) maxSize)
  /\ (forall now now' key v c', LocalGet now now' key c = (Some v, c') -> exists exp, ideal ops !! key = Some (v, exp) /\ now <= exp)
  /\ ((forall n, Z.of_nat (size (ideal (take n ops))) <= lc_maxSize (NewLocalCache (V := V) maxSize)) ->
      forall now now' key v exp, Forall (fun o => opTime o <= now) ops -> ideal ops !! key = Some (v, exp) -> now <= exp ->
      (LocalGet now now' key c).1 = Some v).
Proof.
  cbn zeta. destruct (lrun_inv ops maxSize) as [[_ Hs Ha] Hm]. rewrite Hm in Hs. split_and!; [exact Hs| |].
  - intros now now' key v c'. unfold LocalGet. destruct (lc_entries _ !! key) as [e|] eqn:He; [|done]. destruct (le_expiresAt e <? now) eqn:Hx; [done|].
    intros [= <- _]. exists (le_expiresAt e). split; [by apply Ha|lia].
  - intros Hfit now now' key v exp Ht Hi Hx. destruct (lrun_keeps ops maxSize now Hfit Ht key v exp Hi Hx) as [e He]. unfold LocalGet. rewrite He.
    apply Ha in He. rewrite Hi in He. injection He as -> ->. destruct (le_expiresAt e <? now) eqn:Hlt; [lia|done].
Qed.
End Local.

(** *** The walks over tenants *)

Section Walks.
Context {L : ThirdParty} {R W : Type} `{RL : RedisLaws R}.
Variable fn : list UUID -> W -> result unit * W.
Implicit Types ids : list UUID.

(** The callback took these batches, one after another. *)
Inductive handled : list (list UUID) -> W -> W -> Prop :=
| handled_nil w : handled [] w w
| handled_cons b bs w w1 w2 u : fn b w = (Ok u, w1) -> handled bs w1 w2 -> handled (b :: bs) w w2.

(** LIMIT and OFFSET over the active tenants. *)
Definition pageOf ids (limit offset : Z) : result (list UUID) := Ok (take (Z.to_nat limit) (drop (Z.to_nat offset) ids)).

Lemma int32_id n : 0 <= n < 2 ^ 31 -> int32 n = n.
Proof. intros H. unfold int32. rewrite Z.mod_small; lia. Qed.

Lemma batches_complete ids b fuel : 0 < b -> Z.of_nat (length ids) + b < 2 ^ 31 -> forall offset w,
  0 <= offset -> (length ids - Z.to_nat offset < fuel)%nat ->
  exists u w', ForEachTenantBatch fuel (pageOf ids) b fn offset w = Some (u, w')
    /\ (u = Ok tt -> exists bs, concat bs = drop (Z.to_nat offset) ids /\ handled bs w w')
    /\ (forall e, u = Err e -> exists ids w0, fn ids w0 = (Err e, w')).
Proof.
  intros Hb Hl. induction fuel as [|fuel IH]; intros offset w H0 Hf; [lia|]. cbn [ForEachTenantBatch]. unfold pageOf at 1.
  set (page := take _ _). assert (length page = Z.to_nat b `min` (length ids - Z.to_nat offset))%nat as Hp by (unfold page; by rewrite length_take, length_drop).
  assert (page ++ drop (Z.to_nat (offset + b)) ids = drop (Z.to_nat offset) ids)%list as Happ.
  { rewrite <- (take_drop (Z.to_nat b) (drop (Z.to_nat offset) ids)). unfold page. f_equal. rewrite drop_drop. f_equal. lia. }
  clearbody page. destruct page as [|id page'].
  - exists (Ok tt), w. split_and!; [done| |done]. intros _. exists []. split; [|constructor]. rewrite <- Happ. cbn. symmetry. apply drop_ge. cbn in Hp. lia.
  - set (page := id :: page') in *. assert (0 < length page)%nat as Hpos by (cbn; lia). clearbody page.
    destruct (fn page w) as [[[]|e] w1] eqn:Efn.
    2: { exists (Err e), w1. split_and!; [done..|]. intros e' [= <-]. eauto. }
    rewrite int32_id by lia. destruct (Z.of_nat (length page) <? b) eqn:Hlt.
    + exists (Ok tt), w1. split_and!; [done| |done]. intros _. exists [page]. split; [|econstructor; [exact Efn|constructor]].
      cbn. rewrite app_nil_r, <- Happ, drop_ge, app_nil_r; [done|lia].
    + rewrite int32_id by lia. destruct (IH (offset + b) w1) as (u & w' & E & Hok & Herr); [lia..|]. exists u, w'. split_and!; [done| |done].
      intros Hu. destruct (Hok Hu) as (bs & Hc & Hh). exists (page :: bs). split; [cbn; by rewrite Hc|by econstructor].
Qed.

Lemma uuid_Parse_keys (keys : list string) id : ThirdPartyLaws L -> uuid_String id ∈ keys -> id ∈ omap uuid_Parse keys.
Proof. intros LL H. apply list_elem_of_omap. exists (uuid_String id). split; [done|]. apply uuid_Parse_String. Qed.

Lemma forEachRedis_handled fuel b cursor r w r' w' : forEachRedis fuel b fn cursor r w = Some (Ok tt, (r', w')) ->
  exists keys bs, scans tenantIndexKey b cursor r keys r' /\ concat bs = omap uuid_Parse keys /\ handled bs w w'.
Proof.
  revert cursor r w. induction fuel as [|fuel IH]; intros cursor r w; [done|]. cbn [forEachRedis].
  destruct (rd_SScan _ _ _ r) as [[[keys next]|e] r1] eqn:Es; [|done].
  destruct (match omap uuid_Parse keys with [] => _ | _ => _ end) as [u w1] eqn:Eu. destruct u as [[]|e]; [|done].
  assert (exists bs, concat bs = omap uuid_Parse keys /\ handled bs w w1) as (bs1 & Hc1 & Hh1).
  { destruct (omap uuid_Parse keys) as [|i ids] eqn:Ei.
    - injection Eu as <-. exists []. split; [done|constructor].
    - exists [i :: ids]. split; [cbn; by rewrite app_nil_r|]. econstructor; [exact Eu|constructor]. }
  destruct (next =? 0) eqn:En.
  - apply Z.eqb_eq in En as ->. intros [= <- <-]. exists keys, bs1. split_and!; [by constructor|done..].
  - apply Z.eqb_neq in En. intros (keys2 & bs2 & Hs2 & Hc2 & Hh2)%IH. exists (keys ++ keys2)%list, (bs1 ++ bs2)%list. split_and!.
    + by econstructor.
    + by rewrite concat_app, Hc1, Hc2, omap_app.
    + clear -Hh1 Hh2. induction Hh1; cbn; [done|]. econstructor; eauto.
Qed.

(** A walk over the tenants that returns without an error has handed to
    the callback, and the callback has accepted, every tenant of the index in
    Redis, or else, each once and in order, every active tenant of the
    database.  The paging loop ends: with more fuel than tenants it returns,
    and its only errors are those of the callback. *)
Theorem tenants_all_visited (LL : ThirdPartyLaws L) ids b fuel r w r' w' :
  0 < b -> Z.of_nat (length ids) + b < 2 ^ 31 -> (length ids < fuel)%nat ->
  (exists u w1, ForEachTenantBatch fuel (pageOf ids) b fn 0 w = Some (u, w1) /\ (forall e, u = Err e -> exists x w0, fn x w0 = (Err e, w1)))
  /\ (ForEach fuel (Some (pageOf ids)) b fn r w = Some (Ok tt, (r', w')) ->
      exists bs w0, handled bs w0 w'
        /\ ((w0 = w /\ forall id, uuid_String id ∈ setOf (rview r) tenantIndexKey -> id ∈ concat bs) \/ concat bs = ids)).
Proof.
  intros Hb Hl Hf. split.
  - destruct (batches_complete ids b fuel Hb Hl 0 w) as (u & w1 & E & _ & Herr); [lia..|]. eauto.
  - unfold ForEach. destruct (forEachRedis _ _ _ _ r w) as [[u [r1 w1]]|] eqn:E; [|done]. destruct u as [[]|e].
    + intros [= <- <-]. apply forEachRedis_handled in E as (keys & bs & Hs & Hc & Hh). exists bs, w. split; [done|]. left. split; [done|].
      intros id Hid. rewrite Hc. apply rl_sscan in Hs as [_ Hk]. apply uuid_Parse_keys; [done|]. by apply Hk.
    + destruct (batches_complete ids b fuel Hb Hl 0 w1) as (u & w2 & -> & Hok & _); [lia..|]. intros [= -> -> ->].
      destruct (Hok eq_refl) as (bs & Hc & Hh). exists bs, w1. split; [done|]. by right.
Qed.
End Walks.

(** *** Rebuilding the index *)

Section Rebuilding.
Context {L : ThirdParty} {R : Type} `{RL : RedisLaws R}.

Lemma handled_added bs r r' : handled addBatch bs r r' ->
  rv_s (rview r') !! tenantIndexKey = rv_s (rview r) !! tenantIndexKey
  /\ setOf (rview r') tmpKey = setOf (rview r) tmpKey ∪ list_to_set (map uuid_String (concat bs)).
Proof.
  induction 1 as [r|b bs r r1 r2 u Hb _ [IH1 IH2]]; [cbn; split; [done|set_solver]|].
  unfold addBatch in Hb. destruct (rd_SAdd tmpKey _ r) as [a r0] eqn:E. destruct a; [|done]. injection Hb as _ ->.
  apply rl_sadd in E as [E|[_ E]]; [|done]. unfold setOf in *. rewrite E in IH1, IH2. cbn in IH1, IH2.
  rewrite lookup_insert_ne in IH1 by done. split; [done|]. rewrite IH2, lookup_insert_eq. cbn. rewrite map_app, list_to_set_app_L. set_solver.
Qed.

(** A rebuild that returns without an error leaves in the index exactly
    the active tenants of the database. *)
Theorem rebuild_is_exact ids fuel r r' : Z.of_nat (length ids) + DefaultTenantBatchSize < 2 ^ 31 -> (length ids < fuel)%nat ->
  Rebuild fuel (Some (pageOf ids)) r = Some (Ok tt, r') ->
  setOf (rview r') tenantIndexKey = list_to_set (map uuid_String ids).
Proof.
  intros Hl Hf. unfold Rebuild. destruct (rd_Del tmpKey r) as [a r1] eqn:Ed. destruct a as [[]|]; [|done].
  destruct (batches_complete addBatch ids DefaultTenantBatchSize fuel eq_refl Hl 0 r1) as (u & r2 & -> & Hok & _); [lia..|].
  destruct u as [[]|]; [|done]. destruct (Hok eq_refl) as (bs & Hc & Hh). destruct (rd_Rename _ _ r2) as [v r3] eqn:Er.
  intros [= Hv ->]. destruct v as [[]|]; [|done]. apply handled_added in Hh as [_ Ht]. apply rl_del in Ed as [Ed|[_ Ed]]; [|done].
  apply rl_rename in Er as [(_ & ? & _)|(x & Hx & [E|[_ ?]])]; [done| |done]. unfold setOf in *. rewrite E. cbn. rewrite lookup_insert_eq. cbn.
  rewrite Hx, Ed, Hc in Ht. cbn in Ht. rewrite lookup_delete_eq in Ht. cbn in Ht. rewrite Ht. set_solver.
Qed.
End Rebuilding.

(** *** The rate limiter

    The requests the local counter lets through never reach Redis, and each
    request that does reach it starts the local counter again at the number of
    those. *)

Section Rate.
Context {L : ThirdParty} {R : Type} `{RL : RedisLaws R}.
Variables (tn : UUID) (limit : Z).
Hypothesis limit_pos : 1 <= limit.

Fixpoint burst (ts : list Z) (rl : RateLimiter (R := R)) : list (result (bool * Z)) * RateLimiter :=
  match ts with
  | [] => ([], rl)
  | t :: ts => let '(a, rl) := Allow t tn limit rl in let '(as', rl) := burst ts rl in (a :: as', rl)
  end.

(** [t] comes after [t0] and before the local counter of [t0] is stale, and
    the score of [t0] is in the window of [t]. *)
Definition closeAfter (t0 t : Z) : Prop :=
  t0 < t < t0 + DefaultSyncInterval /\ f64_leb (f64_of_Z t0) (f64_of_Z (t - DefaultRateWindow)) = false.

Lemma zsetOf_set v k z : zsetOf (set_z v k z) k = z.
Proof. unfold zsetOf, set_z. cbn. by rewrite lookup_insert_eq. Qed.

Lemma pipeline_counts k t r : rup r -> (forall m sc, zsetOf (rview r) k !! m = Some sc -> f64_leb sc (f64_of_Z (t - DefaultRateWindow)) = false) ->
  zsetOf (rview r) k !! pretty t = None ->
  exists r', ratePipeline k t r = (Ok (Z.of_nat (size (zsetOf (rview r) k)) + 1), r') /\ rup r'
    /\ zsetOf (rview r') k = <[pretty t := f64_of_Z t]> (zsetOf (rview r) k).
Proof.
  intros Hup Hin Hnew. unfold ratePipeline. destruct (rd_ZRemRangeByScore _ _ r) as [a r1] eqn:E1. destruct (rl_up_zrem _ _ _ _ _ E1 Hup) as [Ha Hup1].
  apply rl_zrem in E1 as [E1|[_ E1]]; [|congruence]. destruct (rd_ZAdd _ _ _ r1) as [b r2] eqn:E2. destruct (rl_up_zadd _ _ _ _ _ _ E2 Hup1) as [Hb Hup2].
  apply rl_zadd in E2 as [E2|[_ E2]]; [|congruence]. destruct (rd_ZCard _ r2) as [n r3] eqn:E3. destruct (rl_up_zcard _ _ _ _ E3 Hup2) as [Hn Hup3].
  apply rl_zcard in E3 as [E3 Hcard]. destruct (rd_Expire _ _ r3) as [d r4] eqn:E4. destruct (rl_up_expire _ _ _ _ _ E4 Hup3) as [Hd Hup4].
  apply rl_expire in E4. assert (zsetOf (rview r1) k = zsetOf (rview r) k) as Ez1.
  { rewrite E1, zsetOf_set. apply map_filter_id. intros m sc Hm. by eapply Hin. }
  assert (zsetOf (rview r2) k = <[pretty t := f64_of_Z t]> (zsetOf (rview r) k)) as Ez2 by (by rewrite E2, zsetOf_set, Ez1).
  exists r4. split_and!; [|done|by rewrite E4, E3]. destruct a, b, n as [n|], d; try done. specialize (Hcard n eq_refl). rewrite Ez2 in Hcard.
  rewrite map_size_insert_None in Hcard by done. do 2 f_equal. lia.
Qed.

(** After the requests of [seen]: [k] of them went to Redis. *)
Record rateInv (seen : list Z) (rl : RateLimiter (R := R)) (k : Z) : Prop := {
  ri_up : rup (rl_redis rl);
  ri_set : forall m sc, zsetOf (rview (rl_redis rl)) (rateLimitKey tn) !! m = Some sc -> exists t0, t0 ∈ seen /\ m = pretty t0 /\ sc = f64_of_Z t0;
  ri_size : Z.of_nat (size (zsetOf (rview (rl_redis rl)) (rateLimitKey tn))) = k;
  ri_phase : (seen = [] /\ k = 0 /\ rl_counters rl !! uuid_String tn = None)
    \/ exists c, rl_counters rl !! uuid_String tn = Some c /\ ct_limit c = limit /\ ct_syncAt c ∈ seen /\ 1 <= k
       /\ ((k <= ct_count c <= limit /\ 2 * Z.of_nat (length seen) = 2 * (k - 1) * limit - (k - 1) * (k - 2) + 2 * (ct_count c - k + 1))
           \/ (limit < k /\ limit <= ct_count c /\ limit * (limit + 1) <= 2 * Z.of_nat (length seen)));
}.

Definition verdict (i : nat) : bool := bool_decide (2 * (Z.of_nat i + 1) <= limit * (limit + 1)).

(** A request that goes to Redis. *)
Lemma cold_step seen rl k t : rateInv seen rl k -> Forall (fun t0 => closeAfter t0 t) seen ->
  (exists rem, (coldPath t tn limit rl).1 = Ok (k + 1 <=? limit, rem))
  /\ rup (rl_redis (coldPath t tn limit rl).2)
  /\ (forall m sc, zsetOf (rview (rl_redis (coldPath t tn limit rl).2)) (rateLimitKey tn) !! m = Some sc ->
        exists t0, t0 ∈ (seen ++ [t])%list /\ m = pretty t0 /\ sc = f64_of_Z t0)
  /\ Z.of_nat (size (zsetOf (rview (rl_redis (coldPath t tn limit rl).2)) (rateLimitKey tn))) = k + 1
  /\ rl_counters (coldPath t tn limit rl).2 !! uuid_String tn = Some {| ct_count := k + 1; ct_limit := limit; ct_syncAt := t |}.
Proof.
  intros [Hup Hset Hsize _] Hclose. rewrite Forall_forall in Hclose.
  assert (zsetOf (rview (rl_redis rl)) (rateLimitKey tn) !! pretty t = None) as Hnew.
  { apply eq_None_not_Some. intros [sc Hm]. destruct (Hset _ _ Hm) as (t0 & H0 & Ht & _). apply (inj pretty) in Ht as ->.
    destruct (Hclose _ H0) as [H _]. lia. }
  destruct (pipeline_counts (rateLimitKey tn) t (rl_redis rl)) as (r' & E & Hup' & Ez); [done| |done|].
  { intros m sc Hm. destruct (Hset _ _ Hm) as (t0 & H0 & -> & ->). by apply Hclose. }
  unfold coldPath. rewrite E. cbn. rewrite Hsize in *. split_and!; [by eexists|done| | |by rewrite lookup_insert_eq].
  - rewrite Ez. intros m sc [[<- <-]|[_ Hm]]%lookup_insert_Some.
    + exists t. split_and!; [|done..]. apply elem_of_app. right. by apply list_elem_of_singleton.
    + destruct (Hset _ _ Hm) as (t0 & H0 & -> & ->). exists t0. split_and!; [|done..]. apply elem_of_app. by left.
  - rewrite Ez, map_size_insert_None by done. lia.
Qed.

Lemma Allow_step seen rl k t : rateInv seen rl k -> Forall (fun t0 => closeAfter t0 t) seen ->
  (exists rem, (Allow t tn limit rl).1 = Ok (verdict (length seen), rem)) /\ exists k', rateInv (seen ++ [t]) (Allow t tn limit rl).2 k'.
Proof.
  intros Hi Hclose. destruct (cold_step seen rl k t Hi Hclose) as ((rem & Hc1) & Hc2 & Hc3 & Hc4 & Hc5). destruct Hi as [Hup Hset Hsize Hph]. unfold Allow.
  assert (length (seen ++ [t]) = Datatypes.S (length seen)) as Hlen by (rewrite length_app; cbn; lia).
  destruct Hph as [(-> & Ek & Hnone)|(c & Hc & Hlim & Hsync & Hk1 & Hph)].
  - rewrite Hnone. split; [exists rem; rewrite Hc1; unfold verdict; do 2 f_equal; cbn; case_bool_decide; nia|]. exists (k + 1). split; try done.
    right. eexists. split_and!; [exact Hc5|done|cbn; by left|lia|]. left. cbn. split; [lia|nia].
  - rewrite Hc. unfold isHot. assert ((t <? ct_syncAt c + DefaultSyncInterval) = true) as ->.
    { rewrite Forall_forall in Hclose. destruct (Hclose _ Hsync) as [H _]. lia. }
    rewrite Hlim. cbn [andb]. destruct (ct_count c <? limit) eqn:Hhot.
    + destruct Hph as [[Hb He]|[Hk [Hge _]]]; [|lia]. split; [exists (limit - (ct_count c + 1)); unfold verdict; cbn; do 2 f_equal; case_bool_decide; nia|].
      exists k. split; cbn; [done| |done|].
      * intros m sc Hm. destruct (Hset _ _ Hm) as (t0 & H0 & -> & ->). exists t0. split_and!; [|done..]. apply elem_of_app. by left.
      * right. eexists. rewrite lookup_insert_eq. split_and!; [done..|cbn; apply elem_of_app; by left|done|]. left. cbn. rewrite Hlen. split; [lia|nia].
    + split.
      * exists rem. rewrite Hc1. unfold verdict. do 2 f_equal. destruct Hph as [[Hb He]|[Hk [Hge He]]]; case_bool_decide; nia.
      * exists (k + 1). split; try done. right. eexists. split_and!; [exact Hc5|done|cbn; apply elem_of_app; right; by apply list_elem_of_singleton|lia|]. cbn.
        rewrite Hlen. destruct Hph as [[Hb He]|[Hk [Hge He]]]; [|right; split_and!; lia].
        destruct (decide (k + 1 <= limit)) as [Hle|Hle]; [left; split; [lia|nia]|right; split_and!; [lia..|nia]].
Qed.

Lemma burst_verdicts ts seen rl k : rateInv seen rl k -> (forall i j a b, (seen ++ ts)%list !! i = Some a -> (seen ++ ts)%list !! j = Some b ->
    (i < j)%nat -> closeAfter a b) ->
  length (burst ts rl).1 = length ts /\ forall i a, (burst ts rl).1 !! i = Some a -> exists rem, a = Ok (verdict (length seen + i), rem).
Proof.
  revert seen rl k. induction ts as [|t ts IH]; intros seen rl k Hi Hclose; [done|]. cbn [burst].
  assert (Forall (fun t0 => closeAfter t0 t) seen) as Hs.
  { apply Forall_lookup. intros i a Ha. apply (Hclose i (length seen)); [by apply lookup_app_l_Some|by rewrite list_lookup_middle|by eapply lookup_lt_Some]. }
  destruct (Allow_step seen rl k t Hi Hs) as [[rem Ha] [k' Hi']]. destruct (Allow t tn limit rl) as [a rl']. cbn in Ha, Hi'. subst a.
  destruct (IH (seen ++ [t])%list rl' k' Hi') as [Hl Hv]; [by rewrite <- app_assoc|]. destruct (burst ts rl') as [as' rl2]. cbn in *. split; [by rewrite Hl|].
  intros [|i] a H; cbn in H; [injection H as <-; rewrite Nat.add_0_r; eauto|]. destruct (Hv i a H) as [rem' ->].
  rewrite length_app. cbn. exists rem'. do 3 f_equal. lia.
Qed.

(** Of a burst of requests within one interval of synchronisation, to a
    Redis that answers, the limiter lets through exactly the first
    limit * (limit + 1) / 2, not the first [limit]. *)
Theorem rate_limit_is_quadratic rl ts : rup (rl_redis rl) -> rl_counters rl !! uuid_String tn = None ->
  zsetOf (rview (rl_redis rl)) (rateLimitKey tn) = ∅ ->
  (forall i j a b, ts !! i = Some a -> ts !! j = Some b -> (i < j)%nat -> closeAfter a b) ->
  length (burst ts rl).1 = length ts
  /\ forall i a, (burst ts rl).1 !! i = Some a -> exists rem, a = Ok (bool_decide (2 * (Z.of_nat i + 1) <= limit * (limit + 1)), rem).
Proof.
  intros Hup Hc Hz Hclose. apply (burst_verdicts ts [] rl 0); [|done]. split; [done| | |by left].
  - rewrite Hz. intros m sc H. by rewrite lookup_empty in H.
  - by rewrite Hz, map_size_empty.
Qed.
End Rate.

(** *** How old a cached tenant can be *)

Section Staleness.
Context {L : ThirdParty} {LL : ThirdPartyLaws L} {R : Type} `{RL : RedisLaws R}.
Variable order : gmap string (localEntry Tenant) -> list (string * localEntry Tenant).
Variable encodeTenant : Tenant -> result string.
Variable decodeTenant : string -> result Tenant.
Hypothesis tenant_roundtrip : forall t s, encodeTenant t = Ok s -> decodeTenant s = Ok t.

(** The tenants of the database at each instant, and how long a call takes at
    most from reading a tenant to storing it. *)
Variable db : Z -> UUID -> Tenant.
Variable delta : Z.
Hypothesis delta_pos : 0 <= delta.

(** A tenant some call has read, from Redis or from the database, and when. *)
Inductive flight := FRedis (id : UUID) (v : Tenant) (t : Z) | FLoaded (id : UUID) (v : Tenant) (t : Z).

(** The local caches of all processes, and the Redis they share. *)
Record TWorld := { tw_clock : Z; tw_local : nat -> LocalCache Tenant; tw_redis : R; tw_flight : list flight }.

Definition withRedis (w : TWorld) (r : R) : TWorld :=
  {| tw_clock := tw_clock w; tw_local := tw_local w; tw_redis := r; tw_flight := tw_flight w |}.
Definition withLocal (w : TWorld) (p : nat) (c : LocalCache Tenant) : TWorld :=
  {| tw_clock := tw_clock w; tw_local := fun q => if decide (q = p) then c else tw_local w q; tw_redis := tw_redis w; tw_flight := tw_flight w |}.
Definition withFlight (w : TWorld) (f : flight) : TWorld :=
  {| tw_clock := tw_clock w; tw_local := tw_local w; tw_redis := tw_redis w; tw_flight := f :: tw_flight w |}.

(** The steps of the calls of all processes; Redis drops keys as it likes. *)
Inductive tstep (w : TWorld) : TWorld -> Prop :=
| t_tick clock r : tw_clock w <= clock -> rv_str (rview r) ⊆ rv_str (rview (tw_redis w)) ->
    tstep w {| tw_clock := clock; tw_local := tw_local w; tw_redis := r; tw_flight := tw_flight w |}
| t_local_get p id now' : tstep w (withLocal w p (LocalGet (tw_clock w) now' (tenantKey id) (tw_local w p)).2)
| t_redis_miss id a r : rd_Get (tenantKey id) (tw_redis w) = (a, r) -> tstep w (withRedis w r)
| t_redis_hit id s v r : rnow (tw_redis w) = tw_clock w -> rd_Get (tenantKey id) (tw_redis w) = (Ok (Some s), r) -> decodeTenant s = Ok v ->
    tstep w (withFlight (withRedis w r) (FRedis id v (tw_clock w)))
| t_load id : tstep w (withFlight w (FLoaded id (db (tw_clock w) id) (tw_clock w)))
| t_put_redis id v t s : FLoaded id v t ∈ tw_flight w -> tw_clock w <= t + delta -> rnow (tw_redis w) = tw_clock w -> encodeTenant v = Ok s ->
    tstep w (withRedis w (rd_Set (tenantKey id) s RedisTenantTTL (tw_redis w)).2)
| t_put_local p id v t now' : FRedis id v t ∈ tw_flight w \/ FLoaded id v t ∈ tw_flight w -> tw_clock w <= t + delta ->
    tstep w (withLocal w p (LocalSet order (tw_clock w) now' (tenantKey id) v LocalTenantTTL (tw_local w p)))
| t_invalidate p id : tstep w (let '(c, r) := (Invalidate id (tw_local w p) (tw_redis w)).2 in withRedis (withLocal w p c) r).

Definition seenAt (id : UUID) (v : Tenant) (t until slack : Z) : Prop := exists t0, t0 <= t /\ v = db t0 id /\ until <= t0 + slack.

Record freshInv (w : TWorld) : Prop := {
  fi_local : forall p id e, lc_entries (tw_local w p) !! tenantKey id = Some e ->
    seenAt id (le_value e) (tw_clock w) (le_expiresAt e) (RedisTenantTTL + LocalTenantTTL + 2 * delta);
  fi_redis : forall id s e, rv_str (rview (tw_redis w)) !! tenantKey id = Some (s, e) ->
    exists v, decodeTenant s = Ok v /\ seenAt id v (tw_clock w) e (RedisTenantTTL + delta);
  fi_flight : forall f, f ∈ tw_flight w -> match f with
    | FLoaded id v t => t <= tw_clock w /\ v = db t id
    | FRedis id v t => t <= tw_clock w /\ seenAt id v t t (RedisTenantTTL + delta)
    end;
}.

#[local] Instance tenantKey_inj : Inj (=) (=) tenantKey.
Proof. intros a b H. unfold tenantKey in H. repeat (injection H as H). by apply uuid_String_inj. Qed.

Lemma seenAt_later id v t t' until slack : t <= t' -> seenAt id v t until slack -> seenAt id v t' until slack.
Proof. intros H (t0 & H0 & Hv & Hu). exists t0. split_and!; [lia|done..]. Qed.

(** What the operations of the local cache leave of its entries. *)
Lemma LocalGet_entries now now' key (c : LocalCache Tenant) k e : lc_entries (LocalGet now now' key c).2 !! k = Some e ->
  exists e0, lc_entries c !! k = Some e0 /\ le_value e = le_value e0 /\ le_expiresAt e = le_expiresAt e0.
Proof.
  unfold LocalGet. destruct (lc_entries c !! key) as [e1|] eqn:Ek; [|by eauto]. destruct (le_expiresAt e1 <? now); cbn; intros He.
  - unfold lazyDelete in He. rewrite Ek in He. case_match; cbn in He; [apply lookup_delete_Some in He as [_ He]|]; eauto.
  - unfold touch in He. rewrite Ek in He. cbn in He. apply lookup_insert_Some in He as [[<- <-]|[_ He]]; eauto.
Qed.

Lemma makeRoom_sub now key (c : LocalCache Tenant) : lc_entries (makeRoom order now key c) ⊆ lc_entries c.
Proof.
  unfold makeRoom. case_match; [done|]. case_match; [|done]. assert (lc_entries (evictExpired now c) ⊆ lc_entries c) as H' by apply map_filter_subseteq.
  case_match; [|done]. unfold evictLRU. case_match; [|done]. case_match. cbn. etrans; [apply delete_subseteq|done].
Qed.

Lemma LocalSet_entries now now' key v ttl (c : LocalCache Tenant) k e : lc_entries (LocalSet order now now' key v ttl c) !! k = Some e ->
  (k = key /\ le_value e = v /\ le_expiresAt e = now + ttl) \/ lc_entries c !! k = Some e.
Proof.
  intros He. cbn in He. apply lookup_insert_Some in He as [[<- <-]|[_ He]]; [by left|]. right. eapply lookup_weaken; [exact He|apply makeRoom_sub].
Qed.

Lemma fresh_withLocal w p c : freshInv w ->
  (forall id e, lc_entries c !! tenantKey id = Some e ->
    seenAt id (le_value e) (tw_clock w) (le_expiresAt e) (RedisTenantTTL + LocalTenantTTL + 2 * delta)) -> freshInv (withLocal w p c).
Proof. intros [Hl Hr Hf] Hc. split; [|exact Hr|exact Hf]. intros q id e. cbn. case_decide; [apply Hc|apply Hl]. Qed.

Lemma fresh_withRedis w r : freshInv w -> (forall id s e, rv_str (rview r) !! tenantKey id = Some (s, e) ->
    rv_str (rview (tw_redis w)) !! tenantKey id = Some (s, e)
    \/ exists v, decodeTenant s = Ok v /\ seenAt id v (tw_clock w) e (RedisTenantTTL + delta)) -> freshInv (withRedis w r).
Proof. intros [Hl Hr Hf] Hc. split; [exact Hl| |exact Hf]. intros id s e H. destruct (Hc id s e H) as [H0|H0]; [by eapply Hr|done]. Qed.

Lemma fresh_withFlight w f : freshInv w -> match f with
    | FLoaded id v t => t <= tw_clock w /\ v = db t id
    | FRedis id v t => t <= tw_clock w /\ seenAt id v t t (RedisTenantTTL + delta)
    end -> freshInv (withFlight w f).
Proof. intros [Hl Hr Hf] Hc. split; [exact Hl|exact Hr|]. intros g [->|Hg]%elem_of_cons; [done|by apply Hf]. Qed.

Lemma flight_seen w id v t : freshInv w -> FRedis id v t ∈ tw_flight w \/ FLoaded id v t ∈ tw_flight w ->
  t <= tw_clock w /\ seenAt id v t t (RedisTenantTTL + delta).
Proof.
  intros [_ _ Hf] [H|H]; apply Hf in H; [done|]. destruct H as [Ht ->]. split; [done|]. exists t. split_and!; [lia|done|]. unfold RedisTenantTTL. lia.
Qed.

Lemma tstep_fresh w w' : freshInv w -> tstep w w' -> freshInv w'.
Proof.
  intros Hw Hs. destruct (Hw) as [Hl Hr Hf]. destruct Hs as [clock r Hc Hsub|p id now'|id a r E|id s v r Hn E Ed|id|id v t s Hin Ht Hn Ee|p id v t now' Hin Ht|p id].
  - split; cbn.
    + intros q id e H. eapply seenAt_later; [exact Hc|by apply (Hl q)].
    + intros id s e H. destruct (Hr id s e) as (v & Hv & Hat); [by eapply lookup_weaken|]. exists v. split; [done|]. by eapply seenAt_later.
    + intros f H. apply Hf in H. destruct f; destruct H; split; try done; lia.
  - apply fresh_withLocal; [done|]. intros id' e (e0 & H0 & -> & ->)%LocalGet_entries. by apply (Hl p).
  - apply rl_get in E as [E _]. apply fresh_withRedis; [done|]. rewrite E. by left.
  - apply rl_get in E as [E Hg]. destruct (Hg s eq_refl) as (e & He & Hlt). destruct (Hr id s e He) as (v' & Hv & (t0 & H0 & Hd & Hu)).
    rewrite Ed in Hv. injection Hv as <-. apply fresh_withFlight; [apply fresh_withRedis; [done|rewrite E; by left]|]. cbn.
    split; [lia|]. exists t0. split_and!; [done..|lia].
  - by apply fresh_withFlight.
  - apply fresh_withRedis; [done|]. intros id' s' e He. destruct (rd_Set _ _ _ _) as [a r] eqn:E. cbn in He.
    apply rl_set in E as [E|[E _]]; rewrite E in He; [|by left]. cbn in He. apply lookup_insert_Some in He as [[Hk [= <- <-]]|[_ He]]; [|by left].
    apply (inj tenantKey) in Hk as <-. right. exists v. split; [by apply tenant_roundtrip|]. destruct (Hf _ Hin) as [Ht0 ->].
    exists t. split_and!; [done..|]. rewrite Hn. lia.
  - destruct (flight_seen w id v t Hw Hin) as [Htc (t0 & H0 & Hv & Hu)]. apply fresh_withLocal; [done|].
    intros id' e [(Hk & -> & ->)|He]%LocalSet_entries; [|by apply (Hl p)]. apply (inj tenantKey) in Hk as ->. exists t0. split_and!; [lia|done|lia].
  - unfold Invalidate. destruct (rd_Del _ _) as [u r] eqn:E. cbn. apply rl_del in E. apply fresh_withRedis; [apply fresh_withLocal; [done|]|].
    + intros id' e He. cbn in He. apply lookup_delete_Some in He as [_ He]. by apply (Hl p).
    + cbn. intros id' s e He. left. destruct E as [E|[E _]]; rewrite E in He; [|done]. cbn in He. by apply lookup_delete_Some in He as [_ He].
Qed.

(** The answers of the calls: a hit of a local cache, or a tenant that was
    just read. *)
Definition answers (w : TWorld) (id : UUID) (v : Tenant) : Prop :=
  (exists p now', (LocalGet (tw_clock w) now' (tenantKey id) (tw_local w p)).1 = Some v)
  \/ exists t, (FRedis id v t ∈ tw_flight w \/ FLoaded id v t ∈ tw_flight w) /\ tw_clock w <= t + delta.

(** C26: Whatever calls of the tenant caches of all processes interleave,
    whatever Redis drops or fails to do, and however the tenants change in the
    database, a tenant the cache answers with is what the database held at
    some instant no longer ago than the two times to live and twice the
    duration of a call. *)
Theorem cached_tenant_is_recent w w' id v :
  (forall p, lc_entries (tw_local w p) = ∅) -> (forall id, rv_str (rview (tw_redis w)) !! tenantKey id = None) -> tw_flight w = [] ->
  rtc tstep w w' -> answers w' id v ->
  exists t0, t0 <= tw_clock w' /\ v = db t0 id /\ tw_clock w' <= t0 + RedisTenantTTL + LocalTenantTTL + 2 * delta.
Proof.
  intros Hl Hr Hf Hrtc. assert (freshInv w') as Hi.
  { apply (invariant_rtc tstep freshInv tstep_fresh w w' Hrtc). split.
    - intros p i e H. by rewrite Hl, lookup_empty in H.
    - intros i s e H. by rewrite Hr in H.
    - rewrite Hf. by intros f H%elem_of_nil. }
  intros [(p & now' & Hg)|(t & Hin & Ht)].
  - unfold LocalGet in Hg. destruct (lc_entries _ !! _) as [e|] eqn:He; [|done]. destruct (le_expiresAt e <? _) eqn:Hx; [done|]. injection Hg as <-.
    destruct (fi_local _ Hi p id e He) as (t0 & H0 & Hv & Hu). exists t0. split_and!; [done..|lia].
  - destruct (flight_seen w' id v t Hi Hin) as [Htc (t0 & H0 & Hv & Hu)]. exists t0. split_and!; [lia|done|]. unfold LocalTenantTTL in *. lia.
Qed.

(** A call that takes no time is such a run. *)
Definition ends (w : TWorld) (p : nat) (c : LocalCache Tenant) (r : R) : Prop := exists w', rtc tstep w w'
  /\ (forall q, tw_local w' q = if decide (q = p) then c else tw_local w q) /\ tw_redis w' = r /\ tw_clock w' = tw_clock w.

Lemma ends_step w w1 p c r : tstep w w1 -> tw_clock w1 = tw_clock w -> (forall q, q <> p -> tw_local w1 q = tw_local w q) -> ends w1 p c r -> ends w p c r.
Proof.
  intros Hs Hc Hl (w' & Hr & Hl' & Hr' & Hc'). exists w'. split_and!; [by eapply rtc_l| |done|congruence].
  intros q. rewrite Hl'. case_decide; [done|by apply Hl].
Qed.

Lemma ends_put w p id v t : FRedis id v t ∈ tw_flight w \/ FLoaded id v t ∈ tw_flight w -> t = tw_clock w ->
  ends w p (LocalSet order (tw_clock w) (tw_clock w) (tenantKey id) v LocalTenantTTL (tw_local w p)) (tw_redis w).
Proof. intros Hin ->. eexists. split; [apply rtc_once, (t_put_local w p id v (tw_clock w) (tw_clock w) Hin); lia|done]. Qed.

Lemma loadTenant_run w p id : rnow (tw_redis w) = tw_clock w ->
  let '(_, (c, r)) := loadTenant order encodeTenant (fun _ => tw_clock w) (fun i => Ok (db (tw_clock w) i)) id (tw_local w p) (tw_redis w) in ends w p c r.
Proof.
  intros Hn. unfold loadTenant. apply (ends_step w _ p _ _ (t_load w id)); [done..|]. set (w1 := withFlight _ _).
  assert (FLoaded id (db (tw_clock w) id) (tw_clock w) ∈ tw_flight w1) as Hin by (by left).
  destruct (encodeTenant _) as [s|e] eqn:Ee; [|by apply (ends_put w1 p id _ (tw_clock w)); [right|]].
  eapply ends_step; [apply (t_put_redis w1 id _ _ s Hin); [cbn; lia|done|done]|done..|].
  apply (ends_put (withRedis w1 _) p id _ (tw_clock w)); [by right|done].
Qed.

Lemma TenantGet_run w p id : rnow (tw_redis w) = tw_clock w -> rnow (rd_Get (tenantKey id) (tw_redis w)).2 = tw_clock w ->
  let '(_, (c, r)) := TenantGet order encodeTenant decodeTenant (fun _ => tw_clock w) (fun i => Ok (db (tw_clock w) i)) id (tw_local w p) (tw_redis w) in
  ends w p c r.
Proof.
  intros Hn Hn'. unfold TenantGet. pose proof (t_local_get w p id (tw_clock w)) as Hget. set (w1 := withLocal _ _ _) in Hget.
  assert (forall q, q <> p -> tw_local w1 q = tw_local w q) as Hq by (intros q Hne; cbn; by rewrite decide_False).
  assert (tw_local w1 p = (LocalGet (tw_clock w) (tw_clock w) (tenantKey id) (tw_local w p)).2) as Hp by (cbn; by rewrite decide_True).
  destruct (LocalGet _ _ _ _) as [[t|] c1]; cbn [snd] in Hp.
  - apply (ends_step w w1 p); [done..|]. exists w1. split_and!; [apply rtc_refl| |done..]. intros q. case_decide as Hqp; [by rewrite Hqp|done].
  - destruct (rd_Get _ _) as [a r1] eqn:Eg. cbn in Hn'. assert (ends w1 p
      (loadTenant order encodeTenant (fun _ => tw_clock w) (fun i => Ok (db (tw_clock w) i)) id c1 r1).2.1
      (loadTenant order encodeTenant (fun _ => tw_clock w) (fun i => Ok (db (tw_clock w) i)) id c1 r1).2.2) as Hload.
    { eapply ends_step; [exact (t_redis_miss w1 id a r1 Eg)|done..|]. pose proof (loadTenant_run (withRedis w1 r1) p id Hn') as H.
      change (tw_local (withRedis w1 r1) p) with (tw_local w1 p) in H. rewrite Hp in H. cbn [withRedis tw_clock tw_redis w1 withLocal] in H.
      destruct (loadTenant _ _ _ _ _ _ _) as [? [? ?]]. exact H. }
    assert (let '(_, (c, r)) := loadTenant order encodeTenant (fun _ => tw_clock w) (fun i => Ok (db (tw_clock w) i)) id c1 r1 in ends w p c r) as Hall.
    { destruct (loadTenant _ _ _ _ _ _ _) as [? [? ?]]. by apply (ends_step w w1 p). }
    destruct a as [[s|]|e]; [|exact Hall..]. destruct (decodeTenant s) as [t|e] eqn:Ed; [|exact Hall].
    apply (ends_step w w1 p); [done..|]. eapply ends_step; [exact (t_redis_hit w1 id s t r1 Hn Eg Ed)|done..|].
    rewrite <- Hp. apply (ends_put (withFlight (withRedis w1 r1) _) p id t (tw_clock w)); [by left; left|done].
Qed.
End Staleness.
End CacheProps.

(** ** A Redis, and runs against it *)

Module RedisInstance.
Import Cache.

(** Keys live until they are overwritten or their instant has come; [rb_bad]
    are the calls that fail. *)
Record RedisDB := { rb_view : RView; rb_now : Z; rb_calls : nat; rb_bad : nat -> bool }.

Definition command {A} (f : RView -> result A * RView) (r : RedisDB) : result A * RedisDB :=
  let next v := {| rb_view := v; rb_now := rb_now r; rb_calls := Datatypes.S (rb_calls r); rb_bad := rb_bad r |} in
  if rb_bad r (rb_calls r) then (Err (MsgErr "connection refused"), next (rb_view r))
  else let '(a, v) := f (rb_view r) in (a, next v).

Definition alive (now : Z) (v : RView) (k : string) : option string :=
  match rv_str v !! k with Some (s, e) => if now <? e then Some s else None | None => None end.

#[global] Instance redisDB : Redis RedisDB := {
  rd_Get k r := command (fun v => (Ok (alive (rb_now r) v k), v)) r;
  rd_Set k s ttl r := command (fun v => (Ok tt, set_str v (<[k := (s, rb_now r + ttl)]> (rv_str v)))) r;
  rd_SetNX k s ttl r := command (fun v => match alive (rb_now r) v k with
    | Some _ => (Ok false, v) | None => (Ok true, set_str v (<[k := (s, rb_now r + ttl)]> (rv_str v))) end) r;
  rd_Del k r := command (fun v => (Ok tt, {| rv_str := delete k (rv_str v); rv_z := delete k (rv_z v); rv_s := delete k (rv_s v) |})) r;
  rd_ZRemRangeByScore k hi r := command (fun v => (Ok tt, set_z v k (filter (fun x => f64_leb x.2 hi = false) (zsetOf v k)))) r;
  rd_ZAdd k sc m r := command (fun v => (Ok tt, set_z v k (<[m := sc]> (zsetOf v k)))) r;
  rd_ZCard k r := command (fun v => (Ok (Z.of_nat (size (zsetOf v k))), v)) r;
  rd_Expire _ _ r := command (fun v => (Ok tt, v)) r;
  rd_SAdd k ms r := command (fun v => (Ok tt, set_s v (<[k := setOf v k ∪ list_to_set ms]> (rv_s v)))) r;
  rd_SRem k m r := command (fun v => (Ok tt, set_s v (<[k := setOf v k ∖ {[m]}]> (rv_s v)))) r;
  rd_SCard k r := command (fun v => (Ok (Z.of_nat (size (setOf v k))), v)) r;
  rd_SScan k _ _ r := command (fun v => (Ok (elements (setOf v k), 0), v)) r;
  rd_Rename a b r := command (fun v => match rv_s v !! a with
    | None => (Err (MsgErr "no such key"), v) | Some x => (Ok tt, set_s v (<[b := x]> (delete a (rv_s v)))) end) r;
}.

Lemma command_sent {A} (f : RView -> result A * RView) r a r' : command f r = (a, r') ->
  (a, rb_view r') = f (rb_view r) \/ (rb_view r' = rb_view r /\ is_ok a = false).
Proof. unfold command. destruct (rb_bad r _); [intros [= <- <-]; by right|]. destruct (f _) as [b v]. intros [= <- <-]. by left. Qed.

Lemma command_up {A} (f : RView -> result A * RView) r a r' : command f r = (a, r') -> (forall n, rb_bad r n = false) ->
  (a, rb_view r') = f (rb_view r) /\ forall n, rb_bad r' n = false.
Proof. unfold command. intros E H. rewrite H in E. destruct (f _) as [b v]. by injection E as <- <-. Qed.

#[global] Program Instance redisDB_laws : RedisLaws RedisDB := {
  rview := rb_view; rnow := rb_now; rup r := forall n, rb_bad r n = false }.
Next Obligation.
  intros k r a r' [E|[E Ha]]%command_sent; [|split; [done|]; by intros v ->]. injection E as -> ->. split; [done|]. intros v [= Hv].
  unfold alive in Hv. destruct (rv_str (rb_view r) !! k) as [[s e]|]; [|done]. destruct (rb_now r <? e) eqn:Hlt; [|done]. injection Hv as ->.
  exists e. split; [done|lia].
Qed.
Next Obligation. intros k v ttl r a r' [E|E]%command_sent; [injection E as -> ->; by left|by right]. Qed.
Next Obligation. intros k r a r' [E|E]%command_sent; [injection E as -> ->; by left|by right]. Qed.
Next Obligation. intros k hi r a r' [E|E]%command_sent; [injection E as -> ->; by left|by right]. Qed.
Next Obligation. intros k sc m r a r' [E|E]%command_sent; [injection E as -> ->; by left|by right]. Qed.
Next Obligation. intros k r a r' [E|[E Ha]]%command_sent; [injection E as -> ->; split; [done|by intros n [= <-]]|split; [done|by intros n ->]]. Qed.
Next Obligation. intros k ttl r a r' [E|[E Ha]]%command_sent; [by injection E as -> ->|done]. Qed.
Next Obligation. intros k ms r a r' [E|E]%command_sent; [injection E as -> ->; by left|by right]. Qed.
Next Obligation.
  intros k count r keys r' H. inversion H as [? ? ? ? E|? ? ? next ? ? ? E Hn _]; subst; apply command_sent in E as [E|[_ E]]; try done.
  - injection E as E1 E2. split; [done|]. intros x. rewrite E1. apply elem_of_elements.
  - injection E as _ E2 _. by subst.
Qed.
Next Obligation.
  intros a b r u r' [E|[E Hu]]%command_sent; destruct (rv_s (rb_view r) !! a) as [x|] eqn:Ex.
  - right. exists x. split; [done|]. injection E as -> ->. by left.
  - left. injection E as -> ->. done.
  - right. exists x. split; [done|]. by right.
  - by left.
Qed.
Next Obligation. intros k hi r a r' E H. apply command_up in E as [E H']; [|done]. by injection E as -> _. Qed.
Next Obligation. intros k sc m r a r' E H. apply command_up in E as [E H']; [|done]. by injection E as -> _. Qed.
Next Obligation. intros k r a r' E H. apply command_up in E as [E H']; [|done]. by injection E as -> _. Qed.
Next Obligation. intros k ttl r a r' E H. apply command_up in E as [E H']; [|done]. by injection E as -> _. Qed.
End RedisInstance.

Module CacheRuns.
Import QInstance Cache CacheProps RedisInstance.

Definition redis0 (bad : nat -> bool) : RedisDB :=
  {| rb_view := {| rv_str := ∅; rv_z := ∅; rv_s := ∅ |}; rb_now := 0; rb_calls := 0; rb_bad := bad |}.

(** Room for two: of three keys the one touched last and the new one stay. *)
Definition threeKeys : list (lop (V := nat)) := [LSet 1 1 "a" 1%nat 100; LSet 2 2 "b" 2%nat 100; LTouch 3 "a"; LSet 4 4 "c" 3%nat 100].

Lemma local_cache_refines_witness : let c := lrun map_to_list threeKeys (NewLocalCache 2) in
  LocalLen c <= 2 /\ (LocalGet 5 5 "b" c).1 = None
  /\ exists v exp, (LocalGet 5 5 "a" c).1 = Some v /\ ideal threeKeys !! "a" = Some (v, exp) /\ 5 <= exp.
Proof.
  assert (forall m : gmap string (localEntry nat), map_to_list m ≡ₚ map_to_list m) as Hw by done. cbn zeta.
  pose proof (local_cache_refines map_to_list Hw 2 threeKeys) as (Hlen & Hhit & _). split_and!; [exact Hlen|vm_compute; reflexivity|].
  destruct (LocalGet 5 5 "a" (lrun map_to_list threeKeys (NewLocalCache 2))) as [v c'] eqn:E. assert (v = Some 1%nat) as Hv.
  { change v with ((v, c').1). rewrite <- E. vm_compute. reflexivity. }
  rewrite Hv in *. destruct (Hhit _ _ _ _ _ E) as (exp & Hi & Hx). exact (ex_intro _ 1%nat (ex_intro _ exp (conj eq_refl (conj Hi Hx)))).
Defined.

(** Three tenants by pages of two, with Redis down. *)
Definition tenants : list UUID := ["x"; "y"; "z"]%char.
Definition log (ids : list UUID) (w : list UUID) : result unit * list UUID := (Ok tt, (w ++ ids)%list).
Definition indexed : RedisDB := match Rebuild 9 (Some (pageOf tenants)) (redis0 (fun _ => false)) with Some (_, r) => r | None => redis0 (fun _ => true) end.

Lemma tenants_all_visited_witness :
  ForEachTenantBatch 9 (pageOf tenants) 2 log 0 [] = Some (Ok tt, tenants)
  /\ exists bs w0, handled log bs w0 tenants
       /\ ((w0 = [] /\ forall id, uuid_String id ∈ setOf (rview (redis0 (fun _ => true))) tenantIndexKey -> id ∈ concat bs) \/ concat bs = tenants).
Proof.
  split; [vm_compute; reflexivity|].
  apply (tenants_all_visited log Qlib_laws tenants 2 9 (redis0 (fun _ => true)) [] (rd_SScan tenantIndexKey 0 2 (redis0 (fun _ => true))).2 tenants);
    [done|cbn; lia|cbn; lia|]. vm_compute. reflexivity.
Defined.

Lemma rebuild_is_exact_witness : setOf (rview indexed) tenantIndexKey = list_to_set (map uuid_String tenants).
Proof.
  apply (rebuild_is_exact tenants 9 (redis0 (fun _ => false)) indexed); [vm_compute; reflexivity|cbn; lia|]. vm_compute. reflexivity.
Defined.

(** With no active tenant left the rebuild fails and the old set stays. *)
Lemma rebuild_keeps_the_last_tenant :
  match Rebuild 9 (Some (pageOf [])) indexed with Some (a, r) => is_ok a = false /\ size (setOf (rview r) tenantIndexKey) = 3%nat | None => False end.
Proof. vm_compute. split; reflexivity. Qed.

(** A callback that fails in the middle is taken for an outage of Redis: the
    fallback hands it every tenant again. *)
Definition failOnce (ids : list UUID) (w : list UUID) : result unit * list UUID :=
  (if bool_decide (w = []) then Err (MsgErr "one tenant failed") else Ok tt, (w ++ ids)%list).

Lemma callback_error_visits_again :
  match ForEach 9 (Some (pageOf tenants)) 5 failOnce indexed [] with Some (a, (_, w)) => a = Ok tt /\ length w = 6%nat | None => False end.
Proof. vm_compute. split; reflexivity. Qed.

(** A limit of three per minute: a burst of seven nanoseconds. *)
Definition epoch : Z := 1700000000000000000.
Definition client : UUID := "x"%char.
Definition limiter : RateLimiter (R := RedisDB) := {| rl_redis := redis0 (fun _ => false); rl_counters := ∅ |}.
Definition arrivals : list Z := [epoch; epoch + 1; epoch + 2; epoch + 3; epoch + 4; epoch + 5; epoch + 6].

Definition granted (as' : list (result (bool * Z))) : list bool := map (fun a => match a with Ok (b, _) => b | Err _ => false end) as'.

Definition closeAfterb (t0 t : Z) : bool :=
  (t0 <? t) && (t <? t0 + DefaultSyncInterval) && negb (f64_leb (f64_of_Z t0) (f64_of_Z (t - DefaultRateWindow))).

Lemma pairs_close ts : forallb (fun i => forallb (fun j => match ts !! i, ts !! j with
    | Some a, Some b => (Nat.leb j i) || closeAfterb a b | _, _ => true end) (seq 0 (length ts))) (seq 0 (length ts)) = true ->
  forall i j a b, ts !! i = Some a -> ts !! j = Some b -> (i < j)%nat -> closeAfter a b.
Proof.
  intros H i j a b Hi Hj Hij. rewrite forallb_forall in H. specialize (H i). rewrite forallb_forall in H.
  specialize (fun Hin => H Hin j). rewrite Hi, Hj in H. pose proof (lookup_lt_Some _ _ _ Hi). pose proof (lookup_lt_Some _ _ _ Hj).
  apply orb_true_iff in H as [H|H]; [apply Nat.leb_le in H; lia| |apply in_seq; lia..]. unfold closeAfterb in H.
  apply andb_true_iff in H as [Ha Hb]. split; [lia|]. by apply negb_true_iff.
Qed.

Lemma rate_limit_is_quadratic_witness :
  granted (burst client 3 arrivals limiter).1 = [true; true; true; true; true; true; false]
  /\ exists a rem, (burst client 3 arrivals limiter).1 !! 5%nat = Some a /\ a = Ok (bool_decide (2 * (Z.of_nat 5 + 1) <= 3 * (3 + 1)), rem).
Proof.
  split; [vm_compute; reflexivity|]. assert (length (burst client 3 arrivals limiter).1 = 7%nat) as Hlen by (vm_compute; reflexivity).
  destruct (lookup_lt_is_Some_2 (burst client 3 arrivals limiter).1 5%nat) as [a Ha]; [rewrite Hlen; lia|].
  assert (1 <= 3) as H3 by lia. assert (rup (rl_redis limiter)) as Hup by (intros n; reflexivity).
  assert (rl_counters limiter !! uuid_String client = None) as Hc by reflexivity.
  assert (zsetOf (rview (rl_redis limiter)) (rateLimitKey client) = ∅) as Hz by reflexivity.
  assert (forall i j t u, arrivals !! i = Some t -> arrivals !! j = Some u -> (i < j)%nat -> closeAfter t u) as Hcl
    by (apply pairs_close; vm_compute; reflexivity).
  destruct (proj2 (rate_limit_is_quadratic client 3 H3 limiter arrivals Hup Hc Hz Hcl) 5%nat a Ha) as [rem Hr]. exact (ex_intro _ a (ex_intro _ rem (conj Ha Hr))).
Defined.

(** A codec for two tenants: one active, one suspended. *)
Definition active : Tenant := DepositRuns.tenant.
Definition suspended : Tenant :=
  {| tn_ID := tn_ID active; tn_Name := tn_Name active; tn_Slug := tn_Slug active; tn_Status := TenantSuspended; tn_FeeSchedule := tn_FeeSchedule active;
     tn_SettlementModel := tn_SettlementModel active; tn_DailyLimitUSD := tn_DailyLimitUSD active; tn_PerTransferLimit := tn_PerTransferLimit active;
     tn_MaxPendingTransfers := tn_MaxPendingTransfers active; tn_KYBStatus := tn_KYBStatus active; tn_CryptoConfig := tn_CryptoConfig active;
     tn_BankConfig := tn_BankConfig active |}.

#[local] Instance Q_eq_decision : EqDecision Q.
Proof. solve_decision. Defined.
#[local] Instance Decimal_eq_decision : EqDecision Decimal := Q_eq_decision.
#[local] Instance FeeSchedule_eq_dec : EqDecision FeeSchedule.
Proof. solve_decision. Defined.
#[local] Instance TenantCryptoConfig_eq_dec : EqDecision TenantCryptoConfig.
Proof. solve_decision. Defined.
#[local] Instance TenantBankConfig_eq_dec : EqDecision TenantBankConfig.
Proof. solve_decision. Defined.
#[local] Instance TenantStatus_eq_dec : EqDecision TenantStatus.
Proof. solve_decision. Defined.
#[local] Instance SettlementModel_eq_dec : EqDecision SettlementModel.
Proof. solve_decision. Defined.
#[local] Instance KYBStatus_eq_dec : EqDecision KYBStatus.
Proof. solve_decision. Defined.
#[local] Instance Tenant_eq_dec : EqDecision Tenant.
Proof. solve_decision. Defined.

Definition encode (t : Tenant) : result string :=
  if decide (t = active) then Ok "active" else if decide (t = suspended) then Ok "suspended" else Err (MsgErr "unknown tenant").
Definition decode (s : string) : result Tenant :=
  if String.eqb s "active" then Ok active else if String.eqb s "suspended" then Ok suspended else Err (MsgErr "unknown text").

Lemma codec_roundtrip t s : encode t = Ok s -> decode s = Ok t.
Proof. unfold encode. repeat case_decide; intros [= <-]; subst; reflexivity. Qed.

(** The tenant is suspended at the instant 100. *)
Definition db (t : Z) (_ : UUID) : Tenant := if t <? 100 then active else suspended.

Definition walk : gmap string (localEntry Tenant) -> list (string * localEntry Tenant) := map_to_list.
Definition empty (_ : nat) : LocalCache Tenant := NewLocalCache 10.
Definition world0 : TWorld (R := RedisDB) := {| tw_clock := 0; tw_local := empty; tw_redis := redis0 (fun _ => false); tw_flight := [] |}.
Definition loaded : TWorld (R := RedisDB) := withFlight world0 (FLoaded client active 0).
Definition stored : TWorld (R := RedisDB) := withLocal loaded 0 (LocalSet walk 0 0 (tenantKey client) active LocalTenantTTL (empty 0)).
Definition later : TWorld (R := RedisDB) :=
  {| tw_clock := 100; tw_local := tw_local stored; tw_redis := tw_redis stored; tw_flight := tw_flight stored |}.

(** The local cache still answers with the tenant that was active. *)
Lemma cached_tenant_is_recent_witness :
  (LocalGet 100 100 (tenantKey client) (tw_local later 0)).1 = Some active
  /\ exists t0, t0 <= 100 /\ active = db t0 client /\ 100 <= t0 + RedisTenantTTL + LocalTenantTTL + 2 * 0.
Proof.
  assert ((LocalGet 100 100 (tenantKey client) (tw_local later 0)).1 = Some active) as Hg by (vm_compute; reflexivity). split; [exact Hg|].
  assert (0 <= 0) as Hd by lia.
  refine (cached_tenant_is_recent (RL := redisDB_laws) (LL := Qlib_laws) walk encode decode codec_roundtrip db 0 Hd world0 later client active _ _ eq_refl _ _).
  - reflexivity.
  - reflexivity.
  - apply (rtc_l _ _ loaded); [exact (t_load _ _ _ _ _ world0 client)|]. apply (rtc_l _ _ stored).
    + refine (t_put_local _ _ _ _ _ loaded 0 client active 0 0 _ _); [right; left|cbn; lia].
    + apply rtc_once. apply (t_tick _ _ _ _ _ stored 100 (tw_redis stored)); [cbn; lia|reflexivity].
  - left. exists 0%nat, 100. exact Hg.
Defined.

(** A call loads the tenant, the tenant is suspended and invalidated, and then
    the call stores what it loaded: every process is answered with the active
    tenant. *)
Definition statusOf (a : result Tenant) : option TenantStatus := match a with Ok t => Some (tn_Status t) | Err _ => None end.

Lemma slow_load_undoes_invalidation :
  let '(_, (c, r)) := Invalidate client (empty 0) (tw_redis world0) in
  let r := (rd_Set (tenantKey client) "active" RedisTenantTTL r).2 in
  statusOf (TenantGet walk encode decode (fun _ => 101) (fun id => Ok (db 101 id)) client (empty 1) r).1 = Some TenantActive
  /\ tn_Status (db 101 client) = TenantSuspended.
Proof. vm_compute. split; reflexivity. Qed.
End CacheRuns.
