(* ===== verification/PaymentLinks.v ===== *)
(** * core/paymentlink: payment links

    Models src/domain/payment_link.go, src/core/paymentlink/service.go and
    src/store/transferdb/payment_link_store_adapter.go: a link is a template
    of a deposit session with a limit of uses; whoever redeems it gets a
    session of the deposit engine.  [link_redeemed_within_limit] bounds the
    sessions of a link by its limit and the redemptions that overlap;
    [PaymentLinkRuns] shows payers who share a session and payers who exceed
    the limit.

    The table of the links and the deposit store are separate sessions.
    Random indices are drawn by the environment; the session template, a JSON
    column, is the value it was marshalled from. *)

From Stdlib Require Import Ascii QArith.
From S2P Require Import Prelude ThirdParty GoNumbers Sql Machine Money Deposits Transfer Outbox Treasury TreasuryProps TransferStore DepositStore DepositEngine DepositProps DepositBooks BankDepositEngine DepositRuns.
Local Open Scope string_scope.
Local Open Scope Z_scope.

Module PaymentLinks.

(** ** domain *)

Inductive PaymentLinkStatus : Set := LinkActive | LinkExpired | LinkDisabled.

Section Links.
Context {L : ThirdParty}.

Record PaymentLinkSessionConfig := {
  lc_Amount : Decimal; lc_Currency : Currency; lc_Chain : CryptoChain; lc_Token : string; lc_SettlementPref : SettlementPreference;
  lc_TTLSeconds : Z }.

Record PaymentLink := {
  pl_ID : UUID; pl_TenantID : UUID; pl_ShortCode : string; pl_Description : string; pl_RedirectURL : string;
  pl_Status : PaymentLinkStatus; pl_SessionConfig : PaymentLinkSessionConfig; pl_UseLimit : option Z; pl_UseCount : Z;
  pl_ExpiresAt : option Z; pl_CreatedAt : Z; pl_UpdatedAt : Z }.

Definition CanRedeem (now : Z) (pl : PaymentLink) : result unit :=
  match pl_Status pl with
  | LinkDisabled => Err (DomainErr CodePaymentLinkDisabled)
  | LinkExpired => Err (DomainErr CodePaymentLinkExpired)
  | LinkActive =>
      if match pl_ExpiresAt pl with Some t => t <? now | None => false end then Err (DomainErr CodePaymentLinkExpired)
      else if match pl_UseLimit pl with Some n => n <=? pl_UseCount pl | None => false end then Err (DomainErr CodePaymentLinkExhausted)
      else Ok tt
  end.

(** ** The store adapter *)

Abbreviation LinkDB := (Sql (list PaymentLink)).

Definition set_link (pl : PaymentLink) (status : PaymentLinkStatus) (useCount now : Z) : PaymentLink :=
  {| pl_ID := pl_ID pl; pl_TenantID := pl_TenantID pl; pl_ShortCode := pl_ShortCode pl; pl_Description := pl_Description pl;
     pl_RedirectURL := pl_RedirectURL pl; pl_Status := status; pl_SessionConfig := pl_SessionConfig pl; pl_UseLimit := pl_UseLimit pl;
     pl_UseCount := useCount; pl_ExpiresAt := pl_ExpiresAt pl; pl_CreatedAt := pl_CreatedAt pl; pl_UpdatedAt := now |}.

(** The row of a new link: the limit is an INT, the count starts at zero. *)
Definition linkRow (id : UUID) (now : Z) (pl : PaymentLink) : PaymentLink :=
  {| pl_ID := id; pl_TenantID := pl_TenantID pl; pl_ShortCode := pl_ShortCode pl; pl_Description := pl_Description pl;
     pl_RedirectURL := pl_RedirectURL pl; pl_Status := pl_Status pl; pl_SessionConfig := pl_SessionConfig pl;
     pl_UseLimit := int32 <$> pl_UseLimit pl; pl_UseCount := 0; pl_ExpiresAt := pl_ExpiresAt pl; pl_CreatedAt := now; pl_UpdatedAt := now |}.

(** What [Create] writes back into the link of its caller. *)
Definition assignLink (row pl : PaymentLink) : PaymentLink :=
  {| pl_ID := pl_ID row; pl_TenantID := pl_TenantID pl; pl_ShortCode := pl_ShortCode pl; pl_Description := pl_Description pl;
     pl_RedirectURL := pl_RedirectURL pl; pl_Status := pl_Status pl; pl_SessionConfig := pl_SessionConfig pl; pl_UseLimit := pl_UseLimit pl;
     pl_UseCount := pl_UseCount row; pl_ExpiresAt := pl_ExpiresAt pl; pl_CreatedAt := pl_CreatedAt row; pl_UpdatedAt := pl_UpdatedAt row |}.

(** domain.IsShortCodeCollision, errors.As behind it. *)
Fixpoint isCollision (e : error) : bool :=
  match e with
  | DomainErr CodeShortCodeCollision => true
  | WrapErr _ e => isCollision e
  | _ => false
  end.

(** The statement names no id; the unique code is told from other errors by
    the name of its constraint. *)
Definition StoreCreate (pl : PaymentLink) : LinkDB -> result PaymentLink * LinkDB :=
  transact (fun c t =>
    match c_ids c 0%nat with
    | None => Err (WrapErr "creating link" notNull)
    | Some id =>
        let row := linkRow id (c_now c) pl in
        if existsb (fun r => bool_decide (pl_ID r = id)) t then Err (WrapErr "creating link" duplicateKey)
        else if existsb (fun r => String.eqb (pl_ShortCode r) (pl_ShortCode pl)) t then Err (DomainErr CodeShortCodeCollision)
        else Ok (assignLink row pl, (t ++ [row])%list)
    end).

(** No row is no error but no link. *)
Definition firstLink (p : PaymentLink -> bool) (t : list PaymentLink) : option PaymentLink := List.find p t.

Definition GetByID (tenantID linkID : UUID) (d : LinkDB) : result (option PaymentLink) * LinkDB :=
  let '(r, d) := query (fun _ t => Ok (firstLink (fun r => bool_decide (pl_ID r = linkID /\ pl_TenantID r = tenantID)) t)) d in
  (wrap "getting link" r, d).

Definition GetByShortCode (shortCode : string) (d : LinkDB) : result (option PaymentLink) * LinkDB :=
  let '(r, d) := query (fun _ t => Ok (firstLink (fun r => String.eqb (pl_ShortCode r) shortCode) t)) d in
  (wrap "getting link by code" r, d).

Definition ofTenant (tenantID : UUID) (t : list PaymentLink) : list PaymentLink := filter (fun r => pl_TenantID r = tenantID) t.

(** Two statements outside a transaction. *)
Definition StoreList (tenantID : UUID) (limit offset : Z) (d : LinkDB) : result (list PaymentLink * Z) * LinkDB :=
  let! rows / d := query (fun _ t => wrap "listing links"
    (limitOffset (int32 limit) (int32 offset) (orderDesc pl_CreatedAt (ofTenant tenantID t)))) d in
  let! total / d := query (fun _ t => Ok (Z.of_nat (length (ofTenant tenantID t)))) d in
  (Ok (rows, total), d).

Definition StoreListCursor (tenantID : UUID) (pageSize cursor : Z) : LinkDB -> result (list PaymentLink) * LinkDB :=
  query (fun _ t => wrap "list cursor"
    (limitOffset pageSize 0 (orderDesc pl_CreatedAt (filter (fun r => pl_CreatedAt r < cursor) (ofTenant tenantID t))))).

(** use_count is an INT. *)
Definition IncrementUseCount (linkID : UUID) : LinkDB -> result unit * LinkDB :=
  transact (fun c t =>
    if existsb (fun r => bool_decide (pl_ID r = linkID) && (2 ^ 31 - 1 <=? pl_UseCount r)) t then Err (MsgErr "integer out of range")
    else Ok (tt, map (fun r => if bool_decide (pl_ID r = linkID) then set_link r (pl_Status r) (pl_UseCount r + 1) (c_now c) else r) t)).

Definition StoreUpdateStatus (tenantID linkID : UUID) (status : PaymentLinkStatus) : LinkDB -> result unit * LinkDB :=
  transact (fun c t =>
    Ok (tt, map (fun r => if bool_decide (pl_ID r = linkID /\ pl_TenantID r = tenantID)
                          then set_link r status (pl_UseCount r) (c_now c) else r) t)).
End Links.

(** ** The service *)

Section Service.
Context {L : ThirdParty} {St : Type} `{DS : !DepositStore St}.
Abbreviation LinkDB := (Sql (list PaymentLink)).

Definition shortCodeAlphabet : string := "ABCDEFGHJKLMNPQRSTUVWXYZabcdefghijkmnopqrstuvwxyz23456789".
Definition shortCodeLength : nat := 12.
Definition maxShortCodeAttempts : nat := 3.

(** [rand i] is the i-th random index, or the error of the reader. *)
Fixpoint shortCodeFrom (rand : nat -> result Z) (i n : nat) : result string :=
  match n with
  | O => Ok ""
  | Datatypes.S n =>
      let? k := wrap "generating random index" (rand i) in
      let? rest := shortCodeFrom rand (Datatypes.S i) n in
      Ok (String (default zero (String.get (Z.to_nat k) shortCodeAlphabet)) rest)
  end.

Definition generateShortCode (rand : nat -> result Z) : result string := shortCodeFrom rand 0 shortCodeLength.

Record CreateRequest := {
  lr_Description : string; lr_RedirectURL : string; lr_UseLimit : option Z; lr_ExpiresAt : option Z; lr_Amount : Decimal;
  lr_Currency : Currency; lr_Chain : CryptoChain; lr_Token : string; lr_SettlementPref : SettlementPreference; lr_TTLSeconds : Z }.

Definition newLink (tenantID : UUID) (req : CreateRequest) (shortCode : string) : PaymentLink :=
  {| pl_ID := uuid_Nil; pl_TenantID := tenantID; pl_ShortCode := shortCode; pl_Description := lr_Description req;
     pl_RedirectURL := lr_RedirectURL req; pl_Status := LinkActive;
     pl_SessionConfig := {| lc_Amount := lr_Amount req; lc_Currency := lr_Currency req; lc_Chain := lr_Chain req; lc_Token := lr_Token req;
                            lc_SettlementPref := lr_SettlementPref req; lc_TTLSeconds := lr_TTLSeconds req |};
     pl_UseLimit := lr_UseLimit req; pl_UseCount := 0; pl_ExpiresAt := (fun s => s * 1000000000) <$> lr_ExpiresAt req;
     pl_CreatedAt := 0; pl_UpdatedAt := 0 |}.

(** The loop over short codes; [rand k] draws the code of attempt [k]. *)
Fixpoint createAttempts (rand : nat -> nat -> result Z) (tenantID : UUID) (req : CreateRequest) (k n : nat) (d : LinkDB)
  : result PaymentLink * LinkDB :=
  match n with
  | O => (Err (MsgErr "failed to generate unique short code"), d)
  | Datatypes.S n =>
      match generateShortCode (rand k) with
      | Err e => (Err (WrapErr "generating short code" e), d)
      | Ok shortCode =>
          match StoreCreate (newLink tenantID req shortCode) d with
          | (Ok link, d) => (Ok link, d)
          | (Err e, d) => if isCollision e then createAttempts rand tenantID req (Datatypes.S k) n d else (Err (WrapErr "persisting" e), d)
          end
      end
  end.

Definition Create (baseURL : string) (GetTenant : UUID -> result Tenant) (rand : nat -> nat -> result Z) (tenantID : UUID) (req : CreateRequest)
    (d : LinkDB) : result (PaymentLink * string) * LinkDB :=
  match GetTenant tenantID with
  | Err e => (Err (WrapErr "loading tenant" e), d)
  | Ok tenant =>
      if negb (Tenant_IsActive tenant) then (Err (DomainErr CodeTenantSuspended), d)
      else if negb (cc_CryptoEnabled (tn_CryptoConfig tenant)) then (Err (DomainErr CodeCryptoDisabled), d)
      else if negb (IsPositive (lr_Amount req)) then (Err (DomainErr CodeAmountTooLow), d)
      else match createAttempts rand tenantID req 0 maxShortCodeAttempts d with
           | (Err e, d) => (Err e, d)
           | (Ok link, d) => (Ok (link, baseURL +:+ "/" +:+ pl_ShortCode link), d)
           end
  end.

Definition Resolve (now : Z) (shortCode : string) (d : LinkDB) : result PaymentLink * LinkDB :=
  match GetByShortCode shortCode d with
  | (Err e, d) => (Err (WrapErr "resolve" e), d)
  | (Ok None, d) => (Err (DomainErr CodePaymentLinkNotFound), d)
  | (Ok (Some link), d) => (let? _ := CanRedeem now link in Ok link, d)
  end.

Definition linkKey (id : UUID) (use : Z) : string := "plink:" +:+ uuid_String id +:+ ":" +:+ pretty use.

Definition sessionRequest (link : PaymentLink) (key : string) : CreateSessionRequest :=
  let c := pl_SessionConfig link in
  {| csr_IdempotencyKey := key; csr_Chain := lc_Chain c; csr_Token := lc_Token c; csr_ExpectedAmount := lc_Amount c;
     csr_SettlementPref := lc_SettlementPref c; csr_TTLSeconds := lc_TTLSeconds c; csr_Metadata := ∅ |}.

Record LWorld := { lw_links : LinkDB; lw_deposits : St }.

(** A failed increment is only logged. *)
Definition Redeem (env : DEnv) (now : Z) (shortCode : string) (w : LWorld) : result (DepositSession * PaymentLink) * LWorld :=
  match Resolve now shortCode (lw_links w) with
  | (Err e, d) => (Err e, {| lw_links := d; lw_deposits := lw_deposits w |})
  | (Ok link, d) =>
      match Bank.NewIdempotencyKey (linkKey (pl_ID link) (pl_UseCount link + 1)) with
      | Err e => (Err (WrapErr "generating idempotency key" e), {| lw_links := d; lw_deposits := lw_deposits w |})
      | Ok key =>
          match CreateSession env (pl_TenantID link) (sessionRequest link key) (lw_deposits w) with
          | (Err e, st) => (Err (WrapErr "creating deposit session" e), {| lw_links := d; lw_deposits := st |})
          | (Ok session, st) => (Ok (session, link), {| lw_links := (IncrementUseCount (pl_ID link) d).2; lw_deposits := st |})
          end
      end
  end.

Definition GetLink (tenantID linkID : UUID) (d : LinkDB) : result PaymentLink * LinkDB :=
  match GetByID tenantID linkID d with
  | (Err e, d) => (Err (WrapErr "get" e), d)
  | (Ok None, d) => (Err (DomainErr CodePaymentLinkNotFound), d)
  | (Ok (Some link), d) => (Ok link, d)
  end.

Definition ListLinks (tenantID : UUID) (limit offset : Z) (d : LinkDB) : result (list PaymentLink * Z) * LinkDB :=
  let '(r, d) := StoreList tenantID limit offset d in (wrap "list" r, d).

Definition ListLinksCursor (tenantID : UUID) (pageSize cursor : Z) (d : LinkDB) : result (list PaymentLink * Z) * LinkDB :=
  let '(r, d) := StoreListCursor tenantID pageSize cursor d in
  (let? links := wrap "list cursor" r in Ok (links, Z.of_nat (length links)), d).

Definition Disable (tenantID linkID : UUID) (d : LinkDB) : result unit * LinkDB :=
  match GetByID tenantID linkID d with
  | (Err e, d) => (Err (WrapErr "disable" e), d)
  | (Ok None, d) => (Err (DomainErr CodePaymentLinkNotFound), d)
  | (Ok (Some _), d) => let '(r, d) := StoreUpdateStatus tenantID linkID LinkDisabled d in (wrap "disable" r, d)
  end.
End Service.
End PaymentLinks.

(** ** What the service guarantees *)

Module PaymentLinkProps.
Import PaymentLinks.

Section Redemptions.
Context {L : ThirdParty} {LL : ThirdPartyLaws L} {St : Type} `{DS : !DepositStore St} {DL : DepositStoreLaws St}.
Abbreviation LinkDB := (Sql (list PaymentLink)).
Implicit Types w : LWorld (St := St).

Abbreviation sessions w := (dv_sessions (dview (lw_deposits w))).

Definition origin (s : DepositSession) : UUID * string := (ds_TenantID s, ds_IdempotencyKey s).

Definition ofLink (id : UUID) (s : DepositSession) : bool :=
  String.prefix ("plink:" +:+ uuid_String id +:+ ":") (ds_IdempotencyKey s).

(** The sessions whose key names some link. *)
Definition linked (s : DepositSession) : Prop := exists id, ofLink id s = true.

Definition withLinks (d : LinkDB) (w : LWorld (St := St)) : LWorld := {| lw_links := d; lw_deposits := lw_deposits w |}.
Definition withDeposits (st : St) (w : LWorld (St := St)) : LWorld := {| lw_links := lw_links w; lw_deposits := st |}.

(** A session under the key of the tenant is there already. *)
Definition taken (o : UUID * string) (m : gmap UUID DepositSession) : bool := bool_decide (map_Exists (fun _ s => origin s = o) m).

Section Counted.
Variable id0 : UUID.

(** An insert of a session of the link [id0] that went in although its key
    was taken: the redemption it belongs to had looked for the key before the
    other session was there, or its lookup had failed. *)
Definition overlap (id : UUID) (o : UUID * string) (m m' : gmap UUID DepositSession) : nat :=
  if bool_decide (id = id0) && taken o m && negb (bool_decide (size m' = size m)) then 1 else 0.

(** The world, the links some payer has resolved, and the number of overlaps
    so far.  The calls of any number of redemptions interleave, with those of
    the service's other operations and with whatever makes no sessions of
    links.  [CreateSession] is several calls: a lookup by the key and an
    address from the pool, which change no session ([l_other]), and, at any
    time after the link was resolved, the insert ([l_insert]), which can fail
    or lose its answer. *)
Inductive lstep : LWorld (St := St) * list PaymentLink * nat -> LWorld (St := St) * list PaymentLink * nat -> Prop :=
| l_resolve w fl n now code link d : Resolve now code (lw_links w) = (Ok link, d) -> lstep (w, fl, n) (withLinks d w, link :: fl, n)
| l_read w fl n d : sq_tables d = sq_tables (lw_links w) -> lstep (w, fl, n) (withLinks d w, fl, n)
| l_insert w fl n link key s es r st : link ∈ fl -> Bank.NewIdempotencyKey (linkKey (pl_ID link) (pl_UseCount link + 1)) = Ok key ->
    origin s = (pl_TenantID link, key) -> ds_CreateSessionWithOutbox s es (lw_deposits w) = (r, st) ->
    lstep (w, fl, n) (withDeposits st w, fl, (overlap (pl_ID link) (pl_TenantID link, key) (sessions w) (dv_sessions (dview st)) + n)%nat)
| l_increment w fl n id : lstep (w, fl, n) (withLinks (IncrementUseCount id (lw_links w)).2 w, fl, n)
| l_create w fl n url GetTenant rand tn req : lstep (w, fl, n) (withLinks (Create url GetTenant rand tn req (lw_links w)).2 w, fl, n)
| l_disable w fl n tn id : lstep (w, fl, n) (withLinks (Disable tn id (lw_links w)).2 w, fl, n)
| l_other w fl n st :
    (forall i o, (exists s, dv_sessions (dview st) !! i = Some s /\ linked s /\ origin s = o)
                 <-> (exists s, sessions w !! i = Some s /\ linked s /\ origin s = o)) ->
    lstep (w, fl, n) (withDeposits st w, fl, n).
End Counted.

(** *** The links *)

Record linksInv (t : list PaymentLink) : Prop := {
  li_ids : NoDup (map pl_ID t);
  li_counts : Forall (fun l => 0 <= pl_UseCount l) t;
}.

(** Links stay, with their tenant and limit. *)
Definition linksKept (t t' : list PaymentLink) : Prop := forall l, l ∈ t ->
  exists l', l' ∈ t' /\ pl_ID l' = pl_ID l /\ pl_TenantID l' = pl_TenantID l /\ pl_UseLimit l' = pl_UseLimit l.

#[global] Instance linksKept_preorder : PreOrder linksKept.
Proof.
  split; [intros t l Hl; by exists l|]. intros t1 t2 t3 H1 H2 l (l2 & Hl2 & E1 & E2 & E3)%H1.
  apply H2 in Hl2 as (l3 & Hl3 & F1 & F2 & F3). exists l3. split_and!; congruence.
Qed.

Definition linksOk (t t' : list PaymentLink) : Prop := linksInv t -> linksInv t' /\ linksKept t t'.

Lemma linksOk_refl t : linksOk t t.
Proof. by intros H. Qed.

Lemma linksOk_map t f : (forall l, pl_ID (f l) = pl_ID l /\ pl_TenantID (f l) = pl_TenantID l /\ pl_UseLimit (f l) = pl_UseLimit l
    /\ pl_UseCount l <= pl_UseCount (f l)) -> linksOk t (map f t).
Proof.
  intros Hf [Hn Hc]. split; [split|].
  - rewrite map_map. erewrite map_ext; [exact Hn|]. intros l. apply Hf.
  - rewrite Forall_forall in *. intros l (l0 & -> & H0)%list_elem_of_fmap. specialize (Hc l0 H0). destruct (Hf l0) as (_ & _ & _ & H). lia.
  - intros l Hl. exists (f l). split; [by apply list_elem_of_fmap_2|]. destruct (Hf l) as (E1 & E2 & E3 & _). by split_and!.
Qed.

Lemma transact_links {A} (f : Sql.Call -> list PaymentLink -> result (A * list PaymentLink)) d r d' : transact f d = (r, d') ->
  (forall c a t, f c (sq_tables d) = Ok (a, t) -> linksOk (sq_tables d) t) -> linksOk (sq_tables d) (sq_tables d').
Proof. intros E Hf. apply transact_inv in E as [(-> & _)|(a & Ha & _)]; [apply linksOk_refl|by eapply Hf]. Qed.

Lemma IncrementUseCount_links id d : linksOk (sq_tables d) (sq_tables (IncrementUseCount id d).2).
Proof.
  destruct (IncrementUseCount id d) as [r d'] eqn:E. eapply transact_links; [exact E|]. intros c a t. cbn. case_match; [done|]. intros [= <- <-].
  apply linksOk_map. intros l. case_match; cbn; split_and!; try done; lia.
Qed.

Lemma Disable_links tn id d : linksOk (sq_tables d) (sq_tables (Disable tn id d).2).
Proof.
  unfold Disable. destruct (GetByID tn id d) as [r d1] eqn:E1. unfold GetByID in E1. destruct (query _ d) as [q d2] eqn:Eq.
  apply query_inv in Eq as [Ht _]. assert (sq_tables d1 = sq_tables d) as <- by congruence. destruct r as [[l|]|e]; [|apply linksOk_refl..].
  destruct (StoreUpdateStatus _ _ _ d1) as [u d3] eqn:E3. cbn. eapply transact_links; [exact E3|]. intros c a t. intros [= <- <-].
  apply linksOk_map. intros x. case_match; cbn; split_and!; try done; lia.
Qed.

Lemma StoreCreate_links pl d r d' : StoreCreate pl d = (r, d') -> linksOk (sq_tables d) (sq_tables d').
Proof.
  intros E. eapply transact_links; [exact E|]. intros c a t. cbn. destruct (c_ids c 0) as [id|]; [|done].
  destruct (existsb _ _) eqn:Hid; [done|]. case_match; [done|]. intros [= <- <-] [Hn Hc]. split; [split|].
  - rewrite map_app. apply NoDup_app. split_and!; [done| |apply NoDup_singleton]. intros x Hx [= ->]%list_elem_of_singleton.
    apply list_elem_of_fmap in Hx as (l & -> & Hl). apply not_true_iff_false in Hid. apply Hid, existsb_exists. exists l.
    split; [by apply list_elem_of_In|]. by apply bool_decide_eq_true.
  - apply Forall_app. split; [done|]. constructor; [cbn; lia|constructor].
  - intros l Hl. exists l. split; [by apply elem_of_app; left|done].
Qed.

Lemma linksOk_trans t1 t2 t3 : linksOk t1 t2 -> linksOk t2 t3 -> linksOk t1 t3.
Proof. intros H1 H2 H. destruct (H1 H) as [I2 K2]. destruct (H2 I2) as [I3 K3]. split; [done|]. by etrans. Qed.

Lemma createAttempts_links rand tn req n : forall k d, linksOk (sq_tables d) (sq_tables (createAttempts rand tn req k n d).2).
Proof.
  induction n as [|n IH]; intros k d; cbn [createAttempts]; [apply linksOk_refl|]. destruct (generateShortCode (rand k)); [|apply linksOk_refl].
  destruct (StoreCreate _ d) as [r d'] eqn:E. apply StoreCreate_links in E. destruct r as [l|e]; [done|]. case_match; [|done].
  eapply linksOk_trans; [exact E|apply IH].
Qed.

Lemma Create_links url GetTenant rand tn req d : linksOk (sq_tables d) (sq_tables (Create url GetTenant rand tn req d).2).
Proof.
  unfold Create. pose proof (createAttempts_links rand tn req maxShortCodeAttempts 0 d) as H.
  destruct (createAttempts _ _ _ _ _ d) as [r d']. repeat case_match; simplify_eq/=; try apply linksOk_refl; done.
Qed.

(** Reading a link by its code. *)
Lemma Resolve_inv now code d r d' : Resolve now code d = (r, d') ->
  sq_tables d' = sq_tables d /\ forall l, r = Ok l -> l ∈ sq_tables d /\ forall n, pl_UseLimit l = Some n -> pl_UseCount l < n.
Proof.
  unfold Resolve, GetByShortCode. destruct (query _ d) as [q d1] eqn:Eq. apply query_inv in Eq as [Ht Hq]. intros E.
  assert (d' = d1) as -> by (repeat case_match; congruence). split; [done|]. intros l ->.
  destruct q as [[l0|]|e]; cbn in E; [|done..]. destruct (CanRedeem now l0) eqn:Ec; [|done]. injection E as ->.
  specialize (Hq _ eq_refl). injection Hq as Hf. apply find_some in Hf as [Hf _]. split; [by apply list_elem_of_In|]. intros n Hn.
  unfold CanRedeem in Ec. rewrite Hn in Ec. repeat case_match; try done; lia.
Qed.

(** *** The sessions *)

Lemma append_assoc (a b c : string) : (a +:+ b) +:+ c = a +:+ (b +:+ c).
Proof. induction a as [|x a IH]; [done|]. by apply (f_equal (String x)). Qed.

Lemma prefix_app (p t : string) : String.prefix p (p +:+ t) = true.
Proof.
  induction p as [|a p IH]; [by destruct t|]. change (String.prefix (String a p) (String a (p +:+ t)) = true). cbn [String.prefix].
  destruct (ascii_dec a a); [exact IH|congruence].
Qed.

Lemma prefix_inv (p s : string) : String.prefix p s = true -> exists t, s = p +:+ t.
Proof.
  revert s. induction p as [|a p IH]; intros s H; [by exists s|]. destruct s as [|b s]; [done|]. cbn in H.
  destruct (ascii_dec a b) as [->|]; [|done]. apply IH in H as [t ->]. by exists t.
Qed.

(** A key names one link. *)
Lemma linkKey_names id id' k : String.prefix ("plink:" +:+ uuid_String id +:+ ":") (linkKey id' k) = true -> id = id'.
Proof.
  intros [t H]%prefix_inv. unfold linkKey in H. rewrite append_assoc in H. apply string_app_inj in H as [_ H]; [|done].
  rewrite append_assoc in H. apply string_app_inj in H as [H _]; [|by rewrite !uuid_String_length]. by apply uuid_String_inj in H.
Qed.

Lemma linkKey_prefix id k : String.prefix ("plink:" +:+ uuid_String id +:+ ":") (linkKey id k) = true.
Proof. pose proof (prefix_app ("plink:" +:+ uuid_String id +:+ ":") (pretty k)) as H. by rewrite !append_assoc in H. Qed.

(** What the insert of a session can do to the table. *)
Definition opened (o : UUID * string) (m m' : gmap UUID DepositSession) : Prop :=
  m' = m \/ exists row, m !! ds_ID row = None /\ origin row = o /\ m' = <[ds_ID row := row]> m.

Lemma insert_opened s es (st : St) r st' : ds_CreateSessionWithOutbox s es st = (r, st') ->
  opened (origin s) (dv_sessions (dview st)) (dv_sessions (dview st')).
Proof.
  intros (_ & _ & Hc)%ds_create. destruct Hc as [[-> _]|(row & s' & es' & Hn & _ & _ & Htn & Hk & _ & _ & _ & _ & Hs & _)]; [by left|].
  right. exists row. split_and!; [done| |done]. unfold origin. by rewrite Htn, Hk.
Qed.

(** [CreateSession] reads, and inserts at most once; while the database
    answers it does not insert under a key that is taken. *)
Lemma CreateSession_stages env tn req (st : St) r st' : CreateSession env tn req st = (r, st') ->
  dview st' = dview st
  \/ exists st1 s es r1, dview st1 = dview st /\ origin s = (tn, csr_IdempotencyKey req)
       /\ ds_CreateSessionWithOutbox s es st1 = (r1, st')
       /\ (dup st -> csr_IdempotencyKey req <> "" -> taken (tn, csr_IdempotencyKey req) (dv_sessions (dview st)) = false).
Proof.
  assert (forall tenant st1, dview st1 = dview st ->
    (dup st -> csr_IdempotencyKey req <> "" -> taken (tn, csr_IdempotencyKey req) (dv_sessions (dview st)) = false) ->
    createFresh env tenant tn req st1 = (r, st') ->
    dview st' = dview st \/ exists st1 s es r1, dview st1 = dview st /\ origin s = (tn, csr_IdempotencyKey req)
      /\ ds_CreateSessionWithOutbox s es st1 = (r1, st')
      /\ (dup st -> csr_IdempotencyKey req <> "" -> taken (tn, csr_IdempotencyKey req) (dv_sessions (dview st)) = false)) as Hfresh.
  { intros tenant st1 Hv Hnew. unfold createFresh. destruct (ds_DispenseAddress _ _ _ st1) as [q st2] eqn:E. apply ds_dispense in E as (Hv2 & _ & _).
    rewrite Hv in Hv2. destruct q as [[addr|]|e]; [|intros [= <- <-]; by left..].
    destruct (ds_CreateSessionWithOutbox _ _ st2) as [r2 st3] eqn:E2. intros [= <- <-]. right.
    exists st2. do 3 eexists. split_and!; [done| |exact E2|done]. done. }
  unfold CreateSession. destruct (wrap _ _) as [tenant|e]; [|intros [= <- <-]; by left].
  destruct (checkRequest tenant req); [|intros [= <- <-]; by left].
  destruct (checkPendingLimit tenant tn st) as [q st1] eqn:E1.
  assert (dview st1 = dview st /\ (dup st -> dup st1)) as [Hv1 Hu1].
  { revert E1. unfold checkPendingLimit. case_match; [|by intros [= <- <-]].
    destruct (ds_CountPendingSessions tn st) as [q0 st0] eqn:E0. apply ds_count in E0 as (? & _ & ?). by repeat case_match; intros [= <- <-]. }
  destruct q as [[]|e]; [|intros [= <- <-]; by left].
  destruct (String.eqb_spec (csr_IdempotencyKey req) "") as [Hk|Hk]; [by apply Hfresh|].
  destruct (ds_GetSessionByIdempotencyKey _ _ st1) as [q st2] eqn:E2. apply ds_idem in E2 as (Hv2 & _ & _ & _ & Hno). rewrite Hv1 in Hv2.
  destruct q as [s|e]; [intros [= <- <-]; by left|]. apply Hfresh; [done|]. intros Hu _. apply bool_decide_eq_false. intros (i & s & Hs & [= Ht Hsk]).
  rewrite <- Hv1 in Hs. specialize (Hno i s (Hu1 Hu) Hs Ht Hsk Hk). done.
Qed.

(** *** The sessions of one link *)

(** Under which key each of them was opened. *)
Definition origins (id : UUID) (m : gmap UUID DepositSession) : gmap UUID (UUID * string) :=
  omap (fun s => if ofLink id s then Some (origin s) else None) m.

Lemma origins_lookup id m i o : origins id m !! i = Some o <-> exists s, m !! i = Some s /\ ofLink id s = true /\ origin s = o.
Proof.
  unfold origins. rewrite lookup_omap. destruct (m !! i) as [s|]; simpl; [|by split; [|intros (? & ? & _)]].
  destruct (ofLink id s) eqn:E; (split; [|intros (s' & [= <-] & Hs & Ho)]); [|by f_equal| |congruence]; [|done].
  intros [= <-]. by exists s.
Qed.

Lemma origins_size id m : size (filter (fun p => ofLink id p.2 = true) m) = size (origins id m).
Proof.
  rewrite <- !size_dom. f_equal. apply set_eq. intros i. rewrite !elem_of_dom. unfold is_Some. setoid_rewrite origins_lookup.
  setoid_rewrite map_lookup_filter_Some. naive_solver.
Qed.

Lemma size_list_to_set_le (l : list (UUID * string)) : (size (list_to_set l : gset (UUID * string)) <= length l)%nat.
Proof.
  induction l as [|x l IH]; [done|]. cbn [list_to_set length]. rewrite size_union_alt, size_singleton.
  assert (size (list_to_set l ∖ {[x]} : gset (UUID * string)) <= size (list_to_set l : gset (UUID * string)))%nat
    by (apply subseteq_size; set_solver). lia.
Qed.

Lemma origins_insert id m row : m !! ds_ID row = None ->
  origins id (<[ds_ID row := row]> m) = if ofLink id row then <[ds_ID row := origin row]> (origins id m) else origins id m.
Proof.
  intros Hn. apply map_eq. intros i. unfold origins. rewrite lookup_omap. destruct (decide (i = ds_ID row)) as [->|Hi].
  - rewrite lookup_insert_eq. simpl. destruct (ofLink id row); [by rewrite lookup_insert_eq|]. by rewrite lookup_omap, Hn.
  - rewrite lookup_insert_ne by done. destruct (ofLink id row); [rewrite lookup_insert_ne by done|]; by rewrite lookup_omap.
Qed.

(** *** What holds of the links, the sessions and the resolved links *)

Section Counting.
Variable id0 : UUID.

Definition within (l : PaymentLink) (key : string) : Prop :=
  forall n, pl_UseLimit l = Some n -> exists k, key = linkKey (pl_ID l) k /\ 1 <= k <= n.

Record linv (c : LWorld (St := St) * list PaymentLink * nat) : Prop := {
  lv_links : linksInv (sq_tables (lw_links c.1.1));
  lv_flight : Forall (fun l => (exists l', l' ∈ sq_tables (lw_links c.1.1) /\ pl_ID l' = pl_ID l /\ pl_TenantID l' = pl_TenantID l
      /\ pl_UseLimit l' = pl_UseLimit l) /\ 0 <= pl_UseCount l /\ forall n, pl_UseLimit l = Some n -> pl_UseCount l < n) c.1.2;
  lv_named : forall i s id, sessions c.1.1 !! i = Some s -> ofLink id s = true ->
    exists l, l ∈ sq_tables (lw_links c.1.1) /\ pl_ID l = id /\ ds_TenantID s = pl_TenantID l /\ within l (ds_IdempotencyKey s);
  lv_count : (size (origins id0 (sessions c.1.1)) <= size (map_img (SA := gset (UUID * string)) (origins id0 (sessions c.1.1))) + c.2)%nat;
}.

(** The links may change if none disappears. *)
Lemma linv_links w fl n d : linv (w, fl, n) -> linksOk (sq_tables (lw_links w)) (sq_tables d) -> linv (withLinks d w, fl, n).
Proof.
  intros [Hl Hf Hn Ho] H. destruct (H Hl) as [Hl' Hk]. split; try done.
  - eapply Forall_impl; [exact Hf|]. intros l [(l' & (l2 & Hl2 & E1 & E2 & E3)%Hk & F1 & F2 & F3) Hc]. split; [|done]. exists l2. split_and!; [done|congruence..].
  - intros i s id Hs Hid. destruct (Hn i s id Hs Hid) as (l & (l2 & Hl2 & E1 & E2 & E3)%Hk & F1 & F2 & Hw). exists l2.
    split_and!; [done|congruence..|]. intros k. rewrite E3, E1. apply Hw.
Qed.

(** A new session of a link. *)
Lemma count_insert m row o n id : m !! ds_ID row = None -> origin row = o -> (ofLink id0 row = true -> id = id0) ->
  (size (origins id0 m) <= size (map_img (SA := gset (UUID * string)) (origins id0 m)) + n)%nat ->
  let m' := <[ds_ID row := row]> m in
  (size (origins id0 m') <= size (map_img (SA := gset (UUID * string)) (origins id0 m')) + (overlap id0 id o m m' + n))%nat.
Proof.
  intros Hn Ho Hid Hc m'. unfold m'. rewrite origins_insert by done. destruct (ofLink id0 row) eqn:Eo; [|lia].
  assert (origins id0 m !! ds_ID row = None) as Hno. { unfold origins. by rewrite lookup_omap, Hn. }
  rewrite map_size_insert_None, map_img_insert_notin by done. rewrite Ho.
  destruct (decide (o ∈ map_img (SA := gset (UUID * string)) (origins id0 m))) as [Hin|Hnin].
  - assert (({[o]} ∪ map_img (origins id0 m) : gset (UUID * string)) = map_img (origins id0 m)) as -> by set_solver.
    assert (overlap id0 id o m (<[ds_ID row := row]> m) = 1%nat) as ->; [|lia].
    apply elem_of_map_img in Hin as (i & (s & Hs & _ & Hso)%origins_lookup).
    assert (map_Exists (fun _ s => origin s = o) m) as Hex by (by exists i, s).
    unfold overlap, taken. rewrite (Hid eq_refl), (bool_decide_eq_true_2 (id0 = id0)), (bool_decide_eq_true_2 _ Hex) by done.
    rewrite map_size_insert_None, bool_decide_eq_false_2; [done|lia|done].
  - rewrite size_union, size_singleton by set_solver. lia.
Qed.

Lemma linv_opened w fl n st l : linv (w, fl, n) -> l ∈ fl ->
  let o := (pl_TenantID l, linkKey (pl_ID l) (pl_UseCount l + 1)) in
  opened o (sessions w) (dv_sessions (dview st)) ->
  linv (withDeposits st w, fl, (overlap id0 (pl_ID l) o (sessions w) (dv_sessions (dview st)) + n)%nat).
Proof.
  intros [Hl Hf Hn Ho] Hin o Hop. destruct Hop as [E|(row & Hno & Hor & E)]; split; try done; cbn in *; rewrite E; try done; [lia| |].
  - intros i s id [[<- <-]|[_ Hs]]%lookup_insert_Some Hid; [|by eapply Hn]. injection Hor as Htn Hk. unfold ofLink in Hid. rewrite Hk in Hid.
    apply linkKey_names in Hid as ->. rewrite Forall_forall in Hf. destruct (Hf l Hin) as [(l' & Hl' & E1 & E2 & E3) [Hc0 Hc]]. exists l'.
    split_and!; [done..|congruence|]. intros k Hlim. rewrite Hk, E1. exists (pl_UseCount l + 1). split; [done|]. rewrite E3 in Hlim.
    specialize (Hc k Hlim). lia.
  - apply count_insert; [done|done| |done]. intros Hid. unfold ofLink in Hid. injection Hor as _ Hk. rewrite Hk in Hid.
    by apply linkKey_names in Hid.
Qed.

Lemma lstep_inv c c' : lstep id0 c c' -> linv c -> linv c'.
Proof.
  intros Hs Hc. destruct Hs as [w fl n now code link d E|w fl n d E|w fl n link key s es r st Hin Hk Hor Hcr|w fl n id|w fl n url GT rand tn req
    |w fl n tn id|w fl n st Hsame].
  - apply Resolve_inv in E as [E Hr]. destruct (Hr link eq_refl) as [Hin Hlt].
    destruct (linv_links w fl n d Hc) as [Hl Hf Hn Ho]; [rewrite E; apply linksOk_refl|]. split; try done. constructor; [|done].
    cbn. rewrite E. split; [by exists link|]. split; [|done]. destruct (lv_links _ Hc) as [_ Hcnt]. rewrite Forall_forall in Hcnt. by apply Hcnt.
  - apply linv_links; [done|]. rewrite E. apply linksOk_refl.
  - unfold Bank.NewIdempotencyKey in Hk. destruct (String.eqb _ "") eqn:Hne; [done|]. case_match; [done|]. injection Hk as <-.
    apply insert_opened in Hcr. rewrite Hor in Hcr. by apply linv_opened.
  - apply linv_links; [done|apply IncrementUseCount_links].
  - apply linv_links; [done|apply Create_links].
  - apply linv_links; [done|apply Disable_links].
  - destruct Hc as [Hl Hf Hn Ho]. split; try done; cbn in *.
    + intros i s id Hs Hid. destruct (proj1 (Hsame i (origin s))) as (s0 & Hs0 & _ & [= Et Ek]); [exists s; split_and!; try done; by exists id|].
      rewrite <- Et, <- Ek. apply (Hn i s0 id Hs0). unfold ofLink in *. by rewrite Ek.
    + assert (origins id0 (dv_sessions (dview st)) = origins id0 (sessions w)) as ->; [|done].
      apply map_eq. intros i. apply option_eq. intros o. rewrite !origins_lookup. specialize (Hsame i o).
      split; intros (s & H1 & H2 & H3); destruct Hsame as [Hs1 Hs2];
        [destruct Hs1 as (s' & ? & _ & H)|destruct Hs2 as (s' & ? & _ & H)];
        try (exists s; split_and!; try done; by exists id0); exists s'; split_and!; try done;
        unfold ofLink in *; rewrite <- H3 in H; injection H as _ ->; done.
Qed.

Lemma lstep_rtc_inv c c' : rtc (lstep id0) c c' -> linv c -> linv c'.
Proof. induction 1 as [c|c c1 c2 Hs _ IH]; [done|]. intros H. apply IH. by eapply lstep_inv. Qed.

Lemma linv_init w : linksInv (sq_tables (lw_links w)) -> (forall i s, sessions w !! i = Some s -> linked s -> False) -> linv (w, [], 0%nat).
Proof.
  intros Hl Hno. split; try done.
  - intros i s id Hs Hid. exfalso. eapply Hno; [exact Hs|by exists id].
  - cbn. assert (origins id0 (sessions w) = ∅) as ->; [|by rewrite map_size_empty; lia].
    apply map_eq. intros i. rewrite lookup_empty. apply eq_None_not_Some. intros (o & (s & Hs & Hid & _)%origins_lookup).
    eapply Hno; [exact Hs|by exists id0].
Qed.

(** [Redeem] is such a run, and while the deposit database answers it adds no
    overlap when it runs alone. *)
Lemma Redeem_run env now code w fl n : exists fl' k, rtc (lstep id0) (w, fl, n) ((Redeem env now code w).2, fl', (k + n)%nat)
  /\ (dup (lw_deposits w) -> k = 0%nat).
Proof.
  unfold Redeem. destruct (Resolve now code (lw_links w)) as [r d] eqn:E. destruct r as [link|e].
  2: { exists fl, 0%nat. split; [|done]. apply rtc_once. change {| lw_links := d; lw_deposits := _ |} with (withLinks d w). apply l_read.
       by apply Resolve_inv in E as [E _]. }
  pose proof (l_resolve id0 w fl n now code link d E) as Hres.
  destruct (Bank.NewIdempotencyKey _) as [key|e] eqn:Ek; [|exists (link :: fl), 0%nat; split; [by apply rtc_once|done]].
  assert (key = linkKey (pl_ID link) (pl_UseCount link + 1) /\ key <> "") as [Hkey Hne].
  { unfold Bank.NewIdempotencyKey in Ek. destruct (String.eqb_spec (linkKey (pl_ID link) (pl_UseCount link + 1)) ""); [done|].
    case_match; [done|]. by injection Ek as <-. }
  destruct (CreateSession env (pl_TenantID link) (sessionRequest link key) (lw_deposits w)) as [r1 st'] eqn:Ec.
  assert (exists k, rtc (lstep id0) (withLinks d w, link :: fl, n) (withDeposits st' (withLinks d w), link :: fl, (k + n)%nat)
    /\ (dup (lw_deposits w) -> k = 0%nat)) as (k & Hrun & Hk).
  { apply CreateSession_stages in Ec as [Hv|(st1 & s & es & r2 & Hv & Hor & Hcr & Hnew)].
    - exists 0%nat. split; [|done]. apply rtc_once, l_other. intros i o. cbn. by rewrite Hv.
    - eexists. split.
      + eapply rtc_l; [apply (l_other id0 (withLinks d w) (link :: fl) n st1); intros i o; cbn; by rewrite Hv|].
        eapply rtc_l; [|apply rtc_refl]. apply (l_insert id0 (withDeposits st1 (withLinks d w)) (link :: fl) n link key s es r2 st'); [by left|done|done|done].
      + intros Hu. unfold overlap. cbn. rewrite Hv. cbn in Hnew. rewrite (Hnew Hu Hne), andb_false_r. done. }
  exists (link :: fl), k. split; [|done]. eapply rtc_l; [exact Hres|]. destruct r1 as [session|e]; [|exact Hrun].
  eapply rtc_r; [exact Hrun|]. apply (l_increment id0 (withDeposits st' (withLinks d w))).
Qed.
End Counting.

(** C31: However the calls of the redemptions of payment links interleave,
    with each other, with retries, failures, lost answers and increments, new
    and disabled links, and with anything else that opens deposit sessions
    under other keys, every deposit session of a link with a limit of n uses
    is of its tenant and opened under the key of one of the uses 1 to n, and
    there are at most n of them, and one more for each insert that found its
    key taken because its redemption overlapped with another or its lookup
    failed. *)
Theorem link_redeemed_within_limit w w' fl d l n :
  linksInv (sq_tables (lw_links w)) ->
  (forall i s, sessions w !! i = Some s -> linked s -> False) ->
  rtc (lstep (pl_ID l)) (w, [], 0%nat) (w', fl, d) -> l ∈ sq_tables (lw_links w') -> pl_UseLimit l = Some n ->
  (forall i s, sessions w' !! i = Some s -> ofLink (pl_ID l) s = true ->
     ds_TenantID s = pl_TenantID l /\ exists k, ds_IdempotencyKey s = linkKey (pl_ID l) k /\ 1 <= k <= n)
  /\ (size (filter (fun p => ofLink (pl_ID l) p.2 = true) (sessions w')) <= Z.to_nat n + d)%nat.
Proof.
  intros Hl Hno Hr Hin Hlim. pose proof (lstep_rtc_inv _ _ _ Hr (linv_init _ w Hl Hno)) as [[Hids _] _ Hn Hc]. cbn in *.
  assert (forall i s, sessions w' !! i = Some s -> ofLink (pl_ID l) s = true ->
    ds_TenantID s = pl_TenantID l /\ exists k, ds_IdempotencyKey s = linkKey (pl_ID l) k /\ 1 <= k <= n) as Hm.
  { intros i s Hs Hof. destruct (Hn i s _ Hs Hof) as (l' & Hl' & E & Ht & Hw). assert (l' = l) as -> by (eapply NoDup_key; eauto). split_and!; auto. }
  split; [exact Hm|]. rewrite origins_size. etrans; [exact Hc|]. apply Nat.add_le_mono_r.
  transitivity (size (list_to_set (map (fun k => (pl_TenantID l, linkKey (pl_ID l) k)) (seqZ 1 n)) : gset (UUID * string))).
  - apply subseteq_size. intros o (i & (s & Hs & Hof & <-)%origins_lookup)%elem_of_map_img. destruct (Hm i s Hs Hof) as (Ht & k & Hk & Hkn).
    apply elem_of_list_to_set. unfold origin. rewrite Ht, Hk. apply (list_elem_of_fmap_2 (fun k => (pl_TenantID l, linkKey (pl_ID l) k))).
    apply elem_of_seqZ. lia.
  - etrans; [apply size_list_to_set_le|]. by rewrite length_map, length_seqZ.
Qed.
End Redemptions.
End PaymentLinkProps.

(** ** Runs over the two databases *)

Module PaymentLinkRuns.
Import QInstance DepositAdapter PaymentLinks PaymentLinkProps.

Abbreviation World := (LWorld (St := Sql Tables)).

Definition request (limit : option Z) : CreateRequest :=
  {| lr_Description := "invoice 7"; lr_RedirectURL := ""; lr_UseLimit := limit; lr_ExpiresAt := None; lr_Amount := 100 # 1; lr_Currency := "USDT";
     lr_Chain := ChainTron; lr_Token := "usdt"; lr_SettlementPref := ""; lr_TTLSeconds := 0 |}.

(** Two addresses in the pool; the link database answers except for [bad]. *)
Definition start (bad : list nat) (ids : bool) : World :=
  let a := DepositRuns.address in
  {| lw_links := {| sq_tables := []; sq_calls := 0; sq_world := DepositRuns.world bad ids |};
     lw_deposits := {| sq_tables := {| tb_sessions := ∅; tb_txs := [];
         tb_pool := [a; {| ca_ID := "b"%char; ca_TenantID := ca_TenantID a; ca_Chain := ca_Chain a; ca_Address := "T2"; ca_DerivationIndex := 1;
                           ca_Dispensed := false; ca_DispensedAt := None; ca_SessionID := None; ca_CreatedAt := 0 |}];
         tb_index := []; tb_outbox := [] |}; sq_calls := 0; sq_world := DepositRuns.world [] true |} |}.

(** Every random index is 7. *)
Definition code : string := "HHHHHHHHHHHH".

Definition created (limit : option Z) (w : World) : World :=
  withLinks (Create "https://pay" (fun _ => Ok DepositRuns.tenant) (fun _ _ => Ok 7) DepositRuns.tenantID (request limit) (lw_links w)).2 w.

Definition redeem (k : nat) (w : World) : result (DepositSession * PaymentLink) * World := Redeem (DepositRuns.env k) 5 code w.

Definition paidInto (r : result (DepositSession * PaymentLink)) : option (UUID * string) :=
  match r with Ok (s, _) => Some (ds_ID s, ds_DepositAddress s) | Err _ => None end.

Definition twice (w : World) : World := (redeem 2 (redeem 1 w).2).2.

Lemma map_singleton {A B} (f : A -> B) l y : map f l = [y] -> exists x, l = [x] /\ f x = y.
Proof. destruct l as [|x [|]]; intros [=]. by exists x. Qed.

(** Two uses of two: two sessions, and the third payer is refused. *)
Lemma link_redeemed_within_limit_witness :
  let w := twice (created (Some 2) (start [] true)) in
  size (dv_sessions (dview (lw_deposits w))) = 2%nat
  /\ (redeem 3 w).1 = Err (DomainErr CodePaymentLinkExhausted)
  /\ exists l d, sq_tables (lw_links w) = [l] /\ (size (filter (fun p => ofLink (pl_ID l) p.2 = true) (dv_sessions (dview (lw_deposits w)))) <= 2 + d)%nat
       /\ d = 0%nat.
Proof.
  split_and!; [vm_compute; reflexivity..|].
  set (w := twice _). assert (map pl_UseLimit (sq_tables (lw_links w)) = [Some 2]) as H by (vm_compute; reflexivity).
  apply map_singleton in H as (l & El & Hl). exists l, 0%nat. split; [exact El|]. split; [|reflexivity].
  destruct (Redeem_run (pl_ID l) (DepositRuns.env 1) 5 code (created (Some 2) (start [] true)) [] 0) as (fl1 & k1 & R1 & H1).
  destruct (Redeem_run (pl_ID l) (DepositRuns.env 2) 5 code (redeem 1 (created (Some 2) (start [] true))).2 fl1 0) as (fl2 & k2 & R2 & H2).
  rewrite H1 in R1 by (by apply DepositRuns.world_up). rewrite H2 in R2 by (by apply DepositRuns.world_up).
  apply (link_redeemed_within_limit (start [] true) w fl2 0 l 2); [| | |rewrite El; by left|exact Hl].
  - split; constructor.
  - intros i s H. change ((∅ : gmap UUID DepositSession) !! i = Some s) in H. by rewrite lookup_empty in H.
  - eapply rtc_l; [apply l_create|]. eapply rtc_trans; [exact R1|exact R2].
Defined.

(** Two payers of a link for one use who overlap: both look for the key
    before either has a session, and both inserts go in, for the unique index
    has the time of creation in it. *)
Lemma overlapping_payers_exceed_limit :
  let w := created (Some 1) (start [] true) in
  match Resolve 5 code (lw_links w) with
  | (Ok link, d) =>
      let key := linkKey (pl_ID link) 1 in
      let req := sessionRequest link key in
      (* the lookups of both payers *)
      let '(q1, st) := ds_GetSessionByIdempotencyKey (pl_TenantID link) key (lw_deposits w) in
      let '(q2, st) := ds_GetSessionByIdempotencyKey (pl_TenantID link) key st in
      (* what each of them does next *)
      let '(r1, st) := createFresh (DepositRuns.env 1) DepositRuns.tenant (pl_TenantID link) req st in
      let '(r2, st) := createFresh (DepositRuns.env 2) DepositRuns.tenant (pl_TenantID link) req st in
      is_ok q1 = false /\ is_ok q2 = false /\ is_ok r1 = true /\ is_ok r2 = true
      /\ size (dv_sessions (dview st)) = 2%nat
      /\ map (fun p => ds_IdempotencyKey p.2) (map_to_list (dv_sessions (dview st))) = [key; key]
  | _ => False
  end.
Proof. vm_compute. split_and!; reflexivity. Qed.

(** An increment that fails (call 2) is only logged: the next payer computes
    the same key and is given the first payer's session and address. *)
Lemma lost_increment_shares_session :
  let w := created None (start [2%nat] true) in
  let '(r1, w1) := redeem 1 w in
  let '(r2, w2) := redeem 2 w1 in
  paidInto r1 <> None /\ paidInto r2 = paidInto r1 /\ size (dv_sessions (dview (lw_deposits w2))) = 1%nat.
Proof. vm_compute. split_and!; done. Qed.

(** Two payers who resolve the link at the same time count the same use: they
    share one session, and two uses are booked for it. *)
Lemma concurrent_payers_share_session :
  let w := created (Some 2) (start [] true) in
  match Resolve 5 code (lw_links w) with
  | (Ok link, _) =>
      let key := linkKey (pl_ID link) (pl_UseCount link + 1) in
      let '(r1, w1) := redeem 1 w in
      let '(r2, st) := CreateSession (DepositRuns.env 2) (pl_TenantID link) (sessionRequest link key) (lw_deposits w1) in
      let d := (IncrementUseCount (pl_ID link) (lw_links w1)).2 in
      (fst <$> paidInto r1) = (match r2 with Ok s => Some (ds_ID s) | Err _ => None end)
      /\ is_ok r2 = true /\ map pl_UseCount (sq_tables d) = [2] /\ size (dv_sessions (dview st)) = 1%nat
  | _ => False
  end.
Proof. vm_compute. split_and!; reflexivity. Qed.

(** payment_links.id has no default and the insert names no id. *)
Lemma shipped_schema_takes_no_link :
  sq_tables (lw_links (created None (start [] false))) = [].
Proof. vm_compute. reflexivity. Qed.
End PaymentLinkRuns.
