(* ===== verification/Positions.v ===== *)
(** * core/position: position transactions and the rebalance worker

    Models src/domain/position_transaction.go, src/core/position/engine.go,
    src/store/transferdb/position_transaction_adapter.go and
    src/node/worker/position_rebalance_worker.go.  A request writes a
    transaction and an intent for the treasury worker in one database
    transaction; the outcome of the intent comes back as a result.  The
    rebalance worker asks for a withdrawal and a top-up of two positions.

    The engine reads positions of the [Manager] of Treasury.v.  Publishing an
    alert is a parameter.  Logging is left out. *)

From S2P Require Import Prelude ThirdParty Sql Money Deposits Transfer Outbox TransferStore Treasury TreasuryWorker.
Local Open Scope string_scope.
Local Open Scope Z_scope.

Module Positions.

(** ** domain *)

Inductive PositionTxType : Set := TxTopUp | TxWithdrawal | TxDepositCredit | TxInternalRebalance.

Inductive PositionTxStatus : Set := TxPending | TxProcessing | TxCompleted | TxFailed.

#[global] Instance PositionTxType_eq_dec : EqDecision PositionTxType.
Proof. solve_decision. Defined.
#[global] Instance PositionTxStatus_eq_dec : EqDecision PositionTxStatus.
Proof. solve_decision. Defined.

Definition ValidPositionTxTransitions (s : PositionTxStatus) : list PositionTxStatus :=
  match s with
  | TxPending => [TxProcessing; TxFailed]
  | TxProcessing => [TxCompleted; TxFailed]
  | TxCompleted | TxFailed => []
  end.

Section Data.
Context {L : ThirdParty}.

Record PositionTransaction := {
  px_ID : UUID; px_TenantID : UUID; px_Type : PositionTxType; px_Currency : Currency; px_Location : string; px_Amount : Decimal;
  px_Status : PositionTxStatus; px_Method : string; px_Destination : string; px_Reference : string; px_FailureReason : string;
  px_Version : Z; px_CreatedAt : Z; px_UpdatedAt : Z }.

Definition set_status (tx : PositionTransaction) (status : PositionTxStatus) (reason : string) (version now : Z) : PositionTransaction :=
  {| px_ID := px_ID tx; px_TenantID := px_TenantID tx; px_Type := px_Type tx; px_Currency := px_Currency tx;
     px_Location := px_Location tx; px_Amount := px_Amount tx; px_Status := status; px_Method := px_Method tx;
     px_Destination := px_Destination tx; px_Reference := px_Reference tx; px_FailureReason := reason; px_Version := version;
     px_CreatedAt := px_CreatedAt tx; px_UpdatedAt := now |}.

Definition CanTransitionTo (tx : PositionTransaction) (target : PositionTxStatus) : bool :=
  bool_decide (target ∈ ValidPositionTxTransitions (px_Status tx)).

Definition TransitionTo (now : Z) (tx : PositionTransaction) (target : PositionTxStatus) : result PositionTransaction :=
  if negb (CanTransitionTo tx target) then Err (DomainErr CodeInvalidTransition)
  else Ok (set_status tx target (px_FailureReason tx) (add64 (px_Version tx) 1) now).

Record TopUpRequest := { tu_Currency : Currency; tu_Location : string; tu_Amount : Decimal; tu_Method : string }.

Record WithdrawalRequest := {
  wd_Currency : Currency; wd_Location : string; wd_Amount : Decimal; wd_Method : string; wd_Destination : string }.

(** ** The store adapter *)

(** The table, the outbox, and whether the outbox has a column
    correlation_id: the statement names it, the migrations do not create it. *)
Record PosTables := { pn_txs : list PositionTransaction; pn_outbox : list OutboxEntry; pn_correlation : bool }.

Abbreviation PosDB := (Sql PosTables).

Definition set_txs (t : PosTables) (txs : list PositionTransaction) : PosTables :=
  {| pn_txs := txs; pn_outbox := pn_outbox t; pn_correlation := pn_correlation t |}.

(** The statement leaves published, retry_count and max_retries to the
    defaults of their columns. *)
Definition outboxRow (e : OutboxEntry) : OutboxEntry :=
  {| oe_ID := oe_ID e; oe_AggregateType := oe_AggregateType e; oe_AggregateID := oe_AggregateID e; oe_TenantID := oe_TenantID e;
     oe_CorrelationID := oe_CorrelationID e; oe_EventType := oe_EventType e; oe_Payload := oe_Payload e; oe_IsIntent := oe_IsIntent e;
     oe_Published := false; oe_PublishedAt := None; oe_RetryCount := 0; oe_MaxRetries := 5; oe_CreatedAt := oe_CreatedAt e |}.

Definition txKey (tx : PositionTransaction) : UUID * Z := (px_ID tx, px_CreatedAt tx).
Definition entryKey (e : OutboxEntry) : UUID * Z := (oe_ID e, oe_CreatedAt e).

Definition withAmount (tx : PositionTransaction) (amount : Decimal) : PositionTransaction :=
  {| px_ID := px_ID tx; px_TenantID := px_TenantID tx; px_Type := px_Type tx; px_Currency := px_Currency tx;
     px_Location := px_Location tx; px_Amount := amount; px_Status := px_Status tx; px_Method := px_Method tx;
     px_Destination := px_Destination tx; px_Reference := px_Reference tx; px_FailureReason := ""; px_Version := px_Version tx;
     px_CreatedAt := px_CreatedAt tx; px_UpdatedAt := px_UpdatedAt tx |}.

Definition insertTx (tx : PositionTransaction) (txs : list PositionTransaction) : result (list PositionTransaction) :=
  let? amount := numeric28_8 (px_Amount tx) in
  if existsb (fun r => bool_decide (txKey r = txKey tx)) txs then Err duplicateKey else Ok (txs ++ [withAmount tx amount])%list.

Fixpoint insertEntries (hasColumn : bool) (es ob : list OutboxEntry) : result (list OutboxEntry) :=
  match es with
  | [] => Ok ob
  | e :: es =>
      if negb hasColumn then Err (MsgErr "column correlation_id of relation outbox does not exist")
      else if existsb (fun r => bool_decide (entryKey r = entryKey e)) ob then Err duplicateKey
      else insertEntries hasColumn es (ob ++ [outboxRow e])%list
  end.

Definition CreateWithOutbox (tx : PositionTransaction) (entries : list OutboxEntry) : PosDB -> result unit * PosDB :=
  transact (fun _ t =>
    let? txs := wrap "insert transaction" (insertTx tx (pn_txs t)) in
    let? ob := wrap "insert outbox entry" (insertEntries (pn_correlation t) entries (pn_outbox t)) in
    Ok (tt, {| pn_txs := txs; pn_outbox := ob; pn_correlation := pn_correlation t |})).

Definition isRow (id tenantID : UUID) (r : PositionTransaction) : bool := bool_decide (px_ID r = id /\ px_TenantID r = tenantID).

(** No condition on the status or the version, and no row is no error. *)
Definition UpdateStatus (id tenantID : UUID) (status : PositionTxStatus) (failureReason : string) : PosDB -> result unit * PosDB :=
  transact (fun c t =>
    Ok (tt, set_txs t (map (fun r => if isRow id tenantID r then set_status r status failureReason (px_Version r + 1) (c_now c) else r)
                         (pn_txs t)))).

Definition Get (id tenantID : UUID) : PosDB -> result PositionTransaction * PosDB :=
  query (fun _ t => selectFirst (isRow id tenantID) (pn_txs t)).

Definition ListByTenant (tenantID : UUID) (limit offset : Z) : PosDB -> result (list PositionTransaction) * PosDB :=
  query (fun _ t => wrap "list by tenant" (limitOffset limit offset (orderDesc px_CreatedAt
    (filter (fun r => px_TenantID r = tenantID) (pn_txs t))))).

Definition ListByTenantCursor (tenantID : UUID) (pageSize cursor : Z) : PosDB -> result (list PositionTransaction) * PosDB :=
  query (fun _ t => wrap "list by tenant cursor" (limitOffset pageSize 0 (orderDesc px_CreatedAt
    (filter (fun r => px_TenantID r = tenantID /\ px_CreatedAt r < cursor) (pn_txs t))))).
End Data.

(** ** The engine *)

Section Engine.
Context {L : ThirdParty} {S : Type}.
Abbreviation PosDB := (Sql PosTables).
Implicit Types m : Manager S.

(** What a request draws: the instant of the snapshot, its own, the ids. *)
Record QEnv := { qe_snap : Z; qe_now : Z; qe_txID : UUID; qe_entryID : UUID; qe_entryNow : Z }.

Definition newTx (env : QEnv) (tenantID : UUID) (ty : PositionTxType) (currency : Currency) (location : string) (amount : Decimal)
    (method destination : string) : PositionTransaction :=
  {| px_ID := qe_txID env; px_TenantID := tenantID; px_Type := ty; px_Currency := currency; px_Location := location; px_Amount := amount;
     px_Status := TxProcessing; px_Method := method; px_Destination := destination; px_Reference := ""; px_FailureReason := "";
     px_Version := 1; px_CreatedAt := qe_now env; px_UpdatedAt := qe_now env |}.

Definition creditPayload (env : QEnv) (tenantID : UUID) (req : TopUpRequest) : PositionCreditPayload :=
  {| pcp_TenantID := tenantID; pcp_Currency := tu_Currency req; pcp_Amount := tu_Amount req; pcp_Location := tu_Location req;
     pcp_Reference := qe_txID env; pcp_RefType := "position_transaction" |}.

Definition RequestTopUp (env : QEnv) (tenantID : UUID) (req : TopUpRequest) m (d : PosDB) : result PositionTransaction * PosDB :=
  if negb (IsPositive (tu_Amount req)) then (Err (MsgErr "top-up amount must be positive"), d)
  else match GetPosition (qe_snap env) tenantID (tu_Currency req) (tu_Location req) m with
       | Err e => (Err (WrapErr "position not found" e), d)
       | Ok _ =>
           let tx := newTx env tenantID TxTopUp (tu_Currency req) (tu_Location req) (tu_Amount req) (tu_Method req) "" in
           match NewOutboxIntent (qe_entryID env) (qe_entryNow env) "position_transaction" (px_ID tx) tenantID IntentPositionCredit
                   (PPositionCredit (creditPayload env tenantID req)) with
           | Err e => (Err (WrapErr "creating outbox intent" e), d)
           | Ok entry =>
               match CreateWithOutbox tx [entry] d with
               | (Err e, d) => (Err (WrapErr "creating top-up transaction" e), d)
               | (Ok _, d) => (Ok tx, d)
               end
           end
       end.

Definition debitPayload (env : QEnv) (tenantID : UUID) (req : WithdrawalRequest) : PositionDebitPayload :=
  {| pdp_TenantID := tenantID; pdp_Currency := wd_Currency req; pdp_Amount := wd_Amount req; pdp_Location := wd_Location req;
     pdp_Reference := qe_txID env; pdp_RefType := "position_transaction"; pdp_Destination := wd_Destination req |}.

Definition RequestWithdrawal (env : QEnv) (tenantID : UUID) (req : WithdrawalRequest) m (d : PosDB) : result PositionTransaction * PosDB :=
  if negb (IsPositive (wd_Amount req)) then (Err (MsgErr "withdrawal amount must be positive"), d)
  else if String.eqb (wd_Destination req) "" then (Err (MsgErr "withdrawal destination is required"), d)
  else match GetPosition (qe_snap env) tenantID (wd_Currency req) (wd_Location req) m with
       | Err e => (Err (WrapErr "position not found" e), d)
       | Ok pos =>
           if LessThan (Position_Available pos) (wd_Amount req) then (Err (DomainErr CodeInsufficientFunds), d)
           else
             let tx := newTx env tenantID TxWithdrawal (wd_Currency req) (wd_Location req) (wd_Amount req) (wd_Method req) (wd_Destination req) in
             match NewOutboxIntent (qe_entryID env) (qe_entryNow env) "position_transaction" (px_ID tx) tenantID IntentPositionDebit
                     (PPositionDebit (debitPayload env tenantID req)) with
             | Err e => (Err (WrapErr "creating outbox intent" e), d)
             | Ok entry =>
                 match CreateWithOutbox tx [entry] d with
                 | (Err e, d) => (Err (WrapErr "creating withdrawal transaction" e), d)
                 | (Ok _, d) => (Ok tx, d)
                 end
             end
       end.

(** The two handlers differ in the reason for a failure without one. *)
Definition outcome (noReason : string) (r : IntentResult) : PositionTxStatus * string :=
  if ir_Success r then (TxCompleted, "")
  else (TxFailed, if String.eqb (ir_Error r) "" then noReason else ir_Error r).

Definition handleResult (noReason : string) (tenantID txID : UUID) (r : IntentResult) (d : PosDB) : result unit * PosDB :=
  match Get txID tenantID d with
  | (Err e, d) => (Err (WrapErr "loading transaction" e), d)
  | (Ok tx, d) =>
      if bool_decide (px_Status tx <> TxProcessing) then (Ok tt, d)
      else let '(u, d) := UpdateStatus txID tenantID (outcome noReason r).1 (outcome noReason r).2 d in
           (wrap (if ir_Success r then "completing transaction" else "failing transaction") u, d)
  end.

Definition HandleCreditResult : UUID -> UUID -> IntentResult -> PosDB -> result unit * PosDB := handleResult "credit operation failed".
Definition HandleDebitResult : UUID -> UUID -> IntentResult -> PosDB -> result unit * PosDB := handleResult "debit operation failed".

Definition GetTransaction (tenantID txID : UUID) : PosDB -> result PositionTransaction * PosDB := Get txID tenantID.
Definition ListTransactions (tenantID : UUID) (limit offset : Z) : PosDB -> result (list PositionTransaction) * PosDB :=
  ListByTenant tenantID limit offset.
Definition ListTransactionsCursor (tenantID : UUID) (pageSize cursor : Z) : PosDB -> result (list PositionTransaction) * PosDB :=
  ListByTenantCursor tenantID pageSize cursor.
End Engine.

(** ** The rebalance worker *)

Section Rebalance.
Context {L : ThirdParty} {S B : Type}.
Abbreviation PosDB := (Sql PosTables).

(** The alert event: its tenant and the position it describes. *)
Variable publish : UUID -> Position -> B -> result unit * B.

Record RebalanceWorker := { rw_db : PosDB; rw_recent : gmap UUID Z; rw_bus : B }.

Definition rebalanceCooldown : Z := 300 * 1000000000.

(** [now] is the instant at which a position is looked at. *)
Definition isOnCooldown (now : Z) (recent : gmap UUID Z) (positionID : UUID) : bool :=
  match recent !! positionID with
  | None => false
  | Some last => now - last <? rebalanceCooldown
  end.

Definition setCooldown (now : Z) (positionID : UUID) (recent : gmap UUID Z) : gmap UUID Z := <[positionID := now]> recent.

Definition cleanupCooldowns (now : Z) (recent : gmap UUID Z) : gmap UUID Z :=
  filter (fun x => now - x.2 <= rebalanceCooldown * 2) recent.

Definition threshold (p : Position) : Decimal := if IsZero (pos_TargetBalance p) then pos_MinBalance p else pos_TargetBalance p.

Definition isSurplus (now : Z) (recent : gmap UUID Z) (deficit : Position) (amount : Decimal) (candidate : Position) : bool :=
  negb (bool_decide (pos_ID candidate = pos_ID deficit)) && negb (isOnCooldown now recent (pos_ID candidate))
  && bool_decide (pos_Currency candidate = pos_Currency deficit)
  && GreaterThanOrEqual (dSub (Position_Available candidate) (threshold candidate)) amount.

(** The first that qualifies. *)
Definition findSurplusPosition (now : Z) (recent : gmap UUID Z) (positions : list Position) (deficit : Position) (amount : Decimal)
  : option Position := List.find (isSurplus now recent deficit amount) positions.

(** What the two requests of a rebalance draw. *)
Record BEnv := { be_now : Z; be_debit : QEnv; be_credit : QEnv }.

Definition withdrawalOf (source dest : Position) (amount : Decimal) : WithdrawalRequest :=
  {| wd_Currency := pos_Currency source; wd_Location := pos_Location source; wd_Amount := amount; wd_Method := "internal";
     wd_Destination := pos_Currency dest +:+ ":" +:+ pos_Location dest |}.

Definition topUpOf (dest : Position) (amount : Decimal) : TopUpRequest :=
  {| tu_Currency := pos_Currency dest; tu_Location := pos_Location dest; tu_Amount := amount; tu_Method := "internal" |}.

(** Positions rest only if both requests were accepted. *)
Definition triggerRebalance (env : BEnv) (m : Manager S) (tenantID : UUID) (source dest : Position) (amount : Decimal) (w : RebalanceWorker)
  : RebalanceWorker :=
  match RequestWithdrawal (be_debit env) tenantID (withdrawalOf source dest amount) m (rw_db w) with
  | (Err _, d) => {| rw_db := d; rw_recent := rw_recent w; rw_bus := rw_bus w |}
  | (Ok _, d) =>
      match RequestTopUp (be_credit env) tenantID (topUpOf dest amount) m d with
      | (Err _, d) => {| rw_db := d; rw_recent := rw_recent w; rw_bus := rw_bus w |}
      | (Ok _, d) => {| rw_db := d; rw_bus := rw_bus w;
                        rw_recent := setCooldown (be_now env) (pos_ID dest) (setCooldown (be_now env) (pos_ID source) (rw_recent w)) |}
      end
  end.

Definition publishAlert (env : BEnv) (tenantID : UUID) (pos : Position) (w : RebalanceWorker) : RebalanceWorker :=
  {| rw_db := rw_db w; rw_recent := setCooldown (be_now env) (pos_ID pos) (rw_recent w); rw_bus := (publish tenantID pos (rw_bus w)).2 |}.

Definition deficitOf (pos : Position) : Decimal :=
  let deficit := dSub (pos_TargetBalance pos) (pos_Balance pos) in
  if IsPositive deficit then deficit else dSub (pos_MinBalance pos) (pos_Balance pos).

Definition checkPosition (env : BEnv) (m : Manager S) (tenantID : UUID) (positions : list Position) (pos : Position) (w : RebalanceWorker)
  : RebalanceWorker :=
  if IsZero (pos_MinBalance pos) then w
  else if IsAboveMinimum pos then w
  else if isOnCooldown (be_now env) (rw_recent w) (pos_ID pos) then w
  else if negb (IsPositive (deficitOf pos)) then w
  else match findSurplusPosition (be_now env) (rw_recent w) positions pos (deficitOf pos) with
       | Some source => triggerRebalance env m tenantID source pos (deficitOf pos) w
       | None => publishAlert env tenantID pos w
       end.

(** [envs i] is for the position at [i] of the snapshot. *)
Fixpoint checkPositions (envs : nat -> BEnv) (i : nat) (m : Manager S) (tenantID : UUID) (positions todo : list Position) (w : RebalanceWorker)
  : RebalanceWorker :=
  match todo with
  | [] => w
  | pos :: todo => checkPositions envs (Datatypes.S i) m tenantID positions todo (checkPosition (envs i) m tenantID positions pos w)
  end.

Definition checkTenant (envs : nat -> BEnv) (now : Z) (m : Manager S) (tenantID : UUID) (w : RebalanceWorker) : RebalanceWorker :=
  let positions := GetPositions now tenantID m in checkPositions envs 0 m tenantID positions positions w.

(** One cycle: the tenants, each with what its check draws and the manager as
    it finds it, or an error of the lister; then the clean-up. *)
Record TenantCheck := { tc_tenant : UUID; tc_envs : nat -> BEnv; tc_now : Z; tc_manager : Manager S }.

Definition runCycle (tenants : result (list TenantCheck)) (now : Z) (w : RebalanceWorker) : RebalanceWorker :=
  match tenants with
  | Err _ => w
  | Ok cs =>
      let w := foldl (fun w c => checkTenant (tc_envs c) (tc_now c) (tc_manager c) (tc_tenant c) w) w cs in
      {| rw_db := rw_db w; rw_recent := cleanupCooldowns now (rw_recent w); rw_bus := rw_bus w |}
  end.
End Rebalance.
End Positions.
