(* ===== verification/PositionProps.v ===== *)
(** * core/position: what top-ups, withdrawals and rebalancing guarantee

    [position_tx_one_intent]: a transaction has one intent, and a decided one
    that no handler has in hand stays as it is, under any interleaving.  [rebalance_rate_limited]: no
    position is topped up twice within the cooldown.  [rebalance_conserves]
    and [rebalance_creates_money]: what the two intents of a rebalance do to
    the treasury, and that the second does not wait for the first. *)

From Stdlib Require Import Ascii QArith Lqa.
From stdpp Require Import sorting.
From S2P Require Import Prelude ThirdParty Sql Money Deposits Transfer Outbox TransferStore Treasury TreasuryFacts TreasuryProps TreasuryWorker TreasuryWorkerProps TreasuryFlush TreasurySync TreasuryFlushProps TreasuryRecovery TreasuryDB TreasuryCrash Positions.
Local Open Scope string_scope.
Local Open Scope Z_scope.

Module PositionProps.
Import Positions.

Section Requests.
Context {L : ThirdParty} {S : Type}.
Abbreviation PosDB := (Sql PosTables).
Implicit Types m : Manager S.

(** ** One intent for each transaction *)

(** The intent a transaction stands for: what it asks the treasury for, of an
    amount that is the one on record up to the digits of the column. *)
Definition asksFor (tx : PositionTransaction) (e : OutboxEntry) : Prop :=
  oe_AggregateType e = "position_transaction" /\ oe_AggregateID e = px_ID tx /\ oe_TenantID e = px_TenantID tx /\ oe_IsIntent e = true
  /\ exists amount, IsPositive amount = true /\ numeric28_8 amount = Ok (px_Amount tx)
     /\ match px_Type tx with
        | TxTopUp => oe_EventType e = IntentPositionCredit
            /\ oe_Payload e = PPositionCredit {| pcp_TenantID := px_TenantID tx; pcp_Currency := px_Currency tx; pcp_Amount := amount;
                                pcp_Location := px_Location tx; pcp_Reference := px_ID tx; pcp_RefType := "position_transaction" |}
        | TxWithdrawal => oe_EventType e = IntentPositionDebit
            /\ oe_Payload e = PPositionDebit {| pdp_TenantID := px_TenantID tx; pdp_Currency := px_Currency tx; pdp_Amount := amount;
                                pdp_Location := px_Location tx; pdp_Reference := px_ID tx; pdp_RefType := "position_transaction";
                                pdp_Destination := px_Destination tx |}
        | _ => False
        end.

Definition intentsOf (id : UUID) (ob : list OutboxEntry) : list OutboxEntry := filter (fun e => oe_AggregateID e = id) ob.

Record posInv (t : PosTables) : Prop := {
  pi_ids : NoDup (map px_ID (pn_txs t));
  pi_intents : forall tx, tx ∈ pn_txs t -> px_Status tx <> TxPending /\ exists e, intentsOf (px_ID tx) (pn_outbox t) = [e] /\ asksFor tx e;
}.

(** What becomes of a transaction on record. *)
Definition decided (s : PositionTxStatus) : Prop := s = TxCompleted \/ s = TxFailed.

Definition sameRequest (a b : PositionTransaction) : Prop :=
  px_ID a = px_ID b /\ px_TenantID a = px_TenantID b /\ px_Type a = px_Type b /\ px_Currency a = px_Currency b
  /\ px_Location a = px_Location b /\ px_Amount a = px_Amount b /\ px_Destination a = px_Destination b.

Definition keeps (t t' : PosTables) : Prop := forall tx, tx ∈ pn_txs t ->
  exists tx', tx' ∈ pn_txs t' /\ sameRequest tx tx' /\ (decided (px_Status tx) -> decided (px_Status tx')) /\ px_Version tx <= px_Version tx'.

#[global] Instance keeps_preorder : PreOrder keeps.
Proof.
  split.
  - intros t tx Htx. exists tx. split_and!; [done|by repeat split|done|lia].
  - intros t1 t2 t3 H1 H2 tx (tx2 & Hin & Hs & Hd & Hv)%H1. apply H2 in Hin as (tx3 & Hin & Hs' & Hd' & Hv').
    exists tx3. split_and!; [done| |by auto|lia]. unfold sameRequest in *. intuition congruence.
Qed.

(** A handler that has read its transaction and found it undecided. *)
Record Job := { jb_tenant : UUID; jb_tx : UUID; jb_status : PositionTxStatus; jb_reason : string }.

Record PSys := { ys_db : PosDB; ys_jobs : list Job }.

(** The identifiers of google/uuid are new. *)
Definition fresh (env : QEnv) (t : PosTables) : Prop :=
  (qe_txID env ∉ map px_ID (pn_txs t)) /\ (qe_txID env ∉ map oe_AggregateID (pn_outbox t)).

(** Requests, the two halves of the handlers of results, and crashes between
    them, with whatever the database answers. *)
Inductive qstep (y : PSys) : PSys -> Prop :=
| q_topup env tn req m : fresh env (sq_tables (ys_db y)) ->
    qstep y {| ys_db := (RequestTopUp env tn req m (ys_db y)).2; ys_jobs := ys_jobs y |}
| q_withdraw env tn req m : fresh env (sq_tables (ys_db y)) ->
    qstep y {| ys_db := (RequestWithdrawal env tn req m (ys_db y)).2; ys_jobs := ys_jobs y |}
| q_read noReason tn id r tx d : Get id tn (ys_db y) = (Ok tx, d) -> px_Status tx = TxProcessing ->
    qstep y {| ys_db := d; ys_jobs := (ys_jobs y ++ [{| jb_tenant := tn; jb_tx := id; jb_status := (outcome noReason r).1;
                                                        jb_reason := (outcome noReason r).2 |}])%list |}
| q_skip id tn r d : Get id tn (ys_db y) = (r, d) -> qstep y {| ys_db := d; ys_jobs := ys_jobs y |}
| q_update i j : ys_jobs y !! i = Some j ->
    qstep y {| ys_db := (UpdateStatus (jb_tx j) (jb_tenant j) (jb_status j) (jb_reason j) (ys_db y)).2; ys_jobs := delete i (ys_jobs y) |}
| q_crash i : qstep y {| ys_db := ys_db y; ys_jobs := delete i (ys_jobs y) |}.

(** A handler is a run of these steps. *)
Lemma handleResult_steps noReason tn id r d jobs :
  rtc qstep {| ys_db := d; ys_jobs := jobs |} {| ys_db := (handleResult noReason tn id r d).2; ys_jobs := jobs |}.
Proof.
  unfold handleResult. destruct (Get id tn d) as [[tx|e] d1] eqn:E; [|by eapply rtc_l; [eapply q_skip; exact E|apply rtc_refl]].
  case_bool_decide as Hp; [by eapply rtc_l; [eapply q_skip; exact E|apply rtc_refl]|].
  eapply rtc_l; [eapply (q_read _ noReason tn id r tx d1); [exact E|exact Hp]|].
  eapply rtc_l; [eapply (q_update _ (length jobs)); apply list_lookup_middle; reflexivity|]. cbn. rewrite delete_middle, app_nil_r.
  destruct (UpdateStatus _ _ _ _ d1) as [u d2]. apply rtc_refl.
Qed.

(** *** Writing a request *)

Lemma insertTx_ok tx txs txs' : insertTx tx txs = Ok txs' ->
  exists amount, numeric28_8 (px_Amount tx) = Ok amount /\ txs' = (txs ++ [withAmount tx amount])%list.
Proof. unfold insertTx. destruct (numeric28_8 _) as [a|]; [|done]. simpl. case_match; [done|]. intros [= <-]. eauto. Qed.

Lemma insertEntries_one has e ob ob' : insertEntries has [e] ob = Ok ob' -> ob' = (ob ++ [outboxRow e])%list.
Proof. cbn. repeat case_match; try done. by intros [= <-]. Qed.

Lemma CreateWithOutbox_inv tx e d r d' : CreateWithOutbox tx [e] d = (r, d') ->
  sq_tables d' = sq_tables d \/ exists amount, numeric28_8 (px_Amount tx) = Ok amount
    /\ pn_txs (sq_tables d') = (pn_txs (sq_tables d) ++ [withAmount tx amount])%list
    /\ pn_outbox (sq_tables d') = (pn_outbox (sq_tables d) ++ [outboxRow e])%list.
Proof.
  intros E. apply transact_inv in E as [(-> & _)|([] & Hf & _)]; [by left|]. right.
  destruct (wrap _ (insertTx _ _)) as [txs|] eqn:E1; [|done]. apply wrap_ok, insertTx_ok in E1 as (a & Ha & ->). cbn [map] in Hf.
  destruct (wrap _ (insertEntries _ _ _)) as [ob|] eqn:E2; [|done]. apply wrap_ok, insertEntries_one in E2 as ->.
  injection Hf as Hf. exists a. by rewrite <- Hf.
Qed.

(** A request: what is on record stays, and the new transaction has its intent. *)
Lemma created_inv tx e d r d' : posInv (sq_tables d) -> CreateWithOutbox tx [e] d = (r, d') ->
  px_ID tx ∉ map px_ID (pn_txs (sq_tables d)) -> px_ID tx ∉ map oe_AggregateID (pn_outbox (sq_tables d)) ->
  px_Status tx <> TxPending ->
  (forall amount, numeric28_8 (px_Amount tx) = Ok amount -> asksFor (withAmount tx amount) (outboxRow e)) ->
  posInv (sq_tables d') /\ keeps (sq_tables d) (sq_tables d').
Proof.
  intros [Hn Hi] E Hf1 Hf2 Hp Ha. apply CreateWithOutbox_inv in E as [->|(a & Hna & Ht & Ho)]; [by split|].
  specialize (Ha a Hna). split.
  - assert (oe_AggregateID (outboxRow e) = px_ID tx) as Hagg by apply Ha. split; rewrite Ht, ?Ho.
    + rewrite map_app. apply NoDup_app. split_and!; [done| |apply NoDup_singleton]. intros x Hx [= ->]%list_elem_of_singleton. by apply Hf1.
    + intros tx' [Htx|[= ->]%list_elem_of_singleton]%elem_of_app; unfold intentsOf; rewrite filter_app.
      * destruct (Hi tx' Htx) as (Hps & e' & He' & Has). split; [done|]. exists e'. split; [|done]. unfold intentsOf in He'. rewrite He'.
        rewrite filter_cons, decide_False, filter_nil; [done|]. rewrite Hagg. intros Hx. apply Hf1. rewrite Hx. by apply list_elem_of_fmap_2.
      * split; [done|]. exists (outboxRow e). split; [|done]. rewrite (filter_none _ (pn_outbox (sq_tables d))).
        { simpl. rewrite filter_cons, decide_True; [done|]. exact Hagg. }
        intros x Hx Heq. apply Hf2. cbn in Heq. rewrite <- Heq. by apply list_elem_of_fmap_2.
  - intros tx' Htx. exists tx'. rewrite Ht. split_and!; [by apply elem_of_app; left|by repeat split|done|lia].
Qed.
Lemma RequestTopUp_inv env tn req m d : posInv (sq_tables d) -> fresh env (sq_tables d) ->
  posInv (sq_tables (RequestTopUp env tn req m d).2) /\ keeps (sq_tables d) (sq_tables (RequestTopUp env tn req m d).2).
Proof.
  intros Hi [Hf1 Hf2]. unfold RequestTopUp. destruct (IsPositive (tu_Amount req)) eqn:Hpos; cbn [negb]; [|by split].
  destruct (GetPosition _ _ _ _ _); [|by split]. cbn [NewOutboxIntent ValidateEventType]. destruct (NewOutboxIntent _ _ _ _ _ _ _) as [e|] eqn:Ee; [|by split].
  injection Ee as <-. destruct (CreateWithOutbox _ _ d) as [r d'] eqn:E.
  assert (posInv (sq_tables d') /\ keeps (sq_tables d) (sq_tables d')) as H; [|by destruct r].
  eapply created_inv; [done|exact E|done|done|done|]. intros amount Ha. split_and!; try done. exists (tu_Amount req). by split_and!.
Qed.

Lemma RequestWithdrawal_inv env tn req m d : posInv (sq_tables d) -> fresh env (sq_tables d) ->
  posInv (sq_tables (RequestWithdrawal env tn req m d).2) /\ keeps (sq_tables d) (sq_tables (RequestWithdrawal env tn req m d).2).
Proof.
  intros Hi [Hf1 Hf2]. unfold RequestWithdrawal. destruct (IsPositive (wd_Amount req)) eqn:Hpos; cbn [negb]; [|by split].
  case_match; [by split|]. destruct (GetPosition _ _ _ _ _); [|by split]. case_match; [by split|].
  destruct (NewOutboxIntent _ _ _ _ _ _ _) as [e|] eqn:Ee; [|by split].
  injection Ee as <-. destruct (CreateWithOutbox _ _ d) as [r d'] eqn:E.
  assert (posInv (sq_tables d') /\ keeps (sq_tables d) (sq_tables d')) as H'; [|by destruct r].
  eapply created_inv; [done|exact E|done|done|done|]. intros amount Ha. split_and!; try done. exists (wd_Amount req). by split_and!.
Qed.

Lemma UpdateStatus_inv id tn s reason d : posInv (sq_tables d) -> decided s ->
  posInv (sq_tables (UpdateStatus id tn s reason d).2) /\ keeps (sq_tables d) (sq_tables (UpdateStatus id tn s reason d).2).
Proof.
  intros [Hn Hi] Hs. destruct (UpdateStatus id tn s reason d) as [r d'] eqn:E.
  cbn [snd]. apply transact_inv in E as [(-> & _)|([] & Hf & _)]; [by split|]. injection Hf as Hf. rewrite <- Hf. cbn [pn_txs pn_outbox set_txs].
  set (f := fun r => if isRow id tn r then _ else r).
  assert (forall x, sameRequest x (f x)) as Hsame by (intros x; unfold f; case_match; by repeat split).
  assert (forall x, px_ID (f x) = px_ID x) as Hid by (intros x; symmetry; apply Hsame).
  split.
  - split; cbn [pn_txs pn_outbox set_txs].
    + rewrite map_map. erewrite map_ext; [exact Hn|]. exact Hid.
    + intros tx (tx0 & -> & H0)%list_elem_of_fmap. destruct (Hi tx0 H0) as (Hp & e & He & Ha). rewrite Hid. split.
      * unfold f. case_match; [|done]. cbn. by destruct Hs as [-> | ->].
      * exists e. split; [done|]. destruct (Hsame tx0) as (E1 & E2 & E3 & E4 & E5 & E6 & E7). unfold asksFor in *.
        by rewrite <- E1, <- E2, <- E3, <- E4, <- E5, <- E6, <- E7.
  - intros tx Htx. exists (f tx). split_and!; [by apply list_elem_of_fmap_2|apply Hsame| |].
    + intros Hd. unfold f. by case_match.
    + unfold f. case_match; cbn; lia.
Qed.

Definition sysInv (y : PSys) : Prop := posInv (sq_tables (ys_db y)) /\ Forall (fun j => decided (jb_status j)) (ys_jobs y).

Lemma qstep_inv y y' : sysInv y -> qstep y y' -> sysInv y' /\ keeps (sq_tables (ys_db y)) (sq_tables (ys_db y')).
Proof.
  intros [Hi Hj] [env tn req m Hf|env tn req m Hf|noReason tn id r tx d Hg Hp|id tn r d Hg|i j Hl|i]; unfold sysInv; cbn.
  - destruct (RequestTopUp_inv env tn req m _ Hi Hf). by split_and!.
  - destruct (RequestWithdrawal_inv env tn req m _ Hi Hf). by split_and!.
  - apply query_inv in Hg as [-> _]. split_and!; [done| |done]. apply Forall_app. split; [done|]. constructor; [|done].
    unfold outcome, decided. cbn. destruct (ir_Success r); auto.
  - apply query_inv in Hg as [-> _]. by split_and!.
  - destruct (UpdateStatus_inv (jb_tx j) (jb_tenant j) (jb_status j) (jb_reason j) _ Hi) as [H1 H2].
    { by eapply Forall_lookup_1 in Hj. }
    split_and!; [done|by apply Forall_delete|done].
  - by split_and!; [|apply Forall_delete|].
Qed.

(** Requests add rows and touch none. *)
Lemma RequestTopUp_grows env tn req m d : pn_txs (sq_tables d) ⊆ pn_txs (sq_tables (RequestTopUp env tn req m d).2).
Proof.
  unfold RequestTopUp. case_match; [done|]. case_match; [|done]. case_match; [|done].
  destruct (CreateWithOutbox _ _ d) as [r d'] eqn:E. assert (pn_txs (sq_tables d) ⊆ pn_txs (sq_tables d')) as Hsub; [|by destruct r].
  apply CreateWithOutbox_inv in E as [->|(b & _ & -> & _)]; set_solver.
Qed.

Lemma RequestWithdrawal_grows env tn req m d : pn_txs (sq_tables d) ⊆ pn_txs (sq_tables (RequestWithdrawal env tn req m d).2).
Proof.
  unfold RequestWithdrawal. case_match; [done|]. case_match; [done|]. case_match; [|done]. case_match; [done|]. case_match; [|done].
  destruct (CreateWithOutbox _ _ d) as [r d'] eqn:E. assert (pn_txs (sq_tables d) ⊆ pn_txs (sq_tables d')) as Hsub; [|by destruct r].
  apply CreateWithOutbox_inv in E as [->|(b & _ & -> & _)]; set_solver.
Qed.

(** No handler that has read [tx] has yet to write. *)
Definition untouched (tx : PositionTransaction) (y : PSys) : Prop :=
  Forall (fun j => isRow (jb_tx j) (jb_tenant j) tx = false) (ys_jobs y).

(** A decided transaction that nobody has in hand is not touched: a handler
    that reads it sees that it is no longer processing. *)
Lemma decided_stays y y' tx : sysInv y -> qstep y y' -> tx ∈ pn_txs (sq_tables (ys_db y)) -> decided (px_Status tx) -> untouched tx y ->
  tx ∈ pn_txs (sq_tables (ys_db y')) /\ untouched tx y'.
Proof.
  intros [[Hids _] _] Hs Hin Hd Hu. unfold untouched in *.
  destruct Hs as [env tn req m Hf|env tn req m Hf|noReason tn id r tx' d Hg Hp|id tn r d Hg|i j Hl|i]; cbn.
  - split; [by apply RequestTopUp_grows|done].
  - split; [by apply RequestWithdrawal_grows|done].
  - apply query_inv in Hg as [-> Hq]. split; [done|]. apply Forall_app. split; [done|]. constructor; [|done]. cbn.
    apply not_true_iff_false. intros Hrow. specialize (Hq tx' eq_refl). unfold selectFirst in Hq.
    destruct (filter _ _) as [|t l] eqn:Ef; [done|]. injection Hq as ->.
    assert (tx' ∈ filter (fun r0 => isRow id tn r0 = true) (pn_txs (sq_tables (ys_db y)))) as [Ht Hin']%list_elem_of_filter by (rewrite Ef; left).
    unfold isRow in Ht, Hrow. apply bool_decide_eq_true in Ht as [E1 _], Hrow as [E2 _].
    assert (tx' = tx) as -> by (eapply NoDup_key; eauto; congruence). by destruct Hd; congruence.
  - by apply query_inv in Hg as [-> _].
  - assert (isRow (jb_tx j) (jb_tenant j) tx = false) as Hj by exact (Forall_lookup_1 _ _ _ _ Hu Hl).
    split; [|by apply Forall_delete]. destruct (UpdateStatus _ _ _ _ _) as [u d'] eqn:E. cbn.
    apply transact_inv in E as [(-> & _)|([] & Hf & _)]; [done|]. injection Hf as Hf. rewrite <- Hf. cbn [pn_txs set_txs].
    apply list_elem_of_fmap. exists tx. by rewrite Hj.
  - split; [done|]. by apply Forall_delete.
Qed.

(** C33: However requests and results interleave, with statements that fail,
    commits nobody hears of and handlers that stop halfway: every transaction
    has exactly one intent in the outbox, for its own position and amount and
    with its own id as the reference; a transaction keeps its request, and once
    completed or failed it stays decided.  If moreover no handler had read it
    while it was processing and has yet to write, it stays exactly as it is:
    a result that comes later changes nothing.  The handlers of results are
    runs of these steps: they write only what they have read as processing. *)
Theorem position_tx_one_intent y0 y : sysInv y0 -> rtc qstep y0 y ->
  posInv (sq_tables (ys_db y)) /\ keeps (sq_tables (ys_db y0)) (sq_tables (ys_db y))
  /\ (forall tx, tx ∈ pn_txs (sq_tables (ys_db y0)) -> decided (px_Status tx) -> untouched tx y0 ->
       tx ∈ pn_txs (sq_tables (ys_db y)))
  /\ forall noReason tn id r,
       rtc qstep y {| ys_db := (handleResult noReason tn id r (ys_db y)).2; ys_jobs := ys_jobs y |}.
Proof.
  intros H0 Hr. revert H0.
  induction Hr as [[d jobs]|y y1 y2 Hs _ IH]; intros H0;
    [split_and!; [apply H0|reflexivity|done|intros; apply handleResult_steps]|].
  destruct (qstep_inv _ _ H0 Hs) as [H1 K1]. destruct (IH H1) as (H2 & K2 & Hk & Hh). split_and!; [done|by etrans| |done].
  intros tx Hin Hd Hu. destruct (decided_stays _ _ _ H0 Hs Hin Hd Hu) as [Hin1 Hu1]. by apply Hk.
Qed.
End Requests.

(** ** One rebalance per cooldown *)

Lemma sorted_lookup {A} (R : A -> A -> Prop) l i j a b :
  StronglySorted R l -> l !! i = Some a -> l !! j = Some b -> (i < j)%nat -> R a b.
Proof.
  intros Hs Hi Hj Hij. rewrite <- (take_drop j l) in Hs. eapply (StronglySorted_app_1_elem_of R (take j l) (drop j l) a b Hs).
  - apply (list_elem_of_lookup_2 _ i). by rewrite lookup_take_lt.
  - apply (list_elem_of_lookup_2 _ 0). by rewrite lookup_drop, Nat.add_0_r.
Qed.

Section RateLimit.
Context {L : ThirdParty} {S B : Type} (publish : UUID -> Position -> B -> result unit * B).
Implicit Types (m : Manager S) (w : RebalanceWorker (B := B)).

Definition posKey (x : PositionTransaction) : positionKey := (px_TenantID x, px_Currency x, px_Location x).

(** The top-ups of the worker, in the order in which they were written. *)
Definition internalTops (t : PosTables) : list PositionTransaction :=
  filter (fun x => px_Type x = TxTopUp /\ px_Method x = "internal") (pn_txs t).

(** Statements fail or are answered; no commit happens unheard. *)
Definition steady (d : Sql PosTables) : Prop := forall n e, c_out (sq_world d n) <> CallLost e.

(** The id of the position with a key. *)
Variable named : positionKey -> UUID.

(** Checks of single positions, at instants that do not go back, clean-ups,
    and whatever else happens to the tables but internal top-ups. *)
Inductive rstep : RebalanceWorker (B := B) * Z -> RebalanceWorker (B := B) * Z -> Prop :=
| r_check env m tn positions pos w clock :
    clock <= be_now env -> qe_now (be_credit env) = be_now env -> pos_ID pos = named (tn, pos_Currency pos, pos_Location pos) ->
    rstep (w, clock) (checkPosition publish env m tn positions pos w, be_now env)
| r_cleanup now w clock : clock <= now ->
    rstep (w, clock) ({| rw_db := rw_db w; rw_recent := cleanupCooldowns now (rw_recent w); rw_bus := rw_bus w |}, now)
| r_other d w clock : steady d -> internalTops (sq_tables d) = internalTops (sq_tables (rw_db w)) ->
    rstep (w, clock) ({| rw_db := d; rw_recent := rw_recent w; rw_bus := rw_bus w |}, clock).

(** The check of a tenant is made of them. *)
Lemma checkPositions_steps envs m tn positions todo : forall i w clock,
  (forall k, be_now (envs k) <= be_now (envs (Datatypes.S k))) -> (forall k, qe_now (be_credit (envs k)) = be_now (envs k)) ->
  Forall (fun p => pos_ID p = named (tn, pos_Currency p, pos_Location p)) todo -> clock <= be_now (envs i) ->
  exists clock', rtc rstep (w, clock) (checkPositions publish envs i m tn positions todo w, clock').
Proof.
  induction todo as [|p todo IH]; intros i w clock Hm Hq Hn Hc; [exists clock; apply rtc_refl|].
  apply Forall_cons in Hn as [Hp Hn]. destruct (IH (Datatypes.S i) (checkPosition publish (envs i) m tn positions p w) (be_now (envs i)) Hm Hq Hn)
    as [clock' Hr]; [apply Hm|]. exists clock'. eapply rtc_l; [by apply r_check|exact Hr].
Qed.

Record limited (x : RebalanceWorker (B := B) * Z) : Prop := {
  lm_steady : steady (rw_db x.1);
  lm_recent : forall a, a ∈ internalTops (sq_tables (rw_db x.1)) -> px_CreatedAt a <= x.2
    /\ (px_CreatedAt a + rebalanceCooldown <= x.2
        \/ exists last, rw_recent x.1 !! named (posKey a) = Some last /\ px_CreatedAt a <= last);
  lm_spaced : StronglySorted (fun a b => posKey a = posKey b -> px_CreatedAt a + rebalanceCooldown <= px_CreatedAt b)
    (internalTops (sq_tables (rw_db x.1)));
}.

Lemma transact_steady {A} (f : Sql.Call -> PosTables -> result (A * PosTables)) d r d' : transact f d = (r, d') -> steady d ->
  steady d' /\ (is_ok r = false -> sq_tables d' = sq_tables d).
Proof.
  intros E Hs. unfold transact in E. pose proof (Hs (sq_calls d)) as Hc. unfold sq_call in E.
  destruct (c_out (sq_world d (sq_calls d))) as [|e|e] eqn:Ho, (f (sq_world d (sq_calls d)) (sq_tables d)) as [[a t]|e'];
    simplify_eq/=; try done; by destruct (Hc e).
Qed.

Lemma RequestWithdrawal_tops env tn req m d r d' : RequestWithdrawal env tn req m d = (r, d') -> steady d ->
  steady d' /\ internalTops (sq_tables d') = internalTops (sq_tables d).
Proof.
  unfold RequestWithdrawal. case_match; [by intros [= <- <-]|]. case_match; [by intros [= <- <-]|].
  case_match; [|by intros [= <- <-]]. case_match; [by intros [= <- <-]|]. case_match; [|by intros [= <- <-]].
  destruct (CreateWithOutbox _ _ d) as [r1 d1] eqn:Ec. intros E Hs. assert (d' = d1) as -> by (by destruct r1; simplify_eq).
  split; [by apply (transact_steady _ _ _ _ Ec)|].
  apply CreateWithOutbox_inv in Ec as [-> |(b & _ & Ht & _)]; [done|]. unfold internalTops. rewrite Ht, filter_app.
  rewrite (filter_none _ [_]); [by rewrite app_nil_r|]. by intros x ->%list_elem_of_singleton [? _].
Qed.

Lemma RequestTopUp_tops env tn req m d r d' : RequestTopUp env tn req m d = (r, d') -> steady d -> tu_Method req = "internal" ->
  steady d' /\ (internalTops (sq_tables d') = internalTops (sq_tables d)
    \/ is_ok r = true /\ exists a, internalTops (sq_tables d') = (internalTops (sq_tables d) ++ [a])%list
         /\ posKey a = (tn, tu_Currency req, tu_Location req) /\ px_CreatedAt a = qe_now env).
Proof.
  unfold RequestTopUp. case_match; [intros [= <- <-]; auto|]. case_match; [|intros [= <- <-]; auto]. case_match; [|intros [= <- <-]; auto].
  destruct (CreateWithOutbox _ _ d) as [r1 d1] eqn:Ec. intros E Hs Hi. assert (d' = d1 /\ is_ok r = is_ok r1) as [-> ->] by (by destruct r1; simplify_eq).
  destruct (transact_steady _ _ _ _ Ec Hs) as [Hs' Hok]. split; [done|].
  destruct (is_ok r1) eqn:Er; [|left; by rewrite Hok].
  apply CreateWithOutbox_inv in Ec as [-> |(b & _ & Ht & _)]; [by left|]. right. split; [done|]. eexists. unfold internalTops.
  rewrite Ht, filter_app. split; [f_equal; by rewrite filter_cons, decide_True by done|]. by split.
Qed.

Lemma notOnCooldown now recent id last : isOnCooldown now recent id = false -> recent !! id = Some last -> last + rebalanceCooldown <= now.
Proof. unfold isOnCooldown. intros H Hl. rewrite Hl in H. apply Z.ltb_ge in H. lia. Qed.

(** Setting a cooldown at a later instant keeps what is known. *)
Lemma limited_set x id now d : limited x -> x.2 <= now -> steady d -> internalTops (sq_tables d) = internalTops (sq_tables (rw_db x.1)) ->
  forall bus, limited ({| rw_db := d; rw_recent := setCooldown now id (rw_recent x.1); rw_bus := bus |}, now).
Proof.
  intros [H1 H2 H3] Hc Hs Ht bus. split; cbn; rewrite ?Ht; [done| |done]. intros a Ha. destruct (H2 a Ha) as [Hle Hor]. split; [lia|].
  destruct Hor as [?|(last & Hl & Hla)]; [left; lia|]. right. unfold setCooldown.
  destruct (decide (id = named (posKey a))) as [->|Hne]; [exists now; rewrite lookup_insert_eq; split; [done|lia]|].
  exists last. by rewrite lookup_insert_ne.
Qed.

Lemma limited_later x now d bus : limited x -> x.2 <= now -> steady d -> internalTops (sq_tables d) = internalTops (sq_tables (rw_db x.1)) ->
  limited ({| rw_db := d; rw_recent := rw_recent x.1; rw_bus := bus |}, now).
Proof.
  intros [H1 H2 H3] Hc Hs Ht. split; cbn; rewrite ?Ht; [done| |done]. intros a Ha. destruct (H2 a Ha) as [Hle Hor]. split; [lia|].
  destruct Hor as [?|?]; [left; lia|by right].
Qed.

Lemma limited_grow x id now d a bus : limited x -> x.2 <= now -> steady d ->
  internalTops (sq_tables d) = (internalTops (sq_tables (rw_db x.1)) ++ [a])%list ->
  px_CreatedAt a = now -> isOnCooldown now (rw_recent x.1) (named (posKey a)) = false ->
  limited ({| rw_db := d; rw_recent := setCooldown now (named (posKey a)) (setCooldown now id (rw_recent x.1)); rw_bus := bus |}, now).
Proof.
  intros H Hc Hs Ht Ha Hcool. pose proof H as [H1 H2 H3]. split; cbn; rewrite ?Ht; [done| |].
  - intros b [Hb|[= ->]%list_elem_of_singleton]%elem_of_app.
    + assert (limited ({| rw_db := rw_db x.1; rw_recent := setCooldown now (named (posKey a)) (setCooldown now id (rw_recent x.1)); rw_bus := bus |}, now))
        as [_ G _]; [|by apply G].
      refine (limited_set ({| rw_db := rw_db x.1; rw_recent := setCooldown now id (rw_recent x.1); rw_bus := bus |}, now) _ _ _ _ _ _ _ _);
        [by apply limited_set|done|done|done].
    + split; [lia|]. right. exists now. unfold setCooldown. rewrite lookup_insert_eq. split; [done|lia].
  - apply StronglySorted_app_2; [|done|by repeat constructor]. intros b c Hb ->%list_elem_of_singleton Hk. destruct (H2 b Hb) as [Hle [?|(last & Hl & Hla)]]; [lia|].
    rewrite Hk in Hl. pose proof (notOnCooldown _ _ _ _ Hcool Hl). lia.
Qed.

Lemma checkPosition_limited env m tn positions pos x : limited x -> x.2 <= be_now env -> qe_now (be_credit env) = be_now env ->
  pos_ID pos = named (tn, pos_Currency pos, pos_Location pos) -> limited (checkPosition publish env m tn positions pos x.1, be_now env).
Proof.
  intros H Hc Hq Hn. destruct x as [w clock]. cbn [fst snd] in *. pose proof (lm_steady _ H) as Hs. cbn in Hs.
  assert (limited (w, be_now env)) as Hidle by (destruct w as [db rc bus]; by apply (limited_later ({| rw_db := db; rw_recent := rc; rw_bus := bus |}, clock))).
  unfold checkPosition. case_match; [done|]. case_match; [done|]. destruct (isOnCooldown _ _ (pos_ID pos)) eqn:Hcool; [done|].
  case_match; [done|]. destruct (findSurplusPosition _ _ _ _ _) as [source|].
  - unfold triggerRebalance. destruct (RequestWithdrawal _ _ _ m _) as [r1 d1] eqn:E1. destruct (RequestWithdrawal_tops _ _ _ _ _ _ _ E1 Hs) as [Hs1 Ht1].
    destruct r1 as [tx1|e]; [|by apply (limited_later (w, clock))].
    destruct (RequestTopUp _ _ _ m d1) as [r2 d2] eqn:E2. destruct (RequestTopUp_tops _ _ _ _ _ _ _ E2 Hs1 eq_refl) as [Hs2 Hor].
    destruct r2 as [tx2|e].
    + destruct Hor as [Ht2|(_ & a & Ht2 & Hk & Hcr)].
      * refine (limited_set ({| rw_db := d2; rw_recent := setCooldown (be_now env) (pos_ID source) (rw_recent w); rw_bus := rw_bus w |}, be_now env) _ _ _ _ _ _ _ _);
          [|done|done|done]. apply (limited_set (w, clock)); [done|done|done|cbn; congruence].
      * rewrite Hn. cbn in Hk. rewrite <- Hk. apply (limited_grow (w, clock)); [done|done|done|cbn; congruence|congruence|]. by rewrite Hk, <- Hn.
    + destruct Hor as [Ht2|[? _]]; [|done]. apply (limited_later (w, clock)); [done|done|done|cbn; congruence].
  - by apply (limited_set (w, clock)).
Qed.

Lemma rstep_limited x y : limited x -> rstep x y -> limited y.
Proof.
  intros H Hst. revert H. destruct Hst as [env m tn positions pos w clock Hc Hq Hn|now w clock Hc|d w clock Hs Ht]; intros H.
  - exact (checkPosition_limited env m tn positions pos (w, clock) H Hc Hq Hn).
  - pose proof H as [H1 H2 H3]. split; [done| |done]. cbn. intros a Ha. destruct (H2 a Ha) as [Hle Hor]. cbn in *. split; [lia|].
    destruct Hor as [?|(last & Hl & Hla)]; [left; lia|]. destruct (decide (now - last <= rebalanceCooldown * 2)) as [Hk|Hk].
    + right. exists last. split; [|done]. unfold cleanupCooldowns. by apply map_lookup_filter_Some_2.
    + left. unfold rebalanceCooldown in *. lia.
  - apply (limited_later (w, clock)); [done|cbn; lia|done|done].
Qed.

(** While no commit goes unheard: whatever the checks of the worker meet,
    however tenants, balances and other transactions change in between, two
    internal top-ups of one position are at least the cooldown apart. *)
Theorem rebalance_rate_limited w clock w' clock' a b i j :
  steady (rw_db w) -> internalTops (sq_tables (rw_db w)) = [] -> rtc rstep (w, clock) (w', clock') ->
  internalTops (sq_tables (rw_db w')) !! i = Some a -> internalTops (sq_tables (rw_db w')) !! j = Some b -> (i < j)%nat ->
  posKey a = posKey b -> px_CreatedAt a + rebalanceCooldown <= px_CreatedAt b.
Proof.
  intros Hs Hnone Hr Hi Hj Hij. assert (limited (w, clock)) as H0.
  { split; cbn; rewrite ?Hnone; [done| |constructor]. by intros x []%not_elem_of_nil. }
  assert (limited (w', clock')) as [_ _ H] by exact (invariant_rtc _ _ rstep_limited _ _ Hr H0).
  cbn in H. by apply (sorted_lookup _ _ i j a b H).
Qed.
End RateLimit.

(** ** What a rebalance does to the treasury *)

Section Books.
Context {L : ThirdParty} {LL : ThirdPartyLaws L} {S B : Type} `{TS : !TreasuryStore S}.
Implicit Types (m : Manager S) (w : RebalanceWorker (B := B)).

(** The money on all positions. *)
Definition money (a : gmap positionKey counters) : Z := map_fold (fun _ k n => c_bal k + n) 0 a.

Lemma money_insert_new (key : positionKey) (k : counters) (a : gmap positionKey counters) : a !! key = None -> money (<[key := k]> a) = c_bal k + money a.
Proof. intros H. unfold money. by rewrite map_fold_insert_L by (done || intros; lia). Qed.

Lemma money_insert (key : positionKey) (k k' : counters) (a : gmap positionKey counters) : a !! key = Some k -> money (<[key := k']> a) = money a - c_bal k + c_bal k'.
Proof.
  intros H. rewrite <- (insert_delete_id a key k H) at 2. rewrite <- (insert_delete_eq a key k').
  rewrite !money_insert_new by apply lookup_delete_eq. lia.
Qed.

(** The calls of the worker for the two intents. *)
Definition debitCall (p : PositionDebitPayload) : TreasuryProps.Call :=
  Build_Call OpDebit (pdp_TenantID p) (pdp_Currency p) (pdp_Location p) (pdp_Amount p) (pdp_Reference p) (pdp_RefType p).
Definition creditCall (p : PositionCreditPayload) : TreasuryProps.Call :=
  Build_Call OpCredit (pcp_TenantID p) (pcp_Currency p) (pcp_Location p) (pcp_Amount p) (pcp_Reference p) (pcp_RefType p).

Lemma debitCall_worker {J V C} (js : Json J V) (pub : Event ResultData -> C -> result unit * C) we event (x : Worker (S := S) C) p :
  ev_Type _ event = IntentPositionDebit -> unmarshalDebit js event = Ok p ->
  wk_treasury _ (handleEvent js pub we event x).2 = (run (we_env we) (debitCall p) (wk_treasury _ x)).2.
Proof.
  intros Ht Hu. rewrite handleEvent_run. unfold event_call. rewrite Ht. cbn. by rewrite Hu.
Qed.

Lemma creditCall_worker {J V C} (js : Json J V) (pub : Event ResultData -> C -> result unit * C) we event (x : Worker (S := S) C) p :
  ev_Type _ event = IntentPositionCredit -> unmarshalCredit js event = Ok p ->
  wk_treasury _ (handleEvent js pub we event x).2 = (run (we_env we) (creditCall p) (wk_treasury _ x)).2.
Proof.
  intros Ht Hu. rewrite handleEvent_run. unfold event_call. rewrite Ht. cbn. by rewrite Hu.
Qed.

(** Both requests of a rebalance were accepted. *)
Definition accepted (env : BEnv) m (tn : UUID) (source dest : Position) (amount : Decimal) w : Prop :=
  let '(r, d) := RequestWithdrawal (be_debit env) tn (withdrawalOf source dest amount) m (rw_db w) in
  is_ok r = true /\ is_ok (RequestTopUp (be_credit env) tn (topUpOf dest amount) m d).1 = true.

Definition debitOf (env : BEnv) (tn : UUID) (source dest : Position) (amount : Decimal) : PositionDebitPayload :=
  debitPayload (be_debit env) tn (withdrawalOf source dest amount).
Definition creditOf (env : BEnv) (tn : UUID) (dest : Position) (amount : Decimal) : PositionCreditPayload :=
  creditPayload (be_credit env) tn (topUpOf dest amount).

Lemma request_entry tx e d r d' : CreateWithOutbox tx [e] d = (r, d') -> is_ok r = true ->
  pn_outbox (sq_tables d') = (pn_outbox (sq_tables d) ++ [outboxRow e])%list.
Proof.
  intros E Hr. apply transact_inv in E as [(_ & Hf & _)|([] & Hf & _)]; [by rewrite Hr in Hf|].
  destruct (wrap _ (insertTx _ _)); [|done]. destruct (wrap _ (insertEntries _ _ _)) as [ob|] eqn:E2; [|done].
  apply wrap_ok, insertEntries_one in E2 as ->. injection Hf as Hf. by rewrite <- Hf.
Qed.

Lemma accepted_intents env m tn source dest amount w : accepted env m tn source dest amount w ->
  map oe_Payload (pn_outbox (sq_tables (rw_db (triggerRebalance env m tn source dest amount w))))
  = (map oe_Payload (pn_outbox (sq_tables (rw_db w)))
     ++ [PPositionDebit (debitOf env tn source dest amount); PPositionCredit (creditOf env tn dest amount)])%list.
Proof.
  unfold accepted, triggerRebalance. destruct (RequestWithdrawal _ _ _ m _) as [r1 d1] eqn:E1. intros [H1 H2].
  destruct r1 as [tx1|]; [|done]. destruct (RequestTopUp _ _ _ m d1) as [r2 d2] eqn:E2. destruct r2 as [tx2|]; [|done]. cbn.
  unfold RequestWithdrawal in E1. case_match; [done|]. case_match; [done|]. case_match; [|done]. case_match; [done|].
  destruct (NewOutboxIntent _ _ _ _ _ _ _) as [e1|] eqn:Ee1; [|done]. injection Ee1 as <-.
  destruct (CreateWithOutbox _ _ (rw_db w)) as [u1 d1'] eqn:C1. destruct u1; [|done]. injection E1 as <- <-.
  unfold RequestTopUp in E2. case_match; [done|]. case_match; [|done].
  destruct (NewOutboxIntent _ _ _ _ _ _ _) as [e2|] eqn:Ee2; [|done]. injection Ee2 as <-.
  destruct (CreateWithOutbox _ _ d1') as [u2 d2'] eqn:C2. destruct u2; [|done]. injection E2 as <- <-.
  rewrite (request_entry _ _ _ _ _ C2 eq_refl), (request_entry _ _ _ _ _ C1 eq_refl), !map_app. cbn. by rewrite <- app_assoc.
Qed.

(** One delivery: nothing, or the amount added to or taken from the money. *)
Lemma call_money e c m : wf m -> all_solvent m -> headroom (Z.max 0 (micro (cl_amount c))) m -> cl_op c = OpCredit \/ cl_op c = OpDebit ->
  abs (run e c m).2 <> abs m ->
  0 <= micro (cl_amount c)
  /\ money (abs (run e c m).2) = money (abs m) + (match cl_op c with OpCredit => micro (cl_amount c) | _ => - micro (cl_amount c) end).
Proof.
  intros W Hs Hh Hop Hmv. destruct (run e c m) as [r m'] eqn:Hrun. cbn in *.
  destruct (run_simulates e c m r m' 0 W Hs) as [[HA _]|(_ & _ & Ha & k & k' & Hk & Hsk & Hf & HA)]; [done| |done|done|].
  { intros key k Hk. specialize (Hh key k Hk). destruct (cl_op c); cbn in *; lia. }
  split; [done|]. rewrite HA, (money_insert _ k) by done. destruct k as [b l x]. destruct Hop as [Hop|Hop]; rewrite Hop in *; cbn in Hf; simplify_eq/=; [lia|].
  case_match; simplify_eq/=. lia.
Qed.

Lemma debit_refused e c m k : wf m -> all_solvent m -> cl_op c = OpDebit -> abs m !! call_key c = Some k -> available k < micro (cl_amount c) ->
  abs (run e c m).2 = abs m.
Proof.
  intros W Hs Hop Hk Hlt. destruct (run e c m) as [r m'] eqn:Hrun. cbn.
  destruct (run_simulates e c m r m' 0 W Hs) as [[HA _]|(_ & _ & _ & k0 & k' & Hk0 & _ & Hf & _)]; [lia| |done|done|].
  - intros key x Hx. destruct (abs_range m key x W Hx) as ([_ ?] & _). rewrite Hop. lia.
  - rewrite Hop in Hf. assert (k0 = k) as -> by congruence. destruct k as [b l x]. cbn in *. apply Z.ltb_lt in Hlt. by rewrite Hlt in Hf.
Qed.

(** A rebalance whose two intents take effect moves the deficit: the outbox
    has a debit of the source and a credit of the destination with the same
    amount, and when each has moved the books, at whatever instants and in
    whatever state the treasury is by then, the money on all positions is what
    it was. *)
Theorem rebalance_conserves env m tn source dest amount w m' e1 e2 :
  let p := debitOf env tn source dest amount in let q := creditOf env tn dest amount in
  let m1 := (run e1 (debitCall p) m').2 in let m2 := (run e2 (creditCall q) m1).2 in
  accepted env m tn source dest amount w -> wf m' -> all_solvent m' -> headroom (Z.max 0 (micro amount)) m' ->
  abs m1 <> abs m' -> abs m2 <> abs m1 ->
  map oe_Payload (pn_outbox (sq_tables (rw_db (triggerRebalance env m tn source dest amount w))))
  = (map oe_Payload (pn_outbox (sq_tables (rw_db w))) ++ [PPositionDebit p; PPositionCredit q])%list
  /\ money (abs m2) = money (abs m').
Proof.
  intros p q m1 m2 Hacc W Hs Hh H1 H2. split; [by apply accepted_intents|].
  assert (cl_op (debitCall p) <> OpCredit) as Hno by done.
  destruct (moved_applies _ _ _ W Hs Hno H1) as (W1 & Hs1 & k & k' & Hk & Hf & HA).
  destruct (call_money e1 (debitCall p) m' W Hs Hh (or_intror eq_refl) H1) as [Hpos E1].
  assert (headroom (Z.max 0 (micro amount)) m1) as Hh1.
  { unfold headroom in *. fold m1 in HA. rewrite HA. apply map_Forall_insert_2; [|done]. specialize (Hh _ _ Hk).
    destruct k as [b l x]. cbn in Hf, Hpos. repeat case_match; simplify_eq/=; cbn in Hh |- *; lia. }
  destruct (call_money e2 (creditCall q) m1 W1 Hs1 Hh1 (or_introl eq_refl) H2) as [_ E2]. fold m1 m2 in E1, E2. cbn in E1, E2. lia.
Qed.

(** C39: The credit does not wait for the debit.  If the source no longer has the
    amount when the worker gets to the intents, the debit is refused and the
    destination is credited all the same: the money grows by the amount.  This
    of a treasury that is solvent and has room for the amount, in which the
    destination has a position, the credit has not been delivered before and
    its log write and its flush are answered. *)
Theorem rebalance_creates_money env m tn source dest amount w m' e1 e2 k kd :
  let p := debitOf env tn source dest amount in let q := creditOf env tn dest amount in
  let m1 := (run e1 (debitCall p) m').2 in let m2 := (run e2 (creditCall q) m1).2 in
  accepted env m tn source dest amount w -> wf m' -> all_solvent m' -> headroom (Z.max 0 (micro amount)) m' ->
  abs m' !! (tn, pos_Currency source, pos_Location source) = Some k -> available k < micro amount ->
  abs m' !! (tn, pos_Currency dest, pos_Location dest) = Some kd ->
  ~ held (call_idem (creditCall q)) m' -> serves e2 (creditCall q) m1 ->
  map oe_Payload (pn_outbox (sq_tables (rw_db (triggerRebalance env m tn source dest amount w))))
  = (map oe_Payload (pn_outbox (sq_tables (rw_db w))) ++ [PPositionDebit p; PPositionCredit q])%list
  /\ abs m1 = abs m'
  /\ abs m2 = <[(tn, pos_Currency dest, pos_Location dest) := Cnt (c_bal kd + micro amount) (c_lock kd) (c_res kd)]> (abs m')
  /\ money (abs m2) = money (abs m') + micro amount.
Proof.
  intros p q m1 m2 Hacc W Hs Hh Hk Hlt Hkd Hnew Hsv. split; [by apply accepted_intents|].
  assert (abs m1 = abs m') as HA by (by apply (debit_refused e1 (debitCall p) m' k)).
  assert (wf m1) as W1 by (by eapply run_wf, surjective_pairing).
  assert (all_solvent m1) as Hs1 by (unfold all_solvent; by rewrite HA).
  assert (headroom (Z.max 0 (micro amount)) m1) as Hh1 by (unfold headroom; by rewrite HA).
  assert (~ held (call_idem (creditCall q)) m1) as Hnew1.
  { intros [Hh'|He]%run_keys; [by apply Hnew|]. unfold call_idem in He. apply idempotencyKey_inj in He as [_ He]. done. }
  assert (abs m1 !! call_key (creditCall q) = Some kd) as Hkd1 by (by rewrite HA).
  assert (exists k', call_f (creditCall q) kd = Some k') as [k' Hf] by (by eexists).
  pose proof (run_served e2 (creditCall q) m1 kd k' W1 Hsv Hkd1 Hf) as Hok. destruct (run e2 (creditCall q) m1) as [r m2'] eqn:Hrun.
  cbn in Hok. subst r m2. cbn. destruct (run_simulates e2 (creditCall q) m1 (Ok tt) m2' 0 W1 Hs1) as [[_ Hheld]|(_ & _ & _ & k0 & k1 & Hk0 & _ & Hf1 & HA2)];
    [done| |done|by destruct (Hnew1 (Hheld eq_refl))|].
  { intros key x Hx. specialize (Hh1 key x Hx). cbn in *. lia. }
  rewrite Hkd1 in Hk0. injection Hk0 as <-. destruct kd as [b l x]. cbn in Hf1. injection Hf1 as <-. split; [done|]. rewrite HA2, HA. split; [done|].
  rewrite (money_insert _ (Cnt b l x)) by done. cbn. lia.
Qed.
End Books.
End PositionProps.

(** ** A rebalance, run *)

Module PositionRuns.
Import QInstance TreasuryAdapter Positions PositionProps.

Definition row (id : ascii) (location : string) (balance min target : Q) : Position :=
  {| pos_ID := id; pos_TenantID := "t"%char; pos_Currency := "GBP"; pos_Location := location; pos_Balance := balance; pos_Locked := 0%Q;
     pos_MinBalance := min; pos_TargetBalance := target; pos_UpdatedAt := 0 |}.

(** 5000 on one position, 10 on another that should have 200. *)
Definition rich : Position := row "p" "bank:gbp" (5000 # 1) 0 0.
Definition poor : Position := row "q" "mobile:gbp" (10 # 1) (100 # 1) (200 # 1).

Definition boot : Manager TDB := set_store CrashWitness.boot
  {| td_positions := [rich; poor]; td_history := []; td_ops := []; td_events := []; td_clock := 0; td_outcomes := []; td_readable := true |}.

Definition live : Manager TDB := CrashWitness.restarted boot.

Lemma rows_recoverable : recoverable boot [].
Proof.
  split.
  - split; [done| | |].
    + intros key p. simpl. by rewrite lookup_empty.
    + intros p c. unfold counters_at. simpl. by rewrite lookup_empty.
    + intros p. simpl. rewrite lookup_empty. by intros [].
  - reflexivity.
  - repeat constructor; vm_compute; congruence.
  - apply (bool_decide_eq_true_1 (NoDup _)). vm_compute. reflexivity.
  - vm_compute. reflexivity.
  - vm_compute. reflexivity.
  - split; [by eexists|vm_compute; reflexivity].
  - constructor.
  - constructor.
  - by apply (bool_decide_eq_true_1 (map_Forall _ (books_of (TreasurySync.rows (mg_store boot))))); vm_compute.
Qed.

Lemma rows_started : LoadPositions (CrashWitness.env 0) 1 boot = Some (Ok tt, live).
Proof. apply CrashWitness.started_eq. vm_compute. reflexivity. Qed.

Lemma two_rows_ok : wf live /\ all_solvent live.
Proof.
  destruct (LoadPositions_books (CrashWitness.env 0) 1 boot [] rows_recoverable) as (m' & HL & W & Hs & _); [vm_compute; lia|].
  rewrite rows_started in HL. by injection HL as <-.
Qed.

Definition db (correlation : bool) (out : nat -> Outcome) : Sql PosTables :=
  {| sq_tables := {| pn_txs := []; pn_outbox := []; pn_correlation := correlation |}; sq_calls := 0;
     sq_world n := {| c_now := Z.of_nat n; c_out := out n; c_ids _ := None |} |}.

Definition allDone (_ : nat) : Outcome := Done.

(** The k-th check, minutes apart. *)
Definition qenv (now : Z) (k : nat) : QEnv :=
  {| qe_snap := now; qe_now := now; qe_txID := ascii_of_nat (100 + k); qe_entryID := ascii_of_nat (150 + k); qe_entryNow := now |}.
Definition benv (minute : Z) (k : nat) : BEnv :=
  let now := minute * 60000000000 in {| be_now := now; be_debit := qenv now (2 * k); be_credit := qenv now (2 * k + 1) |}.

Definition publish (tn : UUID) (p : Position) (b : list UUID) : result unit * list UUID := (Ok tt, (b ++ [pos_ID p])%list).

Definition worker (d : Sql PosTables) : RebalanceWorker (B := list UUID) := {| rw_db := d; rw_recent := ∅; rw_bus := [] |}.

Definition envs (minute : Z) (k : nat) (i : nat) : BEnv := benv minute (2 * k + i).
Definition check (minute : Z) (k : nat) : RebalanceWorker (B := list UUID) -> RebalanceWorker := checkTenant publish (envs minute k) 0 live "t"%char.

Definition requests (w : RebalanceWorker (B := list UUID)) : list (PositionTxType * string * Q) :=
  map (fun x => (px_Type x, px_Location x, px_Amount x)) (pn_txs (sq_tables (rw_db w))).

(** The deficit is asked for once; four minutes later the positions rest. *)
Example deficit_is_moved : requests (check 4 1 (check 0 0 (worker (db true allDone))))
  = [(TxWithdrawal, "bank:gbp", 190 # 1); (TxTopUp, "mobile:gbp", 190 # 1)]%Q.
Proof. vm_compute. reflexivity. Qed.

(** With the tables of the migrations no request is ever written. *)
Lemma shipped_outbox_takes_no_request : requests (check 0 0 (worker (db false allDone))) = [].
Proof. vm_compute. reflexivity. Qed.

(** Where the top-up fails the source is debited again at every check. *)
Definition oddFails (n : nat) : Outcome := if Nat.even n then Done else CallFailed (MsgErr "connection lost").

Lemma failed_topup_debits_again : requests (check 1 1 (check 0 0 (worker (db true oddFails))))
  = [(TxWithdrawal, "bank:gbp", 190 # 1); (TxWithdrawal, "bank:gbp", 190 # 1)]%Q.
Proof. vm_compute. reflexivity. Qed.

(** Where the commit of a top-up goes unheard the position is topped up again. *)
Definition oddLost (n : nat) : Outcome := if Nat.even n then Done else CallLost (MsgErr "connection lost").

Lemma lost_commit_tops_up_again : map snd (requests (check 1 1 (check 0 0 (worker (db true oddLost))))) = [190 # 1; 190 # 1; 190 # 1; 190 # 1]%Q.
Proof. vm_compute. reflexivity. Qed.

(** Two results for one transaction that cross: the later one wins. *)
Definition said (ok : bool) : IntentResult :=
  {| ir_Success := ok; ir_ProviderRef := ""; ir_TxHash := ""; ir_Error := ""; ir_ErrorCode := ""; ir_Metadata := ∅ |}.

Definition asked : Sql PosTables := rw_db (check 0 0 (worker (db true allDone))).
Definition debitTx : UUID := ascii_of_nat 102.
Definition final : Sql PosTables :=
  (UpdateStatus debitTx "t"%char (outcome "x" (said false)).1 (outcome "x" (said false)).2 (HandleDebitResult "t"%char debitTx (said true) asked).2).2.

Lemma crossed_results_overwrite :
  map px_Status (pn_txs (sq_tables (HandleDebitResult "t"%char debitTx (said true) asked).2)) = [TxCompleted; TxProcessing]
  /\ map px_Status (pn_txs (sq_tables final)) = [TxFailed; TxProcessing].
Proof. split; vm_compute; reflexivity. Qed.

(** ** The theorems at these runs *)

Definition withdrawn : Sql PosTables :=
  (RequestWithdrawal (qenv 0 2) "t"%char (withdrawalOf rich poor (190 # 1)) live (db true allDone)).2.

Definition settledDB : Sql PosTables := (HandleDebitResult "t"%char debitTx (said true) withdrawn).2.

Lemma withdrawn_inv : sysInv (L := Qlib) {| ys_db := settledDB; ys_jobs := [] |}.
Proof.
  assert (sysInv (L := Qlib) {| ys_db := db true allDone; ys_jobs := [] |}) as H0.
  { split; [|constructor]. split; [constructor|]. by intros x []%not_elem_of_nil. }
  refine (invariant_rtc (qstep (S := TDB)) sysInv (fun y y' H Hs => proj1 (qstep_inv y y' H Hs)) _ _ _ H0).
  eapply rtc_l; [apply (q_withdraw _ (qenv 0 2) "t"%char (withdrawalOf rich poor (190 # 1)) live)|apply handleResult_steps].
  split; apply not_elem_of_nil.
Qed.

(** The withdrawal is completed; a result that says otherwise comes too late. *)
Definition late : Sql PosTables := (HandleDebitResult "t"%char debitTx (said false) settledDB).2.

Lemma position_tx_one_intent_witness :
  posInv (sq_tables late)
  /\ forall tx, tx ∈ pn_txs (sq_tables settledDB) -> decided (px_Status tx) ->
       tx ∈ pn_txs (sq_tables late).
Proof.
  destruct (position_tx_one_intent (L := Qlib) (S := TDB) {| ys_db := settledDB; ys_jobs := [] |}
    {| ys_db := late; ys_jobs := [] |} withdrawn_inv (handleResult_steps _ _ _ _ _ _)) as (H1 & _ & H2 & _).
  split; [exact H1|]. intros tx Hin Hd. apply H2; [exact Hin|exact Hd|]. constructor.
Defined.

Definition poorKey : positionKey := ("t"%char, "GBP", "mobile:gbp").

Definition idOf (key : positionKey) : UUID := if String.eqb key.2 "mobile:gbp" then "q"%char else "p"%char.

Definition first : RebalanceWorker (B := list UUID) := checkPosition publish (benv 0 1) live "t"%char [rich; poor] poor (worker (db true allDone)).
Definition second : RebalanceWorker (B := list UUID) := checkPosition publish (benv 6 2) live "t"%char [rich; poor] poor first.

Lemma rebalance_rate_limited_witness : exists a b, internalTops (sq_tables (rw_db second)) !! 0%nat = Some a
  /\ internalTops (sq_tables (rw_db second)) !! 1%nat = Some b /\ px_CreatedAt a + rebalanceCooldown <= px_CreatedAt b.
Proof.
  destruct (fmap_view posKey (internalTops (sq_tables (rw_db second)) !! 0%nat) poorKey) as (a & Ha & Ka);
    [vm_compute; reflexivity|].
  destruct (fmap_view posKey (internalTops (sq_tables (rw_db second)) !! 1%nat) poorKey) as (b & Hb & Kb);
    [vm_compute; reflexivity|].
  exists a, b. split; [exact Ha|]. split; [exact Hb|].
  refine (rebalance_rate_limited publish idOf (worker (db true allDone)) 0 second (be_now (benv 6 2)) a b 0 1 _ _ _ Ha Hb _ (eq_trans Ka (eq_sym Kb))).
  - intros n e. discriminate.
  - reflexivity.
  - eapply rtc_l; [apply (r_check _ _ (benv 0 1) live "t"%char [rich; poor] poor); [cbn; lia|reflexivity|reflexivity]|].
    apply rtc_once, (r_check _ _ (benv 6 2) live "t"%char [rich; poor] poor first); [cbn; lia|reflexivity|reflexivity].
  - lia.
Defined.

Definition balanceOf (location : string) (m : Manager TDB) : option counters := abs m !! ("t"%char, "GBP", location).

Lemma balance_moved location (m m' : Manager TDB) k k' : balanceOf location m = Some k -> balanceOf location m' = Some k' -> k <> k' -> abs m' <> abs m.
Proof. unfold balanceOf. congruence. Qed.

Lemma live_room a : bool_decide (headroom a live) = true -> headroom a live.
Proof. apply bool_decide_eq_true_1. Qed.

Definition theDebit : TreasuryProps.Call := debitCall (debitOf (benv 0 1) "t"%char rich poor (190 # 1)).
Definition theCredit : TreasuryProps.Call := creditCall (creditOf (benv 0 1) "t"%char poor (190 # 1)).

Lemma rebalance_conserves_witness :
  money (abs (run (CrashWitness.env 2) theCredit (run (CrashWitness.env 1) theDebit live).2).2) = money (abs live).
Proof.
  refine (proj2 (rebalance_conserves (LL := Qlib_laws) (benv 0 1) live "t"%char rich poor (190 # 1) (worker (db true allDone)) live
    (CrashWitness.env 1) (CrashWitness.env 2) _ (proj1 two_rows_ok) (proj2 two_rows_ok) _ _ _)).
  - vm_compute. split; reflexivity.
  - apply live_room. vm_compute. reflexivity.
  - apply (balance_moved "bank:gbp" _ _ (Cnt 5000000000 0 0) (Cnt 4810000000 0 0)); [vm_compute; reflexivity|vm_compute; reflexivity|discriminate].
  - apply (balance_moved "mobile:gbp" _ _ (Cnt 10000000 0 0) (Cnt 200000000 0 0)); [vm_compute; reflexivity|vm_compute; reflexivity|discriminate].
Defined.

(** By the time the worker gets to the intents, 4900 of the 5000 are reserved. *)
Definition hold : TreasuryProps.Call (L := Qlib) := Build_Call OpReserve "t"%char "GBP" "bank:gbp" (4900 # 1)%Q "z"%char "".
Definition busy : Manager TDB := (run (CrashWitness.env 1) hold live).2.

Lemma busy_ok : wf busy /\ all_solvent busy /\ headroom (Z.max 0 (micro (L := Qlib) (190 # 1))) busy.
Proof.
  destruct two_rows_ok as [W Hs]. destruct (moved_applies (LL := Qlib_laws) (CrashWitness.env 1) hold live W Hs) as (W1 & Hs1 & _); [done| |].
  - apply (balance_moved "bank:gbp" _ _ (Cnt 5000000000 0 0) (Cnt 5000000000 0 4900000000)); [vm_compute; reflexivity|vm_compute; reflexivity|discriminate].
  - split_and!; [exact W1|exact Hs1|]. apply (bool_decide_eq_true_1 (headroom _ busy)). vm_compute. reflexivity.
Qed.

Lemma rebalance_creates_money_witness :
  money (abs (run (CrashWitness.env 3) theCredit (run (CrashWitness.env 2) theDebit busy).2).2) = money (abs busy) + 190000000.
Proof.
  destruct busy_ok as (W & Hs & Hh).
  destruct (rebalance_creates_money (LL := Qlib_laws) (benv 0 1) live "t"%char rich poor (190 # 1) (worker (db true allDone)) busy
    (CrashWitness.env 2) (CrashWitness.env 3) (Cnt 5000000000 0 4900000000) (Cnt 10000000 0 0)) as (_ & _ & _ & H);
    [| exact W | exact Hs | exact Hh | | | | | | exact H].
  - vm_compute. split; reflexivity.
  - vm_compute. reflexivity.
  - vm_compute. reflexivity.
  - vm_compute. reflexivity.
  - apply (bool_decide_eq_false_1 (held _ busy)). vm_compute. reflexivity.
  - split.
    + vm_compute. reflexivity.
    + vm_compute. reflexivity.
    + vm_compute. reflexivity.
    + left. vm_compute. reflexivity.
    + split; [intros log op [= <-]; eexists; split; [vm_compute; reflexivity|intros id b l; vm_compute; reflexivity]
             |intros id b l; vm_compute; reflexivity].
Defined.
End PositionRuns.
