(* ===== verification/ChainMonitor.v ===== *)
(** * node: the chain monitor

    Models src/node/chainmonitor: the watched addresses and tokens
    (address_set.go, token_registry.go), the checkpoints (checkpoint.go), one
    poll of an EVM chain or of Tron (evm_poller.go, tron_poller.go), the
    synchronisation of the sets (monitor.go) and the calls of the clients over
    several endpoints (rpc/failover.go, the block ranges of rpc/eth_client.go);
    with src/store/transferdb/chainmonitor_adapters.go.

    The endpoints are services: what they answer during a poll is an argument
    ([EVMClient], [TronClient]).  The orders in which Go walks the maps are
    arguments too.  Logging, and the reorganisation check, which only logs, are
    left out. *)

From stdpp Require Import sorting.
From S2P Require Import Prelude ThirdParty GoNumbers Sql Money Deposits Transfer Outbox Messaging TransferStore DepositStore.
Local Open Scope string_scope.
Local Open Scope Z_scope.

Module ChainMonitor.
Import Messaging DepositAdapter.

(** ** Watched addresses *)

Record AddressInfo := { ad_Chain : string; ad_Address : string; ad_TenantID : string }.

(** The map behind the mutex, and the snapshot that pollers read. *)
Record AddressSet := { as_mutable : gmap string AddressInfo; as_snapshot : gmap string AddressInfo }.

Definition NewAddressSet : AddressSet := {| as_mutable := ∅; as_snapshot := ∅ |}.

Definition addressKey (chain address : string) : string := chain +:+ ":" +:+ address.

Definition addInfo (m : gmap string AddressInfo) (info : AddressInfo) : gmap string AddressInfo :=
  <[addressKey (ad_Chain info) (ad_Address info) := info]> m.

Definition Add (info : AddressInfo) (s : AddressSet) : AddressSet :=
  {| as_mutable := addInfo (as_mutable s) info; as_snapshot := as_snapshot s |}.

Definition Publish (s : AddressSet) : AddressSet := {| as_mutable := as_mutable s; as_snapshot := as_mutable s |}.

Definition Replace (addresses : list AddressInfo) (s : AddressSet) : AddressSet :=
  Publish {| as_mutable := foldl addInfo ∅ addresses; as_snapshot := as_snapshot s |}.

Definition Lookup (chain address : string) (s : AddressSet) : option AddressInfo := as_snapshot s !! addressKey chain address.

(** ** Watched tokens *)

Record Token := { tk_Chain : CryptoChain; tk_ContractAddress : string; tk_Decimals : Z; tk_IsActive : bool }.

Record tokenMap := { tm_byContract : gmap string Token; tm_byChain : gmap string (list Token) }.

Definition tokenKey (chain contractAddress : string) : string := chain +:+ ":" +:+ ToLower contractAddress.

Definition addToken (m : tokenMap) (t : Token) : tokenMap :=
  if negb (tk_IsActive t) then m
  else {| tm_byContract := <[tokenKey (tk_Chain t) (tk_ContractAddress t) := t]> (tm_byContract m);
          tm_byChain := <[tk_Chain t := (default [] (tm_byChain m !! tk_Chain t) ++ [t])%list]> (tm_byChain m) |}.

Definition Reload (tokens : list Token) : tokenMap := foldl addToken {| tm_byContract := ∅; tm_byChain := ∅ |} tokens.

Definition LookupByContract (chain contractAddress : string) (m : tokenMap) : option Token :=
  tm_byContract m !! tokenKey chain contractAddress.

Definition TokensForChain (chain : string) (m : tokenMap) : list Token := default [] (tm_byChain m !! chain).

Definition ContractAddresses (chain : string) (m : tokenMap) : list string := map tk_ContractAddress (TokensForChain chain m).

(** ** Endpoints with failover *)

Section Failover.

(** The failures in a row and the instant the circuit opened; 0: closed. *)
Record RPCProvider := { rp_Name : string; rp_failures : Z; rp_openedAt : Z }.

Definition rpcFailureThreshold : Z := 5.
Definition rpcResetTimeout : Z := 30000.

(** Instants are in milliseconds here. *)
Definition IsAvailable (now : Z) (p : RPCProvider) : bool :=
  if rp_openedAt p =? 0 then true else rpcResetTimeout <=? now - rp_openedAt p.

Definition RecordSuccess (p : RPCProvider) : RPCProvider := {| rp_Name := rp_Name p; rp_failures := 0; rp_openedAt := 0 |}.

Definition RecordFailure (now : Z) (p : RPCProvider) : RPCProvider :=
  let f := add64 (rp_failures p) 1 in
  {| rp_Name := rp_Name p; rp_failures := f; rp_openedAt := if rpcFailureThreshold <=? f then now else rp_openedAt p |}.

(** [op name] is what the endpoint answers; the providers are returned as the
    call leaves them, with the last error. *)
Fixpoint tryProviders {A} (now : Z) (op : string -> result A) (ps : list RPCProvider) (lastErr : option error)
  : result A * list RPCProvider :=
  match ps with
  | [] => (Err (match lastErr with
                | Some e => WrapErr "settla-rpc: all providers failed" e
                | None => MsgErr "settla-rpc: no available providers"
                end), [])
  | p :: ps =>
      if negb (IsAvailable now p) then let '(r, ps) := tryProviders now op ps lastErr in (r, p :: ps)
      else match op (rp_Name p) with
           | Ok a => (Ok a, RecordSuccess p :: ps)
           | Err e => let '(r, ps) := tryProviders now op ps (Some e) in (r, RecordFailure now p :: ps)
           end
  end.

Definition ExecuteFailover {A} (now : Z) (op : string -> result A) (ps : list RPCProvider) : result A * list RPCProvider :=
  tryProviders now op ps None.
End Failover.

(** ** Polls *)

Section Polls.
Context {L : ThirdParty}.
Abbreviation DB := (Sql Tables).

Record ChainConfig := { cfg_Chain : string; cfg_Confirmations : Z; cfg_ReorgDepth : Z }.

Record CheckpointRow := { cp_Chain : string; cp_BlockNumber : Z; cp_BlockHash : string }.

Definition isChain (chain : string) (r : CheckpointRow) : bool := String.eqb (cp_Chain r) chain.

(** No checkpoint is block 0. *)
Definition Load (chain : string) (d : Sql (list CheckpointRow)) : result (Z * string) * Sql (list CheckpointRow) :=
  query (fun _ t => Ok match filter (fun r => isChain chain r = true) t with
                       | r :: _ => (cp_BlockNumber r, cp_BlockHash r)
                       | [] => (0, "")
                       end) d.

(** The insert names no id; an id the server does not assign violates the
    column, whether or not the chain is there already. *)
Definition Save (chain : string) (blockNumber : Z) (blockHash : string) : Sql (list CheckpointRow) -> result unit * Sql (list CheckpointRow) :=
  transact (fun c t =>
    match c_ids c 0%nat with
    | None => Err notNull
    | Some _ =>
        let row := {| cp_Chain := chain; cp_BlockNumber := blockNumber; cp_BlockHash := blockHash |} in
        Ok (tt, if existsb (isChain chain) t then map (fun r => if isChain chain r then row else r) t else (t ++ [row])%list)
    end).

Record ERC20Transfer := {
  et_TxHash : string; et_BlockNumber : Z; et_BlockHash : string; et_LogIndex : Z; et_From : string; et_To : string;
  et_Amount : Decimal; et_TokenContract : string; et_Timestamp : Z }.

Definition ParseEVMTransfer (t : ERC20Transfer) (chain : string) : IncomingTransaction :=
  {| it_Chain := chain; it_TxHash := et_TxHash t; it_FromAddress := et_From t; it_ToAddress := et_To t;
     it_TokenContract := et_TokenContract t; it_Amount := et_Amount t; it_BlockNumber := et_BlockNumber t;
     it_BlockHash := et_BlockHash t; it_Timestamp := et_Timestamp t |}.

(** The ranges of eth_getLogs: at most [maxBlockRange] blocks each.  The sums
    are int64 sums. *)
Definition maxBlockRange : Z := 2000.

Fixpoint logChunks (fuel : nat) (start toBlock : Z) : list (Z * Z) :=
  match fuel with
  | O => []
  | Datatypes.S fuel =>
      if toBlock <? start then []
      else let stop := sub64 (add64 start maxBlockRange) 1 in
           (start, if toBlock <? stop then toBlock else stop) :: logChunks fuel (add64 start maxBlockRange) toBlock
  end.

(** Enough for every chunk of a range that ends [maxBlockRange] blocks below
    the end of int64. *)
Definition chunkFuel (fromBlock toBlock : Z) : nat := Datatypes.S (Z.to_nat ((toBlock - fromBlock) / maxBlockRange + 1)).

(** The chunks of one endpoint; [logs a b] is one call of eth_getLogs with the
    decoding of its answer. *)
Definition chunkedLogs (logs : Z -> Z -> result (list ERC20Transfer)) (fromBlock toBlock : Z) : result (list ERC20Transfer) :=
  foldr (fun '(a, b) rest => let? ts := logs a b in let? more := rest in Ok (ts ++ more)%list) (Ok [])
    (logChunks (chunkFuel fromBlock toBlock) fromBlock toBlock).

(** [logs url a b]: the endpoint at [url]. *)
Definition GetERC20Transfers (now : Z) (logs : string -> Z -> Z -> result (list ERC20Transfer)) (toAddresses : list string)
    (fromBlock toBlock : Z) (providers : list RPCProvider) : result (list ERC20Transfer) * list RPCProvider :=
  match toAddresses with
  | [] => (Ok [], providers)
  | _ => ExecuteFailover now (fun url => chunkedLogs (logs url) fromBlock toBlock) providers
  end.

(** What the endpoints of the chain answer while one poll runs:
    [ev_logs url addresses decimals contract from to], and the circuits of the
    endpoints and the instant when the logs of a contract are asked for. *)
Record EVMClient := {
  ev_latest : result Z;
  ev_logs : string -> list string -> Z -> string -> Z -> Z -> result (list ERC20Transfer);
  ev_providers : string -> list RPCProvider;
  ev_nowMs : string -> Z;
  ev_blockHash : Z -> result string }.

Definition transfersOf (client : EVMClient) (addresses : list string) (decimals : Z) (contract : string) (fromBlock toBlock : Z)
  : result (list ERC20Transfer) :=
  (GetERC20Transfers (ev_nowMs client contract) (fun url => ev_logs client url addresses decimals contract) addresses
     fromBlock toBlock (ev_providers client contract)).1.

(** The blocks a poll scans: from the checkpoint, less the reorganisation
    depth, to the last block with enough confirmations. *)
Definition scanRange (cfg : ChainConfig) (lastBlock currentBlock : Z) : option (Z * Z) :=
  let safeBlock := sub64 currentBlock (cfg_Confirmations cfg) in
  if safeBlock <=? 0 then None
  else
    let startBlock := add64 lastBlock 1 in
    let reorgStart := sub64 lastBlock (cfg_ReorgDepth cfg) in
    let startBlock := if (0 <? lastBlock) && (0 <? cfg_ReorgDepth cfg) && (0 <? reorgStart) && (reorgStart <? startBlock)
                      then reorgStart else startBlock in
    let startBlock := if startBlock <=? 0
                      then let s := sub64 safeBlock 10 in if s <=? 0 then 1 else s
                      else startBlock in
    if safeBlock <? startBlock then None else Some (startBlock, safeBlock).

(** What writing a detection draws: the id of the outbox entry, its instant. *)
Record PEnv := { pe_newv4 : nat -> UUID; pe_now : nat -> Z }.

Definition sameFold (a b : string) : bool := String.eqb (ToLower a) (ToLower b).

(** chainmonitor_adapters.go: the row and its outbox entry in one transaction.
    Nothing is added to the received amount of the session. *)
Definition WriteDetectedTx (dtx : DepositTransaction) (entries : list OutboxEntry) : DB -> result unit * DB :=
  transact (fun c t =>
    let? (_, txs) := wrap "creating deposit tx" (CreateDepositTransaction c dtx (tb_txs t)) in
    let? ob := wrap "inserting outbox entries" (Adapter.InsertOutboxEntries (map (setAggregateID (dt_SessionID dtx)) entries) (tb_outbox t)) in
    Ok (tt, {| tb_sessions := tb_sessions t; tb_txs := txs; tb_pool := tb_pool t; tb_index := tb_index t; tb_outbox := ob |})).

Definition detectedTx (cfg : ChainConfig) (session : DepositSession) (incoming : IncomingTransaction) : DepositTransaction :=
  {| dt_ID := uuid_Nil; dt_SessionID := ds_ID session; dt_TenantID := ds_TenantID session; dt_Chain := it_Chain incoming;
     dt_TxHash := it_TxHash incoming; dt_FromAddress := it_FromAddress incoming; dt_ToAddress := it_ToAddress incoming;
     dt_TokenContract := it_TokenContract incoming; dt_Amount := it_Amount incoming; dt_BlockNumber := it_BlockNumber incoming;
     dt_BlockHash := it_BlockHash incoming; dt_Confirmations := int32 (cfg_Confirmations cfg);
     dt_RequiredConfirm := int32 (cfg_Confirmations cfg); dt_Confirmed := false; dt_DetectedAt := it_Timestamp incoming;
     dt_ConfirmedAt := None; dt_CreatedAt := 0 |}.

(** A literal: its retry limit is the zero of the field. *)
Definition detectedEntry (id : UUID) (now : Z) (session : DepositSession) (incoming : IncomingTransaction) : OutboxEntry :=
  {| oe_ID := id; oe_AggregateType := "deposit_session"; oe_AggregateID := ds_ID session; oe_TenantID := ds_TenantID session;
     oe_CorrelationID := uuid_Nil; oe_EventType := EventDepositTxDetected;
     oe_Payload := PNotice (NTxDetected {| dtd_SessionID := ds_ID session; dtd_TenantID := ds_TenantID session;
       dtd_TxHash := it_TxHash incoming; dtd_Chain := it_Chain incoming; dtd_Token := it_TokenContract incoming;
       dtd_Amount := it_Amount incoming; dtd_BlockNumber := it_BlockNumber incoming |});
     oe_IsIntent := false; oe_Published := false; oe_PublishedAt := None; oe_RetryCount := 0; oe_MaxRetries := 0; oe_CreatedAt := now |}.

(** The same in both pollers.  Only a lookup that finds the transaction makes
    it a duplicate. *)
Definition processIncomingTx (cfg : ChainConfig) (tokens : tokenMap) (id : UUID) (now : Z) (incoming : IncomingTransaction) (d : DB)
  : result unit * DB :=
  match GetDepositTxByHash (it_Chain incoming) (it_TxHash incoming) d with
  | (Ok _, d) => (Ok tt, d)
  | (Err _, d) =>
      match GetSessionByAddress (it_ToAddress incoming) d with
      | (Err e, d) => (Err (WrapErr "no session for address" e), d)
      | (Ok session, d) =>
          match LookupByContract (it_Chain incoming) (it_TokenContract incoming) tokens with
          | None => (Ok tt, d)
          | Some _ =>
              match WriteDetectedTx (detectedTx cfg session incoming) [detectedEntry id now session incoming] d with
              | (Err e, d) => (Err (WrapErr "writing detected tx" e), d)
              | (Ok _, d) => (Ok tt, d)
              end
          end
      end
  end.

(** The loop over the transfers of a call, an error moves on to the next;
    [k] counts the transfers so far. *)
Fixpoint processAll (cfg : ChainConfig) (tokens : tokenMap) (env : PEnv) (k : nat) (txs : list IncomingTransaction) (d : DB) : nat * DB :=
  match txs with
  | [] => (k, d)
  | tx :: txs => processAll cfg tokens env (Datatypes.S k) txs (processIncomingTx cfg tokens (pe_newv4 env k) (pe_now env k) tx d).2
  end.

(** The addresses of the chain in the snapshot, in the order of the walk. *)
Definition watched (cfg : ChainConfig) (snap : list (string * AddressInfo)) : list string :=
  map (fun x => ad_Address x.2) (List.filter (fun x => matchPrefix x.1 (cfg_Chain cfg +:+ ":")) snap).

Definition decimalsOf (cfg : ChainConfig) (tokens : tokenMap) (contract : string) : Z :=
  match LookupByContract (cfg_Chain cfg) contract tokens with
  | Some t => if 0 <? tk_Decimals t then tk_Decimals t else 6
  | None => 6
  end.

Definition isWatched (addresses : list string) (tx : IncomingTransaction) : bool :=
  existsb (fun addr => sameFold addr (it_ToAddress tx)) addresses.

(** A contract whose logs cannot be read is passed over. *)
Fixpoint scanContracts (cfg : ChainConfig) (tokens : tokenMap) (client : EVMClient) (env : PEnv) (addresses : list string)
    (startBlock safeBlock : Z) (contracts : list string) (kd : nat * DB) : nat * DB :=
  match contracts with
  | [] => kd
  | contract :: contracts =>
      scanContracts cfg tokens client env addresses startBlock safeBlock contracts
        match transfersOf client addresses (decimalsOf cfg tokens contract) contract startBlock safeBlock with
        | Err _ => kd
        | Ok ts => processAll cfg tokens env kd.1
                     (List.filter (isWatched addresses) (map (fun t => ParseEVMTransfer t (cfg_Chain cfg)) ts)) kd.2
        end
  end.

Definition scanEVM (cfg : ChainConfig) (tokens : tokenMap) (client : EVMClient) (env : PEnv) (snap : list (string * AddressInfo))
    (startBlock safeBlock : Z) (d : DB) : DB :=
  match watched cfg snap with
  | [] => d
  | addresses => (scanContracts cfg tokens client env addresses startBlock safeBlock (ContractAddresses (cfg_Chain cfg) tokens) (O, d)).2
  end.

Record MWorld := { mw_deposits : DB; mw_checkpoints : Sql (list CheckpointRow) }.

(** One poll, shared by the chains up to the scan: [scan lastBlock startBlock
    safeBlock].  The scan never fails, and the checkpoint is saved whatever it
    found, with an empty hash if the block cannot be read. *)
Definition pollWith (cfg : ChainConfig) (latest : result Z) (blockHash : Z -> result string) (snap : list (string * AddressInfo))
    (scan : Z -> Z -> Z -> DB -> DB) (w : MWorld) : result unit * MWorld :=
  match Load (cfg_Chain cfg) (mw_checkpoints w) with
  | (Err e, cps) => (Err (WrapErr "loading checkpoint" e), {| mw_deposits := mw_deposits w; mw_checkpoints := cps |})
  | (Ok (lastBlock, _), cps) =>
      let idle r := (r, {| mw_deposits := mw_deposits w; mw_checkpoints := cps |}) in
      match latest with
      | Err e => idle (Err (WrapErr "getting current block" e))
      | Ok currentBlock =>
          match scanRange cfg lastBlock currentBlock with
          | None => idle (Ok tt)
          | Some (startBlock, safeBlock) =>
              match snap with
              | [] => idle (Ok tt)
              | _ =>
                  let d := scan lastBlock startBlock safeBlock (mw_deposits w) in
                  let hash := match blockHash safeBlock with Ok h => h | Err _ => "" end in
                  match Save (cfg_Chain cfg) safeBlock hash cps with
                  | (Err e, cps) => (Err (WrapErr "saving checkpoint" e), {| mw_deposits := d; mw_checkpoints := cps |})
                  | (Ok _, cps) => (Ok tt, {| mw_deposits := d; mw_checkpoints := cps |})
                  end
              end
          end
      end
  end.

Definition EVMPoll (cfg : ChainConfig) (tokens : tokenMap) (client : EVMClient) (env : PEnv) (snap : list (string * AddressInfo))
  : MWorld -> result unit * MWorld :=
  pollWith cfg (ev_latest client) (ev_blockHash client) snap
    (fun _ startBlock safeBlock => scanEVM cfg tokens client env snap startBlock safeBlock).

(** *** Tron *)

(** [tr_transfers address contract minTimestamp] is the one page of at most
    200 confirmed transfers the API returns, decoded by ParseTRC20Transfer. *)
Record TronClient := {
  tc_latest : result Z;
  tc_transfers : string -> string -> Z -> result (list IncomingTransaction);
  tc_blockHash : Z -> result string;
  tc_now : Z }.

(** In milliseconds: three seconds for each block since the checkpoint before
    the instant of the poll; the blocks re-scanned for reorganisations are not
    counted. *)
Definition minTimestamp (client : TronClient) (lastBlock safeBlock : Z) : Z :=
  if 0 <? lastBlock then (tc_now client + wrap64 (- sub64 safeBlock lastBlock * 3 * 1000000000)) / 1000000 else 0.

Fixpoint scanPairs (cfg : ChainConfig) (tokens : tokenMap) (client : TronClient) (env : PEnv) (minTs : Z)
    (pairs : list (string * string)) (kd : nat * DB) : nat * DB :=
  match pairs with
  | [] => kd
  | (address, contract) :: pairs =>
      scanPairs cfg tokens client env minTs pairs
        match tc_transfers client address contract minTs with
        | Err _ => kd
        | Ok ts => processAll cfg tokens env kd.1 (List.filter (fun tx => sameFold (it_ToAddress tx) address) ts) kd.2
        end
  end.

Definition scanTron (cfg : ChainConfig) (tokens : tokenMap) (client : TronClient) (env : PEnv) (snap : list (string * AddressInfo))
    (lastBlock safeBlock : Z) (d : DB) : DB :=
  (scanPairs cfg tokens client env (minTimestamp client lastBlock safeBlock)
     (List.flat_map (fun a => map (fun c => (a, c)) (ContractAddresses (cfg_Chain cfg) tokens)) (watched cfg snap)) (O, d)).2.

Definition TronPoll (cfg : ChainConfig) (tokens : tokenMap) (client : TronClient) (env : PEnv) (snap : list (string * AddressInfo))
  : MWorld -> result unit * MWorld :=
  pollWith cfg (tc_latest client) (tc_blockHash client) snap
    (fun lastBlock _ safeBlock => scanTron cfg tokens client env snap lastBlock safeBlock).

(** ** Synchronisation *)

(** The query asks for the pool addresses of the nil tenant. *)
Definition ListActiveAddresses (chain : string) : DB -> result (list AddressInfo) * DB :=
  query (fun _ t =>
    let? rows := wrap "listing active addresses"
                   (limitOffset 10000 0 (orderAsc ca_DerivationIndex
                      (filter (fun a => ca_TenantID a = uuid_Nil /\ ca_Chain a = chain) (tb_pool t)))) in
    Ok (map (fun a => {| ad_Chain := ca_Chain a; ad_Address := ca_Address a; ad_TenantID := uuid_String (ca_TenantID a) |})
          (List.filter ca_Dispensed rows))).

(** Addresses added before an error stay in the map, unpublished. *)
Fixpoint syncAddresses (chains : list string) (s : AddressSet) (d : DB) : result unit * AddressSet * DB :=
  match chains with
  | [] => (Ok tt, Publish s, d)
  | chain :: chains =>
      match ListActiveAddresses chain d with
      | (Err e, d) => (Err (WrapErr "listing addresses" e), s, d)
      | (Ok infos, d) => syncAddresses chains (foldl (fun s i => Add i s) s infos) d
      end
  end.

Fixpoint collectAddresses (chains : list string) (acc : list AddressInfo) (d : DB) : result (list AddressInfo) * DB :=
  match chains with
  | [] => (Ok acc, d)
  | chain :: chains =>
      match ListActiveAddresses chain d with
      | (Err e, d) => (Err (WrapErr "listing addresses" e), d)
      | (Ok infos, d) => collectAddresses chains (acc ++ infos)%list d
      end
  end.

Definition reconcileAddresses (chains : list string) (s : AddressSet) (d : DB) : result unit * AddressSet * DB :=
  match collectAddresses chains [] d with
  | (Err e, d) => (Err e, s, d)
  | (Ok all, d) => (Ok tt, Replace all s, d)
  end.

(** The tokens table; the query already leaves out the inactive ones. *)
Definition ListTokensByChain (chain : string) : Sql (list Token) -> result (list Token) * Sql (list Token) :=
  query (fun _ t => Ok (List.filter (fun k => String.eqb (tk_Chain k) chain && tk_IsActive k) t)).

Fixpoint syncTokens (chains : list string) (acc : list Token) (m : tokenMap) (d : Sql (list Token))
  : result unit * tokenMap * Sql (list Token) :=
  match chains with
  | [] => (Ok tt, Reload acc, d)
  | chain :: chains =>
      match ListTokensByChain chain d with
      | (Err e, d) => (Err (WrapErr "listing tokens" e), m, d)
      | (Ok ts, d) => syncTokens chains (acc ++ ts)%list m d
      end
  end.
End Polls.
End ChainMonitor.
