(* ===== verification/DepositWorkers.v ===== *)
(** * node/worker: the deposit workers

    Models src/node/worker/deposit_worker.go (Module [DepositWorker]) and
    bank_deposit_worker.go (Module [BankDepositWorker]): the events of the
    deposit streams are routed to the deposit engines, credits go through the
    treasury manager first.  The crypto engine works over any deposit store;
    the bank worker over the Postgres adapter, whose account index its inbound
    credits read.  Decoding into the payload structs is an argument, as in
    [TreasuryWorker]; metrics and logging are left out. *)

From S2P Require Import Prelude ThirdParty Sql Money Deposits Transfer Outbox TransferStore DepositStore DepositEngine BankDepositStore BankDepositEngine Treasury TreasuryWorker ProviderWorker.
Local Open Scope string_scope.
Local Open Scope Z_scope.

Definition succeeded : IntentResult :=
  {| ir_Success := true; ir_ProviderRef := ""; ir_TxHash := ""; ir_Error := ""; ir_ErrorCode := ""; ir_Metadata := ∅ |}.

(** The answer of the treasury as an intent result. *)
Definition creditResult (r : result unit) : IntentResult :=
  match r with
  | Ok _ => succeeded
  | Err e => {| ir_Success := false; ir_ProviderRef := ""; ir_TxHash := "";
                ir_Error := "treasury credit failed: " +:+ ProviderWorker.errorText e; ir_ErrorCode := ""; ir_Metadata := ∅ |}
  end.

Module DepositWorker.
Section Worker.
Context {L : ThirdParty} {St : Type} `{DS : !DepositStore St} {S : Type} `{TS : !TreasuryStore S}.
Context {J V : Type} (js : Json J V).
Variable json_UnmarshalDetected : J -> result DepositTxDetectedPayload.
Variable json_UnmarshalConfirmed : J -> result DepositTxConfirmedPayload.
Variable json_UnmarshalCredit : J -> result CreditDepositPayload.
Variable json_UnmarshalSettle : J -> result SettleDepositPayload.

(** What one delivery draws: the engine call, the treasury call. *)
Record DWEnv := { dwe_engine : DEnv; dwe_treasury : Env }.

Record DWorld := { dw_store : St; dw_treasury : Manager S }.

Definition onStore (f : St -> result unit * St) (w : DWorld) : result unit * DWorld :=
  let '(r, st) := f (dw_store w) in (r, {| dw_store := st; dw_treasury := dw_treasury w |}).

(** The payload as an incoming transaction: it has no addresses. *)
Definition incomingOf (p : DepositTxDetectedPayload) : IncomingTransaction :=
  {| it_Chain := dtd_Chain p; it_TxHash := dtd_TxHash p; it_FromAddress := ""; it_ToAddress := ""; it_TokenContract := dtd_Token p;
     it_Amount := dtd_Amount p; it_BlockNumber := dtd_BlockNumber p; it_BlockHash := ""; it_Timestamp := 0 |}.

Definition castDetected (p : Payload) : option DepositTxDetectedPayload :=
  match p with PNotice (NTxDetected x) => Some x | _ => None end.

Definition handleTxDetected (env : DWEnv) (event : Event (EventData J V)) (w : DWorld) : result unit * DWorld :=
  match unmarshalEventData js castDetected json_UnmarshalDetected event with
  | Err _ => (Ok tt, w)
  | Ok p => onStore (HandleTransactionDetected (dwe_engine env) (dtd_TenantID p) (dtd_SessionID p) (incomingOf p)) w
  end.

Definition handleTxConfirmed (env : DWEnv) (event : Event (EventData J V)) (w : DWorld) : result unit * DWorld :=
  match unmarshalEventData js (fun p => match p with PNotice (NTxConfirmed x) => Some x | _ => None end) json_UnmarshalConfirmed event with
  | Err _ => (Ok tt, w)
  | Ok p => onStore (HandleTransactionConfirmed (dwe_engine env) (dtc_TenantID p) (dtc_SessionID p) (dtc_TxHash p) (dtc_Confirmations p)) w
  end.

(** The session is the reference of the credit. *)
Definition creditPosition (env : Env) (p : CreditDepositPayload) : Manager S -> result unit * Manager S :=
  CreditBalance env (cdp_TenantID p) (ToUpper (cdp_Token p))
    ("crypto:" +:+ ToLower (cdp_Chain p) +:+ ":" +:+ ToLower (cdp_Token p)) (cdp_NetAmount p) (cdp_SessionID p) "deposit_session".

Definition creditPayload (env : DWEnv) (p : CreditDepositPayload) (w : DWorld) : result unit * DWorld :=
  let '(r, m) := creditPosition (dwe_treasury env) p (dw_treasury w) in
  onStore (HandleCreditResult (dwe_engine env) (cdp_TenantID p) (cdp_SessionID p) (creditResult r))
    {| dw_store := dw_store w; dw_treasury := m |}.

Definition handleCreditResult (env : DWEnv) (event : Event (EventData J V)) (w : DWorld) : result unit * DWorld :=
  match unmarshalEventData js (fun p => match p with PCreditDeposit x => Some x | _ => None end) json_UnmarshalCredit event with
  | Err _ => (Ok tt, w)
  | Ok p => creditPayload env p w
  end.

(** The intent to settle is taken for its own success. *)
Definition handleSettlementResult (env : DWEnv) (event : Event (EventData J V)) (w : DWorld) : result unit * DWorld :=
  match unmarshalEventData js (fun p => match p with PSettleDeposit x => Some x | _ => None end) json_UnmarshalSettle event with
  | Err _ => (Ok tt, w)
  | Ok p => onStore (HandleSettlementResult (dwe_engine env) (sdp_TenantID p) (sdp_SessionID p) succeeded) w
  end.

Definition handleEvent (env : DWEnv) (event : Event (EventData J V)) (w : DWorld) : result unit * DWorld :=
  if String.eqb (ev_Type _ event) EventDepositTxDetected then handleTxDetected env event w
  else if String.eqb (ev_Type _ event) EventDepositTxConfirmed then handleTxConfirmed env event w
  else if String.eqb (ev_Type _ event) IntentCreditDeposit then handleCreditResult env event w
  else if String.eqb (ev_Type _ event) IntentSettleDeposit then handleSettlementResult env event w
  else (Ok tt, w).
End Worker.
End DepositWorker.

Module BankDepositWorker.
Import BankDepositAdapter.

Section Worker.
Context {L : ThirdParty} {S : Type} `{TS : !TreasuryStore S} {P : Type}.
Abbreviation BankDB := (Sql BankTables).

Record RefundRequest := {
  rq_SessionID : UUID; rq_TenantID : UUID; rq_AccountNumber : string; rq_Amount : Decimal; rq_Currency : Currency; rq_Reason : string;
  rq_BankReference : string }.

(** The registry of banking partners, by partner id, and their refund call on
    a state [P] of theirs; [None]: no registry. *)
Variable partnerReg : option (string -> option (RefundRequest -> P -> result unit * P)).

Context {J V : Type} (js : Json J V).
Variable json_UnmarshalReceived : J -> result BankDepositSessionEventPayload.
Variable json_UnmarshalCredit : J -> result CreditBankDepositPayload.
Variable json_UnmarshalSettle : J -> result SettleBankDepositPayload.
Variable json_UnmarshalRecycle : J -> result RecycleVirtualAccountPayload.
Variable json_UnmarshalRefund : J -> result RefundBankDepositPayload.

(** What the gateway publishes for a bank credit. *)
Record inboundPayload := {
  ib_PartnerID : string; ib_AccountNumber : string; ib_Amount : string; ib_Currency : string; ib_PayerName : string;
  ib_PayerAccountNumber : string; ib_PayerReference : string; ib_BankReference : string; ib_ReceivedAt : string }.
Variable json_UnmarshalInbound : J -> result inboundPayload.
Variable decimal_NewFromString : string -> result Decimal.
Variable time_Parse : string -> result Z.

Record BWEnv := { bwe_engine : DEnv; bwe_create : DEnv; bwe_treasury : Env; bwe_now : Z }.

Record BankWorld := { bkw_store : BankDB; bkw_treasury : Manager S; bkw_partners : P }.

Definition onBank (f : BankDB -> result unit * BankDB) (w : BankWorld) : result unit * BankWorld :=
  let '(r, st) := f (bkw_store w) in (r, {| bkw_store := st; bkw_treasury := bkw_treasury w; bkw_partners := bkw_partners w |}).

(** The event as a new credit: it has no bank reference. *)
Definition receivedCredit (p : BankDepositSessionEventPayload) : IncomingBankCredit :=
  {| bc_AccountNumber := ""; bc_Amount := bse_Amount p; bc_Currency := bse_Currency p; bc_PayerName := ""; bc_PayerAccountNumber := "";
     bc_PayerReference := ""; bc_BankReference := ""; bc_ReceivedAt := 0 |}.

Definition handlePaymentReceived (env : BWEnv) (event : Event (EventData J V)) (w : BankWorld) : result unit * BankWorld :=
  match unmarshalEventData js (fun p => match p with PNotice (NBankSession x) => Some x | _ => None end) json_UnmarshalReceived event with
  | Err _ => (Ok tt, w)
  | Ok p => onBank (Bank.HandleBankCreditReceived (bwe_engine env) (bse_TenantID p) (bse_SessionID p) (receivedCredit p)) w
  end.

Definition creditPosition (env : Env) (p : CreditBankDepositPayload) : Manager S -> result unit * Manager S :=
  CreditBalance env (cbp_TenantID p) (cbp_Currency p) ("bank:" +:+ ToLower (cbp_Currency p)) (cbp_NetAmount p) (cbp_SessionID p)
    "bank_deposit".

Definition creditPayload (env : BWEnv) (p : CreditBankDepositPayload) (w : BankWorld) : result unit * BankWorld :=
  let '(r, m) := creditPosition (bwe_treasury env) p (bkw_treasury w) in
  onBank (Bank.HandleCreditResult (bwe_engine env) (cbp_TenantID p) (cbp_SessionID p) (creditResult r))
    {| bkw_store := bkw_store w; bkw_treasury := m; bkw_partners := bkw_partners w |}.

Definition handleCreditResult (env : BWEnv) (event : Event (EventData J V)) (w : BankWorld) : result unit * BankWorld :=
  match unmarshalEventData js (fun p => match p with PCreditBankDeposit x => Some x | _ => None end) json_UnmarshalCredit event with
  | Err _ => (Ok tt, w)
  | Ok p => creditPayload env p w
  end.

Definition handleSettlementResult (env : BWEnv) (event : Event (EventData J V)) (w : BankWorld) : result unit * BankWorld :=
  match unmarshalEventData js (fun p => match p with PSettleBankDeposit x => Some x | _ => None end) json_UnmarshalSettle event with
  | Err _ => (Ok tt, w)
  | Ok p => onBank (Bank.HandleSettlementResult (bwe_engine env) (sbp_TenantID p) (sbp_SessionID p) succeeded) w
  end.

Definition handleRecycleAccount (event : Event (EventData J V)) (w : BankWorld) : result unit * BankWorld :=
  match unmarshalEventData js (fun p => match p with PRecycleVirtualAccount x => Some x | _ => None end) json_UnmarshalRecycle event with
  | Err _ => (Ok tt, w)
  | Ok p => onBank (RecycleVirtualAccount (rvp_AccountNumber p)) w
  end.

(** The partner is looked up by the account number. *)
Definition refundPayload (p : RefundBankDepositPayload) (w : BankWorld) : result unit * BankWorld :=
  match partnerReg with
  | None => (Ok tt, w)
  | Some get =>
      match get (rbp_AccountNumber p) with
      | None => (Ok tt, w)
      | Some refund =>
          let '(r, ps) := refund {| rq_SessionID := rbp_SessionID p; rq_TenantID := rbp_TenantID p; rq_AccountNumber := rbp_AccountNumber p;
                                    rq_Amount := rbp_Amount p; rq_Currency := rbp_Currency p; rq_Reason := rbp_Reason p; rq_BankReference := EmptyString |} (bkw_partners w) in
          (wrap "settla-bank-deposit-worker: refund payment" r,
           {| bkw_store := bkw_store w; bkw_treasury := bkw_treasury w; bkw_partners := ps |})
      end
  end.

Definition handleRefund (event : Event (EventData J V)) (w : BankWorld) : result unit * BankWorld :=
  match unmarshalEventData js (fun p => match p with PRefundBankDeposit x => Some x | _ => None end) json_UnmarshalRefund event with
  | Err _ => (Ok tt, w)
  | Ok p => refundPayload p w
  end.

Definition handleEvent (env : BWEnv) (event : Event (EventData J V)) (w : BankWorld) : result unit * BankWorld :=
  if String.eqb (ev_Type _ event) EventBankDepositPaymentReceived then handlePaymentReceived env event w
  else if String.eqb (ev_Type _ event) IntentBankDepositCredit then handleCreditResult env event w
  else if String.eqb (ev_Type _ event) IntentBankDepositSettle then handleSettlementResult env event w
  else if String.eqb (ev_Type _ event) IntentRecycleVirtualAccount then handleRecycleAccount event w
  else if String.eqb (ev_Type _ event) IntentBankDepositRefund then handleRefund event w
  else (Ok tt, w).

Definition creditOf (env : BWEnv) (p : inboundPayload) (amount : Decimal) : IncomingBankCredit :=
  {| bc_AccountNumber := ib_AccountNumber p; bc_Amount := amount; bc_Currency := ib_Currency p; bc_PayerName := ib_PayerName p;
     bc_PayerAccountNumber := ib_PayerAccountNumber p; bc_PayerReference := ib_PayerReference p; bc_BankReference := ib_BankReference p;
     bc_ReceivedAt := if String.eqb (ib_ReceivedAt p) "" then bwe_now env
                      else match time_Parse (ib_ReceivedAt p) with Ok t => t | Err _ => bwe_now env end |}.

(** The session of a credit: [Ok None] is a credit that is dropped. *)
Definition sessionFor (env : BWEnv) (p : inboundPayload) (index : VirtualAccountIndex) (credit : IncomingBankCredit) (st : BankDB)
  : result (option BankDepositSession) * BankDB :=
  if bool_decide (vi_AccountType index = VirtualAccountTypePermanent) then
    match Bank.CreateSessionForPermanentAccount (bwe_create env) (vi_TenantID index) (ib_AccountNumber p) (ib_PartnerID p) credit st with
    | (Err e, st) => (Err (WrapErr "settla-bank-deposit-worker: create session for permanent account" e), st)
    | (Ok s, st) => (Ok (Some s), st)
    end
  else match GetSessionByAccountNumber (ib_AccountNumber p) st with
       | (Err _, st) => (Ok None, st)
       | (Ok s, st) => (Ok (Some s), st)
       end.

(** An account that is not found, for whatever reason, is acknowledged. *)
Definition routeCredit (env : BWEnv) (p : inboundPayload) (st : BankDB) : result unit * BankDB :=
  if String.eqb (ib_AccountNumber p) "" || String.eqb (ib_BankReference p) "" then (Ok tt, st)
  else match GetVirtualAccountIndexByNumber (ib_AccountNumber p) st with
       | (Err _, st) => (Ok tt, st)
       | (Ok index, st) =>
           match decimal_NewFromString (ib_Amount p) with
           | Err _ => (Ok tt, st)
           | Ok amount =>
               let credit := creditOf env p amount in
               match sessionFor env p index credit st with
               | (Err e, st) => (Err e, st)
               | (Ok None, st) => (Ok tt, st)
               | (Ok (Some s), st) => Bank.HandleBankCreditReceived (bwe_engine env) (bs_TenantID s) (bs_ID s) credit st
               end
           end
       end.

Definition handleInboundBankCredit (env : BWEnv) (event : Event (EventData J V)) (w : BankWorld) : result unit * BankWorld :=
  match unmarshalEventData js (fun _ => None) json_UnmarshalInbound event with
  | Err _ => (Ok tt, w)
  | Ok p => onBank (routeCredit env p) w
  end.
End Worker.
End BankDepositWorker.
