(* ===== verification/ChainProps.v ===== *)
(** * node: what the chain monitor and the deposit workers guarantee

    [log_chunks_cover]: the ranges asked for are the range, cut up.
    [scan_range_bounds]: what one poll scans.  [monitor_records_once]: a
    transaction is recorded once.  [credit_paid_once]: the deliveries of a
    credit intent move the treasury once, while its key lasts.  [detected_deposit_never_arrives],
    [nothing_is_watched] and [failed_scan_skips_blocks] are what keeps deposits
    from arriving. *)

From stdpp Require Import sorting.
From S2P Require Import Prelude ThirdParty GoNumbers Sql Machine Money Deposits Transfer Outbox Messaging Relay TransferStore DepositStore DepositEngine DepositProps DepositBooks Treasury TreasuryFacts TreasuryProps TreasuryFlush TreasuryFlushProps TreasuryWorker TreasuryWorkerProps BankDepositStore BankDepositEngine ProviderWorker ChainMonitor DepositWorkers.
Local Open Scope string_scope.
Local Open Scope Z_scope.

Module ChainProps.
Import ChainMonitor DepositAdapter.

(** ** Ranges *)

(** One turn of the loop, away from the end of int64. *)
Lemma logChunks_step fuel start to : in_int64 start -> to + maxBlockRange <= int64_max ->
  logChunks (Datatypes.S fuel) start to =
    if to <? start then [] else (start, Z.min to (start + maxBlockRange - 1)) :: logChunks fuel (start + maxBlockRange) to.
Proof.
  intros Hs Hto. cbn [logChunks]. unfold maxBlockRange in *. destruct (Z.ltb_spec to start) as [|Hle]; [done|].
  rewrite add64_id, sub64_id by (int64; lia). do 2 f_equal.
  destruct (Z.ltb_spec to (start + 2000 - 1)); lia.
Qed.

(** The loop has ended once the fuel exceeds the number of chunks. *)
Lemma logChunks_enough to n : to + maxBlockRange <= int64_max -> forall fuel start, in_int64 start ->
  (to - start) / maxBlockRange + 1 < Z.of_nat fuel -> start <= to + maxBlockRange ->
  logChunks (fuel + n) start to = logChunks fuel start to.
Proof.
  intros Hto. induction fuel as [|fuel IH]; intros start Hi Hf Hs.
  - unfold maxBlockRange in *. pose proof (Z_div_le (-2000) (to - start) 2000 ltac:(lia) ltac:(lia)) as H.
    change (-2000 / 2000) with (-1) in H. lia.
  - rewrite Nat.add_succ_l, !logChunks_step by done. destruct (Z.ltb_spec to start); [done|]. f_equal.
    unfold maxBlockRange in *. apply IH; [int64; lia| |lia].
    replace (to - (start + 2000)) with (to - start + (-1) * 2000) by lia. rewrite Z.div_add by lia. lia.
Qed.

Lemma logChunks_spec to b : to + maxBlockRange <= int64_max -> forall fuel start, in_int64 start ->
  (to - start) / maxBlockRange + 1 < Z.of_nat fuel -> start <= to + maxBlockRange ->
  (exists c, c ∈ logChunks fuel start to /\ c.1 <= b <= c.2) <-> start <= b <= to.
Proof.
  intros Hto. induction fuel as [|fuel IH]; intros start Hi Hf Hs.
  - unfold maxBlockRange in *. pose proof (Z_div_le (-2000) (to - start) 2000 ltac:(lia) ltac:(lia)) as H.
    change (-2000 / 2000) with (-1) in H. lia.
  - rewrite logChunks_step by done. unfold maxBlockRange in *. destruct (Z.ltb_spec to start) as [Hlt|Hge].
    { split; [intros (c & []%not_elem_of_nil & _)|lia]. }
    assert ((to - (start + 2000)) / 2000 + 1 < Z.of_nat fuel).
    { replace (to - (start + 2000)) with (to - start + (-1) * 2000) by lia. rewrite Z.div_add by lia. lia. }
    specialize (IH (start + 2000) ltac:(int64; lia) ltac:(lia) ltac:(lia)). split.
    + intros (c & [->|Hc]%elem_of_cons & Hb); [cbn in Hb; lia|].
      assert (start + 2000 <= b <= to) by (apply IH; eauto). lia.
    + intros Hb. destruct (decide (b < start + 2000)).
      * eexists. split; [left|]. cbn. lia.
      * destruct (proj2 IH) as (c & Hc & Hcb); [lia|]. exists c. split; [by right|done].
Qed.

Lemma logChunks_sorted to : to + maxBlockRange <= int64_max -> forall fuel start, in_int64 start ->
  Forall (fun c => start <= c.1 /\ c.1 <= c.2 < c.1 + maxBlockRange) (logChunks fuel start to)
  /\ StronglySorted (fun c c' => c.2 < c'.1) (logChunks fuel start to).
Proof.
  intros Hto. induction fuel as [|fuel IH]; intros start Hi; [by repeat constructor|]. rewrite logChunks_step by done.
  unfold maxBlockRange in *. destruct (Z.ltb_spec to start); [by repeat constructor|].
  destruct (IH (start + 2000) ltac:(int64; lia)) as [H1 H2].
  split; constructor; [|eapply Forall_impl; [exact H1|]; cbn; lia|done|eapply Forall_impl; [exact H1|]]; cbn; lia.
Qed.

Lemma chunkFuel_enough from to : from <= to + maxBlockRange -> (to - from) / maxBlockRange + 1 < Z.of_nat (chunkFuel from to).
Proof.
  unfold chunkFuel, maxBlockRange. intros H.
  pose proof (Z_div_le (-2000) (to - from) 2000 ltac:(lia) ltac:(lia)) as Hd. change (-2000 / 2000) with (-1) in Hd. lia.
Qed.

(** C37: For a range that ends at least maxBlockRange blocks below the end of
    int64, the loop over eth_getLogs ends (no more fuel makes a difference),
    with calls for exactly the blocks of the range, none of them for more than
    maxBlockRange blocks, and none for a block before the end of the one in
    front of it. *)
Theorem log_chunks_cover from to b : in_int64 from -> to + maxBlockRange <= int64_max ->
  let chunks := logChunks (chunkFuel from to) from to in
  (forall more, logChunks (chunkFuel from to + more) from to = chunks)
  /\ ((exists c, c ∈ chunks /\ c.1 <= b <= c.2) <-> from <= b <= to)
  /\ Forall (fun c => c.1 <= c.2 < c.1 + maxBlockRange) chunks
  /\ StronglySorted (fun c c' => c.2 < c'.1) chunks.
Proof.
  intros Hi Hto chunks. destruct (logChunks_sorted to Hto (chunkFuel from to) from Hi) as [H1 H2].
  assert (Forall (fun c => c.1 <= c.2 < c.1 + maxBlockRange) chunks) by (eapply Forall_impl; [exact H1|]; cbn; lia).
  destruct (decide (from <= to + maxBlockRange)) as [Hle|Hgt].
  - split_and!; [intros more; apply logChunks_enough|apply logChunks_spec|done|done]; try done; by apply chunkFuel_enough.
  - assert (forall fuel, logChunks (Datatypes.S fuel) from to = []) as Hnil.
    { intros fuel. rewrite logChunks_step by done. unfold maxBlockRange in *. by destruct (Z.ltb_spec to from); [|lia]. }
    unfold chunks, chunkFuel in *. rewrite Hnil in *. split_and!; [intros more; apply Hnil| |done|done].
    unfold maxBlockRange in *. split; [intros (c & []%not_elem_of_nil & _)|lia].
Qed.

(** At the end of int64 it does not: the start of the next chunk wraps around,
    and the loop asks for as many chunks as it is given turns. *)
Lemma log_chunks_never_end fuel : forall start, in_int64 start -> length (logChunks fuel start int64_max) = fuel.
Proof.
  induction fuel as [|fuel IH]; intros start Hs; [done|]. cbn [logChunks].
  destruct (Z.ltb_spec int64_max start) as [|]; [int64; lia|]. cbn [length]. f_equal. apply IH. apply wrap64_range.
Qed.

Lemma scanRange_inv cfg lastBlock currentBlock start safe :
  0 <= lastBlock < 2 ^ 62 -> 0 <= currentBlock < 2 ^ 62 -> 0 <= cfg_Confirmations cfg < 2 ^ 62 -> 0 <= cfg_ReorgDepth cfg < 2 ^ 62 ->
  scanRange cfg lastBlock currentBlock = Some (start, safe) ->
  1 <= start <= safe /\ lastBlock - cfg_ReorgDepth cfg <= start <= lastBlock + 1 /\ safe = currentBlock - cfg_Confirmations cfg.
Proof.
  intros Hl Hc Hn Hr. unfold scanRange. change (2 ^ 62) with 4611686018427387904 in *.
  rewrite !sub64_id, !add64_id by (int64; lia).
  destruct (Z.leb_spec (currentBlock - cfg_Confirmations cfg) 0) as [|Hs]; [done|].
  destruct (Z.ltb_spec 0 lastBlock), (Z.ltb_spec 0 (cfg_ReorgDepth cfg)), (Z.ltb_spec 0 (lastBlock - cfg_ReorgDepth cfg)),
    (Z.ltb_spec (lastBlock - cfg_ReorgDepth cfg) (lastBlock + 1)); cbn;
    match goal with |- context [?x <=? 0] => destruct (Z.leb_spec x 0); [lia|] end;
    match goal with |- context [?x <? ?y] => destruct (Z.ltb_spec x y); [done|] end; intros [= <- <-]; lia.
Qed.
(** A poll from a checkpoint in the range of int64 starts no later than the
    block after it and no further back than the reorganisation depth, and ends
    at the last block with enough confirmations. *)
Theorem scan_range_bounds cfg lastBlock currentBlock start safe :
  0 <= lastBlock < 2 ^ 62 -> 0 <= currentBlock < 2 ^ 62 -> 0 <= cfg_Confirmations cfg < 2 ^ 62 -> 0 <= cfg_ReorgDepth cfg < 2 ^ 62 ->
  scanRange cfg lastBlock currentBlock = Some (start, safe) ->
  1 <= start <= safe /\ lastBlock - cfg_ReorgDepth cfg <= start <= lastBlock + 1 /\ safe = currentBlock - cfg_Confirmations cfg.
Proof. apply scanRange_inv. Qed.

(** ** Recording *)

Section Recording.
Context {L : ThirdParty}.
Abbreviation DB := (Sql Tables).

Definition txKey (t : DepositTransaction) : string * string := (dt_Chain t, dt_TxHash t).

(** The relay passes over the entry. *)
Definition dead (e : OutboxEntry) : Prop := (oe_RetryCount e <? oe_MaxRetries e) = false.

(** What polls may do to the tables of the deposits. *)
Record grown (d d' : DB) : Prop := {
  gr_up : sq_up d -> sq_up d';
  gr_sessions : tb_sessions (sq_tables d') = tb_sessions (sq_tables d);
  gr_outbox : exists new, tb_outbox (sq_tables d') = (tb_outbox (sq_tables d) ++ new)%list /\ Forall dead new;
  gr_txs : exists new, tb_txs (sq_tables d') = (tb_txs (sq_tables d) ++ new)%list;
  gr_keys : sq_up d -> NoDup (map txKey (tb_txs (sq_tables d))) -> NoDup (map txKey (tb_txs (sq_tables d')));
}.

#[global] Instance grown_preorder : PreOrder grown.
Proof.
  split.
  - intros d. split; try done; exists []; by rewrite app_nil_r.
  - intros a b c [U1 S1 (n1 & O1 & F1) (t1 & T1) K1] [U2 S2 (n2 & O2 & F2) (t2 & T2) K2]. split; [auto|congruence| | |auto].
    + exists (n1 ++ n2)%list. rewrite O2, O1, app_assoc. split; [done|by apply Forall_app].
    + exists (t1 ++ t2)%list. by rewrite T2, T1, app_assoc.
Qed.

Lemma grown_query {A} (f : Sql.Call -> Tables -> result A) d r d' : query f d = (r, d') -> grown d d'.
Proof.
  intros Hq. destruct (query_view _ _ _ _ Hq) as (_ & _ & Hu). destruct (query_inv _ _ _ _ Hq) as [Ht _].
  split; rewrite ?Ht; try done; exists []; by rewrite app_nil_r.
Qed.

(** A transaction whose lookup failed while the server answers is new. *)
Lemma lookup_new c h d r d' : GetDepositTxByHash c h d = (r, d') -> is_ok r = false -> sq_up d ->
  (c, h) ∉ map txKey (tb_txs (sq_tables d)).
Proof.
  intros Hq Hr Hu (t & Hk & Ht)%list_elem_of_fmap. destruct (ds_byhash (St := DB) (DS := DepositStoreAdapter) c h d r d' Hq) as (_ & _ & _ & _ & H).
  rewrite (H t Hu Ht) in Hr; [done|]. injection Hk as Hc Hh. unfold isTx. by rewrite <- Hc, <- Hh, !String.eqb_refl.
Qed.

Lemma processIncomingTx_grown cfg tokens id now tx d : grown d (processIncomingTx cfg tokens id now tx d).2.
Proof.
  unfold processIncomingTx. destruct (GetDepositTxByHash _ _ d) as [[t|e] d1] eqn:E1; [by eapply grown_query|].
  destruct (GetSessionByAddress _ d1) as [[s|e2] d2] eqn:E2; [|etrans; by eapply grown_query].
  destruct (LookupByContract _ _ _); [|etrans; by eapply grown_query].
  assert (grown d d2) as G by (etrans; by eapply grown_query).
  pose proof (query_inv _ _ _ _ E1) as [Ht1 _]. pose proof (query_inv _ _ _ _ E2) as [Ht2 _].
  destruct (WriteDetectedTx _ _ d2) as [r d3] eqn:E3. assert (grown d d3); [|by destruct r].
  pose proof (transact_view _ _ _ _ E3) as Hup.
  apply transact_inv in E3 as [(Ht & _)|([] & Hf & _)].
  { etrans; [exact G|]. split; rewrite ?Ht; try done; exists []; by rewrite app_nil_r. }
  destruct (wrap _ (CreateDepositTransaction _ _ _)) as [[row txs]|] eqn:Ec; [|done].
  apply wrap_ok, CreateDepositTransaction_ok in Ec as (rid & -> & ->). cbn [map] in Hf.
  destruct (wrap _ (Adapter.InsertOutboxEntries _ _)) as [ob|] eqn:Eo; [|done].
  apply wrap_ok, Adapter.InsertOutboxEntries_ok in Eo as ->. injection Hf as Hf.
  split; [intros Hu; apply Hup; by apply G|..]; rewrite <- Hf; cbn; rewrite Ht2, Ht1.
  - done.
  - eexists. split; [reflexivity|]. constructor; [|done]. unfold dead, setAggregateID. by case_decide.
  - by eexists.
  - intros Hu Hn. rewrite map_app. apply NoDup_app. split_and!; [done| |apply NoDup_singleton].
    intros k Hk Hk'%list_elem_of_singleton. subst k. by apply (lookup_new _ _ _ _ _ E1) in Hk.
Qed.

Lemma processAll_grown cfg tokens env txs : forall k d, grown d (processAll cfg tokens env k txs d).2.
Proof.
  induction txs as [|tx txs IH]; intros k d; [done|]. cbn. etrans; [apply processIncomingTx_grown|apply IH].
Qed.

Lemma scanContracts_grown cfg tokens client env addresses a b contracts : forall kd,
  grown kd.2 (scanContracts cfg tokens client env addresses a b contracts kd).2.
Proof.
  induction contracts as [|c cs IH]; intros kd; [done|]. cbn. etrans; [|apply IH]. case_match; [|done]. apply processAll_grown.
Qed.

Lemma scanPairs_grown cfg tokens client env minTs pairs : forall kd, grown kd.2 (scanPairs cfg tokens client env minTs pairs kd).2.
Proof.
  induction pairs as [|[a c] ps IH]; intros kd; [done|]. cbn. etrans; [|apply IH]. case_match; [|done]. apply processAll_grown.
Qed.

Lemma pollWith_grown cfg latest hash snap scan w : (forall l a b d, grown d (scan l a b d)) ->
  grown (mw_deposits w) (mw_deposits (pollWith cfg latest hash snap scan w).2).
Proof.
  intros Hs. unfold pollWith. destruct (Load _ _) as [[[last h]|e] cps]; [|done]. destruct latest; [|done].
  destruct (scanRange _ _ _) as [[lo hi]|]; [|done]. destruct snap; [done|]. destruct (Save _ _ _ _) as [[[]|e] cps']; apply Hs.
Qed.

(** A poll of one of the pollers, whatever its endpoints answer. *)
Inductive pstep (w : MWorld) : MWorld -> Prop :=
| p_evm cfg tokens client env snap : pstep w (EVMPoll cfg tokens client env snap w).2
| p_tron cfg tokens client env snap : pstep w (TronPoll cfg tokens client env snap w).2.

Lemma pstep_grown w w' : pstep w w' -> grown (mw_deposits w) (mw_deposits w').
Proof.
  intros [cfg tokens client env snap|cfg tokens client env snap]; apply pollWith_grown; intros l a b d.
  - unfold scanEVM. destruct (watched cfg snap); [done|]. apply (scanContracts_grown _ _ _ _ _ _ _ _ (O, d)).
  - apply (scanPairs_grown _ _ _ _ _ _ (O, d)).
Qed.

Lemma polls_grown w w' : rtc pstep w w' -> grown (mw_deposits w) (mw_deposits w').
Proof. induction 1 as [|w w1 w2 Hs _ IH]; [done|]. etrans; [by apply pstep_grown|done]. Qed.

(** While the database answers, the polls of all chains, whatever they overlap
    in blocks, record every transaction of a chain once. *)
Theorem monitor_records_once w w' : sq_up (mw_deposits w) -> NoDup (map txKey (tb_txs (sq_tables (mw_deposits w)))) ->
  rtc pstep w w' -> NoDup (map txKey (tb_txs (sq_tables (mw_deposits w')))).
Proof. intros Hu Hn Hr. by apply (gr_keys _ _ (polls_grown _ _ Hr)). Qed.
End Recording.

(** ** What becomes of a deposit *)

Section Arrival.
Context {L : ThirdParty} {S : Type} `{TS : !TreasuryStore S}.
Context {J V : Type} (js : Json J V) (unDetected : J -> result DepositTxDetectedPayload)
  (unConfirmed : J -> result DepositTxConfirmedPayload) (unCredit : J -> result CreditDepositPayload) (unSettle : J -> result SettleDepositPayload).
Abbreviation DB := (Sql Tables).
Abbreviation deliver := (DepositWorker.handleEvent (St := DB) (S := S) js unDetected unConfirmed unCredit unSettle).

(** A row of the outbox as the relay reads it. *)
Definition rowOf (e : OutboxEntry) (r : @Relay.OutboxRow L J) : Prop :=
  Relay.or_RetryCount r = oe_RetryCount e /\ Relay.or_MaxRetries r = oe_MaxRetries e.

(** C40: Deposits found on chain never arrive.  Whatever the polls find, no session
    changes, so nothing is counted as received; the relay never fetches an
    entry they write; and if the event of a recorded transaction reached the
    deposit worker all the same, the engine would take it for a duplicate and
    change nothing. *)
Theorem detected_deposit_never_arrives w w' : dinv (mw_deposits w) -> sq_up (mw_deposits w) -> rtc pstep w w' ->
  tb_sessions (sq_tables (mw_deposits w')) = tb_sessions (sq_tables (mw_deposits w))
  /\ (exists new, tb_outbox (sq_tables (mw_deposits w')) = (tb_outbox (sq_tables (mw_deposits w)) ++ new)%list
       /\ forall e r, e ∈ new -> rowOf e r -> Relay.unpublished r = false)
  /\ forall t s p env event m,
       t ∈ tb_txs (sq_tables (mw_deposits w')) -> tb_sessions (sq_tables (mw_deposits w')) !! dtd_SessionID p = Some s ->
       ds_TenantID s = dtd_TenantID p -> dtd_Chain p = dt_Chain t -> dtd_TxHash p = dt_TxHash t ->
       ev_Type _ event = EventDepositTxDetected -> unmarshalEventData js DepositWorker.castDetected unDetected event = Ok p ->
       exists d2, deliver env event {| DepositWorker.dw_store := mw_deposits w'; DepositWorker.dw_treasury := m |}
                  = (Ok tt, {| DepositWorker.dw_store := d2; DepositWorker.dw_treasury := m |})
         /\ dview d2 = dview (mw_deposits w').
Proof.
  intros Hi Hu Hr. destruct (polls_grown _ _ Hr) as [Hup Hs (new & Ho & Hd) _ _]. split_and!; [done| |].
  - exists new. split; [done|]. intros e r He (Hrc & Hmr). rewrite Forall_forall in Hd. specialize (Hd e He).
    unfold Relay.unpublished. unfold dead in Hd. by rewrite Hrc, Hmr, Hd, andb_false_r.
  - intros t s p env event m Ht Hsess Htn Hc Hh Hty Hun. unfold DepositWorker.handleEvent. rewrite Hty. cbn.
    unfold DepositWorker.handleTxDetected. rewrite Hun. unfold DepositWorker.onStore. cbn.
    destruct (HandleTransactionDetected _ _ _ _ (mw_deposits w')) as [r d2] eqn:E. exists d2.
    assert (dinv (mw_deposits w')) as Hi' by (simpl; unfold inv; rewrite Hs; exact Hi).
    assert (isTx (it_Chain (DepositWorker.incomingOf p)) (it_TxHash (DepositWorker.incomingOf p)) t = true) as Hx
      by (unfold isTx; cbn; by rewrite Hc, Hh, !String.eqb_refl).
    by destruct (recorded_tx_is_skipped _ _ _ _ _ t s _ _ Hi' (Hup Hu) Ht Hx Hsess Htn E) as [-> Hv].
Qed.
End Arrival.

(** ** What is watched *)

Section Watched.
Context {L : ThirdParty}.
Abbreviation DB := (Sql Tables).

(** Addresses belong to tenants. *)
Definition owned (d : DB) : Prop := Forall (fun a => ca_TenantID a <> uuid_Nil) (tb_pool (sq_tables d)).

Lemma owned_none chain d r d' : owned d -> ListActiveAddresses chain d = (r, d') ->
  sq_tables d' = sq_tables d /\ forall infos, r = Ok infos -> infos = [].
Proof.
  intros Ho Hq. destruct (query_inv _ _ _ _ Hq) as [Ht Hr]. split; [done|]. intros infos ->. specialize (Hr _ eq_refl). cbv beta in Hr.
  assert (filter (fun a => ca_TenantID a = uuid_Nil /\ ca_Chain a = chain) (tb_pool (sq_tables d)) = []) as Hnil.
  { apply filter_none. intros a Ha [Hn _]. unfold owned in Ho. rewrite Forall_forall in Ho. by apply (Ho a). }
  rewrite Hnil in Hr. by injection Hr as <-.
Qed.

Lemma syncAddresses_owned chains : forall s d, owned d -> as_mutable s = ∅ -> as_snapshot s = ∅ ->
  as_mutable (syncAddresses chains s d).1.2 = ∅ /\ as_snapshot (syncAddresses chains s d).1.2 = ∅.
Proof.
  induction chains as [|c cs IH]; intros s d Ho Hm Hs; [done|]. cbn [syncAddresses].
  destruct (ListActiveAddresses c d) as [[infos|e] d1] eqn:E; [|done].
  destruct (owned_none _ _ _ _ Ho E) as [Ht Hi]. rewrite (Hi _ eq_refl). cbn. apply IH; [|done..]. unfold owned. by rewrite Ht.
Qed.

Lemma collect_owned chains : forall d acc, owned d -> forall all, (collectAddresses chains acc d).1 = Ok all -> all = acc.
Proof.
  induction chains as [|c cs IH]; intros d acc Ho all; [by intros [= ->]|]. cbn [collectAddresses].
  destruct (ListActiveAddresses c d) as [[infos|e] d1] eqn:E; [|done].
  destruct (owned_none _ _ _ _ Ho E) as [Ht Hi]. rewrite (Hi _ eq_refl), app_nil_r. apply IH. unfold owned. by rewrite Ht.
Qed.

(** The rounds of the monitor, each over the database as it finds it. *)
Inductive astep (s : AddressSet) : AddressSet -> Prop :=
| a_sync chains d : owned d -> astep s (syncAddresses chains s d).1.2
| a_reconcile chains d : owned d -> astep s (reconcileAddresses chains s d).1.2.

(** As long as no address belongs to the nil tenant, no synchronisation finds
    one to watch, and polls with what they watch do nothing at all: neither
    deposits nor checkpoints change. *)
Theorem nothing_is_watched s w cfg tokens client env snap : rtc astep NewAddressSet s -> snap ≡ₚ map_to_list (as_snapshot s) ->
  as_snapshot s = ∅
  /\ let w' := (EVMPoll cfg tokens client env snap w).2 in
     mw_deposits w' = mw_deposits w /\ sq_tables (mw_checkpoints w') = sq_tables (mw_checkpoints w).
Proof.
  intros Hr Hsnap.
  assert (as_mutable s = ∅ /\ as_snapshot s = ∅) as [_ Hs].
  { clear Hsnap. assert (forall a b, rtc astep a b -> as_mutable a = ∅ /\ as_snapshot a = ∅ -> as_mutable b = ∅ /\ as_snapshot b = ∅) as H.
    { induction 1 as [|a b c Hstep _ IH]; [done|]. intros [Hm Hs]. apply IH. destruct Hstep as [chains d Ho|chains d Ho].
      - by apply syncAddresses_owned.
      - unfold reconcileAddresses. pose proof (collect_owned chains d [] Ho) as H. destruct (collectAddresses chains [] d) as [[all|e] d1]; [|done].
        by rewrite (H all eq_refl). }
    by eapply H. }
  rewrite Hs, map_to_list_empty in Hsnap. apply Permutation_nil_r in Hsnap as ->. split; [done|]. cbn. unfold EVMPoll, pollWith.
  destruct (Load _ _) as [r cps] eqn:E. destruct (query_inv _ _ _ _ E) as [Ht _]. destruct r as [[last h]|e]; [|done].
  destruct (ev_latest client); [|done]. by destruct (scanRange _ _ _) as [[lo hi]|].
Qed.

(** ** What is skipped *)

(** The checkpoint of a chain. *)
Definition checkpoint (chain : string) (t : list CheckpointRow) : Z :=
  match filter (fun r => isChain chain r = true) t with r :: _ => cp_BlockNumber r | [] => 0 end.

Lemma Save_checkpoint chain n h d r d' : Save chain n h d = (r, d') -> is_ok r = true -> checkpoint chain (sq_tables d') = n.
Proof.
  intros E Hr. apply transact_inv in E as [(_ & Hok & _)|([] & Hf & _)]; [by rewrite Hr in Hok|].
  destruct (c_ids _ _); [|done]. injection Hf as <-. unfold checkpoint. set (row := {| cp_Chain := chain |}).
  assert (isChain chain row = true) as Hrow by apply String.eqb_refl. destruct (existsb _ _) eqn:Ex.
  - clear -Ex Hrow. induction (sq_tables d) as [|x t IH]; [done|]. cbn [existsb map] in *. rewrite filter_cons. destruct (isChain chain x) eqn:E.
    + by rewrite decide_True.
    + rewrite decide_False by (by rewrite E). by apply IH.
  - rewrite filter_app. replace (filter (fun r => isChain chain r = true) (sq_tables d)) with (@nil CheckpointRow).
    + rewrite app_nil_l, filter_cons. by rewrite decide_True.
    + symmetry. apply filter_none. intros x Hx Hc. apply not_true_iff_false in Ex. apply Ex, existsb_exists. exists x.
      by rewrite <- list_elem_of_In.
Qed.

Lemma scanContracts_failed cfg tokens client env addresses a b contracts : forall kd,
  Forall (fun c => is_ok (transfersOf client addresses (decimalsOf cfg tokens c) c a b) = false) contracts ->
  scanContracts cfg tokens client env addresses a b contracts kd = kd.
Proof.
  induction contracts as [|c cs IH]; intros kd Hf; [done|]. apply Forall_cons in Hf as [Hc Hf]. cbn.
  destruct (transfersOf _ _ _ _ _ _); [done|]. by apply IH.
Qed.

(** A poll that cannot read the logs of any contract reports success and
    moves the checkpoint past them: blocks of its range that lie more than the
    reorganisation depth before its end are in the range of no later poll. *)
Theorem failed_scan_skips_blocks cfg tokens client env snap w w' start safe last hash current cps :
  0 <= last < 2 ^ 62 -> 0 <= current < 2 ^ 62 -> 0 <= cfg_Confirmations cfg < 2 ^ 62 -> 0 <= cfg_ReorgDepth cfg < 2 ^ 62 ->
  Load (cfg_Chain cfg) (mw_checkpoints w) = (Ok (last, hash), cps) -> ev_latest client = Ok current ->
  scanRange cfg last current = Some (start, safe) -> snap <> [] ->
  (forall c, c ∈ ContractAddresses (cfg_Chain cfg) tokens ->
     is_ok (transfersOf client (watched cfg snap) (decimalsOf cfg tokens c) c start safe) = false) ->
  EVMPoll cfg tokens client env snap w = (Ok tt, w') ->
  mw_deposits w' = mw_deposits w
  /\ checkpoint (cfg_Chain cfg) (sq_tables (mw_checkpoints w')) = safe
  /\ forall current' start' safe', 0 <= current' < 2 ^ 62 -> scanRange cfg safe current' = Some (start', safe') ->
       forall block, start <= block < safe - cfg_ReorgDepth cfg -> block < start'.
Proof.
  intros H1 H2 H3 H4 Hl He Hsr Hsnap Hf. unfold EVMPoll, pollWith. rewrite Hl, He, Hsr. destruct snap as [|x snap]; [done|].
  assert (scanEVM cfg tokens client env (x :: snap) start safe (mw_deposits w) = mw_deposits w) as ->.
  { unfold scanEVM. destruct (watched cfg (x :: snap)) as [|a l]; [done|]. rewrite scanContracts_failed; [done|].
    by apply Forall_forall. }
  destruct (Save _ _ _ cps) as [[[]|e] cps'] eqn:Es; [|done]. intros [= <-]. cbn. split_and!; [done|by eapply Save_checkpoint|].
  destruct (scanRange_inv _ _ _ _ _ H1 H2 H3 H4 Hsr) as (? & ? & ?). intros current' start' safe' Hc' Hsr' block Hb.
  assert (0 <= safe < 2 ^ 62) as Hsafe by lia.
  destruct (scanRange_inv _ _ _ _ _ Hsafe Hc' H3 H4 Hsr') as (? & ? & ?). lia.
Qed.
End Watched.

(** ** Credits *)

Section Credits.
Context {L : ThirdParty} {LL : ThirdPartyLaws L} {St : Type} `{DS : !DepositStore St} {S : Type} `{TS : !TreasuryStore S}.
Context {J V : Type} (js : Json J V) (unDetected : J -> result DepositTxDetectedPayload)
  (unConfirmed : J -> result DepositTxConfirmedPayload) (unCredit : J -> result CreditDepositPayload) (unSettle : J -> result SettleDepositPayload).
Import DepositWorker.
Abbreviation deliver := (handleEvent (St := St) (S := S) js unDetected unConfirmed unCredit unSettle).

Definition creditCall (p : CreditDepositPayload) : TreasuryProps.Call :=
  Build_Call OpCredit (cdp_TenantID p) (ToUpper (cdp_Token p)) ("crypto:" +:+ ToLower (cdp_Chain p) +:+ ":" +:+ ToLower (cdp_Token p))
    (cdp_NetAmount p) (cdp_SessionID p) "deposit_session".

(** The treasury call a delivery makes. *)
Definition eventCall (event : Event (EventData J V)) : option TreasuryProps.Call :=
  if String.eqb (ev_Type _ event) IntentCreditDeposit then
    match unmarshalEventData js (fun p => match p with PCreditDeposit x => Some x | _ => None end) unCredit event with
    | Ok p => Some (creditCall p)
    | Err _ => None
    end
  else None.

Lemma onStore_treasury f w : dw_treasury (onStore (St := St) (S := S) f w).2 = dw_treasury w.
Proof. unfold onStore. by destruct (f _). Qed.

Lemma deliver_treasury env event w : dw_treasury (deliver env event w).2
  = match eventCall event with Some c => (run (dwe_treasury env) c (dw_treasury w)).2 | None => dw_treasury w end.
Proof.
  unfold handleEvent, eventCall, handleTxDetected, handleTxConfirmed, handleCreditResult, handleSettlementResult, creditPayload.
  destruct (String.eqb_spec (ev_Type _ event) EventDepositTxDetected) as [->|_]; [by case_match; [apply onStore_treasury|]|].
  destruct (String.eqb_spec (ev_Type _ event) EventDepositTxConfirmed) as [->|_]; [by case_match; [apply onStore_treasury|]|].
  destruct (String.eqb_spec (ev_Type _ event) IntentCreditDeposit) as [_|_].
  - case_match; [|done]. change (creditPosition (dwe_treasury env) a) with (run (S := S) (dwe_treasury env) (creditCall a)).
    destruct (run _ _ _) as [r m]. by rewrite onStore_treasury.
  - destruct (String.eqb_spec (ev_Type _ event) IntentSettleDeposit) as [_|_]; [|done]. by case_match; [apply onStore_treasury|].
Qed.

(** What may happen between two deliveries of an event, the credit of which
    was claimed at [t0], while its key lasts: deliveries of any event to the
    worker, calls of other users of the treasury, ticks of the flush loop with
    its clean-up of the keys, and whatever the users of the deposit store do. *)
Inductive between (t0 : Z) (w : DWorld) : DWorld -> Prop :=
| bt_deliver env event' : lasting t0 (env_now (dwe_treasury env)) (dw_treasury w) -> between t0 w (deliver env event' w).2
| bt_call env c : lasting t0 (env_now env) (dw_treasury w) ->
    between t0 w {| dw_store := dw_store w; dw_treasury := (run env c (dw_treasury w)).2 |}
| bt_tick iter now n : lasting t0 now (dw_treasury w) ->
    between t0 w {| dw_store := dw_store w; dw_treasury := flushTick iter now n (dw_treasury w) |}
| bt_store st : between t0 w {| dw_store := st; dw_treasury := dw_treasury w |}.

(** The key is in the map since [t0] or later. *)
Definition since (t0 : Z) (k : string) (m : Manager S) : Prop := exists t, t0 <= t /\ stamp k m = Some t.

Lemma since_held t0 k m : since t0 k m -> held k m.
Proof. intros (t & _ & Ht). by exists t. Qed.

Lemma since_run t0 k env c m : lasting t0 (env_now env) m -> since t0 k m -> since t0 k (run env c m).2.
Proof.
  intros Hl Hs. destruct (decide (k = call_idem c)) as [->|Hk]; [by rewrite (run_held_same env c m (since_held _ _ _ Hs))|].
  destruct Hs as (t & Ht & Hs). exists t. split; [done|]. by apply (run_keeps env c m t0 Hl).
Qed.

Lemma since_between t0 k w w' : between t0 w w' -> since t0 k (dw_treasury w) -> since t0 k (dw_treasury w').
Proof.
  intros [env event' Hl|env c Hl|iter now n Hl|st] Hs; cbn [dw_treasury]; [|by apply since_run| |done].
  - rewrite deliver_treasury. case_match; [by apply since_run|done].
  - destruct Hs as (t & Ht & Hs). exists t. split; [done|]. by eapply stamp_flushTick.
Qed.

(** C28: A deposit is paid into the treasury once while its idempotency key
    lasts.  Once a delivery of the intent to credit it has moved the books, no
    later one does, whatever runs in between: deliveries of this and of other
    events, other calls of the treasury, flushes and clean-ups, and any change
    of the deposit store.  The key lasts two minutes, and ten while no shard of
    the map of keys is full; a restart loses it, and after that the intent
    would be paid again. *)
Theorem credit_paid_once env event w w' env' : wf (dw_treasury w) ->
  abs (dw_treasury (deliver env event w).2) <> abs (dw_treasury w) ->
  rtc (between (env_now (dwe_treasury env))) (deliver env event w).2 w' ->
  dw_treasury (deliver env' event w').2 = dw_treasury w'.
Proof.
  intros W Hmv Hr. rewrite deliver_treasury in Hmv |- *. destruct (eventCall event) as [c|] eqn:Hc; [|done].
  apply run_held_same. apply (since_held (env_now (dwe_treasury env))).
  apply (invariant_rtc (between (env_now (dwe_treasury env))) (fun v => since (env_now (dwe_treasury env)) (call_idem c) (dw_treasury v))
    (fun v v' Hv Hb => since_between _ _ _ _ Hb Hv) _ _ Hr).
  rewrite deliver_treasury, Hc. exists (env_now (dwe_treasury env)). split; [done|].
  apply credit_stamped; [done| | |by apply run_moved_ok].
  - unfold eventCall in Hc. repeat case_match; by simplify_eq.
  - intros Hh. by rewrite (run_held_same _ _ _ Hh) in Hmv.
Qed.
End Credits.
End ChainProps.
