(* ===== verification/ChainRuns.v ===== *)
(** * node: the chain monitor and the deposit workers, run

    A session that waits for 100 USDT on Tron, the poll that finds the
    payment, what the worker makes of it, and the rounds, scans and deliveries
    at which the theorems of [ChainProps] are applied. *)

From Stdlib Require Import Ascii QArith.
From S2P Require Import Prelude ThirdParty GoNumbers Sql Machine Money Deposits Transfer Outbox Messaging Relay TransferStore DepositStore DepositEngine DepositProps DepositBooks DepositRuns Treasury TreasuryFacts TreasuryProps TreasuryFlush TreasurySync TreasuryFlushProps TreasuryRecovery TreasuryDB TreasuryWorker TreasuryWorkerProps TreasuryCrash BankDepositStore BankDepositEngine ProviderWorker ChainMonitor DepositWorkers ChainProps.
Import QInstance DepositAdapter TreasuryAdapter.
Local Open Scope string_scope.
Local Open Scope Z_scope.

Module ChainRuns.
Import ChainMonitor ChainProps.
Import DepositRuns (tenantID, env, world, db0, db0_inv, create, payment, sid, receivedOf, statusOf, halfway_inv).

(** ** Scans *)

Definition cfg : ChainConfig := {| cfg_Chain := ChainTron; cfg_Confirmations := 19; cfg_ReorgDepth := 10 |}.

(** From a checkpoint at 5000, with the tip at 10000. *)
Lemma scan_range_bounds_witness : 1 <= 4990 <= 9981 /\ 5000 - 10 <= 4990 <= 5000 + 1 /\ 9981 = 10000 - 19.
Proof. apply (scan_range_bounds cfg 5000 10000 4990 9981); cbn; try lia. reflexivity. Defined.

Example three_chunks : logChunks (chunkFuel 4990 9981) 4990 9981 = [(4990, 6989); (6990, 8989); (8990, 9981)].
Proof. reflexivity. Qed.

Lemma log_chunks_cover_witness : exists c, c ∈ logChunks (chunkFuel 4990 9981) 4990 9981 /\ c.1 <= 7000 <= c.2.
Proof.
  destruct (log_chunks_cover 4990 9981 7000) as (_ & H & _); [int64; lia|vm_compute; discriminate|]. apply H. lia.
Defined.

(** ** One deposit *)

Definition token : Token := {| tk_Chain := ChainTron; tk_ContractAddress := "usdt"; tk_Decimals := 6; tk_IsActive := true |}.
Definition tokens : tokenMap := Reload [token].

(** The API finds two transfers to the address, both of transaction h1. *)
Definition client : TronClient := {|
  tc_latest := Ok 10000; tc_transfers _ _ _ := Ok [payment "h1" (60 # 1); payment "h1" (40 # 1)];
  tc_blockHash _ := Ok "b"; tc_now := 0 |}.

Definition penv : PEnv := {| pe_newv4 k := ascii_of_nat (200 + k); pe_now k := Z.of_nat k |}.

Definition snap : list (string * AddressInfo) :=
  [("tron:T1", {| ad_Chain := ChainTron; ad_Address := "T1"; ad_TenantID := "t" |})].

Definition waiting : MWorld := {|
  mw_deposits := runCalls create (db0 [] true);
  mw_checkpoints := {| sq_tables := []; sq_calls := 0; sq_world := world [] true |} |}.

Definition polled : MWorld := (TronPoll cfg tokens client penv snap waiting).2.
Definition polledTwice : MWorld := (TronPoll cfg tokens client penv snap polled).2.

Definition hashes (w : MWorld) : list (string * Q) := map (fun t => (dt_TxHash t, dt_Amount t)) (tb_txs (sq_tables (mw_deposits w))).

(** The second transfer of the transaction is dropped. *)
Example second_log_is_dropped : hashes polledTwice = [("h1", 60 # 1)]%Q.
Proof. vm_compute. reflexivity. Qed.

Lemma polls_run : rtc pstep waiting polledTwice.
Proof. eapply rtc_l; [apply p_tron|]. eapply rtc_l; [apply p_tron|]. apply rtc_refl. Qed.

Lemma waiting_up : sq_up (mw_deposits waiting).
Proof. intros n. vm_compute. reflexivity. Qed.

Lemma monitor_records_once_witness : NoDup (map txKey (tb_txs (sq_tables (mw_deposits polledTwice)))).
Proof.
  apply (monitor_records_once waiting polledTwice); [apply waiting_up| |apply polls_run]. apply NoDup_nil_2.
Defined.

(** *** The payment does not arrive *)

Definition sessionOf (w : MWorld) : option DepositSession := tb_sessions (sq_tables (mw_deposits w)) !! sid.

Definition detected : DepositTxDetectedPayload :=
  {| dtd_SessionID := sid; dtd_TenantID := tenantID; dtd_TxHash := "h1"; dtd_Chain := ChainTron; dtd_Token := "usdt";
     dtd_Amount := 60 # 1; dtd_BlockNumber := 1 |}.

(** Text is the value, as in [CrashWitness.js]. *)
Definition un {A} (cast : Payload -> option A) (p : Payload) : result A :=
  match cast p with Some x => Ok x | None => CrashWitness.malformed end.

Definition castConfirmed (p : Payload) : option DepositTxConfirmedPayload := match p with PNotice (NTxConfirmed x) => Some x | _ => None end.
Definition castCredit (p : Payload) : option CreditDepositPayload := match p with PCreditDeposit x => Some x | _ => None end.
Definition castSettle (p : Payload) : option SettleDepositPayload := match p with PSettleDeposit x => Some x | _ => None end.

Definition message (ty : string) (p : Payload) : Event (EventData Payload Payload) :=
  {| ev_ID := "e"%char; ev_TenantID := tenantID; ev_Type := ty; ev_Timestamp := 0; ev_Data := DataMap _ _ p |}.

Definition dwenv (k : nat) : DepositWorker.DWEnv :=
  {| DepositWorker.dwe_engine := env k; DepositWorker.dwe_treasury := CrashWitness.env k |}.

Abbreviation deliver := (DepositWorker.handleEvent CrashWitness.js (un DepositWorker.castDetected) (un castConfirmed) (un castCredit) (un castSettle)).

Definition detectedEvent : Event (EventData Payload Payload) := message EventDepositTxDetected (PNotice (NTxDetected detected)).

Lemma head_elem {A} (l : list A) x : head l = Some x -> x ∈ l.
Proof. destruct l; [done|]. intros [= ->]. left. Qed.

Lemma detected_deposit_never_arrives_witness :
  tb_sessions (sq_tables (mw_deposits polledTwice)) = tb_sessions (sq_tables (mw_deposits waiting))
  /\ exists d2, deliver (dwenv 1) detectedEvent
         {| DepositWorker.dw_store := mw_deposits polledTwice; DepositWorker.dw_treasury := CrashWitness.live |}
       = (Ok tt, {| DepositWorker.dw_store := d2; DepositWorker.dw_treasury := CrashWitness.live |})
     /\ dview d2 = dview (mw_deposits polledTwice).
Proof.
  destruct (fmap_view (fun x => (dt_Chain x, dt_TxHash x)) (head (tb_txs (sq_tables (mw_deposits polledTwice)))) (ChainTron, "h1"))
    as (t & Ht & Hk); [vm_compute; reflexivity|]. injection Hk as Hc Hh.
  destruct (fmap_view ds_TenantID (sessionOf polledTwice) tenantID) as (s & Hs & Htn); [vm_compute; reflexivity|].
  destruct (detected_deposit_never_arrives CrashWitness.js (un DepositWorker.castDetected) (un castConfirmed) (un castCredit) (un castSettle)
    waiting polledTwice) as (H1 & _ & H3); [apply (halfway_inv [] true create)|apply waiting_up|apply polls_run|].
  split; [exact H1|].
  exact (H3 t s detected (dwenv 1) detectedEvent CrashWitness.live (head_elem _ _ Ht) Hs Htn (eq_sym Hc) (eq_sym Hh) eq_refl eq_refl).
Defined.

(** What the session is left with: nothing received, two entries, neither of
    them ever fetched. *)
Example nothing_received :
  receivedOf (mw_deposits polledTwice) = Some (0 # 1)%Q /\ statusOf (mw_deposits polledTwice) = Some DSPendingPayment.
Proof. split; vm_compute; reflexivity. Qed.

(** ** What is watched *)

(** A round over a pool with the one address of the tenant, dispensed. *)
Lemma waiting_owned : owned (mw_deposits waiting).
Proof. apply (bool_decide_eq_true_1 (owned _)). vm_compute. reflexivity. Qed.

Definition synced : AddressSet := (syncAddresses [ChainTron] NewAddressSet (mw_deposits waiting)).1.2.

Definition baseClient (tip : Z) (logs : result (list ERC20Transfer)) : EVMClient := {|
  ev_latest := Ok tip; ev_logs _ _ _ _ _ _ := logs;
  ev_providers _ := [{| rp_Name := "a"; rp_failures := 0; rp_openedAt := 0 |}]; ev_nowMs _ := 0; ev_blockHash _ := Ok "b" |}.

Lemma nothing_is_watched_witness :
  as_snapshot synced = ∅
  /\ let w' := (EVMPoll cfg tokens (baseClient 10000 (Ok [])) penv [] waiting).2 in
     mw_deposits w' = mw_deposits waiting /\ sq_tables (mw_checkpoints w') = sq_tables (mw_checkpoints waiting).
Proof.
  apply (nothing_is_watched synced waiting cfg tokens (baseClient 10000 (Ok [])) penv []).
  - apply rtc_once. apply (a_sync _ [ChainTron] (mw_deposits waiting) waiting_owned).
  - vm_compute. reflexivity.
Defined.

(** ** What is skipped *)

Definition baseCfg : ChainConfig := {| cfg_Chain := ChainBase; cfg_Confirmations := 12; cfg_ReorgDepth := 10 |}.
Definition baseTokens : tokenMap := Reload [{| tk_Chain := ChainBase; tk_ContractAddress := "0xusdc"; tk_Decimals := 6; tk_IsActive := true |}].
Definition baseSnap : list (string * AddressInfo) :=
  [("base:0xa", {| ad_Chain := ChainBase; ad_Address := "0xa"; ad_TenantID := "t" |})].
Definition refusing : EVMClient := baseClient 10012 (Err (MsgErr "429")).

Definition atBlock (n : Z) : MWorld := {|
  mw_deposits := mw_deposits waiting;
  mw_checkpoints := {| sq_tables := [{| cp_Chain := ChainBase; cp_BlockNumber := n; cp_BlockHash := "" |}];
                       sq_calls := 0; sq_world := world [] true |} |}.

Definition skipped : MWorld := (EVMPoll baseCfg baseTokens refusing penv baseSnap (atBlock 5000)).2.

(** Blocks 4990 to 9989 were never read. *)
Lemma failed_scan_skips_blocks_witness :
  checkpoint ChainBase (sq_tables (mw_checkpoints skipped)) = 10000
  /\ forall current' start' safe', 0 <= current' < 2 ^ 62 -> scanRange baseCfg 10000 current' = Some (start', safe') ->
       forall block, 4990 <= block < 9990 -> block < start'.
Proof.
  apply (failed_scan_skips_blocks baseCfg baseTokens refusing penv baseSnap (atBlock 5000) skipped 4990 10000 5000 "" 10012
    (Load ChainBase (mw_checkpoints (atBlock 5000))).2); try (cbn; lia); try reflexivity; try done.
Defined.

(** ** A credit, delivered three times *)

Definition usdtRow : Position :=
  {| pos_ID := "p"%char; pos_TenantID := tenantID; pos_Currency := "USDT"; pos_Location := "crypto:tron:usdt";
     pos_Balance := 0%Q; pos_Locked := 0%Q; pos_MinBalance := 0%Q; pos_TargetBalance := 0%Q; pos_UpdatedAt := 0 |}.

Definition usdtKey : positionKey := (tenantID, "USDT", "crypto:tron:usdt").

Definition boot : Manager TDB := set_store CrashWitness.boot
  {| td_positions := [usdtRow]; td_history := []; td_ops := []; td_events := []; td_clock := 0;
     td_outcomes := []; td_readable := true |}.

Lemma usdt_recoverable : recoverable boot [].
Proof.
  split.
  - split; [done| | |].
    + intros key p. simpl. by rewrite lookup_empty.
    + intros p c. unfold counters_at. simpl. by rewrite lookup_empty.
    + intros p. simpl. rewrite lookup_empty. by intros [].
  - reflexivity.
  - repeat constructor; vm_compute; congruence.
  - repeat constructor. by intros ?%elem_of_nil.
  - vm_compute. reflexivity.
  - vm_compute. reflexivity.
  - split; [by eexists|vm_compute; reflexivity].
  - constructor.
  - constructor.
  - by apply (bool_decide_eq_true_1 (map_Forall _ (books_of (TreasurySync.rows (mg_store boot))))); vm_compute.
Qed.

Definition live : Manager TDB := CrashWitness.restarted boot.

Lemma usdt_started : LoadPositions (CrashWitness.env 0) 1 boot = Some (Ok tt, live).
Proof. apply CrashWitness.started_eq. vm_compute. reflexivity. Qed.

Lemma live_wf : wf live.
Proof.
  destruct (LoadPositions_books (CrashWitness.env 0) 1 boot [] usdt_recoverable) as (m' & HL & W & _); [vm_compute; lia|].
  rewrite usdt_started in HL. by injection HL as <-.
Qed.

Definition credit : CreditDepositPayload :=
  {| cdp_SessionID := sid; cdp_TenantID := tenantID; cdp_Chain := ChainTron; cdp_Token := "usdt"; cdp_GrossAmount := 100 # 1;
     cdp_FeeAmount := 1 # 2; cdp_NetAmount := 199 # 2; cdp_TxHash := "h1"; cdp_IdempotencyKey := "k" |}.

Definition creditEvent : Event (EventData Payload Payload) := message IntentCreditDeposit (PCreditDeposit credit).

Definition before : DepositWorker.DWorld :=
  {| DepositWorker.dw_store := mw_deposits waiting; DepositWorker.dw_treasury := live |}.

Definition balanceOf (w : DepositWorker.DWorld (L := Qlib) (St := Sql Tables) (S := TDB)) : option counters := abs (DepositWorker.dw_treasury w) !! usdtKey.

(** Paid, then a tick of the flush loop that cleans up, then a redelivery. *)
Abbreviation paid := ((deliver (dwenv 1) creditEvent before).2).

Definition order (dirty : gmap positionKey nat) : list nat := (map_to_list dirty).*2.

Definition ticked (now : Z) : DepositWorker.DWorld :=
  {| DepositWorker.dw_store := DepositWorker.dw_store paid;
     DepositWorker.dw_treasury := flushTick order now 60 (DepositWorker.dw_treasury paid) |}.

Definition minutes (n : Z) : Z := n * 60 * 1000000000.

Abbreviation steps := (between CrashWitness.js (un DepositWorker.castDetected) (un castConfirmed) (un castCredit) (un castSettle)
  (env_now (DepositWorker.dwe_treasury (dwenv 1)))).

Lemma two_minutes m : let t0 := env_now (DepositWorker.dwe_treasury (dwenv 1)) in
  lasting (S := TDB) t0 (minutes 2) m /\ lasting (S := TDB) t0 (env_now (DepositWorker.dwe_treasury (dwenv 2))) m.
Proof. split; left; vm_compute; discriminate. Qed.

Lemma ticked_then_delivered : rtc steps (deliver (dwenv 1) creditEvent before).2 (deliver (dwenv 2) creditEvent (ticked (minutes 2))).2.
Proof.
  refine (rtc_l _ paid (ticked (minutes 2)) _ _ (rtc_once _ _ _)).
  - refine (bt_tick _ _ _ _ _ _ paid order (minutes 2) 60 _). apply two_minutes.
  - refine (bt_deliver _ _ _ _ _ _ (ticked (minutes 2)) (dwenv 2) creditEvent _). apply two_minutes.
Qed.

Lemma credit_paid_once_witness :
  DepositWorker.dw_treasury (deliver (dwenv 3) creditEvent (deliver (dwenv 2) creditEvent (ticked (minutes 2))).2).2
  = DepositWorker.dw_treasury (deliver (dwenv 2) creditEvent (ticked (minutes 2))).2.
Proof.
  apply (credit_paid_once CrashWitness.js (un DepositWorker.castDetected) (un castConfirmed) (un castCredit) (un castSettle)
    (dwenv 1) creditEvent before (deliver (dwenv 2) creditEvent (ticked (minutes 2))).2 (dwenv 3)); [apply live_wf| |].
  - intros H. assert (balanceOf (deliver (dwenv 1) creditEvent before).2 = balanceOf before) as Hb by (unfold balanceOf; by rewrite H).
    revert Hb. vm_compute. discriminate.
  - exact ticked_then_delivered.
Defined.

(** Past the ten minutes the clean-up has forgotten the key, and the intent
    is paid a second time. *)
Lemma credit_paid_again_after_cleanup :
  balanceOf paid = Some (Cnt 99500000 0 0)
  /\ balanceOf (deliver (dwenv 2) creditEvent (ticked (minutes 10))).2 = Some (Cnt 99500000 0 0)
  /\ balanceOf (deliver (dwenv 2) creditEvent (ticked (minutes 11))).2 = Some (Cnt 199000000 0 0).
Proof. vm_compute. split_and!; reflexivity. Qed.

(** And after a restart: the position is loaded with the credit in it, the
    map of keys is empty. *)
Definition rebooted : DepositWorker.DWorld :=
  {| DepositWorker.dw_store := DepositWorker.dw_store paid;
     DepositWorker.dw_treasury := CrashWitness.restarted (flushOnce order (DepositWorker.dw_treasury paid)) |}.

Lemma credit_paid_again_after_restart :
  balanceOf rebooted = Some (Cnt 99500000 0 0)
  /\ balanceOf (deliver (dwenv 2) creditEvent rebooted).2 = Some (Cnt 199000000 0 0).
Proof. vm_compute. split; reflexivity. Qed.

(** ** The bank worker *)

Module Bank.
Import BankDepositWorker BankDepositAdapter.

Definition castSession (p : Payload) : option BankDepositSessionEventPayload := match p with PNotice (NBankSession x) => Some x | _ => None end.
Definition castBankCredit (p : Payload) : option CreditBankDepositPayload := match p with PCreditBankDeposit x => Some x | _ => None end.
Definition castBankSettle (p : Payload) : option SettleBankDepositPayload := match p with PSettleBankDeposit x => Some x | _ => None end.
Definition castRecycle (p : Payload) : option RecycleVirtualAccountPayload := match p with PRecycleVirtualAccount x => Some x | _ => None end.
Definition castRefund (p : Payload) : option RefundBankDepositPayload := match p with PRefundBankDeposit x => Some x | _ => None end.

(** One partner, "bank", that keeps the refunds it is asked for. *)
Definition partners (id : string) : option (RefundRequest -> list RefundRequest -> result unit * list RefundRequest) :=
  if String.eqb id "bank" then Some (fun r l => (Ok tt, (l ++ [r])%list)) else None.

Definition bwenv (k : nat) : BWEnv :=
  {| bwe_engine := env k; bwe_create := env (k + 1); bwe_treasury := CrashWitness.env k; bwe_now := 0 |}.

Definition deliver (k : nat) (ty : string) (p : Payload) : BankWorld -> result unit * BankWorld :=
  handleEvent (Some partners) CrashWitness.js (un castSession) (un castBankCredit) (un castBankSettle) (un castRecycle) (un castRefund)
    (bwenv k) (message ty p).

Definition inWorld (d : BankRuns.DB) : @BankWorld Qlib TDB (list RefundRequest) :=
  {| bkw_store := d; bkw_treasury := CrashWitness.live; bkw_partners := [] |}.

(** The notices the engine left in the outbox, in order. *)
Definition notices (d : BankRuns.DB) : list (string * Payload) :=
  omap (fun e => if String.eqb (oe_EventType e) EventBankDepositPaymentReceived then Some (oe_EventType e, oe_Payload e) else None)
    (BankDepositAdapter.bb_outbox (sq_tables d)).

(** A session is paid the 100 it expects.  The notice of the payment comes back
    to the worker, which hands it to the engine as a payment: 200 are booked. *)
Definition paid : BankRuns.DB := BankRuns.runCalls (BankRuns.create ++ [BankRuns.receive 1 "r1" (100 # 1)])%list (BankRuns.db0 []).

Definition rebooked : BankRuns.DB :=
  match notices paid with
  | (ty, p) :: _ => bkw_store (deliver 3 ty p (inWorld paid)).2
  | [] => paid
  end.

Lemma bank_payment_is_booked_twice :
  BankRuns.receivedOf paid = Some (100 # 1)%Q /\ BankRuns.receivedOf rebooked = Some (200 # 1)%Q.
Proof. split; vm_compute; reflexivity. Qed.

(** The refund of a payment of 50 is acknowledged, and no partner is asked. *)
Definition underpaid : BankRuns.DB := BankRuns.runCalls (BankRuns.create ++ [BankRuns.receive 1 "r1" (50 # 1)])%list (BankRuns.db0 []).

Definition refundOf (d : BankRuns.DB) : option RefundBankDepositPayload := head (omap (fun e => castRefund (oe_Payload e)) (bb_outbox (sq_tables d))).

Lemma refund_is_dropped : exists p, refundOf underpaid = Some p
  /\ let x := deliver 3 IntentBankDepositRefund (PRefundBankDeposit p) (inWorld underpaid) in
     is_ok x.1 = true /\ bkw_partners x.2 = [].
Proof. destruct (refundOf underpaid) as [p|] eqn:E; [|exfalso; revert E; vm_compute; discriminate].
  destruct (fmap_view rbp_AccountNumber (refundOf underpaid) "1") as (p' & E' & Hn); [vm_compute; reflexivity|].
  rewrite E in E'. injection E' as <-. exists p. split; [done|]. destruct p as [? ? n ? ? ?]. cbn in Hn. subst n. by split.
Qed.

(** An inbound credit during an outage of the database is acknowledged and
    booked nowhere. *)
Definition inbound : inboundPayload :=
  {| ib_PartnerID := "bank"; ib_AccountNumber := "1"; ib_Amount := "100"; ib_Currency := "GBP"; ib_PayerName := "Ada";
     ib_PayerAccountNumber := "9"; ib_PayerReference := ""; ib_BankReference := "r1"; ib_ReceivedAt := "" |}.

Definition arrive (bad : list nat) : result unit * BankRuns.DB :=
  routeCredit (fun _ => Ok (100 # 1)%Q) (fun _ => Ok 0) (bwenv 1) inbound (BankRuns.runCalls BankRuns.create (BankRuns.db0 bad)).

Lemma inbound_credit_lost :
  BankRuns.receivedOf (arrive []).2 = Some (100 # 1)%Q
  /\ is_ok (arrive (seq 2 20)).1 = true /\ BankRuns.receivedOf (arrive (seq 2 20)).2 = Some (0 # 1)%Q.
Proof. split_and!; vm_compute; reflexivity. Qed.
End Bank.
End ChainRuns.
