(* ===== verification/Reconciliation.v ===== *)
(** * core/reconciliation: the consistency checks

    Models src/core/reconciliation and
    src/store/transferdb/reconciliation_adapter.go: eight checks that count
    what looks wrong, and the reconciler that runs them side by side and
    stores a report.  [reconciler_reports_all] is about the reconciler,
    [treasury_check_passes_iff] about the comparison of treasury and ledger.
    The other theorems run the checks on what the components they watch
    produce: a settlement just calculated ([fee_check_fails_on_fees]) and
    deposits that went through ([every_deposit_is_a_mismatch]).

    The text of a detail is the list of values it is formatted from.  Metrics
    and logging are left out. *)

From Stdlib Require Import SpecFloat ZifyBool Ascii QArith Qabs Lqa.
From stdpp Require Import sorting.
From S2P Require Import Prelude ThirdParty GoNumbers Sql Machine Money Deposits Transfer Outbox Treasury TreasuryProps TransferStore DepositStore DepositEngine DepositProps DepositBooks DepositRuns BankDepositStore BankDepositEngine BankDepositProps NetSettlement NetSettlementStore NetSettlementProps NetSettlementRuns Engine Cache.
Local Open Scope string_scope.
Local Open Scope Z_scope.

Import SettlementAdapter.

Module Reconciliation.

Inductive CheckStatus : Set := Pass | Warn | Fail.

#[global] Instance CheckStatus_eq_dec : EqDecision CheckStatus.
Proof. solve_decision. Defined.

Section Reconciliation.
Context {L : ThirdParty}.

(** What a detail of a result names. *)
Inductive Detail :=
| DCount (what : string) (count threshold : Z)
| DAmounts (tenantID : UUID) (account : string) (ours theirs diff : Decimal)
| DQueryError (tenantID : UUID) (account : string) (e : error)
| DFees (settlementID : UUID) (settled transfers diff : Decimal)
| DVolume (today : Z) (average ratio : spec_float)
| DNote (text : string)
| DCheckError (e : error).

Record CheckResult := { cr_Name : string; cr_Status : CheckStatus; cr_Details : list Detail; cr_Mismatches : Z; cr_CheckedAt : Z }.

Record Report := { rp_ID : UUID; rp_RunAt : Z; rp_OverallPass : bool; rp_Results : list CheckResult }.

(** ** The adapter *)

(** The columns the queries read; [rt_default] is the default partition. *)
Record ReportRow := { rr_ID : UUID; rr_RunAt : Z; rr_ChecksRun : Z; rr_ChecksPassed : Z; rr_Discrepancies : list CheckResult; rr_NeedsReview : bool }.

Record RTables := {
  rt_transfers : list Transfer; rt_outbox : list OutboxEntry; rt_default : list OutboxEntry;
  rt_providerTxs : list (string * Z);       (* status, created_at *)
  rt_sessions : gmap UUID DepositSession; rt_txs : list DepositTransaction; rt_pool : list CryptoAddressPool;
  rt_checkpoints : list (string * Z);       (* chain, updated_at *)
  rt_bank : gmap UUID BankDepositSession; rt_accounts : list VirtualAccountPool;
  rt_settlements : list NetSettlement; rt_tenants : list Tenant; rt_reports : list ReportRow }.

Abbreviation RDB := (Sql RTables).

(** [SELECT COUNT( * )::int ... WHERE p]. *)
Definition countWhere {A} (p : A -> bool) (l : list A) : result Z :=
  let n := Z.of_nat (length (List.filter p l)) in if n <? 2 ^ 31 then Ok n else Err (MsgErr "integer out of range").

Definition values {A} (m : gmap UUID A) : list A := map snd (map_to_list m).

Definition CountTransfersInStatus (status : TransferStatus) (olderThan : Z) : RDB -> result Z * RDB :=
  query (fun _ t => wrap "counting transfers in status"
    (countWhere (fun x => bool_decide (tr_Status x = status) && (tr_UpdatedAt x <? olderThan)) (rt_transfers t))).

Definition CountUnpublishedOlderThan (olderThan : Z) : RDB -> result Z * RDB :=
  query (fun _ t => wrap "counting unpublished outbox entries"
    (countWhere (fun e => negb (oe_Published e) && (oe_CreatedAt e <? olderThan)) (rt_outbox t))).

Definition CountDefaultPartitionRows : RDB -> result Z * RDB :=
  query (fun _ t => wrap "counting default partition rows" (countWhere (fun _ => true) (rt_default t))).

Definition CountPendingProviderTxOlderThan (olderThan : Z) : RDB -> result Z * RDB :=
  query (fun _ t => wrap "counting pending provider txs"
    (countWhere (fun x => String.eqb x.1 "pending" && (x.2 <? olderThan)) (rt_providerTxs t))).

Definition createdIn (start stop : Z) (t : Transfer) : bool := (start <=? tr_CreatedAt t) && (tr_CreatedAt t <? stop).

Definition GetDailyTransferCount (date : Z) : RDB -> result Z * RDB :=
  query (fun _ t => wrap "getting daily transfer count" (countWhere (createdIn (midnight date) (midnight date + day)) (rt_transfers t))).

(** The callers ask for whole days. *)
Definition GetAverageDailyTransferCount (startDate endDate : Z) : RDB -> result spec_float * RDB :=
  query (fun _ t => Ok (f64_div (f64_of_Z (Z.of_nat (length (List.filter (createdIn startDate endDate) (rt_transfers t)))))
                                (f64_of_Z (Z.max 1 ((endDate - startDate) / day))))).

Definition GetTenantSlug (tenantID : UUID) : RDB -> result string * RDB :=
  query (fun _ t => wrap "getting tenant slug" (let? row := selectFirst (fun x => bool_decide (tn_ID x = tenantID)) (rt_tenants t) in Ok (tn_Slug row))).

(** The newest row, or none. *)
Definition GetLatestNetSettlement : RDB -> result (option NetSettlement) * RDB :=
  query (fun _ t => Ok (head (orderDesc ns_CreatedAt (rt_settlements t)))).

(** [COALESCE(SUM((fees->>'TotalFeeUSD')::numeric), 0)::NUMERIC(28,8)]. *)
Definition SumCompletedTransferFeesUSD (tenantID : UUID) (start stop : Z) : RDB -> result Decimal * RDB :=
  query (fun _ t => wrap "summing transfer fees"
    (numeric28_8 (sumOf (omap (fun x => feesJSON (tr_Fees x) !! "TotalFeeUSD") (periodTransfers tenantID start stop (rt_transfers t)))))).

Definition CountStuckDepositSessions (olderThan : Z) : RDB -> result Z * RDB :=
  query (fun _ t => wrap "counting stuck deposit sessions"
    (countWhere (fun s => negb (bool_decide (ds_Status s ∈ [DSSettled; DSHeld; DSExpired; DSFailed; DSCancelled])) && (ds_UpdatedAt s <? olderThan))
       (values (rt_sessions t)))).

Definition CountStaleBlockCheckpoints (olderThan : Z) : RDB -> result Z * RDB :=
  query (fun _ t => wrap "counting stale block checkpoints" (countWhere (fun x => x.2 <? olderThan) (rt_checkpoints t))).

Definition CountAvailablePoolAddressesAll : RDB -> result Z * RDB :=
  query (fun _ t => wrap "counting available pool addresses" (countWhere (fun a => negb (ca_Dispensed a)) (rt_pool t))).

(** The sum of the confirmed transactions of a session. *)
Definition confirmedSum (s : DepositSession) (txs : list DepositTransaction) : Decimal :=
  sumOf (map dt_Amount (List.filter (fun x => bool_decide (dt_SessionID x = ds_ID s) && dt_Confirmed x) txs)).

Definition credited (s : DepositSession) : bool := bool_decide (ds_Status s ∈ [DSConfirmed; DSCredited; DSSettling; DSSettled; DSHeld]).

Definition amountMismatch (txs : list DepositTransaction) (s : DepositSession) : bool :=
  credited s && negb (dEqual (ds_ReceivedAmount s) (confirmedSum s txs)).

Definition CountDepositTxAmountMismatches : RDB -> result Z * RDB :=
  query (fun _ t => wrap "counting deposit tx-amount mismatches" (countWhere (amountMismatch (rt_txs t)) (values (rt_sessions t)))).

Definition CountStuckBankDepositSessions (olderThan : Z) : RDB -> result Z * RDB :=
  query (fun _ t => wrap "counting stuck bank deposit sessions"
    (countWhere (fun s => bool_decide (bs_Status s = BSPendingPayment) && (bs_UpdatedAt s <? olderThan)) (values (rt_bank t)))).

Definition CountStuckBankDepositCrediting (olderThan : Z) : RDB -> result Z * RDB :=
  query (fun _ t => wrap "counting stuck bank deposit crediting"
    (countWhere (fun s => bool_decide (bs_Status s = BSCrediting) && (bs_UpdatedAt s <? olderThan)) (values (rt_bank t)))).

(** Any session of the account counts, also one before its present use. *)
Definition CountOrphanedVirtualAccounts : RDB -> result Z * RDB :=
  query (fun _ t => wrap "counting orphaned virtual accounts"
    (countWhere (fun p => negb (va_Available p)
       && existsb (fun s => String.eqb (bs_AccountNumber s) (va_AccountNumber p)
                            && bool_decide (bs_Status s ∈ [BSExpired; BSFailed; BSCancelled; BSSettled; BSHeld])) (values (rt_bank t)))
       (rt_accounts t))).

(** The insert names no id. *)
Definition CreateReconciliationReport (report : Report) : RDB -> result unit * RDB :=
  transact (fun c t =>
    match c_ids c 0%nat with
    | None => Err (WrapErr "storing reconciliation report" notNull)
    | Some id =>
        if existsb (fun r => bool_decide (rr_ID r = id)) (rt_reports t) then Err (WrapErr "storing reconciliation report" duplicateKey)
        else
          let passed := List.filter (fun r => bool_decide (cr_Status r = Pass)) (rp_Results report) in
          let row := {| rr_ID := id; rr_RunAt := rp_RunAt report; rr_ChecksRun := int32 (Z.of_nat (length (rp_Results report)));
                        rr_ChecksPassed := int32 (Z.of_nat (length passed)); rr_Discrepancies := rp_Results report;
                        rr_NeedsReview := negb (rp_OverallPass report) |} in
          Ok (tt, {| rt_transfers := rt_transfers t; rt_outbox := rt_outbox t; rt_default := rt_default t; rt_providerTxs := rt_providerTxs t;
                     rt_sessions := rt_sessions t; rt_txs := rt_txs t; rt_pool := rt_pool t; rt_checkpoints := rt_checkpoints t; rt_bank := rt_bank t;
                     rt_accounts := rt_accounts t; rt_settlements := rt_settlements t; rt_tenants := rt_tenants t;
                     rt_reports := (rt_reports t ++ [row])%list |})
    end).

Definition GetLatestReport : RDB -> result (option Report) * RDB :=
  query (fun _ t => let? rows := wrap "fetching latest report" (limitOffset 1 0 (orderDesc rr_RunAt (rt_reports t))) in
    Ok (match rows with
        | [] => None
        | r :: _ => Some {| rp_ID := rr_ID r; rp_RunAt := rr_RunAt r; rp_OverallPass := negb (rr_NeedsReview r); rp_Results := rr_Discrepancies r |}
        end)).

(** ** The checks

    [now i] is the i-th reading of the clock. *)

Definition minute : Z := 60 * 1000000000.

Definition statusOfIssues (issues : Z) : CheckStatus := if 0 <? issues then Fail else Pass.

(** One count of a check that adds up its issues. *)
Definition noted (what : string) (count threshold : Z) (acc : Z * list Detail) : Z * list Detail :=
  if 0 <? count then (acc.1 + count, (acc.2 ++ [DCount what count threshold])%list) else acc.

Definition DefaultTransferThresholds : list (TransferStatus * Z) :=
  [(Funded, 30 * minute); (OnRamping, 120 * minute); (Settling, 60 * minute); (OffRamping, 120 * minute)].

(** The thresholds in the order in which Go walks the map. *)
Fixpoint stuckTransfers (now : nat -> Z) (i : nat) (thresholds : list (TransferStatus * Z)) (acc : Z * list Detail) (d : RDB)
  : result (Z * list Detail) * RDB :=
  match thresholds with
  | [] => (Ok acc, d)
  | (status, threshold) :: rest =>
      match CountTransfersInStatus status (now i - threshold) d with
      | (Err e, d) => (Err (WrapErr "counting transfers" e), d)
      | (Ok count, d) => stuckTransfers now (Datatypes.S i) rest (noted "transfers stuck" count threshold acc) d
      end
  end.

Definition TransferStateCheck (thresholds : list (TransferStatus * Z)) (now : nat -> Z) (d : RDB) : result CheckResult * RDB :=
  let! (stuck, details) / d := stuckTransfers now 0 thresholds (0, []) d in
  (Ok {| cr_Name := "transfer_state_consistency"; cr_Status := statusOfIssues stuck; cr_Details := details; cr_Mismatches := stuck;
         cr_CheckedAt := now (length thresholds) |}, d).

Definition OutboxCheck (maxAge : Z) (now : nat -> Z) (d : RDB) : result CheckResult * RDB :=
  let maxAge := if maxAge =? 0 then 5 * minute else maxAge in
  let! unpublished / d := (let '(r, d) := CountUnpublishedOlderThan (now 0%nat - maxAge) d in (wrap "counting unpublished outbox entries" r, d)) in
  let! defaultRows / d := (let '(r, d) := CountDefaultPartitionRows d in (wrap "counting default partition rows" r, d)) in
  let '(issues, details) := noted "rows in default partition" defaultRows 0 (noted "unpublished entries" unpublished maxAge (0, [])) in
  (Ok {| cr_Name := "outbox_health"; cr_Status := statusOfIssues issues; cr_Details := details; cr_Mismatches := issues; cr_CheckedAt := now 1%nat |}, d).

Definition ProviderTxCheck (maxPendingAge : Z) (now : nat -> Z) (d : RDB) : result CheckResult * RDB :=
  let maxAge := if maxPendingAge =? 0 then 60 * minute else maxPendingAge in
  let! count / d := (let '(r, d) := CountPendingProviderTxOlderThan (now 0%nat - maxAge) d in (wrap "counting pending provider txs" r, d)) in
  (Ok {| cr_Name := "provider_tx_reconciliation"; cr_Status := if 0 <? count then Warn else Pass;
         cr_Details := (noted "pending provider transactions" count maxAge (0, [])).2; cr_Mismatches := count; cr_CheckedAt := now 1%nat |}, d).

Definition DailyVolumeCheck (now : nat -> Z) (d : RDB) : result CheckResult * RDB :=
  let today := midnight (now 0%nat) in
  let! todayCount / d := (let '(r, d) := GetDailyTransferCount today d in (wrap "getting today's transfer count" r, d)) in
  let! avg / d := (let '(r, d) := GetAverageDailyTransferCount (today - 7 * day) (today - day) d in (wrap "getting average transfer count" r, d)) in
  let answer status details :=
    (Ok {| cr_Name := "daily_volume_sanity"; cr_Status := status; cr_Details := details; cr_Mismatches := 0; cr_CheckedAt := now 1%nat |}, d) in
  if f64_eqb avg (f64_of_Z 0) then answer Pass [DNote "no historical average available"]
  else
    let pct := f64_mul (f64_div (f64_of_Z todayCount) avg) (f64_of_Z 100) in
    answer (if f64_leb (f64_of_Z 500) pct then Fail else if f64_leb (f64_of_Z 200) pct then Warn else Pass) [DVolume todayCount avg pct].

Definition cent : Decimal := dDiv (NewFromInt 1) (NewFromInt 100).

Definition SettlementFeeCheck (tolerance : Decimal) (now : nat -> Z) (d : RDB) : result CheckResult * RDB :=
  let tolerance := if IsZero tolerance || IsNegative tolerance then cent else tolerance in
  let! settlement / d := (let '(r, d) := GetLatestNetSettlement d in (wrap "fetching latest net settlement" r, d)) in
  let answer status details mismatches d :=
    (Ok {| cr_Name := "settlement_fee_reconciliation"; cr_Status := status; cr_Details := details; cr_Mismatches := mismatches;
           cr_CheckedAt := now 0%nat |}, d) in
  match settlement with
  | None => answer Pass [DNote "no net settlements found"] 0 d
  | Some s =>
      let! fees / d := (let '(r, d) := SumCompletedTransferFeesUSD (ns_TenantID s) (ns_PeriodStart s) (ns_PeriodEnd s) d in
                        (wrap "summing transfer fees" r, d)) in
      let diff := dAbs (dSub fees (ns_TotalFeesUSD s)) in
      if GreaterThan diff tolerance then answer Fail [DFees (ns_ID s) (ns_TotalFeesUSD s) fees diff] 1 d
      else answer Pass [DFees (ns_ID s) (ns_TotalFeesUSD s) fees diff] 0 d
  end.

Definition DepositCheck (stuckThreshold checkpointMaxAge poolAlertThreshold : Z) (now : nat -> Z) (d : RDB) : result CheckResult * RDB :=
  let stuckThreshold := if stuckThreshold =? 0 then 10 * minute else stuckThreshold in
  let checkpointMaxAge := if checkpointMaxAge =? 0 then 5 * minute else checkpointMaxAge in
  let poolAlert := if poolAlertThreshold =? 0 then 50 else poolAlertThreshold in
  let! stuck / d := (let '(r, d) := CountStuckDepositSessions (now 0%nat - stuckThreshold) d in (wrap "counting stuck deposit sessions" r, d)) in
  let! stale / d := (let '(r, d) := CountStaleBlockCheckpoints (now 1%nat - checkpointMaxAge) d in (wrap "counting stale block checkpoints" r, d)) in
  let! available / d := (let '(r, d) := CountAvailablePoolAddressesAll d in (wrap "counting available pool addresses" r, d)) in
  let! mismatches / d := (let '(r, d) := CountDepositTxAmountMismatches d in (wrap "counting deposit tx-amount mismatches" r, d)) in
  let acc := noted "stale block checkpoints" stale checkpointMaxAge (noted "deposit sessions stuck" stuck stuckThreshold (0, [])) in
  let acc := if available <? poolAlert then (acc.1 + 1, (acc.2 ++ [DCount "address pool low" available poolAlert])%list) else acc in
  let '(issues, details) := noted "sessions with tx-amount mismatches" mismatches 0 acc in
  (Ok {| cr_Name := "deposit_health"; cr_Status := statusOfIssues issues; cr_Details := details; cr_Mismatches := issues; cr_CheckedAt := now 2%nat |}, d).

Definition BankDepositCheck (stuckSessionsMinutes stuckCreditingMinutes : Z) (now : nat -> Z) (d : RDB) : result CheckResult * RDB :=
  let stuckSessions := if stuckSessionsMinutes * minute =? 0 then 30 * minute else stuckSessionsMinutes * minute in
  let stuckCrediting := if stuckCreditingMinutes * minute =? 0 then 5 * minute else stuckCreditingMinutes * minute in
  let! stuck / d := (let '(r, d) := CountStuckBankDepositSessions (now 0%nat - stuckSessions) d in (wrap "counting stuck bank deposit sessions" r, d)) in
  let! crediting / d := (let '(r, d) := CountStuckBankDepositCrediting (now 1%nat - stuckCrediting) d in
                         (wrap "counting stuck bank deposit crediting" r, d)) in
  let! orphaned / d := (let '(r, d) := CountOrphanedVirtualAccounts d in (wrap "counting orphaned virtual accounts" r, d)) in
  let '(issues, details) := noted "orphaned virtual accounts" orphaned 0 (noted "stuck in CREDITING" crediting stuckCrediting
                              (noted "stuck in PENDING_PAYMENT" stuck stuckSessions (0, []))) in
  (Ok {| cr_Name := "bank_deposit"; cr_Status := statusOfIssues issues; cr_Details := details; cr_Mismatches := issues; cr_CheckedAt := now 2%nat |}, d).

(** *** Treasury against ledger *)

Definition buildAccountCode (slug : string) (pos : Position) : string :=
  "tenant:" +:+ slug +:+ ":assets:bank:" +:+ ToLower (pos_Currency pos) +:+ ":" +:+ pos_Location pos.

Section TreasuryLedger.
(** The positions of the manager, the slugs, and the balances of the ledger. *)
Variable GetPositions : UUID -> result (list Position).
Variable getSlug : UUID -> result string.
Variable GetAccountBalance : string -> result Decimal.
Variable tolerance : Decimal.

Definition slugOf (tenantID : UUID) : string := match getSlug tenantID with Ok slug => slug | Err _ => uuid_String tenantID end.

Definition comparePosition (tenantID : UUID) (acc : Z * list Detail) (pos : Position) : Z * list Detail :=
  let account := buildAccountCode (slugOf tenantID) pos in
  match GetAccountBalance account with
  | Err e => (acc.1 + 1, (acc.2 ++ [DQueryError tenantID account e])%list)
  | Ok ledger =>
      let diff := dAbs (dSub (pos_Balance pos) ledger) in
      if GreaterThan diff tolerance then (acc.1 + 1, (acc.2 ++ [DAmounts tenantID account (pos_Balance pos) ledger diff])%list) else acc
  end.

Fixpoint compareTenants (tenantIDs : list UUID) (acc : Z * list Detail) : result unit * (Z * list Detail) :=
  match tenantIDs with
  | [] => (Ok tt, acc)
  | id :: rest =>
      match GetPositions id with
      | Err e => (Err (WrapErr "getting positions" e), acc)
      | Ok positions => compareTenants rest (foldl (comparePosition id) acc positions)
      end
  end.

(** [forEach] is the iteration over tenants of the adapter; [None] if it does
    not return. *)
Definition TreasuryLedgerCheck (forEach : Z -> (list UUID -> Z * list Detail -> result unit * (Z * list Detail)) -> Z * list Detail
                                          -> option (result unit * (Z * list Detail))) (now : Z) : option (result CheckResult) :=
  match forEach 500 compareTenants (0, []) with
  | None => None
  | Some (Err e, _) => Some (Err (WrapErr "tenant iteration failed" e))
  | Some (Ok _, (mismatches, details)) =>
      Some (Ok {| cr_Name := "treasury_ledger_balance"; cr_Status := statusOfIssues mismatches; cr_Details := details; cr_Mismatches := mismatches;
                  cr_CheckedAt := now |})
  end.
End TreasuryLedger.

(** ** The reconciler *)

(** A check by its name; [ck_Run since] is what it answers when it is run,
    given the last time it passed. *)
Record Check := { ck_Name : string; ck_Run : option Z -> result CheckResult }.

(** A check is gated by the flag when its name starts with enhanced_. *)
Definition isActive (flags : option (string -> bool)) (c : Check) : bool :=
  match flags with
  | Some isEnabled => if String.prefix "enhanced_" (ck_Name c) then isEnabled "enhanced_reconciliation" else true
  | None => true
  end.

(** One goroutine: an error is a failure; [now] is read after the run. *)
Definition runCheck (lastRunAt : gmap string Z) (now : Z) (c : Check) : CheckResult :=
  match ck_Run c (lastRunAt !! ck_Name c) with
  | Ok r => r
  | Err e => {| cr_Name := ck_Name c; cr_Status := Fail; cr_Details := [DCheckError e]; cr_Mismatches := 0; cr_CheckedAt := now |}
  end.

(** The goroutines hand in their results in any order; each goes to the place
    of its check. *)
Definition ordered (n : nat) (zero : CheckResult) (arrivals : list (nat * CheckResult)) : list CheckResult :=
  foldl (fun o a => <[a.1 := a.2]> o) (replicate n zero) arrivals.

(** The zero value of the slice: every place of it is written. *)
Definition noResult : CheckResult := {| cr_Name := ""; cr_Status := Fail; cr_Details := []; cr_Mismatches := 0; cr_CheckedAt := 0 |}.

Definition passedAt (c : Check) (r : CheckResult) (now : Z) (m : gmap string Z) : gmap string Z :=
  if bool_decide (cr_Status r = Pass) then <[ck_Name c := now]> m else m.

Record REnv := { re_id : UUID; re_runAt : Z; re_now : nat -> Z; re_arrival : list nat }.

(** [re_arrival] are the checks in the order in which they finish.  The marks
    are read before any check writes one. *)
Definition Run (env : REnv) (flags : option (string -> bool)) (checks : list Check) (lastRunAt : gmap string Z) (d : RDB)
  : result Report * (gmap string Z * RDB) :=
  let active := List.filter (isActive flags) checks in
  let results := imap (fun i c => runCheck lastRunAt (re_now env i) c) active in
  let arrivals := omap (fun i => (fun r => (i, r)) <$> results !! i) (re_arrival env) in
  let marks := foldl (fun m i => match active !! i, results !! i with Some c, Some r => passedAt c r (re_now env i) m | _, _ => m end)
                 lastRunAt (re_arrival env) in
  let all := ordered (length active) noResult arrivals in
  let report := {| rp_ID := re_id env; rp_RunAt := re_runAt env; rp_OverallPass := forallb (fun r => bool_decide (cr_Status r = Pass)) all;
                   rp_Results := all |} in
  match CreateReconciliationReport report d with
  | (Err e, d) => (Err (WrapErr "storing report" e), (marks, d))
  | (Ok _, d) => (Ok report, (marks, d))
  end.
End Reconciliation.
End Reconciliation.

(** ** What the checks and the reconciler guarantee *)

Module ReconciliationProps.
Import Reconciliation Cache CacheProps.

Section Reconciler.
Context {L : ThirdParty}.

(** Every place is filled by the result of its check, in whatever order they
    come in. *)
Lemma ordered_fills (results : list CheckResult) zero arrivals : arrivals ≡ₚ seq 0 (length results) ->
  ordered (length results) zero (omap (fun i => (fun r => (i, r)) <$> results !! i) arrivals) = results.
Proof.
  intros Hp. set (f := fun (o : list CheckResult) (a : nat * CheckResult) => <[a.1 := a.2]> o).
  assert (forall js o, length o = length results -> length (foldl f o (omap (fun i => (fun r => (i, r)) <$> results !! i) js)) = length results
    /\ forall i r, results !! i = Some r -> (i ∈ js \/ o !! i = Some r) ->
         foldl f o (omap (fun i => (fun r => (i, r)) <$> results !! i) js) !! i = Some r) as H.
  { induction js as [|j js IH]; intros o Ho; [split; [done|]; by intros i r _ [Hi%elem_of_nil|Hi]|]. cbn. destruct (results !! j) as [x|] eqn:Ej; cbn.
    - destruct (IH (f o (j, x))) as [IHl IHv]; [by unfold f; rewrite length_insert|]. split; [done|]. intros i r Hi Hor. apply (IHv i r Hi).
      destruct (decide (i = j)) as [->|Hne].
      + right. unfold f. cbn. rewrite list_lookup_insert_eq; [congruence|]. rewrite Ho. by eapply lookup_lt_Some.
      + destruct Hor as [[?|?]%elem_of_cons|Hor]; [done|by left|]. right. unfold f. cbn. by rewrite list_lookup_insert_ne.
    - destruct (IH o Ho) as [IHl IHv]. split; [done|]. intros i r Hi Hor. apply (IHv i r Hi). destruct Hor as [[->|?]%elem_of_cons|?]; [congruence|by left|by right]. }
  change (foldl f (replicate (length results) zero) (omap (fun i => (fun r => (i, r)) <$> results !! i) arrivals) = results).
  destruct (H arrivals (replicate (length results) zero)) as [Hl Hv]; [apply length_replicate|]. apply list_eq_same_length with (length results); [done|done|].
  intros i x y Hi Hx Hy. rewrite (Hv i y Hy) in Hx; [congruence|]. left. rewrite Hp. apply elem_of_seq. lia.
Qed.

#[local] Instance keyGe_total {A} (k : A -> Z) : Total (flip (keyLe k)).
Proof. intros a b. unfold flip, keyLe. lia. Qed.
#[local] Instance keyGe_transitive {A} (k : A -> Z) : Transitive (flip (keyLe k)).
Proof. intros a b c. unfold flip, keyLe. lia. Qed.

(** ORDER BY ... DESC LIMIT 1 finds the newest row. *)
Lemma orderDesc_newest {A} (k : A -> Z) l x : Forall (fun y => k y < k x) l -> exists rest, orderDesc k (l ++ [x])%list = x :: rest.
Proof.
  intros Hl. pose proof (StronglySorted_merge_sort (flip (keyLe k)) (l ++ [x])%list) as Hs. pose proof (merge_sort_Permutation (flip (keyLe k)) (l ++ [x])%list) as Hp.
  unfold orderDesc. destruct (merge_sort _ _) as [|y rest]; [apply Permutation_nil_l in Hp; by destruct l|]. exists rest. f_equal.
  inversion Hs as [|? ? _ Hy]; subst. assert (y ∈ (l ++ [x])%list) as Hin by (rewrite <- Hp; left). apply elem_of_app in Hin as [Hin|Hin]; [|by apply list_elem_of_singleton in Hin].
  rewrite Forall_forall in Hl. specialize (Hl y Hin). assert (x ∈ y :: rest) as [->|Hx]%elem_of_cons by (rewrite Hp; apply elem_of_app; right; by apply list_elem_of_singleton); [done|].
  rewrite Forall_forall in Hy. specialize (Hy x Hx). unfold flip, keyLe in Hy. lia.
Qed.

Definition resultsOf (env : REnv) (flags : option (string -> bool)) (checks : list Check) (lastRunAt : gmap string Z) : list CheckResult :=
  imap (fun i c => runCheck lastRunAt (re_now env i) c) (List.filter (isActive flags) checks).

(** In whatever order the checks finish, the report lists the result of
    every active check in the order of the checks, an error counting as a
    failure, and passes exactly if all of them do.  If it is the newest, it is
    what the store gives back. *)
Theorem reconciler_reports_all env flags checks lastRunAt (d : Sql RTables) r m d' :
  re_arrival env ≡ₚ seq 0 (length (List.filter (isActive flags) checks)) ->
  Run env flags checks lastRunAt d = (Ok r, (m, d')) ->
  rp_Results r = resultsOf env flags checks lastRunAt
  /\ (rp_OverallPass r = true <-> Forall (fun x => cr_Status x = Pass) (resultsOf env flags checks lastRunAt))
  /\ (Forall (fun x => rr_RunAt x < re_runAt env) (rt_reports (sq_tables d)) -> sq_up d ->
      exists r0 d2, GetLatestReport d' = (Ok (Some r0), d2) /\ rp_RunAt r0 = rp_RunAt r /\ rp_OverallPass r0 = rp_OverallPass r /\ rp_Results r0 = rp_Results r).
Proof.
  intros Harr. unfold Run. set (active := List.filter _ _) in *. fold (resultsOf env flags checks lastRunAt).
  assert (length (resultsOf env flags checks lastRunAt) = length active) as Hlen by apply length_imap. rewrite <- Hlen in Harr |- *.
  rewrite ordered_fills by done. set (rep := {| rp_ID := _ |}). destruct (CreateReconciliationReport rep d) as [a d1] eqn:E. destruct a; [|done].
  intros [= <- _ <-]. split; [done|]. split.
  - cbn. rewrite forallb_forall, Forall_forall. split; intros H x Hx; specialize (H x); rewrite bool_decide_eq_true in *; apply H; by apply list_elem_of_In.
  - intros Hold Hup. assert (sq_up d1) as Hup1 by (intros n; unfold CreateReconciliationReport, transact in E; repeat case_match; simplify_eq/=; apply Hup).
    apply transact_inv in E as [(_ & ? & _)|(u & Hf & _)]; [done|]. destruct (c_ids _ _) as [id|]; [|done]. destruct (existsb _ _); [done|].
    injection Hf as _ Ht. unfold GetLatestReport. rewrite query_up, <- Ht by done. cbn [rt_reports].
    edestruct (orderDesc_newest rr_RunAt (rt_reports (sq_tables d))) as [rest ->]; [|eexists _, _; split; [reflexivity|]; cbn; by rewrite negb_involutive].
    eapply Forall_impl; [exact Hold|]. cbn. done.
Qed.
End Reconciler.

(** *** Treasury and ledger *)

Section TreasuryLedger.
Context {L : ThirdParty} {LL : ThirdPartyLaws L}.
Variable GetPositions : UUID -> result (list Position).
Variable getSlug : UUID -> result string.
Variable GetAccountBalance : string -> result Decimal.
Variable tolerance : Decimal.

(** The ledger has the balance, up to the tolerance. *)
Definition reconciled (id : UUID) (pos : Position) : Prop :=
  exists ledger, GetAccountBalance (buildAccountCode (slugOf getSlug id) pos) = Ok ledger
    /\ (Qabs (dVal (pos_Balance pos) - dVal ledger) <= dVal tolerance)%Q.

Lemma comparePosition_counts id acc pos :
  (comparePosition getSlug GetAccountBalance tolerance id acc pos).1 = acc.1 /\ reconciled id pos
  \/ (comparePosition getSlug GetAccountBalance tolerance id acc pos).1 = acc.1 + 1 /\ ~ reconciled id pos.
Proof.
  unfold comparePosition, reconciled. destruct (GetAccountBalance _) as [ledger|e]; [|right; split; [done|]; by intros (l & ? & _)].
  destruct (GreaterThanP (dAbs (dSub (pos_Balance pos) ledger)) tolerance) as [H|H]; rewrite dAbs_val, dSub_val in H; cbn.
  - right. split; [done|]. intros (l & [= <-] & Hle). by apply (Qlt_not_le _ _ H).
  - left. split; [done|]. exists ledger. split; [done|]. by apply Qnot_lt_le.
Qed.

Lemma positions_count id acc l :
  acc.1 <= (foldl (comparePosition getSlug GetAccountBalance tolerance id) acc l).1
  /\ ((foldl (comparePosition getSlug GetAccountBalance tolerance id) acc l).1 = acc.1 <-> Forall (reconciled id) l).
Proof.
  revert acc. induction l as [|pos l IH]; intros acc; cbn; [split; [lia|split; constructor]|].
  destruct (IH (comparePosition getSlug GetAccountBalance tolerance id acc pos)) as [IH1 IH2].
  destruct (comparePosition_counts id acc pos) as [[E Hr]|[E Hr]]; rewrite E in IH1, IH2; split; try lia.
  - rewrite IH2. split; [by constructor|by inversion 1].
  - split; [lia|]. intros H. by inversion H.
Qed.

Definition tenantReconciled (id : UUID) : Prop := exists l, GetPositions id = Ok l /\ Forall (reconciled id) l.

Abbreviation compare := (compareTenants GetPositions getSlug GetAccountBalance tolerance).

Lemma tenants_count ids acc u acc' : compare ids acc = (Ok u, acc') ->
  acc.1 <= acc'.1 /\ (acc'.1 = acc.1 <-> Forall tenantReconciled ids).
Proof.
  revert acc. induction ids as [|id ids IH]; intros acc; cbn; [intros [= _ <-]; split; [lia|split; constructor]|].
  destruct (GetPositions id) as [l|e] eqn:El; [|done]. intros [H1 H2]%IH. destruct (positions_count id acc l) as [H3 H4]. split; [lia|].
  rewrite Forall_cons. unfold tenantReconciled at 1. rewrite El. split.
  - intros E. split; [exists l; split; [done|apply H4; lia]|apply H2; lia].
  - intros [(l' & [= <-] & Hl) Hids]. apply H4 in Hl. apply H2 in Hids. lia.
Qed.

Lemma batches_count bs acc acc' : handled compare bs acc acc' -> acc.1 <= acc'.1 /\ (acc'.1 = acc.1 <-> Forall tenantReconciled (concat bs)).
Proof.
  induction 1 as [acc|b bs acc acc1 acc2 u Hb _ [IH1 IH2]]; [split; [lia|split; constructor]|]. apply tenants_count in Hb as [H1 H2]. split; [lia|].
  cbn. rewrite Forall_app, <- H2, <- IH2. lia.
Qed.

Lemma compare_ok ids acc : (forall id, id ∈ ids -> is_ok (GetPositions id) = true) -> exists acc', compare ids acc = (Ok tt, acc').
Proof.
  revert acc. induction ids as [|id ids IH]; intros acc H; cbn; [by eexists|]. destruct (GetPositions id) eqn:E.
  - apply IH. intros i Hi. apply H. by right.
  - specialize (H id). rewrite E in H. by discriminate H; left.
Qed.

(** C30: While the positions of the tenants can be read, the comparison of
    treasury and ledger returns, and it passes exactly if every position of
    every active tenant has a ledger account whose balance differs by no more
    than the tolerance. *)
Theorem treasury_check_passes_iff ids fuel now : Z.of_nat (length ids) + 500 < 2 ^ 31 -> (length ids < fuel)%nat ->
  (forall id, is_ok (GetPositions id) = true) ->
  exists r, TreasuryLedgerCheck GetPositions getSlug GetAccountBalance tolerance
              (fun b fn w => ForEachTenantBatch fuel (pageOf ids) b fn 0 w) now = Some (Ok r)
    /\ (cr_Status r = Pass <-> forall id l pos, id ∈ ids -> GetPositions id = Ok l -> pos ∈ l -> reconciled id pos).
Proof.
  intros Hl Hf Hok. destruct (batches_complete compare ids 500 fuel eq_refl Hl 0 (0, [])) as (u & [n details] & E & Hu & Herr); [lia..|].
  unfold TreasuryLedgerCheck. rewrite E. destruct u as [[]|e].
  2: { destruct (Herr e eq_refl) as (x & w0 & Hx). destruct (compare_ok x w0) as [acc' Ha]; [by intros|]. rewrite Ha in Hx. done. }
  eexists. split; [reflexivity|]. destruct (Hu eq_refl) as (bs & Hc & Hh). apply batches_count in Hh as [Hge Hiff]. rewrite Hc in Hiff. cbn in Hge, Hiff.
  cbn. unfold statusOfIssues. rewrite Forall_forall in Hiff. split.
  - destruct (0 <? n) eqn:Hn; [done|]. intros _ id l pos Hid Hg Hpos. destruct ((proj1 Hiff) ltac:(lia) id Hid) as (l' & Hg' & Hall).
    rewrite Hg in Hg'. injection Hg' as <-. rewrite Forall_forall in Hall. by apply Hall.
  - intros H. destruct (0 <? n) eqn:Hn; [|done]. exfalso. assert (n = 0); [|lia]. apply Hiff. intros id Hid. specialize (Hok id).
    destruct (GetPositions id) as [l|] eqn:Eg; [|done]. exists l. split; [done|]. apply Forall_forall. intros pos. by eapply H.
Qed.

Lemma string_app_inv (a b c : string) : a +:+ b = a +:+ c -> b = c.
Proof. intros H. by apply string_app_inj in H as [_ H]. Qed.

(** The account the check asks for is not the one the engine posts a
    transfer's money to. *)
Lemma check_reads_another_account slug pos t : pos_Currency pos = tr_SourceCurrency t -> pos_Location pos = location_of t ->
  buildAccountCode slug pos <> clearing_account slug t.
Proof.
  intros Hc Hp. unfold buildAccountCode, clearing_account, TenantAccountCode, location_of in *. rewrite Hc, Hp.
  set (cur := ToLower (tr_SourceCurrency t)). intros H. apply string_app_inv, string_app_inv in H. injection H as H. apply string_app_inv, string_app_inv in H. discriminate H.
Qed.
End TreasuryLedger.

(** *** Fees of a settlement *)

Section Fees.
Context {L : ThirdParty} {LL : ThirdPartyLaws L} {AO : AnyOrder}.

Lemma cent_val : (dVal cent == 1 # 100)%Q.
Proof. unfold cent. rewrite dDiv_val by (rewrite NewFromInt_val; done). rewrite !NewFromInt_val. reflexivity. Qed.

(** A settlement that was just calculated, checked against the very
    transfers it was calculated from, fails the fee check exactly if these
    transfers carry more than a cent of fees: the two queries read the fees
    under different names, and the settlement's name does not exist. *)
Theorem fee_check_fails_on_fees id now tn lo hi (d : Sql SettlementTables) s d' (rd : Sql RTables) nows fees :
  amountsOk (nt_transfers (sq_tables d)) -> CalculateNetSettlement id now tn lo hi d = (Ok s, d') ->
  sq_up rd -> rt_transfers (sq_tables rd) = nt_transfers (sq_tables d) -> head (orderDesc ns_CreatedAt (rt_settlements (sq_tables rd))) = Some s ->
  numeric28_8 (sumOf (map (fun t => TotalFeeUSD (tr_Fees t)) (periodTransfers tn lo hi (nt_transfers (sq_tables d))))) = Ok fees ->
  exists r rd', SettlementFeeCheck dZero nows rd = (Ok r, rd') /\ (cr_Status r = Fail <-> (1 # 100 < Qabs (dVal fees))%Q).
Proof.
  intros Ha Hs Hup Htr Hlast Hfees. pose proof (settlement_charges_no_fees _ _ _ _ _ _ _ _ Ha Hs) as [Hzero _].
  destruct (calculate_ok _ _ _ _ _ _ _ _ Hs) as (_ & tenant & ags & _ & Es).
  assert (ns_TenantID s = tn /\ ns_PeriodStart s = lo /\ ns_PeriodEnd s = hi) as (Ht & Hlo & Hhi) by (by rewrite Es).
  unfold SettlementFeeCheck, GetLatestNetSettlement. rewrite query_up by done. rewrite Hlast. cbn [wrap].
  unfold SumCompletedTransferFeesUSD. rewrite query_up by (intros n; apply Hup). cbn [sq_tables sq_set]. rewrite Htr, Ht, Hlo, Hhi.
  assert (forall l, omap (fun x => feesJSON (tr_Fees x) !! "TotalFeeUSD") l = map (fun t => TotalFeeUSD (tr_Fees t)) l) as Hom
    by (induction l as [|x l IH]; cbn; [done|by rewrite IH]).
  rewrite Hom, Hfees. cbn [wrap]. assert (IsZero dZero = true) as -> by (unfold IsZero; by destruct (dEqualP dZero dZero)). cbn [orb].
  destruct (GreaterThanP (dAbs (dSub fees (ns_TotalFeesUSD s))) cent) as [H|H]; rewrite dAbs_val, dSub_val, Hzero, cent_val in H;
    eexists _, _; (split; [reflexivity|]); cbn; assert (dVal fees - 0 == dVal fees)%Q as E by ring; rewrite E in H; done.
Qed.
End Fees.

(** *** Deposits *)

Section DepositHealth.
Context {L : ThirdParty} {LL : ThirdPartyLaws L} {St : Type} `{DS : !DepositStore St} {DL : DepositStoreLaws St}.

Definition unconfirmed (v : DepositView) : Prop := Forall (fun t => dt_Confirmed t = false) (dv_txs v).

(** No handler ever marks a transaction as confirmed. *)
Lemma effect_unconfirmed c v v' : unconfirmed v -> effect c v v' -> unconfirmed v'.
Proof.
  unfold unconfirmed. intros Hu He. destruct He as [| | | |? ? ? ? ? ? ? ? ? ? ? ? ? ? Ht]; cbn; try done; [by apply Forall_app_2; [|constructor]..|by rewrite Ht].
Qed.

Lemma runCalls_unconfirmed l (st : St) : dinv st -> unconfirmed (dview st) -> unconfirmed (dview (runCalls l st)).
Proof.
  revert st. induction l as [|[env c] l IH]; intros st Hi Hu; [done|]. cbn. destruct (call env c st) as [r st'] eqn:E.
  destruct (call_effects _ _ _ _ _ Hi E) as [Hi' He]. apply IH; [done|]. cbn. by eapply (invariant_rtc (effect c) unconfirmed (effect_unconfirmed c)).
Qed.

Lemma confirmedSum_zero s txs : Forall (fun t => dt_Confirmed t = false) txs -> confirmedSum s txs = dZero.
Proof.
  intros H. unfold confirmedSum. replace (List.filter _ txs) with (@nil DepositTransaction); [done|]. symmetry. induction H as [|t txs Ht _ IH]; [done|].
  cbn. by rewrite Ht, andb_false_r.
Qed.

Lemma countWhere_ok {A} (p : A -> bool) l n : countWhere p l = Ok n -> n = Z.of_nat (length (List.filter p l)).
Proof. unfold countWhere. case_match; by intros [= <-]. Qed.

Lemma noted_adds what count th acc : 0 <= count -> (noted what count th acc).1 = acc.1 + count.
Proof. unfold noted. case_match; cbn; lia. Qed.

Definition paidAndCredited (s : DepositSession) : bool := credited s && negb (IsZero (ds_ReceivedAmount s)).

(** However the handlers of deposits have been called, the reconciliation
    counts every session that was credited with a payment as a mismatch, and
    one such session is enough for the deposit check to fail: the query adds
    up confirmed transactions, and no handler confirms one. *)
Theorem every_deposit_is_a_mismatch l (st : St) (rd : Sql RTables) n rd' :
  dinv st -> dv_txs (dview st) = [] ->
  rt_sessions (sq_tables rd) = dv_sessions (dview (runCalls l st)) -> rt_txs (sq_tables rd) = dv_txs (dview (runCalls l st)) ->
  CountDepositTxAmountMismatches rd = (Ok n, rd') ->
  n = Z.of_nat (length (List.filter paidAndCredited (values (dv_sessions (dview (runCalls l st))))))
  /\ forall a b c nows r rd2, 0 < n -> DepositCheck a b c nows rd = (Ok r, rd2) -> cr_Status r = Fail.
Proof.
  intros Hi Ht Es Et Hn. assert (unconfirmed (dview (runCalls l st))) as Hu by (apply runCalls_unconfirmed; [done|]; unfold unconfirmed; by rewrite Ht).
  assert (wrap "counting deposit tx-amount mismatches" (countWhere (amountMismatch (rt_txs (sq_tables rd))) (values (rt_sessions (sq_tables rd)))) = Ok n) as Hc
    by (by apply query_inv in Hn as [_ Hn]; apply Hn).
  split.
  - apply wrap_ok, countWhere_ok in Hc as ->. rewrite Es, Et. do 2 f_equal. apply filter_ext. intros s. unfold amountMismatch, paidAndCredited.
    by rewrite confirmedSum_zero.
  - intros a b c nows r rd2 Hpos. unfold DepositCheck. set (t1 := if a =? 0 then _ else _). set (t2 := if b =? 0 then _ else _). set (t3 := if c =? 0 then _ else _).
    destruct (CountStuckDepositSessions _ rd) as [q1 d1] eqn:E1. apply query_inv in E1 as [T1 Q1]. destruct q1 as [stuck|]; [|done]. cbn [wrap].
    destruct (CountStaleBlockCheckpoints _ d1) as [q2 d2] eqn:E2. apply query_inv in E2 as [T2 Q2]. destruct q2 as [stale|]; [|done]. cbn [wrap].
    destruct (CountAvailablePoolAddressesAll d2) as [q3 d3] eqn:E3. apply query_inv in E3 as [T3 _]. destruct q3 as [avail|]; [|done]. cbn [wrap].
    destruct (CountDepositTxAmountMismatches d3) as [q4 d4] eqn:E4. apply query_inv in E4 as [_ Q4]. destruct q4 as [mism|]; [|done]. cbn [wrap].
    specialize (Q4 mism eq_refl). rewrite T3, T2, T1, Hc in Q4. injection Q4 as <-.
    specialize (Q1 stuck eq_refl). specialize (Q2 stale eq_refl). apply wrap_ok, countWhere_ok in Q1. apply wrap_ok, countWhere_ok in Q2.
    set (acc := if avail <? t3 then _ else _). assert (0 <= acc.1) as Hacc.
    { subst acc. case_match; cbn [fst]; rewrite !noted_adds by lia; cbn; lia. }
    destruct (noted "sessions with tx-amount mismatches" n 0 acc) as [issues details] eqn:En. pose proof (noted_adds "sessions with tx-amount mismatches" n 0 acc) as Hadd.
    rewrite En in Hadd. cbn in Hadd. intros [= <- _]. cbn. unfold statusOfIssues. destruct (0 <? issues) eqn:Hx; [done|lia].
Qed.
End DepositHealth.
End ReconciliationProps.

(** ** Runs *)

Module ReconciliationRuns.
Import QInstance DepositAdapter BankDepositAdapter Reconciliation ReconciliationProps.

Definition noTables : RTables :=
  {| rt_transfers := []; rt_outbox := []; rt_default := []; rt_providerTxs := []; rt_sessions := ∅; rt_txs := []; rt_pool := []; rt_checkpoints := [];
     rt_bank := ∅; rt_accounts := []; rt_settlements := []; rt_tenants := []; rt_reports := [] |}.

Definition on (t : RTables) : Sql RTables := {| sq_tables := t; sq_calls := 0; sq_world := DepositRuns.world [] true |}.

Lemma on_up t : sq_up (on t).
Proof. by intros n. Qed.

(** A check that passes and one that cannot be run; the second is done first. *)
Definition fine : Check :=
  {| ck_Name := "fine"; ck_Run _ := Ok {| cr_Name := "fine"; cr_Status := Pass; cr_Details := []; cr_Mismatches := 0; cr_CheckedAt := 1 |} |}.
Definition broken : Check := {| ck_Name := "broken"; ck_Run _ := Err (MsgErr "connection lost") |}.
Definition renv : REnv := {| re_id := "r"%char; re_runAt := 5; re_now i := Z.of_nat i; re_arrival := [1; 0]%nat |}.
Definition ran : result Report * (gmap string Z * Sql RTables) := Run renv None [fine; broken] ∅ (on noTables).

Lemma reconciler_reports_all_witness : exists r, ran.1 = Ok r
  /\ map cr_Status (rp_Results r) = [Pass; Fail] /\ rp_OverallPass r <> true
  /\ exists r0 d2, GetLatestReport ran.2.2 = (Ok (Some r0), d2) /\ rp_Results r0 = rp_Results r.
Proof.
  assert (is_ok ran.1 = true) as H by (vm_compute; reflexivity). destruct ran as [[r|] [m d']] eqn:E; [|done]. exists r. split; [done|].
  destruct (reconciler_reports_all renv None [fine; broken] ∅ (on noTables) r m d') as (Hr & Hp & Hg); [apply Permutation_swap|exact E|].
  split; [rewrite Hr; reflexivity|]. split.
  - intros [_ [Hb _]%Forall_cons]%Hp%Forall_cons. discriminate Hb.
  - destruct Hg as (r0 & d2 & Hl & _ & _ & Hres); [constructor|apply on_up|]. by exists r0, d2.
Defined.

(** One tenant holds 10 GBP; the ledger has the account with the balance. *)
Definition held (q : Q) : Position :=
  {| pos_ID := "p"%char; pos_TenantID := "x"%char; pos_Currency := "GBP"; pos_Location := "bank:gbp"; pos_Balance := q; pos_Locked := 0 # 1; pos_MinBalance := 0 # 1;
     pos_TargetBalance := 0 # 1; pos_UpdatedAt := 0 |}.

Definition positionsOf (_ : UUID) : result (list Position) := Ok [held (10 # 1)].
Definition lemfi (_ : UUID) : result string := Ok "lemfi".
Definition balanceOf (account : string) : result Decimal := if String.eqb account "tenant:lemfi:assets:bank:gbp:bank:gbp" then Ok (10 # 1) else Err (MsgErr "no account").

Lemma treasury_check_passes_iff_witness : exists r,
  TreasuryLedgerCheck positionsOf lemfi balanceOf (0 # 1) (fun b fn w => Cache.ForEachTenantBatch 9 (CacheProps.pageOf ["x"; "y"]%char) b fn 0 w) 7 = Some (Ok r)
  /\ cr_Status r = Pass.
Proof.
  destruct (treasury_check_passes_iff (L := Qlib) (LL := Qlib_laws) positionsOf lemfi balanceOf (0 # 1) ["x"; "y"]%char 9 7) as (r & Hr & Hp);
    [cbn; lia|cbn; lia|done|].
  exists r. split; [exact Hr|]. apply Hp. intros id l pos _ [= <-] [-> |Hx%elem_of_nil]%elem_of_cons; [|done]. exists (10 # 1). split; [reflexivity|].
  vm_compute. discriminate.
Defined.

(** The transfers of the settlement of [SettlementRuns.calc]: 15 USD of fees. *)
Definition afterSettling (s : NetSettlement) : Sql RTables :=
  on {| rt_transfers := SettlementRuns.rows; rt_outbox := []; rt_default := []; rt_providerTxs := []; rt_sessions := ∅; rt_txs := []; rt_pool := [];
        rt_checkpoints := []; rt_bank := ∅; rt_accounts := []; rt_settlements := [s]; rt_tenants := []; rt_reports := [] |}.

Lemma fee_check_fails_on_fees_witness : exists s r rd', SettlementRuns.calc.1 = Ok s
  /\ SettlementFeeCheck (0 # 1) (fun _ => 0) (afterSettling s) = (Ok r, rd') /\ cr_Status r = Fail.
Proof.
  destruct SettlementRuns.calc_ok as [s Hs]. exists s.
  assert (exists fees, numeric28_8 (sumOf (map (fun t => TotalFeeUSD (tr_Fees t)) (periodTransfers SettlementRuns.T1 0 day SettlementRuns.rows))) = Ok fees
    /\ Qle_bool (dVal fees) (1 # 100) = false) as (fees & Hf & Hlt) by (eexists; split; [vm_compute; reflexivity|vm_compute; reflexivity]).
  destruct (fee_check_fails_on_fees (L := Qlib) (LL := Qlib_laws) "s"%char 0 SettlementRuns.T1 0 day SettlementRuns.db0 s SettlementRuns.calc.2 (afterSettling s) (fun _ => 0) fees
              SettlementRuns.rows_ok Hs (on_up _) eq_refl eq_refl Hf) as (r & rd' & Hr & Hiff).
  exists r, rd'. split_and!; [by rewrite Hs|exact Hr|]. apply Hiff. apply Qnot_le_lt. intros Hle. apply (Qle_trans _ _ _ (Qle_Qabs _)), Qle_bool_iff in Hle. congruence.
Defined.

(** The deposit of [DepositRuns.final] was paid in full and settled. *)
Definition afterDeposit : Sql RTables :=
  on {| rt_transfers := []; rt_outbox := []; rt_default := []; rt_providerTxs := []; rt_sessions := dv_sessions (dview DepositRuns.final);
        rt_txs := dv_txs (dview DepositRuns.final); rt_pool := []; rt_checkpoints := []; rt_bank := ∅; rt_accounts := []; rt_settlements := [];
        rt_tenants := []; rt_reports := [] |}.

Lemma every_deposit_is_a_mismatch_witness : (CountDepositTxAmountMismatches afterDeposit).1 = Ok 1
  /\ forall nows r rd2, DepositCheck 0 0 0 nows afterDeposit = (Ok r, rd2) -> cr_Status r = Fail.
Proof.
  assert ((CountDepositTxAmountMismatches afterDeposit).1 = Ok 1) as H by (vm_compute; reflexivity). split; [exact H|]. intros nows r rd2 Hr.
  destruct (CountDepositTxAmountMismatches afterDeposit) as [n d] eqn:E. cbn in H. rewrite H in E.
  destruct (every_deposit_is_a_mismatch (L := Qlib) DepositRuns.happyPath (DepositRuns.db0 [] true) afterDeposit 1 d (DepositRuns.db0_inv [] true) eq_refl eq_refl eq_refl E) as [_ Hfail].
  apply (Hfail 0 0 0 nows r rd2 eq_refl Hr).
Defined.

(** *** What the checks do not see, and what they see that is not there *)

Definition withTransfers (l : list Transfer) : Sql RTables :=
  on {| rt_transfers := l; rt_outbox := []; rt_default := []; rt_providerTxs := []; rt_sessions := ∅; rt_txs := []; rt_pool := [];
        rt_checkpoints := []; rt_bank := ∅; rt_accounts := []; rt_settlements := []; rt_tenants := []; rt_reports := [] |}.

Definition statusOfRun (r : result CheckResult) : option CheckStatus := match r with Ok r => Some (cr_Status r) | Err _ => None end.

Definition inStatus (status : TransferStatus) (created : Z) (id : ascii) : Transfer :=
  let t := SettlementRuns.completed id SettlementRuns.T1 "GBP" (100 # 1) "NGN" (200000 # 1) 0 in
  {| tr_ID := id; tr_TenantID := tr_TenantID t; tr_ExternalRef := ""; tr_IdempotencyKey := ""; tr_Status := status; tr_Version := 5;
     tr_SourceCurrency := "GBP"; tr_SourceAmount := tr_SourceAmount t; tr_DestCurrency := "NGN"; tr_DestAmount := tr_DestAmount t;
     tr_StableCoin := "USDT"; tr_StableAmount := 1 # 1; tr_Chain := "tron"; tr_FXRate := 1 # 1; tr_Fees := tr_Fees t; tr_FeeScheduleSnapshot := None;
     tr_OnRampProviderID := ""; tr_OffRampProviderID := ""; tr_Sender := tr_Sender t; tr_Recipient := tr_Recipient t; tr_QuoteID := None;
     tr_BlockchainTxs := []; tr_CreatedAt := created; tr_UpdatedAt := created; tr_FundedAt := None; tr_CompletedAt := None; tr_FailedAt := None;
     tr_FailureReason := ""; tr_FailureCode := "" |}.

(** A year in FUNDED is reported; a year in REFUNDING or CREATED is not, though
    the thresholds are documented to cover all non-terminal states. *)
Lemma refunding_is_never_stuck : let run x := statusOfRun (TransferStateCheck DefaultTransferThresholds (fun _ => 365 * day) (withTransfers [inStatus x 0 "1"])).1 in
  run Funded = Some Fail /\ run Refunding = Some Pass /\ run Created = Some Pass.
Proof. split_and!; vm_compute; reflexivity. Qed.

(** The average over the last seven days leaves yesterday out: six days with
    one transfer each, the same today, and yesterday any number. *)
Definition busyWeek (yesterday : nat) : Sql RTables :=
  withTransfers (map (fun k => inStatus Completed (Z.of_nat k * day) "1") [13; 14; 15; 16; 17; 18; 20]%nat ++ replicate yesterday (inStatus Completed (19 * day) "2")).

Lemma yesterday_is_not_averaged :
  (DailyVolumeCheck (fun _ => 20 * day) (busyWeek 0)).1 = (DailyVolumeCheck (fun _ => 20 * day) (busyWeek 50)).1
  /\ statusOfRun (DailyVolumeCheck (fun _ => 20 * day) (busyWeek 50)).1 = Some Pass.
Proof. split; vm_compute; reflexivity. Qed.

(** An account whose first session has settled and which serves another one
    is counted as orphaned: the query asks for any past session. *)
Definition inUseAgain : VirtualAccountPool :=
  {| va_ID := "a"%char; va_TenantID := DepositRuns.tenantID; va_BankingPartnerID := "bank"; va_AccountNumber := "1"; va_AccountName := "Lemfi"; va_SortCode := "00";
     va_IBAN := ""; va_Currency := "GBP"; va_AccountType := VirtualAccountTypeTemporary; va_Available := false; va_SessionID := Some "n"%char;
     va_CreatedAt := 0; va_UpdatedAt := 0 |}.

Definition secondUse : Sql RTables :=
  on {| rt_transfers := []; rt_outbox := []; rt_default := []; rt_providerTxs := []; rt_sessions := ∅; rt_txs := []; rt_pool := [];
        rt_checkpoints := []; rt_bank := bv_sessions (bview BankRuns.final); rt_accounts := [inUseAgain]; rt_settlements := []; rt_tenants := []; rt_reports := [] |}.

Lemma account_in_use_is_orphaned : (CountOrphanedVirtualAccounts secondUse).1 = Ok 1.
Proof. vm_compute. reflexivity. Qed.

(** The shipped schema gives a report no id, so a run stores nothing and ends
    in an error, while the marks of the checks that passed move on. *)
Lemma shipped_schema_stores_no_report :
  let '(r, (m, d)) := Run renv None [fine; broken] ∅ {| sq_tables := noTables; sq_calls := 0; sq_world := DepositRuns.world [] false |} in
  is_ok r = false /\ rt_reports (sq_tables d) = [] /\ m !! "fine" = Some 0.
Proof. vm_compute. split_and!; reflexivity. Qed.
End ReconciliationRuns.
